(* ===== verification/_CoqProject ===== *)
-Q . S2P
Prelude.v
GoBinary.v
Wire.v
GoStrings.v
GoCrypto.v
Credential.v
Scram.v
Ratelimit.v
RecordBatch.v
Lz4.v
Compression.v
Index.v
Segment.v
SegmentOps.v
Partition.v
PartitionOps.v
Tiering.v
TieringProps.v
Compaction.v
CompactionProps.v
CompactionWriter.v
Idempotence.v
Store.v
Authz.v
Frame.v
MsgData.v
MsgAdmin.v
MsgGroup.v
MsgGroupAdmin.v
MsgCarried.v
Messages.v
OffsetWal.v
OffsetStore.v
Producer.v
Group.v
GroupOps.v
GroupProps.v
Broker.v
BrokerProps.v
OneRecord.v
Sasl.v
Server.v
ServerProps.v
Accumulator.v
Client.v
Consumer.v
ConsumerProps.v
ClientServer.v
MqttPacket.v
Mqtt.v
MqttProps.v
GoAes.v
GoRegexp.v
GoJson.v
FleetJobs.v
FleetJobsProps.v
FleetJobsFile.v
FleetRegistry.v
FleetRegistryProps.v
FleetAuth.v
FleetAgent.v
FleetAudit.v
FleetServer.v
FleetServerProps.v
FleetEndToEnd.v
FleetDemo.v
SchemaRegistry.v
SchemaRegistryProps.v
WebSession.v
WebTokens.v
WebAuth.v
WebAuthProps.v
Httpauth.v
Rest.v
RestProps.v
WebTopics.v
WebSearch.v
