(* ===== verification/Prelude.v ===== *)
(** * PocketKafka: a verification library

    PocketKafka is a single-node broker that speaks the Kafka protocol. A
    connection carries length-prefixed frames; a frame holds a request header
    and a message; the broker decodes the message, calls the partition logs or
    the group coordinator, and encodes the answer. This library models the
    broker's wire format, its storage engine with compaction, its group
    coordinator, its authorization rules, its request handlers, and the server
    that authenticates connections, as executable definitions that follow the
    Go sources function by function, and proves what makes them correct.

    ** Files, in dependency order

    - Prelude.v (this file): outcomes of Go code (value, returned error, run-time
      panic) with their bind [let?]; fixed-width integers [u8] .. [i64] with
      their wrap-around; slices; big-endian bytes; the tactics [mlia] and
      [decide_closed].
    - GoBinary.v: the parts of Go's standard library the program rests on:
      encoding/binary's varints, hash/crc32's Castagnoli checksum.
    - Wire.v: pkg/protocol/reader.go and writer.go. A reader is a state monad
      over a buffer and an offset. The round-trip calculus [rt], the class
      [Codec] (an encoder and a decoder that invert each other), the judgement
      [safe] (never panics) and its opposite [crash].
    - GoStrings.v, GoCrypto.v: the parts of Go's packages strings, strconv, sort,
      crypto and encoding/base64 the program uses, SHA-2 included.
    - Credential.v, Scram.v, Ratelimit.v: internal/credential, the SCRAM half of
      internal/server, internal/ratelimit.
    - RecordBatch.v: pkg/protocol/record_batch.go.
    - Lz4.v, Compression.v: pkg/protocol/compression.go, the repository's own
      Snappy and LZ4 codecs; compress/gzip is a parameter.
    - Index.v, Segment.v, SegmentOps.v: internal/storage/index.go, segment.go,
      record.go. Files are byte lists; [seg_inv] says that a segment holds a
      list of batches, [spec_read] is what a read should return.
    - Partition.v, PartitionOps.v: internal/storage/partition.go, retention.go;
      [pt_inv] says that a partition is a chain of segments.
    - Tiering.v, TieringProps.v: internal/storage/tiered.go: closed segments in an
      object store (a class), with a stub in their place.
    - Compaction.v, CompactionProps.v, CompactionWriter.v:
      internal/storage/compaction.go; the swap of the staged files is a list of
      file-system calls, the rewriting of the log is [cw_add] and its helpers.
    - Idempotence.v: internal/storage/idempotence.go.
    - Store.v: internal/storage/store.go, manifest.go: the topic catalogue.
    - Authz.v: internal/authz: the class [Authorizer] and its implementations
      (everyone, super users, the rule store).
    - Frame.v: pkg/protocol/frame.go, types.go, and the framing half of
      [KafkaClient.roundTrip] (pkg/client/client.go).
    - MsgData.v, MsgAdmin.v, MsgGroup.v, MsgGroupAdmin.v: the messages (a Module
      per family), the broker's half and the client's half of each. MsgCarried.v
      says which fields of a message a version carries; Messages.v puts the
      messages into one type.
    - OffsetWal.v, OffsetStore.v: internal/coordinator/offset_wal.go and
      offset_store.go, with an abstract store of committed offsets.
    - Producer.v: internal/coordinator/producer.go.
    - Group.v, GroupOps.v, GroupProps.v: internal/coordinator/group.go, its
      invariant, and its guarantees.
    - Broker.v, BrokerProps.v: internal/handler: every request handler and the
      dispatch, for any [Authorizer], and what a client sees of them.
    - OneRecord.v: storing a record in a batch of its own and reading it back, which
      the MQTT bridge, the REST gateway and the console share.
    - Sasl.v, Server.v, ServerProps.v: internal/server: authentication, the
      connections as a state machine over the broker, and its invariant.
    - Accumulator.v, Client.v, Consumer.v, ConsumerProps.v: pkg/client: the
      batching of records, the client's calls over an abstract [Network], the
      consumer group and its assignment. ClientServer.v runs them against the
      server of Server.v as that [Network].
    - MqttPacket.v, Mqtt.v, MqttProps.v: internal/gateway/mqtt.go: the packets and
      the mapping of topics, the bridge as a state machine over the topic store,
      and its guarantees.
    - GoJson.v: which bytes are JSON, and the class [Json] of values with an encoding.
    - FleetJobs.v, FleetJobsProps.v, FleetJobsFile.v: internal/fleet/jobs.go: the
      job table, the life of a job, the file it is kept in.
    - GoAes.v, GoRegexp.v: AES-256-GCM and the regular expressions of Go's library,
      as far as the fleet uses them.
    - FleetRegistry.v, FleetRegistryProps.v: internal/fleet/registry.go and seal.go:
      servers, agents and enrollment tokens with their file; sealed keys.
    - FleetAuth.v: internal/fleet/auth.go: signed messages and their verifier.
    - FleetAgent.v: internal/fleet/agent.go: messages, the agent that executes jobs,
      the sessions at the server. FleetAudit.v: internal/fleet/audit.go.
    - FleetServer.v, FleetServerProps.v: internal/fleet/server.go, ratelimit.go: the
      handlers as a step function on the fleet's state, and who may change what.
      FleetEndToEnd.v composes both ends; FleetDemo.v is a concrete fleet.
    - SchemaRegistry.v, SchemaRegistryProps.v: internal/schemaregistry: the registry
      of schemas with its file, and the map it implements.
    - WebSession.v, WebTokens.v, WebAuth.v, WebAuthProps.v: internal/web/session.go,
      delegated_tokens.go, auth.go, security.go, authz_map.go and the gate of web.go:
      sessions, tokens, and who gets to the console's API.
    - Httpauth.v: internal/httpauth. Rest.v, RestProps.v: internal/gateway/rest.go.
    - WebTopics.v, WebSearch.v: internal/web/web.go, admin.go, features.go and
      enterprise.go: the handlers behind the gate, and the search for messages.

    ** How the model corresponds to the code

    A Go function is a definition of the same name; a method takes its receiver
    as an argument and returns the changed one. Loops are structural recursions;
    where the Go loop is not structural (scanning a log file, replaying a
    write-ahead log), the recursion has fuel, the caller passes one more than
    the length of the file, every round consumes at least one byte, and the
    theorems prove the result, not the result if fuel suffices. Errors are
    values of [outcome]; a slice out of range, a negative [make], a nil map
    entry is [Panic]. Signed and unsigned integers are [Z] with the wrap-around
    of their width written out wherever the Go code can leave it; file
    positions and sizes (int64 byte counts) are plain [Z].

    Code that holds a mutex from start to end is one step. [CommitBatch] takes
    two locks one after the other and is two steps ([commit_memory],
    [commit_log]). [JoinGroup] and [SyncGroup] wait without the mutex: they are
    the step until the call answers or waits, and the step a waiting call takes
    when woken. Time and crash points (how many bytes of a write reached the
    file, which step of a snapshot failed) are arguments. A waiting SyncGroup
    holds its group by pointer: a group carries a number of its creation
    ([g_born]), by which the call tells its group from one created later under
    the same name.

    ** What the theorems show

    - End to end (C1-C2): a batch produced over the wire is acknowledged at the
      log end, and a fetch from there returns that batch, record for record; what
      a user of the client library sends, another user's handler receives, through
      both implementations of the protocol and the connection loop.
    - Storage (C3-C9): an append assigns the next offset and adds exactly that
      batch to the partition, also across a segment roll; a read returns the
      whole batches the specification asks for; a partition reopened after a
      crash in the middle of a write has its complete batches back; compaction keeps the last record of every
      key and a crash at any of its file operations leaves the old log or the new
      one; a client cannot tell an offloaded segment from a local one.
    - Committed offsets (C10): the store refines a map through any sequence of
      commits, deletions, prunings, compactions (also failing ones) and restarts.
    - Coordinator (C11-C13): it never panics and keeps its invariant on every
      run; a rebalance completes when the last member joins and every waiting
      member learns the same if it wakes before its deadline, while one that wakes
      later empties the group; stale members cannot commit.
    - Isolation and authentication (C14-C19): no request, also one that waits,
      changes a topic, or a group or its committed offsets, its sender has no
      operation on; only authenticated connections reach the broker, and each has a
      verified certificate or sent the password or the SCRAM proof on that same
      connection; a SCRAM client that knows its password gets in; a client that
      is not authenticated cannot crash the server; connections are bounded and
      drain at shutdown.
    - Authorization (C20): the decision of the rule store is the one its rules
      mean.
    - Wire format (C21-C24): every message the repository both writes and reads
      round-trips in every version, up to the fields that version does not carry;
      record batches and compressed records round-trip, and every decompression
      ends.
    - Client (C25): the assignment gives every partition to exactly one member.
    - MQTT (C26-C27): a published message reaches a subscriber; clients stay within
      their rights.
    - REST (C28): what is published over HTTP is read back over HTTP.
    - Fleet (C29-C34): an action that the console accepts is done by the agent and
      its outcome recorded; console requests need the proxy's token and the right,
      agents reach the jobs of their own server only; tokens enroll once and
      revocations are final, also across restarts; a signed message is accepted
      once; jobs only move forward and end once; the table survives restarts and
      crashes.
    - Console (C35-C38): nobody gets to the API without proving who he is, and then
      only to what his rules allow; tokens act for their user until revoked, also
      across restarts; sessions end when they should; a search misses nothing.
    - Schemas (C39): the registry refines a map from subjects to versions, which a
      restart keeps.
    - Behaviour worth knowing (C40): anyone can authenticate as a name that is not
      configured; further theorems of this kind are lemmas next to the
      definitions they are about, as are retention, the delivery of assignments, the
      order of the accumulator, the progress of MQTT subscriptions and that no packet
      crashes the bridge, the order of idempotent producers, back-off, stored
      credentials, truncation, frames, MQTT packets and rate limits.

    ** What is not modelled

    System calls that fail (other than writes and file operations cut by a
    crash, saves of the fleet, the console and the schemas, and snapshots of the
    committed offsets); Go's scheduler (steps interleave in any order, which runs of events
    cover); channel notifications (a waiting call may be woken at any time);
    opening listeners, TLS itself, and network deadlines (a read that times out
    is an input that ends); the requests to the object store and to Docker; the
    ticker loops of the client and its multi-broker half; HTTP itself (a request
    to the fleet's server, to the console or to the schema registry is its decoded
    parts). The console's monitoring and its proxying to other clusters, the
    configuration and the commands are glue around the parts above. *)

From stdpp Require Import prelude gmap list strings.
From Stdlib Require Import ZArith Lia.
From Stdlib Require Strings.Byte.
From Stdlib Require Export Init.Byte.

#[global] Open Scope Z_scope.

(** ** Outcomes of Go code: a value, a returned error, or a run-time panic.
    Error values are the text of the Go error without its formatted
    arguments. *)

Abbreviation error := string.

Inductive outcome (A : Type) : Type :=
| Ok (a : A)
| Err (e : error)
| Panic.
Arguments Ok {A} a.
Arguments Err {A} e.
Arguments Panic {A}.

#[global] Instance outcome_eq_dec {A} `{EqDecision A} : EqDecision (outcome A).
Proof. solve_decision. Defined.

#[global] Instance Ok_inj {A} : Inj (=) (=) (@Ok A).
Proof. congruence. Qed.

Definition obind {A B} (c : outcome A) (k : A -> outcome B) : outcome B :=
  match c with
  | Ok a => k a
  | Err e => Err e
  | Panic => Panic
  end.

(** The error of a loop whose fuel ran out; no theorem relies on it. *)
Definition no_fuel : error := "out of fuel".

Declare Scope go_scope.
Delimit Scope go_scope with go.
Notation "'let?' x := c 'in' k" := (obind c (fun x => k))
  (at level 10, x pattern, c at level 100, k at level 200) : go_scope.
#[global] Open Scope go_scope.

(** ** Machine integers: Go's conversions [intN(x)] and [uintN(x)]. *)

Definition u8 (z : Z) : Z := z mod 256.
Definition u16 (z : Z) : Z := z mod 65536.
Definition u32 (z : Z) : Z := z mod 4294967296.
Definition u64 (z : Z) : Z := z mod 18446744073709551616.
Definition i8 (z : Z) : Z := (z + 128) mod 256 - 128.
Definition i16 (z : Z) : Z := (z + 32768) mod 65536 - 32768.
Definition i32 (z : Z) : Z := (z + 2147483648) mod 4294967296 - 2147483648.
Definition i64 (z : Z) : Z :=
  (z + 9223372036854775808) mod 18446744073709551616 - 9223372036854775808.

Definition in_i8 (z : Z) : Prop := -128 <= z < 128.
Definition in_i16 (z : Z) : Prop := -32768 <= z < 32768.
Definition in_i32 (z : Z) : Prop := -2147483648 <= z < 2147483648.
Definition in_i64 (z : Z) : Prop :=
  -9223372036854775808 <= z < 9223372036854775808.
Definition in_u16 (z : Z) : Prop := 0 <= z < 65536.
Definition in_u32 (z : Z) : Prop := 0 <= z < 4294967296.
Definition in_u64 (z : Z) : Prop := 0 <= z < 18446744073709551616.

(** [mlia] unfolds the range predicates and calls [lia]. *)
Ltac mlia :=
  unfold in_i8, in_i16, in_i32, in_i64, in_u16, in_u32, in_u64 in *; lia.

#[global] Instance in_i8_dec z : Decision (in_i8 z).
Proof. unfold in_i8. apply _. Defined.
#[global] Instance in_i16_dec z : Decision (in_i16 z).
Proof. unfold in_i16. apply _. Defined.
#[global] Instance in_i32_dec z : Decision (in_i32 z).
Proof. unfold in_i32. apply _. Defined.
#[global] Instance in_i64_dec z : Decision (in_i64 z).
Proof. unfold in_i64. apply _. Defined.
#[global] Instance in_u32_dec z : Decision (in_u32 z).
Proof. unfold in_u32. apply _. Defined.

(** Decide a closed proposition by evaluating its [Decision] instance. *)
Ltac decide_closed := apply (bool_decide_unpack _); vm_compute; exact I.

Section machine.
Implicit Types z : Z.

Lemma i8_id z : in_i8 z -> i8 z = z.
Proof. unfold i8. intros. rewrite Z.mod_small; mlia. Qed.
Lemma i16_id z : in_i16 z -> i16 z = z.
Proof. unfold i16. intros. rewrite Z.mod_small; mlia. Qed.
Lemma i32_id z : in_i32 z -> i32 z = z.
Proof. unfold i32. intros. rewrite Z.mod_small; mlia. Qed.
Lemma i64_id z : in_i64 z -> i64 z = z.
Proof. unfold i64. intros. rewrite Z.mod_small; mlia. Qed.
Lemma u32_id z : in_u32 z -> u32 z = z.
Proof. unfold u32. intros. rewrite Z.mod_small; mlia. Qed.
Lemma u64_id z : in_u64 z -> u64 z = z.
Proof. unfold u64. intros. rewrite Z.mod_small; mlia. Qed.
Lemma u16_id z : in_u16 z -> u16 z = z.
Proof. unfold u16. intros. rewrite Z.mod_small; mlia. Qed.

Lemma i8_range z : in_i8 (i8 z).
Proof. unfold i8. pose proof (Z.mod_pos_bound (z + 128) 256). mlia. Qed.
Lemma i16_range z : in_i16 (i16 z).
Proof. unfold i16. pose proof (Z.mod_pos_bound (z + 32768) 65536). mlia. Qed.
Lemma i32_range z : in_i32 (i32 z).
Proof.
  unfold i32. pose proof (Z.mod_pos_bound (z + 2147483648) 4294967296). mlia.
Qed.
Lemma i64_range z : in_i64 (i64 z).
Proof.
  unfold i64.
  pose proof (Z.mod_pos_bound (z + 9223372036854775808) 18446744073709551616).
  mlia.
Qed.
Lemma u32_range z : in_u32 (u32 z).
Proof. unfold u32. pose proof (Z.mod_pos_bound z 4294967296). mlia. Qed.
Lemma u64_range z : in_u64 (u64 z).
Proof.
  unfold u64. pose proof (Z.mod_pos_bound z 18446744073709551616). mlia.
Qed.

(** Converting to the unsigned type of the same width and back. *)
Lemma i8_u8 z : i8 (u8 z) = i8 z.
Proof. unfold i8, u8. by rewrite Zplus_mod_idemp_l. Qed.
Lemma i16_u16 z : i16 (u16 z) = i16 z.
Proof. unfold i16, u16. by rewrite Zplus_mod_idemp_l. Qed.
Lemma i32_u32 z : i32 (u32 z) = i32 z.
Proof. unfold i32, u32. by rewrite Zplus_mod_idemp_l. Qed.
Lemma i64_u64 z : i64 (u64 z) = i64 z.
Proof. unfold i64, u64. by rewrite Zplus_mod_idemp_l. Qed.
End machine.

(** ** Bytes and byte slices *)

Definition b2z (b : byte) : Z := Z.of_N (Byte.to_N b).

Definition z2b (z : Z) : byte :=
  match Byte.of_N (Z.to_N (z mod 256)) with Some b => b | None => x00 end.

Lemma b2z_range b : 0 <= b2z b < 256.
Proof. unfold b2z. pose proof (Byte.to_N_bounded b). lia. Qed.

Lemma z2b_b2z b : z2b (b2z b) = b.
Proof.
  unfold z2b. rewrite Z.mod_small by apply b2z_range.
  unfold b2z. rewrite N2Z.id. by rewrite Byte.of_to_N.
Qed.

Lemma b2z_z2b z : b2z (z2b z) = z mod 256.
Proof.
  unfold z2b, b2z. pose proof (Z.mod_pos_bound z 256 ltac:(lia)) as Hb.
  destruct (Byte.of_N (Z.to_N (z mod 256))) as [b|] eqn:E.
  - apply Byte.to_of_N in E. rewrite E. rewrite Z2N.id; lia.
  - apply Byte.of_N_None_iff in E. lia.
Qed.

#[global] Instance b2z_inj : Inj (=) (=) b2z.
Proof. intros a b H. by rewrite <- (z2b_b2z a), H, z2b_b2z. Qed.

#[global] Instance byte_eq_dec : EqDecision byte.
Proof. intros a b. apply Byte.byte_eq_dec. Defined.

#[global] Program Instance byte_countable : Countable byte :=
  inj_countable Byte.to_N Byte.of_N _.
Next Obligation. intros b. apply Byte.of_to_N. Qed.

(** Go's [len]. *)
Definition zlen {A} (l : list A) : Z := Z.of_nat (length l).

Lemma zlen_nonneg {A} (l : list A) : 0 <= zlen l.
Proof. unfold zlen. lia. Qed.
Lemma zlen_app {A} (l k : list A) : zlen (l ++ k) = zlen l + zlen k.
Proof. unfold zlen. rewrite length_app. lia. Qed.
Lemma zlen_cons {A} (x : A) l : zlen (x :: l) = 1 + zlen l.
Proof. unfold zlen. simpl. lia. Qed.
Lemma zlen_nil {A} : zlen (@nil A) = 0.
Proof. done. Qed.

Create Rewrite HintDb zlen.
#[global] Hint Rewrite @zlen_app @zlen_cons @zlen_nil : zlen.

(** [buf[lo:hi]] without the bounds check; [slice] has Go's bounds check. *)
Definition sub {A} (buf : list A) (lo hi : Z) : list A :=
  take (Z.to_nat (hi - lo)) (drop (Z.to_nat lo) buf).

Definition slice {A} (buf : list A) (lo hi : Z) : outcome (list A) :=
  if (0 <=? lo) && (lo <=? hi) && (hi <=? zlen buf)
  then Ok (sub buf lo hi) else Panic.

Lemma zlen_sub {A} (buf : list A) lo hi :
  0 <= lo <= hi -> hi <= zlen buf -> zlen (sub buf lo hi) = hi - lo.
Proof. unfold sub, zlen. rewrite length_take, length_drop. lia. Qed.

Lemma sub_app_mid {A} (pre mid post : list A) :
  sub (pre ++ mid ++ post) (zlen pre) (zlen pre + zlen mid) = mid.
Proof.
  unfold sub, zlen. rewrite Nat2Z.id, drop_app_length.
  replace (Z.to_nat (_ - _)) with (length mid) by lia.
  by rewrite take_app_length.
Qed.

Lemma sub_mid {A} (pre mid post : list A) lo hi :
  lo = zlen pre -> hi = lo + zlen mid -> sub (pre ++ mid ++ post) lo hi = mid.
Proof. intros -> ->. apply sub_app_mid. Qed.

Lemma slice_mid {A} (pre mid post : list A) lo hi :
  lo = zlen pre -> hi = lo + zlen mid ->
  slice (pre ++ mid ++ post) lo hi = Ok mid.
Proof.
  intros -> ->. unfold slice. rewrite sub_app_mid.
  rewrite !zlen_app. pose proof (zlen_nonneg pre). pose proof (zlen_nonneg mid).
  pose proof (zlen_nonneg post).
  rewrite !(proj2 (Z.leb_le _ _)) by lia. done.
Qed.

Lemma slice_ok {A} (buf : list A) lo hi :
  0 <= lo <= hi -> hi <= zlen buf -> slice buf lo hi = Ok (sub buf lo hi).
Proof.
  intros. unfold slice. rewrite !(proj2 (Z.leb_le _ _)) by lia. done.
Qed.

(** The code returns (a value or an error) without running out of fuel or
    panicking. *)
Definition total {A} (o : outcome A) : Prop :=
  match o with Ok _ => True | Err e => e <> no_fuel | Panic => False end.

Lemma total_bind {A B} (c : outcome A) (k : A -> outcome B) :
  total c -> (forall a, c = Ok a -> total (k a)) -> total (obind c k).
Proof. destruct c; cbn; auto. Qed.

Lemma total_slice {A} (buf : list A) lo hi : 0 <= lo <= hi -> hi <= zlen buf -> total (slice buf lo hi).
Proof. intros. by rewrite slice_ok. Qed.

Create HintDb total.
#[global] Hint Resolve total_slice : total.

(** ** Big-endian integers ([encoding/binary.BigEndian]) *)

(** [be n v]: the [n] bytes [PutUint(8n)] and [AppendUint(8n)] write for the
    conversion of [v] to an unsigned [8n]-bit integer. *)
Fixpoint be (n : nat) (v : Z) : list byte :=
  match n with
  | O => []
  | S m => z2b (Z.shiftr v (8 * Z.of_nat m)) :: be m v
  end.

(** [ube bs]: the unsigned integer [Uint(8n)] reads from [n] bytes. *)
Fixpoint ube (bs : list byte) : Z :=
  match bs with
  | [] => 0
  | b :: r => b2z b * 2 ^ (8 * zlen r) + ube r
  end.

Lemma length_be n v : length (be n v) = n.
Proof. induction n; simpl; congruence. Qed.
Lemma zlen_be n v : zlen (be n v) = Z.of_nat n.
Proof. unfold zlen. by rewrite length_be. Qed.
#[global] Hint Rewrite zlen_be : zlen.

Lemma ube_range bs : 0 <= ube bs < 2 ^ (8 * zlen bs).
Proof.
  induction bs as [|b r IH]; [done|].
  rewrite zlen_cons. cbn [ube].
  replace (8 * (1 + zlen r)) with (8 + 8 * zlen r) by lia.
  rewrite Z.pow_add_r by (pose proof (zlen_nonneg r); lia).
  pose proof (b2z_range b). nia.
Qed.

Lemma ube_be n v : ube (be n v) = v mod 2 ^ (8 * Z.of_nat n).
Proof.
  induction n as [|n IH]; [by rewrite Z.mod_1_r|].
  cbn [be ube]. rewrite IH, zlen_be, b2z_z2b, Z.shiftr_div_pow2 by lia.
  replace (8 * Z.of_nat (S n)) with (8 * Z.of_nat n + 8) by lia.
  rewrite Z.pow_add_r by lia. change (2 ^ 8) with 256.
  rewrite (Z.rem_mul_r v (2 ^ (8 * Z.of_nat n)) 256) by (try apply Z.pow_nonzero; lia).
  ring.
Qed.

Lemma ube_inj bs cs : length bs = length cs -> ube bs = ube cs -> bs = cs.
Proof.
  revert cs. induction bs as [|b r IH]; intros [|c s] Hl H; simplify_eq/=; [done|].
  assert (zlen r = zlen s) as Hz by (unfold zlen; lia). rewrite Hz in H.
  pose proof (ube_range r). pose proof (ube_range s). rewrite Hz in *.
  assert (b2z b = b2z c) as Hb by nia.
  f_equal; [by apply b2z_inj|]. apply IH; [lia|]. rewrite Hb in H. lia.
Qed.

Lemma be_ube bs : be (length bs) (ube bs) = bs.
Proof.
  apply ube_inj; [apply length_be|]. rewrite ube_be.
  apply Z.mod_small. apply ube_range.
Qed.

Lemma be_mod n v : be n (v mod 2 ^ (8 * Z.of_nat n)) = be n v.
Proof.
  apply ube_inj; [by rewrite !length_be|]. rewrite !ube_be.
  by rewrite Zmod_mod.
Qed.

Lemma ube_be_small n v : 0 <= v < 2 ^ (8 * Z.of_nat n) -> ube (be n v) = v.
Proof. intros. rewrite ube_be. by apply Z.mod_small. Qed.

Lemma i16_ube_be v : in_i16 v -> i16 (ube (be 2 (u16 v))) = v.
Proof.
  intros. rewrite ube_be. change (2 ^ (8 * Z.of_nat 2)) with 65536.
  unfold u16. rewrite Zmod_mod. fold (u16 v). rewrite i16_u16. by apply i16_id.
Qed.
Lemma i32_ube_be v : in_i32 v -> i32 (ube (be 4 (u32 v))) = v.
Proof.
  intros. rewrite ube_be. change (2 ^ (8 * Z.of_nat 4)) with 4294967296.
  unfold u32. rewrite Zmod_mod. fold (u32 v). rewrite i32_u32. by apply i32_id.
Qed.
Lemma i64_ube_be v : in_i64 v -> i64 (ube (be 8 (u64 v))) = v.
Proof.
  intros. rewrite ube_be.
  change (2 ^ (8 * Z.of_nat 8)) with 18446744073709551616.
  unfold u64. rewrite Zmod_mod. fold (u64 v). rewrite i64_u64. by apply i64_id.
Qed.

(** A counter that wraps never repeats at once. *)
Lemma i16_succ_ne z : in_i16 z -> z <> i16 (z + 1).
Proof.
  intros H E. destruct (decide (z = 32767)) as [->|Hne]; [done|].
  rewrite i16_id in E by mlia. lia.
Qed.

Lemma i32_succ_ne z : in_i32 z -> z <> i32 (z + 1).
Proof.
  intros H E. destruct (decide (z = 2147483647)) as [->|Hne]; [done|].
  rewrite i32_id in E by mlia. lia.
Qed.

(** ** Concatenations *)

Lemma mjoin_snoc {A} (bs : list (list A)) b : mjoin (bs ++ [b]) = mjoin bs ++ b.
Proof. rewrite join_app. simpl. by rewrite app_nil_r. Qed.

Lemma mjoin_cons {A} (bs : list (list A)) b : mjoin (b :: bs) = b ++ mjoin bs.
Proof. done. Qed.

Lemma mjoin_app_cons {A} (bs1 bs2 : list (list A)) b :
  mjoin (bs1 ++ b :: bs2) = mjoin bs1 ++ b ++ mjoin bs2.
Proof. by rewrite join_app. Qed.
