(* ===== verification/GoBinary.v ===== *)
(** * The parts of Go's standard library the wire format rests on

    [encoding/binary]'s variable-length integers and [hash/crc32] with the
    Castagnoli table, executable, with the round trips of the former. *)

From stdpp Require Import prelude list.
From Stdlib Require Import ZArith Lia.
From S2P Require Import Prelude.

(** ** Unsigned variable-length integers *)

(** [binary.MaxVarintLen64]. *)
Definition MaxVarintLen64 : Z := 10.

(** [binary.PutUvarint]: the loop runs at most nine times on a 64-bit value,
    so ten units of fuel suffice ([put_uvarint_fuel]). *)
Fixpoint put_uvarint (fuel : nat) (x : Z) : list byte :=
  match fuel with
  | O => []
  | S f => if 128 <=? x
           then z2b (Z.lor (x mod 256) 128) :: put_uvarint f (Z.shiftr x 7)
           else [z2b x]
  end.

Definition PutUvarint (x : Z) : list byte := put_uvarint 10 x.

(** The loop of [binary.Uvarint] over the bytes left, at index [i]; the second
    component is the number of bytes read, negative on overflow, 0 when the
    buffer ends too early. *)
Fixpoint uvarint_loop (i s x : Z) (buf : list byte) : Z * Z :=
  match buf with
  | [] => (0, 0)
  | b :: rest =>
      if i =? MaxVarintLen64 then (0, - (i + 1))
      else if b2z b <? 128 then
        if (i =? MaxVarintLen64 - 1) && (1 <? b2z b) then (0, - (i + 1))
        else (Z.lor x (u64 (Z.shiftl (b2z b) s)), i + 1)
      else uvarint_loop (i + 1) (s + 7)
             (Z.lor x (u64 (Z.shiftl (Z.land (b2z b) 127) s))) rest
  end.

Definition Uvarint (buf : list byte) : Z * Z := uvarint_loop 0 0 0 buf.

(** ** Signed variable-length integers (zig-zag) *)

(** [ux := uint64(x) << 1; if x < 0 { ux = ^ux }] *)
Definition zigzag (x : Z) : Z :=
  let ux := u64 (Z.shiftl (u64 x) 1) in
  if x <? 0 then 18446744073709551615 - ux else ux.

(** [x := int64(ux >> 1); if ux&1 != 0 { x = ^x }] *)
Definition unzigzag (ux : Z) : Z :=
  let x := i64 (Z.shiftr ux 1) in
  if Z.odd ux then - x - 1 else x.

Definition PutVarint (x : Z) : list byte := PutUvarint (zigzag x).

Definition Varint (buf : list byte) : Z * Z :=
  let '(ux, n) := Uvarint buf in (unzigzag ux, n).

(** ** CRC-32C ([hash/crc32.Checksum] with [crc32.Castagnoli]) *)

Definition crc32c_bit (c : Z) : Z :=
  if Z.odd c then Z.lxor (Z.shiftr c 1) 2197175160 else Z.shiftr c 1.

Definition crc32c_byte (c : Z) (b : byte) : Z :=
  Nat.iter 8 crc32c_bit (Z.lxor c (b2z b)).

Definition crc32c (bs : list byte) : Z :=
  Z.lxor (fold_left crc32c_byte bs 4294967295) 4294967295.

(** ** Round trip of the unsigned encoding *)

Lemma lor_disjoint x y s : 0 <= s -> 0 <= x < 2 ^ s -> 0 <= y ->
  Z.lor x (Z.shiftl y s) = x + y * 2 ^ s.
Proof.
  intros Hs Hx Hy.
  assert (Z.land x (Z.shiftl y s) = 0) as Hd.
  { apply Z.bits_inj'. intros k Hk.
    rewrite Z.land_spec, Z.bits_0, Z.shiftl_spec by lia.
    destruct (Z.ltb_spec k s).
    - by rewrite (Z.testbit_neg_r y), andb_false_r by lia.
    - destruct (decide (x = 0)) as [->|]; [by rewrite Z.bits_0|].
      rewrite Z.bits_above_log2; [done|lia|]. apply Z.log2_lt_pow2; [lia|].
      pose proof (Z.pow_le_mono_r 2 s k). lia. }
  rewrite <- Z.lxor_lor by done. rewrite <- Z.add_nocarry_lxor by done.
  by rewrite Z.shiftl_mul_pow2 by lia.
Qed.

Lemma low7_or x : 0 <= x -> Z.lor (x mod 256) 128 = x mod 128 + 128.
Proof.
  intros Hx.
  assert (x mod 256 = x mod 128 + 128 * (x / 128 mod 2)) as ->.
  { rewrite <- (Z.rem_mul_r x 128 2) by lia. done. }
  pose proof (Z.mod_pos_bound x 128). pose proof (Z.mod_pos_bound (x / 128) 2).
  assert (forall y, 0 <= y < 128 -> Z.lor y 128 = y + 128) as Hlow.
  { intros y Hy. exact (lor_disjoint y 1 7 ltac:(lia) Hy ltac:(lia)). }
  assert (x / 128 mod 2 = 0 \/ x / 128 mod 2 = 1) as [->| ->] by lia.
  - rewrite Z.mul_0_r, Z.add_0_r. apply Hlow. lia.
  - rewrite Z.mul_1_r, <- Hlow by lia. by rewrite <- Z.lor_assoc, Z.lor_diag.
Qed.

Lemma land127 y : Z.land y 127 = y mod 128.
Proof. change 127 with (Z.ones 7). by rewrite Z.land_ones by lia. Qed.

Lemma uvarint_loop_put (fuel : nat) i x v post :
  (0 < fuel)%nat -> 0 <= i -> i + Z.of_nat fuel = 10 ->
  0 <= x < 2 ^ (7 * i) -> 0 <= v -> v * 2 ^ (7 * i) < 18446744073709551616 ->
  uvarint_loop i (7 * i) x (put_uvarint fuel v ++ post)
  = (x + v * 2 ^ (7 * i), i + zlen (put_uvarint fuel v)).
Proof.
  revert i x v. induction fuel as [|f IH]; intros i x v Hf Hi Hif Hx Hv Hb; [lia|].
  assert (0 < 2 ^ (7 * i)) by (apply Z.pow_pos_nonneg; lia).
  cbn [put_uvarint]. destruct (Z.leb_spec 128 v) as [Hge|Hlt].
  - (* continuation byte *)
    assert (i < 9).
    { destruct (decide (i = 9)) as [->|]; [|lia].
      change (2 ^ (7 * 9)) with 9223372036854775808 in *. lia. }
    cbn [app uvarint_loop]. unfold MaxVarintLen64.
    rewrite (proj2 (Z.eqb_neq i 10)) by lia.
    rewrite b2z_z2b, low7_or by lia.
    pose proof (Z.mod_pos_bound v 128).
    rewrite (Z.mod_small (_ + 128)) by lia.
    rewrite (proj2 (Z.ltb_ge _ 128)) by lia.
    rewrite land127.
    replace ((v mod 128 + 128) mod 128) with (v mod 128)
      by (rewrite Z.add_mod, Z_mod_same_full, Z.add_0_r, !Zmod_mod by lia; done).
    unfold u64. rewrite (Z.mod_small (Z.shiftl _ _)).
    2:{ rewrite Z.shiftl_mul_pow2 by lia.
        assert (v mod 128 <= v) by (apply Z.mod_le; lia). nia. }
    rewrite lor_disjoint by lia.
    replace (7 * i + 7) with (7 * (i + 1)) by lia.
    rewrite Z.shiftr_div_pow2 by lia. change (2 ^ 7) with 128.
    assert (2 ^ (7 * (i + 1)) = 128 * 2 ^ (7 * i)) as Hp.
    { replace (7 * (i + 1)) with (7 + 7 * i) by lia. by rewrite Z.pow_add_r by lia. }
    pose proof (Z.div_mod v 128 ltac:(lia)) as Hdm.
    assert (0 <= v / 128) by (apply Z.div_pos; lia).
    rewrite IH; [| lia | lia | lia | rewrite Hp; nia | lia | rewrite Hp; nia].
    rewrite zlen_cons, Hp. f_equal; [nia | lia].
  - (* last byte *)
    cbn [app uvarint_loop]. unfold MaxVarintLen64.
    rewrite (proj2 (Z.eqb_neq i 10)) by lia.
    rewrite b2z_z2b, Z.mod_small by lia.
    rewrite (proj2 (Z.ltb_lt v 128)) by lia.
    assert ((i =? 10 - 1) && (1 <? v) = false) as ->.
    { destruct (Z.eqb_spec i (10 - 1)) as [->|]; [|done]. simpl.
      change (2 ^ (7 * (10 - 1))) with 9223372036854775808 in *.
      apply Z.ltb_ge. lia. }
    unfold u64. rewrite (Z.mod_small (Z.shiftl _ _))
      by (rewrite Z.shiftl_mul_pow2 by lia; nia).
    rewrite lor_disjoint by lia. done.
Qed.

Lemma Uvarint_PutUvarint v post :
  in_u64 v -> Uvarint (PutUvarint v ++ post) = (v, zlen (PutUvarint v)).
Proof.
  intros Hv. unfold Uvarint, PutUvarint.
  etrans; [apply (uvarint_loop_put 10 0 0 v post); mlia|].
  change (7 * 0) with 0. f_equal; rewrite ?Z.pow_0_r; lia.
Qed.

Lemma put_uvarint_len (fuel : nat) v : (0 < fuel)%nat ->
  0 < zlen (put_uvarint fuel v) <= Z.of_nat fuel.
Proof.
  revert v. induction fuel as [|f IH]; intros v Hf; [lia|]. cbn [put_uvarint].
  destruct (128 <=? v); rewrite zlen_cons; [|unfold zlen; simpl; lia].
  destruct f as [|f]; [unfold zlen; simpl; lia|]. specialize (IH (Z.shiftr v 7)). lia.
Qed.

Lemma PutUvarint_len v : 0 < zlen (PutUvarint v) <= 10.
Proof. unfold PutUvarint. pose proof (put_uvarint_len 10 v). lia. Qed.

Lemma zigzag_range x : in_i64 x -> in_u64 (zigzag x).
Proof.
  intros H. unfold zigzag.
  pose proof (u64_range (Z.shiftl (u64 x) 1)). destruct (x <? 0); mlia.
Qed.

Lemma zigzag_spec x : in_i64 x ->
  zigzag x = if x <? 0 then -2 * x - 1 else 2 * x.
Proof.
  intros H. unfold zigzag, u64. rewrite Z.shiftl_mul_pow2 by lia.
  change (2 ^ 1) with 2.
  destruct (Z.ltb_spec x 0).
  - rewrite <- (Z.mod_add x 1) by lia.
    rewrite (Z.mod_small (x + _)) by mlia.
    rewrite <- (Z.mod_add (_ * 2) (-1)) by lia. rewrite Z.mod_small by mlia. lia.
  - rewrite (Z.mod_small x) by mlia. rewrite Z.mod_small by mlia. lia.
Qed.

Lemma unzigzag_zigzag x : in_i64 x -> unzigzag (zigzag x) = x.
Proof.
  intros H. rewrite zigzag_spec by done. unfold unzigzag.
  rewrite Z.shiftr_div_pow2 by lia. change (2 ^ 1) with 2.
  destruct (Z.ltb_spec x 0).
  - replace (-2 * x - 1) with (1 + 2 * (- x - 1)) by lia.
    rewrite Z.odd_add_mul_2. simpl Z.odd. cbv iota.
    replace (1 + 2 * (- x - 1)) with (1 + (- x - 1) * 2) by lia.
    rewrite Z.div_add by lia. change (1 / 2) with 0. rewrite i64_id by mlia. lia.
  - rewrite Z.odd_mul. simpl Z.odd. simpl andb. cbv iota.
    rewrite Z.mul_comm, Z.div_mul by lia. by rewrite i64_id by mlia.
Qed.

Lemma Varint_PutVarint x post :
  in_i64 x -> Varint (PutVarint x ++ post) = (x, zlen (PutVarint x)).
Proof.
  intros H. unfold Varint, PutVarint.
  rewrite Uvarint_PutUvarint by (by apply zigzag_range).
  by rewrite unzigzag_zigzag.
Qed.

Lemma PutVarint_len x : 0 < zlen (PutVarint x) <= 10.
Proof. apply PutUvarint_len. Qed.

(** ** Facts about decoding arbitrary bytes *)

Lemma uvarint_loop_bounds i s x buf ux n :
  0 <= i <= 10 -> uvarint_loop i s x buf = (ux, n) ->
  n <= i + zlen buf /\ (n <= 0 \/ i < n <= 10).
Proof.
  revert i s x. induction buf as [|b r IH]; intros i s x Hi H; simplify_eq/=.
  - unfold zlen; simpl; lia.
  - rewrite zlen_cons. pose proof (zlen_nonneg r). unfold MaxVarintLen64 in *.
    destruct (Z.eqb_spec i 10); [simplify_eq; lia|].
    destruct (b2z b <? 128).
    + destruct (_ && _); simplify_eq; lia.
    + apply IH in H; lia.
Qed.

Lemma Uvarint_bounds buf ux n : Uvarint buf = (ux, n) ->
  n <= zlen buf /\ n <= 10.
Proof.
  intros H. apply uvarint_loop_bounds in H; lia.
Qed.

(** ** A checksum is a 32-bit value *)

Lemma lxor_u32 a b : in_u32 a -> in_u32 b -> in_u32 (Z.lxor a b).
Proof.
  intros Ha Hb.
  assert (0 <= Z.lxor a b) by (apply Z.lxor_nonneg; mlia).
  destruct (decide (Z.lxor a b = 0)) as [->|]; [mlia|].
  split; [done|]. change 4294967296 with (2 ^ 32).
  apply Z.log2_lt_pow2; [lia|].
  eapply Z.le_lt_trans; [apply Z.log2_lxor; mlia|].
  assert (forall c, in_u32 c -> Z.log2 c < 32) as Hl; [|by apply Z.max_lub_lt; apply Hl].
  intros c Hc. destruct (decide (c = 0)) as [->|]; [done|].
  apply Z.log2_lt_pow2; mlia.
Qed.

Lemma crc32c_bit_range c : in_u32 c -> in_u32 (crc32c_bit c).
Proof.
  intros Hc. unfold crc32c_bit.
  assert (in_u32 (Z.shiftr c 1)).
  { rewrite Z.shiftr_div_pow2 by lia. change (2 ^ 1) with 2.
    pose proof (Z.div_pos c 2). pose proof (Z.div_le_upper_bound c 2 c). mlia. }
  destruct (Z.odd c); [|done]. apply lxor_u32; [done|mlia].
Qed.

Lemma crc32c_byte_range c b : in_u32 c -> in_u32 (crc32c_byte c b).
Proof.
  intros Hc. unfold crc32c_byte. apply Nat.iter_invariant.
  - intros; by apply crc32c_bit_range.
  - apply lxor_u32; [done|]. pose proof (b2z_range b). mlia.
Qed.

Lemma crc32c_range bs : in_u32 (crc32c bs).
Proof.
  unfold crc32c. apply lxor_u32; [|mlia].
  assert (forall c, in_u32 c -> in_u32 (fold_left crc32c_byte bs c)) as H.
  { induction bs as [|b r IH]; intros c Hc; [done|].
    apply IH, crc32c_byte_range, Hc. }
  apply H. mlia.
Qed.

(** The published check value of CRC-32C, over the ASCII digits 1 to 9. *)
Example crc32c_check_value :
  crc32c [x31; x32; x33; x34; x35; x36; x37; x38; x39] = 3808858755.
Proof. vm_compute. reflexivity. Qed.
