(* ===== verification/Wire.v ===== *)
(** * The wire reader and writer (pkg/protocol/reader.go, writer.go)

    [Reader] is the Go struct (a buffer and an offset); every read method is a
    state-passing function that returns a value, an error, or panics where the
    Go slice expression would. [Writer] is the buffer. The second half is the
    round-trip calculus the message codecs are proved with: [rt f p v] says
    that what the writer [f] appends, the reader [p] decodes back to [v],
    whatever surrounds it in the buffer. *)

From stdpp Require Import prelude list strings.
From Stdlib Require Import ZArith Lia.
From S2P Require Import Prelude GoBinary.

(** A Go [string] is a byte sequence; a Go [[]byte] is [None] when nil. *)
Abbreviation gostring := (list byte).
Abbreviation gobytes := (option (list byte)).

(** [len] of a possibly nil slice. *)
Definition blen (b : gobytes) : Z := from_option zlen 0 b.

(** ** Reader *)

Record Reader := mkReader { buf : list byte; off : Z }.

Definition NewReader (b : list byte) : Reader := mkReader b 0.

Definition M (A : Type) : Type := Reader -> outcome (A * Reader).

Definition ret {A} (a : A) : M A := fun r => Ok (a, r).
Definition fail {A} (e : error) : M A := fun _ => Err e.
Definition bind {A B} (p : M A) (k : A -> M B) : M B :=
  fun r => match p r with
           | Ok (a, r') => k a r'
           | Err e => Err e
           | Panic => Panic
           end.

Notation "'let!' x := p 'in' k" := (bind p (fun x => k))
  (at level 10, x pattern, p at level 100, k at level 200) : go_scope.

Definition ErrUnexpectedEOF : error := "unexpected EOF".

Definition Remaining (r : Reader) : Z := zlen (buf r) - off r.

(** [Reader.Err]: an error unless the whole buffer was consumed. *)
Definition Reader_Err (r : Reader) : option error :=
  if off r =? zlen (buf r) then None else Some ErrUnexpectedEOF.

(** [int] addition wraps at 64 bits, so a huge [n] passes this test. *)
Definition need_or (e : error) (n : Z) : M unit :=
  fun r => if zlen (buf r) <? i64 (off r + n) then Err e else Ok (tt, r).

Definition need : Z -> M unit := need_or ErrUnexpectedEOF.

(** [r.buf[r.off : r.off+n]] followed by [r.off += n]. *)
Definition advance (n : Z) : M (list byte) :=
  fun r => let? s := slice (buf r) (off r) (i64 (off r + n)) in
           Ok (s, mkReader (buf r) (i64 (off r + n))).

(** [r.buf[r.off:]]. *)
Definition rest_of : M (list byte) :=
  fun r => let? s := slice (buf r) (off r) (zlen (buf r)) in Ok (s, r).

Definition skip (n : Z) : M unit :=
  fun r => Ok (tt, mkReader (buf r) (i64 (off r + n))).

Definition ReadInt8 : M Z :=
  let! _ := need 1 in let! b := advance 1 in ret (i8 (ube b)).

Definition ReadBool : M bool :=
  let! v := ReadInt8 in ret (negb (v =? 0)).

Definition ReadInt16 : M Z :=
  let! _ := need 2 in let! b := advance 2 in ret (i16 (ube b)).

Definition ReadInt32 : M Z :=
  let! _ := need 4 in let! b := advance 4 in ret (i32 (ube b)).

Definition ReadInt64 : M Z :=
  let! _ := need 8 in let! b := advance 8 in ret (i64 (ube b)).

Definition ReadUVarint : M Z :=
  let! b := rest_of in
  let '(v, n) := Uvarint b in
  if n <=? 0 then fail "invalid uvarint" else
  let! _ := skip n in ret v.

Definition ReadVarint : M Z :=
  let! b := rest_of in
  let '(v, n) := Varint b in
  if n <=? 0 then fail "invalid varint" else
  let! _ := skip n in ret v.

(** The unexported [readString]: the string and whether it was null. *)
Definition readString : M (gostring * bool) :=
  let! l := ReadInt16 in
  if l <? 0 then ret ([], true) else
  let! _ := need l in
  let! s := advance l in
  ret (s, false).

Definition ReadString : M gostring :=
  let! (s, _) := readString in ret s.

Definition ReadNullableString : M (option gostring) :=
  let! (s, null) := readString in
  if (null : bool) then ret None else ret (Some s).

Definition ReadCompactString : M gostring :=
  let! l := ReadUVarint in
  if l =? 0 then ret [] else
  let n := i64 (u64 (l - 1)) in
  let! _ := need n in
  advance n.

Definition ReadBytes : M gobytes :=
  let! l := ReadInt32 in
  if l <? 0 then ret None else
  let! _ := need l in
  let! s := advance l in
  ret (Some s).

Definition ReadCompactBytes : M gobytes :=
  let! l := ReadUVarint in
  if l =? 0 then ret None else
  let n := i64 (u64 (l - 1)) in
  let! _ := need n in
  let! s := advance n in
  ret (Some s).

Definition ReadArrayLen : M Z :=
  let! l := ReadInt32 in ret (if l <? 0 then -1 else l).

Definition ReadCompactArrayLen : M Z :=
  let! l := ReadUVarint in
  ret (if l =? 0 then 0 else i64 (u64 (l - 1))).

(** The loop body of [ReadTaggedFields]: a tag, a size, and a jump that is not
    protected against a size whose conversion to [int] is negative. *)
Definition read_tagged_field : M unit :=
  let! _ := ReadUVarint in
  let! size := ReadUVarint in
  let! _ := need (i64 size) in
  skip (i64 size).

Fixpoint repeat_m (n : nat) (p : M unit) : M unit :=
  match n with
  | O => ret tt
  | S m => let! _ := p in repeat_m m p
  end.

Definition ReadTaggedFields : M unit :=
  let! n := ReadUVarint in repeat_m (Z.to_nat n) read_tagged_field.

(** [Reader.ReadBytesVarint] and [Reader.ReadVarintString] of
    record_batch.go. *)
Definition ReadBytesVarint : M gobytes :=
  let! l := ReadVarint in
  if l <? 0 then ret None else
  let! _ := need_or "bytes varint overrun" l in
  let! s := advance l in
  ret (Some s).

Definition ReadVarintString : M gostring :=
  let! b := ReadBytesVarint in ret (default [] b).

(** [make([]T, 0, n)] panics when [n] is negative. *)
Definition make_slice (n : Z) : M unit :=
  fun r => if n <? 0 then Panic else Ok (tt, r).

(** [for i := 0; i < n; i++ { x := p(); xs = append(xs, x) }]. *)
Fixpoint read_list {A} (n : nat) (p : M A) : M (list A) :=
  match n with
  | O => ret []
  | S m => let! x := p in let! xs := read_list m p in ret (x :: xs)
  end.

(** The array pattern of the request decoders: the count, [make([]T, 0, n)]
    and the loop. *)
Definition read_array {A} (p : M A) : M (list A) :=
  let! n := ReadArrayLen in
  let! _ := make_slice n in
  read_list (Z.to_nat n) p.

(** The same for a field the code leaves nil on a negative count. *)
Definition read_nullable_array {A} (p : M A) : M (option (list A)) :=
  let! n := ReadArrayLen in
  if n <? 0 then ret None else
  let! xs := read_list (Z.to_nat n) p in ret (Some xs).

(** [readInt32Array] of topic.go. *)
Definition readInt32Array : M (option (list Z)) := read_nullable_array ReadInt32.

(** [if c { x, err = p() }] with [d] the zero value. *)
Definition read_if {A} (c : bool) (p : M A) (d : A) : M A := if c then p else ret d.

(** [DecodeX(version, body)]: a fresh reader, the value, the rest ignored. *)
Definition decode {A} (p : M A) (body : list byte) : outcome A :=
  let? (a, _) := p (NewReader body) in Ok a.

(** ** Writer *)

Abbreviation Writer := (list byte).
Definition W : Type := Writer -> Writer.

Definition NewWriter : Writer := [].

Definition append_bytes (b : list byte) : W := fun w => w ++ b.

Definition wseq (f g : W) : W := fun w => g (f w).
Declare Scope writer_scope.
Delimit Scope writer_scope with W.
Notation "f +> g" := (wseq f g) (at level 62, right associativity) : writer_scope.
#[global] Open Scope writer_scope.

(** [if c { f }]. *)
Definition when (c : bool) (f : W) : W := if c then f else id.

(** [for _, x := range xs { f x }]. *)
Definition for_each {A} (xs : list A) (f : A -> W) : W :=
  fun w => fold_left (fun w x => f x w) xs w.

Definition WriteInt8 (v : Z) : W := append_bytes (be 1 (u8 v)).
Definition WriteBool (v : bool) : W := append_bytes (if v then [x01] else [x00]).
Definition WriteInt16 (v : Z) : W := append_bytes (be 2 (u16 v)).
Definition WriteInt32 (v : Z) : W := append_bytes (be 4 (u32 v)).
Definition WriteInt64 (v : Z) : W := append_bytes (be 8 (u64 v)).
Definition WriteUVarint (v : Z) : W := append_bytes (PutUvarint v).
Definition WriteVarint (v : Z) : W := append_bytes (PutVarint v).

Definition WriteString (s : gostring) : W :=
  WriteInt16 (i16 (zlen s)) +> append_bytes s.

Definition WriteNullableString (s : option gostring) : W :=
  match s with None => WriteInt16 (-1) | Some s => WriteString s end.

Definition WriteCompactString (s : gostring) : W :=
  WriteUVarint (u64 (i64 (zlen s + 1))) +> append_bytes s.

Definition WriteCompactNullableString (s : option gostring) : W :=
  match s with None => WriteUVarint 0 | Some s => WriteCompactString s end.

Definition WriteBytes (b : gobytes) : W :=
  match b with
  | None => WriteInt32 (-1)
  | Some b => WriteInt32 (i32 (zlen b)) +> append_bytes b
  end.

Definition WriteCompactBytes (b : gobytes) : W :=
  match b with
  | None => WriteUVarint 0
  | Some b => WriteUVarint (u64 (i64 (zlen b + 1))) +> append_bytes b
  end.

Definition WriteArrayLen (n : Z) : W := WriteInt32 (i32 n).

Definition WriteCompactArrayLen (n : Z) : W :=
  WriteUVarint (u64 (i64 ((if n <? 0 then 0 else n) + 1))).

Definition WriteTaggedFields : W := WriteUVarint 0.

(** [appendVarint] and [appendUvarint] of writer.go. *)
Definition appendVarint (v : Z) : W := append_bytes (PutVarint v).
Definition appendUvarint (v : Z) : W := append_bytes (PutUvarint v).

(** [writeInt32Array] of metadata.go. *)
Definition writeInt32Array (arr : option (list Z)) : W :=
  match arr with
  | None => WriteArrayLen (-1)
  | Some xs => WriteArrayLen (zlen xs) +> for_each xs WriteInt32
  end.

(** The array pattern of the encoders. *)
Definition write_array {A} (f : A -> W) (xs : list A) : W :=
  WriteArrayLen (zlen xs) +> for_each xs f.

(** ** The round-trip calculus *)

(** [p] decodes [bs] to [v] at any position of any buffer. *)
Definition decodes {A} (p : M A) (bs : list byte) (v : A) : Prop :=
  forall pre post, in_i64 (zlen (pre ++ bs ++ post)) ->
  p (mkReader (pre ++ bs ++ post) (zlen pre))
  = Ok (v, mkReader (pre ++ bs ++ post) (zlen pre + zlen bs)).

(** [f] appends [bs], whatever the buffer holds. *)
Definition emits (f : W) (bs : list byte) : Prop := forall w, f w = w ++ bs.

Definition rt {A} (f : W) (p : M A) (v : A) : Prop :=
  exists bs, emits f bs /\ decodes p bs v.

Section rt_structure.
Context {A B : Type}.
Implicit Types (p : M A) (k : A -> M B) (f g : W).

Lemma decodes_ret (v : A) : decodes (ret v) [] v.
Proof.
  intros pre post _. unfold ret. cbn [app].
  by rewrite (@zlen_nil byte), Z.add_0_r.
Qed.

Lemma decodes_bind p k bs cs v u :
  decodes p bs v -> decodes (k v) cs u -> decodes (bind p k) (bs ++ cs) u.
Proof.
  intros Hp Hk pre post Hl. unfold bind.
  rewrite <- app_assoc in *. rewrite Hp by done.
  rewrite app_assoc, <- zlen_app. rewrite app_assoc in Hl.
  rewrite (Hk (pre ++ bs) post Hl), !zlen_app. by rewrite Z.add_assoc.
Qed.

Lemma emits_seq f g bs cs : emits f bs -> emits g cs -> emits (f +> g) (bs ++ cs).
Proof. intros Hf Hg w. unfold wseq. by rewrite Hf, Hg, app_assoc. Qed.

Lemma emits_id : emits id [].
Proof. intros w. by rewrite app_nil_r. Qed.

Lemma rt_ret (v : A) : rt id (ret v) v.
Proof. exists []. auto using emits_id, decodes_ret. Qed.

Lemma rt_bind f g p k v u :
  rt f p v -> rt g (k v) u -> rt (f +> g) (bind p k) u.
Proof.
  intros (bs & ? & ?) (cs & ? & ?). exists (bs ++ cs).
  eauto using emits_seq, decodes_bind.
Qed.

(** The last write of an encoder. *)
Lemma rt_bind_last f p k v u :
  rt f p v -> rt id (k v) u -> rt f (bind p k) u.
Proof.
  intros (bs & Hf & Hp) (cs & Hid & Hk). exists bs. split; [done|].
  assert (cs = []) as ->. { specialize (Hid []). unfold id in Hid. by simplify_list_eq. }
  rewrite <- (app_nil_r bs). eauto using decodes_bind.
Qed.

Lemma rt_if (c : bool) f p v d :
  (c = true -> rt f p v) -> (c = false -> v = d) ->
  rt (when c f) (read_if c p d) v.
Proof.
  intros Ht Hf. destruct c; simpl; [by apply Ht|]. rewrite Hf by done. apply rt_ret.
Qed.

Lemma rt_ext f f' p v : (forall w, f w = f' w) -> rt f p v -> rt f' p v.
Proof. intros He (bs & Hf & Hp). exists bs. split; [|done]. intros w. by rewrite <- He. Qed.

End rt_structure.

Lemma rt_list {A} (f : A -> W) (p : M A) xs :
  Forall (fun x => rt (f x) p x) xs ->
  rt (for_each xs f) (read_list (length xs) p) xs.
Proof.
  induction 1 as [|x xs Hx _ IH].
  - apply (rt_ext id); [done|]. apply rt_ret.
  - apply (rt_ext (f x +> for_each xs f)); [done|]. cbn [read_list length].
    eapply rt_bind; [exact Hx|]. eapply rt_bind_last; [exact IH|]. apply rt_ret.
Qed.

(** A whole encoded message decodes to the value it was encoded from. *)
Lemma rt_decode {A} (f : W) (p : M A) v :
  rt f p v -> in_i64 (zlen (f NewWriter)) -> decode p (f NewWriter) = Ok v.
Proof.
  intros (bs & Hf & Hp) Hl. unfold decode, NewReader.
  rewrite Hf in *. specialize (Hp [] []). rewrite app_nil_r in Hp.
  change (zlen []) with 0 in Hp. cbn [app NewWriter] in *. by rewrite Hp.
Qed.

(** ** Round trips of the primitives *)

Section primitives.

Lemma need_ok e n pre mid post :
  in_i64 (zlen (pre ++ mid ++ post)) -> 0 <= n <= zlen mid ->
  need_or e n (mkReader (pre ++ mid ++ post) (zlen pre))
  = Ok (tt, mkReader (pre ++ mid ++ post) (zlen pre)).
Proof.
  intros Hl Hn. unfold need_or. cbn [buf off]. rewrite !zlen_app in *.
  pose proof (zlen_nonneg pre). pose proof (zlen_nonneg post).
  rewrite i64_id by mlia. by rewrite (proj2 (Z.ltb_ge _ _)) by lia.
Qed.

Lemma decodes_advance bs : decodes (advance (zlen bs)) bs bs.
Proof.
  intros pre post Hl. unfold advance. cbn [buf off].
  rewrite !zlen_app in Hl. pose proof (zlen_nonneg pre).
  pose proof (zlen_nonneg bs). pose proof (zlen_nonneg post).
  rewrite i64_id by mlia. by rewrite slice_mid.
Qed.

(** [need n] before [advance n], as every fixed-width read does. *)
Lemma decodes_need {A} e n (k : unit -> M A) bs v :
  0 <= n <= zlen bs -> decodes (k tt) bs v -> decodes (bind (need_or e n) k) bs v.
Proof.
  intros Hn Hk pre post Hl. unfold bind. rewrite need_ok by done. by apply Hk.
Qed.

Lemma decodes_fixed {A} e n (k : list byte -> A) bs :
  zlen bs = n ->
  decodes (let! _ := need_or e n in let! b := advance n in ret (k b)) bs (k bs).
Proof.
  intros <-. apply decodes_need; [pose proof (zlen_nonneg bs); lia|].
  rewrite <- (app_nil_r bs) at 2.
  eapply decodes_bind; [apply decodes_advance|]. apply decodes_ret.
Qed.

Lemma emits_append bs : emits (append_bytes bs) bs.
Proof. by intros w. Qed.

Lemma rt_fixed {A} e n (k : list byte -> A) bs v :
  zlen bs = n -> k bs = v ->
  rt (append_bytes bs) (let! _ := need_or e n in let! b := advance n in ret (k b)) v.
Proof. intros ? <-. exists bs. auto using emits_append, decodes_fixed. Qed.

Lemma rt_int8 v : in_i8 v -> rt (WriteInt8 v) ReadInt8 v.
Proof.
  intros. apply rt_fixed; [by rewrite zlen_be|].
  rewrite ube_be. change (2 ^ (8 * Z.of_nat 1)) with 256.
  unfold u8. rewrite Zmod_mod. fold (u8 v). rewrite i8_u8. by apply i8_id.
Qed.
Lemma rt_int16 v : in_i16 v -> rt (WriteInt16 v) ReadInt16 v.
Proof. intros. apply rt_fixed; [by rewrite zlen_be|by apply i16_ube_be]. Qed.
Lemma rt_int32 v : in_i32 v -> rt (WriteInt32 v) ReadInt32 v.
Proof. intros. apply rt_fixed; [by rewrite zlen_be|by apply i32_ube_be]. Qed.
Lemma rt_int64 v : in_i64 v -> rt (WriteInt64 v) ReadInt64 v.
Proof. intros. apply rt_fixed; [by rewrite zlen_be|by apply i64_ube_be]. Qed.

Lemma rt_bool v : rt (WriteBool v) ReadBool v.
Proof.
  unfold WriteBool, ReadBool.
  replace (if v then [x01] else [x00]) with (be 1 (u8 (if v then 1 else 0)))
    by (by destruct v).
  eapply rt_bind_last; [apply (rt_int8 (if v then 1 else 0)); destruct v; mlia|].
  destruct v; apply rt_ret.
Qed.

Lemma decodes_varlen {A} (dec : list byte -> A * Z) e bs v :
  (forall post, dec (bs ++ post) = (v, zlen bs)) -> 0 < zlen bs ->
  decodes (let! b := rest_of in
           let '(v, n) := dec b in
           if n <=? 0 then fail e else let! _ := skip n in ret v) bs v.
Proof.
  intros Hd Hpos pre post Hl. unfold bind, rest_of, skip. cbn [buf off].
  rewrite !zlen_app in Hl. pose proof (zlen_nonneg pre). pose proof (zlen_nonneg post).
  pose proof (@slice_mid byte pre (bs ++ post) [] (zlen pre)
                (zlen (pre ++ bs ++ post)) eq_refl) as Hs.
  rewrite !app_nil_r in Hs. rewrite Hs by (rewrite !zlen_app; lia).
  cbn [obind]. rewrite Hd. rewrite (proj2 (Z.leb_gt _ _)) by lia.
  cbn [buf off]. by rewrite i64_id by mlia.
Qed.

Lemma rt_uvarint v : in_u64 v -> rt (WriteUVarint v) ReadUVarint v.
Proof.
  intros Hv. exists (PutUvarint v). split; [apply emits_append|].
  apply (decodes_varlen Uvarint); [intros; by apply Uvarint_PutUvarint|].
  apply PutUvarint_len.
Qed.
Lemma rt_varint v : in_i64 v -> rt (WriteVarint v) ReadVarint v.
Proof.
  intros Hv. exists (PutVarint v). split; [apply emits_append|].
  apply (decodes_varlen Varint); [intros; by apply Varint_PutVarint|].
  apply PutVarint_len.
Qed.

(** A length-prefixed payload. *)
Lemma rt_payload {A} e (k : list byte -> A) bs :
  rt (append_bytes bs)
     (let! _ := need_or e (zlen bs) in let! s := advance (zlen bs) in ret (k s)) (k bs).
Proof. by apply rt_fixed. Qed.
End primitives.

(** Length limits of the two string and byte-slice encodings. *)
Definition str_ok (s : gostring) : Prop := zlen s <= 32767.
Definition nstr_ok (s : option gostring) : Prop := from_option str_ok True s.
Definition bytes_ok (b : gobytes) : Prop := blen b <= 2147483647.
Definition arr_ok {A} (xs : list A) : Prop := zlen xs <= 2147483647.

#[global] Instance str_ok_dec s : Decision (str_ok s).
Proof. unfold str_ok. apply _. Defined.
#[global] Instance nstr_ok_dec s : Decision (nstr_ok s).
Proof. unfold nstr_ok. destruct s; simpl; apply _. Defined.
#[global] Instance bytes_ok_dec b : Decision (bytes_ok b).
Proof. unfold bytes_ok. apply _. Defined.
#[global] Instance arr_ok_dec {A} (xs : list A) : Decision (arr_ok xs).
Proof. unfold arr_ok. apply _. Defined.

Section strings.
Lemma rt_readString s : str_ok s -> rt (WriteString s) readString (s, false).
Proof.
  unfold str_ok. intros Hs. pose proof (zlen_nonneg s). unfold WriteString.
  rewrite i16_id by mlia.
  eapply rt_bind; [apply rt_int16; mlia|].
  rewrite (proj2 (Z.ltb_ge _ _)) by lia. apply (rt_payload _ (fun s => (s, false))).
Qed.

Lemma rt_string s : str_ok s -> rt (WriteString s) ReadString s.
Proof.
  intros Hs. eapply rt_bind_last; [by apply rt_readString|]. apply rt_ret.
Qed.

Lemma rt_nullable_string s :
  nstr_ok s -> rt (WriteNullableString s) ReadNullableString s.
Proof.
  destruct s as [s|]; intros Hs; unfold ReadNullableString; simpl in Hs.
  - eapply rt_bind_last; [by apply rt_readString|]. apply rt_ret.
  - eapply (rt_bind_last _ _ _ ([], true)); [|apply rt_ret].
    eapply rt_bind_last; [apply rt_int16; mlia|]. apply rt_ret.
Qed.

Lemma rt_bytes b : bytes_ok b -> rt (WriteBytes b) ReadBytes b.
Proof.
  unfold bytes_ok. destruct b as [b|]; simpl; intros Hb.
  - pose proof (zlen_nonneg b). rewrite i32_id by mlia.
    eapply rt_bind; [apply rt_int32; mlia|].
    rewrite (proj2 (Z.ltb_ge _ _)) by lia. apply (rt_payload _ Some).
  - eapply rt_bind_last; [apply rt_int32; mlia|]. apply rt_ret.
Qed.

Lemma rt_compact_string s :
  in_i64 (zlen s + 1) -> rt (WriteCompactString s) ReadCompactString s.
Proof.
  intros Hs. pose proof (zlen_nonneg s). unfold WriteCompactString.
  rewrite i64_id, u64_id by mlia.
  eapply rt_bind; [apply rt_uvarint; mlia|].
  rewrite (proj2 (Z.eqb_neq _ _)) by lia.
  replace (zlen s + 1 - 1) with (zlen s) by lia. rewrite u64_id, i64_id by mlia.
  exists s. split; [apply emits_append|].
  apply decodes_need; [lia|]. apply decodes_advance.
Qed.

Lemma rt_compact_bytes b :
  in_i64 (blen b + 1) -> rt (WriteCompactBytes b) ReadCompactBytes b.
Proof.
  destruct b as [b|]; simpl; intros Hb.
  - pose proof (zlen_nonneg b). rewrite i64_id, u64_id by mlia.
    eapply rt_bind; [apply rt_uvarint; mlia|].
    rewrite (proj2 (Z.eqb_neq _ _)) by lia.
    replace (zlen b + 1 - 1) with (zlen b) by lia. rewrite u64_id, i64_id by mlia.
    apply (rt_payload _ Some).
  - eapply rt_bind_last; [apply rt_uvarint; mlia|]. apply rt_ret.
Qed.

Lemma rt_bytes_varint b :
  in_i64 (blen b) ->
  rt (match b with None => appendVarint (-1)
      | Some b => appendVarint (zlen b) +> append_bytes b end) ReadBytesVarint b.
Proof.
  destruct b as [b|]; simpl; intros Hb.
  - pose proof (zlen_nonneg b). eapply rt_bind; [by apply rt_varint|].
    rewrite (proj2 (Z.ltb_ge _ _)) by lia.
    apply (rt_payload _ Some).
  - eapply rt_bind_last; [apply rt_varint; mlia|]. apply rt_ret.
Qed.

End strings.

(** The array pattern. *)
Lemma rt_array_len n : 0 <= n <= 2147483647 -> rt (WriteArrayLen n) ReadArrayLen n.
Proof.
  intros Hn. unfold WriteArrayLen. rewrite i32_id by mlia.
  eapply rt_bind_last; [apply rt_int32; mlia|].
  rewrite (proj2 (Z.ltb_ge _ _)) by lia. apply rt_ret.
Qed.

Lemma rt_guard {A} (g : M unit) (k : unit -> M A) f v :
  (forall r, g r = Ok (tt, r)) -> rt f (k tt) v -> rt f (bind g k) v.
Proof.
  intros Hg (bs & Hf & Hk). exists bs. split; [done|].
  intros pre post Hl. unfold bind. rewrite Hg. by apply Hk.
Qed.

Lemma rt_array {A} (f : A -> W) (p : M A) xs :
  arr_ok xs -> Forall (fun x => rt (f x) p x) xs ->
  rt (write_array f xs) (read_array p) xs.
Proof.
  unfold arr_ok. intros Hl Hf. pose proof (zlen_nonneg xs).
  unfold write_array, read_array. eapply rt_bind; [by apply rt_array_len|].
  apply rt_guard.
  { intros r. unfold make_slice. by rewrite (proj2 (Z.ltb_ge _ _)) by lia. }
  unfold zlen. rewrite Nat2Z.id. by apply rt_list.
Qed.

Lemma rt_nullable_array {A} (f : A -> W) (p : M A) (arr : option (list A)) :
  from_option arr_ok True arr ->
  Forall (fun x => rt (f x) p x) (default [] arr) ->
  rt (match arr with None => WriteArrayLen (-1) | Some xs => write_array f xs end)
     (read_nullable_array p) arr.
Proof.
  unfold arr_ok. destruct arr as [xs|]; simpl; intros Hl Hf.
  - pose proof (zlen_nonneg xs). eapply rt_bind; [by apply rt_array_len|].
    rewrite (proj2 (Z.ltb_ge _ _)) by lia. eapply rt_bind_last; [|apply rt_ret].
    unfold zlen. rewrite Nat2Z.id. by apply rt_list.
  - eapply (rt_bind_last _ _ _ (-1)); [|apply rt_ret].
    eapply rt_bind_last; [apply (rt_int32 (-1)); mlia|]. apply rt_ret.
Qed.

Lemma rt_int32_array arr :
  from_option arr_ok True arr ->
  Forall in_i32 (default [] arr) -> rt (writeInt32Array arr) readInt32Array arr.
Proof.
  intros Hl Hf. apply (rt_nullable_array WriteInt32); [done|].
  eapply Forall_impl; [exact Hf|]. apply rt_int32.
Qed.

(** Arrays whose elements all satisfy a well-formedness predicate [P]; [g] is
    the value the element decodes to (the identity for most messages). *)
Lemma rt_list_wf {A} (P : A -> Prop) (g : A -> A) (f : A -> W) (p : M A) xs :
  Forall P xs -> (forall x, P x -> rt (f x) p (g x)) ->
  rt (for_each xs f) (read_list (length xs) p) (map g xs).
Proof.
  intros Hxs Hp. induction Hxs as [|x xs Hx _ IH].
  - apply (rt_ext id); [done|]. apply rt_ret.
  - apply (rt_ext (f x +> for_each xs f)); [done|]. cbn [read_list length map].
    eapply rt_bind; [by apply Hp|]. eapply rt_bind_last; [exact IH|]. apply rt_ret.
Qed.

Lemma rt_array_nf {A} (P : A -> Prop) (g : A -> A) (f : A -> W) (p : M A) xs :
  arr_ok xs -> Forall P xs -> (forall x, P x -> rt (f x) p (g x)) ->
  rt (write_array f xs) (read_array p) (map g xs).
Proof.
  unfold arr_ok. intros Hl Hf Hp. pose proof (zlen_nonneg xs).
  unfold write_array, read_array. eapply rt_bind; [by apply rt_array_len|].
  apply rt_guard.
  { intros r. unfold make_slice. by rewrite (proj2 (Z.ltb_ge _ _)) by lia. }
  unfold zlen. rewrite Nat2Z.id. by eapply rt_list_wf.
Qed.

Lemma rt_array_wf {A} (P : A -> Prop) (f : A -> W) (p : M A) xs :
  arr_ok xs -> Forall P xs -> (forall x, P x -> rt (f x) p x) ->
  rt (write_array f xs) (read_array p) xs.
Proof.
  intros. rewrite <- (map_id xs) at 2. by eapply (rt_array_nf P id).
Qed.

Lemma rt_nullable_array_wf {A} (P : A -> Prop) (f : A -> W) (p : M A) arr :
  from_option arr_ok True arr -> Forall P (default [] arr) ->
  (forall x, P x -> rt (f x) p x) ->
  rt (match arr with None => WriteArrayLen (-1) | Some xs => write_array f xs end)
     (read_nullable_array p) arr.
Proof.
  intros Hl Hf Hp. apply rt_nullable_array; [done|]. by eapply Forall_impl.
Qed.

(** A nil and an empty slice written alike ([len(b) == 0]) read back empty. *)
Definition write_nonnull_bytes (b : gobytes) : W :=
  if blen b =? 0 then WriteInt32 0 else WriteBytes b.

Lemma rt_nonnull_bytes b :
  bytes_ok b -> rt (write_nonnull_bytes b) ReadBytes (Some (default [] b)).
Proof.
  intros Hb. unfold write_nonnull_bytes. destruct (Z.eqb_spec (blen b) 0) as [E|E].
  - assert (default [] b = []) as ->.
    { destruct b as [[|x l]|]; [done| |done]. simpl in E. rewrite zlen_cons in E.
      pose proof (zlen_nonneg l). lia. }
    apply (rt_ext (WriteBytes (Some []))); [|by apply rt_bytes].
    intros w. unfold WriteBytes, wseq, append_bytes. by rewrite app_nil_r.
  - destruct b as [b|]; [by apply rt_bytes|done].
Qed.

(** A placeholder written and skipped in some versions only. *)
Lemma rt_const_if {A} (c : bool) f (p : M A) v d :
  rt f p v -> rt (when c f) (read_if c p d) (if c then v else d).
Proof. intros. destruct c; [done|apply rt_ret]. Qed.

Lemma rt_null_len : rt (WriteArrayLen (-1)) ReadArrayLen (-1).
Proof. eapply rt_bind_last; [apply (rt_int32 (-1)); mlia|]. apply (rt_ret (-1)). Qed.

#[global] Arguments WriteNullableString : simpl never.
#[global] Arguments WriteBytes : simpl never.
#[global] Arguments writeInt32Array : simpl never.
#[global] Arguments write_array : simpl never.
#[global] Arguments when : simpl never.
#[global] Arguments read_if : simpl never.
#[global] Arguments Z.leb : simpl never.

Create HintDb rt discriminated.
#[global] Hint Resolve rt_int8 rt_int16 rt_int32 rt_int64 rt_bool rt_uvarint
  rt_varint rt_string rt_nullable_string rt_bytes rt_nonnull_bytes rt_if
  rt_int32_array rt_array_len : rt.
#[global] Hint Resolve rt_array_wf rt_nullable_array_wf | 5 : rt.
#[global] Hint Extern 1 (in_i8 _) => (assumption || mlia) : rt.
#[global] Hint Extern 1 (in_i16 _) => (assumption || mlia) : rt.
#[global] Hint Extern 1 (in_i32 _) => (assumption || mlia) : rt.
#[global] Hint Extern 1 (in_i64 _) => (assumption || mlia) : rt.
#[global] Hint Extern 1 (str_ok _) => (assumption || (vm_compute; discriminate)) : rt.
#[global] Hint Extern 1 (nstr_ok None) => exact I : rt.

(** Walk an encoder and a decoder in parallel, field by field. *)
Ltac rt_fields :=
  repeat first
    [ apply rt_ret
    | eapply rt_bind; [solve [eauto with rt] | cbv beta]
    | eapply rt_bind_last; [solve [eauto with rt] | cbv beta] ].

(** ** Messages as codecs: what a request or response type promises to the
    broker and to the client library. [nf] is what the decoder makes of a
    value (nil slices become empty ones where the encoder merges the two). *)
Class Codec (A : Type) := {
  enc : A -> W;
  dec : Z -> M A;
  ver : A -> Z;
  wf_msg : A -> Prop;
  nf : A -> A;
  codec_rt : forall a, wf_msg a -> rt (enc a) (dec (ver a)) (nf a) }.

Section codec.
Context `{Codec A}.

Lemma codec_roundtrip a :
  wf_msg a -> in_i64 (zlen (enc a NewWriter)) ->
  decode (dec (ver a)) (enc a NewWriter) = Ok (nf a).
Proof. intros. by apply rt_decode; [apply codec_rt|]. Qed.

(** Two well-formed messages of one version with the same bytes have the
    same normal form. *)
Lemma codec_injective a b :
  wf_msg a -> wf_msg b -> ver a = ver b -> in_i64 (zlen (enc a NewWriter)) ->
  enc a NewWriter = enc b NewWriter -> nf a = nf b.
Proof.
  intros Ha Hb Hv Hl He. pose proof (codec_roundtrip a Ha Hl) as E.
  rewrite He in Hl. pose proof (codec_roundtrip b Hb Hl). rewrite Hv, He in E. congruence.
Qed.
End codec.

(** ** Panic freedom *)

(** A reader inside its buffer; 2^62 is a quarter of Go's address range, above
    any frame the server accepts. *)
Definition wf_reader (r : Reader) : Prop :=
  0 <= off r <= zlen (buf r) /\ zlen (buf r) <= 4611686018427387904.

Definition safe_result {A} (r : Reader) (o : outcome (A * Reader)) : Prop :=
  match o with
  | Ok (_, r') => wf_reader r' /\ buf r' = buf r /\ off r <= off r'
  | Err _ => True
  | Panic => False
  end.

Definition safe {A} (p : M A) : Prop := forall r, wf_reader r -> safe_result r (p r).

Section safety.
Context {A B : Type}.

Lemma safe_ret (a : A) : safe (ret a).
Proof. intros r Hr. simpl. auto with lia. Qed.

Lemma safe_fail e : safe (@fail A e).
Proof. by intros r Hr. Qed.

Lemma safe_bind (p : M A) (k : A -> M B) :
  safe p -> (forall a, safe (k a)) -> safe (bind p k).
Proof.
  intros Hp Hk r Hr. specialize (Hp r Hr). unfold bind.
  destruct (p r) as [[a r']|e|]; simpl in *; [|done|done].
  destruct Hp as (Hr' & Hb & Ho). specialize (Hk a r' Hr').
  destruct (k a r') as [[b r'']|e|]; simpl in *; [|done|done].
  destruct Hk as (? & Hb' & ?). split; [done|]. split; [congruence|lia].
Qed.

Lemma safe_if (c : bool) (p q : M A) : safe p -> safe q -> safe (if c then p else q).
Proof. by destruct c. Qed.

(** A length check of at most 2^31 bytes protects the slice that follows. *)
Lemma safe_need e n (k : list byte -> M A) :
  0 <= n <= 2147483648 -> (forall b, safe (k b)) ->
  safe (let! _ := need_or e n in let! b := advance n in k b).
Proof.
  intros Hn Hk r Hr. pose proof Hr as [Ho Hl]. unfold bind, need_or, advance.
  rewrite i64_id by mlia.
  destruct (Z.ltb_spec (zlen (buf r)) (off r + n)) as [|Hle]; [done|].
  cbn [buf off]. rewrite i64_id by mlia. rewrite slice_ok by lia. cbn [obind].
  specialize (Hk (sub (buf r) (off r) (off r + n)) (mkReader (buf r) (off r + n))).
  destruct (k _ _) as [[b r']|e'|]; simpl in *; [|done|].
  - destruct Hk as (? & ? & ?); [split; simpl; lia|]. auto with lia.
  - apply Hk. split; simpl; lia.
Qed.

Lemma safe_varlen (d : list byte -> A * Z) e :
  (forall b v n, d b = (v, n) -> n <= zlen b) ->
  safe (let! b := rest_of in
        let '(v, n) := d b in
        if n <=? 0 then fail e else let! _ := skip n in ret v).
Proof.
  intros Hd r [Ho Hl]. unfold bind, rest_of, skip.
  rewrite slice_ok by lia. cbn [obind].
  destruct (d _) as [v n] eqn:E. apply Hd in E. rewrite zlen_sub in E by lia.
  destruct (Z.leb_spec n 0); [done|]. simpl. rewrite i64_id by mlia.
  split; [split; simpl; lia|]. simpl. auto with lia.
Qed.
End safety.

Lemma safe_list {A} n (p : M A) : safe p -> safe (read_list n p).
Proof.
  intros Hp. induction n as [|n IH]; cbn [read_list]; auto using safe_ret, safe_bind.
Qed.

Section safe_primitives.
Lemma safe_int8 : safe ReadInt8.
Proof. apply safe_need; [lia|]. auto using safe_ret. Qed.
Lemma safe_int16 : safe ReadInt16.
Proof. apply safe_need; [lia|]. auto using safe_ret. Qed.
Lemma safe_int32 : safe ReadInt32.
Proof. apply safe_need; [lia|]. auto using safe_ret. Qed.
Lemma safe_int64 : safe ReadInt64.
Proof. apply safe_need; [lia|]. auto using safe_ret. Qed.
Lemma safe_bool : safe ReadBool.
Proof. apply safe_bind; auto using safe_int8, safe_ret. Qed.

Lemma safe_uvarint : safe ReadUVarint.
Proof.
  apply (safe_varlen Uvarint). intros b v n H. by apply Uvarint_bounds in H as [? _].
Qed.
Lemma safe_varint : safe ReadVarint.
Proof.
  apply (safe_varlen Varint). intros b v n H. unfold Varint in H.
  destruct (Uvarint b) as [u m] eqn:E. simplify_eq. by apply Uvarint_bounds in E as [? _].
Qed.

(** A sized read keeps its length below 2^31 because the length itself was
    read from two or four bytes. *)
Lemma safe_sized {A} (w : nat) (cast : Z -> Z) (neg : M A) (k : list byte -> M A) :
  (0 < w <= 4)%nat -> (forall z, cast z < 2147483648) ->
  safe neg -> (forall b, safe (k b)) ->
  safe (let! l := (let! _ := need (Z.of_nat w) in
                   let! b := advance (Z.of_nat w) in ret (cast (ube b))) in
        if l <? 0 then neg else
        let! _ := need l in let! b := advance l in k b).
Proof.
  intros Hw Hc Hneg Hk r Hr.
  assert (safe (let! _ := need (Z.of_nat w) in
                let! b := advance (Z.of_nat w) in ret (cast (ube b)))) as H1
    by (apply safe_need; [lia|]; auto using safe_ret).
  specialize (H1 r Hr). unfold bind at 1.
  destruct (bind (need (Z.of_nat w)) _ r) as [[l r']|e|] eqn:E; simpl in H1; [|done|done].
  destruct H1 as (Hr' & Hb & Ho).
  assert (l < 2147483648).
  { unfold bind, need, need_or, advance in E.
    destruct (_ <? _); [done|]. destruct (slice _ _ _); [|done|done].
    unfold ret in E. simpl in E. simplify_eq. apply Hc. }
  assert (forall q : M A, safe q -> safe_result r (q r')) as Hq.
  { intros q Hs. specialize (Hs r' Hr'). destruct (q r') as [[a r'']|?|]; simpl in *; [|done|done].
    destruct Hs as (? & ? & ?). split; [done|]. split; [congruence|lia]. }
  apply Hq. destruct (Z.ltb_spec l 0); [done|]. apply safe_need; [lia|done].
Qed.

Lemma safe_readString : safe readString.
Proof.
  apply (safe_sized 2 i16); [lia| |auto using safe_ret..].
  intros z. pose proof (i16_range z). mlia.
Qed.
Lemma safe_string : safe ReadString.
Proof. apply safe_bind; [apply safe_readString|]. intros [s n]. apply safe_ret. Qed.
Lemma safe_nullable_string : safe ReadNullableString.
Proof.
  apply safe_bind; [apply safe_readString|]. intros [s []]; apply safe_ret.
Qed.
Lemma safe_bytes : safe ReadBytes.
Proof.
  apply (safe_sized 4 i32); [lia| |auto using safe_ret..].
  intros z. pose proof (i32_range z). mlia.
Qed.
Lemma safe_array_len : safe ReadArrayLen.
Proof. apply safe_bind; auto using safe_int32, safe_ret. Qed.

Lemma safe_nullable_array {A} (p : M A) : safe p -> safe (read_nullable_array p).
Proof.
  intros Hp. apply safe_bind; [apply safe_array_len|]. intros n.
  apply safe_if; [apply safe_ret|]. apply safe_bind; auto using safe_list, safe_ret.
Qed.
Lemma safe_read_if {A} c (p : M A) d : safe p -> safe (read_if c p d).
Proof. intros. unfold read_if. destruct c; auto using safe_ret. Qed.
End safe_primitives.

Create HintDb safe discriminated.
#[global] Hint Resolve safe_ret safe_fail safe_bind safe_if safe_int8 safe_int16
  safe_int32 safe_int64 safe_bool safe_uvarint safe_varint safe_string
  safe_nullable_string safe_bytes safe_array_len safe_list safe_nullable_array
  safe_read_if : safe.

(** A decoder built from safe reads never panics on a body below 2^62 bytes. *)
Lemma safe_decode {A} (p : M A) body :
  safe p -> zlen body <= 4611686018427387904 -> decode p body <> Panic.
Proof.
  intros Hp Hl. unfold decode. specialize (Hp (NewReader body)).
  pose proof (zlen_nonneg body).
  destruct (p (NewReader body)) as [[a r]|e|]; simpl in *; [done|done|].
  exfalso. apply Hp. split; simpl; lia.
Qed.

(** ** Bytes that panic a decoder *)

Definition panics_at {A} (p : M A) (bs : list byte) : Prop :=
  forall pre post, in_i64 (zlen (pre ++ bs ++ post)) ->
  p (mkReader (pre ++ bs ++ post) (zlen pre)) = Panic.

Definition crash {A} (f : W) (p : M A) : Prop := exists bs, emits f bs /\ panics_at p bs.

Section crash.
Context {A B : Type}.
Implicit Types (p : M A) (k : A -> M B) (f g : W).

Lemma crash_bind f g p k v : rt f p v -> crash g (k v) -> crash (f +> g) (bind p k).
Proof.
  intros (bs & Hf & Hp) (cs & Hg & Hk). exists (bs ++ cs). split; [by apply emits_seq|].
  intros pre post Hl. unfold bind. rewrite <- app_assoc in *. rewrite Hp by done.
  rewrite app_assoc, <- zlen_app. rewrite app_assoc in Hl. by apply Hk.
Qed.

Lemma crash_here f p k : crash f p -> crash f (bind p k).
Proof.
  intros (bs & Hf & Hp). exists bs. split; [done|].
  intros pre post Hl. unfold bind. by rewrite Hp.
Qed.

Lemma crash_decode f p rest :
  crash f p -> in_i64 (zlen (f NewWriter ++ rest)) -> decode p (f NewWriter ++ rest) = Panic.
Proof.
  intros (bs & Hf & Hp) Hl. rewrite Hf in *. cbn [app NewWriter] in *.
  unfold decode, NewReader. specialize (Hp [] rest Hl). change (zlen []) with 0 in Hp.
  cbn [app] in Hp. by rewrite Hp.
Qed.
End crash.

(** A null array where the decoder calls [make] with the count it read. *)
Lemma crash_null_array {A} (p : M A) : crash (WriteArrayLen (-1)) (read_array p).
Proof.
  exists (be 4 4294967295). split; [by intros w|]. intros pre post Hl.
  assert (decodes ReadArrayLen (be 4 4294967295) (-1)) as Hd.
  { rewrite <- (app_nil_r (be _ _)).
    apply (decodes_bind ReadInt32 _ _ _ (-1)); [|apply (decodes_ret (-1))].
    by apply (decodes_fixed _ 4 (fun b => i32 (ube b))). }
  unfold read_array, bind at 1. by rewrite Hd by done.
Qed.
