(* ===== verification/GoStrings.v ===== *)
(** * What the program uses of Go's strings package

    Strings are byte lists. The program compares the results below with ASCII
    constants only, so the case maps treat the bytes of ASCII letters and the
    few other characters whose case map is an ASCII letter: the Kelvin sign and
    the dotted capital I for [ToLower], the Kelvin sign and the long s for
    [EqualFold]. Every other character maps to text that is not ASCII. *)

From stdpp Require Import prelude list strings.
From Stdlib Require Import ZArith Lia.
From S2P Require Import Prelude Wire.

Definition str (s : string) : gostring := String.list_byte_of_string s.

Definition lower (b : byte) : byte :=
  if (65 <=? b2z b) && (b2z b <=? 90) then z2b (b2z b + 32) else b.

Fixpoint ToLower (s : gostring) : gostring :=
  match s with
  | xe2 :: x84 :: xaa :: r => x6b :: ToLower r
  | xc4 :: xb0 :: r => x69 :: ToLower r
  | b :: r => lower b :: ToLower r
  | [] => []
  end.

(** The representative of a character under simple case folding. *)
Fixpoint fold_case (s : gostring) : gostring :=
  match s with
  | xe2 :: x84 :: xaa :: r => x6b :: fold_case r
  | xc5 :: xbf :: r => x73 :: fold_case r
  | b :: r => lower b :: fold_case r
  | [] => []
  end.

Definition EqualFold (a b : gostring) : bool := bool_decide (fold_case a = fold_case b).

(** The white space of Unicode, as UTF-8. *)
Definition spaces : list gostring :=
  [[x09]; [x0a]; [x0b]; [x0c]; [x0d]; [x20]; [xc2; x85]; [xc2; xa0]; [xe1; x9a; x80];
   [xe2; x80; x80]; [xe2; x80; x81]; [xe2; x80; x82]; [xe2; x80; x83]; [xe2; x80; x84];
   [xe2; x80; x85]; [xe2; x80; x86]; [xe2; x80; x87]; [xe2; x80; x88]; [xe2; x80; x89];
   [xe2; x80; x8a]; [xe2; x80; xa8]; [xe2; x80; xa9]; [xe2; x80; xaf]; [xe2; x81; x9f];
   [xe3; x80; x80]].

(** What is left of [s] after one of [ps] as a prefix. *)
Fixpoint strip_any (ps : list gostring) (s : gostring) : option gostring :=
  match ps with
  | [] => None
  | p :: ps => if bool_decide (take (length p) s = p) then Some (drop (length p) s) else strip_any ps s
  end.

(** Each round takes a byte at least: the length is fuel enough. *)
Fixpoint trim_with (ps : list gostring) (fuel : nat) (s : gostring) : gostring :=
  match fuel with
  | O => s
  | S k => match strip_any ps s with
           | Some r => trim_with ps k r
           | None => s
           end
  end.

Definition TrimSpace (s : gostring) : gostring :=
  let l := trim_with spaces (length s) s in
  rev (trim_with (map (@rev byte) spaces) (length l) (rev l)).

(** Go compares strings byte by byte. *)
Fixpoint string_le (a b : gostring) : bool :=
  match a, b with
  | [], _ => true
  | _ :: _, [] => false
  | x :: a, y :: b => (b2z x <? b2z y) || ((b2z x =? b2z y) && string_le a b)
  end.

(** [sort.Strings], by insertion. *)
Fixpoint insert_string (x : gostring) (l : list gostring) : list gostring :=
  match l with
  | [] => [x]
  | y :: r => if string_le x y then x :: l else y :: insert_string x r
  end.
Definition sort_strings (l : list gostring) : list gostring := foldr insert_string [] l.

(** ** Searching and splitting *)

Definition HasPrefix (s p : gostring) : bool := bool_decide (take (length p) s = p).

Definition TrimPrefix (s p : gostring) : gostring := if HasPrefix s p then drop (length p) s else s.

Definition TrimSuffix (s p : gostring) : gostring :=
  if bool_decide (drop (length s - length p) s = p) then take (length s - length p) s else s.

(** [strings.Trim] with one byte to trim. *)
Fixpoint trim_byte (b : byte) (s : gostring) : gostring :=
  match s with
  | c :: r => if bool_decide (c = b) then trim_byte b r else s
  | [] => []
  end.

Definition Trim (s : gostring) (b : byte) : gostring := rev (trim_byte b (rev (trim_byte b s))).

(** The position of the first occurrence. *)
Fixpoint Index (s p : gostring) : option nat :=
  if HasPrefix s p then Some 0%nat
  else match s with
       | [] => None
       | _ :: r => S <$> Index r p
       end.

Definition Contains (s p : gostring) : bool := bool_decide (is_Some (Index s p)).

(** The position of the last occurrence. *)
Fixpoint LastIndex (s p : gostring) : option nat :=
  match s with
  | [] => if HasPrefix [] p then Some 0%nat else None
  | _ :: r => match LastIndex r p with
              | Some i => Some (S i)
              | None => if HasPrefix s p then Some 0%nat else None
              end
  end.

(** [strings.Split] and [strings.SplitN] for a separator of one byte; [SplitN]
    splits [n] times at most. *)
Fixpoint split_from (sep : byte) (cur : gostring) (s : gostring) : list gostring :=
  match s with
  | [] => [cur]
  | b :: r => if bool_decide (b = sep) then cur :: split_from sep [] r
              else split_from sep (cur ++ [b]) r
  end.

Definition Split (s : gostring) (sep : byte) : list gostring := split_from sep [] s.

Fixpoint splitn_from (n : nat) (sep : byte) (cur : gostring) (s : gostring) : list gostring :=
  match s with
  | [] => [cur]
  | b :: r => if bool_decide (b = sep) then
                match n with
                | O => [cur ++ s]
                | S n => cur :: splitn_from n sep [] r
                end
              else splitn_from n sep (cur ++ [b]) r
  end.

Definition SplitN (s : gostring) (sep : byte) (n : nat) : list gostring := splitn_from (n - 1) sep [] s.

Definition upper (b : byte) : byte :=
  if (97 <=? b2z b) && (b2z b <=? 122) then z2b (b2z b - 32) else b.

(** Characters outside ASCII whose upper case is an ASCII letter: the dotless i
    and the long s. *)
Fixpoint ToUpper (s : gostring) : gostring :=
  match s with
  | xc4 :: xb1 :: r => x49 :: ToUpper r
  | xc5 :: xbf :: r => x53 :: ToUpper r
  | b :: r => upper b :: ToUpper r
  | [] => []
  end.

(** [strings.Replace] of the first occurrence. *)
Definition Replace1 (s old new : gostring) : gostring :=
  match Index s old with
  | Some i => take i s ++ new ++ drop (i + length old) s
  | None => s
  end.

(** Pieces without the separator are split where they were joined. *)
Lemma split_from_plain sep cur s :
  Forall (fun b => b <> sep) s -> split_from sep cur s = [cur ++ s].
Proof.
  intros Hs. revert cur. induction Hs as [|b s Hb _ IH]; intros cur; cbn; [by rewrite app_nil_r|].
  rewrite bool_decide_eq_false_2 by done. rewrite IH. by rewrite <- app_assoc.
Qed.

Lemma split_from_app sep cur s r :
  Forall (fun b => b <> sep) s ->
  split_from sep cur (s ++ sep :: r) = (cur ++ s) :: split_from sep [] r.
Proof.
  intros Hs. revert cur. induction Hs as [|b s Hb _ IH]; intros cur; cbn.
  - rewrite bool_decide_eq_true_2 by done. by rewrite app_nil_r.
  - rewrite bool_decide_eq_false_2 by done. rewrite IH. by rewrite <- app_assoc.
Qed.

Lemma HasPrefix_app s p : HasPrefix (p ++ s) p = true.
Proof. unfold HasPrefix. rewrite take_app_length. by apply bool_decide_eq_true_2. Qed.

Lemma TrimPrefix_app s p : TrimPrefix (p ++ s) p = s.
Proof. unfold TrimPrefix. by rewrite HasPrefix_app, drop_app_length. Qed.

(** A string that begins and ends with a printing ASCII character has nothing to
    trim. *)
Definition printing (b : byte) : Prop := 33 <= b2z b < 128.

Lemma trim_with_printing ps fuel b s :
  printing b -> forallb (fun p => match p with x :: _ => negb ((33 <=? b2z x) && (b2z x <? 128)) | [] => false end) ps = true ->
  trim_with ps fuel (b :: s) = b :: s.
Proof.
  intros Hb Hps. destruct fuel as [|fuel]; [done|]. cbn [trim_with].
  enough (strip_any ps (b :: s) = None) as -> by done.
  induction ps as [|[|x p] ps IH]; [done|done|]. cbn in Hps. apply andb_prop in Hps as [Hx Hps].
  cbn [strip_any]. rewrite bool_decide_eq_false_2; [by apply IH|]. cbn. intros [= <- _].
  unfold printing in Hb. lia.
Qed.

Lemma TrimSpace_printing s b c mid : printing b -> printing c -> s = b :: mid ++ [c] -> TrimSpace s = s.
Proof.
  intros Hb Hc ->. unfold TrimSpace. rewrite trim_with_printing by done.
  rewrite app_comm_cons, rev_app_distr. cbn [rev app]. rewrite trim_with_printing by done.
  cbn [rev]. by rewrite rev_app_distr, rev_involutive.
Qed.

(** ** Decimal numbers (strconv) *)

(** Twenty rounds are enough for 64 bits. *)
Fixpoint digits (fuel : nat) (n : Z) (acc : gostring) : gostring :=
  match fuel with
  | O => acc
  | S k => let acc := z2b (48 + n mod 10) :: acc in
           if n <? 10 then acc else digits k (n / 10) acc
  end.

(** [%d] of a 64-bit integer. *)
Definition itoa (n : Z) : gostring :=
  if n <? 0 then x2d :: digits 20 (- n) [] else digits 20 n [].

Fixpoint parse_digits (z : Z) (s : gostring) : option Z :=
  match s with
  | [] => Some z
  | b :: r => if (48 <=? b2z b) && (b2z b <=? 57) then parse_digits (10 * z + (b2z b - 48)) r else None
  end.

Definition parse_nat (s : gostring) : option Z := if bool_decide (s = []) then None else parse_digits 0 s.

(** [strconv.Atoi] on a 64-bit platform. *)
Definition Atoi (s : gostring) : outcome Z :=
  let v := match s with
           | x2d :: r => Z.opp <$> parse_nat r
           | x2b :: r => parse_nat r
           | _ => parse_nat s
           end in
  match v with
  | Some z => if (-9223372036854775808 <=? z) && (z <? 9223372036854775808) then Ok z
              else Err "strconv.Atoi: value out of range"
  | None => Err "strconv.Atoi: invalid syntax"
  end.

Lemma digit_value d : 0 <= d < 10 -> b2z (z2b (48 + d)) = 48 + d.
Proof. intros. rewrite b2z_z2b, Z.mod_small; lia. Qed.

Lemma parse_digits_digits fuel n acc :
  0 <= n < 10 ^ Z.of_nat fuel -> (0 < fuel)%nat ->
  parse_digits 0 (digits fuel n acc) = parse_digits n acc.
Proof.
  revert n acc. induction fuel as [|fuel IH]; intros n acc Hn Hf; [lia|]. cbn [digits].
  pose proof (Z.mod_pos_bound n 10 ltac:(lia)). destruct (Z.ltb_spec n 10).
  - cbn. rewrite digit_value by lia. rewrite (proj2 (Z.leb_le _ _)), (proj2 (Z.leb_le _ _)) by lia. cbn.
    rewrite Z.mod_small by lia. f_equal. lia.
  - destruct fuel as [|fuel].
    { change (10 ^ Z.of_nat 1) with 10 in Hn. lia. }
    assert (10 ^ Z.of_nat (S (S fuel)) = 10 * 10 ^ Z.of_nat (S fuel)) as Hpow.
    { rewrite (Nat2Z.inj_succ (S fuel)), Z.pow_succ_r; lia. }
    rewrite Hpow in Hn. rewrite IH; [|split; [apply Z.div_pos; lia|apply Z.div_lt_upper_bound; lia]|lia].
    cbn [parse_digits]. rewrite digit_value by lia.
    rewrite (proj2 (Z.leb_le _ _)), (proj2 (Z.leb_le _ _)) by lia. cbn [andb]. f_equal.
    pose proof (Z.div_mod n 10). lia.
Qed.

Lemma digits_app fuel n acc : digits fuel n acc = digits fuel n [] ++ acc.
Proof.
  revert n acc. induction fuel as [|fuel IH]; intros n acc; [done|]. cbn [digits].
  destruct (n <? 10); [done|]. rewrite IH, (IH _ [_]), <- app_assoc. done.
Qed.

(** The digits are digits, and there is one at least. *)
Lemma digits_digit fuel n acc :
  0 <= n -> Forall (fun b => 48 <= b2z b <= 57) acc -> Forall (fun b => 48 <= b2z b <= 57) (digits fuel n acc).
Proof.
  revert n acc. induction fuel as [|fuel IH]; intros n acc Hn Ha; [done|]. cbn [digits].
  pose proof (Z.mod_pos_bound n 10 ltac:(lia)).
  assert (Forall (fun b => 48 <= b2z b <= 57) (z2b (48 + n mod 10) :: acc)).
  { constructor; [rewrite digit_value; lia|done]. }
  destruct (n <? 10); [done|]. apply IH; [apply Z.div_pos; lia|done].
Qed.

Lemma digits_nonempty fuel n acc : (0 < fuel)%nat -> digits fuel n acc <> [].
Proof.
  destruct fuel as [|fuel]; [lia|]. intros _. cbn [digits]. destruct (n <? 10); [done|].
  rewrite digits_app. by intros [_ ?]%app_eq_nil.
Qed.

Lemma itoa_digits n : 0 <= n -> Forall (fun b => 48 <= b2z b <= 57) (itoa n) /\ itoa n <> [].
Proof.
  intros Hn. unfold itoa. rewrite (proj2 (Z.ltb_ge _ _)) by lia. split; [by apply digits_digit|].
  apply digits_nonempty. lia.
Qed.

(** The number [strconv.Atoi] returns, also beside an error. *)
Definition Atoi_value (s : gostring) : Z :=
  match Atoi s with
  | Ok n => n
  | Err e =>
      if bool_decide (e = "strconv.Atoi: value out of range"%string)
      then match s with x2d :: _ => - 2 ^ 63 | _ => 2 ^ 63 - 1 end else 0
  | Panic => 0
  end.

Lemma Atoi_itoa n : 0 <= n < 9223372036854775808 -> Atoi (itoa n) = Ok n.
Proof.
  intros Hn. destruct (itoa_digits n ltac:(lia)) as [Hd Hne].
  assert (parse_nat (itoa n) = Some n) as Hp.
  { unfold parse_nat. rewrite bool_decide_eq_false_2 by done. unfold itoa.
    rewrite (proj2 (Z.ltb_ge _ _)) by lia. rewrite parse_digits_digits; [done|cbn; lia|lia]. }
  unfold Atoi. destruct (itoa n) as [|b s]; [done|]. apply Forall_cons in Hd as [Hb _].
  assert (match b with x2d => Z.opp <$> parse_nat s | x2b => parse_nat s | _ => parse_nat (b :: s) end
          = Some n) as ->.
  { destruct b; try exact Hp; cbn in Hb; lia. }
  rewrite (proj2 (Z.leb_le _ _)), (proj2 (Z.ltb_lt _ _)) by lia. done.
Qed.

(** ** Sorting by a name, hexadecimal text *)

(** [sort.Slice] by a name. *)
Section sort.
Context {A : Type} (key : A -> gostring).

Fixpoint insert_by (x : A) (l : list A) : list A :=
  match l with
  | [] => [x]
  | y :: r => if string_le (key x) (key y) then x :: l else y :: insert_by x r
  end.

Definition sort_by (l : list A) : list A := foldr insert_by [] l.

Lemma insert_by_perm x l : insert_by x l ≡ₚ x :: l.
Proof. induction l as [|y l IH]; [done|]. cbn. destruct (string_le _ _); [done|]. rewrite IH. constructor. Qed.

Lemma sort_by_perm l : sort_by l ≡ₚ l.
Proof. induction l as [|x l IH]; [done|]. cbn. by rewrite insert_by_perm, IH. Qed.
End sort.

(** [hex.EncodeToString]. *)
Definition hex_digit (n : Z) : byte := if n <? 10 then z2b (48 + n) else z2b (87 + n).
Definition hex_encode (bs : list byte) : gostring :=
  mjoin (map (fun b => [hex_digit (b2z b / 16); hex_digit (b2z b mod 16)]) bs).
