(* ===== verification/GoCrypto.v ===== *)
(** * What the program uses of Go's crypto and encoding/base64 packages

    SHA-256 and SHA-512 (FIPS 180-4) from one description with the word size as
    a parameter; the round constants are computed as the standard defines them,
    from the fractional parts of cube and square roots of primes. HMAC, PBKDF2,
    and the standard base64 alphabet with its decoder. *)

From stdpp Require Import prelude list strings.
From Stdlib Require Import ZArith Lia.
From S2P Require Import Prelude Wire GoStrings.

(** ** The hash functions *)

Fixpoint primes_from (fuel count : nat) (n : Z) (found : list Z) : list Z :=
  match fuel, count with
  | S fuel, S c =>
      if forallb (fun p => negb (n mod p =? 0)) found
      then primes_from fuel c (n + 1) (found ++ [n])
      else primes_from fuel count (n + 1) found
  | _, _ => found
  end.

Definition primes (count : nat) : list Z := primes_from 500 count 2 [].

(** The integer cube root, bit by bit from 2^k down. *)
Fixpoint cbrt_bits (k : nat) (n r : Z) : Z :=
  match k with
  | O => r
  | S k => let r' := r + 2 ^ Z.of_nat k in cbrt_bits k n (if r' * r' * r' <=? n then r' else r)
  end.

(** The first [w] bits of the fractional part. *)
Definition root3_bits (w p : Z) : Z := (cbrt_bits (Z.to_nat w + 4) (p * 2 ^ (3 * w)) 0) mod 2 ^ w.
Definition root2_bits (w p : Z) : Z := Z.sqrt (p * 2 ^ (2 * w)) mod 2 ^ w.

(** A member of the SHA-2 family: word size, the amounts of the four mixing
    functions, the round constants and the initial state. *)
Record sha2 := mkSha {
  sh_word : Z;
  sh_small0 : Z * Z * Z;
  sh_small1 : Z * Z * Z;
  sh_big0 : Z * Z * Z;
  sh_big1 : Z * Z * Z;
  sh_K : list Z;
  sh_init : list Z }.

Definition K256 : list Z := Eval vm_compute in map (root3_bits 32) (primes 64).
Definition K512 : list Z := Eval vm_compute in map (root3_bits 64) (primes 80).
Definition init256 : list Z := Eval vm_compute in map (root2_bits 32) (primes 8).
Definition init512 : list Z := Eval vm_compute in map (root2_bits 64) (primes 8).

Definition sha256 : sha2 := mkSha 32 (7, 18, 3) (17, 19, 10) (2, 13, 22) (6, 11, 25) K256 init256.
Definition sha512 : sha2 := mkSha 64 (1, 8, 7) (19, 61, 6) (28, 34, 39) (14, 18, 41) K512 init512.

Section hash.
Context (h : sha2).

Definition wrap (x : Z) : Z := Z.land x (Z.ones (sh_word h)).
Definition rotr (n x : Z) : Z := Z.lor (Z.shiftr x n) (wrap (Z.shiftl x (sh_word h - n))).

Definition small (c : Z * Z * Z) (x : Z) : Z :=
  let '(a, b, s) := c in Z.lxor (Z.lxor (rotr a x) (rotr b x)) (Z.shiftr x s).
Definition big (c : Z * Z * Z) (x : Z) : Z :=
  let '(a, b, d) := c in Z.lxor (Z.lxor (rotr a x) (rotr b x)) (rotr d x).

(** The next word of the message schedule from the last sixteen. *)
Definition next_word (ws : list Z) : Z :=
  wrap (small (sh_small1 h) (nth 14 ws 0) + nth 9 ws 0 + small (sh_small0 h) (nth 1 ws 0) + nth 0 ws 0).

Definition round (k w : Z) (st : list Z) : list Z :=
  match st with
  | [a; b; c; d; e; f; g; i] =>
      let ch := Z.lxor (Z.land e f) (Z.land (Z.lxor e (Z.ones (sh_word h))) g) in
      let maj := Z.lxor (Z.lxor (Z.land a b) (Z.land a c)) (Z.land b c) in
      let t1 := i + big (sh_big1 h) e + ch + k + w in
      let t2 := big (sh_big0 h) a + maj in
      [wrap (t1 + t2); a; b; c; wrap (d + t1); e; f; g]
  | _ => st
  end.

Fixpoint rounds (ks ws st : list Z) : list Z :=
  match ks with
  | [] => st
  | k :: ks => rounds ks (tl ws ++ [next_word ws]) (round k (hd 0 ws) st)
  end.

Definition word_bytes : nat := Z.to_nat (sh_word h / 8).
Definition BlockSize : nat := (16 * word_bytes)%nat.
Definition HashSize : nat := (8 * word_bytes)%nat.

Fixpoint chunks (fuel n : nat) (bs : list byte) : list (list byte) :=
  match fuel with
  | O => []
  | S k => match bs with [] => [] | _ => take n bs :: chunks k n (drop n bs) end
  end.

Definition compress (st : list Z) (block : list byte) : list Z :=
  zip_with (fun x y => wrap (x + y)) st
    (rounds (sh_K h) (map ube (chunks 16 word_bytes block)) st).

(** A one bit, zeros, and the length in bits in the last two words. *)
Definition pad (msg : list byte) : list byte :=
  let n := length msg in
  let zeros := ((BlockSize - (n + 1 + 2 * word_bytes) `mod` BlockSize) `mod` BlockSize)%nat in
  msg ++ [x80] ++ replicate zeros x00 ++ be (2 * word_bytes) (8 * Z.of_nat n).

Definition Sum (msg : list byte) : list byte :=
  let padded := pad msg in
  mjoin (map (be word_bytes)
    (fold_left compress (chunks (length padded) BlockSize padded) (sh_init h))).

(** ** HMAC and PBKDF2 *)

Definition xor_bytes (a b : list byte) : list byte :=
  zip_with (fun x y => z2b (Z.lxor (b2z x) (b2z y))) a b.

Definition hmac (key msg : list byte) : list byte :=
  let key := if (BlockSize <? length key)%nat then Sum key else key in
  let key := key ++ replicate (BlockSize - length key) x00 in
  let under b := map (fun x => z2b (Z.lxor (b2z x) b)) key in
  Sum (under 92 ++ Sum (under 54 ++ msg)).

Fixpoint pbkdf2_iter (n : nat) (password u acc : list byte) : list byte :=
  match n with
  | O => acc
  | S n => let u := hmac password u in pbkdf2_iter n password u (xor_bytes acc u)
  end.

Definition pbkdf2_block (password salt : list byte) (iter : Z) (i : nat) : list byte :=
  let u := hmac password (salt ++ be 4 (Z.of_nat i)) in
  pbkdf2_iter (Z.to_nat (iter - 1)) password u u.

(** [pbkdf2.Key]. *)
Definition pbkdf2_Key (password salt : list byte) (iter keyLength : Z) : outcome (list byte) :=
  if keyLength <=? 0 then Err "pbkdf2: keyLength must be larger than 0" else
  let n := Z.to_nat keyLength in
  Ok (take n (mjoin (map (pbkdf2_block password salt iter)
                       (seq 1 ((n + HashSize - 1) / HashSize))))).
End hash.

(** Known answers: the digests of "abc", a keyed one, and a derived key. *)
Lemma sha256_abc : map b2z (take 8 (Sum sha256 (str "abc"))) = [186; 120; 22; 191; 143; 1; 207; 234].
Proof. vm_compute. reflexivity. Qed.
Lemma sha512_abc : map b2z (take 8 (Sum sha512 (str "abc"))) = [221; 175; 53; 161; 147; 97; 122; 186].
Proof. vm_compute. reflexivity. Qed.
Lemma hmac_known :
  map b2z (take 8 (hmac sha256 (str "key") (str "The quick brown fox jumps over the lazy dog")))
  = [247; 188; 131; 244; 48; 83; 132; 36].
Proof. vm_compute. reflexivity. Qed.
Lemma pbkdf2_known :
  (fun k => map b2z (take 8 k)) <$> (match pbkdf2_Key sha256 (str "password") (str "salt") 2 32 with
                                     | Ok k => Some k | _ => None end)
  = Some [174; 77; 12; 149; 175; 107; 70; 211].
Proof. vm_compute. reflexivity. Qed.

(** ** Lengths *)

Lemma length_round h k w st : length (round h k w st) = length st.
Proof. by do 9 (destruct st as [|? st]; [done|]). Qed.

Lemma length_rounds h ks ws st : length (rounds h ks ws st) = length st.
Proof. revert ws st. induction ks as [|k ks IH]; intros ws st; cbn; [done|]. by rewrite IH, length_round. Qed.

Lemma length_compress h st block : length (compress h st block) = length st.
Proof. unfold compress. rewrite length_zip_with, length_rounds. lia. Qed.

Lemma length_mjoin_be n (ws : list Z) : length (mjoin (map (be n) ws)) = (length ws * n)%nat.
Proof. induction ws as [|x ws IH]; [done|]. cbn [map length]. rewrite mjoin_cons, length_app, length_be, IH. lia. Qed.

Lemma length_Sum h msg : length (sh_init h) = 8%nat -> length (Sum h msg) = HashSize h.
Proof.
  intros Hi. unfold Sum. rewrite length_mjoin_be. unfold HashSize. f_equal. rewrite <- Hi.
  generalize (chunks (length (pad h msg)) (BlockSize h) (pad h msg)) as cs. generalize (sh_init h) as st.
  intros st cs. revert st. induction cs as [|c cs IH]; intros st; cbn; [done|].
  by rewrite IH, length_compress.
Qed.

Lemma length_hmac h key msg : length (sh_init h) = 8%nat -> length (hmac h key msg) = HashSize h.
Proof. intros Hi. unfold hmac. by apply length_Sum. Qed.

Lemma length_xor_bytes a b : length (xor_bytes a b) = (length a `min` length b)%nat.
Proof. apply length_zip_with. Qed.

Lemma log2_lt_8 a : 0 <= a < 256 -> Z.log2 a < 8.
Proof.
  intros H. destruct (Z.eq_dec a 0) as [->|]; [by rewrite Z.log2_nonpos|].
  apply Z.log2_lt_pow2; [lia|]. change (2 ^ 8) with 256. lia.
Qed.

(** Combining twice with the same bytes undoes itself. *)
Lemma xor_bytes_twice a b : length a = length b -> xor_bytes (xor_bytes a b) b = a.
Proof.
  revert b. induction a as [|x a IH]; intros [|y b] Hl; cbn in *; try done.
  unfold xor_bytes in *. f_equal; [|apply IH; lia]. pose proof (b2z_range x). pose proof (b2z_range y).
  apply (inj b2z). rewrite !b2z_z2b.
  assert (0 <= Z.lxor (b2z x) (b2z y) < 256) as Hr.
  { change 256 with (2 ^ 8) in *. split; [apply Z.lxor_nonneg; lia|].
    apply Z.log2_lt_cancel. change (Z.log2 (2 ^ 8)) with 8.
    pose proof (Z.log2_lxor (b2z x) (b2z y) ltac:(lia) ltac:(lia)).
    assert (Z.log2 (b2z x) < 8) by (apply log2_lt_8; lia).
    assert (Z.log2 (b2z y) < 8) by (apply log2_lt_8; lia).
    lia. }
  rewrite (Z.mod_small (Z.lxor (b2z x) (b2z y))) by done.
  rewrite Z.lxor_assoc, Z.lxor_nilpotent, Z.lxor_0_r. by apply Z.mod_small.
Qed.

(** ** base64 *)

Definition b64_char (d : Z) : byte :=
  z2b (if d <? 26 then 65 + d else if d <? 52 then 71 + d else if d <? 62 then d - 4
       else if d =? 62 then 43 else 47).

Definition b64_value (b : byte) : option Z :=
  let c := b2z b in
  if (65 <=? c) && (c <=? 90) then Some (c - 65)
  else if (97 <=? c) && (c <=? 122) then Some (c - 71)
  else if (48 <=? c) && (c <=? 57) then Some (c + 4)
  else if c =? 43 then Some 62
  else if c =? 47 then Some 63
  else None.

(** [StdEncoding.EncodeToString]. *)
Fixpoint b64_encode (bs : list byte) : gostring :=
  match bs with
  | a :: b :: c :: r =>
      let n := 65536 * b2z a + 256 * b2z b + b2z c in
      b64_char (n / 262144) :: b64_char (n / 4096 mod 64) :: b64_char (n / 64 mod 64)
        :: b64_char (n mod 64) :: b64_encode r
  | [a; b] =>
      let n := 65536 * b2z a + 256 * b2z b in
      [b64_char (n / 262144); b64_char (n / 4096 mod 64); b64_char (n / 64 mod 64); x3d]
  | [a] => let n := 65536 * b2z a in [b64_char (n / 262144); b64_char (n / 4096 mod 64); x3d; x3d]
  | [] => []
  end.

(** Four characters at a time; padding only at the end, its spare bits are not
    looked at. *)
Fixpoint b64_groups (s : gostring) : option (list byte) :=
  match s with
  | [] => Some []
  | a :: b :: c :: d :: r =>
      x ← b64_value a; y ← b64_value b;
      let n := 262144 * x + 4096 * y in
      if bool_decide (c = x3d) then
        if bool_decide (d = x3d) && bool_decide (r = []) then Some [z2b (n / 65536)] else None
      else
        z ← b64_value c;
        let n := n + 64 * z in
        if bool_decide (d = x3d) then
          if bool_decide (r = []) then Some [z2b (n / 65536); z2b (n / 256)] else None
        else
          w ← b64_value d;
          let n := n + w in
          rest ← b64_groups r;
          Some (z2b (n / 65536) :: z2b (n / 256) :: z2b n :: rest)
  | _ => None
  end.

(** [StdEncoding.DecodeString] skips line breaks. *)
Definition b64_decode (s : gostring) : outcome (list byte) :=
  match b64_groups (List.filter (fun b => negb (bool_decide (b = x0a) || bool_decide (b = x0d))) s) with
  | Some bs => Ok bs
  | None => Err "illegal base64 data"
  end.

Definition b64_alphabet : list byte := map (fun i => b64_char (Z.of_nat i)) (seq 0 64).

Lemma b64_char_value d :
  0 <= d < 64 -> b64_value (b64_char d) = Some d /\ b64_char d <> x3d /\
    43 <= b2z (b64_char d) <= 122 /\ b64_char d <> x2c.
Proof.
  intros Hd.
  assert (forallb (fun i => let d := Z.of_nat i in
    bool_decide (b64_value (b64_char d) = Some d /\ b64_char d <> x3d /\
      43 <= b2z (b64_char d) <= 122 /\ b64_char d <> x2c)) (seq 0 64) = true) as H
    by (vm_compute; reflexivity).
  rewrite forallb_forall in H. specialize (H (Z.to_nat d)). rewrite Z2Nat.id in H by lia.
  eapply bool_decide_eq_true_1, H, in_seq. lia.
Qed.

(** An encoding consists of characters of the alphabet and padding. *)
Lemma b64_encode_chars bs :
  Forall (fun b => 43 <= b2z b <= 122 /\ b <> x2c) (b64_encode bs).
Proof.
  assert (forall d, 0 <= d < 64 -> 43 <= b2z (b64_char d) <= 122 /\ b64_char d <> x2c) as Hc.
  { intros d Hd. destruct (b64_char_value d Hd) as (_ & _ & ? & ?). auto. }
  assert (forall n, (length bs <= n)%nat ->
    Forall (fun b => 43 <= b2z b <= 122 /\ b <> x2c) (b64_encode bs)) as H; [|by eapply H].
  intros n. revert bs. induction n as [|n IH]; intros bs Hl; [destruct bs; [constructor|cbn in Hl; lia]|].
  destruct bs as [|a [|b [|c r]]]; cbn [b64_encode].
  - constructor.
  - pose proof (b2z_range a). repeat constructor; try done; apply Hc; Z.to_euclidean_division_equations; lia.
  - pose proof (b2z_range a). pose proof (b2z_range b).
    repeat constructor; try done; apply Hc; Z.to_euclidean_division_equations; lia.
  - pose proof (b2z_range a). pose proof (b2z_range b). pose proof (b2z_range c).
    do 4 (constructor; [apply Hc; Z.to_euclidean_division_equations; lia|]). apply IH. cbn in Hl. lia.
Qed.

Lemma z2b_shift n b : n mod 256 = b2z b -> z2b n = b.
Proof. intros H. apply (inj b2z). by rewrite b2z_z2b. Qed.

Lemma b64_groups_encode bs : b64_groups (b64_encode bs) = Some bs.
Proof.
  assert (forall n bs, (length bs <= n)%nat -> b64_groups (b64_encode bs) = Some bs) as H; [|by eapply H].
  clear bs. induction n as [|n IH]; intros bs Hl; [by destruct bs; [|cbn in Hl; lia]|].
  destruct bs as [|a [|b [|c r]]]; [done| | |]; cbn [b64_encode b64_groups];
    pose proof (b2z_range a).
  - destruct (b64_char_value (65536 * b2z a / 262144)) as (-> & _); [Z.to_euclidean_division_equations; lia|].
    destruct (b64_char_value (65536 * b2z a / 4096 mod 64)) as (-> & _); [Z.to_euclidean_division_equations; lia|].
    cbn. f_equal. f_equal. apply z2b_shift. Z.to_euclidean_division_equations; lia.
  - pose proof (b2z_range b). set (m := 65536 * b2z a + 256 * b2z b).
    assert (0 <= m < 16777216) by lia.
    destruct (b64_char_value (m / 262144)) as (-> & _); [Z.to_euclidean_division_equations; lia|].
    destruct (b64_char_value (m / 4096 mod 64)) as (-> & _); [Z.to_euclidean_division_equations; lia|].
    destruct (b64_char_value (m / 64 mod 64)) as (-> & Hne & _); [Z.to_euclidean_division_equations; lia|].
    cbn [mbind option_bind]. rewrite (bool_decide_eq_false_2 _ Hne). cbn.
    do 2 f_equal; [|f_equal]; apply z2b_shift; subst m; Z.to_euclidean_division_equations; lia.
  - pose proof (b2z_range b). pose proof (b2z_range c). set (m := 65536 * b2z a + 256 * b2z b + b2z c).
    assert (0 <= m < 16777216) by lia.
    destruct (b64_char_value (m / 262144)) as (-> & _); [Z.to_euclidean_division_equations; lia|].
    destruct (b64_char_value (m / 4096 mod 64)) as (-> & _); [Z.to_euclidean_division_equations; lia|].
    destruct (b64_char_value (m / 64 mod 64)) as (-> & Hne & _); [Z.to_euclidean_division_equations; lia|].
    destruct (b64_char_value (m mod 64)) as (-> & Hne' & _); [Z.to_euclidean_division_equations; lia|].
    cbn [mbind option_bind]. rewrite (bool_decide_eq_false_2 _ Hne), (bool_decide_eq_false_2 _ Hne').
    rewrite IH by (cbn in Hl; lia). cbn [mbind option_bind].
    assert (262144 * (m / 262144) + 4096 * (m / 4096 mod 64) + 64 * (m / 64 mod 64) + m mod 64 = m) as ->
      by (Z.to_euclidean_division_equations; lia).
    do 2 f_equal; [|f_equal; [|f_equal]]; apply z2b_shift; subst m; Z.to_euclidean_division_equations; lia.
Qed.

Lemma b64_decode_encode bs : b64_decode (b64_encode bs) = Ok bs.
Proof.
  unfold b64_decode.
  assert (List.filter (fun b => negb (bool_decide (b = x0a) || bool_decide (b = x0d))) (b64_encode bs)
          = b64_encode bs) as ->; [|by rewrite b64_groups_encode].
  pose proof (b64_encode_chars bs) as Hf. induction Hf as [|b s (H1 & _) _ IH]; [done|]. cbn.
  rewrite !bool_decide_eq_false_2 by (intros ->; cbn in H1; lia). cbn. by rewrite IH.
Qed.

Lemma b64_encode_nonempty bs : bs <> [] -> b64_encode bs <> [].
Proof. by destruct bs as [|a [|b [|c r]]]. Qed.

(** An encoding holds none of the separators the program uses. *)
Lemma b64_encode_without sep bs :
  b2z sep < 43 \/ sep = x2c -> Forall (fun b => b <> sep) (b64_encode bs).
Proof.
  intros Hs. eapply Forall_impl; [apply b64_encode_chars|]. cbn. intros b [H1 H2].
  destruct Hs as [Hs| ->]; [|done]. intros ->. lia.
Qed.

(** ** Lengths of derived keys *)

Lemma length_pbkdf2_iter h n password u acc :
  length (sh_init h) = 8%nat -> length acc = HashSize h ->
  length (pbkdf2_iter h n password u acc) = HashSize h.
Proof.
  intros Hi. revert u acc. induction n as [|n IH]; intros u acc Ha; cbn [pbkdf2_iter]; [done|].
  apply IH. rewrite length_xor_bytes, length_hmac, Ha by done. lia.
Qed.

Lemma length_mjoin_blocks h password salt iter idx :
  length (sh_init h) = 8%nat ->
  length (mjoin (map (pbkdf2_block h password salt iter) idx)) = (length idx * HashSize h)%nat.
Proof.
  intros Hi. induction idx as [|i idx IH]; [done|]. cbn [map length]. rewrite mjoin_cons, length_app, IH.
  unfold pbkdf2_block. rewrite length_pbkdf2_iter; [lia|done|]. by apply length_hmac.
Qed.

Lemma pbkdf2_Key_length h password salt iter n key :
  length (sh_init h) = 8%nat -> (0 < HashSize h)%nat ->
  pbkdf2_Key h password salt iter n = Ok key -> zlen key = n.
Proof.
  intros Hi Hs. unfold pbkdf2_Key. destruct (Z.leb_spec n 0); [done|]. intros [= <-].
  unfold zlen. rewrite length_take, length_mjoin_blocks, length_seq by done.
  pose proof (Nat.div_mod (Z.to_nat n + HashSize h - 1) (HashSize h) ltac:(lia)).
  pose proof (Nat.mod_upper_bound (Z.to_nat n + HashSize h - 1) (HashSize h) ltac:(lia)). nia.
Qed.
