(* ===== verification/Credential.v ===== *)
(** * Stored passwords and SCRAM verifiers (internal/credential/credential.go)

    A password is kept in clear, as a PBKDF2 hash, or as a SCRAM verifier; the
    last two are strings of fields separated by a dollar sign. Random bytes are
    an argument of the functions that draw them. *)

From stdpp Require Import prelude list strings.
From Stdlib Require Import ZArith Lia.
From S2P Require Import Prelude Wire GoStrings GoCrypto.

Definition passwordHashIterations : Z := 210000.
Definition DefaultSCRAMIterations : Z := 15000.
Definition MaxIterations : Z := 1000000.

Definition passwordPrefix : gostring := str "pbkdf2-sha256".
Definition sha512Prefix : gostring := str "pbkdf2-sha512".
Definition scramPrefix : gostring := str "scram-".

Record Mechanism := mkMechanism { m_Name : gostring; m_KeySize : Z; m_NewHash : sha2 }.

Definition SHA256 : Mechanism := mkMechanism (str "SCRAM-SHA-256") 32 sha256.
Definition SHA512 : Mechanism := mkMechanism (str "SCRAM-SHA-512") 64 sha512.

Definition MechanismByName (name : gostring) : option Mechanism :=
  let name := ToUpper (TrimSpace name) in
  if bool_decide (name = str "SCRAM-SHA-256") then Some SHA256
  else if bool_decide (name = str "SCRAM-SHA-512") then Some SHA512
  else None.

(** The bytes [rand.Read] would give, or its error. *)
Definition RandomSalt (rand : outcome (list byte)) : outcome (list byte) := rand.

(** ** Password hashes *)

Definition dollar : gostring := [x24].

Definition HashPasswordWith (password : gostring) (salt : list byte) (iterations : Z) : outcome gostring :=
  if (iterations <? 1) || (MaxIterations <? iterations)
  then Err "credential: iteration count out of range" else
  let? key := pbkdf2_Key sha256 password salt iterations 32 in
  Ok (passwordPrefix ++ dollar ++ itoa iterations ++ dollar ++ b64_encode salt ++ dollar ++ b64_encode key).

Definition HashPassword (rand : outcome (list byte)) (password : gostring) : outcome gostring :=
  let? salt := RandomSalt rand in
  HashPasswordWith password salt passwordHashIterations.

Definition LooksLikeHash (v : gostring) : bool :=
  HasPrefix v (passwordPrefix ++ dollar) || HasPrefix v (sha512Prefix ++ dollar) || HasPrefix v scramPrefix.

Definition VerifyPassword (stored password : gostring) : bool :=
  match Split stored x24 with
  | [p0; p1; p2; p3] =>
      let newHash := if bool_decide (p0 = passwordPrefix) then Some sha256
                     else if bool_decide (p0 = sha512Prefix) then Some sha512
                     else None in
      match newHash with
      | None => false
      | Some h =>
          match Atoi p1 with
          | Ok iterations =>
              if (iterations <? 1) || (MaxIterations <? iterations) then false else
              match b64_decode p2 with
              | Ok salt =>
                  if zlen salt =? 0 then false else
                  match b64_decode p3 with
                  | Ok want =>
                      if zlen want =? 0 then false else
                      match pbkdf2_Key h password salt iterations (zlen want) with
                      | Ok got => bool_decide (got = want)
                      | _ => false
                      end
                  | _ => false
                  end
              | _ => false
              end
          | _ => false
          end
      end
  | _ => false
  end.

Definition Matches (stored presented : gostring) : bool :=
  if LooksLikeHash stored then VerifyPassword stored presented
  else bool_decide (stored = presented).

(** ** SCRAM verifiers *)

Record Verifier := mkVerifier {
  v_Mechanism : Mechanism; v_Iterations : Z; v_Salt : list byte;
  v_StoredKey : list byte; v_ServerKey : list byte }.

Definition hmacSum (m : Mechanism) (key msg : list byte) : list byte := hmac (m_NewHash m) key msg.

Definition DeriveVerifier (m : Mechanism) (password : gostring) (salt : list byte) (iterations : Z)
  : outcome Verifier :=
  let iterations := if iterations <=? 0 then DefaultSCRAMIterations else iterations in
  if MaxIterations <? iterations then Err "credential: iterations exceed the maximum" else
  let? salted := pbkdf2_Key (m_NewHash m) password salt iterations (m_KeySize m) in
  let clientKey := hmacSum m salted (str "Client Key") in
  let storedKey := Sum (m_NewHash m) clientKey in
  Ok (mkVerifier m iterations salt storedKey (hmacSum m salted (str "Server Key"))).

Definition Signature (v : Verifier) (key message : list byte) : list byte :=
  hmacSum (v_Mechanism v) key message.

Definition Verifier_String (v : Verifier) : gostring :=
  let name := if m_KeySize (v_Mechanism v) =? 64 then str "sha-512" else str "sha-256" in
  scramPrefix ++ name ++ dollar ++ itoa (v_Iterations v) ++ dollar ++ b64_encode (v_Salt v) ++ dollar
    ++ b64_encode (v_StoredKey v) ++ dollar ++ b64_encode (v_ServerKey v).

Definition ParseVerifier (s : gostring) : outcome Verifier :=
  match Split (TrimSpace s) x24 with
  | [p0; p1; p2; p3; p4] =>
      if negb (HasPrefix p0 scramPrefix) then Err "credential: not a SCRAM verifier" else
      match MechanismByName (str "SCRAM-" ++ ToUpper (Replace1 p0 scramPrefix [])) with
      | None => Err "credential: unsupported SCRAM verifier"
      | Some m =>
          match Atoi p1 with
          | Ok iterations =>
              if (iterations <? 1) || (MaxIterations <? iterations)
              then Err "credential: invalid SCRAM iteration count" else
              match b64_decode p2 with
              | Ok salt =>
                  if zlen salt =? 0 then Err "credential: invalid SCRAM salt" else
                  match b64_decode p3 with
                  | Ok storedKey =>
                      if negb (zlen storedKey =? m_KeySize m)
                      then Err "credential: invalid SCRAM stored key" else
                      match b64_decode p4 with
                      | Ok serverKey =>
                          if negb (zlen serverKey =? m_KeySize m)
                          then Err "credential: invalid SCRAM server key" else
                          Ok (mkVerifier m iterations salt storedKey serverKey)
                      | _ => Err "credential: invalid SCRAM server key"
                      end
                  | _ => Err "credential: invalid SCRAM stored key"
                  end
              | _ => Err "credential: invalid SCRAM salt"
              end
          | _ => Err "credential: invalid SCRAM iteration count"
          end
      end
  | _ => Err "credential: not a SCRAM verifier"
  end.

(** ** Correctness *)

(** The two mechanisms there are. *)
Definition known_mechanism (m : Mechanism) : Prop := m = SHA256 \/ m = SHA512.

Lemma MechanismByName_known name m : MechanismByName name = Some m -> known_mechanism m.
Proof. unfold MechanismByName, known_mechanism. repeat case_bool_decide; naive_solver. Qed.

Lemma known_mechanism_sizes m :
  known_mechanism m ->
  length (sh_init (m_NewHash m)) = 8%nat /\ Z.of_nat (HashSize (m_NewHash m)) = m_KeySize m /\
  (0 < HashSize (m_NewHash m))%nat.
Proof. intros [-> | ->]; vm_compute; repeat constructor. Qed.

Lemma KeySize_pos m : known_mechanism m -> 0 < m_KeySize m.
Proof. by intros [-> | ->]. Qed.

Lemma zlen_hmacSum m key msg : known_mechanism m -> zlen (hmacSum m key msg) = m_KeySize m.
Proof.
  intros (Hi & Hs & _)%known_mechanism_sizes. unfold zlen, hmacSum. by rewrite length_hmac.
Qed.

Lemma zlen_Sum m msg : known_mechanism m -> zlen (Sum (m_NewHash m) msg) = m_KeySize m.
Proof. intros (Hi & Hs & _)%known_mechanism_sizes. unfold zlen. by rewrite length_Sum. Qed.

Lemma itoa_without sep n : 0 <= n -> b2z sep < 48 -> Forall (fun b => b <> sep) (itoa n).
Proof.
  intros Hn Hs. eapply Forall_impl; [by apply itoa_digits|]. cbn. intros b Hb ->. lia.
Qed.

Lemma split_from_dollar cur a r :
  Forall (fun b => b <> x24) a -> split_from x24 cur (a ++ dollar ++ r) = (cur ++ a) :: split_from x24 [] r.
Proof. apply split_from_app. Qed.

(** Take a text of fields apart. *)
Ltac split_fields :=
  unfold Split;
  rewrite ?split_from_dollar, split_from_plain
    by (first [apply itoa_without; [lia|vm_compute; reflexivity]
              | apply b64_encode_without; left; vm_compute; reflexivity
              | assumption
              | apply (bool_decide_unpack _); vm_compute; exact I]);
  cbn [app].

(** What a password hash verifies: the passwords with the same derived key. *)
Lemma VerifyPassword_hash password salt iterations stored p :
  salt <> [] -> HashPasswordWith password salt iterations = Ok stored ->
  VerifyPassword stored p
  = bool_decide (pbkdf2_Key sha256 p salt iterations 32 = pbkdf2_Key sha256 password salt iterations 32).
Proof.
  intros Hs. unfold HashPasswordWith.
  destruct ((iterations <? 1) || (MaxIterations <? iterations)) eqn:Hit; [done|].
  destruct (pbkdf2_Key sha256 password salt iterations 32) as [key| |] eqn:Hk; try done.
  cbn [obind]. intros <-%(inj Ok). unfold MaxIterations in Hit.
  assert (1 <= iterations <= 1000000) by lia.
  apply pbkdf2_Key_length in Hk as Hl; [|done|vm_compute; lia].
  unfold VerifyPassword. split_fields.
  rewrite (bool_decide_eq_true_2 (_ = passwordPrefix)) by done.
  rewrite Atoi_itoa by lia. unfold MaxIterations. rewrite Hit, b64_decode_encode.
  assert ((zlen salt =? 0) = false) as -> by (destruct salt; [done|]; rewrite zlen_cons; pose proof (zlen_nonneg salt); lia).
  rewrite b64_decode_encode, Hl. cbn.
  destruct (pbkdf2_Key sha256 p salt iterations 32) as [k'| |].
  - apply bool_decide_ext. split; congruence.
  - by rewrite bool_decide_eq_false_2.
  - by rewrite bool_decide_eq_false_2.
Qed.

(** A password verifies against the hash [HashPasswordWith] made of it (what
    [HashPassword] and the command line store), the hash is recognised as one,
    and another password verifies exactly when PBKDF2 derives the same key for
    it. *)
Theorem password_hash_verifies password salt iterations :
  salt <> [] -> 1 <= iterations <= MaxIterations ->
  exists stored, HashPasswordWith password salt iterations = Ok stored /\
    LooksLikeHash stored = true /\ Matches stored password = true /\
    forall p, Matches stored p
      = bool_decide (pbkdf2_Key sha256 p salt iterations 32 = pbkdf2_Key sha256 password salt iterations 32).
Proof.
  intros Hs Hi.
  assert (exists stored, HashPasswordWith password salt iterations = Ok stored) as [stored E].
  { unfold HashPasswordWith. rewrite (proj2 (Z.ltb_ge _ _)), (proj2 (Z.ltb_ge _ _)) by lia. cbn [orb].
    unfold pbkdf2_Key. cbn [obind Z.leb Z.compare]. by eexists. }
  exists stored. split; [done|].
  assert (LooksLikeHash stored = true) as HL.
  { unfold HashPasswordWith in E. destruct (_ || _); [done|].
    destruct (pbkdf2_Key _ _ _ _ _); [|done|done]. cbn [obind] in E. apply (inj Ok) in E as <-.
    unfold LooksLikeHash. rewrite (app_assoc passwordPrefix dollar), HasPrefix_app. done. }
  unfold Matches. rewrite HL. split; [done|]. split; [|by intros; apply VerifyPassword_hash].
  rewrite (VerifyPassword_hash password salt iterations) by done. by apply bool_decide_eq_true_2.
Qed.

(** The verifiers worth storing: a known mechanism, an iteration count in range,
    a salt, and keys of the hash's size. *)
Definition wf_verifier (v : Verifier) : Prop :=
  known_mechanism (v_Mechanism v) /\ 1 <= v_Iterations v <= MaxIterations /\ v_Salt v <> [] /\
  zlen (v_StoredKey v) = m_KeySize (v_Mechanism v) /\ zlen (v_ServerKey v) = m_KeySize (v_Mechanism v).

Lemma DeriveVerifier_wf m password salt iterations v :
  known_mechanism m -> salt <> [] -> DeriveVerifier m password salt iterations = Ok v ->
  wf_verifier v /\ v_Mechanism v = m /\ v_Salt v = salt.
Proof.
  intros Hm Hs. unfold DeriveVerifier.
  set (it := if iterations <=? 0 then DefaultSCRAMIterations else iterations).
  assert (1 <= it) by (subst it; destruct (Z.leb_spec iterations 0); [done|lia]).
  destruct (Z.ltb_spec MaxIterations it); [done|].
  destruct (pbkdf2_Key _ _ _ _ _) as [salted| |]; [|done|done]. cbn [obind]. intros <-%(inj Ok).
  unfold wf_verifier. cbn [v_Mechanism v_Iterations v_Salt v_StoredKey v_ServerKey]. rewrite zlen_Sum, zlen_hmacSum by done. auto with lia.
Qed.

Lemma DeriveVerifier_total m password salt iterations :
  known_mechanism m -> iterations <= MaxIterations -> is_Some (match DeriveVerifier m password salt iterations with
    | Ok v => Some v | _ => None end).
Proof.
  intros Hm Hi. unfold DeriveVerifier. rewrite (proj2 (Z.ltb_ge _ _)).
  - unfold pbkdf2_Key. destruct Hm as [-> | ->]; cbn [SHA256 SHA512 m_KeySize Z.leb Z.compare obind]; by eexists.
  - destruct (Z.leb_spec iterations 0); [done|lia].
Qed.

(** The text of a verifier, last character apart, for trimming. *)
Lemma Verifier_String_ends v :
  wf_verifier v -> exists mid c, Verifier_String v = x73 :: mid ++ [c] /\ printing c.
Proof.
  intros (Hm & _ & _ & _ & Hk). unfold Verifier_String.
  pose proof (b64_encode_chars (v_ServerKey v)) as Hf.
  destruct (exists_last (l := b64_encode (v_ServerKey v))) as (mid & c & E).
  { apply b64_encode_nonempty. intros E. rewrite E, zlen_nil in Hk. apply KeySize_pos in Hm. lia. }
  rewrite E in Hf |- *. apply Forall_app in Hf as [_ [[Hc _] _]%Forall_cons].
  set (name := if _ : bool then _ else _).
  exists (tl scramPrefix ++ name ++ dollar ++ itoa (v_Iterations v) ++ dollar ++ b64_encode (v_Salt v)
    ++ dollar ++ b64_encode (v_StoredKey v) ++ dollar ++ mid), c. split.
  - rewrite <- !app_assoc. reflexivity.
  - unfold printing. lia.
Qed.

Lemma ParseVerifier_String v : wf_verifier v -> ParseVerifier (Verifier_String v) = Ok v.
Proof.
  intros Hv. destruct (Verifier_String_ends v Hv) as (mid & c & E & Hc).
  unfold ParseVerifier. rewrite (TrimSpace_printing _ x73 c mid) by done. clear E Hc mid c.
  destruct v as [m it salt stored server]. destruct Hv as (Hm & Hi & Hs & H1 & H2).
  cbn [v_Mechanism v_Iterations v_Salt v_StoredKey v_ServerKey] in *. unfold MaxIterations in *.
  unfold Verifier_String. cbn [v_Mechanism v_Iterations v_Salt v_StoredKey v_ServerKey].
  assert (exists name, (if m_KeySize m =? 64 then str "sha-512" else str "sha-256") = name /\
    Forall (fun b => b <> x24) (scramPrefix ++ name) /\
    MechanismByName (str "SCRAM-" ++ ToUpper (Replace1 (scramPrefix ++ name) scramPrefix [])) = Some m)
    as (name & -> & Hname & Hby).
  { eexists. split; [done|]. destruct Hm as [-> | ->]; (split; [apply (bool_decide_unpack _); vm_compute; exact I|vm_compute; reflexivity]). }
  rewrite app_assoc. split_fields.
  rewrite HasPrefix_app, Hby, Atoi_itoa by lia. cbn [negb].
  rewrite (proj2 (Z.ltb_ge _ _)), (proj2 (Z.ltb_ge _ _)) by (unfold MaxIterations; lia). cbn [orb].
  rewrite !b64_decode_encode, H1, H2, !Z.eqb_refl. cbn [negb].
  destruct salt as [|b salt]; [done|]. rewrite zlen_cons.
  rewrite (proj2 (Z.eqb_neq _ _)) by (pose proof (zlen_nonneg salt); lia). done.
Qed.

(** The verifier derived for a password, written as text for the configuration
    file and read back, is that verifier; the derivation succeeds for every
    iteration count up to the maximum. *)
Theorem verifier_roundtrip m password salt iterations :
  known_mechanism m -> salt <> [] -> iterations <= MaxIterations ->
  exists v, DeriveVerifier m password salt iterations = Ok v /\ ParseVerifier (Verifier_String v) = Ok v.
Proof.
  intros Hm Hs Hi. pose proof (DeriveVerifier_total m password salt iterations Hm Hi) as [v E].
  destruct (DeriveVerifier m password salt iterations) as [v'| |] eqn:Ed; [|done|done].
  exists v'. split; [done|]. apply ParseVerifier_String. by eapply DeriveVerifier_wf.
Qed.

Lemma password_hash_verifies_witness :
  exists stored, HashPasswordWith (str "secret") [x01] 2 = Ok stored /\ Matches stored (str "secret") = true.
Proof.
  destruct (password_hash_verifies (str "secret") [x01] 2) as (s & H1 & _ & H2 & _);
    [done|vm_compute; split; discriminate|]. by exists s.
Defined.

Lemma verifier_roundtrip_witness :
  exists v, DeriveVerifier SHA512 (str "secret") [x01] 2 = Ok v /\ ParseVerifier (Verifier_String v) = Ok v.
Proof. apply (verifier_roundtrip SHA512 (str "secret") [x01] 2); [by right|done|vm_compute; discriminate]. Defined.

(** A password kept in clear that looks like a verifier never matches, not even
    itself. *)
Lemma scram_like_password_never_matches p :
  Matches (scramPrefix ++ p) (scramPrefix ++ p) = false.
Proof.
  unfold Matches, LooksLikeHash. rewrite HasPrefix_app, orb_true_r. unfold VerifyPassword, Split.
  assert (exists p0 r, split_from x24 [] (scramPrefix ++ p) = (scramPrefix ++ p0) :: r) as (p0 & r & ->).
  { change (split_from x24 [] (scramPrefix ++ p)) with (split_from x24 (scramPrefix ++ []) p).
    generalize (@nil byte) as q. induction p as [|b p IH]; intros q; cbn [split_from]; [by eexists _, _|].
    case_bool_decide; [by eexists _, _|]. rewrite <- app_assoc. apply IH. }
  destruct r as [|p1 [|p2 [|p3 [|]]]]; try done.
Qed.
