(* ===== verification/Scram.v ===== *)
(** * The server's half of SCRAM (internal/server/scram.go)

    A session is made from the client's first message and the verifier of the
    user it names; [finish] checks the proof in the client's final message. The
    client of RFC 5802 is written out below to state that the two understand
    each other. *)

From stdpp Require Import prelude list strings.
From Stdlib Require Import ZArith Lia.
From S2P Require Import Prelude Wire GoStrings GoCrypto Credential.

Definition comma : gostring := [x2c].

Record scramSession := mkSession {
  ss_mech : Mechanism;
  ss_verifier : Verifier;
  ss_clientFirst : gostring;
  ss_clientNonce : gostring;
  ss_serverNonce : gostring;
  ss_authMessage : gostring;
  ss_finished : bool }.

(** The random bytes as text: the URL alphabet, without padding. *)
Definition b64_rawurl (bs : list byte) : gostring :=
  map (fun b => if bool_decide (b = x2b) then x2d else if bool_decide (b = x2f) then x5f else b)
    (List.filter (fun b => negb (bool_decide (b = x3d))) (b64_encode bs)).

Definition randomNonce (rand : outcome (list byte)) : outcome gostring :=
  let? b := rand in Ok (b64_rawurl b).

Definition scramBare (clientFirst : gostring) : gostring :=
  match Index clientFirst (str ",,") with
  | Some idx => drop (idx + 2) clientFirst
  | None =>
      match Index clientFirst (str ",a=") with
      | Some idx =>
          match Index (drop (idx + 3) clientFirst) comma with
          | Some next => drop (idx + 3 + next + 1) clientFirst
          | None => clientFirst
          end
      | None => clientFirst
      end
  end.

(** The value of the first part with the given prefix. *)
Fixpoint first_attr (p : gostring) (parts : list gostring) : option gostring :=
  match parts with
  | [] => None
  | part :: rest => if HasPrefix part p then Some (TrimPrefix part p) else first_attr p rest
  end.

Definition scramNonce (clientFirst : gostring) : gostring :=
  default [] (first_attr (str "r=") (Split (scramBare clientFirst) x2c)).

Fixpoint unescape (s : gostring) : gostring :=
  match s with
  | [] => []
  | c :: r =>
      if bool_decide (c = x3d) then
        match r with
        | x32 :: x43 :: t => x2c :: unescape t
        | x33 :: x44 :: t => x3d :: unescape t
        | _ => c :: unescape r
        end
      else c :: unescape r
  end.

Definition unescapeSCRAMName (name : gostring) : gostring :=
  if negb (Contains name (str "=")) then name else unescape name.

Definition newScramSession (rand : outcome (list byte)) (m : Mechanism) (v : Verifier) (clientFirst : gostring)
  : outcome (scramSession * gostring) :=
  let clientNonce := scramNonce clientFirst in
  if bool_decide (clientNonce = []) then Err "missing client nonce" else
  let? serverNonce := randomNonce rand in
  let serverFirst := str "r=" ++ (clientNonce ++ serverNonce) ++ str ",s=" ++ b64_encode (v_Salt v)
                     ++ str ",i=" ++ itoa (v_Iterations v) in
  let authMessage := scramBare clientFirst ++ comma ++ serverFirst ++ comma in
  Ok (mkSession m v clientFirst clientNonce serverNonce authMessage false, serverFirst).

(** The proof and the nonce of the final message: the last of each. *)
Definition final_part (acc : gostring * gostring) (p : gostring) : gostring * gostring :=
  if HasPrefix p (str "p=") then (TrimPrefix p (str "p="), acc.2)
  else if HasPrefix p (str "r=") then (acc.1, TrimPrefix p (str "r="))
  else acc.

Definition finish (s : scramSession) (clientFinal : gostring) : outcome (scramSession * list byte) :=
  let parts := Split clientFinal x2c in
  if (length parts <? 3)%nat then Err "malformed client-final-message" else
  let '(proofB64, fullNonce) := fold_left final_part parts ([], []) in
  if bool_decide (proofB64 = []) then Err "missing client proof" else
  if negb (bool_decide (fullNonce = ss_clientNonce s ++ ss_serverNonce s)) then Err "nonce mismatch" else
  match LastIndex clientFinal (str ",p=") with
  | None => Err "malformed client-final-message"
  | Some idx =>
      let authMessage := ss_authMessage s ++ take idx clientFinal in
      let clientSignature := Signature (ss_verifier s) (v_StoredKey (ss_verifier s)) authMessage in
      match b64_decode proofB64 with
      | Ok clientProof =>
          if negb (zlen clientProof =? m_KeySize (ss_mech s)) then Err "proof size mismatch" else
          if zlen clientSignature <? zlen clientProof then Panic else
          let clientKey := xor_bytes clientProof clientSignature in
          if negb (bool_decide (Sum (m_NewHash (ss_mech s)) clientKey = v_StoredKey (ss_verifier s)))
          then Err "authentication failed" else
          let serverSignature := Signature (ss_verifier s) (v_ServerKey (ss_verifier s)) authMessage in
          Ok (mkSession (ss_mech s) (ss_verifier s) (ss_clientFirst s) (ss_clientNonce s) (ss_serverNonce s)
                (ss_authMessage s) true,
              str "v=" ++ b64_encode serverSignature)
      | _ => Err "bad proof encoding"
      end
  end.

(** server.go, [scramUsername]. *)
Definition scramUsername (clientFirst : gostring) : gostring :=
  let rest :=
    match Index clientFirst (str ",,") with
    | Some idx => drop (idx + 2) clientFirst
    | None =>
        match Index clientFirst (str ",a=") with
        | Some idx =>
            match Index (drop (idx + 3) clientFirst) comma with
            | Some next => drop (idx + 3 + next + 1) clientFirst
            | None => clientFirst
            end
        | None => clientFirst
        end
    end in
  match first_attr (str "n=") (Split rest x2c) with
  | Some name => unescapeSCRAMName name
  | None => []
  end.

(** ** The client of RFC 5802 *)

Definition escape_byte (b : byte) : gostring :=
  if bool_decide (b = x2c) then str "=2C" else if bool_decide (b = x3d) then str "=3D" else [b].

Definition escape (s : gostring) : gostring := mjoin (map escape_byte s).

Definition client_bare (user nonce : gostring) : gostring :=
  str "n=" ++ escape user ++ str ",r=" ++ nonce.

Definition client_first (user nonce : gostring) : gostring := str "n,," ++ client_bare user nonce.

(** What the client reads in the server's first message: nonce, salt and
    iteration count. *)
Definition client_parse (serverFirst : gostring) : option (gostring * list byte * Z) :=
  match Split serverFirst x2c with
  | [r; s; i] =>
      match b64_decode (TrimPrefix s (str "s=")), Atoi (TrimPrefix i (str "i=")) with
      | Ok salt, Ok iterations => Some (TrimPrefix r (str "r="), salt, iterations)
      | _, _ => None
      end
  | _ => None
  end.

Definition client_auth (user nonce serverFirst fullNonce : gostring) : gostring :=
  client_bare user nonce ++ comma ++ serverFirst ++ comma ++ str "c=biws,r=" ++ fullNonce.

(** Its final message, and the answer it expects of a server that knows the
    verifier. *)
Definition client_final (m : Mechanism) (user password nonce serverFirst : gostring)
  : option (gostring * gostring) :=
  match client_parse serverFirst with
  | Some (fullNonce, salt, iterations) =>
      match pbkdf2_Key (m_NewHash m) password salt iterations (m_KeySize m) with
      | Ok salted =>
          let clientKey := hmacSum m salted (str "Client Key") in
          let storedKey := Sum (m_NewHash m) clientKey in
          let auth := client_auth user nonce serverFirst fullNonce in
          let proof := xor_bytes clientKey (hmacSum m storedKey auth) in
          Some (str "c=biws,r=" ++ fullNonce ++ str ",p=" ++ b64_encode proof,
                str "v=" ++ b64_encode (hmacSum m (hmacSum m salted (str "Server Key")) auth))
      | _ => None
      end
  | None => None
  end.

(** ** Names *)

Definition without (c : byte) (s : gostring) : Prop := Forall (fun b => b <> c) s.

Lemma Contains_byte s c : Contains s [c] = bool_decide (c ∈ s).
Proof.
  unfold Contains. apply bool_decide_ext. induction s as [|b s IH]; cbn.
  - split; [by intros [? ?]|by intros ?%not_elem_of_nil].
  - unfold HasPrefix. cbn. rewrite take_0. case_bool_decide as Hc.
    + injection Hc as ->. split; [by left|by eexists].
    + rewrite fmap_is_Some, IH, elem_of_cons. split; [by right|]. intros [->|]; [done|done].
Qed.

Lemma unescape_plain s : x3d ∉ s -> unescape s = s.
Proof.
  induction s as [|b s IH]; [done|]. intros [Hb Hs]%not_elem_of_cons. cbn.
  rewrite bool_decide_eq_false_2 by congruence. by rewrite IH.
Qed.

Lemma unescapeSCRAMName_unescape s : unescapeSCRAMName s = unescape s.
Proof.
  unfold unescapeSCRAMName. change (str "=") with [x3d]. rewrite Contains_byte.
  case_bool_decide; cbn; [done|]. by rewrite unescape_plain.
Qed.

Lemma escape_cons b s : escape (b :: s) = escape_byte b ++ escape s.
Proof. unfold escape. cbn [map]. by rewrite mjoin_cons. Qed.

Lemma unescape_escape s : unescape (escape s) = s.
Proof.
  induction s as [|b s IH]; [done|]. rewrite escape_cons. unfold escape_byte.
  case_bool_decide as H1; [subst; cbn; by rewrite IH|].
  case_bool_decide as H2; [subst; cbn; by rewrite IH|].
  cbn. rewrite bool_decide_eq_false_2 by done. by rewrite IH.
Qed.

Lemma escape_without s : without x2c (escape s).
Proof.
  induction s as [|b s IH]; [constructor|]. rewrite escape_cons. apply Forall_app. split; [|done].
  unfold escape_byte. repeat case_bool_decide; repeat constructor; try done.
Qed.

Lemma rawurl_without bs : without x2c (b64_rawurl bs).
Proof.
  unfold b64_rawurl, without. apply Forall_map, List.Forall_forall. intros b Hb%filter_In. destruct Hb as [Hb _].
  pose proof (b64_encode_without x2c bs (or_intror eq_refl)) as Hf. rewrite List.Forall_forall in Hf.
  specialize (Hf b Hb). cbn. repeat case_bool_decide; done.
Qed.

(** ** The two halves agree *)

Lemma split_from_comma cur a r :
  without x2c a -> split_from x2c cur (a ++ comma ++ r) = (cur ++ a) :: split_from x2c [] r.
Proof. apply split_from_app. Qed.

Lemma scramBare_client user nonce : scramBare (client_first user nonce) = client_bare user nonce.
Proof. reflexivity. Qed.

Lemma Split_client_bare user nonce :
  without x2c nonce -> Split (client_bare user nonce) x2c = [str "n=" ++ escape user; str "r=" ++ nonce].
Proof.
  intros Hn. unfold Split, client_bare. change (str ",r=") with (comma ++ str "r=").
  rewrite <- !app_assoc, (app_assoc (str "n=")). rewrite split_from_comma.
  - rewrite split_from_plain; [done|]. apply Forall_app. split; [|done]. repeat constructor; done.
  - apply Forall_app. split; [repeat constructor; done|apply escape_without].
Qed.

Lemma scramNonce_client user nonce : without x2c nonce -> scramNonce (client_first user nonce) = nonce.
Proof. intros Hn. unfold scramNonce. rewrite scramBare_client, Split_client_bare by done. reflexivity. Qed.

Lemma scramUsername_client user nonce : without x2c nonce -> scramUsername (client_first user nonce) = user.
Proof.
  intros Hn. unfold scramUsername.
  change (match Index (client_first user nonce) (str ",,") with Some idx => _ | None => _ end)
    with (client_bare user nonce).
  rewrite Split_client_bare by done. cbn [first_attr]. rewrite HasPrefix_app, TrimPrefix_app.
  rewrite unescapeSCRAMName_unescape. apply unescape_escape.
Qed.

Definition server_first (full : gostring) (salt : list byte) (iterations : Z) : gostring :=
  str "r=" ++ full ++ str ",s=" ++ b64_encode salt ++ str ",i=" ++ itoa iterations.

Lemma newScramSession_client rand bytes m v user nonce :
  without x2c nonce -> nonce <> [] -> rand = Ok bytes ->
  newScramSession rand m v (client_first user nonce)
  = let first := server_first (nonce ++ b64_rawurl bytes) (v_Salt v) (v_Iterations v) in
    Ok (mkSession m v (client_first user nonce) nonce (b64_rawurl bytes)
          (client_bare user nonce ++ comma ++ first ++ comma) false, first).
Proof.
  intros Hn Hne ->. unfold newScramSession. rewrite scramNonce_client by done.
  rewrite bool_decide_eq_false_2 by done. reflexivity.
Qed.

Lemma client_parse_first full salt iterations :
  without x2c full -> 0 <= iterations < 9223372036854775808 ->
  client_parse (server_first full salt iterations) = Some (full, salt, iterations).
Proof.
  intros Hf Hi. unfold client_parse, server_first, Split.
  change (str ",s=") with (comma ++ str "s="). change (str ",i=") with (comma ++ str "i=").
  rewrite <- !app_assoc, (app_assoc (str "r=")), (app_assoc (str "s=")).
  rewrite !split_from_comma, split_from_plain.
  - cbn [app]. rewrite !TrimPrefix_app, b64_decode_encode, Atoi_itoa by done. done.
  - apply Forall_app. split; [repeat constructor; done|]. apply itoa_without; [lia|done].
  - apply Forall_app. split; [repeat constructor; done|]. apply b64_encode_without. by right.
  - apply Forall_app. split; [repeat constructor; done|done].
Qed.

Lemma LastIndex_without c p s : without c s -> LastIndex s (c :: p) = None.
Proof.
  intros Hs. induction Hs as [|b s Hb _ IH]; [done|]. cbn [LastIndex]. rewrite IH.
  unfold HasPrefix. cbn. rewrite bool_decide_eq_false_2; [done|]. congruence.
Qed.

Lemma LastIndex_app a s p :
  LastIndex s p = Some 0%nat -> LastIndex (a ++ s) p = Some (length a).
Proof. intros H. induction a as [|b a IH]; [done|]. cbn. by rewrite IH. Qed.

Lemma Split_final full proof :
  without x2c full ->
  Split (str "c=biws,r=" ++ full ++ str ",p=" ++ b64_encode proof) x2c
  = [str "c=biws"; str "r=" ++ full; str "p=" ++ b64_encode proof].
Proof.
  intros Hf. unfold Split. change (str "c=biws,r=") with (str "c=biws" ++ comma ++ str "r=").
  change (str ",p=") with (comma ++ str "p="). rewrite <- !app_assoc.
  rewrite (app_assoc (str "r=")). rewrite !split_from_comma, split_from_plain; [done|..].
  - apply Forall_app. split; [repeat constructor; done|]. apply b64_encode_without. by right.
  - apply Forall_app. split; [repeat constructor; done|done].
  - repeat constructor; done.
Qed.

Lemma LastIndex_final full proof :
  LastIndex (str "c=biws,r=" ++ full ++ str ",p=" ++ b64_encode proof) (str ",p=")
  = Some (length (str "c=biws,r=" ++ full)).
Proof.
  rewrite app_assoc. apply LastIndex_app. change (str ",p=") with ([x2c; x70; x3d] : gostring). cbn [app LastIndex].
  assert (without x2c (b64_encode proof)) as Hb by (apply b64_encode_without; by right).
  rewrite LastIndex_without by done. reflexivity.
Qed.

(** What the derivation of a verifier computes. *)
Lemma DeriveVerifier_inv m password salt iterations v :
  DeriveVerifier m password salt iterations = Ok v ->
  exists salted, pbkdf2_Key (m_NewHash m) password salt (v_Iterations v) (m_KeySize m) = Ok salted /\
    1 <= v_Iterations v <= MaxIterations /\
    v = mkVerifier m (v_Iterations v) salt (Sum (m_NewHash m) (hmacSum m salted (str "Client Key")))
          (hmacSum m salted (str "Server Key")).
Proof.
  unfold DeriveVerifier. set (it := if iterations <=? 0 then DefaultSCRAMIterations else iterations).
  assert (1 <= it) by (subst it; destruct (Z.leb_spec iterations 0); [done|lia]).
  destruct (Z.ltb_spec MaxIterations it); [done|].
  destruct (pbkdf2_Key _ _ _ _ _) as [salted| |] eqn:E; [|done|done]. cbn [obind]. intros <-%(inj Ok).
  exists salted. cbn [v_Iterations]. done.
Qed.

(** Against the verifier of its password a client's exchange succeeds. *)
Lemma finish_client m user password nonce salt iterations bytes v s first :
  known_mechanism m -> without x2c nonce -> nonce <> [] ->
  DeriveVerifier m password salt iterations = Ok v ->
  newScramSession (Ok bytes) m v (client_first user nonce) = Ok (s, first) ->
  exists msg answer, client_final m user password nonce first = Some (msg, answer) /\
    exists s', finish s msg = Ok (s', answer).
Proof.
  intros Hm Hn Hne Hv Hs. rewrite (newScramSession_client _ bytes) in Hs by done.
  apply (inj Ok), pair_equal_spec in Hs as [<- <-].
  destruct (DeriveVerifier_inv _ _ _ _ _ Hv) as (salted & Hk & Hit & ->). cbn [v_Salt v_Iterations] in *.
  set (it := v_Iterations v) in *. clearbody it.
  set (full := nonce ++ b64_rawurl bytes).
  assert (without x2c full) as Hfull by (apply Forall_app; split; [done|apply rawurl_without]).
  unfold client_final. unfold MaxIterations in Hit. rewrite client_parse_first by (try done; lia). rewrite Hk.
  eexists _, _. split; [reflexivity|].
  unfold finish. rewrite Split_final by done. cbn [length Nat.ltb Nat.leb fold_left].
  change (final_part ([], []) (str "c=biws")) with (@nil byte, @nil byte).
  assert (final_part ([], []) (str "r=" ++ full) = ([], full)) as ->.
  { unfold final_part. change (HasPrefix (str "r=" ++ full) (str "p=")) with false.
    by rewrite HasPrefix_app, TrimPrefix_app. }
  unfold final_part. rewrite HasPrefix_app, TrimPrefix_app. cbn [snd].
  set (proof := xor_bytes _ _).
  assert (zlen proof = m_KeySize m) as Hp.
  { unfold zlen, proof. rewrite length_xor_bytes. pose proof (zlen_hmacSum m salted (str "Client Key") Hm).
    pose proof (zlen_hmacSum m (Sum (m_NewHash m) (hmacSum m salted (str "Client Key")))
                  (client_auth user nonce (server_first full salt it) full) Hm).
    unfold zlen in *. lia. }
  rewrite bool_decide_eq_false_2.
  2: { apply b64_encode_nonempty. intros E. rewrite E, zlen_nil in Hp. apply KeySize_pos in Hm. lia. }
  cbn [ss_clientNonce ss_serverNonce]. rewrite bool_decide_eq_true_2 by done. cbn [negb].
  rewrite LastIndex_final, b64_decode_encode.
  cbn [ss_mech ss_verifier v_StoredKey v_ServerKey ss_authMessage ss_clientFirst].
  rewrite Hp, Z.eqb_refl. cbn [negb].
  rewrite (app_assoc (str "c=biws,r=")), take_app_length.
  assert ((client_bare user nonce ++ comma ++ server_first full salt it ++ comma) ++ str "c=biws,r=" ++ full
          = client_auth user nonce (server_first full salt it) full) as ->.
  { unfold client_auth. by rewrite <- !app_assoc. }
  unfold Signature. cbn [v_Mechanism]. rewrite zlen_hmacSum, Z.ltb_irrefl by done.
  unfold proof. rewrite xor_bytes_twice.
  2: { apply Nat2Z.inj. fold (zlen (hmacSum m salted (str "Client Key"))).
       rewrite zlen_hmacSum by done. fold (zlen (hmacSum m (Sum (m_NewHash m) (hmacSum m salted (str "Client Key"))) (client_auth user nonce (server_first full salt it) full))).
       by rewrite zlen_hmacSum. }
  rewrite bool_decide_eq_true_2 by done. cbn [negb]. by eexists.
Qed.

(** What a final message proves: it repeats the nonce of this session, and its
    proof, undone with the signature under the stored key, hashes to the stored
    key. *)
Definition scram_proof (s : scramSession) (msg : gostring) : Prop :=
  let '(p64, nonce) := fold_left final_part (Split msg x2c) ([], []) in
  exists idx proof, LastIndex msg (str ",p=") = Some idx /\ b64_decode p64 = Ok proof /\
    zlen proof = m_KeySize (ss_mech s) /\ nonce = ss_clientNonce s ++ ss_serverNonce s /\
    Sum (m_NewHash (ss_mech s))
      (xor_bytes proof (Signature (ss_verifier s) (v_StoredKey (ss_verifier s)) (ss_authMessage s ++ take idx msg)))
    = v_StoredKey (ss_verifier s).

Lemma finish_sound s msg s' out : finish s msg = Ok (s', out) -> scram_proof s msg.
Proof.
  unfold finish, scram_proof. destruct (_ <? _)%nat; [done|].
  destruct (fold_left final_part (Split msg x2c) ([], [])) as [p64 full].
  case_bool_decide; [done|]. case_bool_decide as Hn; [|done]. cbn [negb].
  destruct (LastIndex msg (str ",p=")) as [idx|]; [|done].
  destruct (b64_decode p64) as [proof| |]; [|done|done].
  destruct (Z.eqb_spec (zlen proof) (m_KeySize (ss_mech s))) as [Hl|]; [|done]. cbn [negb].
  destruct (_ <? _); [done|]. case_bool_decide as Hk; [|done]. intros _. by exists idx, proof.
Qed.

(** [finish] panics for no message when the verifier is of the session's
    mechanism. *)
Lemma finish_no_panic s msg :
  known_mechanism (ss_mech s) -> v_Mechanism (ss_verifier s) = ss_mech s -> finish s msg <> Panic.
Proof.
  intros Hm Hv. unfold finish. destruct (_ <? _)%nat; [done|]. destruct (fold_left _ _ _) as [p64 full].
  case_bool_decide; [done|]. case_bool_decide; [|done]. cbn [negb].
  destruct (LastIndex msg (str ",p=")) as [idx|]; [|done].
  destruct (b64_decode p64) as [proof| |]; [|done|done].
  destruct (Z.eqb_spec (zlen proof) (m_KeySize (ss_mech s))) as [Hl|]; [|done]. cbn [negb].
  unfold Signature. rewrite zlen_hmacSum by (by rewrite Hv). rewrite Hv, Hl, Z.ltb_irrefl.
  by case_bool_decide.
Qed.
