(* ===== verification/Ratelimit.v ===== *)
(** * Back-off after failed attempts (internal/ratelimit/ratelimit.go)

    The [Limiter] counts failures per key (an address) and holds a key off for a
    time that doubles with each failure after the free ones. Times are
    nanoseconds since Go's zero time; the clock a call reads is an argument. *)

From stdpp Require Import prelude gmap list strings.
From Stdlib Require Import ZArith Lia.
From S2P Require Import Prelude Wire GoStrings.

Module RateLimit.
Definition second : Z := 1000000000.
Definition minute : Z := 60 * second.

Record entry := mkEntry { e_failures : Z; e_next : Z; e_seen : Z }.

Record Limiter := mkLimiter {
  l_entries : gmap gostring entry;
  l_freeAttempts : Z;
  l_base : Z;
  l_max : Z;
  l_ttl : Z }.

Definition New (freeAttempts base max : Z) : Limiter :=
  mkLimiter ∅ (if freeAttempts <? 0 then 3 else freeAttempts) (if base <=? 0 then second else base)
    (if max <=? 0 then 30 * second else max) (15 * minute).

Definition set_entries (l : Limiter) (es : gmap gostring entry) : Limiter :=
  mkLimiter es (l_freeAttempts l) (l_base l) (l_max l) (l_ttl l).

(** An entry worth keeping: recently seen, or in back-off. *)
Definition stale (l : Limiter) (now : Z) (e : entry) : bool :=
  (e_seen e <? now - l_ttl l) && (e_next e <? now).

Definition pruneLocked (l : Limiter) (now : Z) : Limiter :=
  if (size (l_entries l) <? 1024)%nat then l
  else set_entries l (filter (fun p => stale l now p.2 = false) (l_entries l)).

Definition Allow (l : Limiter) (now : Z) (key : gostring) : Limiter * (bool * Z) :=
  if bool_decide (key = []) then (l, (true, 0)) else
  let l := pruneLocked l now in
  match l_entries l !! key with
  | None => (l, (true, 0))
  | Some e => if e_next e <? now then (l, (true, 0)) else (l, (false, e_next e - now))
  end.

(** The loop of [Fail]: [n] doublings at most. *)
Fixpoint double (n : nat) (max delay : Z) : Z :=
  match n with
  | O => delay
  | S n => let delay := i64 (delay * 2) in if max <=? delay then max else double n max delay
  end.

Definition Fail (l : Limiter) (now : Z) (key : gostring) : Limiter * Z :=
  if bool_decide (key = []) then (l, 0) else
  let l := pruneLocked l now in
  let e := default (mkEntry 0 0 0) (l_entries l !! key) in
  let failures := i64 (e_failures e + 1) in
  if failures <=? l_freeAttempts l
  then (set_entries l (<[key := mkEntry failures (e_next e) now]> (l_entries l)), 0)
  else
    let delay := double (Z.to_nat (failures - (l_freeAttempts l + 1))) (l_max l) (l_base l) in
    let delay := if l_max l <? delay then l_max l else delay in
    (set_entries l (<[key := mkEntry failures (now + delay) now]> (l_entries l)), delay).

Definition Succeed (l : Limiter) (key : gostring) : Limiter :=
  if bool_decide (key = []) then l else set_entries l (delete key (l_entries l)).

Definition Failures (l : Limiter) (key : gostring) : Z :=
  match l_entries l !! key with Some e => e_failures e | None => 0 end.

(** ** Correctness *)

(** The delay after the [n]-th failure past the free ones. *)
Definition backoff (base max n : Z) : Z := Z.min max (base * 2 ^ (n - 1)).

(** Settings with which the doubling stays within 64 bits. *)
Definition sane (l : Limiter) : Prop :=
  0 <= l_freeAttempts l < 2 ^ 62 /\ 0 < l_base l < 2 ^ 62 /\ 0 < l_max l <= 2 ^ 62.

Lemma double_min n base max :
  0 < base < 2 ^ 62 -> 0 < max <= 2 ^ 62 ->
  Z.min max (double n max base) = Z.min max (base * 2 ^ Z.of_nat n).
Proof.
  intros Hb Hm. revert base Hb. induction n as [|n IH]; intros base Hb; [cbn; lia|]. cbn [double].
  assert (2 ^ Z.of_nat (S n) = 2 * 2 ^ Z.of_nat n) as -> by (rewrite Nat2Z.inj_succ, Z.pow_succ_r; lia).
  assert (0 < 2 ^ Z.of_nat n) by (apply Z.pow_pos_nonneg; lia).
  rewrite i64_id by (unfold in_i64; lia). destruct (Z.leb_spec max (base * 2)); [nia|].
  rewrite IH by lia. f_equal. lia.
Qed.

Lemma backoff_mono base max n m : 0 < base -> 1 <= n <= m -> backoff base max n <= backoff base max m.
Proof.
  intros Hb Hn. unfold backoff.
  pose proof (Z.pow_le_mono_r 2 (n - 1) (m - 1) ltac:(lia) ltac:(lia)). nia.
Qed.

Lemma backoff_pos base max n : 0 < base -> 0 < max -> 1 <= n -> 0 < backoff base max n <= max.
Proof.
  intros Hb Hm Hn. unfold backoff. pose proof (Z.pow_pos_nonneg 2 (n - 1) ltac:(lia) ltac:(lia)). nia.
Qed.

(** The settings never change. *)
Definition same_settings (l l' : Limiter) : Prop :=
  l_freeAttempts l = l_freeAttempts l' /\ l_base l = l_base l' /\ l_max l = l_max l' /\ l_ttl l = l_ttl l'.

Lemma prune_settings l now : same_settings (pruneLocked l now) l.
Proof. unfold pruneLocked. by destruct (_ <? _)%nat. Qed.

Lemma prune_lookup l now key e :
  l_entries (pruneLocked l now) !! key = Some e -> l_entries l !! key = Some e.
Proof.
  unfold pruneLocked. destruct (_ <? _)%nat; [done|]. cbn. intros H%map_lookup_filter_Some. by destruct H.
Qed.

Lemma prune_keeps l now key e :
  l_entries l !! key = Some e -> stale l now e = false -> l_entries (pruneLocked l now) !! key = Some e.
Proof.
  intros He Hs. unfold pruneLocked. destruct (_ <? _)%nat; [done|]. cbn. by apply map_lookup_filter_Some.
Qed.

(** What [Fail] does, the doubling replaced by its closed form. *)
Lemma Fail_spec l now key :
  sane l -> key <> [] ->
  let e := default (mkEntry 0 0 0) (l_entries (pruneLocked l now) !! key) in
  0 <= e_failures e < 2 ^ 62 ->
  let f := e_failures e + 1 in
  let d := if f <=? l_freeAttempts l then 0 else backoff (l_base l) (l_max l) (f - l_freeAttempts l) in
  Fail l now key
  = (set_entries (pruneLocked l now)
       (<[key := mkEntry f (if f <=? l_freeAttempts l then e_next e else now + d) now]>
          (l_entries (pruneLocked l now))), d).
Proof.
  intros (Hfr & Hb & Hm) Hk e He f d. unfold Fail. rewrite bool_decide_eq_false_2 by done. fold e.
  destruct (prune_settings l now) as (E1 & E2 & E3 & _). rewrite E1, E2, E3.
  rewrite (i64_id (e_failures e + 1)) by (unfold in_i64; lia). fold f. subst d.
  destruct (Z.leb_spec f (l_freeAttempts l)); [done|].
  assert (forall x, (if l_max l <? x then l_max l else x) = Z.min (l_max l) x) as Hmin
    by (intros x; destruct (Z.ltb_spec (l_max l) x); lia).
  rewrite Hmin, double_min by done.
  assert (Z.of_nat (Z.to_nat (f - (l_freeAttempts l + 1))) = f - l_freeAttempts l - 1) as -> by lia.
  done.
Qed.

(** *** Runs *)

Inductive call :=
  | CAllow (now : Z) (key : gostring)
  | CFail (now : Z) (key : gostring)
  | CSucceed (now : Z) (key : gostring).

Definition call_time (c : call) : Z :=
  match c with CAllow t _ => t | CFail t _ => t | CSucceed t _ => t end.

Definition apply_call (l : Limiter) (c : call) : Limiter :=
  match c with
  | CAllow now key => (Allow l now key).1
  | CFail now key => (Fail l now key).1
  | CSucceed _ key => Succeed l key
  end.

Definition run (l : Limiter) (cs : list call) : Limiter := fold_left apply_call cs l.

Lemma Allow_state l now key : (Allow l now key).1 = l \/ (Allow l now key).1 = pruneLocked l now.
Proof.
  unfold Allow. case_bool_decide; [by left|]. right.
  destruct (l_entries (pruneLocked l now) !! key); [|done]. by destruct (_ <? _).
Qed.

Lemma apply_call_settings l c : same_settings (apply_call l c) l.
Proof.
  destruct c as [now key|now key|now key]; cbn.
  - destruct (Allow_state l now key) as [-> | ->]; [done|apply prune_settings].
  - unfold Fail. case_bool_decide; [done|]. pose proof (prune_settings l now).
    by destruct (_ <=? _).
  - unfold Succeed. by case_bool_decide.
Qed.

Lemma sane_settings l l' : same_settings l' l -> sane l -> sane l'.
Proof. unfold same_settings, sane. intros (-> & -> & -> & _). done. Qed.

(** *** A held-off key stays held off *)

Section lockout.
Context (key : gostring) (until d free base max : Z).

(** The key's entry keeps it off until [until], and one failure more would hold
    it off for [d] at least. *)
Definition held (budget : Z) (l : Limiter) : Prop :=
  sane l /\ l_freeAttempts l = free /\ l_base l = base /\ l_max l = max /\
  exists e, l_entries l !! key = Some e /\ until <= e_next e /\ free < e_failures e /\
    e_failures e + budget < 2 ^ 62 /\ d <= backoff base max (e_failures e - free).

Lemma held_prune n l now : now <= until -> held n l -> held n (pruneLocked l now).
Proof.
  intros Hn (Hs & H1 & H2 & H3 & e & He & Hu & Hr). pose proof (prune_settings l now) as Hp.
  split; [by eapply sane_settings|]. destruct Hp as (-> & -> & -> & _).
  split_and!; try done. exists e. split; [|done]. apply prune_keeps; [done|].
  unfold stale. apply andb_false_intro2. apply Z.ltb_ge. lia.
Qed.

Lemma held_Allow n l now : now <= until -> key <> [] -> held n l ->
  exists r, (Allow l now key).2 = (false, r) /\ until <= now + r.
Proof.
  intros Hn Hk Hh. destruct (held_prune n l now Hn Hh) as (_ & _ & _ & _ & e & He & Hu & _).
  unfold Allow. rewrite bool_decide_eq_false_2 by done. rewrite He.
  rewrite (proj2 (Z.ltb_ge _ _)) by lia. eexists. split; [done|]. lia.
Qed.

Lemma held_weaken n m l : n <= m -> held m l -> held n l.
Proof.
  intros Hn (Hs & H1 & H2 & H3 & e & He & Hu & Hf & Hb & Hd). split_and!; try done. exists e.
  split_and!; try done. lia.
Qed.

Lemma held_call n l c :
  0 <= n -> call_time c <= until <= call_time c + d -> (forall t, c <> CSucceed t key) -> key <> [] ->
  held (n + 1) l -> held n (apply_call l c).
Proof.
  intros Hn Ht Hc Hk Hh. destruct c as [now k|now k|now k]; cbn in *.
  - destruct (Allow_state l now k) as [-> | ->]; apply (held_weaken n (n + 1)); try lia; [done|].
    apply held_prune; [lia|done].
  - apply (held_prune _ _ now) in Hh as Hp; [|lia].
    destruct (decide (k = key)) as [->|Hne].
    + pose proof Hh as (Hs & H1 & H2 & H3 & _).
      destruct Hp as (_ & _ & _ & _ & e & He & Hu & Hf & Hb & Hd).
      assert (0 <= free) by (destruct Hs; lia).
      rewrite (Fail_spec l now key) by (try done; rewrite He; cbn; lia). rewrite He. cbn [default].
      rewrite (proj2 (Z.leb_gt (e_failures e + 1) _)) by (rewrite H1; lia). cbn [fst].
      pose proof (prune_settings l now) as (E1 & E2 & E3 & E4).
      split; [by apply (sane_settings l); unfold same_settings; cbn; auto|].
      cbn. rewrite E1, E2, E3. split_and!; try done. rewrite lookup_insert_eq. eexists. split; [done|]. cbn.
      pose proof (backoff_mono base max (e_failures e - free) (e_failures e + 1 - free)) as Hmono.
      assert (0 < base) by (destruct Hs as (_ & ? & _); lia).
      rewrite H1, H2, H3. split_and!; [|lia|lia|]; specialize (Hmono ltac:(lia) ltac:(lia)); lia.
    + unfold Fail. case_bool_decide; [by apply (held_weaken n (n + 1)); [lia|]|].
      destruct Hp as (Hs & H1 & H2 & H3 & e & He & Hu & Hf & Hb & Hd).
      destruct (_ <=? _); cbn [fst]; (split_and!; try done); exists e; cbn;
        rewrite lookup_insert_ne by done; split_and!; try done; lia.
  - unfold Succeed. case_bool_decide; [by apply (held_weaken n (n + 1)); [lia|]|].
    destruct Hh as (Hs & H1 & H2 & H3 & e & He & Hu & Hf & Hb & Hd).
    assert (k <> key) by (intros ->; by apply (Hc now)).
    split_and!; try done. exists e. cbn. rewrite lookup_delete_ne by done. split_and!; try done. lia.
Qed.
End lockout.

Lemma held_run key until d free base max n cs l :
  key <> [] -> 0 <= n ->
  Forall (fun c => call_time c <= until <= call_time c + d /\ forall t, c <> CSucceed t key) cs ->
  held key until d free base max (n + zlen cs) l -> held key until d free base max n (run l cs).
Proof.
  intros Hk Hn Hcs. revert l. unfold run. induction Hcs as [|c cs [Ht Hc] _ IH]; intros l Hh; cbn.
  { by rewrite zlen_nil, Z.add_0_r in Hh. }
  apply IH. rewrite zlen_cons in Hh. pose proof (zlen_nonneg cs).
  apply held_call; try done; [lia|]. by replace (n + zlen cs + 1) with (n + (1 + zlen cs)) by lia.
Qed.

(** A key held off for [d] after a failure is refused until the [d] have
    passed, whatever happens at the limiter in between (requests and failures of
    any key, pruning included), unless its failures are forgiven; the answer
    names a time to wait that covers it. *)
Theorem backoff_holds l t key d cs t' :
  sane l -> key <> [] -> 0 <= Failures l key -> Failures l key + 1 + zlen cs < 2 ^ 62 ->
  (Fail l t key).2 = d -> 0 < d ->
  Forall (fun c => t <= call_time c <= t + d /\ forall u, c <> CSucceed u key) cs -> t <= t' <= t + d ->
  exists r, (Allow (run (Fail l t key).1 cs) t' key).2 = (false, r) /\ t + d <= t' + r.
Proof.
  intros Hs Hk Hf0 Hf1 Hd Hpos Hcs Ht.
  set (e := default (mkEntry 0 0 0) (l_entries (pruneLocked l t) !! key)).
  assert (0 <= e_failures e <= Failures l key) as He.
  { subst e. unfold Failures. destruct (l_entries (pruneLocked l t) !! key) as [e|] eqn:E; cbn; [|done].
    apply prune_lookup in E. unfold Failures in Hf0. rewrite E in *. lia. }
  pose proof (zlen_nonneg cs).
  rewrite (Fail_spec l t key) in Hd |- * by (try done; fold e; lia). fold e in Hd |- *.
  cbn [fst snd] in *. destruct (Z.leb_spec (e_failures e + 1) (l_freeAttempts l)) as [|Hgt]; [lia|].
  apply (held_Allow key (t + d) d (l_freeAttempts l) (l_base l) (l_max l) 0); [lia|done|].
  apply held_run; [done|lia|eapply Forall_impl; [done|]; cbn; intros c [? ?]; split; [lia|done]|].
  pose proof (prune_settings l t) as (E1 & E2 & E3 & E4).
  split; [by apply (sane_settings l); unfold same_settings; cbn; auto|]. cbn. rewrite E1, E2, E3.
  split_and!; try done. rewrite lookup_insert_eq. eexists. split; [done|]. cbn.
  split_and!; [lia|lia|lia|lia].
Qed.

(** *** Nobody waits longer than the maximum *)

Definition fails (key : gostring) (cs : list call) : Z :=
  zlen (List.filter (fun c => match c with CFail _ k => bool_decide (k = key) | _ => false end) cs).

(** Every entry counts at least one failure, no more than there were; within the
    free attempts it holds nothing off, and never longer than the maximum. *)
Definition bounded (l : Limiter) (now : Z) (count : gostring -> Z) : Prop :=
  map_Forall (fun key e => 1 <= e_failures e <= count key /\ e_next e <= now + l_max l /\
    (e_failures e <= l_freeAttempts l -> e_next e = 0)) (l_entries l).

Lemma bounded_prune l now t count : bounded l now count -> bounded (pruneLocked l t) now count.
Proof.
  intros Hb key e He. pose proof (prune_settings l t) as (-> & _ & -> & _).
  apply Hb. by eapply prune_lookup.
Qed.

Lemma bounded_count l now c c' : (forall k, c k <= c' k) -> bounded l now c -> bounded l now c'.
Proof. intros Hc Hb key e He. destruct (Hb key e He) as (? & ? & ?). specialize (Hc key). auto with lia. Qed.

Lemma bounded_call l now c count :
  sane l -> 0 < call_time c <= now -> (forall k, 0 <= count k < 2 ^ 62) -> bounded l now count ->
  bounded (apply_call l c) now (fun k => fails k [c] + count k).
Proof.
  intros Hs Ht Hc Hb.
  assert (forall k, count k <= fails k [c] + count k) as Hle by (intros k; unfold fails; pose proof (zlen_nonneg (List.filter (fun c => match c with CFail _ k' => bool_decide (k' = k) | _ => false end) [c])); lia).
  destruct c as [t key|t key|t key]; cbn [apply_call call_time] in *.
  - eapply bounded_count; [done|]. destruct (Allow_state l t key) as [-> | ->]; [done|by apply bounded_prune].
  - destruct (decide (key = [])) as [->|Hk]; [by eapply bounded_count|].
    apply (bounded_prune _ _ t) in Hb. pose proof (prune_settings l t) as (E1 & E2 & E3 & _).
    set (e := default (mkEntry 0 0 0) (l_entries (pruneLocked l t) !! key)).
    assert (0 <= e_failures e <= count key /\ (e_failures e <= l_freeAttempts l -> e_next e = 0) /\
            e_next e <= now + l_max l) as (He & He0 & Hen).
    { subst e. destruct (_ !! key) as [e|] eqn:E; cbn.
      - destruct (Hb key e E) as (? & ? & ?). rewrite E1, E3 in *. auto with lia.
      - specialize (Hc key). destruct Hs as (_ & _ & ?). auto with lia. }
    specialize (Hc key) as Hck.
    rewrite (Fail_spec l t key) by (try done; fold e; lia). fold e. cbn [fst].
    intros k e' He'. cbn in He' |- *. rewrite E1, E3. destruct (decide (k = key)) as [->|Hne].
    + rewrite lookup_insert_eq in He'. injection He' as <-. cbn.
      assert (fails key [CFail t key] = 1) as -> by (unfold fails; cbn; by rewrite bool_decide_eq_true_2).
      split; [lia|]. destruct (Z.leb_spec (e_failures e + 1) (l_freeAttempts l)); [split; [lia|intros; apply He0; lia]|].
      destruct Hs as (? & ? & ?).
      pose proof (backoff_pos (l_base l) (l_max l) (e_failures e + 1 - l_freeAttempts l) ltac:(lia) ltac:(lia) ltac:(lia)).
      split; lia.
    + rewrite lookup_insert_ne in He' by done. destruct (Hb k e' He') as (H1 & H2 & H3). rewrite E1, E3 in *.
      specialize (Hle k). split_and!; try done; lia.
  - eapply bounded_count; [done|]. unfold Succeed. case_bool_decide; [done|].
    intros k e He. cbn in He |- *. apply lookup_delete_Some in He as [_ He]. by apply Hb.
Qed.

Lemma fails_cons key c cs : fails key (c :: cs) = fails key [c] + fails key cs.
Proof. unfold fails. rewrite <- zlen_app. f_equal. cbn. by destruct (match c with CFail _ k => _ | _ => _ end). Qed.

Lemma fails_range key cs : 0 <= fails key cs <= zlen cs.
Proof.
  unfold fails. split; [apply zlen_nonneg|]. unfold zlen. pose proof (List.filter_length_le (fun c => match c with CFail _ k => bool_decide (k = key) | _ => false end) cs). lia.
Qed.

Lemma bounded_run cs l now count :
  sane l -> Forall (fun c => 0 < call_time c <= now) cs -> (forall k, 0 <= count k) ->
  (forall k, count k + zlen cs < 2 ^ 62) -> bounded l now count ->
  sane (run l cs) /\ same_settings (run l cs) l /\ bounded (run l cs) now (fun k => fails k cs + count k).
Proof.
  unfold run. revert l count. induction cs as [|c cs IH]; intros l count Hs Ht Hc Hz Hb.
  { split; [done|]. split; [done|]. eapply bounded_count; [|done]. intros k. pose proof (fails_range k []). lia. }
  apply Forall_cons in Ht as [Htc Ht]. pose proof (zlen_nonneg cs).
  pose proof (apply_call_settings l c) as Hset. cbn [fold_left].
  destruct (IH (apply_call l c) (fun k => fails k [c] + count k)) as (H1 & H2 & H3).
  - by eapply sane_settings.
  - done.
  - intros k. pose proof (fails_range k [c]). specialize (Hc k). lia.
  - intros k. pose proof (fails_range k [c]). specialize (Hz k). rewrite zlen_cons in Hz. change (zlen [c]) with 1 in *. lia.
  - apply bounded_call; try done. intros k. specialize (Hc k). specialize (Hz k). rewrite zlen_cons in Hz. lia.
  - split; [done|]. split.
    + unfold same_settings in *. intuition congruence.
    + eapply bounded_count; [|done]. intros k. cbn. rewrite (fails_cons k c cs). lia.
Qed.

(** After any calls, a key is never told to wait longer than the maximum, and a
    key with no more failures than the free attempts is not held off at all. *)
Theorem retry_bounded free base max cs now key :
  sane (New free base max) -> Forall (fun c => 0 < call_time c <= now) cs -> 0 < now -> zlen cs < 2 ^ 62 ->
  let l := run (New free base max) cs in
  0 <= (Allow l now key).2.2 <= l_max l /\
  (fails key cs <= l_freeAttempts l -> (Allow l now key).2 = (true, 0)).
Proof.
  intros Hs Ht Hnow Hz l.
  destruct (bounded_run cs (New free base max) now (fun _ => 0)) as (Hs' & Hset & Hb); try done.
  fold l in Hs', Hset, Hb. apply (bounded_prune _ _ now) in Hb.
  pose proof (prune_settings l now) as (E1 & _ & E3 & _).
  assert (0 < l_max l) by (destruct Hs' as (_ & _ & ?); lia).
  unfold Allow. case_bool_decide; [by split; [cbn; lia|]|].
  destruct (l_entries (pruneLocked l now) !! key) as [e|] eqn:E; [|by split; [cbn; lia|]].
  destruct (Hb key e E) as (H1 & H2 & H3). rewrite E1, E3 in *.
  destruct (Z.ltb_spec (e_next e) now); cbn; [by split; [lia|]|].
  split; [lia|]. intros Hf. rewrite H3 in * by lia. lia.
Qed.

Lemma backoff_holds_witness :
  let l := run (New 0 second (30 * second)) [CFail second (str "a")] in
  let t := 2 * second in
  exists r, (Allow (run (Fail l t (str "a")).1 [CFail (3 * second) (str "b")]) (3 * second) (str "a")).2 = (false, r)
    /\ t + 2 * second <= 3 * second + r.
Proof.
  apply (backoff_holds _ (2 * second) (str "a") (2 * second) [CFail (3 * second) (str "b")] (3 * second)).
  - vm_compute. repeat split; discriminate.
  - done.
  - vm_compute. discriminate.
  - vm_compute. reflexivity.
  - vm_compute. reflexivity.
  - vm_compute. reflexivity.
  - repeat constructor; try (vm_compute; discriminate).
  - vm_compute. split; discriminate.
Defined.

Lemma retry_bounded_witness :
  (Allow (run (New 3 second (30 * second)) [CFail 1 (str "a"); CFail 2 (str "a"); CFail 3 (str "a")]) 4 (str "a")).2
  = (true, 0).
Proof.
  apply (retry_bounded 3 second (30 * second) [CFail 1 (str "a"); CFail 2 (str "a"); CFail 3 (str "a")] 4 (str "a")).
  - vm_compute. repeat split; discriminate.
  - repeat constructor; vm_compute; discriminate.
  - lia.
  - vm_compute. reflexivity.
  - vm_compute. discriminate.
Defined.
End RateLimit.
