(* ===== verification/RecordBatch.v ===== *)
(** * Record batches (pkg/protocol/record_batch.go)

    The v2 record batch: encoder, decoder, and their round trip. *)

From stdpp Require Import prelude list strings.
From Stdlib Require Import ZArith Lia.
From S2P Require Import Prelude GoBinary Wire.

Record RecordHeader := mkHeader { hdr_Key : gostring; hdr_Value : gobytes }.

Record Record_ := mkRecord {
  rec_Attributes : Z;
  rec_TimestampDelta : Z;
  rec_OffsetDelta : Z;
  rec_Key : gobytes;
  rec_Value : gobytes;
  rec_Headers : list RecordHeader }.

Record RecordBatch := mkBatch {
  rb_BaseOffset : Z;
  rb_PartitionLeaderEpoch : Z;
  rb_Magic : Z;
  rb_CRC : Z;
  rb_Attributes : Z;
  rb_LastOffsetDelta : Z;
  rb_BaseTimestamp : Z;
  rb_MaxTimestamp : Z;
  rb_ProducerID : Z;
  rb_ProducerEpoch : Z;
  rb_BaseSequence : Z;
  rb_Records : list Record_ }.

Definition RecordMagic : Z := 2.

Definition CalculateRecordBatchCRC (bs : list byte) : Z := crc32c bs.

(** ** Encoding *)

(** A value of a record or of a header: length -1 when nil. *)
Definition append_nullable (b : gobytes) : W :=
  match b with
  | None => appendVarint (-1)
  | Some b => appendVarint (zlen b) +> append_bytes b
  end.

Definition encode_header (h : RecordHeader) : W :=
  appendVarint (zlen (hdr_Key h)) +> append_bytes (hdr_Key h) +>
  append_nullable (hdr_Value h).

(** The [body] slice of [EncodeRecord]; a nil key is written with length 0. *)
Definition record_body (rec : Record_) : W :=
  append_bytes (be 1 (u8 (rec_Attributes rec))) +>
  appendVarint (rec_TimestampDelta rec) +>
  appendVarint (rec_OffsetDelta rec) +>
  appendVarint (blen (rec_Key rec)) +>
  append_bytes (default [] (rec_Key rec)) +>
  append_nullable (rec_Value rec) +>
  appendUvarint (zlen (rec_Headers rec)) +>
  for_each (rec_Headers rec) encode_header.

Definition EncodeRecord (rec : Record_) : W :=
  let body := record_body rec [] in
  appendVarint (zlen body) +> append_bytes body.

(** [if b.LastOffsetDelta == 0 && len(b.Records) > 0]. *)
Definition filled_last_offset_delta (b : RecordBatch) : Z :=
  if (rb_LastOffsetDelta b =? 0) && (0 <? zlen (rb_Records b))
  then i32 (zlen (rb_Records b) - 1) else rb_LastOffsetDelta b.

Definition batch_length (records : list byte) : Z := i32 (49 + i32 (zlen records)).

(** The buffer before the checksum is patched in. *)
Definition batch_bytes (b : RecordBatch) (records : list byte) : list byte :=
  be 8 (u64 (rb_BaseOffset b)) ++
  be 4 (u32 (batch_length records)) ++
  be 4 (u32 (rb_PartitionLeaderEpoch b)) ++
  be 1 (u8 RecordMagic) ++
  be 4 0 ++
  be 2 (u16 (rb_Attributes b)) ++
  be 4 (u32 (filled_last_offset_delta b)) ++
  be 8 (u64 (rb_BaseTimestamp b)) ++
  be 8 (u64 (rb_MaxTimestamp b)) ++
  be 8 (u64 (rb_ProducerID b)) ++
  be 2 (u16 (rb_ProducerEpoch b)) ++
  be 4 (u32 (rb_BaseSequence b)) ++
  be 4 (u32 (zlen (rb_Records b))) ++
  records.

(** [make([]byte, 0, 12+int(length))] panics when the 32-bit length has
    wrapped to a negative capacity. *)
Definition EncodeRecordBatch (b : RecordBatch) : outcome (list byte) :=
  let records := for_each (rb_Records b) EncodeRecord [] in
  if 12 + batch_length records <? 0 then Panic else
  let out := batch_bytes b records in
  let crc := CalculateRecordBatchCRC (drop 21 out) in
  Ok (take 17 out ++ be 4 crc ++ drop 21 out).

(** ** Decoding *)

Definition read_header : M RecordHeader :=
  let! k := ReadVarintString in
  let! v := ReadBytesVarint in
  ret (mkHeader k v).

Definition read_record : M Record_ :=
  let! attributes := ReadInt8 in
  let! timestamp_delta := ReadVarint in
  let! od := ReadVarint in
  let! key := ReadBytesVarint in
  let! value := ReadBytesVarint in
  let! hc := ReadUVarint in
  let! headers := read_list (Z.to_nat hc) read_header in
  ret (mkRecord attributes timestamp_delta (i32 od) key value headers).

(** The record and the bytes it took. [n + int(length)] wraps at 64 bits. *)
Definition decodeRecord (src : list byte) : outcome (Record_ * Z) :=
  let '(length, n) := Varint src in
  if n <=? 0 then Err "invalid record length varint" else
  if (length <? 0) || (zlen src <? i64 (n + length)) then Err "invalid record length" else
  let? body := slice src n (i64 (n + length)) in
  let? rec := decode read_record body in
  Ok (rec, i64 (n + length)).

Definition DecodeRecordBytes := decodeRecord.

(** [for i := 0; i < count && off < len(raw); i++]. *)
Fixpoint decode_records (count : nat) (src : list byte) : outcome (list Record_) :=
  match count with
  | O => Ok []
  | S k =>
      if zlen src =? 0 then Ok [] else
      let? (rec, n) := decodeRecord src in
      let? recs := decode_records k (drop (Z.to_nat n) src) in
      Ok (rec :: recs)
  end.

(** The big-endian unsigned integer in [raw[lo:hi]]. *)
Definition uint_at (raw : list byte) (lo hi : Z) : Z := ube (sub raw lo hi).

Definition DecodeRecordBatch (raw : list byte) : outcome RecordBatch :=
  if zlen raw <? 61 then Err "record batch too short" else
  let magic := i8 (uint_at raw 16 17) in
  if negb (magic =? RecordMagic) then Err "unsupported record batch magic" else
  let last_offset_delta := i32 (uint_at raw 23 27) in
  let count0 := i32 (uint_at raw 57 61) in
  let count := if count0 =? 0 then i32 (last_offset_delta + 1) else count0 in
  let? recs := decode_records (Z.to_nat count) (drop 61 raw) in
  Ok (mkBatch (i64 (uint_at raw 0 8)) (i32 (uint_at raw 12 16)) magic
        (uint_at raw 17 21) (i16 (uint_at raw 21 23)) last_offset_delta
        (i64 (uint_at raw 27 35)) (i64 (uint_at raw 35 43))
        (i64 (uint_at raw 43 51)) (i16 (uint_at raw 51 53))
        (i32 (uint_at raw 53 57)) recs).

(** ** What the encoder accepts and what the decoder gives back *)

Definition wf_header (h : RecordHeader) : Prop :=
  zlen (hdr_Key h) <= 2147483647 /\ blen (hdr_Value h) <= 2147483647.

Definition wf_record (rec : Record_) : Prop :=
  in_i8 (rec_Attributes rec) /\ in_i64 (rec_TimestampDelta rec) /\
  in_i32 (rec_OffsetDelta rec) /\ blen (rec_Key rec) <= 2147483647 /\
  blen (rec_Value rec) <= 2147483647 /\ arr_ok (rec_Headers rec) /\
  Forall wf_header (rec_Headers rec).

(** A nil key comes back as an empty, non-nil one. *)
Definition norm_record (rec : Record_) : Record_ :=
  mkRecord (rec_Attributes rec) (rec_TimestampDelta rec) (rec_OffsetDelta rec)
    (Some (default [] (rec_Key rec))) (rec_Value rec) (rec_Headers rec).

Definition encoded_records (b : RecordBatch) : list byte :=
  for_each (rb_Records b) EncodeRecord [].

Definition wf_batch (b : RecordBatch) : Prop :=
  in_i64 (rb_BaseOffset b) /\ in_i32 (rb_PartitionLeaderEpoch b) /\
  in_i16 (rb_Attributes b) /\ in_i32 (rb_LastOffsetDelta b) /\
  in_i64 (rb_BaseTimestamp b) /\ in_i64 (rb_MaxTimestamp b) /\
  in_i64 (rb_ProducerID b) /\ in_i16 (rb_ProducerEpoch b) /\
  in_i32 (rb_BaseSequence b) /\ arr_ok (rb_Records b) /\
  Forall wf_record (rb_Records b) /\ zlen (encoded_records b) <= 2147483598.

Definition norm_batch (b : RecordBatch) (crc : Z) : RecordBatch :=
  mkBatch (rb_BaseOffset b) (rb_PartitionLeaderEpoch b) RecordMagic crc
    (rb_Attributes b) (filled_last_offset_delta b) (rb_BaseTimestamp b)
    (rb_MaxTimestamp b) (rb_ProducerID b) (rb_ProducerEpoch b)
    (rb_BaseSequence b) (map norm_record (rb_Records b)).

#[global] Instance wf_header_dec h : Decision (wf_header h).
Proof. unfold wf_header. apply _. Defined.
#[global] Instance wf_record_dec rec : Decision (wf_record rec).
Proof. unfold wf_record. apply _. Defined.
#[global] Instance wf_batch_dec b : Decision (wf_batch b).
Proof. unfold wf_batch. apply _. Defined.

(** ** The round trip, bottom up *)

Lemma rt_appendVarint v : in_i64 v -> rt (appendVarint v) ReadVarint v.
Proof. apply rt_varint. Qed.
Lemma rt_appendUvarint v : in_u64 v -> rt (appendUvarint v) ReadUVarint v.
Proof. apply rt_uvarint. Qed.

Lemma rt_append_nullable b :
  blen b <= 2147483647 -> rt (append_nullable b) ReadBytesVarint b.
Proof.
  intros Hb. apply rt_bytes_varint.
  assert (0 <= blen b) by (destruct b; simpl; [apply zlen_nonneg|lia]). mlia.
Qed.

(** A key is written with its length even when nil. *)
Lemma rt_append_key b :
  blen b <= 2147483647 ->
  rt (appendVarint (blen b) +> append_bytes (default [] b)) ReadBytesVarint
     (Some (default [] b)).
Proof.
  intros Hb. destruct b as [b|]; [by apply (rt_append_nullable (Some b))|].
  apply (rt_append_nullable (Some [])). simpl. rewrite (@zlen_nil byte). lia.
Qed.

(** Regroup a sequence of three writes for [rt_bind]. *)
Lemma rt_assoc {A} (f g h : W) (p : M A) v :
  rt ((f +> g) +> h) p v -> rt (f +> g +> h) p v.
Proof. by apply rt_ext. Qed.

Lemma rt_header h : wf_header h -> rt (encode_header h) read_header h.
Proof.
  intros [Hk Hv]. unfold encode_header, read_header. apply rt_assoc.
  eapply (rt_bind _ _ _ _ (hdr_Key h)).
  - eapply rt_bind_last; [by apply (rt_append_key (Some (hdr_Key h)))|]. apply rt_ret.
  - eapply rt_bind_last; [by apply rt_append_nullable|]. destruct h. apply rt_ret.
Qed.

Lemma rt_record rec :
  wf_record rec -> rt (record_body rec) read_record (norm_record rec).
Proof.
  intros (Ha & Ht & Ho & Hk & Hv & Hh & Hf). unfold record_body, read_record.
  pose proof (zlen_nonneg (rec_Headers rec)). unfold arr_ok in Hh.
  eapply rt_bind; [by apply rt_int8|].
  eapply rt_bind; [by apply rt_appendVarint|].
  eapply rt_bind; [apply (rt_appendVarint (rec_OffsetDelta rec)); mlia|].
  apply rt_assoc. eapply rt_bind; [by apply rt_append_key|].
  eapply rt_bind; [by apply rt_append_nullable|].
  eapply rt_bind; [apply (rt_appendUvarint (zlen (rec_Headers rec))); mlia|].
  unfold zlen. rewrite Nat2Z.id, i32_id by done.
  eapply rt_bind_last; [apply rt_list|apply rt_ret].
  eapply Forall_impl; [exact Hf|]. apply rt_header.
Qed.

Lemma decodeRecord_EncodeRecord rec post :
  wf_record rec -> in_i64 (zlen (EncodeRecord rec [] ++ post)) ->
  decodeRecord (EncodeRecord rec [] ++ post)
  = Ok (norm_record rec, zlen (EncodeRecord rec [])).
Proof.
  intros Hw Hl. unfold EncodeRecord, wseq, appendVarint, append_bytes in *.
  cbn [app] in *. set (body := record_body rec []) in *.
  rewrite <- app_assoc in *. rewrite !zlen_app in Hl.
  pose proof (PutVarint_len (zlen body)). pose proof (zlen_nonneg body).
  pose proof (zlen_nonneg post).
  unfold decodeRecord. rewrite Varint_PutVarint by mlia.
  rewrite (proj2 (Z.leb_gt _ _)) by lia. rewrite (proj2 (Z.ltb_ge (zlen body) 0)) by lia.
  rewrite i64_id by mlia.
  rewrite (proj2 (Z.ltb_ge _ _)) by (rewrite !zlen_app; lia). cbn [orb].
  rewrite slice_mid by lia. cbn [obind].
  pose proof (rt_decode _ _ _ (rt_record rec Hw)) as Hd.
  change (record_body rec NewWriter) with body in Hd.
  rewrite Hd by mlia. cbn [obind]. by rewrite zlen_app.
Qed.

(** Encoders append to what the buffer holds. *)
Lemma EncodeRecord_emits rec : emits (EncodeRecord rec) (EncodeRecord rec []).
Proof.
  intros w. unfold EncodeRecord, wseq, append_bytes, appendVarint.
  cbn [app]. by rewrite app_assoc.
Qed.

Lemma for_each_cons {A} (x : A) xs (f : A -> W) bs :
  emits (f x) bs -> (forall y w, f y w = w ++ f y []) ->
  for_each (x :: xs) f [] = bs ++ for_each xs f [].
Proof.
  intros Hx Hf. unfold for_each. cbn [fold_left]. rewrite (Hx []). cbn [app].
  generalize bs. induction xs as [|y ys IH]; intros cs; cbn [fold_left].
  { by rewrite app_nil_r. }
  rewrite (Hf y cs), (Hf y []), IH. cbn [app].
  rewrite (IH (f y [])). by rewrite app_assoc.
Qed.

Lemma decode_records_encoded recs :
  Forall wf_record recs -> in_i64 (zlen (for_each recs EncodeRecord [])) ->
  decode_records (length recs) (for_each recs EncodeRecord [])
  = Ok (map norm_record recs).
Proof.
  induction 1 as [|rec recs Hw _ IH]; intros Hl; [done|].
  rewrite (for_each_cons rec recs EncodeRecord (EncodeRecord rec [])) in *
    by (try apply EncodeRecord_emits; intros; apply EncodeRecord_emits).
  cbn [decode_records length map].
  pose proof (PutVarint_len (zlen (record_body rec []))).
  assert (0 < zlen (EncodeRecord rec [])) as Hpos.
  { unfold EncodeRecord, wseq, appendVarint, append_bytes. cbn [app].
    rewrite zlen_app. pose proof (zlen_nonneg (record_body rec [])). lia. }
  set (tl := for_each recs EncodeRecord []) in *. pose proof (zlen_nonneg tl).
  rewrite zlen_app in Hl |- *. rewrite (proj2 (Z.eqb_neq _ _)) by lia.
  rewrite decodeRecord_EncodeRecord by (try done; rewrite zlen_app; mlia).
  cbn [obind]. unfold zlen at 1. rewrite Nat2Z.id, drop_app_length.
  rewrite IH by mlia. done.
Qed.

(** ** The batch as one buffer *)

(** The final buffer with its fields spelled out. *)
Definition batch_layout (b : RecordBatch) (crc : Z) (records : list byte) : list byte :=
  be 8 (u64 (rb_BaseOffset b)) ++
  be 4 (u32 (batch_length records)) ++
  be 4 (u32 (rb_PartitionLeaderEpoch b)) ++
  be 1 (u8 RecordMagic) ++
  be 4 crc ++
  be 2 (u16 (rb_Attributes b)) ++
  be 4 (u32 (filled_last_offset_delta b)) ++
  be 8 (u64 (rb_BaseTimestamp b)) ++
  be 8 (u64 (rb_MaxTimestamp b)) ++
  be 8 (u64 (rb_ProducerID b)) ++
  be 2 (u16 (rb_ProducerEpoch b)) ++
  be 4 (u32 (rb_BaseSequence b)) ++
  be 4 (u32 (zlen (rb_Records b))) ++
  records.

Definition batch_crc (b : RecordBatch) : Z :=
  CalculateRecordBatchCRC (drop 21 (batch_bytes b (encoded_records b))).

Lemma EncodeRecordBatch_layout b :
  wf_batch b ->
  EncodeRecordBatch b = Ok (batch_layout b (batch_crc b) (encoded_records b)).
Proof.
  intros (_ & _ & _ & _ & _ & _ & _ & _ & _ & _ & _ & Hl).
  unfold EncodeRecordBatch. fold (encoded_records b).
  pose proof (zlen_nonneg (encoded_records b)).
  assert (batch_length (encoded_records b) = 49 + zlen (encoded_records b)) as Hbl.
  { unfold batch_length. rewrite (i32_id (zlen _)), i32_id by mlia. done. }
  rewrite Hbl. rewrite (proj2 (Z.ltb_ge _ _)) by lia. reflexivity.
Qed.

Lemma batch_layout_len b crc records : zlen (batch_layout b crc records) = 61 + zlen records.
Proof. unfold batch_layout. rewrite !zlen_app, !zlen_be. lia. Qed.

Lemma filled_range b :
  wf_batch b -> in_i32 (filled_last_offset_delta b).
Proof.
  intros (_ & _ & _ & Hd & _ & _ & _ & _ & _ & Hn & _). unfold filled_last_offset_delta.
  destruct (_ && _); [apply i32_range|done].
Qed.

(** The fields of a batch, each at its offset. *)
Lemma batch_fields b crc records :
  wf_batch b -> in_u32 crc ->
  let raw := batch_layout b crc records in
  i64 (uint_at raw 0 8) = rb_BaseOffset b /\
  i32 (uint_at raw 8 12) = i32 (batch_length records) /\
  i32 (uint_at raw 12 16) = rb_PartitionLeaderEpoch b /\
  i8 (uint_at raw 16 17) = RecordMagic /\
  uint_at raw 17 21 = crc /\
  i16 (uint_at raw 21 23) = rb_Attributes b /\
  i32 (uint_at raw 23 27) = filled_last_offset_delta b /\
  i64 (uint_at raw 27 35) = rb_BaseTimestamp b /\
  i64 (uint_at raw 35 43) = rb_MaxTimestamp b /\
  i64 (uint_at raw 43 51) = rb_ProducerID b /\
  i16 (uint_at raw 51 53) = rb_ProducerEpoch b /\
  i32 (uint_at raw 53 57) = rb_BaseSequence b /\
  i32 (uint_at raw 57 61) = i32 (zlen (rb_Records b)).
Proof.
  intros Hw Hcrc raw. pose proof (filled_range b Hw) as Hlod.
  destruct Hw as (? & ? & ? & ? & ? & ? & ? & ? & ? & ? & ? & ?).
  assert (forall z, i32 (ube (be 4 (u32 z))) = i32 z) as H32.
  { intros z. rewrite ube_be. change (2 ^ (8 * Z.of_nat 4)) with 4294967296.
    unfold u32. rewrite Zmod_mod. apply i32_u32. }
  repeat split.
  - exact (i64_ube_be (rb_BaseOffset b) ltac:(assumption)).
  - exact (H32 (batch_length records)).
  - exact (i32_ube_be (rb_PartitionLeaderEpoch b) ltac:(assumption)).
  - exact (ube_be_small 4 crc Hcrc).
  - exact (i16_ube_be (rb_Attributes b) ltac:(assumption)).
  - exact (i32_ube_be (filled_last_offset_delta b) ltac:(assumption)).
  - exact (i64_ube_be (rb_BaseTimestamp b) ltac:(assumption)).
  - exact (i64_ube_be (rb_MaxTimestamp b) ltac:(assumption)).
  - exact (i64_ube_be (rb_ProducerID b) ltac:(assumption)).
  - exact (i16_ube_be (rb_ProducerEpoch b) ltac:(assumption)).
  - exact (i32_ube_be (rb_BaseSequence b) ltac:(assumption)).
  - exact (H32 (zlen (rb_Records b))).
Qed.

Lemma decode_layout b crc :
  wf_batch b -> in_u32 crc ->
  DecodeRecordBatch (batch_layout b crc (encoded_records b)) = Ok (norm_batch b crc).
Proof.
  intros Hw Hcrc. pose proof (batch_fields b crc (encoded_records b) Hw Hcrc) as Hf.
  pose proof (zlen_nonneg (encoded_records b)) as Hr.
  unfold DecodeRecordBatch. rewrite batch_layout_len, (proj2 (Z.ltb_ge _ _)) by lia.
  cbv zeta in Hf.
  destruct Hf as (-> & _ & -> & -> & -> & -> & -> & -> & -> & -> & -> & -> & ->).
  destruct Hw as (_ & _ & _ & _ & _ & _ & _ & _ & _ & Hn & Hrec & Hl).
  unfold arr_ok in Hn. pose proof (zlen_nonneg (rb_Records b)).
  rewrite (i32_id (zlen _)) by mlia. rewrite Z.eqb_refl. cbn [negb].
  change (drop 61 (batch_layout b crc (encoded_records b))) with (encoded_records b).
  assert (decode_records (length (rb_Records b)) (encoded_records b)
          = Ok (map norm_record (rb_Records b))) as Hd
    by (apply decode_records_encoded; [done|]; fold (encoded_records b); mlia).
  destruct (Z.eqb_spec (zlen (rb_Records b)) 0) as [E|E].
  - assert (rb_Records b = []) as En by (apply nil_length_inv; unfold zlen in E; lia).
    unfold norm_batch, encoded_records. rewrite En.
    by destruct (Z.to_nat _).
  - unfold zlen at 1. by rewrite Nat2Z.id, Hd.
Qed.

(** C22: the encoder never panics on a well-formed batch, the decoder reads its
    output back with every header field and record intact (nil keys excepted,
    see [norm_record]), and the stored checksum is the CRC-32C of everything
    after it. *)
Theorem record_batch_roundtrip b :
  wf_batch b ->
  exists raw, EncodeRecordBatch b = Ok raw /\
    DecodeRecordBatch raw = Ok (norm_batch b (batch_crc b)) /\
    uint_at raw 17 21 = CalculateRecordBatchCRC (drop 21 raw).
Proof.
  intros Hw. exists (batch_layout b (batch_crc b) (encoded_records b)).
  split; [by apply EncodeRecordBatch_layout|].
  assert (in_u32 (batch_crc b)) as Hc by apply crc32c_range.
  split; [by apply decode_layout|].
  destruct (batch_fields b (batch_crc b) (encoded_records b) Hw Hc) as (_ & _ & _ & _ & -> & _).
  reflexivity.
Qed.

Definition sample_batch : RecordBatch :=
  mkBatch 0 0 0 0 0 0 1700000000000 1700000000000 (-1) (-1) (-1)
    [mkRecord 0 0 0 None (Some [x76; x31]) [mkHeader [x68] (Some [x31]); mkHeader [x69] None];
     mkRecord 0 5 1 (Some [x6b]) None []].

Lemma record_batch_roundtrip_witness :
  wf_batch sample_batch /\
  exists raw, EncodeRecordBatch sample_batch = Ok raw /\
    DecodeRecordBatch raw = Ok (norm_batch sample_batch (batch_crc sample_batch)) /\
    uint_at raw 17 21 = CalculateRecordBatchCRC (drop 21 raw).
Proof.
  assert (wf_batch sample_batch) as Hw by decide_closed.
  split; [exact Hw|]. apply (record_batch_roundtrip sample_batch Hw).
Defined.

(** A nil key does not survive the encoder: the record comes back with a
    key, the empty one. Log compaction keeps every record without a key but
    only the last record of each key. *)
Theorem nil_key_decodes_empty rec post :
  wf_record rec -> rec_Key rec = None ->
  in_i64 (zlen (EncodeRecord rec [] ++ post)) ->
  exists rec' n, decodeRecord (EncodeRecord rec [] ++ post) = Ok (rec', n) /\
    rec_Key rec' = Some [].
Proof.
  intros Hw Hk Hl. exists (norm_record rec), (zlen (EncodeRecord rec [])).
  split; [by apply decodeRecord_EncodeRecord|]. simpl. by rewrite Hk.
Qed.

Lemma nil_key_decodes_empty_witness :
  exists rec' n,
    decodeRecord (EncodeRecord (mkRecord 0 0 0 None (Some [x76]) []) [] ++ []) = Ok (rec', n) /\
    rec_Key rec' = Some [].
Proof.
  apply (nil_key_decodes_empty (mkRecord 0 0 0 None (Some [x76]) []) []).
  - decide_closed.
  - reflexivity.
  - decide_closed.
Defined.

(** The bounds test on a record's length adds in 64 bits: the length
    2^63-1, in any buffer, passes it and the slice expression after it
    panics. *)
Theorem record_length_overflow_panics tail :
  zlen tail <= 4611686018427387904 ->
  decodeRecord (PutVarint 9223372036854775807 ++ tail) = Panic.
Proof.
  intros Hl. pose proof (zlen_nonneg tail).
  unfold decodeRecord. rewrite Varint_PutVarint by mlia.
  change (zlen (PutVarint 9223372036854775807)) with 10.
  change (i64 (10 + 9223372036854775807)) with (-9223372036854775799).
  cbn [Z.leb Z.compare]. rewrite zlen_app.
  change (zlen (PutVarint 9223372036854775807)) with 10.
  rewrite (proj2 (Z.ltb_ge _ (-9223372036854775799))) by lia. reflexivity.
Qed.

Lemma record_length_overflow_panics_witness :
  zlen [x00; x01] <= 4611686018427387904 /\
  decodeRecord (PutVarint 9223372036854775807 ++ [x00; x01]) = Panic.
Proof.
  split; [vm_compute; discriminate|].
  apply (record_length_overflow_panics [x00; x01]). vm_compute. discriminate.
Defined.
