(* ===== verification/Lz4.v ===== *)
(** * LZ4 blocks (pkg/protocol/compression.go)

    The repository's own LZ4 block codec: a greedy encoder with a hash table of
    2^14 positions, and a decoder. The encoder works with indices into its
    input, an index out of range is a panic; the decoder's position is the list
    of bytes it has not read yet. *)

From stdpp Require Import prelude list gmap strings.
From Stdlib Require Import ZArith Lia.
From S2P Require Import Prelude GoBinary Wire.

(** ** Encoder *)

Definition lz4FrameMagic : Z := 407708164.

(** The hash of four bytes read as a little-endian word. *)
Definition lz4_hash (w : list byte) : Z :=
  let h := ube (rev w) in
  let h := Z.lxor h (Z.shiftr h 16) in
  let h := u32 (h * 2654435761) in
  let h := Z.lxor h (Z.shiftr h 16) in
  Z.land h 16383.

Definition index (buf : list byte) (i : Z) : outcome byte :=
  if 0 <=? i then match buf !! Z.to_nat i with Some b => Ok b | None => Panic end else Panic.

(** [for i+matchLen < len(src) && src[cand+matchLen] == src[i+matchLen] &&
    matchLen < limit { matchLen++ }] *)
Fixpoint match_len (fuel : nat) (src : list byte) (cand i limit m : Z) : outcome Z :=
  match fuel with
  | O => Err no_fuel
  | S k =>
      if i + m <? zlen src then
        let? a := index src (cand + m) in
        let? b := index src (i + m) in
        if Byte.eqb a b && (m <? limit) then match_len k src cand i limit (m + 1) else Ok m
      else Ok m
  end.

(** [for rest >= 255 { 255; rest -= 255 }; byte(rest)] *)
Fixpoint more_len (fuel : nat) (rest : Z) : list byte :=
  match fuel with
  | O => []
  | S k => if 255 <=? rest then xff :: more_len k (rest - 255) else [z2b rest]
  end.

Definition len_bytes (n base : Z) : list byte :=
  if base <=? n then more_len (S (Z.to_nat (n - base))) (n - base) else [].

Definition lit_nibble (litLen : Z) : Z :=
  if 15 <=? litLen then Z.shiftl 15 4 else Z.shiftl litLen 4.

(** A literal run and a match. *)
Definition lz4_sequence (lit : list byte) (offset matchLen : Z) : list byte :=
  let token := Z.lor (lit_nibble (zlen lit)) (if 19 <=? matchLen then 15 else matchLen - 4) in
  [z2b token] ++ len_bytes (zlen lit) 15 ++ lit
  ++ [z2b offset; z2b (Z.shiftr offset 8)] ++ len_bytes matchLen 19.

(** The last literal run. *)
Definition lz4_last (lit : list byte) : list byte :=
  [z2b (lit_nibble (zlen lit))] ++ len_bytes (zlen lit) 15 ++ lit.

(** The main loop; the result is where the last literals start, and the output
    so far. *)
Fixpoint lz4_loop (fuel : nat) (src : list byte) (table : gmap Z Z) (i litStart : Z)
    (out : list byte) : outcome (Z * list byte) :=
  match fuel with
  | O => Err no_fuel
  | S k =>
      if i + 4 <=? zlen src then
        let? w := slice src i (i + 4) in
        let pos := lz4_hash w in
        let cand := default (-1) (table !! pos) in
        let table := <[pos := i32 i]> table in
        let? hit :=
          if (0 <=? cand) && (cand + 4 <=? i) && (i - cand <=? 65535)
          then let? c := slice src cand (cand + 4) in Ok (bool_decide (c = w))
          else Ok false in
        if (hit : bool) then
          let? m := match_len (S (length src)) src cand i (65535 + 15) 4 in
          let? lit := slice src litStart i in
          lz4_loop k src table (i + m) (i + m) (out ++ lz4_sequence lit (i - cand) m)
        else lz4_loop k src table (i + 1) litStart out
      else Ok (litStart, out)
  end.

Definition lz4BlockEncode (src : list byte) : outcome (list byte) :=
  let? (litStart, out) := lz4_loop (S (length src)) src ∅ 0 0 [] in
  let? lit := slice src litStart (zlen src) in
  Ok (out ++ lz4_last lit).

Definition lz4BlockCompress (src : list byte) : outcome (list byte) :=
  if zlen src =? 0 then Ok [] else
  let? block := lz4BlockEncode src in
  Ok (be 4 lz4FrameMagic ++ be 4 (u32 (zlen block)) ++ be 4 (u32 (zlen src)) ++ block).

(** ** Decoder *)

(** The loop that reads the rest of a length, starting from [n]. *)
Fixpoint read_more (e : error) (rest : list byte) (n : Z) : outcome (Z * list byte) :=
  match rest with
  | [] => Err e
  | b :: r => if b2z b =? 255 then read_more e r (n + 255) else Ok (n + b2z b, r)
  end.

(** [for j := 0; j < n; j++ { dst = append(dst, dst[start+j]) }] *)
Fixpoint copy_match (n : nat) (start : Z) (dst : list byte) : outcome (list byte) :=
  match n with
  | O => Ok dst
  | S k => let? b := index dst start in copy_match k (start + 1) (dst ++ [b])
  end.

Fixpoint lz4_decode_loop (fuel : nat) (rest dst : list byte) : outcome (list byte) :=
  match fuel with
  | O => Err no_fuel
  | S k =>
      match rest with
      | [] => Ok dst
      | token :: rest =>
          let litLen := Z.shiftr (b2z token) 4 in
          let? (litLen, rest) :=
            if litLen =? 15 then read_more "lz4: literal length overrun" rest litLen
            else Ok (litLen, rest) in
          if zlen rest <? litLen then Err "lz4: literal overrun" else
          let dst := dst ++ take (Z.to_nat litLen) rest in
          match drop (Z.to_nat litLen) rest with
          | [] => Ok dst
          | [_] => Err "lz4: offset overrun"
          | o0 :: o1 :: rest =>
              let offset := Z.lor (b2z o0) (Z.shiftl (b2z o1) 8) in
              let matchLen := Z.land (b2z token) 15 in
              let? (matchLen, rest) :=
                if matchLen =? 15 then read_more "lz4: match length overrun" rest matchLen
                else Ok (matchLen, rest) in
              let matchLen := matchLen + 4 in
              if (offset <=? 0) || (zlen dst <? offset) then Err "lz4: invalid offset" else
              let? dst := copy_match (Z.to_nat matchLen) (zlen dst - offset) dst in
              lz4_decode_loop k rest dst
          end
      end
  end.

Definition lz4BlockDecode (src : list byte) (uncompLen : Z) : outcome (list byte) :=
  let? dst := lz4_decode_loop (S (length src)) src [] in
  Ok (if uncompLen <? zlen dst then take (Z.to_nat uncompLen) dst else dst).

(** The test for a trailing checksum compares a length with itself less four,
    so it never holds. *)
Definition lz4BlockDecompress (src : list byte) : outcome (list byte) :=
  if zlen src =? 0 then Ok [] else
  if zlen src <? 12 then Err "lz4: frame too short" else
  if negb (ube (take 4 src) =? lz4FrameMagic) then Err "lz4: bad magic" else
  let compLen := ube (sub src 4 8) in
  let uncompLen := ube (sub src 8 12) in
  if (compLen <? 0) || (uncompLen <? 0) || negb (compLen =? zlen src - 12)
  then Err "lz4: length mismatch" else
  let block := drop 12 src in
  let? block :=
    if (zlen block =? compLen - 4) && (uncompLen =? compLen + 4)
    then slice block 0 (compLen - 4) else Ok block in
  let? out := lz4BlockDecode block uncompLen in
  if negb (zlen out =? uncompLen) then Err "lz4: decompressed size mismatch" else Ok out.

(** ** Lengths and tokens *)

Lemma read_more_len e fuel rest n tl :
  0 <= rest -> (Z.to_nat rest < fuel)%nat ->
  read_more e (more_len fuel rest ++ tl) n = Ok (n + rest, tl).
Proof.
  revert rest n. induction fuel as [|k IH]; intros rest n Hr Hf; [lia|]. cbn [more_len].
  destruct (255 <=? rest) eqn:E; cbn [app read_more].
  - change (b2z xff) with 255. cbn [Z.eqb Pos.eqb]. rewrite IH by lia. do 2 f_equal. lia.
  - rewrite b2z_z2b, Z.mod_small by lia. by rewrite (proj2 (Z.eqb_neq _ _)) by lia.
Qed.

Lemma more_len_length fuel rest : 0 <= rest -> zlen (more_len fuel rest) <= 1 + rest.
Proof.
  revert rest. induction fuel as [|k IH]; intros rest Hr; cbn [more_len];
    [rewrite zlen_nil; lia|].
  destruct (255 <=? rest) eqn:E; autorewrite with zlen; [|apply Z.leb_gt in E; lia].
  apply Z.leb_le in E. specialize (IH (rest - 255)). lia.
Qed.

(** A length and what the decoder makes of it: the nibble, then the bytes. *)
Lemma read_len e n base lim tl :
  0 <= n -> lim + 15 = base ->
  (if (if base <=? n then 15 else n - lim) =? 15
   then read_more e (len_bytes n base ++ tl) (if base <=? n then 15 else n - lim)
   else Ok (if base <=? n then 15 else n - lim, len_bytes n base ++ tl)) = Ok (n - lim, tl).
Proof.
  intros Hn Hb. unfold len_bytes. destruct (base <=? n) eqn:E.
  - cbn [Z.eqb Pos.eqb]. rewrite read_more_len by lia. do 2 f_equal. lia.
  - by rewrite (proj2 (Z.eqb_neq _ _)) by lia.
Qed.

Lemma len_bytes_length n base : 0 <= base -> 0 <= n -> 0 <= zlen (len_bytes n base) <= 1 + Z.max 0 (n - base).
Proof.
  intros Hb Hn. split; [apply zlen_nonneg|]. unfold len_bytes. destruct (base <=? n) eqn:E; [|rewrite zlen_nil; lia].
  pose proof (more_len_length (S (Z.to_nat (n - base))) (n - base)). lia.
Qed.

Lemma lit_nibble_eq n : lit_nibble n = Z.shiftl (if 15 <=? n then 15 else n - 0) 4.
Proof. unfold lit_nibble. rewrite Z.sub_0_r. by destruct (15 <=? n). Qed.

(** A token with nibbles [h] and [l]. *)
Lemma token_nibbles h l :
  0 <= h <= 15 -> 0 <= l <= 15 ->
  Z.shiftr (b2z (z2b (Z.lor (Z.shiftl h 4) l))) 4 = h /\
  Z.land (b2z (z2b (Z.lor (Z.shiftl h 4) l))) 15 = l.
Proof.
  intros Hh Hl. rewrite Z.lor_comm, lor_disjoint by lia. rewrite b2z_z2b, Z.mod_small by lia.
  change 15 with (Z.ones 4). rewrite Z.shiftr_div_pow2, Z.land_ones by lia. split.
  - rewrite Z.div_add, (Z.div_small l) by lia. lia.
  - rewrite Z.mod_add, Z.mod_small by lia. lia.
Qed.

Lemma offset_bytes off :
  0 <= off <= 65535 ->
  Z.lor (b2z (z2b off)) (Z.shiftl (b2z (z2b (Z.shiftr off 8))) 8) = off.
Proof.
  intros Ho. rewrite !b2z_z2b, Z.shiftr_div_pow2 by lia. change (2 ^ 8) with 256.
  rewrite (Z.mod_small (off / 256)) by (split; [apply Z.div_pos; lia|apply Z.div_lt_upper_bound; lia]).
  rewrite lor_disjoint by (pose proof (Z.mod_pos_bound off 256); pose proof (Z.div_pos off 256); lia).
  pose proof (Z.div_mod off 256). lia.
Qed.

Lemma decode_literal k h l lit tl dst :
  h = (if 15 <=? zlen lit then 15 else zlen lit - 0) -> 0 <= l <= 15 ->
  lz4_decode_loop (S k) (z2b (Z.lor (Z.shiftl h 4) l) :: len_bytes (zlen lit) 15 ++ lit ++ tl) dst =
  match tl with
  | [] => Ok (dst ++ lit)
  | [_] => Err "lz4: offset overrun"
  | o0 :: o1 :: rest =>
      let offset := Z.lor (b2z o0) (Z.shiftl (b2z o1) 8) in
      let? (matchLen, rest) :=
        if l =? 15 then read_more "lz4: match length overrun" rest l else Ok (l, rest) in
      if (offset <=? 0) || (zlen (dst ++ lit) <? offset) then Err "lz4: invalid offset" else
      let? dst := copy_match (Z.to_nat (matchLen + 4)) (zlen (dst ++ lit) - offset) (dst ++ lit) in
      lz4_decode_loop k rest dst
  end.
Proof.
  intros Hh Hl. pose proof (zlen_nonneg lit) as Hn.
  assert (0 <= h <= 15) as Hh15 by (destruct (15 <=? zlen lit) eqn:E; lia).
  destruct (token_nibbles h l Hh15 Hl) as [Hs Hln]. cbn [lz4_decode_loop]. rewrite Hs, Hln, Hh.
  rewrite (read_len "lz4: literal length overrun" (zlen lit) 15 0) by lia. cbn [obind]. rewrite Z.sub_0_r.
  rewrite (proj2 (Z.ltb_ge _ _)) by (rewrite zlen_app; pose proof (zlen_nonneg tl); lia).
  assert (Z.to_nat (zlen lit) = length lit) as -> by (unfold zlen; lia).
  by rewrite take_app_length, drop_app_length.
Qed.

Lemma decode_sequence k lit off m tl dst :
  1 <= off <= 65535 -> off <= zlen (dst ++ lit) -> 4 <= m ->
  lz4_decode_loop (S k) (lz4_sequence lit off m ++ tl) dst =
  let? dst' := copy_match (Z.to_nat m) (zlen (dst ++ lit) - off) (dst ++ lit) in
  lz4_decode_loop k tl dst'.
Proof.
  intros Ho Hd Hm. unfold lz4_sequence. rewrite lit_nibble_eq. cbn [app].
  rewrite <- !app_assoc. cbn [app].
  rewrite decode_literal; [|done|destruct (19 <=? m) eqn:E; lia].
  cbv zeta. rewrite offset_bytes by lia.
  rewrite (read_len "lz4: match length overrun" m 19 4) by lia. cbn [obind].
  rewrite (proj2 (Z.leb_gt _ _)), (proj2 (Z.ltb_ge _ _)) by lia. cbn [orb].
  by replace (m - 4 + 4) with m by lia.
Qed.

(** ** Matches *)

Definition agree (src : list byte) (a b n : Z) : Prop :=
  forall j, 0 <= j < n -> src !! Z.to_nat (a + j) = src !! Z.to_nat (b + j).

Lemma index_lookup buf i b : 0 <= i -> buf !! Z.to_nat i = Some b -> index buf i = Ok b.
Proof. intros Hi Hb. unfold index. rewrite (proj2 (Z.leb_le _ _)) by done. by rewrite Hb. Qed.

Lemma lookup_in_range (buf : list byte) i : 0 <= i < zlen buf -> exists b, buf !! Z.to_nat i = Some b.
Proof. intros Hi. apply lookup_lt_is_Some. unfold zlen in Hi. lia. Qed.

Lemma copy_match_agree src n cand i :
  0 <= cand < i -> i + Z.of_nat n <= zlen src -> agree src cand i (Z.of_nat n) ->
  copy_match n cand (take (Z.to_nat i) src) = Ok (take (Z.to_nat (i + Z.of_nat n)) src).
Proof.
  revert cand i. induction n as [|n IH]; intros cand i Hc Hl Ha; cbn [copy_match].
  - by rewrite Z.add_0_r.
  - destruct (lookup_in_range src i) as [b Hb]; [lia|].
    rewrite (index_lookup _ cand b) by (lia || (rewrite lookup_take_lt by lia;
      specialize (Ha 0); rewrite !Z.add_0_r in Ha; rewrite Ha by lia; done)).
    cbn [obind]. rewrite <- (take_S_r _ _ _ Hb). replace (S (Z.to_nat i)) with (Z.to_nat (i + 1)) by lia.
    rewrite IH; [do 3 f_equal; lia|lia|lia|].
    intros j Hj. specialize (Ha (j + 1)). rewrite !Z.add_assoc in Ha.
    replace (cand + 1 + j) with (cand + j + 1) by lia. replace (i + 1 + j) with (i + j + 1) by lia.
    apply Ha. lia.
Qed.

Lemma match_len_spec fuel src cand i limit m :
  0 <= cand <= i -> 0 <= m <= limit -> i + m <= zlen src -> agree src cand i m ->
  zlen src - (i + m) < Z.of_nat fuel ->
  exists m', match_len fuel src cand i limit m = Ok m' /\ m <= m' <= limit /\ i + m' <= zlen src /\
    agree src cand i m'.
Proof.
  revert m. induction fuel as [|k IH]; intros m Hc Hm Hl Ha Hf; [lia|]. cbn [match_len].
  destruct (i + m <? zlen src) eqn:E; [|exists m; split_and!; [done|lia|lia|lia|done]].
  apply Z.ltb_lt in E.
  destruct (lookup_in_range src (cand + m)) as [a Ea]; [lia|].
  destruct (lookup_in_range src (i + m)) as [b Eb]; [lia|].
  rewrite (index_lookup src _ a), (index_lookup src _ b) by (done || lia). cbn [obind].
  destruct (Byte.eqb a b && _) eqn:Ec; [|exists m; split_and!; [done|lia|lia|lia|done]].
  apply andb_prop in Ec as [Ec Elim%Z.ltb_lt]. apply Byte.byte_dec_bl in Ec as ->.
  destruct (IH (m + 1)) as (m' & -> & Hm' & Hl' & Ha'); [lia|lia|lia| |lia|].
  - intros j Hj. destruct (decide (j = m)) as [->|Hne]; [congruence|]. apply Ha. lia.
  - exists m'. split_and!; [done|lia|lia|lia|done].
Qed.

Lemma sub_agree (src : list byte) a b n :
  0 <= a -> 0 <= b -> sub src a (a + n) = sub src b (b + n) -> agree src a b n.
Proof.
  intros Ha Hb E j Hj. apply (f_equal (.!! Z.to_nat j)) in E. unfold sub in E.
  rewrite !lookup_take_lt, !lookup_drop in E by lia.
  by replace (Z.to_nat (a + j)) with (Z.to_nat a + Z.to_nat j)%nat by lia;
    replace (Z.to_nat (b + j)) with (Z.to_nat b + Z.to_nat j)%nat by lia.
Qed.

Lemma take_sub (src : list byte) a b :
  0 <= a <= b -> take (Z.to_nat a) src ++ sub src a b = take (Z.to_nat b) src.
Proof.
  intros H. unfold sub. replace (Z.to_nat b) with (Z.to_nat a + Z.to_nat (b - a))%nat by lia.
  by rewrite take_take_drop.
Qed.

(** ** The encoder's output decodes to what it has read *)

Definition decodes_to (out dst : list byte) : Prop :=
  exists k, Z.of_nat k <= zlen out /\
    forall f tl, lz4_decode_loop (k + f) (out ++ tl) [] = lz4_decode_loop f tl dst.

Lemma sequence_length lit off m :
  4 <= m -> 1 <= zlen (lz4_sequence lit off m) <= 2 * (zlen lit + m).
Proof.
  intros Hm. unfold lz4_sequence. autorewrite with zlen. pose proof (zlen_nonneg lit) as Hn.
  pose proof (len_bytes_length (zlen lit) 15). pose proof (len_bytes_length m 19). lia.
Qed.

Lemma decodes_sequence src out litStart i cand m :
  0 <= litStart <= i -> 0 <= cand -> cand + 4 <= i -> i - cand <= 65535 -> 4 <= m -> i + m <= zlen src ->
  agree src cand i m -> decodes_to out (take (Z.to_nat litStart) src) ->
  decodes_to (out ++ lz4_sequence (sub src litStart i) (i - cand) m) (take (Z.to_nat (i + m)) src).
Proof.
  intros Hls Hc0 Hc Hoff Hm Hl Ha (k & Hk & Hdec). exists (S k). split.
  { rewrite zlen_app. pose proof (sequence_length (sub src litStart i) (i - cand) m Hm). lia. }
  intros f tl. rewrite <- app_assoc. replace (S k + f)%nat with (k + S f)%nat by lia. rewrite Hdec.
  assert (zlen (take (Z.to_nat i) src) = i) as Hz.
  { unfold zlen in *. rewrite length_take. lia. }
  rewrite decode_sequence by (rewrite ?take_sub, ?Hz by lia; lia). rewrite take_sub, Hz by lia.
  replace (i - (i - cand)) with cand by lia.
  rewrite (copy_match_agree src (Z.to_nat m) cand i); [by rewrite Z2Nat.id by lia|lia|lia|].
  by rewrite Z2Nat.id by lia.
Qed.

Lemma lz4_loop_spec fuel src table i litStart out :
  0 <= litStart <= i -> i <= zlen src -> zlen src - i < Z.of_nat fuel ->
  decodes_to out (take (Z.to_nat litStart) src) -> zlen out <= 2 * litStart ->
  exists ls out', lz4_loop fuel src table i litStart out = Ok (ls, out') /\ 0 <= ls <= zlen src /\
    decodes_to out' (take (Z.to_nat ls) src) /\ zlen out' <= 2 * ls.
Proof.
  revert table i litStart out. induction fuel as [|k IH]; intros table i ls out Hls Hi Hf Hdec Hlen; [lia|].
  cbn [lz4_loop]. destruct (i + 4 <=? zlen src) eqn:E4; [apply Z.leb_le in E4|].
  2: { exists ls, out. split_and!; [done|lia|lia|done|lia]. }
  rewrite slice_ok by lia. cbn [obind]. set (cand := default _ _). set (tb := <[_ := _]> _).
  assert (exists ls' out', lz4_loop k src tb (i + 1) ls out = Ok (ls', out') /\ 0 <= ls' <= zlen src /\
    decodes_to out' (take (Z.to_nat ls') src) /\ zlen out' <= 2 * ls') as Hskip.
  { apply IH; [lia|lia|lia|done|lia]. }
  destruct (_ && _ && _) eqn:Ec; [|exact Hskip].
  apply andb_prop in Ec as [Ec Ec3%Z.leb_le]. apply andb_prop in Ec as [Ec1%Z.leb_le Ec2%Z.leb_le].
  rewrite slice_ok by lia. cbn [obind]. case_bool_decide as Heq; [|exact Hskip].
  assert (agree src cand i 4) as Ha by (apply sub_agree; [lia|lia|done]).
  destruct (match_len_spec (S (length src)) src cand i (65535 + 15) 4) as (m & Hm & [Hm4 _] & Hml & Hag);
    [lia|lia|lia|done|unfold zlen; lia|].
  rewrite Hm. cbn [obind]. rewrite slice_ok by lia. cbn [obind]. apply IH; [lia|lia|lia| |].
  - apply decodes_sequence; (done || lia).
  - rewrite zlen_app. pose proof (sequence_length (sub src ls i) (i - cand) m Hm4) as Hsq.
    rewrite zlen_sub in Hsq by lia. lia.
Qed.

Lemma decode_last k lit dst :
  lz4_decode_loop (S k) (lz4_last lit) dst = Ok (dst ++ lit).
Proof.
  unfold lz4_last. rewrite lit_nibble_eq. cbn [app].
  pose proof (decode_literal k _ 0 lit [] dst eq_refl) as H. rewrite Z.lor_0_r, app_nil_r in H.
  apply H. lia.
Qed.

Lemma lz4BlockEncode_spec src :
  exists block, lz4BlockEncode src = Ok block /\ zlen block <= 2 * zlen src + 2 /\
    forall n, lz4BlockDecode block n = Ok (if n <? zlen src then take (Z.to_nat n) src else src).
Proof.
  unfold lz4BlockEncode. pose proof (zlen_nonneg src) as Hn.
  destruct (lz4_loop_spec (S (length src)) src ∅ 0 0 []) as (ls & out & -> & Hls & (k & Hk & Hdec) & Hlen);
    [lia|lia|unfold zlen; lia| |rewrite zlen_nil; lia|].
  { exists 0%nat. split; [done|]. intros f tl. done. }
  cbn [obind]. rewrite slice_ok by lia. cbn [obind]. eexists. split; [reflexivity|]. split.
  - unfold lz4_last. autorewrite with zlen. rewrite zlen_sub by lia.
    pose proof (len_bytes_length (zlen src - ls) 15). lia.
  - intros n. unfold lz4BlockDecode.
    assert (1 <= zlen (lz4_last (sub src ls (zlen src)))) as H1.
    { unfold lz4_last. autorewrite with zlen. pose proof (zlen_nonneg (sub src ls (zlen src))).
      pose proof (zlen_nonneg (len_bytes (zlen (sub src ls (zlen src))) 15)). lia. }
    set (whole := out ++ lz4_last _).
    assert (exists f, S (length whole) = (k + S f)%nat) as [f ->].
    { exists (length whole - k)%nat. unfold whole. rewrite length_app. unfold zlen in *. lia. }
    unfold whole. rewrite Hdec, decode_last. cbn [obind]. rewrite take_sub by lia.
    by rewrite (take_ge src) by (unfold zlen; lia).
Qed.

(** A frame: magic, two lengths, the block. *)
Lemma decompress_frame a b block :
  0 <= a < 4294967296 -> 0 <= b < 4294967296 -> zlen block = a ->
  lz4BlockDecompress (be 4 lz4FrameMagic ++ be 4 a ++ be 4 b ++ block) =
  let? out := lz4BlockDecode block b in
  if negb (zlen out =? b) then Err "lz4: decompressed size mismatch" else Ok out.
Proof.
  intros Ha Hb Hbl. unfold lz4BlockDecompress. autorewrite with zlen.
  rewrite (proj2 (Z.eqb_neq _ _)), (proj2 (Z.ltb_ge _ _)) by lia.
  replace (take 4 _) with (be 4 lz4FrameMagic) by reflexivity.
  rewrite (sub_mid (be 4 lz4FrameMagic) (be 4 a)) by (by rewrite ?zlen_be).
  rewrite (app_assoc (be 4 lz4FrameMagic)).
  rewrite (sub_mid (be 4 lz4FrameMagic ++ be 4 a) (be 4 b)) by (by autorewrite with zlen).
  rewrite app_assoc, drop_app_length' by (by rewrite !length_app, !length_be).
  rewrite !ube_be_small by (change (2 ^ (8 * Z.of_nat 4)) with 4294967296; lia || done). rewrite Z.eqb_refl.
  rewrite (proj2 (Z.ltb_ge a 0)), (proj2 (Z.ltb_ge b 0)) by lia.
  rewrite (proj2 (Z.eqb_eq a _)), (proj2 (Z.eqb_neq (zlen block) (a - 4))) by lia. done.
Qed.

(** LZ4 round trip. Compressing any record data shorter than 2^31 - 1 bytes
    succeeds (the encoder never indexes out of range and its loops end), and
    decompressing the result gives the data back. *)
Lemma lz4_compress_spec src :
  zlen src < 2147483647 ->
  exists frame, lz4BlockCompress src = Ok frame /\ lz4BlockDecompress frame = Ok src.
Proof.
  intros Hlen. unfold lz4BlockCompress. destruct (zlen src =? 0) eqn:E0.
  { apply Z.eqb_eq in E0. destruct src; [by exists []|]. rewrite zlen_cons in E0.
    pose proof (zlen_nonneg src). lia. }
  apply Z.eqb_neq in E0. pose proof (zlen_nonneg src) as Hn.
  destruct (lz4BlockEncode_spec src) as (block & -> & Hb & Hdec). cbn [obind].
  eexists. split; [reflexivity|]. pose proof (zlen_nonneg block) as Hbn.
  rewrite !u32_id by mlia. rewrite decompress_frame, Hdec by (done || lia). cbn [obind].
  by rewrite Z.ltb_irrefl, Z.eqb_refl.
Qed.

(** ** The decoder on arbitrary input *)

Lemma copy_match_ok n start dst :
  0 <= start < zlen dst -> exists dst', copy_match n start dst = Ok dst' /\ zlen dst' = zlen dst + Z.of_nat n.
Proof.
  revert start dst. induction n as [|n IH]; intros start dst Hs; cbn [copy_match].
  - exists dst. split; [done|lia].
  - destruct (lookup_in_range dst start Hs) as [b Hb]. rewrite (index_lookup _ _ b) by (done || lia).
    cbn [obind]. destruct (IH (start + 1) (dst ++ [b])) as (d & -> & Hd); [autorewrite with zlen; lia|].
    exists d. split; [done|]. autorewrite with zlen in Hd. lia.
Qed.

Lemma read_more_total e rest n :
  e <> no_fuel -> total (read_more e rest n) /\
  forall m r, read_more e rest n = Ok (m, r) -> n <= m /\ zlen r < zlen rest.
Proof.
  intros He. revert n. induction rest as [|b rest IH]; intros n; cbn [read_more]; [by split|].
  rewrite zlen_cons. pose proof (b2z_range b). destruct (_ =? 255).
  - destruct (IH (n + 255)) as [H1 H2]. split; [done|]. intros m r Hr. apply H2 in Hr. lia.
  - split; [done|]. intros m r [= <- <-]. lia.
Qed.

(** A length field: the nibble, or the nibble and more bytes. *)
Lemma read_nibble_total e rest n :
  e <> no_fuel -> 0 <= n ->
  total (if n =? 15 then read_more e rest n else Ok (n, rest)) /\
  forall m r, (if n =? 15 then read_more e rest n else Ok (n, rest)) = Ok (m, r) ->
    0 <= m /\ zlen r <= zlen rest.
Proof.
  intros He Hn. destruct (n =? 15).
  - destruct (read_more_total e rest n He) as [H1 H2]. split; [done|]. intros m r Hr. apply H2 in Hr. lia.
  - split; [done|]. intros m r [= <- <-]. lia.
Qed.

Lemma lz4_decode_loop_total fuel rest dst :
  zlen rest < Z.of_nat fuel -> total (lz4_decode_loop fuel rest dst).
Proof.
  revert rest dst. induction fuel as [|k IH]; intros rest dst Hf; [pose proof (zlen_nonneg rest); lia|].
  destruct rest as [|token rest]; cbn [lz4_decode_loop]; [done|]. rewrite zlen_cons in Hf.
  destruct (read_nibble_total "lz4: literal length overrun" rest (Z.shiftr (b2z token) 4)) as [H1 H2];
    [done|apply Z.shiftr_nonneg, b2z_range|].
  apply total_bind; [done|]. intros [litLen r] Hr. destruct (H2 _ _ Hr) as [Hl0 Hr'].
  destruct (zlen r <? litLen) eqn:E; [done|]. apply Z.ltb_ge in E.
  assert (zlen (drop (Z.to_nat litLen) r) <= zlen r) as Hd by (unfold zlen; rewrite length_drop; lia).
  destruct (drop (Z.to_nat litLen) r) as [|o0 [|o1 r2]]; [done|done|]. rewrite !zlen_cons in Hd.
  destruct (read_nibble_total "lz4: match length overrun" r2 (Z.land (b2z token) 15)) as [H3 H4];
    [done|apply Z.land_nonneg; lia|].
  apply total_bind; [done|]. intros [ml r3] Hr3. destruct (H4 _ _ Hr3) as [Hm0 Hr3'].
  destruct (_ || _) eqn:Eo; [done|]. apply orb_false_elim in Eo as [Eo1%Z.leb_gt Eo2%Z.ltb_ge].
  match goal with |- total (let? _ := copy_match ?n ?s ?d in _) =>
    destruct (copy_match_ok n s d) as (d' & -> & _); [lia|] end.
  cbn [obind]. apply IH. lia.
Qed.

Lemma lz4BlockDecompress_total src : total (lz4BlockDecompress src).
Proof.
  unfold lz4BlockDecompress. destruct (_ =? 0); [done|]. destruct (_ <? 12); [done|].
  destruct (negb _); [done|]. destruct (_ || _) eqn:E; [done|].
  apply orb_false_elim in E as [_ E%negb_false_iff%Z.eqb_eq].
  assert (zlen (drop 12 src) = zlen src - 12 \/ zlen src < 12) as Hd.
  { unfold zlen. rewrite length_drop. lia. }
  apply total_bind.
  - destruct (_ && _) eqn:E2; [|done]. apply andb_prop in E2 as [E2%Z.eqb_eq _].
    pose proof (zlen_nonneg (drop 12 src)). rewrite slice_ok by lia. done.
  - intros block _. apply total_bind.
    + unfold lz4BlockDecode. apply total_bind; [|done]. apply lz4_decode_loop_total. unfold zlen. lia.
    + intros out _. by destruct (negb _).
Qed.
