(* ===== verification/Compression.v ===== *)
(** * Snappy blocks and the codec dispatch (pkg/protocol/compression.go)

    The repository's own Snappy block codec, and the functions that choose a
    codec by the attributes of a batch. gzip is Go's compress/gzip, passed as a
    pair of functions. *)

From stdpp Require Import prelude list gmap strings.
From Stdlib Require Import ZArith Lia.
From S2P Require Import Prelude GoBinary Wire Lz4.

(** ** Snappy encoder *)

Definition snappy_hash (w : list byte) : Z :=
  Z.land (Z.shiftr (u32 (ube (rev w) * 506832829)) 15) 16383.

Definition appendSnappyLiteral (out src : list byte) : list byte :=
  let n := zlen src in
  let tag :=
    if n <? 60 then [z2b (Z.shiftl (u8 (n - 1)) 2)]
    else if n <? 256 then [z2b (Z.shiftl 60 2); z2b (n - 1)]
    else if n <? 65536 then [z2b (Z.shiftl 61 2); z2b (n - 1); z2b (Z.shiftr (n - 1) 8)]
    else [z2b (Z.shiftl 62 2); z2b (n - 1); z2b (Z.shiftr (n - 1) 8); z2b (Z.shiftr (n - 1) 16);
          z2b (Z.shiftr (n - 1) 24)] in
  out ++ tag ++ src.

(** The closure [emitLiteral]. *)
Definition emitLiteral (src : list byte) (litStart end_ : Z) (out : list byte)
  : outcome (list byte) :=
  if litStart <? end_
  then let? lit := slice src litStart end_ in Ok (appendSnappyLiteral out lit)
  else Ok out.

(** A copy; [off] is the distance less one. *)
Definition snappy_copy_tag (off matchLen : Z) : list byte :=
  if (off <=? 511) && (matchLen <? 12)
  then [z2b (Z.lor (Z.lor (u8 (Z.shiftl (matchLen - 4) 2)) 1) (u8 (Z.shiftl (u8 (Z.shiftr off 8)) 5)));
        z2b off]
  else [z2b (Z.lor (u8 (Z.shiftl (matchLen - 1) 2)) 2); z2b off; z2b (Z.shiftr off 8)].

Fixpoint snappy_loop (fuel : nat) (src : list byte) (table : gmap Z Z) (i litStart : Z)
    (out : list byte) : outcome (Z * list byte) :=
  match fuel with
  | O => Err no_fuel
  | S k =>
      if i + 4 <=? zlen src then
        let? w := slice src i (i + 4) in
        let pos := snappy_hash w in
        let cand := default (-1) (table !! pos) in
        let table := <[pos := i32 i]> table in
        let? hit :=
          if (0 <=? cand) && (cand + 4 <=? i) && (i - cand <=? 65535)
          then let? c := slice src cand (cand + 4) in Ok (bool_decide (c = w))
          else Ok false in
        if (hit : bool) then
          let? m := match_len (S (length src)) src cand i 64 4 in
          let? out := emitLiteral src litStart i out in
          snappy_loop k src table (i + m) (i + m) (out ++ snappy_copy_tag (i - cand - 1) m)
        else snappy_loop k src table (i + 1) litStart out
      else Ok (litStart, out)
  end.

Definition snappyBlockEncode (src : list byte) : outcome (list byte) :=
  let? (litStart, out) := snappy_loop (S (length src)) src ∅ 0 0 [] in
  emitLiteral src litStart (zlen src) out.

Definition snappyEncode (src : list byte) : outcome (list byte) :=
  if zlen src <=? 4 then Ok (appendSnappyLiteral (be 4 (u32 (zlen src))) src) else
  let? encoded := snappyBlockEncode src in
  Ok (be 4 (u32 (zlen encoded)) ++ encoded).

(** ** Snappy decoder *)

Definition snappyCopy (dst : list byte) (offset length : Z) : outcome (list byte) :=
  if (offset <=? 0) || (zlen dst <? offset) then Err "snappy: invalid copy offset" else
  copy_match (Z.to_nat length) (zlen dst - offset) dst.

(** Little-endian bytes, one more than their value. *)
Definition le_succ (bs : list byte) : Z := ube (rev bs) + 1.

Definition snappy_literal_len (tag : Z) (rest : list byte) : outcome (Z * list byte) :=
  let length := Z.shiftr tag 2 in
  if 60 <=? length then
    let n := length - 59 in
    if zlen rest <? n then Err "snappy: literal length overrun" else
    Ok (le_succ (take (Z.to_nat n) rest), drop (Z.to_nat n) rest)
  else Ok (length + 1, rest).

Fixpoint snappy_decode_loop (fuel : nat) (rest dst : list byte) : outcome (list byte) :=
  match fuel with
  | O => Err no_fuel
  | S k =>
      match rest with
      | [] => Ok dst
      | t :: rest =>
          let tag := b2z t in
          if Z.land tag 3 =? 0 then
            let? (length, rest) := snappy_literal_len tag rest in
            if zlen rest <? length then Err "snappy: literal overrun" else
            snappy_decode_loop k (drop (Z.to_nat length) rest) (dst ++ take (Z.to_nat length) rest)
          else
            let n := if Z.land tag 3 =? 1 then 1 else if Z.land tag 3 =? 2 then 2 else 4 in
            if zlen rest <? n then Err "snappy: copy overrun" else
            let '(length, offset) :=
              if Z.land tag 3 =? 1
              then (4 + Z.shiftr tag 2,
                    Z.lor (ube (take 1 rest)) (Z.shiftl (Z.land tag 224) 3) + 1)
              else (1 + Z.shiftr tag 2, le_succ (take (Z.to_nat n) rest)) in
            let? dst := snappyCopy dst offset length in
            snappy_decode_loop k (drop (Z.to_nat n) rest) dst
      end
  end.

Definition snappyBlockDecode (src : list byte) : outcome (list byte) :=
  snappy_decode_loop (S (length src)) src [].

Definition snappyDecode (src : list byte) : outcome (list byte) :=
  if zlen src <? 4 then
    if zlen src =? 0 then Ok [] else Err "snappy: missing length prefix"
  else if negb (ube (take 4 src) =? zlen src - 4) then Err "snappy: length mismatch"
  else snappyBlockDecode (drop 4 src).

(** ** Choosing a codec *)

Definition CompressionNone : Z := 0.
Definition CompressionGzip : Z := 1.
Definition CompressionSnappy : Z := 2.
Definition CompressionLZ4 : Z := 3.
Definition CompressionZSTD : Z := 4.
Definition ErrUnsupportedCompression : error := "unsupported compression codec".

Definition CompressionCodec (attr : Z) : Z := Z.land attr 7.

Section codec.
Context (gzipCompress gzipDecompress : list byte -> outcome (list byte)).

Definition CompressRecordBatch (records : list byte) (codec attr : Z) : outcome (list byte * Z) :=
  let with_codec c := Z.lor (Z.ldiff attr 7) c in
  if codec =? CompressionNone then Ok (records, Z.ldiff attr 7)
  else if codec =? CompressionGzip then
    let? out := gzipCompress records in Ok (out, with_codec CompressionGzip)
  else if codec =? CompressionSnappy then
    let? out := snappyEncode records in Ok (out, with_codec CompressionSnappy)
  else if codec =? CompressionLZ4 then
    let? out := lz4BlockCompress records in Ok (out, with_codec CompressionLZ4)
  else Err ErrUnsupportedCompression.

Definition DecompressRecordBatch (records : list byte) (attr : Z) : outcome (list byte) :=
  let codec := CompressionCodec attr in
  if codec =? CompressionNone then Ok records
  else if codec =? CompressionGzip then gzipDecompress records
  else if codec =? CompressionSnappy then snappyDecode records
  else if codec =? CompressionLZ4 then lz4BlockDecompress records
  else Err ErrUnsupportedCompression.
End codec.

(** ** What Snappy elements decode to *)

Lemma ube_rev_one b : ube (rev [b]) = b2z b.
Proof. cbn [rev app ube]. change (2 ^ (8 * zlen [])) with 1. lia. Qed.

Lemma le2_bytes n : 0 <= n < 65536 -> ube (rev [z2b n; z2b (Z.shiftr n 8)]) = n.
Proof.
  intros Hn. cbn [rev app ube]. change (2 ^ (8 * zlen [])) with 1.
  change (2 ^ (8 * zlen [z2b n])) with 256. rewrite !b2z_z2b, Z.shiftr_div_pow2 by lia.
  change (2 ^ 8) with 256. rewrite (Z.mod_small (n / 256)) by
    (split; [apply Z.div_pos; lia|apply Z.div_lt_upper_bound; lia]).
  pose proof (Z.div_mod n 256). lia.
Qed.

(** The two low bits choose the element, the others are its argument. *)
Lemma tag_split x t : 0 <= x < 64 -> 0 <= t < 4 ->
  Z.land (b2z (z2b (Z.lor (Z.shiftl x 2) t))) 3 = t /\ Z.shiftr (b2z (z2b (Z.lor (Z.shiftl x 2) t))) 2 = x.
Proof.
  intros Hx Ht. rewrite Z.lor_comm, lor_disjoint by lia. rewrite b2z_z2b, Z.mod_small by lia.
  change 3 with (Z.ones 2). rewrite Z.land_ones, Z.shiftr_div_pow2 by lia. change (2 ^ 2) with 4.
  split; [rewrite Z.mod_add, Z.mod_small by lia; lia|rewrite Z.div_add, Z.div_small by lia; lia].
Qed.

Lemma u8_small x : 0 <= x < 256 -> u8 x = x.
Proof. intros. by apply Z.mod_small. Qed.

Lemma decode_snappy_literal k lit tl dst :
  1 <= zlen lit < 65536 ->
  snappy_decode_loop (S k) (appendSnappyLiteral [] lit ++ tl) dst = snappy_decode_loop k tl (dst ++ lit).
Proof.
  intros Hn. assert (forall t r, Z.land (b2z t) 3 = 0 ->
    snappy_literal_len (b2z t) r = Ok (zlen lit, lit ++ tl) ->
    snappy_decode_loop (S k) (t :: r) dst = snappy_decode_loop k tl (dst ++ lit)) as Hstep.
  { intros t r Ht Hr. cbn [snappy_decode_loop]. rewrite Ht, Hr. cbn [Z.eqb obind].
    rewrite (proj2 (Z.ltb_ge _ _)) by (rewrite zlen_app; pose proof (zlen_nonneg tl); lia).
    assert (Z.to_nat (zlen lit) = length lit) as -> by (unfold zlen; lia).
    by rewrite take_app_length, drop_app_length. }
  unfold appendSnappyLiteral. cbn [app].
  destruct (zlen lit <? 60) eqn:E1; [|destruct (zlen lit <? 256) eqn:E2; [|destruct (zlen lit <? 65536) eqn:E3]].
  - apply Z.ltb_lt in E1. rewrite u8_small by lia. cbn [app].
    destruct (tag_split (zlen lit - 1) 0) as [Ht Hs]; [lia|lia|]. rewrite Z.lor_0_r in Ht, Hs.
    apply Hstep; [done|]. unfold snappy_literal_len. rewrite Hs.
    rewrite (proj2 (Z.leb_gt _ _)) by lia. do 3 f_equal. lia.
  - apply Z.ltb_ge in E1. apply Z.ltb_lt in E2. cbn [app].
    apply Hstep; [done|]. unfold snappy_literal_len.
    replace (Z.shiftr (b2z (z2b (Z.shiftl 60 2))) 2) with 60 by reflexivity. cbn [Z.leb Z.compare Pos.compare Pos.compare_cont].
    rewrite (proj2 (Z.ltb_ge _ _)) by (rewrite zlen_cons; pose proof (zlen_nonneg (lit ++ tl)); lia).
    replace (Z.to_nat (60 - 59)) with 1%nat by reflexivity. cbn [take drop]. unfold le_succ.
    rewrite ube_rev_one, b2z_z2b, Z.mod_small by lia. do 3 f_equal. lia.
  - apply Z.ltb_ge in E2. apply Z.ltb_lt in E3. cbn [app].
    apply Hstep; [done|]. unfold snappy_literal_len.
    replace (Z.shiftr (b2z (z2b (Z.shiftl 61 2))) 2) with 61 by reflexivity. cbn [Z.leb Z.compare Pos.compare Pos.compare_cont].
    rewrite (proj2 (Z.ltb_ge _ _)) by (rewrite !zlen_cons; pose proof (zlen_nonneg (lit ++ tl)); lia).
    replace (Z.to_nat (61 - 59)) with 2%nat by reflexivity. cbn [take drop]. unfold le_succ.
    rewrite le2_bytes by lia. do 3 f_equal. lia.
  - apply Z.ltb_ge in E3. lia.
Qed.

(** A copy from nearby, or a long one. *)
Lemma decode_snappy_copy k off m tl dst :
  0 <= off <= 65535 -> 4 <= m <= 64 -> off <= 255 \/ 12 <= m ->
  snappy_decode_loop (S k) (snappy_copy_tag off m ++ tl) dst =
  let? dst' := snappyCopy dst (off + 1) m in snappy_decode_loop k tl dst'.
Proof.
  intros Ho Hm Hnear. unfold snappy_copy_tag. destruct (_ && _) eqn:E.
  - apply andb_prop in E as [_ E%Z.ltb_lt].
    rewrite Z.shiftr_div_pow2, (Z.div_small off) by (change (2 ^ 8) with 256; lia).
    change (u8 (Z.shiftl (u8 0) 5)) with 0. rewrite Z.lor_0_r.
    rewrite u8_small by (rewrite Z.shiftl_mul_pow2 by lia; change (2 ^ 2) with 4; lia).
    destruct (tag_split (m - 4) 1) as [Ht Hs]; [lia|lia|]. cbn [app snappy_decode_loop]. rewrite Ht, Hs.
    cbn [Z.eqb Pos.eqb].
    rewrite (proj2 (Z.ltb_ge _ _)) by (rewrite zlen_cons; pose proof (zlen_nonneg tl); lia).
    assert (Z.land (b2z (z2b (Z.lor (Z.shiftl (m - 4) 2) 1))) 224 = 0) as ->.
    { assert (m = 4 \/ m = 5 \/ m = 6 \/ m = 7 \/ m = 8 \/ m = 9 \/ m = 10 \/ m = 11) as Hc by lia.
      destruct_or? Hc; subst m; reflexivity. }
    assert (ube (take 1 (z2b off :: tl)) = off) as ->.
    { etrans; [apply (ube_rev_one (z2b off))|]. rewrite b2z_z2b, Z.mod_small; lia. }
    rewrite Z.shiftl_0_l, Z.lor_0_r. change (drop (Z.to_nat 1) (z2b off :: tl)) with tl.
    by replace (4 + (m - 4)) with m by lia.
  - rewrite u8_small by (rewrite Z.shiftl_mul_pow2 by lia; change (2 ^ 2) with 4; lia).
    destruct (tag_split (m - 1) 2) as [Ht Hs]; [lia|lia|]. cbn [app snappy_decode_loop]. rewrite Ht, Hs.
    cbn [Z.eqb Pos.eqb].
    rewrite (proj2 (Z.ltb_ge _ _)) by (rewrite !zlen_cons; pose proof (zlen_nonneg tl); lia).
    replace (Z.to_nat 2) with 2%nat by reflexivity. cbn [take drop]. unfold le_succ.
    rewrite le2_bytes by lia. by replace (1 + (m - 1)) with m by lia.
Qed.

(** ** Round trips *)

Definition snappy_to (out dst : list byte) : Prop :=
  exists k, Z.of_nat k <= zlen out /\
    forall f tl, snappy_decode_loop (k + f) (out ++ tl) [] = snappy_decode_loop f tl dst.

Lemma snappy_to_nil : snappy_to [] [].
Proof. exists 0%nat. by split. Qed.

Lemma snappy_to_step out dst el dst' :
  snappy_to out dst -> 1 <= zlen el ->
  (forall f tl, snappy_decode_loop (S f) (el ++ tl) dst = snappy_decode_loop f tl dst') ->
  snappy_to (out ++ el) dst'.
Proof.
  intros (k & Hk & H) Hel Hd. exists (S k). split; [rewrite zlen_app; lia|]. intros f tl.
  rewrite <- app_assoc. replace (S k + f)%nat with (k + S f)%nat by lia. by rewrite H, Hd.
Qed.

Lemma appendSnappyLiteral_app out lit :
  appendSnappyLiteral out lit = out ++ appendSnappyLiteral [] lit.
Proof. done. Qed.

Lemma emitLiteral_to src litStart i out :
  0 <= litStart <= i -> i <= zlen src -> zlen src < 65536 ->
  snappy_to out (take (Z.to_nat litStart) src) ->
  exists out', emitLiteral src litStart i out = Ok out' /\ snappy_to out' (take (Z.to_nat i) src) /\
    zlen out' <= zlen out + 6 * (i - litStart).
Proof.
  intros Hls Hi Hlen Hto. unfold emitLiteral. destruct (litStart <? i) eqn:E.
  - apply Z.ltb_lt in E. rewrite slice_ok by lia. cbn [obind]. eexists. split; [reflexivity|].
    rewrite appendSnappyLiteral_app. pose proof (zlen_sub src litStart i) as Hsub. split.
    + apply (snappy_to_step _ (take (Z.to_nat litStart) src)); [done| |].
      * unfold appendSnappyLiteral. repeat case_match; autorewrite with zlen; rewrite Hsub by lia; lia.
      * intros f tl. rewrite decode_snappy_literal by (rewrite Hsub by lia; lia).
        by rewrite take_sub by lia.
    + rewrite zlen_app. unfold appendSnappyLiteral. repeat case_match; autorewrite with zlen;
        rewrite Hsub by lia; lia.
  - apply Z.ltb_ge in E. assert (litStart = i) as -> by lia. exists out. split_and!; [done|done|lia].
Qed.

Lemma snappy_copy_tag_length off m : 2 <= zlen (snappy_copy_tag off m) <= 3.
Proof. unfold snappy_copy_tag. destruct (_ && _); autorewrite with zlen; lia. Qed.

Lemma snappy_loop_spec fuel src table i litStart out :
  0 <= litStart <= i -> i <= zlen src -> zlen src <= 256 -> zlen src - i < Z.of_nat fuel ->
  snappy_to out (take (Z.to_nat litStart) src) -> zlen out <= 6 * litStart ->
  exists ls out', snappy_loop fuel src table i litStart out = Ok (ls, out') /\ 0 <= ls <= zlen src /\
    snappy_to out' (take (Z.to_nat ls) src) /\ zlen out' <= 6 * ls.
Proof.
  revert table i litStart out. induction fuel as [|k IH]; intros table i ls out Hls Hi Hsm Hf Hdec Hlen; [lia|].
  cbn [snappy_loop]. destruct (i + 4 <=? zlen src) eqn:E4; [apply Z.leb_le in E4|].
  2: { exists ls, out. split_and!; [done|lia|lia|done|lia]. }
  rewrite slice_ok by lia. cbn [obind]. set (cand := default _ _). set (tb := <[_ := _]> _).
  assert (exists ls' out', snappy_loop k src tb (i + 1) ls out = Ok (ls', out') /\ 0 <= ls' <= zlen src /\
    snappy_to out' (take (Z.to_nat ls') src) /\ zlen out' <= 6 * ls') as Hskip.
  { apply IH; [lia|lia|lia|lia|done|lia]. }
  destruct (_ && _ && _) eqn:Ec; [|exact Hskip].
  apply andb_prop in Ec as [Ec Ec3%Z.leb_le]. apply andb_prop in Ec as [Ec1%Z.leb_le Ec2%Z.leb_le].
  rewrite slice_ok by lia. cbn [obind]. case_bool_decide as Heq; [|exact Hskip].
  assert (agree src cand i 4) as Ha by (apply sub_agree; [lia|lia|done]).
  destruct (match_len_spec (S (length src)) src cand i 64 4) as (m & Hm & Hm4 & Hml & Hag);
    [lia|lia|lia|done|unfold zlen; lia|].
  rewrite Hm. cbn [obind].
  destruct (emitLiteral_to src ls i out) as (o1 & -> & Hto & Hl1); [lia|lia|lia|done|]. cbn [obind].
  pose proof (snappy_copy_tag_length (i - cand - 1) m) as Htag.
  apply IH; [lia|lia|lia|lia| |rewrite zlen_app; lia].
  apply (snappy_to_step _ (take (Z.to_nat i) src)); [done|lia|]. intros f tl.
  rewrite decode_snappy_copy by lia. unfold snappyCopy.
  assert (zlen (take (Z.to_nat i) src) = i) as -> by (unfold zlen in *; rewrite length_take; lia).
  rewrite (proj2 (Z.leb_gt _ _)), (proj2 (Z.ltb_ge _ _)) by lia. cbn [orb].
  replace (i - (i - cand - 1 + 1)) with cand by lia.
  rewrite (copy_match_agree src (Z.to_nat m) cand i); rewrite ?Z2Nat.id by lia; [done|lia|lia|done].
Qed.

Lemma snappy_roundtrip src :
  4 < zlen src <= 256 ->
  exists data, snappyEncode src = Ok data /\ snappyDecode data = Ok src.
Proof.
  intros Hlen. unfold snappyEncode, snappyBlockEncode. rewrite (proj2 (Z.leb_gt _ _)) by lia.
  destruct (snappy_loop_spec (S (length src)) src ∅ 0 0 []) as (ls & out & -> & Hls & Hto & Hl);
    [lia|lia|lia|unfold zlen; lia|apply snappy_to_nil|rewrite zlen_nil; lia|]. cbn [obind].
  destruct (emitLiteral_to src ls (zlen src) out) as (enc & -> & (k & Hk & Hdec) & He); [lia|lia|lia|done|].
  cbn [obind]. eexists. split; [reflexivity|]. pose proof (zlen_nonneg enc) as Hn.
  rewrite u32_id by mlia. unfold snappyDecode. autorewrite with zlen.
  rewrite (proj2 (Z.ltb_ge _ _)) by lia.
  rewrite take_app_length', drop_app_length' by (by rewrite length_be).
  rewrite ube_be_small by (change (2 ^ (8 * Z.of_nat 4)) with 4294967296; lia).
  rewrite (proj2 (Z.eqb_eq _ _)) by lia. cbn [negb]. unfold snappyBlockDecode.
  assert (exists f, S (length enc) = (k + S f)%nat) as [f ->].
  { exists (length enc - k)%nat. unfold zlen in *. lia. }
  specialize (Hdec (S f) []). rewrite app_nil_r in Hdec. rewrite Hdec. cbn [snappy_decode_loop].
  by rewrite take_ge by (unfold zlen; lia).
Qed.

(** ** The decoder on arbitrary input *)

Lemma ube_nonneg bs : 0 <= ube bs.
Proof. pose proof (ube_range bs). lia. Qed.

Lemma snappyCopy_total dst offset length : total (snappyCopy dst offset length).
Proof.
  unfold snappyCopy. destruct (_ || _) eqn:E; [done|].
  apply orb_false_elim in E as [E1%Z.leb_gt E2%Z.ltb_ge].
  destruct (copy_match_ok (Z.to_nat length) (zlen dst - offset) dst) as (d & -> & _); [lia|done].
Qed.

Lemma zlen_drop_le {A} n (l : list A) : zlen (drop n l) <= zlen l.
Proof. unfold zlen. rewrite length_drop. lia. Qed.

Lemma snappy_decode_loop_total fuel rest dst :
  zlen rest < Z.of_nat fuel -> total (snappy_decode_loop fuel rest dst).
Proof.
  revert rest dst. induction fuel as [|k IH]; intros rest dst Hf; [pose proof (zlen_nonneg rest); lia|].
  destruct rest as [|t rest]; cbn [snappy_decode_loop]; [done|]. rewrite zlen_cons in Hf.
  destruct (_ =? 0).
  - apply total_bind.
    + unfold snappy_literal_len. by repeat case_match.
    + intros [len r] Hr. destruct (zlen r <? len); [done|]. apply IH.
      assert (zlen r <= zlen rest) as Hle.
      { revert Hr. unfold snappy_literal_len. repeat case_match; intros [= _ <-];
          [apply zlen_drop_le|lia]. }
      pose proof (zlen_drop_le (Z.to_nat len) r). lia.
  - destruct (zlen rest <? _); [done|]. destruct (if _ =? 1 then _ else _) as [len off].
    apply total_bind; [apply snappyCopy_total|]. intros d _. apply IH.
    match goal with |- zlen (drop ?n rest) < _ => pose proof (zlen_drop_le n rest) end. lia.
Qed.

Lemma snappyDecode_total src : total (snappyDecode src).
Proof.
  unfold snappyDecode. destruct (_ <? 4); [by destruct (_ =? 0)|]. destruct (negb _); [done|].
  apply snappy_decode_loop_total. unfold zlen. lia.
Qed.

(** ** The codecs together *)

Lemma attr_codec attr c : 0 <= c < 8 ->
  CompressionCodec (Z.lor (Z.ldiff attr 7) c) = c /\ Z.ldiff (Z.lor (Z.ldiff attr 7) c) 7 = Z.ldiff attr 7.
Proof.
  intros Hc. unfold CompressionCodec. assert (Z.land c 7 = c) as H7.
  { change 7 with (Z.ones 3). rewrite Z.land_ones by lia. by apply Z.mod_small. }
  split.
  - rewrite Z.land_lor_distr_l, Z.land_ldiff, H7. done.
  - apply Z.bits_inj'. intros n Hn. rewrite Z.ldiff_spec, Z.lor_spec, Z.ldiff_spec.
    rewrite <- H7, Z.land_spec. destruct (Z.testbit attr n), (Z.testbit 7 n), (Z.testbit c n); done.
Qed.

(** C23: for every codec the broker supports (none, gzip, LZ4, and Snappy for
    data of 5 to 256 bytes), compressing record data succeeds, marks the
    attributes with the codec and keeps their other bits, and decompressing by
    those attributes gives the data back. gzip is taken to invert itself. *)
Theorem compression_roundtrip gz gunz records codec attr :
  (forall data, exists out, gz data = Ok out /\ gunz out = Ok data) ->
  0 <= codec <= 3 -> zlen records < 2147483647 ->
  (codec = CompressionSnappy -> 4 < zlen records <= 256) ->
  exists data attr', CompressRecordBatch gz records codec attr = Ok (data, attr') /\
    CompressionCodec attr' = codec /\ Z.ldiff attr' 7 = Z.ldiff attr 7 /\
    DecompressRecordBatch gunz data attr' = Ok records.
Proof.
  intros Hgz Hc Hlen Hsn. unfold CompressRecordBatch, DecompressRecordBatch.
  destruct (attr_codec attr codec) as [Ha Hd]; [lia|].
  assert (codec = 0 \/ codec = 1 \/ codec = 2 \/ codec = 3) as Hcases by lia.
  destruct Hcases as [-> | [-> | [-> | ->]]];
    unfold CompressionNone, CompressionGzip, CompressionSnappy, CompressionLZ4 in *; cbn [Z.eqb Pos.eqb].
  - rewrite Z.lor_0_r in Ha, Hd. eexists _, _. split; [reflexivity|]. by rewrite Ha.
  - destruct (Hgz records) as (out & -> & Hg). eexists _, _. split; [reflexivity|]. by rewrite Ha.
  - destruct (snappy_roundtrip records) as (out & -> & Hs); [by apply Hsn|].
    eexists _, _. split; [reflexivity|]. by rewrite Ha.
  - destruct (lz4_compress_spec records Hlen) as (out & -> & Hs).
    eexists _, _. split; [reflexivity|]. by rewrite Ha.
Qed.

(** C24: decompressing whatever bytes a client sends, under whatever attributes,
    ends with data or an error: the Snappy and LZ4 decoders never index out of
    range and always stop (for gzip this is assumed of the library). *)
Theorem decompress_total gunz records attr :
  (forall data, total (gunz data)) -> total (DecompressRecordBatch gunz records attr).
Proof.
  intros Hg. unfold DecompressRecordBatch. destruct (_ =? _); [done|]. destruct (_ =? _); [apply Hg|].
  destruct (_ =? _); [apply snappyDecode_total|]. destruct (_ =? _); [apply lz4BlockDecompress_total|done].
Qed.

(** Where Snappy does not round-trip. Data of at most four bytes gets a
    length prefix that counts the data without its tag, and the decoder
    refuses it. A short copy from 257 to 512 bytes back is decoded eight bytes
    too long, because the decoder takes the high bits of the offset for part of
    the length. *)
Theorem snappy_losses :
  (forall src, zlen src <= 4 ->
     exists data, snappyEncode src = Ok data /\ snappyDecode data = Err "snappy: length mismatch") /\
  (forall k off m tl dst, 256 <= off <= 511 -> 4 <= m < 12 -> off < zlen dst ->
     snappy_decode_loop (S k) (snappy_copy_tag off m ++ tl) dst =
     let? dst' := snappyCopy dst (off + 1) (m + 8) in snappy_decode_loop k tl dst').
Proof.
  split.
  - intros src Hs. unfold snappyEncode. rewrite (proj2 (Z.leb_le _ _)) by done. eexists. split; [reflexivity|].
    pose proof (zlen_nonneg src) as Hn. rewrite u32_id by mlia. unfold snappyDecode, appendSnappyLiteral.
    rewrite (proj2 (Z.ltb_lt (zlen src) 60)) by lia. autorewrite with zlen.
    rewrite (proj2 (Z.ltb_ge _ _)) by lia. rewrite take_app_length' by (by rewrite length_be).
    rewrite ube_be_small by (change (2 ^ (8 * Z.of_nat 4)) with 4294967296; lia).
    by rewrite (proj2 (Z.eqb_neq _ _)) by lia.
  - intros k off m tl dst Ho Hm Hd. unfold snappy_copy_tag.
    rewrite (proj2 (Z.leb_le _ _)), (proj2 (Z.ltb_lt _ _)) by lia. cbn [andb].
    assert (Z.shiftr off 8 = 1) as ->.
    { rewrite Z.shiftr_div_pow2 by lia. symmetry. apply (Z.div_unique _ _ _ (off - 256)); lia. }
    set (t := z2b (Z.lor _ _)).
    assert (Z.land (b2z t) 3 = 1 /\ Z.shiftr (b2z t) 2 = m - 4 + 8 /\ Z.land (b2z t) 224 = 32) as (Ht & Hs & Hh).
    { assert (m = 4 \/ m = 5 \/ m = 6 \/ m = 7 \/ m = 8 \/ m = 9 \/ m = 10 \/ m = 11) as Hc by lia.
      destruct_or? Hc; subst m; vm_compute; done. }
    cbn [app snappy_decode_loop]. rewrite Ht, Hs, Hh. cbn [Z.eqb Pos.eqb].
    rewrite (proj2 (Z.ltb_ge _ _)) by (rewrite zlen_cons; pose proof (zlen_nonneg tl); lia).
    assert (Z.lor (ube (take 1 (z2b off :: tl))) (Z.shiftl 32 3) = off) as ->.
    { rewrite (Z.lor_comm _ (Z.shiftl 32 3)). change (Z.shiftl 32 3) with (Z.shiftl 1 8).
      rewrite Z.lor_comm. replace (ube (take 1 (z2b off :: tl))) with (off - 256).
      - rewrite lor_disjoint by lia. lia.
      - etrans; [|symmetry; apply (ube_rev_one (z2b off))]. rewrite b2z_z2b.
        apply (Z.mod_unique _ _ 1); lia. }
    change (drop (Z.to_nat 1) (z2b off :: tl)) with tl. by replace (4 + (m - 4 + 8)) with (m + 8) by lia.
Qed.

(** Repetitive data, and a stand-in for gzip. *)
Definition demo_data : list byte :=
  mjoin (repeat [x61; x62; x63; x64; x65; x66] 5) ++ [x67].
Definition demo_gz (data : list byte) : outcome (list byte) := Ok (x1f :: data).
Definition demo_gunz (data : list byte) : outcome (list byte) :=
  match data with [] => Err "unexpected EOF" | _ :: r => Ok r end.

Lemma compression_roundtrip_witness :
  exists data attr', CompressRecordBatch demo_gz demo_data CompressionLZ4 16 = Ok (data, attr') /\
    CompressionCodec attr' = CompressionLZ4 /\ Z.ldiff attr' 7 = 16 /\
    DecompressRecordBatch demo_gunz data attr' = Ok demo_data.
Proof.
  apply (compression_roundtrip demo_gz demo_gunz demo_data CompressionLZ4 16).
  - intros data. by eexists.
  - done.
  - reflexivity.
  - done.
Defined.

Lemma decompress_total_witness : total (DecompressRecordBatch demo_gunz [x18; x4d; x22; x04; xff] CompressionLZ4).
Proof.
  apply (decompress_total demo_gunz [x18; x4d; x22; x04; xff] CompressionLZ4).
  intros data. by destruct data.
Defined.
