(* ===== verification/Index.v ===== *)
(** * The sparse offset index of a segment (internal/storage/index.go)

    Files are their contents; writes succeed, and [ReadAt] fails with EOF when
    it cannot fill its buffer. [sort.Search] is Go's binary search, proved to
    find the first index where a monotone predicate holds. *)

From stdpp Require Import prelude list strings sorting.
From Stdlib Require Import ZArith Lia.
From S2P Require Import Prelude GoBinary Wire RecordBatch.

(** ** Files *)

Definition EOF : error := "EOF".

(** [os.File.ReadAt] of [n] bytes: all of them or EOF. *)
Definition read_at (f : list byte) (pos n : Z) : outcome (list byte) :=
  if n =? 0 then Ok [] else
  if pos <? 0 then Err "negative offset" else
  if pos + n <=? zlen f then Ok (sub f pos (pos + n)) else Err EOF.

(** [os.File.WriteAt]: a gap past the end is filled with zeros. *)
Definition write_at (f : list byte) (pos : Z) (bs : list byte) : list byte :=
  take (Z.to_nat pos) f ++ replicate (Z.to_nat pos - length f) x00 ++
  bs ++ drop (Z.to_nat pos + length bs) f.

(** [os.File.Truncate] to a size not above the current one. *)
Definition truncate (f : list byte) (n : Z) : list byte := take (Z.to_nat n) f.

Lemma read_at_mid pre mid post lo n :
  0 <= lo -> 0 < n -> lo + n <= zlen mid ->
  read_at (pre ++ mid ++ post) (zlen pre + lo) n = Ok (sub mid lo (lo + n)).
Proof.
  intros Hlo Hn Hm. unfold read_at. pose proof (zlen_nonneg pre).
  pose proof (zlen_nonneg post).
  rewrite (proj2 (Z.eqb_neq n 0)), (proj2 (Z.ltb_ge _ 0)) by lia.
  rewrite (proj2 (Z.leb_le _ _)) by (rewrite !zlen_app; lia). f_equal.
  unfold sub, zlen in *. rewrite drop_app, drop_app.
  rewrite (drop_ge pre) by lia. cbn [app].
  replace (Z.to_nat (Z.of_nat (length pre) + lo) - length pre)%nat with (Z.to_nat lo) by lia.
  rewrite take_app_le by (rewrite length_drop; lia). f_equal. lia.
Qed.

Lemma write_at_end f bs : write_at f (zlen f) bs = f ++ bs.
Proof.
  unfold write_at, zlen. rewrite Nat2Z.id, take_ge, Nat.sub_diag by lia.
  rewrite drop_ge by lia. cbn [replicate app]. by rewrite app_nil_r.
Qed.

(** ** [sort.Search] *)

Fixpoint search_loop (fuel : nat) (i j : nat) (f : nat -> bool) : nat :=
  match fuel with
  | O => i
  | S k => if (i <? j)%nat then
             let h := ((i + j) / 2)%nat in
             if f h then search_loop k i h f else search_loop k (S h) j f
           else i
  end.

(** [n] iterations are enough: the interval shrinks every time. *)
Definition sort_Search (n : nat) (f : nat -> bool) : nat := search_loop n 0 n f.

Section search.
Variables (n : nat) (f : nat -> bool).
Hypothesis f_mono : forall a b, (a <= b < n)%nat -> f a = true -> f b = true.

Lemma search_loop_spec fuel i j :
  (j - i <= fuel)%nat -> (i <= j <= n)%nat ->
  (forall k, (k < i)%nat -> f k = false) ->
  (forall k, (j <= k < n)%nat -> f k = true) ->
  (search_loop fuel i j f <= n)%nat /\
  (forall k, (k < search_loop fuel i j f)%nat -> f k = false) /\
  (forall k, (search_loop fuel i j f <= k < n)%nat -> f k = true).
Proof.
  revert i j. induction fuel as [|fuel IH]; intros i j Hd Hij Hlo Hhi; cbn [search_loop].
  { assert (i = j) as -> by lia. auto with lia. }
  destruct (Nat.ltb_spec i j); [|assert (i = j) as -> by lia; auto with lia].
  assert (i <= (i + j) / 2 < j)%nat as Hh.
  { split; [apply Nat.div_le_lower_bound; lia|apply Nat.Div0.div_lt_upper_bound; lia]. }
  destruct (f ((i + j) / 2)%nat) eqn:E.
  - apply IH; [lia|lia|done|]. intros k Hk. apply (f_mono ((i + j) / 2)); [lia|done].
  - apply IH; [lia|lia| |done]. intros k Hk.
    destruct (f k) eqn:Ek; [|done]. rewrite (f_mono k ((i + j) / 2)) in E; [done|lia|done].
Qed.

Lemma sort_Search_spec :
  (sort_Search n f <= n)%nat /\
  (forall k, (k < sort_Search n f)%nat -> f k = false) /\
  (forall k, (sort_Search n f <= k < n)%nat -> f k = true).
Proof. apply search_loop_spec; [lia|lia|lia|lia]. Qed.
End search.

(** ** The index *)

Record indexEntry := mkEntry { relativeOffset : Z; position : Z }.

Definition indexEntrySize : Z := 8.

Record indexFile := mkIndex {
  ix_baseOffset : Z;
  ix_interval : Z;
  ix_file : list byte;
  ix_entries : list indexEntry;
  ix_writtenSize : Z }.

Definition encode_entry (e : indexEntry) : list byte :=
  be 4 (relativeOffset e) ++ be 4 (position e).

(** The loop of [load]: [for i := 0; i+8 <= len(buf); i += 8]. *)
Fixpoint parse_entries (fuel : nat) (b : list byte) : list indexEntry :=
  match fuel with
  | O => []
  | S k => if 8 <=? zlen b
           then mkEntry (uint_at b 0 4) (uint_at b 4 8) :: parse_entries k (drop 8 b)
           else []
  end.

(** [load]: a size that is not a multiple of eight first truncates the file,
    then reads as many bytes as it had before, so that read hits EOF. *)
Definition load (idx : indexFile) : outcome indexFile :=
  let size := zlen (ix_file idx) in
  let file := if negb (size mod indexEntrySize =? 0)
              then truncate (ix_file idx) (size / indexEntrySize * indexEntrySize)
              else ix_file idx in
  let? b := read_at file 0 size in
  Ok (mkIndex (ix_baseOffset idx) (ix_interval idx) file
        (ix_entries idx ++ parse_entries (length b) b) size).

Definition openIndex (file : list byte) (baseOffset interval : Z) : outcome indexFile :=
  load (mkIndex baseOffset interval file [] 0).

Definition index_append (idx : indexFile) (absoluteOffset pos : Z) : indexFile :=
  let e := mkEntry (u32 (absoluteOffset - ix_baseOffset idx)) (u32 pos) in
  mkIndex (ix_baseOffset idx) (ix_interval idx)
    (write_at (ix_file idx) (ix_writtenSize idx) (encode_entry e))
    (ix_entries idx ++ [e]) (ix_writtenSize idx + indexEntrySize).

Definition maybeAppend (idx : indexFile) (absoluteOffset pos : Z) : indexFile :=
  let lastPos := from_option position 0 (last (ix_entries idx)) in
  if pos - lastPos <? ix_interval idx then idx
  else index_append idx absoluteOffset pos.

Definition positionForOffset (idx : indexFile) (targetOffset : Z) : Z :=
  let rel := u32 (targetOffset - ix_baseOffset idx) in
  let n := length (ix_entries idx) in
  let i := sort_Search n (fun i => from_option (fun e => rel <? relativeOffset e) false
                                     (ix_entries idx !! i)) in
  match i with
  | O => 0
  | S j => from_option position 0 (ix_entries idx !! j)
  end.

Definition index_reset (idx : indexFile) : indexFile :=
  mkIndex (ix_baseOffset idx) (ix_interval idx) [] [] 0.

(** ** The file mirrors the entries *)

Definition wf_entry (e : indexEntry) : Prop :=
  in_u32 (relativeOffset e) /\ in_u32 (position e).

Definition entries_bytes (es : list indexEntry) : list byte := mjoin (encode_entry <$> es).

(** What the in-memory index and its file agree on. *)
Definition index_file_ok (idx : indexFile) : Prop :=
  Forall wf_entry (ix_entries idx) /\
  ix_file idx = entries_bytes (ix_entries idx) /\
  ix_writtenSize idx = zlen (ix_file idx).

Lemma zlen_encode_entry e : zlen (encode_entry e) = 8.
Proof. unfold encode_entry. by rewrite zlen_app, !zlen_be. Qed.

Lemma entries_bytes_app es fs : entries_bytes (es ++ fs) = entries_bytes es ++ entries_bytes fs.
Proof. unfold entries_bytes. by rewrite fmap_app, join_app. Qed.

Lemma entries_bytes_cons e es : entries_bytes (e :: es) = encode_entry e ++ entries_bytes es.
Proof. done. Qed.

Lemma zlen_entries_bytes es : zlen (entries_bytes es) = 8 * zlen es.
Proof.
  induction es as [|e es IH]; [done|].
  rewrite entries_bytes_cons, zlen_app, zlen_cons, zlen_encode_entry, IH. lia.
Qed.

Lemma parse_entries_bytes es fuel :
  Forall wf_entry es -> (length es <= fuel)%nat -> parse_entries fuel (entries_bytes es) = es.
Proof.
  intros Hw. revert fuel. induction Hw as [|e es [Hr Hp] Hes IH]; intros fuel Hf.
  { by destruct fuel. }
  destruct fuel as [|fuel]; [simpl in Hf; lia|]. cbn [parse_entries].
  rewrite zlen_entries_bytes, zlen_cons. pose proof (zlen_nonneg es).
  rewrite (proj2 (Z.leb_le _ _)) by lia.
  change (entries_bytes (e :: es)) with (be 4 (relativeOffset e) ++ be 4 (position e) ++ entries_bytes es).
  change (drop 8 _) with (entries_bytes es).
  rewrite IH by (simpl in Hf; lia). f_equal.
  change (uint_at _ 0 4) with (ube (be 4 (relativeOffset e))).
  change (uint_at (be 4 (relativeOffset e) ++ _) 4 8) with (ube (be 4 (position e))).
  rewrite !ube_be_small by (simpl; mlia). by destruct e.
Qed.

Lemma index_append_file_ok idx o p :
  index_file_ok idx -> index_file_ok (index_append idx o p).
Proof.
  intros (Hw & Hf & Hs). unfold index_append, index_file_ok.
  cbn [ix_file ix_entries ix_writtenSize]. rewrite Hs, write_at_end. repeat split.
  - apply Forall_app. split; [done|]. constructor; [|done]. split; apply u32_range.
  - rewrite entries_bytes_app, entries_bytes_cons, Hf. by rewrite app_nil_r.
  - rewrite zlen_app, zlen_encode_entry. reflexivity.
Qed.

Lemma maybeAppend_file_ok idx o p :
  index_file_ok idx -> index_file_ok (maybeAppend idx o p).
Proof. intros. unfold maybeAppend. destruct (_ <? _); auto using index_append_file_ok. Qed.

Lemma index_reset_file_ok idx : index_file_ok (index_reset idx).
Proof. repeat split. constructor. Qed.

(** Reading a whole file back. *)
Lemma read_at_all f n : n = zlen f -> read_at f 0 n = Ok f.
Proof.
  intros ->. unfold read_at. destruct (Z.eqb_spec (zlen f) 0) as [E|E].
  - f_equal. symmetry. apply nil_length_inv. unfold zlen in E. lia.
  - rewrite (proj2 (Z.leb_le _ _)) by lia. simpl. f_equal.
    unfold sub, zlen. rewrite drop_0, take_ge by lia. done.
Qed.

(** Reopening the file of a consistent index gives the index back, so the
    in-memory entries and the file never drift apart. *)
Lemma openIndex_reload idx :
  index_file_ok idx ->
  openIndex (ix_file idx) (ix_baseOffset idx) (ix_interval idx) = Ok idx.
Proof.
  intros (Hw & Hf & Hs). unfold openIndex, load. cbn [ix_file ix_baseOffset ix_interval ix_entries].
  rewrite Hf, zlen_entries_bytes. unfold indexEntrySize.
  rewrite Z.mul_comm, Z.mod_mul by lia. cbn [Z.eqb negb].
  rewrite read_at_all by (rewrite zlen_entries_bytes; lia). cbn [obind app].
  rewrite parse_entries_bytes; [|done|].
  - rewrite Hf, zlen_entries_bytes in Hs. rewrite Z.mul_comm, <- Hs, <- Hf. by destruct idx.
  - pose proof (zlen_entries_bytes (ix_entries idx)). unfold zlen in *. lia.
Qed.

(** A torn index file (a size that is not a multiple of the entry size) cannot
    be opened: the read after the truncation asks for the old size. *)
Lemma openIndex_torn file base interval :
  zlen file mod 8 <> 0 -> openIndex file base interval = Err EOF.
Proof.
  intros Hm. unfold openIndex, load, indexEntrySize. cbn [ix_file].
  rewrite (proj2 (Z.eqb_neq _ 0)) by done. cbn [negb].
  pose proof (zlen_nonneg file). pose proof (Z.div_mod (zlen file) 8 ltac:(lia)) as Hd.
  pose proof (Z.mod_pos_bound (zlen file) 8 ltac:(lia)).
  assert (zlen (truncate file (zlen file / 8 * 8)) = zlen file / 8 * 8) as Ht.
  { unfold truncate. unfold zlen at 1. rewrite length_take. unfold zlen in *. lia. }
  unfold read_at. rewrite (proj2 (Z.eqb_neq _ 0)) by lia. cbn [Z.ltb Z.compare].
  rewrite Ht. rewrite (proj2 (Z.leb_gt _ _)) by lia. done.
Qed.

(** ** Lookup *)

(** Entries strictly ascending in offset. *)
Definition ascending (es : list indexEntry) : Prop :=
  forall i j a b, (i < j)%nat -> es !! i = Some a -> es !! j = Some b ->
  relativeOffset a < relativeOffset b.

(** The binary search finds the last entry at or below the target. *)
Lemma positionForOffset_spec idx target :
  ascending (ix_entries idx) ->
  let rel := u32 (target - ix_baseOffset idx) in
  (positionForOffset idx target = 0 /\
     Forall (fun e => rel < relativeOffset e) (ix_entries idx)) \/
  exists k e, ix_entries idx !! k = Some e /\ relativeOffset e <= rel /\
    positionForOffset idx target = position e /\
    (forall j e', (k < j)%nat -> ix_entries idx !! j = Some e' -> rel < relativeOffset e').
Proof.
  intros Hasc rel. unfold positionForOffset. fold rel.
  set (f := fun i => from_option (fun e => rel <? relativeOffset e) false (ix_entries idx !! i)).
  destruct (sort_Search_spec (length (ix_entries idx)) f) as (Hn & Hlo & Hhi).
  { intros a b Hab Ha. unfold f in *.
    destruct (lookup_lt_is_Some_2 (ix_entries idx) a ltac:(lia)) as [ea Ea].
    destruct (lookup_lt_is_Some_2 (ix_entries idx) b ltac:(lia)) as [eb Eb].
    rewrite Ea in Ha. rewrite Eb. simpl in *. apply Z.ltb_lt in Ha. apply Z.ltb_lt.
    destruct (decide (a = b)) as [->|]; [by simplify_eq|].
    pose proof (Hasc a b ea eb ltac:(lia) Ea Eb). lia. }
  assert (forall j e', (sort_Search (length (ix_entries idx)) f <= j)%nat ->
            ix_entries idx !! j = Some e' -> rel < relativeOffset e') as Hup.
  { intros j e' Hj Ej. pose proof (lookup_lt_Some _ _ _ Ej).
    pose proof (Hhi j ltac:(lia)) as Hf. unfold f in Hf. rewrite Ej in Hf.
    simpl in Hf. by apply Z.ltb_lt in Hf. }
  destruct (sort_Search _ f) as [|k].
  - left. split; [done|]. apply Forall_lookup. intros j e Ej. apply (Hup j); [lia|done].
  - right. destruct (lookup_lt_is_Some_2 (ix_entries idx) k ltac:(lia)) as [e Ek].
    exists k, e. rewrite Ek. repeat split; [|].
    + pose proof (Hlo k ltac:(lia)) as Hf. unfold f in Hf. rewrite Ek in Hf. simpl in Hf.
      by apply Z.ltb_ge in Hf.
    + intros j e' Hj Ej. apply (Hup j); [lia|done].
Qed.
