(* ===== verification/Segment.v ===== *)
(** * Log segments (internal/storage/record.go, segment.go)

    A segment is a log file of record batches and its sparse index. The
    operations below are the methods of [Segment]; [seg_log] and [seg_index]
    are [None] where the Go pointers are nil (an offloaded segment), a nil
    dereference is [Panic]. Offsets and sizes are 64-bit in the source and stay
    far below 2^63; the 32-bit conversions are written out. Loops run on the
    length of the log as fuel: every iteration consumes at least thirteen
    bytes, and running out of fuel is an error the theorems exclude. *)

From stdpp Require Import prelude list strings.
From Stdlib Require Import ZArith Lia.
From S2P Require Import Prelude GoBinary Wire RecordBatch Index.

(** ** The batch header as the storage layer reads it (record.go) *)

Record RecordBatchHeader := mkRBH {
  h_BaseOffset : Z;
  h_Length : Z;
  h_LastOffsetDelta : Z;
  h_Count : Z }.

Definition batchHeaderSize : Z := 61.

Definition ParseRecordBatchHeader (raw : list byte) : outcome RecordBatchHeader :=
  if zlen raw <? batchHeaderSize then Err "record batch too short" else
  if negb (i8 (uint_at raw 16 17) =? 2) then Err "unsupported record batch magic" else
  Ok (mkRBH (i64 (uint_at raw 0 8)) (i32 (uint_at raw 8 12))
        (i32 (uint_at raw 23 27)) (i32 (uint_at raw 57 61))).

Definition BatchTotalSize (h : RecordBatchHeader) : Z := 12 + h_Length h.

(** ** Segments *)

Record Segment := mkSegment {
  seg_baseOffset : Z;
  seg_log : option (list byte);
  seg_index : option indexFile;
  seg_nextOffset : Z;
  seg_size : Z;
  seg_maxSegmentBytes : Z;
  seg_indexInterval : Z;
  seg_remote : bool;
  seg_stub : option (gostring * gostring * Z);
  seg_syncedOffset : Z;
  seg_syncedBytes : Z;
  seg_lastSyncMs : Z }.

(** The files of one segment on disk: the log, the index, and the stub an
    offloaded segment leaves behind (its two object keys and next offset, which
    the source writes as three lines of text). *)
Record segFiles := mkFiles {
  f_log : option (list byte);
  f_index : option (list byte);
  f_remote : option (gostring * gostring * Z) }.

(** The scan of [recover]: the position and the next offset it stops at. *)
Fixpoint recover_loop (fuel : nat) (log : list byte) (size pos next : Z)
  : outcome (Z * Z) :=
  match fuel with
  | O => Err no_fuel
  | S k =>
      if pos <? size then
        match read_at log pos 12 with
        | Ok buf =>
            let length := i32 (uint_at buf 8 12) in
            if (length <=? 0) || (size <? pos + 12 + length) then Ok (pos, next) else
            let? delta := read_at log (pos + 23) 4 in
            recover_loop k log size (pos + 12 + length) (next + i32 (ube delta) + 1)
        | Err e => Err "recover read"
        | Panic => Panic
        end
      else Ok (pos, next)
  end.

Definition recover (s : Segment) : outcome Segment :=
  if seg_size s =? 0 then Ok s else
  let log := default [] (seg_log s) in
  let? (pos, next) := recover_loop (S (length log)) log (seg_size s) 0 (seg_nextOffset s) in
  let log' := if pos =? seg_size s then log else truncate log pos in
  Ok (mkSegment (seg_baseOffset s) (Some log') (seg_index s) next pos
        (seg_maxSegmentBytes s) (seg_indexInterval s) (seg_remote s) (seg_stub s)
        (seg_syncedOffset s) (seg_syncedBytes s) (seg_lastSyncMs s)).

(** [openSegment]: missing files are created empty. *)
Definition openSegment (f : segFiles) (baseOffset maxSegmentBytes indexInterval : Z)
  : outcome Segment :=
  match f_remote f with
  | Some (logKey, indexKey, next) =>
      Ok (mkSegment baseOffset None None next 0 maxSegmentBytes indexInterval true
            (Some (logKey, indexKey, next)) 0 0 0)
  | None =>
      let log := default [] (f_log f) in
      let? idx := openIndex (default [] (f_index f)) baseOffset indexInterval in
      let? s := recover (mkSegment baseOffset (Some log) (Some idx) baseOffset (zlen log)
                           maxSegmentBytes indexInterval false None 0 0 0) in
      Ok (mkSegment (seg_baseOffset s) (seg_log s) (seg_index s) (seg_nextOffset s)
            (seg_size s) (seg_maxSegmentBytes s) (seg_indexInterval s) (seg_remote s) (seg_stub s)
            (seg_nextOffset s) (seg_size s) (seg_lastSyncMs s))
  end.

(** [copy(raw[0:8], base)]: the broker stamps the base offset. *)
Definition set_base (raw : list byte) (base : Z) : list byte :=
  be 8 (u64 base) ++ drop 8 raw.

Definition append (s : Segment) (raw : list byte) : outcome (Z * Segment) :=
  let? h := ParseRecordBatchHeader raw in
  if 2147483647 <? seg_nextOffset s + h_LastOffsetDelta h + 1 - seg_baseOffset s
  then Err "segment offset overflow" else
  let assigned := seg_nextOffset s in
  let raw' := set_base raw assigned in
  match seg_log s, seg_index s with
  | None, _ => Err "invalid argument"
  | Some _, None => Panic
  | Some log, Some idx =>
      let pos := seg_size s in
      Ok (assigned,
          mkSegment (seg_baseOffset s) (Some (write_at log pos raw'))
            (Some (maybeAppend idx assigned pos))
            (seg_nextOffset s + (h_LastOffsetDelta h + 1)) (pos + zlen raw')
            (seg_maxSegmentBytes s) (seg_indexInterval s) (seg_remote s) (seg_stub s)
            (seg_syncedOffset s) (seg_syncedBytes s) (seg_lastSyncMs s))
  end.

Definition full (s : Segment) : bool := seg_maxSegmentBytes s <=? seg_size s.

(** The loop of [read]; on a failed [ReadAt] of the batch body the Go code
    returns what it has with the error. *)
Fixpoint read_loop (fuel : nat) (log : list byte) (size offset maxBytes pos : Z)
    (out : list byte) : outcome (list byte) :=
  match fuel with
  | O => Err no_fuel
  | S k =>
      if (pos <? size) && (i32 (zlen out) <? maxBytes) then
        match read_at log pos 12 with
        | Ok prefix =>
            let length := i32 (uint_at prefix 8 12) in
            if (length <=? 0) || (size <? pos + 12 + length) then Ok out else
            let total := 12 + length in
            if total <? batchHeaderSize then Ok out else
            let? data := read_at log pos total in
            let baseOffset := i64 (uint_at data 0 8) in
            let lastOffsetDelta := i32 (uint_at data 23 27) in
            if baseOffset + lastOffsetDelta <? offset
            then read_loop k log size offset maxBytes (pos + total) out
            else read_loop k log size offset maxBytes (pos + total) (out ++ data)
        | Err _ => Ok out
        | Panic => Panic
        end
      else Ok out
  end.

Definition read (s : Segment) (offset maxBytes : Z) : outcome (list byte) :=
  if maxBytes <=? 0 then Ok [] else
  match seg_index s with
  | None => Panic
  | Some idx =>
      let log := default [] (seg_log s) in
      read_loop (S (length log)) log (seg_size s) offset maxBytes
        (positionForOffset idx offset) []
  end.

Definition logEndOffset (s : Segment) : Z := seg_nextOffset s.

(** The first loop of [truncateTo]: the position of the first batch that
    reaches [target]. *)
Fixpoint truncate_loop (fuel : nat) (log : list byte) (size target pos : Z) : outcome Z :=
  match fuel with
  | O => Err no_fuel
  | S k =>
      if pos <? size then
        let? prefix := read_at log pos 12 in
        let baseOffset := i64 (uint_at prefix 0 8) in
        let length := i32 (uint_at prefix 8 12) in
        if (length <=? 0) || (size <? pos + 12 + length) then Ok pos else
        let lastOffsetDelta := match read_at log (pos + 23) 4 with
                               | Ok delta => i32 (ube delta)
                               | _ => 0
                               end in
        if target <=? baseOffset + lastOffsetDelta then Ok pos
        else truncate_loop k log size target (pos + 12 + length)
      else Ok pos
  end.

(** The second loop: the index is rebuilt from the batches that stay. *)
Fixpoint reindex_loop (fuel : nat) (log : list byte) (size scan : Z) (idx : indexFile)
  : outcome indexFile :=
  match fuel with
  | O => Err no_fuel
  | S k =>
      if scan <? size then
        match read_at log scan 12 with
        | Ok prefix =>
            let baseOffset := i64 (uint_at prefix 0 8) in
            let length := i32 (uint_at prefix 8 12) in
            if (length <=? 0) || (size <? scan + 12 + length) then Ok idx else
            reindex_loop k log size (scan + 12 + length) (maybeAppend idx baseOffset scan)
        | _ => Ok idx
        end
      else Ok idx
  end.

Definition with_log (s : Segment) (log : option (list byte)) (idx : option indexFile)
    (next size : Z) : Segment :=
  mkSegment (seg_baseOffset s) log idx next size (seg_maxSegmentBytes s)
    (seg_indexInterval s) (seg_remote s) (seg_stub s) (seg_syncedOffset s) (seg_syncedBytes s)
    (seg_lastSyncMs s).

Definition truncateTo (s : Segment) (target : Z) : outcome Segment :=
  if target <=? seg_baseOffset s then
    Ok (with_log s ((fun _ => []) <$> seg_log s) (index_reset <$> seg_index s)
          (seg_baseOffset s) 0)
  else
    match seg_index s, seg_log s with
    | None, _ => Panic
    | Some _, None => Err "invalid argument"
    | Some idx, Some log =>
        let? pos := truncate_loop (S (length log)) log (seg_size s) target
                      (positionForOffset idx target) in
        let log' := truncate log pos in
        let? idx' := reindex_loop (S (length log')) log' pos 0 (index_reset idx) in
        Ok (with_log s (Some log') (Some idx') target pos)
    end.

(** [sync] with the clock as an argument. *)
Definition sync (s : Segment) (now : Z) : Segment :=
  match seg_log s with
  | None => s
  | Some _ =>
      mkSegment (seg_baseOffset s) (seg_log s) (seg_index s) (seg_nextOffset s)
        (seg_size s) (seg_maxSegmentBytes s) (seg_indexInterval s) (seg_remote s) (seg_stub s)
        (seg_nextOffset s) (seg_size s) now
  end.

(** [markRemote]: the stub takes the object keys and the next offset, the files
    are closed and removed. *)
Definition markRemote (s : Segment) (logKey indexKey : gostring) : Segment :=
  mkSegment (seg_baseOffset s) None None (seg_nextOffset s) 0 (seg_maxSegmentBytes s)
    (seg_indexInterval s) true (Some (logKey, indexKey, seg_nextOffset s))
    (seg_syncedOffset s) (seg_syncedBytes s) (seg_lastSyncMs s).

(** [remoteKeys]: the keys in the stub file. *)
Definition remoteKeys (s : Segment) : outcome (gostring * gostring) :=
  match seg_stub s with
  | Some (logKey, indexKey, _) => Ok (logKey, indexKey)
  | None => Err "no such file or directory"
  end.

(** [restoreFrom]: write both files, drop the stub, reopen. *)
Definition restoreFrom (s : Segment) (logData indexData : list byte) : outcome Segment :=
  openSegment (mkFiles (Some logData) (Some indexData) None) (seg_baseOffset s)
    (seg_maxSegmentBytes s) (seg_indexInterval s).

(** ** The abstract log: a list of batches *)

Definition raw_base (raw : list byte) : Z := i64 (uint_at raw 0 8).
Definition raw_length (raw : list byte) : Z := i32 (uint_at raw 8 12).
Definition raw_lod (raw : list byte) : Z := i32 (uint_at raw 23 27).
Definition raw_last (raw : list byte) : Z := raw_base raw + raw_lod raw.

(** A batch whose length field is the length it has. *)
Definition wf_raw (raw : list byte) : Prop :=
  61 <= zlen raw /\ i8 (uint_at raw 16 17) = 2 /\
  raw_length raw = zlen raw - 12 /\ 0 <= raw_lod raw.

#[global] Instance wf_raw_dec raw : Decision (wf_raw raw).
Proof. unfold wf_raw. apply _. Defined.

(** Offsets follow each other without a gap from [o] to [e]. *)
Fixpoint chain (o : Z) (bs : list (list byte)) (e : Z) : Prop :=
  match bs with
  | [] => o = e
  | b :: r => raw_base b = o /\ chain (o + raw_lod b + 1) r e
  end.

(** An index entry that points at the start of a batch. *)
Definition entry_at (base : Z) (bs : list (list byte)) (e : indexEntry) : Prop :=
  exists bs1 b bs2, bs = bs1 ++ b :: bs2 /\ position e = zlen (mjoin bs1) /\
    base + relativeOffset e = raw_base b.

(** The invariant of a local segment that holds the batches [bs]. *)
Record seg_inv (s : Segment) (bs : list (list byte)) : Prop := {
  si_log : seg_log s = Some (mjoin bs);
  si_size : seg_size s = zlen (mjoin bs);
  si_wf : Forall wf_raw bs;
  si_chain : chain (seg_baseOffset s) bs (seg_nextOffset s);
  si_base : 0 <= seg_baseOffset s;
  si_span : seg_nextOffset s - seg_baseOffset s <= 2147483647;
  si_next : seg_nextOffset s <= 4611686018427387904;
  si_bytes : seg_size s <= 4294967295;
  si_local : seg_remote s = false;
  si_index : exists idx, seg_index s = Some idx /\
    ix_baseOffset idx = seg_baseOffset s /\ index_file_ok idx /\
    ix_interval idx = seg_indexInterval s /\
    Forall (entry_at (seg_baseOffset s) bs) (ix_entries idx) /\
    ascending (ix_entries idx) }.

(** *** Chains *)

Lemma chain_app o bs cs e :
  chain o (bs ++ cs) e <-> exists m, chain o bs m /\ chain m cs e.
Proof.
  revert o. induction bs as [|b bs IH]; intros o; simpl.
  - split; [eauto|]. by intros (m & -> & ?).
  - rewrite IH. split; [intros (? & m & ? & ?)|intros (m & [? ?] & ?)]; eauto.
Qed.

Lemma chain_mono o bs e : Forall wf_raw bs -> chain o bs e -> o <= e.
Proof.
  intros Hw. revert o. induction Hw as [|b bs (_ & _ & _ & Hd) _ IH]; intros o; simpl; [lia|].
  intros [_ Hc]. apply IH in Hc. lia.
Qed.

Lemma chain_bounds o bs e :
  Forall wf_raw bs -> chain o bs e ->
  Forall (fun b => o <= raw_base b /\ raw_base b <= raw_last b /\ raw_last b < e) bs.
Proof.
  intros Hw. revert o. induction Hw as [|b bs Hb Hw IH]; intros o Hc; [constructor|].
  destruct Hc as [Hbase Hc]. pose proof (chain_mono _ _ _ Hw Hc).
  destruct Hb as (_ & _ & _ & Hd). constructor; [unfold raw_last; lia|].
  eapply Forall_impl; [by apply IH|]. simpl. intros. lia.
Qed.

(** The batches before a batch end below its base offset. *)
Lemma chain_before o bs1 b bs2 e :
  Forall wf_raw bs1 -> chain o (bs1 ++ b :: bs2) e ->
  Forall (fun c => raw_last c < raw_base b) bs1.
Proof.
  intros Hw (m & H1 & Hb & _)%chain_app.
  eapply Forall_impl; [by apply (chain_bounds o bs1 m)|]. simpl. intros. lia.
Qed.

(** The batch that holds a given offset. *)
Lemma chain_find o bs e off :
  chain o bs e -> o <= off < e ->
  exists bs1 b bs2, bs = bs1 ++ b :: bs2 /\ raw_base b <= off <= raw_last b.
Proof.
  revert o. induction bs as [|b bs IH]; intros o; simpl; [intros; lia|].
  intros [Hb Hc] Ho. destruct (decide (off <= raw_last b)).
  - exists [], b, bs. split; [done|]. lia.
  - unfold raw_last in *. destruct (IH _ Hc ltac:(lia)) as (bs1 & c & bs2 & -> & Hcc).
    by exists (b :: bs1), c, bs2.
Qed.

(** *** Stamping the base offset *)

Lemma sub_set_base raw a lo hi : 8 <= lo -> sub (set_base raw a) lo hi = sub raw lo hi.
Proof.
  intros Hlo. unfold sub, set_base. f_equal.
  rewrite drop_app, (drop_ge (be 8 _)), length_be by (rewrite length_be; lia).
  cbn [app]. rewrite drop_drop. f_equal. lia.
Qed.

Lemma zlen_set_base raw a : 8 <= zlen raw -> zlen (set_base raw a) = zlen raw.
Proof.
  unfold set_base, zlen. rewrite length_app, length_be, length_drop. lia.
Qed.

Lemma raw_base_set_base raw a : in_i64 a -> raw_base (set_base raw a) = a.
Proof. exact (i64_ube_be a). Qed.

Lemma raw_lod_set_base raw a : raw_lod (set_base raw a) = raw_lod raw.
Proof. unfold raw_lod, uint_at. by rewrite sub_set_base by lia. Qed.

Lemma wf_raw_set_base raw a : wf_raw raw -> wf_raw (set_base raw a).
Proof.
  intros (Hl & Hm & Hlen & Hd). unfold wf_raw. rewrite raw_lod_set_base.
  rewrite zlen_set_base by lia. unfold raw_length, uint_at in *.
  rewrite !sub_set_base by lia. auto.
Qed.

Lemma ParseRecordBatchHeader_wf raw :
  wf_raw raw ->
  ParseRecordBatchHeader raw
  = Ok (mkRBH (raw_base raw) (raw_length raw) (raw_lod raw) (i32 (uint_at raw 57 61))).
Proof.
  intros (Hl & Hm & _). unfold ParseRecordBatchHeader, batchHeaderSize.
  rewrite (proj2 (Z.ltb_ge _ _)), Hm by lia. done.
Qed.

(** *** The index while appending *)

Lemma entry_at_snoc base bs b e : entry_at base bs e -> entry_at base (bs ++ [b]) e.
Proof.
  intros (bs1 & c & bs2 & -> & Hp & Hr). exists bs1, c, (bs2 ++ [b]).
  by rewrite <- app_assoc.
Qed.

Lemma ascending_snoc es e :
  ascending es -> Forall (fun x => relativeOffset x < relativeOffset e) es ->
  ascending (es ++ [e]).
Proof.
  intros Ha Hf i j a b Hij Hi Hj.
  apply lookup_app_Some in Hj as [Hj|[Hlen Hj]].
  - pose proof (lookup_lt_Some _ _ _ Hj). rewrite lookup_app_l in Hi by lia. exact (Ha i j a b Hij Hi Hj).
  - apply list_lookup_singleton_Some in Hj as [Hz ->].
    rewrite lookup_app_l in Hi by lia. rewrite Forall_lookup in Hf. exact (Hf i a Hi).
Qed.

Lemma maybeAppend_inv base bs next idx pos b :
  ix_baseOffset idx = base -> Forall wf_raw bs -> chain base bs next ->
  next - base <= 2147483647 -> pos = zlen (mjoin bs) -> pos <= 4294967295 ->
  raw_base b = next ->
  Forall (entry_at base bs) (ix_entries idx) -> ascending (ix_entries idx) ->
  Forall (entry_at base (bs ++ [b])) (ix_entries (maybeAppend idx next pos)) /\
  ascending (ix_entries (maybeAppend idx next pos)).
Proof.
  intros Hb Hw Hc Hsp Hp Hp32 Hraw He Ha. unfold maybeAppend, index_append.
  pose proof (chain_mono _ _ _ Hw Hc).
  assert (Forall (entry_at base (bs ++ [b])) (ix_entries idx)) as He'
    by (eapply Forall_impl; [exact He|]; intros; by apply entry_at_snoc).
  destruct (_ <? _); [done|]. cbn [ix_entries].
  pose proof (zlen_nonneg (mjoin bs)).
  rewrite (u32_id pos), Hb, (u32_id (next - base)) by mlia.
  split.
  - apply Forall_app. split; [done|]. constructor; [|done].
    exists bs, b, []. cbn [position relativeOffset]. split_and!; [done|done|lia].
  - apply ascending_snoc; [done|]. eapply Forall_impl; [exact He|].
    intros e (bs1 & c & bs2 & -> & _ & Hr). cbn [relativeOffset].
    pose proof (chain_bounds _ _ _ Hw Hc) as Hbd.
    apply Forall_app in Hbd as [_ Hbd]. apply Forall_cons in Hbd as [Hbc _]. lia.
Qed.

Lemma maybeAppend_meta idx o p :
  ix_baseOffset (maybeAppend idx o p) = ix_baseOffset idx /\
  ix_interval (maybeAppend idx o p) = ix_interval idx.
Proof. unfold maybeAppend. by destruct (_ <? _). Qed.

(** [append] stamps the next offset on the batch, puts it at the end of the
    log and keeps the segment invariant; the returned offset is the old log
    end, the new log end lies one past the batch's last record. *)
Lemma append_step s bs raw :
  seg_inv s bs -> wf_raw raw ->
  seg_nextOffset s + raw_lod raw + 1 - seg_baseOffset s <= 2147483647 ->
  seg_nextOffset s + raw_lod raw + 1 <= 4611686018427387904 ->
  seg_size s + zlen raw <= 4294967295 ->
  exists s', append s raw = Ok (seg_nextOffset s, s') /\
    seg_inv s' (bs ++ [set_base raw (seg_nextOffset s)]) /\
    seg_nextOffset s' = seg_nextOffset s + raw_lod raw + 1 /\
    seg_baseOffset s' = seg_baseOffset s /\
    seg_maxSegmentBytes s' = seg_maxSegmentBytes s /\
    seg_indexInterval s' = seg_indexInterval s.
Proof.
  intros [Hlog Hsize Hw Hc Hbase Hsp Hn Hby Hloc (idx & Hidx & Hib & Hif & Hii & Hie & Hia)] Hr Ho Hn' Hs'.
  unfold append. rewrite ParseRecordBatchHeader_wf by done. cbn [obind h_LastOffsetDelta].
  rewrite (proj2 (Z.ltb_ge _ _)) by lia. rewrite Hlog, Hidx.
  pose proof (chain_mono _ _ _ Hw Hc).
  pose proof Hr as (H61 & _).
  eexists. split; [reflexivity|]. cbn [seg_nextOffset seg_baseOffset seg_maxSegmentBytes seg_indexInterval].
  split; [|split_and!; try done; lia].
  assert (raw_base (set_base raw (seg_nextOffset s)) = seg_nextOffset s) as Hrb
    by (apply raw_base_set_base; mlia).
  constructor; cbn [seg_log seg_size seg_index seg_baseOffset seg_nextOffset seg_remote seg_indexInterval].
  - by rewrite Hsize, write_at_end, mjoin_snoc.
  - by rewrite Hsize, mjoin_snoc, !zlen_app.
  - apply Forall_app. split; [done|]. constructor; [by apply wf_raw_set_base|done].
  - apply chain_app. exists (seg_nextOffset s). split; [done|]. simpl.
    rewrite raw_lod_set_base. split; [done|lia].
  - done.
  - lia.
  - lia.
  - rewrite zlen_set_base by lia. lia.
  - done.
  - exists (maybeAppend idx (seg_nextOffset s) (seg_size s)). split; [done|].
    destruct (maybeAppend_meta idx (seg_nextOffset s) (seg_size s)) as [-> ->].
    destruct (maybeAppend_inv (seg_baseOffset s) bs (seg_nextOffset s) idx (seg_size s)
                (set_base raw (seg_nextOffset s))) as [? ?]; [done..|].
    auto using maybeAppend_file_ok.
Qed.
