(* ===== verification/SegmentOps.v ===== *)
(** * Reading, recovering and truncating a segment

    The theorems of segment.go's [read], [recover] and [truncateTo] against the
    abstract log of Segment.v: reading through the sparse index is the same as
    scanning from the start, a reopened segment is the one that was closed, a
    torn tail is cut off. *)

From stdpp Require Import prelude list strings.
From Stdlib Require Import ZArith Lia.
From S2P Require Import Prelude GoBinary Wire RecordBatch Index Segment.

(** ** Reading a batch out of the log *)

Section at_batch.
Variables (bs1 bs2 : list (list byte)) (b tl : list byte).
Hypothesis b_wf : wf_raw b.
Abbreviation log := (mjoin bs1 ++ b ++ tl).

Lemma uint_at_sub m lo hi : 0 <= lo -> lo <= hi <= m ->
  uint_at (sub b 0 m) lo hi = uint_at b lo hi.
Proof.
  intros Hlo Hhi. unfold uint_at, sub. f_equal.
  rewrite drop_0, skipn_firstn_comm, take_take. f_equal. lia.
Qed.

Lemma read_at_batch n :
  0 < n <= zlen b -> read_at log (zlen (mjoin bs1)) n = Ok (sub b 0 n).
Proof.
  intros Hn. pose proof (read_at_mid (mjoin bs1) b tl 0 n) as H.
  rewrite Z.add_0_r in H. apply H; lia.
Qed.

Lemma sub_whole : sub b 0 (zlen b) = b.
Proof. unfold sub, zlen. rewrite drop_0, take_ge by lia. done. Qed.

(** The 12-byte prefix and the delta the loops read. *)
Lemma batch_prefix :
  exists prefix, read_at log (zlen (mjoin bs1)) 12 = Ok prefix /\
    i32 (uint_at prefix 8 12) = zlen b - 12 /\ i64 (uint_at prefix 0 8) = raw_base b.
Proof.
  destruct b_wf as (H61 & _ & Hlen & _).
  exists (sub b 0 12). split; [apply read_at_batch; lia|].
  rewrite !uint_at_sub by lia. split; [exact Hlen|done].
Qed.

Lemma batch_delta :
  exists delta, read_at log (zlen (mjoin bs1) + 23) 4 = Ok delta /\ i32 (ube delta) = raw_lod b.
Proof.
  destruct b_wf as (H61 & _). exists (sub b 23 27). split; [|done].
  apply (read_at_mid (mjoin bs1) b tl 23 4); lia.
Qed.

Lemma batch_fits : zlen (mjoin bs1) + zlen b <= zlen log.
Proof. rewrite !zlen_app. pose proof (zlen_nonneg tl). lia. Qed.
End at_batch.

(** ** Encoded batches in the log *)

Definition with_base (b : RecordBatch) (off : Z) : RecordBatch :=
  mkBatch off (rb_PartitionLeaderEpoch b) (rb_Magic b) (rb_CRC b) (rb_Attributes b)
    (rb_LastOffsetDelta b) (rb_BaseTimestamp b) (rb_MaxTimestamp b) (rb_ProducerID b)
    (rb_ProducerEpoch b) (rb_BaseSequence b) (rb_Records b).

Lemma set_base_layout b crc records off :
  set_base (batch_layout b crc records) off = batch_layout (with_base b off) crc records.
Proof. reflexivity. Qed.

Lemma layout_lod b crc records :
  wf_batch b -> in_u32 crc -> raw_lod (batch_layout b crc records) = filled_last_offset_delta b.
Proof. intros Hw Hc. by destruct (batch_fields b crc records Hw Hc) as (_ & _ & _ & _ & _ & _ & ? & _). Qed.

Lemma layout_wf b crc :
  wf_batch b -> in_u32 crc -> 0 <= filled_last_offset_delta b ->
  wf_raw (batch_layout b crc (encoded_records b)).
Proof.
  intros Hw Hc Hd. destruct (batch_fields b crc (encoded_records b) Hw Hc)
    as (_ & Hl & _ & Hm & _ & _ & Hlod & _).
  destruct Hw as (_ & _ & _ & _ & _ & _ & _ & _ & _ & _ & _ & Hn).
  pose proof (zlen_nonneg (encoded_records b)). unfold wf_raw, raw_length, raw_lod.
  rewrite Hl, Hm, Hlod, batch_layout_len. unfold batch_length.
  rewrite (i32_id (zlen _)), (i32_id (49 + _)), i32_id by mlia. split_and!; [lia|done|lia|done].
Qed.

(** ** Reading *)

(** The reference: scan the batches in order, skip those that end before
    [offset], stop once [maxBytes] are reached. *)
Fixpoint spec_read (offset maxBytes : Z) (bs : list (list byte)) (out : list byte) : list byte :=
  match bs with
  | [] => out
  | b :: r =>
      if zlen out <? maxBytes then
        spec_read offset maxBytes r (if raw_last b <? offset then out else out ++ b)
      else out
  end.

Lemma spec_read_skip offset maxBytes bs1 bs2 :
  0 < maxBytes -> Forall (fun b => raw_last b < offset) bs1 ->
  spec_read offset maxBytes (bs1 ++ bs2) [] = spec_read offset maxBytes bs2 [].
Proof.
  intros Hm. induction 1 as [|b bs1 Hb _ IH]; [done|]. cbn [app spec_read].
  rewrite (proj2 (Z.ltb_lt _ _)) by (rewrite (@zlen_nil byte); lia).
  by rewrite (proj2 (Z.ltb_lt _ _)) by lia.
Qed.

Lemma read_loop_spec fuel offset maxBytes bs1 bs2 out :
  Forall wf_raw bs2 ->
  zlen out + zlen (mjoin bs2) <= 2147483647 -> (length (mjoin bs2) < fuel)%nat ->
  read_loop fuel (mjoin (bs1 ++ bs2)) (zlen (mjoin (bs1 ++ bs2))) offset maxBytes
    (zlen (mjoin bs1)) out
  = Ok (spec_read offset maxBytes bs2 out).
Proof.
  intros Hw. revert fuel bs1 out. induction Hw as [|b bs2 Hb _ IH];
    intros fuel bs1 out Hlen Hfuel; (destruct fuel as [|fuel]; [lia|]); cbn [read_loop spec_read].
  { rewrite app_nil_r, Z.ltb_irrefl. done. }
  rewrite mjoin_cons in Hlen, Hfuel. rewrite zlen_app in Hlen. rewrite length_app in Hfuel.
  pose proof (zlen_nonneg out). pose proof (zlen_nonneg (mjoin bs2)).
  pose proof Hb as (H61 & _ & _ & _).
  rewrite mjoin_app_cons.
  pose proof (batch_fits bs1 b (mjoin bs2)) as Hfit.
  rewrite (proj2 (Z.ltb_lt (zlen (mjoin bs1)) _)) by lia.
  rewrite (i32_id (zlen out)) by mlia. cbn [andb].
  destruct (zlen out <? maxBytes); [|done].
  destruct (batch_prefix bs1 b (mjoin bs2) Hb) as (prefix & -> & -> & _).
  rewrite (proj2 (Z.leb_gt _ _)), (proj2 (Z.ltb_ge _ _)) by lia. cbn [orb].
  unfold batchHeaderSize. rewrite (proj2 (Z.ltb_ge _ _)) by lia.
  replace (12 + (zlen b - 12)) with (zlen b) by lia.
  rewrite read_at_batch by lia. rewrite sub_whole. cbn [obind].
  fold (raw_base b) (raw_lod b). fold (raw_last b).
  assert (zlen (mjoin bs1) + zlen b = zlen (mjoin (bs1 ++ [b]))) as Hpos
    by (by rewrite mjoin_snoc, zlen_app).
  assert (mjoin bs1 ++ b ++ mjoin bs2 = mjoin ((bs1 ++ [b]) ++ bs2)) as Hl
    by (by rewrite <- app_assoc, <- mjoin_app_cons).
  rewrite Hpos, Hl. unfold zlen in Hlen, H61.
  destruct (raw_last b <? offset); apply IH; rewrite ?zlen_app; unfold zlen in *; lia.
Qed.

(** Where the index sends a reader: a batch boundary with only earlier batches
    before it. *)
Lemma position_boundary s bs idx offset :
  seg_inv s bs -> seg_index s = Some idx ->
  seg_baseOffset s <= offset <= seg_nextOffset s ->
  exists bs1 bs2, bs = bs1 ++ bs2 /\ positionForOffset idx offset = zlen (mjoin bs1) /\
    Forall (fun b => raw_last b < offset) bs1.
Proof.
  intros [_ _ Hw Hc _ Hsp _ _ _ (idx' & Hidx & Hib & _ & _ & Hie & Hia)] Hi Ho.
  assert (idx' = idx) as -> by congruence.
  destruct (positionForOffset_spec idx offset Hia) as [[Hp _]|(k & e & He & Hr & Hp & _)];
    rewrite Hp.
  { exists [], bs. split_and!; [done..|constructor]. }
  rewrite Forall_lookup in Hie. destruct (Hie _ _ He) as (bs1 & b & bs2 & -> & -> & Hb).
  exists bs1, (b :: bs2). split_and!; [done..|].
  rewrite Hib, u32_id in Hr by mlia.
  apply Forall_app in Hw as [Hw _].
  eapply Forall_impl; [by eapply chain_before|]. simpl. intros. lia.
Qed.

Lemma read_eq_spec s bs offset maxBytes :
  seg_inv s bs -> seg_baseOffset s <= offset <= seg_nextOffset s ->
  0 < maxBytes -> seg_size s <= 2147483647 ->
  read s offset maxBytes = Ok (spec_read offset maxBytes bs []).
Proof.
  intros Hs Ho Hm Hsz. pose proof Hs as [Hlog Hsize Hw _ _ _ _ _ _ (idx & Hidx & _)].
  destruct (position_boundary s bs idx offset Hs Hidx Ho) as (bs1 & bs2 & -> & Hp & Hskip).
  unfold read. rewrite (proj2 (Z.leb_gt _ _)), Hidx, Hlog, Hp, Hsize by lia.
  cbn [default from_option id].
  rewrite spec_read_skip by done. apply Forall_app in Hw as [_ Hw].
  rewrite Hsize, join_app, zlen_app in Hsz. pose proof (zlen_nonneg (mjoin bs1)).
  apply read_loop_spec; [done| |].
  - rewrite (@zlen_nil byte). lia.
  - rewrite join_app, length_app. lia.
Qed.

(** A read starts with the batch that holds the offset asked for, so a
    consumer that follows the offsets it is given never misses a record and
    always makes progress. *)
Lemma spec_read_first o bs e offset maxBytes :
  Forall wf_raw bs -> chain o bs e -> o <= offset < e -> 0 < maxBytes ->
  exists bs1 b bs2, bs = bs1 ++ b :: bs2 /\ raw_base b <= offset <= raw_last b /\
    spec_read offset maxBytes bs [] = spec_read offset maxBytes bs2 b.
Proof.
  intros Hw Hc Ho Hm. destruct (chain_find o bs e offset Hc Ho) as (bs1 & b & bs2 & -> & Hb).
  exists bs1, b, bs2. split_and!; [done|lia|lia|].
  apply Forall_app in Hw as [Hw _].
  rewrite spec_read_skip; [|done|].
  - cbn [spec_read]. rewrite (proj2 (Z.ltb_lt _ _)) by (rewrite (@zlen_nil byte); lia).
    rewrite (proj2 (Z.ltb_ge _ _)) by lia. done.
  - eapply Forall_impl; [by eapply chain_before|]. simpl. intros. lia.
Qed.

Lemma spec_read_extends offset maxBytes bs out :
  exists tl, spec_read offset maxBytes bs out = out ++ tl.
Proof.
  revert out. induction bs as [|b bs IH]; intros out; cbn [spec_read].
  { exists []. by rewrite app_nil_r. }
  destruct (_ <? _); [|exists []; by rewrite app_nil_r].
  destruct (IH (if raw_last b <? offset then out else out ++ b)) as [tl ->].
  destruct (_ <? _); [by exists tl|]. exists (b ++ tl). by rewrite app_assoc.
Qed.

(** Reading through the sparse index gives what a scan of the whole
    segment from its first batch would give, for every offset between the base
    offset and the log end; below the log end the result starts with the whole
    batch that contains the offset, so a consumer always makes progress. *)
Theorem read_through_index s bs offset maxBytes :
  seg_inv s bs -> seg_baseOffset s <= offset <= seg_nextOffset s ->
  0 < maxBytes -> seg_size s <= 2147483647 ->
  read s offset maxBytes = Ok (spec_read offset maxBytes bs []) /\
  (offset < seg_nextOffset s ->
   exists b tl, b ∈ bs /\ raw_base b <= offset <= raw_last b /\
     spec_read offset maxBytes bs [] = b ++ tl).
Proof.
  intros Hs Ho Hm Hsz. split; [by apply read_eq_spec|]. intros Hlt.
  pose proof (si_wf _ _ Hs) as Hw. pose proof (si_chain _ _ Hs) as Hc.
  destruct (spec_read_first _ _ _ offset maxBytes Hw Hc ltac:(lia) Hm)
    as (bs1 & b & bs2 & -> & Hb & ->).
  destruct (spec_read_extends offset maxBytes bs2 b) as [tl ->].
  exists b, tl. split; [apply elem_of_app; right; by left|done].
Qed.

(** ** Recovery *)

(** What a crash can leave behind the last complete batch: nothing, or a proper
    prefix of a batch. *)
Definition torn (tl : list byte) : Prop :=
  tl = [] \/ exists b k, wf_raw b /\ (k < length b)%nat /\ tl = take k b.

Lemma torn_prefix tl pre :
  torn tl -> 12 <= zlen tl ->
  exists prefix, read_at (pre ++ tl) (zlen pre) 12 = Ok prefix /\
    0 < i32 (uint_at prefix 8 12) /\
    zlen (pre ++ tl) < zlen pre + 12 + i32 (uint_at prefix 8 12).
Proof.
  intros [->|(b & k & (H61 & _ & Hlen & _) & Hk & ->)] Ht.
  { rewrite (@zlen_nil byte) in Ht. lia. }
  exists (sub (take k b) 0 12).
  pose proof (read_at_mid pre (take k b) [] 0 12 ltac:(lia) ltac:(lia) Ht) as Hr.
  rewrite app_nil_r, Z.add_0_r in Hr. split; [exact Hr|].
  assert (uint_at (sub (take k b) 0 12) 8 12 = uint_at b 8 12) as ->.
  { rewrite uint_at_sub by lia. unfold uint_at, sub. f_equal.
    unfold zlen in Ht. rewrite length_take in Ht.
    rewrite skipn_firstn_comm, take_take. f_equal. lia. }
  fold (raw_length b). rewrite Hlen, zlen_app.
  unfold zlen in *. rewrite length_take in *. lia.
Qed.

Lemma recover_loop_spec fuel bs1 bs2 tl o e :
  Forall wf_raw bs2 -> chain o bs2 e -> torn tl ->
  (length (mjoin bs2) < fuel)%nat ->
  let log := mjoin (bs1 ++ bs2) ++ tl in
  recover_loop fuel log (zlen log) (zlen (mjoin bs1)) o
  = if (0 <? zlen tl) && (zlen tl <? 12) then Err "recover read"
    else Ok (zlen (mjoin (bs1 ++ bs2)), e).
Proof.
  intros Hw. revert fuel bs1 o. induction Hw as [|b bs2 Hb _ IH];
    intros fuel bs1 o Hc Ht Hfuel; (destruct fuel as [|fuel]; [lia|]); cbn [recover_loop].
  - simpl in Hc. subst e. rewrite app_nil_r. cbv zeta. rewrite (zlen_app (mjoin bs1) tl).
    pose proof (zlen_nonneg tl). destruct (Z.ltb_spec 0 (zlen tl)) as [Hpos|Hz]; cbn [andb].
    + rewrite (proj2 (Z.ltb_lt _ _)) by lia.
      destruct (Z.ltb_spec (zlen tl) 12) as [H12|H12].
      * unfold read_at. cbn [Z.eqb]. pose proof (zlen_nonneg (mjoin bs1)).
        rewrite (proj2 (Z.ltb_ge _ 0)), (proj2 (Z.leb_gt _ _)) by (rewrite ?zlen_app; lia). done.
      * destruct (torn_prefix tl (mjoin bs1) Ht H12) as (prefix & -> & Hl & Hover).
        rewrite zlen_app in Hover. rewrite (proj2 (Z.leb_gt _ _)), (proj2 (Z.ltb_lt _ _)) by lia.
        done.
    + rewrite (proj2 (Z.ltb_ge _ _)) by lia. done.
  - destruct Hc as [_ Hc]. rewrite mjoin_cons, length_app in Hfuel.
    pose proof Hb as (H61 & _ & _ & _).
    assert (mjoin (bs1 ++ b :: bs2) ++ tl = mjoin bs1 ++ b ++ mjoin bs2 ++ tl) as Hl
      by (by rewrite mjoin_app_cons, <- !app_assoc).
    cbv zeta. rewrite Hl.
    pose proof (batch_fits bs1 b (mjoin bs2 ++ tl)) as Hfit.
    rewrite (proj2 (Z.ltb_lt (zlen (mjoin bs1)) _)) by lia.
    destruct (batch_prefix bs1 b (mjoin bs2 ++ tl) Hb) as (prefix & -> & -> & _).
    rewrite (proj2 (Z.leb_gt _ _)), (proj2 (Z.ltb_ge _ _)) by lia. cbn [orb].
    destruct (batch_delta bs1 b (mjoin bs2 ++ tl) Hb) as (delta & -> & Hdelta). cbn [obind].
    rewrite Hdelta. replace (zlen (mjoin bs1) + 12 + (zlen b - 12)) with (zlen (mjoin (bs1 ++ [b])))
      by (rewrite mjoin_snoc, zlen_app; lia).
    rewrite <- Hl. replace (bs1 ++ b :: bs2) with ((bs1 ++ [b]) ++ bs2)
      by (by rewrite <- app_assoc).
    unfold zlen in H61. apply IH; [done|done|lia].
Qed.

(** The files a segment leaves on disk, with [tl] written behind the log. *)
Definition files_of (s : Segment) (tl : list byte) : segFiles :=
  mkFiles ((fun l => l ++ tl) <$> seg_log s) (ix_file <$> seg_index s) None.

Lemma recover_spec s bs tl o e :
  seg_log s = Some (mjoin bs ++ tl) -> seg_size s = zlen (mjoin bs ++ tl) ->
  seg_nextOffset s = o -> Forall wf_raw bs -> chain o bs e -> torn tl ->
  recover s =
    if (0 <? zlen tl) && (zlen tl <? 12) then Err "recover read"
    else Ok (with_log s (Some (mjoin bs)) (seg_index s) e (zlen (mjoin bs))).
Proof.
  intros Hlog Hsize Hn Hw Hc Ht. unfold recover. rewrite Hsize, Hlog, Hn. cbn [default from_option id].
  pose proof (zlen_nonneg tl). pose proof (zlen_nonneg (mjoin bs)).
  destruct (Z.eqb_spec (zlen (mjoin bs ++ tl)) 0) as [E|E].
  - rewrite zlen_app in E. assert (zlen tl = 0) as Etl by lia. rewrite Etl. cbn [andb Z.ltb Z.compare].
    assert (tl = []) as -> by (apply nil_length_inv; unfold zlen in Etl; lia).
    assert (bs = []) as ->.
    { destruct Hw as [|b bs (H61 & _) _]; [done|]. rewrite mjoin_cons, zlen_app in E.
      pose proof (zlen_nonneg (mjoin bs)). lia. }
    simpl in Hc. unfold with_log. destruct s; simpl in *. by simplify_eq.
  - rewrite (recover_loop_spec (S (length (mjoin bs ++ tl))) [] bs tl o e Hw Hc Ht)
      by (rewrite length_app; lia).
    cbn [app]. destruct (_ && _) eqn:Etl; [done|]. cbn [obind]. unfold with_log.
    f_equal. f_equal. f_equal.
    destruct (Z.eqb_spec (zlen (mjoin bs)) (zlen (mjoin bs ++ tl))) as [E'|E'].
    + rewrite zlen_app in E'. assert (tl = []) as -> by (apply nil_length_inv; unfold zlen in *; lia).
      by rewrite app_nil_r.
    + unfold truncate, zlen. by rewrite Nat2Z.id, take_app_length.
Qed.

(** The segment a reopen produces: everything on disk counts as synced. *)
Definition reopened (s : Segment) : Segment :=
  mkSegment (seg_baseOffset s) (seg_log s) (seg_index s) (seg_nextOffset s) (seg_size s)
    (seg_maxSegmentBytes s) (seg_indexInterval s) false None (seg_nextOffset s) (seg_size s) 0.

Lemma reopened_inv s bs : seg_inv s bs -> seg_inv (reopened s) bs.
Proof. intros [? ? ? ? ? ? ? ? ? ?]. by constructor. Qed.

Lemma openSegment_files s bs tl :
  seg_inv s bs -> torn tl ->
  openSegment (files_of s tl) (seg_baseOffset s) (seg_maxSegmentBytes s) (seg_indexInterval s)
  = if (0 <? zlen tl) && (zlen tl <? 12) then Err "recover read" else Ok (reopened s).
Proof.
  intros Hs Ht. pose proof Hs as [Hlog Hsize Hw Hc _ _ _ _ _ (idx & Hidx & Hib & Hif & Hii & _)].
  unfold openSegment, files_of. cbn [f_remote f_log f_index].
  rewrite Hlog, Hidx. cbn [default from_option fmap option_fmap option_map].
  rewrite <- Hib at 1. rewrite <- Hii at 1. unfold id. rewrite openIndex_reload by done. cbn [obind].
  erewrite recover_spec; [|reflexivity|reflexivity|reflexivity|exact Hw|exact Hc|exact Ht].
  destruct (_ && _); [done|]. cbn [obind].
  unfold with_log, reopened. simpl. rewrite Hlog, Hsize, Hidx. done.
Qed.

(** C6: reopening a segment after a crash that left a torn batch of at least
    twelve bytes behind the log (or a clean log) restores exactly the complete
    batches, the log end and the index; the torn bytes are cut off. *)
Theorem crash_recovery s bs tl :
  seg_inv s bs -> torn tl -> 12 <= zlen tl \/ tl = [] ->
  exists s', openSegment (files_of s tl) (seg_baseOffset s) (seg_maxSegmentBytes s)
               (seg_indexInterval s) = Ok s' /\
    seg_inv s' bs /\ seg_nextOffset s' = seg_nextOffset s /\ seg_log s' = seg_log s /\
    seg_index s' = seg_index s /\ seg_syncedBytes s' = seg_size s'.
Proof.
  intros Hs Ht Hl. exists (reopened s). rewrite (openSegment_files s bs tl) by done.
  split; [|by auto using reopened_inv].
  replace ((0 <? zlen tl) && (zlen tl <? 12)) with false; [done|].
  symmetry. apply andb_false_iff.
  destruct Hl as [Hl| ->]; [right; by apply Z.ltb_ge|by left].
Qed.

(** A torn tail shorter than the twelve-byte prefix makes the segment (and
    so the partition) unopenable: the scan treats the short read as an error
    instead of truncating. *)
Theorem short_torn_tail_blocks_open s bs tl :
  seg_inv s bs -> torn tl -> 0 < zlen tl < 12 ->
  openSegment (files_of s tl) (seg_baseOffset s) (seg_maxSegmentBytes s)
    (seg_indexInterval s) = Err "recover read".
Proof.
  intros Hs Ht Hl. rewrite (openSegment_files s bs tl) by done.
  by rewrite !(proj2 (Z.ltb_lt _ _)) by lia.
Qed.

(** ** Truncation *)

Definition reaches (target : Z) (bs : list (list byte)) : Prop :=
  from_option (fun b => target <= raw_last b) True (head bs).

Lemma truncate_loop_spec fuel target bs1 bs2 :
  Forall wf_raw bs2 -> (length (mjoin bs2) < fuel)%nat ->
  exists bs3 bs4, bs2 = bs3 ++ bs4 /\ Forall (fun b => raw_last b < target) bs3 /\
    reaches target bs4 /\
    truncate_loop fuel (mjoin (bs1 ++ bs2)) (zlen (mjoin (bs1 ++ bs2))) target
      (zlen (mjoin bs1)) = Ok (zlen (mjoin (bs1 ++ bs3))).
Proof.
  intros Hw. revert fuel bs1. induction Hw as [|b bs2 Hb _ IH]; intros fuel bs1 Hfuel;
    (destruct fuel as [|fuel]; [lia|]); cbn [truncate_loop].
  { exists [], []. rewrite !(app_nil_r bs1), Z.ltb_irrefl. repeat split. constructor. }
  rewrite mjoin_cons, length_app in Hfuel. pose proof Hb as (H61 & _ & _ & _).
  rewrite mjoin_app_cons. pose proof (batch_fits bs1 b (mjoin bs2)) as Hfit.
  rewrite (proj2 (Z.ltb_lt (zlen (mjoin bs1)) _)) by lia.
  destruct (batch_prefix bs1 b (mjoin bs2) Hb) as (prefix & -> & Hpl & Hpb). cbn [obind].
  rewrite Hpl, Hpb. rewrite (proj2 (Z.leb_gt _ _)), (proj2 (Z.ltb_ge _ _)) by lia. cbn [orb].
  destruct (batch_delta bs1 b (mjoin bs2) Hb) as (delta & -> & ->). fold (raw_last b).
  destruct (Z.leb_spec target (raw_last b)) as [Hr|Hr].
  { exists [], (b :: bs2). rewrite !(app_nil_r bs1). repeat split; [constructor|done]. }
  replace (zlen (mjoin bs1) + 12 + (zlen b - 12)) with (zlen (mjoin (bs1 ++ [b])))
    by (rewrite mjoin_snoc, zlen_app; lia).
  rewrite <- mjoin_app_cons. replace (bs1 ++ b :: bs2) with ((bs1 ++ [b]) ++ bs2)
    by (by rewrite <- app_assoc).
  unfold zlen in H61. destruct (IH fuel (bs1 ++ [b]) ltac:(lia)) as (bs3 & bs4 & -> & Hlo & Hhi & ->).
  exists (b :: bs3), bs4. rewrite <- !app_assoc. repeat split; [by constructor|done].
Qed.

(** The rebuilt index. *)
Definition index_inv (base interval : Z) (bs : list (list byte)) (idx : indexFile) : Prop :=
  ix_baseOffset idx = base /\ index_file_ok idx /\ ix_interval idx = interval /\
  Forall (entry_at base bs) (ix_entries idx) /\ ascending (ix_entries idx).

Lemma reindex_loop_spec fuel base interval bs1 bs2 m e idx :
  Forall wf_raw (bs1 ++ bs2) -> chain base bs1 m -> chain m bs2 e ->
  e - base <= 2147483647 -> zlen (mjoin (bs1 ++ bs2)) <= 4294967295 ->
  index_inv base interval bs1 idx -> (length (mjoin bs2) < fuel)%nat ->
  exists idx', reindex_loop fuel (mjoin (bs1 ++ bs2)) (zlen (mjoin (bs1 ++ bs2)))
                 (zlen (mjoin bs1)) idx = Ok idx' /\ index_inv base interval (bs1 ++ bs2) idx'.
Proof.
  revert fuel bs1 m idx. induction bs2 as [|b bs2 IH]; intros fuel bs1 m idx Hw Hc1 Hc2 Hsp Hby Hi Hfuel;
    (destruct fuel as [|fuel]; [lia|]); cbn [reindex_loop].
  { exists idx. rewrite app_nil_r, Z.ltb_irrefl. done. }
  pose proof Hw as [Hw1 [Hb Hw2]%Forall_cons]%Forall_app.
  destruct Hc2 as [Hbase Hc2]. rewrite mjoin_cons, length_app in Hfuel.
  pose proof Hb as (H61 & _ & _ & _). rewrite mjoin_app_cons.
  pose proof (batch_fits bs1 b (mjoin bs2)) as Hfit.
  rewrite (proj2 (Z.ltb_lt (zlen (mjoin bs1)) _)) by lia.
  destruct (batch_prefix bs1 b (mjoin bs2) Hb) as (prefix & -> & -> & ->).
  rewrite (proj2 (Z.leb_gt _ _)), (proj2 (Z.ltb_ge _ _)) by lia. cbn [orb].
  replace (zlen (mjoin bs1) + 12 + (zlen b - 12)) with (zlen (mjoin (bs1 ++ [b])))
    by (rewrite mjoin_snoc, zlen_app; lia).
  rewrite <- mjoin_app_cons. replace (bs1 ++ b :: bs2) with ((bs1 ++ [b]) ++ bs2) in *
    by (by rewrite <- app_assoc).
  destruct Hi as (Hib & Hif & Hii & Hie & Hia).
  pose proof (chain_mono _ _ _ Hw2 Hc2). pose proof (chain_mono _ _ _ Hw1 Hc1).
  destruct Hb as (_ & _ & _ & Hlod).
  apply (IH fuel (bs1 ++ [b]) (m + raw_lod b + 1)); [done| |done|done|done| |unfold zlen in H61; lia].
  { apply chain_app. exists m. by repeat split. }
  destruct (maybeAppend_meta idx (raw_base b) (zlen (mjoin bs1))) as [E1 E2].
  rewrite Hbase in *.
  destruct (maybeAppend_inv base bs1 m idx (zlen (mjoin bs1)) b) as [? ?]; try done; [lia| |].
  { rewrite !join_app, !zlen_app in Hby. pose proof (zlen_nonneg (mjoin bs2)).
    pose proof (zlen_nonneg (mjoin [b])). lia. }
  unfold index_inv. rewrite E1, E2. auto using maybeAppend_file_ok.
Qed.

Lemma truncateTo_step s bs target :
  seg_inv s bs -> seg_baseOffset s < target <= seg_nextOffset s ->
  exists bs1 bs2 idx' e, bs = bs1 ++ bs2 /\ Forall (fun b => raw_last b < target) bs1 /\
    reaches target bs2 /\ chain (seg_baseOffset s) bs1 e /\ Forall wf_raw bs1 /\
    index_inv (seg_baseOffset s) (seg_indexInterval s) bs1 idx' /\
    zlen (mjoin bs1) <= seg_size s /\
    truncateTo s target
    = Ok (with_log s (Some (mjoin bs1)) (Some idx') target (zlen (mjoin bs1))).
Proof.
  intros Hs Ht. pose proof Hs as [Hlog Hsize Hw Hc H0 Hsp Hn Hby Hloc (idx & Hidx & Hib & _ & Hii & _)].
  destruct (position_boundary s bs idx target Hs Hidx ltac:(lia)) as (bs1 & bs2 & -> & Hp & Hlo).
  pose proof Hw as [Hw1 Hw2]%Forall_app.
  destruct (truncate_loop_spec (S (length (mjoin (bs1 ++ bs2)))) target bs1 bs2)
    as (bs3 & bs4 & -> & Hlo' & Hhi & Hloop); [done|rewrite join_app, length_app; lia|].
  rewrite app_assoc in *.
  assert (truncate (mjoin ((bs1 ++ bs3) ++ bs4)) (zlen (mjoin (bs1 ++ bs3))) = mjoin (bs1 ++ bs3)) as Htr.
  { unfold truncate, zlen. by rewrite (join_app _ bs4), Nat2Z.id, take_app_length. }
  apply chain_app in Hc as (m & Hc & Hc'). apply Forall_app in Hw as [Hwk Hw4].
  pose proof (chain_mono _ _ _ Hw4 Hc').
  assert (zlen (mjoin (bs1 ++ bs3)) <= seg_size s) as Hsz.
  { rewrite Hsize, (join_app _ bs4), zlen_app. pose proof (zlen_nonneg (mjoin bs4)). lia. }
  destruct (reindex_loop_spec (S (length (mjoin (bs1 ++ bs3)))) (seg_baseOffset s) (seg_indexInterval s)
              [] (bs1 ++ bs3) (seg_baseOffset s) m (index_reset idx)) as (idx' & Hre & Hix).
  { done. } { done. } { done. } { lia. } { simpl. lia. }
  { split_and!; [done|apply index_reset_file_ok|done|constructor|]. intros i j a b _ Hx. done. }
  { simpl. lia. }
  exists (bs1 ++ bs3), bs4, idx', m.
  split_and!; [done|by apply Forall_app|done|done|done|apply Hix..|done|].
  unfold truncateTo. rewrite (proj2 (Z.leb_gt _ _)), Hidx, Hlog, Hsize, Hp, Hloop by lia.
  cbn [obind]. rewrite Htr. cbn [app] in Hre. change (zlen (mjoin [])) with 0 in Hre.
  rewrite Hre. done.
Qed.

(** [truncateTo] inside the segment keeps exactly the batches that end
    below the target, rebuilds the index from them, and reports the target as
    the new log end; when the target is a batch boundary the segment invariant
    holds again. *)
Theorem truncateTo_correct s bs target :
  seg_inv s bs -> seg_baseOffset s < target <= seg_nextOffset s ->
  exists bs1 bs2 s', bs = bs1 ++ bs2 /\ Forall (fun b => raw_last b < target) bs1 /\
    reaches target bs2 /\ truncateTo s target = Ok s' /\
    seg_log s' = Some (mjoin bs1) /\ seg_nextOffset s' = target /\
    (chain (seg_baseOffset s) bs1 target -> seg_inv s' bs1).
Proof.
  intros Hs Ht. pose proof Hs as [_ _ _ _ ? ? ? ? ? _].
  destruct (truncateTo_step s bs target Hs Ht)
    as (bs1 & bs2 & idx' & e & -> & Hlo & Hhi & _ & Hw & Hix & Hsz & ->).
  eexists bs1, bs2, _. do 3 (split; [done|]). split; [done|]. split; [done|]. split; [done|].
  intros Hch. constructor; cbn; try done; try lia. exists idx'. by split.
Qed.

Lemma chain_end_unique o bs e e' : chain o bs e -> chain o bs e' -> e = e'.
Proof.
  revert o. induction bs as [|b bs IH]; intros o; simpl; [congruence|].
  intros [_ H1] [_ H2]. by eapply IH.
Qed.

Lemma chain_end_le o bs e t :
  Forall wf_raw bs -> chain o bs e -> o <= t -> Forall (fun b => raw_last b < t) bs -> e <= t.
Proof.
  intros Hw. revert o. induction Hw as [|b bs Hb Hw IH]; intros o; simpl; [lia|].
  intros [Hbase Hc] Ho [Hlt Hf]%Forall_cons. unfold raw_last in Hlt. apply (IH _ Hc); [lia|done].
Qed.

(** After a truncation, reopening the segment recomputes the log end from
    the batches that stayed: the result never exceeds the target, and it falls
    below the log end that was reported (and may have been used to assign
    offsets) exactly when the target was not a batch boundary. *)
Theorem truncate_reopen_log_end s bs target :
  seg_inv s bs -> seg_baseOffset s < target <= seg_nextOffset s ->
  exists bs1 e s1 s2, truncateTo s target = Ok s1 /\ seg_nextOffset s1 = target /\
    chain (seg_baseOffset s) bs1 e /\ seg_log s1 = Some (mjoin bs1) /\ e <= target /\
    openSegment (files_of s1 []) (seg_baseOffset s) (seg_maxSegmentBytes s)
      (seg_indexInterval s) = Ok s2 /\
    seg_nextOffset s2 = e /\ (e = target <-> chain (seg_baseOffset s) bs1 target).
Proof.
  intros Hs Ht.
  destruct (truncateTo_step s bs target Hs Ht)
    as (bs1 & bs2 & idx' & e & -> & Hlo & Hhi & Hch & Hw & (Hib & Hif & Hii & _) & Hsz & ->).
  eexists bs1, e, _, _. split; [done|]. split; [done|]. split; [done|]. split; [done|].
  split; [by eapply (chain_end_le (seg_baseOffset s)); [| |lia|]|]. split.
  - unfold openSegment, files_of. cbn [f_remote f_log f_index with_log seg_log seg_index].
    cbn [default from_option fmap option_fmap option_map].
    rewrite <- Hib at 1. rewrite <- Hii at 1. unfold id. rewrite openIndex_reload by done. cbn [obind].
    erewrite recover_spec; [|reflexivity|reflexivity|reflexivity|exact Hw|exact Hch|by left].
    cbn [obind zlen length Z.of_nat Z.ltb Z.compare andb]. reflexivity.
  - cbn. split; [done|]. split; [by intros ->|]. by apply chain_end_unique.
Qed.

(** ** The invariant as a test *)

Definition entry_check (base : Z) (bs : list (list byte)) (e : indexEntry) : bool :=
  existsb (fun k => match bs !! k with
                    | Some b => (position e =? zlen (mjoin (take k bs))) &&
                                (base + relativeOffset e =? raw_base b)
                    | None => false
                    end) (seq 0 (length bs)).

Fixpoint ascending_check (es : list indexEntry) : bool :=
  match es with
  | [] => true
  | e :: r => forallb (fun x => relativeOffset e <? relativeOffset x) r && ascending_check r
  end.

Fixpoint chain_check (o : Z) (bs : list (list byte)) (e : Z) : bool :=
  match bs with
  | [] => o =? e
  | b :: r => (raw_base b =? o) && chain_check (o + raw_lod b + 1) r e
  end.

Definition wf_entry_check (e : indexEntry) : bool :=
  bool_decide (in_u32 (relativeOffset e)) && bool_decide (in_u32 (position e)).

Definition index_check (s : Segment) (bs : list (list byte)) (idx : indexFile) : bool :=
  (ix_baseOffset idx =? seg_baseOffset s) && (ix_interval idx =? seg_indexInterval s) &&
  forallb wf_entry_check (ix_entries idx) &&
  bool_decide (ix_file idx = entries_bytes (ix_entries idx)) &&
  (ix_writtenSize idx =? zlen (ix_file idx)) &&
  forallb (entry_check (seg_baseOffset s) bs) (ix_entries idx) &&
  ascending_check (ix_entries idx).

Definition seg_check (s : Segment) (bs : list (list byte)) : bool :=
  bool_decide (seg_log s = Some (mjoin bs)) && (seg_size s =? zlen (mjoin bs)) &&
  forallb (fun b => bool_decide (wf_raw b)) bs &&
  chain_check (seg_baseOffset s) bs (seg_nextOffset s) &&
  (0 <=? seg_baseOffset s) && (seg_nextOffset s - seg_baseOffset s <=? 2147483647) &&
  (seg_nextOffset s <=? 4611686018427387904) && (seg_size s <=? 4294967295) &&
  negb (seg_remote s) &&
  match seg_index s with Some idx => index_check s bs idx | None => false end.

Lemma entry_check_sound base bs e : entry_check base bs e = true -> entry_at base bs e.
Proof.
  unfold entry_check. intros (k & _ & H)%existsb_exists.
  destruct (bs !! k) as [b|] eqn:E; [|done].
  apply andb_true_iff in H as [H1%Z.eqb_eq H2%Z.eqb_eq].
  exists (take k bs), b, (drop (S k) bs). split; [|done]. symmetry. by apply take_drop_middle.
Qed.

Lemma ascending_check_sound es : ascending_check es = true -> ascending es.
Proof.
  induction es as [|e es IH]; [by intros _ i j a b _ ?|]. cbn [ascending_check].
  intros [Hf Hr]%andb_true_iff. specialize (IH Hr). rewrite forallb_forall in Hf.
  intros i j a b Hij Hi Hj. destruct j as [|j]; [lia|]. cbn in Hj.
  destruct i as [|i]; [|apply (IH i j); [lia|done|done]].
  cbn in Hi. simplify_eq. apply Z.ltb_lt, Hf. apply list_elem_of_In.
  by eapply list_elem_of_lookup_2.
Qed.

Lemma chain_check_sound o bs e : chain_check o bs e = true -> chain o bs e.
Proof.
  revert o. induction bs as [|b bs IH]; intros o; cbn [chain_check chain]; [by intros H%Z.eqb_eq|].
  intros [H1%Z.eqb_eq H2]%andb_true_iff. auto.
Qed.

Lemma index_check_sound s bs idx :
  index_check s bs idx = true ->
  ix_baseOffset idx = seg_baseOffset s /\ index_file_ok idx /\
  ix_interval idx = seg_indexInterval s /\
  Forall (entry_at (seg_baseOffset s) bs) (ix_entries idx) /\ ascending (ix_entries idx).
Proof.
  unfold index_check. rewrite !andb_true_iff, !Z.eqb_eq, !forallb_forall, bool_decide_eq_true.
  intros ((((((H1 & H2) & H3) & H4) & H5) & H6) & H7).
  split_and!; [done| |done| |by apply ascending_check_sound].
  - split_and!; [|done|done]. apply Forall_forall. intros e He%list_elem_of_In.
    specialize (H3 e He). unfold wf_entry_check in H3.
    by apply andb_true_iff in H3 as [?%bool_decide_eq_true ?%bool_decide_eq_true].
  - apply Forall_forall. intros e He%list_elem_of_In. by apply entry_check_sound, H6.
Qed.

Lemma seg_check_sound s bs : seg_check s bs = true -> seg_inv s bs.
Proof.
  unfold seg_check. rewrite !andb_true_iff, !Z.leb_le, Z.eqb_eq, bool_decide_eq_true, negb_true_iff.
  intros (((((((((H1 & H2) & H3) & H4) & H5) & H6) & H7) & H8) & H9) & H10).
  destruct (seg_index s) as [idx|] eqn:Hidx; [|done].
  constructor; try done.
  - rewrite forallb_forall in H3. apply Forall_forall. intros b Hb%list_elem_of_In.
    by apply (bool_decide_eq_true _), H3.
  - by apply chain_check_sound.
  - exists idx. split; [done|]. by apply index_check_sound.
Qed.

(** ** A worked example: three appends to a segment with a small interval *)

(** A well-formed batch of two records. *)
Definition demo_raw : list byte :=
  match EncodeRecordBatch sample_batch with Ok raw => raw | _ => [] end.

Fixpoint append_all (s : Segment) (raws : list (list byte)) : Segment :=
  match raws with
  | [] => s
  | raw :: r => match append s raw with Ok (_, s') => append_all s' r | _ => s end
  end.

Definition demo_segment : Segment :=
  append_all (mkSegment 100 (Some []) (Some (mkIndex 100 50 [] [] 0)) 100 0 1000 50 false None 100 0 0)
    [demo_raw; demo_raw; demo_raw].

Definition demo_batches : list (list byte) :=
  [set_base demo_raw 100; set_base demo_raw 102; set_base demo_raw 104].

Lemma demo_segment_inv : seg_inv demo_segment demo_batches.
Proof. apply seg_check_sound. vm_compute. reflexivity. Qed.

Lemma read_through_index_witness :
  read demo_segment 103 1000 = Ok (spec_read 103 1000 demo_batches []) /\
  (103 < seg_nextOffset demo_segment ->
   exists b tl, b ∈ demo_batches /\ raw_base b <= 103 <= raw_last b /\
     spec_read 103 1000 demo_batches [] = b ++ tl).
Proof.
  apply (read_through_index demo_segment demo_batches 103 1000 demo_segment_inv);
    vm_compute; repeat split; discriminate || reflexivity.
Defined.

Lemma crash_recovery_witness :
  exists s', openSegment (files_of demo_segment (take 40 demo_raw)) 100 1000 50 = Ok s' /\
    seg_inv s' demo_batches /\ seg_nextOffset s' = seg_nextOffset demo_segment /\
    seg_log s' = seg_log demo_segment /\ seg_index s' = seg_index demo_segment /\
    seg_syncedBytes s' = seg_size s'.
Proof.
  apply (crash_recovery demo_segment demo_batches (take 40 demo_raw) demo_segment_inv).
  - right. exists demo_raw, 40%nat. split; [decide_closed|]. split; [apply Nat.ltb_lt; vm_compute; reflexivity|reflexivity].
  - left. vm_compute. discriminate.
Defined.

Lemma short_torn_tail_blocks_open_witness :
  openSegment (files_of demo_segment (take 5 demo_raw)) 100 1000 50 = Err "recover read".
Proof.
  apply (short_torn_tail_blocks_open demo_segment demo_batches (take 5 demo_raw) demo_segment_inv).
  - right. exists demo_raw, 5%nat. split; [decide_closed|]. split; [apply Nat.ltb_lt; vm_compute; reflexivity|reflexivity].
  - vm_compute. split; reflexivity.
Defined.

Lemma truncateTo_correct_witness :
  exists bs1 bs2 s', demo_batches = bs1 ++ bs2 /\ Forall (fun b => raw_last b < 103) bs1 /\
    reaches 103 bs2 /\ truncateTo demo_segment 103 = Ok s' /\
    seg_log s' = Some (mjoin bs1) /\ seg_nextOffset s' = 103 /\
    (chain (seg_baseOffset demo_segment) bs1 103 -> seg_inv s' bs1).
Proof.
  apply (truncateTo_correct demo_segment demo_batches 103 demo_segment_inv).
  vm_compute. split; [reflexivity|discriminate].
Defined.

Lemma truncate_reopen_log_end_witness :
  exists bs1 e s1 s2, truncateTo demo_segment 103 = Ok s1 /\ seg_nextOffset s1 = 103 /\
    chain (seg_baseOffset demo_segment) bs1 e /\ seg_log s1 = Some (mjoin bs1) /\ e <= 103 /\
    openSegment (files_of s1 []) 100 1000 50 = Ok s2 /\
    seg_nextOffset s2 = e /\ (e = 103 <-> chain (seg_baseOffset demo_segment) bs1 103).
Proof.
  apply (truncate_reopen_log_end demo_segment demo_batches 103 demo_segment_inv).
  vm_compute. split; [reflexivity|discriminate].
Defined.

(** ** What a reader below the base offset is given *)

(** Asked for an offset below the segment's base, the index lookup wraps
    the relative offset to a large 32-bit number and starts at the last indexed
    batch: every batch before it is silently left out of the answer. *)
Theorem read_below_base_skips s bs idx e offset maxBytes :
  seg_inv s bs -> seg_index s = Some idx -> last (ix_entries idx) = Some e ->
  0 <= offset < seg_baseOffset s -> seg_baseOffset s - offset <= 2147483648 ->
  0 < maxBytes -> seg_size s <= 2147483647 ->
  exists bs1 bs2, bs = bs1 ++ bs2 /\ zlen (mjoin bs1) = position e /\
    read s offset maxBytes = Ok (spec_read offset maxBytes bs2 []).
Proof.
  intros Hs Hidx He Ho Hd Hm Hsz.
  pose proof Hs as [Hlog Hsize Hw Hc _ Hsp _ _ _ (idx' & Hidx' & Hib & Hif & _ & Hie & Hia)].
  assert (idx' = idx) as -> by congruence.
  assert (u32 (offset - ix_baseOffset idx) = offset - seg_baseOffset s + 4294967296) as Hu.
  { rewrite Hib. unfold u32. rewrite <- (Z.mod_add _ 1) by lia. rewrite Z.mod_small; lia. }
  assert (Forall (fun x => relativeOffset x < 2147483647) (ix_entries idx)) as Hlow.
  { eapply Forall_impl; [exact Hie|]. intros x (b1 & b & b2 & -> & _ & Hx).
    pose proof (chain_bounds _ _ _ Hw Hc) as Hb. apply Forall_app in Hb as [_ Hb].
    apply Forall_cons in Hb as [? _]. lia. }
  rewrite Forall_lookup in Hlow, Hie. rewrite last_lookup in He.
  destruct (positionForOffset_spec idx offset Hia) as [[_ Hall]|(k & x & Hx & Hr & Hp & Hnext)].
  { rewrite Forall_lookup in Hall. pose proof (Hall _ _ He). pose proof (Hlow _ _ He). lia. }
  assert (k = pred (length (ix_entries idx))) as ->.
  { pose proof (lookup_lt_Some _ _ _ Hx). destruct (decide (k = pred (length (ix_entries idx)))); [done|].
    pose proof (Hnext (pred (length (ix_entries idx))) e ltac:(lia) He). pose proof (Hlow _ _ He). lia. }
  assert (x = e) as -> by congruence. destruct (Hie _ _ He) as (bs1 & b & bs2 & -> & Hpos & _).
  exists bs1, (b :: bs2). split; [done|]. split; [done|].
  apply Forall_app in Hw as [_ Hw].
  unfold read. rewrite (proj2 (Z.leb_gt _ _)), Hidx, Hlog, Hp, Hsize, Hpos by lia.
  cbn [default from_option id]. apply read_loop_spec; [done| |].
  - rewrite Hsize, join_app, zlen_app in Hsz. pose proof (zlen_nonneg (mjoin bs1)).
    rewrite (@zlen_nil byte). lia.
  - rewrite join_app, length_app. lia.
Qed.

Lemma read_below_base_skips_witness :
  exists bs1 bs2, demo_batches = bs1 ++ bs2 /\
    zlen (mjoin bs1) = position (mkEntry 4 (2 * zlen demo_raw)) /\
    read demo_segment 0 1000 = Ok (spec_read 0 1000 bs2 []).
Proof.
  eapply (read_below_base_skips demo_segment demo_batches _ _ 0 1000 demo_segment_inv);
    [vm_compute; reflexivity..| | | |]; vm_compute; repeat split; discriminate || reflexivity.
Defined.
