(* ===== verification/Partition.v ===== *)
(** * Partitions (internal/storage/partition.go, retention.go)

    A partition is an ordered list of closed segments and an active one.
    Operations take and return the whole partition; an operation that can fail
    after it changed the partition returns both. Locks are not modelled: every
    operation below runs under the partition's mutex in the source. *)

From stdpp Require Import prelude list strings sorting.
From Stdlib Require Import ZArith Lia.
From S2P Require Import Prelude GoBinary Wire RecordBatch Index Segment SegmentOps.

Record Partition := mkPartition {
  pt_closed : list Segment;
  pt_active : option Segment;
  pt_nextOffset : Z;
  pt_highWatermark : Z;
  pt_maxSegmentBytes : Z;
  pt_indexInterval : Z;
  pt_lastCompactMs : Z;
  pt_bytesAtCompact : Z }.

Definition with_segments (p : Partition) (closed : list Segment) (active : option Segment)
    (next hwm : Z) : Partition :=
  mkPartition closed active next hwm (pt_maxSegmentBytes p) (pt_indexInterval p)
    (pt_lastCompactMs p) (pt_bytesAtCompact p).

Definition orderedSegmentsLocked (p : Partition) : list Segment :=
  pt_closed p ++ option_list (pt_active p).

(** What [openSegment] finds on disk for a base offset: the files of the
    partition's own segment with that name, or none. *)
Definition dir_files (segs : list Segment) (base : Z) : segFiles :=
  match list_find (fun s => seg_baseOffset s = base) segs with
  | Some (_, s) => mkFiles (seg_log s) (ix_file <$> seg_index s) (seg_stub s)
  | None => mkFiles None None None
  end.

(** The names of a directory listing give base offsets in any order, twice
    where a segment has both a log and a remote stub; [recover] sorts them and
    drops repetitions. *)
Fixpoint uniq_from (prev : Z) (bases : list Z) : list Z :=
  match bases with
  | [] => []
  | b :: r => if b =? prev then uniq_from b r else b :: uniq_from b r
  end.

Definition uniq (bases : list Z) : list Z :=
  match bases with
  | [] => []
  | b :: r => b :: uniq_from b r
  end.

(** It opens them in order and makes the last one active. *)
Fixpoint open_all (dir : Z -> segFiles) (maxBytes interval : Z) (bases : list Z)
  : outcome (list Segment) :=
  match bases with
  | [] => Ok []
  | base :: r =>
      let? s := openSegment (dir base) base maxBytes interval in
      let? ss := open_all dir maxBytes interval r in
      Ok (s :: ss)
  end.

(** [Partition.recover] on an empty in-memory partition. *)
Definition recover_partition (dir : Z -> segFiles) (bases : list Z) (p : Partition)
  : outcome Partition :=
  let? segs := open_all dir (pt_maxSegmentBytes p) (pt_indexInterval p)
                 (uniq (merge_sort Z.le bases)) in
  let segs := pt_closed p ++ segs in
  match last segs with
  | Some a => Ok (with_segments p (take (length segs - 1) segs) (Some a)
                    (seg_nextOffset a) (seg_nextOffset a))
  | None =>
      let? a := openSegment (dir 0) 0 (pt_maxSegmentBytes p) (pt_indexInterval p) in
      Ok (with_segments p [] (Some a) (seg_nextOffset a) (seg_nextOffset a))
  end.

(** [roll]: the active segment is closed first, so a failed open leaves it on
    both lists. *)
Definition roll (p : Partition) : Partition * outcome unit :=
  let closed := pt_closed p ++ option_list (pt_active p) in
  match openSegment (dir_files (orderedSegmentsLocked p) (pt_nextOffset p))
          (pt_nextOffset p) (pt_maxSegmentBytes p) (pt_indexInterval p) with
  | Ok s => (with_segments p closed (Some s) (pt_nextOffset p) (pt_highWatermark p), Ok tt)
  | Err e => (with_segments p closed (pt_active p) (pt_nextOffset p) (pt_highWatermark p), Err e)
  | Panic => (p, Panic)
  end.

(** The part of [Append] after the roll. *)
Definition append_active (p : Partition) (raw : list byte) : Partition * outcome Z :=
  match pt_active p with
  | None => (p, Panic)
  | Some a =>
      match append a raw with
      | Ok (assigned, a') =>
          (with_segments p (pt_closed p) (Some a') (seg_nextOffset a') (seg_nextOffset a'),
           Ok assigned)
      | Err e => (p, Err e)
      | Panic => (p, Panic)
      end
  end.

Definition Append (p : Partition) (raw : list byte) : Partition * outcome Z :=
  match pt_active p with
  | None => (p, Panic)
  | Some a =>
      if full a then
        match roll p with
        | (p', Ok _) => append_active p' raw
        | (p', Err e) => (p', Err e)
        | (p', Panic) => (p', Panic)
        end
      else append_active p raw
  end.

Definition Sync (p : Partition) (now : Z) : Partition :=
  match pt_active p with
  | None => p
  | Some a => if seg_syncedBytes a =? seg_size a then p
              else with_segments p (pt_closed p) (Some (sync a now)) (pt_nextOffset p)
                     (pt_highWatermark p)
  end.

Definition AppendSynced (p : Partition) (raw : list byte) (do_sync : bool) (now : Z)
  : Partition * outcome Z :=
  match Append p raw with
  | (p', Ok off) => (if do_sync then Sync p' now else p', Ok off)
  | (p', o) => (p', o)
  end.

(** ** Reading *)

(** The second loop of [readLocked]. *)
Fixpoint read_segments (segs : list Segment) (startOffset maxBytes : Z) (out : list byte)
  : outcome (list byte) :=
  match segs with
  | [] => Ok out
  | s :: r =>
      if maxBytes <=? i32 (zlen out) then Ok out else
      if seg_remote s then Err "segment is remote and was not restored" else
      let? data := read s startOffset (i32 (maxBytes - i32 (zlen out))) in
      read_segments r (logEndOffset s) maxBytes (out ++ data)
  end.

(** The first loop: skip the segments that end at or before the offset. *)
Fixpoint skip_segments (segs : list Segment) (startOffset : Z) : list Segment :=
  match segs with
  | [] => []
  | s :: r => if startOffset <? logEndOffset s then segs else skip_segments r startOffset
  end.

Definition readLocked (p : Partition) (startOffset maxBytes : Z) : outcome (list byte) :=
  read_segments (skip_segments (orderedSegmentsLocked p) startOffset) startOffset maxBytes [].

(** [restoreSegmentLocked] with the object store as an argument. *)
Definition restoreSegmentLocked (remoteFetch : option (gostring -> outcome (list byte)))
    (s : Segment) : outcome Segment :=
  match remoteFetch with
  | None => Err "remote segment has no fetcher configured"
  | Some fetch =>
      let? (logKey, indexKey) := remoteKeys s in
      let? logData := fetch logKey in
      let? indexData := fetch indexKey in
      restoreFrom s logData indexData
  end.

Definition needs_restore (startOffset : Z) (s : Segment) : bool :=
  (startOffset <? logEndOffset s) && seg_remote s.

(** The restore loop of [Read]: the segments restored before a failure stay
    restored. *)
Fixpoint restore_segments (fetch : option (gostring -> outcome (list byte)))
    (startOffset : Z) (segs : list Segment) : list Segment * outcome unit :=
  match segs with
  | [] => ([], Ok tt)
  | s :: r =>
      if needs_restore startOffset s then
        match restoreSegmentLocked fetch s with
        | Ok s' => let '(r', o) := restore_segments fetch startOffset r in (s' :: r', o)
        | Err e => (s :: r, Err e)
        | Panic => (s :: r, Panic)
        end
      else let '(r', o) := restore_segments fetch startOffset r in (s :: r', o)
  end.

(** [Read]: the partition (restored segments), the data and the high watermark. *)
Definition Read (fetch : option (gostring -> outcome (list byte))) (p : Partition)
    (startOffset maxBytes : Z) : Partition * outcome (list byte) * Z :=
  let startOffset := if startOffset <? 0 then 0 else startOffset in
  if pt_highWatermark p <=? startOffset then (p, Ok [], pt_highWatermark p) else
  if existsb (needs_restore startOffset) (orderedSegmentsLocked p) then
    let n := length (pt_closed p) in
    let '(segs, o) := restore_segments fetch startOffset (orderedSegmentsLocked p) in
    let p' := with_segments p (take n segs) (head (drop n segs)) (pt_nextOffset p)
                (pt_highWatermark p) in
    match o with
    | Ok _ => (p', readLocked p' startOffset maxBytes, pt_highWatermark p)
    | Err e => (p', Err e, pt_highWatermark p)
    | Panic => (p', Panic, pt_highWatermark p)
    end
  else (p, readLocked p startOffset maxBytes, pt_highWatermark p).

Definition earliestOffsetLocked (p : Partition) : Z :=
  match pt_closed p with
  | s :: _ => seg_baseOffset s
  | [] => match pt_active p with
          | Some a => seg_baseOffset a
          | None => pt_nextOffset p
          end
  end.

Definition GetOffset (p : Partition) (target : Z) : Z :=
  if target =? -1 then pt_highWatermark p
  else if target =? -2 then earliestOffsetLocked p
  else -1.

(** ** Truncation *)

Definition TruncateTo (p : Partition) (target : Z) : outcome Partition :=
  let target := if target <=? 0 then 0 else target in
  if pt_nextOffset p <=? target then Ok p else
  let kept := List.filter (fun s => negb (target <=? seg_baseOffset s)) (pt_closed p) in
  let? (closed, active) :=
    match pt_active p with
    | Some a =>
        if target <=? seg_baseOffset a then
          match last kept with
          | Some l => Ok (take (length kept - 1) kept, l)
          | None =>
              let? s := openSegment (mkFiles None None None) 0 (pt_maxSegmentBytes p)
                          (pt_indexInterval p) in
              Ok ([], s)
          end
        else Ok (kept, a)
    | None => Panic
    end in
  let? active' := truncateTo active target in
  Ok (with_segments p closed (Some active') target target).

(** ** Retention (retention.go) *)

Record Retention := mkRetention { ret_Time : Z; ret_Bytes : Z }.

Definition totalSizeLocked (p : Partition) : Z :=
  foldr (fun s acc => seg_size s + acc) 0 (pt_closed p)
  + from_option seg_size 0 (pt_active p).

(** The first loop of [retentionPlanLocked] from index [i]: the oldest segments
    last written before the cutoff, and what is left of the total; [mtime] gives
    a segment's modification time, if it can be read. *)
Fixpoint age_loop (mtime : Segment -> option Z) (cutoff : Z) (i : nat) (segs : list Segment)
    (total : Z) : list nat * Z :=
  match segs with
  | [] => ([], total)
  | s :: r =>
      match mtime s with
      | Some t =>
          if t <? cutoff then
            let '(plan, total') := age_loop mtime cutoff (S i) r (total - seg_size s) in
            (i :: plan, total')
          else ([], total)
      | None => ([], total)
      end
  end.

(** The second loop: more of the oldest segments until the size fits. *)
Fixpoint size_loop (limit : Z) (i : nat) (segs : list Segment) (total : Z) : list nat :=
  match segs with
  | [] => []
  | s :: r => if limit <? total then i :: size_loop limit (S i) r (total - seg_size s) else []
  end.

Definition retentionPlanLocked (mtime : Segment -> option Z) (now : Z) (ret : Retention)
    (p : Partition) : list nat :=
  let '(plan, total) :=
    if 0 <? ret_Time ret
    then age_loop mtime (now - ret_Time ret) 0 (pt_closed p) (totalSizeLocked p)
    else ([], totalSizeLocked p) in
  if 0 <? ret_Bytes ret
  then plan ++ size_loop (ret_Bytes ret) (length plan) (drop (length plan) (pt_closed p)) total
  else plan.

(** [removeClosedSegment]: drop one segment with its files, and the objects
    deleted from the remote store when [remoteDelete] is configured. *)
Definition removeClosedSegment (remoteDelete : bool) (p : Partition) (i : nat)
  : outcome (Partition * list (gostring * gostring)) :=
  match pt_closed p !! i with
  | None => Panic
  | Some s =>
      let gone := if seg_remote s && remoteDelete then
                    match remoteKeys s with Ok keys => [keys] | _ => [] end
                  else [] in
      Ok (with_segments p (take i (pt_closed p) ++ drop (S i) (pt_closed p)) (pt_active p)
            (pt_nextOffset p) (pt_highWatermark p), gone)
  end.

Fixpoint remove_all (remoteDelete : bool) (p : Partition) (plan : list nat)
  : outcome (Partition * list (gostring * gostring)) :=
  match plan with
  | [] => Ok (p, [])
  | i :: r =>
      let? (p1, gone) := removeClosedSegment remoteDelete p i in
      let? (p2, gone') := remove_all remoteDelete p1 r in
      Ok (p2, gone ++ gone')
  end.

(** [enforceRetention]: remove the planned segments, the last one first. *)
Definition enforceRetention (remoteDelete : bool) (mtime : Segment -> option Z) (now : Z)
    (ret : Retention) (p : Partition) : outcome (Partition * list (gostring * gostring)) :=
  remove_all remoteDelete p (rev (retentionPlanLocked mtime now ret p)).

Definition RetentionDebt (mtime : Segment -> option Z) (now : Z) (ret : Retention)
    (p : Partition) : Z :=
  foldr (fun i acc => from_option seg_size 0 (pt_closed p !! i) + acc) 0
    (retentionPlanLocked mtime now ret p).

Definition CompactionDebt (p : Partition) : Z * Z :=
  let base := if 0 <? pt_lastCompactMs p then pt_bytesAtCompact p else 0 in
  let debt := totalSizeLocked p - base in
  (if 0 <? debt then debt else 0, pt_lastCompactMs p).

(** [Durability]: the synced offset and the bytes a crash would lose. *)
Definition Durability (p : Partition) : Z * Z * Z :=
  match pt_active p with
  | None => (pt_nextOffset p, 0, 0)
  | Some a =>
      let risk := seg_size a - seg_syncedBytes a in
      (seg_syncedOffset a, if risk <? 0 then 0 else risk, seg_lastSyncMs a)
  end.

(** ** The invariant: local segments, back to back *)

Fixpoint segs_inv (o : Z) (segs : list Segment) (bss : list (list (list byte))) (e : Z) : Prop :=
  match segs, bss with
  | [], [] => o = e
  | s :: r, bs :: rs =>
      seg_inv s bs /\ seg_baseOffset s = o /\ 0 < seg_maxSegmentBytes s /\
      segs_inv (seg_nextOffset s) r rs e
  | _, _ => False
  end.

Definition seg_cfg (p : Partition) (s : Segment) : Prop :=
  seg_maxSegmentBytes s = pt_maxSegmentBytes p /\ seg_indexInterval s = pt_indexInterval p.

(** [pt_inv p bss]: the partition holds the batches [mjoin bss], segment by
    segment, and reports the end of the last one as its log end; closed segments
    are not empty and all segments have the partition's limits. *)
Record pt_inv (p : Partition) (bss : list (list (list byte))) : Prop := {
  pi_segs : segs_inv (earliestOffsetLocked p) (orderedSegmentsLocked p) bss (pt_nextOffset p);
  pi_active : is_Some (pt_active p);
  pi_hwm : pt_highWatermark p = pt_nextOffset p;
  pi_closed : Forall (fun s => seg_baseOffset s < seg_nextOffset s) (pt_closed p);
  pi_cfg : Forall (seg_cfg p) (orderedSegmentsLocked p);
  pi_max : 0 < pt_maxSegmentBytes p }.

Lemma segs_inv_app o segs1 segs2 bss e :
  segs_inv o (segs1 ++ segs2) bss e <->
  exists bss1 bss2 m, bss = bss1 ++ bss2 /\ segs_inv o segs1 bss1 m /\ segs_inv m segs2 bss2 e.
Proof.
  revert o bss. induction segs1 as [|s segs1 IH]; intros o bss; cbn [app segs_inv].
  - split.
    + intros H. by exists [], bss, o.
    + by intros ([|] & bss2 & m & -> & H1 & H2); simpl in *; [subst|].
  - destruct bss as [|bs bss]; [split; [done|]|].
    { by intros ([|] & bss2 & m & ? & H1 & H2). }
    rewrite IH. split.
    + intros (? & ? & ? & bss1 & bss2 & m & -> & ? & ?). by exists (bs :: bss1), bss2, m.
    + intros ([|bs' bss1] & bss2 & m & ? & H1 & H2); simplify_eq/=; [done|].
      destruct H1 as (? & ? & ? & ?). split_and!; [done..|]. by exists bss1, bss2, m.
Qed.

Lemma segs_inv_chain o segs bss e :
  segs_inv o segs bss e -> Forall wf_raw (mjoin bss) /\ chain o (mjoin bss) e.
Proof.
  revert o bss. induction segs as [|s segs IH]; intros o [|bs bss]; cbn [segs_inv]; try done.
  intros (Hs & <- & _ & Hr). destruct (IH _ _ Hr) as [Hw Hc]. rewrite mjoin_cons.
  split; [apply Forall_app; split; [exact (si_wf _ _ Hs)|done]|].
  apply chain_app. exists (seg_nextOffset s). split; [exact (si_chain _ _ Hs)|done].
Qed.

Lemma segs_inv_mono o segs bss e : segs_inv o segs bss e -> o <= e.
Proof. intros H. destruct (segs_inv_chain _ _ _ _ H). by eapply chain_mono. Qed.

(** Every segment starts at or below the end of the list. *)
Lemma segs_inv_bases o segs bss e :
  segs_inv o segs bss e -> Forall (fun s => o <= seg_baseOffset s <= e) segs.
Proof.
  revert o bss. induction segs as [|s segs IH]; intros o [|bs bss]; cbn [segs_inv]; try done.
  intros (Hs & <- & _ & Hr). pose proof (segs_inv_mono _ _ _ _ Hr).
  pose proof (chain_mono _ _ _ (si_wf _ _ Hs) (si_chain _ _ Hs)).
  constructor; [lia|]. eapply Forall_impl; [by eapply IH|]. simpl. intros. lia.
Qed.

(** ** A fresh segment *)

Definition fresh (base maxBytes interval : Z) : Segment :=
  mkSegment base (Some []) (Some (mkIndex base interval [] [] 0)) base 0 maxBytes interval
    false None base 0 0.

Lemma openSegment_fresh base maxBytes interval :
  openSegment (mkFiles None None None) base maxBytes interval = Ok (fresh base maxBytes interval).
Proof. reflexivity. Qed.

Lemma fresh_inv base maxBytes interval :
  0 <= base <= 4611686018427387904 -> seg_inv (fresh base maxBytes interval) [].
Proof.
  intros Hb. constructor; cbn; try done; try lia.
  eexists. split; [done|]. split_and!; [done|repeat split; constructor|done|constructor|].
  intros i j a b _ Ha. done.
Qed.

(** ** Appending *)

Lemma earliest_app p a l :
  pt_active p = Some a -> orderedSegmentsLocked p = l ++ [a] -> pt_closed p = l.
Proof.
  unfold orderedSegmentsLocked. intros -> H. simpl in H. by apply app_inj_tail in H as [-> _].
Qed.

Lemma append_active_step p a bssc bsa raw :
  pt_active p = Some a -> segs_inv (earliestOffsetLocked p) (pt_closed p) bssc (seg_baseOffset a) ->
  seg_inv a bsa -> 0 < seg_maxSegmentBytes a -> 0 < pt_maxSegmentBytes p ->
  Forall (fun s => seg_baseOffset s < seg_nextOffset s) (pt_closed p) ->
  Forall (seg_cfg p) (pt_closed p) -> seg_cfg p a -> wf_raw raw ->
  seg_nextOffset a + raw_lod raw + 1 - seg_baseOffset a <= 2147483647 ->
  seg_nextOffset a + raw_lod raw + 1 <= 4611686018427387904 ->
  seg_size a + zlen raw <= 4294967295 ->
  exists p', append_active p raw = (p', Ok (seg_nextOffset a)) /\
    pt_inv p' (bssc ++ [bsa ++ [set_base raw (seg_nextOffset a)]]) /\
    pt_nextOffset p' = seg_nextOffset a + raw_lod raw + 1 /\
    earliestOffsetLocked p' = earliestOffsetLocked p.
Proof.
  intros Ha Hc Hs Hm Hpm Hne Hcfg Hcfga Hr H1 H2 H3.
  destruct (append_step a bsa raw Hs Hr H1 H2 H3) as (a' & Hap & Hs' & Hn' & Hb' & Hm' & Hi').
  unfold append_active. rewrite Ha, Hap. eexists. split; [done|].
  assert (earliestOffsetLocked (with_segments p (pt_closed p) (Some a') (seg_nextOffset a') (seg_nextOffset a'))
          = earliestOffsetLocked p) as He.
  { unfold earliestOffsetLocked. cbn. rewrite Ha, Hb'. done. }
  split; [|by split].
  constructor; cbn [with_segments pt_active pt_highWatermark pt_nextOffset pt_maxSegmentBytes]; try done.
  2: { apply Forall_app. split; [done|]. destruct Hcfga. repeat constructor; cbn; congruence. }
  rewrite He. unfold orderedSegmentsLocked. cbn. apply segs_inv_app.
  exists bssc, [bsa ++ [set_base raw (seg_nextOffset a)]], (seg_baseOffset a).
  split; [done|]. split; [done|]. cbn. split_and!; [done|done|lia|done].
Qed.

Lemma pt_inv_active p bss :
  pt_inv p bss ->
  exists a bssc bsa, pt_active p = Some a /\ bss = bssc ++ [bsa] /\
    segs_inv (earliestOffsetLocked p) (pt_closed p) bssc (seg_baseOffset a) /\
    seg_inv a bsa /\ 0 < seg_maxSegmentBytes a /\ pt_nextOffset p = seg_nextOffset a /\
    Forall (seg_cfg p) (pt_closed p) /\ seg_cfg p a.
Proof.
  intros [Hsegs [a Ha] _ _ Hcfg _]. unfold orderedSegmentsLocked in *. rewrite Ha in *.
  apply Forall_app in Hcfg as [? [? _]%Forall_cons].
  apply segs_inv_app in Hsegs as (bssc & bssa & m & -> & Hc & Hl). simpl in Hl.
  destruct bssa as [|bsa [|]]; [done| |by destruct Hl as (_ & _ & _ & [])].
  destruct Hl as (Hs & <- & Hm & He). by exists a, bssc, bsa.
Qed.

(** Joining the segments' batches after an append. *)
Lemma mjoin_append_last {A} (bssc : list (list A)) bsa b :
  mjoin (bssc ++ [bsa ++ [b]]) = mjoin (bssc ++ [bsa]) ++ [b].
Proof. rewrite !mjoin_snoc. by rewrite app_assoc. Qed.

Lemma full_not_empty a bsa :
  seg_inv a bsa -> 0 < seg_maxSegmentBytes a -> full a = true ->
  seg_baseOffset a < seg_nextOffset a.
Proof.
  intros Hs Hm Hfull. unfold full in Hfull. apply Z.leb_le in Hfull.
  rewrite (si_size _ _ Hs) in Hfull.
  pose proof (si_chain _ _ Hs) as Hch. pose proof (si_wf _ _ Hs) as Hw.
  destruct bsa as [|b bsa]; [change (zlen (mjoin [])) with 0 in Hfull; lia|].
  destruct Hch as [_ Hch]. apply Forall_cons in Hw as [(_ & _ & _ & Hd) Hw].
  apply chain_mono in Hch; [lia|done].
Qed.

Lemma roll_step p a bssc bsa :
  pt_active p = Some a -> segs_inv (earliestOffsetLocked p) (pt_closed p) bssc (seg_baseOffset a) ->
  seg_inv a bsa -> 0 < seg_maxSegmentBytes a -> pt_nextOffset p = seg_nextOffset a ->
  full a = true ->
  roll p = (with_segments p (pt_closed p ++ [a])
              (Some (fresh (pt_nextOffset p) (pt_maxSegmentBytes p) (pt_indexInterval p)))
              (pt_nextOffset p) (pt_highWatermark p), Ok tt).
Proof.
  intros Ha Hc Hs Hm Hn Hfull. unfold roll, dir_files, orderedSegmentsLocked. rewrite Ha.
  cbn [option_list]. pose proof (full_not_empty a bsa Hs Hm Hfull) as Hlt.
  replace (list_find _ _) with (@None (nat * Segment)); [by rewrite openSegment_fresh|].
  symmetry. apply list_find_None. apply Forall_app. split; [|repeat constructor; lia].
  eapply Forall_impl; [by eapply segs_inv_bases|]. simpl. intros. lia.
Qed.

(** [Append] on a partition that satisfies the invariant. *)
Lemma Append_spec p bss raw :
  pt_inv p bss -> wf_raw raw ->
  (forall a, pt_active p = Some a ->
     pt_nextOffset p + raw_lod raw + 1 - seg_baseOffset a <= 2147483647 /\
     seg_size a + zlen raw <= 4294967295) ->
  pt_nextOffset p + raw_lod raw + 1 <= 4611686018427387904 ->
  exists p' bss', Append p raw = (p', Ok (pt_nextOffset p)) /\ pt_inv p' bss' /\
    mjoin bss' = mjoin bss ++ [set_base raw (pt_nextOffset p)] /\
    pt_nextOffset p' = pt_nextOffset p + raw_lod raw + 1 /\
    pt_highWatermark p' = pt_nextOffset p' /\
    earliestOffsetLocked p' = earliestOffsetLocked p.
Proof.
  intros Hp Hr Hroom Hlim. pose proof (pi_max _ _ Hp) as Hmax.
  destruct (pt_inv_active p bss Hp) as (a & bssc & bsa & Ha & -> & Hc & Hs & Hm & Hn & Hcfg & Hcfga).
  pose proof (pi_closed _ _ Hp) as Hne. destruct (Hroom a Ha) as [Hspan Hsize]. rewrite Hn in *.
  unfold Append. rewrite Ha. destruct (full a) eqn:Hfull.
  - rewrite (roll_step p a bssc bsa) by done.
    set (p1 := with_segments p (pt_closed p ++ [a]) _ _ _).
    pose proof (chain_mono _ _ _ (si_wf _ _ Hs) (si_chain _ _ Hs)).
    pose proof (si_base _ _ Hs). pose proof (zlen_nonneg raw).
    pose proof Hr as (_ & _ & _ & Hlod).
    assert (earliestOffsetLocked p1 = earliestOffsetLocked p) as He.
    { unfold earliestOffsetLocked, p1. cbn. rewrite Ha. by destruct (pt_closed p). }
    assert (0 <= seg_size a) by (rewrite (si_size _ _ Hs); apply zlen_nonneg).
    destruct (append_active_step p1 (fresh (pt_nextOffset p) (pt_maxSegmentBytes p) (pt_indexInterval p))
                (bssc ++ [bsa]) [] raw) as (p' & Hap & Hp' & Hn' & He'); try done.
    { rewrite He. cbn. rewrite Hn. apply segs_inv_app. exists bssc, [bsa], (seg_baseOffset a).
      split_and!; [done|done|]. cbn. by split_and!. }
    { apply fresh_inv. lia. }
    { apply Forall_app. split; [done|]. repeat constructor. by eapply full_not_empty. }
    { apply Forall_app. split; [done|]. constructor; [done|constructor]. }
    { cbn. lia. } { cbn. lia. } { cbn. lia. }
    change (seg_nextOffset (fresh _ _ _)) with (pt_nextOffset p) in Hap, Hp', Hn'.
    rewrite Hn in Hap, Hp', Hn'.
    exists p', ((bssc ++ [bsa]) ++ [[set_base raw (seg_nextOffset a)]]).
    split_and!; [done|done|apply mjoin_snoc|done|exact (pi_hwm _ _ Hp')|congruence].
  - destruct (append_active_step p a bssc bsa raw) as (p' & Hap & Hp' & Hn' & He'); try done.
    exists p', (bssc ++ [bsa ++ [set_base raw (seg_nextOffset a)]]).
    split_and!; [done|done|apply mjoin_append_last|done|exact (pi_hwm _ _ Hp')|done].
Qed.

(** C3: [Append] on a partition returns the old log end as the assigned offset
    and makes the partition hold one batch more, stamped with that offset, at
    the end of the same sequence of batches, whether or not it had to roll to a
    new segment; the log start is unchanged and the high watermark is the new
    log end. *)
Theorem partition_append p bss raw :
  pt_inv p bss -> wf_raw raw ->
  (forall a, pt_active p = Some a ->
     pt_nextOffset p + raw_lod raw + 1 - seg_baseOffset a <= 2147483647 /\
     seg_size a + zlen raw <= 4294967295) ->
  pt_nextOffset p + raw_lod raw + 1 <= 4611686018427387904 ->
  exists p' bss', Append p raw = (p', Ok (pt_nextOffset p)) /\ pt_inv p' bss' /\
    mjoin bss' = mjoin bss ++ [set_base raw (pt_nextOffset p)] /\
    pt_nextOffset p' = pt_nextOffset p + raw_lod raw + 1 /\
    pt_highWatermark p' = pt_nextOffset p' /\
    earliestOffsetLocked p' = earliestOffsetLocked p.
Proof. apply Append_spec. Qed.

(** ** How segments grow *)

Lemma append_size s raw off s' :
  append s raw = Ok (off, s') -> seg_size s' = seg_size s + zlen raw.
Proof.
  unfold append, ParseRecordBatchHeader. destruct (Z.ltb_spec (zlen raw) batchHeaderSize) as [|Hl]; [done|].
  destruct (negb _); cbn [obind]; [done|]. destruct (_ <? _); [done|].
  destruct (seg_log s), (seg_index s); try done. intros [= <- <-]. cbn [seg_size].
  unfold batchHeaderSize in Hl. rewrite zlen_set_base; lia.
Qed.

(** An append makes no segment longer than some segment was, plus the batch. *)
Lemma Append_sizes p bss raw p' off :
  pt_inv p bss -> Append p raw = (p', Ok off) ->
  forall s, s ∈ orderedSegmentsLocked p' ->
  exists s0, s0 ∈ orderedSegmentsLocked p /\ seg_size s <= seg_size s0 + zlen raw.
Proof.
  intros Hp. destruct (pt_inv_active p bss Hp) as (a & bssc & bsa & Ha & -> & Hc & Hs & Hm & Hn & _).
  pose proof (zlen_nonneg raw) as Hr.
  assert (0 <= seg_size a) as H0 by (rewrite (si_size _ _ Hs); apply zlen_nonneg).
  assert (forall s, s ∈ pt_closed p ++ [a] -> s ∈ orderedSegmentsLocked p) as Hin
    by (intros s; unfold orderedSegmentsLocked; by rewrite Ha).
  unfold Append. rewrite Ha. destruct (full a) eqn:Hf.
  - rewrite (roll_step p a bssc bsa) by done. unfold append_active. cbn [pt_active with_segments].
    destruct (append _ raw) as [[o a']|e|] eqn:E; [|done|done]. intros [= <- <-] s.
    apply append_size in E. unfold orderedSegmentsLocked at 1. cbn. rewrite !elem_of_app.
    intros [[Hcl|Hcl]|Hs'].
    + exists s. split; [apply Hin, elem_of_app; by left|lia].
    + exists s. split; [apply Hin, elem_of_app; by right|lia].
    + exists a. split; [apply Hin, elem_of_app; right; by left|]. cbn in E.
      apply list_elem_of_singleton in Hs' as ->. lia.
  - unfold append_active. rewrite Ha. destruct (append a raw) as [[o a']|e|] eqn:E; [|done|done].
    intros [= <- <-] s. apply append_size in E.
    unfold orderedSegmentsLocked at 1. cbn. rewrite elem_of_app. intros [Hcl|Hs'].
    + exists s. split; [apply Hin, elem_of_app; by left|lia].
    + exists a. split; [apply Hin, elem_of_app; right; by left|].
      apply list_elem_of_singleton in Hs' as ->. lia.
Qed.
