(* ===== verification/PartitionOps.v ===== *)
(** * Reading a partition and enforcing retention

    Segmentation is invisible to a reader: [Read] on a partition is the
    reference scan over the concatenated batches. Retention removes a prefix of
    the closed segments and nothing else. *)

From stdpp Require Import prelude list strings sorting.
From Stdlib Require Import ZArith Lia.
From S2P Require Import Prelude GoBinary Wire RecordBatch Index Segment SegmentOps Partition.

(** ** The reference scan, piece by piece *)

Section spec_read.
Variables (offset maxBytes : Z).

Lemma spec_read_full bs out : maxBytes <= zlen out -> spec_read offset maxBytes bs out = out.
Proof. intros H. destruct bs; [done|]. cbn [spec_read]. by rewrite (proj2 (Z.ltb_ge _ _)). Qed.

Lemma spec_read_app bs cs out :
  spec_read offset maxBytes (bs ++ cs) out
  = spec_read offset maxBytes cs (spec_read offset maxBytes bs out).
Proof.
  revert out. induction bs as [|b bs IH]; intros out; [done|]. cbn [app spec_read].
  destruct (Z.ltb_spec (zlen out) maxBytes); [apply IH|]. by rewrite spec_read_full.
Qed.

Lemma spec_read_shift bs out acc :
  spec_read offset maxBytes bs (out ++ acc)
  = out ++ spec_read offset (maxBytes - zlen out) bs acc.
Proof.
  revert acc. induction bs as [|b bs IH]; intros acc; [done|]. cbn [spec_read].
  rewrite zlen_app.
  replace (zlen acc <? maxBytes - zlen out) with (zlen out + zlen acc <? maxBytes)
    by (apply eq_true_iff_eq; rewrite !Z.ltb_lt; lia).
  destruct (_ <? maxBytes); [|done]. rewrite <- IH. f_equal.
  destruct (_ <? offset); [done|]. by rewrite app_assoc.
Qed.

Lemma spec_read_zlen bs out :
  zlen (spec_read offset maxBytes bs out) <= zlen out + zlen (mjoin bs).
Proof.
  revert out. induction bs as [|b bs IH]; intros out; cbn [spec_read].
  { change (zlen (mjoin [])) with 0. lia. }
  rewrite mjoin_cons, zlen_app. pose proof (zlen_nonneg b). pose proof (zlen_nonneg (mjoin bs)).
  destruct (_ <? maxBytes); [|lia].
  destruct (raw_last b <? offset).
  - pose proof (IH out). lia.
  - pose proof (IH (out ++ b)) as Hb. rewrite zlen_app in Hb. lia.
Qed.
End spec_read.

(** ** Reading across segments *)

Definition fits (maxBytes : Z) (segs : list Segment) : Prop :=
  Forall (fun s => maxBytes + seg_size s <= 2147483647) segs.

(** One segment of the loop: the offset asked of it lies inside it. *)
Lemma read_segment_step s bs st off maxBytes out :
  seg_inv s bs -> seg_baseOffset s <= st <= seg_nextOffset s ->
  0 < maxBytes -> maxBytes + seg_size s <= 2147483647 -> zlen out < maxBytes ->
  Forall (fun b => raw_last b < st <-> raw_last b < off) bs ->
  exists data, read s st (i32 (maxBytes - i32 (zlen out))) = Ok data /\
    out ++ data = spec_read off maxBytes bs out /\
    zlen (out ++ data) <= 2147483647.
Proof.
  intros Hs Hst Hm Hfit Hout Hsame. pose proof (zlen_nonneg out).
  pose proof (zlen_nonneg (mjoin bs)) as Hnn. rewrite <- (si_size _ _ Hs) in Hnn.
  rewrite (i32_id (zlen out)), i32_id by mlia.
  exists (spec_read st (maxBytes - zlen out) bs []).
  rewrite (read_eq_spec s bs) by (done || lia). split; [done|].
  rewrite <- spec_read_shift, app_nil_r. split.
  - clear -Hsame. revert out. induction Hsame as [|b bs Hb _ IH]; intros out; [done|].
    cbn [spec_read]. destruct (_ <? maxBytes); [|done].
    replace (raw_last b <? off) with (raw_last b <? st)
      by (apply eq_true_iff_eq; rewrite !Z.ltb_lt; done).
    apply IH.
  - pose proof (spec_read_zlen st maxBytes bs out). rewrite <- (si_size _ _ Hs) in *. lia.
Qed.

Lemma read_segments_spec segs bss o e off maxBytes out :
  segs_inv o segs bss e -> off <= o -> 0 < maxBytes -> fits maxBytes segs ->
  zlen out <= 2147483647 ->
  read_segments segs o maxBytes out = Ok (spec_read off maxBytes (mjoin bss) out).
Proof.
  revert bss o out. induction segs as [|s segs IH]; intros [|bs bss] o out; cbn [segs_inv]; try done.
  intros (Hs & <- & _ & Hr) Hoff Hm [Hf Hfs]%Forall_cons Hout.
  cbn [read_segments]. pose proof (zlen_nonneg out).
  rewrite (i32_id (zlen out)) at 1 by mlia.
  rewrite mjoin_cons. destruct (Z.leb_spec maxBytes (zlen out)).
  { by rewrite spec_read_full. }
  rewrite (si_local _ _ Hs).
  pose proof (chain_mono _ _ _ (si_wf _ _ Hs) (si_chain _ _ Hs)).
  destruct (read_segment_step s bs (seg_baseOffset s) off maxBytes out)
    as (data & -> & Hd & Hl); try (done || lia).
  { eapply Forall_impl; [exact (chain_bounds _ _ _ (si_wf _ _ Hs) (si_chain _ _ Hs))|].
    simpl. intros. lia. }
  cbn [obind]. unfold logEndOffset. rewrite (IH bss) by (done || lia).
  by rewrite Hd, spec_read_app.
Qed.

(** Skipping the segments before the offset skips only batches before it. *)
Lemma skip_segments_spec segs bss o e off :
  segs_inv o segs bss e -> o <= off < e ->
  exists s r bs rs bss0, skip_segments segs off = s :: r /\ bss = bss0 ++ bs :: rs /\
    segs_inv (seg_baseOffset s) (s :: r) (bs :: rs) e /\
    seg_baseOffset s <= off < seg_nextOffset s /\
    Forall (fun b => raw_last b < off) (mjoin bss0) /\ (s :: r) ⊆ segs.
Proof.
  revert bss o. induction segs as [|s segs IH]; intros [|bs bss] o; cbn [segs_inv]; try done.
  { intros; lia. }
  intros (Hs & <- & Hm & Hr) Ho. cbn [skip_segments]. unfold logEndOffset.
  destruct (Z.ltb_spec off (seg_nextOffset s)) as [Hin|Hout].
  - exists s, segs, bs, bss, []. split; [done|]. split; [done|]. split; [by cbn|]. split; [lia|]. split; [constructor|done].
  - destruct (IH bss (seg_nextOffset s) Hr ltac:(lia))
      as (s' & r & bs' & rs & bss0 & -> & -> & Hinv & Hb & Hf & Hsub).
    exists s', r, bs', rs, (bs :: bss0). do 4 (split; [done|]). split.
    + rewrite mjoin_cons. apply Forall_app. split; [|done].
      eapply Forall_impl; [exact (chain_bounds _ _ _ (si_wf _ _ Hs) (si_chain _ _ Hs))|].
      simpl. intros. lia.
    + intros x Hx. right. by apply Hsub.
Qed.

Lemma no_restore_needed p bss off :
  pt_inv p bss -> existsb (needs_restore off) (orderedSegmentsLocked p) = false.
Proof.
  intros [Hs _ _ _ _ _]. revert Hs. generalize (orderedSegmentsLocked p), (earliestOffsetLocked p).
  intros segs. revert bss. induction segs as [|s segs IH]; intros [|bs bss] o; cbn [segs_inv]; try done.
  intros (Hs & _ & _ & Hr). cbn [existsb]. rewrite (IH bss (seg_nextOffset s) Hr).
  unfold needs_restore. by rewrite (si_local _ _ Hs), andb_false_r.
Qed.

Lemma readLocked_spec p bss off maxBytes :
  pt_inv p bss -> earliestOffsetLocked p <= off < pt_nextOffset p ->
  0 < maxBytes -> fits maxBytes (orderedSegmentsLocked p) ->
  readLocked p off maxBytes = Ok (spec_read off maxBytes (mjoin bss) []).
Proof.
  intros [Hs _ _ _ _ _] Ho Hm Hfit. unfold readLocked.
  destruct (skip_segments_spec _ _ _ _ off Hs Ho)
    as (s & r & bs & rs & bss0 & -> & -> & (Hs1 & _ & _ & Hr) & Hb & Hf & Hsub).
  unfold fits in Hfit. rewrite Forall_forall in Hfit.
  cbn [read_segments]. change (i32 (zlen [])) with 0.
  rewrite (proj2 (Z.leb_gt _ _)), (si_local _ _ Hs1) by lia.
  destruct (read_segment_step s bs off off maxBytes []) as (data & Hread & Hd & Hl); try done;
    [lia|apply Hfit, Hsub; by left|apply Forall_forall; done|].
  change (i32 (zlen [])) with 0 in Hread. rewrite Hread. cbn [obind app].
  rewrite join_app, mjoin_cons, spec_read_skip, spec_read_app by done.
  cbn [app] in Hd, Hl. rewrite <- Hd. unfold logEndOffset.
  apply (read_segments_spec r rs _ (pt_nextOffset p)); [done|lia|done| |done].
  apply Forall_forall. intros x Hx. apply Hfit, Hsub. by right.
Qed.

Lemma Read_spec fetch p bss off maxBytes :
  pt_inv p bss -> earliestOffsetLocked p <= off < pt_nextOffset p -> 0 <= off ->
  0 < maxBytes -> fits maxBytes (orderedSegmentsLocked p) ->
  Read fetch p off maxBytes = (p, Ok (spec_read off maxBytes (mjoin bss) []), pt_highWatermark p).
Proof.
  intros Hp Ho H0 Hm Hfit.
  unfold Read. rewrite (proj2 (Z.ltb_ge _ _)), (pi_hwm _ _ Hp), (proj2 (Z.leb_gt _ _)) by lia.
  by rewrite (no_restore_needed p bss), (readLocked_spec p bss).
Qed.

(** C4: a fetch from a partition returns what a scan over all its batches, as
    one log, would return: neither the split into segments nor the sparse
    indexes can be observed. It starts with the whole batch that holds the
    offset asked for, and changes nothing. *)
Theorem partition_read fetch p bss off maxBytes :
  pt_inv p bss -> earliestOffsetLocked p <= off < pt_nextOffset p -> 0 <= off ->
  0 < maxBytes -> fits maxBytes (orderedSegmentsLocked p) ->
  exists b tl, b ∈ mjoin bss /\ raw_base b <= off <= raw_last b /\
    spec_read off maxBytes (mjoin bss) [] = b ++ tl /\
    Read fetch p off maxBytes
    = (p, Ok (spec_read off maxBytes (mjoin bss) []), pt_highWatermark p).
Proof.
  intros Hp Ho H0 Hm Hfit. destruct (segs_inv_chain _ _ _ _ (pi_segs _ _ Hp)) as [Hw Hc].
  destruct (spec_read_first _ _ _ off maxBytes Hw Hc Ho Hm) as (bs1 & b & bs2 & Hbs & Hb & Hr).
  destruct (spec_read_extends off maxBytes bs2 b) as [tl Htl].
  exists b, tl. split; [rewrite Hbs; apply elem_of_app; right; by left|].
  split; [done|]. split; [congruence|]. by apply Read_spec.
Qed.

(** ** Forcing a partition to disk keeps what it holds *)

Lemma sync_inv s bs now : seg_inv s bs -> seg_inv (sync s now) bs.
Proof. intros Hs. unfold sync. rewrite (si_log _ _ Hs). by destruct Hs. Qed.

Lemma Sync_inv p bss now : pt_inv p bss -> pt_inv (Sync p now) bss.
Proof.
  intros Hp. unfold Sync. destruct (pt_active p) as [a|] eqn:Ha; [|done].
  destruct (_ =? _); [done|].
  destruct (pt_inv_active p bss Hp) as (a' & bssc & bsa & Ha' & -> & Hc & Hs & Hm & Hn & Hcfg & Hcfga).
  rewrite Ha in Ha'. injection Ha' as <-.
  assert (sync a now = mkSegment (seg_baseOffset a) (seg_log a) (seg_index a) (seg_nextOffset a)
            (seg_size a) (seg_maxSegmentBytes a) (seg_indexInterval a) (seg_remote a) (seg_stub a)
            (seg_nextOffset a) (seg_size a) now) as E by (unfold sync; by rewrite (si_log _ _ Hs)).
  pose proof (sync_inv a bsa now Hs) as Hs'.
  split; cbn.
  - unfold orderedSegmentsLocked, earliestOffsetLocked in *. cbn.
    assert (seg_baseOffset (sync a now) = seg_baseOffset a) as -> by by rewrite E.
    rewrite Ha in Hc. apply segs_inv_app. exists bssc, [bsa], (seg_baseOffset a).
    split; [done|]. split; [done|]. cbn. rewrite E. cbn. rewrite <- E. split_and!; [done|done|done|lia].
  - done.
  - exact (pi_hwm _ _ Hp).
  - exact (pi_closed _ _ Hp).
  - unfold orderedSegmentsLocked. cbn. apply Forall_app. split; [done|].
    constructor; [|constructor]. unfold seg_cfg in *. rewrite E. exact Hcfga.
  - exact (pi_max _ _ Hp).
Qed.

Lemma Sync_same p now :
  pt_nextOffset (Sync p now) = pt_nextOffset p /\ pt_highWatermark (Sync p now) = pt_highWatermark p /\
  earliestOffsetLocked (Sync p now) = earliestOffsetLocked p /\
  map seg_size (orderedSegmentsLocked (Sync p now)) = map seg_size (orderedSegmentsLocked p).
Proof.
  unfold Sync. destruct (pt_active p) as [a|] eqn:Ha; [|done]. destruct (_ =? _); [done|].
  unfold earliestOffsetLocked, orderedSegmentsLocked, sync. cbn. rewrite Ha.
  split_and!; [done|done|by destruct (pt_closed p), (seg_log a)|].
  rewrite !map_app. by destruct (seg_log a).
Qed.

(** ** Retention *)

Definition seg_bytes (segs : list Segment) : Z := foldr (fun s acc => seg_size s + acc) 0 segs.

Lemma seg_bytes_app l k : seg_bytes (l ++ k) = seg_bytes l + seg_bytes k.
Proof. unfold seg_bytes. induction l as [|s l IH]; simpl; lia. Qed.

Lemma seg_bytes_cons s l : seg_bytes (s :: l) = seg_size s + seg_bytes l.
Proof. done. Qed.

Lemma seg_bytes_nil : seg_bytes [] = 0.
Proof. done. Qed.

(** Both loops plan an initial run of indices. *)
Lemma age_loop_spec mtime cutoff i segs total :
  exists n, (n <= length segs)%nat /\
    age_loop mtime cutoff i segs total = (seq i n, total - seg_bytes (take n segs)) /\
    Forall (fun s => exists t, mtime s = Some t /\ t < cutoff) (take n segs).
Proof.
  revert i total. induction segs as [|s segs IH]; intros i total; cbn [age_loop].
  { exists 0%nat. split; [done|]. split; [|constructor]. cbn. f_equal; lia. }
  destruct (mtime s) as [t|] eqn:Et; [destruct (Z.ltb_spec t cutoff) as [Hlt|Hge]|].
  - destruct (IH (S i) (total - seg_size s)) as (n & Hn & -> & Hf).
    exists (S n). cbn [length take seq]. rewrite seg_bytes_cons.
    split; [lia|]. split; [f_equal; lia|]. constructor; [by exists t|done].
  - exists 0%nat. split; [lia|]. split; [|constructor]. cbn. f_equal; lia.
  - exists 0%nat. split; [lia|]. split; [|constructor]. cbn. f_equal; lia.
Qed.

Lemma size_loop_spec limit i segs total :
  exists n, (n <= length segs)%nat /\ size_loop limit i segs total = seq i n /\
    (n = length segs \/ total - seg_bytes (take n segs) <= limit) /\
    forall m, (m < n)%nat -> limit < total - seg_bytes (take m segs).
Proof.
  revert i total. induction segs as [|s segs IH]; intros i total; cbn [size_loop].
  { exists 0%nat. cbn. split_and!; [done|done|by left|lia]. }
  destruct (Z.ltb_spec limit total) as [Hlt|Hge].
  - destruct (IH (S i) (total - seg_size s)) as (n & Hn & -> & Hend & Hmin).
    exists (S n). cbn [length take seq]. rewrite seg_bytes_cons.
    split_and!; [lia|done|destruct Hend; [left|right]; lia|].
    intros [|m] Hm; cbn [take]; rewrite ?seg_bytes_cons, ?seg_bytes_nil; [lia|].
    specialize (Hmin m ltac:(lia)). lia.
  - exists 0%nat. cbn [take]. rewrite seg_bytes_nil. split_and!; [lia|done|right; lia|lia].
Qed.

(** The plan is an initial run; with a size limit it is exactly as long as the
    age limit and the size limit ask for. *)
Lemma plan_spec mtime now ret p :
  exists n, (n <= length (pt_closed p))%nat /\ retentionPlanLocked mtime now ret p = seq 0 n /\
    (0 < ret_Bytes ret ->
       n = length (pt_closed p) \/
       totalSizeLocked p - seg_bytes (take n (pt_closed p)) <= ret_Bytes ret) /\
    forall m s, (m < n)%nat -> pt_closed p !! m = Some s ->
      (0 < ret_Time ret /\ exists t, mtime s = Some t /\ t < now - ret_Time ret) \/
      (0 < ret_Bytes ret /\
       ret_Bytes ret < totalSizeLocked p - seg_bytes (take m (pt_closed p))).
Proof.
  unfold retentionPlanLocked. set (segs := pt_closed p). set (T := totalSizeLocked p).
  assert (exists n, (n <= length segs)%nat /\
    (if 0 <? ret_Time ret then age_loop mtime (now - ret_Time ret) 0 segs T else ([], T))
      = (seq 0 n, T - seg_bytes (take n segs)) /\
    Forall (fun s => 0 < ret_Time ret /\ exists t, mtime s = Some t /\ t < now - ret_Time ret)
      (take n segs)) as (n & Hn & -> & Hage).
  { destruct (Z.ltb_spec 0 (ret_Time ret)).
    - destruct (age_loop_spec mtime (now - ret_Time ret) 0 segs T) as (n & Hn & -> & Hf).
      exists n. split; [done|]. split; [done|]. eapply Forall_impl; [done|]. by intros.
    - exists 0%nat. split; [lia|]. split; [|constructor]. change (seg_bytes (take 0 segs)) with 0. f_equal. lia. }
  rewrite Forall_lookup in Hage.
  assert (forall m s, (m < n)%nat -> segs !! m = Some s ->
    0 < ret_Time ret /\ exists t, mtime s = Some t /\ t < now - ret_Time ret) as Hage'.
  { intros m s Hm Hs. apply (Hage m). by rewrite lookup_take_lt. }
  destruct (Z.ltb_spec 0 (ret_Bytes ret)) as [Hb|Hb].
  2: { exists n. split_and!; [done|done|lia|]. intros. left. by eapply Hage'. }
  rewrite length_seq.
  destruct (size_loop_spec (ret_Bytes ret) n (drop n segs) (T - seg_bytes (take n segs)))
    as (k & Hk & -> & Hend & Hmin).
  rewrite length_drop in Hk, Hend.
  assert (forall m, seg_bytes (take (n + m) segs)
            = seg_bytes (take n segs) + seg_bytes (take m (drop n segs))) as Hsplit.
  { intros m. by rewrite <- seg_bytes_app, take_take_drop. }
  exists (n + k)%nat. rewrite seq_app, Hsplit. split_and!; [lia|done| |].
  - intros _. destruct Hend; [left; lia|right; lia].
  - intros m s Hm Hs. destruct (decide (m < n)%nat); [left; by eapply Hage'|]. right.
    split; [done|]. specialize (Hmin (m - n)%nat ltac:(lia)).
    replace m with (n + (m - n))%nat by lia. rewrite Hsplit. lia.
Qed.

(** The objects a removed segment leaves nothing behind of. *)
Definition gone_keys (rd : bool) (s : Segment) : option (gostring * gostring) :=
  if seg_remote s && rd then match remoteKeys s with Ok keys => Some keys | _ => None end else None.

Lemma remove_all_spec rd p n :
  (n <= length (pt_closed p))%nat ->
  remove_all rd p (rev (seq 0 n))
  = Ok (with_segments p (drop n (pt_closed p)) (pt_active p) (pt_nextOffset p) (pt_highWatermark p),
        omap (gone_keys rd) (rev (take n (pt_closed p)))).
Proof.
  revert p. induction n as [|n IH]; intros p Hn.
  { cbn. by destruct p. }
  rewrite seq_S, rev_app_distr. cbn [rev app remove_all].
  unfold removeClosedSegment. destruct (lookup_lt_is_Some_2 (pt_closed p) n ltac:(lia)) as [s Hs].
  replace (0 + n)%nat with n by lia. rewrite Hs. cbn [obind].
  set (p1 := with_segments p _ _ _ _).
  rewrite (IH p1); [|cbn; rewrite length_app, length_take, length_drop; lia].
  cbn [obind p1 pt_closed with_segments]. rewrite drop_app_length' by (rewrite length_take; lia).
  rewrite take_app_length' by (rewrite length_take; lia). rewrite (take_S_r _ _ s), rev_app_distr by done.
  cbn [rev app omap list_omap]. unfold gone_keys at 2.
  do 2 f_equal. destruct (seg_remote s && rd); [|done]. by destruct (remoteKeys s).
Qed.

Lemma plan_debt p n :
  (n <= length (pt_closed p))%nat ->
  foldr (fun i acc => from_option seg_size 0 (pt_closed p !! i) + acc) 0 (seq 0 n)
  = seg_bytes (take n (pt_closed p)).
Proof.
  generalize (pt_closed p). intros segs. revert n.
  assert (forall k segs n, (n <= length segs)%nat -> forall pre, length pre = k ->
    foldr (fun i acc => from_option seg_size 0 ((pre ++ segs) !! i) + acc) 0 (seq k n)
    = seg_bytes (take n segs)) as H.
  { clear. intros k segs. revert k. induction segs as [|s segs IH]; intros k [|n] Hn pre Hp;
      cbn in Hn |- *; try done; [lia|].
    rewrite lookup_app_r, Hp, Nat.sub_diag by lia. cbn.
    specialize (IH (S k) n ltac:(lia) (pre ++ [s])). rewrite <- app_assoc in IH.
    cbn in IH. unfold seg_bytes in IH. rewrite IH; [done|]. rewrite length_app, Hp. cbn. lia. }
  intros n Hn. by apply (H 0%nat segs n Hn []).
Qed.

Lemma segs_inv_drop o segs bss e n :
  segs_inv o segs bss e -> (n < length segs)%nat ->
  exists s, segs !! n = Some s /\ segs_inv (seg_baseOffset s) (drop n segs) (drop n bss) e.
Proof.
  revert o bss n. induction segs as [|s segs IH]; intros o [|bs bss] n; cbn [segs_inv]; try done.
  { cbn. lia. }
  intros (Hs & <- & Hm & Hr) Hn. destruct n as [|n]; [by exists s|].
  cbn in Hn |- *. apply (IH (seg_nextOffset s) bss); [done|lia].
Qed.

(** A partition without its first closed segments. *)
Lemma drop_closed_inv p bss n :
  pt_inv p bss -> (n <= length (pt_closed p))%nat ->
  pt_inv (with_segments p (drop n (pt_closed p)) (pt_active p) (pt_nextOffset p) (pt_highWatermark p)) (drop n bss).
Proof.
  intros [Hs [a Ha] Hh Hne Hcfg Hm] Hn. constructor; try done.
  2: { cbn. by apply Forall_drop. }
  2: { unfold orderedSegmentsLocked in *. cbn. apply Forall_app in Hcfg as [Hcfg ?].
       apply Forall_app. split; [|done]. by apply Forall_drop. }
  unfold orderedSegmentsLocked in *. rewrite Ha in Hs.
  destruct (segs_inv_drop _ _ _ _ n Hs) as (s & Hl & Hd); [rewrite length_app; cbn; lia|].
  cbn [pt_closed pt_active with_segments pt_nextOffset]. rewrite Ha. cbn [option_list] in *.
  replace (earliestOffsetLocked _) with (seg_baseOffset s).
  { by rewrite drop_app_le in Hd by lia. }
  unfold earliestOffsetLocked. cbn [pt_closed pt_active with_segments]. rewrite ?Ha.
  destruct (drop n (pt_closed p)) as [|s' r] eqn:Edrop.
  + assert (length (pt_closed p) <= n)%nat.
    { assert (length (drop n (pt_closed p)) = 0%nat) as E by (by rewrite Edrop).
      rewrite length_drop in E. lia. }
    rewrite lookup_app_r in Hl by lia. replace (n - length _)%nat with 0%nat in Hl by lia.
    by simplify_eq/=.
  + assert (pt_closed p !! n = Some s') as E.
    { rewrite <- (Nat.add_0_r n), <- lookup_drop, Edrop. done. }
    rewrite lookup_app_l in Hl by (by eapply lookup_lt_Some). congruence.
Qed.

(** Retention removes an initial run of the closed segments and nothing
    else: what stays is a suffix of the log with the same end, a valid
    partition. A segment goes only if it is older than the retention time or
    the partition is over its size limit without it; after the run the size
    limit holds or only the active segment is left, and the size has dropped by
    exactly the debt reported beforehand. *)
Theorem retention_correct rd mtime now ret p bss :
  pt_inv p bss ->
  exists n p' gone, enforceRetention rd mtime now ret p = Ok (p', gone) /\
    pt_closed p' = drop n (pt_closed p) /\ pt_active p' = pt_active p /\
    pt_inv p' (drop n bss) /\ pt_nextOffset p' = pt_nextOffset p /\
    totalSizeLocked p' = totalSizeLocked p - RetentionDebt mtime now ret p /\
    (0 < ret_Bytes ret -> pt_closed p' = [] \/ totalSizeLocked p' <= ret_Bytes ret) /\
    forall m s, (m < n)%nat -> pt_closed p !! m = Some s ->
      (0 < ret_Time ret /\ exists t, mtime s = Some t /\ t < now - ret_Time ret) \/
      (0 < ret_Bytes ret /\
       ret_Bytes ret < totalSizeLocked p - seg_bytes (take m (pt_closed p))).
Proof.
  intros Hp. destruct (plan_spec mtime now ret p) as (n & Hn & Hplan & Hend & Hwhy).
  unfold enforceRetention. rewrite Hplan, (remove_all_spec rd p n Hn). exists n. do 2 eexists. split; [done|].
  assert (totalSizeLocked p = seg_bytes (take n (pt_closed p)) + seg_bytes (drop n (pt_closed p))
            + from_option seg_size 0 (pt_active p)) as Htot.
  { rewrite <- seg_bytes_app, take_drop. done. }
  assert (totalSizeLocked (with_segments p (drop n (pt_closed p)) (pt_active p) (pt_nextOffset p)
            (pt_highWatermark p)) = totalSizeLocked p - seg_bytes (take n (pt_closed p))) as Hnew.
  { rewrite Htot. unfold totalSizeLocked, seg_bytes. cbn [pt_closed pt_active with_segments]. lia. }
  split_and!; [done|done| |done| | |done].
  - by apply drop_closed_inv.
  - rewrite Hnew. unfold RetentionDebt. by rewrite Hplan, plan_debt.
  - intros Hb. rewrite Hnew. destruct (Hend Hb) as [->|]; [left|by right].
    cbn. by rewrite drop_ge.
Qed.

(** ** Truncation *)

Lemma truncateTo_keeps s bs target :
  seg_inv s bs -> seg_baseOffset s < target <= seg_nextOffset s ->
  exists bs1 bs2 s', bs = bs1 ++ bs2 /\ Forall (fun b => raw_last b < target) bs1 /\
    reaches target bs2 /\ truncateTo s target = Ok s' /\ seg_nextOffset s' = target /\
    seg_baseOffset s' = seg_baseOffset s /\
    seg_maxSegmentBytes s' = seg_maxSegmentBytes s /\
    seg_indexInterval s' = seg_indexInterval s /\
    (chain (seg_baseOffset s) bs1 target -> seg_inv s' bs1).
Proof.
  intros Hs Ht. pose proof Hs as [_ _ _ _ ? ? ? ? ? _].
  destruct (truncateTo_step s bs target Hs Ht)
    as (bs1 & bs2 & idx' & e & -> & Hlo & Hhi & _ & Hw & Hix & Hsz & ->).
  eexists bs1, bs2, _. do 8 (split; [done|]).
  intros Hch. constructor; cbn; try done; try lia. exists idx'. by split.
Qed.

(** The segments that start below the target are an initial run, and the last
    of them contains the target. *)
Lemma truncate_kept o segs bss e target :
  segs_inv o segs bss e -> o < target <= e ->
  exists pre s post bpre bs bpost, segs = pre ++ s :: post /\ bss = bpre ++ bs :: bpost /\
    List.filter (fun s => negb (target <=? seg_baseOffset s)) segs = pre ++ [s] /\
    segs_inv o pre bpre (seg_baseOffset s) /\ seg_inv s bs /\ 0 < seg_maxSegmentBytes s /\
    segs_inv (seg_nextOffset s) post bpost e /\
    seg_baseOffset s < target <= seg_nextOffset s.
Proof.
  revert o bss. induction segs as [|s segs IH]; intros o [|bs bss]; cbn [segs_inv]; try done.
  { intros; lia. }
  intros (Hs & <- & Hm & Hr) Ht. cbn [List.filter].
  rewrite (proj2 (Z.leb_gt _ _)) by lia. cbn [negb].
  destruct (decide (target <= seg_nextOffset s)) as [Hle|Hgt].
  - exists [], s, segs, [], bs, bss. split_and!; try done; [|lia].
    cbn [app]. f_equal. pose proof (segs_inv_bases _ _ _ _ Hr) as Hb. clear -Hb Hle.
    induction Hb as [|x l Hx _ IH]; [done|]. cbn [List.filter].
    by rewrite (proj2 (Z.leb_le _ _)) by lia.
  - destruct (IH _ _ Hr ltac:(lia))
      as (pre & s' & post & bpre & bs' & bpost & -> & -> & -> & Hpre & ? & ? & ? & ?).
    exists (s :: pre), s', post, (bs :: bpre), bs', bpost. by cbn.
Qed.

Lemma last_app_singleton {A} (l : list A) x :
  last (l ++ [x]) = Some x /\ take (length (l ++ [x]) - 1) (l ++ [x]) = l.
Proof.
  rewrite last_snoc, length_app, Nat.add_sub, take_app_length. done.
Qed.

Lemma reaches_all o bs0 bs e target :
  Forall wf_raw (bs0 ++ bs) -> chain o (bs0 ++ bs) e -> reaches target bs ->
  Forall (fun b => target <= raw_last b) bs.
Proof.
  intros [_ Hw]%Forall_app (m & _ & Hc)%chain_app Hr. destruct bs as [|b bs]; [done|].
  cbn in Hr. constructor; [done|]. destruct Hc as [Hb Hc].
  apply Forall_cons in Hw as [Hwb Hw]. unfold raw_last in Hr |- *.
  eapply Forall_impl; [exact (chain_bounds _ _ _ Hw Hc)|]. simpl. intros x Hx. unfold raw_last in Hx. lia.
Qed.

(** Which segment [TruncateTo] cuts. *)
Lemma TruncateTo_split p bss target :
  pt_inv p bss -> earliestOffsetLocked p < target < pt_nextOffset p -> 0 < target ->
  exists pre s post bpre bs bpost, orderedSegmentsLocked p = pre ++ s :: post /\
    bss = bpre ++ bs :: bpost /\
    segs_inv (earliestOffsetLocked p) pre bpre (seg_baseOffset s) /\ seg_inv s bs /\
    0 < seg_maxSegmentBytes s /\ segs_inv (seg_nextOffset s) post bpost (pt_nextOffset p) /\
    seg_baseOffset s < target <= seg_nextOffset s /\
    pre = take (length pre) (pt_closed p) /\
    TruncateTo p target =
      let? s' := truncateTo s target in Ok (with_segments p pre (Some s') target target).
Proof.
  intros Hp Ht H0. pose proof Hp as [Hs [a Ha] _ _ _ _].
  destruct (truncate_kept _ _ _ _ target Hs ltac:(lia))
    as (pre & s & post & bpre & bs & bpost & Hsegs & -> & Hk & Hpre & Hsi & Hm & Hpost & Hin).
  exists pre, s, post, bpre, bs, bpost. do 7 (split; [done|]).
  unfold TruncateTo. rewrite (proj2 (Z.leb_gt _ 0)), (proj2 (Z.leb_gt _ target)), Ha by lia.
  unfold orderedSegmentsLocked in Hsegs, Hk. rewrite Ha in Hsegs, Hk. change (option_list (Some a)) with [a] in Hsegs, Hk.
  rewrite List.filter_app in Hk. cbn [List.filter] in Hk.
  destruct (Z.leb_spec target (seg_baseOffset a)); cbn [negb] in Hk.
  - rewrite app_nil_r in Hk. rewrite Hk. destruct (last_app_singleton pre s) as [-> ->].
    split; [|done].
    destruct post as [|x post _] using rev_ind.
    { apply app_inj_tail in Hsegs as [_ ->]. lia. }
    rewrite app_comm_cons, app_assoc in Hsegs. apply app_inj_tail in Hsegs as [-> _].
    by rewrite take_app_length.
  - apply app_inj_tail in Hk as [Hk <-]. rewrite Hk. split; [|done].
    destruct post as [|x post _] using rev_ind.
    { apply app_inj_tail in Hsegs as [-> _]. by rewrite firstn_all. }
    rewrite app_comm_cons, app_assoc in Hsegs. apply app_inj_tail in Hsegs as [Hc <-].
    rewrite Hc, List.filter_app in Hk. apply (f_equal length) in Hk.
    rewrite length_app in Hk. cbn [List.filter] in Hk.
    rewrite (proj2 (Z.leb_gt _ _)) in Hk by lia. cbn in Hk.
    pose proof (segs_inv_bases _ _ _ _ Hpre) as Hb.
    assert (List.filter (fun s => negb (target <=? seg_baseOffset s)) pre = pre) as E.
    { clear -Hb Hin. induction Hb as [|y l Hy _ IH]; [done|]. cbn [List.filter].
      rewrite (proj2 (Z.leb_gt _ _)) by lia. cbn. by rewrite IH. }
    rewrite E in Hk. lia.
Qed.

(** Truncating a partition keeps exactly the batches that end below the
    target, whichever segments they are in, and makes the target the log end;
    when the target is a batch boundary the result is a valid partition that
    holds them. *)
Theorem partition_truncate p bss target :
  pt_inv p bss -> earliestOffsetLocked p < target < pt_nextOffset p -> 0 < target ->
  exists keep rest p', mjoin bss = keep ++ rest /\
    Forall (fun b => raw_last b < target) keep /\ Forall (fun b => target <= raw_last b) rest /\
    TruncateTo p target = Ok p' /\ pt_nextOffset p' = target /\ pt_highWatermark p' = target /\
    (chain (earliestOffsetLocked p) keep target ->
       exists bss', pt_inv p' bss' /\ mjoin bss' = keep).
Proof.
  intros Hp Ht H0.
  destruct (TruncateTo_split p bss target Hp Ht H0)
    as (pre & s & post & bpre & bs & bpost & Hsegs & -> & Hpre & Hs & Hm & Hpost & Hin & Htake & ->).
  destruct (truncateTo_keeps s bs target Hs Hin)
    as (bs1 & bs2 & s' & -> & Hlo & Hhi & -> & Hn & Hb & Hmx & Hiv & Hinv).
  destruct (segs_inv_chain _ _ _ _ (pi_segs _ _ Hp)) as [Hw Hc].
  assert (mjoin (bpre ++ (bs1 ++ bs2) :: bpost) = (mjoin bpre ++ bs1) ++ (bs2 ++ mjoin bpost)) as E.
  { by rewrite mjoin_app_cons, <- !app_assoc. }
  rewrite E in *. destruct (segs_inv_chain _ _ _ _ Hpre) as [Hwp Hcp].
  exists (mjoin bpre ++ bs1), (bs2 ++ mjoin bpost). cbn [obind]. eexists.
  split; [done|]. split.
  { apply Forall_app. split; [|done].
    eapply Forall_impl; [by eapply chain_bounds|]. simpl. intros. lia. }
  split.
  { apply Forall_app. split.
    - by apply (reaches_all (seg_baseOffset s) bs1 bs2 (seg_nextOffset s)); [apply Hs..|].
    - destruct (segs_inv_chain _ _ _ _ Hpost) as [Hwq Hcq].
      eapply Forall_impl; [by eapply chain_bounds|]. simpl. intros. lia. }
  do 3 (split; [done|]).
  intros Hch. apply chain_app in Hch as (m & Hc1 & Hc2).
  pose proof (chain_end_unique _ _ _ _ Hc1 Hcp) as ->.
  exists (bpre ++ [bs1]). split; [|by rewrite mjoin_snoc].
  destruct Hp as [_ _ _ Hne Hcfg Hmax].
  assert (earliestOffsetLocked (with_segments p pre (Some s') target target)
          = earliestOffsetLocked p) as He.
  { unfold earliestOffsetLocked. cbn. destruct pre as [|x pre]; cbn in Hpre.
    - destruct bpre; [|done]. rewrite Hb, <- Hpre. done.
    - destruct bpre; [done|]. by destruct Hpre as (_ & -> & _). }
  rewrite Hsegs in Hcfg. apply Forall_app in Hcfg as [Hcp' [[Hc3 Hc4] _]%Forall_cons].
  constructor; cbn; try done; [rewrite He|rewrite Htake; by apply Forall_take|].
  - apply segs_inv_app. exists bpre, [bs1], (seg_baseOffset s). split; [done|]. split; [done|].
    cbn. split_and!; [by apply Hinv|done|lia|done].
  - apply Forall_app. split; [done|]. constructor; [split; cbn; congruence|constructor].
Qed.

(** ** Reopening *)

Lemma elem_of_uniq_from prev bases x :
  x ∈ uniq_from prev bases -> x ∈ bases.
Proof.
  revert prev. induction bases as [|b bases IH]; intros prev; [done|]. cbn [uniq_from].
  destruct (b =? prev); [|intros [->|H]%elem_of_cons]; [right; eauto|left|right; eauto].
Qed.

Lemma uniq_from_elem prev bases x :
  x ∈ bases -> x = prev \/ x ∈ uniq_from prev bases.
Proof.
  revert prev. induction bases as [|b bases IH]; intros prev Hx; [by apply elem_of_nil in Hx|].
  cbn [uniq_from]. apply elem_of_cons in Hx as [->|Hx].
  - destruct (Z.eqb_spec b prev); [by left|right; left].
  - destruct (IH b Hx) as [->|?]; destruct (Z.eqb_spec b prev); [by left|right; left|by right|].
    right. by right.
Qed.

Lemma elem_of_uniq bases x : x ∈ uniq bases <-> x ∈ bases.
Proof.
  destruct bases as [|b bases]; [done|]. cbn [uniq]. rewrite !elem_of_cons. split.
  - intros [->|H%elem_of_uniq_from]; auto.
  - intros [->|H]; [by left|]. destruct (uniq_from_elem b bases x H); auto.
Qed.

Lemma uniq_sorted bases : StronglySorted Z.le bases -> StronglySorted Z.lt (uniq bases).
Proof.
  assert (forall prev l, StronglySorted Z.le (prev :: l) ->
            StronglySorted Z.lt (prev :: uniq_from prev l)) as H.
  { intros prev l. revert prev. induction l as [|b l IH]; intros prev Hs; [repeat constructor|].
    apply StronglySorted_inv in Hs as [Hs Hp]. pose proof (IH b Hs) as Hb. cbn [uniq_from].
    destruct (Z.eqb_spec b prev) as [->|Hne]; [done|]. constructor; [done|].
    apply Forall_cons in Hp as [Hle Hp]. constructor; [lia|].
    apply StronglySorted_inv in Hb as [_ Hb]. eapply Forall_impl; [exact Hb|]. simpl. intros. lia. }
  destruct bases as [|b bases]; [constructor|apply H].
Qed.

(** Strictly ascending lists are determined by their elements. *)
Lemma strictly_sorted_unique l k :
  StronglySorted Z.lt l -> StronglySorted Z.lt k -> (forall x, x ∈ l <-> x ∈ k) -> l = k.
Proof.
  intros Hl. revert k. induction Hl as [|x l Hl IH Hx]; intros k Hk Heq.
  { destruct k as [|y k]; [done|]. exfalso. by apply (not_elem_of_nil y), Heq; left. }
  destruct Hk as [|y k Hk Hy]; [exfalso; apply (not_elem_of_nil x), Heq; by left|].
  rewrite Forall_forall in Hx, Hy.
  assert (x = y) as ->.
  { destruct (decide (x = y)) as [|Hne]; [done|].
    pose proof (proj1 (Heq x) (list_elem_of_here _ _)) as [?|H1]%elem_of_cons; [done|].
    pose proof (proj2 (Heq y) (list_elem_of_here _ _)) as [?|H2]%elem_of_cons; [done|].
    specialize (Hx _ H2). specialize (Hy _ H1). lia. }
  f_equal. apply IH; [done|]. intros z. specialize (Heq z). rewrite !elem_of_cons in Heq.
  split; intros Hz.
  - destruct (proj1 Heq (or_intror Hz)) as [->|]; [|done]. specialize (Hx _ Hz). lia.
  - destruct (proj2 Heq (or_intror Hz)) as [->|]; [|done]. specialize (Hy _ Hz). lia.
Qed.

Lemma segs_bases_sorted o segs bss e a :
  segs_inv o (segs ++ [a]) bss e ->
  Forall (fun s => seg_baseOffset s < seg_nextOffset s) segs ->
  StronglySorted Z.lt (seg_baseOffset <$> segs ++ [a]).
Proof.
  revert o bss. induction segs as [|s segs IH]; intros o [|bs bss]; cbn [app segs_inv]; try done.
  { intros _ _. repeat constructor. }
  intros (Hs & <- & _ & Hr) [Hlt Hf]%Forall_cons. cbn. constructor; [by eapply IH|].
  apply Forall_fmap. eapply Forall_impl; [by eapply segs_inv_bases|]. simpl. intros. lia.
Qed.

(** What the directory holds: each segment's files, and behind the active
    segment's log the torn bytes [tl]. *)
Definition dir_of (dir : Z -> segFiles) (p : Partition) (tl : list byte) : Prop :=
  Forall (fun s => dir (seg_baseOffset s) = files_of s []) (pt_closed p) /\
  forall a, pt_active p = Some a -> dir (seg_baseOffset a) = files_of a tl.

Lemma open_all_each dir maxBytes interval segs segs' :
  Forall2 (fun s s' => openSegment (dir (seg_baseOffset s)) (seg_baseOffset s) maxBytes interval = Ok s') segs segs' ->
  open_all dir maxBytes interval (seg_baseOffset <$> segs) = Ok segs'.
Proof. induction 1 as [|s s' segs segs' Hs _ IH]; [done|]. cbn. by rewrite Hs, IH. Qed.

(** [Partition.recover] when every segment opens. *)
Lemma recover_opened dir bases q segs a segs' a' :
  pt_closed q = [] -> StronglySorted Z.lt (seg_baseOffset <$> segs ++ [a]) ->
  (forall b, b ∈ bases <-> b ∈ seg_baseOffset <$> segs ++ [a]) ->
  Forall2 (fun s s' => openSegment (dir (seg_baseOffset s)) (seg_baseOffset s) (pt_maxSegmentBytes q)
                         (pt_indexInterval q) = Ok s') (segs ++ [a]) (segs' ++ [a']) ->
  recover_partition dir bases q = Ok (with_segments q segs' (Some a') (seg_nextOffset a') (seg_nextOffset a')).
Proof.
  intros Hq Hsort Hb Hopen.
  assert (uniq (merge_sort Z.le bases) = seg_baseOffset <$> (segs ++ [a])) as Hu.
  { apply strictly_sorted_unique; [apply uniq_sorted, StronglySorted_merge_sort; apply _|done|].
    intros x. rewrite elem_of_uniq, merge_sort_Permutation. apply Hb. }
  unfold recover_partition. rewrite Hu, (open_all_each _ _ _ _ _ Hopen), Hq. cbn [obind app].
  by destruct (last_app_singleton segs' a') as [-> ->].
Qed.

Lemma open_closed dir p segs bss o e :
  segs_inv o segs bss e -> Forall (seg_cfg p) segs ->
  Forall (fun s => dir (seg_baseOffset s) = files_of s []) segs ->
  Forall2 (fun s s' => openSegment (dir (seg_baseOffset s)) (seg_baseOffset s) (pt_maxSegmentBytes p)
                         (pt_indexInterval p) = Ok s') segs (reopened <$> segs).
Proof.
  revert o bss. induction segs as [|s segs IH]; intros o [|bs bss]; cbn [segs_inv]; try done.
  intros (Hs & _ & _ & Hr) [[E1 E2] Hc]%Forall_cons [Hd Hf]%Forall_cons.
  rewrite fmap_cons. constructor; [|by eapply IH].
  by rewrite <- E1, <- E2, Hd, (openSegment_files s bs) by (done || by left).
Qed.

Lemma reopened_segs_inv o segs bss e :
  segs_inv o segs bss e -> segs_inv o (reopened <$> segs) bss e.
Proof.
  revert o bss. induction segs as [|s segs IH]; intros o [|bs bss]; cbn [segs_inv fmap list_fmap]; try done.
  intros (Hs & ? & ? & Hr). split_and!; try done; [by apply reopened_inv|by apply IH].
Qed.

(** An empty partition object, as [OpenPartition] starts with. *)
Definition unopened (p : Partition) : Partition :=
  mkPartition [] None 0 0 (pt_maxSegmentBytes p) (pt_indexInterval p) 0 0.

(** A partition whose segments were closed and opened again. *)
Lemma reopened_pt_inv p q a bss :
  pt_inv p bss -> pt_active p = Some a ->
  pt_maxSegmentBytes q = pt_maxSegmentBytes p -> pt_indexInterval q = pt_indexInterval p ->
  let p' := with_segments q (reopened <$> pt_closed p) (Some (reopened a)) (seg_nextOffset a) (seg_nextOffset a) in
  pt_inv p' bss /\ earliestOffsetLocked p' = earliestOffsetLocked p /\ pt_nextOffset p' = pt_nextOffset p.
Proof.
  intros Hp Ha Hq1 Hq2 p'.
  assert (pt_nextOffset p = seg_nextOffset a) as Hn.
  { destruct (pt_inv_active p bss Hp) as (a0 & _ & _ & Ha0 & _ & _ & _ & _ & Hn & _). congruence. }
  destruct Hp as [Hs _ Hh Hne Hcfg Hmax]. unfold orderedSegmentsLocked in *. rewrite Ha in Hs, Hcfg.
  assert (earliestOffsetLocked p' = earliestOffsetLocked p) as Hear.
  { unfold earliestOffsetLocked, p'. cbn. rewrite Ha. by destruct (pt_closed p). }
  split; [|by split]. constructor; try done.
  - rewrite Hear. unfold orderedSegmentsLocked. cbn.
    change ([reopened a]) with (reopened <$> [a]). rewrite <- fmap_app, <- Hn.
    by apply reopened_segs_inv.
  - cbn. apply Forall_fmap. eapply Forall_impl; [exact Hne|]. done.
  - unfold orderedSegmentsLocked. cbn. change ([reopened a]) with (reopened <$> [a]).
    rewrite <- fmap_app. apply Forall_fmap. eapply Forall_impl; [exact Hcfg|].
    intros s [E1 E2]. split; cbn; congruence.
  - cbn. by rewrite Hq1.
Qed.

Lemma pt_inv_sorted p bss a :
  pt_inv p bss -> pt_active p = Some a -> StronglySorted Z.lt (seg_baseOffset <$> pt_closed p ++ [a]).
Proof.
  intros [Hs _ _ Hne _ _] Ha. unfold orderedSegmentsLocked in Hs. rewrite Ha in Hs. by eapply segs_bases_sorted.
Qed.

(** [Partition.recover] for a partition object with no segments yet. *)
Lemma reopen_spec dir bases p q bss tl :
  pt_closed q = [] -> pt_maxSegmentBytes q = pt_maxSegmentBytes p ->
  pt_indexInterval q = pt_indexInterval p ->
  pt_inv p bss -> dir_of dir p tl -> torn tl -> 12 <= zlen tl \/ tl = [] ->
  (forall b, b ∈ bases <-> b ∈ seg_baseOffset <$> orderedSegmentsLocked p) ->
  exists p', recover_partition dir bases q = Ok p' /\ pt_inv p' bss /\
    earliestOffsetLocked p' = earliestOffsetLocked p /\ pt_nextOffset p' = pt_nextOffset p.
Proof.
  intros Hq0 Hq1 Hq2 Hp [Hdc Hda] Ht Hl Hb.
  destruct (pt_inv_active p bss Hp) as (a & bssc & bsa & Ha & _ & Hc & Hs & _ & _ & Hcfg & [Hca1 Hca2]).
  unfold orderedSegmentsLocked in Hb. rewrite Ha in Hb.
  eexists. split; [|by eapply reopened_pt_inv].
  apply (recover_opened _ _ _ (pt_closed p) a (reopened <$> pt_closed p) (reopened a));
    [done|by eapply pt_inv_sorted|done|].
  apply Forall2_app; [rewrite Hq1, Hq2; by eapply open_closed|]. constructor; [|constructor].
  rewrite Hq1, Hq2, <- Hca1, <- Hca2, (Hda a Ha), (openSegment_files a bsa tl) by done.
  replace ((0 <? zlen tl) && (zlen tl <? 12)) with false; [done|].
  symmetry. apply andb_false_iff. destruct Hl as [Hl| ->]; [right; by apply Z.ltb_ge|by left].
Qed.

(** C5: opening a partition's directory after a crash, whatever order the
    directory is listed in and with a torn batch of at least twelve bytes (or
    nothing) behind the last log, gives a partition with the same batches in
    the same segments, the same log start and the same log end. *)
Theorem partition_reopen dir bases p bss tl :
  pt_inv p bss -> dir_of dir p tl -> torn tl -> 12 <= zlen tl \/ tl = [] ->
  (forall b, b ∈ bases <-> b ∈ seg_baseOffset <$> orderedSegmentsLocked p) ->
  exists p', recover_partition dir bases (unopened p) = Ok p' /\ pt_inv p' bss /\
    earliestOffsetLocked p' = earliestOffsetLocked p /\ pt_nextOffset p' = pt_nextOffset p.
Proof. by apply reopen_spec. Qed.

(** ** A worked example: three appends to a partition that rolls *)

Fixpoint segs_check (o : Z) (segs : list Segment) (bss : list (list (list byte))) (e : Z) : bool :=
  match segs, bss with
  | [], [] => o =? e
  | s :: r, bs :: rs =>
      seg_check s bs && (seg_baseOffset s =? o) && (0 <? seg_maxSegmentBytes s) &&
      segs_check (seg_nextOffset s) r rs e
  | _, _ => false
  end.

Lemma segs_check_sound o segs bss e : segs_check o segs bss e = true -> segs_inv o segs bss e.
Proof.
  revert o bss. induction segs as [|s segs IH]; intros o [|bs bss]; cbn [segs_check segs_inv]; try done.
  { by intros H%Z.eqb_eq. }
  rewrite !andb_true_iff, Z.eqb_eq, Z.ltb_lt. intros (((H1 & H2) & H3) & H4).
  split_and!; [by apply seg_check_sound|done|done|by apply IH].
Qed.

Fixpoint append_raws (p : Partition) (raws : list (list byte)) : Partition :=
  match raws with
  | [] => p
  | raw :: r => append_raws (fst (Append p raw)) r
  end.

Definition demo_partition : Partition :=
  append_raws (mkPartition [] (Some (fresh 0 150 50)) 0 0 150 50 0 0)
    [demo_raw; demo_raw; demo_raw].

(** The first segment holds two batches when it is full, the second one. *)
Definition demo_segments : list (list (list byte)) :=
  [[set_base demo_raw 0; set_base demo_raw 2]; [set_base demo_raw 4]].

Lemma demo_partition_inv : pt_inv demo_partition demo_segments.
Proof.
  constructor.
  - apply segs_check_sound. vm_compute. reflexivity.
  - eexists. vm_compute. reflexivity.
  - vm_compute. reflexivity.
  - vm_compute. repeat constructor.
  - vm_compute. repeat constructor.
  - vm_compute. reflexivity.
Qed.

Definition demo_active : Segment := default (fresh 0 0 0) (pt_active demo_partition).

Lemma demo_active_eq a : pt_active demo_partition = Some a -> a = demo_active.
Proof. unfold demo_active. by intros ->. Qed.

Lemma partition_append_witness :
  exists p' bss', Append demo_partition demo_raw = (p', Ok 6) /\ pt_inv p' bss' /\
    mjoin bss' = mjoin demo_segments ++ [set_base demo_raw 6] /\
    pt_nextOffset p' = 8 /\ pt_highWatermark p' = pt_nextOffset p' /\
    earliestOffsetLocked p' = 0.
Proof.
  apply (partition_append demo_partition demo_segments demo_raw demo_partition_inv).
  - decide_closed.
  - intros a ->%demo_active_eq. vm_compute. split; discriminate.
  - vm_compute. discriminate.
Defined.

Lemma partition_read_witness :
  exists b tl, b ∈ mjoin demo_segments /\ raw_base b <= 3 <= raw_last b /\
    spec_read 3 1000 (mjoin demo_segments) [] = b ++ tl /\
    Read None demo_partition 3 1000
    = (demo_partition, Ok (spec_read 3 1000 (mjoin demo_segments) []), 6).
Proof.
  apply (partition_read None demo_partition demo_segments 3 1000 demo_partition_inv).
  - vm_compute. split; [discriminate|reflexivity].
  - lia.
  - lia.
  - unfold fits. decide_closed.
Defined.

Definition demo_mtime (s : Segment) : option Z := Some (seg_nextOffset s).

Lemma retention_correct_witness :
  exists n p' gone,
    enforceRetention true demo_mtime 10 (mkRetention 1 100) demo_partition = Ok (p', gone) /\
    pt_closed p' = drop n (pt_closed demo_partition) /\
    pt_active p' = pt_active demo_partition /\
    pt_inv p' (drop n demo_segments) /\ pt_nextOffset p' = pt_nextOffset demo_partition /\
    totalSizeLocked p' = totalSizeLocked demo_partition
      - RetentionDebt demo_mtime 10 (mkRetention 1 100) demo_partition /\
    (0 < ret_Bytes (mkRetention 1 100) ->
       pt_closed p' = [] \/ totalSizeLocked p' <= ret_Bytes (mkRetention 1 100)) /\
    forall m s, (m < n)%nat -> pt_closed demo_partition !! m = Some s ->
      (0 < ret_Time (mkRetention 1 100) /\
       exists t, demo_mtime s = Some t /\ t < 10 - ret_Time (mkRetention 1 100)) \/
      (0 < ret_Bytes (mkRetention 1 100) /\
       ret_Bytes (mkRetention 1 100)
       < totalSizeLocked demo_partition - seg_bytes (take m (pt_closed demo_partition))).
Proof. exact (retention_correct _ _ _ _ demo_partition demo_segments demo_partition_inv). Defined.

Lemma partition_truncate_witness :
  exists keep rest p', mjoin demo_segments = keep ++ rest /\
    Forall (fun b => raw_last b < 2) keep /\ Forall (fun b => 2 <= raw_last b) rest /\
    TruncateTo demo_partition 2 = Ok p' /\ pt_nextOffset p' = 2 /\ pt_highWatermark p' = 2 /\
    (chain (earliestOffsetLocked demo_partition) keep 2 ->
       exists bss', pt_inv p' bss' /\ mjoin bss' = keep).
Proof.
  apply (partition_truncate demo_partition demo_segments 2 demo_partition_inv).
  - vm_compute. split; reflexivity.
  - lia.
Defined.

(** The demo partition's directory after a crash in the middle of a write. *)
Definition demo_dir (base : Z) : segFiles :=
  match orderedSegmentsLocked demo_partition with
  | [s0; s1] => if base =? 0 then files_of s0 [] else files_of s1 (take 40 demo_raw)
  | _ => mkFiles None None None
  end.

Lemma partition_reopen_witness :
  exists p', recover_partition demo_dir [4; 0; 4] (unopened demo_partition) = Ok p' /\
    pt_inv p' demo_segments /\
    earliestOffsetLocked p' = earliestOffsetLocked demo_partition /\
    pt_nextOffset p' = pt_nextOffset demo_partition.
Proof.
  apply (partition_reopen demo_dir [4; 0; 4] demo_partition demo_segments (take 40 demo_raw)
           demo_partition_inv).
  - split.
    + vm_compute. repeat constructor.
    + intros a ->%demo_active_eq. vm_compute. reflexivity.
  - right. exists demo_raw, 40%nat. split; [decide_closed|].
    split; [apply Nat.ltb_lt; vm_compute; reflexivity|reflexivity].
  - left. vm_compute. discriminate.
  - intros b. change (seg_baseOffset <$> orderedSegmentsLocked demo_partition) with [0; 4].
    rewrite !elem_of_cons, elem_of_nil. tauto.
Defined.
