(* ===== verification/Tiering.v ===== *)
(** * Tiering of closed segments (internal/storage/tiered.go)

    Closed segments that have not been written for a while are copied to an
    object store and their local files removed; a read brings them back. The
    object store is a class: what the code calls of it and what it relies on.
    The offloader runs in a goroutine of its own and holds the partition's mutex
    only while it chooses segments and while it marks them, so it is three
    kinds of steps ([scan], [upload_next], [mark_uploaded]) that interleave with
    everything else that happens to the partition. Segments are objects with an
    identity in the source ([hasClosedSegmentLocked] compares pointers); the
    model numbers them. *)

From stdpp Require Import prelude list gmap strings sorting.
From Stdlib Require Import ZArith Lia.
From S2P Require Import Prelude GoStrings GoBinary Wire RecordBatch Index Segment SegmentOps Partition PartitionOps.

(** ** Object keys *)

(** [strings.Join] and [path/filepath]'s [Join], with the [Clean] it applies. *)
Fixpoint join_with (sep : gostring) (elems : list gostring) : gostring :=
  match elems with
  | [] => []
  | [x] => x
  | x :: r => x ++ sep ++ join_with sep r
  end.

Definition clean_step (rooted : bool) (acc : list gostring) (c : gostring) : list gostring :=
  if bool_decide (c = [] \/ c = [x2e]) then acc
  else if bool_decide (c = [x2e; x2e]) then
    match acc with
    | [] => if rooted then [] else [c]
    | d :: r => if bool_decide (d = [x2e; x2e]) then c :: acc else r
    end
  else c :: acc.

Definition filepath_Clean (path : gostring) : gostring :=
  let rooted := HasPrefix path [x2f] in
  let elems := rev (fold_left (clean_step rooted) (Split path x2f) []) in
  if rooted then x2f :: join_with [x2f] elems
  else if bool_decide (elems = []) then [x2e] else join_with [x2f] elems.

Definition filepath_Join (elems : list gostring) : gostring :=
  let elems := List.filter (fun e => negb (bool_decide (e = []))) elems in
  if bool_decide (elems = []) then [] else filepath_Clean (join_with [x2f] elems).

(** [fmt]'s verb [%020d]. *)
Definition pad_zeros (width : nat) (s : gostring) : gostring := replicate (width - length s) x30 ++ s.

Definition format_020d (n : Z) : gostring :=
  if n <? 0 then x2d :: pad_zeros 19 (itoa (- n)) else pad_zeros 20 (itoa n).

Definition log_ext : gostring := str ".log".
Definition index_ext : gostring := str ".index".

Definition tierKey (topic : gostring) (partitionID baseOffset : Z) (ext : gostring) : gostring :=
  filepath_Join [topic; itoa partitionID; format_020d baseOffset ++ ext].

(** A last element that [Clean] leaves alone. *)
Definition plain (c : gostring) : Prop :=
  Forall (fun b => b <> x2f) c /\ c <> [] /\ c <> [x2e] /\ c <> [x2e; x2e].

Lemma Split_last s c : Forall (fun b => b <> x2f) c -> Split (s ++ x2f :: c) x2f = Split s x2f ++ [c].
Proof.
  intros Hc. unfold Split. generalize (@nil byte) as cur. induction s as [|b s IH]; intros cur.
  - cbn [app split_from]. rewrite bool_decide_eq_true_2 by done. by rewrite split_from_plain.
  - cbn [app split_from]. case_bool_decide; [|apply IH]. by rewrite IH.
Qed.

Lemma clean_step_plain rooted acc c : plain c -> clean_step rooted acc c = c :: acc.
Proof.
  intros (_ & H0 & H1 & H2). unfold clean_step. rewrite bool_decide_eq_false_2 by (by intros [?|?]).
  by rewrite bool_decide_eq_false_2.
Qed.

Lemma join_with_last sep l c :
  join_with sep (l ++ [c]) = match l with [] => c | _ => join_with sep l ++ sep ++ c end.
Proof.
  induction l as [|x l IH]; [done|]. destruct l as [|y l]; [done|].
  change (join_with sep ((x :: y :: l) ++ [c])) with (x ++ sep ++ join_with sep ((y :: l) ++ [c])).
  rewrite IH. change (join_with sep (x :: y :: l)) with (x ++ sep ++ join_with sep (y :: l)).
  by rewrite <- !app_assoc.
Qed.

Lemma HasPrefix_slash s c : s <> [] -> HasPrefix (s ++ c) [x2f] = HasPrefix s [x2f].
Proof. by destruct s. Qed.

Lemma Clean_last s : s <> [] -> exists pre, forall c, plain c -> filepath_Clean (s ++ x2f :: c) = pre ++ c.
Proof.
  intros Hs. set (rooted := HasPrefix s [x2f]).
  set (elems := rev (fold_left (clean_step rooted) (Split s x2f) [])).
  exists ((if rooted then [x2f] else []) ++ match elems with [] => [] | _ => join_with [x2f] elems ++ [x2f] end).
  intros c Hc. unfold filepath_Clean. rewrite HasPrefix_slash by done. fold rooted.
  rewrite Split_last, fold_left_app by apply Hc. cbn [fold_left]. rewrite clean_step_plain by done.
  cbn [rev]. fold elems. rewrite join_with_last.
  rewrite (bool_decide_eq_false_2 (elems ++ [c] = [])) by (by intros [_ ?]%app_eq_nil).
  destruct rooted, elems; rewrite ?app_nil_r, <- ?app_assoc; done.
Qed.

Lemma itoa_not_empty n : itoa n <> [].
Proof.
  unfold itoa. destruct (n <? 0); [done|]. apply digits_nonempty. lia.
Qed.

(** Keys of one partition differ only in the name of the file. *)
Lemma tierKey_name topic partitionID :
  exists pre, forall base ext, plain (format_020d base ++ ext) ->
    tierKey topic partitionID base ext = pre ++ format_020d base ++ ext.
Proof.
  set (n := itoa partitionID). assert (n <> []) as Hn by apply itoa_not_empty.
  set (dir := match topic with [] => n | _ => topic ++ x2f :: n end).
  destruct (Clean_last dir) as [pre Hpre]; [unfold dir; by destruct topic|].
  exists pre. intros base ext Hp. rewrite <- Hpre by done. unfold tierKey, filepath_Join. fold n.
  assert (format_020d base ++ ext <> []) as Hf by apply Hp. cbn [List.filter].
  rewrite (bool_decide_eq_false_2 (n = [])), (bool_decide_eq_false_2 (format_020d base ++ ext = [])) by done.
  cbn [negb]. unfold dir. destruct topic as [|x topic].
  - rewrite (bool_decide_eq_true_2 ([] = [])) by done. cbn [negb].
    by rewrite (bool_decide_eq_false_2 ([n; _] = [])) by done.
  - rewrite (bool_decide_eq_false_2 (x :: topic = [])) by done. cbn [negb].
    rewrite (bool_decide_eq_false_2 ([_; n; _] = [])) by done. cbn [join_with]. by rewrite <- app_assoc.
Qed.

Lemma parse_digits_zeros k s : parse_digits 0 (replicate k x30 ++ s) = parse_digits 0 s.
Proof. induction k as [|k IH]; [done|]. exact IH. Qed.

Lemma length_digits fuel n acc : (length (digits fuel n acc) <= fuel + length acc)%nat.
Proof.
  revert n acc. induction fuel as [|fuel IH]; intros n acc; cbn [digits]; [lia|].
  destruct (n <? 10); cbn [length]; [lia|]. etrans; [apply IH|]. cbn [length]. lia.
Qed.

Lemma format_020d_spec n :
  0 <= n < 10 ^ 20 ->
  length (format_020d n) = 20%nat /\ parse_digits 0 (format_020d n) = Some n /\
  Forall (fun b => 48 <= b2z b <= 57) (format_020d n).
Proof.
  intros Hn. unfold format_020d. rewrite (proj2 (Z.ltb_ge _ _)) by lia. unfold pad_zeros.
  destruct (itoa_digits n ltac:(lia)) as [Hd _]. unfold itoa in *. rewrite (proj2 (Z.ltb_ge _ _)) in * by lia.
  pose proof (length_digits 20 n []) as Hl. cbn [length] in Hl. split_and!.
  - rewrite length_app, length_replicate. lia.
  - rewrite parse_digits_zeros, parse_digits_digits by (done || lia). done.
  - apply Forall_app. split; [|done]. apply Forall_replicate. cbn. lia.
Qed.

Definition file_ext (ext : gostring) : Prop := ext = log_ext \/ ext = index_ext.

Lemma file_name_plain n ext : 0 <= n < 10 ^ 20 -> file_ext ext -> plain (format_020d n ++ ext).
Proof.
  intros Hn He. destruct (format_020d_spec n Hn) as (Hl & _ & Hd).
  assert (20 <= length (format_020d n ++ ext))%nat as Hl' by (rewrite length_app; lia).
  split_and!.
  - apply Forall_app. split.
    + eapply Forall_impl; [exact Hd|]. intros b Hb ->. cbn in Hb. lia.
    + destruct He as [-> | ->]; apply (bool_decide_unpack _); vm_compute; exact I.
  - intros E. rewrite E in Hl'. cbn in Hl'. lia.
  - intros E. rewrite E in Hl'. cbn in Hl'. lia.
  - intros E. rewrite E in Hl'. cbn in Hl'. lia.
Qed.

(** No two segments of a partition share a key, nor a segment's two files. *)
Lemma tierKey_inj topic partitionID n m ext ext' :
  0 <= n < 10 ^ 20 -> 0 <= m < 10 ^ 20 -> file_ext ext -> file_ext ext' ->
  tierKey topic partitionID n ext = tierKey topic partitionID m ext' -> n = m /\ ext = ext'.
Proof.
  intros Hn Hm He He'. destruct (tierKey_name topic partitionID) as [pre Hpre].
  rewrite !Hpre by (by apply file_name_plain). intros E%app_inv_head.
  destruct (format_020d_spec n Hn) as (Hl & Hv & _). destruct (format_020d_spec m Hm) as (Hl' & Hv' & _).
  apply app_inj_1 in E as [E1 E2]; [|congruence]. split; [|done]. rewrite E1 in Hv. congruence.
Qed.

(** ** The stub of an offloaded segment (segment.go) *)

(** What [markRemote] writes; Segment.v keeps the three values. *)
Definition stub_text (logKey indexKey : gostring) (next : Z) : gostring :=
  logKey ++ x0a :: indexKey ++ x0a :: itoa next.

(** [fmt.Sscanf] with the verb [%d] on one line: a sign, then as many digits as
    there are; without any, or beyond 64 bits, the variable stays 0. *)
Fixpoint scan_digits (z : Z) (s : gostring) : Z :=
  match s with
  | b :: r => if (48 <=? b2z b) && (b2z b <=? 57) then scan_digits (10 * z + (b2z b - 48)) r else z
  | [] => z
  end.

Definition Sscanf_d (s : gostring) : Z :=
  let n := match s with
           | x2d :: r => - scan_digits 0 r
           | x2b :: r => scan_digits 0 r
           | _ => scan_digits 0 s
           end in
  if (-9223372036854775808 <=? n) && (n <=? 9223372036854775807) then n else 0.

Definition readRemoteStub (data : gostring) : outcome (gostring * gostring * Z) :=
  match Split (TrimSpace data) x0a with
  | logKey :: indexKey :: next :: _ => Ok (logKey, indexKey, Sscanf_d next)
  | _ => Err "malformed remote stub"
  end.

(** [remoteKeys] reads the same file. *)
Definition stub_keys (data : gostring) : outcome (gostring * gostring) :=
  match SplitN (TrimSpace data) x0a 3 with
  | logKey :: indexKey :: _ => Ok (logKey, indexKey)
  | _ => Err "malformed remote stub"
  end.

Lemma scan_digits_parse s z n :
  parse_digits z s = Some n -> scan_digits z s = n.
Proof.
  revert z. induction s as [|b s IH]; intros z; cbn; [by intros [= ->]|].
  destruct (_ && _); [apply IH|done].
Qed.

(** What was written is read back. *)
Lemma stub_roundtrip b logKey indexKey next :
  printing b -> Forall (fun c => c <> x0a) (b :: logKey) -> Forall (fun c => c <> x0a) indexKey ->
  0 <= next < 9223372036854775808 ->
  readRemoteStub (stub_text (b :: logKey) indexKey next) = Ok (b :: logKey, indexKey, next) /\
  stub_keys (stub_text (b :: logKey) indexKey next) = Ok (b :: logKey, indexKey).
Proof.
  intros Hb Hl Hi Hn. destruct (itoa_digits next ltac:(lia)) as [Hd Hne].
  assert (Forall (fun c => c <> x0a) (itoa next)) as Hplain.
  { eapply Forall_impl; [exact Hd|]. intros c Hc ->. cbn in Hc. lia. }
  assert (TrimSpace (stub_text (b :: logKey) indexKey next) = stub_text (b :: logKey) indexKey next) as Ht.
  { destruct (exists_last Hne) as (ds & d & Ed). rewrite Ed in Hd. apply Forall_app in Hd as [_ [Hd _]%Forall_cons].
    apply (TrimSpace_printing _ b d (logKey ++ x0a :: indexKey ++ x0a :: ds)); [done|unfold printing; lia|].
    unfold stub_text. rewrite Ed. cbn [app]. f_equal. by rewrite <- !app_assoc; cbn [app]; rewrite <- !app_assoc. }
  unfold readRemoteStub, stub_keys. rewrite Ht. unfold stub_text, Split, SplitN. cbn [Nat.sub]. split.
  - rewrite split_from_app, split_from_app, split_from_plain by done. cbn [app]. do 2 f_equal.
    pose proof Hd as Hd'. destruct (itoa next) as [|c s] eqn:E; [done|]. apply Forall_cons in Hd' as [Hc _].
    assert (parse_digits 0 (c :: s) = Some next) as Hp.
    { rewrite <- E. unfold itoa. rewrite (proj2 (Z.ltb_ge _ _)) by lia. rewrite parse_digits_digits; [done|cbn; lia|lia]. }
    apply scan_digits_parse in Hp. unfold Sscanf_d.
    assert (match c with x2d => - scan_digits 0 s | x2b => scan_digits 0 s | _ => scan_digits 0 (c :: s) end = next) as ->.
    { destruct c; try exact Hp; cbn in Hc; lia. }
    by rewrite (proj2 (Z.leb_le _ _)), (proj2 (Z.leb_le _ _)) by lia.
  - enough (forall n cur s r, Forall (fun c => c <> x0a) s ->
      splitn_from (S n) x0a cur (s ++ x0a :: r) = (cur ++ s) :: splitn_from n x0a [] r) as H.
    { by rewrite H, H by done. }
    intros n cur s r Hs. revert cur. induction Hs as [|c s Hc _ IH]; intros cur; cbn.
    + by rewrite app_nil_r.
    + rewrite bool_decide_eq_false_2 by done. rewrite IH. by rewrite <- app_assoc.
Qed.

(** The stub is written in place: a crash in the middle of its last line leaves a
    stub that is read as the end of a shorter segment, while the segment's own
    files, which are still there, are not looked at any more. *)
Lemma torn_stub_shortens :
  readRemoteStub (take 11 (stub_text (str "a/0") (str "b/0") 1234)) = Ok (str "a/0", str "b/0", 123).
Proof. reflexivity. Qed.

(** ** The object store *)

(** [objects] is what the bucket holds. A call that fails may have reached the
    store or not. *)
Class ObjectStore (O : Type) := {
  objects : O -> gostring -> option (list byte);
  PutObject : O -> gostring -> list byte -> O * outcome unit;
  GetObject : O -> gostring -> outcome (list byte);
  DeleteObject : O -> gostring -> O * outcome unit;
  put_stored o k d o' : PutObject o k d = (o', Ok tt) -> objects o' k = Some d;
  put_other o k d k' : k' <> k -> objects (PutObject o k d).1 k' = objects o k';
  delete_other o k k' : k' <> k -> objects (DeleteObject o k).1 k' = objects o k';
  get_sound o k d : GetObject o k = Ok d -> objects o k = Some d }.

(** A store that always answers. *)
#[export] Program Instance bucket : ObjectStore (gmap gostring (list byte)) := {
  objects o k := o !! k;
  PutObject o k d := (<[k := d]> o, Ok tt);
  GetObject o k := match o !! k with Some d => Ok d | None => Err "not found" end;
  DeleteObject o k := (delete k o, Ok tt) }.
Next Obligation. intros o k d o' [= <-]. apply lookup_insert_eq. Qed.
Next Obligation. intros o k d k' Hne. by apply lookup_insert_ne. Qed.
Next Obligation. intros o k k' Hne. by apply lookup_delete_ne. Qed.
Next Obligation. intros o k d. cbv beta. destruct (o !! k); [|done]. by intros [= <-]. Qed.

(** ** Operations *)

Section tiering.
Context {O : Type} `{!ObjectStore O}.
(** The partition's name, and the age a segment is offloaded at. *)
Context (topic : gostring) (partitionID tierThreshold : Z).

Definition fetchRemote (s3 : option O) (key : gostring) : outcome (list byte) :=
  match s3 with
  | None => Err "tiered storage not enabled"
  | Some o => GetObject o key
  end.

(** [attach]: what [restoreSegmentLocked] has to fetch with. *)
Definition attach (s3 : option O) : option (gostring -> outcome (list byte)) :=
  match s3 with
  | None => None
  | Some _ => Some (fetchRemote s3)
  end.

(** [deleteRemote]: both objects are deleted, the first error is returned. *)
Definition deleteRemote (o : O) (logKey indexKey : gostring) : O * outcome unit :=
  let '(o, e1) := DeleteObject o logKey in
  let '(o, e2) := DeleteObject o indexKey in
  (o, match e1 with Ok _ => e2 | _ => e1 end).

(** The first part of [offloadPartition]: the closed segments that are local and
    were last written before the cutoff. *)
Definition candidates (mtime : Segment -> option Z) (cutoff : Z) (segs : list (nat * Segment)) : list (nat * Z) :=
  omap (fun '(id, s) =>
    if seg_remote s then None else
    match mtime s with
    | Some t => if t <? cutoff then Some (id, seg_baseOffset s) else None
    | None => None
    end) segs.

(** One round of its second part: the files are read by name, then stored. *)
Definition upload (o : O) (p : Partition) (c : nat * Z) : O * option (nat * gostring * gostring) :=
  let f := dir_files (orderedSegmentsLocked p) c.2 in
  match f_log f, f_index f with
  | Some logData, Some indexData =>
      let logKey := tierKey topic partitionID c.2 log_ext in
      let indexKey := tierKey topic partitionID c.2 index_ext in
      match PutObject o logKey logData with
      | (o, Ok _) =>
          match PutObject o indexKey indexData with
          | (o, Ok _) => (o, Some (c.1, logKey, indexKey))
          | (o, _) => (o, None)
          end
      | (o, _) => (o, None)
      end
  | _, _ => (o, None)
  end.

Definition hasClosedSegmentLocked (ids : list nat) (id : nat) : option nat := fst <$> list_find (eq id) ids.

(** Its third part: a segment that is still closed and local becomes remote. *)
Definition mark (ids : list nat) (closed : list Segment) (u : nat * gostring * gostring) : list Segment :=
  let '(id, logKey, indexKey) := u in
  match hasClosedSegmentLocked ids id with
  | None => closed
  | Some i => alter (fun s => if seg_remote s then s else markRemote s logKey indexKey) i closed
  end.

(** ** The partition with its offloader *)

Record Tier := mkTier {
  ti_s3 : O;
  ti_part : Partition;
  ti_ids : list nat;
  ti_active : nat;
  ti_fresh : nat;
  ti_todo : list (nat * Z);
  ti_done : list (nat * gostring * gostring) }.

Inductive tevent :=
  | TAppend (raw : list byte)
  | TSync (now : Z)
  | TRead (off maxBytes : Z)
  | TRetain (mtime : Segment -> option Z) (now : Z) (ret : Retention)
  | TScan (mtime : Segment -> option Z) (now : Z)
  | TUpload
  | TMark
  | TRestart (dir : Z -> segFiles) (bases : list Z).

Inductive answer :=
  | ANone
  | AOffset (off : Z)
  | AData (data : list byte)
  | AFail.

(** An append that rolls closes the active segment and makes a new one. *)
Definition tier_append (t : Tier) (raw : list byte) : Tier * answer :=
  let '(p, o) := Append (ti_part t) raw in
  let rolled := (length (pt_closed (ti_part t)) <? length (pt_closed p))%nat in
  (mkTier (ti_s3 t) p (if rolled then ti_ids t ++ [ti_active t] else ti_ids t)
     (if rolled then ti_fresh t else ti_active t) (if rolled then S (ti_fresh t) else ti_fresh t)
     (ti_todo t) (ti_done t),
   match o with Ok off => AOffset off | _ => AFail end).

Definition tier_read (t : Tier) (off maxBytes : Z) : Tier * answer :=
  let '(p, o, _) := Read (attach (Some (ti_s3 t))) (ti_part t) off maxBytes in
  (mkTier (ti_s3 t) p (ti_ids t) (ti_active t) (ti_fresh t) (ti_todo t) (ti_done t),
   match o with Ok data => AData data | _ => AFail end).

(** Retention removes the first [n] closed segments ([plan_spec]), with the
    objects of those that are remote. *)
Definition tier_retain (t : Tier) (mtime : Segment -> option Z) (now : Z) (ret : Retention) : Tier * answer :=
  match enforceRetention true mtime now ret (ti_part t) with
  | Ok (p, gone) =>
      (mkTier (fold_left (fun o k => (deleteRemote o k.1 k.2).1) gone (ti_s3 t)) p
         (drop (length (pt_closed (ti_part t)) - length (pt_closed p)) (ti_ids t))
         (ti_active t) (ti_fresh t) (ti_todo t) (ti_done t), ANone)
  | _ => (t, AFail)
  end.

(** The offloader's steps; it starts again when it has marked. *)
Definition scan (t : Tier) (mtime : Segment -> option Z) (now : Z) : Tier :=
  match ti_todo t, ti_done t with
  | [], [] => mkTier (ti_s3 t) (ti_part t) (ti_ids t) (ti_active t) (ti_fresh t)
                (candidates mtime (now - tierThreshold) (zip (ti_ids t) (pt_closed (ti_part t)))) []
  | _, _ => t
  end.

Definition upload_next (t : Tier) : Tier :=
  match ti_todo t with
  | [] => t
  | c :: todo =>
      let '(o, u) := upload (ti_s3 t) (ti_part t) c in
      mkTier o (ti_part t) (ti_ids t) (ti_active t) (ti_fresh t) todo (ti_done t ++ option_list u)
  end.

Definition mark_uploaded (t : Tier) : Tier :=
  match ti_todo t with
  | [] =>
      let p := ti_part t in
      mkTier (ti_s3 t)
        (with_segments p (fold_left (mark (ti_ids t)) (ti_done t) (pt_closed p)) (pt_active p) (pt_nextOffset p)
           (pt_highWatermark p))
        (ti_ids t) (ti_active t) (ti_fresh t) [] []
  | _ => t
  end.

(** A partition as it is opened, with an idle offloader. *)
Definition opened (o : O) (p : Partition) : Tier :=
  let n := length (pt_closed p) in mkTier o p (seq 0 n) n (S n) [] [].

Definition tstep (t : Tier) (e : tevent) : Tier * answer :=
  match e with
  | TAppend raw => tier_append t raw
  | TSync now =>
      (mkTier (ti_s3 t) (Sync (ti_part t) now) (ti_ids t) (ti_active t) (ti_fresh t) (ti_todo t) (ti_done t), ANone)
  | TRead off maxBytes => tier_read t off maxBytes
  | TRetain mtime now ret => tier_retain t mtime now ret
  | TScan mtime now => (scan t mtime now, ANone)
  | TUpload => (upload_next t, ANone)
  | TMark => (mark_uploaded t, ANone)
  | TRestart dir bases =>
      match recover_partition dir bases (unopened (ti_part t)) with
      | Ok p => (opened (ti_s3 t) p, ANone)
      | _ => (t, AFail)
      end
  end.

(** [offloadPartition] when nothing else happens to the partition. *)
Definition offloadPartition (o : O) (p : Partition) (mtime : Segment -> option Z) (now : Z) : O * Partition :=
  let t := scan (opened o p) mtime now in
  let t := mark_uploaded (Nat.iter (length (ti_todo t)) upload_next t) in
  (ti_s3 t, ti_part t).
End tiering.

(** [offloadAll]: one partition after the other, in the order of the snapshot. *)
Fixpoint offloadAll {O : Type} `{!ObjectStore O} (tierThreshold : Z) (o : O) (ps : list (gostring * Z * Partition))
    (mtime : Segment -> option Z) (now : Z) : O * list (gostring * Z * Partition) :=
  match ps with
  | [] => (o, [])
  | (topic, partitionID, p) :: ps =>
      let '(o, p) := offloadPartition topic partitionID tierThreshold o p mtime now in
      let '(o, ps) := offloadAll tierThreshold o ps mtime now in
      (o, (topic, partitionID, p) :: ps)
  end.
