(* ===== verification/TieringProps.v ===== *)
(** * Tiering is invisible (internal/storage/tiered.go)

    A partition some of whose segments are in the object store stands for the
    same list of batches as one that was never offloaded: [tier_holds]. The
    simulation goes through such a ghost partition, in which every segment is
    local ([shadow], [tier_inv]). *)

From stdpp Require Import prelude list gmap strings sorting.
From Stdlib Require Import ZArith Lia.
From S2P Require Import Prelude GoStrings GoBinary Wire RecordBatch Index Segment SegmentOps Partition PartitionOps Tiering.

Section props.
Context {O : Type} `{!ObjectStore O}.
Context (topic : gostring) (partitionID tierThreshold : Z).

Definition log_key (base : Z) : gostring := tierKey topic partitionID base log_ext.
Definition index_key (base : Z) : gostring := tierKey topic partitionID base index_ext.

(** The object store holds the files of segment [t]. *)
Definition stored (o : O) (t : Segment) : Prop :=
  objects o (log_key (seg_baseOffset t)) = seg_log t /\
  objects o (index_key (seg_baseOffset t)) = ix_file <$> seg_index t.

(** [s] is what offloading leaves of [t]. *)
Record remote_copy (o : O) (s t : Segment) : Prop := {
  rc_base : seg_baseOffset s = seg_baseOffset t;
  rc_next : seg_nextOffset s = seg_nextOffset t;
  rc_max : seg_maxSegmentBytes s = seg_maxSegmentBytes t;
  rc_interval : seg_indexInterval s = seg_indexInterval t;
  rc_remote : seg_remote s = true;
  rc_stub : seg_stub s = Some (log_key (seg_baseOffset t), index_key (seg_baseOffset t), seg_nextOffset t);
  rc_stored : stored o t }.

Definition shadow (o : O) (s t : Segment) : Prop := s = t \/ remote_copy o s t.

Lemma shadow_base o s t : shadow o s t -> seg_baseOffset s = seg_baseOffset t.
Proof. intros [->|H]; [done|apply (rc_base _ _ _ H)]. Qed.

Lemma shadow_end o s t : shadow o s t -> logEndOffset s = logEndOffset t.
Proof. intros [->|H]; [done|apply (rc_next _ _ _ H)]. Qed.

Lemma shadow_local o s t : shadow o s t -> seg_remote s = false -> s = t.
Proof. intros [->|H] E; [done|]. rewrite (rc_remote _ _ _ H) in E. done. Qed.

Lemma shadow_frame o o' s t :
  (seg_remote s = true -> stored o t -> stored o' t) -> shadow o s t -> shadow o' s t.
Proof. intros Hst [->|[]]; [by left|right]. constructor; auto. Qed.

Lemma shadow_bases o segs ts :
  Forall2 (shadow o) segs ts -> seg_baseOffset <$> segs = seg_baseOffset <$> ts.
Proof. induction 1 as [|s t segs ts Hs _ IH]; [done|]. cbn. by rewrite IH, (shadow_base _ _ _ Hs). Qed.

(** ** Restoring *)

Definition reliable (o : O) : Prop := forall k d, objects o k = Some d -> GetObject o k = Ok d.

Lemma restore_one o s t bs :
  remote_copy o s t -> seg_inv t bs ->
  (forall s', restoreSegmentLocked (attach (Some o)) s = Ok s' -> s' = reopened t) /\
  (reliable o -> restoreSegmentLocked (attach (Some o)) s = Ok (reopened t)).
Proof.
  intros [Hb Hn Hm Hi Hr Hst [Hlog Hidx]] Ht.
  destruct (si_index _ _ Ht) as (idx & Eidx & _). pose proof (si_log _ _ Ht) as Elog.
  assert (restoreFrom s (mjoin bs) (ix_file idx) = Ok (reopened t)) as Hfrom.
  { unfold restoreFrom. rewrite Hb, Hm, Hi.
    etrans; [|exact (openSegment_files t bs [] Ht (or_introl eq_refl))]. unfold files_of. rewrite Elog, Eidx. cbn. by rewrite app_nil_r. }
  unfold restoreSegmentLocked, attach, remoteKeys. rewrite Hst. cbn [obind fetchRemote].
  rewrite Elog in Hlog. rewrite Eidx in Hidx. split.
  - intros s'. destruct (GetObject o (log_key _)) as [d|e|] eqn:E1; [|done|done]. cbn [obind].
    destruct (GetObject o (index_key _)) as [d'|e|] eqn:E2; [|done|done]. cbn [obind].
    apply get_sound in E1, E2. rewrite Hlog in E1. rewrite Hidx in E2.
    apply (inj Some) in E1 as <-. apply (inj Some) in E2 as <-. rewrite Hfrom. by intros [= <-].
  - intros Hrel. rewrite (Hrel _ _ Hlog). cbn [obind]. by rewrite (Hrel _ _ Hidx).
Qed.

(** A ghost segment that was brought back, or was not touched. *)
Definition again (t t' : Segment) : Prop := t' = t \/ t' = reopened t.

Lemma again_stored o t t' : again t t' -> stored o t -> stored o t'.
Proof. by intros [-> | ->]. Qed.

Lemma restore_segments_shadow o off segs ts bss b e :
  Forall2 (shadow o) segs ts -> segs_inv b ts bss e ->
  let r := restore_segments (attach (Some o)) off segs in
  exists ts', Forall2 (shadow o) r.1 ts' /\ Forall2 again ts ts' /\
    (r.2 = Ok tt -> Forall (fun s => off < logEndOffset s -> seg_remote s = false) r.1) /\
    (reliable o -> r.2 = Ok tt).
Proof.
  intros H. revert bss b. induction H as [|s t segs ts Hs Hf IH]; intros bss b Hi; cbn zeta.
  { exists []. cbn. by split_and!. }
  destruct bss as [|bs bss]; [done|]. destruct Hi as (Ht & _ & _ & Hi). specialize (IH _ _ Hi). cbn zeta in IH.
  assert (Forall2 again ts ts) as Hrefl by (apply Forall2_same_length_lookup; split; [done|]; intros; left; congruence).
  cbn [restore_segments]. unfold needs_restore. destruct (Z.ltb_spec off (logEndOffset s)) as [Hlt|Hge]; cbn [andb].
  - destruct (seg_remote s) eqn:Hr.
    + destruct Hs as [->|Hs]; [by rewrite (si_local _ _ Ht) in Hr|]. destruct (restore_one o s t bs Hs Ht) as [H1 H2].
      destruct (restoreSegmentLocked (attach (Some o)) s) as [s'|e'|] eqn:Er.
      * rewrite (H1 _ eq_refl) in *. destruct IH as (ts' & I1 & I2 & I3 & I4).
        destruct (restore_segments (attach (Some o)) off segs) as [r oc]. cbn [fst snd] in *.
        exists (reopened t :: ts'). split_and!; [constructor; [by left|done]|constructor; [by right|done]| |done].
        intros E. constructor; [done|by apply I3].
      * exists (t :: ts). split_and!; [constructor; [by right|done]|constructor; [by left|done]|done|].
        intros Hrel. by specialize (H2 Hrel).
      * exists (t :: ts). split_and!; [constructor; [by right|done]|constructor; [by left|done]|done|].
        intros Hrel. by specialize (H2 Hrel).
    + destruct IH as (ts' & I1 & I2 & I3 & I4).
      destruct (restore_segments (attach (Some o)) off segs) as [r oc]. cbn [fst snd] in *.
      exists (t :: ts'). split_and!; [by constructor|constructor; [by left|done]| |done].
      intros E. constructor; [done|by apply I3].
  - destruct IH as (ts' & I1 & I2 & I3 & I4).
    destruct (restore_segments (attach (Some o)) off segs) as [r oc]. cbn [fst snd] in *.
    exists (t :: ts'). split_and!; [by constructor|constructor; [by left|done]| |done].
    intros E. constructor; [lia|by apply I3].
Qed.

Lemma again_segs_inv b ts ts' bss e : segs_inv b ts bss e -> Forall2 again ts ts' -> segs_inv b ts' bss e.
Proof.
  intros Hi H. revert b bss Hi. induction H as [|t t' ts ts' Ha _ IH]; intros b [|bs bss]; cbn [segs_inv]; try done.
  intros (Ht & Hb & Hm & Hr). apply IH in Hr. destruct Ha as [-> | ->]; [done|].
  split_and!; try done. by apply reopened_inv.
Qed.

Lemma again_pt_inv q bss closed' :
  pt_inv q bss -> Forall2 again (pt_closed q) closed' ->
  let q' := with_segments q closed' (pt_active q) (pt_nextOffset q) (pt_highWatermark q) in
  pt_inv q' bss /\ earliestOffsetLocked q' = earliestOffsetLocked q /\
  Forall2 again (orderedSegmentsLocked q) (orderedSegmentsLocked q').
Proof.
  intros [Hs Ha Hh Hne Hcfg Hm] H q'.
  assert (earliestOffsetLocked q' = earliestOffsetLocked q) as He.
  { unfold earliestOffsetLocked, q'. cbn. destruct H as [|t t' ? ? [-> | ->]]; done. }
  assert (Forall2 again (orderedSegmentsLocked q) (orderedSegmentsLocked q')) as Hall.
  { apply Forall2_app; [done|]. cbn. destruct (pt_active q); repeat constructor. }
  split; [|by split]. constructor; try done.
  - rewrite He. by eapply again_segs_inv.
  - cbn. clear -H Hne. induction H as [|t t' ts ts' Ha _ IH]; [done|]. apply Forall_cons in Hne as [? ?].
    constructor; [by destruct Ha as [-> | ->]|by apply IH].
  - revert Hcfg. clear -Hall. generalize (orderedSegmentsLocked q), (orderedSegmentsLocked q'), Hall. clear.
    induction 1 as [|t t' ts ts' Ha _ IH]; [done|]. intros [? ?]%Forall_cons.
    constructor; [by destruct Ha as [-> | ->]|by apply IH].
Qed.

Lemma fits_again maxBytes ts ts' : Forall2 again ts ts' -> fits maxBytes ts -> fits maxBytes ts'.
Proof.
  unfold fits. induction 1 as [|t t' ts ts' Ha _ IH]; [done|]. intros [? ?]%Forall_cons.
  constructor; [by destruct Ha as [-> | ->]|by apply IH].
Qed.

(** ** Reading *)

Lemma segs_inv_ends b ts bss e off :
  segs_inv b ts bss e -> off < b -> Forall (fun t => off < logEndOffset t) ts.
Proof.
  revert b bss. induction ts as [|t ts IH]; intros b [|bs bss]; cbn [segs_inv]; try done.
  intros (Ht & <- & _ & Hr) Hlt. pose proof (chain_mono _ _ _ (si_wf _ _ Ht) (si_chain _ _ Ht)).
  constructor; [unfold logEndOffset; lia|]. eapply IH; [done|]. lia.
Qed.

Lemma shadow_local_list o segs ts :
  Forall2 (shadow o) segs ts -> Forall (fun s => seg_remote s = false) segs -> segs = ts.
Proof.
  induction 1 as [|s t segs ts Hs _ IH]; [done|]. intros [Hr Hf]%Forall_cons.
  by rewrite (shadow_local _ _ _ Hs Hr), IH.
Qed.

(** Once what is asked for is local, a read goes through the ghost's segments. *)
Lemma skip_segments_shadow o off segs ts b bss e :
  Forall2 (shadow o) segs ts -> segs_inv b ts bss e ->
  Forall (fun s => off < logEndOffset s -> seg_remote s = false) segs ->
  skip_segments segs off = skip_segments ts off.
Proof.
  intros H. revert b bss. induction H as [|s t segs ts Hs Hf IH]; intros b [|bs bss]; cbn [segs_inv]; try done.
  intros (Ht & Hb & _ & Hr) [Hl1 Hl]%Forall_cons. cbn [skip_segments]. rewrite <- (shadow_end _ _ _ Hs).
  destruct (Z.ltb_spec off (logEndOffset s)) as [Hlt|_]; [|by eapply IH].
  f_equal; [by apply (shadow_local o), Hl1|]. apply (shadow_local_list o); [done|].
  pose proof (segs_inv_ends _ _ _ _ off Hr) as Hends. rewrite (shadow_end _ _ _ Hs) in Hlt. specialize (Hends Hlt).
  clear -Hf Hl Hends. induction Hf as [|s t segs ts Hs _ IH]; [done|].
  apply Forall_cons in Hl as [Hl1 Hl], Hends as [He Hends]. constructor; [|by apply IH].
  apply Hl1. by rewrite (shadow_end _ _ _ Hs).
Qed.

Lemma restore_segments_app fetch off segs a :
  seg_remote a = false ->
  restore_segments fetch off (segs ++ [a])
  = ((restore_segments fetch off segs).1 ++ [a], (restore_segments fetch off segs).2).
Proof.
  intros Ha. induction segs as [|s segs IH]; cbn [app restore_segments].
  { unfold needs_restore. by rewrite Ha, andb_false_r. }
  rewrite IH. destruct (needs_restore off s); [|by destruct (restore_segments fetch off segs)].
  destruct (restoreSegmentLocked fetch s); [|done|done]. by destruct (restore_segments fetch off segs).
Qed.

Lemma length_restore fetch off segs : length (restore_segments fetch off segs).1 = length segs.
Proof.
  induction segs as [|s segs IH]; [done|]. cbn [restore_segments].
  destruct (needs_restore off s); [destruct (restoreSegmentLocked fetch s); try done|];
    destruct (restore_segments fetch off segs); cbn in *; by rewrite IH.
Qed.

Lemma restore_remote fetch off segs :
  Forall2 (fun s s' => seg_remote s' = true -> seg_remote s = true) segs (restore_segments fetch off segs).1.
Proof.
  induction segs as [|s segs IH]; [constructor|].
  assert (Forall2 (fun s s' : Segment => seg_remote s' = true -> seg_remote s = true) segs segs) as Hrefl
    by (apply Forall2_same_length_lookup; split; [done|]; intros; congruence).
  cbn [restore_segments]. unfold needs_restore. destruct (seg_remote s) eqn:E.
  - destruct (_ && _); [destruct (restoreSegmentLocked _ s)|];
      try (destruct (restore_segments _ off segs)); cbn in *; by constructor.
  - rewrite andb_false_r. destruct (restore_segments _ off segs). cbn in *. by constructor.
Qed.

Lemma existsb_needs o off segs :
  existsb (needs_restore off) segs = false -> Forall (fun s : Segment => off < logEndOffset s -> seg_remote s = false) segs
  /\ restore_segments o off segs = (segs, Ok tt).
Proof.
  induction segs as [|s segs IH]; [done|]. cbn [existsb restore_segments]. intros [H1 H2]%orb_false_iff.
  destruct (IH H2) as [I1 ->]. rewrite H1. split; [|done]. constructor; [|done].
  unfold needs_restore in H1. intros Hlt. by rewrite (proj2 (Z.ltb_lt _ _)) in H1.
Qed.

(** The partition [p] with its segments shadowed by the local [q]. *)
Record shadows (o : O) (p q : Partition) : Prop := {
  sh_closed : Forall2 (shadow o) (pt_closed p) (pt_closed q);
  sh_active : pt_active p = pt_active q;
  sh_next : pt_nextOffset p = pt_nextOffset q;
  sh_hwm : pt_highWatermark p = pt_highWatermark q;
  sh_max : pt_maxSegmentBytes p = pt_maxSegmentBytes q;
  sh_interval : pt_indexInterval p = pt_indexInterval q }.

Lemma shadows_earliest o p q : shadows o p q -> earliestOffsetLocked p = earliestOffsetLocked q.
Proof.
  intros [Hc Ha Hn _ _ _]. unfold earliestOffsetLocked. rewrite Ha, Hn.
  destruct Hc as [|s t ? ? Hs]; [done|]. by apply (shadow_base o).
Qed.

Lemma Read_shadows o p q bss off maxBytes :
  shadows o p q -> pt_inv q bss -> 0 <= off -> earliestOffsetLocked q <= off < pt_nextOffset q ->
  0 < maxBytes -> fits maxBytes (orderedSegmentsLocked q) ->
  exists closed' q' d,
    Read (attach (Some o)) p off maxBytes
    = (with_segments p closed' (pt_active p) (pt_nextOffset p) (pt_highWatermark p), d, pt_highWatermark p) /\
    shadows o (with_segments p closed' (pt_active p) (pt_nextOffset p) (pt_highWatermark p)) q' /\
    pt_inv q' bss /\ Forall2 again (pt_closed q) (pt_closed q') /\ earliestOffsetLocked q' = earliestOffsetLocked q /\
    Forall2 (fun s s' => seg_remote s' = true -> seg_remote s = true) (pt_closed p) closed' /\
    (d = Ok (spec_read off maxBytes (mjoin bss) []) \/ (forall x, d <> Ok x) /\ ~ reliable o).
Proof.
  intros Hsh Hq H0 Ho Hm Hfit. pose proof Hsh as [Hc Ha Hn Hh Hmax Hint].
  destruct (pt_inv_active q bss Hq) as (a & bssc & bsa & Hqa & Ebss & Hi & Hsa & _).
  destruct (restore_segments_shadow o off _ _ _ _ _ Hc Hi) as (ts' & R1 & R2 & R3 & R4).
  set (r := restore_segments (attach (Some o)) off (pt_closed p)) in *.
  destruct (again_pt_inv q bss ts' Hq R2) as (Hq' & He' & Hall).
  set (q' := with_segments q ts' (pt_active q) (pt_nextOffset q) (pt_highWatermark q)) in *.
  set (p' := with_segments p r.1 (pt_active p) (pt_nextOffset p) (pt_highWatermark p)).
  assert (shadows o p' q') as Hsh' by (by constructor).
  assert (Forall2 (fun s s' => seg_remote s' = true -> seg_remote s = true) (pt_closed p) r.1) as Hrem
    by apply restore_remote.
  exists r.1, q'. fold p'.
  assert (seg_remote a = false) as Hla by apply (si_local _ _ Hsa).
  assert (r.2 = Ok tt -> readLocked p' off maxBytes = Ok (spec_read off maxBytes (mjoin bss) [])) as Hread.
  { intros E. rewrite <- (readLocked_spec q' bss); [|done|by rewrite He'|done|by eapply fits_again].
    unfold readLocked. f_equal.
    apply (skip_segments_shadow o _ _ _ (earliestOffsetLocked q') bss (pt_nextOffset q')).
    - apply Forall2_app; [done|]. cbn. rewrite Ha, Hqa. repeat constructor.
    - apply Hq'.
    - apply Forall_app. split; [by apply R3|]. cbn. rewrite Ha, Hqa. repeat constructor. done. }
  unfold Read. rewrite (proj2 (Z.ltb_ge _ _)), (proj2 (Z.leb_gt _ _)) by (rewrite ?Hh, ?(pi_hwm _ _ Hq); lia).
  assert (orderedSegmentsLocked p = pt_closed p ++ [a]) as -> by (unfold orderedSegmentsLocked; by rewrite Ha, Hqa).
  destruct (existsb (needs_restore off) (pt_closed p ++ [a])) eqn:Hex.
  - rewrite restore_segments_app by done. fold r.
    rewrite take_app_length', drop_app_length' by (symmetry; apply length_restore). cbn [head].
    replace (Some a) with (pt_active p) by congruence. fold p'.
    destruct r.2 as [[]|e|] eqn:Er; eexists; split_and!; try done; [left; by apply Hread| |].
    + right. split; [done|]. intros Hrel. by specialize (R4 Hrel).
    + right. split; [done|]. intros Hrel. by specialize (R4 Hrel).
  - rewrite existsb_app in Hex. apply orb_false_iff in Hex as [Hex _].
    destruct (existsb_needs (attach (Some o)) off _ Hex) as [_ Er].
    assert (p' = p) as Hp' by (unfold p', r; rewrite Er; by destruct p).
    eexists. rewrite Hp' in *. split_and!; try done. left. apply Hread. unfold r. by rewrite Er.
Qed.

(** ** Appending *)

Lemma roll_fresh p a :
  pt_active p = Some a -> Forall (fun s => seg_baseOffset s < pt_nextOffset p) (pt_closed p ++ [a]) ->
  roll p = (with_segments p (pt_closed p ++ [a])
              (Some (fresh (pt_nextOffset p) (pt_maxSegmentBytes p) (pt_indexInterval p)))
              (pt_nextOffset p) (pt_highWatermark p), Ok tt).
Proof.
  intros Ha Hlt. unfold roll, dir_files, orderedSegmentsLocked. rewrite Ha.
  change (option_list (Some a)) with [a].
  replace (list_find _ _) with (@None (nat * Segment)); [by rewrite openSegment_fresh|].
  symmetry. apply list_find_None. eapply Forall_impl; [exact Hlt|]. simpl. intros. lia.
Qed.

(** An append does not look at the closed segments. *)
Lemma Append_shadows o p q bss raw q' r :
  shadows o p q -> pt_inv q bss -> Append q raw = (q', r) ->
  exists ext, (ext = [] \/ ext = option_list (pt_active q)) /\ pt_closed q' = pt_closed q ++ ext /\
    Append p raw = (with_segments p (pt_closed p ++ ext) (pt_active q') (pt_nextOffset q') (pt_highWatermark q'), r) /\
    pt_maxSegmentBytes q' = pt_maxSegmentBytes q /\ pt_indexInterval q' = pt_indexInterval q.
Proof.
  intros [Hc Ha Hn Hh Hmax Hint] Hq.
  destruct (pt_inv_active q bss Hq) as (a & bssc & bsa & Hqa & _ & Hi & Hsa & Hm & Hqn & _).
  assert (forall p q, pt_active p = pt_active q -> pt_nextOffset p = pt_nextOffset q ->
    pt_highWatermark p = pt_highWatermark q -> append_active q raw = (q', r) ->
    pt_closed q' = pt_closed q /\ pt_maxSegmentBytes q' = pt_maxSegmentBytes q /\ pt_indexInterval q' = pt_indexInterval q /\
    append_active p raw = (with_segments p (pt_closed p) (pt_active q') (pt_nextOffset q') (pt_highWatermark q'), r)) as Hact.
  { clear. intros p q Ha Hn Hh. unfold append_active. rewrite Ha.
    destruct (pt_active q) as [a|] eqn:E; [destruct (append a raw) as [[off a']|e|]|]; intros [= <- <-];
      cbn; rewrite <- ?Hn, <- ?Hh, ?E, <- ?Ha; split_and!; try done; by destruct p. }
  unfold Append. rewrite Ha, Hqa. destruct (full a) eqn:Hfull.
  - pose proof (full_not_empty a bsa Hsa Hm Hfull) as Hlt.
    assert (Forall (fun b => b < pt_nextOffset q) (seg_baseOffset <$> pt_closed q)) as Hb.
    { apply Forall_fmap. eapply Forall_impl; [by eapply segs_inv_bases|]. cbn. intros. lia. }
    rewrite (roll_fresh q a), (roll_fresh p a); [|congruence| |done|].
    2: { apply Forall_app. split; [|constructor; [lia|constructor]]. rewrite Hn.
         rewrite <- (shadow_bases o _ _ Hc) in Hb. by apply Forall_fmap in Hb. }
    2: { apply Forall_app. split; [|constructor; [lia|constructor]]. by apply Forall_fmap in Hb. }
    intros E. eapply (Hact (with_segments p (pt_closed p ++ [a]) _ _ _) _) in E as (E1 & E2 & E3 & E4).
    + exists [a]. rewrite E4. cbn in E1, E2, E3. split_and!; try done; by right.
    + cbn. by rewrite Hn, Hmax, Hint.
    + done.
    + done.
  - intros E. eapply (Hact p q) in E as (E1 & E2 & E3 & E4); try done.
    exists []. rewrite E4, !app_nil_r. split_and!; try done; by left.
Qed.

Lemma Sync_shadows o p q now :
  shadows o p q -> shadows o (Sync p now) (Sync q now) /\
  pt_closed (Sync p now) = pt_closed p /\ pt_closed (Sync q now) = pt_closed q.
Proof.
  intros Hsh. pose proof Hsh as [Hc Ha Hn Hh Hmax Hint]. unfold Sync. rewrite Ha.
  destruct (pt_active q) as [a|]; [|done]. destruct (_ =? _); [done|]. by split.
Qed.

(** ** Where segments and objects are *)

Lemma sorted_lookup_lt l i j x y :
  StronglySorted Z.lt l -> l !! i = Some x -> l !! j = Some y -> (i < j)%nat -> x < y.
Proof.
  intros Hl. revert i j. induction Hl as [|z l Hl IH Hz]; [done|]. intros i j Hi Hj Hlt.
  destruct j as [|j]; [lia|]. cbn in Hj. destruct i as [|i]; cbn in Hi.
  - apply (inj Some) in Hi as <-. rewrite Forall_forall in Hz. apply Hz. by eapply list_elem_of_lookup_2.
  - apply (IH i j); [done|done|lia].
Qed.

Lemma sorted_bases_inj segs i j s s' :
  StronglySorted Z.lt (seg_baseOffset <$> segs) -> segs !! i = Some s -> segs !! j = Some s' ->
  seg_baseOffset s = seg_baseOffset s' -> i = j.
Proof.
  intros Hs Hi Hj E. assert ((seg_baseOffset <$> segs) !! i = Some (seg_baseOffset s)) as Hi' by (by rewrite list_lookup_fmap, Hi).
  assert ((seg_baseOffset <$> segs) !! j = Some (seg_baseOffset s')) as Hj' by (by rewrite list_lookup_fmap, Hj).
  destruct (Nat.lt_trichotomy i j) as [H|[H|H]]; [|done|].
  - pose proof (sorted_lookup_lt _ _ _ _ _ Hs Hi' Hj' H). lia.
  - pose proof (sorted_lookup_lt _ _ _ _ _ Hs Hj' Hi' H). lia.
Qed.

(** The files a base offset names are those of the segment that has it. *)
Lemma dir_files_at segs i s :
  StronglySorted Z.lt (seg_baseOffset <$> segs) -> segs !! i = Some s ->
  dir_files segs (seg_baseOffset s) = mkFiles (seg_log s) (ix_file <$> seg_index s) (seg_stub s).
Proof.
  intros Hs Hi. unfold dir_files.
  replace (list_find _ segs) with (Some (i, s)); [done|]. symmetry. apply list_find_Some. split_and!; [done|done|].
  intros j y Hj Hlt E. assert (j = i) by (by eapply sorted_bases_inj). lia.
Qed.

Lemma dir_files_none segs base :
  Forall (fun s => base < seg_baseOffset s) segs -> dir_files segs base = mkFiles None None None.
Proof.
  intros Hf. unfold dir_files. replace (list_find _ segs) with (@None (nat * Segment)); [done|].
  symmetry. apply list_find_None. eapply Forall_impl; [exact Hf|]. cbn. lia.
Qed.

Definition keys_of (base : Z) (k : gostring) : Prop := k = log_key base \/ k = index_key base.
Definition small (n : Z) : Prop := 0 <= n < 10 ^ 20.

Lemma keys_apart b b' k : small b -> small b' -> keys_of b k -> keys_of b' k -> b = b'.
Proof.
  intros Hb Hb' [->| ->] [E|E]; apply tierKey_inj in E as [? ?]; try done; first [by left | by right].
Qed.

Lemma log_index_apart b : small b -> log_key b <> index_key b.
Proof. intros Hb E. apply tierKey_inj in E as [_ ?]; [done|done|done|by left|by right]. Qed.

Lemma stored_frame o o' t :
  (forall k, keys_of (seg_baseOffset t) k -> objects o' k = objects o k) -> stored o t -> stored o' t.
Proof. intros Hk [H1 H2]. split; (rewrite Hk; [done|]); [by left|by right]. Qed.

Lemma put_frame o k d b k' : keys_of b k -> ~ keys_of b k' -> objects (PutObject o k d).1 k' = objects o k'.
Proof. intros Hk Hk'. apply put_other. intros ->. done. Qed.

(** An upload changes only the objects of its segment, and when it succeeds they
    are the segment's files. *)
Lemma upload_effect o p c o' u :
  small c.2 -> upload topic partitionID o p c = (o', u) ->
  (forall k, ~ keys_of c.2 k -> objects o' k = objects o k) /\
  (forall v, u = Some v -> v = (c.1, log_key c.2, index_key c.2) /\
     is_Some (f_log (dir_files (orderedSegmentsLocked p) c.2)) /\
     objects o' (log_key c.2) = f_log (dir_files (orderedSegmentsLocked p) c.2) /\
     objects o' (index_key c.2) = f_index (dir_files (orderedSegmentsLocked p) c.2)).
Proof.
  intros Hc. unfold upload. destruct (f_log _) as [ld|] eqn:Hl; [|by intros [= <- <-]].
  destruct (f_index _) as [xd|] eqn:Hx; [|by intros [= <- <-]]. fold (log_key c.2) (index_key c.2).
  destruct (PutObject o (log_key c.2) ld) as [o1 r1] eqn:E1.
  assert (forall k, ~ keys_of c.2 k -> objects o1 k = objects o k) as F1.
  { intros k Hk. change o1 with (o1, r1).1. rewrite <- E1. by apply (put_frame o _ ld c.2); [left|]. }
  destruct r1 as [[]|e|]; [|by intros [= <- <-]|by intros [= <- <-]].
  destruct (PutObject o1 (index_key c.2) xd) as [o2 r2] eqn:E2.
  assert (forall k, ~ keys_of c.2 k -> objects o2 k = objects o k) as F2.
  { intros k Hk. change o2 with (o2, r2).1. rewrite <- E2, <- F1 by done. by apply (put_frame o1 _ xd c.2); [right|]. }
  destruct r2 as [[]|e|]; intros [= <- <-]; (split; [done|]); intros v [= <-].
  split_and!; [done|done| |].
  - change o2 with (o2, Ok ()).1. rewrite <- E2. rewrite put_other by (by apply log_index_apart). by eapply put_stored.
  - by eapply put_stored.
Qed.

(** ** The invariant *)

(** A segment the offloader has chosen is still there and local, or gone. *)
Definition todo_ok (ids : list nat) (p : Partition) (c : nat * Z) : Prop :=
  (exists i s, ids !! i = Some c.1 /\ pt_closed p !! i = Some s /\ seg_baseOffset s = c.2 /\ seg_remote s = false) \/
  c.2 < earliestOffsetLocked p.

(** A segment it has stored, if it is still there, is stored as it is. *)
Definition done_ok (o : O) (ids : list nat) (q : Partition) (u : nat * gostring * gostring) : Prop :=
  forall i t, ids !! i = Some u.1.1 -> pt_closed q !! i = Some t ->
    u.1.2 = log_key (seg_baseOffset t) /\ u.2 = index_key (seg_baseOffset t) /\ stored o t.

Definition jobs (t : Tier (O := O)) : list nat := (ti_todo t).*1 ++ (ti_done t).*1.*1.

Record tier_inv (t : Tier) (q : Partition) (bss : list (list (list byte))) : Prop := {
  tv_q : pt_inv q bss;
  tv_sh : shadows (ti_s3 t) (ti_part t) q;
  tv_len : length (ti_ids t) = length (pt_closed q);
  tv_nodup : NoDup (ti_ids t ++ [ti_active t]);
  tv_old : Forall (fun id => (id < ti_fresh t)%nat) (ti_ids t ++ [ti_active t]);
  tv_jobs : NoDup (jobs t);
  tv_known : Forall (fun id => (id < ti_fresh t)%nat /\ id <> ti_active t) (jobs t);
  tv_small : Forall (fun c : nat * Z => small c.2) (ti_todo t);
  tv_todo : Forall (todo_ok (ti_ids t) (ti_part t)) (ti_todo t);
  tv_done : Forall (done_ok (ti_s3 t) (ti_ids t) q) (ti_done t) }.

Definition tier_holds (t : Tier) (bss : list (list (list byte))) : Prop := exists q, tier_inv t q bss.

Lemma closed_small q bss i t : pt_inv q bss -> pt_closed q !! i = Some t -> small (seg_baseOffset t).
Proof.
  intros Hq Hi. destruct (pt_inv_active q bss Hq) as (a & bssc & bsa & _ & _ & Hs & Ha & _).
  pose proof (segs_inv_bases _ _ _ _ Hs) as Hb. rewrite Forall_forall in Hb.
  specialize (Hb t ltac:(by eapply list_elem_of_lookup_2)).
  assert (0 <= earliestOffsetLocked q) as H0.
  { unfold earliestOffsetLocked in *. destruct (pt_closed q) as [|s r]; [done|]. destruct bssc as [|bs bssc]; [done|].
    destruct Hs as (Hs & _). apply (si_base _ _ Hs). }
  pose proof (chain_mono _ _ _ (si_wf _ _ Ha) (si_chain _ _ Ha)). pose proof (si_next _ _ Ha). unfold small. lia.
Qed.

Lemma shadows_sorted o p q bss a :
  shadows o p q -> pt_inv q bss -> pt_active q = Some a ->
  StronglySorted Z.lt (seg_baseOffset <$> pt_closed p ++ [a]).
Proof.
  intros Hsh Hq Ha. pose proof (pt_inv_sorted _ _ _ Hq Ha) as Hs. rewrite fmap_app in Hs |- *.
  by rewrite (shadow_bases o _ _ (sh_closed _ _ _ Hsh)).
Qed.

Lemma shadows_lookup o p q i s :
  shadows o p q -> pt_closed p !! i = Some s -> exists t, pt_closed q !! i = Some t /\ shadow o s t.
Proof. intros Hsh Hi. destruct (Forall2_lookup_l _ _ _ _ _ (sh_closed _ _ _ Hsh) Hi) as (t & ? & ?). eauto. Qed.

(** The store may change as long as what is needed of it does not. *)
Lemma shadows_frame o o' p q :
  (forall i s t, pt_closed p !! i = Some s -> pt_closed q !! i = Some t -> seg_remote s = true -> stored o t -> stored o' t) ->
  shadows o p q -> shadows o' p q.
Proof.
  intros Hf [Hc ? ? ? ? ?]. constructor; try done.
  apply Forall2_same_length_lookup. split; [by eapply Forall2_length|]. intros i s t Hi Hj.
  eapply shadow_frame; [by eapply Hf|]. by eapply Forall2_lookup_lr.
Qed.

(** ** The steps *)

Lemma append_inv t q bss raw :
  tier_inv t q bss -> wf_raw raw ->
  (forall a, pt_active (ti_part t) = Some a ->
     pt_nextOffset (ti_part t) + raw_lod raw + 1 - seg_baseOffset a <= 2147483647 /\
     seg_size a + zlen raw <= 4294967295) ->
  pt_nextOffset (ti_part t) + raw_lod raw + 1 <= 4611686018427387904 ->
  exists q' bss', tier_inv (tier_append t raw).1 q' bss' /\
    (tier_append t raw).2 = AOffset (pt_nextOffset (ti_part t)) /\
    mjoin bss' = mjoin bss ++ [set_base raw (pt_nextOffset (ti_part t))].
Proof.
  intros [Hq Hsh Hlen Hnd Hold Hj Hk Hsm Htodo Hdone] Hr Hroom Hlim. pose proof Hsh as [Hc Ha Hn Hh Hmax Hint].
  rewrite Ha, Hn in *.
  destruct (Append_spec q bss raw Hq Hr Hroom Hlim) as (q' & bss' & Happ & Hq' & Hjoin & _ & _ & He).
  destruct (Append_shadows _ _ _ _ _ _ _ Hsh Hq Happ) as (ext & Hext & Hc' & Hp & Hm' & Hi').
  exists q', bss'. unfold tier_append. rewrite Hp. cbn [fst snd]. split; [|done].
  set (p' := with_segments (ti_part t) _ _ _ _).
  assert (shadows (ti_s3 t) p' q') as Hsh'.
  { constructor; cbn; try congruence. rewrite Hc'. apply Forall2_app; [done|].
    destruct Hext as [-> | ->]; [constructor|]. destruct (pt_active q); repeat constructor. }
  assert (earliestOffsetLocked p' = earliestOffsetLocked (ti_part t)) as Hear
    by (by rewrite (shadows_earliest _ _ _ Hsh'), (shadows_earliest _ _ _ Hsh)).
  change (pt_closed p') with (pt_closed (ti_part t) ++ ext).
  assert (ext = [] \/ exists a, ext = [a]) as [-> | [a ->]].
  { destruct Hext as [-> | ->]; [by left|]. destruct (pi_active _ _ Hq) as [a ->]. right. by exists a. }
  - rewrite app_nil_r in *. rewrite Nat.ltb_irrefl. constructor; cbn; try done; [by rewrite Hc'| |].
    + eapply Forall_impl; [exact Htodo|]. unfold todo_ok. rewrite Hear. cbn. by rewrite app_nil_r.
    + eapply Forall_impl; [exact Hdone|]. unfold done_ok. by rewrite Hc'.
  - rewrite length_app. rewrite (proj2 (Nat.ltb_lt _ _)) by (cbn; lia). constructor; cbn; try done.
    + rewrite Hc', !length_app, Hlen. done.
    + apply NoDup_app. split_and!; [done| |by apply NoDup_singleton].
      intros x Hx [->|?%not_elem_of_nil]%elem_of_cons; [|done]. rewrite Forall_forall in Hold. specialize (Hold _ Hx). lia.
    + apply Forall_app. split; [|by repeat constructor]. eapply Forall_impl; [exact Hold|]. cbn. lia.
    + eapply Forall_impl; [exact Hk|]. cbn. intros. lia.
    + eapply Forall_impl; [exact Htodo|]. unfold todo_ok. rewrite Hear. cbn.
      intros c [(i & s & H1 & H2 & H3)|?]; [left|by right]. exists i, s.
      split_and!; [by apply lookup_app_l_Some|by apply lookup_app_l_Some|apply H3|apply H3].
    + apply Forall_forall. intros u Hu i s Hi Hs. rewrite Forall_forall in Hdone. rewrite Hc' in Hs.
      assert (u.1.1 <> ti_active t) as Hne.
      { rewrite Forall_forall in Hk. apply Hk. apply elem_of_app. right. do 2 apply list_elem_of_fmap_2. done. }
      apply lookup_app_Some in Hi as [Hi|[Hge Hi]].
      * apply (Hdone u Hu i); [done|]. rewrite lookup_app_l in Hs; [done|]. apply lookup_lt_Some in Hi. lia.
      * destruct (i - length (ti_ids t))%nat; cbn in Hi; [|done]. congruence.
Qed.

(** A step that leaves the closed segments in place, brought back or not. *)
Lemma same_segments_inv t q bss p' q' :
  tier_inv t q bss -> pt_inv q' bss -> shadows (ti_s3 t) p' q' ->
  Forall2 again (pt_closed q) (pt_closed q') ->
  Forall2 (fun s s' => seg_remote s' = true -> seg_remote s = true) (pt_closed (ti_part t)) (pt_closed p') ->
  earliestOffsetLocked p' = earliestOffsetLocked (ti_part t) ->
  tier_inv (mkTier (ti_s3 t) p' (ti_ids t) (ti_active t) (ti_fresh t) (ti_todo t) (ti_done t)) q' bss.
Proof.
  intros [Hq Hsh Hlen Hnd Hold Hj Hk Hsm Htodo Hdone] Hq' Hsh' Hag Hrem He. constructor; cbn; try done.
  - by rewrite Hlen, (Forall2_length _ _ _ Hag).
  - eapply Forall_impl; [exact Htodo|]. unfold todo_ok. rewrite He.
    intros c [(i & s & H1 & H2 & H3 & H4)|?]; [left|by right].
    destruct (Forall2_lookup_l _ _ _ _ _ Hrem H2) as (s' & Hs' & Hr).
    exists i, s'. split_and!; [done|done| |by destruct (seg_remote s'); [rewrite Hr in H4|]].
    destruct (shadows_lookup _ _ _ _ _ Hsh H2) as (x & Hx & Hx'). destruct (shadows_lookup _ _ _ _ _ Hsh' Hs') as (y & Hy & Hy').
    rewrite <- H3, (shadow_base _ _ _ Hx'), (shadow_base _ _ _ Hy').
    by destruct (Forall2_lookup_lr _ _ _ _ _ _ Hag Hx Hy) as [-> | ->].
  - eapply Forall_impl; [exact Hdone|]. intros u Hu i y Hi Hy.
    destruct (Forall2_lookup_r _ _ _ _ _ Hag Hy) as (x & Hx & Hxy). destruct (Hu i x Hi Hx) as (E1 & E2 & E3).
    split_and!; [by destruct Hxy as [-> | ->]|by destruct Hxy as [-> | ->]|by eapply again_stored].
Qed.

Lemma again_refl l : Forall2 again l l.
Proof. induction l; constructor; [by left|done]. Qed.

Lemma sync_inv_tier t q bss now :
  tier_inv t q bss -> exists q', tier_inv (tstep topic partitionID tierThreshold t (TSync now)).1 q' bss.
Proof.
  intros Hv. destruct (Sync_shadows _ _ _ now (tv_sh _ _ _ Hv)) as (Hsh & Hp & Hc). exists (Sync q now).
  apply (same_segments_inv t q); try done.
  - apply Sync_inv, Hv.
  - rewrite Hc. apply again_refl.
  - rewrite Hp. apply Forall2_same_length_lookup. split; [done|]. intros. congruence.
  - unfold Sync. destruct (pt_active (ti_part t)) as [a|] eqn:E; [|done]. destruct (_ =? _); [done|].
    unfold earliestOffsetLocked. cbn. rewrite E. destruct (pt_closed (ti_part t)); [|done]. unfold sync. by destruct (seg_log a).
Qed.

Lemma read_inv t q bss off maxBytes :
  tier_inv t q bss -> 0 <= off -> earliestOffsetLocked (ti_part t) <= off < pt_nextOffset (ti_part t) ->
  0 < maxBytes -> Forall (fun bs => maxBytes + zlen (mjoin bs) <= 2147483647) bss ->
  exists q', tier_inv (tier_read t off maxBytes).1 q' bss /\
    ((tier_read t off maxBytes).2 = AData (spec_read off maxBytes (mjoin bss) []) \/
     (tier_read t off maxBytes).2 = AFail /\ ~ reliable (ti_s3 t)).
Proof.
  intros Hv H0 Ho Hm Hfit. pose proof Hv as [Hq Hsh _ _ _ _ _ _ _ _].
  rewrite (shadows_earliest _ _ _ Hsh), (sh_next _ _ _ Hsh) in Ho.
  assert (fits maxBytes (orderedSegmentsLocked q)) as Hf.
  { destruct Hq as [Hs _ _ _ _ _]. revert Hs. generalize (earliestOffsetLocked q), (orderedSegmentsLocked q).
    intros b segs. revert b bss Hfit Hv. clear. intros b bss Hfit _. revert b segs.
    induction Hfit as [|bs bss Hb _ IH]; intros b [|s segs]; cbn [segs_inv]; try done.
    - intros _. constructor.
    - intros (Hs & _ & _ & Hr). constructor; [by rewrite (si_size _ _ Hs)|by eapply IH]. }
  destruct (Read_shadows _ _ _ _ _ _ Hsh Hq H0 Ho Hm Hf) as (closed' & q' & d & Hread & Hsh' & Hq' & Hag & He & Hrem & Hd).
  unfold tier_read. rewrite Hread. cbn [fst snd]. exists q'. split.
  - apply (same_segments_inv t q); try done.
    by rewrite (shadows_earliest _ _ _ Hsh'), He, (shadows_earliest _ _ _ Hsh).
  - destruct Hd as [->|[Hd Hrel]]; [by left|right]. destruct d; [|done|done]. by destruct (Hd _ eq_refl).
Qed.

(** *** Choosing, storing, marking *)

Lemma candidates_spec mtime cutoff segs c :
  c ∈ candidates mtime cutoff segs -> exists i s, segs !! i = Some (c.1, s) /\ seg_remote s = false /\ seg_baseOffset s = c.2.
Proof.
  unfold candidates. rewrite list_elem_of_omap. intros ([id s] & Hin & Hc).
  apply list_elem_of_lookup in Hin as [i Hi]. exists i, s. destruct (seg_remote s); [done|].
  destruct (mtime s); [|done]. destruct (_ <? _); [|done]. by simplify_eq/=.
Qed.

Lemma candidates_ids mtime cutoff segs : sublist (candidates mtime cutoff segs).*1 segs.*1.
Proof.
  unfold candidates. induction segs as [|[id s] segs IH]; [constructor|]. cbn.
  destruct (seg_remote s); [by constructor|]. destruct (mtime s); [|by constructor].
  destruct (_ <? _); by constructor.
Qed.

Lemma scan_inv t q bss mtime now :
  tier_inv t q bss -> tier_inv (scan tierThreshold t mtime now) q bss.
Proof.
  intros Hv. unfold scan. destruct (ti_todo t) as [|] eqn:Et; [|done]. destruct (ti_done t) as [|] eqn:Ed; [|done].
  destruct Hv as [Hq Hsh Hlen Hnd Hold Hj Hk Hsm Htodo Hdone].
  assert (length (ti_ids t) = length (pt_closed (ti_part t))) as Hlen'
    by (by rewrite Hlen, (Forall2_length _ _ _ (sh_closed _ _ _ Hsh))).
  set (cs := candidates _ _ _).
  assert (sublist cs.*1 (ti_ids t)) as Hsub.
  { pose proof (candidates_ids mtime (now - tierThreshold) (zip (ti_ids t) (pt_closed (ti_part t)))) as H.
    by rewrite fst_zip in H by lia. }
  apply NoDup_app in Hnd as Hnd'. destruct Hnd' as (Hnd1 & Hnd2 & _).
  assert (forall c, c ∈ cs -> exists i s, ti_ids t !! i = Some c.1 /\ pt_closed (ti_part t) !! i = Some s /\
    seg_baseOffset s = c.2 /\ seg_remote s = false) as Hcs.
  { intros c (i & s & Hi & Hr & Hb)%candidates_spec. apply lookup_zip_with_Some in Hi as (x & y & [= <- <-] & ? & ?).
    by exists i, s. }
  constructor; cbn; try done.
  - unfold jobs. cbn. rewrite app_nil_r. by eapply sublist_NoDup.
  - unfold jobs. cbn. rewrite app_nil_r. apply Forall_forall. intros id Hid.
    assert (id ∈ ti_ids t) as Hin by (by eapply elem_of_sublist). split.
    + rewrite Forall_forall in Hold. apply Hold, elem_of_app. by left.
    + intros ->. apply (Hnd2 _ Hin). by left.
  - apply Forall_forall. intros c (i & s & _ & Hs & <- & _)%Hcs.
    destruct (shadows_lookup _ _ _ _ _ Hsh Hs) as (x & Hx & Hsx). rewrite (shadow_base _ _ _ Hsx).
    by eapply closed_small.
  - apply Forall_forall. intros c Hc. left. by apply Hcs.
Qed.

Lemma upload_inv t q bss : tier_inv t q bss -> tier_inv (upload_next topic partitionID t) q bss.
Proof.
  intros Hv. unfold upload_next. destruct (ti_todo t) as [|c todo] eqn:Et; [done|].
  destruct Hv as [Hq Hsh Hlen Hnd Hold Hj Hk Hsm Htodo Hdone].
  unfold jobs in Hj, Hk. rewrite Et in Hj, Hk, Hsm, Htodo. cbn in Hj, Hk.
  apply Forall_cons in Hsm as [Hsc Hsm], Htodo as [Hc Htodo], Hk as [Hkc Hk]. apply NoDup_cons in Hj as [Hcj Hj].
  destruct (pi_active _ _ Hq) as [a Ha]. pose proof (sh_active _ _ _ Hsh) as Hpa. rewrite Ha in Hpa.
  pose proof (shadows_sorted _ _ _ _ _ Hsh Hq Ha) as Hsorted.
  assert (orderedSegmentsLocked (ti_part t) = pt_closed (ti_part t) ++ [a]) as Hord
    by (unfold orderedSegmentsLocked; by rewrite Hpa).
  destruct (upload topic partitionID (ti_s3 t) (ti_part t) c) as [o' u] eqn:Hup.
  destruct (upload_effect _ _ _ _ _ Hsc Hup) as [Hframe Hres]. rewrite Hord in Hres.
  destruct Hc as [(i & s & Hi & Hs & Hb & Hr)|Hgone].
  2: { assert (upload topic partitionID (ti_s3 t) (ti_part t) c = (ti_s3 t, None)) as E.
       { unfold upload. rewrite dir_files_none; [done|]. rewrite (shadows_earliest _ _ _ Hsh) in Hgone.
         assert (Forall (fun b => c.2 < b) (seg_baseOffset <$> orderedSegmentsLocked (ti_part t))) as Hall.
         { rewrite Hord, fmap_app, (shadow_bases _ _ _ (sh_closed _ _ _ Hsh)), <- fmap_app.
           apply Forall_fmap. pose proof (segs_inv_bases _ _ _ _ (pi_segs _ _ Hq)) as Hbs.
           unfold orderedSegmentsLocked in Hbs. rewrite Ha in Hbs. eapply Forall_impl; [exact Hbs|]. cbn. lia. }
         exact (proj1 (Forall_fmap _ _ _) Hall). }
       rewrite E in Hup. injection Hup as <- <-. cbn. rewrite app_nil_r. by constructor. }
  assert ((pt_closed (ti_part t) ++ [a]) !! i = Some s) as Hs' by (by apply lookup_app_l_Some).
  rewrite <- Hb, (dir_files_at _ i s Hsorted Hs') in Hres. cbn [f_log f_index] in Hres.
  assert (forall j x, pt_closed q !! j = Some x -> seg_baseOffset x = c.2 -> j = i) as Huniq.
  { intros j x Hx Hxb. destruct (Forall2_lookup_r _ _ _ _ _ (sh_closed _ _ _ Hsh) Hx) as (y & Hy & Hxy).
    apply (sorted_bases_inj _ j i y s Hsorted); [by apply lookup_app_l_Some|done|].
    by rewrite (shadow_base _ _ _ Hxy), Hxb, Hb. }
  assert (forall j x, pt_closed q !! j = Some x -> j <> i -> stored (ti_s3 t) x -> stored o' x) as Hst.
  { intros j x Hx Hne. apply stored_frame. intros k Hkx. apply Hframe. intros Hkc'. apply Hne, (Huniq j x Hx).
    eapply keys_apart; [by eapply closed_small|done|done|done]. }
  constructor; cbn; try done.
  - eapply shadows_frame; [|exact Hsh]. intros j y x Hy Hx Hrem. apply (Hst j x Hx). intros ->. congruence.
  - destruct u as [v|]; [|by rewrite app_nil_r]. destruct (Hres v eq_refl) as [-> _]. unfold jobs. cbn.
    rewrite !fmap_app. cbn. rewrite app_assoc. apply NoDup_app. split_and!; [done| |apply NoDup_singleton].
    intros x Hx [->|?%not_elem_of_nil]%elem_of_cons; [done|done].
  - unfold jobs. cbn. rewrite !fmap_app, app_assoc. apply Forall_app. split; [done|].
    destruct u as [v|]; [|constructor]. destruct (Hres v eq_refl) as [-> _]. by apply Forall_singleton.
  - apply Forall_app. split.
    + apply Forall_forall. intros v Hv j x Hx Hx'. rewrite Forall_forall in Hdone.
      destruct (Hdone v Hv j x Hx Hx') as (E1 & E2 & E3). split_and!; [done|done|]. apply (Hst j); [done| |done].
      intros ->. rewrite Hi in Hx. apply Hcj, elem_of_app. right. apply (inj Some) in Hx as ->.
      by do 2 apply list_elem_of_fmap_2.
    + destruct u as [v|]; [|constructor]. destruct (Hres v eq_refl) as (-> & _ & E1 & E2).
      constructor; [|constructor]. intros j x Hx Hx'. cbn in *.
      apply NoDup_app in Hnd as (Hnd & _ & _). assert (j = i) as -> by exact (NoDup_lookup _ _ _ _ Hnd Hx Hi).
      destruct (shadows_lookup _ _ _ _ _ Hsh Hs) as (y & Hy & Hsy). rewrite Hx' in Hy. apply (inj Some) in Hy as <-.
      rewrite (shadow_local _ _ _ Hsy Hr) in *. by rewrite Hb.
Qed.

Lemma mark_shadow o ids q closed u :
  Forall2 (shadow o) closed (pt_closed q) -> done_ok o ids q u ->
  Forall2 (shadow o) (mark ids closed u) (pt_closed q).
Proof.
  intros Hf Hu. destruct u as [[id lk] ik]. unfold mark, hasClosedSegmentLocked.
  destruct (list_find (eq id) ids) as [[i x]|] eqn:E; [|done]. cbn [fmap option_fmap option_map fst].
  apply list_find_Some in E as (Hi & <- & _). apply Forall2_alter_l; [done|]. intros s t Hs Ht Hst.
  destruct (seg_remote s) eqn:Hr; [done|]. rewrite (shadow_local _ _ _ Hst Hr).
  destruct (Hu i t Hi Ht) as (E1 & E2 & E3). cbn in E1, E2. rewrite E1, E2. right. by constructor.
Qed.

Lemma mark_inv t q bss : tier_inv t q bss -> tier_inv (mark_uploaded t) q bss.
Proof.
  intros Hv. unfold mark_uploaded. destruct (ti_todo t) as [|] eqn:Et; [|done].
  destruct Hv as [Hq [Hc Ha Hn Hh Hmax Hint] Hlen Hnd Hold _ _ _ _ Hdone]. constructor; cbn; try done; [|constructor].
  constructor; cbn; try done. revert Hc. generalize (pt_closed (ti_part t)).
  induction Hdone as [|u us Hu _ IH]; intros closed Hc; [done|]. cbn. apply IH. by apply mark_shadow.
Qed.

(** *** Retention and restarts *)

Lemma closed_inv q bss i t : pt_inv q bss -> pt_closed q !! i = Some t -> exists bs, seg_inv t bs.
Proof.
  intros Hq Hi. destruct (pt_inv_active q bss Hq) as (a & bssc & _ & _ & _ & Hs & _). revert i Hi Hs.
  generalize (earliestOffsetLocked q), (pt_closed q). intros b ts. revert b bssc.
  induction ts as [|s ts IH]; intros b [|bs bssc] i Hi; cbn [segs_inv]; try done.
  intros (Hs & _ & _ & Hr). destruct i as [|i]; [|by eapply IH]. apply (inj Some) in Hi as <-. by exists bs.
Qed.

Lemma segs_local q bss i t : pt_inv q bss -> pt_closed q !! i = Some t -> seg_remote t = false.
Proof. intros Hq [bs Hs]%(closed_inv q bss); [|done]. apply (si_local _ _ Hs). Qed.

Lemma earliest_drop p a n :
  (n <= length (pt_closed p))%nat ->
  exists x, (pt_closed p ++ [a]) !! n = Some x /\
    earliestOffsetLocked (with_segments p (drop n (pt_closed p)) (Some a) (pt_nextOffset p) (pt_highWatermark p))
    = seg_baseOffset x.
Proof.
  intros Hn. unfold earliestOffsetLocked. cbn. destruct (drop n (pt_closed p)) as [|x r] eqn:E.
  - exists a. split; [|done]. assert (length (drop n (pt_closed p)) = 0)%nat as Hl by (by rewrite E).
    rewrite length_drop in Hl. rewrite lookup_app_r by lia. by replace (n - _)%nat with 0%nat by lia.
  - exists x. split; [|done]. apply lookup_app_l_Some. by rewrite <- (Nat.add_0_r n), <- lookup_drop, E.
Qed.

Lemma fold_delete_other (gone : list (gostring * gostring)) o k :
  Forall (fun g => k <> g.1 /\ k <> g.2) gone ->
  objects (fold_left (fun o g => (deleteRemote o g.1 g.2).1) gone o) k = objects o k.
Proof.
  intros Hg. revert o. induction Hg as [|g gone [H1 H2] _ IH]; intros o; [done|]. cbn [fold_left]. rewrite IH.
  unfold deleteRemote. destruct (DeleteObject o g.1) as [o1 e1] eqn:E1.
  destruct (DeleteObject o1 g.2) as [o2 e2] eqn:E2. cbn [fst].
  change o2 with (o2, e2).1. rewrite <- E2, delete_other by done. change o1 with (o1, e1).1.
  by rewrite <- E1, delete_other.
Qed.

Lemma retain_inv t q bss mtime now ret :
  tier_inv t q bss ->
  exists n q', tier_inv (tier_retain t mtime now ret).1 q' (drop n bss) /\ (n < length bss)%nat /\
    (tier_retain t mtime now ret).2 = ANone.
Proof.
  intros [Hq Hsh Hlen Hnd Hold Hj Hk Hsm Htodo Hdone]. pose proof Hsh as [Hc Ha Hn Hh Hmax Hint].
  destruct (plan_spec mtime now ret (ti_part t)) as (n & Hle & Hplan & _).
  destruct (pt_inv_active q bss Hq) as (a & bssc & bsa & Hqa & Ebss & Hi & _).
  pose proof (Forall2_length _ _ _ Hc) as Hlc.
  assert (length bssc = length (pt_closed q)) as Hlb.
  { revert Hi. generalize (earliestOffsetLocked q), (pt_closed q). clear. intros b ts. revert b bssc.
    induction ts as [|t ts IH]; intros b [|bs bssc]; cbn [segs_inv]; try done. intros (_ & _ & _ & Hr). cbn.
    by rewrite (IH _ _ Hr). }
  unfold tier_retain, enforceRetention. rewrite Hplan, remove_all_spec by done. cbn [fst snd].
  cbn [pt_closed with_segments]. rewrite length_drop.
  replace (length (pt_closed (ti_part t)) - (length (pt_closed (ti_part t)) - n))%nat with n by lia.
  set (gone := omap _ _). set (o' := fold_left _ gone _).
  set (q' := with_segments q (drop n (pt_closed q)) (pt_active q) (pt_nextOffset q) (pt_highWatermark q)).
  exists n, q'. split; [|split; [rewrite Ebss, length_app; cbn; lia|done]].
  pose proof (shadows_sorted _ _ _ _ _ Hsh Hq Hqa) as Hsorted.
  assert (forall j x, pt_closed q !! (n + j)%nat = Some x -> stored (ti_s3 t) x -> stored o' x) as Hst.
  { intros j x Hx. apply stored_frame. intros k Hkx. apply fold_delete_other, Forall_forall. intros g Hg.
    apply list_elem_of_omap in Hg as (s & Hs & Hg). apply list_elem_of_In, in_rev, list_elem_of_In, list_elem_of_lookup in Hs as [i Hs].
    apply lookup_take_Some in Hs as [Hs Hin]. unfold gone_keys in Hg. destruct (seg_remote s) eqn:Hr; [|done].
    destruct (shadows_lookup _ _ _ _ _ Hsh Hs) as (y & Hy & [->|Hsy]).
    { by rewrite (segs_local _ _ _ _ Hq Hy) in Hr. }
    unfold remoteKeys in Hg. rewrite (rc_stub _ _ _ Hsy) in Hg. cbn in Hg. apply (inj Some) in Hg as <-. cbn [fst snd].
    assert (seg_baseOffset y <> seg_baseOffset x) as Hne.
    { intros E. assert (i = n + j)%nat; [|lia]. pose proof (pt_inv_sorted _ _ _ Hq Hqa) as Hsq.
      apply (sorted_bases_inj _ i (n + j) y x Hsq); [by apply lookup_app_l_Some|by apply lookup_app_l_Some|done]. }
    split; intros E; apply Hne; (eapply keys_apart; [by eapply closed_small|by eapply closed_small| |exact Hkx]); rewrite E; [by left|by right]. }
  assert (shadows o' (with_segments (ti_part t) (drop n (pt_closed (ti_part t))) (pt_active (ti_part t))
            (pt_nextOffset (ti_part t)) (pt_highWatermark (ti_part t))) q') as Hsh'.
  { constructor; cbn; try done. apply Forall2_same_length_lookup. rewrite !length_drop. split; [lia|].
    intros j s x. rewrite !lookup_drop. intros Hs Hx. eapply shadow_frame; [intros _; by apply (Hst j)|].
    by eapply Forall2_lookup_lr. }
  constructor; cbn [ti_s3 ti_part ti_ids ti_active ti_fresh ti_todo ti_done]; try done.
  - apply drop_closed_inv; [done|lia].
  - cbn. rewrite !length_drop. lia.
  - apply NoDup_app in Hnd as (N1 & N2 & N3). apply NoDup_app. split_and!; [| |done].
    + eapply sublist_NoDup; [exact N1|]. apply sublist_drop.
    + intros x Hx. apply N2. by eapply elem_of_sublist, sublist_drop.
  - apply Forall_app in Hold as [H1 H2]. apply Forall_app. split; [by apply Forall_drop|done].
  - eapply Forall_impl; [exact Htodo|]. intros c Hcok. rewrite Ha in *.
    destruct (earliest_drop (ti_part t) a 0) as (x0 & Hx0 & E0); [lia|]. rewrite drop_0 in E0.
    destruct (earliest_drop (ti_part t) a n Hle) as (x & Hx & E). unfold todo_ok. rewrite Hqa, E.
    assert (forall i y, (i < n)%nat -> (pt_closed (ti_part t) ++ [a]) !! i = Some y -> seg_baseOffset y < seg_baseOffset x) as Hlt.
    { intros i y Hin Hy. eapply (sorted_lookup_lt _ i n); [exact Hsorted|..|done]; rewrite list_lookup_fmap;
        [by rewrite Hy|by rewrite Hx]. }
    destruct Hcok as [(i & s & H1 & H2 & H3 & H4)|Hgone].
    + destruct (decide (i < n)%nat) as [Hin|Hin].
      * right. rewrite <- H3. apply (Hlt i); [done|]. by apply lookup_app_l_Some.
      * left. exists (i - n)%nat, s. cbn. rewrite !lookup_drop. replace (n + (i - n))%nat with i by lia. done.
    + right. assert (earliestOffsetLocked (ti_part t) = seg_baseOffset x0) as E0'.
      { rewrite <- E0. unfold earliestOffsetLocked. cbn. by rewrite Ha, Hqa. }
      destruct n as [|n]; [rewrite Hx0 in Hx; apply (inj Some) in Hx as <-; lia|].
      specialize (Hlt 0%nat x0 ltac:(lia) Hx0). lia.
  - eapply Forall_impl; [exact Hdone|]. intros u Hu i x. cbn. rewrite !lookup_drop. intros H1 H2.
    destruct (Hu _ _ H1 H2) as (E1 & E2 & E3). split_and!; [done|done|]. by apply (Hst i).
Qed.

(** What a restart finds: for a remote segment its stub (and perhaps files that
    were not removed any more), for a local one its files, and behind the log of
    the active one nothing or a torn batch, of which the first 12 bytes are there.
    The code writes a stub in place; one that was cut off is not described here. *)
Definition dir_tiered (dir : Z -> segFiles) (p : Partition) (tl : list byte) : Prop :=
  Forall (fun s => if seg_remote s then f_remote (dir (seg_baseOffset s)) = seg_stub s
                   else dir (seg_baseOffset s) = files_of s []) (pt_closed p) /\
  (forall a, pt_active p = Some a -> dir (seg_baseOffset a) = files_of a tl) /\
  torn tl /\ (12 <= zlen tl \/ tl = []).

Lemma open_tiered o dir p ts segs b bss e :
  Forall2 (shadow o) segs ts -> segs_inv b ts bss e -> Forall (seg_cfg p) ts ->
  Forall (fun s => if seg_remote s then f_remote (dir (seg_baseOffset s)) = seg_stub s
                   else dir (seg_baseOffset s) = files_of s []) segs ->
  exists segs', Forall2 (shadow o) segs' (reopened <$> ts) /\
    Forall2 (fun s s' => openSegment (dir (seg_baseOffset s)) (seg_baseOffset s) (pt_maxSegmentBytes p)
                           (pt_indexInterval p) = Ok s') segs segs'.
Proof.
  intros H. revert b bss. induction H as [|s t segs ts Hs Hf IH]; intros b [|bs bss]; cbn [segs_inv]; try done.
  { intros _ _ _. by exists []. }
  intros (Ht & _ & _ & Hr) [[E1 E2] Hc]%Forall_cons [Hd Hfd]%Forall_cons.
  destruct (IH _ _ Hr Hc Hfd) as (segs' & H1 & H2).
  assert (exists s', shadow o s' (reopened t) /\ openSegment (dir (seg_baseOffset s)) (seg_baseOffset s) (pt_maxSegmentBytes p)
                           (pt_indexInterval p) = Ok s') as (s' & H3 & H4); [|exists (s' :: segs'); by split; constructor].
  destruct Hs as [->|[Rb Rn Rm Ri Rr Rs Rst]].
  - rewrite (si_local _ _ Ht) in Hd. exists (reopened t). split; [by left|].
    by rewrite <- E1, <- E2, Hd, (openSegment_files t bs) by (done || by left).
  - rewrite Rr, Rs in Hd. unfold openSegment. rewrite Hd. eexists. split; [|reflexivity]. right.
    constructor; cbn; try done; congruence.
Qed.

Lemma opened_inv o p q bss : pt_inv q bss -> shadows o p q -> tier_inv (opened o p) q bss.
Proof.
  intros Hq Hsh. pose proof (Forall2_length _ _ _ (sh_closed _ _ _ Hsh)) as Hl. constructor; cbn; try done.
  - by rewrite length_seq.
  - apply NoDup_app. split_and!; [apply NoDup_seq| |apply NoDup_singleton].
    intros x Hx%elem_of_seq [->|?%not_elem_of_nil]%elem_of_cons; [lia|done].
  - apply Forall_app. split; [|repeat constructor; lia]. apply Forall_forall. intros x Hx%elem_of_seq. lia.
  - constructor.
Qed.

Lemma restart_inv t q bss dir bases tl :
  tier_inv t q bss -> dir_tiered dir (ti_part t) tl ->
  (forall b, b ∈ bases <-> b ∈ seg_baseOffset <$> orderedSegmentsLocked (ti_part t)) ->
  exists q', tier_inv (tstep topic partitionID tierThreshold t (TRestart dir bases)).1 q' bss /\
    (tstep topic partitionID tierThreshold t (TRestart dir bases)).2 = ANone.
Proof.
  intros [Hq Hsh _ _ _ _ _ _ _ _] (Hdc & Hda & Htl & Hlen) Hb. pose proof Hsh as [Hc Ha Hn Hh Hmax Hint].
  destruct (pt_inv_active q bss Hq) as (a & bssc & bsa & Hqa & Ebss & Hi & Hs & _ & Hqn & Hcfg & [Hca1 Hca2]).
  destruct (open_tiered _ dir q _ _ _ _ _ Hc Hi Hcfg Hdc) as (segs' & Hsh' & Hopen).
  destruct (reopened_pt_inv q (unopened (ti_part t)) a bss Hq Hqa) as (Hq' & _ & _); [done|done|].
  set (q' := with_segments _ _ _ _ _) in Hq'.
  assert (recover_partition dir bases (unopened (ti_part t))
          = Ok (with_segments (unopened (ti_part t)) segs' (Some (reopened a)) (seg_nextOffset a) (seg_nextOffset a))) as Hrec.
  { apply (recover_opened _ _ _ (pt_closed (ti_part t)) a segs' (reopened a)); [done|by eapply shadows_sorted| |].
    - unfold orderedSegmentsLocked in Hb. by rewrite Ha, Hqa in Hb.
    - cbn. rewrite Hmax, Hint. apply Forall2_app; [done|]. constructor; [|constructor].
      rewrite <- Hca1, <- Hca2, (Hda a) by congruence. rewrite (openSegment_files a bsa tl) by done.
      replace ((0 <? zlen tl) && (zlen tl <? 12)) with false; [done|].
      symmetry. apply andb_false_iff. destruct Hlen as [Hl| ->]; [right; by apply Z.ltb_ge|by left]. }
  exists q'. cbn [tstep]. rewrite Hrec. split; [|done]. cbn [fst].
  by apply opened_inv.
Qed.

(** ** The guarantee *)

(** When the partition is asked something it can do. *)
Definition admissible (t : Tier (O := O)) (bss : list (list (list byte))) (e : tevent) : Prop :=
  match e with
  | TAppend raw =>
      wf_raw raw /\
      (forall a, pt_active (ti_part t) = Some a ->
         pt_nextOffset (ti_part t) + raw_lod raw + 1 - seg_baseOffset a <= 2147483647 /\
         seg_size a + zlen raw <= 4294967295) /\
      pt_nextOffset (ti_part t) + raw_lod raw + 1 <= 4611686018427387904
  | TRead off maxBytes =>
      0 <= off /\ earliestOffsetLocked (ti_part t) <= off < pt_nextOffset (ti_part t) /\ 0 < maxBytes /\
      Forall (fun bs => maxBytes + zlen (mjoin bs) <= 2147483647) bss
  | TRestart dir bases =>
      (exists tl, dir_tiered dir (ti_part t) tl) /\
      forall b, b ∈ bases <-> b ∈ seg_baseOffset <$> orderedSegmentsLocked (ti_part t)
  | _ => True
  end.

(** What a log without any tiering would do. *)
Definition log_spec (t : Tier (O := O)) (e : tevent) (a : answer) (bss bss' : list (list (list byte))) : Prop :=
  match e with
  | TAppend raw =>
      a = AOffset (pt_nextOffset (ti_part t)) /\
      mjoin bss' = mjoin bss ++ [set_base raw (pt_nextOffset (ti_part t))]
  | TRead off maxBytes =>
      bss' = bss /\ (a = AData (spec_read off maxBytes (mjoin bss) []) \/ a = AFail /\ ~ reliable (ti_s3 t))
  | TRetain _ _ _ => a = ANone /\ exists n, (n < length bss)%nat /\ bss' = drop n bss
  | _ => a = ANone /\ bss' = bss
  end.

Lemma tstep_spec t bss e :
  tier_holds t bss -> admissible t bss e ->
  exists bss', log_spec t e (tstep topic partitionID tierThreshold t e).2 bss bss' /\
    tier_holds (tstep topic partitionID tierThreshold t e).1 bss'.
Proof.
  intros [q Hv] Had. destruct e as [raw|now|off mx|mtime now ret|mtime now| | |dir bases]; cbn [admissible log_spec] in *.
  - destruct Had as (H1 & H2 & H3). destruct (append_inv t q bss raw Hv H1 H2 H3) as (q' & bss' & H & Ho & Hj).
    exists bss'. split; [by split|by exists q'].
  - exists bss. split; [done|]. by eapply sync_inv_tier.
  - destruct Had as (H0 & Ho & Hm & Hf). destruct (read_inv t q bss off mx Hv H0 Ho Hm Hf) as (q' & H & Hd).
    exists bss. split; [by split|by exists q'].
  - destruct (retain_inv t q bss mtime now ret Hv) as (n & q' & H & Hn & Ha). exists (drop n bss).
    split; [split; [done|by exists n]|by exists q'].
  - exists bss. split; [done|]. exists q. by apply scan_inv.
  - exists bss. split; [done|]. exists q. by apply upload_inv.
  - exists bss. split; [done|]. exists q. by apply mark_inv.
  - destruct Had as [[tl Hd] Hb]. destruct (restart_inv t q bss dir bases tl Hv Hd Hb) as (q' & H & Ha).
    exists bss. split; [done|by exists q'].
Qed.

Fixpoint behaves (t : Tier) (bss : list (list (list byte))) (es : list tevent) : Prop :=
  match es with
  | [] => True
  | e :: es =>
      admissible t bss e ->
      exists bss', log_spec t e (tstep topic partitionID tierThreshold t e).2 bss bss' /\
        behaves (tstep topic partitionID tierThreshold t e).1 bss' es
  end.

(** C9: tiering cannot be observed. Take a partition that holds the batches [bss]
    in local segments, and let any sequence of steps follow: appends, syncs,
    reads, retention, restarts after a crash, and the three steps of the
    offloader, each in any place and any number of times. Every answer is the
    one a log without tiering would give: an append gets the log end and adds
    its batch, a read returns exactly the batches the specification asks for
    (or fails, and then only because the object store did not answer), retention
    removes a run of the oldest segments, and nothing else changes what the log
    holds. The object store is any that keeps what it acknowledged, also when it
    fails at any call. The steps are whole: a restart comes between two of them and
    finds each stub complete, and behind the active segment nothing or a torn batch
    of at least 12 bytes. Appended batches are well formed and keep offsets and
    segment sizes within their widths; reads lie within the log and ask for a
    positive number of bytes that 32 bits can hold together with a segment. *)
Theorem tiering_invisible o p bss es : pt_inv p bss -> behaves (opened o p) bss es.
Proof.
  intros Hp. assert (tier_holds (opened o p) bss) as Hh.
  { exists p. apply opened_inv; [done|]. constructor; try done. apply Forall2_same_length_lookup.
    split; [done|]. intros. left. congruence. }
  revert Hh. generalize (opened o p). clear Hp. revert bss. induction es as [|e es IH]; intros bss t Ht; [done|].
  cbn [behaves]. intros Had. destruct (tstep_spec t bss e Ht Had) as (bss' & Hs & Ht'). exists bss'. split; [done|]. by apply IH.
Qed.

(** ** A whole round of the offloader *)

Definition is_old (mtime : Segment -> option Z) (now : Z) (s : Segment) : bool :=
  match mtime s with Some t => t <? now - tierThreshold | None => false end.

Definition offloaded (s : Segment) : Segment :=
  markRemote s (log_key (seg_baseOffset s)) (index_key (seg_baseOffset s)).

Definition upload_of (c : nat * Z) : nat * gostring * gostring := (c.1, log_key c.2, index_key c.2).

Lemma elem_of_candidates mtime now segs c :
  c ∈ candidates mtime (now - tierThreshold) (zip (seq 0 (length segs)) segs) <->
  exists s, segs !! c.1 = Some s /\ seg_remote s = false /\ is_old mtime now s = true /\ c.2 = seg_baseOffset s.
Proof.
  unfold candidates, is_old. rewrite list_elem_of_omap. split.
  - intros ([id s] & (i & Hi)%list_elem_of_lookup & Hc). apply lookup_zip_with_Some in Hi as (x & y & [= <- <-] & Hx & Hy).
    apply lookup_seq in Hx as [-> _]. destruct (seg_remote s) eqn:E; [done|].
    destruct (mtime s) as [m|] eqn:Em; [|done]. destruct (m <? _) eqn:El; [|done]. apply (inj Some) in Hc as <-.
    exists s. by rewrite Em.
  - intros (s & Hs & Hr & Ho & Hb). exists (c.1, s). split.
    + apply list_elem_of_lookup. exists c.1. apply lookup_zip_with_Some. exists c.1, s. split_and!; [done| |done].
      apply lookup_seq. split; [done|]. by eapply lookup_lt_Some.
    + rewrite Hr. destruct (mtime s); [|done]. rewrite Ho, <- Hb. by destruct c.
Qed.

Lemma hasClosed_seq n id : (id < n)%nat -> hasClosedSegmentLocked (seq 0 n) id = Some id.
Proof.
  intros Hl. unfold hasClosedSegmentLocked. replace (list_find _ _) with (Some (id, id)); [done|].
  symmetry. apply list_find_Some. split_and!; [by apply lookup_seq|done|].
  intros j y [-> _]%lookup_seq Hlt. cbn. lia.
Qed.

Lemma fold_mark_lookup n us closed j :
  Forall (fun u : nat * gostring * gostring => (u.1.1 < n)%nat) us -> NoDup us.*1.*1 ->
  fold_left (mark (seq 0 n)) us closed !! j
  = match list_find (fun u => u.1.1 = j) us with
    | Some (_, u) => (fun s => if seg_remote s then s else markRemote s u.1.2 u.2) <$> closed !! j
    | None => closed !! j
    end.
Proof.
  intros Hf. revert closed. induction Hf as [|[[id lk] ik] us Hid Hf IH]; intros closed; [done|].
  cbn [fmap list_fmap fst]. intros [Hni Hnd]%NoDup_cons. cbn [fold_left]. rewrite (IH _ Hnd). cbn [mark].
  rewrite (hasClosed_seq n id Hid). cbn [list_find fst snd]. destruct (decide (id = j)) as [->|Hne].
  - replace (list_find _ us) with (@None (nat * (nat * gostring * gostring))); [apply list_lookup_alter_eq|].
    symmetry. apply list_find_None, Forall_forall. intros u Hu E. apply Hni. rewrite <- E. by do 2 apply list_elem_of_fmap_2.
  - destruct (list_find _ us) as [[i u]|]; cbn; by rewrite list_lookup_alter_ne.
Qed.

Lemma upload_all (t : Tier) cs :
  (forall o k d, (PutObject (O := O) o k d).2 = Ok tt) -> ti_todo t = cs ->
  Forall (fun c => is_Some (f_log (dir_files (orderedSegmentsLocked (ti_part t)) c.2)) /\
                   is_Some (f_index (dir_files (orderedSegmentsLocked (ti_part t)) c.2))) cs ->
  exists o', Nat.iter (length cs) (upload_next topic partitionID) t
    = mkTier o' (ti_part t) (ti_ids t) (ti_active t) (ti_fresh t) [] (ti_done t ++ (upload_of <$> cs)).
Proof.
  intros Hput. revert t. induction cs as [|c cs IH]; intros t Et Hf.
  { exists (ti_s3 t). cbn. rewrite app_nil_r, <- Et. by destruct t. }
  apply Forall_cons in Hf as [[[ld Hl] [xd Hx]] Hf]. cbn [length]. rewrite Nat.iter_succ_r.
  assert (exists o', upload_next topic partitionID t
    = mkTier o' (ti_part t) (ti_ids t) (ti_active t) (ti_fresh t) cs (ti_done t ++ [upload_of c])) as [o' ->].
  { unfold upload_next. rewrite Et. unfold upload. rewrite Hl, Hx.
    pose proof (Hput (ti_s3 t) (tierKey topic partitionID c.2 log_ext) ld) as H1.
    destruct (PutObject (ti_s3 t) _ ld) as [o1 r1]. cbn in H1. rewrite H1.
    pose proof (Hput o1 (tierKey topic partitionID c.2 index_ext) xd) as H2.
    destruct (PutObject o1 _ xd) as [o2 r2]. cbn in H2. rewrite H2. by exists o2. }
  destruct (IH (mkTier o' (ti_part t) (ti_ids t) (ti_active t) (ti_fresh t) cs (ti_done t ++ [upload_of c])) eq_refl Hf)
    as [o2 ->]. exists o2. cbn. by rewrite <- app_assoc.
Qed.

Lemma mark_candidates mtime now segs :
  (forall i s, segs !! i = Some s -> seg_remote s = false) ->
  fold_left (mark (seq 0 (length segs)))
    (upload_of <$> candidates mtime (now - tierThreshold) (zip (seq 0 (length segs)) segs)) segs
  = (fun s => if is_old mtime now s then offloaded s else s) <$> segs.
Proof.
  intros Hl. set (cs := candidates _ _ _). apply list_eq. intros j.
  assert ((upload_of <$> cs).*1.*1 = cs.*1) as Hids by (rewrite <- !list_fmap_compose; by apply list_fmap_ext).
  assert (forall c, c ∈ cs <-> exists s, segs !! c.1 = Some s /\ seg_remote s = false /\ is_old mtime now s = true /\
            c.2 = seg_baseOffset s) as Hcs by (intros c; apply elem_of_candidates).
  rewrite fold_mark_lookup.
  - rewrite list_lookup_fmap. destruct (segs !! j) as [s|] eqn:Es; [|by destruct (list_find _ _) as [[]|]].
    destruct (list_find _ _) as [[i u]|] eqn:El.
    + apply list_find_Some in El as (Hu%list_elem_of_lookup_2 & Hj & _).
      apply list_elem_of_fmap in Hu as (c & -> & (s' & Hs' & Hr & Ho & Hb)%Hcs). cbn in Hj |- *.
      rewrite Hj, Es in Hs'. apply (inj Some) in Hs' as <-. by rewrite Hr, Ho, Hb.
    + cbn. destruct (is_old mtime now s) eqn:Ho; [|done]. apply list_find_None in El. rewrite Forall_forall in El.
      destruct (El (upload_of (j, seg_baseOffset s))); [|done]. apply list_elem_of_fmap_2, Hcs. exists s.
      split_and!; [done|by eapply Hl|done|done].
  - apply Forall_fmap, Forall_forall. intros c (s & Hs%lookup_lt_Some & _)%Hcs. done.
  - rewrite Hids. eapply sublist_NoDup; [|apply candidates_ids]. rewrite fst_zip by (by rewrite length_seq). apply NoDup_seq.
Qed.

(** A round of the offloader makes room and loses nothing. With an object
    store that answers, [offloadPartition] leaves of every closed segment that
    was last written before the threshold only a stub with its two keys (no local
    bytes), and touches no other segment; a read of any offset afterwards brings
    back what it needs and returns the same batches as before. *)
Theorem offload_frees o p bss mtime now o' p' :
  (forall o k d, (PutObject (O := O) o k d).2 = Ok tt) -> pt_inv p bss ->
  offloadPartition topic partitionID tierThreshold o p mtime now = (o', p') ->
  pt_closed p' = (fun s => if is_old mtime now s then offloaded s else s) <$> pt_closed p /\
  pt_active p' = pt_active p /\ pt_nextOffset p' = pt_nextOffset p /\
  forall off maxBytes, reliable o' -> 0 <= off -> earliestOffsetLocked p <= off < pt_nextOffset p ->
    0 < maxBytes -> fits maxBytes (orderedSegmentsLocked p) ->
    exists p2, Read (attach (Some o')) p' off maxBytes = (p2, Ok (spec_read off maxBytes (mjoin bss) []), pt_highWatermark p).
Proof.
  intros Hput Hp Hoff. destruct (pi_active _ _ Hp) as [a Ha].
  assert (tier_inv (opened o p) p bss) as Hv.
  { apply opened_inv; [done|]. constructor; try done. apply Forall2_same_length_lookup. split; [done|]. intros. left. congruence. }
  unfold offloadPartition in Hoff. apply (scan_inv _ _ _ mtime now) in Hv as Hv1.
  set (t := scan tierThreshold (opened o p) mtime now) in *.
  assert (ti_todo t = candidates mtime (now - tierThreshold) (zip (seq 0 (length (pt_closed p))) (pt_closed p))) as Et by done.
  assert (tier_inv (mark_uploaded (Nat.iter (length (ti_todo t)) (upload_next topic partitionID) t)) p bss) as Hv2.
  { apply mark_inv. clear -Hv1. induction (length (ti_todo t)) as [|n IH]; [done|]. by apply upload_inv. }
  destruct (upload_all t (ti_todo t) Hput eq_refl) as [o2 E].
  { apply Forall_forall. intros c Hc. rewrite Et in Hc. apply elem_of_candidates in Hc as (s & Hs & _ & _ & Hb).
    change (ti_part t) with p. unfold orderedSegmentsLocked. rewrite Ha, Hb. change (option_list (Some a)) with [a].
    rewrite (dir_files_at _ c.1 s (pt_inv_sorted _ _ _ Hp Ha)) by (by apply lookup_app_l_Some).
    destruct (closed_inv _ _ _ _ Hp Hs) as [bs Hsi]. destruct (si_index _ _ Hsi) as (idx & -> & _).
    by rewrite (si_log _ _ Hsi). }
  apply pair_equal_spec in Hoff as [Ho Hpp].
  assert (p' = with_segments p (fold_left (mark (seq 0 (length (pt_closed p)))) (upload_of <$> ti_todo t) (pt_closed p))
                 (pt_active p) (pt_nextOffset p) (pt_highWatermark p)) as ->.
  { rewrite <- Hpp, E. done. }
  split; [|split; [done|split; [done|]]].
  - cbn [pt_closed with_segments]. rewrite Et. by apply mark_candidates; intros i s; apply (segs_local p bss).
  - intros off mx Hrel H0 Hoff Hm Hfit. pose proof (tv_sh _ _ _ Hv2) as Hsh. rewrite Ho, Hpp in Hsh.
    destruct (Read_shadows _ _ _ _ _ _ Hsh Hp H0 Hoff Hm Hfit) as (cl & q' & d & -> & _ & _ & _ & _ & _ & [->|[_ Hn]]); [|done].
    by eexists.
Qed.
End props.

(** ** A concrete round *)

Definition demo_age (s : Segment) : option Z := Some (seg_baseOffset s).

Definition demo_tier : Tier := opened (∅ : gmap gostring (list byte)) demo_partition.

Lemma tiering_invisible_witness :
  exists bss', log_spec demo_tier (TRead 0 1000) (tstep (str "orders") 0 10 demo_tier (TRead 0 1000)).2 demo_segments bss' /\
    behaves (str "orders") 0 10 (tstep (str "orders") 0 10 demo_tier (TRead 0 1000)).1 bss'
      [TScan demo_age 100; TUpload; TAppend demo_raw; TMark; TRead 0 1000].
Proof.
  refine (tiering_invisible (str "orders") 0 10 (∅ : gmap gostring (list byte)) demo_partition demo_segments
    (TRead 0 1000 :: [TScan demo_age 100; TUpload; TAppend demo_raw; TMark; TRead 0 1000]) demo_partition_inv _).
  cbn [admissible].
  split_and!; [vm_compute; discriminate|vm_compute; discriminate|vm_compute; reflexivity|vm_compute; reflexivity|].
  decide_closed.
Defined.

Lemma offload_frees_witness :
  exists o' p' p2, offloadPartition (str "orders") 0 10 (∅ : gmap gostring (list byte)) demo_partition demo_age 100 = (o', p') /\
    forallb seg_remote (pt_closed p') = true /\
    Read (attach (Some o')) p' 0 1000 = (p2, Ok (spec_read 0 1000 (mjoin demo_segments) []), pt_highWatermark demo_partition).
Proof.
  destruct (offloadPartition (str "orders") 0 10 (∅ : gmap gostring (list byte)) demo_partition demo_age 100) as [o' p'] eqn:E.
  destruct (offload_frees (str "orders") 0 10 (∅ : gmap gostring (list byte)) demo_partition demo_segments demo_age 100 o' p')
    as (Hc & _ & _ & Hr); [reflexivity|exact demo_partition_inv|exact E|].
  destruct (Hr 0 1000) as [p2 H2].
  - intros k d Hk. cbn in Hk |- *. by rewrite Hk.
  - lia.
  - vm_compute. split; [discriminate|reflexivity].
  - lia.
  - unfold fits. decide_closed.
  - exists o', p', p2. split; [done|]. split; [rewrite Hc; vm_compute; reflexivity|done].
Defined.

(** Truncating into a segment that is in the object store: the segment becomes
    the active one as it is, without files, and the scan for the cut goes through
    a nil index. *)
Lemma truncate_remote_panics :
  let p := (offloadPartition (str "orders") 0 10 (∅ : gmap gostring (list byte)) demo_partition demo_age 100).2 in
  TruncateTo p 1 = Panic.
Proof. vm_compute. reflexivity. Qed.
