(* ===== verification/Compaction.v ===== *)
(** * Log compaction (internal/storage/compaction.go)

    Compaction rewrites a partition so that of all records with one key only the
    last stays. It reads the segments twice under the read lock (which record is
    the last of its key; copy the records that stay into segments under
    [compact-tmp]), then takes the write lock, copies what was appended
    meanwhile, and swaps the files in three steps a restart can finish: the new
    files are renamed to [.staged], a manifest names the old and the new files,
    and [applyCompactionSwap] removes the former and moves the latter.

    [stage] is the part of [Compact] under the read lock and
    [installCompaction] the part under the write lock, so whatever runs between
    them is between them here. A directory is a map from file names to contents;
    a file name is a base offset and an extension, which the source prints as
    twenty digits and a suffix. [clock] gives the time of each flush by the
    offset it writes at. *)

From stdpp Require Import prelude list gmap strings sorting.
From Stdlib Require Import ZArith Lia.
From S2P Require Import Prelude GoBinary Wire RecordBatch Index Segment SegmentOps Partition PartitionOps.

(** ** Directories *)

Inductive ext := ExtLog | ExtIndex | ExtRemote.

#[export] Instance ext_eq_dec : EqDecision ext.
Proof. solve_decision. Defined.
#[export] Instance ext_countable : Countable ext.
Proof.
  refine (inj_countable' (fun e => match e with ExtLog => 0%nat | ExtIndex => 1%nat | ExtRemote => 2%nat end)
    (fun n => match n with 0%nat => ExtLog | 1%nat => ExtIndex | _ => ExtRemote end) _).
  by intros [].
Defined.

Abbreviation fname := (Z * ext)%type.

(** The bytes of a log or an index, or the keys and the next offset of a stub. *)
Abbreviation content := (list byte + (gostring * gostring * Z))%type.
Abbreviation dirmap := (gmap fname content).

Definition put_file (n : fname) (c : option content) (m : dirmap) : dirmap :=
  match c with Some c => <[n := c]> m | None => m end.

(** The files of a segment, and of a list of segments. *)
Definition seg_dir (s : Segment) (m : dirmap) : dirmap :=
  put_file (seg_baseOffset s, ExtLog) (inl <$> seg_log s)
    (put_file (seg_baseOffset s, ExtIndex) (inl ∘ ix_file <$> seg_index s)
      (put_file (seg_baseOffset s, ExtRemote) (inr <$> seg_stub s) m)).

Definition segs_dir (segs : list Segment) : dirmap := foldr seg_dir ∅ segs.

(** What [openSegment] and the listing of [Partition.recover] find. *)
Definition dir_segFiles (m : dirmap) (base : Z) : segFiles :=
  mkFiles (m !! (base, ExtLog) ≫= fun c => match c with inl b => Some b | inr _ => None end)
          (m !! (base, ExtIndex) ≫= fun c => match c with inl b => Some b | inr _ => None end)
          (m !! (base, ExtRemote) ≫= fun c => match c with inl _ => None | inr s => Some s end).

Definition dir_bases (m : dirmap) : list Z :=
  omap (fun n => match n.2 with ExtIndex => None | _ => Some n.1 end) (map_to_list m).*1.

(** [Partition.recover] on a directory. *)
Definition recover_dir (m : dirmap) (p : Partition) : outcome Partition :=
  recover_partition (dir_segFiles m) (dir_bases m) p.

Record compactionManifest := mkManifest { m_Old : list fname; m_New : list fname }.

(** [compact-tmp]: the files being written, those renamed to [.staged], and the
    manifest file; a manifest that is not valid JSON (cut by a crash) is
    [Some None]. *)
Record tmpDir := mkTmp {
  tmp_files : dirmap;
  tmp_staged : dirmap;
  tmp_manifest : option (option compactionManifest) }.

Record partDir := mkPartDir { d_files : dirmap; d_tmp : option tmpDir }.

(** ** The swap *)

(** The file-system calls of [applyCompactionSwap] in order; [os.Stat] is part of
    the call it guards. *)
Inductive swap_call :=
  | SwapRemove (name : fname) (replaced : bool)
  | SwapRename (name : fname)
  | SwapDropManifest
  | SwapDropTmp.

Definition swap_step (d : partDir) (c : swap_call) : partDir :=
  match d_tmp d with
  | None => d
  | Some t =>
      match c with
      | SwapRemove n replaced =>
          if replaced && bool_decide (tmp_staged t !! n = None) then d
          else mkPartDir (delete n (d_files d)) (Some t)
      | SwapRename n =>
          match tmp_staged t !! n with
          | None => d
          | Some c => mkPartDir (<[n := c]> (d_files d))
                        (Some (mkTmp (tmp_files t) (delete n (tmp_staged t)) (tmp_manifest t)))
          end
      | SwapDropManifest => mkPartDir (d_files d) (Some (mkTmp (tmp_files t) (tmp_staged t) None))
      | SwapDropTmp => mkPartDir (d_files d) None
      end
  end.

Definition swap_calls (m : compactionManifest) : list swap_call :=
  map (fun n => SwapRemove n (bool_decide (n ∈ m_New m))) (m_Old m) ++
  map SwapRename (m_New m) ++ [SwapDropManifest; SwapDropTmp].

Definition manifest_of (d : partDir) : option compactionManifest :=
  d_tmp d ≫= fun t => tmp_manifest t ≫= id.

Definition applyCompactionSwap (d : partDir) : partDir :=
  match manifest_of d with
  | Some m => fold_left swap_step (swap_calls m) d
  | None => mkPartDir (d_files d) None
  end.

(** The part of [OpenPartition] that reads the directory: finish a swap, then
    recover. *)
Definition open_dir (d : partDir) (p : Partition) : outcome Partition :=
  recover_dir (d_files (applyCompactionSwap d)) p.

(** [stageSwapFiles]. *)
Fixpoint stageSwapFiles (t : tmpDir) (names : list fname) : outcome tmpDir :=
  match names with
  | [] => Ok t
  | n :: r =>
      match tmp_files t !! n with
      | Some c => stageSwapFiles (mkTmp (delete n (tmp_files t)) (<[n := c]> (tmp_staged t))
                                    (tmp_manifest t)) r
      | None => Err "rename: no such file or directory"
      end
  end.

Definition writeManifest (t : tmpDir) (m : compactionManifest) : tmpDir :=
  mkTmp (tmp_files t) (tmp_staged t) (Some (Some m)).

Definition dirFileNames (m : dirmap) : list fname := (map_to_list m).*1.

(** ** Reading batches *)

Definition compactBatchSize : Z := 500.
Definition compactBatchBytes : Z := 1048576.
Definition compactReadBytes : Z := 1048576.
Definition compactMaxKeyBytes : Z := 268435456.

Section for_each.
Context {S : Type} (fn : S -> RecordBatch -> outcome S).

(** The inner loop: the batches in [raw]; a batch that does not decode is passed
    over. The state, the next offset, and whether a batch was decoded. *)
Fixpoint batch_loop (fuel : nat) (raw : list byte) (s : S) (next : Z) (advanced : bool)
  : outcome (S * Z * bool) :=
  match fuel with
  | O => Err no_fuel
  | Datatypes.S k =>
      if zlen raw <? 12 then Ok (s, next, advanced) else
      match ParseRecordBatchHeader raw with
      | Ok h =>
          let total := BatchTotalSize h in
          if (total <=? 0) || (zlen raw <? total) then Ok (s, next, advanced) else
          let rest := drop (Z.to_nat total) raw in
          match DecodeRecordBatch (take (Z.to_nat total) raw) with
          | Ok b =>
              let? s := fn s b in
              batch_loop k rest s (i64 (uint_at raw 0 8) + h_LastOffsetDelta h + 1) true
          | Err _ => batch_loop k rest s next advanced
          | Panic => Panic
          end
      | Err _ => Ok (s, next, advanced)
      | Panic => Panic
      end
  end.

Fixpoint range_loop (fuel : nat) (seg : Segment) (next to : Z) (s : S) : outcome S :=
  match fuel with
  | O => Err no_fuel
  | Datatypes.S k =>
      if to <=? next then Ok s else
      let? raw := read seg next compactReadBytes in
      let? (s, next, advanced) := batch_loop (Datatypes.S (length raw)) raw s next false in
      if advanced then range_loop k seg next to s else Ok s
  end.

Definition forEachBatchRange (seg : Segment) (from to : Z) (s : S) : outcome S :=
  range_loop (Datatypes.S (length (default [] (seg_log seg)))) seg from to s.

Fixpoint forEachBatch (segs : list Segment) (end_ : Z) (s : S) : outcome S :=
  match segs with
  | [] => Ok s
  | seg :: r =>
      let limit := logEndOffset seg in
      let limit := if (0 <? end_) && (end_ <? limit) then end_ else limit in
      let? s := forEachBatchRange seg (seg_baseOffset seg) limit s in
      forEachBatch r end_ s
  end.
End for_each.

(** [for _, x := range xs] with a body that can fail. *)
Fixpoint each {S A} (fn : S -> A -> outcome S) (s : S) (xs : list A) : outcome S :=
  match xs with
  | [] => Ok s
  | x :: xs => let? s := fn s x in each fn s xs
  end.

(** ** Planning *)

(** [last] by key; [idx] and [nulls] are local variables of [planCompaction]. *)
Record planning := mkPlanning {
  pg_last : gmap (list byte) Z;
  pg_keyBytes : Z;
  pg_idx : Z;
  pg_nulls : Z }.

Definition plan_record (g : planning) (rec : Record_) : outcome planning :=
  match rec_Key rec with
  | None => Ok (mkPlanning (pg_last g) (pg_keyBytes g) (pg_idx g + 1) (pg_nulls g + 1))
  | Some k =>
      let keyBytes :=
        match pg_last g !! k with None => pg_keyBytes g + zlen k | Some _ => pg_keyBytes g end in
      if bool_decide (pg_last g !! k = None) && (compactMaxKeyBytes <? keyBytes)
      then Err "compaction key state above limit" else
      Ok (mkPlanning (<[k := pg_idx g]> (pg_last g)) keyBytes (pg_idx g + 1) (pg_nulls g))
  end.

Record compactionPlan := mkPlan {
  pl_last : gmap (list byte) Z;
  pl_total : Z;
  pl_planned : Z;
  pl_keyBytes : Z }.

Definition planCompaction (segs : list Segment) (end_ : Z) : outcome compactionPlan :=
  let? g := forEachBatch (fun g b => each plan_record g (rb_Records b)) segs end_
              (mkPlanning ∅ 0 0 0) in
  Ok (mkPlan (pg_last g) (pg_idx g) (pg_nulls g + Z.of_nat (size (pg_last g))) (pg_keyBytes g)).

(** ** The writer *)

(** [cw_closed] are the segments [seg.close] was called on; their files stay in
    the directory. *)
Record compactWriter := mkWriter {
  cw_maxBytes : Z;
  cw_interval : Z;
  cw_base : Z;
  cw_closed : list Segment;
  cw_seg : option Segment;
  cw_files : list fname;
  cw_batch : list Record_;
  cw_pendingBytes : Z }.

Definition cw_segments (w : compactWriter) : list Segment := cw_closed w ++ option_list (cw_seg w).

Definition cw_roll (w : compactWriter) : outcome compactWriter :=
  let? seg := openSegment (dir_segFiles (segs_dir (cw_segments w)) (cw_base w)) (cw_base w)
                (cw_maxBytes w) (cw_interval w) in
  Ok (mkWriter (cw_maxBytes w) (cw_interval w) (cw_base w) (cw_segments w) (Some seg)
        (cw_files w ++ [(seg_baseOffset seg, ExtLog); (seg_baseOffset seg, ExtIndex)])
        (cw_batch w) (cw_pendingBytes w)).

Definition newCompactWriter (maxBytes interval : Z) : outcome compactWriter :=
  cw_roll (mkWriter maxBytes interval 0 [] None [] [] 0).

Section writer.
Context (clock : Z -> Z).

Definition cw_flush (w : compactWriter) : outcome compactWriter :=
  if bool_decide (cw_batch w = []) then Ok w else
  match cw_seg w with
  | None => Panic
  | Some seg =>
      let now := clock (seg_nextOffset seg) in
      let? raw := EncodeRecordBatch
                    (mkBatch 0 0 0 0 0 0 now now (-1) (-1) (-1) (cw_batch w)) in
      let? (_, seg) := append seg raw in
      if full seg then
        cw_roll (mkWriter (cw_maxBytes w) (cw_interval w) (seg_nextOffset seg) (cw_closed w)
                   (Some seg) (cw_files w) [] 0)
      else
        Ok (mkWriter (cw_maxBytes w) (cw_interval w) (cw_base w) (cw_closed w) (Some seg)
              (cw_files w) [] 0)
  end.

(** The record is copied without its attributes and its timestamp. *)
Definition cw_add (w : compactWriter) (rec : Record_) : outcome compactWriter :=
  let batch := cw_batch w ++
    [mkRecord 0 0 (i32 (zlen (cw_batch w))) (rec_Key rec) (rec_Value rec) (rec_Headers rec)] in
  let pending := cw_pendingBytes w + zlen (default [] (rec_Key rec)) + zlen (default [] (rec_Value rec)) in
  let w := mkWriter (cw_maxBytes w) (cw_interval w) (cw_base w) (cw_closed w) (cw_seg w)
             (cw_files w) batch pending in
  if (zlen batch <? compactBatchSize) && (pending <? compactBatchBytes) then Ok w else cw_flush w.

(** [finish] gives the names of the files; closing the last segment leaves its
    files as they are. *)
Definition cw_finish (w : compactWriter) : outcome (compactWriter * list fname) :=
  let? w := cw_flush w in Ok (w, cw_files w).

(** ** Staging *)

Definition stage_record (plan : compactionPlan) (st : compactWriter * Z) (rec : Record_)
  : outcome (compactWriter * Z) :=
  let '(w, idx) := st in
  let keep := match rec_Key rec with
              | None => true
              | Some k => bool_decide (pl_last plan !! k = Some idx)
              end in
  if keep then let? w := cw_add w rec in Ok (w, idx + 1) else Ok (w, idx + 1).

Definition stageCompaction (maxSegBytes indexInterval : Z) (segs : list Segment) (end_ : Z)
    (plan : compactionPlan) : outcome compactWriter :=
  let? w := newCompactWriter maxSegBytes indexInterval in
  let? (w, _) := forEachBatch (fun st b => each (stage_record plan) st (rb_Records b))
                   segs end_ (w, 0) in
  Ok w.

Definition compactionSource (p : Partition) : list Segment * Z :=
  if existsb seg_remote (orderedSegmentsLocked p) then ([], 0)
  else (orderedSegmentsLocked p, pt_nextOffset p).

(** [Compact] up to the release of the read lock: nothing to do, or a writer and
    the log end it has read up to. [compacting] is the flag a second call
    finds set. *)
Definition stage (compacting : bool) (p : Partition) : outcome (option (compactWriter * Z)) :=
  if compacting then Err "compaction already running" else
  let '(segs, end_) := compactionSource p in
  if bool_decide (segs = []) then Ok None else
  let? plan := planCompaction segs end_ in
  if pl_total plan <=? pl_planned plan then Ok None else
  let? w := stageCompaction (pt_maxSegmentBytes p) (pt_indexInterval p) segs end_ plan in
  Ok (Some (w, end_)).

(** ** Installing *)

(** The directory when the manifest has been written. *)
Definition staged_dir (p : Partition) (w : compactWriter) (names : list fname) : outcome partDir :=
  let? t := stageSwapFiles (mkTmp (segs_dir (cw_segments w)) ∅ None) names in
  let files := segs_dir (orderedSegmentsLocked p) in
  Ok (mkPartDir files (Some (writeManifest t (mkManifest (dirFileNames files) names)))).

(** An error before the segments are closed leaves the partition as it is. *)
Definition installCompaction (p : Partition) (w : compactWriter) (snapshotEnd now : Z)
  : Partition * outcome unit :=
  match pt_active p with
  | None => (p, Err "compaction: no active segment")
  | Some a =>
      match
        (let? w := forEachBatchRange (fun w b => each cw_add w (rb_Records b))
                     a snapshotEnd (pt_nextOffset p) w in
         let? (w, names) := cw_finish w in
         staged_dir p w names)
      with
      | Ok d =>
          let closed := with_segments p [] None (pt_nextOffset p) (pt_highWatermark p) in
          match open_dir d closed with
          | Ok q =>
              (mkPartition (pt_closed q) (pt_active q) (pt_nextOffset q) (pt_highWatermark q)
                 (pt_maxSegmentBytes q) (pt_indexInterval q) now (totalSizeLocked q), Ok tt)
          | Err e => (closed, Err e)
          | Panic => (closed, Panic)
          end
      | Err e => (p, Err e)
      | Panic => (p, Panic)
      end
  end.

(** [Compact] when nothing runs between its two parts. *)
Definition Compact (p : Partition) (now : Z) : Partition * outcome unit :=
  match stage false p with
  | Ok (Some (w, end_)) => installCompaction p w end_ now
  | Ok None => (p, Ok tt)
  | Err e => (p, Err e)
  | Panic => (p, Panic)
  end.
End writer.
