(* ===== verification/CompactionProps.v ===== *)
(** * What compaction guarantees

    The swap of the files can be interrupted anywhere and any number of times;
    compaction keeps the last record of every key, in order, whatever was
    appended to the active segment meanwhile. *)

From stdpp Require Import prelude list gmap strings sorting relations.
From Stdlib Require Import ZArith Lia.
From S2P Require Import Prelude GoBinary Wire RecordBatch Index Segment SegmentOps Partition PartitionOps Compaction.

(** ** The swap *)

(** What a directory with the manifest [m] is meant to become: a new file where
    one is staged (or was moved already), no old file that is not also a new
    one, every other file as it is. *)
Definition swap_target (m : compactionManifest) (d : partDir) (n : fname) : option content :=
  if bool_decide (n ∈ m_New m) then
    match d_tmp d ≫= fun t => tmp_staged t !! n with
    | Some c => Some c
    | None => d_files d !! n
    end
  else if bool_decide (n ∈ m_Old m) then None else d_files d !! n.

Definition moves (m : compactionManifest) (c : swap_call) : Prop :=
  match c with
  | SwapRemove n r => n ∈ m_Old m /\ r = bool_decide (n ∈ m_New m)
  | SwapRename n => n ∈ m_New m
  | _ => False
  end.

Lemma swap_step_target m d c :
  moves m c -> manifest_of d = Some m ->
  manifest_of (swap_step d c) = Some m /\
  forall n, swap_target m (swap_step d c) n = swap_target m d n.
Proof.
  unfold manifest_of, swap_step, swap_target. destruct d as [files [t|]]; [|done].
  cbn. destruct c as [x r|x| |]; cbn; intros Hm Ht; try done.
  - destruct Hm as [Ho ->]. destruct (_ && _) eqn:E; cbn; [done|]. split; [done|]. intros n.
    destruct (decide (x = n)) as [<-|Hne]; [|by rewrite lookup_delete_ne].
    rewrite lookup_delete_eq, (bool_decide_eq_true_2 _ Ho). case_bool_decide; [|done].
    apply andb_false_iff in E as [E|E]; [done|]. apply bool_decide_eq_false in E.
    by destruct (tmp_staged t !! x).
  - destruct (tmp_staged t !! x) as [c|] eqn:E; cbn; [|done]. split; [done|]. intros n.
    destruct (decide (x = n)) as [<-|Hne].
    + by rewrite lookup_delete_eq, lookup_insert_eq, E, (bool_decide_eq_true_2 _ Hm).
    + by rewrite lookup_delete_ne, lookup_insert_ne.
Qed.

Lemma swap_steps_target m cs d :
  Forall (moves m) cs -> manifest_of d = Some m ->
  manifest_of (fold_left swap_step cs d) = Some m /\
  forall n, swap_target m (fold_left swap_step cs d) n = swap_target m d n.
Proof.
  intros Hc. revert d. induction Hc as [|c cs Hc _ IH]; intros d Hd; [done|]. cbn.
  destruct (swap_step_target m d c Hc Hd) as [Hd' Ht]. destruct (IH _ Hd') as [Hd'' Ht'].
  split; [done|]. intros n. by rewrite Ht', Ht.
Qed.

(** The calls before the manifest is removed. *)
Definition move_calls (m : compactionManifest) : list swap_call :=
  map (fun n => SwapRemove n (bool_decide (n ∈ m_New m))) (m_Old m) ++ map SwapRename (m_New m).

Lemma move_calls_move m : Forall (moves m) (move_calls m).
Proof.
  apply Forall_app. split; apply Forall_forall; intros c; rewrite list_elem_of_fmap.
  - intros (n & -> & Hn). by split.
  - by intros (n & -> & Hn).
Qed.

(** Once a file is gone or moved, the calls that follow leave it so. *)
Lemma removed_stays n cs d :
  d_files d !! n = None -> (forall x, SwapRename x ∈ cs -> x <> n) ->
  d_files (fold_left swap_step cs d) !! n = None.
Proof.
  revert d. induction cs as [|c cs IH]; intros d Hd Hc; [done|]. cbn. apply IH; [|intros x Hx; apply Hc; by right].
  unfold swap_step. destruct (d_tmp d) as [t|]; [|done]. destruct c as [x r|x| |]; cbn; try done.
  - destruct (_ && _); [done|]. cbn. by apply lookup_delete_None; right.
  - assert (x <> n) by (apply Hc; left). destruct (_ !! x); [|done]. cbn. by rewrite lookup_insert_ne.
Qed.

Lemma staged_gone n cs d t :
  d_tmp d = Some t -> tmp_staged t !! n = None -> Forall (fun c => c <> SwapDropTmp) cs ->
  exists t', d_tmp (fold_left swap_step cs d) = Some t' /\ tmp_staged t' !! n = None.
Proof.
  intros Hd Hn Hc. revert d t Hd Hn. induction Hc as [|c cs Hc _ IH]; intros d t Hd Hn; [by exists t|].
  cbn. unfold swap_step at 2. rewrite Hd. destruct c as [x r|x| |]; try done.
  - destruct (_ && _); by eapply IH.
  - destruct (_ !! x); eapply IH; cbn; try done. by apply lookup_delete_None; right.
  - by eapply IH.
Qed.

Lemma moves_not_drop m cs : Forall (moves m) cs -> Forall (fun c => c <> SwapDropTmp) cs.
Proof. intros H. eapply Forall_impl; [exact H|]. by intros [] ? . Qed.

(** After the moves nothing is staged and the files are the target. *)
Lemma moved_files m d n :
  manifest_of d = Some m ->
  d_files (fold_left swap_step (move_calls m) d) !! n = swap_target m d n.
Proof.
  intros Hm. destruct (swap_steps_target m _ d (move_calls_move m) Hm) as [Hm' Ht]. rewrite <- Ht.
  set (d' := fold_left swap_step _ d) in *. unfold swap_target. unfold manifest_of in Hm'.
  destruct (d_tmp d') as [t'|] eqn:Hd'; [|done]. cbn. case_bool_decide as Hnew.
  - assert (tmp_staged t' !! n = None) as ->; [|done].
    unfold d', move_calls in Hd'. rewrite fold_left_app in Hd'.
    apply list_elem_of_split in Hnew as (l1 & l2 & Hnew). rewrite Hnew in Hd' at 1.
    rewrite map_app, fold_left_app in Hd'. cbn [map fold_left] in Hd'.
    set (e := fold_left swap_step (map SwapRename l1) _) in Hd'.
    assert (exists te, d_tmp e = Some te) as [te He].
    { assert (manifest_of e = Some m) as H.
      { unfold e. rewrite <- fold_left_app. apply swap_steps_target; [|done].
        pose proof (move_calls_move m) as Hf. unfold move_calls in Hf. rewrite Hnew in Hf at 1.
        rewrite map_app, app_assoc in Hf. by apply Forall_app in Hf as [Hf _]. }
      unfold manifest_of in H. destruct (d_tmp e); [eauto|done]. }
    assert (exists te', d_tmp (swap_step e (SwapRename n)) = Some te' /\ tmp_staged te' !! n = None)
      as (te' & He' & Hn).
    { unfold swap_step. rewrite He. destruct (tmp_staged te !! n) eqn:E; [|by exists te].
      eexists. split; [done|]. cbn. apply lookup_delete_eq. }
    destruct (staged_gone n (map SwapRename l2) _ _ He' Hn) as (t2 & H2 & Hg);
      [apply Forall_forall; intros c (x & -> & _)%list_elem_of_fmap; done|]. congruence.
  - case_bool_decide as Hold; [|done].
    unfold d', move_calls. rewrite fold_left_app. apply removed_stays.
    2: { intros x (y & [= <-] & Hy)%list_elem_of_fmap. by intros ->. }
    apply list_elem_of_split in Hold as (l1 & l2 & Hold). rewrite Hold, map_app, fold_left_app. cbn.
    apply removed_stays; [|intros x (y & ? & ?)%list_elem_of_fmap; done].
    set (e := fold_left swap_step (map _ l1) d). unfold swap_step.
    assert (manifest_of e = Some m) as H.
    { apply swap_steps_target; [|done]. apply Forall_forall. intros c (x & -> & Hx)%list_elem_of_fmap.
      split; [|done]. rewrite Hold. apply elem_of_app. by left. }
    unfold manifest_of in H. destruct (d_tmp e); [|done].
    rewrite (bool_decide_eq_false_2 _ Hnew). cbn. apply lookup_delete_eq.
Qed.

(** One attempt at the swap that is cut short: after some of its calls, or while
    the temporary directory is being removed, which leaves any part of it without
    a readable manifest. *)
Inductive interrupted (d : partDir) : partDir -> Prop :=
  | cut_after m k : manifest_of d = Some m ->
      interrupted d (fold_left swap_step (take k (swap_calls m)) d)
  | cut_removing m t : manifest_of d = Some m -> tmp_manifest t = None ->
      interrupted d (mkPartDir (d_files (fold_left swap_step (move_calls m) d)) (Some t))
  | cut_discarding t : manifest_of d = None -> tmp_manifest t ≫= id = None ->
      interrupted d (mkPartDir (d_files d) (Some t)).

Lemma swap_calls_eq m : swap_calls m = move_calls m ++ [SwapDropManifest; SwapDropTmp].
Proof. unfold swap_calls, move_calls. by rewrite <- app_assoc. Qed.

Lemma applyCompactionSwap_eq d :
  applyCompactionSwap d
  = mkPartDir (match manifest_of d with
               | Some m => d_files (fold_left swap_step (move_calls m) d)
               | None => d_files d
               end) None.
Proof.
  unfold applyCompactionSwap. destruct (manifest_of d) as [m|] eqn:Hm; [|done].
  rewrite swap_calls_eq, fold_left_app. cbn.
  destruct (swap_steps_target m _ d (move_calls_move m) Hm) as [Hm' _].
  set (d' := fold_left swap_step _ d) in *. unfold manifest_of in Hm'. unfold swap_step.
  by destruct (d_tmp d') as [t|]; cbn.
Qed.

Lemma interrupted_same d d' :
  interrupted d d' -> applyCompactionSwap d' = applyCompactionSwap d.
Proof.
  rewrite !applyCompactionSwap_eq. intros [m k Hm|m t Hm Ht|t Hm Ht]; f_equal; rewrite Hm.
  - rewrite swap_calls_eq. destruct (decide (k <= length (move_calls m))%nat) as [Hk|Hk].
    + rewrite take_app_le by done.
      destruct (swap_steps_target m (take k (move_calls m)) d) as [Hm' Ht]; [|done|].
      { eapply Forall_take, move_calls_move. }
      rewrite Hm'. apply map_eq. intros n. by rewrite !moved_files, Ht by done.
    + rewrite take_app_ge, fold_left_app by lia.
      destruct (swap_steps_target m _ d (move_calls_move m) Hm) as [Hm' _].
      set (e := fold_left swap_step (move_calls m) d) in *. unfold manifest_of in Hm'.
      destruct (d_tmp e) as [t|] eqn:He; [|done].
      assert (k - length (move_calls m) <> 0)%nat as Hj by lia.
      destruct (k - length (move_calls m))%nat as [|[|j]]; [done| |]; cbn; rewrite ?take_nil; cbn;
        unfold swap_step; rewrite He; done.
  - unfold manifest_of. cbn. by rewrite Ht.
  - unfold manifest_of. cbn. by rewrite Ht.
Qed.

Lemma interruptions_same d d' :
  rtc interrupted d d' -> applyCompactionSwap d' = applyCompactionSwap d.
Proof. induction 1 as [|x y z Hxy _ IH]; [done|]. by rewrite IH, (interrupted_same x y). Qed.

(** The file swap is atomic. Started from a directory with a complete
    manifest, it gives the new files and the untouched ones and none of the old
    ones, and removes the temporary directory; without a complete manifest (a
    crash before or while it was written) it only removes the temporary
    directory. However often the swap is interrupted, and wherever, finishing it
    later gives the same directory. *)
Theorem compaction_swap_atomic d :
  (forall m, manifest_of d = Some m ->
     d_tmp (applyCompactionSwap d) = None /\
     forall n, d_files (applyCompactionSwap d) !! n = swap_target m d n) /\
  (manifest_of d = None -> applyCompactionSwap d = mkPartDir (d_files d) None) /\
  (forall d', rtc interrupted d d' -> applyCompactionSwap d' = applyCompactionSwap d).
Proof.
  split_and!.
  - intros m Hm. rewrite applyCompactionSwap_eq, Hm. split; [done|]. intros n. by apply moved_files.
  - intros Hm. by rewrite applyCompactionSwap_eq, Hm.
  - apply interruptions_same.
Qed.

(** ** Reading the batches of a segment *)

Definition decodes_as (raw : list byte) (b : RecordBatch) : Prop := DecodeRecordBatch raw = Ok b.

Lemma each_app {S A} (fn : S -> A -> outcome S) s xs ys :
  each fn s (xs ++ ys) = let? s := each fn s xs in each fn s ys.
Proof. revert s. induction xs as [|x xs IH]; intros s; [done|]. cbn. by destruct (fn s x); cbn. Qed.

Lemma each_join {S A B} (fn : S -> A -> outcome S) (g : B -> list A) s bs :
  each (fun s b => each fn s (g b)) s bs = each fn s (mjoin (g <$> bs)).
Proof.
  revert s. induction bs as [|b bs IH]; intros s; [done|]. cbn. rewrite each_app.
  by destruct (each fn s (g b)); cbn.
Qed.

Lemma uint_at_app b tl lo hi : 0 <= lo <= hi -> hi <= zlen b -> uint_at (b ++ tl) lo hi = uint_at b lo hi.
Proof.
  intros Hlo Hhi. unfold uint_at, sub. f_equal. unfold zlen in Hhi.
  rewrite drop_app_le by lia. rewrite take_app_le; [done|]. rewrite length_drop. lia.
Qed.

Lemma header_app b tl :
  wf_raw b -> exists h, ParseRecordBatchHeader (b ++ tl) = Ok h /\ BatchTotalSize h = zlen b /\
    h_LastOffsetDelta h = raw_lod b /\ i64 (uint_at (b ++ tl) 0 8) = raw_base b.
Proof.
  intros (H61 & Hm & Hl & Hd). pose proof (zlen_nonneg tl). unfold ParseRecordBatchHeader, batchHeaderSize.
  rewrite (proj2 (Z.ltb_ge _ _)) by (rewrite zlen_app; lia).
  rewrite !uint_at_app by lia. rewrite Hm. eexists. split; [done|].
  unfold BatchTotalSize. cbn. unfold raw_length in Hl. rewrite Hl. split_and!; [lia|done|done].
Qed.

Section reading.
Context {S : Type} (fn : S -> RecordBatch -> outcome S).

Lemma batch_loop_spec fuel bs ds o e s next advanced :
  Forall wf_raw bs -> chain o bs e -> Forall2 decodes_as bs ds -> (length (mjoin bs) < fuel)%nat ->
  batch_loop fn fuel (mjoin bs) s next advanced
  = let? s := each fn s ds in
    Ok (s, if bool_decide (bs = []) then next else e, advanced || bool_decide (bs <> [])).
Proof.
  intros Hw Hc Hd. revert fuel o s next advanced Hc. induction Hd as [|b d bs ds Hb _ IH];
    intros fuel o s next advanced Hc Hf; (destruct fuel as [|fuel]; [lia|]).
  { cbn. by rewrite orb_false_r. }
  apply Forall_cons in Hw as [Hwb Hw]. destruct Hc as [Hbase Hc].
  rewrite mjoin_cons in *. rewrite length_app in Hf. pose proof Hwb as (H61 & _).
  destruct (header_app b (mjoin bs) Hwb) as (h & Hh & Ht & Hlod & Hb0).
  cbn [batch_loop each]. pose proof (zlen_nonneg (mjoin bs)).
  rewrite (proj2 (Z.ltb_ge _ _)) by (rewrite zlen_app; lia). rewrite Hh, Ht, Hlod, Hb0.
  rewrite (proj2 (Z.leb_gt _ _)), (proj2 (Z.ltb_ge _ _)) by (rewrite ?zlen_app; lia). cbn [orb].
  unfold zlen in *. rewrite Nat2Z.id, take_app_length, drop_app_length. unfold decodes_as in Hb.
  rewrite Hb. destruct (fn s d) as [s1|e1|]; [|done|done]. cbn [obind].
  rewrite (IH Hw _ (raw_base b + raw_lod b + 1)); [|by rewrite Hbase|lia].
  destruct (each fn s1 ds); [|done|done]. cbn [obind].
  rewrite (bool_decide_eq_false_2 (b :: bs = [])), (bool_decide_eq_true_2 (b :: bs <> [])) by done.
  rewrite orb_true_r. case_bool_decide as E; [|done]. rewrite E in Hc. cbn in Hc. by rewrite Hbase, Hc.
Qed.

(** A read from a batch boundary gives some of the next batches, at least one. *)
Lemma spec_read_some off mx b bs :
  0 < mx -> Forall (fun b => off <= raw_last b) (b :: bs) ->
  exists k, spec_read off mx (b :: bs) [] = mjoin (b :: take k bs).
Proof.
  intros Hm [Hb Hf]%Forall_cons. cbn [spec_read].
  rewrite (@zlen_nil byte), (proj2 (Z.ltb_lt _ _)), (proj2 (Z.ltb_ge _ _)) by lia.
  setoid_rewrite mjoin_cons. cbn [app]. clear Hb. generalize b as out. induction Hf as [|c bs Hc _ IH]; intros out.
  { exists 0%nat. cbn. by rewrite app_nil_r. }
  cbn [spec_read]. destruct (_ <? mx); [|exists 0%nat; cbn; by rewrite app_nil_r].
  rewrite (proj2 (Z.ltb_ge _ _)) by lia. destruct (IH (out ++ c)) as [k ->].
  exists (Datatypes.S k). cbn [take]. by rewrite mjoin_cons, app_assoc.
Qed.

Lemma range_loop_spec fuel seg bs1 bs2 ds m st :
  seg_inv seg (bs1 ++ bs2) -> chain (seg_baseOffset seg) bs1 m -> chain m bs2 (seg_nextOffset seg) ->
  Forall2 decodes_as bs2 ds -> seg_size seg <= 2147483647 -> (length bs2 < fuel)%nat ->
  range_loop fn fuel seg m (seg_nextOffset seg) st = each fn st ds.
Proof.
  intros Hs Hc1 Hc2 Hd Hsz. pose proof (si_wf _ _ Hs) as [Hw1 Hw2]%Forall_app.
  revert bs1 bs2 ds m st Hs Hc1 Hc2 Hd Hw1 Hw2.
  induction fuel as [|fuel IH]; intros bs1 bs2 ds m st Hs Hc1 Hc2 Hd Hw1 Hw2 Hf; [lia|]. cbn [range_loop].
  destruct bs2 as [|b bs2].
  { cbn in Hc2. subst m. rewrite Z.leb_refl. by apply Forall2_nil_inv_l in Hd as ->. }
  pose proof (chain_bounds _ _ _ Hw2 Hc2) as Hb2.
  pose proof (chain_mono _ _ _ Hw1 Hc1) as Hm.
  assert (m < seg_nextOffset seg) as Hlt by (apply Forall_cons in Hb2 as [? _]; lia).
  rewrite (proj2 (Z.leb_gt _ _)) by lia.
  rewrite (read_eq_spec seg (bs1 ++ b :: bs2)) by (done || unfold compactReadBytes; lia). cbn [obind].
  rewrite spec_read_skip; [|done|].
  2: { eapply Forall_impl; [exact (chain_bounds _ _ _ Hw1 Hc1)|]. cbn. intros. lia. }
  destruct (spec_read_some m compactReadBytes b bs2) as [k ->]; [done| |].
  { eapply Forall_impl; [exact Hb2|]. cbn. intros. lia. }
  rewrite <- (take_drop k bs2) in Hc2, Hd, Hw2, Hs.
  change (b :: take k bs2 ++ drop k bs2) with ((b :: take k bs2) ++ drop k bs2) in *.
  apply chain_app in Hc2 as (m' & Hc2 & Hc3). apply Forall2_app_inv_l in Hd as (d1 & d2 & Hd1 & Hd2 & ->).
  apply Forall_app in Hw2 as [Hw2 Hw3].
  rewrite (batch_loop_spec _ (b :: take k bs2) d1 m m'); [|done..|apply Nat.lt_succ_diag_r].
  rewrite each_app. destruct (each fn st d1) as [st'|e|]; [|done|done]. cbn [obind].
  rewrite (bool_decide_eq_false_2 (b :: take k bs2 = [])), (bool_decide_eq_true_2 (_ <> [])) by done.
  cbn [orb].
  apply (IH (bs1 ++ b :: take k bs2) (drop k bs2)); try done.
  - by rewrite <- app_assoc.
  - apply chain_app. by exists m.
  - by apply Forall_app.
  - rewrite length_drop. cbn in Hf. lia.
Qed.

(** Batches are at least 61 bytes, so the fuel of [forEachBatchRange] is enough. *)
Lemma length_batches bs : Forall wf_raw bs -> (length bs <= length (mjoin bs))%nat.
Proof.
  induction 1 as [|b bs (H61 & _) _ IH]; [done|]. rewrite mjoin_cons, length_app. cbn.
  unfold zlen in H61. lia.
Qed.

Lemma forEachBatchRange_spec seg bs1 bs2 ds m st :
  seg_inv seg (bs1 ++ bs2) -> chain (seg_baseOffset seg) bs1 m -> chain m bs2 (seg_nextOffset seg) ->
  Forall2 decodes_as bs2 ds -> seg_size seg <= 2147483647 ->
  forEachBatchRange fn seg m (seg_nextOffset seg) st = each fn st ds.
Proof.
  intros Hs Hc1 Hc2 Hd Hsz. eapply range_loop_spec; try done. rewrite (si_log _ _ Hs). cbn.
  pose proof (length_batches _ (si_wf _ _ Hs)) as Hl. rewrite length_app in Hl. lia.
Qed.

Lemma forEachBatch_spec segs bss ds o e end_ st :
  segs_inv o segs bss e -> Forall2 decodes_as (mjoin bss) ds -> e <= end_ ->
  Forall (fun s => seg_size s <= 2147483647) segs ->
  forEachBatch fn segs end_ st = each fn st ds.
Proof.
  intros Hi Hd He Hf. revert o bss ds st Hi Hd. induction Hf as [|s segs Hs _ IH];
    intros o [|bs bss] ds st Hi Hd; cbn [segs_inv] in Hi; try done.
  { by apply Forall2_nil_inv_l in Hd as ->. }
  destruct Hi as (Hsi & <- & _ & Hi). rewrite mjoin_cons in Hd.
  apply Forall2_app_inv_l in Hd as (d1 & d2 & Hd1 & Hd2 & ->). cbn [forEachBatch].
  pose proof (segs_inv_mono _ _ _ _ Hi). unfold logEndOffset.
  rewrite (proj2 (Z.ltb_ge end_ _)), andb_false_r by lia.
  rewrite (forEachBatchRange_spec s [] bs d1) by (done || exact (si_chain _ _ Hsi)).
  rewrite each_app. destruct (each fn st d1); [|done|done]. cbn [obind]. by eapply IH.
Qed.
End reading.

(** ** Which records stay *)

Definition same_key (k : list byte) (r : Record_) : bool := bool_decide (rec_Key r = Some k).

(** A later record has the same key. *)
Definition superseded (r : Record_) (later : list Record_) : bool :=
  match rec_Key r with
  | None => false
  | Some k => existsb (same_key k) later
  end.

(** The specification: the last record of every key and every record without a
    key, in their order. *)
Fixpoint latest (rs : list Record_) : list Record_ :=
  match rs with
  | [] => []
  | r :: rs => if superseded r rs then latest rs else r :: latest rs
  end.

(** The index of the last record with the key [k], counted from [i]. *)
Fixpoint last_at (i : Z) (k : list byte) (rs : list Record_) : option Z :=
  match rs with
  | [] => None
  | r :: rs =>
      match last_at (i + 1) k rs with
      | Some j => Some j
      | None => if same_key k r then Some i else None
      end
  end.

Lemma last_at_app i k rs rs' :
  last_at i k (rs ++ rs')
  = match last_at (i + zlen rs) k rs' with Some j => Some j | None => last_at i k rs end.
Proof.
  revert i. induction rs as [|r rs IH]; intros i; cbn [app last_at].
  - rewrite (@zlen_nil Record_), Z.add_0_r. by destruct (last_at i k rs').
  - rewrite IH, zlen_cons. replace (i + 1 + zlen rs) with (i + (1 + zlen rs)) by lia.
    by destruct (last_at _ k rs').
Qed.

Lemma last_at_ge i k rs j : last_at i k rs = Some j -> i <= j.
Proof.
  revert i. induction rs as [|r rs IH]; intros i; cbn; [done|].
  destruct (last_at (i + 1) k rs) as [j'|] eqn:E; [intros [= <-]; apply IH in E; lia|].
  destruct (same_key k r); [intros [= <-]; lia|done].
Qed.

Lemma last_at_none i k rs : last_at i k rs = None <-> existsb (same_key k) rs = false.
Proof.
  revert i. induction rs as [|r rs IH]; intros i; cbn; [done|].
  rewrite orb_false_iff, <- (IH (i + 1)). destruct (last_at (i + 1) k rs); [naive_solver|].
  destruct (same_key k r); naive_solver.
Qed.

(** The keys of a list of records. *)
Definition keys (rs : list Record_) : list (list byte) := omap rec_Key rs.

Lemma keys_exists k rs : existsb (same_key k) rs = true <-> k ∈ keys rs.
Proof.
  unfold keys. rewrite existsb_exists, list_elem_of_omap. unfold same_key.
  split; intros (r & Hr & Hk).
  - apply bool_decide_eq_true in Hk. exists r. by rewrite list_elem_of_In.
  - exists r. rewrite <- list_elem_of_In. by rewrite bool_decide_eq_true.
Qed.

Lemma keys_cons r rs : keys (r :: rs) = option_list (rec_Key r) ++ keys rs.
Proof. unfold keys. cbn. by destruct (rec_Key r). Qed.

Lemma latest_keys k rs : k ∈ keys (latest rs) <-> k ∈ keys rs.
Proof.
  induction rs as [|r rs IH]; [done|]. cbn [latest]. rewrite (keys_cons r rs), elem_of_app.
  destruct (superseded r rs) eqn:E; [|by rewrite keys_cons, elem_of_app, IH].
  rewrite IH. unfold superseded in E. destruct (rec_Key r) as [k'|]; [|done].
  apply keys_exists in E. cbn. rewrite list_elem_of_singleton. split; [by right|]. by intros [->|].
Qed.

Lemma latest_nodup rs : NoDup (keys (latest rs)).
Proof.
  induction rs as [|r rs IH]; [constructor|]. cbn [latest]. destruct (superseded r rs) eqn:E; [done|].
  rewrite keys_cons. unfold superseded in E. destruct (rec_Key r) as [k|]; [|done]. cbn. constructor; [|done].
  rewrite latest_keys, <- keys_exists. by rewrite E.
Qed.

Definition unkeyed (r : Record_) : bool := bool_decide (rec_Key r = None).
Definition nulls (rs : list Record_) : Z := zlen (List.filter unkeyed rs).

Lemma length_by_key rs : zlen rs = nulls rs + zlen (keys rs).
Proof.
  unfold nulls, keys. induction rs as [|r rs IH]; [done|]. rewrite zlen_cons, IH. cbn. unfold unkeyed at 2.
  destruct (rec_Key r); cbn; rewrite ?zlen_cons; lia.
Qed.

Lemma nulls_snoc rs r : nulls (rs ++ [r]) = nulls rs + (if unkeyed r then 1 else 0).
Proof. unfold nulls. rewrite List.filter_app, zlen_app. cbn. by destruct (unkeyed r). Qed.

Lemma latest_nulls rs : nulls (latest rs) = nulls rs.
Proof.
  unfold nulls. induction rs as [|r rs IH]; [done|]. cbn [latest]. destruct (superseded r rs) eqn:E.
  - unfold superseded in E. cbn. unfold unkeyed at 2. by destruct (rec_Key r).
  - cbn. destruct (unkeyed r); [|done]. by rewrite !zlen_cons, IH.
Qed.

Lemma latest_shorter rs : zlen (latest rs) <= zlen rs /\ (zlen (latest rs) = zlen rs -> latest rs = rs).
Proof.
  induction rs as [|r rs [IH1 IH2]]; [done|]. cbn [latest]. rewrite zlen_cons.
  destruct (superseded r rs); [split; lia|]. rewrite zlen_cons. split; [lia|]. intros.
  by rewrite IH2 by lia.
Qed.

(** ** Planning *)

Definition sum_len (ks : list (list byte)) : Z := foldr (fun k n => zlen k + n) 0 ks.

Lemma sum_len_perm ks ks' : ks ≡ₚ ks' -> sum_len ks = sum_len ks'.
Proof. unfold sum_len. induction 1; cbn; lia. Qed.

Lemma sum_len_nonneg ks : 0 <= sum_len ks.
Proof. unfold sum_len. induction ks as [|k ks IH]; cbn; [lia|]. pose proof (zlen_nonneg k). lia. Qed.

Lemma sum_len_sub ks ks' : NoDup ks -> ks ⊆ ks' -> sum_len ks <= sum_len ks'.
Proof.
  intros Hn Hs. destruct (submseteq_Permutation ks ks') as [r Hr].
  - by apply NoDup_submseteq.
  - rewrite (sum_len_perm _ _ Hr). clear. pose proof (sum_len_nonneg r).
    unfold sum_len in *. induction ks as [|k ks IH]; cbn; lia.
Qed.

(** The state of [planCompaction] after the records [pre]. *)
Record planned_of (pre : list Record_) (g : planning) : Prop := {
  pg_idx_eq : pg_idx g = zlen pre;
  pg_nulls_eq : pg_nulls g = nulls pre;
  pg_last_eq : forall k, pg_last g !! k = last_at 0 k pre;
  pg_bytes_eq : exists ks, NoDup ks /\ (forall k, k ∈ ks <-> k ∈ keys pre) /\ pg_keyBytes g = sum_len ks }.

Lemma keys_app rs rs' : keys (rs ++ rs') = keys rs ++ keys rs'.
Proof. apply omap_app. Qed.

Lemma last_at_keys i k rs : last_at i k rs = None <-> ~ k ∈ keys rs.
Proof. rewrite last_at_none, <- keys_exists. by destruct (existsb _ _). Qed.

(** A set of keys that occur in [rs] has at most the bytes of the keys that stay. *)
Lemma keys_within rs ks :
  NoDup ks -> (forall k, k ∈ ks -> k ∈ keys rs) -> sum_len ks <= sum_len (keys (latest rs)).
Proof. intros Hn Hk. apply sum_len_sub; [done|]. intros k Hin. by apply latest_keys, Hk. Qed.

Lemma plan_step rs pre r post g :
  rs = pre ++ r :: post -> sum_len (keys (latest rs)) <= compactMaxKeyBytes -> planned_of pre g ->
  exists g', plan_record g r = Ok g' /\ planned_of (pre ++ [r]) g'.
Proof.
  intros -> Hlim [Hi Hn Hl (ks & Hnd & Hks & Hb)]. unfold plan_record.
  assert (zlen (pre ++ [r]) = zlen pre + 1) as Hz by (by rewrite zlen_app).
  assert (keys (pre ++ [r]) = keys pre ++ option_list (rec_Key r)) as Hk
    by (by rewrite keys_app, keys_cons, app_nil_r).
  destruct (rec_Key r) as [k|] eqn:Er.
  - assert (exists kb ks', NoDup ks' /\ (forall k', k' ∈ ks' <-> k' ∈ keys (pre ++ [r])) /\ kb = sum_len ks' /\
              match pg_last g !! k with None => pg_keyBytes g + zlen k | Some _ => pg_keyBytes g end = kb)
      as (kb & ks' & Hnd' & Hks' & -> & ->).
    { destruct (pg_last g !! k) as [j|] eqn:E; rewrite Hl in E; eexists.
      - exists ks. split_and!; [done| |done|done]. intros k'. rewrite Hk, elem_of_app, <- Hks. cbn.
        rewrite list_elem_of_singleton. split; [by left|]. intros [?| ->]; [done|].
        rewrite Hks. destruct (decide (k ∈ keys pre)) as [|Hni]; [done|].
        apply (last_at_keys 0) in Hni. congruence.
      - exists (k :: ks). apply last_at_keys in E. rewrite <- Hks in E. split_and!; [by constructor| | |].
        + intros k'. rewrite Hk, elem_of_app, elem_of_cons, Hks. cbn. rewrite list_elem_of_singleton. tauto.
        + reflexivity.
        + rewrite Hb. unfold sum_len. cbn. lia. }
    rewrite (proj2 (Z.ltb_ge _ _)), andb_false_r.
    2: { etrans; [|exact Hlim]. apply keys_within; [done|]. intros k'. rewrite Hks'.
         rewrite !keys_app, !keys_cons, !elem_of_app. cbn. rewrite elem_of_nil. tauto. }
    eexists. split; [done|]. constructor; cbn.
    + lia.
    + rewrite nulls_snoc, Hn. unfold unkeyed. rewrite Er. cbn. lia.
    + intros k'. rewrite last_at_app. cbn. unfold same_key. rewrite Er.
      destruct (decide (k = k')) as [<-|Hne].
      * rewrite lookup_insert_eq, bool_decide_eq_true_2 by done. f_equal. lia.
      * rewrite lookup_insert_ne, bool_decide_eq_false_2 by congruence. apply Hl.
    + by exists ks'.
  - eexists. split; [done|]. constructor; cbn.
    + lia.
    + rewrite nulls_snoc, Hn. unfold unkeyed. by rewrite Er.
    + intros k'. rewrite last_at_app. cbn. unfold same_key. rewrite Er. cbn. apply Hl.
    + exists ks. split_and!; [done| |done]. intros k'. rewrite Hk. cbn. by rewrite app_nil_r.
Qed.

Lemma plan_all rs post pre g :
  rs = pre ++ post -> sum_len (keys (latest rs)) <= compactMaxKeyBytes -> planned_of pre g ->
  exists g', each plan_record g post = Ok g' /\ planned_of rs g'.
Proof.
  intros E Hlim. revert pre g E. induction post as [|r post IH]; intros pre g E Hg.
  { rewrite app_nil_r in E. subst. by exists g. }
  destruct (plan_step rs pre r post g E Hlim Hg) as (g1 & H1 & Hg1). cbn. rewrite H1. cbn.
  apply (IH (pre ++ [r])); [by rewrite <- app_assoc|done].
Qed.

(** The plan: the last index of every key, and how many records stay. *)
Lemma planCompaction_spec segs bss ds o e :
  segs_inv o segs bss e -> Forall2 decodes_as (mjoin bss) ds ->
  Forall (fun s => seg_size s <= 2147483647) segs ->
  let rs := mjoin (rb_Records <$> ds) in
  sum_len (keys (latest rs)) <= compactMaxKeyBytes ->
  exists plan, planCompaction segs e = Ok plan /\ (forall k, pl_last plan !! k = last_at 0 k rs) /\
    pl_total plan = zlen rs /\ pl_planned plan = zlen (latest rs).
Proof.
  intros Hi Hd Hf rs Hlim. unfold planCompaction.
  rewrite (forEachBatch_spec _ segs bss ds o e) by (done || lia). rewrite each_join. fold rs.
  destruct (plan_all rs rs [] (mkPlanning ∅ 0 0 0)) as (g & -> & [Hgi Hgn Hgl _]); [done..| |].
  { constructor; cbn; try done. exists []. split_and!; [constructor|done|done]. }
  cbn [obind]. eexists. split; [done|]. cbn. split_and!; [done..|].
  rewrite Hgn, (length_by_key (latest rs)), latest_nulls. f_equal. unfold zlen. f_equal.
  rewrite <- size_dom, <- (size_list_to_set (C := gset (list byte)) (keys (latest rs)) (latest_nodup rs)).
  f_equal. apply set_eq. intros k. rewrite elem_of_dom, elem_of_list_to_set, latest_keys, Hgl.
  rewrite <- not_eq_None_Some, last_at_keys. destruct (decide (k ∈ keys rs)); tauto.
Qed.

(** What the second pass keeps. *)
Lemma stage_spec clock plan rs pre post w :
  (forall k, pl_last plan !! k = last_at 0 k rs) -> rs = pre ++ post ->
  each (stage_record clock plan) (w, zlen pre) post
  = let? w := each (cw_add clock) w (latest post) in Ok (w, zlen rs).
Proof.
  intros Hl. revert pre w. induction post as [|r post IH]; intros pre w E.
  { rewrite app_nil_r in E. by subst. }
  assert (match rec_Key r with None => true | Some k => bool_decide (pl_last plan !! k = Some (zlen pre)) end
          = negb (superseded r post)) as Hkeep.
  { unfold superseded. destruct (rec_Key r) as [k|] eqn:Er; [|done].
    assert (pl_last plan !! k = match last_at (zlen pre + 1) k post with
                                | Some j => Some j | None => Some (zlen pre) end) as ->.
    { rewrite Hl, E, last_at_app, Z.add_0_l. cbn [last_at]. unfold same_key. rewrite Er.
      rewrite bool_decide_eq_true_2 by done. by destruct (last_at (zlen pre + 1) k post). }
    destruct (last_at (zlen pre + 1) k post) as [j|] eqn:Ej.
    - pose proof (last_at_ge _ _ _ _ Ej). rewrite bool_decide_eq_false_2 by (intros [= ->]; lia).
      destruct (existsb (same_key k) post) eqn:Ee; [done|]. apply (last_at_none (zlen pre + 1)) in Ee. congruence.
    - rewrite bool_decide_eq_true_2 by done. apply last_at_none in Ej. by rewrite Ej. }
  assert (zlen pre + 1 = zlen (pre ++ [r])) as Hz by (by rewrite zlen_app).
  assert (rs = (pre ++ [r]) ++ post) as E' by (by rewrite <- app_assoc).
  cbn [each stage_record latest]. rewrite Hkeep, Hz. destruct (superseded r post); cbn [negb].
  - cbn [obind]. by apply IH.
  - cbn [each]. destruct (cw_add clock w r); [|done|done]. cbn [obind]. by apply IH.
Qed.
