(* ===== verification/CompactionWriter.v ===== *)
(** * The compacted log

    The writer of compaction.go fills segments of its own; what it wrote, reopened
    after the file swap, is a partition that holds the copied records at the
    offsets 0, 1, 2, ... The last theorems put this together with the choice of
    records in CompactionProps.v. *)

From stdpp Require Import prelude list gmap strings sorting relations.
From Stdlib Require Import ZArith Lia.
From S2P Require Import Prelude GoBinary Wire RecordBatch Index Segment SegmentOps Partition PartitionOps Compaction CompactionProps.

(** ** The size of a copied record *)

Definition header_weight (h : RecordHeader) : Z := 20 + zlen (hdr_Key h) + blen (hdr_Value h).

(** A bound on the encoded size of a record, whatever its offset delta. *)
Definition weight (r : Record_) : Z :=
  80 + blen (rec_Key r) + blen (rec_Value r) + foldr (fun h n => header_weight h + n) 0 (rec_Headers r).

(** The record [cw_add] writes at position [i] of a batch. *)
Definition copied (i : nat) (r : Record_) : Record_ :=
  mkRecord 0 0 (Z.of_nat i) (rec_Key r) (rec_Value r) (rec_Headers r).

Lemma blen_nonneg b : 0 <= blen b.
Proof. destruct b; cbn; [apply zlen_nonneg|lia]. Qed.

Lemma headers_weight hs :
  20 * zlen hs <= foldr (fun h n => header_weight h + n) 0 hs /\
  Forall (fun h => header_weight h <= foldr (fun h n => header_weight h + n) 0 hs) hs.
Proof.
  induction hs as [|h hs [IH1 IH2]]; [done|]. rewrite zlen_cons. cbn.
  pose proof (zlen_nonneg (hdr_Key h)). pose proof (blen_nonneg (hdr_Value h)). unfold header_weight in *.
  pose proof (zlen_nonneg hs). split; [lia|]. constructor; [lia|].
  eapply Forall_impl; [exact IH2|]. cbn. intros. lia.
Qed.

Lemma append_nullable_len b w : zlen (append_nullable b w) <= zlen w + 10 + blen b.
Proof.
  destruct b as [b|]; cbn; unfold wseq, appendVarint, append_bytes; rewrite !zlen_app;
    [pose proof (PutVarint_len (zlen b))|pose proof (PutVarint_len (-1))]; lia.
Qed.

Lemma encode_headers_len hs w :
  zlen (for_each hs encode_header w) <= zlen w + foldr (fun h n => header_weight h + n) 0 hs.
Proof.
  unfold for_each. revert w. induction hs as [|h hs IH]; intros w; cbn; [lia|]. etrans; [apply IH|].
  unfold encode_header, wseq, appendVarint, append_bytes, header_weight.
  pose proof (append_nullable_len (hdr_Value h) ((w ++ PutVarint (zlen (hdr_Key h))) ++ hdr_Key h)) as H.
  rewrite !zlen_app in H. pose proof (PutVarint_len (zlen (hdr_Key h))). lia.
Qed.

Lemma copied_len i r : zlen (EncodeRecord (copied i r) []) <= weight r.
Proof.
  unfold EncodeRecord, wseq. unfold appendVarint at 1. unfold append_bytes. cbn [app].
  rewrite zlen_app. pose proof (PutVarint_len (zlen (record_body (copied i r) []))).
  assert (zlen (record_body (copied i r) []) <= weight r - 10); [|lia].
  unfold record_body, wseq, append_bytes, appendVarint, appendUvarint, append_bytes, weight.
  etrans; [apply encode_headers_len|]. cbn [copied rec_Attributes rec_TimestampDelta rec_OffsetDelta rec_Key rec_Value rec_Headers app].
  rewrite zlen_app. pose proof (PutUvarint_len (zlen (rec_Headers r))).
  set (pre := (((_ ++ _) ++ _) ++ _) ++ _).
  pose proof (append_nullable_len (rec_Value r) pre) as Hv.
  assert (zlen pre <= 31 + blen (rec_Key r)) as Hp; [|lia].
  unfold pre. rewrite !zlen_app, zlen_be. pose proof (PutVarint_len 0). pose proof (PutVarint_len (Z.of_nat i)).
  pose proof (PutVarint_len (blen (rec_Key r))).
  assert (zlen (default [] (rec_Key r)) = blen (rec_Key r)) by (by destruct (rec_Key r)). lia.
Qed.

(** Four megabytes a record keep a batch of 500 far below two gigabytes. *)
Definition light (r : Record_) : Prop := weight r <= 4000000.

#[global] Instance light_dec r : Decision (light r).
Proof. unfold light. apply _. Defined.
#[global] Typeclasses Opaque light.

Lemma copied_wf i r : (i < 500)%nat -> light r -> wf_record (copied i r).
Proof.
  intros Hi Hl. unfold light, weight in Hl. pose proof (blen_nonneg (rec_Key r)).
  pose proof (blen_nonneg (rec_Value r)). destruct (headers_weight (rec_Headers r)) as [Hh Hf].
  pose proof (zlen_nonneg (rec_Headers r)).
  unfold wf_record, arr_ok.
  cbn [copied rec_Attributes rec_TimestampDelta rec_OffsetDelta rec_Key rec_Value rec_Headers]. split_and!; [mlia|mlia|mlia|lia|lia|lia|].
  eapply Forall_impl; [exact Hf|]. cbv beta. intros h Hw.
  assert (header_weight h <= 4000000) as Hh4 by lia. unfold header_weight in Hh4.
  pose proof (zlen_nonneg (hdr_Key h)). pose proof (blen_nonneg (hdr_Value h)). split; lia.
Qed.

Lemma encoded_len rs k :
  Forall light rs -> zlen (for_each (imap (fun i r => copied (k + i) r) rs) EncodeRecord []) <= 4000000 * zlen rs.
Proof.
  intros Hf. revert k. induction Hf as [|r rs Hr _ IH]; intros k; [done|]. rewrite imap_cons.
  rewrite (for_each_cons _ _ EncodeRecord (EncodeRecord (copied (k + 0) r) []))
    by (try apply EncodeRecord_emits; intros; apply EncodeRecord_emits).
  rewrite zlen_app, zlen_cons. pose proof (copied_len (k + 0) r). unfold light in Hr.
  specialize (IH (Datatypes.S k)).
  rewrite (imap_ext _ (fun i r => copied (Datatypes.S k + i) r))
    by (intros i x _; cbn; f_equal; lia). lia.
Qed.

(** ** A batch the writer flushes *)

Definition flushed (now : Z) (rs : list Record_) : RecordBatch :=
  mkBatch 0 0 0 0 0 0 now now (-1) (-1) (-1) (imap copied rs).

Lemma flushed_wf now rs :
  in_i64 now -> Forall light rs -> (length rs <= 500)%nat -> wf_batch (flushed now rs).
Proof.
  intros Hn Hl Hlen. unfold wf_batch, encoded_records. cbn [flushed rb_BaseOffset rb_PartitionLeaderEpoch
    rb_Attributes rb_LastOffsetDelta rb_BaseTimestamp rb_MaxTimestamp rb_ProducerID rb_ProducerEpoch
    rb_BaseSequence rb_Records].
  pose proof (encoded_len rs 0 Hl) as He. cbn [Nat.add] in He.
  assert (zlen rs <= 500) by (unfold zlen; lia).
  split_and!; try done; try mlia.
  - unfold arr_ok, zlen. rewrite length_imap. lia.
  - apply Forall_lookup. intros i x. rewrite list_lookup_imap. intros (r & Hr & ->)%fmap_Some.
    apply copied_wf; [apply lookup_lt_Some in Hr; lia|]. by eapply Forall_lookup_1.
  - unfold copied in *. lia.
Qed.

(** ** What a log holds *)

(** What a consumer sees of a record (a missing key reads as an empty one). *)
Definition record_data (r : Record_) : list byte * gobytes * list RecordHeader :=
  (default [] (rec_Key r), rec_Value r, rec_Headers r).

(** The records of a batch with their offsets. *)
Definition batch_log (raw : list byte) : list (Z * (list byte * gobytes * list RecordHeader)) :=
  match DecodeRecordBatch raw with
  | Ok b => map (fun r => (rb_BaseOffset b + rec_OffsetDelta r, record_data r)) (rb_Records b)
  | _ => []
  end.

Definition log_of (raws : list (list byte)) := mjoin (batch_log <$> raws).

Definition at_offsets (o : Z) (rs : list Record_) :=
  imap (fun i r => (o + Z.of_nat i, record_data r)) rs.

Lemma at_offsets_app o rs rs' : at_offsets o (rs ++ rs') = at_offsets o rs ++ at_offsets (o + zlen rs) rs'.
Proof.
  unfold at_offsets. rewrite imap_app. f_equal. apply imap_ext. intros i r _. cbn. f_equal.
  unfold zlen. lia.
Qed.

Lemma log_of_snoc raws raw : log_of (raws ++ [raw]) = log_of raws ++ batch_log raw.
Proof. unfold log_of. rewrite fmap_app. cbn [fmap list_fmap]. by rewrite mjoin_snoc. Qed.

Lemma flushed_raw now rs off :
  in_i64 now -> Forall light rs -> (0 < length rs <= 500)%nat -> 0 <= off <= 4611686018427387904 ->
  exists raw, EncodeRecordBatch (flushed now rs) = Ok raw /\ wf_raw raw /\ raw_lod raw = zlen rs - 1 /\
    zlen raw <= 61 + 4000000 * zlen rs /\ batch_log (set_base raw off) = at_offsets off rs.
Proof.
  intros Hn Hl [Hpos Hlen] Ho. pose proof (flushed_wf now rs Hn Hl Hlen) as Hw.
  assert (in_u32 (batch_crc (flushed now rs))) as Hc by apply crc32c_range.
  assert (filled_last_offset_delta (flushed now rs) = zlen rs - 1) as Hlod.
  { unfold filled_last_offset_delta. cbn [flushed rb_LastOffsetDelta rb_Records Z.eqb andb].
    unfold zlen. rewrite length_imap, (proj2 (Z.ltb_lt _ _)) by lia. apply i32_id. mlia. }
  eexists. split; [by apply EncodeRecordBatch_layout|].
  split; [apply layout_wf; [done..|unfold zlen in Hlod; lia]|].
  split; [by rewrite layout_lod|]. split.
  { rewrite batch_layout_len. unfold encoded_records. cbn [flushed rb_Records].
    pose proof (encoded_len rs 0 Hl) as He. cbn [Nat.add] in He. unfold copied in *. lia. }
  rewrite set_base_layout. unfold batch_log.
  rewrite (decode_layout (with_base (flushed now rs) off)); [|clear -Hw Ho|done].
  2: { destruct Hw as (_ & Hw). split; [cbn; mlia|exact Hw]. }
  cbn [norm_batch with_base flushed rb_BaseOffset rb_Records]. unfold at_offsets.
  apply list_eq. intros i. rewrite !list_lookup_fmap, !list_lookup_imap.
  destruct (rs !! i) as [r|]; [|done]. cbn. done.
Qed.

(** ** The segments the writer has filled *)

Definition w_part (w : compactWriter) : Partition :=
  mkPartition (cw_closed w) (cw_seg w) (from_option seg_nextOffset 0 (cw_seg w))
    (from_option seg_nextOffset 0 (cw_seg w)) (cw_maxBytes w) (cw_interval w) 0 0.

Definition seg_names (s : Segment) : list fname :=
  [(seg_baseOffset s, ExtLog); (seg_baseOffset s, ExtIndex)].

(** [w] has been given the records [rs]; [bss] are the batches it has flushed. *)
Record w_inv (w : compactWriter) (rs : list Record_) (bss : list (list (list byte))) : Prop := {
  wi_part : pt_inv (w_part w) bss;
  wi_room : forall a, cw_seg w = Some a -> full a = false;
  wi_stub : Forall (fun s => seg_stub s = None) (cw_segments w);
  wi_files : cw_files w = mjoin (seg_names <$> cw_segments w);
  wi_data : exists fl pd, rs = fl ++ pd /\ cw_batch w = imap copied pd /\ (length pd <= 500)%nat /\
    log_of (mjoin bss) = at_offsets 0 fl /\ pt_nextOffset (w_part w) = zlen fl }.

(** The directory of a list of segments. *)
Lemma seg_dir_other s m n : n.1 <> seg_baseOffset s -> seg_dir s m !! n = m !! n.
Proof.
  intros Hn. unfold seg_dir, put_file.
  destruct (seg_log s), (seg_index s), (seg_stub s); cbn; rewrite ?lookup_insert_ne; try done;
    intros <-; done.
Qed.

Lemma segs_dir_none segs n : ~ n.1 ∈ seg_baseOffset <$> segs -> segs_dir segs !! n = None.
Proof.
  induction segs as [|s segs IH]; [done|]. rewrite fmap_cons, elem_of_cons. intros Hn.
  cbn. rewrite seg_dir_other by tauto. apply IH. tauto.
Qed.

Lemma segs_dir_seg segs s e :
  NoDup (seg_baseOffset <$> segs) -> s ∈ segs ->
  segs_dir segs !! (seg_baseOffset s, e)
  = match e with
    | ExtLog => inl <$> seg_log s
    | ExtIndex => inl ∘ ix_file <$> seg_index s
    | ExtRemote => inr <$> seg_stub s
    end.
Proof.
  induction segs as [|x segs IH]; [by intros _ ?%elem_of_nil|].
  rewrite fmap_cons. intros [Hx Hn]%NoDup_cons [->|Hs]%elem_of_cons.
  - pose proof (segs_dir_none segs (seg_baseOffset x, e) Hx) as Hd. cbn. unfold seg_dir, put_file.
    destruct e, (seg_log x), (seg_index x), (seg_stub x); cbn;
      rewrite ?lookup_insert_eq; try done; rewrite ?lookup_insert_ne by done;
      rewrite ?lookup_insert_eq; try done; rewrite ?lookup_insert_ne by done;
      rewrite ?lookup_insert_eq; done.
  - cbn. rewrite seg_dir_other; [by apply IH|]. cbn. intros E. apply Hx. rewrite <- E.
    by apply list_elem_of_fmap_2.
Qed.

Lemma dir_segFiles_seg segs s :
  NoDup (seg_baseOffset <$> segs) -> s ∈ segs -> seg_stub s = None ->
  dir_segFiles (segs_dir segs) (seg_baseOffset s) = files_of s [].
Proof.
  intros Hn Hs Hst. unfold dir_segFiles, files_of. rewrite !(segs_dir_seg segs s) by done.
  rewrite Hst. destruct (seg_log s), (seg_index s); cbn; rewrite ?app_nil_r; done.
Qed.

Lemma dir_segFiles_none segs base :
  ~ base ∈ seg_baseOffset <$> segs -> dir_segFiles (segs_dir segs) base = mkFiles None None None.
Proof. intros Hb. unfold dir_segFiles. by rewrite !segs_dir_none. Qed.

(** The bases of the segments of a partition are distinct. *)
Lemma sorted_nodup (l : list Z) : StronglySorted Z.lt l -> NoDup l.
Proof.
  induction 1 as [|x l _ IH Hx]; constructor; [|done]. intros Hin.
  eapply (proj1 (Forall_forall _ _)) in Hin; [|exact Hx]. cbn in Hin. lia.
Qed.

Lemma pt_bases_nodup p bss : pt_inv p bss -> NoDup (seg_baseOffset <$> orderedSegmentsLocked p).
Proof.
  intros [Hs [a Ha] _ Hne _ _]. unfold orderedSegmentsLocked in *. rewrite Ha in *.
  by eapply sorted_nodup, segs_bases_sorted.
Qed.

(** A partition whose full active segment is closed and followed by a fresh one. *)
Lemma rolled_inv p bss a :
  pt_inv p bss -> pt_active p = Some a -> full a = true -> pt_nextOffset p <= 4611686018427387904 ->
  pt_inv (with_segments p (pt_closed p ++ [a])
            (Some (fresh (pt_nextOffset p) (pt_maxSegmentBytes p) (pt_indexInterval p)))
            (pt_nextOffset p) (pt_nextOffset p)) (bss ++ [[]]).
Proof.
  intros Hp Ha Hf Hb. pose proof (pi_max _ _ Hp). pose proof (pi_closed _ _ Hp).
  destruct (pt_inv_active p bss Hp) as (a' & bssc & bsa & Ha' & -> & Hc & Hs & Hm & Hn & Hcfg & Hcfga).
  rewrite Ha in Ha'. injection Ha' as <-.
  pose proof (chain_mono _ _ _ (si_wf _ _ Hs) (si_chain _ _ Hs)). pose proof (si_base _ _ Hs).
  constructor; cbn; try done.
  - assert (earliestOffsetLocked (with_segments p (pt_closed p ++ [a])
      (Some (fresh (pt_nextOffset p) (pt_maxSegmentBytes p) (pt_indexInterval p)))
      (pt_nextOffset p) (pt_nextOffset p)) = earliestOffsetLocked p) as ->.
    { unfold earliestOffsetLocked. cbn. rewrite Ha. by destruct (pt_closed p). }
    unfold orderedSegmentsLocked. cbn. apply segs_inv_app. exists (bssc ++ [bsa]), [[]], (pt_nextOffset p).
    split; [done|]. split.
    + apply segs_inv_app. exists bssc, [bsa], (seg_baseOffset a). split_and!; [done..|]. cbn. by split_and!.
    + cbn. split_and!; [|done..]. apply fresh_inv. lia.
  - apply Forall_app. split; [done|]. repeat constructor. by eapply full_not_empty.
  - unfold orderedSegmentsLocked. cbn. apply Forall_app. split; [apply Forall_app; split; [done|]|];
      repeat constructor; by destruct Hcfga.
Qed.

Section filling.
Context (clock : Z -> Z) (Hclock : forall o, in_i64 (clock o)).

Lemma newCompactWriter_inv maxBytes interval :
  0 < maxBytes -> exists w, newCompactWriter maxBytes interval = Ok w /\ w_inv w [] [[]] /\
    cw_maxBytes w = maxBytes /\ cw_interval w = interval.
Proof.
  intros Hm. eexists. split; [reflexivity|]. split; [|done]. constructor; cbn.
  - constructor; cbn; try done; [|repeat constructor].
    split_and!; try done. apply fresh_inv. lia.
  - intros a [= <-]. unfold full. cbn. by apply Z.leb_gt.
  - repeat constructor.
  - done.
  - exists [], []. split_and!; try done. cbn. lia.
Qed.

(** Appending to the active segment of the writer. *)
Lemma w_append w bss raw seg :
  pt_inv (w_part w) bss -> cw_seg w = Some seg -> wf_raw raw ->
  0 <= seg_nextOffset seg -> seg_nextOffset seg + raw_lod raw + 1 <= 2147483647 ->
  seg_size seg + zlen raw <= 4294967295 ->
  exists seg' bss', append seg raw = Ok (seg_nextOffset seg, seg') /\
    seg_stub seg' = seg_stub seg /\ seg_baseOffset seg' = seg_baseOffset seg /\
    seg_nextOffset seg' = seg_nextOffset seg + raw_lod raw + 1 /\
    pt_inv (w_part (mkWriter (cw_maxBytes w) (cw_interval w) (cw_base w) (cw_closed w) (Some seg')
                      (cw_files w) [] 0)) bss' /\
    mjoin bss' = mjoin bss ++ [set_base raw (seg_nextOffset seg)].
Proof.
  intros Hp Hseg Hr Hn0 Hn Hsz. pose proof (pi_max _ _ Hp) as Hmax. pose proof (pi_closed _ _ Hp) as Hne.
  destruct (pt_inv_active _ _ Hp) as (a & bssc & bsa & Ha & -> & Hc & Hs & Hm & _ & Hcfg & Hcfga).
  cbn in Ha. rewrite Hseg in Ha. injection Ha as <-. pose proof (si_base _ _ Hs).
  destruct (append_active_step (w_part w) seg bssc bsa raw) as (p' & Hap & Hp' & Hn' & _); try done; try lia.
  unfold append_active in Hap. cbn [w_part pt_active] in Hap. rewrite Hseg in Hap.
  destruct (append_step seg bsa raw Hs Hr) as (seg' & E & _ & Hsn & Hsb & _); [lia..|].
  rewrite E in Hap. injection Hap as <-.
  exists seg'. eexists. split; [done|]. split_and!; [|done|done|exact Hp'|apply mjoin_append_last].
  clear -E. unfold append in E. destruct (ParseRecordBatchHeader raw); [|done|done]. cbn in E.
  destruct (_ <? _); [done|]. destruct (seg_log seg), (seg_index seg); try done. by injection E as <-.
Qed.

Lemma option_list_Some {A} (x : A) : option_list (Some x) = [x].
Proof. done. Qed.

Lemma names_snoc l s : mjoin (seg_names <$> l ++ [s]) = mjoin (seg_names <$> l) ++ seg_names s.
Proof. rewrite fmap_app. cbn [fmap list_fmap]. by rewrite mjoin_snoc. Qed.

Lemma cw_roll_spec w seg :
  cw_seg w = Some seg -> ~ cw_base w ∈ seg_baseOffset <$> cw_segments w ->
  cw_roll w = Ok (mkWriter (cw_maxBytes w) (cw_interval w) (cw_base w) (cw_closed w ++ [seg])
                    (Some (fresh (cw_base w) (cw_maxBytes w) (cw_interval w)))
                    (cw_files w ++ seg_names (fresh (cw_base w) (cw_maxBytes w) (cw_interval w)))
                    (cw_batch w) (cw_pendingBytes w)).
Proof.
  intros Hs Hb. unfold cw_roll. rewrite dir_segFiles_none, openSegment_fresh by done. cbn [obind].
  unfold cw_segments. by rewrite Hs.
Qed.

(** The segments of the writer end where its partition ends. *)
Lemma w_bases_below w bss seg :
  pt_inv (w_part w) bss -> cw_seg w = Some seg -> full seg = true ->
  ~ seg_nextOffset seg ∈ seg_baseOffset <$> cw_segments w.
Proof.
  intros Hp Hs Hf (s & E & Hin)%list_elem_of_fmap.
  destruct (pt_inv_active _ _ Hp) as (a & bssc & bsa & Ha & -> & Hc & Hsi & Hm & _).
  cbn in Ha. rewrite Hs in Ha. injection Ha as <-. pose proof (full_not_empty seg bsa Hsi Hm Hf).
  unfold cw_segments in Hin. rewrite Hs in Hin. apply elem_of_app in Hin as [Hin|Hin].
  - pose proof (segs_inv_bases _ _ _ _ Hc) as Hb. eapply (proj1 (Forall_forall _ _)) in Hin; [|exact Hb].
    cbn in Hin. lia.
  - cbn in Hin. apply list_elem_of_singleton in Hin as ->. lia.
Qed.

Lemma cw_flush_inv w rs bss :
  w_inv w rs bss -> Forall light rs -> zlen rs <= 2147483647 -> cw_maxBytes w <= 2147483647 ->
  exists w' bss', cw_flush clock w = Ok w' /\ w_inv w' rs bss' /\ cw_batch w' = [] /\
    cw_maxBytes w' = cw_maxBytes w /\ cw_interval w' = cw_interval w.
Proof.
  intros [Hp Hroom Hstub Hfiles (fl & pd & -> & Hb & Hlen & Hlog & Hn)] Hl Hz Hmax. unfold cw_flush.
  case_bool_decide as E.
  { exists w, bss. split_and!; try done. constructor; try done. by exists fl, pd. }
  apply Forall_app in Hl as [Hfl Hpd]. rewrite zlen_app in Hz.
  pose proof (zlen_nonneg fl). pose proof (zlen_nonneg pd).
  destruct (pi_active _ _ Hp) as [seg Hseg]. cbn in Hseg. rewrite Hseg.
  cbn [w_part pt_nextOffset] in Hn. rewrite Hseg in Hn. cbn in Hn.
  assert (0 < length pd)%nat by (destruct pd; [by rewrite Hb in E|cbn; lia]).
  destruct (flushed_raw (clock (seg_nextOffset seg)) pd (seg_nextOffset seg)) as (raw & Henc & Hw & Hlod & Hsz & Hbl);
    [done|done|lia|lia|].
  rewrite Hb. unfold flushed in Henc. rewrite Henc. cbn [obind].
  pose proof (Hroom seg Hseg) as Hnf. unfold full in Hnf. apply Z.leb_gt in Hnf.
  assert (seg_maxSegmentBytes seg = cw_maxBytes w) as Hsm.
  { pose proof (pi_cfg _ _ Hp) as Hcfg. unfold orderedSegmentsLocked in Hcfg. cbn in Hcfg. rewrite Hseg in Hcfg.
    by apply Forall_app in Hcfg as [_ [[? _] _]%Forall_cons]. }
  assert (zlen pd <= 500) by (unfold zlen; lia).
  destruct (w_append w bss raw seg Hp Hseg Hw) as (seg' & bss' & -> & Hst & Hbase & Hn' & Hp' & Hj); [lia..|].
  cbn [obind].
  assert (log_of (mjoin bss') = at_offsets 0 (fl ++ pd)) as Hlog'.
  { rewrite Hj, log_of_snoc, Hlog, Hbl, at_offsets_app, Hn. done. }
  unfold cw_segments in Hstub, Hfiles. rewrite Hseg in Hstub, Hfiles. cbn in Hstub, Hfiles.
  apply Forall_app in Hstub as [Hst1 [Hst2 _]%Forall_cons].
  assert (seg_names seg' = seg_names seg) as Hnames by (unfold seg_names; by rewrite Hbase).
  destruct (full seg') eqn:Hf'.
  - set (w1 := mkWriter (cw_maxBytes w) (cw_interval w) (seg_nextOffset seg') (cw_closed w) (Some seg')
                 (cw_files w) [] 0).
    assert (pt_inv (w_part w1) bss') as Hp1 by exact Hp'.
    rewrite (cw_roll_spec w1 seg') by (done || by eapply w_bases_below).
    eexists _, (bss' ++ [[]]). split; [done|]. split; [|done]. constructor.
    + pose proof (rolled_inv (w_part w1) bss' seg' Hp1 eq_refl Hf') as Hr. cbn in Hr. apply Hr. lia.
    + intros a [= <-]. unfold full. cbn. apply Z.leb_gt. exact (pi_max _ _ Hp).
    + unfold cw_segments. cbn. rewrite <- app_assoc. apply Forall_app. split; [done|].
      repeat constructor. by rewrite Hst.
    + unfold cw_segments. cbn [w1 cw_closed cw_seg cw_files cw_base cw_maxBytes cw_interval option_list].
      by rewrite Hfiles, option_list_Some, !names_snoc, Hnames.
    + exists (fl ++ pd), []. split_and!; [by rewrite app_nil_r|done|cbn; lia| |].
      * by rewrite mjoin_snoc, app_nil_r.
      * cbn. rewrite Hn', Hn, Hlod, zlen_app. lia.
  - eexists _, bss'. split; [done|]. split; [|done]. constructor; try done.
    + intros a [= <-]. done.
    + unfold cw_segments. cbn. apply Forall_app. split; [done|]. constructor; [by rewrite Hst|constructor].
    + unfold cw_segments. cbn [cw_closed cw_seg cw_files]. by rewrite Hfiles, option_list_Some, !names_snoc, Hnames.
    + exists (fl ++ pd), []. split_and!; [by rewrite app_nil_r|done|cbn; lia|done|].
      cbn. rewrite Hn', Hn, Hlod, zlen_app. lia.
Qed.

Lemma cw_add_inv w rs bss r :
  w_inv w rs bss -> (length (cw_batch w) < 500)%nat -> Forall light (rs ++ [r]) ->
  zlen (rs ++ [r]) <= 2147483647 -> cw_maxBytes w <= 2147483647 ->
  exists w' bss', cw_add clock w r = Ok w' /\ w_inv w' (rs ++ [r]) bss' /\
    (length (cw_batch w') < 500)%nat /\ cw_maxBytes w' = cw_maxBytes w /\ cw_interval w' = cw_interval w.
Proof.
  intros [Hp Hroom Hstub Hfiles (fl & pd & -> & Hb & _ & Hlog & Hn)] Hlen Hl Hz Hmax.
  rewrite Hb, length_imap in Hlen.
  assert (i32 (zlen (cw_batch w)) = Z.of_nat (length pd)) as Hi.
  { rewrite Hb. unfold zlen. rewrite length_imap. apply i32_id. mlia. }
  unfold cw_add. rewrite Hi. set (batch := cw_batch w ++ _). set (pending := cw_pendingBytes w + _ + _).
  assert (batch = imap copied (pd ++ [r])) as Hbatch.
  { unfold batch. rewrite Hb, imap_app. cbn. by rewrite Nat.add_0_r. }
  set (w1 := mkWriter _ _ _ _ _ _ batch pending).
  assert (w_inv w1 ((fl ++ pd) ++ [r]) bss) as Hw1.
  { constructor; try done. exists fl, (pd ++ [r]). split_and!; try done; [by rewrite app_assoc|].
    rewrite length_app. cbn. lia. }
  destruct (Z.ltb_spec (zlen batch) compactBatchSize) as [Hsmall|Hbig]; cbn [andb].
  - destruct (pending <? compactBatchBytes).
    + exists w1, bss. split_and!; try done. cbn. unfold zlen, compactBatchSize in Hsmall. lia.
    + destruct (cw_flush_inv w1 _ bss Hw1) as (w' & bss' & ? & ? & Hb' & ? & ?); try done.
      exists w', bss'. rewrite Hb'. split_and!; try done. cbn. lia.
  - destruct (cw_flush_inv w1 _ bss Hw1) as (w' & bss' & ? & ? & Hb' & ? & ?); try done.
    exists w', bss'. rewrite Hb'. split_and!; try done. cbn. lia.
Qed.

Lemma cw_adds_inv w rs bss new :
  w_inv w rs bss -> (length (cw_batch w) < 500)%nat -> Forall light (rs ++ new) ->
  zlen (rs ++ new) <= 2147483647 -> cw_maxBytes w <= 2147483647 ->
  exists w' bss', each (cw_add clock) w new = Ok w' /\ w_inv w' (rs ++ new) bss' /\
    (length (cw_batch w') < 500)%nat /\ cw_maxBytes w' = cw_maxBytes w /\ cw_interval w' = cw_interval w.
Proof.
  revert w rs bss. induction new as [|r new IH]; intros w rs bss Hw Hb Hl Hz Hm.
  { rewrite app_nil_r. by exists w, bss. }
  change (rs ++ r :: new) with (rs ++ [r] ++ new) in *. rewrite app_assoc in *.
  destruct (cw_add_inv w rs bss r Hw Hb) as (w1 & bss1 & H1 & Hw1 & Hb1 & Hm1 & Hi1); [|rewrite zlen_app in Hz; pose proof (zlen_nonneg new); lia|done|].
  { by apply Forall_app in Hl as [? _]. }
  cbn [each]. rewrite H1. cbn [obind].
  destruct (IH w1 (rs ++ [r]) bss1 Hw1 Hb1 Hl Hz) as (w' & bss' & ? & ? & ? & ? & ?); [lia|].
  exists w', bss'. split_and!; try done; congruence.
Qed.
End filling.

(** ** The files after the swap *)

Lemma stageSwapFiles_spec names t :
  NoDup names -> (forall n, n ∈ names -> is_Some (tmp_files t !! n)) ->
  exists t', stageSwapFiles t names = Ok t' /\
    forall n, tmp_staged t' !! n = if bool_decide (n ∈ names) then tmp_files t !! n else tmp_staged t !! n.
Proof.
  intros Hn. revert t. induction Hn as [|x names Hx _ IH]; intros t Hf; [by exists t|]. cbn [stageSwapFiles].
  destruct (Hf x) as [c Hc]; [left|]. rewrite Hc.
  destruct (IH (mkTmp (delete x (tmp_files t)) (<[x:=c]> (tmp_staged t)) (tmp_manifest t)))
    as (t' & -> & Ht').
  { intros n Hin. cbn. rewrite lookup_delete_ne by congruence. apply Hf. by right. }
  exists t'. split; [done|]. intros n. rewrite Ht'. cbn.
  destruct (decide (n = x)) as [->|Hne].
  - rewrite (bool_decide_eq_false_2 (x ∈ names)), (bool_decide_eq_true_2 (x ∈ x :: names)) by (done || left).
    by rewrite lookup_insert_eq.
  - rewrite lookup_delete_ne, lookup_insert_ne by congruence.
    rewrite (bool_decide_ext (n ∈ x :: names) (n ∈ names)); [done|]. rewrite elem_of_cons. tauto.
Qed.

Lemma elem_of_names n segs :
  n ∈ mjoin (seg_names <$> segs) <-> n.1 ∈ seg_baseOffset <$> segs /\ n.2 <> ExtRemote.
Proof.
  rewrite list_elem_of_join, list_elem_of_fmap. setoid_rewrite list_elem_of_fmap. unfold seg_names. split.
  - intros (l & Hn & s & -> & Hs). rewrite !elem_of_cons, elem_of_nil in Hn.
    destruct Hn as [->|[->|[]]]; cbn; split; try done; by exists s.
  - intros [(s & E & Hs) He]. exists (seg_names s). destruct n as [b e]. cbn in *. subst.
    split; [|by exists s]. unfold seg_names. rewrite !elem_of_cons, elem_of_nil. destruct e; tauto.
Qed.

Lemma names_nodup segs : NoDup (seg_baseOffset <$> segs) -> NoDup (mjoin (seg_names <$> segs)).
Proof.
  induction segs as [|s segs IH]; [constructor|]. rewrite !fmap_cons, mjoin_cons.
  intros [Hs Hn]%NoDup_cons. unfold seg_names at 1. cbn [app].
  assert (forall e, ~ (seg_baseOffset s, e) ∈ mjoin (seg_names <$> segs)) as Hf.
  { intros e. rewrite elem_of_names. cbn. tauto. }
  constructor; [rewrite elem_of_cons; intros [[=]|?]; by eapply Hf|]. constructor; [apply Hf|by apply IH].
Qed.

Lemma segs_inv_files o segs bss e :
  segs_inv o segs bss e -> Forall (fun s => is_Some (seg_log s) /\ is_Some (seg_index s)) segs.
Proof.
  revert o bss. induction segs as [|s segs IH]; intros o [|bs bss]; cbn; try done.
  intros (Hs & _ & _ & Hr). constructor; [|by eapply IH].
  rewrite (si_log _ _ Hs). destruct (si_index _ _ Hs) as (idx & -> & _). eauto.
Qed.

(** The names in the directory of a list of local segments. *)
Lemma segs_dir_dom segs n :
  NoDup (seg_baseOffset <$> segs) -> Forall (fun s => is_Some (seg_log s) /\ is_Some (seg_index s)) segs ->
  Forall (fun s => seg_stub s = None) segs ->
  is_Some (segs_dir segs !! n) <-> n ∈ mjoin (seg_names <$> segs).
Proof.
  intros Hn Hf Hst. rewrite elem_of_names. destruct n as [b e]. cbn.
  destruct (decide (b ∈ seg_baseOffset <$> segs)) as [Hb|Hb].
  - pose proof Hb as (s & -> & Hs)%list_elem_of_fmap. rewrite (segs_dir_seg segs s) by done.
    eapply (proj1 (Forall_forall _ _)) in Hst; [|exact Hs]. cbn in Hst.
    eapply (proj1 (Forall_forall _ _)) in Hf; [|exact Hs]. cbn in Hf. destruct Hf as [[l Hl] [i Hi]].
    rewrite Hst, Hl, Hi.
    destruct e; cbn; split; try done; try (by intros; eexists); try (by intros [? ?]); by intros [].
  - rewrite segs_dir_none by done. split; [by intros []|tauto].
Qed.

Lemma elem_of_dir_bases m b :
  b ∈ dir_bases m <-> is_Some (m !! (b, ExtLog)) \/ is_Some (m !! (b, ExtRemote)).
Proof.
  unfold dir_bases. rewrite list_elem_of_omap. split.
  - intros ([b' e] & Hin & Hb). apply list_elem_of_fmap in Hin as ([n c] & E & Hn). cbn in *. subst n.
    apply elem_of_map_to_list in Hn. destruct e; simplify_eq; [left|right]; by exists c.
  - intros [[c Hc]|[c Hc]]; [exists (b, ExtLog)|exists (b, ExtRemote)]; (split; [|done]);
      apply list_elem_of_fmap; eexists (_, c); (split; [done|]); by apply elem_of_map_to_list.
Qed.

(** Opening the directory of a partition gives its batches back. *)
Lemma recover_segs_dir p bss q :
  pt_inv p bss -> Forall (fun s => seg_stub s = None) (orderedSegmentsLocked p) ->
  pt_closed q = [] -> pt_maxSegmentBytes q = pt_maxSegmentBytes p -> pt_indexInterval q = pt_indexInterval p ->
  exists p', recover_dir (segs_dir (orderedSegmentsLocked p)) q = Ok p' /\ pt_inv p' bss /\
    earliestOffsetLocked p' = earliestOffsetLocked p /\ pt_nextOffset p' = pt_nextOffset p.
Proof.
  intros Hp Hst H1 H2 H3. pose proof (pt_bases_nodup p bss Hp) as Hn.
  pose proof (segs_inv_files _ _ _ _ (pi_segs _ _ Hp)) as Hf.
  assert (forall s, s ∈ orderedSegmentsLocked p ->
            dir_segFiles (segs_dir (orderedSegmentsLocked p)) (seg_baseOffset s) = files_of s []) as Hd.
  { intros s Hs. apply dir_segFiles_seg; [done..|]. by eapply (proj1 (Forall_forall _ _) Hst). }
  apply (reopen_spec _ _ p q bss []); try done; [|by left|by right|].
  - split; [apply Forall_forall; intros s Hs; apply Hd; unfold orderedSegmentsLocked; apply elem_of_app; by left|].
    intros a Ha. apply Hd. unfold orderedSegmentsLocked. rewrite Ha. apply elem_of_app. right. left.
  - intros b. rewrite elem_of_dir_bases, !segs_dir_dom, !elem_of_names by done. cbn. intuition congruence.
Qed.

(** The writer's directory, staged and swapped in. *)
Lemma staged_dir_spec p w rs bss :
  w_inv w rs bss ->
  exists d m, staged_dir p w (cw_files w) = Ok d /\ manifest_of d = Some m /\
    d_files d = segs_dir (orderedSegmentsLocked p) /\
    d_files (applyCompactionSwap d) = segs_dir (cw_segments w).
Proof.
  intros [Hp _ Hst Hfiles _].
  pose proof (pt_bases_nodup _ _ Hp) as Hn. change (orderedSegmentsLocked (w_part w)) with (cw_segments w) in Hn.
  pose proof (segs_inv_files _ _ _ _ (pi_segs _ _ Hp)) as Hf.
  change (orderedSegmentsLocked (w_part w)) with (cw_segments w) in Hf.
  unfold staged_dir. destruct (stageSwapFiles_spec (cw_files w) (mkTmp (segs_dir (cw_segments w)) ∅ None))
    as (t & -> & Ht).
  { rewrite Hfiles. by apply names_nodup. }
  { intros n Hin. cbn. rewrite Hfiles in Hin. by apply segs_dir_dom. }
  cbn [obind]. eexists _, _. split; [done|]. split; [reflexivity|]. split; [done|].
  apply map_eq. intros n. rewrite applyCompactionSwap_eq. cbn [manifest_of].
  unfold manifest_of at 1. cbn [d_tmp mbind option_bind writeManifest tmp_manifest id d_files].
  rewrite moved_files by done. unfold swap_target. cbn [m_New m_Old d_tmp d_files mbind option_bind].
  cbn [writeManifest tmp_staged]. rewrite Ht. cbn [tmp_files tmp_staged].
  case_bool_decide as Hnew.
  - rewrite Hfiles in Hnew. apply segs_dir_dom in Hnew as [c ->]; done.
  - assert (segs_dir (cw_segments w) !! n = None) as ->.
    { apply eq_None_not_Some. rewrite segs_dir_dom by done. by rewrite <- Hfiles. }
    case_bool_decide as Hold; [done|]. apply eq_None_not_Some. intros [c Hc]. apply Hold.
    unfold dirFileNames. apply list_elem_of_fmap. exists (n, c). split; [done|]. by apply elem_of_map_to_list.
Qed.

(** ** Compaction *)

Definition records_of (ds : list RecordBatch) : list Record_ := mjoin (rb_Records <$> ds).

(** Sizes the code's 32-bit counters can take: records of at most four
    megabytes, fewer than 2^31 of them, keys within the planner's limit. *)
Definition compactable (kept added : list Record_) : Prop :=
  Forall light (kept ++ added) /\ zlen (kept ++ added) <= 2147483647 /\
  sum_len (keys kept) <= compactMaxKeyBytes.

(** C8: compaction survives a crash. Before the manifest is complete, whatever the
    temporary directory holds, the next start finds the log as it was; once it is
    complete, the next start finds the compacted log, however many attempts at
    the swap are cut short, and wherever. *)
Theorem compaction_crash_safe p bss w rs bssw :
  pt_inv p bss -> Forall (fun s => seg_stub s = None) (orderedSegmentsLocked p) ->
  w_inv w rs bssw -> cw_batch w = [] ->
  cw_maxBytes w = pt_maxSegmentBytes p -> cw_interval w = pt_indexInterval p ->
  (forall t, tmp_manifest t ≫= id = None ->
     exists p', open_dir (mkPartDir (segs_dir (orderedSegmentsLocked p)) (Some t)) (unopened p) = Ok p' /\
       pt_inv p' bss) /\
  exists d, staged_dir p w (cw_files w) = Ok d /\
    forall d', rtc interrupted d d' ->
      exists p', open_dir d' (unopened p) = Ok p' /\ pt_inv p' bssw /\
        log_of (mjoin bssw) = at_offsets 0 rs.
Proof.
  intros Hp Hst Hw Hb Hm Hi. split.
  - intros t Ht. unfold open_dir, applyCompactionSwap, manifest_of. cbn. rewrite Ht. cbn.
    destruct (recover_segs_dir p bss (unopened p) Hp Hst) as (p' & ? & ? & _); [done..|]. eauto.
  - destruct (staged_dir_spec p w rs bssw Hw) as (d & m & Hd & _ & _ & Hf). exists d. split; [done|].
    intros d' Hr. unfold open_dir. rewrite (interruptions_same d d' Hr), Hf.
    destruct (recover_segs_dir (w_part w) bssw (unopened p)) as (p' & Hp' & Hi' & _);
      [exact (wi_part _ _ _ Hw)|exact (wi_stub _ _ _ Hw)|done|by cbn|by cbn|].
    exists p'. split_and!; [done..|].
    destruct (wi_data _ _ _ Hw) as (fl & pd & -> & Hpd & _ & Hlog & _).
    assert (pd = []) as -> by (destruct pd; [done|by rewrite Hb in Hpd]). by rewrite app_nil_r.
Qed.

Section compact.
Context (clock : Z -> Z) (Hclock : forall o, in_i64 (clock o)).

Lemma source_local p bss :
  pt_inv p bss -> compactionSource p = (orderedSegmentsLocked p, pt_nextOffset p).
Proof.
  intros Hp. unfold compactionSource. assert (existsb seg_remote (orderedSegmentsLocked p) = false) as ->; [|done].
  pose proof (pi_segs _ _ Hp) as Hs. revert Hs. generalize (earliestOffsetLocked p) as o, (pt_nextOffset p) as e.
  generalize (orderedSegmentsLocked p) as segs. clear. intros segs o e. revert o bss.
  induction segs as [|s segs IH]; intros o [|bs bss]; cbn; try done. intros (Hs & _ & _ & Hr).
  rewrite (si_local _ _ Hs). by eapply IH.
Qed.

(** What the first part of [Compact] decides and writes. *)
Lemma stage_outcome p bss ds added :
  pt_inv p bss -> Forall2 decodes_as (mjoin bss) ds ->
  Forall (fun s => seg_size s <= 2147483647) (orderedSegmentsLocked p) ->
  pt_maxSegmentBytes p <= 2147483647 -> compactable (latest (records_of ds)) added ->
  (latest (records_of ds) = records_of ds -> stage clock false p = Ok None) /\
  (latest (records_of ds) <> records_of ds ->
   exists w bssw, stage clock false p = Ok (Some (w, pt_nextOffset p)) /\
     w_inv w (latest (records_of ds)) bssw /\ (length (cw_batch w) < 500)%nat /\
     cw_maxBytes w = pt_maxSegmentBytes p /\ cw_interval w = pt_indexInterval p).
Proof.
  intros Hp Hd Hsz Hmax (Hl & Hz & Hk). unfold stage. rewrite (source_local p bss Hp).
  rewrite bool_decide_eq_false_2.
  2: { unfold orderedSegmentsLocked. destruct (pi_active _ _ Hp) as [a ->]. by destruct (pt_closed p). }
  destruct (planCompaction_spec _ _ _ _ _ (pi_segs _ _ Hp) Hd Hsz Hk) as (plan & -> & Hlast & Htot & Hpl).
  cbn [obind]. rewrite Htot, Hpl. fold (records_of ds) in *.
  destruct (latest_shorter (records_of ds)) as [Hle Heq].
  split.
  { intros ->. by rewrite Z.leb_refl. }
  intros Hne. rewrite (proj2 (Z.leb_gt _ _)) by (destruct (Z.eq_dec (zlen (latest (records_of ds))) (zlen (records_of ds))); [tauto|lia]).
  unfold stageCompaction.
  destruct (newCompactWriter_inv (pt_maxSegmentBytes p) (pt_indexInterval p) (pi_max _ _ Hp)) as (w0 & -> & Hw0 & Hm0 & Hi0).
  cbn [obind]. rewrite (forEachBatch_spec _ _ bss ds (earliestOffsetLocked p) (pt_nextOffset p));
    [|exact (pi_segs _ _ Hp)|done|lia|done].
  rewrite each_join. fold (records_of ds).
  rewrite (stage_spec clock plan (records_of ds) [] (records_of ds) w0 Hlast eq_refl
           : each (stage_record clock plan) (w0, 0) (records_of ds) = _).
  apply Forall_app in Hl as [Hl _]. rewrite zlen_app in Hz. pose proof (zlen_nonneg added).
  destruct (cw_adds_inv clock Hclock w0 [] [[]] (latest (records_of ds)) Hw0) as (w & bssw & -> & Hw & Hb & Hm & Hi).
  - assert (cw_batch w0 = []) as ->; [|cbn; lia].
    destruct (wi_data _ _ _ Hw0) as (fl & pd & E & -> & _). symmetry in E. apply app_eq_nil in E as [-> ->]. done.
  - done.
  - cbn. lia.
  - lia.
  - cbn [obind]. exists w, bssw. rewrite Hm, Hi. split_and!; done.
Qed.

(** C7: compaction keeps the latest. The records of a partition are read, and
    unless each is the last one of its key already, they are replaced by the last
    record of every key and every record without a key, in their order, followed
    by everything that was appended to the active segment while compaction was
    under way. The records are renumbered from offset 0, and the partition is as
    sound as before. If nothing is superseded, nothing is done. *)
Theorem compaction_keeps_latest p bssc bsa ds p1 bssc1 added da now :
  pt_inv p (bssc ++ [bsa]) -> Forall2 decodes_as (mjoin (bssc ++ [bsa])) ds ->
  pt_inv p1 (bssc1 ++ [bsa ++ added]) -> Forall2 decodes_as added da ->
  seg_baseOffset <$> pt_active p1 = seg_baseOffset <$> pt_active p ->
  pt_maxSegmentBytes p1 = pt_maxSegmentBytes p -> pt_indexInterval p1 = pt_indexInterval p ->
  Forall (fun s => seg_size s <= 2147483647) (orderedSegmentsLocked p ++ orderedSegmentsLocked p1) ->
  pt_maxSegmentBytes p <= 2147483647 -> compactable (latest (records_of ds)) (records_of da) ->
  let kept := latest (records_of ds) in
  (kept = records_of ds -> stage clock false p = Ok None) /\
  (kept <> records_of ds ->
   exists w p' bss', stage clock false p = Ok (Some (w, pt_nextOffset p)) /\
     installCompaction clock p1 w (pt_nextOffset p) now = (p', Ok tt) /\ pt_inv p' bss' /\
     log_of (mjoin bss') = at_offsets 0 (kept ++ records_of da) /\
     pt_nextOffset p' = zlen (kept ++ records_of da)).
Proof.
  intros Hp Hd Hp1 Hda Hbase Hmx1 Hix1 [Hsz Hsz1]%Forall_app Hmax Hcomp kept.
  destruct (stage_outcome p _ ds _ Hp Hd Hsz Hmax Hcomp) as [Hnone Hsome]. split; [exact Hnone|].
  intros Hne. destruct (Hsome Hne) as (w & bssw & Hst & Hw & Hb & Hm & Hi). exists w. fold kept in Hw.
  destruct Hcomp as (Hl & Hz & _). fold kept in Hl, Hz.
  destruct (pt_inv_active _ _ Hp) as (a & c & l & Ha & E & Hc & Hs & _ & Hn & _).
  apply app_inj_tail in E as [<- <-].
  destruct (pt_inv_active _ _ Hp1) as (a1 & c1 & l1 & Ha1 & E & _ & Hs1 & _ & Hn1 & _).
  apply app_inj_tail in E as [<- <-].
  rewrite Ha, Ha1 in Hbase. injection Hbase as Hbase.
  pose proof (si_chain _ _ Hs) as Hch. pose proof (si_chain _ _ Hs1) as Hch1. rewrite Hbase in Hch1.
  apply chain_app in Hch1 as (m & Hch0 & Hch1). rewrite (chain_end_unique _ _ _ _ Hch0 Hch) in Hch1.
  unfold installCompaction, open_dir. rewrite Ha1, Hn, Hn1.
  rewrite (forEachBatchRange_spec _ a1 bsa added da); [|done|by rewrite Hbase|done|done|].
  2: { unfold orderedSegmentsLocked in Hsz1. rewrite Ha1 in Hsz1.
       by apply Forall_app in Hsz1 as [_ [? _]%Forall_cons]. }
  rewrite each_join. fold (records_of da).
  destruct (cw_adds_inv clock Hclock w kept bssw (records_of da) Hw Hb Hl Hz) as (w2 & bss2 & -> & Hw2 & _ & Hm2 & Hi2); [lia|].
  cbn [obind]. unfold cw_finish.
  destruct (cw_flush_inv clock Hclock w2 _ bss2 Hw2 Hl Hz) as (w3 & bss3 & -> & Hw3 & Hb3 & Hm3 & Hi3); [lia|].
  cbn [obind]. destruct (staged_dir_spec p1 w3 _ bss3 Hw3) as (d & mf & -> & _ & _ & ->).
  destruct (recover_segs_dir (w_part w3) bss3
              (with_segments p1 [] None (seg_nextOffset a1) (pt_highWatermark p1)))
    as (q & Hq & Hqi & _ & Hqn); [exact (wi_part _ _ _ Hw3)|exact (wi_stub _ _ _ Hw3)|done|cbn; congruence|cbn; congruence|].
  change (cw_segments w3) with (orderedSegmentsLocked (w_part w3)). rewrite Hq.
  eexists _, bss3. split; [by rewrite Hst, Hn|]. split; [done|].
  destruct (wi_data _ _ _ Hw3) as (fl & pd & E & Hpd & _ & Hlog & Hnx).
  assert (pd = []) as -> by (destruct pd; [done|by rewrite Hb3 in Hpd]). rewrite app_nil_r in E. subst fl.
  split_and!; [by destruct Hqi|done|cbn; congruence].
Qed.
End compact.

(** ** Examples *)

Definition keyed (k : gobytes) (v : byte) : list byte :=
  match EncodeRecordBatch (mkBatch 0 0 0 0 0 0 0 0 (-1) (-1) (-1) [mkRecord 0 0 0 k (Some [v]) []]) with
  | Ok raw => raw
  | _ => []
  end.

Definition empty_log (maxBytes : Z) : Partition :=
  mkPartition [] (Some (fresh 0 maxBytes 50)) 0 0 maxBytes 50 0 0.

(** Keys a, b, a in segments of two batches, and a fourth record appended while
    the log is being compacted. *)
Definition demo_log : Partition :=
  append_raws (empty_log 140) [keyed (Some [x61]) x31; keyed (Some [x62]) x32; keyed (Some [x61]) x33].

Definition demo_more : list byte := set_base (keyed (Some [x61]) x34) 3.
Definition demo_log' : Partition := append_raws demo_log [keyed (Some [x61]) x34].

Definition demo_closed : list (list (list byte)) :=
  [[set_base (keyed (Some [x61]) x31) 0; set_base (keyed (Some [x62]) x32) 1]].
Definition demo_last : list (list byte) := [set_base (keyed (Some [x61]) x33) 2].

Definition decoded (raws : list (list byte)) : list RecordBatch :=
  omap (fun raw => match DecodeRecordBatch raw with Ok b => Some b | _ => None end) raws.

Lemma decoded_all raws : length (decoded raws) = length raws -> Forall2 decodes_as raws (decoded raws).
Proof.
  assert (forall l, (length (decoded l) <= length l)%nat) as Hle.
  { induction l as [|x l IH]; cbn; [lia|]. destruct (DecodeRecordBatch x); cbn; unfold decoded in IH; lia. }
  induction raws as [|x raws IH]; [constructor|]. cbn. destruct (DecodeRecordBatch x) eqn:E; cbn.
  - intros [= Hl]. constructor; [done|]. by apply IH.
  - intros Hl. specialize (Hle raws). unfold decoded in Hle. lia.
  - intros Hl. specialize (Hle raws). unfold decoded in Hle. lia.
Qed.

Ltac check_partition :=
  constructor; [apply segs_check_sound; vm_compute; reflexivity|eexists; vm_compute; reflexivity
    |vm_compute; reflexivity|vm_compute; repeat constructor|vm_compute; repeat constructor
    |vm_compute; reflexivity].

Lemma demo_log_inv : pt_inv demo_log (demo_closed ++ [demo_last]).
Proof. check_partition. Qed.

Lemma demo_log'_inv : pt_inv demo_log' (demo_closed ++ [demo_last ++ [demo_more]]).
Proof. check_partition. Qed.

Lemma compaction_keeps_latest_witness :
  exists w p' bss', stage (fun _ => 0) false demo_log = Ok (Some (w, 3)) /\
    installCompaction (fun _ => 0) demo_log' w 3 7 = (p', Ok tt) /\ pt_inv p' bss' /\
    log_of (mjoin bss') = [(0, ([x62], Some [x32], [])); (1, ([x61], Some [x33], []));
                           (2, ([x61], Some [x34], []))] /\
    pt_nextOffset p' = 3.
Proof.
  destruct (compaction_keeps_latest (fun _ => 0) ltac:(intros; decide_closed) demo_log demo_closed demo_last
              (decoded (mjoin (demo_closed ++ [demo_last]))) demo_log' demo_closed [demo_more] (decoded [demo_more]) 7)
    as [_ H].
  - exact demo_log_inv.
  - apply decoded_all. vm_compute. reflexivity.
  - exact demo_log'_inv.
  - apply decoded_all. vm_compute. reflexivity.
  - vm_compute. reflexivity.
  - vm_compute. reflexivity.
  - vm_compute. reflexivity.
  - decide_closed.
  - vm_compute. discriminate.
  - split; [decide_closed|]. split; vm_compute; discriminate.
  - destruct H as (w & p' & bss' & H1 & H2 & H3 & H4 & H5); [vm_compute; discriminate|].
    replace (pt_nextOffset demo_log) with 3 in H1, H2 by (vm_compute; reflexivity).
    refine (ex_intro _ w (ex_intro _ p' (ex_intro _ bss' (conj H1 (conj H2 (conj H3 (conj _ _))))))).
    + rewrite H4. vm_compute. reflexivity.
    + rewrite H5. vm_compute. reflexivity.
Defined.

Definition demo_writer : compactWriter :=
  match (let? w := newCompactWriter 140 50 in
         let? w := cw_add (fun _ => 0) w (mkRecord 0 0 0 (Some [x62]) (Some [x32]) []) in
         cw_flush (fun _ => 0) w) with
  | Ok w => w
  | _ => mkWriter 0 0 0 [] None [] [] 0
  end.

Lemma demo_writer_inv :
  w_inv demo_writer [mkRecord 0 0 0 (Some [x62]) (Some [x32]) []]
    [[set_base (keyed (Some [x62]) x32) 0]].
Proof.
  constructor.
  - check_partition.
  - intros a. vm_compute. by intros [= <-].
  - vm_compute. repeat constructor.
  - reflexivity.
  - exists [mkRecord 0 0 0 (Some [x62]) (Some [x32]) []], []. split_and!; [reflexivity|reflexivity|cbn; lia|reflexivity|reflexivity].
Qed.

Lemma compaction_crash_safe_witness :
  exists d, staged_dir demo_log demo_writer (cw_files demo_writer) = Ok d /\
    exists p', open_dir (fold_left swap_step
        (take 5 (swap_calls (mkManifest (dirFileNames (segs_dir (orderedSegmentsLocked demo_log)))
                               (cw_files demo_writer)))) d) (unopened demo_log) = Ok p' /\
      pt_inv p' [[set_base (keyed (Some [x62]) x32) 0]].
Proof.
  destruct (compaction_crash_safe demo_log _ demo_writer _ _ demo_log_inv
              ltac:(vm_compute; repeat constructor) demo_writer_inv eq_refl eq_refl eq_refl) as [_ (d & Hd & H)].
  exists d. split; [exact Hd|].
  edestruct H as (p' & H1 & H2 & _); [|exists p'; split; [exact H1|exact H2]].
  apply rtc_once, cut_after. revert Hd. vm_compute. by intros [= <-].
Defined.

(** The offsets and values in a partition. *)
Definition values (p : Partition) : list (Z * gobytes) :=
  match forEachBatch (fun acc b => Ok (acc ++ map (fun r => (rb_BaseOffset b + rec_OffsetDelta r, rec_Value r))
                                                (rb_Records b)))
          (orderedSegmentsLocked p) (pt_nextOffset p) [] with
  | Ok l => l
  | _ => []
  end.

(** Compaction of [p] with the batches [raws] appended between its two parts. *)
Definition compact_during (p : Partition) (raws : list (list byte)) : Partition :=
  match stage (fun _ => 0) false p with
  | Ok (Some (w, end_)) => (installCompaction (fun _ => 0) (append_raws p raws) w end_ 7).1
  | _ => append_raws p raws
  end.

Definition unkeyed_log : Partition :=
  append_raws (empty_log 1000) [keyed (Some [x61]) x31; keyed (Some [x61]) x32].

(** A batch whose record has no key, as other clients write it: key length -1. *)
Definition unkeyed_raw (v : byte) : list byte :=
  let raw := keyed (Some []) v in
  take 65 raw ++ [x01] ++ drop 66 raw.

(** What compaction can lose. A record appended while a log is being
    compacted, acknowledged at offset 3, is gone when a later append rolls the
    log to a new segment first, because only the new active segment is copied.
    Records without a key survive one compaction, which writes them back with an
    empty key, so of all of them the next one keeps only the last. *)
Theorem compaction_losses :
  (let raws := [keyed (Some [x63]) x34; keyed (Some [x64]) x35] in
   (Append demo_log (keyed (Some [x63]) x34)).2 = Ok 3 /\
   values (append_raws demo_log raws)
   = [(0, Some [x31]); (1, Some [x32]); (2, Some [x33]); (3, Some [x34]); (4, Some [x35])] /\
   values (compact_during demo_log raws) = [(0, Some [x32]); (1, Some [x33]); (2, Some [x35])]) /\
  (let p := append_raws unkeyed_log [unkeyed_raw x33; unkeyed_raw x34] in
   let p1 := (Compact (fun _ => 0) p 7).1 in
   let p2 := (Compact (fun _ => 0) p1 8).1 in
   values p1 = [(0, Some [x32]); (1, Some [x33]); (2, Some [x34])] /\
   values p2 = [(0, Some [x32]); (1, Some [x34])]).
Proof. vm_compute. repeat split; reflexivity. Qed.
