(* ===== verification/Idempotence.v ===== *)
(** * Idempotent producers (internal/storage/idempotence.go)

    Per partition the tracker keeps, for every producer id, the last sequence
    number, the offset it was given and the epoch. [ValidateAndAppend] is
    polymorphic in the log it appends to: [appendFn] is a state transformer, as
    the Go closure is. *)

From stdpp Require Import prelude list gmap strings.
From Stdlib Require Import ZArith Lia.
From S2P Require Import Prelude GoBinary Wire RecordBatch Index Segment SegmentOps Partition PartitionOps.

Record ProducerSequenceState := mkSeq {
  LastSequence : Z;   (* int32 *)
  LastOffset : Z;     (* int64 *)
  LastEpoch : Z       (* int16 *) }.

Abbreviation Tracker := (gmap Z ProducerSequenceState).

Definition ErrOutOfOrderSequence : string := "out of order sequence number".
Definition ErrEpochRegression : string := "producer epoch regression".

Section tracker.
  Context {S : Type}.

Definition ValidateAndAppend (t : Tracker) (s : S) (pid epoch seq : Z)
    (appendFn : S -> S * outcome Z) : Tracker * S * outcome Z :=
  if pid <? 0 then let '(s', o) := appendFn s in (t, s', o) else
  let append_and_store :=
    let '(s', o) := appendFn s in
    match o with
    | Ok offset => (<[pid := mkSeq seq offset epoch]> t, s', Ok offset)
    | Err e => (t, s', Err e)
    | Panic => (t, s', Panic)
    end in
  match t !! pid with
  | None => append_and_store
  | Some state =>
      if epoch <? LastEpoch state then (t, s, Err ErrEpochRegression)
      else if seq =? i32 (LastSequence state + 1) then append_and_store
      else if seq <=? LastSequence state then (t, s, Ok (LastOffset state))
      else (t, s, Err ErrOutOfOrderSequence)
  end.
End tracker.

(** [AppendIdempotentSynced] of partition.go. *)
Definition AppendIdempotentSynced (t : Tracker) (p : Partition) (pid epoch baseSeq : Z)
    (raw : list byte) (do_sync : bool) (now : Z) : Tracker * Partition * outcome Z :=
  ValidateAndAppend t p pid epoch baseSeq (fun p => AppendSynced p raw do_sync now).

Definition AppendIdempotent (t : Tracker) (p : Partition) (pid epoch baseSeq : Z)
    (raw : list byte) : Tracker * Partition * outcome Z :=
  AppendIdempotentSynced t p pid epoch baseSeq raw false 0.

(** ** Every branch of the validation *)

Section branches.
Context {S : Type} (t : Tracker) (s : S) (pid epoch seq : Z) (f : S -> S * outcome Z).

Lemma validate_stores s' off st :
  0 <= pid -> f s = (s', Ok off) -> t !! pid = Some st ->
  LastEpoch st <= epoch -> seq = i32 (LastSequence st + 1) ->
  ValidateAndAppend t s pid epoch seq f = (<[pid := mkSeq seq off epoch]> t, s', Ok off).
Proof.
  intros Hp Hf Ht He ->. unfold ValidateAndAppend.
  by rewrite (proj2 (Z.ltb_ge _ _)), Hf, Ht, (proj2 (Z.ltb_ge _ _)), Z.eqb_refl by lia.
Qed.

Lemma validate_first s' off :
  0 <= pid -> f s = (s', Ok off) -> t !! pid = None ->
  ValidateAndAppend t s pid epoch seq f = (<[pid := mkSeq seq off epoch]> t, s', Ok off).
Proof.
  intros Hp Hf Ht. unfold ValidateAndAppend. by rewrite (proj2 (Z.ltb_ge _ _)), Hf, Ht by lia.
Qed.

Lemma validate_duplicate st :
  0 <= pid -> t !! pid = Some st -> LastEpoch st <= epoch ->
  seq <= LastSequence st -> seq <> i32 (LastSequence st + 1) ->
  ValidateAndAppend t s pid epoch seq f = (t, s, Ok (LastOffset st)).
Proof.
  intros Hp Ht He Hle Hne. unfold ValidateAndAppend.
  by rewrite (proj2 (Z.ltb_ge _ _)), Ht, (proj2 (Z.ltb_ge _ _)), (proj2 (Z.eqb_neq _ _)), (proj2 (Z.leb_le _ _)) by lia.
Qed.

Lemma validate_gap st :
  0 <= pid -> t !! pid = Some st -> LastEpoch st <= epoch ->
  LastSequence st < seq -> seq <> i32 (LastSequence st + 1) ->
  ValidateAndAppend t s pid epoch seq f = (t, s, Err ErrOutOfOrderSequence).
Proof.
  intros Hp Ht He Hle Hne. unfold ValidateAndAppend.
  by rewrite (proj2 (Z.ltb_ge _ _)), Ht, (proj2 (Z.ltb_ge _ _)), (proj2 (Z.eqb_neq _ _)), (proj2 (Z.leb_gt _ _)) by lia.
Qed.

Lemma validate_fenced st :
  0 <= pid -> t !! pid = Some st -> epoch < LastEpoch st ->
  ValidateAndAppend t s pid epoch seq f = (t, s, Err ErrEpochRegression).
Proof.
  intros Hp Ht He. unfold ValidateAndAppend.
  by rewrite (proj2 (Z.ltb_ge _ _)), Ht, (proj2 (Z.ltb_lt _ _)) by lia.
Qed.
End branches.

(** A request that appended something left its numbers in the tracker. *)
Lemma validate_recorded {S} (t : Tracker) (s s1 : S) pid epoch seq f t1 off :
  0 <= pid -> s <> s1 -> ValidateAndAppend t s pid epoch seq f = (t1, s1, Ok off) ->
  t1 !! pid = Some (mkSeq seq off epoch).
Proof.
  intros Hp Hne. unfold ValidateAndAppend. rewrite (proj2 (Z.ltb_ge _ _)) by lia.
  destruct (f s) as [s' [o|e|]]; destruct (t !! pid) as [st|];
    repeat case_match; intros [= <- <- E]; try (by destruct Hne); by rewrite lookup_insert_eq, E.
Qed.

(** The retry of a produce request that was stored, with whatever payload
    and whatever became of other producers' requests in between, is answered
    with the offset of the first attempt and appends nothing. *)
Theorem retry_answered_from_state {S} (t : Tracker) (s s1 s2 : S) pid epoch seq f g t1 t2 off :
  0 <= pid -> in_i32 seq ->
  ValidateAndAppend t s pid epoch seq f = (t1, s1, Ok off) -> s <> s1 ->
  t2 !! pid = t1 !! pid ->
  ValidateAndAppend t2 s2 pid epoch seq g = (t2, s2, Ok off).
Proof.
  intros Hp Hs Hfirst Hne Hother. apply validate_recorded in Hfirst; [|done..].
  rewrite Hfirst in Hother. rewrite (validate_duplicate _ _ _ _ _ _ _ Hp Hother); cbn; try done; try lia.
  by apply i32_succ_ne.
Qed.

(** ** A log of what was appended *)

Record entry := mkAppended { ap_pid : Z; ap_epoch : Z; ap_seq : Z; ap_off : Z }.

(** One produce request: the append it would run either stores the batch at an
    offset of the log's choosing or fails. *)
Record request := mkReq { rq_pid : Z; rq_epoch : Z; rq_seq : Z; rq_append : outcome Z }.

Definition log_append (r : request) (log : list entry) : list entry * outcome Z :=
  match rq_append r with
  | Ok off => (log ++ [mkAppended (rq_pid r) (rq_epoch r) (rq_seq r) off], Ok off)
  | o => (log, o)
  end.

Definition serve (st : Tracker * list entry) (r : request) : Tracker * list entry :=
  fst (ValidateAndAppend (fst st) (snd st) (rq_pid r) (rq_epoch r) (rq_seq r) (log_append r)).

Definition serve_all (rs : list request) : Tracker * list entry := foldl serve (∅, []) rs.

(** The producer's own part of the log. *)
Definition appended_by (pid : Z) (log : list entry) : list entry :=
  List.filter (fun e => ap_pid e =? pid) log.

(** Each next sequence number is the successor of the one before and the
    epochs do not go down. *)
Fixpoint in_order (log : list entry) : Prop :=
  match log with
  | e :: (e' :: _) as r => ap_seq e' = i32 (ap_seq e + 1) /\ ap_epoch e <= ap_epoch e' /\ in_order r
  | _ => True
  end.

Lemma in_order_snoc log e x :
  in_order (log ++ [e]) -> ap_seq x = i32 (ap_seq e + 1) -> ap_epoch e <= ap_epoch x ->
  in_order ((log ++ [e]) ++ [x]).
Proof.
  induction log as [|a [|b log] IH]; [by cbn|by cbn; intuition|].
  intros (H1 & H2 & H3) Hs He. cbn. split_and!; [done|done|]. by apply IH.
Qed.

(** What the tracker knows of a log. *)
Definition tracked (t : Tracker) (log : list entry) : Prop :=
  forall pid, 0 <= pid ->
    in_order (appended_by pid log) /\
    t !! pid = (fun e => mkSeq (ap_seq e) (ap_off e) (ap_epoch e)) <$> last (appended_by pid log).

Lemma appended_by_snoc pid log e :
  appended_by pid (log ++ [e])
  = appended_by pid log ++ (if ap_pid e =? pid then [e] else []).
Proof. unfold appended_by. rewrite List.filter_app. cbn. by destruct (ap_pid e =? pid). Qed.

(** Storing the successor (or the first batch) of a producer. *)
Lemma tracked_store t log pid epoch seq off :
  tracked t log -> 0 <= pid ->
  (forall e, last (appended_by pid log) = Some e -> seq = i32 (ap_seq e + 1) /\ ap_epoch e <= epoch) ->
  tracked (<[pid := mkSeq seq off epoch]> t) (log ++ [mkAppended pid epoch seq off]).
Proof.
  intros Ht Hp Hnext q Hq. destruct (Ht q Hq) as [Ho Hl]. rewrite appended_by_snoc. cbn [ap_pid].
  destruct (Z.eqb_spec pid q) as [<-|Hne].
  - rewrite lookup_insert_eq, last_snoc. split; [|done].
    destruct (appended_by pid log) as [|e l _] eqn:E using rev_ind; [done|].
    rewrite last_snoc in Hnext. destruct (Hnext e eq_refl). by apply in_order_snoc.
  - rewrite lookup_insert_ne, app_nil_r by done. done.
Qed.

Lemma tracked_anonymous t log e :
  tracked t log -> ap_pid e < 0 -> tracked t (log ++ [e]).
Proof.
  intros Ht Hp q Hq. rewrite appended_by_snoc. rewrite (proj2 (Z.eqb_neq _ _)) by lia.
  rewrite app_nil_r. by apply Ht.
Qed.

Lemma serve_tracked t log r :
  tracked t log -> tracked (fst (serve (t, log) r)) (snd (serve (t, log) r)).
Proof.
  intros Ht. unfold serve, ValidateAndAppend. cbn [fst snd].
  destruct (Z.ltb_spec (rq_pid r) 0) as [Hneg|Hpos].
  { unfold log_append. destruct (rq_append r); cbn; try done. by apply tracked_anonymous. }
  pose proof (Ht _ Hpos) as [_ Hl].
  destruct (last (appended_by (rq_pid r) log)) as [e|] eqn:El; cbn in Hl; rewrite Hl.
  - cbn [LastEpoch LastSequence]. destruct (Z.ltb_spec (rq_epoch r) (ap_epoch e)); [done|].
    destruct (Z.eqb_spec (rq_seq r) (i32 (ap_seq e + 1))); [|by case_match].
    unfold log_append. destruct (rq_append r); cbn; try done.
    apply tracked_store; [done|done|]. intros e' He'. by simplify_eq.
  - unfold log_append. destruct (rq_append r); cbn; try done.
    apply tracked_store; [done|done|]. intros e' He'. by simplify_eq.
Qed.

Lemma serve_all_tracked rs : tracked (fst (serve_all rs)) (snd (serve_all rs)).
Proof.
  assert (forall st, tracked (fst st) (snd st) ->
            tracked (fst (foldl serve st rs)) (snd (foldl serve st rs))) as H; [|by apply H].
  induction rs as [|r rs IH]; intros [t log] Ht; [done|]. cbn [foldl].
  apply IH. by apply serve_tracked.
Qed.

(** Whatever requests arrive, from however many producers, repeated or
    reordered, with failing appends in between: the batches a producer id got
    into the log carry consecutive sequence numbers (no repetition, no gap) in
    order, under epochs that never go down. *)
Theorem idempotent_log_in_order rs pid :
  0 <= pid -> in_order (appended_by pid (snd (serve_all rs))).
Proof.
  intros Hp. by apply serve_all_tracked.
Qed.

(** The answer a producer gets for a sequence number it sent before: for
    its latest batch the offset that batch has; for any earlier one the offset
    of the latest batch too, since only that offset is kept. *)
Theorem duplicate_gets_latest_offset rs pid epoch seq e f :
  0 <= pid -> last (appended_by pid (snd (serve_all rs))) = Some e ->
  ap_epoch e <= epoch -> seq <= ap_seq e -> seq <> i32 (ap_seq e + 1) ->
  ValidateAndAppend (fst (serve_all rs)) (snd (serve_all rs)) pid epoch seq f
  = (serve_all rs, Ok (ap_off e)).
Proof.
  intros Hp He Hep Hle Hne. destruct (serve_all_tracked rs pid Hp) as [_ Ht]. rewrite He in Ht.
  rewrite (validate_duplicate _ _ _ _ _ _ _ Hp Ht) by done. by destruct (serve_all rs).
Qed.

(** The tracker stores a batch's base sequence as the last one, so the
    batch a client sends after one of [n >= 2] records, which continues at
    [base + n], is refused as out of order and not appended. *)
Theorem batch_after_multi_record_refused {S} (t : Tracker) (s : S) pid epoch seq n f g t1 s1 off :
  0 <= pid -> 0 <= seq -> 2 <= n -> seq + n < 2147483648 -> s <> s1 ->
  ValidateAndAppend t s pid epoch seq f = (t1, s1, Ok off) ->
  ValidateAndAppend t1 s1 pid epoch (seq + n) g = (t1, s1, Err ErrOutOfOrderSequence).
Proof.
  intros Hp Hs Hn Hlt Hne Hfirst. apply validate_recorded in Hfirst; [|done..].
  eapply validate_gap; [done|done|cbn; lia..|]. cbn. rewrite i32_id by mlia. lia.
Qed.

(** A producer that comes back under a new epoch starts again at sequence
    0; the tracker takes its batches for repetitions of the old ones: they are
    acknowledged with an old offset and never appended, until the sequence
    numbers pass the old ones. *)
Theorem new_epoch_restart_not_stored {S} (t : Tracker) (s s2 : S) pid epoch seq seq' f g t1 s1 off :
  0 <= pid -> 0 <= seq' <= seq -> seq < 2147483647 -> s <> s1 ->
  ValidateAndAppend t s pid epoch seq f = (t1, s1, Ok off) ->
  ValidateAndAppend t1 s2 pid (epoch + 1) seq' g = (t1, s2, Ok off).
Proof.
  intros Hp Hle Hs Hne Hfirst. apply validate_recorded in Hfirst; [|done..].
  rewrite (validate_duplicate _ _ _ _ _ _ _ Hp Hfirst); cbn; try done; try lia.
  rewrite i32_id by mlia. lia.
Qed.

(** ** Worked examples *)

Definition demo_requests : list request :=
  [mkReq 7 0 0 (Ok 10); mkReq 7 0 0 (Ok 11); mkReq 8 0 5 (Ok 11); mkReq 7 0 1 (Err "disk full");
   mkReq 7 0 2 (Ok 12); mkReq 7 0 1 (Ok 12); mkReq (-1) (-1) (-1) (Ok 13); mkReq 7 0 0 (Ok 14)].

Example demo_requests_log :
  snd (serve_all demo_requests)
  = [mkAppended 7 0 0 10; mkAppended 8 0 5 11; mkAppended 7 0 1 12; mkAppended (-1) (-1) (-1) 13].
Proof. vm_compute. reflexivity. Qed.

Lemma idempotent_log_in_order_witness :
  in_order (appended_by 7 (snd (serve_all demo_requests))).
Proof. apply (idempotent_log_in_order demo_requests 7). lia. Defined.

Lemma duplicate_gets_latest_offset_witness :
  ValidateAndAppend (fst (serve_all demo_requests)) (snd (serve_all demo_requests)) 7 0 0
    (log_append (mkReq 7 0 0 (Ok 15)))
  = (serve_all demo_requests, Ok 12).
Proof.
  apply (duplicate_gets_latest_offset demo_requests 7 0 0 (mkAppended 7 0 1 12));
    [lia|vm_compute; reflexivity|cbn; lia..|discriminate].
Defined.

(** A first batch of a new producer on the demo partition. *)
Definition demo_fn (p : Partition) : Partition * outcome Z := AppendSynced p demo_raw false 0.
Definition demo_t : Tracker := {[ 7 := mkSeq 0 6 0 ]}.
Definition demo_p : Partition := fst (Append demo_partition demo_raw).

Lemma demo_first_appends : demo_partition <> demo_p.
Proof. intros E%(f_equal pt_nextOffset). vm_compute in E. discriminate E. Qed.

Lemma demo_first_ok : ValidateAndAppend ∅ demo_partition 7 0 0 demo_fn = (demo_t, demo_p, Ok 6).
Proof. vm_compute. reflexivity. Qed.

Lemma retry_answered_from_state_witness :
  ValidateAndAppend demo_t demo_p 7 0 0 demo_fn = (demo_t, demo_p, Ok 6).
Proof.
  refine (retry_answered_from_state ∅ demo_partition demo_p demo_p 7 0 0 demo_fn demo_fn
            demo_t demo_t 6 _ _ demo_first_ok demo_first_appends eq_refl); [lia|mlia].
Defined.

Lemma batch_after_multi_record_refused_witness :
  ValidateAndAppend demo_t demo_p 7 0 (0 + 2) demo_fn
  = (demo_t, demo_p, Err ErrOutOfOrderSequence).
Proof.
  refine (batch_after_multi_record_refused ∅ demo_partition 7 0 0 2 demo_fn demo_fn
            demo_t demo_p 6 _ _ _ _ demo_first_appends demo_first_ok); lia.
Defined.

Lemma new_epoch_restart_not_stored_witness :
  ValidateAndAppend demo_t demo_p 7 (0 + 1) 0 demo_fn = (demo_t, demo_p, Ok 6).
Proof.
  refine (new_epoch_restart_not_stored ∅ demo_partition demo_p 7 0 0 0 demo_fn demo_fn
            demo_t demo_p 6 _ _ _ demo_first_appends demo_first_ok); lia.
Defined.
