(* ===== verification/Store.v ===== *)
(** * The topic store (internal/storage/store.go, manifest.go)

    Topics by name, each with its partitions by number. What the disk holds
    under a partition's directory is an argument of the operations that open
    one; the manifest file is the list of names it encodes as JSON. A partition
    here is its log and its idempotence tracker, which the source keeps in one
    struct. *)

From stdpp Require Import prelude list gmap strings sorting.
From Stdlib Require Import ZArith Lia.
From S2P Require Import Prelude GoStrings GoBinary Wire RecordBatch Index Segment SegmentOps Partition PartitionOps Compaction Idempotence.

Record PartitionState := mkPS { ps_log : Partition; ps_idempotence : Tracker }.

Record Topic := mkTopic { t_Name : gostring; t_Partitions : gmap Z PartitionState }.

Record Store := mkTopicStore {
  st_topics : gmap gostring Topic;
  st_compacted : gset gostring;
  st_maxSegmentBytes : Z;
  st_indexInterval : Z;
  st_manifest : option (list gostring) }.

(** A partition's directory, as in Compaction.v. *)
Abbreviation partition_dir := partDir.

Definition empty_dir : partition_dir := mkPartDir ∅ None.

Definition with_topics (s : Store) (topics : gmap gostring Topic) : Store :=
  mkTopicStore topics (st_compacted s) (st_maxSegmentBytes s) (st_indexInterval s) (st_manifest s).

(** [OpenPartition] of partition.go: a compaction a crash interrupted is finished
    first. *)
Definition OpenPartition (d : partition_dir) (maxSegmentBytes indexInterval : Z)
  : outcome PartitionState :=
  let? p := open_dir d (mkPartition [] None 0 0 maxSegmentBytes indexInterval 0 0) in
  Ok (mkPS p ∅).

(** ** Starting up *)

(** The subdirectories of one topic whose names are 32-bit numbers. *)
Fixpoint open_partitions (s : Store) (dirs : list (Z * partition_dir))
    (acc : gmap Z PartitionState) : outcome (gmap Z PartitionState) :=
  match dirs with
  | [] => Ok acc
  | (pid, d) :: r =>
      let? p := OpenPartition d (st_maxSegmentBytes s) (st_indexInterval s) in
      open_partitions s r (<[pid := p]> acc)
  end.

(** [Store.recover]; a directory without partitions is not a topic. *)
Fixpoint recover_store (s : Store) (entries : list (gostring * list (Z * partition_dir)))
  : outcome Store :=
  match entries with
  | [] => Ok s
  | (name, dirs) :: r =>
      let? ps := open_partitions s dirs ∅ in
      recover_store (if bool_decide (ps = ∅) then s
                     else with_topics s (<[name := mkTopic name ps]> (st_topics s))) r
  end.

Definition loadManifest (s : Store) : Store :=
  match st_manifest s with
  | None => s
  | Some names => mkTopicStore (st_topics s) (list_to_set names ∪ st_compacted s)
                    (st_maxSegmentBytes s) (st_indexInterval s) (st_manifest s)
  end.

Definition NewStore (entries : list (gostring * list (Z * partition_dir)))
    (manifest : option (list gostring)) (maxSegmentBytes indexInterval : Z) : outcome Store :=
  let? s := recover_store (mkTopicStore ∅ ∅ maxSegmentBytes indexInterval manifest) entries in
  Ok (loadManifest s).

(** ** Names *)

Definition forbidden (c : byte) : bool :=
  let c := b2z c in
  (c =? 47) || (c =? 92) || (c =? 58) || (c =? 32) || (c <? 32) || (c =? 127).

(** The source ranges over runes; a byte below 128 is always a rune of its own
    and the forbidden ones are all below 128. *)
Definition ValidateTopicName (name : gostring) : outcome unit :=
  if bool_decide (name = []) then Err "topic name is empty" else
  if bool_decide (name = [x2e]) || bool_decide (name = [x2e; x2e]) then Err "invalid topic name" else
  if 249 <? zlen name then Err "topic name too long" else
  if existsb forbidden name then Err "invalid character in topic name" else Ok tt.

(** ** Creating and deleting *)

(** The loop of [createLocked]: partitions [i], [i+1], ... *)
Fixpoint create_partitions (s : Store) (disk : Z -> partition_dir) (n : nat) (i : Z)
    (acc : gmap Z PartitionState) : outcome (gmap Z PartitionState) :=
  match n with
  | O => Ok acc
  | S k =>
      let? p := OpenPartition (disk (i32 i)) (st_maxSegmentBytes s) (st_indexInterval s) in
      create_partitions s disk k (i + 1) (<[i32 i := p]> acc)
  end.

Definition createLocked (s : Store) (disk : Z -> partition_dir) (name : gostring) (partitions : Z)
  : Store * outcome bool :=
  match create_partitions s disk (Z.to_nat partitions) 0 ∅ with
  | Ok ps => (with_topics s (<[name := mkTopic name ps]> (st_topics s)), Ok true)
  | Err e => (s, Err e)
  | Panic => (s, Panic)
  end.

(** The boolean says whether the topic was created. *)
Definition EnsureTopic (s : Store) (disk : Z -> partition_dir) (name : gostring) (partitions : Z)
  : Store * outcome bool :=
  match ValidateTopicName name with
  | Ok _ =>
      let partitions := if partitions <=? 0 then 1 else partitions in
      match st_topics s !! name with
      | Some _ => (s, Ok false)
      | None => createLocked s disk name partitions
      end
  | Err e => (s, Err e)
  | Panic => (s, Panic)
  end.

Definition CreateTopic (s : Store) (disk : Z -> partition_dir) (name : gostring) (partitions : Z)
  : Store * outcome bool :=
  match ValidateTopicName name with
  | Ok _ =>
      match st_topics s !! name with
      | Some _ => (s, Err "topic already exists")
      | None => createLocked s disk name (if partitions <=? 0 then 1 else partitions)
      end
  | Err e => (s, Err e)
  | Panic => (s, Panic)
  end.

Definition DeleteTopic (s : Store) (name : gostring) : Store * outcome unit :=
  match st_topics s !! name with
  | None => (s, Err "unknown topic")
  | Some _ => (with_topics s (delete name (st_topics s)), Ok tt)
  end.

(** ** Looking up *)

Definition GetTopic (s : Store) (name : gostring) : option Topic := st_topics s !! name.

Definition GetPartition (s : Store) (topic : gostring) (partition : Z) : option PartitionState :=
  t ← st_topics s !! topic; t_Partitions t !! partition.

Definition TopicNames (s : Store) : list gostring :=
  merge_sort (fun a b => Is_true (string_le a b)) (map_to_list (st_topics s)).*1.

(** A partition's new state, put back where it came from. *)
Definition put_partition (s : Store) (topic : gostring) (partition : Z) (ps : PartitionState) : Store :=
  match st_topics s !! topic with
  | None => s
  | Some t =>
      with_topics s (<[topic := mkTopic (t_Name t) (<[partition := ps]> (t_Partitions t))]> (st_topics s))
  end.

Definition SyncAll (s : Store) (now : Z) : Store :=
  with_topics s ((fun t => mkTopic (t_Name t)
    ((fun ps => mkPS (Sync (ps_log ps) now) (ps_idempotence ps)) <$> t_Partitions t)) <$> st_topics s).

(** ** Compacted topics *)

Definition IsCompacted (s : Store) (topic : gostring) : bool := bool_decide (topic ∈ st_compacted s).

Definition saveManifest (s : Store) : Store :=
  mkTopicStore (st_topics s) (st_compacted s) (st_maxSegmentBytes s) (st_indexInterval s)
    (Some (elements (st_compacted s))).

Definition MarkCompacted (s : Store) (topic : gostring) (compact : bool) : Store :=
  saveManifest
    (mkTopicStore (st_topics s)
       (if compact then {[topic]} ∪ st_compacted s else st_compacted s ∖ {[topic]})
       (st_maxSegmentBytes s) (st_indexInterval s) (st_manifest s)).

(** [CompactNow] compacts the partitions of a topic one after the other in the
    order [pids] the map gives them, and stops at the first error; partitions are
    compacted at the times [clock] gives. The idempotence trackers stay. *)
Fixpoint compact_partitions (clock : Z -> Z) (now : Z) (ps : gmap Z PartitionState) (pids : list Z)
  : gmap Z PartitionState * outcome unit :=
  match pids with
  | [] => (ps, Ok tt)
  | pid :: r =>
      match ps !! pid with
      | None => compact_partitions clock now ps r
      | Some q =>
          let '(log, o) := Compact clock (ps_log q) now in
          let ps := <[pid := mkPS log (ps_idempotence q)]> ps in
          match o with
          | Ok _ => compact_partitions clock now ps r
          | e => (ps, e)
          end
      end
  end.

Definition CompactNow (clock : Z -> Z) (now : Z) (s : Store) (topic : gostring) (pids : list Z)
  : Store * outcome unit :=
  match GetTopic s topic with
  | None => (s, Err "unknown topic")
  | Some t =>
      let '(ps, o) := compact_partitions clock now (t_Partitions t) pids in
      (with_topics s (<[topic := mkTopic (t_Name t) ps]> (st_topics s)), o)
  end.

(** One round of the background compaction: every partition of every compacted
    topic; errors are only printed, a panic ends the process. *)
Definition compaction_panics (clock : Z -> Z) (now : Z) (s : Store) (t : Topic) : bool :=
  IsCompacted s (t_Name t) &&
  existsb (fun q => match (Compact clock (ps_log q.2) now).2 with Panic => true | _ => false end)
    (map_to_list (t_Partitions t)).

Definition runCompaction (clock : Z -> Z) (now : Z) (s : Store) : outcome Store :=
  if existsb (fun t => compaction_panics clock now s t.2) (map_to_list (st_topics s)) then Panic else
  Ok (with_topics s
    ((fun t => if IsCompacted s (t_Name t)
               then mkTopic (t_Name t)
                      ((fun q => mkPS (Compact clock (ps_log q) now).1 (ps_idempotence q)) <$> t_Partitions t)
               else t) <$> st_topics s)).

(** ** A new partition *)

Definition fresh_partition (maxSegmentBytes indexInterval : Z) : PartitionState :=
  mkPS (mkPartition [] (Some (fresh 0 maxSegmentBytes indexInterval)) 0 0 maxSegmentBytes
          indexInterval 0 0) ∅.

Lemma OpenPartition_empty mx iv : OpenPartition empty_dir mx iv = Ok (fresh_partition mx iv).
Proof. reflexivity. Qed.

Lemma fresh_partition_inv mx iv : 0 < mx -> pt_inv (ps_log (fresh_partition mx iv)) [[]].
Proof.
  intros Hm. split; cbn; [|done|done|constructor| |done].
  - split_and!; [apply fresh_inv; lia|done|done|done].
  - constructor; [done|constructor].
Qed.

Lemma create_partitions_spec s disk n i acc :
  (forall k, disk k = empty_dir) -> 0 <= i -> i + Z.of_nat n <= 2147483648 ->
  exists m, create_partitions s disk n i acc = Ok m /\
    forall k, m !! k = if (i <=? k) && (k <? i + Z.of_nat n)
                       then Some (fresh_partition (st_maxSegmentBytes s) (st_indexInterval s))
                       else acc !! k.
Proof.
  intros Hd. revert i acc. induction n as [|n IH]; intros i acc Hi Hn; cbn [create_partitions].
  { exists acc. split; [done|]. intros k.
    destruct (_ && _) eqn:E; [|done]. apply andb_true_iff in E as [?%Z.leb_le ?%Z.ltb_lt]. lia. }
  rewrite i32_id, Hd, OpenPartition_empty by mlia. cbn [obind].
  destruct (IH (i + 1) (<[i := fresh_partition (st_maxSegmentBytes s) (st_indexInterval s)]> acc))
    as (m & -> & Hm); [lia|lia|].
  exists m. split; [done|]. intros k. rewrite Hm.
  destruct (decide (k = i)) as [->|Hk].
  - rewrite lookup_insert_eq, (proj2 (Z.leb_gt _ _)), Z.leb_refl by lia. cbn [andb].
    by rewrite (proj2 (Z.ltb_lt _ _)) by lia.
  - rewrite lookup_insert_ne by done.
    replace (i + 1 + Z.of_nat n) with (i + Z.of_nat (S n)) by lia.
    replace (i + 1 <=? k) with (i <=? k); [done|].
    destruct (Z.leb_spec i k), (Z.leb_spec (i + 1) k); lia || done.
Qed.

Lemma createLocked_spec s disk name n :
  (forall k, disk k = empty_dir) -> 0 <= n <= 2147483648 ->
  exists ps, createLocked s disk name n
             = (with_topics s (<[name := mkTopic name ps]> (st_topics s)), Ok true) /\
    forall k, ps !! k = if (0 <=? k) && (k <? n)
                        then Some (fresh_partition (st_maxSegmentBytes s) (st_indexInterval s))
                        else None.
Proof.
  intros Hd Hn. unfold createLocked.
  destruct (create_partitions_spec s disk (Z.to_nat n) 0 ∅ Hd) as (m & -> & Hm); [lia|lia|].
  exists m. split; [done|]. intros k. rewrite Hm, lookup_empty. by rewrite Z2Nat.id by lia.
Qed.

(** The life of a topic. Creating a topic with a valid, unused name gives it
    exactly the partitions 0 .. n-1 (one if n is not positive), each an empty log
    that starts at offset 0, and leaves every other topic as it was. From then on
    a second creation is refused and ensuring the topic changes nothing, until a
    deletion gives the old store back. *)
Theorem topic_lifecycle s disk name n :
  ValidateTopicName name = Ok tt -> st_topics s !! name = None ->
  (forall k, disk k = empty_dir) -> n <= 2147483648 -> 0 < st_maxSegmentBytes s ->
  exists s' p, CreateTopic s disk name n = (s', Ok true) /\
    EnsureTopic s disk name n = (s', Ok true) /\
    pt_inv (ps_log p) [[]] /\ pt_nextOffset (ps_log p) = 0 /\ ps_idempotence p = ∅ /\
    (forall k, GetPartition s' name k
               = if (0 <=? k) && (k <? Z.max 1 n) then Some p else None) /\
    (forall other, other <> name -> GetTopic s' other = GetTopic s other) /\
    (forall disk' n', CreateTopic s' disk' name n' = (s', Err "topic already exists") /\
                      EnsureTopic s' disk' name n' = (s', Ok false)) /\
    DeleteTopic s' name = (s, Ok tt).
Proof.
  intros Hv Hn Hd Hb Hm. unfold CreateTopic, EnsureTopic. rewrite Hv, Hn.
  replace (if n <=? 0 then 1 else n) with (Z.max 1 n) by (destruct (Z.leb_spec n 0); lia).
  destruct (createLocked_spec s disk name (Z.max 1 n) Hd) as (ps & -> & Hps); [lia|].
  set (s' := with_topics s _). exists s', (fresh_partition (st_maxSegmentBytes s) (st_indexInterval s)).
  assert (st_topics s' !! name = Some (mkTopic name ps)) as Hs' by apply lookup_insert_eq.
  split_and!; try done.
  - by apply fresh_partition_inv.
  - intros k. unfold GetPartition. rewrite Hs'. apply Hps.
  - intros other Ho. by apply lookup_insert_ne.
  - intros disk' n'. by rewrite Hs'.
  - unfold DeleteTopic. rewrite Hs'. f_equal. unfold with_topics, s'. cbn.
    rewrite delete_insert_id by done. by destruct s.
Qed.

Definition demo_store : Store := mkTopicStore ∅ ∅ 1048576 4096 None.

Lemma topic_lifecycle_witness :
  exists s' p, CreateTopic demo_store (fun _ => empty_dir) (str "orders") 3 = (s', Ok true) /\
    EnsureTopic demo_store (fun _ => empty_dir) (str "orders") 3 = (s', Ok true) /\
    pt_inv (ps_log p) [[]] /\ pt_nextOffset (ps_log p) = 0 /\ ps_idempotence p = ∅ /\
    (forall k, GetPartition s' (str "orders") k
               = if (0 <=? k) && (k <? Z.max 1 3) then Some p else None) /\
    (forall other, other <> str "orders" -> GetTopic s' other = GetTopic demo_store other) /\
    (forall disk' n', CreateTopic s' disk' (str "orders") n' = (s', Err "topic already exists") /\
                      EnsureTopic s' disk' (str "orders") n' = (s', Ok false)) /\
    DeleteTopic s' (str "orders") = (demo_store, Ok tt).
Proof.
  apply (topic_lifecycle demo_store (fun _ => empty_dir) (str "orders") 3);
    [vm_compute; reflexivity|vm_compute; reflexivity|reflexivity|lia|reflexivity].
Defined.
