(* ===== verification/Authz.v ===== *)
(** * Authorization (internal/authz/types.go, store.go)

    The interface [Authorizer], its three implementations, and the rule store:
    rules are kept in the order they came in, a decision looks at all of them.
    The rules file is the list of rules it encodes as JSON. *)

From stdpp Require Import prelude list gmap strings.
From Stdlib Require Import ZArith Lia.
From S2P Require Import Prelude GoStrings Wire.

(** ** Operations and resources (types.go) *)

Definition wildcard : gostring := str "*".

Definition OpDescribe : gostring := str "Describe".
Definition OpRead : gostring := str "Read".
Definition OpWrite : gostring := str "Write".
Definition OpAdmin : gostring := str "Admin".
Definition OpControl : gostring := str "Control".

Definition KnownOperations : list gostring := [OpDescribe; OpRead; OpWrite; OpAdmin; OpControl].

(** The table of [impliedOperations] for a name in its canonical spelling. *)
Definition implied_by (name : gostring) (names : list gostring) : option (list gostring) :=
  match names with
  | [admin; control; write; read; describe] =>
      if bool_decide (name = admin) then Some [OpAdmin; OpRead; OpWrite; OpDescribe; OpControl]
      else if bool_decide (name = control) then Some [OpControl; OpDescribe]
      else if bool_decide (name = write) then Some [OpWrite; OpDescribe]
      else if bool_decide (name = read) then Some [OpRead; OpDescribe]
      else if bool_decide (name = describe) then Some [OpDescribe]
      else None
  | _ => None
  end.

(** First the exact names, then the lower-case ones. *)
Definition impliedOperations (granted : gostring) : list gostring :=
  match implied_by granted [OpAdmin; OpControl; OpWrite; OpRead; OpDescribe] with
  | Some ops => ops
  | None =>
      default [granted]
        (implied_by (ToLower granted)
           [str "admin"; str "control"; str "write"; str "read"; str "describe"])
  end.

Definition KnownOperationsSet (s : gostring) : bool :=
  bool_decide (s = wildcard) || existsb (fun op => bool_decide (op = s)) KnownOperations.

Record Resource := mkResource { res_Type : gostring; res_Name : gostring }.

Definition ResourceTopic : gostring := str "topic".
Definition ResourceGroup : gostring := str "group".
Definition ResourceCluster : gostring := str "cluster".
Definition ResourceFleetServer : gostring := str "fleet_server".
Definition ResourceFleetContainer : gostring := str "fleet_container".
Definition ResourceFleetJob : gostring := str "fleet_job".
Definition ResourceFleetAudit : gostring := str "fleet_audit".

Definition resource_types : list gostring :=
  [ResourceTopic; ResourceGroup; ResourceCluster; ResourceFleetServer; ResourceFleetContainer;
   ResourceFleetJob; ResourceFleetAudit].

Definition KnownResourceType (t : gostring) : bool :=
  bool_decide (ToLower (TrimSpace t) ∈ wildcard :: resource_types).

Definition AnonymPrincipal : gostring := str "anonymous".

Definition denied : error := "authorization denied".

(** ** The interface and the two stateless implementations *)

Class Authorizer (A : Type) := Authorize : A -> gostring -> gostring -> Resource -> outcome unit.

Inductive AllowAllAuthorizer := AllowAll.

#[export] Instance AllowAll_Authorize : Authorizer AllowAllAuthorizer := fun _ _ _ _ => Ok tt.

Record SuperUserAuthorizer (A : Type) := mkSuperUser { su_Inner : A; su_Users : gset gostring }.
Arguments mkSuperUser {A}.
Arguments su_Inner {A}.
Arguments su_Users {A}.

(** [NewSuperUserAuthorizer]: without names the inner authorizer itself. *)
Definition super_users (users : list gostring) : gset gostring :=
  list_to_set (List.filter (fun u => negb (bool_decide (u = []))) (map TrimSpace users)).

Definition NewSuperUserAuthorizer {A} (inner : A) (users : list gostring) : A + SuperUserAuthorizer A :=
  if bool_decide (super_users users = ∅) then inl inner else inr (mkSuperUser inner (super_users users)).

#[export] Instance SuperUser_Authorize `{Authorizer A} : Authorizer (SuperUserAuthorizer A) :=
  fun s principal op res =>
    if negb (bool_decide (principal = [])) && bool_decide (principal ∈ su_Users s) then Ok tt
    else Authorize (su_Inner s) principal op res.

#[export] Instance sum_Authorize `{Authorizer A, Authorizer B} : Authorizer (A + B) :=
  fun s => match s with inl a => Authorize a | inr b => Authorize b end.

(** ** The rule store (store.go) *)

Record Rule := mkRule {
  ru_Principal : gostring; ru_ResourceType : gostring; ru_ResourceName : gostring;
  ru_Operations : list gostring }.

#[export] Instance Rule_eq_dec : EqDecision Rule.
Proof. solve_decision. Defined.

Record RuleStore := mkRules {
  rs_rules : list Rule;
  rs_file : option (list Rule);      (* None: no path, nothing is written *)
  rs_allowWildcardAdmin : bool }.

Definition containsOperation (ops : list gostring) (op : gostring) : bool :=
  existsb (fun o => bool_decide (o = wildcard) ||
                    existsb (fun granted => EqualFold granted op) (impliedOperations o)) ops.

Definition grantsWildcardAdmin (r : Rule) : bool :=
  bool_decide (ru_Principal r = wildcard) && containsOperation (ru_Operations r) OpAdmin.

Definition WildcardAdminRules (s : RuleStore) : list Rule :=
  List.filter grantsWildcardAdmin (rs_rules s).

Definition SetAllowWildcardAdmin (s : RuleStore) (allow : bool) : RuleStore :=
  mkRules (rs_rules s) (rs_file s) allow.

(** [NewStore]: [None] without a path, [Some None] for a missing or empty
    file. *)
Definition NewRuleStore (file : option (option (list Rule))) : RuleStore :=
  match file with
  | None => mkRules [] None false
  | Some rules => mkRules (default [] rules) (Some (default [] rules)) false
  end.

Definition persist (s : RuleStore) : RuleStore :=
  mkRules (rs_rules s) ((fun _ => rs_rules s) <$> rs_file s) (rs_allowWildcardAdmin s).

Definition with_rules (s : RuleStore) (rules : list Rule) : RuleStore :=
  mkRules rules (rs_file s) (rs_allowWildcardAdmin s).

Definition ValidateRule (r : Rule) : outcome unit :=
  if bool_decide (TrimSpace (ru_Principal r) = []) then Err "authz: rule principal must not be empty"
  else
    let rt := TrimSpace (ru_ResourceType r) in
    if negb (bool_decide (rt = [])) && negb (KnownResourceType (ToLower rt))
    then Err "authz: unknown resource type"
    else if existsb (fun op => negb (KnownOperationsSet (TrimSpace op))) (ru_Operations r)
    then Err "authz: unknown operation"
    else Ok tt.

Definition sameKey (a b : Rule) : bool :=
  bool_decide (ru_Principal a = ru_Principal b) &&
  bool_decide (ru_ResourceType a = ru_ResourceType b) &&
  bool_decide (ru_ResourceName a = ru_ResourceName b).

Definition normalizeResourceType (t : gostring) : outcome gostring :=
  let t := ToLower (TrimSpace t) in
  if bool_decide (t ∈ resource_types) then Ok t
  else if bool_decide (t = wildcard) || bool_decide (t = []) then Ok wildcard
  else Err "authz: unknown resource type".

Definition default_name (name : gostring) : gostring :=
  if bool_decide (TrimSpace name = []) then wildcard else name.

(** The first rule with the same key is replaced, else the rule is added. *)
Fixpoint put_rule (r : Rule) (rules : list Rule) : list Rule :=
  match rules with
  | [] => [r]
  | q :: qs => if sameKey q r then r :: qs else q :: put_rule r qs
  end.

Definition Upsert (s : RuleStore) (r : Rule) : RuleStore * outcome unit :=
  match ValidateRule r with
  | Ok _ =>
      if grantsWildcardAdmin r && negb (rs_allowWildcardAdmin s)
      then (s, Err "authz: a rule granting Admin would let every identity administer the cluster")
      else
        let r := mkRule (ru_Principal r) (ru_ResourceType r) (default_name (ru_ResourceName r))
                   (ru_Operations r) in
        (persist (with_rules s (put_rule r (rs_rules s))), Ok tt)
  | Err e => (s, Err e)
  | Panic => (s, Panic)
  end.

Definition has_key (principal resourceType resourceName : gostring) (r : Rule) : bool :=
  bool_decide (ru_Principal r = principal) && bool_decide (ru_ResourceType r = resourceType) &&
  bool_decide (ru_ResourceName r = resourceName).

Definition Delete (s : RuleStore) (principal resourceType resourceName : gostring)
  : RuleStore * outcome unit :=
  match normalizeResourceType resourceType with
  | Ok rt =>
      (persist (with_rules s (List.filter (fun r => negb (has_key principal rt resourceName r))
                                (rs_rules s))), Ok tt)
  | Err e => (s, Err e)
  | Panic => (s, Panic)
  end.

Fixpoint replace_rules (allowWildcard : bool) (rules : list Rule) : outcome (list Rule) :=
  match rules with
  | [] => Ok []
  | r :: rs =>
      let? _ := ValidateRule r in
      if bool_decide (ru_Principal r = wildcard) && negb allowWildcard
         && containsOperation (ru_Operations r) OpAdmin
      then Err "authz: rule for principal grants Admin" else
      let? rt := normalizeResourceType (ru_ResourceType r) in
      let? rest := replace_rules allowWildcard rs in
      Ok (mkRule (ru_Principal r) rt (default_name (ru_ResourceName r)) (ru_Operations r) :: rest)
  end.

Definition Replace (s : RuleStore) (rules : list Rule) : RuleStore * outcome unit :=
  match replace_rules (rs_allowWildcardAdmin s) rules with
  | Ok rules => (persist (with_rules s rules), Ok tt)
  | Err e => (s, Err e)
  | Panic => (s, Panic)
  end.

(** ** The decision *)

Definition principalMatches (rulePrincipal principal : gostring) : bool :=
  bool_decide (rulePrincipal = principal) || bool_decide (rulePrincipal = wildcard).

Definition rule_applies (principal : gostring) (res : Resource) (r : Rule) : bool :=
  principalMatches (ru_Principal r) principal &&
  (bool_decide (ru_ResourceType r = res_Type res) || bool_decide (ru_ResourceType r = wildcard)) &&
  (bool_decide (ru_ResourceName r = res_Name res) || bool_decide (ru_ResourceName r = wildcard)).

Definition rule_exact (res : Resource) (r : Rule) : bool :=
  bool_decide (ru_ResourceType r = res_Type res) && bool_decide (ru_ResourceName r = res_Name res).

(** The loop of [Store.Authorize] with its two flags. *)
Fixpoint authorize_loop (principal op : gostring) (res : Resource) (rules : list Rule)
    (exactExists wildcardGrant : bool) : outcome unit :=
  match rules with
  | [] => if exactExists then Err denied else if wildcardGrant then Ok tt else Err denied
  | r :: rs =>
      if negb (rule_applies principal res r) then
        authorize_loop principal op res rs exactExists wildcardGrant
      else
        let grant := containsOperation (ru_Operations r) op in
        if rule_exact res r then
          if grant then Ok tt else authorize_loop principal op res rs true wildcardGrant
        else authorize_loop principal op res rs exactExists (wildcardGrant || grant)
  end.

#[export] Instance RuleStore_Authorize : Authorizer RuleStore := fun s principal op res =>
  if bool_decide (principal = []) then Err denied
  else authorize_loop principal op res (rs_rules s) false false.

Definition CanDescribeAny (s : RuleStore) (principal resourceType : gostring) : bool :=
  negb (bool_decide (principal = [])) &&
  existsb (fun r => principalMatches (ru_Principal r) principal &&
             (bool_decide (ru_ResourceType r = resourceType) ||
              bool_decide (ru_ResourceType r = wildcard)) &&
             containsOperation (ru_Operations r) OpDescribe) (rs_rules s).

(** ** The decision as a specification *)

Section decision.
Context (principal op : gostring) (res : Resource).

Definition applies_exactly (r : Rule) : Prop :=
  rule_applies principal res r = true /\ rule_exact res r = true.
Definition grants (r : Rule) : Prop := containsOperation (ru_Operations r) op = true.

(** What the loop decides from a list of rules and its flags. *)
Definition loop_spec (rules : list Rule) (e w : bool) : Prop :=
  (exists r, r ∈ rules /\ applies_exactly r /\ grants r) \/
  (e = false /\ ~ (exists r, r ∈ rules /\ applies_exactly r) /\
   (w = true \/ exists r, r ∈ rules /\ rule_applies principal res r = true /\ grants r)).

Lemma authorize_loop_total rules e w :
  authorize_loop principal op res rules e w = Ok tt \/
  authorize_loop principal op res rules e w = Err denied.
Proof.
  revert e w. induction rules as [|r rs IH]; intros e w; cbn; [destruct e, w; eauto|].
  repeat case_match; eauto.
Qed.

Lemma exists_cons (P : Rule -> Prop) r rs :
  (exists x, x ∈ r :: rs /\ P x) <-> P r \/ exists x, x ∈ rs /\ P x.
Proof. setoid_rewrite elem_of_cons. naive_solver. Qed.

Lemma exists_nil (P : Rule -> Prop) : (exists x, x ∈ [] /\ P x) <-> False.
Proof. split; [|done]. by intros (x & ?%elem_of_nil & _). Qed.

(** Propositional goals over the flags and what the other rules say. *)
Ltac solve_flags :=
  repeat match goal with |- context [exists x, ?P x] =>
    let A := fresh in set (A := exists x, P x); clearbody A end;
  intuition (congruence || discriminate).

Lemma authorize_loop_spec rules e w :
  authorize_loop principal op res rules e w = Ok tt <-> loop_spec rules e w.
Proof.
  unfold loop_spec. revert e w. induction rules as [|r rs IH]; intros e w.
  - rewrite !exists_nil. destruct e, w; cbn; solve_flags.
  - rewrite !exists_cons. cbn [authorize_loop]. unfold applies_exactly, grants in *.
    destruct (rule_applies principal res r) eqn:Ha; cbn [negb]; [|rewrite IH; solve_flags].
    destruct (rule_exact res r); destruct (containsOperation (ru_Operations r) op); try rewrite IH;
      rewrite ?orb_false_r, ?orb_true_r; solve_flags.
Qed.
End decision.

(** C20: the decision of the rule store. Access is granted exactly when the
    principal is not empty and either a rule for this very resource grants the
    operation, or no rule names this resource for the principal and a wildcard
    rule grants it: rules about one resource override wildcard rules, nothing is
    granted by default, and every other request is denied. *)
Theorem authorize_decision (s : RuleStore) principal op res :
  (Authorize s principal op res = Ok tt <->
     principal <> [] /\ loop_spec principal op res (rs_rules s) false false) /\
  (Authorize s principal op res = Ok tt \/ Authorize s principal op res = Err denied).
Proof.
  unfold Authorize, RuleStore_Authorize. case_bool_decide as E; [split; [naive_solver|by right]|].
  split; [rewrite authorize_loop_spec; naive_solver|]. apply authorize_loop_total.
Qed.

(** ** Changing the rules *)

Lemma put_rule_elem r rules x :
  x ∈ put_rule r rules -> x = r \/ x ∈ rules.
Proof.
  induction rules as [|q qs IH]; cbn; [rewrite list_elem_of_singleton; by left|].
  case_match; rewrite !elem_of_cons; naive_solver.
Qed.

Lemma put_rule_self r rules : r ∈ put_rule r rules.
Proof. induction rules as [|q qs IH]; cbn; [by left|]. case_match; [by left|by right]. Qed.

(** The rules that do not share the new rule's key stay, in order. *)
Lemma put_rule_others r rules :
  List.filter (fun x => negb (sameKey x r)) (put_rule r rules)
  = List.filter (fun x => negb (sameKey x r)) rules.
Proof.
  assert (sameKey r r = true) as Hr by (unfold sameKey; by rewrite !bool_decide_eq_true_2).
  induction rules as [|q qs IH]; cbn; [by rewrite Hr|].
  destruct (sameKey q r) eqn:E; cbn; [by rewrite Hr|]. by rewrite E, IH.
Qed.

(** A decision depends only on the rules that apply. *)
Lemma authorize_loop_filter principal op res rules e w (f : Rule -> bool) :
  (forall r, rule_applies principal res r = true -> f r = true) ->
  authorize_loop principal op res (List.filter f rules) e w
  = authorize_loop principal op res rules e w.
Proof.
  intros Hf. revert e w. induction rules as [|r rs IH]; intros e w; [done|]. cbn [List.filter].
  destruct (f r) eqn:Ef; cbn [authorize_loop]; [by rewrite !IH|].
  destruct (rule_applies principal res r) eqn:Ea; [by rewrite Hf in Ef|]. apply IH.
Qed.

Lemma upsert_inv s r s' :
  Upsert s r = (s', Ok tt) ->
  ValidateRule r = Ok tt /\ (grantsWildcardAdmin r && negb (rs_allowWildcardAdmin s)) = false /\
  s' = persist (with_rules s (put_rule (mkRule (ru_Principal r) (ru_ResourceType r)
         (default_name (ru_ResourceName r)) (ru_Operations r)) (rs_rules s))).
Proof.
  unfold Upsert. destruct (ValidateRule r) as [[]|e|] eqn:E; try done.
  destruct (_ && _) eqn:Ew; [done|]. intros [= <-]. by split_and!.
Qed.

Lemma with_rules_rules s rules : rs_rules (persist (with_rules s rules)) = rules.
Proof. done. Qed.

(** What is stored of a rule. *)
Definition stored (r : Rule) : Rule :=
  mkRule (ru_Principal r) (ru_ResourceType r) (default_name (ru_ResourceName r)) (ru_Operations r).

Lemma other_principal_keys r p res x :
  ru_Principal r <> wildcard -> p <> ru_Principal r ->
  rule_applies p res x = true -> negb (sameKey x (stored r)) = true.
Proof.
  intros Hw Hp Ha. apply negb_true_iff, not_true_is_false. intros Hk.
  unfold sameKey in Hk. unfold rule_applies, principalMatches in Ha.
  rewrite !andb_true_iff, !bool_decide_eq_true in Hk.
  rewrite !andb_true_iff, orb_true_iff, !bool_decide_eq_true in Ha.
  destruct Hk as [[Hk _] _], Ha as [[[E|E] _] _]; cbn in Hk; congruence.
Qed.

(** An accepted rule for a named principal takes effect and touches nobody
    else: every decision about another principal is what it was, the operations
    the rule lists (with those they imply) are granted on the resource it names,
    and deleting it by its key removes every rule with that key. *)
Theorem upsert_effect s r s' :
  Upsert s r = (s', Ok tt) -> ru_Principal r <> wildcard ->
  (forall p op res, p <> ru_Principal r -> Authorize s' p op res = Authorize s p op res) /\
  (forall op, containsOperation (ru_Operations r) op = true ->
     Authorize s' (ru_Principal r) op
       (mkResource (ru_ResourceType r) (default_name (ru_ResourceName r))) = Ok tt) /\
  (normalizeResourceType (ru_ResourceType r) = Ok (ru_ResourceType r) ->
     exists s'', Delete s' (ru_Principal r) (ru_ResourceType r) (default_name (ru_ResourceName r))
                 = (s'', Ok tt) /\
       forall x, x ∈ rs_rules s'' <-> x ∈ rs_rules s' /\ sameKey x (stored r) = false).
Proof.
  intros Hu Hw. apply upsert_inv in Hu as (Hv & _ & ->). fold (stored r). split_and!.
  - intros p op res Hp. unfold Authorize, RuleStore_Authorize. case_bool_decide; [done|].
    rewrite with_rules_rules.
    rewrite <- (authorize_loop_filter p op res (put_rule _ _) _ _ (fun x => negb (sameKey x (stored r))))
      by (intros x; by apply (other_principal_keys r p res)).
    rewrite put_rule_others. apply authorize_loop_filter.
    intros x. by apply (other_principal_keys r p res).
  - intros op Hop. unfold Authorize, RuleStore_Authorize. rewrite bool_decide_eq_false_2.
    2: { intros E. unfold ValidateRule in Hv. by rewrite E in Hv. }
    apply authorize_loop_spec. left. exists (stored r). split; [apply put_rule_self|].
    unfold applies_exactly, rule_applies, rule_exact, principalMatches, grants. cbn.
    repeat (rewrite bool_decide_eq_true_2 by done; cbn). done.
  - intros Hn. unfold Delete. rewrite Hn. eexists. split; [done|]. intros x.
    rewrite with_rules_rules, list_elem_of_In, filter_In, <- list_elem_of_In.
    rewrite negb_true_iff. reflexivity.
Qed.

(** ** Nobody hands the cluster to everybody *)

Inductive rule_op :=
  | AUpsert (r : Rule)
  | ADelete (principal resourceType resourceName : gostring)
  | AReplace (rules : list Rule).

Definition run_rule_op (s : RuleStore) (o : rule_op) : RuleStore :=
  match o with
  | AUpsert r => (Upsert s r).1
  | ADelete p t n => (Delete s p t n).1
  | AReplace rules => (Replace s rules).1
  end.

Definition named_only (rules : list Rule) : Prop :=
  Forall (fun r => grantsWildcardAdmin r = false) rules.

(** What every operation keeps while wildcard administration is off: no rule
    gives it away, and the file holds the rules. *)
Record rules_inv (s : RuleStore) : Prop := {
  ri_off : rs_allowWildcardAdmin s = false;
  ri_named : named_only (rs_rules s);
  ri_file : forall rules, rs_file s = Some rules -> rules = rs_rules s }.

Lemma persist_inv s rules :
  rules_inv s -> named_only rules -> rules_inv (persist (with_rules s rules)).
Proof.
  intros [Ho _ _] Hn. split; [done|done|]. unfold persist, with_rules. cbn.
  destruct (rs_file s); cbn; [|done]. by intros ? [= <-].
Qed.

Lemma replace_rules_named rules rules' :
  replace_rules false rules = Ok rules' -> named_only rules'.
Proof.
  revert rules'. induction rules as [|r rs IH]; intros rules'; cbn; [by intros [= <-]; constructor|].
  destruct (ValidateRule r); cbn; try done.
  destruct (bool_decide _ && true && _) eqn:E; [done|].
  destruct (normalizeResourceType _); cbn; try done.
  destruct (replace_rules false rs) as [rest|e|]; cbn; try done.
  intros [= <-]. constructor; [|by apply IH].
  unfold grantsWildcardAdmin. cbn. by rewrite andb_true_r in E.
Qed.

Lemma run_rule_op_inv s o : rules_inv s -> rules_inv (run_rule_op s o).
Proof.
  intros Hi. pose proof Hi as [Ho Hn _]. destruct o as [r|p t n|rules]; cbn.
  - destruct (Upsert s r) as [s' [[]|e|]] eqn:E; cbn.
    + apply upsert_inv in E as (_ & Hg & ->). rewrite Ho, andb_true_r in Hg.
      apply persist_inv; [done|]. apply Forall_forall. intros x [->|Hx]%put_rule_elem; [done|].
      by apply (proj1 (Forall_forall _ _) Hn).
    + unfold Upsert in E. destruct (ValidateRule r); repeat case_match; by simplify_eq.
    + unfold Upsert in E. destruct (ValidateRule r); repeat case_match; by simplify_eq.
  - unfold Delete. destruct (normalizeResourceType t); cbn; [|done|done].
    apply persist_inv; [done|]. apply Forall_forall. intros x.
    rewrite list_elem_of_In, filter_In, <- list_elem_of_In. intros [Hx _].
    by apply (proj1 (Forall_forall _ _) Hn).
  - unfold Replace. rewrite Ho. destruct (replace_rules false rules) eqn:E; cbn; [|done|done].
    apply persist_inv; [done|]. by eapply replace_rules_named.
Qed.

(** While wildcard administration is off, no sequence of rule changes,
    accepted or refused, produces a rule that gives every identity the Admin
    operation: whoever may administer a resource is named by a rule. The rules
    file always holds the rules in force. *)
Theorem admin_needs_a_name s ops p res :
  rules_inv s ->
  let s' := fold_left run_rule_op ops s in
  WildcardAdminRules s' = [] /\ (forall rules, rs_file s' = Some rules -> rules = rs_rules s') /\
  (Authorize s' p OpAdmin res = Ok tt -> exists r, r ∈ rs_rules s' /\ ru_Principal r = p).
Proof.
  intros Hi s'. assert (rules_inv s') as [_ Hn Hf].
  { subst s'. revert s Hi. induction ops as [|o ops IH]; intros s Hi; [done|].
    by apply IH, run_rule_op_inv. }
  clearbody s'. split_and!; [|done|].
  - unfold WildcardAdminRules. unfold named_only in Hn. clear Hf.
    induction Hn as [|r rs Hr _ IH]; [done|]. cbn. by rewrite Hr, IH.
  - unfold Authorize, RuleStore_Authorize. case_bool_decide; [done|].
    intros Ha%authorize_loop_spec. unfold loop_spec, applies_exactly, grants in Ha.
    assert (exists r, r ∈ rs_rules s' /\ rule_applies p res r = true /\
              containsOperation (ru_Operations r) OpAdmin = true) as (r & Hr & Hap & Hg).
    { destruct Ha as [(r & ? & [? ?] & ?)|(_ & _ & [?|?])]; [by exists r|done|done]. }
    exists r. split; [done|]. apply (proj1 (Forall_forall _ _) Hn) in Hr.
    unfold grantsWildcardAdmin in Hr. rewrite Hg, andb_true_r, bool_decide_eq_false in Hr.
    unfold rule_applies, principalMatches in Hap. rewrite !andb_true_iff in Hap.
    destruct Hap as [[[E|E]%orb_true_iff _] _]; apply bool_decide_eq_true in E; congruence.
Qed.

(** ** Rules Upsert stores and nothing reads *)

Lemma known_type_normal t :
  t ∈ resource_types \/ t = wildcard -> normalizeResourceType t = Ok t.
Proof.
  intros H. assert (t ∈ wildcard :: resource_types) as Ht by (rewrite elem_of_cons; tauto). clear H.
  unfold resource_types in Ht. rewrite !elem_of_cons, elem_of_nil in Ht.
  repeat (destruct Ht as [->|Ht]; [vm_compute; reflexivity|]). done.
Qed.

Lemma normalize_known t t' :
  normalizeResourceType t = Ok t' -> t' ∈ resource_types \/ t' = wildcard.
Proof.
  unfold normalizeResourceType. case_bool_decide as E; [intros [= <-]; by left|].
  destruct (_ || _); [intros [= <-]; by right|done].
Qed.

(** [Upsert] checks a rule's resource type without regard to case and white
    space and stores it as it came. A rule whose type is not in its normal form
    (such as Topic, or nothing) is accepted, applies to no resource of a known
    type, and no deletion can remove it. *)
Theorem unnormalized_rule_stuck s r s' :
  Upsert s r = (s', Ok tt) ->
  normalizeResourceType (ru_ResourceType r) <> Ok (ru_ResourceType r) ->
  stored r ∈ rs_rules s' /\
  (forall p res, res_Type res ∈ resource_types -> rule_applies p res (stored r) = false) /\
  (forall p t n, stored r ∈ rs_rules (Delete s' p t n).1).
Proof.
  intros Hu Hn. apply upsert_inv in Hu as (_ & _ & ->). fold (stored r).
  split_and!; [apply put_rule_self| |].
  - intros p res Hres. unfold rule_applies. cbn.
    rewrite (bool_decide_eq_false_2 (ru_ResourceType r = res_Type res)),
      (bool_decide_eq_false_2 (ru_ResourceType r = wildcard)); [by rewrite andb_false_r| |];
      intros E; apply Hn, known_type_normal; [by right|left; by rewrite E].
  - intros p t n. unfold Delete. destruct (normalizeResourceType t) as [t'|e|] eqn:Et; cbn;
      [|apply put_rule_self..].
    rewrite list_elem_of_In, filter_In, <- list_elem_of_In. split; [apply put_rule_self|].
    unfold has_key. cbn. rewrite (bool_decide_eq_false_2 (ru_ResourceType r = t'));
      [by rewrite andb_false_r|].
    intros E. apply Hn. rewrite E. by apply known_type_normal, (normalize_known t).
Qed.

(** ** Examples *)

Definition demo_rule (t : gostring) : Rule := mkRule (str "alice") t (str "orders") [OpWrite].

Definition demo_rules : RuleStore :=
  mkRules [mkRule wildcard ResourceTopic wildcard [OpDescribe]] (Some [mkRule wildcard ResourceTopic wildcard [OpDescribe]]) false.

Lemma upsert_effect_witness :
  Authorize (Upsert demo_rules (demo_rule ResourceTopic)).1 (str "alice") OpDescribe
    (mkResource ResourceTopic (str "orders")) = Ok tt /\
  Authorize (Upsert demo_rules (demo_rule ResourceTopic)).1 (str "bob") OpWrite
    (mkResource ResourceTopic (str "orders")) = Err denied.
Proof.
  destruct (upsert_effect demo_rules (demo_rule ResourceTopic)
              (Upsert demo_rules (demo_rule ResourceTopic)).1) as (Hother & Hgrant & _);
    [vm_compute; reflexivity|by vm_compute|].
  split; [apply (Hgrant OpDescribe); vm_compute; reflexivity|].
  rewrite Hother by (by vm_compute). vm_compute. reflexivity.
Defined.

Lemma admin_needs_a_name_witness :
  WildcardAdminRules (fold_left run_rule_op
    [AUpsert (mkRule wildcard ResourceTopic [] [OpAdmin]); AUpsert (demo_rule ResourceTopic)] demo_rules)
  = [].
Proof.
  refine (proj1 (admin_needs_a_name demo_rules
    [AUpsert (mkRule wildcard ResourceTopic [] [OpAdmin]); AUpsert (demo_rule ResourceTopic)]
    (str "alice") (mkResource ResourceTopic (str "orders")) _)).
  split; [done| |by intros ? [= <-]]. repeat constructor.
Defined.

Lemma unnormalized_rule_stuck_witness :
  stored (demo_rule (str "Topic")) ∈ rs_rules (Upsert demo_rules (demo_rule (str "Topic"))).1.
Proof.
  refine (proj1 (unnormalized_rule_stuck demo_rules (demo_rule (str "Topic"))
    (Upsert demo_rules (demo_rule (str "Topic"))).1 _ _)); [vm_compute; reflexivity|by vm_compute].
Defined.

(** A super user is let through whatever the rules say, an empty principal
    never. *)
Lemma super_user_bypass s users p op res :
  p <> [] -> p ∈ super_users users ->
  Authorize (NewSuperUserAuthorizer s users) p op res = Ok tt.
Proof.
  intros Hp Hu. unfold NewSuperUserAuthorizer. rewrite bool_decide_eq_false_2 by set_solver.
  unfold Authorize, sum_Authorize, Authorize, SuperUser_Authorize. cbn.
  by rewrite bool_decide_eq_false_2, bool_decide_eq_true_2.
Qed.
