(* ===== verification/Frame.v ===== *)
(** * API keys, frames and the request header (pkg/protocol/types.go, frame.go,
    pkg/client/client.go)

    A connection is the bytes still to be read from it. The broker's half of
    framing ([ReadRequestFrame], [WriteResponseFrame]) is proved to match the
    client's half ([roundTrip] split into what it writes and what it reads). *)

From stdpp Require Import prelude list gmap strings.
From Stdlib Require Import ZArith Lia.
From S2P Require Import Prelude GoBinary Wire.

(** ** types.go *)

Definition APKProduce : Z := 0.
Definition APKFetch : Z := 1.
Definition APKListOffsets : Z := 2.
Definition APKMetadata : Z := 3.
Definition APKOffsetCommit : Z := 8.
Definition APKOffsetFetch : Z := 9.
Definition APKFindCoordinator : Z := 10.
Definition APKJoinGroup : Z := 11.
Definition APKHeartbeat : Z := 12.
Definition APKLeaveGroup : Z := 13.
Definition APKSyncGroup : Z := 14.
Definition APKDescribeGroups : Z := 15.
Definition APKListGroups : Z := 16.
Definition APKSaslHandshake : Z := 17.
Definition APKApiVersions : Z := 18.
Definition APKCreateTopics : Z := 19.
Definition APKDeleteTopics : Z := 20.
Definition APKInitProducerID : Z := 22.
Definition APKSaslAuthenticate : Z := 36.
Definition APKDeleteGroups : Z := 42.
Definition APKAddPartitionsToTxn : Z := 24.
Definition APKAddOffsetsToTxn : Z := 25.
Definition APKEndTxn : Z := 26.

Definition DisabledTransactionAPIKeys : list Z :=
  [APKAddPartitionsToTxn; APKAddOffsetsToTxn; APKEndTxn].

Definition maxVersions : gmap Z Z := list_to_map
  [(APKProduce, 3); (APKFetch, 5); (APKListOffsets, 5); (APKMetadata, 8);
   (APKOffsetCommit, 7); (APKOffsetFetch, 5); (APKFindCoordinator, 2); (APKJoinGroup, 5);
   (APKHeartbeat, 3); (APKLeaveGroup, 3); (APKSyncGroup, 3); (APKDescribeGroups, 3);
   (APKListGroups, 2); (APKSaslHandshake, 1); (APKApiVersions, 2); (APKCreateTopics, 4);
   (APKDeleteTopics, 3); (APKInitProducerID, 2); (APKSaslAuthenticate, 1);
   (APKDeleteGroups, 1)].

Definition SupportsKey (key : Z) : bool := bool_decide (is_Some (maxVersions !! key)).

Definition MaxVersion (key : Z) : Z := default (-1) (maxVersions !! key).

(** The error codes the modelled code answers with. *)
Definition ErrNone : Z := 0.
Definition ErrUnknownServerError : Z := -1.
Definition ErrOffsetOutOfRange : Z := 1.
Definition ErrUnknownTopicOrPartition : Z := 3.
Definition ErrIllegalGeneration : Z := 22.
Definition ErrInconsistentGroupProtocol : Z := 23.
Definition ErrUnknownMemberID : Z := 25.
Definition ErrInvalidSessionTimeout : Z := 26.
Definition ErrRebalanceInProgress : Z := 27.
Definition ErrMemberIDRequired : Z := 79.
Definition ErrNonEmptyGroup : Z := 68.
Definition ErrGroupIDNotFound : Z := 69.
Definition ErrCorruptMessage : Z := 2.
Definition ErrInvalidTopic : Z := 17.
Definition ErrTopicAuthorizationFailed : Z := 29.
Definition ErrGroupAuthorizationFailed : Z := 30.
Definition ErrClusterAuthorizationFailed : Z := 31.
Definition ErrIllegalSaslState : Z := 34.
Definition ErrUnsupportedVersion : Z := 35.
Definition ErrTopicAlreadyExists : Z := 36.
Definition ErrInvalidPartitions : Z := 37.
Definition ErrSaslAuthenticationFailed : Z := 58.

(** ** frame.go *)

Record RequestHeader := mkRequestHeader {
  ApiKey : Z; ApiVersion : Z; CorrelationID : Z; ClientID : gostring }.

Definition DecodeRequestHeader : M RequestHeader :=
  let! apiKey := ReadInt16 in
  let! apiVersion := ReadInt16 in
  let! corrID := ReadInt32 in
  let! clientID := ReadString in
  ret (mkRequestHeader apiKey apiVersion corrID clientID).

(** [io.ReadFull]: [n] bytes and the rest of the stream. *)
Definition ReadFull (conn : list byte) (n : Z) : outcome (list byte * list byte) :=
  if zlen conn <? n then Err (if zlen conn =? 0 then "EOF" else ErrUnexpectedEOF)
  else Ok (take (Z.to_nat n) conn, drop (Z.to_nat n) conn).

(** The header, the body and what is left of the stream. *)
Definition ReadRequestFrame (conn : list byte) (maxSize : Z)
  : outcome (RequestHeader * list byte * list byte) :=
  let? (lenBuf, conn) := ReadFull conn 4 in
  let length := ube lenBuf in
  if length <=? 0 then Err "invalid frame length" else
  if (0 <? maxSize) && (maxSize <? length) then Err "frame length exceeds max" else
  let? (buf, conn) := ReadFull conn length in
  let? (hdr, r) := DecodeRequestHeader (NewReader buf) in
  let? body := slice buf (off r) (zlen buf) in
  Ok (hdr, body, conn).

Definition appendInt32 (v : Z) : W := append_bytes (be 4 (u32 v)).

Definition WriteResponseFrame (corrID : Z) (body : list byte) : list byte :=
  (appendInt32 (i32 (zlen body + 4)) +> appendInt32 corrID +> append_bytes body) [].

(** ** The client's half: client.go, [roundTrip] *)

(** The frame it writes. *)
Definition client_frame (apiKey version corrID : Z) (clientID reqBody : list byte) : list byte :=
  (append_bytes (be 4 (u32 (zlen reqBody + 8 + 2 + zlen clientID)))
   +> append_bytes (be 2 (u16 apiKey)) +> append_bytes (be 2 (u16 version))
   +> append_bytes (be 4 (u32 corrID)) +> append_bytes (be 2 (u16 (zlen clientID)))
   +> append_bytes clientID +> append_bytes reqBody) [].

(** The response it reads: the body and the rest of the stream. *)
Definition client_read (corrID : Z) (conn : list byte) : outcome (list byte * list byte) :=
  let? (lenBuf, conn) := ReadFull conn 4 in
  let length := i32 (ube lenBuf) in
  if length <? 4 then Err "invalid response length" else
  let? (body, conn) := ReadFull conn length in
  let respCorr := i32 (ube (take 4 body)) in
  if negb (respCorr =? corrID) then Err "correlation id mismatch" else
  Ok (drop 4 body, conn).

(** ** Correctness *)

Lemma ReadFull_app a b n : zlen a = n -> ReadFull (a ++ b) n = Ok (a, b).
Proof.
  intros <-. unfold ReadFull. rewrite zlen_app, (proj2 (Z.ltb_ge _ _)) by (pose proof (zlen_nonneg b); lia).
  unfold zlen. by rewrite Nat2Z.id, take_app_length, drop_app_length.
Qed.

(** What the client writes of the header is what [DecodeRequestHeader] reads. *)
Definition write_header (h : RequestHeader) : W :=
  WriteInt16 (ApiKey h) +> WriteInt16 (ApiVersion h) +> WriteInt32 (CorrelationID h)
  +> WriteString (ClientID h).

Definition wf_header (h : RequestHeader) : Prop :=
  in_i16 (ApiKey h) /\ in_i16 (ApiVersion h) /\ in_i32 (CorrelationID h) /\ str_ok (ClientID h).

#[global] Instance wf_header_dec h : Decision (wf_header h).
Proof. unfold wf_header. apply _. Defined.

Lemma rt_request_header h : wf_header h -> rt (write_header h) DecodeRequestHeader h.
Proof.
  destruct h. unfold wf_header. cbn. intros (? & ? & ? & ?).
  unfold write_header, DecodeRequestHeader. cbn. rt_fields.
Qed.

Lemma client_frame_eq h reqBody :
  str_ok (ClientID h) ->
  client_frame (ApiKey h) (ApiVersion h) (CorrelationID h) (ClientID h) reqBody
  = be 4 (u32 (zlen (write_header h NewWriter ++ reqBody))) ++ write_header h NewWriter ++ reqBody.
Proof.
  intros Hs. unfold str_ok in Hs. pose proof (zlen_nonneg (ClientID h)).
  unfold client_frame, write_header, wseq, WriteInt16, WriteInt32, WriteString, WriteInt16, append_bytes,
    NewWriter. cbn [app].
  rewrite i16_id by mlia. rewrite <- !app_assoc. f_equal. f_equal. f_equal.
  unfold wseq. rewrite !zlen_app, !zlen_be. lia.
Qed.

(** What the client writes, the broker reads. *)
Lemma ReadRequestFrame_client h reqBody maxSize later :
  wf_header h ->
  0 < maxSize -> zlen reqBody + 10 + zlen (ClientID h) <= maxSize -> maxSize < 4294967296 ->
  ReadRequestFrame
    (client_frame (ApiKey h) (ApiVersion h) (CorrelationID h) (ClientID h) reqBody ++ later) maxSize
  = Ok (h, reqBody, later).
Proof.
  intros Hh Hm Hlim Hmax. pose proof Hh as (_ & _ & Hc & Hs).
  pose proof (zlen_nonneg reqBody). pose proof (zlen_nonneg (ClientID h)).
  destruct (rt_request_header h Hh) as (bs & Hemit & Hdec).
  rewrite client_frame_eq by done.
  assert (zlen (write_header h NewWriter) = 10 + zlen (ClientID h)) as Hwl.
  { unfold write_header, wseq, WriteInt16, WriteInt32, WriteString, WriteInt16, wseq, append_bytes, NewWriter.
    rewrite !zlen_app, !zlen_be. change (zlen []) with 0. lia. }
  rewrite Hemit in *. unfold NewWriter in *. cbn [app] in *.
  unfold ReadRequestFrame. rewrite <- app_assoc, ReadFull_app by apply zlen_be. cbn [obind].
  rewrite ube_be. change (2 ^ (8 * Z.of_nat 4)) with 4294967296.
  assert (u32 (zlen (bs ++ reqBody)) mod 4294967296 = zlen (bs ++ reqBody)) as ->.
  { unfold u32. rewrite zlen_app, Hwl, Zmod_mod, Z.mod_small; lia. }
  rewrite zlen_app, Hwl, (proj2 (Z.leb_gt _ _)), (proj2 (Z.ltb_ge maxSize _)), andb_false_r by lia.
  rewrite ReadFull_app by (rewrite zlen_app; lia). cbn [obind].
  specialize (Hdec [] reqBody). cbn [app] in Hdec. change (zlen []) with 0 in Hdec.
  unfold NewReader. rewrite Hdec by (rewrite zlen_app, Hwl; mlia). cbn [obind off].
  pose proof (@slice_mid byte bs reqBody [] (0 + zlen bs) (zlen (bs ++ reqBody))) as Hsl.
  rewrite !app_nil_r in Hsl. rewrite Hsl by (rewrite ?zlen_app; lia). done.
Qed.

(** What the broker writes, the client reads. *)
Lemma client_read_response corrID respBody later :
  in_i32 corrID -> zlen respBody + 4 < 2147483648 ->
  client_read corrID (WriteResponseFrame corrID respBody ++ later) = Ok (respBody, later).
Proof.
  intros Hc Hresp. pose proof (zlen_nonneg respBody).
  unfold client_read, WriteResponseFrame, appendInt32, wseq, append_bytes. cbn [app].
  rewrite <- !app_assoc, ReadFull_app by apply zlen_be. cbn [obind].
  assert (i32 (zlen respBody + 4) = zlen respBody + 4) as Hi by (apply i32_id; mlia).
  rewrite i32_ube_be, Hi, (proj2 (Z.ltb_ge _ _)) by (rewrite ?Hi; mlia).
  rewrite app_assoc, ReadFull_app by (rewrite zlen_app, zlen_be; lia). cbn [obind].
  rewrite take_app_length', drop_app_length' by (by rewrite length_be).
  by rewrite i32_ube_be, Z.eqb_refl by done.
Qed.

(** Every frame the client library writes within the size limit is read by
    the broker as the same header and body, leaving the bytes that follow on
    the connection; and every response frame the broker writes is read by the
    client that asked for it as the same body. *)
Theorem frames_roundtrip h reqBody respBody maxSize later later' :
  wf_header h ->
  0 < maxSize -> zlen reqBody + 10 + zlen (ClientID h) <= maxSize -> maxSize < 4294967296 ->
  zlen respBody + 4 < 2147483648 ->
  ReadRequestFrame
    (client_frame (ApiKey h) (ApiVersion h) (CorrelationID h) (ClientID h) reqBody ++ later) maxSize
  = Ok (h, reqBody, later) /\
  client_read (CorrelationID h) (WriteResponseFrame (CorrelationID h) respBody ++ later')
  = Ok (respBody, later').
Proof.
  intros Hh Hm Hlim Hmax Hresp. split; [by apply ReadRequestFrame_client|].
  apply client_read_response; [by destruct Hh as (_ & _ & ? & _)|done].
Qed.

Definition demo_header : RequestHeader :=
  mkRequestHeader APKFetch 5 77 [x63; x6c; x69].

Lemma frames_roundtrip_witness :
  ReadRequestFrame (client_frame 1 5 77 [x63; x6c; x69] [x01; x02] ++ [xff]) 100
  = Ok (demo_header, [x01; x02], [xff]) /\
  client_read 77 (WriteResponseFrame 77 [x05] ++ []) = Ok ([x05], []).
Proof.
  apply (frames_roundtrip demo_header [x01; x02] [x05] 100 [xff] []);
    [decide_closed|lia|vm_compute; discriminate|lia|vm_compute; reflexivity].
Defined.

(** What a peer that speaks nonsense can do at the framing layer: whatever
    bytes it sends, below 2^62, reading a frame returns a header and body, or
    an error, and never panics; the broker allocates no more than the size
    limit for it. *)
Theorem frame_reader_total conn maxSize :
  0 < maxSize <= 4611686018427387904 ->
  match ReadRequestFrame conn maxSize with
  | Ok (_, body, rest) => zlen body <= maxSize /\ exists used, conn = used ++ rest
  | Err _ => True
  | Panic => False
  end.
Proof.
  intros Hm. unfold ReadRequestFrame, ReadFull at 1.
  destruct (zlen conn <? 4); [done|]. cbn [obind].
  set (len := ube _). set (conn1 := drop _ conn).
  destruct (Z.leb_spec len 0); [done|]. rewrite (proj2 (Z.ltb_lt _ _)) by lia. cbn [andb].
  destruct (Z.ltb_spec maxSize len); [done|]. unfold ReadFull.
  destruct (Z.ltb_spec (zlen conn1) len) as [|Hlen]; [done|]. cbn [obind].
  set (buf1 := take (Z.to_nat len) conn1).
  assert (zlen buf1 = len) as Hb by (unfold zlen, buf1 in *; rewrite length_take; lia).
  assert (safe DecodeRequestHeader) as Hsafe by (unfold DecodeRequestHeader; auto 10 with safe).
  specialize (Hsafe (NewReader buf1)). unfold wf_reader in Hsafe. cbn in Hsafe.
  destruct (DecodeRequestHeader (NewReader buf1)) as [[hdr r]|e|]; cbn [obind safe_result] in *;
    [|done|apply Hsafe; lia].
  destruct Hsafe as ([[Ho1 Ho2] _] & Hbuf & _); [lia|]. cbn in Hbuf. rewrite Hbuf in Ho2.
  rewrite slice_ok by lia. cbn [obind]. split; [rewrite zlen_sub by lia; lia|].
  exists (take 4 conn ++ buf1). rewrite <- app_assoc. unfold buf1, conn1.
  by rewrite !take_drop.
Qed.

Lemma frame_reader_total_witness :
  match ReadRequestFrame [x00; x00; x00; x09; xff; xff] 100 with
  | Ok (_, body, rest) =>
      zlen body <= 100 /\ exists used, [x00; x00; x00; x09; xff; xff] = used ++ rest
  | Err _ => True
  | Panic => False
  end.
Proof. apply (frame_reader_total [x00; x00; x00; x09; xff; xff] 100). lia. Defined.
