(* ===== verification/MsgData.v ===== *)
(** * Data-plane messages (pkg/protocol/produce.go, fetch.go, list_offsets.go
    and their client halves)

    One module per API: the structs, the encoders and decoders of both ends,
    and the proof that what one end writes the other reads. A slice field that
    the decoders always allocate is a list; a [[]byte] that may be nil is an
    [option]. Encoders take the message as the Go functions do; [_partition]
    and [_topic] are the bodies of their loops. *)

From stdpp Require Import prelude list strings.
From Stdlib Require Import ZArith Lia.
From S2P Require Import Prelude GoBinary Wire.

(** Prove a message's round trip: take the record and its well-formedness
    apart, then go through the fields. *)
Ltac rt_message :=
  intros; repeat match goal with H : _ /\ _ |- _ => destruct H end; rt_fields.

(** Prove a decoder panic-free. *)
Ltac solve_safe := repeat first [apply safe_bind; [auto 10 with safe|intros ?] | auto 10 with safe].

Module Produce.

Record ProduceRequestPartition := mkProduceRequestPartition {
  req_Partition : Z; req_Records : gobytes }.
Record ProduceRequestTopic := mkProduceRequestTopic {
  req_Topic : gostring; req_Partitions : list ProduceRequestPartition }.
Record ProduceRequest := mkProduceRequest {
  req_Version : Z; Acks : Z; Timeout : Z; req_Topics : list ProduceRequestTopic }.

Record ProduceResponsePartition := mkProduceResponsePartition {
  Partition : Z; ErrorCode : Z; BaseOffset : Z; LogAppendTime : Z }.
Record ProduceResponseTopic := mkProduceResponseTopic {
  Topic : gostring; Partitions : list ProduceResponsePartition }.
Record ProduceResponse := mkProduceResponse {
  Version : Z; Topics : list ProduceResponseTopic; ThrottleTimeMs : Z }.

Definition decode_request_partition : M ProduceRequestPartition :=
  let! p := ReadInt32 in
  let! records := ReadBytes in
  ret (mkProduceRequestPartition p records).

Definition decode_request_topic : M ProduceRequestTopic :=
  let! t := ReadString in
  let! ps := read_array decode_request_partition in
  ret (mkProduceRequestTopic t ps).

Definition DecodeProduceRequest (version : Z) : M ProduceRequest :=
  let! _ := read_if (3 <=? version) ReadNullableString None in
  let! acks := ReadInt16 in
  let! timeout := ReadInt32 in
  let! topics := read_array decode_request_topic in
  ret (mkProduceRequest version acks timeout topics).

Definition encode_response_partition (version : Z) (p : ProduceResponsePartition) : W :=
  WriteInt32 (Partition p) +> WriteInt16 (ErrorCode p) +> WriteInt64 (BaseOffset p)
  +> when (2 <=? version) (WriteInt64 (LogAppendTime p))
  +> when (5 <=? version) (WriteInt64 (-1)).

Definition encode_response_topic (version : Z) (t : ProduceResponseTopic) : W :=
  WriteString (Topic t) +> write_array (encode_response_partition version) (Partitions t).

Definition EncodeProduceResponse (resp : ProduceResponse) : W :=
  write_array (encode_response_topic (Version resp)) (Topics resp)
  +> when (1 <=? Version resp) (WriteInt32 (ThrottleTimeMs resp)).

(** client_produce.go *)

Definition encode_request_partition (p : ProduceRequestPartition) : W :=
  WriteInt32 (req_Partition p) +> WriteBytes (req_Records p).

Definition encode_request_topic (t : ProduceRequestTopic) : W :=
  WriteString (req_Topic t) +> write_array encode_request_partition (req_Partitions t).

Definition EncodeProduceRequest (req : ProduceRequest) : W :=
  when (3 <=? req_Version req) (WriteNullableString None)
  +> WriteInt16 (Acks req) +> WriteInt32 (Timeout req)
  +> write_array encode_request_topic (req_Topics req).

Definition decode_response_partition (version : Z) : M ProduceResponsePartition :=
  let! p := ReadInt32 in
  let! e := ReadInt16 in
  let! base := ReadInt64 in
  let! ts := read_if (2 <=? version) ReadInt64 0 in
  let! _ := read_if (5 <=? version) ReadInt64 0 in
  ret (mkProduceResponsePartition p e base ts).

Definition decode_response_topic (version : Z) : M ProduceResponseTopic :=
  let! t := ReadString in
  let! ps := read_array (decode_response_partition version) in
  ret (mkProduceResponseTopic t ps).

Definition DecodeProduceResponse (version : Z) : M ProduceResponse :=
  let! topics := read_array (decode_response_topic version) in
  let! throttle := read_if (1 <=? version) ReadInt32 0 in
  ret (mkProduceResponse version topics throttle).

(** ** What can be sent: numbers in range, lengths that fit their prefix, and
    fields a version does not carry at their zero value *)

Definition wf_request_partition (p : ProduceRequestPartition) : Prop :=
  in_i32 (req_Partition p) /\ bytes_ok (req_Records p).
Definition wf_request_topic (t : ProduceRequestTopic) : Prop :=
  str_ok (req_Topic t) /\ arr_ok (req_Partitions t) /\
  Forall wf_request_partition (req_Partitions t).
Definition wf_request (r : ProduceRequest) : Prop :=
  in_i16 (Acks r) /\ in_i32 (Timeout r) /\ arr_ok (req_Topics r) /\
  Forall wf_request_topic (req_Topics r).

Definition wf_response_partition (v : Z) (p : ProduceResponsePartition) : Prop :=
  in_i32 (Partition p) /\ in_i16 (ErrorCode p) /\ in_i64 (BaseOffset p) /\
  in_i64 (LogAppendTime p) /\ ((2 <=? v) = false -> LogAppendTime p = 0).
Definition wf_response_topic (v : Z) (t : ProduceResponseTopic) : Prop :=
  str_ok (Topic t) /\ arr_ok (Partitions t) /\ Forall (wf_response_partition v) (Partitions t).
Definition wf_response (r : ProduceResponse) : Prop :=
  arr_ok (Topics r) /\ Forall (wf_response_topic (Version r)) (Topics r) /\
  in_i32 (ThrottleTimeMs r) /\ ((1 <=? Version r) = false -> ThrottleTimeMs r = 0).

#[export] Instance wf_request_partition_dec p : Decision (wf_request_partition p).
Proof. unfold wf_request_partition. apply _. Defined.
#[export] Instance wf_request_topic_dec t : Decision (wf_request_topic t).
Proof. unfold wf_request_topic. apply _. Defined.
#[export] Instance wf_request_dec r : Decision (wf_request r).
Proof. unfold wf_request. apply _. Defined.
#[export] Instance wf_response_partition_dec v p : Decision (wf_response_partition v p).
Proof. unfold wf_response_partition. apply _. Defined.
#[export] Instance wf_response_topic_dec v t : Decision (wf_response_topic v t).
Proof. unfold wf_response_topic. apply _. Defined.
#[export] Instance wf_response_dec r : Decision (wf_response r).
Proof. unfold wf_response. apply _. Defined.

Lemma rt_produce_request_partition p :
  wf_request_partition p -> rt (encode_request_partition p) decode_request_partition p.
Proof. destruct p. unfold wf_request_partition, encode_request_partition, decode_request_partition. cbn. rt_message. Qed.
#[local] Hint Resolve rt_produce_request_partition : rt.
Lemma rt_produce_request_topic t :
  wf_request_topic t -> rt (encode_request_topic t) decode_request_topic t.
Proof. destruct t. unfold wf_request_topic, encode_request_topic, decode_request_topic. cbn. rt_message. Qed.
#[local] Hint Resolve rt_produce_request_topic : rt.
Lemma rt_produce_request r :
  wf_request r -> rt (EncodeProduceRequest r) (DecodeProduceRequest (req_Version r)) r.
Proof.
  destruct r. unfold wf_request, EncodeProduceRequest, DecodeProduceRequest. cbn.
  rt_message.
Qed.

Lemma rt_produce_response_partition v p :
  wf_response_partition v p ->
  rt (encode_response_partition v p) (decode_response_partition v) p.
Proof.
  destruct p. unfold wf_response_partition, encode_response_partition, decode_response_partition.
  cbn. intros (? & ? & ? & ? & ?). rt_fields.
  eapply rt_bind_last; [apply rt_const_if; auto with rt|]. cbv beta. rt_fields.
Qed.
#[local] Hint Resolve rt_produce_response_partition : rt.
Lemma rt_produce_response_topic v t :
  wf_response_topic v t -> rt (encode_response_topic v t) (decode_response_topic v) t.
Proof. destruct t. unfold wf_response_topic, encode_response_topic, decode_response_topic. cbn. rt_message. Qed.
#[local] Hint Resolve rt_produce_response_topic : rt.
Lemma rt_produce_response r :
  wf_response r -> rt (EncodeProduceResponse r) (DecodeProduceResponse (Version r)) r.
Proof. destruct r. unfold wf_response, EncodeProduceResponse, DecodeProduceResponse. cbn. rt_message. Qed.

#[export] Instance request_codec : Codec ProduceRequest := {|
  enc := EncodeProduceRequest; dec := DecodeProduceRequest; ver := req_Version;
  wf_msg := wf_request; nf := id; codec_rt := rt_produce_request |}.
#[export] Instance response_codec : Codec ProduceResponse := {|
  enc := EncodeProduceResponse; dec := DecodeProduceResponse; ver := Version;
  wf_msg := wf_response; nf := id; codec_rt := rt_produce_response |}.

(** A produce request whose topic array is null (length -1), which the
    protocol's own array reader accepts, panics the decoder: [make] is called
    with the count as capacity. The broker has no recovery around it. *)
Theorem null_topic_array_panics version acks timeout rest :
  in_i16 acks -> in_i32 timeout -> zlen rest <= 2147483648 ->
  decode (DecodeProduceRequest version)
    ((when (3 <=? version) (WriteNullableString None) +> WriteInt16 acks
      +> WriteInt32 timeout +> WriteArrayLen (-1)) NewWriter ++ rest) = Panic.
Proof.
  intros Ha Ht Hr. apply crash_decode.
  - unfold DecodeProduceRequest. do 3 (eapply crash_bind; [solve [eauto with rt]|]).
    apply crash_here, crash_null_array.
  - rewrite zlen_app. unfold wseq, when, WriteNullableString, WriteArrayLen, WriteInt16, WriteInt32, append_bytes, id.
    pose proof (zlen_nonneg rest).
    destruct (3 <=? version); rewrite !zlen_app, !zlen_be; unfold NewWriter; rewrite (@zlen_nil byte); mlia.
Qed.

Lemma null_topic_array_panics_witness :
  decode (DecodeProduceRequest 3)
    ((when (3 <=? 3) (WriteNullableString None) +> WriteInt16 1
      +> WriteInt32 1000 +> WriteArrayLen (-1)) NewWriter ++ [x00]) = Panic.
Proof. apply (null_topic_array_panics 3 1 1000 [x00]); decide_closed. Defined.

End Produce.

Module Fetch.

Record FetchRequestPartition := mkFetchRequestPartition {
  req_Partition : Z; FetchOffset : Z; req_LogStartOffset : Z; PartitionMaxBytes : Z }.
Record FetchRequestTopic := mkFetchRequestTopic {
  req_Topic : gostring; req_Partitions : list FetchRequestPartition }.
Record FetchRequest := mkFetchRequest {
  req_Version : Z; ReplicaID : Z; MaxWaitMillis : Z; MinBytes : Z; MaxBytes : Z;
  IsolationLevel : Z; req_Topics : list FetchRequestTopic }.

Record FetchResponsePartition := mkFetchResponsePartition {
  Partition : Z; ErrorCode : Z; HighWatermark : Z; LastStableOffset : Z;
  LogStartOffset : Z; Records : gobytes }.
Record FetchResponseTopic := mkFetchResponseTopic {
  Topic : gostring; Partitions : list FetchResponsePartition }.
Record FetchResponse := mkFetchResponse {
  Version : Z; ThrottleTimeMs : Z; Topics : list FetchResponseTopic }.

Definition decode_request_partition (version : Z) : M FetchRequestPartition :=
  let! p := ReadInt32 in
  let! o := ReadInt64 in
  let! start := read_if (5 <=? version) ReadInt64 0 in
  let! mx := ReadInt32 in
  ret (mkFetchRequestPartition p o start mx).

Definition decode_request_topic (version : Z) : M FetchRequestTopic :=
  let! t := ReadString in
  let! ps := read_array (decode_request_partition version) in
  ret (mkFetchRequestTopic t ps).

Definition DecodeFetchRequest (version : Z) : M FetchRequest :=
  let! replica := ReadInt32 in
  let! wait := ReadInt32 in
  let! mn := ReadInt32 in
  let! mx := read_if (3 <=? version) ReadInt32 2147483647 in
  let! iso := read_if (4 <=? version) ReadInt8 0 in
  let! topics := read_array (decode_request_topic version) in
  ret (mkFetchRequest version replica wait mn mx iso topics).

Definition encode_response_partition (version : Z) (p : FetchResponsePartition) : W :=
  WriteInt32 (Partition p) +> WriteInt16 (ErrorCode p) +> WriteInt64 (HighWatermark p)
  +> when (4 <=? version) (WriteInt64 (LastStableOffset p))
  +> when (5 <=? version) (WriteInt64 (LogStartOffset p))
  +> when (4 <=? version) (WriteArrayLen (-1))
  +> when (11 <=? version) (WriteInt32 (-1))
  +> write_nonnull_bytes (Records p).

Definition encode_response_topic (version : Z) (t : FetchResponseTopic) : W :=
  WriteString (Topic t) +> write_array (encode_response_partition version) (Partitions t).

Definition EncodeFetchResponse (resp : FetchResponse) : W :=
  when (1 <=? Version resp) (WriteInt32 (ThrottleTimeMs resp))
  +> write_array (encode_response_topic (Version resp)) (Topics resp).

(** client_fetch.go *)

Definition encode_request_partition (version : Z) (p : FetchRequestPartition) : W :=
  WriteInt32 (req_Partition p) +> WriteInt64 (FetchOffset p)
  +> when (5 <=? version) (WriteInt64 (req_LogStartOffset p))
  +> WriteInt32 (PartitionMaxBytes p).

Definition encode_request_topic (version : Z) (t : FetchRequestTopic) : W :=
  WriteString (req_Topic t) +> write_array (encode_request_partition version) (req_Partitions t).

Definition EncodeFetchRequest (req : FetchRequest) : W :=
  WriteInt32 (ReplicaID req) +> WriteInt32 (MaxWaitMillis req) +> WriteInt32 (MinBytes req)
  +> when (3 <=? req_Version req) (WriteInt32 (MaxBytes req))
  +> when (4 <=? req_Version req) (WriteInt8 (IsolationLevel req))
  +> write_array (encode_request_topic (req_Version req)) (req_Topics req).

Definition decode_response_partition (version : Z) : M FetchResponsePartition :=
  let! p := ReadInt32 in
  let! e := ReadInt16 in
  let! hwm := ReadInt64 in
  let! stable := read_if (4 <=? version) ReadInt64 0 in
  let! start := read_if (5 <=? version) ReadInt64 0 in
  let! _ := read_if (4 <=? version) ReadArrayLen 0 in
  let! _ := read_if (11 <=? version) ReadInt32 0 in
  let! records := ReadBytes in
  ret (mkFetchResponsePartition p e hwm stable start records).

Definition decode_response_topic (version : Z) : M FetchResponseTopic :=
  let! t := ReadString in
  let! ps := read_array (decode_response_partition version) in
  ret (mkFetchResponseTopic t ps).

Definition DecodeFetchResponse (version : Z) : M FetchResponse :=
  let! throttle := read_if (1 <=? version) ReadInt32 0 in
  let! topics := read_array (decode_response_topic version) in
  ret (mkFetchResponse version throttle topics).

(** ** What can be sent *)

Definition wf_request_partition (v : Z) (p : FetchRequestPartition) : Prop :=
  in_i32 (req_Partition p) /\ in_i64 (FetchOffset p) /\ in_i64 (req_LogStartOffset p) /\
  ((5 <=? v) = false -> req_LogStartOffset p = 0) /\ in_i32 (PartitionMaxBytes p).
Definition wf_request_topic (v : Z) (t : FetchRequestTopic) : Prop :=
  str_ok (req_Topic t) /\ arr_ok (req_Partitions t) /\
  Forall (wf_request_partition v) (req_Partitions t).
Definition wf_request (r : FetchRequest) : Prop :=
  in_i32 (ReplicaID r) /\ in_i32 (MaxWaitMillis r) /\ in_i32 (MinBytes r) /\
  in_i32 (MaxBytes r) /\ ((3 <=? req_Version r) = false -> MaxBytes r = 2147483647) /\
  in_i8 (IsolationLevel r) /\ ((4 <=? req_Version r) = false -> IsolationLevel r = 0) /\
  arr_ok (req_Topics r) /\ Forall (wf_request_topic (req_Version r)) (req_Topics r).

Definition wf_response_partition (v : Z) (p : FetchResponsePartition) : Prop :=
  in_i32 (Partition p) /\ in_i16 (ErrorCode p) /\ in_i64 (HighWatermark p) /\
  in_i64 (LastStableOffset p) /\ ((4 <=? v) = false -> LastStableOffset p = 0) /\
  in_i64 (LogStartOffset p) /\ ((5 <=? v) = false -> LogStartOffset p = 0) /\
  bytes_ok (Records p).
Definition wf_response_topic (v : Z) (t : FetchResponseTopic) : Prop :=
  str_ok (Topic t) /\ arr_ok (Partitions t) /\ Forall (wf_response_partition v) (Partitions t).
Definition wf_response (r : FetchResponse) : Prop :=
  in_i32 (ThrottleTimeMs r) /\ ((1 <=? Version r) = false -> ThrottleTimeMs r = 0) /\
  arr_ok (Topics r) /\ Forall (wf_response_topic (Version r)) (Topics r).

(** The client reads absent records as an empty, non-nil slice. *)
Definition norm_partition (p : FetchResponsePartition) : FetchResponsePartition :=
  mkFetchResponsePartition (Partition p) (ErrorCode p) (HighWatermark p) (LastStableOffset p)
    (LogStartOffset p) (Some (default [] (Records p))).
Definition norm_topic (t : FetchResponseTopic) : FetchResponseTopic :=
  mkFetchResponseTopic (Topic t) (map norm_partition (Partitions t)).
Definition norm_response (r : FetchResponse) : FetchResponse :=
  mkFetchResponse (Version r) (ThrottleTimeMs r) (map norm_topic (Topics r)).

#[export] Instance wf_request_partition_dec v p : Decision (wf_request_partition v p).
Proof. unfold wf_request_partition. apply _. Defined.
#[export] Instance wf_request_topic_dec v t : Decision (wf_request_topic v t).
Proof. unfold wf_request_topic. apply _. Defined.
#[export] Instance wf_request_dec r : Decision (wf_request r).
Proof. unfold wf_request. apply _. Defined.
#[export] Instance wf_response_partition_dec v p : Decision (wf_response_partition v p).
Proof. unfold wf_response_partition. apply _. Defined.
#[export] Instance wf_response_topic_dec v t : Decision (wf_response_topic v t).
Proof. unfold wf_response_topic. apply _. Defined.
#[export] Instance wf_response_dec r : Decision (wf_response r).
Proof. unfold wf_response. apply _. Defined.

Lemma rt_fetch_request_partition v p :
  wf_request_partition v p -> rt (encode_request_partition v p) (decode_request_partition v) p.
Proof. destruct p. unfold wf_request_partition, encode_request_partition, decode_request_partition. cbn. rt_message. Qed.
#[local] Hint Resolve rt_fetch_request_partition : rt.
Lemma rt_fetch_request_topic v t :
  wf_request_topic v t -> rt (encode_request_topic v t) (decode_request_topic v) t.
Proof. destruct t. unfold wf_request_topic, encode_request_topic, decode_request_topic. cbn. rt_message. Qed.
#[local] Hint Resolve rt_fetch_request_topic : rt.
Lemma rt_fetch_request r :
  wf_request r -> rt (EncodeFetchRequest r) (DecodeFetchRequest (req_Version r)) r.
Proof. destruct r. unfold wf_request, EncodeFetchRequest, DecodeFetchRequest. cbn. rt_message. Qed.

Lemma rt_fetch_response_partition v p :
  wf_response_partition v p ->
  rt (encode_response_partition v p) (decode_response_partition v) (norm_partition p).
Proof.
  destruct p. unfold wf_response_partition, encode_response_partition, decode_response_partition, norm_partition.
  cbn. intros (? & ? & ? & ? & ? & ? & ? & ?). rt_fields.
  eapply rt_bind; [apply rt_const_if, rt_null_len|]. cbv beta.
  eapply rt_bind; [apply rt_const_if; auto with rt|]. cbv beta. rt_fields.
Qed.
Lemma rt_fetch_response_topic v t :
  wf_response_topic v t ->
  rt (encode_response_topic v t) (decode_response_topic v) (norm_topic t).
Proof.
  destruct t. unfold wf_response_topic, encode_response_topic, decode_response_topic, norm_topic. cbn.
  intros (? & ? & ?). rt_fields. eapply rt_bind_last; [|apply rt_ret].
  eapply rt_array_nf; [done|done|apply rt_fetch_response_partition].
Qed.
Lemma rt_fetch_response r :
  wf_response r ->
  rt (EncodeFetchResponse r) (DecodeFetchResponse (Version r)) (norm_response r).
Proof.
  destruct r. unfold wf_response, EncodeFetchResponse, DecodeFetchResponse, norm_response. cbn.
  intros (? & ? & ? & ?). rt_fields. eapply rt_bind_last; [|apply rt_ret].
  eapply rt_array_nf; [done|done|apply rt_fetch_response_topic].
Qed.

#[export] Instance request_codec : Codec FetchRequest := {|
  enc := EncodeFetchRequest; dec := DecodeFetchRequest; ver := req_Version;
  wf_msg := wf_request; nf := id; codec_rt := rt_fetch_request |}.
#[export] Instance response_codec : Codec FetchResponse := {|
  enc := EncodeFetchResponse; dec := DecodeFetchResponse; ver := Version;
  wf_msg := wf_response; nf := norm_response; codec_rt := rt_fetch_response |}.

End Fetch.

Module ListOffsets.

Record ListOffsetsRequestPartition := mkListOffsetsRequestPartition {
  req_Partition : Z; CurrentLeaderEpoch : Z; req_Timestamp : Z; MaxNumOffsets : Z }.
Record ListOffsetsRequestTopic := mkListOffsetsRequestTopic {
  req_Topic : gostring; req_Partitions : list ListOffsetsRequestPartition }.
Record ListOffsetsRequest := mkListOffsetsRequest {
  req_Version : Z; ReplicaID : Z; IsolationLevel : Z; req_Topics : list ListOffsetsRequestTopic }.

Record ListOffsetsResponsePartition := mkListOffsetsResponsePartition {
  Partition : Z; ErrorCode : Z; OldStyleOffsets : option (list Z); Timestamp : Z; Offset : Z;
  LeaderEpoch : Z }.
Record ListOffsetsResponseTopic := mkListOffsetsResponseTopic {
  Topic : gostring; Partitions : list ListOffsetsResponsePartition }.
Record ListOffsetsResponse := mkListOffsetsResponse {
  Version : Z; ThrottleTimeMs : Z; Topics : list ListOffsetsResponseTopic }.

Definition decode_request_partition (version : Z) : M ListOffsetsRequestPartition :=
  let! p := ReadInt32 in
  let! epoch := read_if (4 <=? version) ReadInt32 0 in
  let! ts := ReadInt64 in
  let! mx := read_if (version =? 0) ReadInt32 0 in
  ret (mkListOffsetsRequestPartition p epoch ts mx).

Definition decode_request_topic (version : Z) : M ListOffsetsRequestTopic :=
  let! t := ReadString in
  let! ps := read_array (decode_request_partition version) in
  ret (mkListOffsetsRequestTopic t ps).

Definition DecodeListOffsetsRequest (version : Z) : M ListOffsetsRequest :=
  let! replica := ReadInt32 in
  let! iso := read_if (2 <=? version) ReadInt8 0 in
  let! topics := read_array (decode_request_topic version) in
  ret (mkListOffsetsRequest version replica iso topics).

(** Version 0 writes the old-style list and nothing else ([continue]). *)
Definition encode_response_partition (version : Z) (p : ListOffsetsResponsePartition) : W :=
  WriteInt32 (Partition p) +> WriteInt16 (ErrorCode p) +>
  if version =? 0 then
    match OldStyleOffsets p with
    | None => WriteArrayLen (-1)
    | Some os => write_array WriteInt64 os
    end
  else
    when (1 <=? version) (WriteInt64 (Timestamp p) +> WriteInt64 (Offset p))
    +> when (4 <=? version) (WriteInt32 (LeaderEpoch p)).

Definition encode_response_topic (version : Z) (t : ListOffsetsResponseTopic) : W :=
  WriteString (Topic t) +> write_array (encode_response_partition version) (Partitions t).

Definition EncodeListOffsetsResponse (resp : ListOffsetsResponse) : W :=
  when (2 <=? Version resp) (WriteInt32 (ThrottleTimeMs resp))
  +> write_array (encode_response_topic (Version resp)) (Topics resp).

(** client_listoffsets.go; [readInt64Array] is in client.go. *)

Definition readInt64Array : M (option (list Z)) := read_nullable_array ReadInt64.

Definition encode_request_partition (version : Z) (p : ListOffsetsRequestPartition) : W :=
  WriteInt32 (req_Partition p)
  +> when (4 <=? version) (WriteInt32 (CurrentLeaderEpoch p))
  +> WriteInt64 (req_Timestamp p)
  +> when (version =? 0) (WriteInt32 (MaxNumOffsets p)).

Definition encode_request_topic (version : Z) (t : ListOffsetsRequestTopic) : W :=
  WriteString (req_Topic t) +> write_array (encode_request_partition version) (req_Partitions t).

Definition EncodeListOffsetsRequest (req : ListOffsetsRequest) : W :=
  WriteInt32 (ReplicaID req)
  +> when (2 <=? req_Version req) (WriteInt8 (IsolationLevel req))
  +> write_array (encode_request_topic (req_Version req)) (req_Topics req).

Definition decode_response_partition (version : Z) : M ListOffsetsResponsePartition :=
  let! p := ReadInt32 in
  let! e := ReadInt16 in
  if version =? 0 then
    let! os := readInt64Array in
    ret (mkListOffsetsResponsePartition p e os 0 0 0)
  else
    let! (ts, o) := read_if (1 <=? version)
                      (let! ts := ReadInt64 in let! o := ReadInt64 in ret (ts, o)) (0, 0) in
    let! epoch := read_if (4 <=? version) ReadInt32 0 in
    ret (mkListOffsetsResponsePartition p e None ts o epoch).

Definition decode_response_topic (version : Z) : M ListOffsetsResponseTopic :=
  let! t := ReadString in
  let! ps := read_array (decode_response_partition version) in
  ret (mkListOffsetsResponseTopic t ps).

Definition DecodeListOffsetsResponse (version : Z) : M ListOffsetsResponse :=
  let! throttle := read_if (2 <=? version) ReadInt32 0 in
  let! topics := read_array (decode_response_topic version) in
  ret (mkListOffsetsResponse version throttle topics).

(** ** What can be sent *)

Definition wf_request_partition (v : Z) (p : ListOffsetsRequestPartition) : Prop :=
  in_i32 (req_Partition p) /\ in_i32 (CurrentLeaderEpoch p) /\
  ((4 <=? v) = false -> CurrentLeaderEpoch p = 0) /\ in_i64 (req_Timestamp p) /\
  in_i32 (MaxNumOffsets p) /\ ((v =? 0) = false -> MaxNumOffsets p = 0).
Definition wf_request_topic (v : Z) (t : ListOffsetsRequestTopic) : Prop :=
  str_ok (req_Topic t) /\ arr_ok (req_Partitions t) /\
  Forall (wf_request_partition v) (req_Partitions t).
Definition wf_request (r : ListOffsetsRequest) : Prop :=
  in_i32 (ReplicaID r) /\ in_i8 (IsolationLevel r) /\
  ((2 <=? req_Version r) = false -> IsolationLevel r = 0) /\
  arr_ok (req_Topics r) /\ Forall (wf_request_topic (req_Version r)) (req_Topics r).

Definition wf_response_partition (v : Z) (p : ListOffsetsResponsePartition) : Prop :=
  in_i32 (Partition p) /\ in_i16 (ErrorCode p) /\
  from_option arr_ok True (OldStyleOffsets p) /\ Forall in_i64 (default [] (OldStyleOffsets p)) /\
  ((v =? 0) = false -> OldStyleOffsets p = None) /\
  in_i64 (Timestamp p) /\ in_i64 (Offset p) /\ in_i32 (LeaderEpoch p) /\
  ((1 <=? v) = false -> (Timestamp p, Offset p) = (0, 0)) /\
  ((4 <=? v) = false -> LeaderEpoch p = 0).
Definition wf_response_topic (v : Z) (t : ListOffsetsResponseTopic) : Prop :=
  str_ok (Topic t) /\ arr_ok (Partitions t) /\ Forall (wf_response_partition v) (Partitions t).
Definition wf_response (r : ListOffsetsResponse) : Prop :=
  in_i32 (ThrottleTimeMs r) /\ ((2 <=? Version r) = false -> ThrottleTimeMs r = 0) /\
  arr_ok (Topics r) /\ Forall (wf_response_topic (Version r)) (Topics r).

#[export] Instance wf_request_partition_dec v p : Decision (wf_request_partition v p).
Proof. unfold wf_request_partition. apply _. Defined.
#[export] Instance wf_request_topic_dec v t : Decision (wf_request_topic v t).
Proof. unfold wf_request_topic. apply _. Defined.
#[export] Instance wf_request_dec r : Decision (wf_request r).
Proof. unfold wf_request. apply _. Defined.
#[export] Instance wf_response_partition_dec v p : Decision (wf_response_partition v p).
Proof. unfold wf_response_partition. destruct (OldStyleOffsets p); cbn; apply _. Defined.
#[export] Instance wf_response_topic_dec v t : Decision (wf_response_topic v t).
Proof. unfold wf_response_topic. apply _. Defined.
#[export] Instance wf_response_dec r : Decision (wf_response r).
Proof. unfold wf_response. apply _. Defined.

Lemma rt_list_request_partition v p :
  wf_request_partition v p -> rt (encode_request_partition v p) (decode_request_partition v) p.
Proof. destruct p. unfold wf_request_partition, encode_request_partition, decode_request_partition. cbn. rt_message. Qed.
#[local] Hint Resolve rt_list_request_partition : rt.
Lemma rt_list_request_topic v t :
  wf_request_topic v t -> rt (encode_request_topic v t) (decode_request_topic v) t.
Proof. destruct t. unfold wf_request_topic, encode_request_topic, decode_request_topic. cbn. rt_message. Qed.
#[local] Hint Resolve rt_list_request_topic : rt.
Lemma rt_list_request r :
  wf_request r -> rt (EncodeListOffsetsRequest r) (DecodeListOffsetsRequest (req_Version r)) r.
Proof. destruct r. unfold wf_request, EncodeListOffsetsRequest, DecodeListOffsetsRequest. cbn. rt_message. Qed.

Lemma rt_list_response_partition v p :
  wf_response_partition v p ->
  rt (encode_response_partition v p) (decode_response_partition v) p.
Proof.
  destruct p as [pa e os ts o ep].
  unfold wf_response_partition, encode_response_partition, decode_response_partition. cbn.
  intros (? & ? & Hos & Hall & Hnone & ? & ? & ? & Hz & Hep). rt_fields.
  destruct (Z.eqb_spec v 0) as [->|Hv].
  - specialize (Hz eq_refl). specialize (Hep eq_refl). simplify_eq.
    eapply rt_bind_last; [|apply rt_ret].
    apply (rt_nullable_array_wf in_i64); [done|done|apply rt_int64].
  - specialize (Hnone eq_refl). subst os. eapply (rt_bind _ _ _ _ (ts, o)); [|rt_fields].
    apply rt_if; [|done]. intros _. rt_fields.
Qed.
#[local] Hint Resolve rt_list_response_partition : rt.
Lemma rt_list_response_topic v t :
  wf_response_topic v t -> rt (encode_response_topic v t) (decode_response_topic v) t.
Proof. destruct t. unfold wf_response_topic, encode_response_topic, decode_response_topic. cbn. rt_message. Qed.
#[local] Hint Resolve rt_list_response_topic : rt.
Lemma rt_list_response r :
  wf_response r -> rt (EncodeListOffsetsResponse r) (DecodeListOffsetsResponse (Version r)) r.
Proof. destruct r. unfold wf_response, EncodeListOffsetsResponse, DecodeListOffsetsResponse. cbn. rt_message. Qed.

#[export] Instance request_codec : Codec ListOffsetsRequest := {|
  enc := EncodeListOffsetsRequest; dec := DecodeListOffsetsRequest; ver := req_Version;
  wf_msg := wf_request; nf := id; codec_rt := rt_list_request |}.
#[export] Instance response_codec : Codec ListOffsetsResponse := {|
  enc := EncodeListOffsetsResponse; dec := DecodeListOffsetsResponse; ver := Version;
  wf_msg := wf_response; nf := id; codec_rt := rt_list_response |}.

End ListOffsets.
