(* ===== verification/MsgAdmin.v ===== *)
(** * Metadata, topic administration and session messages
    (pkg/protocol/metadata.go, topic.go, api_versions.go, idempotent.go, sasl.go
    and their client halves)

    The same layout as MsgData.v: a module per API with both ends. *)

From stdpp Require Import prelude list strings.
From Stdlib Require Import ZArith Lia.
From S2P Require Import Prelude GoBinary Wire MsgData.

Module Metadata.

Record MetadataRequest := mkMetadataRequest {
  req_Version : Z; req_Topics : option (list gostring); AllowAutoTopicCreation : bool;
  IncludeClusterAuthorizedOperations : bool; IncludeTopicAuthorizedOperations : bool }.

Record MetadataBroker := mkMetadataBroker {
  NodeID : Z; Host : gostring; Port : Z; Rack : option gostring }.
Record MetadataPartition := mkMetadataPartition {
  p_ErrorCode : Z; Partition : Z; Leader : Z; LeaderEpoch : Z;
  Replicas : option (list Z); ISR : option (list Z); OfflineReplicas : option (list Z) }.
Record MetadataTopic := mkMetadataTopic {
  ErrorCode : Z; Name : gostring; IsInternal : bool; Partitions : list MetadataPartition;
  AuthorizedOperations : Z }.
Record MetadataResponse := mkMetadataResponse {
  Version : Z; ThrottleTimeMs : Z; Brokers : list MetadataBroker; ClusterID : option gostring;
  ControllerID : Z; Topics : list MetadataTopic; ClusterAuthorizedOperations : Z }.

Definition DecodeMetadataRequest (version : Z) : M MetadataRequest :=
  let! topics := read_nullable_array ReadString in
  let! auto := read_if (4 <=? version) ReadBool false in
  let! cluster := read_if (8 <=? version) ReadBool false in
  let! topic := read_if (8 <=? version) ReadBool false in
  ret (mkMetadataRequest version topics auto cluster topic).

Definition encode_broker (version : Z) (b : MetadataBroker) : W :=
  WriteInt32 (NodeID b) +> WriteString (Host b) +> WriteInt32 (Port b)
  +> when (1 <=? version) (WriteNullableString (Rack b)).

Definition encode_partition (version : Z) (p : MetadataPartition) : W :=
  WriteInt16 (p_ErrorCode p) +> WriteInt32 (Partition p) +> WriteInt32 (Leader p)
  +> when (7 <=? version) (WriteInt32 (LeaderEpoch p))
  +> writeInt32Array (Replicas p) +> writeInt32Array (ISR p)
  +> when (5 <=? version) (writeInt32Array (OfflineReplicas p)).

Definition encode_topic (version : Z) (t : MetadataTopic) : W :=
  WriteInt16 (ErrorCode t) +> WriteString (Name t)
  +> when (1 <=? version) (WriteBool (IsInternal t))
  +> write_array (encode_partition version) (Partitions t)
  +> when (8 <=? version) (WriteInt32 (AuthorizedOperations t)).

Definition EncodeMetadataResponse (resp : MetadataResponse) : W :=
  when (3 <=? Version resp) (WriteInt32 (ThrottleTimeMs resp))
  +> write_array (encode_broker (Version resp)) (Brokers resp)
  +> when (2 <=? Version resp) (WriteNullableString (ClusterID resp))
  +> when (1 <=? Version resp) (WriteInt32 (ControllerID resp))
  +> write_array (encode_topic (Version resp)) (Topics resp)
  +> when ((8 <=? Version resp) && (Version resp <=? 10))
       (WriteInt32 (ClusterAuthorizedOperations resp)).

(** client_metadata.go *)

Definition EncodeMetadataRequest (req : MetadataRequest) : W :=
  match req_Topics req with
  | None => WriteArrayLen (-1)
  | Some ts => write_array WriteString ts
  end
  +> when (4 <=? req_Version req) (WriteBool (AllowAutoTopicCreation req))
  +> when (8 <=? req_Version req) (WriteBool (IncludeClusterAuthorizedOperations req))
  +> when (8 <=? req_Version req) (WriteBool (IncludeTopicAuthorizedOperations req)).

Definition decodeMetadataBroker (version : Z) : M MetadataBroker :=
  let! node := ReadInt32 in
  let! host := ReadString in
  let! port := ReadInt32 in
  let! rack := read_if (1 <=? version) ReadNullableString None in
  ret (mkMetadataBroker node host port rack).

Definition decodeMetadataPartition (version : Z) : M MetadataPartition :=
  let! e := ReadInt16 in
  let! p := ReadInt32 in
  let! l := ReadInt32 in
  let! le := read_if (7 <=? version) ReadInt32 0 in
  let! replicas := readInt32Array in
  let! isr := readInt32Array in
  let! offline := read_if (5 <=? version) readInt32Array None in
  ret (mkMetadataPartition e p l le replicas isr offline).

Definition decodeMetadataTopic (version : Z) : M MetadataTopic :=
  let! e := ReadInt16 in
  let! name := ReadString in
  let! internal := read_if (1 <=? version) ReadBool false in
  let! ps := read_array (decodeMetadataPartition version) in
  let! ops := read_if (8 <=? version) ReadInt32 0 in
  ret (mkMetadataTopic e name internal ps ops).

Definition DecodeMetadataResponse (version : Z) : M MetadataResponse :=
  let! throttle := read_if (3 <=? version) ReadInt32 0 in
  let! brokers := read_array (decodeMetadataBroker version) in
  let! cluster := read_if (2 <=? version) ReadNullableString None in
  let! controller := read_if (1 <=? version) ReadInt32 0 in
  let! topics := read_array (decodeMetadataTopic version) in
  let! ops := read_if ((8 <=? version) && (version <=? 10)) ReadInt32 0 in
  ret (mkMetadataResponse version throttle brokers cluster controller topics ops).

(** ** What can be sent *)

Definition arr32_ok (a : option (list Z)) : Prop :=
  from_option arr_ok True a /\ Forall in_i32 (default [] a).
Definition wf_request (r : MetadataRequest) : Prop :=
  from_option arr_ok True (req_Topics r) /\ Forall str_ok (default [] (req_Topics r)) /\
  ((4 <=? req_Version r) = false -> AllowAutoTopicCreation r = false) /\
  ((8 <=? req_Version r) = false -> IncludeClusterAuthorizedOperations r = false) /\
  ((8 <=? req_Version r) = false -> IncludeTopicAuthorizedOperations r = false).
Definition wf_broker (v : Z) (b : MetadataBroker) : Prop :=
  in_i32 (NodeID b) /\ str_ok (Host b) /\ in_i32 (Port b) /\ nstr_ok (Rack b) /\
  ((1 <=? v) = false -> Rack b = None).
Definition wf_partition (v : Z) (p : MetadataPartition) : Prop :=
  in_i16 (p_ErrorCode p) /\ in_i32 (Partition p) /\ in_i32 (Leader p) /\
  in_i32 (LeaderEpoch p) /\ ((7 <=? v) = false -> LeaderEpoch p = 0) /\
  arr32_ok (Replicas p) /\ arr32_ok (ISR p) /\ arr32_ok (OfflineReplicas p) /\
  ((5 <=? v) = false -> OfflineReplicas p = None).
Definition wf_topic (v : Z) (t : MetadataTopic) : Prop :=
  in_i16 (ErrorCode t) /\ str_ok (Name t) /\ ((1 <=? v) = false -> IsInternal t = false) /\
  arr_ok (Partitions t) /\ Forall (wf_partition v) (Partitions t) /\
  in_i32 (AuthorizedOperations t) /\ ((8 <=? v) = false -> AuthorizedOperations t = 0).
Definition wf_response (r : MetadataResponse) : Prop :=
  in_i32 (ThrottleTimeMs r) /\ ((3 <=? Version r) = false -> ThrottleTimeMs r = 0) /\
  arr_ok (Brokers r) /\ Forall (wf_broker (Version r)) (Brokers r) /\
  nstr_ok (ClusterID r) /\ ((2 <=? Version r) = false -> ClusterID r = None) /\
  in_i32 (ControllerID r) /\ ((1 <=? Version r) = false -> ControllerID r = 0) /\
  arr_ok (Topics r) /\ Forall (wf_topic (Version r)) (Topics r) /\
  in_i32 (ClusterAuthorizedOperations r) /\
  ((8 <=? Version r) && (Version r <=? 10) = false -> ClusterAuthorizedOperations r = 0).

#[export] Instance arr32_ok_dec a : Decision (arr32_ok a).
Proof. unfold arr32_ok. destruct a; cbn; apply _. Defined.
#[export] Instance wf_request_dec r : Decision (wf_request r).
Proof. unfold wf_request. destruct (req_Topics r); cbn; apply _. Defined.
#[export] Instance wf_broker_dec v b : Decision (wf_broker v b).
Proof. unfold wf_broker. apply _. Defined.
#[export] Instance wf_partition_dec v p : Decision (wf_partition v p).
Proof. unfold wf_partition. apply _. Defined.
#[export] Instance wf_topic_dec v t : Decision (wf_topic v t).
Proof. unfold wf_topic. apply _. Defined.
#[export] Instance wf_response_dec r : Decision (wf_response r).
Proof. unfold wf_response. apply _. Defined.

Lemma rt_arr32 a : arr32_ok a -> rt (writeInt32Array a) readInt32Array a.
Proof. intros [? ?]. by apply rt_int32_array. Qed.
#[local] Hint Resolve rt_arr32 : rt.

Lemma rt_metadata_request r :
  wf_request r -> rt (EncodeMetadataRequest r) (DecodeMetadataRequest (req_Version r)) r.
Proof.
  destruct r. unfold wf_request, EncodeMetadataRequest, DecodeMetadataRequest. cbn [req_Version req_Topics
    AllowAutoTopicCreation IncludeClusterAuthorizedOperations IncludeTopicAuthorizedOperations].
  rt_message.
Qed.
Lemma rt_broker v b : wf_broker v b -> rt (encode_broker v b) (decodeMetadataBroker v) b.
Proof. destruct b. unfold wf_broker, encode_broker, decodeMetadataBroker. cbn. rt_message. Qed.
Lemma rt_partition v p : wf_partition v p -> rt (encode_partition v p) (decodeMetadataPartition v) p.
Proof. destruct p. unfold wf_partition, encode_partition, decodeMetadataPartition. cbn. intuition (rt_fields). Qed.
#[local] Hint Resolve rt_broker rt_partition : rt.
Lemma rt_topic v t : wf_topic v t -> rt (encode_topic v t) (decodeMetadataTopic v) t.
Proof. destruct t. unfold wf_topic, encode_topic, decodeMetadataTopic. cbn. rt_message. Qed.
#[local] Hint Resolve rt_topic : rt.
Lemma rt_metadata_response r :
  wf_response r -> rt (EncodeMetadataResponse r) (DecodeMetadataResponse (Version r)) r.
Proof. destruct r. unfold wf_response, EncodeMetadataResponse, DecodeMetadataResponse. cbn. rt_message. Qed.

#[export] Instance request_codec : Codec MetadataRequest := {|
  enc := EncodeMetadataRequest; dec := DecodeMetadataRequest; ver := req_Version;
  wf_msg := wf_request; nf := id; codec_rt := rt_metadata_request |}.
#[export] Instance response_codec : Codec MetadataResponse := {|
  enc := EncodeMetadataResponse; dec := DecodeMetadataResponse; ver := Version;
  wf_msg := wf_response; nf := id; codec_rt := rt_metadata_response |}.

End Metadata.

Module Topics.

Record CreateTopicsReplicaAssignment := mkCreateTopicsReplicaAssignment {
  Partition : Z; Replicas : option (list Z) }.
Record CreateTopicsConfig := mkCreateTopicsConfig { Name : gostring; Value : option gostring }.
Record CreateTopicsRequestTopic := mkCreateTopicsRequestTopic {
  Topic : gostring; NumPartitions : Z; ReplicationFactor : Z;
  ReplicaAssignment : list CreateTopicsReplicaAssignment; Configs : list CreateTopicsConfig }.
Record CreateTopicsRequest := mkCreateTopicsRequest {
  Version : Z; creates : list CreateTopicsRequestTopic; TimeoutMs : Z; ValidateOnly : bool }.
Record CreateTopicsResponseTopic := mkCreateTopicsResponseTopic {
  resp_Topic : gostring; ErrorCode : Z; ErrorMessage : option gostring }.
Record CreateTopicsResponse := mkCreateTopicsResponse {
  resp_Version : Z; ThrottleTimeMs : Z; created : list CreateTopicsResponseTopic }.
Record DeleteTopicsRequest := mkDeleteTopicsRequest {
  del_Version : Z; TopicNames : list gostring; del_TimeoutMs : Z }.
Record DeleteTopicsResponseTopic := mkDeleteTopicsResponseTopic {
  del_Name : gostring; del_ErrorCode : Z; del_ErrorMessage : option gostring }.
Record DeleteTopicsResponse := mkDeleteTopicsResponse {
  dresp_Version : Z; dresp_ThrottleTimeMs : Z; deleted : list DeleteTopicsResponseTopic }.

Definition decode_assignment : M CreateTopicsReplicaAssignment :=
  let! p := ReadInt32 in
  let! rs := readInt32Array in
  ret (mkCreateTopicsReplicaAssignment p rs).
Definition decode_config : M CreateTopicsConfig :=
  let! n := ReadString in
  let! v := ReadNullableString in
  ret (mkCreateTopicsConfig n v).
Definition decode_create : M CreateTopicsRequestTopic :=
  let! t := ReadString in
  let! n := ReadInt32 in
  let! rf := ReadInt16 in
  let! ra := read_array decode_assignment in
  let! cs := read_array decode_config in
  ret (mkCreateTopicsRequestTopic t n rf ra cs).

Definition DecodeCreateTopicsRequest (version : Z) : M CreateTopicsRequest :=
  let! ts := read_array decode_create in
  let! timeout := ReadInt32 in
  let! validate := read_if (1 <=? version) ReadBool false in
  ret (mkCreateTopicsRequest version ts timeout validate).

Definition encode_created (version : Z) (t : CreateTopicsResponseTopic) : W :=
  WriteString (resp_Topic t) +> WriteInt16 (ErrorCode t)
  +> when (1 <=? version) (WriteNullableString (ErrorMessage t))
  +> when (5 <=? version) (WriteInt32 (-1) +> WriteInt16 (-1) +> WriteArrayLen (-1)).

Definition EncodeCreateTopicsResponse (resp : CreateTopicsResponse) : W :=
  when (2 <=? resp_Version resp) (WriteInt32 (ThrottleTimeMs resp))
  +> write_array (encode_created (resp_Version resp)) (created resp).

Definition DecodeDeleteTopicsRequest (version : Z) : M DeleteTopicsRequest :=
  let! names := read_array ReadString in
  let! timeout := ReadInt32 in
  ret (mkDeleteTopicsRequest version names timeout).

Definition encode_deleted (version : Z) (t : DeleteTopicsResponseTopic) : W :=
  WriteNullableString (Some (del_Name t)) +> WriteInt16 (del_ErrorCode t)
  +> when (5 <=? version) (WriteNullableString (del_ErrorMessage t)).

Definition EncodeDeleteTopicsResponse (resp : DeleteTopicsResponse) : W :=
  when (1 <=? dresp_Version resp) (WriteInt32 (dresp_ThrottleTimeMs resp))
  +> write_array (encode_deleted (dresp_Version resp)) (deleted resp).

(** client_topics.go: a nil replica list is written as an empty one. *)

Definition encode_assignment (ra : CreateTopicsReplicaAssignment) : W :=
  WriteInt32 (Partition ra) +> write_array WriteInt32 (default [] (Replicas ra)).
Definition encode_config (c : CreateTopicsConfig) : W :=
  WriteString (Name c) +> WriteNullableString (Value c).
Definition encode_create (t : CreateTopicsRequestTopic) : W :=
  WriteString (Topic t) +> WriteInt32 (NumPartitions t) +> WriteInt16 (ReplicationFactor t)
  +> write_array encode_assignment (ReplicaAssignment t)
  +> write_array encode_config (Configs t).

Definition EncodeCreateTopicsRequest (req : CreateTopicsRequest) : W :=
  write_array encode_create (creates req) +> WriteInt32 (TimeoutMs req)
  +> when (1 <=? Version req) (WriteBool (ValidateOnly req)).

Definition decode_created (version : Z) : M CreateTopicsResponseTopic :=
  let! t := ReadString in
  let! e := ReadInt16 in
  let! m := read_if (1 <=? version) ReadNullableString None in
  ret (mkCreateTopicsResponseTopic t e m).

Definition DecodeCreateTopicsResponse (version : Z) : M CreateTopicsResponse :=
  let! throttle := read_if (2 <=? version) ReadInt32 0 in
  let! ts := read_array (decode_created version) in
  ret (mkCreateTopicsResponse version throttle ts).

Definition EncodeDeleteTopicsRequest (req : DeleteTopicsRequest) : W :=
  write_array WriteString (TopicNames req) +> WriteInt32 (del_TimeoutMs req).

Definition decode_deleted (version : Z) : M DeleteTopicsResponseTopic :=
  let! n := ReadString in
  let! e := ReadInt16 in
  let! m := read_if (5 <=? version) ReadNullableString None in
  ret (mkDeleteTopicsResponseTopic n e m).

Definition DecodeDeleteTopicsResponse (version : Z) : M DeleteTopicsResponse :=
  let! throttle := read_if (1 <=? version) ReadInt32 0 in
  let! ts := read_array (decode_deleted version) in
  ret (mkDeleteTopicsResponse version throttle ts).

(** ** What can be sent *)

Definition wf_assignment (ra : CreateTopicsReplicaAssignment) : Prop :=
  in_i32 (Partition ra) /\ is_Some (Replicas ra) /\ arr_ok (default [] (Replicas ra)) /\
  Forall in_i32 (default [] (Replicas ra)).
Definition wf_config (c : CreateTopicsConfig) : Prop := str_ok (Name c) /\ nstr_ok (Value c).
Definition wf_create (t : CreateTopicsRequestTopic) : Prop :=
  str_ok (Topic t) /\ in_i32 (NumPartitions t) /\ in_i16 (ReplicationFactor t) /\
  arr_ok (ReplicaAssignment t) /\ Forall wf_assignment (ReplicaAssignment t) /\
  arr_ok (Configs t) /\ Forall wf_config (Configs t).
Definition wf_create_request (r : CreateTopicsRequest) : Prop :=
  arr_ok (creates r) /\ Forall wf_create (creates r) /\ in_i32 (TimeoutMs r) /\
  ((1 <=? Version r) = false -> ValidateOnly r = false).
Definition wf_created (v : Z) (t : CreateTopicsResponseTopic) : Prop :=
  str_ok (resp_Topic t) /\ in_i16 (ErrorCode t) /\ nstr_ok (ErrorMessage t) /\
  ((1 <=? v) = false -> ErrorMessage t = None).
(** The encoder has version 5 fields the client's decoder does not know; the
    broker announces version 4 as its highest. *)
Definition wf_create_response (r : CreateTopicsResponse) : Prop :=
  (5 <=? resp_Version r) = false /\ in_i32 (ThrottleTimeMs r) /\
  ((2 <=? resp_Version r) = false -> ThrottleTimeMs r = 0) /\
  arr_ok (created r) /\ Forall (wf_created (resp_Version r)) (created r).
Definition wf_delete_request (r : DeleteTopicsRequest) : Prop :=
  arr_ok (TopicNames r) /\ Forall str_ok (TopicNames r) /\ in_i32 (del_TimeoutMs r).
Definition wf_deleted (v : Z) (t : DeleteTopicsResponseTopic) : Prop :=
  str_ok (del_Name t) /\ in_i16 (del_ErrorCode t) /\ nstr_ok (del_ErrorMessage t) /\
  ((5 <=? v) = false -> del_ErrorMessage t = None).
Definition wf_delete_response (r : DeleteTopicsResponse) : Prop :=
  in_i32 (dresp_ThrottleTimeMs r) /\
  ((1 <=? dresp_Version r) = false -> dresp_ThrottleTimeMs r = 0) /\
  arr_ok (deleted r) /\ Forall (wf_deleted (dresp_Version r)) (deleted r).

#[export] Instance wf_assignment_dec ra : Decision (wf_assignment ra).
Proof. unfold wf_assignment. apply _. Defined.
#[export] Instance wf_config_dec c : Decision (wf_config c).
Proof. unfold wf_config. apply _. Defined.
#[export] Instance wf_create_dec t : Decision (wf_create t).
Proof. unfold wf_create. apply _. Defined.
#[export] Instance wf_create_request_dec r : Decision (wf_create_request r).
Proof. unfold wf_create_request. apply _. Defined.
#[export] Instance wf_created_dec v t : Decision (wf_created v t).
Proof. unfold wf_created. apply _. Defined.
#[export] Instance wf_create_response_dec r : Decision (wf_create_response r).
Proof. unfold wf_create_response. apply _. Defined.
#[export] Instance wf_delete_request_dec r : Decision (wf_delete_request r).
Proof. unfold wf_delete_request. apply _. Defined.
#[export] Instance wf_deleted_dec v t : Decision (wf_deleted v t).
Proof. unfold wf_deleted. apply _. Defined.
#[export] Instance wf_delete_response_dec r : Decision (wf_delete_response r).
Proof. unfold wf_delete_response. apply _. Defined.

Lemma rt_replica_assignment ra : wf_assignment ra -> rt (encode_assignment ra) decode_assignment ra.
Proof.
  destruct ra as [p rs]. unfold wf_assignment, encode_assignment, decode_assignment. cbn.
  intros (? & [xs ->] & ? & ?). rt_fields. eapply rt_bind_last; [|apply rt_ret].
  by apply (rt_nullable_array_wf in_i32 WriteInt32 ReadInt32 (Some xs)); [| |apply rt_int32].
Qed.
Lemma rt_config c : wf_config c -> rt (encode_config c) decode_config c.
Proof. destruct c. unfold wf_config, encode_config, decode_config. cbn. rt_message. Qed.
#[local] Hint Resolve rt_replica_assignment rt_config : rt.
Lemma rt_create t : wf_create t -> rt (encode_create t) decode_create t.
Proof. destruct t. unfold wf_create, encode_create, decode_create. cbn. rt_message. Qed.
#[local] Hint Resolve rt_create : rt.
Lemma rt_create_request r :
  wf_create_request r -> rt (EncodeCreateTopicsRequest r) (DecodeCreateTopicsRequest (Version r)) r.
Proof. destruct r. unfold wf_create_request, EncodeCreateTopicsRequest, DecodeCreateTopicsRequest. cbn. rt_message. Qed.
Lemma rt_created v t :
  wf_created v t -> (5 <=? v) = false -> rt (encode_created v t) (decode_created v) t.
Proof.
  destruct t. unfold wf_created, encode_created, decode_created. cbn. intros (? & ? & ? & ?) ->.
  rt_fields.
Qed.
Lemma rt_create_response r :
  wf_create_response r ->
  rt (EncodeCreateTopicsResponse r) (DecodeCreateTopicsResponse (resp_Version r)) r.
Proof.
  destruct r. unfold wf_create_response, EncodeCreateTopicsResponse, DecodeCreateTopicsResponse. cbn.
  intros (? & ? & ? & ? & ?). rt_fields. eapply rt_bind_last; [|apply rt_ret].
  eapply rt_array_wf; [done|done|]. intros. by apply rt_created.
Qed.
Lemma rt_delete_request r :
  wf_delete_request r -> rt (EncodeDeleteTopicsRequest r) (DecodeDeleteTopicsRequest (del_Version r)) r.
Proof. destruct r. unfold wf_delete_request, EncodeDeleteTopicsRequest, DecodeDeleteTopicsRequest. cbn. rt_message. Qed.
Lemma rt_deleted v t : wf_deleted v t -> rt (encode_deleted v t) (decode_deleted v) t.
Proof.
  destruct t. unfold wf_deleted, encode_deleted, decode_deleted. cbn. intros (? & ? & ? & ?).
  eapply rt_bind; [by apply rt_string|]. cbv beta. rt_fields.
Qed.
#[local] Hint Resolve rt_deleted : rt.
Lemma rt_delete_response r :
  wf_delete_response r ->
  rt (EncodeDeleteTopicsResponse r) (DecodeDeleteTopicsResponse (dresp_Version r)) r.
Proof. destruct r. unfold wf_delete_response, EncodeDeleteTopicsResponse, DecodeDeleteTopicsResponse. cbn. rt_message. Qed.

#[export] Instance create_request_codec : Codec CreateTopicsRequest := {|
  enc := EncodeCreateTopicsRequest; dec := DecodeCreateTopicsRequest; ver := Version;
  wf_msg := wf_create_request; nf := id; codec_rt := rt_create_request |}.
#[export] Instance create_response_codec : Codec CreateTopicsResponse := {|
  enc := EncodeCreateTopicsResponse; dec := DecodeCreateTopicsResponse; ver := resp_Version;
  wf_msg := wf_create_response; nf := id; codec_rt := rt_create_response |}.
#[export] Instance delete_request_codec : Codec DeleteTopicsRequest := {|
  enc := EncodeDeleteTopicsRequest; dec := DecodeDeleteTopicsRequest; ver := del_Version;
  wf_msg := wf_delete_request; nf := id; codec_rt := rt_delete_request |}.
#[export] Instance delete_response_codec : Codec DeleteTopicsResponse := {|
  enc := EncodeDeleteTopicsResponse; dec := DecodeDeleteTopicsResponse; ver := dresp_Version;
  wf_msg := wf_delete_response; nf := id; codec_rt := rt_delete_response |}.

End Topics.

Module Session.

(** *** api_versions.go, client_apiversions.go *)

Record ApiVersionsRequest := mkApiVersionsRequest { av_Version : Z }.
Record ApiKeySupport := mkApiKeySupport { ApiKey : Z; MinVersion : Z; MaxVersion : Z }.
Record ApiVersionsResponse := mkApiVersionsResponse {
  avr_Version : Z; avr_ErrorCode : Z; ApiKeys : list ApiKeySupport; avr_ThrottleTimeMs : Z }.

Definition DecodeApiVersionsRequest (version : Z) : M ApiVersionsRequest :=
  ret (mkApiVersionsRequest version).
Definition EncodeApiVersionsRequest (req : ApiVersionsRequest) : W := id.

Definition encode_key (k : ApiKeySupport) : W :=
  WriteInt16 (ApiKey k) +> WriteInt16 (MinVersion k) +> WriteInt16 (MaxVersion k).

(** From version 3 the response is in the compact encoding. *)
Definition EncodeApiVersionsResponse (resp : ApiVersionsResponse) : W :=
  if 3 <=? avr_Version resp then
    WriteInt16 (avr_ErrorCode resp)
    +> WriteCompactArrayLen (zlen (ApiKeys resp))
    +> for_each (ApiKeys resp) (fun k => encode_key k +> WriteTaggedFields)
    +> WriteInt32 (avr_ThrottleTimeMs resp) +> WriteTaggedFields
  else
    WriteInt16 (avr_ErrorCode resp)
    +> write_array encode_key (ApiKeys resp)
    +> when (1 <=? avr_Version resp) (WriteInt32 (avr_ThrottleTimeMs resp)).

Definition decode_key : M ApiKeySupport :=
  let! k := ReadInt16 in
  let! mn := ReadInt16 in
  let! mx := ReadInt16 in
  ret (mkApiKeySupport k mn mx).

Definition DecodeApiVersionsResponse (version : Z) : M ApiVersionsResponse :=
  let! e := ReadInt16 in
  let! ks := read_array decode_key in
  let! throttle := read_if (1 <=? version) ReadInt32 0 in
  ret (mkApiVersionsResponse version e ks throttle).

(** *** idempotent.go *)

Record InitProducerIdRequest := mkInitProducerIdRequest {
  ip_Version : Z; TransactionalID : option gostring; TransactionTimeoutMs : Z;
  ip_ProducerID : Z; ip_ProducerEpoch : Z }.
Record InitProducerIdResponse := mkInitProducerIdResponse {
  ipr_Version : Z; ipr_ThrottleTimeMs : Z; ipr_ErrorCode : Z; ProducerID : Z; ProducerEpoch : Z }.

Definition DecodeInitProducerIdRequest (version : Z) : M InitProducerIdRequest :=
  let! txn := ReadNullableString in
  let! timeout := ReadInt32 in
  let! pid := read_if (2 <=? version) ReadInt64 0 in
  let! epoch := read_if (2 <=? version) ReadInt16 0 in
  ret (mkInitProducerIdRequest version txn timeout pid epoch).

Definition EncodeInitProducerIdRequest (req : InitProducerIdRequest) : W :=
  WriteNullableString (TransactionalID req) +> WriteInt32 (TransactionTimeoutMs req)
  +> when (2 <=? ip_Version req) (WriteInt64 (ip_ProducerID req))
  +> when (2 <=? ip_Version req) (WriteInt16 (ip_ProducerEpoch req)).

Definition EncodeInitProducerIdResponse (resp : InitProducerIdResponse) : W :=
  when (1 <=? ipr_Version resp) (WriteInt32 (ipr_ThrottleTimeMs resp))
  +> WriteInt16 (ipr_ErrorCode resp) +> WriteInt64 (ProducerID resp)
  +> WriteInt16 (ProducerEpoch resp).

Definition DecodeInitProducerIdResponse (version : Z) : M InitProducerIdResponse :=
  let! throttle := read_if (1 <=? version) ReadInt32 0 in
  let! e := ReadInt16 in
  let! pid := ReadInt64 in
  let! epoch := ReadInt16 in
  ret (mkInitProducerIdResponse version throttle e pid epoch).

(** *** sasl.go *)

Record SASLHandshakeRequest := mkSASLHandshakeRequest { sh_Version : Z; Mechanism : gostring }.
Record SASLHandshakeResponse := mkSASLHandshakeResponse {
  shr_Version : Z; shr_ErrorCode : Z; Mechanisms : option (list gostring) }.
Record SaslAuthenticateRequest := mkSaslAuthenticateRequest { sa_Version : Z; AuthBytes : gobytes }.
Record SaslAuthenticateResponse := mkSaslAuthenticateResponse {
  sar_Version : Z; sar_ErrorCode : Z; sar_ErrorMessage : option gostring; sar_AuthBytes : gobytes;
  SessionLifetimeMs : Z }.

Definition DecodeSASLHandshakeRequest (version : Z) : M SASLHandshakeRequest :=
  let! m := ReadString in ret (mkSASLHandshakeRequest version m).
Definition EncodeSASLHandshakeRequest (req : SASLHandshakeRequest) : W :=
  WriteString (Mechanism req).
Definition EncodeSASLHandshakeResponse (resp : SASLHandshakeResponse) : W :=
  WriteInt16 (shr_ErrorCode resp) +>
  match Mechanisms resp with
  | None => WriteArrayLen (-1)
  | Some ms => write_array WriteString ms
  end.
Definition DecodeSASLHandshakeResponse (version : Z) : M SASLHandshakeResponse :=
  let! e := ReadInt16 in
  let! ms := read_array ReadString in
  ret (mkSASLHandshakeResponse version e (Some ms)).

Definition DecodeSaslAuthenticateRequest (version : Z) : M SaslAuthenticateRequest :=
  let! b := ReadBytes in ret (mkSaslAuthenticateRequest version b).
Definition EncodeSaslAuthenticateRequest (req : SaslAuthenticateRequest) : W :=
  WriteBytes (AuthBytes req).
Definition EncodeSaslAuthenticateResponse (resp : SaslAuthenticateResponse) : W :=
  WriteInt16 (sar_ErrorCode resp) +> WriteNullableString (sar_ErrorMessage resp)
  +> write_nonnull_bytes (sar_AuthBytes resp)
  +> when (1 <=? sar_Version resp) (WriteInt64 (SessionLifetimeMs resp)).
Definition DecodeSaslAuthenticateResponse (version : Z) : M SaslAuthenticateResponse :=
  let! e := ReadInt16 in
  let! m := ReadNullableString in
  let! b := ReadBytes in
  let! life := read_if (1 <=? version) ReadInt64 0 in
  ret (mkSaslAuthenticateResponse version e m b life).

(** ** What can be sent *)

Definition wf_key (k : ApiKeySupport) : Prop :=
  in_i16 (ApiKey k) /\ in_i16 (MinVersion k) /\ in_i16 (MaxVersion k).
Definition wf_api_versions (r : ApiVersionsResponse) : Prop :=
  (3 <=? avr_Version r) = false /\ in_i16 (avr_ErrorCode r) /\ arr_ok (ApiKeys r) /\
  Forall wf_key (ApiKeys r) /\ in_i32 (avr_ThrottleTimeMs r) /\
  ((1 <=? avr_Version r) = false -> avr_ThrottleTimeMs r = 0).
Definition wf_init_request (r : InitProducerIdRequest) : Prop :=
  nstr_ok (TransactionalID r) /\ in_i32 (TransactionTimeoutMs r) /\ in_i64 (ip_ProducerID r) /\
  in_i16 (ip_ProducerEpoch r) /\ ((2 <=? ip_Version r) = false -> ip_ProducerID r = 0) /\
  ((2 <=? ip_Version r) = false -> ip_ProducerEpoch r = 0).
Definition wf_init_response (r : InitProducerIdResponse) : Prop :=
  in_i32 (ipr_ThrottleTimeMs r) /\ ((1 <=? ipr_Version r) = false -> ipr_ThrottleTimeMs r = 0) /\
  in_i16 (ipr_ErrorCode r) /\ in_i64 (ProducerID r) /\ in_i16 (ProducerEpoch r).
Definition wf_handshake_response (r : SASLHandshakeResponse) : Prop :=
  in_i16 (shr_ErrorCode r) /\ is_Some (Mechanisms r) /\ arr_ok (default [] (Mechanisms r)) /\
  Forall str_ok (default [] (Mechanisms r)).
Definition wf_auth_response (r : SaslAuthenticateResponse) : Prop :=
  in_i16 (sar_ErrorCode r) /\ nstr_ok (sar_ErrorMessage r) /\ bytes_ok (sar_AuthBytes r) /\
  in_i64 (SessionLifetimeMs r) /\ ((1 <=? sar_Version r) = false -> SessionLifetimeMs r = 0).
Definition norm_auth (r : SaslAuthenticateResponse) : SaslAuthenticateResponse :=
  mkSaslAuthenticateResponse (sar_Version r) (sar_ErrorCode r) (sar_ErrorMessage r)
    (Some (default [] (sar_AuthBytes r))) (SessionLifetimeMs r).

#[export] Instance wf_key_dec k : Decision (wf_key k).
Proof. unfold wf_key. apply _. Defined.
#[export] Instance wf_api_versions_dec r : Decision (wf_api_versions r).
Proof. unfold wf_api_versions. apply _. Defined.
#[export] Instance wf_init_request_dec r : Decision (wf_init_request r).
Proof. unfold wf_init_request. apply _. Defined.
#[export] Instance wf_init_response_dec r : Decision (wf_init_response r).
Proof. unfold wf_init_response. apply _. Defined.
#[export] Instance wf_handshake_response_dec r : Decision (wf_handshake_response r).
Proof. unfold wf_handshake_response. apply _. Defined.
#[export] Instance wf_auth_response_dec r : Decision (wf_auth_response r).
Proof. unfold wf_auth_response. apply _. Defined.

Lemma rt_key k : wf_key k -> rt (encode_key k) decode_key k.
Proof. destruct k. unfold wf_key, encode_key, decode_key. cbn. rt_message. Qed.
#[local] Hint Resolve rt_key : rt.
Lemma rt_api_versions r :
  wf_api_versions r -> rt (EncodeApiVersionsResponse r) (DecodeApiVersionsResponse (avr_Version r)) r.
Proof.
  destruct r. unfold wf_api_versions, EncodeApiVersionsResponse, DecodeApiVersionsResponse. cbn.
  intros (-> & ? & ? & ? & ? & ?). rt_fields.
Qed.
Lemma rt_init_request r :
  wf_init_request r -> rt (EncodeInitProducerIdRequest r) (DecodeInitProducerIdRequest (ip_Version r)) r.
Proof. destruct r. unfold wf_init_request, EncodeInitProducerIdRequest, DecodeInitProducerIdRequest. cbn. rt_message. Qed.
Lemma rt_init_response r :
  wf_init_response r -> rt (EncodeInitProducerIdResponse r) (DecodeInitProducerIdResponse (ipr_Version r)) r.
Proof. destruct r. unfold wf_init_response, EncodeInitProducerIdResponse, DecodeInitProducerIdResponse. cbn. rt_message. Qed.
Lemma rt_handshake_request r :
  str_ok (Mechanism r) ->
  rt (EncodeSASLHandshakeRequest r) (DecodeSASLHandshakeRequest (sh_Version r)) r.
Proof. destruct r. unfold EncodeSASLHandshakeRequest, DecodeSASLHandshakeRequest. cbn. rt_message. Qed.
Lemma rt_handshake_response r :
  wf_handshake_response r ->
  rt (EncodeSASLHandshakeResponse r) (DecodeSASLHandshakeResponse (shr_Version r)) r.
Proof.
  destruct r as [v e ms]. unfold wf_handshake_response, EncodeSASLHandshakeResponse, DecodeSASLHandshakeResponse.
  cbn. intros (? & [xs ->] & ? & ?). cbn in *. rt_fields.
Qed.
Lemma rt_auth_request r :
  bytes_ok (AuthBytes r) ->
  rt (EncodeSaslAuthenticateRequest r) (DecodeSaslAuthenticateRequest (sa_Version r)) r.
Proof. destruct r. unfold EncodeSaslAuthenticateRequest, DecodeSaslAuthenticateRequest. cbn. rt_message. Qed.
Lemma rt_auth_response r :
  wf_auth_response r ->
  rt (EncodeSaslAuthenticateResponse r) (DecodeSaslAuthenticateResponse (sar_Version r)) (norm_auth r).
Proof. destruct r. unfold wf_auth_response, EncodeSaslAuthenticateResponse, DecodeSaslAuthenticateResponse, norm_auth. cbn. rt_message. Qed.

#[export] Instance api_versions_codec : Codec ApiVersionsResponse := {|
  enc := EncodeApiVersionsResponse; dec := DecodeApiVersionsResponse; ver := avr_Version;
  wf_msg := wf_api_versions; nf := id; codec_rt := rt_api_versions |}.
#[export] Instance init_request_codec : Codec InitProducerIdRequest := {|
  enc := EncodeInitProducerIdRequest; dec := DecodeInitProducerIdRequest; ver := ip_Version;
  wf_msg := wf_init_request; nf := id; codec_rt := rt_init_request |}.
#[export] Instance init_response_codec : Codec InitProducerIdResponse := {|
  enc := EncodeInitProducerIdResponse; dec := DecodeInitProducerIdResponse; ver := ipr_Version;
  wf_msg := wf_init_response; nf := id; codec_rt := rt_init_response |}.
#[export] Instance handshake_request_codec : Codec SASLHandshakeRequest := {|
  enc := EncodeSASLHandshakeRequest; dec := DecodeSASLHandshakeRequest; ver := sh_Version;
  wf_msg r := str_ok (Mechanism r); nf := id; codec_rt := rt_handshake_request |}.
#[export] Instance handshake_response_codec : Codec SASLHandshakeResponse := {|
  enc := EncodeSASLHandshakeResponse; dec := DecodeSASLHandshakeResponse; ver := shr_Version;
  wf_msg := wf_handshake_response; nf := id; codec_rt := rt_handshake_response |}.
#[export] Instance auth_request_codec : Codec SaslAuthenticateRequest := {|
  enc := EncodeSaslAuthenticateRequest; dec := DecodeSaslAuthenticateRequest; ver := sa_Version;
  wf_msg r := bytes_ok (AuthBytes r); nf := id; codec_rt := rt_auth_request |}.
#[export] Instance auth_response_codec : Codec SaslAuthenticateResponse := {|
  enc := EncodeSaslAuthenticateResponse; dec := DecodeSaslAuthenticateResponse; ver := sar_Version;
  wf_msg := wf_auth_response; nf := norm_auth; codec_rt := rt_auth_response |}.

End Session.
