(* ===== verification/MsgGroup.v ===== *)
(** * Consumer-group messages (pkg/protocol/group.go, client_group.go)

    The messages the group coordinator exchanges with its members, and the
    offset messages. Leaving a group has no client half in the library: only
    the broker's decoder and encoder are modelled. *)

From stdpp Require Import prelude list strings.
From Stdlib Require Import ZArith Lia.
From S2P Require Import Prelude GoBinary Wire MsgData MsgAdmin.

Module Membership.

Record FindCoordinatorRequest := mkFindCoordinatorRequest {
  fc_Version : Z; Key : gostring; KeyType : Z }.
Record FindCoordinatorResponse := mkFindCoordinatorResponse {
  fcr_Version : Z; fcr_ThrottleTimeMs : Z; fcr_ErrorCode : Z; fcr_ErrorMessage : option gostring;
  NodeID : Z; Host : gostring; Port : Z }.

Record JoinGroupRequestProtocol := mkJoinGroupRequestProtocol { Name : gostring; Metadata : gobytes }.
Record JoinGroupRequest := mkJoinGroupRequest {
  jg_Version : Z; jg_Group : gostring; SessionTimeoutMs : Z; RebalanceTimeoutMs : Z;
  jg_MemberID : gostring; jg_InstanceID : option gostring; ProtocolType : gostring;
  Protocols : list JoinGroupRequestProtocol }.
Record JoinGroupResponseMember := mkJoinGroupResponseMember {
  m_MemberID : gostring; m_InstanceID : option gostring; m_Metadata : gobytes }.
Record JoinGroupResponse := mkJoinGroupResponse {
  jgr_Version : Z; jgr_ThrottleTimeMs : Z; jgr_ErrorCode : Z; jgr_GenerationID : Z;
  ProtocolName : gostring; LeaderID : gostring; jgr_MemberID : gostring;
  Members : list JoinGroupResponseMember }.

Record SyncGroupRequestAssignment := mkSyncGroupRequestAssignment {
  a_MemberID : gostring; a_Assignment : gobytes }.
Record SyncGroupRequest := mkSyncGroupRequest {
  sg_Version : Z; sg_Group : gostring; sg_GenerationID : Z; sg_MemberID : gostring;
  sg_InstanceID : option gostring; Assignments : list SyncGroupRequestAssignment }.
Record SyncGroupResponse := mkSyncGroupResponse {
  sgr_Version : Z; sgr_ThrottleTimeMs : Z; sgr_ErrorCode : Z; Assignment : gobytes }.

Record HeartbeatRequest := mkHeartbeatRequest {
  hb_Version : Z; hb_Group : gostring; hb_GenerationID : Z; hb_MemberID : gostring;
  hb_InstanceID : option gostring }.
Record HeartbeatResponse := mkHeartbeatResponse {
  hbr_Version : Z; hbr_ThrottleTimeMs : Z; hbr_ErrorCode : Z }.

Record LeaveGroupRequestMember := mkLeaveGroupRequestMember {
  l_MemberID : gostring; l_InstanceID : option gostring }.
Record LeaveGroupRequest := mkLeaveGroupRequest {
  lg_Version : Z; lg_Group : gostring; lg_MemberID : gostring; lg_Members : list LeaveGroupRequestMember }.
Record LeaveGroupResponseMember := mkLeaveGroupResponseMember {
  lr_MemberID : gostring; lr_InstanceID : option gostring }.
Record LeaveGroupResponse := mkLeaveGroupResponse {
  lgr_Version : Z; lgr_ThrottleTimeMs : Z; lgr_ErrorCode : Z; lgr_Members : list LeaveGroupResponseMember }.

(** ** The broker's half (group.go) *)

Definition DecodeFindCoordinatorRequest (version : Z) : M FindCoordinatorRequest :=
  let! key := ReadString in
  let! kt := read_if (1 <=? version) ReadInt8 0 in
  ret (mkFindCoordinatorRequest version key kt).

Definition EncodeFindCoordinatorResponse (resp : FindCoordinatorResponse) : W :=
  when (1 <=? fcr_Version resp) (WriteInt32 (fcr_ThrottleTimeMs resp))
  +> WriteInt16 (fcr_ErrorCode resp)
  +> when (1 <=? fcr_Version resp) (WriteNullableString (fcr_ErrorMessage resp))
  +> WriteInt32 (NodeID resp) +> WriteString (Host resp) +> WriteInt32 (Port resp).

Definition decode_protocol : M JoinGroupRequestProtocol :=
  let! n := ReadString in
  let! m := ReadBytes in
  ret (mkJoinGroupRequestProtocol n m).

Definition DecodeJoinGroupRequest (version : Z) : M JoinGroupRequest :=
  let! group := ReadString in
  let! session := ReadInt32 in
  let! rebalance := read_if (1 <=? version) ReadInt32 session in
  let! member := ReadString in
  let! instance := read_if (5 <=? version) ReadNullableString None in
  let! pt := ReadString in
  let! ps := read_array decode_protocol in
  ret (mkJoinGroupRequest version group session rebalance member instance pt ps).

Definition encode_member (version : Z) (m : JoinGroupResponseMember) : W :=
  WriteString (m_MemberID m)
  +> when (5 <=? version) (WriteNullableString (m_InstanceID m))
  +> write_nonnull_bytes (m_Metadata m).

Definition EncodeJoinGroupResponse (resp : JoinGroupResponse) : W :=
  when (2 <=? jgr_Version resp) (WriteInt32 (jgr_ThrottleTimeMs resp))
  +> WriteInt16 (jgr_ErrorCode resp) +> WriteInt32 (jgr_GenerationID resp)
  +> (if 7 <=? jgr_Version resp
      then WriteNullableString None +> WriteNullableString (Some (ProtocolName resp))
      else WriteString (ProtocolName resp))
  +> WriteString (LeaderID resp) +> WriteString (jgr_MemberID resp)
  +> write_array (encode_member (jgr_Version resp)) (Members resp).

Definition decode_assignment : M SyncGroupRequestAssignment :=
  let! m := ReadString in
  let! a := ReadBytes in
  ret (mkSyncGroupRequestAssignment m a).

(** The two protocol fields of version 5, read and dropped. *)
Definition read_two_nulls (c : bool) : M unit :=
  read_if c (let! _ := ReadNullableString in let! _ := ReadNullableString in ret tt) tt.

Definition DecodeSyncGroupRequest (version : Z) : M SyncGroupRequest :=
  let! group := ReadString in
  let! gen := ReadInt32 in
  let! member := ReadString in
  let! instance := read_if (3 <=? version) ReadNullableString None in
  let! _ := read_two_nulls (5 <=? version) in
  let! as_ := read_array decode_assignment in
  ret (mkSyncGroupRequest version group gen member instance as_).

Definition EncodeSyncGroupResponse (resp : SyncGroupResponse) : W :=
  when (1 <=? sgr_Version resp) (WriteInt32 (sgr_ThrottleTimeMs resp))
  +> WriteInt16 (sgr_ErrorCode resp)
  +> when (5 <=? sgr_Version resp) (WriteNullableString None +> WriteNullableString None)
  +> write_nonnull_bytes (Assignment resp).

Definition DecodeHeartbeatRequest (version : Z) : M HeartbeatRequest :=
  let! group := ReadString in
  let! gen := ReadInt32 in
  let! member := ReadString in
  let! instance := read_if (3 <=? version) ReadNullableString None in
  ret (mkHeartbeatRequest version group gen member instance).

Definition EncodeHeartbeatResponse (resp : HeartbeatResponse) : W :=
  when (1 <=? hbr_Version resp) (WriteInt32 (hbr_ThrottleTimeMs resp))
  +> WriteInt16 (hbr_ErrorCode resp).

Definition decode_leaving (version : Z) : M LeaveGroupRequestMember :=
  let! m := ReadString in
  let! i := ReadNullableString in
  let! _ := read_if (5 <=? version) ReadNullableString None in
  ret (mkLeaveGroupRequestMember m i).

Definition DecodeLeaveGroupRequest (version : Z) : M LeaveGroupRequest :=
  let! group := ReadString in
  if version <? 3 then
    let! m := ReadString in ret (mkLeaveGroupRequest version group m [])
  else
    let! ms := read_array (decode_leaving version) in
    ret (mkLeaveGroupRequest version group [] ms).

Definition encode_left (version : Z) (m : LeaveGroupResponseMember) : W :=
  WriteString (lr_MemberID m) +> WriteNullableString (lr_InstanceID m)
  +> when (4 <=? version) (WriteInt16 0).

Definition EncodeLeaveGroupResponse (resp : LeaveGroupResponse) : W :=
  when (1 <=? lgr_Version resp) (WriteInt32 (lgr_ThrottleTimeMs resp))
  +> WriteInt16 (lgr_ErrorCode resp)
  +> when (3 <=? lgr_Version resp) (write_array (encode_left (lgr_Version resp)) (lgr_Members resp)).

(** ** The client's half (client_group.go) *)

Definition EncodeFindCoordinatorRequest (req : FindCoordinatorRequest) : W :=
  WriteString (Key req) +> when (1 <=? fc_Version req) (WriteInt8 (KeyType req)).

Definition DecodeFindCoordinatorResponse (version : Z) : M FindCoordinatorResponse :=
  let! throttle := read_if (1 <=? version) ReadInt32 0 in
  let! e := ReadInt16 in
  let! m := read_if (1 <=? version) ReadNullableString None in
  let! node := ReadInt32 in
  let! host := ReadString in
  let! port := ReadInt32 in
  ret (mkFindCoordinatorResponse version throttle e m node host port).

Definition encode_protocol (p : JoinGroupRequestProtocol) : W :=
  WriteString (Name p) +> WriteBytes (Metadata p).

Definition EncodeJoinGroupRequest (req : JoinGroupRequest) : W :=
  WriteString (jg_Group req) +> WriteInt32 (SessionTimeoutMs req)
  +> when (1 <=? jg_Version req) (WriteInt32 (RebalanceTimeoutMs req))
  +> WriteString (jg_MemberID req)
  +> when (5 <=? jg_Version req) (WriteNullableString (jg_InstanceID req))
  +> WriteString (ProtocolType req)
  +> write_array encode_protocol (Protocols req).

Definition decode_member (version : Z) : M JoinGroupResponseMember :=
  let! m := ReadString in
  let! i := read_if (5 <=? version) ReadNullableString None in
  let! b := ReadBytes in
  ret (mkJoinGroupResponseMember m i b).

Definition read_protocol_name (version : Z) : M gostring :=
  if 7 <=? version then
    let! _ := ReadNullableString in
    let! pn := ReadNullableString in
    ret (default [] pn)
  else ReadString.

Definition DecodeJoinGroupResponse (version : Z) : M JoinGroupResponse :=
  let! throttle := read_if (2 <=? version) ReadInt32 0 in
  let! e := ReadInt16 in
  let! gen := ReadInt32 in
  let! name := read_protocol_name version in
  let! leader := ReadString in
  let! member := ReadString in
  let! ms := read_array (decode_member version) in
  ret (mkJoinGroupResponse version throttle e gen name leader member ms).

Definition encode_assignment (a : SyncGroupRequestAssignment) : W :=
  WriteString (a_MemberID a) +> WriteBytes (a_Assignment a).

Definition EncodeSyncGroupRequest (req : SyncGroupRequest) : W :=
  WriteString (sg_Group req) +> WriteInt32 (sg_GenerationID req) +> WriteString (sg_MemberID req)
  +> when (3 <=? sg_Version req) (WriteNullableString (sg_InstanceID req))
  +> when (5 <=? sg_Version req) (WriteNullableString None +> WriteNullableString None)
  +> write_array encode_assignment (Assignments req).

Definition DecodeSyncGroupResponse (version : Z) : M SyncGroupResponse :=
  let! throttle := read_if (1 <=? version) ReadInt32 0 in
  let! e := ReadInt16 in
  let! _ := read_two_nulls (5 <=? version) in
  let! a := ReadBytes in
  ret (mkSyncGroupResponse version throttle e a).

Definition EncodeHeartbeatRequest (req : HeartbeatRequest) : W :=
  WriteString (hb_Group req) +> WriteInt32 (hb_GenerationID req) +> WriteString (hb_MemberID req)
  +> when (3 <=? hb_Version req) (WriteNullableString (hb_InstanceID req)).

Definition DecodeHeartbeatResponse (version : Z) : M HeartbeatResponse :=
  let! throttle := read_if (1 <=? version) ReadInt32 0 in
  let! e := ReadInt16 in
  ret (mkHeartbeatResponse version throttle e).

(** ** What can be sent *)

Definition wf_find_request (r : FindCoordinatorRequest) : Prop :=
  str_ok (Key r) /\ in_i8 (KeyType r) /\ ((1 <=? fc_Version r) = false -> KeyType r = 0).
Definition wf_find_response (r : FindCoordinatorResponse) : Prop :=
  in_i32 (fcr_ThrottleTimeMs r) /\ ((1 <=? fcr_Version r) = false -> fcr_ThrottleTimeMs r = 0) /\
  in_i16 (fcr_ErrorCode r) /\ nstr_ok (fcr_ErrorMessage r) /\
  ((1 <=? fcr_Version r) = false -> fcr_ErrorMessage r = None) /\
  in_i32 (NodeID r) /\ str_ok (Host r) /\ in_i32 (Port r).
Definition wf_protocol (p : JoinGroupRequestProtocol) : Prop := str_ok (Name p) /\ bytes_ok (Metadata p).
Definition wf_join_request (r : JoinGroupRequest) : Prop :=
  str_ok (jg_Group r) /\ in_i32 (SessionTimeoutMs r) /\ in_i32 (RebalanceTimeoutMs r) /\
  ((1 <=? jg_Version r) = false -> RebalanceTimeoutMs r = SessionTimeoutMs r) /\
  str_ok (jg_MemberID r) /\ nstr_ok (jg_InstanceID r) /\
  ((5 <=? jg_Version r) = false -> jg_InstanceID r = None) /\
  str_ok (ProtocolType r) /\ arr_ok (Protocols r) /\ Forall wf_protocol (Protocols r).
Definition wf_member (v : Z) (m : JoinGroupResponseMember) : Prop :=
  str_ok (m_MemberID m) /\ nstr_ok (m_InstanceID m) /\
  ((5 <=? v) = false -> m_InstanceID m = None) /\ bytes_ok (m_Metadata m).
Definition wf_join_response (r : JoinGroupResponse) : Prop :=
  in_i32 (jgr_ThrottleTimeMs r) /\ ((2 <=? jgr_Version r) = false -> jgr_ThrottleTimeMs r = 0) /\
  in_i16 (jgr_ErrorCode r) /\ in_i32 (jgr_GenerationID r) /\ str_ok (ProtocolName r) /\
  str_ok (LeaderID r) /\ str_ok (jgr_MemberID r) /\ arr_ok (Members r) /\
  Forall (wf_member (jgr_Version r)) (Members r).
Definition wf_assignment (a : SyncGroupRequestAssignment) : Prop :=
  str_ok (a_MemberID a) /\ bytes_ok (a_Assignment a).
Definition wf_sync_request (r : SyncGroupRequest) : Prop :=
  str_ok (sg_Group r) /\ in_i32 (sg_GenerationID r) /\ str_ok (sg_MemberID r) /\
  nstr_ok (sg_InstanceID r) /\ ((3 <=? sg_Version r) = false -> sg_InstanceID r = None) /\
  arr_ok (Assignments r) /\ Forall wf_assignment (Assignments r).
Definition wf_sync_response (r : SyncGroupResponse) : Prop :=
  in_i32 (sgr_ThrottleTimeMs r) /\ ((1 <=? sgr_Version r) = false -> sgr_ThrottleTimeMs r = 0) /\
  in_i16 (sgr_ErrorCode r) /\ bytes_ok (Assignment r).
Definition wf_heartbeat_request (r : HeartbeatRequest) : Prop :=
  str_ok (hb_Group r) /\ in_i32 (hb_GenerationID r) /\ str_ok (hb_MemberID r) /\
  nstr_ok (hb_InstanceID r) /\ ((3 <=? hb_Version r) = false -> hb_InstanceID r = None).
Definition wf_heartbeat_response (r : HeartbeatResponse) : Prop :=
  in_i32 (hbr_ThrottleTimeMs r) /\ ((1 <=? hbr_Version r) = false -> hbr_ThrottleTimeMs r = 0) /\
  in_i16 (hbr_ErrorCode r).

Definition norm_member (m : JoinGroupResponseMember) : JoinGroupResponseMember :=
  mkJoinGroupResponseMember (m_MemberID m) (m_InstanceID m) (Some (default [] (m_Metadata m))).
Definition norm_join (r : JoinGroupResponse) : JoinGroupResponse :=
  mkJoinGroupResponse (jgr_Version r) (jgr_ThrottleTimeMs r) (jgr_ErrorCode r) (jgr_GenerationID r)
    (ProtocolName r) (LeaderID r) (jgr_MemberID r) (map norm_member (Members r)).
Definition norm_sync (r : SyncGroupResponse) : SyncGroupResponse :=
  mkSyncGroupResponse (sgr_Version r) (sgr_ThrottleTimeMs r) (sgr_ErrorCode r)
    (Some (default [] (Assignment r))).

#[export] Instance wf_find_request_dec r : Decision (wf_find_request r).
Proof. unfold wf_find_request. apply _. Defined.
#[export] Instance wf_find_response_dec r : Decision (wf_find_response r).
Proof. unfold wf_find_response. apply _. Defined.
#[export] Instance wf_protocol_dec p : Decision (wf_protocol p).
Proof. unfold wf_protocol. apply _. Defined.
#[export] Instance wf_join_request_dec r : Decision (wf_join_request r).
Proof. unfold wf_join_request. apply _. Defined.
#[export] Instance wf_member_dec v m : Decision (wf_member v m).
Proof. unfold wf_member. apply _. Defined.
#[export] Instance wf_join_response_dec r : Decision (wf_join_response r).
Proof. unfold wf_join_response. apply _. Defined.
#[export] Instance wf_assignment_dec a : Decision (wf_assignment a).
Proof. unfold wf_assignment. apply _. Defined.
#[export] Instance wf_sync_request_dec r : Decision (wf_sync_request r).
Proof. unfold wf_sync_request. apply _. Defined.
#[export] Instance wf_sync_response_dec r : Decision (wf_sync_response r).
Proof. unfold wf_sync_response. apply _. Defined.
#[export] Instance wf_heartbeat_request_dec r : Decision (wf_heartbeat_request r).
Proof. unfold wf_heartbeat_request. apply _. Defined.
#[export] Instance wf_heartbeat_response_dec r : Decision (wf_heartbeat_response r).
Proof. unfold wf_heartbeat_response. apply _. Defined.

Lemma rt_find_request r :
  wf_find_request r -> rt (EncodeFindCoordinatorRequest r) (DecodeFindCoordinatorRequest (fc_Version r)) r.
Proof. destruct r. unfold wf_find_request, EncodeFindCoordinatorRequest, DecodeFindCoordinatorRequest. cbn. rt_message. Qed.
Lemma rt_find_response r :
  wf_find_response r -> rt (EncodeFindCoordinatorResponse r) (DecodeFindCoordinatorResponse (fcr_Version r)) r.
Proof. destruct r. unfold wf_find_response, EncodeFindCoordinatorResponse, DecodeFindCoordinatorResponse. cbn. rt_message. Qed.
Lemma rt_protocol p : wf_protocol p -> rt (encode_protocol p) decode_protocol p.
Proof. destruct p. unfold wf_protocol, encode_protocol, decode_protocol. cbn. rt_message. Qed.
#[local] Hint Resolve rt_protocol : rt.
Lemma rt_join_request r :
  wf_join_request r -> rt (EncodeJoinGroupRequest r) (DecodeJoinGroupRequest (jg_Version r)) r.
Proof. destruct r. unfold wf_join_request, EncodeJoinGroupRequest, DecodeJoinGroupRequest. cbn. rt_message. Qed.
Lemma rt_member v m :
  wf_member v m -> rt (encode_member v m) (decode_member v) (norm_member m).
Proof. destruct m. unfold wf_member, encode_member, decode_member, norm_member. cbn. rt_message. Qed.
Lemma rt_protocol_name v name :
  str_ok name ->
  rt (if 7 <=? v then WriteNullableString None +> WriteNullableString (Some name)
      else WriteString name) (read_protocol_name v) name.
Proof.
  intros Hn. unfold read_protocol_name. destruct (7 <=? v); [|by apply rt_string].
  eapply rt_bind; [by apply (rt_nullable_string None)|]. cbv beta.
  eapply rt_bind_last; [by apply (rt_nullable_string (Some name))|]. cbn. apply rt_ret.
Qed.
#[local] Hint Resolve rt_protocol_name : rt.
Lemma rt_join_response r :
  wf_join_response r ->
  rt (EncodeJoinGroupResponse r) (DecodeJoinGroupResponse (jgr_Version r)) (norm_join r).
Proof.
  destruct r. unfold wf_join_response, EncodeJoinGroupResponse, DecodeJoinGroupResponse, norm_join. cbn.
  intros (? & ? & ? & ? & ? & ? & ? & ? & ?). rt_fields.
  eapply rt_bind_last; [|apply rt_ret]. eapply rt_array_nf; [done|done|apply rt_member].
Qed.
Lemma rt_assignment a : wf_assignment a -> rt (encode_assignment a) decode_assignment a.
Proof. destruct a. unfold wf_assignment, encode_assignment, decode_assignment. cbn. rt_message. Qed.
Lemma rt_two_nulls c :
  rt (when c (WriteNullableString None +> WriteNullableString None)) (read_two_nulls c) tt.
Proof. apply rt_if; [|done]. intros _. rt_fields. Qed.
#[local] Hint Resolve rt_assignment rt_two_nulls : rt.
Lemma rt_sync_request r :
  wf_sync_request r -> rt (EncodeSyncGroupRequest r) (DecodeSyncGroupRequest (sg_Version r)) r.
Proof. destruct r. unfold wf_sync_request, EncodeSyncGroupRequest, DecodeSyncGroupRequest. cbn. rt_message. Qed.
Lemma rt_sync_response r :
  wf_sync_response r -> rt (EncodeSyncGroupResponse r) (DecodeSyncGroupResponse (sgr_Version r)) (norm_sync r).
Proof. destruct r. unfold wf_sync_response, EncodeSyncGroupResponse, DecodeSyncGroupResponse, norm_sync. cbn. rt_message. Qed.
Lemma rt_heartbeat_request r :
  wf_heartbeat_request r -> rt (EncodeHeartbeatRequest r) (DecodeHeartbeatRequest (hb_Version r)) r.
Proof. destruct r. unfold wf_heartbeat_request, EncodeHeartbeatRequest, DecodeHeartbeatRequest. cbn. rt_message. Qed.
Lemma rt_heartbeat_response r :
  wf_heartbeat_response r -> rt (EncodeHeartbeatResponse r) (DecodeHeartbeatResponse (hbr_Version r)) r.
Proof. destruct r. unfold wf_heartbeat_response, EncodeHeartbeatResponse, DecodeHeartbeatResponse. cbn. rt_message. Qed.

#[export] Instance find_request_codec : Codec FindCoordinatorRequest := {|
  enc := EncodeFindCoordinatorRequest; dec := DecodeFindCoordinatorRequest; ver := fc_Version;
  wf_msg := wf_find_request; nf := id; codec_rt := rt_find_request |}.
#[export] Instance find_response_codec : Codec FindCoordinatorResponse := {|
  enc := EncodeFindCoordinatorResponse; dec := DecodeFindCoordinatorResponse; ver := fcr_Version;
  wf_msg := wf_find_response; nf := id; codec_rt := rt_find_response |}.
#[export] Instance join_request_codec : Codec JoinGroupRequest := {|
  enc := EncodeJoinGroupRequest; dec := DecodeJoinGroupRequest; ver := jg_Version;
  wf_msg := wf_join_request; nf := id; codec_rt := rt_join_request |}.
#[export] Instance join_response_codec : Codec JoinGroupResponse := {|
  enc := EncodeJoinGroupResponse; dec := DecodeJoinGroupResponse; ver := jgr_Version;
  wf_msg := wf_join_response; nf := norm_join; codec_rt := rt_join_response |}.
#[export] Instance sync_request_codec : Codec SyncGroupRequest := {|
  enc := EncodeSyncGroupRequest; dec := DecodeSyncGroupRequest; ver := sg_Version;
  wf_msg := wf_sync_request; nf := id; codec_rt := rt_sync_request |}.
#[export] Instance sync_response_codec : Codec SyncGroupResponse := {|
  enc := EncodeSyncGroupResponse; dec := DecodeSyncGroupResponse; ver := sgr_Version;
  wf_msg := wf_sync_response; nf := norm_sync; codec_rt := rt_sync_response |}.
#[export] Instance heartbeat_request_codec : Codec HeartbeatRequest := {|
  enc := EncodeHeartbeatRequest; dec := DecodeHeartbeatRequest; ver := hb_Version;
  wf_msg := wf_heartbeat_request; nf := id; codec_rt := rt_heartbeat_request |}.
#[export] Instance heartbeat_response_codec : Codec HeartbeatResponse := {|
  enc := EncodeHeartbeatResponse; dec := DecodeHeartbeatResponse; ver := hbr_Version;
  wf_msg := wf_heartbeat_response; nf := id; codec_rt := rt_heartbeat_response |}.

End Membership.

Module Offsets.

Record OffsetCommitRequestPartition := mkOffsetCommitRequestPartition {
  Partition : Z; Offset : Z; LeaderEpoch : Z; Metadata : option gostring }.
Record OffsetCommitRequestTopic := mkOffsetCommitRequestTopic {
  Topic : gostring; Partitions : list OffsetCommitRequestPartition }.
Record OffsetCommitRequest := mkOffsetCommitRequest {
  Version : Z; Group : gostring; Generation : Z; MemberID : gostring; InstanceID : option gostring;
  Topics : list OffsetCommitRequestTopic }.
Record OffsetCommitResponsePartition := mkOffsetCommitResponsePartition {
  r_Partition : Z; r_ErrorCode : Z }.
Record OffsetCommitResponseTopic := mkOffsetCommitResponseTopic {
  r_Topic : gostring; r_Partitions : list OffsetCommitResponsePartition }.
Record OffsetCommitResponse := mkOffsetCommitResponse {
  r_Version : Z; r_ThrottleTimeMs : Z; r_Topics : list OffsetCommitResponseTopic }.

Record OffsetFetchRequestTopic := mkOffsetFetchRequestTopic {
  of_Topic : gostring; of_Partitions : option (list Z) }.
Record OffsetFetchRequest := mkOffsetFetchRequest {
  of_Version : Z; of_Group : gostring; of_Topics : option (list OffsetFetchRequestTopic) }.
Record OffsetFetchResponsePartition := mkOffsetFetchResponsePartition {
  fr_Partition : Z; fr_Offset : Z; fr_LeaderEpoch : Z; fr_Metadata : option gostring;
  fr_ErrorCode : Z }.
Record OffsetFetchResponseTopic := mkOffsetFetchResponseTopic {
  fr_Topic : gostring; fr_Partitions : list OffsetFetchResponsePartition }.
Record OffsetFetchResponse := mkOffsetFetchResponse {
  ofr_Version : Z; ofr_ThrottleTimeMs : Z; ofr_Topics : list OffsetFetchResponseTopic;
  ofr_ErrorCode : Z }.

(** ** The broker's half *)

Definition decode_commit_partition (version : Z) : M OffsetCommitRequestPartition :=
  let! p := ReadInt32 in
  let! o := ReadInt64 in
  let! _ := read_if (version =? 1) ReadInt64 0 in
  let! e := read_if (6 <=? version) ReadInt32 0 in
  let! m := ReadNullableString in
  ret (mkOffsetCommitRequestPartition p o e m).

Definition decode_commit_topic (version : Z) : M OffsetCommitRequestTopic :=
  let! t := ReadString in
  let! ps := read_array (decode_commit_partition version) in
  ret (mkOffsetCommitRequestTopic t ps).

Definition DecodeOffsetCommitRequest (version : Z) : M OffsetCommitRequest :=
  let! group := ReadString in
  let! gen := read_if (1 <=? version) ReadInt32 0 in
  let! member := read_if (1 <=? version) ReadString [] in
  let! _ := read_if (version =? 1) ReadInt64 0 in
  let! instance := read_if (7 <=? version) ReadNullableString None in
  let! _ := read_if ((2 <=? version) && (version <=? 4)) ReadInt64 0 in
  let! topics := read_array (decode_commit_topic version) in
  ret (mkOffsetCommitRequest version group gen member instance topics).

Definition encode_committed_partition (p : OffsetCommitResponsePartition) : W :=
  WriteInt32 (r_Partition p) +> WriteInt16 (r_ErrorCode p).
Definition encode_committed_topic (t : OffsetCommitResponseTopic) : W :=
  WriteString (r_Topic t) +> write_array encode_committed_partition (r_Partitions t).
Definition EncodeOffsetCommitResponse (resp : OffsetCommitResponse) : W :=
  when (3 <=? r_Version resp) (WriteInt32 (r_ThrottleTimeMs resp))
  +> write_array encode_committed_topic (r_Topics resp).

Definition decode_fetch_topic : M OffsetFetchRequestTopic :=
  let! t := ReadString in
  let! ps := readInt32Array in
  ret (mkOffsetFetchRequestTopic t ps).

(** A null topic list ends the request: the flag of version 7 is not read. *)
Definition DecodeOffsetFetchRequest (version : Z) : M OffsetFetchRequest :=
  let! group := ReadString in
  let! n := ReadArrayLen in
  if n <? 0 then ret (mkOffsetFetchRequest version group None) else
  let! ts := read_list (Z.to_nat n) decode_fetch_topic in
  let! _ := read_if (7 <=? version) ReadBool false in
  ret (mkOffsetFetchRequest version group (Some ts)).

Definition encode_fetched_partition (version : Z) (p : OffsetFetchResponsePartition) : W :=
  WriteInt32 (fr_Partition p) +> WriteInt64 (fr_Offset p)
  +> when (5 <=? version) (WriteInt32 (fr_LeaderEpoch p))
  +> WriteNullableString (fr_Metadata p) +> WriteInt16 (fr_ErrorCode p).
Definition encode_fetched_topic (version : Z) (t : OffsetFetchResponseTopic) : W :=
  WriteString (fr_Topic t) +> write_array (encode_fetched_partition version) (fr_Partitions t).
Definition EncodeOffsetFetchResponse (resp : OffsetFetchResponse) : W :=
  when (3 <=? ofr_Version resp) (WriteInt32 (ofr_ThrottleTimeMs resp))
  +> write_array (encode_fetched_topic (ofr_Version resp)) (ofr_Topics resp)
  +> when (2 <=? ofr_Version resp) (WriteInt16 (ofr_ErrorCode resp)).

(** ** The client's half *)

Definition encode_commit_partition (version : Z) (p : OffsetCommitRequestPartition) : W :=
  WriteInt32 (Partition p) +> WriteInt64 (Offset p)
  +> when (version =? 1) (WriteInt64 0)
  +> when (6 <=? version) (WriteInt32 (LeaderEpoch p))
  +> WriteNullableString (Metadata p).
Definition encode_commit_topic (version : Z) (t : OffsetCommitRequestTopic) : W :=
  WriteString (Topic t) +> write_array (encode_commit_partition version) (Partitions t).
Definition EncodeOffsetCommitRequest (req : OffsetCommitRequest) : W :=
  WriteString (Group req)
  +> when (1 <=? Version req) (WriteInt32 (Generation req))
  +> when (1 <=? Version req) (WriteString (MemberID req))
  +> when (Version req =? 1) (WriteInt64 0)
  +> when (7 <=? Version req) (WriteNullableString (InstanceID req))
  +> when ((2 <=? Version req) && (Version req <=? 4)) (WriteInt64 0)
  +> write_array (encode_commit_topic (Version req)) (Topics req).

Definition decode_committed_partition : M OffsetCommitResponsePartition :=
  let! p := ReadInt32 in
  let! e := ReadInt16 in
  ret (mkOffsetCommitResponsePartition p e).
Definition decode_committed_topic : M OffsetCommitResponseTopic :=
  let! t := ReadString in
  let! ps := read_array decode_committed_partition in
  ret (mkOffsetCommitResponseTopic t ps).
Definition DecodeOffsetCommitResponse (version : Z) : M OffsetCommitResponse :=
  let! throttle := read_if (3 <=? version) ReadInt32 0 in
  let! ts := read_array decode_committed_topic in
  ret (mkOffsetCommitResponse version throttle ts).

Definition encode_fetch_topic (t : OffsetFetchRequestTopic) : W :=
  WriteString (of_Topic t) +> write_array WriteInt32 (default [] (of_Partitions t)).
Definition EncodeOffsetFetchRequest (req : OffsetFetchRequest) : W :=
  WriteString (of_Group req)
  +> match of_Topics req with
     | None => WriteArrayLen (-1)
     | Some ts => write_array encode_fetch_topic ts
     end
  +> when (7 <=? of_Version req) (WriteBool false).

Definition decode_fetched_partition (version : Z) : M OffsetFetchResponsePartition :=
  let! p := ReadInt32 in
  let! o := ReadInt64 in
  let! e := read_if (5 <=? version) ReadInt32 0 in
  let! m := ReadNullableString in
  let! err := ReadInt16 in
  ret (mkOffsetFetchResponsePartition p o e m err).
Definition decode_fetched_topic (version : Z) : M OffsetFetchResponseTopic :=
  let! t := ReadString in
  let! ps := read_array (decode_fetched_partition version) in
  ret (mkOffsetFetchResponseTopic t ps).
Definition DecodeOffsetFetchResponse (version : Z) : M OffsetFetchResponse :=
  let! throttle := read_if (3 <=? version) ReadInt32 0 in
  let! ts := read_array (decode_fetched_topic version) in
  let! e := read_if (2 <=? version) ReadInt16 0 in
  ret (mkOffsetFetchResponse version throttle ts e).

(** ** What can be sent *)

Definition wf_commit_partition (v : Z) (p : OffsetCommitRequestPartition) : Prop :=
  in_i32 (Partition p) /\ in_i64 (Offset p) /\ in_i32 (LeaderEpoch p) /\
  ((6 <=? v) = false -> LeaderEpoch p = 0) /\ nstr_ok (Metadata p).
Definition wf_commit_topic (v : Z) (t : OffsetCommitRequestTopic) : Prop :=
  str_ok (Topic t) /\ arr_ok (Partitions t) /\ Forall (wf_commit_partition v) (Partitions t).
Definition wf_commit_request (r : OffsetCommitRequest) : Prop :=
  str_ok (Group r) /\ in_i32 (Generation r) /\ ((1 <=? Version r) = false -> Generation r = 0) /\
  str_ok (MemberID r) /\ ((1 <=? Version r) = false -> MemberID r = []) /\
  nstr_ok (InstanceID r) /\ ((7 <=? Version r) = false -> InstanceID r = None) /\
  arr_ok (Topics r) /\ Forall (wf_commit_topic (Version r)) (Topics r).
Definition wf_committed_partition (p : OffsetCommitResponsePartition) : Prop :=
  in_i32 (r_Partition p) /\ in_i16 (r_ErrorCode p).
Definition wf_committed_topic (t : OffsetCommitResponseTopic) : Prop :=
  str_ok (r_Topic t) /\ arr_ok (r_Partitions t) /\ Forall wf_committed_partition (r_Partitions t).
Definition wf_commit_response (r : OffsetCommitResponse) : Prop :=
  in_i32 (r_ThrottleTimeMs r) /\ ((3 <=? r_Version r) = false -> r_ThrottleTimeMs r = 0) /\
  arr_ok (r_Topics r) /\ Forall wf_committed_topic (r_Topics r).
Definition wf_fetch_topic (t : OffsetFetchRequestTopic) : Prop :=
  str_ok (of_Topic t) /\ is_Some (of_Partitions t) /\ arr_ok (default [] (of_Partitions t)) /\
  Forall in_i32 (default [] (of_Partitions t)).
Definition wf_fetch_request (r : OffsetFetchRequest) : Prop :=
  str_ok (of_Group r) /\ (of_Topics r = None -> (7 <=? of_Version r) = false) /\
  from_option arr_ok True (of_Topics r) /\ Forall wf_fetch_topic (default [] (of_Topics r)).
Definition wf_fetched_partition (v : Z) (p : OffsetFetchResponsePartition) : Prop :=
  in_i32 (fr_Partition p) /\ in_i64 (fr_Offset p) /\ in_i32 (fr_LeaderEpoch p) /\
  ((5 <=? v) = false -> fr_LeaderEpoch p = 0) /\ nstr_ok (fr_Metadata p) /\ in_i16 (fr_ErrorCode p).
Definition wf_fetched_topic (v : Z) (t : OffsetFetchResponseTopic) : Prop :=
  str_ok (fr_Topic t) /\ arr_ok (fr_Partitions t) /\ Forall (wf_fetched_partition v) (fr_Partitions t).
Definition wf_fetch_response (r : OffsetFetchResponse) : Prop :=
  in_i32 (ofr_ThrottleTimeMs r) /\ ((3 <=? ofr_Version r) = false -> ofr_ThrottleTimeMs r = 0) /\
  arr_ok (ofr_Topics r) /\ Forall (wf_fetched_topic (ofr_Version r)) (ofr_Topics r) /\
  in_i16 (ofr_ErrorCode r) /\ ((2 <=? ofr_Version r) = false -> ofr_ErrorCode r = 0).

#[export] Instance wf_commit_partition_dec v p : Decision (wf_commit_partition v p).
Proof. unfold wf_commit_partition. apply _. Defined.
#[export] Instance wf_commit_topic_dec v t : Decision (wf_commit_topic v t).
Proof. unfold wf_commit_topic. apply _. Defined.
#[export] Instance wf_commit_request_dec r : Decision (wf_commit_request r).
Proof. unfold wf_commit_request. apply _. Defined.
#[export] Instance wf_committed_partition_dec p : Decision (wf_committed_partition p).
Proof. unfold wf_committed_partition. apply _. Defined.
#[export] Instance wf_committed_topic_dec t : Decision (wf_committed_topic t).
Proof. unfold wf_committed_topic. apply _. Defined.
#[export] Instance wf_commit_response_dec r : Decision (wf_commit_response r).
Proof. unfold wf_commit_response. apply _. Defined.
#[export] Instance wf_fetch_topic_dec t : Decision (wf_fetch_topic t).
Proof. unfold wf_fetch_topic. apply _. Defined.
#[export] Instance wf_fetch_request_dec r : Decision (wf_fetch_request r).
Proof.
  unfold wf_fetch_request. destruct (of_Topics r) as [ts|]; cbn; [|apply _].
  assert (Decision (Some ts = None -> (7 <=? of_Version r) = false)) by (left; discriminate).
  apply _.
Defined.
#[export] Instance wf_fetched_partition_dec v p : Decision (wf_fetched_partition v p).
Proof. unfold wf_fetched_partition. apply _. Defined.
#[export] Instance wf_fetched_topic_dec v t : Decision (wf_fetched_topic v t).
Proof. unfold wf_fetched_topic. apply _. Defined.
#[export] Instance wf_fetch_response_dec r : Decision (wf_fetch_response r).
Proof. unfold wf_fetch_response. apply _. Defined.

(** The retention times of the old versions: written as zero, dropped. *)
Lemma rt_zero_if c : rt (when c (WriteInt64 0)) (read_if c ReadInt64 0) 0.
Proof. apply rt_if; [intros _; apply rt_int64; mlia|done]. Qed.
#[local] Hint Resolve rt_zero_if | 0 : rt.

Lemma rt_commit_partition v p :
  wf_commit_partition v p -> rt (encode_commit_partition v p) (decode_commit_partition v) p.
Proof. destruct p. unfold wf_commit_partition, encode_commit_partition, decode_commit_partition. cbn. rt_message. Qed.
#[local] Hint Resolve rt_commit_partition : rt.
Lemma rt_commit_topic v t :
  wf_commit_topic v t -> rt (encode_commit_topic v t) (decode_commit_topic v) t.
Proof. destruct t. unfold wf_commit_topic, encode_commit_topic, decode_commit_topic. cbn. rt_message. Qed.
#[local] Hint Resolve rt_commit_topic : rt.
Lemma rt_commit_request r :
  wf_commit_request r -> rt (EncodeOffsetCommitRequest r) (DecodeOffsetCommitRequest (Version r)) r.
Proof. destruct r. unfold wf_commit_request, EncodeOffsetCommitRequest, DecodeOffsetCommitRequest. cbn. rt_message. Qed.
Lemma rt_committed_partition p :
  wf_committed_partition p -> rt (encode_committed_partition p) decode_committed_partition p.
Proof. destruct p. unfold wf_committed_partition, encode_committed_partition, decode_committed_partition. cbn. rt_message. Qed.
#[local] Hint Resolve rt_committed_partition : rt.
Lemma rt_committed_topic t :
  wf_committed_topic t -> rt (encode_committed_topic t) decode_committed_topic t.
Proof. destruct t. unfold wf_committed_topic, encode_committed_topic, decode_committed_topic. cbn. rt_message. Qed.
#[local] Hint Resolve rt_committed_topic : rt.
Lemma rt_commit_response r :
  wf_commit_response r -> rt (EncodeOffsetCommitResponse r) (DecodeOffsetCommitResponse (r_Version r)) r.
Proof. destruct r. unfold wf_commit_response, EncodeOffsetCommitResponse, DecodeOffsetCommitResponse. cbn. rt_message. Qed.
Lemma rt_offset_fetch_topic t : wf_fetch_topic t -> rt (encode_fetch_topic t) decode_fetch_topic t.
Proof.
  destruct t as [t ps]. unfold wf_fetch_topic, encode_fetch_topic, decode_fetch_topic. cbn.
  intros (? & [xs ->] & ? & ?). rt_fields. eapply rt_bind_last; [|apply rt_ret].
  by apply (rt_nullable_array_wf in_i32 WriteInt32 ReadInt32 (Some xs)); [| |apply rt_int32].
Qed.
Lemma rt_offset_fetch_request r :
  wf_fetch_request r -> rt (EncodeOffsetFetchRequest r) (DecodeOffsetFetchRequest (of_Version r)) r.
Proof.
  destruct r as [v g [ts|]]; unfold wf_fetch_request, EncodeOffsetFetchRequest, DecodeOffsetFetchRequest; cbn.
  - intros (? & _ & Hl & Hall). eapply rt_bind; [by apply rt_string|]. cbv beta.
    unfold arr_ok in Hl. pose proof (zlen_nonneg ts).
    apply (rt_ext (WriteArrayLen (zlen ts) +> for_each ts encode_fetch_topic
                   +> when (7 <=? v) (WriteBool false))); [done|].
    eapply rt_bind; [by apply rt_array_len|]. cbv beta.
    rewrite (proj2 (Z.ltb_ge _ _)) by lia. unfold zlen. rewrite Nat2Z.id.
    eapply rt_bind; [apply rt_list; eapply Forall_impl; [exact Hall|apply rt_offset_fetch_topic]|]. cbv beta.
    eapply rt_bind_last; [apply rt_if; [intros _; apply rt_bool|done]|]. apply rt_ret.
  - intros (? & Hv & _). rewrite (Hv eq_refl). eapply rt_bind; [by apply rt_string|]. cbv beta.
    apply (rt_ext (WriteArrayLen (-1))); [done|].
    eapply rt_bind_last; [apply rt_null_len|]. apply rt_ret.
Qed.
Lemma rt_fetched_partition v p :
  wf_fetched_partition v p -> rt (encode_fetched_partition v p) (decode_fetched_partition v) p.
Proof. destruct p. unfold wf_fetched_partition, encode_fetched_partition, decode_fetched_partition. cbn. rt_message. Qed.
#[local] Hint Resolve rt_fetched_partition : rt.
Lemma rt_fetched_topic v t :
  wf_fetched_topic v t -> rt (encode_fetched_topic v t) (decode_fetched_topic v) t.
Proof. destruct t. unfold wf_fetched_topic, encode_fetched_topic, decode_fetched_topic. cbn. rt_message. Qed.
#[local] Hint Resolve rt_fetched_topic : rt.
Lemma rt_offset_fetch_response r :
  wf_fetch_response r -> rt (EncodeOffsetFetchResponse r) (DecodeOffsetFetchResponse (ofr_Version r)) r.
Proof. destruct r. unfold wf_fetch_response, EncodeOffsetFetchResponse, DecodeOffsetFetchResponse. cbn. rt_message. Qed.

#[export] Instance commit_request_codec : Codec OffsetCommitRequest := {|
  enc := EncodeOffsetCommitRequest; dec := DecodeOffsetCommitRequest; ver := Version;
  wf_msg := wf_commit_request; nf := id; codec_rt := rt_commit_request |}.
#[export] Instance commit_response_codec : Codec OffsetCommitResponse := {|
  enc := EncodeOffsetCommitResponse; dec := DecodeOffsetCommitResponse; ver := r_Version;
  wf_msg := wf_commit_response; nf := id; codec_rt := rt_commit_response |}.
#[export] Instance fetch_request_codec : Codec OffsetFetchRequest := {|
  enc := EncodeOffsetFetchRequest; dec := DecodeOffsetFetchRequest; ver := of_Version;
  wf_msg := wf_fetch_request; nf := id; codec_rt := rt_offset_fetch_request |}.
#[export] Instance fetch_response_codec : Codec OffsetFetchResponse := {|
  enc := EncodeOffsetFetchResponse; dec := DecodeOffsetFetchResponse; ver := ofr_Version;
  wf_msg := wf_fetch_response; nf := id; codec_rt := rt_offset_fetch_response |}.

End Offsets.

(** ** Decoders no input can panic *)

(** The decoders of requests that need no array, or check its length, are
    total on every body below 2^62 bytes, in every version: the ones reachable
    before authentication (API versions, SASL), metadata, producer ids, finding
    the coordinator, heartbeats and offset fetches. *)
Theorem total_request_decoders version body :
  zlen body <= 4611686018427387904 ->
  decode (Session.DecodeApiVersionsRequest version) body <> Panic /\
  decode (Session.DecodeSASLHandshakeRequest version) body <> Panic /\
  decode (Session.DecodeSaslAuthenticateRequest version) body <> Panic /\
  decode (Session.DecodeInitProducerIdRequest version) body <> Panic /\
  decode (Metadata.DecodeMetadataRequest version) body <> Panic /\
  decode (Membership.DecodeFindCoordinatorRequest version) body <> Panic /\
  decode (Membership.DecodeHeartbeatRequest version) body <> Panic /\
  decode (Offsets.DecodeOffsetFetchRequest version) body <> Panic.
Proof.
  intros Hl. split_and!; apply safe_decode; try exact Hl.
  - apply safe_ret.
  - unfold Session.DecodeSASLHandshakeRequest. solve_safe.
  - unfold Session.DecodeSaslAuthenticateRequest. solve_safe.
  - unfold Session.DecodeInitProducerIdRequest. solve_safe.
  - unfold Metadata.DecodeMetadataRequest. solve_safe.
  - unfold Membership.DecodeFindCoordinatorRequest. solve_safe.
  - unfold Membership.DecodeHeartbeatRequest. solve_safe.
  - unfold Offsets.DecodeOffsetFetchRequest, Offsets.decode_fetch_topic, readInt32Array. solve_safe.
Qed.

Lemma total_request_decoders_witness :
  decode (Session.DecodeApiVersionsRequest 2) [xff; xff] <> Panic /\
  decode (Session.DecodeSASLHandshakeRequest 2) [xff; xff] <> Panic /\
  decode (Session.DecodeSaslAuthenticateRequest 2) [xff; xff] <> Panic /\
  decode (Session.DecodeInitProducerIdRequest 2) [xff; xff] <> Panic /\
  decode (Metadata.DecodeMetadataRequest 2) [xff; xff] <> Panic /\
  decode (Membership.DecodeFindCoordinatorRequest 2) [xff; xff] <> Panic /\
  decode (Membership.DecodeHeartbeatRequest 2) [xff; xff] <> Panic /\
  decode (Offsets.DecodeOffsetFetchRequest 2) [xff; xff] <> Panic.
Proof. apply (total_request_decoders 2 [xff; xff]). vm_compute. discriminate. Defined.
