(* ===== verification/MsgGroupAdmin.v ===== *)
(** * Group administration and transaction messages
    (pkg/protocol/group_admin.go, txn.go)

    Both ends of ListGroups, DescribeGroups and DeleteGroups, and of the three
    transaction messages the broker decodes only to refuse. *)

From stdpp Require Import prelude list strings.
From Stdlib Require Import ZArith Lia.
From S2P Require Import Prelude GoBinary Wire MsgData MsgAdmin.

Module GroupAdmin.

Record ListGroupsRequest := mkListGroupsRequest { lq_Version : Z }.
Record ListGroupsResponseGroup := mkListGroupsResponseGroup {
  lg_GroupID : gostring; lg_ProtocolType : gostring }.
Record ListGroupsResponse := mkListGroupsResponse {
  lr_Version : Z; lr_ThrottleTimeMs : Z; lr_ErrorCode : Z; lr_Groups : list ListGroupsResponseGroup }.

Record DescribeGroupsRequest := mkDescribeGroupsRequest {
  dq_Version : Z; dq_GroupIDs : list gostring; IncludeAuth : bool }.
Record DescribeGroupsResponseMember := mkDescribeGroupsResponseMember {
  MemberID : gostring; ClientID : gostring; ClientHost : gostring;
  MemberMetadata : gobytes; MemberAssignment : gobytes }.
Record DescribeGroupsResponseGroup := mkDescribeGroupsResponseGroup {
  dg_ErrorCode : Z; dg_GroupID : gostring; State : gostring; dg_ProtocolType : gostring;
  Protocol : gostring; dg_Members : list DescribeGroupsResponseMember;
  dg_AuthorizedOperations : Z }.
Record DescribeGroupsResponse := mkDescribeGroupsResponse {
  dr_Version : Z; dr_ThrottleTimeMs : Z; dr_Groups : list DescribeGroupsResponseGroup }.

Record DeleteGroupsRequest := mkDeleteGroupsRequest { xq_Version : Z; xq_GroupIDs : list gostring }.
Record DeleteGroupsResponseGroup := mkDeleteGroupsResponseGroup {
  xg_GroupID : gostring; xg_ErrorCode : Z; xg_ErrorMessage : option gostring }.
Record DeleteGroupsResponse := mkDeleteGroupsResponse {
  xr_Version : Z; xr_ThrottleTimeMs : Z; xr_Groups : list DeleteGroupsResponseGroup }.

(** ** Listing *)

Definition DecodeListGroupsRequest (version : Z) : M ListGroupsRequest :=
  ret (mkListGroupsRequest version).

Definition EncodeListGroupsRequest (req : ListGroupsRequest) : W := fun w => w.

Definition encode_listed (g : ListGroupsResponseGroup) : W :=
  WriteString (lg_GroupID g) +> WriteString (lg_ProtocolType g).

Definition EncodeListGroupsResponse (resp : ListGroupsResponse) : W :=
  when (1 <=? lr_Version resp) (WriteInt32 (lr_ThrottleTimeMs resp))
  +> WriteInt16 (lr_ErrorCode resp) +> write_array encode_listed (lr_Groups resp).

Definition decode_listed : M ListGroupsResponseGroup :=
  let! g := ReadString in
  let! p := ReadString in
  ret (mkListGroupsResponseGroup g p).

Definition DecodeListGroupsResponse (version : Z) : M ListGroupsResponse :=
  let! throttle := read_if (1 <=? version) ReadInt32 0 in
  let! e := ReadInt16 in
  let! gs := read_array decode_listed in
  ret (mkListGroupsResponse version throttle e gs).

(** ** Describing *)

Definition DecodeDescribeGroupsRequest (version : Z) : M DescribeGroupsRequest :=
  let! ids := read_array ReadString in
  let! auth := read_if (3 <=? version) ReadBool false in
  ret (mkDescribeGroupsRequest version ids auth).

Definition EncodeDescribeGroupsRequest (req : DescribeGroupsRequest) : W :=
  write_array WriteString (dq_GroupIDs req)
  +> when (3 <=? dq_Version req) (WriteBool (IncludeAuth req)).

Definition encode_described_member (m : DescribeGroupsResponseMember) : W :=
  WriteString (MemberID m) +> WriteString (ClientID m) +> WriteString (ClientHost m)
  +> write_nonnull_bytes (MemberMetadata m) +> write_nonnull_bytes (MemberAssignment m).

(** The null string of version 4 is written once per group, after its members. *)
Definition encode_described (version : Z) (g : DescribeGroupsResponseGroup) : W :=
  WriteInt16 (dg_ErrorCode g) +> WriteString (dg_GroupID g) +> WriteString (State g)
  +> WriteString (dg_ProtocolType g) +> WriteString (Protocol g)
  +> write_array encode_described_member (dg_Members g)
  +> when (4 <=? version) (WriteNullableString None)
  +> when (3 <=? version) (WriteInt32 (dg_AuthorizedOperations g)).

Definition EncodeDescribeGroupsResponse (resp : DescribeGroupsResponse) : W :=
  when (1 <=? dr_Version resp) (WriteInt32 (dr_ThrottleTimeMs resp))
  +> write_array (encode_described (dr_Version resp)) (dr_Groups resp).

(** It is read once per member. *)
Definition decode_described_member (version : Z) : M DescribeGroupsResponseMember :=
  let! m := ReadString in
  let! c := ReadString in
  let! h := ReadString in
  let! md := ReadBytes in
  let! a := ReadBytes in
  let! _ := read_if (4 <=? version) ReadNullableString None in
  ret (mkDescribeGroupsResponseMember m c h md a).

Definition decode_described (version : Z) : M DescribeGroupsResponseGroup :=
  let! e := ReadInt16 in
  let! id := ReadString in
  let! s := ReadString in
  let! pt := ReadString in
  let! p := ReadString in
  let! ms := read_array (decode_described_member version) in
  let! ops := read_if (3 <=? version) ReadInt32 0 in
  ret (mkDescribeGroupsResponseGroup e id s pt p ms ops).

Definition DecodeDescribeGroupsResponse (version : Z) : M DescribeGroupsResponse :=
  let! throttle := read_if (1 <=? version) ReadInt32 0 in
  let! gs := read_array (decode_described version) in
  ret (mkDescribeGroupsResponse version throttle gs).

(** ** Deleting *)

Definition DecodeDeleteGroupsRequest (version : Z) : M DeleteGroupsRequest :=
  let! ids := read_array ReadString in
  ret (mkDeleteGroupsRequest version ids).

Definition EncodeDeleteGroupsRequest (req : DeleteGroupsRequest) : W :=
  write_array WriteString (xq_GroupIDs req).

Definition encode_deleted (version : Z) (g : DeleteGroupsResponseGroup) : W :=
  WriteString (xg_GroupID g) +> WriteInt16 (xg_ErrorCode g)
  +> when (1 <=? version) (WriteNullableString (xg_ErrorMessage g)).

Definition EncodeDeleteGroupsResponse (resp : DeleteGroupsResponse) : W :=
  when (1 <=? xr_Version resp) (WriteInt32 (xr_ThrottleTimeMs resp))
  +> write_array (encode_deleted (xr_Version resp)) (xr_Groups resp).

Definition decode_deleted (version : Z) : M DeleteGroupsResponseGroup :=
  let! g := ReadString in
  let! e := ReadInt16 in
  let! m := read_if (1 <=? version) ReadNullableString None in
  ret (mkDeleteGroupsResponseGroup g e m).

Definition DecodeDeleteGroupsResponse (version : Z) : M DeleteGroupsResponse :=
  let! throttle := read_if (1 <=? version) ReadInt32 0 in
  let! gs := read_array (decode_deleted version) in
  ret (mkDeleteGroupsResponse version throttle gs).

(** ** What can be sent *)

Definition wf_listed (g : ListGroupsResponseGroup) : Prop :=
  str_ok (lg_GroupID g) /\ str_ok (lg_ProtocolType g).
Definition wf_list_response (r : ListGroupsResponse) : Prop :=
  in_i32 (lr_ThrottleTimeMs r) /\ ((1 <=? lr_Version r) = false -> lr_ThrottleTimeMs r = 0) /\
  in_i16 (lr_ErrorCode r) /\ arr_ok (lr_Groups r) /\ Forall wf_listed (lr_Groups r).
Definition wf_describe_request (r : DescribeGroupsRequest) : Prop :=
  arr_ok (dq_GroupIDs r) /\ Forall str_ok (dq_GroupIDs r) /\
  ((3 <=? dq_Version r) = false -> IncludeAuth r = false).
Definition wf_described_member (m : DescribeGroupsResponseMember) : Prop :=
  str_ok (MemberID m) /\ str_ok (ClientID m) /\ str_ok (ClientHost m) /\
  bytes_ok (MemberMetadata m) /\ bytes_ok (MemberAssignment m).
Definition wf_described (v : Z) (g : DescribeGroupsResponseGroup) : Prop :=
  in_i16 (dg_ErrorCode g) /\ str_ok (dg_GroupID g) /\ str_ok (State g) /\
  str_ok (dg_ProtocolType g) /\ str_ok (Protocol g) /\ arr_ok (dg_Members g) /\
  Forall wf_described_member (dg_Members g) /\ in_i32 (dg_AuthorizedOperations g) /\
  ((3 <=? v) = false -> dg_AuthorizedOperations g = 0).
Definition wf_describe_response (r : DescribeGroupsResponse) : Prop :=
  dr_Version r <= 3 /\
  in_i32 (dr_ThrottleTimeMs r) /\ ((1 <=? dr_Version r) = false -> dr_ThrottleTimeMs r = 0) /\
  arr_ok (dr_Groups r) /\ Forall (wf_described (dr_Version r)) (dr_Groups r).
Definition wf_delete_request (r : DeleteGroupsRequest) : Prop :=
  arr_ok (xq_GroupIDs r) /\ Forall str_ok (xq_GroupIDs r).
Definition wf_deleted (v : Z) (g : DeleteGroupsResponseGroup) : Prop :=
  str_ok (xg_GroupID g) /\ in_i16 (xg_ErrorCode g) /\ nstr_ok (xg_ErrorMessage g) /\
  ((1 <=? v) = false -> xg_ErrorMessage g = None).
Definition wf_delete_response (r : DeleteGroupsResponse) : Prop :=
  in_i32 (xr_ThrottleTimeMs r) /\ ((1 <=? xr_Version r) = false -> xr_ThrottleTimeMs r = 0) /\
  arr_ok (xr_Groups r) /\ Forall (wf_deleted (xr_Version r)) (xr_Groups r).

Definition norm_described_member (m : DescribeGroupsResponseMember) : DescribeGroupsResponseMember :=
  mkDescribeGroupsResponseMember (MemberID m) (ClientID m) (ClientHost m)
    (Some (default [] (MemberMetadata m))) (Some (default [] (MemberAssignment m))).
Definition norm_described (g : DescribeGroupsResponseGroup) : DescribeGroupsResponseGroup :=
  mkDescribeGroupsResponseGroup (dg_ErrorCode g) (dg_GroupID g) (State g) (dg_ProtocolType g)
    (Protocol g) (map norm_described_member (dg_Members g)) (dg_AuthorizedOperations g).
Definition norm_describe (r : DescribeGroupsResponse) : DescribeGroupsResponse :=
  mkDescribeGroupsResponse (dr_Version r) (dr_ThrottleTimeMs r) (map norm_described (dr_Groups r)).

#[export] Instance wf_listed_dec g : Decision (wf_listed g).
Proof. unfold wf_listed. apply _. Defined.
#[export] Instance wf_list_response_dec r : Decision (wf_list_response r).
Proof. unfold wf_list_response. apply _. Defined.
#[export] Instance wf_describe_request_dec r : Decision (wf_describe_request r).
Proof. unfold wf_describe_request. apply _. Defined.
#[export] Instance wf_described_member_dec m : Decision (wf_described_member m).
Proof. unfold wf_described_member. apply _. Defined.
#[export] Instance wf_described_dec v g : Decision (wf_described v g).
Proof. unfold wf_described. apply _. Defined.
#[export] Instance wf_describe_response_dec r : Decision (wf_describe_response r).
Proof. unfold wf_describe_response. apply _. Defined.
#[export] Instance wf_delete_request_dec r : Decision (wf_delete_request r).
Proof. unfold wf_delete_request. apply _. Defined.
#[export] Instance wf_deleted_dec v g : Decision (wf_deleted v g).
Proof. unfold wf_deleted. apply _. Defined.
#[export] Instance wf_delete_response_dec r : Decision (wf_delete_response r).
Proof. unfold wf_delete_response. apply _. Defined.

Lemma rt_list_groups_request r : rt (EncodeListGroupsRequest r) (DecodeListGroupsRequest (lq_Version r)) r.
Proof. destruct r. apply rt_ret. Qed.
Lemma rt_listed g : wf_listed g -> rt (encode_listed g) decode_listed g.
Proof. destruct g. unfold wf_listed, encode_listed, decode_listed. cbn. rt_message. Qed.
#[local] Hint Resolve rt_listed : rt.
Lemma rt_list_groups_response r :
  wf_list_response r -> rt (EncodeListGroupsResponse r) (DecodeListGroupsResponse (lr_Version r)) r.
Proof. destruct r. unfold wf_list_response, EncodeListGroupsResponse, DecodeListGroupsResponse. cbn. rt_message. Qed.
Lemma rt_describe_request r :
  wf_describe_request r -> rt (EncodeDescribeGroupsRequest r) (DecodeDescribeGroupsRequest (dq_Version r)) r.
Proof. destruct r. unfold wf_describe_request, EncodeDescribeGroupsRequest, DecodeDescribeGroupsRequest. cbn. rt_message. Qed.
Lemma rt_described_member v m :
  v <= 3 -> wf_described_member m ->
  rt (encode_described_member m) (decode_described_member v) (norm_described_member m).
Proof.
  destruct m. unfold wf_described_member, encode_described_member, decode_described_member, norm_described_member.
  intros Hv. rewrite (proj2 (Z.leb_gt _ _)) by lia. cbn. rt_message.
Qed.
Lemma rt_described v g :
  v <= 3 -> wf_described v g -> rt (encode_described v g) (decode_described v) (norm_described g).
Proof.
  destruct g. unfold wf_described, encode_described, decode_described, norm_described.
  intros Hv. rewrite (proj2 (Z.leb_gt 4 v)) by lia. cbn.
  intros (? & ? & ? & ? & ? & ? & ? & ? & ?). rt_fields.
  eapply rt_bind; [eapply rt_array_nf; [done|done|intros m; by apply rt_described_member]|]. cbv beta.
  apply (rt_ext (when (3 <=? v) (WriteInt32 dg_AuthorizedOperations0))); [done|]. rt_fields.
Qed.
Lemma rt_describe_response r :
  wf_describe_response r ->
  rt (EncodeDescribeGroupsResponse r) (DecodeDescribeGroupsResponse (dr_Version r)) (norm_describe r).
Proof.
  destruct r. unfold wf_describe_response, EncodeDescribeGroupsResponse, DecodeDescribeGroupsResponse, norm_describe. cbn.
  intros (? & ? & ? & ? & ?). rt_fields. eapply rt_bind_last; [|apply rt_ret].
  eapply rt_array_nf; [done|done|intros g; by apply rt_described].
Qed.
Lemma rt_delete_groups_request r :
  wf_delete_request r -> rt (EncodeDeleteGroupsRequest r) (DecodeDeleteGroupsRequest (xq_Version r)) r.
Proof. destruct r. unfold wf_delete_request, EncodeDeleteGroupsRequest, DecodeDeleteGroupsRequest. cbn. rt_message. Qed.
Lemma rt_deleted_group v g : wf_deleted v g -> rt (encode_deleted v g) (decode_deleted v) g.
Proof. destruct g. unfold wf_deleted, encode_deleted, decode_deleted. cbn. rt_message. Qed.
#[local] Hint Resolve rt_deleted_group : rt.
Lemma rt_delete_groups_response r :
  wf_delete_response r -> rt (EncodeDeleteGroupsResponse r) (DecodeDeleteGroupsResponse (xr_Version r)) r.
Proof. destruct r. unfold wf_delete_response, EncodeDeleteGroupsResponse, DecodeDeleteGroupsResponse. cbn. rt_message. Qed.

#[export] Instance list_request_codec : Codec ListGroupsRequest := {|
  enc := EncodeListGroupsRequest; dec := DecodeListGroupsRequest; ver := lq_Version;
  wf_msg := fun _ => True; nf := id; codec_rt := fun r _ => rt_list_groups_request r |}.
#[export] Instance list_response_codec : Codec ListGroupsResponse := {|
  enc := EncodeListGroupsResponse; dec := DecodeListGroupsResponse; ver := lr_Version;
  wf_msg := wf_list_response; nf := id; codec_rt := rt_list_groups_response |}.
#[export] Instance describe_request_codec : Codec DescribeGroupsRequest := {|
  enc := EncodeDescribeGroupsRequest; dec := DecodeDescribeGroupsRequest; ver := dq_Version;
  wf_msg := wf_describe_request; nf := id; codec_rt := rt_describe_request |}.
#[export] Instance describe_response_codec : Codec DescribeGroupsResponse := {|
  enc := EncodeDescribeGroupsResponse; dec := DecodeDescribeGroupsResponse; ver := dr_Version;
  wf_msg := wf_describe_response; nf := norm_describe; codec_rt := rt_describe_response |}.
#[export] Instance delete_request_codec : Codec DeleteGroupsRequest := {|
  enc := EncodeDeleteGroupsRequest; dec := DecodeDeleteGroupsRequest; ver := xq_Version;
  wf_msg := wf_delete_request; nf := id; codec_rt := rt_delete_groups_request |}.
#[export] Instance delete_response_codec : Codec DeleteGroupsResponse := {|
  enc := EncodeDeleteGroupsResponse; dec := DecodeDeleteGroupsResponse; ver := xr_Version;
  wf_msg := wf_delete_response; nf := id; codec_rt := rt_delete_groups_response |}.

End GroupAdmin.

Module Txn.

Record AddPartitionsToTxnRequestTopic := mkAddPartitionsToTxnRequestTopic {
  tq_Topic : gostring; tq_Partitions : option (list Z) }.
Record AddPartitionsToTxnRequest := mkAddPartitionsToTxnRequest {
  ap_Version : Z; ap_TransactionalID : gostring; ap_ProducerID : Z; ap_ProducerEpoch : Z;
  ap_Topics : list AddPartitionsToTxnRequestTopic }.
Record AddPartitionsToTxnResponsePartition := mkAddPartitionsToTxnResponsePartition {
  tr_Partition : Z; tr_ErrorCode : Z }.
Record AddPartitionsToTxnResponseTopic := mkAddPartitionsToTxnResponseTopic {
  tr_Topic : gostring; tr_Partitions : list AddPartitionsToTxnResponsePartition }.
Record AddPartitionsToTxnResponse := mkAddPartitionsToTxnResponse {
  apr_Version : Z; apr_ThrottleTimeMs : Z; apr_ErrorCode : Z;
  apr_Topics : list AddPartitionsToTxnResponseTopic }.

Record AddOffsetsToTxnRequest := mkAddOffsetsToTxnRequest {
  ao_Version : Z; ao_TransactionalID : gostring; ao_ProducerID : Z; ao_ProducerEpoch : Z;
  ao_GroupID : gostring }.
Record AddOffsetsToTxnResponse := mkAddOffsetsToTxnResponse {
  aor_Version : Z; aor_ThrottleTimeMs : Z; aor_ErrorCode : Z }.

Record EndTxnRequest := mkEndTxnRequest {
  et_Version : Z; et_TransactionalID : gostring; et_ProducerID : Z; et_ProducerEpoch : Z;
  Committed : bool }.
Record EndTxnResponse := mkEndTxnResponse {
  etr_Version : Z; etr_ThrottleTimeMs : Z; etr_ErrorCode : Z }.

Definition decode_txn_topic : M AddPartitionsToTxnRequestTopic :=
  let! t := ReadString in
  let! ps := readInt32Array in
  ret (mkAddPartitionsToTxnRequestTopic t ps).

Definition DecodeAddPartitionsToTxnRequest (version : Z) : M AddPartitionsToTxnRequest :=
  let! t := ReadString in
  let! p := ReadInt64 in
  let! e := ReadInt16 in
  let! ts := read_array decode_txn_topic in
  ret (mkAddPartitionsToTxnRequest version t p e ts).

Definition encode_txn_answer (p : AddPartitionsToTxnResponsePartition) : W :=
  WriteInt32 (tr_Partition p) +> WriteInt16 (tr_ErrorCode p).
Definition encode_txn_answers (t : AddPartitionsToTxnResponseTopic) : W :=
  WriteString (tr_Topic t) +> write_array encode_txn_answer (tr_Partitions t).

Definition EncodeAddPartitionsToTxnResponse (resp : AddPartitionsToTxnResponse) : W :=
  when (1 <=? apr_Version resp) (WriteInt32 (apr_ThrottleTimeMs resp))
  +> WriteInt16 (apr_ErrorCode resp) +> write_array encode_txn_answers (apr_Topics resp).

(** A nil partition slice is written as an empty array. *)
Definition encode_txn_topic (t : AddPartitionsToTxnRequestTopic) : W :=
  WriteString (tq_Topic t) +> write_array WriteInt32 (default [] (tq_Partitions t)).

Definition EncodeAddPartitionsToTxnRequest (req : AddPartitionsToTxnRequest) : W :=
  WriteString (ap_TransactionalID req) +> WriteInt64 (ap_ProducerID req)
  +> WriteInt16 (ap_ProducerEpoch req) +> write_array encode_txn_topic (ap_Topics req).

Definition decode_txn_answer : M AddPartitionsToTxnResponsePartition :=
  let! p := ReadInt32 in
  let! e := ReadInt16 in
  ret (mkAddPartitionsToTxnResponsePartition p e).
Definition decode_txn_answers : M AddPartitionsToTxnResponseTopic :=
  let! t := ReadString in
  let! ps := read_array decode_txn_answer in
  ret (mkAddPartitionsToTxnResponseTopic t ps).

Definition DecodeAddPartitionsToTxnResponse (version : Z) : M AddPartitionsToTxnResponse :=
  let! throttle := read_if (1 <=? version) ReadInt32 0 in
  let! e := ReadInt16 in
  let! ts := read_array decode_txn_answers in
  ret (mkAddPartitionsToTxnResponse version throttle e ts).

Definition DecodeAddOffsetsToTxnRequest (version : Z) : M AddOffsetsToTxnRequest :=
  let! t := ReadString in
  let! p := ReadInt64 in
  let! e := ReadInt16 in
  let! g := ReadString in
  ret (mkAddOffsetsToTxnRequest version t p e g).

Definition EncodeAddOffsetsToTxnResponse (resp : AddOffsetsToTxnResponse) : W :=
  when (1 <=? aor_Version resp) (WriteInt32 (aor_ThrottleTimeMs resp))
  +> WriteInt16 (aor_ErrorCode resp).

Definition EncodeAddOffsetsToTxnRequest (req : AddOffsetsToTxnRequest) : W :=
  WriteString (ao_TransactionalID req) +> WriteInt64 (ao_ProducerID req)
  +> WriteInt16 (ao_ProducerEpoch req) +> WriteString (ao_GroupID req).

Definition DecodeAddOffsetsToTxnResponse (version : Z) : M AddOffsetsToTxnResponse :=
  let! throttle := read_if (1 <=? version) ReadInt32 0 in
  let! e := ReadInt16 in
  ret (mkAddOffsetsToTxnResponse version throttle e).

Definition DecodeEndTxnRequest (version : Z) : M EndTxnRequest :=
  let! t := ReadString in
  let! p := ReadInt64 in
  let! e := ReadInt16 in
  let! c := ReadBool in
  ret (mkEndTxnRequest version t p e c).

Definition EncodeEndTxnResponse (resp : EndTxnResponse) : W :=
  when (1 <=? etr_Version resp) (WriteInt32 (etr_ThrottleTimeMs resp))
  +> WriteInt16 (etr_ErrorCode resp).

Definition EncodeEndTxnRequest (req : EndTxnRequest) : W :=
  WriteString (et_TransactionalID req) +> WriteInt64 (et_ProducerID req)
  +> WriteInt16 (et_ProducerEpoch req) +> WriteBool (Committed req).

Definition DecodeEndTxnResponse (version : Z) : M EndTxnResponse :=
  let! throttle := read_if (1 <=? version) ReadInt32 0 in
  let! e := ReadInt16 in
  ret (mkEndTxnResponse version throttle e).

(** ** What can be sent *)

Definition wf_txn_topic (t : AddPartitionsToTxnRequestTopic) : Prop :=
  str_ok (tq_Topic t) /\ is_Some (tq_Partitions t) /\ arr_ok (default [] (tq_Partitions t)) /\
  Forall in_i32 (default [] (tq_Partitions t)).
Definition wf_add_partitions (r : AddPartitionsToTxnRequest) : Prop :=
  str_ok (ap_TransactionalID r) /\ in_i64 (ap_ProducerID r) /\ in_i16 (ap_ProducerEpoch r) /\
  arr_ok (ap_Topics r) /\ Forall wf_txn_topic (ap_Topics r).
Definition wf_txn_answer (p : AddPartitionsToTxnResponsePartition) : Prop :=
  in_i32 (tr_Partition p) /\ in_i16 (tr_ErrorCode p).
Definition wf_txn_answers (t : AddPartitionsToTxnResponseTopic) : Prop :=
  str_ok (tr_Topic t) /\ arr_ok (tr_Partitions t) /\ Forall wf_txn_answer (tr_Partitions t).
Definition wf_partitions_added (r : AddPartitionsToTxnResponse) : Prop :=
  in_i32 (apr_ThrottleTimeMs r) /\ ((1 <=? apr_Version r) = false -> apr_ThrottleTimeMs r = 0) /\
  in_i16 (apr_ErrorCode r) /\ arr_ok (apr_Topics r) /\ Forall wf_txn_answers (apr_Topics r).
Definition wf_add_offsets (r : AddOffsetsToTxnRequest) : Prop :=
  str_ok (ao_TransactionalID r) /\ in_i64 (ao_ProducerID r) /\ in_i16 (ao_ProducerEpoch r) /\
  str_ok (ao_GroupID r).
Definition wf_offsets_added (r : AddOffsetsToTxnResponse) : Prop :=
  in_i32 (aor_ThrottleTimeMs r) /\ ((1 <=? aor_Version r) = false -> aor_ThrottleTimeMs r = 0) /\
  in_i16 (aor_ErrorCode r).
Definition wf_end (r : EndTxnRequest) : Prop :=
  str_ok (et_TransactionalID r) /\ in_i64 (et_ProducerID r) /\ in_i16 (et_ProducerEpoch r).
Definition wf_ended (r : EndTxnResponse) : Prop :=
  in_i32 (etr_ThrottleTimeMs r) /\ ((1 <=? etr_Version r) = false -> etr_ThrottleTimeMs r = 0) /\
  in_i16 (etr_ErrorCode r).

#[export] Instance wf_txn_topic_dec t : Decision (wf_txn_topic t).
Proof. unfold wf_txn_topic. apply _. Defined.
#[export] Instance wf_add_partitions_dec r : Decision (wf_add_partitions r).
Proof. unfold wf_add_partitions. apply _. Defined.
#[export] Instance wf_txn_answer_dec p : Decision (wf_txn_answer p).
Proof. unfold wf_txn_answer. apply _. Defined.
#[export] Instance wf_txn_answers_dec t : Decision (wf_txn_answers t).
Proof. unfold wf_txn_answers. apply _. Defined.
#[export] Instance wf_partitions_added_dec r : Decision (wf_partitions_added r).
Proof. unfold wf_partitions_added. apply _. Defined.
#[export] Instance wf_add_offsets_dec r : Decision (wf_add_offsets r).
Proof. unfold wf_add_offsets. apply _. Defined.
#[export] Instance wf_offsets_added_dec r : Decision (wf_offsets_added r).
Proof. unfold wf_offsets_added. apply _. Defined.
#[export] Instance wf_end_dec r : Decision (wf_end r).
Proof. unfold wf_end. apply _. Defined.
#[export] Instance wf_ended_dec r : Decision (wf_ended r).
Proof. unfold wf_ended. apply _. Defined.

Lemma rt_txn_topic t : wf_txn_topic t -> rt (encode_txn_topic t) decode_txn_topic t.
Proof.
  destruct t as [t ps]. unfold wf_txn_topic, encode_txn_topic, decode_txn_topic. cbn.
  intros (? & [xs ->] & ? & ?). rt_fields. eapply rt_bind_last; [|apply rt_ret].
  by apply (rt_nullable_array_wf in_i32 WriteInt32 ReadInt32 (Some xs)); [| |apply rt_int32].
Qed.
#[local] Hint Resolve rt_txn_topic : rt.
Lemma rt_add_partitions r :
  wf_add_partitions r ->
  rt (EncodeAddPartitionsToTxnRequest r) (DecodeAddPartitionsToTxnRequest (ap_Version r)) r.
Proof. destruct r. unfold wf_add_partitions, EncodeAddPartitionsToTxnRequest, DecodeAddPartitionsToTxnRequest. cbn. rt_message. Qed.
Lemma rt_txn_answer p : wf_txn_answer p -> rt (encode_txn_answer p) decode_txn_answer p.
Proof. destruct p. unfold wf_txn_answer, encode_txn_answer, decode_txn_answer. cbn. rt_message. Qed.
#[local] Hint Resolve rt_txn_answer : rt.
Lemma rt_txn_answers t : wf_txn_answers t -> rt (encode_txn_answers t) decode_txn_answers t.
Proof. destruct t. unfold wf_txn_answers, encode_txn_answers, decode_txn_answers. cbn. rt_message. Qed.
#[local] Hint Resolve rt_txn_answers : rt.
Lemma rt_partitions_added r :
  wf_partitions_added r ->
  rt (EncodeAddPartitionsToTxnResponse r) (DecodeAddPartitionsToTxnResponse (apr_Version r)) r.
Proof. destruct r. unfold wf_partitions_added, EncodeAddPartitionsToTxnResponse, DecodeAddPartitionsToTxnResponse. cbn. rt_message. Qed.
Lemma rt_add_offsets r :
  wf_add_offsets r ->
  rt (EncodeAddOffsetsToTxnRequest r) (DecodeAddOffsetsToTxnRequest (ao_Version r)) r.
Proof. destruct r. unfold wf_add_offsets, EncodeAddOffsetsToTxnRequest, DecodeAddOffsetsToTxnRequest. cbn. rt_message. Qed.
Lemma rt_offsets_added r :
  wf_offsets_added r ->
  rt (EncodeAddOffsetsToTxnResponse r) (DecodeAddOffsetsToTxnResponse (aor_Version r)) r.
Proof. destruct r. unfold wf_offsets_added, EncodeAddOffsetsToTxnResponse, DecodeAddOffsetsToTxnResponse. cbn. rt_message. Qed.
Lemma rt_end r : wf_end r -> rt (EncodeEndTxnRequest r) (DecodeEndTxnRequest (et_Version r)) r.
Proof. destruct r. unfold wf_end, EncodeEndTxnRequest, DecodeEndTxnRequest. cbn. rt_message. Qed.
Lemma rt_ended r : wf_ended r -> rt (EncodeEndTxnResponse r) (DecodeEndTxnResponse (etr_Version r)) r.
Proof. destruct r. unfold wf_ended, EncodeEndTxnResponse, DecodeEndTxnResponse. cbn. rt_message. Qed.

#[export] Instance add_partitions_codec : Codec AddPartitionsToTxnRequest := {|
  enc := EncodeAddPartitionsToTxnRequest; dec := DecodeAddPartitionsToTxnRequest; ver := ap_Version;
  wf_msg := wf_add_partitions; nf := id; codec_rt := rt_add_partitions |}.
#[export] Instance partitions_added_codec : Codec AddPartitionsToTxnResponse := {|
  enc := EncodeAddPartitionsToTxnResponse; dec := DecodeAddPartitionsToTxnResponse; ver := apr_Version;
  wf_msg := wf_partitions_added; nf := id; codec_rt := rt_partitions_added |}.
#[export] Instance add_offsets_codec : Codec AddOffsetsToTxnRequest := {|
  enc := EncodeAddOffsetsToTxnRequest; dec := DecodeAddOffsetsToTxnRequest; ver := ao_Version;
  wf_msg := wf_add_offsets; nf := id; codec_rt := rt_add_offsets |}.
#[export] Instance offsets_added_codec : Codec AddOffsetsToTxnResponse := {|
  enc := EncodeAddOffsetsToTxnResponse; dec := DecodeAddOffsetsToTxnResponse; ver := aor_Version;
  wf_msg := wf_offsets_added; nf := id; codec_rt := rt_offsets_added |}.
#[export] Instance end_codec : Codec EndTxnRequest := {|
  enc := EncodeEndTxnRequest; dec := DecodeEndTxnRequest; ver := et_Version;
  wf_msg := wf_end; nf := id; codec_rt := rt_end |}.
#[export] Instance ended_codec : Codec EndTxnResponse := {|
  enc := EncodeEndTxnResponse; dec := DecodeEndTxnResponse; ver := etr_Version;
  wf_msg := wf_ended; nf := id; codec_rt := rt_ended |}.

End Txn.

Import GroupAdmin Txn.

Definition demo_described (v : Z) :=
  mkDescribeGroupsResponse v 0
    [mkDescribeGroupsResponseGroup 0 [x67] [x53] [x63] [x72]
       [mkDescribeGroupsResponseMember [x6d] [x63] [x2f] (Some [x01]) None;
        mkDescribeGroupsResponseMember [x6e] [x63] [x2f] (Some [x01]) None] (-2147483648)].

(** In version 4 the two ends disagree: a description of a group of two members
    written by the encoder is an error to the decoder. The broker announces
    version 3. *)
Lemma describe_v4_disagrees :
  exists e, decode (DecodeDescribeGroupsResponse 4)
              (EncodeDescribeGroupsResponse (demo_described 4) NewWriter) = Err e.
Proof. eexists. vm_compute. reflexivity. Qed.
