(* ===== verification/MsgCarried.v ===== *)
(** * What a version of a message carries

    A field that the version of a message does not have is not written, whatever
    it holds, and the other end reads it as its default. [carried_*] puts these
    defaults into a message; an encoder writes the same bytes for both. *)

From stdpp Require Import prelude list strings.
From Stdlib Require Import ZArith Lia.
From S2P Require Import Prelude GoBinary Wire MsgData MsgAdmin MsgGroup MsgGroupAdmin.

(** The field where the version has it, else its default. *)
Definition kept {A} (c : bool) (x d : A) : A := if c then x else d.

(** Elements that are written alike make arrays that are. *)
Lemma for_each_map {A} (f : A -> W) (g : A -> A) xs w :
  (forall x w, f (g x) w = f x w) -> for_each (map g xs) f w = for_each xs f w.
Proof.
  intros Hf. unfold for_each. revert w. induction xs as [|x xs IH]; intros w; [done|]. cbn. by rewrite Hf.
Qed.

Lemma write_array_map {A} (f : A -> W) (g : A -> A) xs w :
  (forall x w, f (g x) w = f x w) -> write_array f (map g xs) w = write_array f xs w.
Proof.
  intros Hf. unfold write_array, wseq. rewrite for_each_map by done. unfold zlen. by rewrite length_map.
Qed.

(** Both messages field by field; [carried] holds what is known of the elements. *)
Create HintDb carried.

Ltac carried_cases :=
  repeat match goal with
  | |- context [Z.leb ?a ?b] => destruct (Z.leb a b)
  | |- context [Z.eqb ?a ?b] => destruct (Z.eqb a b)
  end.

Ltac carried_fields :=
  cbn; unfold wseq, when, kept; carried_cases; cbn; rewrite ?write_array_map by auto with carried; try done.

Module CarriedData.
Import Produce.

Definition carried_produced (v : Z) (p : ProduceResponsePartition) : ProduceResponsePartition :=
  mkProduceResponsePartition (Partition p) (ErrorCode p) (BaseOffset p) (kept (2 <=? v) (LogAppendTime p) 0).
Definition carried_produced_topic (v : Z) (t : ProduceResponseTopic) : ProduceResponseTopic :=
  mkProduceResponseTopic (Topic t) (map (carried_produced v) (Partitions t)).
Definition carried_produce_response (r : ProduceResponse) : ProduceResponse :=
  mkProduceResponse (Version r) (map (carried_produced_topic (Version r)) (Topics r)) (kept (1 <=? Version r) (ThrottleTimeMs r) 0).

Lemma produced_carried v p w : encode_response_partition v (carried_produced v p) w = encode_response_partition v p w.
Proof. unfold encode_response_partition, carried_produced. carried_fields. Qed.
#[local] Hint Resolve produced_carried : carried.
Lemma produced_topic_carried v t w : encode_response_topic v (carried_produced_topic v t) w = encode_response_topic v t w.
Proof. unfold encode_response_topic, carried_produced_topic. carried_fields. Qed.
#[local] Hint Resolve produced_topic_carried : carried.
Lemma produce_response_carried r w : EncodeProduceResponse (carried_produce_response r) w = EncodeProduceResponse r w.
Proof. unfold EncodeProduceResponse, carried_produce_response. carried_fields. Qed.

Import Fetch.

Definition carried_wanted (v : Z) (p : FetchRequestPartition) : FetchRequestPartition :=
  mkFetchRequestPartition (req_Partition p) (FetchOffset p) (kept (5 <=? v) (req_LogStartOffset p) 0) (PartitionMaxBytes p).
Definition carried_wanted_topic (v : Z) (t : FetchRequestTopic) : FetchRequestTopic :=
  mkFetchRequestTopic (req_Topic t) (map (carried_wanted v) (req_Partitions t)).
Definition carried_fetch_request (r : FetchRequest) : FetchRequest :=
  mkFetchRequest (req_Version r) (ReplicaID r) (MaxWaitMillis r) (MinBytes r) (kept (3 <=? req_Version r) (MaxBytes r) 2147483647)
    (kept (4 <=? req_Version r) (IsolationLevel r) 0) (map (carried_wanted_topic (req_Version r)) (req_Topics r)).

Lemma wanted_carried v p w : encode_request_partition v (carried_wanted v p) w = encode_request_partition v p w.
Proof. unfold encode_request_partition, carried_wanted. carried_fields. Qed.
#[local] Hint Resolve wanted_carried : carried.
Lemma wanted_topic_carried v t w : encode_request_topic v (carried_wanted_topic v t) w = encode_request_topic v t w.
Proof. unfold encode_request_topic, carried_wanted_topic. carried_fields. Qed.
#[local] Hint Resolve wanted_topic_carried : carried.
Lemma fetch_request_carried r w : EncodeFetchRequest (carried_fetch_request r) w = EncodeFetchRequest r w.
Proof. unfold EncodeFetchRequest, carried_fetch_request. carried_fields. Qed.

Definition carried_found (v : Z) (p : FetchResponsePartition) : FetchResponsePartition :=
  mkFetchResponsePartition (Partition p) (ErrorCode p) (HighWatermark p) (kept (4 <=? v) (LastStableOffset p) 0)
    (kept (5 <=? v) (LogStartOffset p) 0) (Records p).
Definition carried_found_topic (v : Z) (t : FetchResponseTopic) : FetchResponseTopic :=
  mkFetchResponseTopic (Topic t) (map (carried_found v) (Partitions t)).
Definition carried_fetch_response (r : FetchResponse) : FetchResponse :=
  mkFetchResponse (Version r) (kept (1 <=? Version r) (ThrottleTimeMs r) 0) (map (carried_found_topic (Version r)) (Topics r)).

Lemma found_carried v p w : encode_response_partition v (carried_found v p) w = encode_response_partition v p w.
Proof. unfold encode_response_partition, carried_found. carried_fields. Qed.
#[local] Hint Resolve found_carried : carried.
Lemma found_topic_carried v t w : encode_response_topic v (carried_found_topic v t) w = encode_response_topic v t w.
Proof. unfold encode_response_topic, carried_found_topic. carried_fields. Qed.
#[local] Hint Resolve found_topic_carried : carried.
Lemma fetch_response_carried r w : EncodeFetchResponse (carried_fetch_response r) w = EncodeFetchResponse r w.
Proof. unfold EncodeFetchResponse, carried_fetch_response. carried_fields. Qed.

Import ListOffsets.

Definition carried_asked (v : Z) (p : ListOffsetsRequestPartition) : ListOffsetsRequestPartition :=
  mkListOffsetsRequestPartition (req_Partition p) (kept (4 <=? v) (CurrentLeaderEpoch p) 0) (req_Timestamp p) (kept (v =? 0) (MaxNumOffsets p) 0).
Definition carried_asked_topic (v : Z) (t : ListOffsetsRequestTopic) : ListOffsetsRequestTopic :=
  mkListOffsetsRequestTopic (req_Topic t) (map (carried_asked v) (req_Partitions t)).
Definition carried_list_request (r : ListOffsetsRequest) : ListOffsetsRequest :=
  mkListOffsetsRequest (req_Version r) (ReplicaID r) (kept (2 <=? req_Version r) (IsolationLevel r) 0)
    (map (carried_asked_topic (req_Version r)) (req_Topics r)).

Lemma asked_carried v p w : encode_request_partition v (carried_asked v p) w = encode_request_partition v p w.
Proof. unfold encode_request_partition, carried_asked. carried_fields. Qed.
#[local] Hint Resolve asked_carried : carried.
Lemma asked_topic_carried v t w : encode_request_topic v (carried_asked_topic v t) w = encode_request_topic v t w.
Proof. unfold encode_request_topic, carried_asked_topic. carried_fields. Qed.
#[local] Hint Resolve asked_topic_carried : carried.
Lemma list_request_carried r w : EncodeListOffsetsRequest (carried_list_request r) w = EncodeListOffsetsRequest r w.
Proof. unfold EncodeListOffsetsRequest, carried_list_request. carried_fields. Qed.

(** Version 0 has the old-style list only. *)
Definition carried_offset (v : Z) (p : ListOffsetsResponsePartition) : ListOffsetsResponsePartition :=
  mkListOffsetsResponsePartition (Partition p) (ErrorCode p) (kept (v =? 0) (OldStyleOffsets p) None)
    (kept (1 <=? v) (Timestamp p) 0) (kept (1 <=? v) (Offset p) 0) (kept (4 <=? v) (LeaderEpoch p) 0).
Definition carried_offset_topic (v : Z) (t : ListOffsetsResponseTopic) : ListOffsetsResponseTopic :=
  mkListOffsetsResponseTopic (Topic t) (map (carried_offset v) (Partitions t)).
Definition carried_list_response (r : ListOffsetsResponse) : ListOffsetsResponse :=
  mkListOffsetsResponse (Version r) (kept (2 <=? Version r) (ThrottleTimeMs r) 0) (map (carried_offset_topic (Version r)) (Topics r)).

Lemma offset_carried v p w : encode_response_partition v (carried_offset v p) w = encode_response_partition v p w.
Proof. unfold encode_response_partition, carried_offset. carried_fields. Qed.
#[local] Hint Resolve offset_carried : carried.
Lemma offset_topic_carried v t w : encode_response_topic v (carried_offset_topic v t) w = encode_response_topic v t w.
Proof. unfold encode_response_topic, carried_offset_topic. carried_fields. Qed.
#[local] Hint Resolve offset_topic_carried : carried.
Lemma list_response_carried r w : EncodeListOffsetsResponse (carried_list_response r) w = EncodeListOffsetsResponse r w.
Proof. unfold EncodeListOffsetsResponse, carried_list_response. carried_fields. Qed.
End CarriedData.

Module CarriedAdmin.
Import Metadata.

Definition carried_metadata_request (r : MetadataRequest) : MetadataRequest :=
  mkMetadataRequest (req_Version r) (req_Topics r) (kept (4 <=? req_Version r) (AllowAutoTopicCreation r) false)
    (kept (8 <=? req_Version r) (IncludeClusterAuthorizedOperations r) false)
    (kept (8 <=? req_Version r) (IncludeTopicAuthorizedOperations r) false).
Lemma metadata_request_carried r w : EncodeMetadataRequest (carried_metadata_request r) w = EncodeMetadataRequest r w.
Proof. unfold EncodeMetadataRequest, carried_metadata_request. carried_fields. Qed.

Definition carried_broker (v : Z) (b : MetadataBroker) : MetadataBroker :=
  mkMetadataBroker (NodeID b) (Host b) (Port b) (kept (1 <=? v) (Rack b) None).
Definition carried_replicas (v : Z) (p : MetadataPartition) : MetadataPartition :=
  mkMetadataPartition (p_ErrorCode p) (Partition p) (Leader p) (kept (7 <=? v) (LeaderEpoch p) 0) (Replicas p) (ISR p)
    (kept (5 <=? v) (OfflineReplicas p) None).
Definition carried_topic (v : Z) (t : MetadataTopic) : MetadataTopic :=
  mkMetadataTopic (ErrorCode t) (Name t) (kept (1 <=? v) (IsInternal t) false) (map (carried_replicas v) (Partitions t))
    (kept (8 <=? v) (AuthorizedOperations t) 0).
Definition carried_metadata_response (r : MetadataResponse) : MetadataResponse :=
  mkMetadataResponse (Version r) (kept (3 <=? Version r) (ThrottleTimeMs r) 0) (map (carried_broker (Version r)) (Brokers r))
    (kept (2 <=? Version r) (ClusterID r) None) (kept (1 <=? Version r) (ControllerID r) 0)
    (map (carried_topic (Version r)) (Topics r))
    (kept ((8 <=? Version r) && (Version r <=? 10)) (ClusterAuthorizedOperations r) 0).

Lemma broker_carried v b w : encode_broker v (carried_broker v b) w = encode_broker v b w.
Proof. unfold encode_broker, carried_broker. carried_fields. Qed.
#[local] Hint Resolve broker_carried : carried.
Lemma replicas_carried v p w : encode_partition v (carried_replicas v p) w = encode_partition v p w.
Proof. unfold encode_partition, carried_replicas. carried_fields. Qed.
#[local] Hint Resolve replicas_carried : carried.
Lemma topic_carried v t w : encode_topic v (carried_topic v t) w = encode_topic v t w.
Proof. unfold encode_topic, carried_topic. carried_fields. Qed.
#[local] Hint Resolve topic_carried : carried.
Lemma metadata_response_carried r w : EncodeMetadataResponse (carried_metadata_response r) w = EncodeMetadataResponse r w.
Proof. unfold EncodeMetadataResponse, carried_metadata_response. carried_fields. Qed.

Import Topics.

(** A missing list of replicas is written as an empty one. *)
Definition carried_assignment (a : CreateTopicsReplicaAssignment) : CreateTopicsReplicaAssignment :=
  mkCreateTopicsReplicaAssignment (Partition a) (Some (default [] (Replicas a))).
Definition carried_create (t : CreateTopicsRequestTopic) : CreateTopicsRequestTopic :=
  mkCreateTopicsRequestTopic (Topic t) (NumPartitions t) (ReplicationFactor t) (map carried_assignment (ReplicaAssignment t)) (Configs t).
Definition carried_create_request (r : CreateTopicsRequest) : CreateTopicsRequest :=
  mkCreateTopicsRequest (Version r) (map carried_create (creates r)) (TimeoutMs r) (kept (1 <=? Version r) (ValidateOnly r) false).

Lemma assignment_carried a w : encode_assignment (carried_assignment a) w = encode_assignment a w.
Proof. done. Qed.
#[local] Hint Resolve assignment_carried : carried.
Lemma create_carried t w : encode_create (carried_create t) w = encode_create t w.
Proof. unfold encode_create, carried_create. carried_fields. Qed.
#[local] Hint Resolve create_carried : carried.
Lemma create_request_carried r w : EncodeCreateTopicsRequest (carried_create_request r) w = EncodeCreateTopicsRequest r w.
Proof. unfold EncodeCreateTopicsRequest, carried_create_request. carried_fields. Qed.

Definition carried_created (v : Z) (t : CreateTopicsResponseTopic) : CreateTopicsResponseTopic :=
  mkCreateTopicsResponseTopic (resp_Topic t) (ErrorCode t) (kept (1 <=? v) (ErrorMessage t) None).
Definition carried_create_response (r : CreateTopicsResponse) : CreateTopicsResponse :=
  mkCreateTopicsResponse (resp_Version r) (kept (2 <=? resp_Version r) (ThrottleTimeMs r) 0) (map (carried_created (resp_Version r)) (created r)).

Lemma created_carried v t w : encode_created v (carried_created v t) w = encode_created v t w.
Proof. unfold encode_created, carried_created. carried_fields. Qed.
#[local] Hint Resolve created_carried : carried.
Lemma create_response_carried r w : EncodeCreateTopicsResponse (carried_create_response r) w = EncodeCreateTopicsResponse r w.
Proof. unfold EncodeCreateTopicsResponse, carried_create_response. carried_fields. Qed.

Definition carried_deleted (v : Z) (t : DeleteTopicsResponseTopic) : DeleteTopicsResponseTopic :=
  mkDeleteTopicsResponseTopic (del_Name t) (del_ErrorCode t) (kept (5 <=? v) (del_ErrorMessage t) None).
Definition carried_delete_response (r : DeleteTopicsResponse) : DeleteTopicsResponse :=
  mkDeleteTopicsResponse (dresp_Version r) (kept (1 <=? dresp_Version r) (dresp_ThrottleTimeMs r) 0)
    (map (carried_deleted (dresp_Version r)) (deleted r)).

Lemma deleted_carried v t w : encode_deleted v (carried_deleted v t) w = encode_deleted v t w.
Proof. unfold encode_deleted, carried_deleted. carried_fields. Qed.
#[local] Hint Resolve deleted_carried : carried.
Lemma delete_response_carried r w : EncodeDeleteTopicsResponse (carried_delete_response r) w = EncodeDeleteTopicsResponse r w.
Proof. unfold EncodeDeleteTopicsResponse, carried_delete_response. carried_fields. Qed.

Import Session.

Definition carried_api_versions (r : ApiVersionsResponse) : ApiVersionsResponse :=
  mkApiVersionsResponse (avr_Version r) (avr_ErrorCode r) (ApiKeys r) (kept (1 <=? avr_Version r) (avr_ThrottleTimeMs r) 0).
Lemma api_versions_carried r w : EncodeApiVersionsResponse (carried_api_versions r) w = EncodeApiVersionsResponse r w.
Proof.
  unfold EncodeApiVersionsResponse, carried_api_versions. cbn [avr_Version avr_ErrorCode ApiKeys avr_ThrottleTimeMs].
  destruct (Z.leb_spec 3 (avr_Version r)); [by rewrite (proj2 (Z.leb_le 1 (avr_Version r))) by lia|]. carried_fields.
Qed.

Definition carried_init_request (r : InitProducerIdRequest) : InitProducerIdRequest :=
  mkInitProducerIdRequest (ip_Version r) (TransactionalID r) (TransactionTimeoutMs r)
    (kept (2 <=? ip_Version r) (ip_ProducerID r) 0) (kept (2 <=? ip_Version r) (ip_ProducerEpoch r) 0).
Lemma init_request_carried r w : EncodeInitProducerIdRequest (carried_init_request r) w = EncodeInitProducerIdRequest r w.
Proof. unfold EncodeInitProducerIdRequest, carried_init_request. carried_fields. Qed.

Definition carried_init_response (r : InitProducerIdResponse) : InitProducerIdResponse :=
  mkInitProducerIdResponse (ipr_Version r) (kept (1 <=? ipr_Version r) (ipr_ThrottleTimeMs r) 0) (ipr_ErrorCode r) (ProducerID r) (ProducerEpoch r).
Lemma init_response_carried r w : EncodeInitProducerIdResponse (carried_init_response r) w = EncodeInitProducerIdResponse r w.
Proof. unfold EncodeInitProducerIdResponse, carried_init_response. carried_fields. Qed.

Definition carried_auth_response (r : SaslAuthenticateResponse) : SaslAuthenticateResponse :=
  mkSaslAuthenticateResponse (sar_Version r) (sar_ErrorCode r) (sar_ErrorMessage r) (sar_AuthBytes r)
    (kept (1 <=? sar_Version r) (SessionLifetimeMs r) 0).
Lemma auth_response_carried r w : EncodeSaslAuthenticateResponse (carried_auth_response r) w = EncodeSaslAuthenticateResponse r w.
Proof. unfold EncodeSaslAuthenticateResponse, carried_auth_response. carried_fields. Qed.
End CarriedAdmin.

Module CarriedGroup.
Import Membership.

Definition carried_find_request (r : FindCoordinatorRequest) : FindCoordinatorRequest :=
  mkFindCoordinatorRequest (fc_Version r) (Key r) (kept (1 <=? fc_Version r) (KeyType r) 0).
Lemma find_request_carried r w : EncodeFindCoordinatorRequest (carried_find_request r) w = EncodeFindCoordinatorRequest r w.
Proof. unfold EncodeFindCoordinatorRequest, carried_find_request. carried_fields. Qed.

Definition carried_find_response (r : FindCoordinatorResponse) : FindCoordinatorResponse :=
  mkFindCoordinatorResponse (fcr_Version r) (kept (1 <=? fcr_Version r) (fcr_ThrottleTimeMs r) 0) (fcr_ErrorCode r)
    (kept (1 <=? fcr_Version r) (fcr_ErrorMessage r) None) (NodeID r) (Host r) (Port r).
Lemma find_response_carried r w : EncodeFindCoordinatorResponse (carried_find_response r) w = EncodeFindCoordinatorResponse r w.
Proof. unfold EncodeFindCoordinatorResponse, carried_find_response. carried_fields. Qed.

(** Version 0 has one timeout for both purposes. *)
Definition carried_join_request (r : JoinGroupRequest) : JoinGroupRequest :=
  mkJoinGroupRequest (jg_Version r) (jg_Group r) (SessionTimeoutMs r) (kept (1 <=? jg_Version r) (RebalanceTimeoutMs r) (SessionTimeoutMs r))
    (jg_MemberID r) (kept (5 <=? jg_Version r) (jg_InstanceID r) None) (ProtocolType r) (Protocols r).
Lemma join_request_carried r w : EncodeJoinGroupRequest (carried_join_request r) w = EncodeJoinGroupRequest r w.
Proof. unfold EncodeJoinGroupRequest, carried_join_request. carried_fields. Qed.

Definition carried_member (v : Z) (m : JoinGroupResponseMember) : JoinGroupResponseMember :=
  mkJoinGroupResponseMember (m_MemberID m) (kept (5 <=? v) (m_InstanceID m) None) (m_Metadata m).
Definition carried_join_response (r : JoinGroupResponse) : JoinGroupResponse :=
  mkJoinGroupResponse (jgr_Version r) (kept (2 <=? jgr_Version r) (jgr_ThrottleTimeMs r) 0) (jgr_ErrorCode r) (jgr_GenerationID r)
    (ProtocolName r) (LeaderID r) (jgr_MemberID r) (map (carried_member (jgr_Version r)) (Members r)).
Lemma member_carried v m w : encode_member v (carried_member v m) w = encode_member v m w.
Proof. unfold encode_member, carried_member. carried_fields. Qed.
#[local] Hint Resolve member_carried : carried.
Lemma join_response_carried r w : EncodeJoinGroupResponse (carried_join_response r) w = EncodeJoinGroupResponse r w.
Proof. unfold EncodeJoinGroupResponse, carried_join_response. carried_fields. Qed.

Definition carried_sync_request (r : SyncGroupRequest) : SyncGroupRequest :=
  mkSyncGroupRequest (sg_Version r) (sg_Group r) (sg_GenerationID r) (sg_MemberID r) (kept (3 <=? sg_Version r) (sg_InstanceID r) None) (Assignments r).
Lemma sync_request_carried r w : EncodeSyncGroupRequest (carried_sync_request r) w = EncodeSyncGroupRequest r w.
Proof. unfold EncodeSyncGroupRequest, carried_sync_request. carried_fields. Qed.

Definition carried_sync_response (r : SyncGroupResponse) : SyncGroupResponse :=
  mkSyncGroupResponse (sgr_Version r) (kept (1 <=? sgr_Version r) (sgr_ThrottleTimeMs r) 0) (sgr_ErrorCode r) (Assignment r).
Lemma sync_response_carried r w : EncodeSyncGroupResponse (carried_sync_response r) w = EncodeSyncGroupResponse r w.
Proof. unfold EncodeSyncGroupResponse, carried_sync_response. carried_fields. Qed.

Definition carried_heartbeat_request (r : HeartbeatRequest) : HeartbeatRequest :=
  mkHeartbeatRequest (hb_Version r) (hb_Group r) (hb_GenerationID r) (hb_MemberID r) (kept (3 <=? hb_Version r) (hb_InstanceID r) None).
Lemma heartbeat_request_carried r w : EncodeHeartbeatRequest (carried_heartbeat_request r) w = EncodeHeartbeatRequest r w.
Proof. unfold EncodeHeartbeatRequest, carried_heartbeat_request. carried_fields. Qed.

Definition carried_heartbeat_response (r : HeartbeatResponse) : HeartbeatResponse :=
  mkHeartbeatResponse (hbr_Version r) (kept (1 <=? hbr_Version r) (hbr_ThrottleTimeMs r) 0) (hbr_ErrorCode r).
Lemma heartbeat_response_carried r w : EncodeHeartbeatResponse (carried_heartbeat_response r) w = EncodeHeartbeatResponse r w.
Proof. unfold EncodeHeartbeatResponse, carried_heartbeat_response. carried_fields. Qed.

Import Offsets.

Definition carried_commit (v : Z) (p : OffsetCommitRequestPartition) : OffsetCommitRequestPartition :=
  mkOffsetCommitRequestPartition (Partition p) (Offset p) (kept (6 <=? v) (LeaderEpoch p) 0) (Metadata p).
Definition carried_commit_topic (v : Z) (t : OffsetCommitRequestTopic) : OffsetCommitRequestTopic :=
  mkOffsetCommitRequestTopic (Topic t) (map (carried_commit v) (Partitions t)).
Definition carried_commit_request (r : OffsetCommitRequest) : OffsetCommitRequest :=
  mkOffsetCommitRequest (Version r) (Group r) (kept (1 <=? Version r) (Generation r) 0) (kept (1 <=? Version r) (MemberID r) [])
    (kept (7 <=? Version r) (InstanceID r) None) (map (carried_commit_topic (Version r)) (Topics r)).

Lemma commit_carried v p w : encode_commit_partition v (carried_commit v p) w = encode_commit_partition v p w.
Proof. unfold encode_commit_partition, carried_commit. carried_fields. Qed.
#[local] Hint Resolve commit_carried : carried.
Lemma commit_topic_carried v t w : encode_commit_topic v (carried_commit_topic v t) w = encode_commit_topic v t w.
Proof. unfold encode_commit_topic, carried_commit_topic. carried_fields. Qed.
#[local] Hint Resolve commit_topic_carried : carried.
Lemma commit_request_carried r w : EncodeOffsetCommitRequest (carried_commit_request r) w = EncodeOffsetCommitRequest r w.
Proof. unfold EncodeOffsetCommitRequest, carried_commit_request. carried_fields. Qed.

Definition carried_commit_response (r : OffsetCommitResponse) : OffsetCommitResponse :=
  mkOffsetCommitResponse (r_Version r) (kept (3 <=? r_Version r) (r_ThrottleTimeMs r) 0) (r_Topics r).
Lemma commit_response_carried r w : EncodeOffsetCommitResponse (carried_commit_response r) w = EncodeOffsetCommitResponse r w.
Proof. unfold EncodeOffsetCommitResponse, carried_commit_response. carried_fields. Qed.

(** A missing list of partitions is written as an empty one. *)
Definition carried_fetch_topic (t : OffsetFetchRequestTopic) : OffsetFetchRequestTopic :=
  mkOffsetFetchRequestTopic (of_Topic t) (Some (default [] (of_Partitions t))).
Definition carried_offset_fetch_request (r : OffsetFetchRequest) : OffsetFetchRequest :=
  mkOffsetFetchRequest (of_Version r) (of_Group r) (map carried_fetch_topic <$> of_Topics r).
Lemma fetch_topic_carried t w : encode_fetch_topic (carried_fetch_topic t) w = encode_fetch_topic t w.
Proof. done. Qed.
#[local] Hint Resolve fetch_topic_carried : carried.
Lemma offset_fetch_request_carried r w : EncodeOffsetFetchRequest (carried_offset_fetch_request r) w = EncodeOffsetFetchRequest r w.
Proof. unfold EncodeOffsetFetchRequest, carried_offset_fetch_request. destruct (of_Topics r); carried_fields. Qed.

Definition carried_fetched (v : Z) (p : OffsetFetchResponsePartition) : OffsetFetchResponsePartition :=
  mkOffsetFetchResponsePartition (fr_Partition p) (fr_Offset p) (kept (5 <=? v) (fr_LeaderEpoch p) 0) (fr_Metadata p) (fr_ErrorCode p).
Definition carried_fetched_topic (v : Z) (t : OffsetFetchResponseTopic) : OffsetFetchResponseTopic :=
  mkOffsetFetchResponseTopic (fr_Topic t) (map (carried_fetched v) (fr_Partitions t)).
Definition carried_offset_fetch_response (r : OffsetFetchResponse) : OffsetFetchResponse :=
  mkOffsetFetchResponse (ofr_Version r) (kept (3 <=? ofr_Version r) (ofr_ThrottleTimeMs r) 0)
    (map (carried_fetched_topic (ofr_Version r)) (ofr_Topics r)) (kept (2 <=? ofr_Version r) (ofr_ErrorCode r) 0).
Lemma fetched_carried v p w : encode_fetched_partition v (carried_fetched v p) w = encode_fetched_partition v p w.
Proof. unfold encode_fetched_partition, carried_fetched. carried_fields. Qed.
#[local] Hint Resolve fetched_carried : carried.
Lemma fetched_topic_carried v t w : encode_fetched_topic v (carried_fetched_topic v t) w = encode_fetched_topic v t w.
Proof. unfold encode_fetched_topic, carried_fetched_topic. carried_fields. Qed.
#[local] Hint Resolve fetched_topic_carried : carried.
Lemma offset_fetch_response_carried r w : EncodeOffsetFetchResponse (carried_offset_fetch_response r) w = EncodeOffsetFetchResponse r w.
Proof. unfold EncodeOffsetFetchResponse, carried_offset_fetch_response. carried_fields. Qed.

Import GroupAdmin.

Definition carried_list_groups (r : ListGroupsResponse) : ListGroupsResponse :=
  mkListGroupsResponse (lr_Version r) (kept (1 <=? lr_Version r) (lr_ThrottleTimeMs r) 0) (lr_ErrorCode r) (lr_Groups r).
Lemma list_groups_carried r w : EncodeListGroupsResponse (carried_list_groups r) w = EncodeListGroupsResponse r w.
Proof. unfold EncodeListGroupsResponse, carried_list_groups. carried_fields. Qed.

Definition carried_describe_request (r : DescribeGroupsRequest) : DescribeGroupsRequest :=
  mkDescribeGroupsRequest (dq_Version r) (dq_GroupIDs r) (kept (3 <=? dq_Version r) (IncludeAuth r) false).
Lemma describe_request_carried r w : EncodeDescribeGroupsRequest (carried_describe_request r) w = EncodeDescribeGroupsRequest r w.
Proof. unfold EncodeDescribeGroupsRequest, carried_describe_request. carried_fields. Qed.

Definition carried_described (v : Z) (g : DescribeGroupsResponseGroup) : DescribeGroupsResponseGroup :=
  mkDescribeGroupsResponseGroup (dg_ErrorCode g) (dg_GroupID g) (State g) (dg_ProtocolType g) (Protocol g) (dg_Members g)
    (kept (3 <=? v) (dg_AuthorizedOperations g) 0).
Definition carried_describe_response (r : DescribeGroupsResponse) : DescribeGroupsResponse :=
  mkDescribeGroupsResponse (dr_Version r) (kept (1 <=? dr_Version r) (dr_ThrottleTimeMs r) 0) (map (carried_described (dr_Version r)) (dr_Groups r)).
Lemma described_carried v g w : encode_described v (carried_described v g) w = encode_described v g w.
Proof. unfold encode_described, carried_described. carried_fields. Qed.
#[local] Hint Resolve described_carried : carried.
Lemma describe_response_carried r w : EncodeDescribeGroupsResponse (carried_describe_response r) w = EncodeDescribeGroupsResponse r w.
Proof. unfold EncodeDescribeGroupsResponse, carried_describe_response. carried_fields. Qed.

Definition carried_deleted_group (v : Z) (g : DeleteGroupsResponseGroup) : DeleteGroupsResponseGroup :=
  mkDeleteGroupsResponseGroup (xg_GroupID g) (xg_ErrorCode g) (kept (1 <=? v) (xg_ErrorMessage g) None).
Definition carried_delete_groups (r : DeleteGroupsResponse) : DeleteGroupsResponse :=
  mkDeleteGroupsResponse (xr_Version r) (kept (1 <=? xr_Version r) (xr_ThrottleTimeMs r) 0) (map (carried_deleted_group (xr_Version r)) (xr_Groups r)).
Lemma deleted_group_carried v g w : encode_deleted v (carried_deleted_group v g) w = encode_deleted v g w.
Proof. unfold encode_deleted, carried_deleted_group. carried_fields. Qed.
#[local] Hint Resolve deleted_group_carried : carried.
Lemma delete_groups_carried r w : EncodeDeleteGroupsResponse (carried_delete_groups r) w = EncodeDeleteGroupsResponse r w.
Proof. unfold EncodeDeleteGroupsResponse, carried_delete_groups. carried_fields. Qed.

Import Txn.

Definition carried_txn_topic (t : AddPartitionsToTxnRequestTopic) : AddPartitionsToTxnRequestTopic :=
  mkAddPartitionsToTxnRequestTopic (tq_Topic t) (Some (default [] (tq_Partitions t))).
Definition carried_add_partitions (r : AddPartitionsToTxnRequest) : AddPartitionsToTxnRequest :=
  mkAddPartitionsToTxnRequest (ap_Version r) (ap_TransactionalID r) (ap_ProducerID r) (ap_ProducerEpoch r) (map carried_txn_topic (ap_Topics r)).
Lemma txn_topic_carried t w : encode_txn_topic (carried_txn_topic t) w = encode_txn_topic t w.
Proof. done. Qed.
#[local] Hint Resolve txn_topic_carried : carried.
Lemma add_partitions_carried r w : EncodeAddPartitionsToTxnRequest (carried_add_partitions r) w = EncodeAddPartitionsToTxnRequest r w.
Proof. unfold EncodeAddPartitionsToTxnRequest, carried_add_partitions. carried_fields. Qed.

Definition carried_partitions_added (r : AddPartitionsToTxnResponse) : AddPartitionsToTxnResponse :=
  mkAddPartitionsToTxnResponse (apr_Version r) (kept (1 <=? apr_Version r) (apr_ThrottleTimeMs r) 0) (apr_ErrorCode r) (apr_Topics r).
Lemma partitions_added_carried r w : EncodeAddPartitionsToTxnResponse (carried_partitions_added r) w = EncodeAddPartitionsToTxnResponse r w.
Proof. unfold EncodeAddPartitionsToTxnResponse, carried_partitions_added. carried_fields. Qed.

Definition carried_offsets_added (r : AddOffsetsToTxnResponse) : AddOffsetsToTxnResponse :=
  mkAddOffsetsToTxnResponse (aor_Version r) (kept (1 <=? aor_Version r) (aor_ThrottleTimeMs r) 0) (aor_ErrorCode r).
Lemma offsets_added_carried r w : EncodeAddOffsetsToTxnResponse (carried_offsets_added r) w = EncodeAddOffsetsToTxnResponse r w.
Proof. unfold EncodeAddOffsetsToTxnResponse, carried_offsets_added. carried_fields. Qed.

Definition carried_ended (r : EndTxnResponse) : EndTxnResponse :=
  mkEndTxnResponse (etr_Version r) (kept (1 <=? etr_Version r) (etr_ThrottleTimeMs r) 0) (etr_ErrorCode r).
Lemma ended_carried r w : EncodeEndTxnResponse (carried_ended r) w = EncodeEndTxnResponse r w.
Proof. unfold EncodeEndTxnResponse, carried_ended. carried_fields. Qed.
End CarriedGroup.
