(* ===== verification/Messages.v ===== *)
(** * Every message, as one type

    The requests and responses of the APIs of which the repository has both ends,
    each with the client's or the broker's encoder and the other end's decoder.
    LeaveGroup is missing: the client library never sends it, so its request has
    no encoder and its response no decoder. *)

From stdpp Require Import prelude list strings.
From Stdlib Require Import ZArith Lia.
From S2P Require Import Prelude GoBinary Wire MsgData MsgAdmin MsgGroup MsgGroupAdmin MsgCarried.
Import CarriedData CarriedAdmin CarriedGroup.

Inductive message :=
  | MProduceRequest (m : Produce.ProduceRequest)
  | MProduceResponse (m : Produce.ProduceResponse)
  | MFetchRequest (m : Fetch.FetchRequest)
  | MFetchResponse (m : Fetch.FetchResponse)
  | MListOffsetsRequest (m : ListOffsets.ListOffsetsRequest)
  | MListOffsetsResponse (m : ListOffsets.ListOffsetsResponse)
  | MMetadataRequest (m : Metadata.MetadataRequest)
  | MMetadataResponse (m : Metadata.MetadataResponse)
  | MCreateTopicsRequest (m : Topics.CreateTopicsRequest)
  | MCreateTopicsResponse (m : Topics.CreateTopicsResponse)
  | MDeleteTopicsRequest (m : Topics.DeleteTopicsRequest)
  | MDeleteTopicsResponse (m : Topics.DeleteTopicsResponse)
  | MApiVersionsRequest (m : Session.ApiVersionsRequest)
  | MApiVersionsResponse (m : Session.ApiVersionsResponse)
  | MInitProducerIdRequest (m : Session.InitProducerIdRequest)
  | MInitProducerIdResponse (m : Session.InitProducerIdResponse)
  | MSASLHandshakeRequest (m : Session.SASLHandshakeRequest)
  | MSASLHandshakeResponse (m : Session.SASLHandshakeResponse)
  | MSaslAuthenticateRequest (m : Session.SaslAuthenticateRequest)
  | MSaslAuthenticateResponse (m : Session.SaslAuthenticateResponse)
  | MFindCoordinatorRequest (m : Membership.FindCoordinatorRequest)
  | MFindCoordinatorResponse (m : Membership.FindCoordinatorResponse)
  | MJoinGroupRequest (m : Membership.JoinGroupRequest)
  | MJoinGroupResponse (m : Membership.JoinGroupResponse)
  | MSyncGroupRequest (m : Membership.SyncGroupRequest)
  | MSyncGroupResponse (m : Membership.SyncGroupResponse)
  | MHeartbeatRequest (m : Membership.HeartbeatRequest)
  | MHeartbeatResponse (m : Membership.HeartbeatResponse)
  | MOffsetCommitRequest (m : Offsets.OffsetCommitRequest)
  | MOffsetCommitResponse (m : Offsets.OffsetCommitResponse)
  | MOffsetFetchRequest (m : Offsets.OffsetFetchRequest)
  | MOffsetFetchResponse (m : Offsets.OffsetFetchResponse)
  | MListGroupsRequest (m : GroupAdmin.ListGroupsRequest)
  | MListGroupsResponse (m : GroupAdmin.ListGroupsResponse)
  | MDescribeGroupsRequest (m : GroupAdmin.DescribeGroupsRequest)
  | MDescribeGroupsResponse (m : GroupAdmin.DescribeGroupsResponse)
  | MDeleteGroupsRequest (m : GroupAdmin.DeleteGroupsRequest)
  | MDeleteGroupsResponse (m : GroupAdmin.DeleteGroupsResponse)
  | MAddPartitionsToTxnRequest (m : Txn.AddPartitionsToTxnRequest)
  | MAddPartitionsToTxnResponse (m : Txn.AddPartitionsToTxnResponse)
  | MAddOffsetsToTxnRequest (m : Txn.AddOffsetsToTxnRequest)
  | MAddOffsetsToTxnResponse (m : Txn.AddOffsetsToTxnResponse)
  | MEndTxnRequest (m : Txn.EndTxnRequest)
  | MEndTxnResponse (m : Txn.EndTxnResponse).

Definition encode_message (m : message) : list byte :=
  match m with
  | MProduceRequest m => Produce.EncodeProduceRequest m NewWriter
  | MProduceResponse m => Produce.EncodeProduceResponse m NewWriter
  | MFetchRequest m => Fetch.EncodeFetchRequest m NewWriter
  | MFetchResponse m => Fetch.EncodeFetchResponse m NewWriter
  | MListOffsetsRequest m => ListOffsets.EncodeListOffsetsRequest m NewWriter
  | MListOffsetsResponse m => ListOffsets.EncodeListOffsetsResponse m NewWriter
  | MMetadataRequest m => Metadata.EncodeMetadataRequest m NewWriter
  | MMetadataResponse m => Metadata.EncodeMetadataResponse m NewWriter
  | MCreateTopicsRequest m => Topics.EncodeCreateTopicsRequest m NewWriter
  | MCreateTopicsResponse m => Topics.EncodeCreateTopicsResponse m NewWriter
  | MDeleteTopicsRequest m => Topics.EncodeDeleteTopicsRequest m NewWriter
  | MDeleteTopicsResponse m => Topics.EncodeDeleteTopicsResponse m NewWriter
  | MApiVersionsRequest m => Session.EncodeApiVersionsRequest m NewWriter
  | MApiVersionsResponse m => Session.EncodeApiVersionsResponse m NewWriter
  | MInitProducerIdRequest m => Session.EncodeInitProducerIdRequest m NewWriter
  | MInitProducerIdResponse m => Session.EncodeInitProducerIdResponse m NewWriter
  | MSASLHandshakeRequest m => Session.EncodeSASLHandshakeRequest m NewWriter
  | MSASLHandshakeResponse m => Session.EncodeSASLHandshakeResponse m NewWriter
  | MSaslAuthenticateRequest m => Session.EncodeSaslAuthenticateRequest m NewWriter
  | MSaslAuthenticateResponse m => Session.EncodeSaslAuthenticateResponse m NewWriter
  | MFindCoordinatorRequest m => Membership.EncodeFindCoordinatorRequest m NewWriter
  | MFindCoordinatorResponse m => Membership.EncodeFindCoordinatorResponse m NewWriter
  | MJoinGroupRequest m => Membership.EncodeJoinGroupRequest m NewWriter
  | MJoinGroupResponse m => Membership.EncodeJoinGroupResponse m NewWriter
  | MSyncGroupRequest m => Membership.EncodeSyncGroupRequest m NewWriter
  | MSyncGroupResponse m => Membership.EncodeSyncGroupResponse m NewWriter
  | MHeartbeatRequest m => Membership.EncodeHeartbeatRequest m NewWriter
  | MHeartbeatResponse m => Membership.EncodeHeartbeatResponse m NewWriter
  | MOffsetCommitRequest m => Offsets.EncodeOffsetCommitRequest m NewWriter
  | MOffsetCommitResponse m => Offsets.EncodeOffsetCommitResponse m NewWriter
  | MOffsetFetchRequest m => Offsets.EncodeOffsetFetchRequest m NewWriter
  | MOffsetFetchResponse m => Offsets.EncodeOffsetFetchResponse m NewWriter
  | MListGroupsRequest m => GroupAdmin.EncodeListGroupsRequest m NewWriter
  | MListGroupsResponse m => GroupAdmin.EncodeListGroupsResponse m NewWriter
  | MDescribeGroupsRequest m => GroupAdmin.EncodeDescribeGroupsRequest m NewWriter
  | MDescribeGroupsResponse m => GroupAdmin.EncodeDescribeGroupsResponse m NewWriter
  | MDeleteGroupsRequest m => GroupAdmin.EncodeDeleteGroupsRequest m NewWriter
  | MDeleteGroupsResponse m => GroupAdmin.EncodeDeleteGroupsResponse m NewWriter
  | MAddPartitionsToTxnRequest m => Txn.EncodeAddPartitionsToTxnRequest m NewWriter
  | MAddPartitionsToTxnResponse m => Txn.EncodeAddPartitionsToTxnResponse m NewWriter
  | MAddOffsetsToTxnRequest m => Txn.EncodeAddOffsetsToTxnRequest m NewWriter
  | MAddOffsetsToTxnResponse m => Txn.EncodeAddOffsetsToTxnResponse m NewWriter
  | MEndTxnRequest m => Txn.EncodeEndTxnRequest m NewWriter
  | MEndTxnResponse m => Txn.EncodeEndTxnResponse m NewWriter
  end.

(** Decoding with the decoder and at the version of [m]. *)
Definition decode_like (m : message) (body : list byte) : outcome message :=
  match m with
  | MProduceRequest m => let? x := decode (Produce.DecodeProduceRequest (Produce.req_Version m)) body in Ok (MProduceRequest x)
  | MProduceResponse m => let? x := decode (Produce.DecodeProduceResponse (Produce.Version m)) body in Ok (MProduceResponse x)
  | MFetchRequest m => let? x := decode (Fetch.DecodeFetchRequest (Fetch.req_Version m)) body in Ok (MFetchRequest x)
  | MFetchResponse m => let? x := decode (Fetch.DecodeFetchResponse (Fetch.Version m)) body in Ok (MFetchResponse x)
  | MListOffsetsRequest m => let? x := decode (ListOffsets.DecodeListOffsetsRequest (ListOffsets.req_Version m)) body in Ok (MListOffsetsRequest x)
  | MListOffsetsResponse m => let? x := decode (ListOffsets.DecodeListOffsetsResponse (ListOffsets.Version m)) body in Ok (MListOffsetsResponse x)
  | MMetadataRequest m => let? x := decode (Metadata.DecodeMetadataRequest (Metadata.req_Version m)) body in Ok (MMetadataRequest x)
  | MMetadataResponse m => let? x := decode (Metadata.DecodeMetadataResponse (Metadata.Version m)) body in Ok (MMetadataResponse x)
  | MCreateTopicsRequest m => let? x := decode (Topics.DecodeCreateTopicsRequest (Topics.Version m)) body in Ok (MCreateTopicsRequest x)
  | MCreateTopicsResponse m => let? x := decode (Topics.DecodeCreateTopicsResponse (Topics.resp_Version m)) body in Ok (MCreateTopicsResponse x)
  | MDeleteTopicsRequest m => let? x := decode (Topics.DecodeDeleteTopicsRequest (Topics.del_Version m)) body in Ok (MDeleteTopicsRequest x)
  | MDeleteTopicsResponse m => let? x := decode (Topics.DecodeDeleteTopicsResponse (Topics.dresp_Version m)) body in Ok (MDeleteTopicsResponse x)
  | MApiVersionsRequest m => let? x := decode (Session.DecodeApiVersionsRequest (Session.av_Version m)) body in Ok (MApiVersionsRequest x)
  | MApiVersionsResponse m => let? x := decode (Session.DecodeApiVersionsResponse (Session.avr_Version m)) body in Ok (MApiVersionsResponse x)
  | MInitProducerIdRequest m => let? x := decode (Session.DecodeInitProducerIdRequest (Session.ip_Version m)) body in Ok (MInitProducerIdRequest x)
  | MInitProducerIdResponse m => let? x := decode (Session.DecodeInitProducerIdResponse (Session.ipr_Version m)) body in Ok (MInitProducerIdResponse x)
  | MSASLHandshakeRequest m => let? x := decode (Session.DecodeSASLHandshakeRequest (Session.sh_Version m)) body in Ok (MSASLHandshakeRequest x)
  | MSASLHandshakeResponse m => let? x := decode (Session.DecodeSASLHandshakeResponse (Session.shr_Version m)) body in Ok (MSASLHandshakeResponse x)
  | MSaslAuthenticateRequest m => let? x := decode (Session.DecodeSaslAuthenticateRequest (Session.sa_Version m)) body in Ok (MSaslAuthenticateRequest x)
  | MSaslAuthenticateResponse m => let? x := decode (Session.DecodeSaslAuthenticateResponse (Session.sar_Version m)) body in Ok (MSaslAuthenticateResponse x)
  | MFindCoordinatorRequest m => let? x := decode (Membership.DecodeFindCoordinatorRequest (Membership.fc_Version m)) body in Ok (MFindCoordinatorRequest x)
  | MFindCoordinatorResponse m => let? x := decode (Membership.DecodeFindCoordinatorResponse (Membership.fcr_Version m)) body in Ok (MFindCoordinatorResponse x)
  | MJoinGroupRequest m => let? x := decode (Membership.DecodeJoinGroupRequest (Membership.jg_Version m)) body in Ok (MJoinGroupRequest x)
  | MJoinGroupResponse m => let? x := decode (Membership.DecodeJoinGroupResponse (Membership.jgr_Version m)) body in Ok (MJoinGroupResponse x)
  | MSyncGroupRequest m => let? x := decode (Membership.DecodeSyncGroupRequest (Membership.sg_Version m)) body in Ok (MSyncGroupRequest x)
  | MSyncGroupResponse m => let? x := decode (Membership.DecodeSyncGroupResponse (Membership.sgr_Version m)) body in Ok (MSyncGroupResponse x)
  | MHeartbeatRequest m => let? x := decode (Membership.DecodeHeartbeatRequest (Membership.hb_Version m)) body in Ok (MHeartbeatRequest x)
  | MHeartbeatResponse m => let? x := decode (Membership.DecodeHeartbeatResponse (Membership.hbr_Version m)) body in Ok (MHeartbeatResponse x)
  | MOffsetCommitRequest m => let? x := decode (Offsets.DecodeOffsetCommitRequest (Offsets.Version m)) body in Ok (MOffsetCommitRequest x)
  | MOffsetCommitResponse m => let? x := decode (Offsets.DecodeOffsetCommitResponse (Offsets.r_Version m)) body in Ok (MOffsetCommitResponse x)
  | MOffsetFetchRequest m => let? x := decode (Offsets.DecodeOffsetFetchRequest (Offsets.of_Version m)) body in Ok (MOffsetFetchRequest x)
  | MOffsetFetchResponse m => let? x := decode (Offsets.DecodeOffsetFetchResponse (Offsets.ofr_Version m)) body in Ok (MOffsetFetchResponse x)
  | MListGroupsRequest m => let? x := decode (GroupAdmin.DecodeListGroupsRequest (GroupAdmin.lq_Version m)) body in Ok (MListGroupsRequest x)
  | MListGroupsResponse m => let? x := decode (GroupAdmin.DecodeListGroupsResponse (GroupAdmin.lr_Version m)) body in Ok (MListGroupsResponse x)
  | MDescribeGroupsRequest m => let? x := decode (GroupAdmin.DecodeDescribeGroupsRequest (GroupAdmin.dq_Version m)) body in Ok (MDescribeGroupsRequest x)
  | MDescribeGroupsResponse m => let? x := decode (GroupAdmin.DecodeDescribeGroupsResponse (GroupAdmin.dr_Version m)) body in Ok (MDescribeGroupsResponse x)
  | MDeleteGroupsRequest m => let? x := decode (GroupAdmin.DecodeDeleteGroupsRequest (GroupAdmin.xq_Version m)) body in Ok (MDeleteGroupsRequest x)
  | MDeleteGroupsResponse m => let? x := decode (GroupAdmin.DecodeDeleteGroupsResponse (GroupAdmin.xr_Version m)) body in Ok (MDeleteGroupsResponse x)
  | MAddPartitionsToTxnRequest m => let? x := decode (Txn.DecodeAddPartitionsToTxnRequest (Txn.ap_Version m)) body in Ok (MAddPartitionsToTxnRequest x)
  | MAddPartitionsToTxnResponse m => let? x := decode (Txn.DecodeAddPartitionsToTxnResponse (Txn.apr_Version m)) body in Ok (MAddPartitionsToTxnResponse x)
  | MAddOffsetsToTxnRequest m => let? x := decode (Txn.DecodeAddOffsetsToTxnRequest (Txn.ao_Version m)) body in Ok (MAddOffsetsToTxnRequest x)
  | MAddOffsetsToTxnResponse m => let? x := decode (Txn.DecodeAddOffsetsToTxnResponse (Txn.aor_Version m)) body in Ok (MAddOffsetsToTxnResponse x)
  | MEndTxnRequest m => let? x := decode (Txn.DecodeEndTxnRequest (Txn.et_Version m)) body in Ok (MEndTxnRequest x)
  | MEndTxnResponse m => let? x := decode (Txn.DecodeEndTxnResponse (Txn.etr_Version m)) body in Ok (MEndTxnResponse x)
  end.

(** Numbers and lengths that fit their fields, in a version of which both ends
    know the fields. *)
Definition fits_message (m : message) : Prop :=
  match m with
  | MProduceRequest m => Produce.wf_request m
  | MProduceResponse m => Produce.wf_response m
  | MFetchRequest m => Fetch.wf_request m
  | MFetchResponse m => Fetch.wf_response m
  | MListOffsetsRequest m => ListOffsets.wf_request m
  | MListOffsetsResponse m => ListOffsets.wf_response m
  | MMetadataRequest m => Metadata.wf_request m
  | MMetadataResponse m => Metadata.wf_response m
  | MCreateTopicsRequest m => Topics.wf_create_request m
  | MCreateTopicsResponse m => Topics.wf_create_response m
  | MDeleteTopicsRequest m => Topics.wf_delete_request m
  | MDeleteTopicsResponse m => Topics.wf_delete_response m
  | MApiVersionsRequest _ => True
  | MApiVersionsResponse m => Session.wf_api_versions m
  | MInitProducerIdRequest m => Session.wf_init_request m
  | MInitProducerIdResponse m => Session.wf_init_response m
  | MSASLHandshakeRequest m => str_ok (Session.Mechanism m)
  | MSASLHandshakeResponse m => Session.wf_handshake_response m
  | MSaslAuthenticateRequest m => bytes_ok (Session.AuthBytes m)
  | MSaslAuthenticateResponse m => Session.wf_auth_response m
  | MFindCoordinatorRequest m => Membership.wf_find_request m
  | MFindCoordinatorResponse m => Membership.wf_find_response m
  | MJoinGroupRequest m => Membership.wf_join_request m
  | MJoinGroupResponse m => Membership.wf_join_response m
  | MSyncGroupRequest m => Membership.wf_sync_request m
  | MSyncGroupResponse m => Membership.wf_sync_response m
  | MHeartbeatRequest m => Membership.wf_heartbeat_request m
  | MHeartbeatResponse m => Membership.wf_heartbeat_response m
  | MOffsetCommitRequest m => Offsets.wf_commit_request m
  | MOffsetCommitResponse m => Offsets.wf_commit_response m
  | MOffsetFetchRequest m => Offsets.wf_fetch_request m
  | MOffsetFetchResponse m => Offsets.wf_fetch_response m
  | MListGroupsRequest _ => True
  | MListGroupsResponse m => GroupAdmin.wf_list_response m
  | MDescribeGroupsRequest m => GroupAdmin.wf_describe_request m
  | MDescribeGroupsResponse m => GroupAdmin.wf_describe_response m
  | MDeleteGroupsRequest m => GroupAdmin.wf_delete_request m
  | MDeleteGroupsResponse m => GroupAdmin.wf_delete_response m
  | MAddPartitionsToTxnRequest m => Txn.wf_add_partitions m
  | MAddPartitionsToTxnResponse m => Txn.wf_partitions_added m
  | MAddOffsetsToTxnRequest m => Txn.wf_add_offsets m
  | MAddOffsetsToTxnResponse m => Txn.wf_offsets_added m
  | MEndTxnRequest m => Txn.wf_end m
  | MEndTxnResponse m => Txn.wf_ended m
  end.

(** The message without what its version does not carry. *)
Definition carried_message (m : message) : message :=
  match m with
  | MProduceResponse m => MProduceResponse (carried_produce_response m)
  | MFetchRequest m => MFetchRequest (carried_fetch_request m)
  | MFetchResponse m => MFetchResponse (carried_fetch_response m)
  | MListOffsetsRequest m => MListOffsetsRequest (carried_list_request m)
  | MListOffsetsResponse m => MListOffsetsResponse (carried_list_response m)
  | MMetadataRequest m => MMetadataRequest (carried_metadata_request m)
  | MMetadataResponse m => MMetadataResponse (carried_metadata_response m)
  | MCreateTopicsRequest m => MCreateTopicsRequest (carried_create_request m)
  | MCreateTopicsResponse m => MCreateTopicsResponse (carried_create_response m)
  | MDeleteTopicsResponse m => MDeleteTopicsResponse (carried_delete_response m)
  | MApiVersionsResponse m => MApiVersionsResponse (carried_api_versions m)
  | MInitProducerIdRequest m => MInitProducerIdRequest (carried_init_request m)
  | MInitProducerIdResponse m => MInitProducerIdResponse (carried_init_response m)
  | MSaslAuthenticateResponse m => MSaslAuthenticateResponse (carried_auth_response m)
  | MFindCoordinatorRequest m => MFindCoordinatorRequest (carried_find_request m)
  | MFindCoordinatorResponse m => MFindCoordinatorResponse (carried_find_response m)
  | MJoinGroupRequest m => MJoinGroupRequest (carried_join_request m)
  | MJoinGroupResponse m => MJoinGroupResponse (carried_join_response m)
  | MSyncGroupRequest m => MSyncGroupRequest (carried_sync_request m)
  | MSyncGroupResponse m => MSyncGroupResponse (carried_sync_response m)
  | MHeartbeatRequest m => MHeartbeatRequest (carried_heartbeat_request m)
  | MHeartbeatResponse m => MHeartbeatResponse (carried_heartbeat_response m)
  | MOffsetCommitRequest m => MOffsetCommitRequest (carried_commit_request m)
  | MOffsetCommitResponse m => MOffsetCommitResponse (carried_commit_response m)
  | MOffsetFetchRequest m => MOffsetFetchRequest (carried_offset_fetch_request m)
  | MOffsetFetchResponse m => MOffsetFetchResponse (carried_offset_fetch_response m)
  | MListGroupsResponse m => MListGroupsResponse (carried_list_groups m)
  | MDescribeGroupsRequest m => MDescribeGroupsRequest (carried_describe_request m)
  | MDescribeGroupsResponse m => MDescribeGroupsResponse (carried_describe_response m)
  | MDeleteGroupsResponse m => MDeleteGroupsResponse (carried_delete_groups m)
  | MAddPartitionsToTxnRequest m => MAddPartitionsToTxnRequest (carried_add_partitions m)
  | MAddPartitionsToTxnResponse m => MAddPartitionsToTxnResponse (carried_partitions_added m)
  | MAddOffsetsToTxnResponse m => MAddOffsetsToTxnResponse (carried_offsets_added m)
  | MEndTxnResponse m => MEndTxnResponse (carried_ended m)
  | m => m
  end.

Lemma encode_carried m : encode_message (carried_message m) = encode_message m.
Proof.
  destruct m; cbn [carried_message encode_message]; try done.
  - apply produce_response_carried.
  - apply fetch_request_carried.
  - apply fetch_response_carried.
  - apply list_request_carried.
  - apply list_response_carried.
  - apply metadata_request_carried.
  - apply metadata_response_carried.
  - apply create_request_carried.
  - apply create_response_carried.
  - apply delete_response_carried.
  - apply api_versions_carried.
  - apply init_request_carried.
  - apply init_response_carried.
  - apply auth_response_carried.
  - apply find_request_carried.
  - apply find_response_carried.
  - apply join_request_carried.
  - apply join_response_carried.
  - apply sync_request_carried.
  - apply sync_response_carried.
  - apply heartbeat_request_carried.
  - apply heartbeat_response_carried.
  - apply commit_request_carried.
  - apply commit_response_carried.
  - apply offset_fetch_request_carried.
  - apply offset_fetch_response_carried.
  - apply list_groups_carried.
  - apply describe_request_carried.
  - apply describe_response_carried.
  - apply delete_groups_carried.
  - apply add_partitions_carried.
  - apply partitions_added_carried.
  - apply offsets_added_carried.
  - apply ended_carried.
Qed.

(** Only what the version carries has to fit. *)
Definition wf_message (m : message) : Prop := fits_message (carried_message m).

(** Absent byte slices that arrive as empty ones. *)
Definition nonnull_message (m : message) : message :=
  match m with
  | MFetchResponse m => MFetchResponse (Fetch.norm_response m)
  | MSaslAuthenticateResponse m => MSaslAuthenticateResponse (Session.norm_auth m)
  | MJoinGroupResponse m => MJoinGroupResponse (Membership.norm_join m)
  | MSyncGroupResponse m => MSyncGroupResponse (Membership.norm_sync m)
  | MDescribeGroupsResponse m => MDescribeGroupsResponse (GroupAdmin.norm_describe m)
  | m => m
  end.

(** What the other end reads. *)
Definition norm_message (m : message) : message := nonnull_message (carried_message m).

Lemma fitting_roundtrip m :
  fits_message m -> in_i64 (zlen (encode_message m)) ->
  decode_like m (encode_message m) = Ok (nonnull_message m).
Proof.
  intros Hw Hl. destruct m as [m|m|m|m|m|m|m|m|m|m|m|m|m|m|m|m|m|m|m|m|m|m|m|m|m|m|m|m|m|m|m|m|m|m|m|m|m|m|m|m|m|m|m|m]; cbn [fits_message encode_message decode_like nonnull_message] in *.
  - by rewrite (@codec_roundtrip _ Produce.request_codec m Hw Hl : decode (Produce.DecodeProduceRequest (Produce.req_Version m)) (Produce.EncodeProduceRequest m NewWriter) = _).
  - by rewrite (@codec_roundtrip _ Produce.response_codec m Hw Hl : decode (Produce.DecodeProduceResponse (Produce.Version m)) (Produce.EncodeProduceResponse m NewWriter) = _).
  - by rewrite (@codec_roundtrip _ Fetch.request_codec m Hw Hl : decode (Fetch.DecodeFetchRequest (Fetch.req_Version m)) (Fetch.EncodeFetchRequest m NewWriter) = _).
  - by rewrite (@codec_roundtrip _ Fetch.response_codec m Hw Hl : decode (Fetch.DecodeFetchResponse (Fetch.Version m)) (Fetch.EncodeFetchResponse m NewWriter) = _).
  - by rewrite (@codec_roundtrip _ ListOffsets.request_codec m Hw Hl : decode (ListOffsets.DecodeListOffsetsRequest (ListOffsets.req_Version m)) (ListOffsets.EncodeListOffsetsRequest m NewWriter) = _).
  - by rewrite (@codec_roundtrip _ ListOffsets.response_codec m Hw Hl : decode (ListOffsets.DecodeListOffsetsResponse (ListOffsets.Version m)) (ListOffsets.EncodeListOffsetsResponse m NewWriter) = _).
  - by rewrite (@codec_roundtrip _ Metadata.request_codec m Hw Hl : decode (Metadata.DecodeMetadataRequest (Metadata.req_Version m)) (Metadata.EncodeMetadataRequest m NewWriter) = _).
  - by rewrite (@codec_roundtrip _ Metadata.response_codec m Hw Hl : decode (Metadata.DecodeMetadataResponse (Metadata.Version m)) (Metadata.EncodeMetadataResponse m NewWriter) = _).
  - by rewrite (@codec_roundtrip _ Topics.create_request_codec m Hw Hl : decode (Topics.DecodeCreateTopicsRequest (Topics.Version m)) (Topics.EncodeCreateTopicsRequest m NewWriter) = _).
  - by rewrite (@codec_roundtrip _ Topics.create_response_codec m Hw Hl : decode (Topics.DecodeCreateTopicsResponse (Topics.resp_Version m)) (Topics.EncodeCreateTopicsResponse m NewWriter) = _).
  - by rewrite (@codec_roundtrip _ Topics.delete_request_codec m Hw Hl : decode (Topics.DecodeDeleteTopicsRequest (Topics.del_Version m)) (Topics.EncodeDeleteTopicsRequest m NewWriter) = _).
  - by rewrite (@codec_roundtrip _ Topics.delete_response_codec m Hw Hl : decode (Topics.DecodeDeleteTopicsResponse (Topics.dresp_Version m)) (Topics.EncodeDeleteTopicsResponse m NewWriter) = _).
  - by destruct m.
  - by rewrite (@codec_roundtrip _ Session.api_versions_codec m Hw Hl : decode (Session.DecodeApiVersionsResponse (Session.avr_Version m)) (Session.EncodeApiVersionsResponse m NewWriter) = _).
  - by rewrite (@codec_roundtrip _ Session.init_request_codec m Hw Hl : decode (Session.DecodeInitProducerIdRequest (Session.ip_Version m)) (Session.EncodeInitProducerIdRequest m NewWriter) = _).
  - by rewrite (@codec_roundtrip _ Session.init_response_codec m Hw Hl : decode (Session.DecodeInitProducerIdResponse (Session.ipr_Version m)) (Session.EncodeInitProducerIdResponse m NewWriter) = _).
  - by rewrite (@codec_roundtrip _ Session.handshake_request_codec m Hw Hl : decode (Session.DecodeSASLHandshakeRequest (Session.sh_Version m)) (Session.EncodeSASLHandshakeRequest m NewWriter) = _).
  - by rewrite (@codec_roundtrip _ Session.handshake_response_codec m Hw Hl : decode (Session.DecodeSASLHandshakeResponse (Session.shr_Version m)) (Session.EncodeSASLHandshakeResponse m NewWriter) = _).
  - by rewrite (@codec_roundtrip _ Session.auth_request_codec m Hw Hl : decode (Session.DecodeSaslAuthenticateRequest (Session.sa_Version m)) (Session.EncodeSaslAuthenticateRequest m NewWriter) = _).
  - by rewrite (@codec_roundtrip _ Session.auth_response_codec m Hw Hl : decode (Session.DecodeSaslAuthenticateResponse (Session.sar_Version m)) (Session.EncodeSaslAuthenticateResponse m NewWriter) = _).
  - by rewrite (@codec_roundtrip _ Membership.find_request_codec m Hw Hl : decode (Membership.DecodeFindCoordinatorRequest (Membership.fc_Version m)) (Membership.EncodeFindCoordinatorRequest m NewWriter) = _).
  - by rewrite (@codec_roundtrip _ Membership.find_response_codec m Hw Hl : decode (Membership.DecodeFindCoordinatorResponse (Membership.fcr_Version m)) (Membership.EncodeFindCoordinatorResponse m NewWriter) = _).
  - by rewrite (@codec_roundtrip _ Membership.join_request_codec m Hw Hl : decode (Membership.DecodeJoinGroupRequest (Membership.jg_Version m)) (Membership.EncodeJoinGroupRequest m NewWriter) = _).
  - by rewrite (@codec_roundtrip _ Membership.join_response_codec m Hw Hl : decode (Membership.DecodeJoinGroupResponse (Membership.jgr_Version m)) (Membership.EncodeJoinGroupResponse m NewWriter) = _).
  - by rewrite (@codec_roundtrip _ Membership.sync_request_codec m Hw Hl : decode (Membership.DecodeSyncGroupRequest (Membership.sg_Version m)) (Membership.EncodeSyncGroupRequest m NewWriter) = _).
  - by rewrite (@codec_roundtrip _ Membership.sync_response_codec m Hw Hl : decode (Membership.DecodeSyncGroupResponse (Membership.sgr_Version m)) (Membership.EncodeSyncGroupResponse m NewWriter) = _).
  - by rewrite (@codec_roundtrip _ Membership.heartbeat_request_codec m Hw Hl : decode (Membership.DecodeHeartbeatRequest (Membership.hb_Version m)) (Membership.EncodeHeartbeatRequest m NewWriter) = _).
  - by rewrite (@codec_roundtrip _ Membership.heartbeat_response_codec m Hw Hl : decode (Membership.DecodeHeartbeatResponse (Membership.hbr_Version m)) (Membership.EncodeHeartbeatResponse m NewWriter) = _).
  - by rewrite (@codec_roundtrip _ Offsets.commit_request_codec m Hw Hl : decode (Offsets.DecodeOffsetCommitRequest (Offsets.Version m)) (Offsets.EncodeOffsetCommitRequest m NewWriter) = _).
  - by rewrite (@codec_roundtrip _ Offsets.commit_response_codec m Hw Hl : decode (Offsets.DecodeOffsetCommitResponse (Offsets.r_Version m)) (Offsets.EncodeOffsetCommitResponse m NewWriter) = _).
  - by rewrite (@codec_roundtrip _ Offsets.fetch_request_codec m Hw Hl : decode (Offsets.DecodeOffsetFetchRequest (Offsets.of_Version m)) (Offsets.EncodeOffsetFetchRequest m NewWriter) = _).
  - by rewrite (@codec_roundtrip _ Offsets.fetch_response_codec m Hw Hl : decode (Offsets.DecodeOffsetFetchResponse (Offsets.ofr_Version m)) (Offsets.EncodeOffsetFetchResponse m NewWriter) = _).
  - by rewrite (@codec_roundtrip _ GroupAdmin.list_request_codec m I Hl : decode (GroupAdmin.DecodeListGroupsRequest (GroupAdmin.lq_Version m)) (GroupAdmin.EncodeListGroupsRequest m NewWriter) = _).
  - by rewrite (@codec_roundtrip _ GroupAdmin.list_response_codec m Hw Hl : decode (GroupAdmin.DecodeListGroupsResponse (GroupAdmin.lr_Version m)) (GroupAdmin.EncodeListGroupsResponse m NewWriter) = _).
  - by rewrite (@codec_roundtrip _ GroupAdmin.describe_request_codec m Hw Hl : decode (GroupAdmin.DecodeDescribeGroupsRequest (GroupAdmin.dq_Version m)) (GroupAdmin.EncodeDescribeGroupsRequest m NewWriter) = _).
  - by rewrite (@codec_roundtrip _ GroupAdmin.describe_response_codec m Hw Hl : decode (GroupAdmin.DecodeDescribeGroupsResponse (GroupAdmin.dr_Version m)) (GroupAdmin.EncodeDescribeGroupsResponse m NewWriter) = _).
  - by rewrite (@codec_roundtrip _ GroupAdmin.delete_request_codec m Hw Hl : decode (GroupAdmin.DecodeDeleteGroupsRequest (GroupAdmin.xq_Version m)) (GroupAdmin.EncodeDeleteGroupsRequest m NewWriter) = _).
  - by rewrite (@codec_roundtrip _ GroupAdmin.delete_response_codec m Hw Hl : decode (GroupAdmin.DecodeDeleteGroupsResponse (GroupAdmin.xr_Version m)) (GroupAdmin.EncodeDeleteGroupsResponse m NewWriter) = _).
  - by rewrite (@codec_roundtrip _ Txn.add_partitions_codec m Hw Hl : decode (Txn.DecodeAddPartitionsToTxnRequest (Txn.ap_Version m)) (Txn.EncodeAddPartitionsToTxnRequest m NewWriter) = _).
  - by rewrite (@codec_roundtrip _ Txn.partitions_added_codec m Hw Hl : decode (Txn.DecodeAddPartitionsToTxnResponse (Txn.apr_Version m)) (Txn.EncodeAddPartitionsToTxnResponse m NewWriter) = _).
  - by rewrite (@codec_roundtrip _ Txn.add_offsets_codec m Hw Hl : decode (Txn.DecodeAddOffsetsToTxnRequest (Txn.ao_Version m)) (Txn.EncodeAddOffsetsToTxnRequest m NewWriter) = _).
  - by rewrite (@codec_roundtrip _ Txn.offsets_added_codec m Hw Hl : decode (Txn.DecodeAddOffsetsToTxnResponse (Txn.aor_Version m)) (Txn.EncodeAddOffsetsToTxnResponse m NewWriter) = _).
  - by rewrite (@codec_roundtrip _ Txn.end_codec m Hw Hl : decode (Txn.DecodeEndTxnRequest (Txn.et_Version m)) (Txn.EncodeEndTxnRequest m NewWriter) = _).
  - by rewrite (@codec_roundtrip _ Txn.ended_codec m Hw Hl : decode (Txn.DecodeEndTxnResponse (Txn.etr_Version m)) (Txn.EncodeEndTxnResponse m NewWriter) = _).
Qed.

Lemma decode_like_carried m body : decode_like (carried_message m) body = decode_like m body.
Proof. by destruct m. Qed.

(** C21: every message of which the repository has the encoder and the decoder
    (all requests and responses of produce, fetch, list offsets, metadata, topic
    and group administration, offsets, API versions, SASL, producer ids and
    transactions, and of group membership but for LeaveGroup, which the client
    library never sends) is read by the other end as it was sent, in every
    version the broker announces: the fields that the version carries with the
    values they had, whatever the other fields of the message held, and those as
    the defaults of the decoder (a join without a rebalance timeout gets the
    session timeout). Where a field is a byte slice, or a list in a request, a
    missing one arrives as an empty one. The numbers and lengths that are sent
    must fit their fields, and a SASL handshake answer must list mechanisms. *)
Theorem messages_roundtrip m :
  wf_message m -> in_i64 (zlen (encode_message m)) ->
  decode_like m (encode_message m) = Ok (norm_message m).
Proof.
  intros Hw Hl. rewrite <- encode_carried in Hl |- *. rewrite <- decode_like_carried. by apply fitting_roundtrip.
Qed.

Import GroupAdmin.

(** An answer of version 0 with a throttle time and operations that it does not
    carry. *)
Definition old_described : DescribeGroupsResponse :=
  mkDescribeGroupsResponse 0 7 (dr_Groups (demo_described 3)).

Lemma messages_roundtrip_witness :
  decode_like (MDescribeGroupsResponse old_described) (encode_message (MDescribeGroupsResponse old_described))
  = Ok (norm_message (MDescribeGroupsResponse old_described)).
Proof.
  apply (messages_roundtrip (MDescribeGroupsResponse old_described));
    [change (wf_describe_response (carried_describe_response old_described))|]; decide_closed.
Defined.
