(* ===== verification/OffsetWal.v ===== *)
(** * The offset write-ahead log (internal/coordinator/offset_wal.go)

    Every committed offset is one length-prefixed, checksummed record. The file
    is its bytes; [replay] is a scan that stops quietly at a torn record. *)

From stdpp Require Import prelude list strings.
From Stdlib Require Import ZArith Lia.
From S2P Require Import Prelude GoBinary Wire Frame.

Definition offsetWALVersion : byte := x01.
Definition walRecordCommit : byte := x01.
Definition maxWALRecordSize : Z := 1048576.

Record walRecord := mkWal {
  w_Type : byte; w_Group : gostring; w_Topic : gostring; w_Partition : Z; w_Offset : Z;
  w_LeaderEpoch : Z; w_Metadata : option gostring; w_Timestamp : Z }.

(** ** Encoding *)

Definition appendWALString (s : gostring) : W :=
  append_bytes (be 2 (u16 (zlen s))) +> append_bytes s.

Definition appendWALNullableString (s : option gostring) : W :=
  match s with
  | None => append_bytes (be 2 65535)
  | Some s => appendWALString s
  end.

(** The payload [encodeWALRecord] builds first. *)
Definition wal_payload (rec : walRecord) : W :=
  append_bytes [offsetWALVersion; w_Type rec]
  +> appendWALString (w_Group rec) +> appendWALString (w_Topic rec)
  +> append_bytes (be 4 (u32 (w_Partition rec))) +> append_bytes (be 8 (u64 (w_Offset rec)))
  +> append_bytes (be 4 (u32 (w_LeaderEpoch rec)))
  +> appendWALNullableString (w_Metadata rec)
  +> append_bytes (be 8 (u64 (w_Timestamp rec))).

Definition encodeWALRecord (rec : walRecord) : list byte :=
  let p := wal_payload rec NewWriter in
  be 4 (u32 (zlen p)) ++ p ++ be 4 (crc32c p).

(** ** Decoding *)

Definition readWALString : M gostring :=
  let! _ := need_or "offset WAL corrupt: truncated string length" 2 in
  let! b := advance 2 in
  let n := ube b in
  let! _ := need_or "offset WAL corrupt: truncated string" n in
  advance n.

(** [binary.BigEndian.Uint16(p[pos:])] without moving. *)
Definition peek_uint16 : M Z :=
  fun r => let? b := slice (buf r) (off r) (off r + 2) in Ok (ube b, r).

Definition readWALNullableString : M (option gostring) :=
  let! _ := need_or "offset WAL corrupt: truncated nullable string length" 2 in
  let! n := peek_uint16 in
  if n =? 65535 then let! _ := skip 2 in ret None
  else let! s := readWALString in ret (Some s).

Definition read_version_type : M (byte * byte) :=
  let! _ := need_or "offset WAL corrupt: short payload" 2 in
  let! b := advance 2 in
  match b with
  | [v; t] => ret (v, t)
  | _ => fun _ => Panic
  end.

Definition decodeWALPayload (p : list byte) : outcome walRecord :=
  decode
    (let! (v, t) := read_version_type in
     if negb (bool_decide (v = offsetWALVersion))
     then fail "offset WAL corrupt: unsupported version" else
     let! group := readWALString in
     let! topic := readWALString in
     let! _ := need_or "offset WAL corrupt: truncated partition" 4 in
     let! b := advance 4 in
     let partition := i32 (ube b) in
     let! _ := need_or "offset WAL corrupt: truncated offset" 8 in
     let! b := advance 8 in
     let offset := i64 (ube b) in
     let! _ := need_or "offset WAL corrupt: truncated leader epoch" 4 in
     let! b := advance 4 in
     let epoch := i32 (ube b) in
     let! metadata := readWALNullableString in
     let! _ := need_or "offset WAL corrupt: truncated timestamp" 8 in
     let! b := advance 8 in
     ret (mkWal t group topic partition offset epoch metadata (i64 (ube b)))) p.

(** ** The file *)

(** [appendBatch] on a file opened with O_APPEND; [crash] is the number of
    bytes that reach the file when the write fails. *)
Definition appendBatch (file : list byte) (recs : list walRecord) (crash : option nat)
  : list byte * outcome unit :=
  match recs with
  | [] => (file, Ok tt)
  | _ =>
      let bytes := mjoin (map encodeWALRecord recs) in
      match crash with
      | None => (file ++ bytes, Ok tt)
      | Some k => (file ++ take k bytes, Err "offset WAL append")
      end
  end.

(** [replay] from the start of the file; the records are handed to the callback
    in order, so they are the result. Each round consumes at least nine bytes:
    the file's length is fuel enough. *)
Fixpoint replay_loop (fuel : nat) (file : list byte) : outcome (list walRecord) :=
  match fuel with
  | O => Ok []
  | S fuel =>
      match ReadFull file 4 with
      | Ok (lenBuf, file) =>
          let n := ube lenBuf in
          if (n <=? 0) || (maxWALRecordSize <? n)
          then Err "offset WAL corrupt: bad record length" else
          match ReadFull file n with
          | Ok (payload, file) =>
              match ReadFull file 4 with
              | Ok (crcBuf, file) =>
                  if negb (crc32c payload =? ube crcBuf)
                  then Err "offset WAL corrupt: checksum mismatch" else
                  let? rec := decodeWALPayload payload in
                  let? rest := replay_loop fuel file in
                  Ok (rec :: rest)
              | _ => Ok []
              end
          | _ => Ok []
          end
      | _ => Ok []
      end
  end.

Definition replay (file : list byte) : outcome (list walRecord) :=
  replay_loop (S (length file)) file.

(** ** One record there and back *)

Definition wal_str_ok (s : gostring) : Prop := zlen s <= 65535.

(** A record the format can hold: metadata of 65535 bytes would be taken for
    the null marker. *)
Definition wf_wal (r : walRecord) : Prop :=
  wal_str_ok (w_Group r) /\ wal_str_ok (w_Topic r) /\ in_i32 (w_Partition r) /\
  in_i64 (w_Offset r) /\ in_i32 (w_LeaderEpoch r) /\
  from_option (fun s => zlen s <= 65534) True (w_Metadata r) /\ in_i64 (w_Timestamp r).

#[global] Instance wf_wal_dec r : Decision (wf_wal r).
Proof. unfold wf_wal, wal_str_ok. destruct (w_Metadata r); cbn; apply _. Defined.

Lemma ube_be2 n : 0 <= n <= 65535 -> ube (be 2 n) = n.
Proof. intros. rewrite ube_be. change (2 ^ (8 * Z.of_nat 2)) with 65536. apply Z.mod_small. lia. Qed.

Lemma decodes_wal_string s :
  wal_str_ok s -> decodes readWALString (be 2 (zlen s) ++ s) s.
Proof.
  unfold wal_str_ok. intros Hs. pose proof (zlen_nonneg s). unfold readWALString.
  apply decodes_need; [rewrite zlen_app, zlen_be; lia|].
  pose proof (decodes_advance (be 2 (zlen s))) as Ha. rewrite zlen_be in Ha.
  eapply decodes_bind; [exact Ha|]. cbv beta. rewrite ube_be2 by lia.
  apply decodes_need; [lia|]. apply decodes_advance.
Qed.

Lemma emits_wal_string s :
  wal_str_ok s -> emits (appendWALString s) (be 2 (zlen s) ++ s).
Proof.
  unfold wal_str_ok. intros Hs w. pose proof (zlen_nonneg s).
  unfold appendWALString, wseq, append_bytes. by rewrite u16_id, app_assoc by mlia.
Qed.

Lemma rt_wal_string s : wal_str_ok s -> rt (appendWALString s) readWALString s.
Proof. intros. eexists. split; [by apply emits_wal_string|by apply decodes_wal_string]. Qed.

Lemma peek_uint16_ok pre bs post n :
  zlen bs = 2 -> ube bs = n ->
  peek_uint16 (mkReader (pre ++ bs ++ post) (zlen pre)) = Ok (n, mkReader (pre ++ bs ++ post) (zlen pre)).
Proof. intros Hb <-. unfold peek_uint16. cbn [buf off]. by rewrite slice_mid by lia. Qed.

Lemma rt_wal_nullable s :
  from_option (fun s => zlen s <= 65534) True s ->
  rt (appendWALNullableString s) readWALNullableString s.
Proof.
  destruct s as [s|]; cbn; intros Hs; unfold readWALNullableString.
  - pose proof (zlen_nonneg s). exists (be 2 (zlen s) ++ s).
    split; [apply emits_wal_string; unfold wal_str_ok; lia|].
    apply decodes_need; [rewrite zlen_app, zlen_be; lia|].
    intros pre post Hl. unfold bind at 1.
    pose proof (peek_uint16_ok pre (be 2 (zlen s)) (s ++ post) (zlen s) (zlen_be _ _)) as Hpk.
    rewrite (app_assoc (be 2 (zlen s)) s post) in Hpk. rewrite Hpk by (apply ube_be2; lia).
    rewrite (proj2 (Z.eqb_neq _ _)) by lia. unfold bind.
    by rewrite (decodes_wal_string s) by (done || unfold wal_str_ok; lia).
  - exists (be 2 65535). split; [by intros w|].
    apply decodes_need; [rewrite zlen_be; lia|].
    intros pre post Hl. unfold bind at 1.
    rewrite (peek_uint16_ok pre (be 2 65535) post 65535) by done.
    unfold bind, skip, ret. cbn [Z.eqb Pos.eqb buf off]. rewrite zlen_be, !zlen_app, zlen_be in *.
    pose proof (zlen_nonneg pre). pose proof (zlen_nonneg post). by rewrite i64_id by mlia.
Qed.

(** Fixed-width fields read with a message of their own. *)
Lemma rt_wal_fixed {B} e n (f : list byte -> M B) g bs u :
  zlen bs = n -> rt g (f bs) u ->
  rt (append_bytes bs +> g) (let! _ := need_or e n in let! b := advance n in f b) u.
Proof.
  intros <- (cs & Hg & Hd). exists (bs ++ cs). split; [by apply emits_seq|].
  apply decodes_need; [rewrite zlen_app; pose proof (zlen_nonneg bs); pose proof (zlen_nonneg cs); lia|].
  eapply decodes_bind; [apply decodes_advance|]. done.
Qed.

Lemma rt_version_type t :
  rt (append_bytes [offsetWALVersion; t]) read_version_type (offsetWALVersion, t).
Proof.
  exists [offsetWALVersion; t]. split; [by intros w|]. unfold read_version_type.
  apply decodes_need; [by cbn|]. rewrite <- (app_nil_r [_; _]).
  eapply decodes_bind; [apply (decodes_advance [offsetWALVersion; t])|]. apply decodes_ret.
Qed.

Lemma wal_payload_len r : wf_wal r -> 0 < zlen (wal_payload r NewWriter) <= maxWALRecordSize.
Proof.
  unfold wf_wal, wal_str_ok. intros (Hg & Ht & _ & _ & _ & Hm & _).
  unfold wal_payload, appendWALString, wseq, append_bytes, maxWALRecordSize, NewWriter.
  pose proof (zlen_nonneg (w_Group r)). pose proof (zlen_nonneg (w_Topic r)).
  destruct (w_Metadata r) as [m|]; cbn [appendWALNullableString from_option] in *;
    unfold appendWALString, wseq, append_bytes; 
    rewrite !zlen_app, !zlen_be, !zlen_cons, !(@zlen_nil byte);
    [pose proof (zlen_nonneg m)|]; lia.
Qed.

Lemma decode_payload r : wf_wal r -> decodeWALPayload (wal_payload r NewWriter) = Ok r.
Proof.
  intros Hw. pose proof (wal_payload_len r Hw) as Hl. unfold maxWALRecordSize in Hl.
  apply rt_decode; [|mlia].
  destruct r as [ty g t p o e m ts]. destruct Hw as (Hg & Ht & Hp & Ho & He & Hm & Hts).
  unfold wal_payload.
  cbn [w_Type w_Group w_Topic w_Partition w_Offset w_LeaderEpoch w_Metadata w_Timestamp] in *.
  eapply rt_bind; [apply rt_version_type|]. cbv beta iota.
  rewrite bool_decide_eq_true_2 by done. cbn [negb].
  eapply rt_bind; [by apply rt_wal_string|]. cbv beta.
  eapply rt_bind; [by apply rt_wal_string|]. cbv beta.
  do 3 (eapply rt_wal_fixed; [apply zlen_be|]; cbv beta zeta).
  rewrite !i32_ube_be, i64_ube_be by done.
  eapply rt_bind; [by apply rt_wal_nullable|]. cbv beta.
  apply (rt_fixed _ 8 (fun b => mkWal ty g t p o e m (i64 (ube b)))); [apply zlen_be|].
  by rewrite i64_ube_be.
Qed.

(** ** Replaying a file *)

Lemma ube_be4 n : 0 <= n < 4294967296 -> ube (be 4 n) = n.
Proof. intros. rewrite ube_be. change (2 ^ (8 * Z.of_nat 4)) with 4294967296. by apply Z.mod_small. Qed.

(** The length prefix and the payload behind it. *)
Lemma wal_prefix r :
  wf_wal r ->
  exists p, encodeWALRecord r = be 4 (zlen p) ++ p ++ be 4 (crc32c p) /\
    0 < zlen p <= maxWALRecordSize /\ decodeWALPayload p = Ok r /\
    ube (be 4 (zlen p)) = zlen p.
Proof.
  intros Hw. exists (wal_payload r NewWriter). pose proof (wal_payload_len r Hw) as Hl.
  unfold encodeWALRecord. unfold maxWALRecordSize in *.
  split_and!; [|lia|lia|by apply decode_payload|apply ube_be4; lia].
  unfold u32. rewrite Z.mod_small by lia. done.
Qed.

Lemma replay_record fuel r rest :
  wf_wal r ->
  replay_loop (S fuel) (encodeWALRecord r ++ rest)
  = let? rs := replay_loop fuel rest in Ok (r :: rs).
Proof.
  intros Hw. destruct (wal_prefix r Hw) as (p & -> & Hl & Hd & Hu).
  cbn [replay_loop]. rewrite <- app_assoc, ReadFull_app by apply zlen_be. rewrite Hu.
  rewrite (proj2 (Z.leb_gt _ _)), (proj2 (Z.ltb_ge _ _)) by lia. cbn [orb].
  rewrite <- app_assoc, ReadFull_app by done.
  rewrite ReadFull_app by apply zlen_be.
  pose proof (crc32c_range p) as Hc. rewrite ube_be4, Z.eqb_refl by mlia. cbn [negb].
  by rewrite Hd.
Qed.

Lemma ReadFull_short (b : list byte) n : zlen b < n -> exists e, ReadFull b n = Err e.
Proof. intros H. unfold ReadFull. rewrite (proj2 (Z.ltb_lt _ _)) by lia. by eexists. Qed.

(** A torn record ends the scan quietly, wherever it was cut. *)
Lemma replay_torn fuel r k :
  wf_wal r -> (k < length (encodeWALRecord r))%nat ->
  replay_loop fuel (take k (encodeWALRecord r)) = Ok [].
Proof.
  intros Hw Hk. destruct fuel as [|fuel]; [done|].
  destruct (wal_prefix r Hw) as (p & E & Hl & Hd & Hu). rewrite E in *. cbn [replay_loop].
  destruct (decide (k < 4)%nat) as [H4|H4].
  { destruct (ReadFull_short (take k (be 4 (zlen p) ++ p ++ be 4 (crc32c p))) 4) as [e ->]; [|done].
    unfold zlen. rewrite length_take. lia. }
  rewrite take_app_ge by (rewrite length_be; lia). rewrite length_be.
  rewrite ReadFull_app by apply zlen_be. rewrite Hu.
  rewrite (proj2 (Z.leb_gt _ _)), (proj2 (Z.ltb_ge _ _)) by lia. cbn [orb].
  destruct (decide (k - 4 < length p)%nat) as [Hp|Hp].
  { destruct (ReadFull_short (take (k - 4) (p ++ be 4 (crc32c p))) (zlen p)) as [e ->]; [|done].
    unfold zlen in *. rewrite length_take. lia. }
  rewrite take_app_ge by lia. rewrite ReadFull_app by done.
  destruct (ReadFull_short (take (k - 4 - length p) (be 4 (crc32c p))) 4) as [e ->]; [|done].
  rewrite !length_app, !length_be in Hk. unfold zlen. rewrite length_take, length_be. lia.
Qed.

Lemma encodeWALRecord_long r : wf_wal r -> (8 < length (encodeWALRecord r))%nat.
Proof.
  intros Hw. destruct (wal_prefix r Hw) as (p & -> & Hl & _). unfold zlen in Hl.
  rewrite !length_app, !length_be. lia.
Qed.

Lemma replay_loop_all fuel recs tl :
  Forall wf_wal recs -> (forall f, replay_loop f tl = Ok []) -> (length recs < fuel)%nat ->
  replay_loop fuel (mjoin (map encodeWALRecord recs) ++ tl) = Ok recs.
Proof.
  intros Hw Ht. revert fuel. induction Hw as [|r recs Hr _ IH]; intros fuel Hf; [apply Ht|].
  destruct fuel as [|fuel]; [cbn in Hf; lia|]. cbn [map]. rewrite mjoin_cons, <- app_assoc.
  rewrite replay_record by done. cbn in Hf. by rewrite IH by lia.
Qed.

Lemma wal_fuel recs tl :
  Forall wf_wal recs -> (length recs < S (length (mjoin (map encodeWALRecord recs) ++ tl)))%nat.
Proof.
  intros Hw. rewrite length_app.
  assert (length recs <= length (mjoin (map encodeWALRecord recs)))%nat as H; [|lia].
  induction Hw as [|r recs Hr _ IH]; [done|]. cbn [map length]. rewrite mjoin_cons, length_app.
  pose proof (encodeWALRecord_long r Hr). lia.
Qed.

Lemma replay_all recs tl :
  Forall wf_wal recs -> (forall f, replay_loop f tl = Ok []) ->
  replay (mjoin (map encodeWALRecord recs) ++ tl) = Ok recs.
Proof. intros Hw Ht. apply replay_loop_all; [done|done|by apply wal_fuel]. Qed.

(** Replaying an offset log gives back every record that was written to it,
    in order and unchanged, also when a crash left any proper prefix of one
    more record behind them. *)
Theorem wal_replay_complete recs r k :
  Forall wf_wal recs -> wf_wal r -> (k < length (encodeWALRecord r))%nat ->
  replay (mjoin (map encodeWALRecord recs) ++ take k (encodeWALRecord r)) = Ok recs.
Proof. intros Hw Hr Hk. apply replay_all; [done|]. intros f. by apply replay_torn. Qed.

Definition demo_wal (offset : Z) : walRecord :=
  mkWal walRecordCommit [x67] [x74] 0 offset (-1) (Some [x6d]) 1000.

Lemma wal_replay_complete_witness :
  replay (mjoin (map encodeWALRecord [demo_wal 5; demo_wal 6]) ++ take 17 (encodeWALRecord (demo_wal 7)))
  = Ok [demo_wal 5; demo_wal 6].
Proof.
  apply (wal_replay_complete [demo_wal 5; demo_wal 6] (demo_wal 7) 17);
    [decide_closed|decide_closed|apply Nat.ltb_lt; vm_compute; reflexivity].
Defined.
