(* ===== verification/OffsetStore.v ===== *)
(** * Committed consumer offsets (internal/coordinator/offset_store.go)

    The store keeps the offsets in memory, appends every commit to the
    write-ahead log and, now and then, writes a snapshot and empties the log. A
    commit is two critical sections in the source (memory under one lock, the
    log under another), and so it is two definitions here; [CommitBatch] runs
    them one after the other, and an interleaving of two commits is a sequence
    of their halves. *)

From stdpp Require Import prelude list gmap strings.
From Stdlib Require Import ZArith Lia.
From S2P Require Import Prelude GoBinary Wire Frame OffsetWal.

Record CommittedOffset := mkCommitted {
  co_Offset : Z; co_Metadata : option gostring; co_LeaderEpoch : Z; co_UpdatedAt : Z }.

(** [map[string]map[string]map[int32]*CommittedOffset] *)
Abbreviation offsetMap := (gmap gostring (gmap gostring (gmap Z CommittedOffset))).

Definition walCompactThreshold : Z := 1024.

(** The fields of the struct; [os_wal] is the log file when there is one
    ([None] for the in-memory backend), [os_snapshot] the value the snapshot
    file decodes to, if the file exists. *)
Record OffsetStore := mkStore {
  os_offsets : offsetMap;
  os_wal : option (list byte);
  os_walN : Z;
  os_compacting : bool;
  os_closed : bool;
  os_snapshot : option offsetMap }.

(** ** The snapshot's encoding *)

(** encoding/gob leaves out a field that holds a zero value, also behind a
    pointer: a pointer to the empty string comes back nil. *)
Definition gob_value (c : CommittedOffset) : CommittedOffset :=
  mkCommitted (co_Offset c)
    (match co_Metadata c with Some [] => None | m => m end) (co_LeaderEpoch c) (co_UpdatedAt c).

Definition gob_parts (tp : gmap Z CommittedOffset) : gmap Z CommittedOffset := gob_value <$> tp.
Definition gob_topics (gt : gmap gostring (gmap Z CommittedOffset))
  : gmap gostring (gmap Z CommittedOffset) := gob_parts <$> gt.
Definition gob (m : offsetMap) : offsetMap := gob_topics <$> m.

(** ** Operations *)

(** The three-level insert that [CommitBatch] and [replayWAL] share. *)
Definition put_offset (m : offsetMap) (group topic : gostring) (partition : Z)
    (off : CommittedOffset) : offsetMap :=
  let gt := default ∅ (m !! group) in
  let tp := default ∅ (gt !! topic) in
  <[group := <[topic := <[partition := off]> tp]> gt]> m.

Definition Fetch (m : offsetMap) (group topic : gostring) (partition : Z)
  : option CommittedOffset :=
  gt ← m !! group; tp ← gt !! topic; tp !! partition.

(** The callback of [replayWAL]. *)
Definition apply_record (m : offsetMap) (rec : walRecord) : offsetMap :=
  if bool_decide (w_Type rec = walRecordCommit) then
    put_offset m (w_Group rec) (w_Topic rec) (w_Partition rec)
      (mkCommitted (w_Offset rec) (w_Metadata rec) (w_LeaderEpoch rec) (w_Timestamp rec))
  else m.

Definition apply_records (m : offsetMap) (recs : list walRecord) : offsetMap :=
  fold_left apply_record recs m.

Definition count_commits (recs : list walRecord) : Z :=
  zlen (List.filter (fun r => bool_decide (w_Type r = walRecordCommit)) recs).

(** [fault] is the call that fails: 0 the write of the snapshot, which then
    stays what it was, 1 the truncation of the log, any other the sync after
    it. *)
Definition compactLocked (s : OffsetStore) (fault : option nat) : OffsetStore * outcome unit :=
  match os_wal s with
  | None => (mkStore (os_offsets s) None 0 (os_compacting s) (os_closed s) (os_snapshot s), Ok tt)
  | Some file =>
      let written wal n := mkStore (os_offsets s) (Some wal) n (os_compacting s) (os_closed s) (Some (gob (os_offsets s))) in
      match fault with
      | None => (written [] 0, Ok tt)
      | Some 0%nat => (s, Err "offset snapshot")
      | Some 1%nat => (written file (os_walN s), Err "offset WAL truncate")
      | Some _ => (written [] (os_walN s), Err "offset WAL sync")
      end
  end.

Definition BackendFile : string := "file".
Definition BackendInMemory : string := "inmemory".

(** [NewOffsetStore] on what the directory holds: the snapshot, then the log,
    then a compaction when the log is long. *)
Definition NewOffsetStore (backend : string) (snapshot : option offsetMap) (wal : list byte)
    (fault : option nat) : outcome OffsetStore :=
  if bool_decide (backend = BackendInMemory) then Ok (mkStore ∅ None 0 false false None)
  else if bool_decide (backend = BackendFile) then
    let? recs := replay wal in
    let s := mkStore (apply_records (default ∅ snapshot) recs) (Some wal) (count_commits recs)
               false false snapshot in
    if walCompactThreshold <=? os_walN s then
      let '(s, o) := compactLocked s fault in let? _ := o in Ok s
    else Ok s
  else Err "unknown offset store backend".

Record OffsetCommitRecord := mkCommit {
  cr_Group : gostring; cr_Topic : gostring; cr_Partition : Z; cr_Offset : CommittedOffset }.

(** A commit without a time gets the current one. *)
Definition stamp (now : Z) (off : CommittedOffset) : CommittedOffset :=
  if co_UpdatedAt off =? 0
  then mkCommitted (co_Offset off) (co_Metadata off) (co_LeaderEpoch off) now else off.

Definition wal_of (now : Z) (r : OffsetCommitRecord) : walRecord :=
  let off := stamp now (cr_Offset r) in
  mkWal walRecordCommit (cr_Group r) (cr_Topic r) (cr_Partition r) (co_Offset off)
    (co_LeaderEpoch off) (co_Metadata off) (co_UpdatedAt off).

(** The first half of [CommitBatch], under [mu]: the memory and the records
    to be logged. *)
Definition commit_memory (s : OffsetStore) (now : Z) (records : list OffsetCommitRecord)
  : OffsetStore * list walRecord :=
  (mkStore
     (fold_left (fun m r => put_offset m (cr_Group r) (cr_Topic r) (cr_Partition r)
                              (stamp now (cr_Offset r))) records (os_offsets s))
     (os_wal s) (os_walN s) (os_compacting s) (os_closed s) (os_snapshot s),
   map (wal_of now) records).

(** [appendAndMaybeCompact], under [walMu]; the boolean says that a compaction
    was started in the background. *)
Definition appendAndMaybeCompact (s : OffsetStore) (file : list byte) (recs : list walRecord)
    (crash : option nat) : OffsetStore * bool * outcome unit :=
  match appendBatch file recs crash with
  | (file', Ok _) =>
      let n := os_walN s + zlen recs in
      let trigger := (walCompactThreshold <=? n) && negb (os_compacting s) && negb (os_closed s) in
      (mkStore (os_offsets s) (Some file') n (if trigger then true else os_compacting s)
         (os_closed s) (os_snapshot s), trigger, Ok tt)
  | (file', e) =>
      (mkStore (os_offsets s) (Some file') (os_walN s) (os_compacting s) (os_closed s)
         (os_snapshot s), false, e)
  end.

(** The second half of [CommitBatch]. *)
Definition commit_log (s : OffsetStore) (recs : list walRecord) (crash : option nat)
  : OffsetStore * bool * outcome unit :=
  match os_wal s with
  | None => (s, false, Ok tt)
  | Some file => appendAndMaybeCompact s file recs crash
  end.

Definition CommitBatch (s : OffsetStore) (now : Z) (records : list OffsetCommitRecord)
    (crash : option nat) : OffsetStore * bool * outcome unit :=
  match records with
  | [] => (s, false, Ok tt)
  | _ => let '(s1, recs) := commit_memory s now records in commit_log s1 recs crash
  end.

Definition Commit (s : OffsetStore) (now : Z) (group topic : gostring) (partition : Z)
    (off : CommittedOffset) (crash : option nat) : OffsetStore * bool * outcome unit :=
  CommitBatch s now [mkCommit group topic partition off] crash.

(** The background goroutine a commit may have started. *)
Definition compactAsync (s : OffsetStore) (fault : option nat) : OffsetStore :=
  let s := (compactLocked s fault).1 in
  mkStore (os_offsets s) (os_wal s) (os_walN s) false (os_closed s) (os_snapshot s).

Definition DeleteGroup (s : OffsetStore) (group : gostring) (fault : option nat) : OffsetStore * outcome unit :=
  let known := bool_decide (is_Some (os_offsets s !! group)) in
  let s' := mkStore (delete group (os_offsets s)) (os_wal s) (os_walN s) (os_compacting s)
              (os_closed s) (os_snapshot s) in
  if negb known || bool_decide (os_wal s = None) then (s', Ok tt) else compactLocked s' fault.

Definition GroupTopics (m : offsetMap) (group : gostring) : list gostring :=
  match m !! group with None => [] | Some gt => (map_to_list gt).*1 end.

Definition Partitions (m : offsetMap) (group topic : gostring) : list Z :=
  match m !! group with
  | None => []
  | Some gt => match gt !! topic with None => [] | Some tp => (map_to_list tp).*1 end
  end.

Definition GroupOffsets (m : offsetMap) (group : gostring) : option (gmap gostring (gmap Z Z)) :=
  match m !! group with None => None | Some gt => Some ((fun tp : gmap Z CommittedOffset => co_Offset <$> tp) <$> gt) end.

Definition Groups (m : offsetMap) : list gostring := (map_to_list m).*1.

(** [PruneOlderThan]: old entries go, then emptied topics and groups. *)
Definition drop_empty {K A} `{Countable K} (m : gmap K A) : option (gmap K A) :=
  if bool_decide (m = ∅) then None else Some m.

Definition prune_parts (cut : Z) (parts : gmap Z CommittedOffset) : gmap Z CommittedOffset :=
  filter (fun kv => cut <= co_UpdatedAt kv.2) parts.

Definition prune_map (cut : Z) (m : offsetMap) : offsetMap :=
  omap (fun topics => drop_empty (omap (fun parts => drop_empty (prune_parts cut parts)) topics)) m.

Definition prune_count (cut : Z) (m : offsetMap) : Z :=
  map_fold (fun _ topics acc =>
    map_fold (fun _ parts acc =>
      Z.of_nat (size (filter (fun kv => co_UpdatedAt kv.2 < cut) parts)) + acc) acc topics) 0 m.

Definition PruneOlderThan (s : OffsetStore) (cutoff : option Z) (fault : option nat) : OffsetStore * Z :=
  match cutoff with
  | None => (s, 0)
  | Some cut =>
      let removed := prune_count cut (os_offsets s) in
      let s' := mkStore (prune_map cut (os_offsets s)) (os_wal s) (os_walN s) (os_compacting s)
                  (os_closed s) (os_snapshot s) in
      (if (0 <? removed) && bool_decide (os_wal s <> None) then (compactLocked s' fault).1 else s', removed)
  end.

(** The log's file is closed after the compaction. *)
Definition Close (s : OffsetStore) (fault : option nat) : OffsetStore * outcome unit :=
  match os_wal s with
  | None => (s, Ok tt)
  | Some _ =>
      compactLocked (mkStore (os_offsets s) (os_wal s) (os_walN s) (os_compacting s) true
                       (os_snapshot s)) fault
  end.

(** ** Inserting and looking up *)

Lemma Fetch_put m g t p off : Fetch (put_offset m g t p off) g t p = Some off.
Proof.
  unfold Fetch, put_offset. rewrite lookup_insert_eq. cbn. rewrite lookup_insert_eq. cbn.
  by rewrite lookup_insert_eq.
Qed.

Lemma Fetch_put_ne m g t p off g' t' p' :
  (g', t', p') <> (g, t, p) -> Fetch (put_offset m g t p off) g' t' p' = Fetch m g' t' p'.
Proof.
  intros Hne. unfold Fetch, put_offset. destruct (decide (g' = g)) as [->|Hg].
  2: { by rewrite lookup_insert_ne. }
  rewrite lookup_insert_eq. cbn. destruct (decide (t' = t)) as [->|Ht].
  2: { rewrite lookup_insert_ne by done. by destruct (m !! g). }
  rewrite lookup_insert_eq. cbn. destruct (decide (p' = p)) as [->|Hp]; [done|].
  rewrite lookup_insert_ne by done. destruct (m !! g) as [gt|]; cbn; [|by rewrite lookup_empty].
  by destruct (gt !! t).
Qed.

(** ** Stores that answer alike *)

Lemma gob_value_idem c : gob_value (gob_value c) = gob_value c.
Proof. destruct c as [o [[|]|] e u]; done. Qed.

(** The same answer to every fetch, up to what the snapshot cannot tell
    apart. *)
Definition offsets_eq (m m' : offsetMap) : Prop :=
  forall g t p, gob_value <$> Fetch m g t p = gob_value <$> Fetch m' g t p.

#[global] Instance offsets_eq_equiv : Equivalence offsets_eq.
Proof.
  split; [by intros m g t p|by intros m m' H g t p|].
  intros m m' m'' H H' g t p. by rewrite H.
Qed.

#[global] Instance put_offset_proper :
  Proper (offsets_eq ==> eq ==> eq ==> eq ==> eq ==> offsets_eq) put_offset.
Proof.
  intros m m' H g ? <- t ? <- p ? <- off ? <- g' t' p'.
  destruct (decide ((g', t', p') = (g, t, p))) as [[= -> -> ->]|Hne].
  - by rewrite !Fetch_put.
  - by rewrite !Fetch_put_ne.
Qed.

#[global] Instance apply_record_proper : Proper (offsets_eq ==> eq ==> offsets_eq) apply_record.
Proof.
  intros m m' H rec ? <-. unfold apply_record. destruct (bool_decide _); [|done].
  by apply put_offset_proper.
Qed.

#[global] Instance apply_records_proper : Proper (offsets_eq ==> eq ==> offsets_eq) apply_records.
Proof.
  intros m m' H recs ? <-. unfold apply_records. revert m m' H.
  induction recs as [|r recs IH]; intros m m' H; [done|]. cbn. apply IH. by apply apply_record_proper.
Qed.

Lemma gob_Fetch m g t p : Fetch (gob m) g t p = gob_value <$> Fetch m g t p.
Proof.
  unfold Fetch, gob, gob_topics, gob_parts. rewrite lookup_fmap.
  destruct (m !! g) as [gt|]; [|done]. cbn.
  rewrite lookup_fmap. destruct (gt !! t) as [tp|]; [|done]. cbn. by rewrite lookup_fmap.
Qed.

Lemma gob_eq m : offsets_eq (gob m) m.
Proof.
  intros g t p. rewrite gob_Fetch. destruct (Fetch m g t p); [|done]. cbn. by rewrite gob_value_idem.
Qed.

Lemma apply_records_app m recs recs' :
  apply_records m (recs ++ recs') = apply_records (apply_records m recs) recs'.
Proof. apply fold_left_app. Qed.

(** What a commit puts in memory is what its log record would. *)
Lemma commit_memory_apply s now records :
  os_offsets (fst (commit_memory s now records))
  = apply_records (os_offsets s) (map (wal_of now) records).
Proof.
  unfold commit_memory. cbn [fst os_offsets]. generalize (os_offsets s).
  induction records as [|r records IH]; intros m; [done|]. cbn [map fold_left apply_records].
  unfold apply_records in IH |- *. cbn [fold_left]. rewrite <- IH. f_equal.
  unfold apply_record, wal_of. cbn. by destruct (stamp now (cr_Offset r)).
Qed.

(** ** What the files say is what the memory says *)

Definition durable (s : OffsetStore) : Prop :=
  exists recs, os_wal s = Some (mjoin (map encodeWALRecord recs)) /\ Forall wf_wal recs /\
    offsets_eq (apply_records (default ∅ (os_snapshot s)) recs) (os_offsets s).

Lemma compact_durable s : os_wal s <> None -> durable (compactLocked s None).1.
Proof.
  intros Hw. unfold compactLocked. destruct (os_wal s) as [w|]; [|done].
  exists []. split; [done|]. split; [constructor|]. apply gob_eq.
Qed.

(** What records say of an entry: the last one about it, if there is one. *)
Lemma Fetch_apply_records recs g t p :
  (exists c, forall m, Fetch (apply_records m recs) g t p = Some c) \/
  (forall m, Fetch (apply_records m recs) g t p = Fetch m g t p).
Proof.
  induction recs as [|r recs IH] using rev_ind; [by right|].
  assert (forall m, apply_records m (recs ++ [r]) = apply_record (apply_records m recs) r) as E
    by (intros m; apply apply_records_app).
  unfold apply_record in E. destruct (bool_decide _); [|by setoid_rewrite E].
  destruct (decide ((g, t, p) = (w_Group r, w_Topic r, w_Partition r))) as [[= -> -> ->]|Hne].
  - left. eexists. intros m. by rewrite E, Fetch_put.
  - setoid_rewrite E. by setoid_rewrite Fetch_put_ne.
Qed.

(** A log that is applied to what it led to. *)
Lemma apply_records_again base m recs :
  offsets_eq (apply_records base recs) m -> offsets_eq (apply_records m recs) m.
Proof.
  intros H g t p. destruct (Fetch_apply_records recs g t p) as [[c Hc]|Hc]; rewrite Hc; [|done].
  by rewrite <- (H g t p), Hc.
Qed.

(** A compaction that only tidies up may fail at any point. *)
Lemma compact_fault_durable s fault :
  durable s -> durable (compactLocked s fault).1 /\ os_offsets (compactLocked s fault).1 = os_offsets s.
Proof.
  intros (recs & Hw & Hf & He). unfold compactLocked. rewrite Hw.
  assert (forall m, offsets_eq (apply_records (gob m) []) m) as Hg by (intros m; apply gob_eq).
  destruct fault as [[|[|k]]|]; cbn [fst]; (split; [|done]).
  - exists recs. by rewrite <- Hw.
  - exists recs. cbn [os_wal os_snapshot os_offsets default from_option]. split; [done|]. split; [done|].
    unfold id. rewrite gob_eq. by eapply apply_records_again.
  - exists []. split; [done|]. split; [constructor|apply Hg].
  - exists []. split; [done|]. split; [constructor|apply Hg].
Qed.

(** Nothing but the offsets changed, and they answer alike. *)
Lemma durable_eq s s' :
  durable s -> os_wal s' = os_wal s -> os_snapshot s' = os_snapshot s ->
  offsets_eq (os_offsets s) (os_offsets s') -> durable s'.
Proof.
  intros (recs & Hw & Hf & He) E1 E2 E3. exists recs. rewrite E1, E2. split; [done|]. split; [done|].
  by rewrite He.
Qed.

Definition wf_commit (now : Z) (r : OffsetCommitRecord) : Prop := wf_wal (wal_of now r).

#[global] Instance wf_commit_dec now r : Decision (wf_commit now r).
Proof. unfold wf_commit. apply _. Defined.

Lemma commit_durable s now records :
  durable s -> Forall (wf_commit now) records ->
  exists s' async, CommitBatch s now records None = (s', async, Ok tt) /\ durable s' /\
    os_offsets s' = apply_records (os_offsets s) (map (wal_of now) records).
Proof.
  intros (recs & Hw & Hf & He) Hr. pose proof (commit_memory_apply s now records) as Hm.
  unfold CommitBatch. destruct records as [|r records].
  { exists s, false. split; [done|]. split; [by exists recs|done]. }
  destruct (commit_memory s now (r :: records)) as [s1 recs1] eqn:E.
  unfold commit_memory in E. simplify_eq. cbn [fst] in Hm. unfold commit_log. cbn [os_wal]. rewrite Hw.
  unfold appendAndMaybeCompact, appendBatch. cbn [map].
  eexists _, _. split; [reflexivity|]. split; [|exact Hm].
  exists (recs ++ map (wal_of now) (r :: records)). cbn [os_wal os_snapshot os_offsets]. split_and!.
  - by rewrite map_app, join_app.
  - apply Forall_app. split; [done|]. by apply Forall_map.
  - cbn [os_offsets] in Hm. rewrite Hm, apply_records_app. by rewrite He.
Qed.

Lemma delete_durable s g : durable s -> durable (DeleteGroup s g None).1 /\ (DeleteGroup s g None).2 = Ok tt.
Proof.
  intros Hd. unfold DeleteGroup. destruct (_ || _) eqn:Ec; cbn [fst snd]; (split; [|done || by unfold compactLocked; destruct (os_wal _)]).
  - eapply durable_eq; [exact Hd|done|done|]. cbn.
    apply orb_true_iff in Ec as [Hk|Hw].
    + apply negb_true_iff, bool_decide_eq_false in Hk. rewrite delete_id; [done|].
      by apply eq_None_not_Some.
    + apply bool_decide_eq_true in Hw. destruct Hd as (recs & Hw' & _). congruence.
  - apply compact_durable. cbn. destruct Hd as (recs & -> & _). done.
Qed.

(** Pruning, entry by entry. *)
Lemma Fetch_prune cut m g t p :
  Fetch (prune_map cut m) g t p
  = (c ← Fetch m g t p; if decide (cut <= co_UpdatedAt c) then Some c else None).
Proof.
  unfold Fetch, prune_map. rewrite lookup_omap. destruct (m !! g) as [gt|]; [|done]. cbn.
  assert (forall {K A} `{Countable K} (n : gmap K A) k,
            (n' ← drop_empty n; n' !! k) = n !! k) as Hl.
  { intros K A ?? n k. unfold drop_empty. case_bool_decide as E; cbn; [by rewrite E, lookup_empty|done]. }
  transitivity (tp ← omap (fun parts => drop_empty (prune_parts cut parts)) gt !! t; tp !! p).
  { unfold drop_empty at 1. case_bool_decide as E; cbn; [|done]. by rewrite E, lookup_empty. }
  rewrite lookup_omap. destruct (gt !! t) as [tp|]; [|done]. cbn. rewrite Hl.
  unfold prune_parts. destruct (tp !! p) as [c|] eqn:Ec; cbn.
  - destruct (decide (cut <= co_UpdatedAt c)).
    + by apply map_lookup_filter_Some.
    + apply map_lookup_filter_None. right. by intros c' [= <-]%(eq_trans (eq_sym Ec)).
  - apply map_lookup_filter_None. by left.
Qed.

(** A sum over a map of numbers that are not negative is zero only if all are. *)
Lemma map_fold_zero {K A} `{Countable K} (f : A -> Z -> Z) (m : gmap K A) (z : A -> Prop) acc :
  (forall a n, n <= f a n) -> (forall a n, f a n = n -> z a) ->
  acc <= map_fold (fun _ a n => f a n) acc m /\
  (map_fold (fun _ a n => f a n) acc m = acc -> map_Forall (fun _ a => z a) m).
Proof.
  intros Hmono Hz.
  apply (map_fold_weak_ind (fun r m => acc <= r /\ (r = acc -> map_Forall (fun _ a => z a) m))).
  - split; [lia|]. intros _. apply map_Forall_empty.
  - intros k a m' r Hk [Hle Hr]. pose proof (Hmono a r). split; [lia|]. intros E.
    apply map_Forall_insert; [done|]. split; [apply (Hz a r); lia|apply Hr; lia].
Qed.

Lemma prune_count_spec cut m :
  0 <= prune_count cut m /\
  (prune_count cut m = 0 -> forall g t p c, Fetch m g t p = Some c -> cut <= co_UpdatedAt c).
Proof.
  set (fparts := fun (parts : gmap Z CommittedOffset) n =>
    Z.of_nat (size (filter (fun kv : Z * CommittedOffset => co_UpdatedAt kv.2 < cut) parts)) + n).
  set (zparts := fun parts : gmap Z CommittedOffset => map_Forall (fun _ c => cut <= co_UpdatedAt c) parts).
  assert (forall parts n, fparts parts n = n -> zparts parts) as Hz1.
  { intros parts n E p c Hc. unfold fparts in E.
    assert (size (filter (fun kv : Z * CommittedOffset => co_UpdatedAt kv.2 < cut) parts) = 0%nat)
      as E0%map_size_empty_inv by lia.
    destruct (decide (cut <= co_UpdatedAt c)) as [|Hlt]; [done|].
    by destruct (map_filter_empty_not_lookup _ parts p c E0); [cbn; lia|]. }
  set (ftopics := fun (topics : gmap gostring (gmap Z CommittedOffset)) n =>
    map_fold (fun _ parts n => fparts parts n) n topics).
  pose proof (map_fold_zero ftopics m (fun topics => map_Forall (fun _ => zparts) topics) 0) as [H1 H2].
  - intros topics n. apply (map_fold_zero fparts topics zparts n); [|done]. unfold fparts. lia.
  - intros topics n E. eapply (map_fold_zero fparts topics zparts n); [unfold fparts; lia|done|exact E].
  - split; [exact H1|]. intros E g t p c. specialize (H2 E). unfold Fetch.
    destruct (m !! g) as [gt|] eqn:Eg; [|done]. cbn. destruct (gt !! t) as [tp|] eqn:Et; [|done]. cbn.
    intros Hc. exact (H2 g gt Eg t tp Et p c Hc).
Qed.

Lemma prune_durable s cutoff : durable s -> durable (fst (PruneOlderThan s cutoff None)).
Proof.
  intros Hd. unfold PruneOlderThan. destruct cutoff as [cut|]; [|done]. cbn [fst].
  pose proof Hd as (recs & Hw & _). rewrite Hw. rewrite bool_decide_eq_true_2 by done.
  rewrite andb_true_r. destruct (Z.ltb_spec 0 (prune_count cut (os_offsets s))).
  - by apply compact_durable.
  - eapply durable_eq; [exact Hd|by rewrite Hw|done|]. cbn. intros g t p. rewrite Fetch_prune.
    destruct (Fetch (os_offsets s) g t p) as [c|] eqn:Ec; [|done]. cbn.
    destruct (prune_count_spec cut (os_offsets s)) as [? Hall].
    rewrite decide_True; [done|]. eapply Hall; [lia|exact Ec].
Qed.

(** Opening the files again. *)
Definition restart (s : OffsetStore) : outcome OffsetStore :=
  NewOffsetStore BackendFile (os_snapshot s) (default [] (os_wal s)) None.

Lemma restart_spec snapshot recs tl :
  Forall wf_wal recs -> (forall f, replay_loop f tl = Ok []) ->
  exists s', NewOffsetStore BackendFile snapshot (mjoin (map encodeWALRecord recs) ++ tl) None = Ok s' /\
    os_offsets s' = apply_records (default ∅ snapshot) recs /\ os_wal s' <> None /\
    (tl = [] -> durable s').
Proof.
  intros Hf Ht. unfold NewOffsetStore.
  rewrite bool_decide_eq_false_2, bool_decide_eq_true_2, replay_all by done. cbn [obind].
  destruct (_ <=? _); (eexists; split; [reflexivity|]).
  - split; [done|]. split; [done|]. intros _. exists []. split; [done|]. split; [constructor|]. apply gob_eq.
  - cbn. split; [done|]. split; [done|]. intros ->. exists recs. cbn. rewrite app_nil_r.
    by split_and!.
Qed.

Lemma restart_durable s :
  durable s ->
  exists s', restart s = Ok s' /\ durable s' /\ offsets_eq (os_offsets s') (os_offsets s).
Proof.
  intros (recs & Hw & Hf & He). unfold restart. rewrite Hw. cbn [default from_option id].
  rewrite <- (app_nil_r (mjoin _)). unfold id.
  destruct (restart_spec (os_snapshot s) recs []) as (s' & -> & Ho & _ & Hd); [done|by intros [|]|].
  exists s'. split; [done|]. split; [by apply Hd|]. by rewrite Ho.
Qed.

(** ** Sequences of operations *)

Inductive op :=
  | OpCommit (now : Z) (records : list OffsetCommitRecord)
  | OpDelete (group : gostring)
  | OpPrune (cutoff : option Z)
  | OpCompact (fault : option nat)
  | OpRestart.

Definition wf_op (o : op) : Prop :=
  match o with OpCommit now records => Forall (wf_commit now) records | _ => True end.

#[global] Instance wf_op_dec o : Decision (wf_op o).
Proof. destruct o; cbn; apply _. Defined.

Definition run_op (s : OffsetStore) (o : op) : outcome OffsetStore :=
  match o with
  | OpCommit now records =>
      match CommitBatch s now records None with
      | (s', _, Ok _) => Ok s'
      | (_, _, Err e) => Err e
      | (_, _, Panic) => Panic
      end
  | OpDelete g => let '(s, o) := DeleteGroup s g None in let? _ := o in Ok s
  | OpPrune cutoff => Ok (fst (PruneOlderThan s cutoff None))
  | OpCompact fault => Ok (compactAsync s fault)
  | OpRestart => restart s
  end.

Fixpoint run (s : OffsetStore) (ops : list op) : outcome OffsetStore :=
  match ops with
  | [] => Ok s
  | o :: r => let? s' := run_op s o in run s' r
  end.

(** The specification: what the offsets are, files or not. *)
Definition spec_op (m : offsetMap) (o : op) : offsetMap :=
  match o with
  | OpCommit now records => apply_records m (map (wal_of now) records)
  | OpDelete g => delete g m
  | OpPrune (Some cut) => prune_map cut m
  | _ => m
  end.

Lemma Fetch_delete m g g' t p :
  Fetch (delete g m) g' t p = if decide (g' = g) then None else Fetch m g' t p.
Proof.
  unfold Fetch. destruct (decide (g' = g)) as [->|]; [by rewrite lookup_delete_eq|].
  by rewrite lookup_delete_ne.
Qed.

#[global] Instance spec_op_proper : Proper (offsets_eq ==> eq ==> offsets_eq) spec_op.
Proof.
  intros m m' H [now records|g|[cut|]|fault|] ? <-; cbn; try done.
  - by rewrite H.
  - intros g' t p. rewrite !Fetch_delete. by destruct (decide _).
  - intros g t p. rewrite !Fetch_prune. specialize (H g t p).
    destruct (Fetch m g t p) as [c|], (Fetch m' g t p) as [c'|]; cbn in *; try done.
    injection H as H1 H2 H3 H4. rewrite H4.
    destruct (decide _); [|done]. cbn. unfold gob_value. congruence.
Qed.

Lemma run_op_spec s o :
  durable s -> wf_op o ->
  exists s', run_op s o = Ok s' /\ durable s' /\ offsets_eq (os_offsets s') (spec_op (os_offsets s) o).
Proof.
  intros Hd Ho. destruct o as [now records|g|cutoff|fault|]; cbn [run_op spec_op].
  - destruct (commit_durable s now records Hd Ho) as (s' & async & -> & Hd' & Eo).
    exists s'. split; [done|]. split; [done|]. by rewrite Eo.
  - destruct (delete_durable s g Hd) as [Hd' Hok]. destruct (DeleteGroup s g None) as [s' o] eqn:E.
    cbn in Hd', Hok. rewrite Hok. cbn [obind]. exists s'. split; [done|]. split; [done|].
    apply (f_equal fst) in E. cbn in E. rewrite <- E.
    unfold DeleteGroup. destruct (_ || _); [done|]. unfold compactLocked. cbn. by destruct (os_wal s).
  - eexists. split; [done|]. split; [by apply prune_durable|].
    unfold PruneOlderThan. destruct cutoff as [cut|]; [|done]. cbn [fst].
    destruct (_ && _); [|done]. unfold compactLocked. cbn. by destruct (os_wal s).
  - eexists. split; [done|]. destruct (compact_fault_durable s fault Hd) as [(recs & H1 & H2 & H3) Hsame].
    split; [by exists recs|]. unfold compactAsync. cbn [os_offsets]. by rewrite Hsame.
  - destruct (restart_durable s Hd) as (s' & -> & Hd' & He). by exists s'.
Qed.

(** An empty store on an empty directory. *)
Definition new_store : OffsetStore := mkStore ∅ (Some []) 0 false false None.

(** C10: whatever commits, group deletions, prunings, compactions and restarts
    a file-backed store goes through, one after the other, it always opens
    again and then answers every fetch as the operations say, up to the
    snapshot's inability to tell empty metadata from none. The background
    compactions may fail at any of their file operations; the other writes
    succeed. *)
Theorem offsets_survive_restarts ops :
  Forall wf_op ops ->
  exists s s', run new_store ops = Ok s /\ restart s = Ok s' /\
    offsets_eq (os_offsets s) (fold_left spec_op ops ∅) /\
    offsets_eq (os_offsets s') (fold_left spec_op ops ∅).
Proof.
  intros Hops.
  assert (durable new_store) as Hd by (exists []; by split_and!).
  assert (forall s m, durable s -> offsets_eq (os_offsets s) m ->
    exists s', run s ops = Ok s' /\ durable s' /\ offsets_eq (os_offsets s') (fold_left spec_op ops m)) as H.
  { clear Hd. induction Hops as [|o ops Ho _ IH]; intros s m Hs Hm; [by exists s|].
    destruct (run_op_spec s o Hs Ho) as (s1 & Hr & Hd1 & He). cbn [run fold_left]. rewrite Hr. cbn [obind].
    apply IH; [done|]. rewrite He. by rewrite Hm. }
  destruct (H new_store ∅ Hd) as (s & Hrun & Hs & He); [done|].
  destruct (restart_durable s Hs) as (s' & Hre & _ & He').
  exists s, s'. split_and!; [done|done|done|]. by rewrite He'.
Qed.

(** ** A crash in the middle of a commit *)

(** Where a write of several records can stop: between two of them or inside
    one. *)
Lemma torn_write recs k :
  Forall wf_wal recs ->
  exists j tl, take k (mjoin (map encodeWALRecord recs))
    = mjoin (map encodeWALRecord (take j recs)) ++ tl /\
    (forall f, replay_loop f tl = Ok []) /\ (j <= length recs)%nat.
Proof.
  intros Hf. revert k. induction Hf as [|r recs Hr _ IH]; intros k.
  { exists 0%nat, []. split; [apply take_nil|]. split; [by intros [|]|done]. }
  cbn [map]. rewrite mjoin_cons. destruct (decide (k < length (encodeWALRecord r))%nat) as [Hk|Hk].
  - exists 0%nat, (take k (encodeWALRecord r)). rewrite take_app_le by lia.
    split; [done|]. split; [intros f; by apply replay_torn|lia].
  - destruct (IH (k - length (encodeWALRecord r))%nat) as (j & tl & E & Ht & Hj).
    exists (S j), tl. cbn [take map]. rewrite mjoin_cons, take_app_ge, E, app_assoc by lia.
    split; [done|]. split; [done|cbn; lia].
Qed.

(** When the machine dies while a batch of commits is being logged, however
    many bytes reached the file, the store opens again and holds the state
    before the batch plus some initial part of it: no commit is half applied,
    none is reordered. *)
Theorem commit_crash_prefix s now records k :
  durable s -> Forall (wf_commit now) records ->
  exists s1 s2 async e j, CommitBatch s now records (Some k) = (s1, async, e) /\
    (records <> [] -> e = Err "offset WAL append") /\
    restart s1 = Ok s2 /\ (j <= length records)%nat /\
    offsets_eq (os_offsets s2) (apply_records (os_offsets s) (map (wal_of now) (take j records))).
Proof.
  intros Hd Hr. pose proof Hd as (recs & Hw & Hf & He).
  destruct records as [|r records].
  { destruct (restart_durable s Hd) as (s2 & Hre & _ & He2).
    exists s, s2, false, (Ok tt), 0%nat. cbn. by split_and!. }
  set (all := r :: records) in *.
  assert (Forall wf_wal (map (wal_of now) all)) as Hwf by (by apply Forall_map).
  destruct (torn_write (map (wal_of now) all) k Hwf) as (j & tl & Etorn & Ht & Hj).
  destruct (restart_spec (os_snapshot s) (recs ++ take j (map (wal_of now) all)) tl)
    as (s2 & Hre & Ho & _); [apply Forall_app; split; [done|by apply Forall_take]|done|].
  unfold CommitBatch. destruct (commit_memory s now all) as [s1 recs1] eqn:E.
  unfold commit_memory in E. simplify_eq. unfold commit_log. cbn [os_wal all]. rewrite Hw.
  unfold appendAndMaybeCompact, appendBatch. cbn [map].
  change (wal_of now r :: map (wal_of now) records) with (map (wal_of now) all).
  rewrite Etorn. eexists _, s2, _, _, j. split; [reflexivity|]. split; [done|]. split_and!.
  - unfold restart. cbn [os_wal os_snapshot default from_option].
    rewrite map_app, join_app, <- app_assoc in Hre. exact Hre.
  - by rewrite length_map in Hj.
  - rewrite Ho, apply_records_app, firstn_map. by rewrite He.
Qed.

(** A deletion whose snapshot cannot be written is answered with an error, but
    the group's offsets are gone from memory; they are back after a restart. *)
Theorem failed_delete_comes_back s g :
  durable s -> is_Some (os_offsets s !! g) ->
  exists s' e s'', DeleteGroup s g (Some 0%nat) = (s', Err e) /\ os_offsets s' !! g = None /\
    restart s' = Ok s'' /\ offsets_eq (os_offsets s'') (os_offsets s).
Proof.
  intros Hd Hg. destruct (restart_durable s Hd) as (s'' & Hr & _ & He). pose proof Hd as (recs & Hw & _).
  unfold DeleteGroup. rewrite bool_decide_eq_true_2, bool_decide_eq_false_2 by (done || by rewrite Hw). cbn [negb orb].
  unfold compactLocked. cbn [os_wal]. rewrite Hw. eexists _, _, s''. split; [reflexivity|].
  split; [apply lookup_delete_eq|]. split; [|done]. unfold restart in *. cbn [os_snapshot os_wal]. by rewrite <- Hw.
Qed.

(** ** Two commits at once *)

(** Two commits for one partition whose log writes happen in the other
    order than their memory updates (the two locks allow it): the broker
    answers fetches with the later commit until it restarts, and with the
    earlier one afterwards. *)
Theorem concurrent_commits_invert s now r1 r2 :
  durable s -> wf_commit now r1 -> wf_commit now r2 ->
  (cr_Group r1, cr_Topic r1, cr_Partition r1) = (cr_Group r2, cr_Topic r2, cr_Partition r2) ->
  let '(s1, recs1) := commit_memory s now [r1] in
  let '(s2, recs2) := commit_memory s1 now [r2] in
  let '(s3, _, _) := commit_log s2 recs2 None in
  let '(s4, _, _) := commit_log s3 recs1 None in
  Fetch (os_offsets s4) (cr_Group r2) (cr_Topic r2) (cr_Partition r2)
    = Some (stamp now (cr_Offset r2)) /\
  exists s5, restart s4 = Ok s5 /\
    Fetch (os_offsets s5) (cr_Group r2) (cr_Topic r2) (cr_Partition r2)
    = Some (stamp now (cr_Offset r1)).
Proof.
  intros (recs & Hw & Hf & He) H1 H2 [= Eg Et Ep].
  unfold commit_memory. cbn [fold_left map os_offsets os_wal os_walN os_compacting os_closed os_snapshot].
  unfold commit_log, appendAndMaybeCompact, appendBatch.
  cbn [os_wal os_walN os_compacting os_closed os_snapshot os_offsets map]. rewrite Hw.
  cbn [os_wal os_walN os_compacting os_closed os_snapshot os_offsets map].
  split; [apply Fetch_put|].
  destruct (restart_spec (os_snapshot s) (recs ++ [wal_of now r2; wal_of now r1]) [])
    as (s5 & Hre & Ho & _); [apply Forall_app; split; [exact Hf|]; constructor; [exact H2|constructor; [exact H1|constructor]]
      |by intros [|]|].
  exists s5. split.
  - unfold restart. cbn [os_wal os_snapshot default from_option].
    rewrite app_nil_r, map_app, join_app in Hre. unfold id. rewrite <- app_assoc.
    cbn [map] in Hre. rewrite !mjoin_cons in *. cbn [map].
    rewrite !app_nil_r in *. exact Hre.
  - rewrite Ho, apply_records_app. cbn [apply_records fold_left].
    unfold apply_record at 1. rewrite bool_decide_eq_true_2 by done.
    cbn [wal_of w_Group w_Topic w_Partition w_Offset w_Metadata w_LeaderEpoch w_Timestamp].
    rewrite <- Eg, <- Et, <- Ep, Fetch_put. by destruct (stamp now (cr_Offset r1)).
Qed.

(** ** Worked examples *)

Definition demo_commit (partition offset : Z) : OffsetCommitRecord :=
  mkCommit [x67] [x74] partition (mkCommitted offset (Some []) (-1) 0).

Definition demo_ops : list op :=
  [OpCommit 1000 [demo_commit 0 5; demo_commit 1 7]; OpRestart; OpCommit 2000 [demo_commit 0 6];
   OpPrune (Some 1500); OpDelete [x68]; OpCompact (Some 1%nat); OpCommit 3000 [demo_commit 2 1]].

Lemma offsets_survive_restarts_witness :
  exists s s', run new_store demo_ops = Ok s /\ restart s = Ok s' /\
    offsets_eq (os_offsets s) (fold_left spec_op demo_ops ∅) /\
    offsets_eq (os_offsets s') (fold_left spec_op demo_ops ∅).
Proof.
  apply (offsets_survive_restarts demo_ops).
  decide_closed.
Defined.

Lemma new_store_durable : durable new_store.
Proof. exists []. by split_and!. Qed.

Lemma commit_crash_prefix_witness :
  exists s1 s2 async e j,
    CommitBatch new_store 1000 [demo_commit 0 5; demo_commit 1 7] (Some 50%nat) = (s1, async, e) /\
    ([demo_commit 0 5; demo_commit 1 7] <> [] -> e = Err "offset WAL append") /\
    restart s1 = Ok s2 /\ (j <= 2)%nat /\
    offsets_eq (os_offsets s2)
      (apply_records ∅ (map (wal_of 1000) (take j [demo_commit 0 5; demo_commit 1 7]))).
Proof.
  apply (commit_crash_prefix new_store 1000 [demo_commit 0 5; demo_commit 1 7] 50 new_store_durable).
  decide_closed.
Defined.

Lemma concurrent_commits_invert_witness :
  let '(s1, recs1) := commit_memory new_store 1000 [demo_commit 0 5] in
  let '(s2, recs2) := commit_memory s1 1000 [demo_commit 0 6] in
  let '(s3, _, _) := commit_log s2 recs2 None in
  let '(s4, _, _) := commit_log s3 recs1 None in
  Fetch (os_offsets s4) [x67] [x74] 0 = Some (stamp 1000 (cr_Offset (demo_commit 0 6))) /\
  exists s5, restart s4 = Ok s5 /\
    Fetch (os_offsets s5) [x67] [x74] 0 = Some (stamp 1000 (cr_Offset (demo_commit 0 5))).
Proof.
  apply (concurrent_commits_invert new_store 1000 (demo_commit 0 5) (demo_commit 0 6) new_store_durable);
    [decide_closed..|reflexivity].
Defined.

(** After a crash in the middle of a log write the file keeps the torn
    bytes (replaying does not cut them off) and new commits are appended behind
    them: the next start reads across the seam, finds a checksum mismatch, and
    refuses to open the store. *)
Theorem torn_log_then_commit_unreadable :
  let '(s1, _, _) := CommitBatch new_store 1000 [demo_commit 0 5] (Some 20%nat) in
  match restart s1 with
  | Ok s2 =>
      let '(s3, _, e) := CommitBatch s2 2000 [demo_commit 0 6] None in
      e = Ok tt /\ restart s3 = Err "offset WAL corrupt: checksum mismatch"
  | _ => False
  end.
Proof. vm_compute. split; reflexivity. Qed.
