(* ===== verification/Producer.v ===== *)
(** * Producer ids (internal/coordinator/producer.go)

    The broker hands out producer ids and, for transactional producers, epochs
    that fence earlier incarnations. *)

From stdpp Require Import prelude list gmap strings.
From Stdlib Require Import ZArith Lia.
From S2P Require Import Prelude GoBinary Wire.

Record producerState := mkProducer { transactionalID : gostring; epoch : Z }.

Record ProducerIDManager := mkManager {
  byID : gmap Z producerState;
  byTxnID : gmap gostring Z;
  lastPID : Z }.

Definition NewProducerIDManager : ProducerIDManager := mkManager ∅ ∅ 1.

(** [transactionalID != nil && *transactionalID != ""] *)
Definition txn_of (txn : option gostring) : option gostring :=
  match txn with Some (b :: r) => Some (b :: r) | _ => None end.

(** The id and the epoch; a transactional id whose producer is missing would
    be a nil dereference. *)
Definition Next (m : ProducerIDManager) (txn : option gostring)
  : outcome (ProducerIDManager * Z * Z) :=
  let fresh :=
    let pid := i64 (lastPID m + 1) in
    match txn_of txn with
    | Some t => Ok (mkManager (<[pid := mkProducer t 0]> (byID m)) (<[t := pid]> (byTxnID m)) pid,
                    pid, 0)
    | None => Ok (mkManager (<[pid := mkProducer [] 0]> (byID m)) (byTxnID m) pid, pid, 0)
    end in
  match t ← txn_of txn; byTxnID m !! t with
  | Some pid =>
      match byID m !! pid with
      | None => Panic
      | Some st =>
          let e := i16 (epoch st + 1) in
          Ok (mkManager (<[pid := mkProducer (transactionalID st) e]> (byID m)) (byTxnID m)
                (lastPID m), pid, e)
      end
  | None => fresh
  end.

Definition Validate (m : ProducerIDManager) (txn : gostring) (pid e : Z) : bool :=
  match byID m !! pid with
  | None => false
  | Some st =>
      if negb (bool_decide (txn = [])) && negb (bool_decide (transactionalID st = txn)) then false
      else epoch st =? e
  end.

(** ** Invariant *)

Record mgr_inv (m : ProducerIDManager) : Prop := {
  mi_txn : forall t pid, byTxnID m !! t = Some pid ->
             t <> [] /\ exists e, byID m !! pid = Some (mkProducer t e);
  mi_ids : forall pid st, byID m !! pid = Some st -> pid <= lastPID m /\ in_i16 (epoch st);
  mi_last : 1 <= lastPID m }.

Lemma new_manager_inv : mgr_inv NewProducerIDManager.
Proof. by split. Qed.

Lemma txn_of_spec txn t : txn_of txn = Some t <-> txn = Some t /\ t <> [].
Proof.
  unfold txn_of. destruct txn as [[|b r]|]; naive_solver.
Qed.

Lemma fresh_pid m : mgr_inv m -> lastPID m < 9223372036854775807 ->
  i64 (lastPID m + 1) = lastPID m + 1 /\ byID m !! (lastPID m + 1) = None.
Proof.
  intros [_ Hids Hl] Hlt. split; [apply i64_id; mlia|].
  destruct (byID m !! (lastPID m + 1)) as [st|] eqn:E; [|done]. apply Hids in E. lia.
Qed.

Lemma fresh_producer_inv m t :
  mgr_inv m -> lastPID m < 9223372036854775807 ->
  mgr_inv (mkManager (<[lastPID m + 1 := mkProducer (default [] t) 0]> (byID m))
             (match t with Some t => <[t := lastPID m + 1]> (byTxnID m) | None => byTxnID m end)
             (lastPID m + 1)) \/ t = Some [].
Proof.
  intros Hm Hlt. destruct (fresh_pid m Hm Hlt) as [_ Hnone]. destruct Hm as [Htxn Hids Hl].
  destruct (decide (t = Some [])) as [|Hne]; [by right|left]. split; cbn.
  - assert (forall t' pid, byTxnID m !! t' = Some pid ->
      t' <> [] /\ exists e, <[lastPID m + 1 := mkProducer (default [] t) 0]> (byID m) !! pid
                           = Some (mkProducer t' e)) as Hold.
    { intros t' pid Ht'. destruct (Htxn _ _ Ht') as [? [e He]]. split; [done|]. exists e.
      rewrite lookup_insert_ne; [done|]. intros <-. congruence. }
    destruct t as [t|]; [|exact Hold]. intros t' pid.
    destruct (decide (t' = t)) as [->|Hn].
    + rewrite lookup_insert_eq. intros [= <-]. split; [congruence|]. exists 0. by rewrite lookup_insert_eq.
    + rewrite lookup_insert_ne by done. apply Hold.
  - intros pid st. destruct (decide (pid = lastPID m + 1)) as [->|Hn].
    + rewrite lookup_insert_eq. intros [= <-]. cbn. split; [lia|mlia].
    + rewrite lookup_insert_ne by done. intros H%Hids. split; [lia|apply H].
  - lia.
Qed.

Lemma bump_inv m t pid e e' :
  mgr_inv m -> byID m !! pid = Some (mkProducer t e) -> in_i16 e' ->
  mgr_inv (mkManager (<[pid := mkProducer t e']> (byID m)) (byTxnID m) (lastPID m)).
Proof.
  intros [Htxn Hids Hl] He He'. split; cbn; [|intros q st|done].
  - intros t' q Hq. destruct (Htxn _ _ Hq) as [? [e0 He0]]. split; [done|].
    destruct (decide (q = pid)) as [->|Hne]; [|exists e0; by rewrite lookup_insert_ne].
    rewrite lookup_insert_eq. rewrite He in He0. simplify_eq. by eexists.
  - destruct (decide (q = pid)) as [->|Hne]; [|rewrite lookup_insert_ne by done; apply Hids].
    rewrite lookup_insert_eq. intros [= <-]. cbn. split; [|done]. by apply (Hids _ _ He).
Qed.

(** The two ways [Next] goes. *)
Lemma Next_cases m txn :
  mgr_inv m -> lastPID m < 9223372036854775807 ->
  (exists t pid e, txn_of txn = Some t /\ byTxnID m !! t = Some pid /\
     byID m !! pid = Some (mkProducer t e) /\
     Next m txn = Ok (mkManager (<[pid := mkProducer t (i16 (e + 1))]> (byID m)) (byTxnID m)
                        (lastPID m), pid, i16 (e + 1))) \/
  ((t ← txn_of txn; byTxnID m !! t) = None /\
   Next m txn = Ok (mkManager (<[lastPID m + 1 := mkProducer (default [] (txn_of txn)) 0]> (byID m))
                      (match txn_of txn with
                       | Some t => <[t := lastPID m + 1]> (byTxnID m) | None => byTxnID m end)
                      (lastPID m + 1), lastPID m + 1, 0)).
Proof.
  intros Hm Hlt. destruct (fresh_pid m Hm Hlt) as [Hi _]. unfold Next.
  destruct (t ← txn_of txn; byTxnID m !! t) as [pid|] eqn:Ek.
  - left. destruct (txn_of txn) as [t|]; [|done]. cbn in Ek.
    destruct (mi_txn _ Hm _ _ Ek) as [_ [e He]]. rewrite He. by exists t, pid, e.
  - right. split; [done|]. rewrite Hi. by destruct (txn_of txn).
Qed.

Lemma Next_inv m txn :
  mgr_inv m -> lastPID m < 9223372036854775807 ->
  exists m' pid e, Next m txn = Ok (m', pid, e) /\ mgr_inv m' /\ lastPID m' <= lastPID m + 1.
Proof.
  intros Hm Hlt. destruct (Next_cases m txn Hm Hlt) as [(t & pid & e & _ & _ & He & ->)|[_ ->]].
  - eexists _, _, _. split; [reflexivity|]. split; [|cbn; lia].
    eapply bump_inv; [done..|]. apply i16_range.
  - eexists _, _, _. split; [reflexivity|]. split; [|cbn; lia].
    destruct (fresh_producer_inv m (txn_of txn) Hm Hlt) as [Hinv|[_ ?]%txn_of_spec]; done.
Qed.

(** Handing out a producer id always succeeds while 64-bit ids last. A
    transactional id the broker knows gets its old producer id back under the
    next epoch, and from then on the old epoch is refused; anyone else gets an
    id nobody has had. The new pair is accepted and other producers are not
    affected. *)
Theorem producer_next m txn :
  mgr_inv m -> lastPID m < 9223372036854775807 ->
  exists m' pid e, Next m txn = Ok (m', pid, e) /\ mgr_inv m' /\
    Validate m' (default [] (txn_of txn)) pid e = true /\
    (forall q, q <> pid -> byID m' !! q = byID m !! q) /\
    match t ← txn_of txn; byTxnID m !! t with
    | Some known => pid = known /\
        forall st, byID m !! pid = Some st -> e = i16 (epoch st + 1) /\
          forall t, Validate m' t pid (epoch st) = false
    | None => byID m !! pid = None /\ e = 0
    end.
Proof.
  intros Hm Hlt. destruct (Next_inv m txn Hm Hlt) as (m' & pid & e & Heq & Hinv & _).
  exists m', pid, e. split; [done|]. split; [done|].
  destruct (Next_cases m txn Hm Hlt) as [(t & pid' & e' & Ht & Hk & He & Hn)|[Hk Hn]];
    rewrite Heq in Hn; simplify_eq; unfold Validate; cbn; rewrite lookup_insert_eq; cbn.
  - rewrite Ht. cbn. rewrite Hk. rewrite (bool_decide_eq_true_2 (t = t)) by done.
    rewrite andb_false_r, Z.eqb_refl. split; [done|]. split; [intros q Hq; by rewrite lookup_insert_ne|].
    split; [done|]. intros st Hst. simplify_eq. cbn. split; [done|]. intros t'.
    destruct (_ && _); [done|]. apply Z.eqb_neq. apply not_eq_sym, i16_succ_ne, (mi_ids _ Hm _ _ He).
  - rewrite Hk. rewrite (bool_decide_eq_true_2 (default [] (txn_of txn) = default [] (txn_of txn))) by done. rewrite andb_false_r. split; [done|].
    split; [intros q Hq; by rewrite lookup_insert_ne|]. split; [|done]. by apply fresh_pid.
Qed.

(** A transactional producer that starts twice. *)
Definition demo_manager : ProducerIDManager :=
  match Next NewProducerIDManager (Some [x74]) with Ok (m, _, _) => m | _ => NewProducerIDManager end.

Lemma demo_manager_inv : mgr_inv demo_manager.
Proof.
  destruct (fresh_producer_inv NewProducerIDManager (Some [x74]) new_manager_inv) as [H|H]; [done|exact H|done].
Qed.

Lemma producer_next_witness :
  exists m' pid e, Next demo_manager (Some [x74]) = Ok (m', pid, e) /\ mgr_inv m' /\
    Validate m' [x74] pid e = true /\
    (forall q, q <> pid -> byID m' !! q = byID demo_manager !! q) /\
    match t ← txn_of (Some [x74]); byTxnID demo_manager !! t with
    | Some known => pid = known /\
        forall st, byID demo_manager !! pid = Some st -> e = i16 (epoch st + 1) /\
          forall t, Validate m' t pid (epoch st) = false
    | None => byID demo_manager !! pid = None /\ e = 0
    end.
Proof. apply (producer_next demo_manager (Some [x74]) demo_manager_inv). vm_compute. reflexivity. Defined.
