(* ===== verification/Group.v ===== *)
(** * Consumer groups (internal/coordinator/group.go)

    A group moves between four states under its mutex. [JoinGroup] and
    [SyncGroup] give up the mutex while they wait, so each is two definitions:
    what it does until it answers or starts waiting, and what a waiting call
    does when it is woken (by a notification or by its timer) at a given time.
    Times and durations are nanoseconds. Each definition takes the current time
    once; the source reads the clock several times in a row. *)

From stdpp Require Import prelude list gmap strings pretty.
From Stdlib Require Import ZArith Lia.
From S2P Require Import Prelude GoBinary Wire Frame MsgData MsgAdmin MsgGroup OffsetWal OffsetStore Producer.
Import Membership.

Inductive GroupState :=
  | StateEmpty
  | StatePreparingRebalance
  | StateCompletingRebalance
  | StateStable.

#[global] Instance GroupState_eq_dec : EqDecision GroupState.
Proof. solve_decision. Defined.

#[global] Instance Protocol_eq_dec : EqDecision JoinGroupRequestProtocol.
Proof. solve_decision. Defined.

Record Member := mkMember {
  mb_ID : gostring;
  mb_InstanceID : option gostring;
  mb_SessionTimeout : Z;
  mb_RebalanceTimeout : Z;
  mb_ProtocolType : gostring;
  mb_Protocols : list JoinGroupRequestProtocol;
  mb_LastHeartbeat : Z }.

(** [g_born] tells two groups that had the name one after the other apart, as
    their addresses do: the number of member ids given out when the group was
    made. A group that anybody was in and the next of its name differ in it. *)
Record Group := mkGroup {
  g_Name : gostring;
  g_born : Z;
  g_State : GroupState;
  g_Generation : Z;
  g_ProtocolType : gostring;
  g_Protocol : gostring;
  g_LeaderID : gostring;
  g_Members : gmap gostring Member;
  g_JoinOrder : list gostring;
  g_assignments : gmap gostring gobytes;
  g_joined : gset gostring;
  g_rebalanceDeadline : Z }.

Record GroupManager := mkGroupManager {
  gm_groups : gmap gostring Group;
  gm_offsets : OffsetStore;
  gm_brokerNodeID : Z;
  gm_brokerHost : gostring;
  gm_brokerPort : Z;
  gm_defaultSession : Z;
  gm_defaultRebalance : Z;
  gm_nextMemberSeq : Z;
  gm_producers : ProducerIDManager }.

Definition NewGroupManager (offsets : OffsetStore) (nodeID : Z) (host : gostring)
    (port defaultSession : Z) : GroupManager :=
  mkGroupManager ∅ offsets nodeID host port defaultSession 0 0 NewProducerIDManager.

Definition with_groups (gm : GroupManager) (groups : gmap gostring Group) : GroupManager :=
  mkGroupManager groups (gm_offsets gm) (gm_brokerNodeID gm) (gm_brokerHost gm) (gm_brokerPort gm)
    (gm_defaultSession gm) (gm_defaultRebalance gm) (gm_nextMemberSeq gm) (gm_producers gm).

Definition with_offsets (gm : GroupManager) (offsets : OffsetStore) : GroupManager :=
  mkGroupManager (gm_groups gm) offsets (gm_brokerNodeID gm) (gm_brokerHost gm) (gm_brokerPort gm)
    (gm_defaultSession gm) (gm_defaultRebalance gm) (gm_nextMemberSeq gm) (gm_producers gm).

Definition millisecond : Z := 1000000.
Definition second : Z := 1000000000.
Definition syncWaitTimeout : Z := 10 * second.

(** ** Groups by name *)

Definition new_group (name : gostring) (born : Z) : Group :=
  mkGroup name born StateEmpty 0 [] [] [] ∅ [] ∅ ∅ 0.

(** A deleted group leaves the map in the same critical section that marks it,
    so the map holds live groups only. *)
Definition get (gm : GroupManager) (name : gostring) : option Group := gm_groups gm !! name.

Definition getOrCreate (gm : GroupManager) (name : gostring) : GroupManager * Group :=
  match gm_groups gm !! name with
  | Some g => (gm, g)
  | None =>
      let g := new_group name (gm_nextMemberSeq gm) in
      (with_groups gm (<[name := g]> (gm_groups gm)), g)
  end.

Definition put_group (gm : GroupManager) (name : gostring) (g : Group) : GroupManager :=
  with_groups gm (<[name := g]> (gm_groups gm)).

(** [fmt.Sprintf("pocketkafka-%d", seq)] *)
Definition member_id (seq : Z) : gostring :=
  String.list_byte_of_string ("pocketkafka-" +:+ pretty seq).

Definition nextMemberID (gm : GroupManager) : GroupManager * gostring :=
  let seq := i64 (gm_nextMemberSeq gm + 1) in
  (mkGroupManager (gm_groups gm) (gm_offsets gm) (gm_brokerNodeID gm) (gm_brokerHost gm)
     (gm_brokerPort gm) (gm_defaultSession gm) (gm_defaultRebalance gm) seq (gm_producers gm),
   member_id seq).

(** ** Rebalancing *)

Definition rebalanceTimeout (gm : GroupManager) (req : JoinGroupRequest) : Z :=
  let ms := RebalanceTimeoutMs req in
  let ms := if ms <=? 0 then SessionTimeoutMs req else ms in
  if ms <=? 0 then
    if 0 <? gm_defaultRebalance gm then gm_defaultRebalance gm else 10000 * millisecond
  else ms * millisecond.

Definition member_patience (m : Member) : Z :=
  if mb_RebalanceTimeout m <=? 0 then mb_SessionTimeout m * millisecond else mb_RebalanceTimeout m.

(** The longest patience of a member, ten seconds if none has any. *)
Definition rebalance_deadline (now : Z) (members : gmap gostring Member) : Z :=
  default (now + 10 * second)
    (map_fold (fun _ m best =>
       let d := member_patience m in
       if d <=? 0 then best else
       match best with
       | None => Some (now + d)
       | Some t => Some (if t <? now + d then now + d else t)
       end) None members).

Definition beginRebalanceLocked (now : Z) (g : Group) : Group :=
  mkGroup (g_Name g) (g_born g) StatePreparingRebalance (g_Generation g) (g_ProtocolType g) (g_Protocol g)
    (g_LeaderID g) (g_Members g) (g_JoinOrder g) (g_assignments g) ∅
    (rebalance_deadline now (g_Members g)).

(** Every member of the order that is present supports the protocol. *)
Definition supports (m : Member) (name : gostring) : bool :=
  existsb (fun p => bool_decide (Name p = name)) (mb_Protocols m).

Definition all_support (members : gmap gostring Member) (order : list gostring) (name : gostring)
  : bool :=
  forallb (fun id => match members !! id with None => true | Some m => supports m name end) order.

Definition chooseProtocol (members : gmap gostring Member) (order : list gostring)
    (leader : Member) : gostring :=
  match mb_Protocols leader with
  | [] => []
  | p :: _ =>
      match List.find (fun c => all_support members order (Name c)) (mb_Protocols leader) with
      | Some c => Name c
      | None => Name p
      end
  end.

(** [completeJoinLocked]; the first of [JoinOrder] leads. *)
Definition completeJoinLocked (g : Group) : outcome Group :=
  if bool_decide (g_Members g = ∅) then
    Ok (mkGroup (g_Name g) (g_born g) StateEmpty (g_Generation g) (g_ProtocolType g) (g_Protocol g) []
          (g_Members g) (g_JoinOrder g) (g_assignments g) ∅ 0)
  else
    match g_JoinOrder g with
    | [] => Panic
    | leaderID :: _ =>
        match g_Members g !! leaderID with
        | None => Panic
        | Some leader =>
            Ok (mkGroup (g_Name g) (g_born g) StateCompletingRebalance (i32 (g_Generation g + 1))
                  (mb_ProtocolType leader)
                  (chooseProtocol (g_Members g) (g_JoinOrder g) leader) leaderID
                  (g_Members g) (g_JoinOrder g) ∅ ∅ 0)
        end
    end.

Definition filterOrder (order remove : list gostring) : list gostring :=
  List.filter (fun id => negb (bool_decide (id ∈ remove))) order.

Definition delete_members (members : gmap gostring Member) (ids : list gostring)
  : gmap gostring Member :=
  foldr delete members ids.

(** The membership after some ids are gone. *)
Definition remove_ids (g : Group) (ids : list gostring) (joined : gset gostring) : Group :=
  mkGroup (g_Name g) (g_born g) (g_State g) (g_Generation g) (g_ProtocolType g) (g_Protocol g) (g_LeaderID g)
    (delete_members (g_Members g) ids) (filterOrder (g_JoinOrder g) ids) (g_assignments g) joined
    (g_rebalanceDeadline g).

(** [expireRebalanceLocked]: whoever has not joined is out. *)
Definition expireRebalanceLocked (g : Group) : outcome Group :=
  let dead := List.filter (fun id => negb (bool_decide (id ∈ g_joined g))) (map_to_list (g_Members g)).*1 in
  completeJoinLocked (remove_ids g dead (g_joined g)).

Definition protocol_metadata_named (ps : list JoinGroupRequestProtocol) (name : gostring) : gobytes :=
  match List.find (fun p => bool_decide (Name p = name)) ps with
  | Some p => Metadata p
  | None => None
  end.

(** [fillJoinResponseLocked]: only the leader is told the members. *)
Definition fillJoinResponseLocked (version : Z) (g : Group) (memberID : gostring) : JoinGroupResponse :=
  mkJoinGroupResponse version 0 ErrNone (g_Generation g) (g_Protocol g) (g_LeaderID g) memberID
    (if bool_decide (memberID = g_LeaderID g) then
       omap (fun id =>
         m ← g_Members g !! id;
         Some (mkJoinGroupResponseMember (mb_ID m) (mb_InstanceID m)
                 (protocol_metadata_named (mb_Protocols m) (g_Protocol g)))) (g_JoinOrder g)
     else []).

(** ** JoinGroup *)

(** Same name and same bytes; [bytes.Equal] takes nil for empty. *)
Definition same_protocol (p q : JoinGroupRequestProtocol) : bool :=
  bool_decide (Name p = Name q) && bool_decide (default [] (Metadata p) = default [] (Metadata q)).

Definition sameMemberMetadata (m : Member) (req : JoinGroupRequest) : bool :=
  bool_decide (mb_ProtocolType m = ProtocolType req) &&
  bool_decide (mb_InstanceID m = jg_InstanceID req) &&
  (zlen (mb_Protocols m) =? zlen (Protocols req)) &&
  forallb (fun pq => same_protocol pq.1 pq.2) (zip (mb_Protocols m) (Protocols req)).

Inductive join_result :=
  | Answered (resp : JoinGroupResponse)
  | Waiting (memberID : gostring) (deadline : Z).

Definition join_error (req : JoinGroupRequest) (code : Z) (memberID : gostring) : JoinGroupResponse :=
  mkJoinGroupResponse (jg_Version req) 0 code (-1) [] [] memberID [].

(** From the member's registration on. *)
Definition join_register (gm : GroupManager) (now : Z) (req : JoinGroupRequest)
    (memberID : gostring) (order : list gostring) (g : Group) : outcome (Group * join_result) :=
  let member := mkMember memberID (jg_InstanceID req) (SessionTimeoutMs req) (rebalanceTimeout gm req)
                  (ProtocolType req) (Protocols req) now in
  let g := mkGroup (g_Name g) (g_born g) (g_State g) (g_Generation g) (g_ProtocolType g) (g_Protocol g)
             (g_LeaderID g) (<[memberID := member]> (g_Members g)) order (g_assignments g)
             (g_joined g) (g_rebalanceDeadline g) in
  let g := if bool_decide (g_State g = StatePreparingRebalance) then g
           else beginRebalanceLocked now g in
  let g := mkGroup (g_Name g) (g_born g) (g_State g) (g_Generation g) (g_ProtocolType g) (g_Protocol g)
             (g_LeaderID g) (g_Members g) (g_JoinOrder g) (g_assignments g)
             ({[memberID]} ∪ g_joined g) (g_rebalanceDeadline g) in
  if bool_decide (size (g_Members g) <= size (g_joined g))%nat then
    let? g' := completeJoinLocked g in
    Ok (g', Answered (fillJoinResponseLocked (jg_Version req) g' memberID))
  else if g_rebalanceDeadline g - now <=? 0 then
    let? g' := expireRebalanceLocked g in
    Ok (g', Answered (fillJoinResponseLocked (jg_Version req) g' memberID))
  else Ok (g, Waiting memberID (g_rebalanceDeadline g)).

(** [JoinGroup] until it answers or waits. *)
Definition JoinGroup (gm : GroupManager) (now : Z) (req : JoinGroupRequest)
  : outcome (GroupManager * join_result) :=
  let '(gm, g) := getOrCreate gm (jg_Group req) in
  if bool_decide (Protocols req = []) then
    Ok (gm, Answered (join_error req ErrInconsistentGroupProtocol (jg_MemberID req)))
  else
  match g_Members g !! jg_MemberID req with
  | Some member =>
      if bool_decide (g_State g = StateStable) && sameMemberMetadata member req then
        let member' := mkMember (mb_ID member) (mb_InstanceID member) (mb_SessionTimeout member)
                         (mb_RebalanceTimeout member) (mb_ProtocolType member)
                         (mb_Protocols member) now in
        let g' := mkGroup (g_Name g) (g_born g) (g_State g) (g_Generation g) (g_ProtocolType g) (g_Protocol g)
                    (g_LeaderID g) (<[jg_MemberID req := member']> (g_Members g)) (g_JoinOrder g)
                    (g_assignments g) (g_joined g) (g_rebalanceDeadline g) in
        Ok (put_group gm (jg_Group req) g',
            Answered (fillJoinResponseLocked (jg_Version req) g' (jg_MemberID req)))
      else
        let? (g', r) := join_register gm now req (jg_MemberID req) (g_JoinOrder g) g in
        Ok (put_group gm (jg_Group req) g', r)
  | None =>
      let '(gm, memberID) := nextMemberID gm in
      let? (g', r) := join_register gm now req memberID (g_JoinOrder g ++ [memberID]) g in
      Ok (put_group gm (jg_Group req) g', r)
  end.

(** A waiting [JoinGroup] woken at [now]; [None] means it waits on. *)
Definition join_wake (gm : GroupManager) (now : Z) (req : JoinGroupRequest)
    (memberID : gostring) (deadline : Z) : outcome (GroupManager * option JoinGroupResponse) :=
  match get gm (jg_Group req) with
  | None => Ok (gm, Some (join_error req ErrUnknownMemberID memberID))
  | Some g =>
      if negb (bool_decide (is_Some (g_Members g !! memberID))) then
        Ok (gm, Some (join_error req ErrUnknownMemberID memberID))
      else if negb (now <? deadline) then
        let? g' := expireRebalanceLocked g in
        Ok (put_group gm (jg_Group req) g', Some (fillJoinResponseLocked (jg_Version req) g' memberID))
      else if bool_decide (g_State g = StatePreparingRebalance) then Ok (gm, None)
      else Ok (gm, Some (fillJoinResponseLocked (jg_Version req) g memberID))
  end.

(** ** SyncGroup *)

Inductive sync_result :=
  | SyncAnswered (resp : SyncGroupResponse)
  | SyncWaiting (born deadline : Z).

Definition sync_answer (req : SyncGroupRequest) (code : Z) (a : gobytes) : SyncGroupResponse :=
  mkSyncGroupResponse (sg_Version req) 0 code a.

(** The end of the function. *)
Definition sync_finish (req : SyncGroupRequest) (g : Group) : Group * sync_result :=
  let a := default None (g_assignments g !! sg_MemberID req) in
  let g' := if bool_decide (g_State g = StateCompletingRebalance)
               && (sg_GenerationID req =? g_Generation g)
            then mkGroup (g_Name g) (g_born g) StateStable (g_Generation g) (g_ProtocolType g) (g_Protocol g)
                   (g_LeaderID g) (g_Members g) (g_JoinOrder g) (g_assignments g) (g_joined g)
                   (g_rebalanceDeadline g)
            else g in
  (g', SyncAnswered (sync_answer req ErrNone a)).

(** One round of the waiting loop. *)
Definition sync_loop (now : Z) (req : SyncGroupRequest) (deadline : Z) (g : Group)
  : Group * sync_result :=
  if bool_decide (is_Some (g_assignments g !! sg_MemberID req)) then sync_finish req g
  else if negb (bool_decide (g_State g = StateCompletingRebalance))
          || negb (g_Generation g =? sg_GenerationID req) then sync_finish req g
  else if deadline - now <=? 0 then sync_finish req g
  else (g, SyncWaiting (g_born g) deadline).

Definition put_assignments (as_ : list SyncGroupRequestAssignment) (m : gmap gostring gobytes)
  : gmap gostring gobytes :=
  fold_left (fun m a => <[a_MemberID a := a_Assignment a]> m) as_ m.

(** [SyncGroup] until it answers or waits. *)
Definition SyncGroup (gm : GroupManager) (now : Z) (req : SyncGroupRequest)
  : GroupManager * sync_result :=
  let '(gm, g) := getOrCreate gm (sg_Group req) in
  if bool_decide (g_State g = StatePreparingRebalance) then
    (gm, SyncAnswered (sync_answer req ErrRebalanceInProgress None))
  else if bool_decide (g_Members g !! sg_MemberID req = None) then
    (gm, SyncAnswered (sync_answer req ErrUnknownMemberID None))
  else if negb (sg_GenerationID req =? g_Generation g) then
    (gm, SyncAnswered (sync_answer req ErrIllegalGeneration None))
  else
    let g := mkGroup (g_Name g) (g_born g) (g_State g) (g_Generation g) (g_ProtocolType g) (g_Protocol g)
               (g_LeaderID g) (g_Members g) (g_JoinOrder g)
               (put_assignments (Assignments req) (g_assignments g)) (g_joined g)
               (g_rebalanceDeadline g) in
    let '(g', r) :=
      if bool_decide (g_assignments g !! sg_MemberID req = None)
         && negb (bool_decide (sg_MemberID req = g_LeaderID g))
      then sync_loop now req (now + syncWaitTimeout) g
      else sync_finish req g in
    (put_group gm (sg_Group req) g', r).

(** A waiting [SyncGroup] woken at [now]. The group it waits in is the one that
    was there when it began; once that was deleted, it is empty and another
    group of the name does not matter. *)
Definition sync_wake (gm : GroupManager) (now : Z) (req : SyncGroupRequest) (born deadline : Z)
  : GroupManager * sync_result :=
  match get gm (sg_Group req) with
  | None => (gm, SyncAnswered (sync_answer req ErrNone None))
  | Some g =>
      if g_born g =? born then
        let '(g', r) := sync_loop now req deadline g in
        (put_group gm (sg_Group req) g', r)
      else (gm, SyncAnswered (sync_answer req ErrNone None))
  end.

(** ** Heartbeat and LeaveGroup *)

Definition Heartbeat (gm : GroupManager) (now : Z) (req : HeartbeatRequest)
  : GroupManager * HeartbeatResponse :=
  let answer code := mkHeartbeatResponse (hb_Version req) 0 code in
  match get gm (hb_Group req) with
  | None => (gm, answer ErrUnknownMemberID)
  | Some g =>
      match g_Members g !! hb_MemberID req with
      | None => (gm, answer ErrUnknownMemberID)
      | Some m =>
          if bool_decide (g_State g = StatePreparingRebalance) then (gm, answer ErrRebalanceInProgress)
          else if negb (hb_GenerationID req =? g_Generation g) then (gm, answer ErrIllegalGeneration)
          else
            let m' := mkMember (mb_ID m) (mb_InstanceID m) (mb_SessionTimeout m)
                        (mb_RebalanceTimeout m) (mb_ProtocolType m) (mb_Protocols m) now in
            let g' := mkGroup (g_Name g) (g_born g) (g_State g) (g_Generation g) (g_ProtocolType g)
                        (g_Protocol g) (g_LeaderID g) (<[hb_MemberID req := m']> (g_Members g))
                        (g_JoinOrder g) (g_assignments g) (g_joined g) (g_rebalanceDeadline g) in
            (put_group gm (hb_Group req) g', answer ErrNone)
      end
  end.

(** After members are gone: empty, finish the rebalance they held up, or
    start one. *)
Definition to_empty (g : Group) : Group :=
  mkGroup (g_Name g) (g_born g) StateEmpty 0 (g_ProtocolType g) (g_Protocol g) [] (g_Members g)
    (g_JoinOrder g) (g_assignments g) (g_joined g) (g_rebalanceDeadline g).

Definition all_joined (g : Group) : bool := bool_decide (size (g_Members g) <= size (g_joined g))%nat.

(** The loop of [LeaveGroup]: an id given twice is removed once. *)
Fixpoint leave_ids (members : gmap gostring Member) (ids : list gostring) : list gostring :=
  match ids with
  | [] => []
  | id :: r =>
      match members !! id with
      | Some _ => id :: leave_ids (delete id members) r
      | None => leave_ids members r
      end
  end.

Definition LeaveGroup (gm : GroupManager) (now : Z) (req : LeaveGroupRequest)
  : outcome (GroupManager * LeaveGroupResponse) :=
  let answer ms := mkLeaveGroupResponse (lg_Version req) 0 ErrNone ms in
  match get gm (lg_Group req) with
  | None => Ok (gm, answer [])
  | Some g =>
      let toRemove := if lg_Version req <? 3 then [lg_MemberID req]
                      else map l_MemberID (lg_Members req) in
      let gone := map (fun id => mkLeaveGroupResponseMember id None) (leave_ids (g_Members g) toRemove) in
      let g1 := remove_ids g toRemove
                  (g_joined g ∖ list_to_set (leave_ids (g_Members g) toRemove)) in
      let? g2 :=
        if bool_decide (g_Members g1 = ∅) then Ok (to_empty g1)
        else if bool_decide (g_State g1 = StatePreparingRebalance) && all_joined g1
        then completeJoinLocked g1
        else Ok (beginRebalanceLocked now g1) in
      Ok (put_group gm (lg_Group req) g2, answer gone)
  end.

(** ** Session expiry *)

Definition session_expired (now defaultSession : Z) (m : Member) : bool :=
  let timeout := if mb_SessionTimeout m <=? 0 then defaultSession else mb_SessionTimeout m in
  negb (timeout <=? 0) && (timeout * millisecond <? now - mb_LastHeartbeat m).

Definition reapExpired (now defaultSession : Z) (g : Group) : outcome (Group * Z) :=
  let dead := (map_to_list (filter (fun kv => session_expired now defaultSession kv.2 = true)
                              (g_Members g))).*1 in
  match dead with
  | [] => Ok (g, 0)
  | _ =>
      let g1 := remove_ids g dead (g_joined g ∖ list_to_set dead) in
      let? g2 :=
        if bool_decide (g_Members g1 = ∅) then Ok (to_empty g1)
        else if bool_decide (g_State g1 = StatePreparingRebalance) then
          if all_joined g1 then completeJoinLocked g1 else Ok g1
        else Ok (beginRebalanceLocked now g1) in
      Ok (g2, zlen dead)
  end.

Fixpoint reap_groups (now defaultSession : Z) (groups : list (gostring * Group))
    (acc : gmap gostring Group) (removed : Z) : outcome (gmap gostring Group * Z) :=
  match groups with
  | [] => Ok (acc, removed)
  | (name, g) :: r =>
      let? (g', n) := reapExpired now defaultSession g in
      reap_groups now defaultSession r (<[name := g']> acc) (removed + n)
  end.

Definition ReapExpiredSessions (gm : GroupManager) (now : Z) : outcome (GroupManager * Z) :=
  let? (groups, n) := reap_groups now (gm_defaultSession gm) (map_to_list (gm_groups gm))
                        (gm_groups gm) 0 in
  Ok (with_groups gm groups, n).

(** ** Offsets *)

Definition fence (g : Group) (req : Offsets.OffsetCommitRequest) : Z :=
  if 0 <=? Offsets.Generation req then
    if bool_decide (g_State g = StatePreparingRebalance) then ErrRebalanceInProgress
    else if bool_decide (g_Members g !! Offsets.MemberID req = None) then ErrUnknownMemberID
    else if negb (Offsets.Generation req =? g_Generation g) then ErrIllegalGeneration
    else ErrNone
  else ErrNone.

Definition commit_records (req : Offsets.OffsetCommitRequest) : list OffsetCommitRecord :=
  mjoin (map (fun t => map (fun p =>
    mkCommit (Offsets.Group req) (Offsets.Topic t) (Offsets.Partition p)
      (mkCommitted (Offsets.Offset p) (Offsets.Metadata p) (Offsets.LeaderEpoch p) 0))
    (Offsets.Partitions t)) (Offsets.Topics req)).

Definition commit_answer (req : Offsets.OffsetCommitRequest) (code : Z) : Offsets.OffsetCommitResponse :=
  Offsets.mkOffsetCommitResponse (Offsets.Version req) 0
    (map (fun t => Offsets.mkOffsetCommitResponseTopic (Offsets.Topic t)
            (map (fun p => Offsets.mkOffsetCommitResponsePartition (Offsets.Partition p) code)
               (Offsets.Partitions t))) (Offsets.Topics req)).

Definition OffsetCommit (gm : GroupManager) (now : Z) (req : Offsets.OffsetCommitRequest)
    (crash : option nat) : GroupManager * Offsets.OffsetCommitResponse :=
  let '(gm, g) := getOrCreate gm (Offsets.Group req) in
  let code := fence g req in
  if code =? ErrNone then
    let '(offsets, _, o) := CommitBatch (gm_offsets gm) now (commit_records req) crash in
    (with_offsets gm offsets,
     commit_answer req (match o with Ok _ => ErrNone | _ => ErrUnknownServerError end))
  else (gm, commit_answer req code).

Definition fetch_partition (m : offsetMap) (group topic : gostring) (pid : Z)
  : Offsets.OffsetFetchResponsePartition :=
  match Fetch m group topic pid with
  | Some off => Offsets.mkOffsetFetchResponsePartition pid (co_Offset off) (co_LeaderEpoch off)
                  (co_Metadata off) ErrNone
  | None => Offsets.mkOffsetFetchResponsePartition pid (-1) (-1) None ErrNone
  end.

Definition OffsetFetch (gm : GroupManager) (req : Offsets.OffsetFetchRequest)
  : Offsets.OffsetFetchResponse :=
  let m := os_offsets (gm_offsets gm) in
  let group := Offsets.of_Group req in
  let lookups :=
    match Offsets.of_Topics req with
    | None => map (fun t => (t, Partitions m group t)) (GroupTopics m group)
    | Some ts => map (fun t => (Offsets.of_Topic t, default [] (Offsets.of_Partitions t))) ts
    end in
  Offsets.mkOffsetFetchResponse (Offsets.of_Version req) 0
    (map (fun l => Offsets.mkOffsetFetchResponseTopic l.1 (map (fetch_partition m group l.1) l.2))
       lookups) ErrNone.

Definition errNonEmptyGroup : string := "group is not empty".

(** [fault] as in OffsetStore.v. *)
Definition DeleteGroup (gm : GroupManager) (name : gostring) (fault : option nat) : GroupManager * outcome unit :=
  match gm_groups gm !! name with
  | None => (gm, Ok tt)
  | Some g =>
      if negb (bool_decide (g_Members g = ∅)) then (gm, Err errNonEmptyGroup)
      else
        let '(offsets, o) := OffsetStore.DeleteGroup (gm_offsets gm) name fault in
        (with_offsets (with_groups gm (delete name (gm_groups gm))) offsets, o)
  end.

Definition ResetOffsets (gm : GroupManager) (now : Z) (group topic : gostring)
    (partition offset : Z) (crash : option nat) : GroupManager * outcome unit :=
  let '(offsets, _, o) :=
    Commit (gm_offsets gm) now group topic partition (mkCommitted offset None 0 0) crash in
  (with_offsets gm offsets, o).

Definition PruneOffsets (gm : GroupManager) (now retention : Z) (fault : option nat) : GroupManager * Z :=
  if retention <=? 0 then (gm, 0) else
  let '(offsets, n) := PruneOlderThan (gm_offsets gm) (Some (now - retention)) fault in
  (with_offsets gm offsets, n).

(** ** Queries *)

Definition FindCoordinator (gm : GroupManager) (req : FindCoordinatorRequest)
  : FindCoordinatorResponse :=
  mkFindCoordinatorResponse (fc_Version req) 0 ErrNone None (gm_brokerNodeID gm) (gm_brokerHost gm)
    (gm_brokerPort gm).

Definition ListGroupIDs (gm : GroupManager) : list gostring := (map_to_list (gm_groups gm)).*1.

Definition GroupExists (gm : GroupManager) (name : gostring) : bool :=
  bool_decide (is_Some (gm_groups gm !! name)).

Definition protocolMetadata (protocols : list JoinGroupRequestProtocol) (chosen : gostring) : gobytes :=
  match List.find (fun p => bool_decide (Name p = chosen)) protocols with
  | Some p => Metadata p
  | None => match protocols with p :: _ => Metadata p | [] => None end
  end.

Definition NextProducerID (gm : GroupManager) (txn : option gostring)
  : outcome (GroupManager * Z * Z) :=
  let? (m, pid, e) := Next (gm_producers gm) txn in
  Ok (mkGroupManager (gm_groups gm) (gm_offsets gm) (gm_brokerNodeID gm) (gm_brokerHost gm)
        (gm_brokerPort gm) (gm_defaultSession gm) (gm_defaultRebalance gm) (gm_nextMemberSeq gm) m,
      pid, e).

Definition ValidateProducer (gm : GroupManager) (txn : gostring) (pid e : Z) : bool :=
  Validate (gm_producers gm) txn pid e.

Definition GroupState_String (s : GroupState) : string :=
  match s with
  | StateEmpty => "Empty"
  | StatePreparingRebalance => "PreparingRebalance"
  | StateCompletingRebalance => "CompletingRebalance"
  | StateStable => "Stable"
  end.

Record GroupInfo := mkGroupInfo {
  gin_Name : gostring; gin_State : string; gin_Generation : Z; gin_LeaderID : gostring;
  gin_Members : list gostring; gin_Offsets : option (gmap gostring (gmap Z Z)) }.

Record MemberInfo := mkMemberInfo {
  min_MemberID : gostring; min_ClientID : gostring; min_ClientHost : gostring;
  min_ProtocolType : gostring; min_Metadata : gobytes; min_Assignment : gobytes;
  min_Assigned : option (gmap gostring (list Z)) }.

Definition ListGroups (gm : GroupManager) : list GroupInfo :=
  map (fun kv => mkGroupInfo kv.1 (GroupState_String (g_State kv.2)) (g_Generation kv.2)
                   (g_LeaderID kv.2) (g_JoinOrder kv.2)
                   (GroupOffsets (os_offsets (gm_offsets gm)) kv.1))
    (map_to_list (gm_groups gm)).

Definition DescribeGroup (gm : GroupManager) (name : gostring) : option GroupInfo :=
  g ← gm_groups gm !! name;
  Some (mkGroupInfo name (GroupState_String (g_State g)) (g_Generation g) (g_LeaderID g)
          (List.filter (fun id => bool_decide (is_Some (g_Members g !! id))) (g_JoinOrder g))
          (GroupOffsets (os_offsets (gm_offsets gm)) name)).

(** The inner loop of [decodeAssignmentFrom] stops at the first number that is
    not there, which leaves the reader where it was; so does the outer loop. *)
Fixpoint assigned_parts (n : nat) (r : Reader) : list Z * Reader :=
  match n with
  | O => ([], r)
  | S n => match ReadInt32 r with
           | Ok (p, r) => let '(ps, r) := assigned_parts n r in (p :: ps, r)
           | _ => ([], r)
           end
  end.

Fixpoint assigned_topics (n : nat) (r : Reader) (out : gmap gostring (list Z))
  : gmap gostring (list Z) :=
  match n with
  | O => out
  | S n =>
      match ReadString r with
      | Ok (topic, r) =>
          match ReadArrayLen r with
          | Ok (pn, r) =>
              if pn <? 0 then out else
              let '(ps, r) := assigned_parts (Z.to_nat pn) r in
              assigned_topics n r (<[topic := ps]> out)
          | _ => out
          end
      | _ => out
      end
  end.

Definition decodeAssignmentFrom (b : gobytes) : gmap gostring (list Z) :=
  if bool_decide (default [] b = []) then ∅ else
  match ReadArrayLen (NewReader (default [] b)) with
  | Ok (n, r) => if n <? 0 then ∅ else assigned_topics (Z.to_nat n) r ∅
  | _ => ∅
  end.

Definition MembersDetail (gm : GroupManager) (name : gostring) : list MemberInfo :=
  match gm_groups gm !! name with
  | None => []
  | Some g =>
      omap (fun id =>
        m ← g_Members g !! id;
        Some (mkMemberInfo (mb_ID m) (mb_ID m) (x2f :: mb_ID m) (mb_ProtocolType m)
                (protocolMetadata (mb_Protocols m) (g_Protocol g))
                (default None (g_assignments g !! id))
                (decodeAssignmentFrom <$> g_assignments g !! id))) (g_JoinOrder g)
  end.

Definition CommittedGroups (gm : GroupManager) : gmap gostring (gmap gostring (gmap Z Z)) :=
  let m := os_offsets (gm_offsets gm) in
  list_to_map (omap (fun name =>
    offsets ← GroupOffsets m name;
    if bool_decide (offsets = ∅) then None else Some (name, offsets)) (Groups m)).
