(* ===== verification/GroupOps.v ===== *)
(** * Consumer groups: invariant, fencing, rebalances

    The coordinator's invariant (Group.v's state machine never reaches a state
    in which it would panic, the leader is a member, member ids are never
    reused), and what its answers mean. *)

From stdpp Require Import prelude list gmap strings pretty.
From Stdlib Require Import ZArith Lia.
From S2P Require Import Prelude GoBinary Wire Frame MsgData MsgAdmin MsgGroup OffsetWal OffsetStore Producer Group.
Import Membership.

(** ** The invariant of one group *)

Record group_inv (g : Group) : Prop := {
  gi_order : forall id, id ∈ g_JoinOrder g <-> is_Some (g_Members g !! id);
  gi_nodup : NoDup (g_JoinOrder g);
  gi_ids : forall id m, g_Members g !! id = Some m -> mb_ID m = id;
  gi_joined : g_joined g ⊆ dom (g_Members g);
  gi_empty : g_State g = StateEmpty <-> g_Members g = ∅;
  gi_prep : g_State g = StatePreparingRebalance -> (size (g_joined g) < size (g_Members g))%nat;
  gi_active : g_State g = StateCompletingRebalance \/ g_State g = StateStable ->
                g_joined g = ∅ /\ head (g_JoinOrder g) = Some (g_LeaderID g) }.

(** The part about who is in the group, which the steps in between keep. *)
Record members_ok (g : Group) : Prop := {
  mo_order : forall id, id ∈ g_JoinOrder g <-> is_Some (g_Members g !! id);
  mo_nodup : NoDup (g_JoinOrder g);
  mo_ids : forall id m, g_Members g !! id = Some m -> mb_ID m = id;
  mo_joined : g_joined g ⊆ dom (g_Members g) }.

Lemma inv_members g : group_inv g -> members_ok g.
Proof. by intros []. Qed.

Lemma new_group_inv name born : group_inv (new_group name born).
Proof.
  constructor; cbn; try done.
  - intros id. rewrite lookup_empty. split; [by intros ?%elem_of_nil|by intros []].
  - constructor.
  - by intros [|].
Qed.

Lemma size_dom_members g : size (g_Members g) = size (dom (g_Members g)).
Proof. symmetry. apply size_dom. Qed.

(** ** The transitions keep it *)

Lemma begin_inv now g :
  members_ok g -> g_Members g <> ∅ -> group_inv (beginRebalanceLocked now g).
Proof.
  intros [Ho Hn Hi Hj] Hne. constructor; cbn; try done.
  - intros _. rewrite size_empty. destruct (size (g_Members g)) eqn:E; [|lia].
    by apply map_size_empty_inv in E.
  - by intros [|].
Qed.

Lemma complete_inv g :
  members_ok g -> exists g', completeJoinLocked g = Ok g' /\ group_inv g' /\
    (g_Members g <> ∅ -> g_State g' = StateCompletingRebalance /\
       g_Generation g' = i32 (g_Generation g + 1) /\ head (g_JoinOrder g) = Some (g_LeaderID g')) /\
    g_Members g' = g_Members g /\ g_JoinOrder g' = g_JoinOrder g.
Proof.
  intros [Ho Hn Hi Hj]. unfold completeJoinLocked. case_bool_decide as Hm.
  - eexists. split; [done|]. split; [|by split_and!].
    constructor; cbn; try done. by intros [|].
  - destruct (g_JoinOrder g) as [|l order] eqn:Eo.
    { destruct (map_choose _ Hm) as (id & m & Hid). exfalso.
      by eapply (not_elem_of_nil id), Ho; eexists. }
    destruct (proj1 (Ho l)) as [leader Hl]; [by left|]. rewrite Hl.
    eexists. split; [done|]. split; [|by split_and!].
    constructor; cbn; rewrite ?Eo; done.
Qed.

Lemma lookup_delete_members members ids id :
  delete_members members ids !! id = if decide (id ∈ ids) then None else members !! id.
Proof.
  unfold delete_members. induction ids as [|x ids IH]; cbn; [by rewrite decide_False by apply not_elem_of_nil|].
  destruct (decide (id = x)) as [->|Hne].
  - rewrite lookup_delete_eq. by rewrite decide_True by set_solver.
  - rewrite lookup_delete_ne, IH by done.
    destruct (decide (id ∈ ids)) as [H|H], (decide (id ∈ x :: ids)) as [H'|H']; set_solver.
Qed.

Lemma remove_members_ok g ids joined :
  members_ok g -> joined ⊆ g_joined g -> (forall id, id ∈ joined -> id ∉ ids) ->
  members_ok (remove_ids g ids joined).
Proof.
  intros [Ho Hn Hi Hj] Hsub Hout. constructor; cbn.
  - intros id. unfold filterOrder. rewrite lookup_delete_members, list_elem_of_In, filter_In,
      <- list_elem_of_In, Ho, negb_true_iff, bool_decide_eq_false.
    destruct (decide (id ∈ ids)); [|tauto]. split; [tauto|by intros []].
  - unfold filterOrder. apply NoDup_ListNoDup, List.NoDup_filter, NoDup_ListNoDup, Hn.
  - intros id m. rewrite lookup_delete_members. destruct (decide _); [done|]. apply Hi.
  - intros id Hid. apply elem_of_dom. rewrite lookup_delete_members.
    rewrite decide_False by (by apply Hout). apply elem_of_dom. set_solver.
Qed.

Lemma expire_inv g :
  group_inv g -> exists g', expireRebalanceLocked g = Ok g' /\ group_inv g' /\
    (forall id, is_Some (g_Members g' !! id) <-> is_Some (g_Members g !! id) /\ id ∈ g_joined g).
Proof.
  intros Hg. unfold expireRebalanceLocked. set (dead := List.filter _ _).
  assert (forall id, id ∈ dead <-> is_Some (g_Members g !! id) /\ id ∉ g_joined g) as Hdead.
  { intros id. unfold dead. rewrite list_elem_of_In, filter_In, <- list_elem_of_In.
    rewrite negb_true_iff, bool_decide_eq_false, list_elem_of_fmap. split.
    - intros [([k m] & -> & Hm%elem_of_map_to_list) Hj]. split; [by exists m|done].
    - intros [[m Hm] Hj]. split; [|done]. exists (id, m). split; [done|]. by apply elem_of_map_to_list. }
  destruct (complete_inv (remove_ids g dead (g_joined g))) as (g' & -> & Hinv & _ & Hm & _).
  { apply remove_members_ok; [by apply inv_members|done|]. intros id Hid. rewrite Hdead. tauto. }
  exists g'. split; [done|]. split; [done|]. intros id. rewrite Hm. cbn.
  rewrite lookup_delete_members. destruct (decide (id ∈ dead)) as [Hd|Hd].
  - rewrite Hdead in Hd. split; [by intros []|tauto].
  - rewrite Hdead in Hd. split; [|tauto]. intros Hs. split; [done|].
    destruct (decide (id ∈ g_joined g)); [done|]. tauto.
Qed.

(** Only a member's own fields changed. *)
Lemma touch_inv g id m m' :
  group_inv g -> g_Members g !! id = Some m -> mb_ID m' = id ->
  group_inv (mkGroup (g_Name g) (g_born g) (g_State g) (g_Generation g) (g_ProtocolType g) (g_Protocol g)
    (g_LeaderID g) (<[id := m']> (g_Members g)) (g_JoinOrder g) (g_assignments g) (g_joined g)
    (g_rebalanceDeadline g)).
Proof.
  intros [Ho Hn Hi Hj He Hp Ha] Hm Hid. constructor; cbn; try done.
  - intros x. rewrite Ho. destruct (decide (x = id)) as [->|Hne].
    + rewrite lookup_insert_eq, Hm. by split; eexists.
    + by rewrite lookup_insert_ne.
  - intros x mx. destruct (decide (x = id)) as [->|Hne].
    + rewrite lookup_insert_eq. by intros [= <-].
    + rewrite lookup_insert_ne by done. apply Hi.
  - rewrite dom_insert. set_solver.
  - rewrite He. split; intros E; exfalso.
    + by rewrite E, lookup_empty in Hm.
    + exact (insert_non_empty (g_Members g) id m' E).
  - intros Hs. rewrite map_size_insert_Some by done. by apply Hp.
Qed.

(** ** Joining *)

(** The group as registration finds it, with the joiner in the order. *)
Definition order_with (g : Group) (memberID : gostring) (order : list gostring) : Prop :=
  (g_Members g !! memberID = None /\ order = g_JoinOrder g ++ [memberID]) \/
  (is_Some (g_Members g !! memberID) /\ order = g_JoinOrder g).

Definition register (gm : GroupManager) (now : Z) (req : JoinGroupRequest) (memberID : gostring)
    (order : list gostring) (g : Group) : Group :=
  mkGroup (g_Name g) (g_born g) (g_State g) (g_Generation g) (g_ProtocolType g) (g_Protocol g)
    (g_LeaderID g)
    (<[memberID := mkMember memberID (jg_InstanceID req) (SessionTimeoutMs req)
                     (rebalanceTimeout gm req) (ProtocolType req) (Protocols req) now]> (g_Members g))
    order (g_assignments g) (g_joined g) (g_rebalanceDeadline g).

Definition mark_joined (memberID : gostring) (g : Group) : Group :=
  mkGroup (g_Name g) (g_born g) (g_State g) (g_Generation g) (g_ProtocolType g) (g_Protocol g)
    (g_LeaderID g) (g_Members g) (g_JoinOrder g) (g_assignments g)
    ({[memberID]} ∪ g_joined g) (g_rebalanceDeadline g).

(** The state in which [join_register] decides what to do. *)
Definition registered (gm : GroupManager) (now : Z) (req : JoinGroupRequest) (memberID : gostring)
    (order : list gostring) (g : Group) : Group :=
  mark_joined memberID
    (if bool_decide (g_State g = StatePreparingRebalance) then register gm now req memberID order g
     else beginRebalanceLocked now (register gm now req memberID order g)).

Lemma register_ok gm now req memberID order g :
  members_ok g -> order_with g memberID order -> members_ok (register gm now req memberID order g).
Proof.
  intros [Ho Hn Hi Hj] Hord. constructor; cbn.
  - intros x. destruct (decide (x = memberID)) as [->|Hne].
    + rewrite lookup_insert_eq. split; [by eexists|]. intros _.
      destruct Hord as [[_ ->]|[Hs ->]]; [set_solver|by apply Ho].
    + rewrite lookup_insert_ne by done. rewrite <- Ho. destruct Hord as [[_ ->]|[_ ->]]; set_solver.
  - destruct Hord as [[Hnone ->]|[_ ->]]; [|done]. apply NoDup_app. split; [done|].
    split; [|apply NoDup_singleton]. intros x Hx ->%list_elem_of_singleton.
    apply Ho in Hx. rewrite Hnone in Hx. by destruct Hx.
  - intros x m. destruct (decide (x = memberID)) as [->|Hne].
    + rewrite lookup_insert_eq. by intros [= <-].
    + rewrite lookup_insert_ne by done. apply Hi.
  - rewrite dom_insert. set_solver.
Qed.

Lemma registered_ok gm now req memberID order g :
  members_ok g -> order_with g memberID order ->
  members_ok (registered gm now req memberID order g) /\
  g_State (registered gm now req memberID order g) = StatePreparingRebalance /\
  memberID ∈ g_joined (registered gm now req memberID order g) /\
  is_Some (g_Members (registered gm now req memberID order g) !! memberID).
Proof.
  intros Hg Hord. pose proof (register_ok gm now req memberID order g Hg Hord) as [Ho Hn Hi Hj].
  assert (memberID ∈ dom (g_Members (register gm now req memberID order g))) as Hin.
  { cbn. rewrite dom_insert. set_solver. }
  unfold registered. case_bool_decide as Hs; (split; [constructor; cbn in *; try done; set_solver|]);
    (split; [done|]); (split; [cbn; set_solver|]); by apply elem_of_dom.
Qed.

Lemma join_register_eq gm now req memberID order g :
  join_register gm now req memberID order g =
  let g1 := registered gm now req memberID order g in
  if all_joined g1 then
    let? g' := completeJoinLocked g1 in
    Ok (g', Answered (fillJoinResponseLocked (jg_Version req) g' memberID))
  else if g_rebalanceDeadline g1 - now <=? 0 then
    let? g' := expireRebalanceLocked g1 in
    Ok (g', Answered (fillJoinResponseLocked (jg_Version req) g' memberID))
  else Ok (g1, Waiting memberID (g_rebalanceDeadline g1)).
Proof. reflexivity. Qed.

(** Preparing, with someone still missing. *)
Lemma preparing_inv g :
  members_ok g -> g_State g = StatePreparingRebalance -> all_joined g = false ->
  g_Members g <> ∅ -> group_inv g.
Proof.
  intros [Ho Hn Hi Hj] Hs Ha Hne. apply bool_decide_eq_false in Ha.
  constructor; try done; rewrite Hs; [by split|lia|by intros [|]].
Qed.

Lemma not_empty_lookup g id : is_Some (g_Members g !! id) -> g_Members g <> ∅.
Proof. intros [m Hm] E. by rewrite E, lookup_empty in Hm. Qed.

Lemma join_register_inv gm now req memberID order g :
  group_inv g -> order_with g memberID order ->
  exists g' r, join_register gm now req memberID order g = Ok (g', r) /\ group_inv g' /\
    (forall id, is_Some (g_Members g' !! id) -> id = memberID \/ is_Some (g_Members g !! id)).
Proof.
  intros Hg Hord. rewrite join_register_eq. cbv zeta.
  destruct (registered_ok gm now req memberID order g (inv_members g Hg) Hord) as (Hok & Hst & Hj & Hm).
  assert (forall id, is_Some (g_Members (registered gm now req memberID order g) !! id) ->
            id = memberID \/ is_Some (g_Members g !! id)) as Hsub.
  { intros id. unfold registered. case_bool_decide; cbn;
      (destruct (decide (id = memberID)) as [->|Hne]; [by left|]); rewrite lookup_insert_ne by done; auto. }
  set (g1 := registered gm now req memberID order g) in *. destruct (all_joined g1) eqn:Ha.
  - destruct (complete_inv g1 Hok) as (g' & -> & Hinv & _ & Em & _).
    eexists g', _. split; [reflexivity|]. split; [done|]. by rewrite Em.
  - assert (group_inv g1) as Hg1 by (apply preparing_inv; [done..|by eapply not_empty_lookup]).
    destruct (_ <=? 0).
    + destruct (expire_inv g1 Hg1) as (g' & -> & Hinv & Hk).
      eexists g', _. split; [reflexivity|]. split; [done|]. intros id [H _]%Hk. by apply Hsub.
    + eexists g1, _. split; [reflexivity|]. by split.
Qed.

(** ** Leaving and expiring *)

Lemma elem_of_leave_ids members ids id :
  id ∈ leave_ids members ids <-> id ∈ ids /\ is_Some (members !! id).
Proof.
  revert members. induction ids as [|x ids IH]; intros members; cbn; [set_solver|].
  destruct (members !! x) as [m|] eqn:Ex.
  - rewrite elem_of_cons, IH. destruct (decide (id = x)) as [->|Hne].
    + rewrite Ex. split; [intros _; split; [by left|by eexists]|by left].
    + rewrite lookup_delete_ne by done. set_solver.
  - rewrite IH, elem_of_cons. split; [tauto|]. intros [[->|?] Hs]; [|tauto].
    rewrite Ex in Hs. by destruct Hs.
Qed.

(** What follows once the ids are gone: empty, finished, or a new round. *)
Lemma after_removal now g1 :
  members_ok g1 -> (g_Members g1 = ∅ -> g_joined g1 = ∅) ->
  group_inv (to_empty g1) \/ g_Members g1 <> ∅ /\ group_inv (beginRebalanceLocked now g1) /\
    exists g', completeJoinLocked g1 = Ok g' /\ group_inv g' /\ g_Members g' = g_Members g1.
Proof.
  intros Hok Hj. destruct (decide (g_Members g1 = ∅)) as [He|Hne].
  - left. destruct Hok as [Ho Hn Hi Hjj]. constructor; cbn; try done. by intros [|].
  - right. split; [done|]. split; [by apply begin_inv|].
    destruct (complete_inv g1 Hok) as (g' & ? & ? & _ & ? & _). by exists g'.
Qed.

Lemma removal_inv now g1 (c : bool) :
  members_ok g1 ->
  exists g2, (if bool_decide (g_Members g1 = ∅) then Ok (to_empty g1)
              else if c then completeJoinLocked g1 else Ok (beginRebalanceLocked now g1)) = Ok g2 /\
    group_inv g2 /\ g_Members g2 = g_Members g1.
Proof.
  intros Hok. assert (g_Members g1 = ∅ -> g_joined g1 = ∅) as Hj.
  { intros E. pose proof (mo_joined _ Hok) as Hsub. rewrite E, dom_empty_L in Hsub. set_solver. }
  case_bool_decide as He.
  - exists (to_empty g1). split; [done|]. split; [|done].
    destruct (after_removal now g1 Hok Hj) as [H|[? _]]; [done|by destruct H].
  - destruct (after_removal now g1 Hok Hj) as [H|(_ & Hb & g' & Hc & Hi & Em)].
    + by destruct (proj1 (gi_empty _ H) eq_refl).
    + destruct c; [by exists g'|by eexists].
Qed.

Lemma remove_some g ids :
  group_inv g ->
  members_ok (remove_ids g ids (g_joined g ∖ list_to_set (leave_ids (g_Members g) ids))).
Proof.
  intros Hg. apply remove_members_ok; [by apply inv_members|set_solver|].
  intros id [Hj Hnot]%elem_of_difference Hid. apply Hnot, elem_of_list_to_set, elem_of_leave_ids.
  split; [done|]. apply elem_of_dom. by apply (gi_joined _ Hg).
Qed.

Lemma reap_dead now ds g id :
  id ∈ (map_to_list (filter (fun kv => session_expired now ds kv.2 = true) (g_Members g))).*1 ->
  is_Some (g_Members g !! id).
Proof.
  rewrite list_elem_of_fmap. intros ([k m] & -> & Hm%elem_of_map_to_list).
  apply map_lookup_filter_Some in Hm as [Hm _]. by exists m.
Qed.

Lemma reap_inv now ds g :
  group_inv g -> exists g' n, reapExpired now ds g = Ok (g', n) /\ group_inv g' /\
    (forall id, is_Some (g_Members g' !! id) -> is_Some (g_Members g !! id)).
Proof.
  intros Hg. unfold reapExpired. set (dead := (map_to_list _).*1).
  destruct dead as [|d r] eqn:Ed; [by exists g, 0|]. rewrite <- Ed.
  set (g1 := remove_ids g dead (g_joined g ∖ list_to_set dead)).
  assert (members_ok g1) as Hok.
  { apply remove_members_ok; [by apply inv_members|set_solver|set_solver]. }
  assert (forall id, is_Some (g_Members g1 !! id) -> is_Some (g_Members g !! id)) as Hsub.
  { intros id. cbn. rewrite lookup_delete_members. by destruct (decide _); [intros []|]. }
  destruct (removal_inv now g1 false Hok) as (gb & Hbe & Hbi & Hbm).
  destruct (removal_inv now g1 true Hok) as (gc & Hce & Hci & Hcm).
  case_bool_decide as He; [|case_bool_decide as Hs; [destruct (all_joined g1) eqn:Ha|]].
  - simplify_eq. eexists _, _. split; [reflexivity|]. split; [done|]. by rewrite Hbm.
  - rewrite Hce. eexists _, _. split; [reflexivity|]. split; [done|]. by rewrite Hcm.
  - eexists _, _. split; [reflexivity|]. split; [by apply preparing_inv|done].
  - simplify_eq. eexists _, _. split; [reflexivity|]. split; [done|]. by rewrite Hbm.
Qed.

(** ** The manager *)

Lemma member_id_inj k k' : member_id k = member_id k' -> k = k'.
Proof.
  unfold member_id. intros E%(f_equal String.string_of_list_byte).
  rewrite !String.string_of_list_byte_of_string in E.
  apply (inj (String.append "pocketkafka-")) in E. by apply (inj pretty) in E.
Qed.

Lemma member_id_not_empty k : member_id k <> [].
Proof. done. Qed.

Definition owned (gm : GroupManager) (name id : gostring) : Prop :=
  exists g, gm_groups gm !! name = Some g /\ is_Some (g_Members g !! id).

(** Every group is well formed; member ids were handed out by [nextMemberID]
    and no two groups share one. *)
Record gm_inv (gm : GroupManager) : Prop := {
  gmi_groups : forall name g, gm_groups gm !! name = Some g -> group_inv g;
  gmi_ids : forall name id, owned gm name id ->
    exists k, 1 <= k <= gm_nextMemberSeq gm /\ id = member_id k;
  gmi_unique : forall name name' id, owned gm name id -> owned gm name' id -> name = name';
  gmi_seq : 0 <= gm_nextMemberSeq gm;
  gmi_producers : mgr_inv (gm_producers gm) }.

(** What one event may use up. *)
Definition spends (gm gm' : GroupManager) : Prop :=
  gm_nextMemberSeq gm <= gm_nextMemberSeq gm' <= gm_nextMemberSeq gm + 1 /\
  lastPID (gm_producers gm') <= lastPID (gm_producers gm) + 1.

Lemma new_group_manager_inv os n h p ds : gm_inv (NewGroupManager os n h p ds).
Proof.
  assert (forall name id, ~ owned (NewGroupManager os n h p ds) name id) as Hno.
  { intros name id (g & H & _). cbn in H. by rewrite lookup_empty in H. }
  constructor; [|by intros ? ? ?%Hno|by intros ? ? ? ?%Hno|done|apply Producer.new_manager_inv].
  intros name g. cbn. by rewrite lookup_empty.
Qed.

(** A group is replaced; its members were there, or got their id just now. *)
Lemma replace_inv gm gm' name g :
  gm_inv gm -> group_inv g -> gm_groups gm' = <[name := g]> (gm_groups gm) ->
  gm_nextMemberSeq gm <= gm_nextMemberSeq gm' -> gm_producers gm' = gm_producers gm ->
  (forall id, is_Some (g_Members g !! id) -> owned gm name id \/
     exists k, gm_nextMemberSeq gm < k <= gm_nextMemberSeq gm' /\ id = member_id k) ->
  gm_inv gm'.
Proof.
  intros [Hg Hi Hu Hs Hp] Hinv Em Hseq Ep Hk.
  assert (forall n id, owned gm' n id -> owned gm n id \/
    n = name /\ exists k, gm_nextMemberSeq gm < k <= gm_nextMemberSeq gm' /\ id = member_id k) as Hown.
  { intros n id (x & Hx & Hid). rewrite Em in Hx. destruct (decide (n = name)) as [->|Hne].
    - rewrite lookup_insert_eq in Hx. simplify_eq. destruct (Hk _ Hid); auto.
    - rewrite lookup_insert_ne in Hx by done. left. by exists x. }
  constructor; [|intros n id H|intros n n' id H H'|lia|by rewrite Ep].
  - intros n x. rewrite Em. destruct (decide (n = name)) as [->|Hne].
    + rewrite lookup_insert_eq. by intros [= <-].
    + rewrite lookup_insert_ne by done. apply Hg.
  - destruct (Hown _ _ H) as [Ho|(_ & k & Hr & ->)]; [|exists k; split; [lia|done]].
    destruct (Hi _ _ Ho) as (k & Hr & ->). exists k. split; [lia|done].
  - destruct (Hown _ _ H) as [Ho|(-> & k & Hr & ->)], (Hown _ _ H') as [Ho'|(-> & k' & Hr' & E)];
      [by eapply Hu| | |done]; exfalso.
    + destruct (Hi _ _ Ho) as (j & Hj & Ej). rewrite Ej in E. apply member_id_inj in E. lia.
    + destruct (Hi _ _ Ho') as (j & Hj & Ej). apply member_id_inj in Ej. lia.
Qed.

Lemma put_group_inv gm name g :
  gm_inv gm -> group_inv g -> (forall id, is_Some (g_Members g !! id) -> owned gm name id) ->
  gm_inv (put_group gm name g).
Proof. intros Hgm Hg Hk. apply (replace_inv gm _ name g); auto. cbn. lia. Qed.

Lemma put_spends gm name g : spends gm (put_group gm name g).
Proof. split; cbn; lia. Qed.

(** The manager is as before but for the offsets. *)
Lemma with_offsets_inv gm os : gm_inv gm -> gm_inv (with_offsets gm os).
Proof. by intros []. Qed.

Lemma spends_refl gm : spends gm gm.
Proof. split; lia. Qed.

Lemma getOrCreate_inv gm name :
  gm_inv gm -> exists gm1 g,
  getOrCreate gm name = (gm1, g) /\ gm_inv gm1 /\ group_inv g /\ spends gm gm1 /\
  gm_nextMemberSeq gm1 = gm_nextMemberSeq gm /\ gm_groups gm1 !! name = Some g.
Proof.
  intros Hgm. unfold getOrCreate. destruct (gm_groups gm !! name) as [g0|] eqn:E.
  - exists gm, g0. split_and!; auto using spends_refl; try lia. by eapply gmi_groups.
  - eexists _, (new_group name (gm_nextMemberSeq gm)). split; [reflexivity|].
    split; [|split_and!; [apply new_group_inv|apply (put_spends gm name)|done|by apply lookup_insert_eq]].
    apply (put_group_inv gm name (new_group name (gm_nextMemberSeq gm))); auto using new_group_inv.
    intros id. cbn. rewrite lookup_empty. by intros [].
Qed.

Definition max_seq : Z := 9223372036854775807.

Lemma JoinGroup_inv gm now req :
  gm_inv gm -> gm_nextMemberSeq gm < max_seq ->
  exists gm' r, JoinGroup gm now req = Ok (gm', r) /\ gm_inv gm' /\ spends gm gm'.
Proof.
  intros Hgm Hlt. unfold JoinGroup.
  destruct (getOrCreate_inv gm (jg_Group req) Hgm) as (gm1 & g & -> & Hgm1 & Hg & Hsp & Es & Hl).
  case_bool_decide; [by eexists _, _|].
  destruct (g_Members g !! jg_MemberID req) as [m|] eqn:Em.
  - destruct (_ && _).
    + eexists _, _. split; [reflexivity|]. split; [|exact Hsp]. apply put_group_inv; [done| |].
      * eapply touch_inv; [done..|]. cbn. by eapply gi_ids.
      * cbn. intros id Hid. exists g. split; [done|].
        destruct (decide (id = jg_MemberID req)) as [->|Hne]; [by exists m|].
        by rewrite lookup_insert_ne in Hid.
    + destruct (join_register_inv gm1 now req (jg_MemberID req) (g_JoinOrder g) g Hg)
        as (g' & r & -> & Hg' & Hk); [right; split; [by exists m|done]|].
      eexists _, _. split; [reflexivity|]. split; [|exact Hsp]. apply put_group_inv; [done..|].
      intros id Hid. exists g. split; [done|]. destruct (Hk _ Hid) as [->|?]; [by exists m|done].
  - unfold nextMemberID. pose proof (gmi_seq _ Hgm) as Hs0. rewrite Es.
    rewrite i64_id by (unfold max_seq in *; mlia). set (gm2 := mkGroupManager _ _ _ _ _ _ _ _ _).
    set (id := member_id (gm_nextMemberSeq gm + 1)).
    assert (g_Members g !! id = None) as Hfresh.
    { destruct (g_Members g !! id) eqn:E; [|done]. exfalso.
      destruct (gmi_ids _ Hgm1 (jg_Group req) id) as (k & Hk & Eid%member_id_inj); [|lia].
      exists g. split; [done|by eexists]. }
    destruct (join_register_inv gm2 now req id (g_JoinOrder g ++ [id]) g Hg)
      as (g' & r & -> & Hg' & Hk); [by left|].
    eexists _, _. split; [reflexivity|]. split.
    + apply (replace_inv gm1 _ (jg_Group req) g'); auto; [cbn; lia|]. intros x Hx.
      destruct (Hk _ Hx) as [->|?]; [right|left; by exists g].
      exists (gm_nextMemberSeq gm + 1). cbn. split; [lia|done].
    + destruct Hsp as [_ Hsp]. split; cbn; [lia|exact Hsp].
Qed.

Lemma join_wake_inv gm now req id deadline :
  gm_inv gm -> exists gm' r, join_wake gm now req id deadline = Ok (gm', r) /\ gm_inv gm' /\ spends gm gm'.
Proof.
  intros Hgm. unfold join_wake, get. destruct (gm_groups gm !! jg_Group req) as [g|] eqn:Eg;
    [|eauto using spends_refl].
  destruct (negb _); [eauto using spends_refl|]. destruct (negb _).
  - destruct (expire_inv g (gmi_groups _ Hgm _ _ Eg)) as (g' & -> & Hg' & Hk).
    eexists _, _. split; [reflexivity|]. split; [|apply put_spends]. apply put_group_inv; [done..|].
    intros x [Hx _]%Hk. by exists g.
  - destruct (bool_decide _); eauto using spends_refl.
Qed.

(** Assignments are not part of the invariant; [sync_finish] may settle the
    group. *)
Lemma sync_finish_inv req g as_ dl :
  group_inv g ->
  let g1 := mkGroup (g_Name g) (g_born g) (g_State g) (g_Generation g) (g_ProtocolType g) (g_Protocol g)
              (g_LeaderID g) (g_Members g) (g_JoinOrder g) as_ (g_joined g) dl in
  group_inv g1 /\ group_inv (fst (sync_finish req g1)) /\ g_Members (fst (sync_finish req g1)) = g_Members g.
Proof.
  intros [Ho Hn Hi Hj He Hp Ha] g1. split; [by constructor|]. unfold sync_finish. cbn.
  destruct (bool_decide _ && _) eqn:E; cbn; [|split; [by constructor|done]].
  apply andb_prop in E as [E%bool_decide_eq_true _]. split; [|done]. constructor; cbn; auto; [|done].
  rewrite E in He. split; [done|]. by intros ?%He.
Qed.

Lemma sync_loop_inv now req deadline g :
  group_inv g -> group_inv (fst (sync_loop now req deadline g)) /\
  g_Members (fst (sync_loop now req deadline g)) = g_Members g.
Proof.
  intros Hg. destruct (sync_finish_inv req g (g_assignments g) (g_rebalanceDeadline g) Hg) as (_ & Hf & Hm).
  destruct g. unfold sync_loop. by repeat case_match.
Qed.

Lemma SyncGroup_inv gm now req :
  gm_inv gm -> gm_inv (fst (SyncGroup gm now req)) /\ spends gm (fst (SyncGroup gm now req)).
Proof.
  intros Hgm. unfold SyncGroup.
  destruct (getOrCreate_inv gm (sg_Group req) Hgm) as (gm1 & g & -> & Hgm1 & Hg & Hsp & _ & Hl).
  case_bool_decide; [done|]. case_bool_decide; [done|]. destruct (negb _); [done|].
  set (g1 := mkGroup _ _ _ _ _ _ _ _ _ _ _ _).
  destruct (sync_finish_inv req g (put_assignments (Assignments req) (g_assignments g))
              (g_rebalanceDeadline g) Hg) as (Hg1 & Hf & Hm). fold g1 in Hg1, Hf, Hm.
  destruct (sync_loop_inv now req (now + syncWaitTimeout) g1 Hg1) as [Hl1 Hlm].
  assert (forall x, gm_groups gm1 !! sg_Group req = Some g -> group_inv x -> g_Members x = g_Members g ->
            gm_inv (put_group gm1 (sg_Group req) x)) as Hput.
  { intros x Hx Hix Emx. apply put_group_inv; [done..|]. rewrite Emx. intros id Hid. by exists g. }
  destruct (_ && _); [destruct (sync_loop _ _ _ _) eqn:E|destruct (sync_finish _ _) eqn:E];
    cbn in *; (split; [by apply Hput|exact Hsp]).
Qed.

Lemma sync_wake_inv gm now req born deadline :
  gm_inv gm -> gm_inv (fst (sync_wake gm now req born deadline)) /\ spends gm (fst (sync_wake gm now req born deadline)).
Proof.
  intros Hgm. unfold sync_wake, get. destruct (gm_groups gm !! sg_Group req) as [g|] eqn:Eg;
    [|auto using spends_refl].
  destruct (g_born g =? born); [|auto using spends_refl].
  destruct (sync_loop_inv now req deadline g (gmi_groups _ Hgm _ _ Eg)) as [Hi Hm].
  destruct (sync_loop _ _ _ _) as [g' r]. cbn in *. split; [|apply put_spends].
  apply put_group_inv; [done..|]. rewrite Hm. intros id Hid. by exists g.
Qed.

Lemma Heartbeat_inv gm now req :
  gm_inv gm -> gm_inv (fst (Heartbeat gm now req)) /\ spends gm (fst (Heartbeat gm now req)).
Proof.
  intros Hgm. unfold Heartbeat, get. destruct (gm_groups gm !! hb_Group req) as [g|] eqn:Eg;
    [|auto using spends_refl].
  destruct (g_Members g !! hb_MemberID req) as [m|] eqn:Em; [|auto using spends_refl].
  case_bool_decide; [auto using spends_refl|]. destruct (negb _); [auto using spends_refl|].
  pose proof (gmi_groups _ Hgm _ _ Eg) as Hg. split; [|apply put_spends]. apply put_group_inv; [done| |].
  - apply (touch_inv g _ m); [done..|]. exact (gi_ids g Hg _ _ Em).
  - cbn. intros id Hid. exists g. split; [done|].
    destruct (decide (id = hb_MemberID req)) as [->|Hne]; [by exists m|]. by rewrite lookup_insert_ne in Hid.
Qed.

Lemma LeaveGroup_inv gm now req :
  gm_inv gm -> exists gm' r, LeaveGroup gm now req = Ok (gm', r) /\ gm_inv gm' /\ spends gm gm'.
Proof.
  intros Hgm. unfold LeaveGroup, get. destruct (gm_groups gm !! lg_Group req) as [g|] eqn:Eg;
    [|eauto using spends_refl].
  set (ids := if _ <? _ then _ else _). pose proof (remove_some g ids (gmi_groups _ Hgm _ _ Eg)) as Hok.
  set (g1 := remove_ids _ _ _) in *.
  destruct (removal_inv now g1 (bool_decide (g_State g1 = StatePreparingRebalance) && all_joined g1) Hok)
    as (g2 & -> & Hi & Hm).
  eexists _, _. split; [reflexivity|]. split; [|apply put_spends]. apply put_group_inv; [done..|].
  rewrite Hm. cbn. intros id. rewrite lookup_delete_members. destruct (decide _); [by intros []|].
  intros Hid. by exists g.
Qed.

Lemma reap_groups_inv now ds groups acc n :
  (forall name g, (name, g) ∈ groups -> group_inv g) ->
  NoDup groups.*1 ->
  exists acc' k, reap_groups now ds groups acc n = Ok (acc', k) /\
    forall name g', acc' !! name = Some g' ->
      acc !! name = Some g' /\ name ∉ groups.*1 \/
      group_inv g' /\ exists g, (name, g) ∈ groups /\
        forall id, is_Some (g_Members g' !! id) -> is_Some (g_Members g !! id).
Proof.
  revert acc n. induction groups as [|[x g] r IH]; intros acc n Hg Hnd; cbn.
  - eexists _, _. split; [reflexivity|]. intros name g' Hl. left. split; [done|apply not_elem_of_nil].
  - destruct (reap_inv now ds g) as (g' & k & -> & Hg' & Hk); [by eapply Hg; left|].
    cbn in Hnd |- *. apply NoDup_cons in Hnd as [Hx Hnd].
    destruct (IH (<[x := g']> acc) (n + k)) as (acc' & k' & -> & Hl); [|done|].
    { intros name y Hy. eapply Hg. by right. }
    eexists _, _. split; [reflexivity|]. intros name y Hy.
    destruct (Hl _ _ Hy) as [[Ha Hn]|(Hi & z & Hz & Hsub)].
    + destruct (decide (name = x)) as [->|Hne].
      * rewrite lookup_insert_eq in Ha. simplify_eq. right. split; [done|]. exists g. split; [by left|done].
      * rewrite lookup_insert_ne in Ha by done. left. split; [done|]. by apply not_elem_of_cons.
    + right. split; [done|]. exists z. split; [by right|done].
Qed.

Lemma ReapExpiredSessions_inv gm now :
  gm_inv gm -> exists gm' n, ReapExpiredSessions gm now = Ok (gm', n) /\ gm_inv gm' /\ spends gm gm'.
Proof.
  intros Hgm. unfold ReapExpiredSessions.
  destruct (reap_groups_inv now (gm_defaultSession gm) (map_to_list (gm_groups gm)) (gm_groups gm) 0)
    as (acc & k & -> & Hl).
  { intros name g Hin%elem_of_map_to_list. by eapply gmi_groups. }
  { apply NoDup_fst_map_to_list. }
  eexists _, _. split; [reflexivity|]. split; [|split; cbn; lia].
  assert (forall name g', acc !! name = Some g' -> group_inv g' /\ exists g,
    gm_groups gm !! name = Some g /\ forall id, is_Some (g_Members g' !! id) -> is_Some (g_Members g !! id)) as Hall.
  { intros name g' Hg'. destruct (Hl _ _ Hg') as [[Ha Hn]|(Hi & g & Hg & Hsub)].
    - split; [by eapply gmi_groups|]. by exists g'.
    - split; [done|]. exists g. split; [|done]. by apply elem_of_map_to_list. }
  assert (forall name id, owned (with_groups gm acc) name id -> owned gm name id) as Hown.
  { intros name id (g' & Hg' & Hid). destruct (Hall _ _ Hg') as (_ & g & Hg & Hsub). exists g. auto. }
  destruct Hgm as [Hg Hi Hu Hs Hp]. constructor; cbn; [| | |done|done].
  - intros name g' Hg'. by apply (Hall name g').
  - intros n id Ho. by apply (Hi n), Hown.
  - intros n n' id H H'. eapply Hu; eauto.
Qed.

Lemma OffsetCommit_inv gm now req crash :
  gm_inv gm -> gm_inv (fst (OffsetCommit gm now req crash)) /\ spends gm (fst (OffsetCommit gm now req crash)).
Proof.
  intros Hgm. unfold OffsetCommit.
  destruct (getOrCreate_inv gm (Offsets.Group req) Hgm) as (gm1 & g & -> & Hgm1 & Hg & Hsp & _ & Hl).
  destruct (_ =? _); [|done]. destruct (CommitBatch _ _ _ _) as [[os b] o]. cbn.
  split; [by apply with_offsets_inv|exact Hsp].
Qed.

Lemma DeleteGroup_inv gm name fault :
  gm_inv gm -> gm_inv (fst (DeleteGroup gm name fault)) /\ spends gm (fst (DeleteGroup gm name fault)).
Proof.
  intros Hgm. unfold DeleteGroup. destruct (gm_groups gm !! name) as [g|] eqn:Eg; [|auto using spends_refl].
  case_bool_decide; cbn; [|auto using spends_refl]. destruct (OffsetStore.DeleteGroup _ _ _) as [os o]. cbn [fst].
  split; [|split; cbn; lia]. apply with_offsets_inv. destruct Hgm as [Hg Hi Hu Hs Hp].
  assert (forall n id, owned (with_groups gm (delete name (gm_groups gm))) n id -> owned gm n id) as Hown.
  { intros n id (x & Hx & Hid). cbn in Hx. apply lookup_delete_Some in Hx as [_ Hx]. by exists x. }
  constructor; cbn; [| | |done|done].
  - intros n x [_ Hx]%lookup_delete_Some. by eapply Hg.
  - intros n id Ho. by apply (Hi n), Hown.
  - intros n n' id H1 H2. eapply Hu; eauto.
Qed.

(** The records of a commit are all of its group. *)
Lemma commit_records_group req r : r ∈ commit_records req -> cr_Group r = Offsets.Group req.
Proof.
  unfold commit_records. rewrite list_elem_of_join. intros (l & Hr & Hl). revert Hl.
  rewrite list_elem_of_In, in_map_iff. intros (t & <- & _).
  rewrite list_elem_of_In, in_map_iff in Hr. by destruct Hr as (p & <- & _).
Qed.
