(* ===== verification/GroupProps.v ===== *)
(** * Consumer groups: what the coordinator guarantees

    Theorems about whole runs of the coordinator and about the four promises a
    group member relies on: a rebalance that everyone joined completes and all
    learn the same outcome, the leader's assignment reaches its members, stale
    members cannot commit, and what a member committed is what it fetches. *)

From stdpp Require Import prelude list gmap strings pretty.
From Stdlib Require Import ZArith Lia.
From S2P Require Import Prelude GoBinary Wire Frame MsgData MsgAdmin MsgGroup OffsetWal OffsetStore Producer Group GroupOps.
Import Membership.

(** ** Runs *)

(** Everything that can happen to the coordinator, with its time. A waiting
    call may be woken at any time, also by a call that was never made. *)
Inductive event :=
  | EJoin (req : JoinGroupRequest)
  | EJoinWake (req : JoinGroupRequest) (memberID : gostring) (deadline : Z)
  | ESync (req : SyncGroupRequest)
  | ESyncWake (req : SyncGroupRequest) (born deadline : Z)
  | EHeartbeat (req : HeartbeatRequest)
  | ELeave (req : LeaveGroupRequest)
  | EReap
  | ECommit (req : Offsets.OffsetCommitRequest) (crash : option nat)
  | EDelete (name : gostring) (fault : option nat)
  | EReset (group topic : gostring) (partition offset : Z) (crash : option nat)
  | EPrune (retention : Z) (fault : option nat)
  | EProducer (txn : option gostring).

Definition step (gm : GroupManager) (now : Z) (e : event) : outcome GroupManager :=
  match e with
  | EJoin req => let? (gm, _) := JoinGroup gm now req in Ok gm
  | EJoinWake req id d => let? (gm, _) := join_wake gm now req id d in Ok gm
  | ESync req => Ok (fst (SyncGroup gm now req))
  | ESyncWake req b d => Ok (fst (sync_wake gm now req b d))
  | EHeartbeat req => Ok (fst (Heartbeat gm now req))
  | ELeave req => let? (gm, _) := LeaveGroup gm now req in Ok gm
  | EReap => let? (gm, _) := ReapExpiredSessions gm now in Ok gm
  | ECommit req crash => Ok (fst (OffsetCommit gm now req crash))
  | EDelete name fault => Ok (fst (DeleteGroup gm name fault))
  | EReset g t p o crash => Ok (fst (ResetOffsets gm now g t p o crash))
  | EPrune r fault => Ok (fst (PruneOffsets gm now r fault))
  | EProducer txn => let? (gm, _, _) := NextProducerID gm txn in Ok gm
  end.

Fixpoint run (gm : GroupManager) (es : list (Z * event)) : outcome GroupManager :=
  match es with
  | [] => Ok gm
  | (now, e) :: es => let? gm := step gm now e in run gm es
  end.

Lemma step_inv gm now e :
  gm_inv gm -> gm_nextMemberSeq gm < max_seq -> lastPID (gm_producers gm) < max_seq ->
  exists gm', step gm now e = Ok gm' /\ gm_inv gm' /\ spends gm gm'.
Proof.
  intros Hgm Hs Hp. destruct e; cbn [step].
  - destruct (JoinGroup_inv gm now req Hgm Hs) as (gm' & r & -> & H). by exists gm'.
  - destruct (join_wake_inv gm now req memberID deadline Hgm) as (gm' & r & -> & H). by exists gm'.
  - eexists. split; [reflexivity|]. by apply SyncGroup_inv.
  - eexists. split; [reflexivity|]. by apply sync_wake_inv.
  - eexists. split; [reflexivity|]. by apply Heartbeat_inv.
  - destruct (LeaveGroup_inv gm now req Hgm) as (gm' & r & -> & H). by exists gm'.
  - destruct (ReapExpiredSessions_inv gm now Hgm) as (gm' & r & -> & H). by exists gm'.
  - eexists. split; [reflexivity|]. by apply OffsetCommit_inv.
  - eexists. split; [reflexivity|]. by apply DeleteGroup_inv.
  - eexists. split; [reflexivity|]. unfold ResetOffsets. destruct (Commit _ _ _ _ _ _ _) as [[os b] o].
    split; [by apply with_offsets_inv|split; cbn; lia].
  - eexists. split; [reflexivity|]. unfold PruneOffsets. destruct (_ <=? 0); [by split; [|apply spends_refl]|].
    destruct (PruneOlderThan _ _ _) as [os n]. split; [by apply with_offsets_inv|split; cbn; lia].
  - unfold NextProducerID. destruct (Next_inv (gm_producers gm) txn) as (m & pid & ep & -> & Hm & Hl);
      [by apply gmi_producers|done|]. cbn. eexists. split; [reflexivity|].
    split; [|split; cbn; lia]. by destruct Hgm.
Qed.

Lemma run_inv gm es :
  gm_inv gm -> gm_nextMemberSeq gm + zlen es <= max_seq -> lastPID (gm_producers gm) + zlen es <= max_seq ->
  exists gm', run gm es = Ok gm' /\ gm_inv gm'.
Proof.
  revert gm. induction es as [|[now e] es IH]; intros gm Hgm Hs Hp; [by exists gm|].
  unfold zlen in *. cbn [length run] in *.
  destruct (step_inv gm now e Hgm) as (gm1 & -> & Hgm1 & Hsp & Hpp); [lia..|].
  cbn. apply IH; [done|lia..].
Qed.

(** C11: whatever requests, timeouts, expiries and administrative calls reach a
    fresh coordinator, in whatever order and at whatever times, it never
    panics (no missing leader, no index out of range) as long as 64-bit
    sequence numbers last. Afterwards every group is well formed: the join
    order lists exactly the members, the leader of an active group is its
    first member, a group is Empty exactly when it has no members, a group
    preparing a rebalance still misses someone; and no member id was given to
    two members. *)
Theorem coordinator_invariant os nodeID host port session es :
  zlen es < max_seq ->
  exists gm, run (NewGroupManager os nodeID host port session) es = Ok gm /\ gm_inv gm.
Proof. intros Hes. apply run_inv; [apply new_group_manager_inv|cbn; lia..]. Qed.

(** ** Completing a rebalance *)

Lemma complete_eq g l leader :
  head (g_JoinOrder g) = Some l -> g_Members g !! l = Some leader ->
  completeJoinLocked g =
    Ok (mkGroup (g_Name g) (g_born g) StateCompletingRebalance (i32 (g_Generation g + 1)) (mb_ProtocolType leader)
          (chooseProtocol (g_Members g) (g_JoinOrder g) leader) l (g_Members g) (g_JoinOrder g) ∅ ∅ 0).
Proof.
  intros Hh Hl. unfold completeJoinLocked. rewrite bool_decide_eq_false_2.
  - destruct (g_JoinOrder g); simplify_eq/=. by rewrite Hl.
  - intros E. by rewrite E, lookup_empty in Hl.
Qed.

Lemma chooseProtocol_common members order leader c :
  c ∈ mb_Protocols leader -> all_support members order (Name c) = true ->
  all_support members order (chooseProtocol members order leader) = true.
Proof.
  intros Hc Hs. unfold chooseProtocol. destruct (mb_Protocols leader) as [|p ps]; [by apply elem_of_nil in Hc|].
  destruct (List.find _ _) as [c'|] eqn:E; [by apply find_some in E as [_ E]|].
  eapply find_none in E; [|by apply list_elem_of_In]. congruence.
Qed.

(** The leader is told every member, in join order. *)
Lemma fill_members version g id :
  members_ok g ->
  map m_MemberID (Members (fillJoinResponseLocked version g id))
  = if bool_decide (id = g_LeaderID g) then g_JoinOrder g else [].
Proof.
  intros [Ho _ Hi _]. unfold fillJoinResponseLocked. cbn. case_bool_decide; [|done].
  assert (forall x, x ∈ g_JoinOrder g -> is_Some (g_Members g !! x)) as Hin by (intros x; apply Ho).
  clear Ho. induction (g_JoinOrder g) as [|x r IH]; [done|]. cbn.
  destruct (Hin x) as [m Hm]; [by left|]. rewrite Hm. cbn. f_equal; [by apply Hi|].
  apply IH. intros y Hy. apply Hin. by right.
Qed.

(** A member already in the group re-joins. *)
Lemma rejoin_eq gm now req g m :
  gm_groups gm !! jg_Group req = Some g -> g_Members g !! jg_MemberID req = Some m ->
  Protocols req <> [] -> g_State g <> StateStable ->
  JoinGroup gm now req =
    let? (g', r) := join_register gm now req (jg_MemberID req) (g_JoinOrder g) g in
    Ok (put_group gm (jg_Group req) g', r).
Proof.
  intros Hg Hm Hp Hs. unfold JoinGroup, getOrCreate. rewrite Hg, Hm.
  rewrite !bool_decide_eq_false_2 by done. done.
Qed.

Lemma all_joined_true g :
  members_ok g -> (forall id, is_Some (g_Members g !! id) -> id ∈ g_joined g) -> all_joined g = true.
Proof.
  intros Hok Hall. apply bool_decide_eq_true. rewrite size_dom_members. apply subseteq_size.
  intros id Hid. apply Hall, elem_of_dom, Hid.
Qed.

Lemma registered_known gm now req g m :
  g_State g = StatePreparingRebalance -> g_Members g !! jg_MemberID req = Some m ->
  let g1 := registered gm now req (jg_MemberID req) (g_JoinOrder g) g in
  g_Generation g1 = g_Generation g /\ g_JoinOrder g1 = g_JoinOrder g /\
  dom (g_Members g1) = dom (g_Members g) /\ g_joined g1 = {[jg_MemberID req]} ∪ g_joined g.
Proof.
  intros Hst Hm. unfold registered. rewrite bool_decide_eq_true_2 by done. cbn. split_and!; try done.
  rewrite dom_insert_L. apply elem_of_dom_2 in Hm. set_solver.
Qed.

(** What a member is told when the group is no longer preparing. *)
Definition told (g : Group) (resp : JoinGroupResponse) : Prop :=
  jgr_ErrorCode resp = ErrNone /\ jgr_GenerationID resp = g_Generation g /\
  LeaderID resp = g_LeaderID g /\ ProtocolName resp = g_Protocol g /\
  map m_MemberID (Members resp) = if bool_decide (jgr_MemberID resp = g_LeaderID g) then g_JoinOrder g else [].

Lemma fill_told version g id : members_ok g -> told g (fillJoinResponseLocked version g id).
Proof. intros Hok. split_and!; try done. by apply fill_members. Qed.

(** A waiting join that wakes past its deadline while nobody counts as joined. *)
Lemma late_wake_empties gm now req id deadline g :
  gm_inv gm -> gm_groups gm !! jg_Group req = Some g -> is_Some (g_Members g !! id) ->
  g_joined g = ∅ -> deadline <= now ->
  exists gm' resp g', join_wake gm now req id deadline = Ok (gm', Some resp) /\
    jgr_ErrorCode resp = ErrNone /\ gm_groups gm' !! jg_Group req = Some g' /\ g_Members g' = ∅.
Proof.
  intros Hgm Hg Hid Hj Hlt. unfold join_wake, get. rewrite Hg, bool_decide_eq_true_2 by done.
  rewrite (proj2 (Z.ltb_ge _ _) Hlt). cbn [negb].
  destruct (expire_inv g (gmi_groups _ Hgm _ _ Hg)) as (g' & -> & _ & Hk).
  eexists _, _, g'. split; [reflexivity|]. split; [done|]. split; [apply lookup_insert_eq|].
  apply map_empty. intros x. destruct (g_Members g' !! x) eqn:E; [|done].
  destruct (proj1 (Hk x)) as [_ Hx]; [by eexists|]. rewrite Hj in Hx. set_solver.
Qed.

(** C12: when the last missing member re-joins a group that prepares a
    rebalance, the rebalance completes at once: the generation is the next
    one, the first in join order leads, nobody is lost, and if the leader and
    all others have a protocol in common, the chosen protocol is one that
    every member supports. The caller is told the new generation, its leader
    and the protocol, and so is every member that was waiting and wakes before
    its deadline, which changes nothing; the leader is also told all members in
    join order. A member that was waiting and wakes only at its deadline or
    later is answered without an error too, but its call expires the rebalance
    again: as nobody counts as joined any more, every member is removed and the
    group is left empty. *)
Theorem last_join_completes gm now req g :
  gm_inv gm -> gm_groups gm !! jg_Group req = Some g -> g_State g = StatePreparingRebalance ->
  is_Some (g_Members g !! jg_MemberID req) -> Protocols req <> [] ->
  (forall id, is_Some (g_Members g !! id) -> id = jg_MemberID req \/ id ∈ g_joined g) ->
  exists gm' resp g', JoinGroup gm now req = Ok (gm', Answered resp) /\
    gm_groups gm' !! jg_Group req = Some g' /\
    g_State g' = StateCompletingRebalance /\ g_Generation g' = i32 (g_Generation g + 1) /\
    head (g_JoinOrder g) = Some (g_LeaderID g') /\
    g_JoinOrder g' = g_JoinOrder g /\ dom (g_Members g') = dom (g_Members g) /\
    (forall leader c, g_Members g' !! g_LeaderID g' = Some leader -> c ∈ mb_Protocols leader ->
       all_support (g_Members g') (g_JoinOrder g') (Name c) = true ->
       all_support (g_Members g') (g_JoinOrder g') (g_Protocol g') = true) /\
    told g' resp /\
    (forall req' id deadline now', jg_Group req' = jg_Group req -> is_Some (g_Members g !! id) ->
       exists gm'' resp', join_wake gm' now' req' id deadline = Ok (gm'', Some resp') /\
         jgr_ErrorCode resp' = ErrNone /\
         (now' < deadline -> gm'' = gm' /\ told g' resp') /\
         (deadline <= now' -> exists g'', gm_groups gm'' !! jg_Group req = Some g'' /\ g_Members g'' = ∅)).
Proof.
  intros Hgm Hg Hst [m Hm] Hp Hall. pose proof (gmi_groups _ Hgm _ _ Hg) as Hinv.
  rewrite (rejoin_eq gm now req g m) by (try done; by rewrite Hst).
  rewrite join_register_eq. cbv zeta.
  destruct (registered_ok gm now req (jg_MemberID req) (g_JoinOrder g) g (inv_members _ Hinv))
    as (Hok & _ & _ & Hm1); [right; split; [by exists m|done]|].
  destruct (registered_known gm now req g m Hst Hm) as (Egen & Eord & Edom & Ejoin).
  set (g1 := registered gm now req (jg_MemberID req) (g_JoinOrder g) g) in *. clearbody g1.
  rewrite (all_joined_true g1 Hok).
  2: { intros id Hid%elem_of_dom. rewrite Edom in Hid. apply elem_of_dom, Hall in Hid. rewrite Ejoin. set_solver. }
  destruct (g_JoinOrder g1) as [|l order] eqn:El.
  { destruct Hm1 as [x Hx]. exfalso. eapply not_elem_of_nil. rewrite <- El.
    apply (mo_order _ Hok). by eexists. }
  destruct (proj1 (mo_order _ Hok l)) as [leader Hl]; [rewrite El; by left|].
  destruct (complete_inv g1 Hok) as (g' & Hc & Hg' & _ & Em & Eo). rewrite Hc. cbn [obind].
  rewrite (complete_eq g1 l leader) in Hc by (by rewrite ?El). injection Hc as Hc.
  assert (gm_groups (put_group gm (jg_Group req) g') !! jg_Group req = Some g') as Hl'.
  { cbn. apply lookup_insert_eq. }
  eexists _, _, g'. split; [reflexivity|]. split; [done|].
  do 5 (split; [rewrite <- Hc; cbn; first [congruence|by rewrite <- Eord]|]). split; [|split].
  - rewrite <- Hc. cbn. intros ld c Hld Hc1 Hc2. rewrite Hl in Hld. simplify_eq.
    by eapply chooseProtocol_common.
  - by apply fill_told, inv_members.
  - intros req' id deadline now' Ereq Hid.
    assert (is_Some (g_Members g' !! id)) as Hid' by (rewrite Em; apply elem_of_dom; rewrite Edom; by apply elem_of_dom).
    destruct (Z.lt_ge_cases now' deadline) as [Hlt|Hge].
    + unfold join_wake, get. rewrite Ereq, Hl', bool_decide_eq_true_2 by done. cbn [negb].
      rewrite (proj2 (Z.ltb_lt _ _) Hlt). cbn [negb]. rewrite bool_decide_eq_false_2 by (by rewrite <- Hc).
      eexists _, _. split; [reflexivity|]. split; [done|]. split; [|lia].
      intros _. split; [done|]. by apply fill_told, inv_members.
    + assert (gm_inv (put_group gm (jg_Group req) g')) as Hgm'.
      { apply put_group_inv; [done..|]. intros x Hx. rewrite Em in Hx. apply elem_of_dom in Hx. rewrite Edom in Hx.
        exists g. by apply elem_of_dom in Hx. }
      rewrite <- Ereq in Hl', Hgm' |- *.
      destruct (late_wake_empties _ now' req' id deadline g' Hgm' Hl') as (gm'' & r & g'' & Hw & He & Hg'' & Hem);
        [done|by rewrite <- Hc|done|].
      exists gm'', r. split; [done|]. split; [done|]. split; [lia|]. by exists g''.
Qed.

(** ** Distributing the assignment *)

Lemma put_put gm name g : gm_groups gm !! name = Some g -> put_group gm name g = gm.
Proof.
  intros H. destruct gm. unfold put_group, with_groups. cbn in *. f_equal. by apply insert_id.
Qed.

Lemma put_assignments_app l l' m :
  put_assignments (l ++ l') m = put_assignments l' (put_assignments l m).
Proof. apply fold_left_app. Qed.

Lemma put_assignments_ne l m id :
  id ∉ map a_MemberID l -> put_assignments l m !! id = m !! id.
Proof.
  revert m. induction l as [|a l IH]; intros m Hid; [done|]. cbn in Hid |- *.
  apply not_elem_of_cons in Hid as [Hne Hid]. rewrite IH by done. by rewrite lookup_insert_ne.
Qed.

Lemma put_assignments_last pre x post m :
  a_MemberID x ∉ map a_MemberID post ->
  put_assignments (pre ++ x :: post) m !! a_MemberID x = Some (a_Assignment x).
Proof.
  intros Hx. rewrite put_assignments_app. cbn. rewrite put_assignments_ne by done.
  apply lookup_insert_eq.
Qed.

Lemma leader_is_member g :
  group_inv g -> g_State g = StateCompletingRebalance \/ g_State g = StateStable ->
  is_Some (g_Members g !! g_LeaderID g).
Proof.
  intros Hg Hs. destruct (gi_active _ Hg Hs) as [_ Hh]. apply (gi_order _ Hg).
  destruct (g_JoinOrder g); simplify_eq/=. by left.
Qed.

(** A settled group answers from its assignments. *)
Lemma sync_finish_stable req g :
  g_State g = StateStable ->
  sync_finish req g = (g, SyncAnswered (sync_answer req ErrNone (default None (g_assignments g !! sg_MemberID req)))).
Proof. intros Hs. unfold sync_finish. by rewrite Hs. Qed.

(** When the leader of the current generation syncs, the group becomes
    stable, and the assignment it sends for a member (the last one, if it
    sends several) is what that member gets: in the leader's own answer, in
    the answer of a follower that was already waiting, and in the answer of a
    follower that syncs later in this generation. *)
Theorem sync_delivers gm now req g pre x post :
  gm_inv gm -> gm_groups gm !! sg_Group req = Some g -> g_State g = StateCompletingRebalance ->
  sg_MemberID req = g_LeaderID g -> sg_GenerationID req = g_Generation g ->
  Assignments req = pre ++ x :: post -> a_MemberID x ∉ map a_MemberID post ->
  exists gm' resp g', SyncGroup gm now req = (gm', SyncAnswered resp) /\
    gm_groups gm' !! sg_Group req = Some g' /\ g_State g' = StateStable /\
    sgr_ErrorCode resp = ErrNone /\
    (a_MemberID x = sg_MemberID req -> Assignment resp = a_Assignment x) /\
    (forall req' now', sg_Group req' = sg_Group req -> sg_MemberID req' = a_MemberID x ->
       (forall deadline, sync_wake gm' now' req' (g_born g) deadline
                         = (gm', SyncAnswered (sync_answer req' ErrNone (a_Assignment x)))) /\
       (is_Some (g_Members g !! a_MemberID x) -> sg_GenerationID req' = g_Generation g ->
        Assignments req' = [] ->
        SyncGroup gm' now' req' = (gm', SyncAnswered (sync_answer req' ErrNone (a_Assignment x))))).
Proof.
  intros Hgm Hg Hst Hlead Hgen Has Hx. pose proof (gmi_groups _ Hgm _ _ Hg) as Hinv.
  destruct (leader_is_member g Hinv (or_introl Hst)) as [m Hm].
  set (g' := mkGroup (g_Name g) (g_born g) StateStable (g_Generation g) (g_ProtocolType g) (g_Protocol g)
               (g_LeaderID g) (g_Members g) (g_JoinOrder g)
               (put_assignments (Assignments req) (g_assignments g)) (g_joined g)
               (g_rebalanceDeadline g)).
  assert (g_assignments g' !! a_MemberID x = Some (a_Assignment x)) as Hax.
  { cbn. rewrite Has. by apply put_assignments_last. }
  set (gm' := put_group gm (sg_Group req) g').
  assert (gm_groups gm' !! sg_Group req = Some g') as Hl by (cbn; apply lookup_insert_eq).
  exists gm', (sync_answer req ErrNone (default None (g_assignments g' !! sg_MemberID req))), g'.
  split.
  { unfold SyncGroup, getOrCreate. rewrite Hg, Hlead, Hm, Hst, Hgen, Z.eqb_refl.
    rewrite !(bool_decide_eq_false_2 (_ = _)) by done. cbn.
    rewrite (bool_decide_eq_true_2 (g_LeaderID g = g_LeaderID g)) by done. rewrite andb_false_r.
    unfold sync_finish. cbn. rewrite Hgen, Z.eqb_refl, Hlead. done. }
  split; [done|]. split; [done|]. split; [done|]. split; [intros <-; cbn [Assignment sync_answer]; by rewrite Hax|].
  intros req' now' Eg Em. split.
  - intros deadline. unfold sync_wake, get. rewrite Eg, Hl, Z.eqb_refl. unfold sync_loop.
    rewrite Em, Hax, bool_decide_eq_true_2 by (by eexists).
    rewrite sync_finish_stable, Em, Hax by done. by rewrite put_put.
  - intros [m' Hm'] Eg' Ea. unfold SyncGroup, getOrCreate. rewrite Eg, Hl, Em, Eg', Ea.
    change (g_Generation g') with (g_Generation g). change (g_Members g') with (g_Members g).
    rewrite Hm', Z.eqb_refl, !(bool_decide_eq_false_2 (_ = _)) by done. cbn [negb put_assignments fold_left].
    change (mkGroup _ _ _ _ _ _ _ _ _ _ _ _) with g'.
    rewrite (bool_decide_eq_false_2 (g_assignments g' !! _ = None)) by (by rewrite Hax). cbn [andb].
    rewrite sync_finish_stable, Em, Hax by done. by rewrite put_put.
Qed.

(** ** Committing offsets *)

(** Simple consumers (negative generation) are let through; a member must be
    of the current generation of a group that is not rebalancing. *)
Definition may_commit (g : Group) (req : Offsets.OffsetCommitRequest) : Prop :=
  Offsets.Generation req < 0 \/
  g_State g <> StatePreparingRebalance /\ is_Some (g_Members g !! Offsets.MemberID req) /\
  Offsets.Generation req = g_Generation g.

Lemma fence_spec g req : fence g req = ErrNone <-> may_commit g req.
Proof.
  unfold fence, may_commit. destruct (0 <=? Offsets.Generation req) eqn:E0; [|split; [left; lia|done]].
  case_bool_decide as Hs; [split; [done|intros [?|[? _]]; [lia|done]]|].
  case_bool_decide as Hm.
  { split; [done|]. rewrite Hm. intros [?|(_ & [? ?] & _)]; [lia|done]. }
  destruct (_ =? _) eqn:Eg; cbn; split; try done.
  - right. split; [done|]. split; [|lia]. by destruct (g_Members g !! _); [eexists|].
  - intros [?|(_ & _ & ?)]; lia.
Qed.

Definition codes (resp : Offsets.OffsetCommitResponse) : list Z :=
  mjoin (map (fun t => map Offsets.r_ErrorCode (Offsets.r_Partitions t)) (Offsets.r_Topics resp)).

Lemma codes_answer req code c : c ∈ codes (commit_answer req code) -> c = code.
Proof.
  unfold codes, commit_answer. cbn. rewrite list_elem_of_join. intros (l & Hc & Hl). revert Hl.
  rewrite map_map, list_elem_of_In, in_map_iff. intros (t & <- & _). cbn in Hc.
  rewrite map_map, list_elem_of_In, in_map_iff in Hc. by destruct Hc as (p & <- & _).
Qed.

Definition rec_key (r : OffsetCommitRecord) : gostring * gostring * Z :=
  (cr_Group r, cr_Topic r, cr_Partition r).

Lemma commit_memory_Fetch_ne s now records g t p :
  (g, t, p) ∉ map rec_key records ->
  Fetch (os_offsets (fst (commit_memory s now records))) g t p = Fetch (os_offsets s) g t p.
Proof.
  unfold commit_memory. cbn [fst os_offsets]. generalize (os_offsets s).
  induction records as [|r records IH]; intros m Hn; [done|]. cbn in Hn |- *.
  apply not_elem_of_cons in Hn as [Hne Hn]. rewrite IH by done. by apply Fetch_put_ne.
Qed.

Lemma commit_memory_Fetch s now records r :
  NoDup (map rec_key records) -> r ∈ records ->
  Fetch (os_offsets (fst (commit_memory s now records))) (cr_Group r) (cr_Topic r) (cr_Partition r)
  = Some (stamp now (cr_Offset r)).
Proof.
  intros Hnd Hin. apply list_elem_of_split in Hin as (l1 & l2 & ->).
  rewrite map_app in Hnd. cbn [map] in Hnd. apply NoDup_app in Hnd as (_ & _ & [Hr _]%NoDup_cons).
  unfold commit_memory. cbn [fst os_offsets]. rewrite fold_left_app. cbn [fold_left].
  set (m := put_offset _ _ _ _ _).
  pose proof (commit_memory_Fetch_ne (mkStore m None 0 false false None) now l2
                (cr_Group r) (cr_Topic r) (cr_Partition r) Hr) as H.
  unfold commit_memory in H. cbn [fst os_offsets] in H. rewrite H. apply Fetch_put.
Qed.

(** What a batch commit does to the memory, whether or not the log took it. *)
Lemma CommitBatch_memory s now records crash :
  exists s' b o, CommitBatch s now records crash = (s', b, o) /\
    os_offsets s' = os_offsets (fst (commit_memory s now records)) /\
    (crash = None -> o = Ok tt).
Proof.
  destruct records as [|r records]; [by exists s, false, (Ok tt)|].
  unfold CommitBatch. destruct (commit_memory s now (r :: records)) as [s1 recs] eqn:E.
  unfold commit_log, appendAndMaybeCompact, appendBatch.
  destruct (os_wal s1), recs, crash; (eexists _, _, _; split; [reflexivity|done]).
Qed.

(** C13: an offset commit is refused, with one error for every partition and
    the store untouched, unless it comes from a member of the current
    generation of a group that is not preparing a rebalance, or from a
    consumer outside group management. An accepted commit (each partition
    named once) is what a later OffsetFetch of any of its partitions returns,
    with offset, leader epoch and metadata; other partitions are unaffected,
    and the answer carries no error when the log was written. *)
Theorem commit_fencing gm now req crash gm' resp :
  OffsetCommit gm now req crash = (gm', resp) ->
  let g := snd (getOrCreate gm (Offsets.Group req)) in
  (~ may_commit g req -> gm_offsets gm' = gm_offsets gm /\
     fence g req <> ErrNone /\ forall c, c ∈ codes resp -> c = fence g req) /\
  (may_commit g req -> NoDup (map rec_key (commit_records req)) ->
     (forall r v, r ∈ commit_records req ->
        OffsetFetch gm' (Offsets.mkOffsetFetchRequest v (Offsets.Group req)
          (Some [Offsets.mkOffsetFetchRequestTopic (cr_Topic r) (Some [cr_Partition r])]))
        = Offsets.mkOffsetFetchResponse v 0
            [Offsets.mkOffsetFetchResponseTopic (cr_Topic r)
               [Offsets.mkOffsetFetchResponsePartition (cr_Partition r) (co_Offset (cr_Offset r))
                  (co_LeaderEpoch (cr_Offset r)) (co_Metadata (cr_Offset r)) ErrNone]] ErrNone) /\
     (forall name t p, (name, t, p) ∉ map rec_key (commit_records req) ->
        Fetch (os_offsets (gm_offsets gm')) name t p = Fetch (os_offsets (gm_offsets gm)) name t p) /\
     (crash = None -> forall c, c ∈ codes resp -> c = ErrNone)).
Proof.
  unfold OffsetCommit. destruct (getOrCreate gm (Offsets.Group req)) as [gm1 g] eqn:Eg. cbn [snd].
  assert (gm_offsets gm1 = gm_offsets gm) as Eo.
  { unfold getOrCreate in Eg. by destruct (gm_groups gm !! _); simplify_eq/=. }
  intros Heq. split.
  - rewrite <- fence_spec. intros Hf. rewrite (proj2 (Z.eqb_neq _ _) Hf) in Heq. simplify_eq.
    split; [done|]. split; [done|]. apply codes_answer.
  - intros Hf%fence_spec Hnd. rewrite Hf, Z.eqb_refl, Eo in Heq.
    destruct (CommitBatch_memory (gm_offsets gm) now (commit_records req) crash) as (s' & b & o & E & Em & Hok).
    rewrite E in Heq. simplify_eq. split; [|split; cbn].
    + intros r v Hr. unfold OffsetFetch. cbn. unfold fetch_partition. rewrite Em.
      rewrite <- (commit_records_group req r Hr), commit_memory_Fetch by done.
      unfold stamp. by destruct (_ =? _).
    + intros name t p Hn. rewrite Em. by apply commit_memory_Fetch_ne.
    + intros Hc c. rewrite (Hok Hc). apply codes_answer.
Qed.

(** ** Timeouts and departures *)

(** A JoinGroup call that was waiting and wakes past its deadline after the
    rebalance was already completed (another waiting call timed out first)
    expires the rebalance a second time. By then nobody counts as joined, so
    every member of the active group is removed; the caller is answered
    without an error. *)
Theorem second_timeout_empties_group gm now req id deadline g :
  gm_inv gm -> gm_groups gm !! jg_Group req = Some g -> is_Some (g_Members g !! id) ->
  g_State g = StateCompletingRebalance \/ g_State g = StateStable -> deadline <= now ->
  exists gm' resp g', join_wake gm now req id deadline = Ok (gm', Some resp) /\
    jgr_ErrorCode resp = ErrNone /\ gm_groups gm' !! jg_Group req = Some g' /\ g_Members g' = ∅.
Proof.
  intros Hgm Hg Hid Hs Hlt. eapply late_wake_empties; [done..| |done].
  by apply (gi_active _ (gmi_groups _ Hgm _ _ Hg)).
Qed.

(** A member that leaves while others wait for a rebalance (and not all of
    the rest have joined yet) makes the group forget who had joined: if a
    waiting member reaches its deadline before it joins again, everyone is
    removed, those who joined in time included. *)
Theorem leave_forgets_joined gm now req g :
  gm_inv gm -> gm_groups gm !! lg_Group req = Some g -> g_State g = StatePreparingRebalance ->
  lg_Version req < 3 ->
  (exists id, id <> lg_MemberID req /\ is_Some (g_Members g !! id) /\ id ∉ g_joined g) ->
  exists gm' resp g', LeaveGroup gm now req = Ok (gm', resp) /\
    gm_groups gm' !! lg_Group req = Some g' /\ g_joined g' = ∅ /\
    g_Members g' = delete (lg_MemberID req) (g_Members g) /\
    forall jreq id now' deadline, jg_Group jreq = lg_Group req -> id ∈ g_joined g ->
      id <> lg_MemberID req -> deadline <= now' ->
      exists gm'' resp' g'', join_wake gm' now' jreq id deadline = Ok (gm'', Some resp') /\
        gm_groups gm'' !! lg_Group req = Some g'' /\ g_Members g'' = ∅.
Proof.
  intros Hgm Hg Hs Hv (w & Hw & Hwm & Hwj). pose proof (gmi_groups _ Hgm _ _ Hg) as Hinv.
  destruct (LeaveGroup_inv gm now req Hgm) as (gm' & resp & Heq & Hgm' & _).
  assert (exists g', gm_groups gm' !! lg_Group req = Some g' /\ g_joined g' = ∅ /\
    g_Members g' = delete (lg_MemberID req) (g_Members g)) as (g' & Hg' & Hj & Hm).
  { revert Heq. unfold LeaveGroup, get. rewrite Hg, (proj2 (Z.ltb_lt _ _) Hv).
    pose proof (remove_some g [lg_MemberID req] Hinv) as Hok. set (g1 := remove_ids _ _ _) in *.
    rewrite bool_decide_eq_false_2.
    2: { intros E%(f_equal (.!! w)). cbn in E. rewrite lookup_delete_ne, lookup_empty in E by done.
         rewrite E in Hwm. by destruct Hwm. }
    assert (all_joined g1 = false) as ->.
    { apply bool_decide_eq_false. rewrite size_dom_members. intros Hsz.
      assert (g_joined g1 ⊆ dom (g_Members g1)) as Hsub by apply (mo_joined _ Hok).
      apply (set_subseteq_size_eq _ _ Hsub) in Hsz. assert (w ∈ g_joined g1) as H.
      { rewrite Hsz. apply elem_of_dom. cbn. by rewrite lookup_delete_ne. }
      cbn in H. set_solver. }
    rewrite andb_false_r. cbn. intros [= <- _]. eexists. split; [apply lookup_insert_eq|]. done. }
  exists gm', resp, g'. split; [done|]. split; [done|]. split; [done|]. split; [done|].
  intros jreq id now' deadline Eg Hid Hne Hlt. rewrite <- Eg in Hg' |- *.
  destruct (late_wake_empties gm' now' jreq id deadline g' Hgm' Hg') as (gm'' & r' & g'' & ? & _ & ? & ?);
    [|done|done|by exists gm'', r', g''].
  rewrite Hm, lookup_delete_ne by done. apply elem_of_dom. by apply (gi_joined _ Hinv).
Qed.

(** OffsetCommit v0 carries neither a generation nor a member id; the
    decoder leaves 0 and the empty id, which no member ever has. Every v0
    commit is therefore refused and stores nothing, although v0 is among the
    versions the broker accepts. *)
Theorem version0_commit_refused gm now body req crash :
  gm_inv gm -> decode (Offsets.DecodeOffsetCommitRequest 0) body = Ok req ->
  let '(gm', resp) := OffsetCommit gm now req crash in
  gm_offsets gm' = gm_offsets gm /\
  forall c, c ∈ codes resp -> c = ErrUnknownMemberID \/ c = ErrRebalanceInProgress.
Proof.
  intros Hgm Hdec.
  assert (Offsets.Generation req = 0 /\ Offsets.MemberID req = []) as [Hgen Hmem].
  { revert Hdec. unfold decode, Offsets.DecodeOffsetCommitRequest, bind, ret.
    destruct (ReadString (NewReader body)) as [[name r]| |]; [|done|done]. cbv [read_if Z.leb Z.eqb Z.compare ret].
    cbn [andb]. destruct (read_array (Offsets.decode_commit_topic 0) r) as [[ts r']| |]; [|done|done].
    by intros [= <-]. }
  unfold OffsetCommit.
  destruct (getOrCreate_inv gm (Offsets.Group req) Hgm) as (gm1 & g & Eg & Hgm1 & Hg & _ & _ & Hl).
  assert (gm_offsets gm1 = gm_offsets gm) as Eo.
  { unfold getOrCreate in Eg. by destruct (gm_groups gm !! _); simplify_eq/=. }
  assert (g_Members g !! [] = None) as Hno.
  { destruct (g_Members g !! []) eqn:E; [|done]. exfalso.
    destruct (gmi_ids _ Hgm1 (Offsets.Group req) []) as (k & _ & Hk); [|by apply (member_id_not_empty k)].
    exists g. split; [done|by eexists]. }
  rewrite Eg. unfold fence. rewrite Hgen, Hmem, Hno. cbn [Z.leb Z.compare].
  rewrite (bool_decide_eq_true_2 (None = None)) by done.
  case_bool_decide; cbn; (split; [done|]); intros c Hc%codes_answer; auto.
Qed.

(** ** Runs of two members *)

Definition demo_group : gostring := [x67].

Definition demo_join (memberID : gostring) : JoinGroupRequest :=
  mkJoinGroupRequest 5 demo_group 30000 5000 memberID None [x63]
    [mkJoinGroupRequestProtocol [x72] (Some [])].

Definition demo_start : GroupManager := NewGroupManager new_store 1 [] 9092 30000.

Definition demo_run (es : list (Z * event)) : GroupManager :=
  match run demo_start es with Ok gm => gm | _ => demo_start end.

Definition demo_g (es : list (Z * event)) : Group :=
  default (new_group [] 0) (gm_groups (demo_run es) !! demo_group).

Lemma demo_run_inv es : zlen es < max_seq -> gm_inv (demo_run es).
Proof.
  intros H. unfold demo_run. pose proof (new_group_manager_inv new_store 1 [] 9092 30000) as Hi.
  destruct (run_inv demo_start es Hi) as (gm & -> & Hgm); [cbn; lia..|done].
Qed.

(** One member settled, a second one waiting for it to join again; then the
    first has joined, and has sent the assignment. *)
Definition demo_waiting : list (Z * event) := [(1, EJoin (demo_join [])); (2, EJoin (demo_join []))].
Definition demo_joined : list (Z * event) := demo_waiting ++ [(3, EJoin (demo_join (member_id 1)))].
Definition demo_sync : SyncGroupRequest :=
  mkSyncGroupRequest 3 demo_group 2 (member_id 1) None
    [mkSyncGroupRequestAssignment (member_id 1) (Some [x01]);
     mkSyncGroupRequestAssignment (member_id 2) (Some [x02])].

Lemma coordinator_invariant_witness :
  exists gm, run demo_start (demo_joined ++ [(4, ESync demo_sync); (5, EReap)]) = Ok gm /\ gm_inv gm.
Proof. refine (coordinator_invariant new_store 1 [] 9092 30000 _ _). reflexivity. Defined.

Lemma demo_waiting_members :
  map_Forall (fun id _ => id = member_id 1 \/ id ∈ g_joined (demo_g demo_waiting))
    (g_Members (demo_g demo_waiting)).
Proof. decide_closed. Qed.

Lemma last_join_completes_witness :
  exists gm' resp, JoinGroup (demo_run demo_waiting) 3 (demo_join (member_id 1)) = Ok (gm', Answered resp) /\
    jgr_GenerationID resp = 2 /\ LeaderID resp = member_id 1 /\
    map m_MemberID (Members resp) = [member_id 1; member_id 2].
Proof.
  destruct (last_join_completes (demo_run demo_waiting) 3 (demo_join (member_id 1)) (demo_g demo_waiting))
    as (gm' & resp & g' & Heq & _).
  - by apply demo_run_inv.
  - vm_compute; reflexivity.
  - vm_compute; reflexivity.
  - vm_compute. by eexists.
  - done.
  - intros id [m Hm]. exact (demo_waiting_members id m Hm).
  - exists gm', resp. split; [done|]. vm_compute in Heq. injection Heq as _ <-. by vm_compute.
Defined.

Lemma sync_delivers_witness :
  exists gm' resp, SyncGroup (demo_run demo_joined) 4 demo_sync = (gm', SyncAnswered resp) /\
    Assignment resp = Some [x01].
Proof.
  destruct (sync_delivers (demo_run demo_joined) 4 demo_sync (demo_g demo_joined) []
              (mkSyncGroupRequestAssignment (member_id 1) (Some [x01]))
              [mkSyncGroupRequestAssignment (member_id 2) (Some [x02])])
    as (gm' & resp & g' & Heq & _ & _ & _ & Ha & _).
  - by apply demo_run_inv.
  - vm_compute; reflexivity.
  - vm_compute; reflexivity.
  - vm_compute; reflexivity.
  - vm_compute; reflexivity.
  - reflexivity.
  - decide_closed.
  - exists gm', resp. split; [done|]. by apply Ha.
Defined.

Definition demo_stable : list (Z * event) := demo_joined ++ [(4, ESync demo_sync)].

Definition demo_commit_req : Offsets.OffsetCommitRequest :=
  Offsets.mkOffsetCommitRequest 7 demo_group 2 (member_id 1) None
    [Offsets.mkOffsetCommitRequestTopic [x74] [Offsets.mkOffsetCommitRequestPartition 0 41 3 None]].

Lemma commit_fencing_witness :
  let '(gm', _) := OffsetCommit (demo_run demo_stable) 5 demo_commit_req None in
  OffsetFetch gm' (Offsets.mkOffsetFetchRequest 5 demo_group
    (Some [Offsets.mkOffsetFetchRequestTopic [x74] (Some [0])]))
  = Offsets.mkOffsetFetchResponse 5 0
      [Offsets.mkOffsetFetchResponseTopic [x74]
         [Offsets.mkOffsetFetchResponsePartition 0 41 3 None ErrNone]] ErrNone.
Proof.
  destruct (OffsetCommit (demo_run demo_stable) 5 demo_commit_req None) as [gm' resp] eqn:E.
  destruct (commit_fencing (demo_run demo_stable) 5 demo_commit_req None gm' resp E) as [_ H].
  destruct H as [H _].
  - right. split_and!; [vm_compute; discriminate|vm_compute; by eexists|vm_compute; reflexivity].
  - decide_closed.
  - exact (H (mkCommit demo_group [x74] 0 (mkCommitted 41 None 3 0)) 5 (list_elem_of_here _ _)).
Defined.

(** Two members wait for a third that does not come. *)
Definition demo_three : list (Z * event) :=
  [(1, EJoin (demo_join [])); (2, EJoin (demo_join [])); (3, EJoin (demo_join []))].
Definition demo_deadline : Z := g_rebalanceDeadline (demo_g demo_three).
Definition demo_expired : list (Z * event) :=
  demo_three ++ [(demo_deadline, EJoinWake (demo_join []) (member_id 2) demo_deadline)].

Lemma second_timeout_empties_group_witness :
  size (g_Members (demo_g demo_expired)) = 2%nat /\
  exists gm' resp g', join_wake (demo_run demo_expired) demo_deadline (demo_join []) (member_id 3) demo_deadline
    = Ok (gm', Some resp) /\ jgr_ErrorCode resp = ErrNone /\
    gm_groups gm' !! demo_group = Some g' /\ g_Members g' = ∅.
Proof.
  split; [vm_compute; reflexivity|].
  refine (second_timeout_empties_group (demo_run demo_expired) demo_deadline (demo_join []) (member_id 3)
            demo_deadline (demo_g demo_expired) _ _ _ _ _).
  - by apply demo_run_inv.
  - vm_compute; reflexivity.
  - vm_compute. by eexists.
  - left. vm_compute; reflexivity.
  - done.
Defined.

Definition demo_leave : LeaveGroupRequest := mkLeaveGroupRequest 0 demo_group (member_id 2) [].

Lemma leave_forgets_joined_witness :
  member_id 3 ∈ g_joined (demo_g demo_three) /\
  exists gm' resp g', LeaveGroup (demo_run demo_three) 4 demo_leave = Ok (gm', resp) /\
    gm_groups gm' !! demo_group = Some g' /\ g_joined g' = ∅.
Proof.
  split; [decide_closed|].
  destruct (leave_forgets_joined (demo_run demo_three) 4 demo_leave (demo_g demo_three))
    as (gm' & resp & g' & Heq & Hg & Hj & _).
  - by apply demo_run_inv.
  - vm_compute; reflexivity.
  - vm_compute; reflexivity.
  - done.
  - exists (member_id 1). split; [by intros ?%member_id_inj|]. split; [vm_compute; by eexists|decide_closed].
  - exists gm', resp, g'. exact (conj Heq (conj Hg Hj)).
Defined.

(** Group g, topic t, partition 0, offset 41, no metadata. *)
Definition demo_v0_body : list byte :=
  [x00; x01; x67; x00; x00; x00; x01; x00; x01; x74; x00; x00; x00; x01;
   x00; x00; x00; x00; x00; x00; x00; x00; x00; x00; x00; x29; xff; xff].
Definition demo_v0 : Offsets.OffsetCommitRequest :=
  Offsets.mkOffsetCommitRequest 0 demo_group 0 [] None
    [Offsets.mkOffsetCommitRequestTopic [x74] [Offsets.mkOffsetCommitRequestPartition 0 41 0 None]].

Lemma version0_commit_refused_witness :
  decode (Offsets.DecodeOffsetCommitRequest 0) demo_v0_body = Ok demo_v0 /\
  let '(gm', resp) := OffsetCommit demo_start 1 demo_v0 None in
  gm_offsets gm' = gm_offsets demo_start /\
  forall c, c ∈ codes resp -> c = ErrUnknownMemberID \/ c = ErrRebalanceInProgress.
Proof.
  split; [vm_compute; reflexivity|].
  refine (version0_commit_refused demo_start 1 demo_v0_body demo_v0 None _ _).
  - apply new_group_manager_inv.
  - vm_compute; reflexivity.
Defined.
