(* ===== verification/Broker.v ===== *)
(** * The request handlers (internal/handler/handler.go, dispatch.go)

    The broker's state is the topic store and the group coordinator; a handler
    takes the body of a request and gives the new state and the body of the
    answer. The interface [Authorizer] of Authz.v is a class here too: every
    theorem holds for each of its implementations. A handler that waits (a fetch
    for data, a join and a sync for the group) is two definitions, as in Group.v:
    what it does until it answers or waits, and what it does when woken. Times
    are nanoseconds. *)

From stdpp Require Import prelude list gmap strings.
From Stdlib Require Import ZArith Lia.
From S2P Require Import Prelude GoStrings GoBinary Wire RecordBatch Lz4 Compression Index Segment SegmentOps Partition PartitionOps.
From S2P Require Import Compaction Idempotence Store Authz Frame MsgData MsgAdmin MsgGroup MsgGroupAdmin OffsetWal OffsetStore Producer Group.

Record Config := mkConfig {
  cfg_ClusterID : gostring;
  cfg_AutoCreate : bool;
  cfg_DefaultPartitions : Z;
  cfg_FlushPolicy : gostring;
  cfg_SyncOnAcksAll : bool }.

Definition FlushPolicyRequest : gostring := str "request".

Record RequestContext := mkContext {
  ctx_Principal : gostring; ctx_ListenerPort : Z; ctx_ClientID : gostring; ctx_ClientAddr : gostring }.

Record Handler := mkHandler {
  h_cfg : Config;
  h_nodeID : Z;
  h_advertisedHost : gostring;
  h_advertisedPort : Z;
  h_advertisedByBind : gmap Z (gostring * Z) }.

Definition SetAdvertisedForPort (h : Handler) (bindPort : Z) (host : gostring) (port : Z) : Handler :=
  mkHandler (h_cfg h) (h_nodeID h) (h_advertisedHost h) (h_advertisedPort h)
    (<[bindPort := (host, port)]> (h_advertisedByBind h)).

Record Broker := mkBroker { br_store : Store; br_coord : GroupManager }.

(** What a handler does: answer, fail (the connection is closed), crash, or
    wait. *)
Inductive reply :=
  | Reply (o : outcome (list byte))
  | WaitFetch (req : Fetch.FetchRequest) (pending : list (gostring * Z * Z)) (deadline : Z)
  | WaitJoin (req : Membership.JoinGroupRequest) (memberID : gostring) (deadline : Z)
  | WaitSync (req : Membership.SyncGroupRequest) (born deadline : Z).

(** A loop over [xs] that changes a state and collects results; a panic stops
    it. *)
Fixpoint map_state {S A B} (f : S -> A -> S * outcome B) (s : S) (xs : list A)
  : S * outcome (list B) :=
  match xs with
  | [] => (s, Ok [])
  | x :: xs =>
      match f s x with
      | (s, Ok y) => let '(s, o) := map_state f s xs in (s, let? ys := o in Ok (y :: ys))
      | (s, Err e) => (s, Err e)
      | (s, Panic) => (s, Panic)
      end
  end.

(** ** Batches the broker accepts *)

(** The loop of [rebuildBatch] over the decompressed records. *)
Fixpoint rebuild_loop (count : nat) (rest : list byte) : outcome (list Record_) :=
  match count with
  | O => Ok []
  | S k =>
      if zlen rest =? 0 then Ok [] else
      let '(length, n) := Varint rest in
      if (n <=? 0) || (length <? 0) || (zlen rest <? i64 (n + length)) then Ok [] else
      let? body := slice rest 0 (i64 (n + length)) in
      match DecodeRecordBytes body with
      | Ok (rec, _) =>
          let? recs := rebuild_loop k (drop (Z.to_nat (i64 (n + length))) rest) in
          Ok (rec :: recs)
      | Err _ => Ok []
      | Panic => Panic
      end
  end.

(** [make([]protocol.Record, 0, count)] panics for a negative count. *)
Definition rebuildBatch (raw records : list byte) : outcome (list byte) :=
  if zlen records <? 4 then Ok raw else
  let count := i32 (uint_at raw 57 61) in
  if count <? 0 then Panic else
  let? decoded := rebuild_loop (Z.to_nat count) records in
  if bool_decide (decoded = []) then Ok raw else
  match EncodeRecordBatch
          (mkBatch 0 (i32 (uint_at raw 12 16)) 0 0 (Z.ldiff (i16 (uint_at raw 21 23)) 7)
             (i32 (uint_at raw 23 27)) (i64 (uint_at raw 27 35)) (i64 (uint_at raw 35 43))
             (i64 (uint_at raw 43 51)) (i16 (uint_at raw 51 53)) (i32 (uint_at raw 53 57)) decoded) with
  | Ok out => Ok out
  | Err _ => Ok raw
  | Panic => Panic
  end.

(** [splitComma]: the trimmed, non-empty pieces between commas. *)
Fixpoint split_at (cur : gostring) (s : gostring) : list gostring :=
  match s with
  | [] => [cur]
  | b :: r => if bool_decide (b = x2c) then cur :: split_at [] r else split_at (cur ++ [b]) r
  end.

Definition splitComma (s : gostring) : list gostring :=
  List.filter (fun t => negb (bool_decide (t = []))) (map TrimSpace (split_at [] s)).

Definition isCompacted (configs : list Topics.CreateTopicsConfig) : bool :=
  existsb (fun c =>
    bool_decide (Topics.Name c = str "cleanup.policy") &&
    match Topics.Value c with
    | None => false
    | Some v => existsb (fun t => bool_decide (t = str "compact")) (splitComma v)
    end) configs.

Section handlers.
Context `{Authorizer A} (auth : A) (h : Handler).
(** What the disk holds for a topic that is created, Go's compress/gzip reader,
    and the object store. *)
Context (disk : gostring -> Z -> partition_dir) (gunzip : list byte -> outcome (list byte)).
Context (remote : option (gostring -> outcome (list byte))).

Definition authorize (ctx : RequestContext) (op : gostring) (res : Resource) : bool :=
  let principal := if bool_decide (ctx_Principal ctx = []) then AnonymPrincipal else ctx_Principal ctx in
  match Authorize auth principal op res with Ok _ => true | _ => false end.

Definition topic_res (name : gostring) : Resource := mkResource ResourceTopic name.
Definition group_res (name : gostring) : Resource := mkResource ResourceGroup name.

Definition advertisedFor (bindPort : Z) : gostring * Z :=
  default (h_advertisedHost h, h_advertisedPort h) (h_advertisedByBind h !! bindPort).

Definition ensure (s : Store) (topic : gostring) : Store * outcome bool :=
  EnsureTopic s (disk topic) topic (cfg_DefaultPartitions (h_cfg h)).

(** ** Api versions and metadata *)

Definition supportedKeys : list Session.ApiKeySupport :=
  map (fun k => Session.mkApiKeySupport k 0 (MaxVersion k))
    [APKProduce; APKFetch; APKListOffsets; APKMetadata; APKOffsetCommit; APKOffsetFetch;
     APKFindCoordinator; APKJoinGroup; APKHeartbeat; APKLeaveGroup; APKSyncGroup; APKDescribeGroups;
     APKListGroups; APKSaslHandshake; APKApiVersions; APKCreateTopics; APKDeleteTopics;
     APKInitProducerID; APKSaslAuthenticate; APKDeleteGroups].

Definition handleApiVersions (version : Z) (body : list byte) : outcome (list byte) :=
  let? req := decode (Session.DecodeApiVersionsRequest version) body in
  let too_new := MaxVersion APKApiVersions <? version in
  Ok (Session.EncodeApiVersionsResponse
        (Session.mkApiVersionsResponse (if too_new then 0 else Session.av_Version req)
           (if too_new then ErrUnsupportedVersion else ErrNone) supportedKeys 0) NewWriter).

(** The entry of one topic; [None] leaves it out of a full listing. *)
Definition metadata_topic (ctx : RequestContext) (fullListing : bool) (s : Store) (name : gostring)
  : Store * outcome (option Metadata.MetadataTopic) :=
  let entry code ps := Some (Metadata.mkMetadataTopic code name false ps 0) in
  let '(s, o) :=
    if bool_decide (GetTopic s name = None) && cfg_AutoCreate (h_cfg h)
       && authorize ctx OpWrite (topic_res name)
    then ensure s name else (s, Ok false) in
  match o with
  | Panic => (s, Panic)
  | _ =>
      match GetTopic s name with
      | None => (s, Ok (if fullListing then None else entry ErrUnknownTopicOrPartition []))
      | Some t =>
          if authorize ctx OpDescribe (topic_res name) then
            (s, Ok (entry 0
              (map (fun i => Metadata.mkMetadataPartition 0 (i32 (Z.of_nat i)) (h_nodeID h) 0
                               (Some [h_nodeID h]) (Some [h_nodeID h]) None)
                 (seq 0 (size (t_Partitions t))))))
          else (s, Ok (if fullListing then None else entry ErrTopicAuthorizationFailed []))
      end
  end.

Definition handleMetadata (s : Store) (version : Z) (body : list byte) (ctx : RequestContext)
  : Store * outcome (list byte) :=
  match decode (Metadata.DecodeMetadataRequest version) body with
  | Ok req =>
      let '(host, port) := advertisedFor (ctx_ListenerPort ctx) in
      let requested := default (TopicNames s) (Metadata.req_Topics req) in
      let '(s, o) := map_state (metadata_topic ctx (bool_decide (Metadata.req_Topics req = None)))
                       s requested in
      (s, let? topics := o in
          Ok (Metadata.EncodeMetadataResponse
                (Metadata.mkMetadataResponse version 0
                   [Metadata.mkMetadataBroker (h_nodeID h) host port None]
                   (Some (cfg_ClusterID (h_cfg h))) (h_nodeID h) (omap id topics) (-2147483648))
                NewWriter))
  | Err e => (s, Err e)
  | Panic => (s, Panic)
  end.

(** ** Produce *)

Definition appendToPartition (part : PartitionState) (raw : list byte) (sync : bool) (now : Z)
  : PartitionState * outcome Z :=
  if zlen raw <? 61 then (part, Err "record batch too short") else
  let attr := i16 (uint_at raw 21 23) in
  let rebuilt :=
    if CompressionCodec attr =? CompressionNone then Ok raw
    else let? records := DecompressRecordBatch gunzip (drop 61 raw) attr in rebuildBatch raw records in
  match (let? raw := rebuilt in let? batch := DecodeRecordBatch raw in Ok (raw, batch)) with
  | Ok (raw, batch) =>
      let ms := now / millisecond in
      if 0 <=? rb_ProducerID batch then
        let '(t, p, o) :=
          AppendIdempotentSynced (ps_idempotence part) (ps_log part) (rb_ProducerID batch)
            (rb_ProducerEpoch batch) (rb_BaseSequence batch) raw sync ms in
        (mkPS p t, o)
      else
        let '(p, o) := AppendSynced (ps_log part) raw sync ms in
        (mkPS p (ps_idempotence part), o)
  | Err e => (part, Err e)
  | Panic => (part, Panic)
  end.

(** The answer for one partition; errors of the append are its error code. *)
Definition produce_partition (now : Z) (sync allowed : bool) (topic : gostring) (s : Store)
    (p : Produce.ProduceRequestPartition) : Store * outcome Produce.ProduceResponsePartition :=
  let pid := Produce.req_Partition p in
  let answer code base := Produce.mkProduceResponsePartition pid code base (now / millisecond) in
  if negb allowed then (s, Ok (answer ErrTopicAuthorizationFailed (-1))) else
  let '(s, o) :=
    if bool_decide (is_Some (GetPartition s topic pid)) then (s, Ok false)
    else if cfg_AutoCreate (h_cfg h) then ensure s topic else (s, Ok false) in
  match o with
  | Panic => (s, Panic)
  | _ =>
      match GetPartition s topic pid with
      | None => (s, Ok (answer ErrUnknownTopicOrPartition (-1)))
      | Some part =>
          let '(part, o) := appendToPartition part (default [] (Produce.req_Records p)) sync now in
          let s := put_partition s topic pid part in
          match o with
          | Ok base => (s, Ok (answer ErrNone base))
          | Err _ => (s, Ok (answer ErrCorruptMessage (-1)))
          | Panic => (s, Panic)
          end
      end
  end.

Definition produce_topic (now : Z) (sync : bool) (ctx : RequestContext) (s : Store)
    (t : Produce.ProduceRequestTopic) : Store * outcome Produce.ProduceResponseTopic :=
  let topic := Produce.req_Topic t in
  let allowed := authorize ctx OpWrite (topic_res topic) in
  let '(s, o) := map_state (produce_partition now sync allowed topic) s (Produce.req_Partitions t) in
  (s, let? ps := o in Ok (Produce.mkProduceResponseTopic topic ps)).

Definition syncBeforeAck (acks : Z) : bool :=
  bool_decide (cfg_FlushPolicy (h_cfg h) = FlushPolicyRequest) ||
  ((acks =? -1) && cfg_SyncOnAcksAll (h_cfg h)).

Definition handleProduce (s : Store) (now version : Z) (body : list byte) (ctx : RequestContext)
  : Store * outcome (list byte) :=
  match decode (Produce.DecodeProduceRequest version) body with
  | Ok req =>
      let '(s, o) := map_state (produce_topic now (syncBeforeAck (Produce.Acks req)) ctx) s
                       (Produce.req_Topics req) in
      (s, let? ts := o in
          Ok (Produce.EncodeProduceResponse (Produce.mkProduceResponse version ts 0) NewWriter))
  | Err e => (s, Err e)
  | Panic => (s, Panic)
  end.

(** ** Fetch *)

(** The partitions a long poll waits for. *)
Definition fetch_pending (s : Store) (ctx : RequestContext) (req : Fetch.FetchRequest)
  : list (gostring * Z * Z) :=
  mjoin (map (fun t =>
    if authorize ctx OpRead (topic_res (Fetch.req_Topic t)) then
      omap (fun p =>
        part ← GetPartition s (Fetch.req_Topic t) (Fetch.req_Partition p);
        if pt_highWatermark (ps_log part) <=? Fetch.FetchOffset p
        then Some (Fetch.req_Topic t, Fetch.req_Partition p, Fetch.FetchOffset p) else None)
        (Fetch.req_Partitions t)
    else []) (Fetch.req_Topics req)).

(** [longPoll]'s test. *)
Definition has_data (s : Store) (w : gostring * Z * Z) : bool :=
  match GetPartition s w.1.1 w.1.2 with
  | Some part => w.2 <? pt_highWatermark (ps_log part)
  | None => false
  end.

(** [waitFetchData]: one partition with data is enough unless the client asked
    for more than one byte. *)
Definition poll_over (s : Store) (minBytes : Z) (pending : list (gostring * Z * Z)) : bool :=
  if minBytes <=? 1 then existsb (has_data s) pending else forallb (has_data s) pending.

Definition fetch_partition (allowed : bool) (topic : gostring) (s : Store)
    (p : Fetch.FetchRequestPartition) : Store * outcome Fetch.FetchResponsePartition :=
  let pid := Fetch.req_Partition p in
  let failed code := Fetch.mkFetchResponsePartition pid code 0 (-1) 0 None in
  if negb allowed then (s, Ok (failed ErrTopicAuthorizationFailed)) else
  match GetPartition s topic pid with
  | None => (s, Ok (failed ErrUnknownTopicOrPartition))
  | Some part =>
      let '(log, o, hwm) := Read remote (ps_log part) (Fetch.FetchOffset p) (Fetch.PartitionMaxBytes p) in
      let s := put_partition s topic pid (mkPS log (ps_idempotence part)) in
      let answer code data :=
        Fetch.mkFetchResponsePartition pid code hwm hwm (earliestOffsetLocked log) data in
      match o with
      | Ok data => (s, Ok (answer ErrNone (Some data)))
      | Err _ => (s, Ok (answer ErrOffsetOutOfRange None))
      | Panic => (s, Panic)
      end
  end.

Definition fetch_topic (ctx : RequestContext) (s : Store) (t : Fetch.FetchRequestTopic)
  : Store * outcome Fetch.FetchResponseTopic :=
  let topic := Fetch.req_Topic t in
  let allowed := authorize ctx OpRead (topic_res topic) in
  let '(s, o) := map_state (fetch_partition allowed topic) s (Fetch.req_Partitions t) in
  (s, let? ps := o in Ok (Fetch.mkFetchResponseTopic topic ps)).

Definition fetch_answer (s : Store) (ctx : RequestContext) (req : Fetch.FetchRequest)
  : Store * outcome (list byte) :=
  let '(s, o) := map_state (fetch_topic ctx) s (Fetch.req_Topics req) in
  (s, let? ts := o in
      Ok (Fetch.EncodeFetchResponse (Fetch.mkFetchResponse (Fetch.req_Version req) 0 ts) NewWriter)).

Definition handleFetch (s : Store) (now version : Z) (body : list byte) (ctx : RequestContext)
  : Store * reply :=
  match decode (Fetch.DecodeFetchRequest version) body with
  | Ok req =>
      let pending := fetch_pending s ctx req in
      if (0 <? Fetch.MaxWaitMillis req) && negb (bool_decide (pending = [])) then
        (s, WaitFetch req pending (now + Fetch.MaxWaitMillis req * millisecond))
      else let '(s, o) := fetch_answer s ctx req in (s, Reply o)
  | Err e => (s, Reply (Err e))
  | Panic => (s, Reply Panic)
  end.

(** A waiting fetch woken at [now]. *)
Definition fetch_wake (s : Store) (now : Z) (ctx : RequestContext) (req : Fetch.FetchRequest)
    (pending : list (gostring * Z * Z)) (deadline : Z) : Store * reply :=
  if poll_over s (Fetch.MinBytes req) pending || (deadline <=? now) then
    let '(s, o) := fetch_answer s ctx req in (s, Reply o)
  else (s, WaitFetch req pending deadline).

(** ** Offsets of partitions *)

Definition list_offsets_partition (version : Z) (allowed : bool) (topic : gostring) (s : Store)
    (p : ListOffsets.ListOffsetsRequestPartition) : ListOffsets.ListOffsetsResponsePartition :=
  let pid := ListOffsets.req_Partition p in
  let answer code old off := ListOffsets.mkListOffsetsResponsePartition pid code old (-1) off (-1) in
  if negb allowed then answer ErrTopicAuthorizationFailed None (-1) else
  match GetPartition s topic pid with
  | None => answer ErrUnknownTopicOrPartition None (-1)
  | Some part =>
      let off := GetOffset (ps_log part) (ListOffsets.req_Timestamp p) in
      answer ErrNone (if version =? 0 then Some [off] else None) off
  end.

Definition handleListOffsets (s : Store) (version : Z) (body : list byte) (ctx : RequestContext)
  : outcome (list byte) :=
  let? req := decode (ListOffsets.DecodeListOffsetsRequest version) body in
  Ok (ListOffsets.EncodeListOffsetsResponse
        (ListOffsets.mkListOffsetsResponse version 0
           (map (fun t =>
              let topic := ListOffsets.req_Topic t in
              let allowed := authorize ctx OpRead (topic_res topic) in
              ListOffsets.mkListOffsetsResponseTopic topic
                (map (list_offsets_partition version allowed topic s) (ListOffsets.req_Partitions t)))
              (ListOffsets.req_Topics req))) NewWriter).

(** ** Topics *)

Definition create_topic (validateOnly : bool) (ctx : RequestContext) (s : Store)
    (t : Topics.CreateTopicsRequestTopic) : Store * outcome Topics.CreateTopicsResponseTopic :=
  let topic := Topics.Topic t in
  let answer code := Topics.mkCreateTopicsResponseTopic topic code None in
  if negb (authorize ctx OpAdmin (topic_res topic)) then (s, Ok (answer ErrTopicAuthorizationFailed)) else
  if validateOnly then (s, Ok (answer ErrNone)) else
  match ValidateTopicName topic with
  | Ok _ =>
      if bool_decide (is_Some (GetTopic s topic)) then (s, Ok (answer ErrTopicAlreadyExists)) else
      if Topics.NumPartitions t <=? 0 then (s, Ok (answer ErrInvalidPartitions)) else
      match CreateTopic s (disk topic) topic (Topics.NumPartitions t) with
      | (s, Ok _) =>
          (if isCompacted (Topics.Configs t) then MarkCompacted s topic true else s, Ok (answer ErrNone))
      | (s, Err _) => (s, Ok (answer ErrUnknownServerError))
      | (s, Panic) => (s, Panic)
      end
  | _ => (s, Ok (answer ErrInvalidTopic))
  end.

Definition handleCreateTopics (s : Store) (version : Z) (body : list byte) (ctx : RequestContext)
  : Store * outcome (list byte) :=
  match decode (Topics.DecodeCreateTopicsRequest version) body with
  | Ok req =>
      let '(s, o) := map_state (create_topic (Topics.ValidateOnly req) ctx) s (Topics.creates req) in
      (s, let? ts := o in
          Ok (Topics.EncodeCreateTopicsResponse (Topics.mkCreateTopicsResponse version 0 ts) NewWriter))
  | Err e => (s, Err e)
  | Panic => (s, Panic)
  end.

Definition delete_topic (ctx : RequestContext) (s : Store) (name : gostring)
  : Store * outcome Topics.DeleteTopicsResponseTopic :=
  let answer code := Topics.mkDeleteTopicsResponseTopic name code None in
  if negb (authorize ctx OpAdmin (topic_res name)) then (s, Ok (answer ErrTopicAuthorizationFailed)) else
  if bool_decide (GetTopic s name = None) then (s, Ok (answer ErrUnknownTopicOrPartition)) else
  match DeleteTopic s name with
  | (s, Ok _) => (s, Ok (answer ErrNone))
  | (s, _) => (s, Ok (answer ErrUnknownServerError))
  end.

Definition handleDeleteTopics (s : Store) (version : Z) (body : list byte) (ctx : RequestContext)
  : Store * outcome (list byte) :=
  match decode (Topics.DecodeDeleteTopicsRequest version) body with
  | Ok req =>
      let '(s, o) := map_state (delete_topic ctx) s (Topics.TopicNames req) in
      (s, let? ts := o in
          Ok (Topics.EncodeDeleteTopicsResponse (Topics.mkDeleteTopicsResponse version 0 ts) NewWriter))
  | Err e => (s, Err e)
  | Panic => (s, Panic)
  end.

(** ** Groups *)

Definition handleFindCoordinator (gm : GroupManager) (version : Z) (body : list byte) (localPort : Z)
  : outcome (list byte) :=
  let? req := decode (Membership.DecodeFindCoordinatorRequest version) body in
  let resp := FindCoordinator gm req in
  let '(host, port) := advertisedFor localPort in
  Ok (Membership.EncodeFindCoordinatorResponse
        (Membership.mkFindCoordinatorResponse (Membership.fcr_Version resp)
           (Membership.fcr_ThrottleTimeMs resp) (Membership.fcr_ErrorCode resp)
           (Membership.fcr_ErrorMessage resp) (Membership.NodeID resp) host port) NewWriter).

Definition handleJoinGroup (gm : GroupManager) (now version : Z) (body : list byte) (ctx : RequestContext)
  : GroupManager * reply :=
  match decode (Membership.DecodeJoinGroupRequest version) body with
  | Ok req =>
      if authorize ctx OpRead (group_res (Membership.jg_Group req)) then
        match JoinGroup gm now req with
        | Ok (gm, Answered resp) => (gm, Reply (Ok (Membership.EncodeJoinGroupResponse resp NewWriter)))
        | Ok (gm, Waiting memberID deadline) => (gm, WaitJoin req memberID deadline)
        | Err e => (gm, Reply (Err e))
        | Panic => (gm, Reply Panic)
        end
      else
        (gm, Reply (Ok (Membership.EncodeJoinGroupResponse
               (Membership.mkJoinGroupResponse version 0 ErrGroupAuthorizationFailed 0 [] [] [] []) NewWriter)))
  | Err e => (gm, Reply (Err e))
  | Panic => (gm, Reply Panic)
  end.

(** A waiting join woken at [now]. *)
Definition join_resume (gm : GroupManager) (now : Z) (req : Membership.JoinGroupRequest)
    (memberID : gostring) (deadline : Z) : GroupManager * reply :=
  match join_wake gm now req memberID deadline with
  | Ok (gm, Some resp) => (gm, Reply (Ok (Membership.EncodeJoinGroupResponse resp NewWriter)))
  | Ok (gm, None) => (gm, WaitJoin req memberID deadline)
  | Err e => (gm, Reply (Err e))
  | Panic => (gm, Reply Panic)
  end.

Definition handleSyncGroup (gm : GroupManager) (now version : Z) (body : list byte) (ctx : RequestContext)
  : GroupManager * reply :=
  match decode (Membership.DecodeSyncGroupRequest version) body with
  | Ok req =>
      if authorize ctx OpRead (group_res (Membership.sg_Group req)) then
        match SyncGroup gm now req with
        | (gm, SyncAnswered resp) => (gm, Reply (Ok (Membership.EncodeSyncGroupResponse resp NewWriter)))
        | (gm, SyncWaiting born deadline) => (gm, WaitSync req born deadline)
        end
      else
        (gm, Reply (Ok (Membership.EncodeSyncGroupResponse
               (Membership.mkSyncGroupResponse version 0 ErrGroupAuthorizationFailed None) NewWriter)))
  | Err e => (gm, Reply (Err e))
  | Panic => (gm, Reply Panic)
  end.

(** A waiting sync woken at [now]. *)
Definition sync_resume (gm : GroupManager) (now : Z) (req : Membership.SyncGroupRequest) (born deadline : Z)
  : GroupManager * reply :=
  match sync_wake gm now req born deadline with
  | (gm, SyncAnswered resp) => (gm, Reply (Ok (Membership.EncodeSyncGroupResponse resp NewWriter)))
  | (gm, SyncWaiting born deadline) => (gm, WaitSync req born deadline)
  end.

Definition handleHeartbeat (gm : GroupManager) (now version : Z) (body : list byte) (ctx : RequestContext)
  : GroupManager * outcome (list byte) :=
  match decode (Membership.DecodeHeartbeatRequest version) body with
  | Ok req =>
      if authorize ctx OpRead (group_res (Membership.hb_Group req)) then
        let '(gm, resp) := Heartbeat gm now req in
        (gm, Ok (Membership.EncodeHeartbeatResponse resp NewWriter))
      else
        (gm, Ok (Membership.EncodeHeartbeatResponse
               (Membership.mkHeartbeatResponse version 0 ErrGroupAuthorizationFailed) NewWriter))
  | Err e => (gm, Err e)
  | Panic => (gm, Panic)
  end.

Definition handleLeaveGroup (gm : GroupManager) (now version : Z) (body : list byte) (ctx : RequestContext)
  : GroupManager * outcome (list byte) :=
  match decode (Membership.DecodeLeaveGroupRequest version) body with
  | Ok req =>
      if authorize ctx OpRead (group_res (Membership.lg_Group req)) then
        match LeaveGroup gm now req with
        | Ok (gm, resp) => (gm, Ok (Membership.EncodeLeaveGroupResponse resp NewWriter))
        | Err e => (gm, Err e)
        | Panic => (gm, Panic)
        end
      else
        (gm, Ok (Membership.EncodeLeaveGroupResponse
               (Membership.mkLeaveGroupResponse version 0 ErrGroupAuthorizationFailed []) NewWriter))
  | Err e => (gm, Err e)
  | Panic => (gm, Panic)
  end.

(** [crash] is the crash point of the write to the offset log, as in
    OffsetStore.v. *)
Definition handleOffsetCommit (gm : GroupManager) (now version : Z) (body : list byte)
    (ctx : RequestContext) (crash : option nat) : GroupManager * outcome (list byte) :=
  match decode (Offsets.DecodeOffsetCommitRequest version) body with
  | Ok req =>
      if authorize ctx OpWrite (group_res (Offsets.Group req)) then
        let '(gm, resp) := OffsetCommit gm now req crash in
        (gm, Ok (Offsets.EncodeOffsetCommitResponse resp NewWriter))
      else
        (gm, Ok (Offsets.EncodeOffsetCommitResponse
          (Offsets.mkOffsetCommitResponse version 0
             (map (fun t => Offsets.mkOffsetCommitResponseTopic (Offsets.Topic t)
                (map (fun p => Offsets.mkOffsetCommitResponsePartition (Offsets.Partition p)
                                 ErrGroupAuthorizationFailed) (Offsets.Partitions t)))
                (Offsets.Topics req))) NewWriter))
  | Err e => (gm, Err e)
  | Panic => (gm, Panic)
  end.

Definition handleOffsetFetch (gm : GroupManager) (version : Z) (body : list byte) (ctx : RequestContext)
  : outcome (list byte) :=
  let? req := decode (Offsets.DecodeOffsetFetchRequest version) body in
  Ok (Offsets.EncodeOffsetFetchResponse
        (if authorize ctx OpRead (group_res (Offsets.of_Group req)) then OffsetFetch gm req
         else Offsets.mkOffsetFetchResponse version 0 [] ErrGroupAuthorizationFailed) NewWriter).

Definition handleListGroups (gm : GroupManager) (version : Z) (body : list byte) (ctx : RequestContext)
  : outcome (list byte) :=
  let? req := decode (GroupAdmin.DecodeListGroupsRequest version) body in
  Ok (GroupAdmin.EncodeListGroupsResponse
        (GroupAdmin.mkListGroupsResponse (GroupAdmin.lq_Version req) 0 ErrNone
           (map (fun id => GroupAdmin.mkListGroupsResponseGroup id (str "consumer"))
              (List.filter (fun id => authorize ctx OpDescribe (group_res id)) (ListGroupIDs gm))))
        NewWriter).

Definition describe_group (gm : GroupManager) (ctx : RequestContext) (id : gostring)
  : GroupAdmin.DescribeGroupsResponseGroup :=
  let answer code state pt p ms :=
    GroupAdmin.mkDescribeGroupsResponseGroup code id state pt p ms (-2147483648) in
  if negb (authorize ctx OpDescribe (group_res id)) then answer ErrGroupAuthorizationFailed [] [] [] [] else
  match DescribeGroup gm id with
  | None => answer ErrGroupIDNotFound (str "Dead") [] [] []
  | Some info =>
      answer ErrNone (str (gin_State info)) (str "consumer") (str "range")
        (map (fun m => GroupAdmin.mkDescribeGroupsResponseMember (min_MemberID m) (min_ClientID m)
                         (min_ClientHost m) (min_Metadata m) (min_Assignment m)) (MembersDetail gm id))
  end.

Definition handleDescribeGroups (gm : GroupManager) (version : Z) (body : list byte) (ctx : RequestContext)
  : outcome (list byte) :=
  let? req := decode (GroupAdmin.DecodeDescribeGroupsRequest version) body in
  Ok (GroupAdmin.EncodeDescribeGroupsResponse
        (GroupAdmin.mkDescribeGroupsResponse (GroupAdmin.dq_Version req) 0
           (map (describe_group gm ctx) (GroupAdmin.dq_GroupIDs req))) NewWriter).

Definition delete_group (ctx : RequestContext) (fault : option nat) (gm : GroupManager) (id : gostring)
  : GroupManager * outcome GroupAdmin.DeleteGroupsResponseGroup :=
  if negb (authorize ctx OpAdmin (group_res id))
  then (gm, Ok (GroupAdmin.mkDeleteGroupsResponseGroup id ErrGroupAuthorizationFailed None)) else
  match DeleteGroup gm id fault with
  | (gm, Ok _) => (gm, Ok (GroupAdmin.mkDeleteGroupsResponseGroup id ErrNone None))
  | (gm, Err _) =>
      (gm, Ok (GroupAdmin.mkDeleteGroupsResponseGroup id ErrNonEmptyGroup (Some (str "group is not empty"))))
  | (gm, Panic) => (gm, Panic)
  end.

(** A file operation that fails, fails for each of the groups. *)
Definition handleDeleteGroups (gm : GroupManager) (version : Z) (body : list byte) (ctx : RequestContext)
    (fault : option nat) : GroupManager * outcome (list byte) :=
  match decode (GroupAdmin.DecodeDeleteGroupsRequest version) body with
  | Ok req =>
      let '(gm, o) := map_state (delete_group ctx fault) gm (GroupAdmin.xq_GroupIDs req) in
      (gm, let? gs := o in
           Ok (GroupAdmin.EncodeDeleteGroupsResponse
                 (GroupAdmin.mkDeleteGroupsResponse (GroupAdmin.xq_Version req) 0 gs) NewWriter))
  | Err e => (gm, Err e)
  | Panic => (gm, Panic)
  end.

Definition handleInitProducerID (gm : GroupManager) (version : Z) (body : list byte) (ctx : RequestContext)
  : GroupManager * outcome (list byte) :=
  match decode (Session.DecodeInitProducerIdRequest version) body with
  | Ok req =>
      let answer code pid epoch :=
        Ok (Session.EncodeInitProducerIdResponse
              (Session.mkInitProducerIdResponse (Session.ip_Version req) 0 code pid epoch) NewWriter) in
      if authorize ctx OpWrite (mkResource ResourceCluster (str "cluster")) then
        match NextProducerID gm (Session.TransactionalID req) with
        | Ok (gm, pid, epoch) => (gm, answer ErrNone pid epoch)
        | Err e => (gm, Err e)
        | Panic => (gm, Panic)
        end
      else (gm, answer ErrClusterAuthorizationFailed 0 0)
  | Err e => (gm, Err e)
  | Panic => (gm, Panic)
  end.

(** ** Dispatch (dispatch.go) *)

Definition disabledTxnMaxVersion (apiKey : Z) : option Z :=
  if apiKey =? APKAddPartitionsToTxn then Some 1
  else if apiKey =? APKAddOffsetsToTxn then Some 1
  else if apiKey =? APKEndTxn then Some 2
  else None.

Definition disabledTransactionResponse (apiKey version : Z) (body : list byte) : outcome (list byte) :=
  if apiKey =? APKAddPartitionsToTxn then
    let? _ := decode (Txn.DecodeAddPartitionsToTxnRequest version) body in
    Ok (Txn.EncodeAddPartitionsToTxnResponse
          (Txn.mkAddPartitionsToTxnResponse version 0 ErrUnsupportedVersion []) NewWriter)
  else if apiKey =? APKAddOffsetsToTxn then
    let? _ := decode (Txn.DecodeAddOffsetsToTxnRequest version) body in
    Ok (Txn.EncodeAddOffsetsToTxnResponse
          (Txn.mkAddOffsetsToTxnResponse version 0 ErrUnsupportedVersion) NewWriter)
  else if apiKey =? APKEndTxn then
    let? _ := decode (Txn.DecodeEndTxnRequest version) body in
    Ok (Txn.EncodeEndTxnResponse (Txn.mkEndTxnResponse version 0 ErrUnsupportedVersion) NewWriter)
  else Err "unsupported api key".

Definition unsupportedVersion (apiKey version : Z) (body : list byte) : outcome (list byte) :=
  if apiKey =? APKApiVersions then
    Ok (Session.EncodeApiVersionsResponse
          (Session.mkApiVersionsResponse (MaxVersion APKApiVersions) ErrUnsupportedVersion supportedKeys 0)
          NewWriter)
  else
    match disabledTxnMaxVersion apiKey with
    | Some maxDecodable =>
        if (0 <=? version) && (version <=? maxDecodable)
        then disabledTransactionResponse apiKey version body
        else Err "unsupported version"
    | None => Err "unsupported version"
    end.

Definition on_store (b : Broker) (r : Store * outcome (list byte)) : Broker * reply :=
  (mkBroker r.1 (br_coord b), Reply r.2).
Definition on_coord (b : Broker) (r : GroupManager * outcome (list byte)) : Broker * reply :=
  (mkBroker (br_store b) r.1, Reply r.2).

Definition Handle (b : Broker) (now apiKey version : Z) (body : list byte) (ctx : RequestContext)
    (crash : option nat) : Broker * reply :=
  let s := br_store b in
  let gm := br_coord b in
  let maxV := MaxVersion apiKey in
  if negb (apiKey =? APKApiVersions) && ((maxV <? 0) || (maxV <? version) || (version <? 0))
  then (b, Reply (unsupportedVersion apiKey version body))
  else if apiKey =? APKApiVersions then (b, Reply (handleApiVersions version body))
  else if apiKey =? APKMetadata then on_store b (handleMetadata s version body ctx)
  else if apiKey =? APKProduce then on_store b (handleProduce s now version body ctx)
  else if apiKey =? APKFetch then
    let '(s, r) := handleFetch s now version body ctx in (mkBroker s gm, r)
  else if apiKey =? APKListOffsets then (b, Reply (handleListOffsets s version body ctx))
  else if apiKey =? APKCreateTopics then on_store b (handleCreateTopics s version body ctx)
  else if apiKey =? APKDeleteTopics then on_store b (handleDeleteTopics s version body ctx)
  else if apiKey =? APKFindCoordinator then
    (b, Reply (handleFindCoordinator gm version body (ctx_ListenerPort ctx)))
  else if apiKey =? APKJoinGroup then
    let '(gm, r) := handleJoinGroup gm now version body ctx in (mkBroker s gm, r)
  else if apiKey =? APKSyncGroup then
    let '(gm, r) := handleSyncGroup gm now version body ctx in (mkBroker s gm, r)
  else if apiKey =? APKHeartbeat then on_coord b (handleHeartbeat gm now version body ctx)
  else if apiKey =? APKLeaveGroup then on_coord b (handleLeaveGroup gm now version body ctx)
  else if apiKey =? APKOffsetCommit then on_coord b (handleOffsetCommit gm now version body ctx crash)
  else if apiKey =? APKOffsetFetch then (b, Reply (handleOffsetFetch gm version body ctx))
  else if apiKey =? APKListGroups then (b, Reply (handleListGroups gm version body ctx))
  else if apiKey =? APKDescribeGroups then (b, Reply (handleDescribeGroups gm version body ctx))
  else if apiKey =? APKDeleteGroups then on_coord b (handleDeleteGroups gm version body ctx crash)
  else if apiKey =? APKInitProducerID then on_coord b (handleInitProducerID gm version body ctx)
  else (b, Reply (Err "unsupported api key")).
End handlers.
