(* ===== verification/BrokerProps.v ===== *)
(** * What the broker guarantees across its components

    A record batch produced through the wire is what a fetch through the wire
    returns, and a principal without a grant on a topic or a group leaves it
    untouched; both for every implementation of the [Authorizer] interface. *)

From stdpp Require Import prelude list gmap strings.
From Stdlib Require Import ZArith Lia.
From S2P Require Import Prelude GoStrings GoBinary Wire RecordBatch Lz4 Compression Index Segment SegmentOps Partition PartitionOps Compaction.
From S2P Require Import Idempotence Store Authz Frame MsgData MsgAdmin MsgGroup MsgGroupAdmin OffsetWal OffsetStore Producer Group GroupOps Broker.

(** ** The append as the broker calls it *)

Lemma AppendSynced_spec p bss raw sync now :
  pt_inv p bss -> wf_raw raw ->
  (forall a, pt_active p = Some a ->
     pt_nextOffset p + raw_lod raw + 1 - seg_baseOffset a <= 2147483647 /\
     seg_size a + zlen raw <= 4294967295) ->
  pt_nextOffset p + raw_lod raw + 1 <= 4611686018427387904 ->
  exists p' bss', AppendSynced p raw sync now = (p', Ok (pt_nextOffset p)) /\ pt_inv p' bss' /\
    mjoin bss' = mjoin bss ++ [set_base raw (pt_nextOffset p)] /\
    pt_nextOffset p' = pt_nextOffset p + raw_lod raw + 1 /\
    pt_highWatermark p' = pt_nextOffset p' /\
    earliestOffsetLocked p' = earliestOffsetLocked p /\
    (forall mx, fits (mx + zlen raw) (orderedSegmentsLocked p) -> fits mx (orderedSegmentsLocked p')).
Proof.
  intros Hp Hr Hroom Hlim.
  destruct (Append_spec p bss raw Hp Hr Hroom Hlim) as (p1 & bss' & Ha & Hp1 & Hb & Hn & Hh & He).
  assert (forall mx, fits (mx + zlen raw) (orderedSegmentsLocked p) ->
            fits mx (orderedSegmentsLocked p1)) as Hf.
  { intros mx Hfit. apply Forall_forall. intros s Hs.
    destruct (Append_sizes p bss raw p1 _ Hp Ha s Hs) as (s0 & Hs0 & Hle).
    eapply (proj1 (Forall_forall _ _)) in Hs0; [|exact Hfit]. cbn in Hs0. lia. }
  unfold AppendSynced. rewrite Ha. destruct sync; [|by exists p1, bss'].
  destruct (Sync_same p1 now) as (Sn & Sh & Se & Ss).
  exists (Sync p1 now), bss'. rewrite Sn, Sh, Se. split_and!; try done; [by apply Sync_inv|].
  intros mx Hfit. specialize (Hf mx Hfit). clear -Hf Ss. unfold fits in *.
  revert Hf. rewrite <- !(List.Forall_map seg_size (fun z => mx + z <= 2147483647)). by rewrite Ss.
Qed.

(** Reading from the end of the old log gives the batch appended there. *)
Lemma spec_read_appended p bss raw mx :
  pt_inv p bss -> 0 < mx -> raw_base raw = pt_nextOffset p -> 0 <= raw_lod raw ->
  spec_read (pt_nextOffset p) mx (mjoin bss ++ [raw]) [] = raw.
Proof.
  intros Hp Hm Hb Hd. destruct (segs_inv_chain _ _ _ _ (pi_segs _ _ Hp)) as [Hw Hc].
  rewrite spec_read_skip; [|done|].
  - cbn [spec_read]. rewrite (@zlen_nil byte), (proj2 (Z.ltb_lt _ _)) by lia.
    by rewrite (proj2 (Z.ltb_ge _ _)) by (unfold raw_last; lia).
  - eapply Forall_impl; [exact (chain_bounds _ _ _ Hw Hc)|]. cbn. intros. lia.
Qed.

(** A plain (not compressed, not idempotent) encoded batch passes through
    [appendToPartition] to the log. *)
Lemma appendToPartition_plain gunzip part b crc sync now :
  wf_batch b -> in_u32 crc -> CompressionCodec (rb_Attributes b) = CompressionNone ->
  rb_ProducerID b < 0 ->
  appendToPartition gunzip part (batch_layout b crc (encoded_records b)) sync now
  = (let '(p, o) := AppendSynced (ps_log part) (batch_layout b crc (encoded_records b)) sync
                      (now / millisecond) in
     (mkPS p (ps_idempotence part), o)).
Proof.
  intros Hw Hc Hcodec Hpid.
  destruct (batch_fields b crc (encoded_records b) Hw Hc) as (_ & _ & _ & _ & _ & Hattr & _).
  unfold appendToPartition. pose proof (zlen_nonneg (encoded_records b)).
  rewrite batch_layout_len, (proj2 (Z.ltb_ge _ _)) by lia.
  rewrite Hattr, Hcodec, Z.eqb_refl. cbn [obind]. rewrite decode_layout by done. cbn [obind].
  by rewrite (proj2 (Z.leb_gt _ _)) by (cbn; lia).
Qed.

Lemma earliest_range p bss : pt_inv p bss -> 0 <= earliestOffsetLocked p <= pt_nextOffset p.
Proof.
  intros Hp. pose proof (segs_inv_mono _ _ _ _ (pi_segs _ _ Hp)). split; [|lia].
  destruct (pt_inv_active p bss Hp) as (a & bssc & bsa & Ha & _ & Hc & Hs & _).
  unfold earliestOffsetLocked in *. destruct (pt_closed p) as [|s segs].
  - rewrite Ha. exact (si_base _ _ Hs).
  - destruct bssc; [done|]. destruct Hc as (Hs' & _). exact (si_base _ _ Hs').
Qed.

(** ** The store around one partition *)

Lemma put_get_same s topic pid ps part :
  GetPartition s topic pid = Some part -> GetPartition (put_partition s topic pid ps) topic pid = Some ps.
Proof.
  unfold GetPartition, put_partition. destruct (st_topics s !! topic) as [t|] eqn:E; [|done].
  intros _. cbn. rewrite lookup_insert_eq. cbn. by rewrite lookup_insert_eq.
Qed.

Lemma put_same s topic pid part :
  GetPartition s topic pid = Some part -> put_partition s topic pid part = s.
Proof.
  unfold GetPartition, put_partition. destruct (st_topics s !! topic) as [t|] eqn:E; [|done].
  cbn. intros Hp. rewrite (insert_id (t_Partitions t)) by done.
  replace (mkTopic (t_Name t) (t_Partitions t)) with t by (by destruct t).
  rewrite insert_id by done. by destruct s.
Qed.

Lemma put_get_topic s topic pid ps other :
  other <> topic -> GetTopic (put_partition s topic pid ps) other = GetTopic s other.
Proof.
  intros Ho. unfold GetTopic, put_partition. destruct (st_topics s !! topic); [|done].
  by apply lookup_insert_ne.
Qed.

(** ** Produce, then fetch *)

Section end_to_end.
Context `{Authorizer A} (auth : A) (h : Handler).
Context (disk : gostring -> Z -> partition_dir) (gunzip : list byte -> outcome (list byte)).
Context (remote : option (gostring -> outcome (list byte))).

(** One partition with one batch; one partition from one offset. *)
Definition one_produce (v acks timeout : Z) (topic : gostring) (pid : Z) (raw : list byte)
  : Produce.ProduceRequest :=
  Produce.mkProduceRequest v acks timeout
    [Produce.mkProduceRequestTopic topic [Produce.mkProduceRequestPartition pid (Some raw)]].

Definition one_fetch_wait (wait maxBytes : Z) (topic : gostring) (pid off : Z) : Fetch.FetchRequest :=
  Fetch.mkFetchRequest 5 (-1) wait 1 maxBytes 0
    [Fetch.mkFetchRequestTopic topic [Fetch.mkFetchRequestPartition pid off 0 maxBytes]].

Definition one_fetch (maxBytes : Z) (topic : gostring) (pid off : Z) : Fetch.FetchRequest :=
  one_fetch_wait 0 maxBytes topic pid off.

(** The broker's half of the exchange on decoded messages. *)
Lemma produce_one s now ctx topic pid part v acks timeout raw body part' off :
  authorize auth ctx OpWrite (topic_res topic) = true ->
  GetPartition s topic pid = Some part ->
  decode (Produce.DecodeProduceRequest v) body = Ok (one_produce v acks timeout topic pid raw) ->
  appendToPartition gunzip part raw (syncBeforeAck h acks) now = (part', Ok off) ->
  handleProduce auth h disk gunzip s now v body ctx
  = (put_partition s topic pid part',
     Ok (Produce.EncodeProduceResponse
           (Produce.mkProduceResponse v
              [Produce.mkProduceResponseTopic topic
                 [Produce.mkProduceResponsePartition pid ErrNone off (now / millisecond)]] 0) NewWriter)).
Proof.
  intros Ha Hp Hd Happ. unfold handleProduce. rewrite Hd. unfold one_produce. cbn [Produce.Acks Produce.req_Topics].
  cbn [map_state]. unfold produce_topic. cbn [Produce.req_Topic Produce.req_Partitions].
  rewrite Ha. cbn [map_state]. unfold produce_partition.
  cbn [Produce.req_Partition Produce.req_Records negb default].
  rewrite Hp, bool_decide_eq_true_2 by done. rewrite Hp. cbn [default from_option]. unfold id.
  by rewrite Happ.
Qed.

Lemma fetch_one s now ctx topic pid part wait maxBytes body log data hwm off :
  authorize auth ctx OpRead (topic_res topic) = true ->
  GetPartition s topic pid = Some part ->
  decode (Fetch.DecodeFetchRequest 5) body = Ok (one_fetch_wait wait maxBytes topic pid off) ->
  off < pt_highWatermark (ps_log part) ->
  Read remote (ps_log part) off maxBytes = (log, Ok data, hwm) ->
  handleFetch auth remote s now 5 body ctx
  = (put_partition s topic pid (mkPS log (ps_idempotence part)),
     Reply (Ok (Fetch.EncodeFetchResponse
       (Fetch.mkFetchResponse 5 0
          [Fetch.mkFetchResponseTopic topic
             [Fetch.mkFetchResponsePartition pid ErrNone hwm hwm (earliestOffsetLocked log) (Some data)]])
       NewWriter))).
Proof.
  intros Ha Hp Hd Hoff Hr. unfold handleFetch. rewrite Hd. unfold one_fetch_wait.
  assert (fetch_pending auth s ctx (one_fetch_wait wait maxBytes topic pid off) = []) as Hpend.
  { unfold fetch_pending, one_fetch_wait. cbn [map Fetch.req_Topics Fetch.req_Topic Fetch.req_Partitions].
    rewrite Ha. cbn [omap list_omap Fetch.req_Partition Fetch.FetchOffset]. rewrite Hp. cbn.
    by rewrite (proj2 (Z.leb_gt _ _)). }
  unfold one_fetch_wait in Hpend. rewrite Hpend, bool_decide_eq_true_2, andb_false_r by done. unfold fetch_answer.
  cbn [Fetch.req_Topics map_state]. unfold fetch_topic. cbn [Fetch.req_Topic Fetch.req_Partitions].
  rewrite Ha. cbn [map_state]. unfold fetch_partition.
  cbn [Fetch.req_Partition Fetch.FetchOffset Fetch.PartitionMaxBytes negb].
  by rewrite Hp, Hr.
Qed.

(** The answers fit their encodings. *)
Lemma now_ms now : 0 <= now < 9223372036854775807 -> in_i64 (now / millisecond).
Proof.
  intros Hn. unfold millisecond, in_i64. pose proof (Z.div_pos now 1000000).
  pose proof (Z.div_le_upper_bound now 1000000 now). lia.
Qed.

Lemma one_produce_response v topic pid off ms :
  str_ok topic /\ in_i32 pid -> in_i64 off -> in_i64 ms -> 2 <= v ->
  Produce.wf_response (Produce.mkProduceResponse v [Produce.mkProduceResponseTopic topic
    [Produce.mkProduceResponsePartition pid ErrNone off ms]] 0).
Proof.
  intros [Ht Hp] Ho Hm Hv. unfold Produce.wf_response, Produce.wf_response_topic, Produce.wf_response_partition.
  cbn. rewrite !Forall_singleton. cbn. rewrite !Forall_singleton. cbn.
  rewrite (proj2 (Z.leb_le 2 v)), (proj2 (Z.leb_le 1 v)) by lia.
  split_and!; (done || decide_closed).
Qed.

Lemma one_fetch_response topic pid hwm start data :
  str_ok topic /\ in_i32 pid -> in_i64 hwm -> in_i64 start -> bytes_ok (Some data) ->
  Fetch.wf_response (Fetch.mkFetchResponse 5 0 [Fetch.mkFetchResponseTopic topic
    [Fetch.mkFetchResponsePartition pid ErrNone hwm hwm start (Some data)]]).
Proof.
  intros [Ht Hp] Ho Hm Hd. unfold Fetch.wf_response, Fetch.wf_response_topic, Fetch.wf_response_partition.
  cbn [Fetch.ThrottleTimeMs Fetch.Topics Fetch.Version]. rewrite !Forall_singleton.
  cbn [Fetch.Topic Fetch.Partitions]. rewrite !Forall_singleton. cbn. split_and!; (done || decide_closed).
Qed.

(** Which handler a request reaches. *)
Lemma Handle_produce b now v body ctx crash :
  0 <= v <= 3 ->
  Handle auth h disk gunzip remote b now APKProduce v body ctx crash
  = on_store b (handleProduce auth h disk gunzip (br_store b) now v body ctx).
Proof.
  intros Hv. unfold Handle. replace (MaxVersion APKProduce) with 3 by (by vm_compute).
  cbn [Z.eqb APKProduce APKApiVersions APKMetadata negb andb Z.ltb Z.compare].
  by rewrite (proj2 (Z.ltb_ge 3 v)), (proj2 (Z.ltb_ge v 0)) by lia.
Qed.

Lemma Handle_fetch b now v body ctx crash :
  0 <= v <= 5 ->
  Handle auth h disk gunzip remote b now APKFetch v body ctx crash
  = (let '(s, r) := handleFetch auth remote (br_store b) now v body ctx in (mkBroker s (br_coord b), r)).
Proof.
  intros Hv. unfold Handle. replace (MaxVersion APKFetch) with 5 by (by vm_compute).
  cbn [Z.eqb APKProduce APKFetch APKApiVersions APKMetadata negb andb Z.ltb Z.compare Pos.compare Pos.compare_cont].
  by rewrite (proj2 (Z.ltb_ge 5 v)), (proj2 (Z.ltb_ge v 0)) by lia.
Qed.

(** The broker's state after the produce request. *)
Lemma produce_plain s now ctx topic pid part bss batch v acks timeout body :
  authorize auth ctx OpWrite (topic_res topic) = true ->
  GetPartition s topic pid = Some part -> pt_inv (ps_log part) bss ->
  wf_batch batch -> CompressionCodec (rb_Attributes batch) = CompressionNone ->
  rb_ProducerID batch < 0 -> 0 <= filled_last_offset_delta batch ->
  let raw := batch_layout batch (batch_crc batch) (encoded_records batch) in
  let off := pt_nextOffset (ps_log part) in
  let next := off + filled_last_offset_delta batch + 1 in
  next <= 4611686018427387904 ->
  (forall a, pt_active (ps_log part) = Some a ->
     next - seg_baseOffset a <= 2147483647 /\ seg_size a + zlen raw <= 4294967295) ->
  decode (Produce.DecodeProduceRequest v) body = Ok (one_produce v acks timeout topic pid raw) ->
  exists p' bss',
    handleProduce auth h disk gunzip s now v body ctx
    = (put_partition s topic pid (mkPS p' (ps_idempotence part)),
       Ok (Produce.EncodeProduceResponse
             (Produce.mkProduceResponse v [Produce.mkProduceResponseTopic topic
                [Produce.mkProduceResponsePartition pid ErrNone off (now / millisecond)]] 0) NewWriter)) /\
    pt_inv p' bss' /\ mjoin bss' = mjoin bss ++ [set_base raw off] /\
    pt_nextOffset p' = next /\ pt_highWatermark p' = next /\
    earliestOffsetLocked p' = earliestOffsetLocked (ps_log part) /\
    (forall mx, fits (mx + zlen raw) (orderedSegmentsLocked (ps_log part)) ->
                fits mx (orderedSegmentsLocked p')).
Proof.
  intros Haw Hget Hp Hw Hcodec Hpid Hlod raw off next Hlim Hroom Hd.
  assert (in_u32 (batch_crc batch)) as Hcrc by apply crc32c_range.
  pose proof (layout_lod batch (batch_crc batch) (encoded_records batch) Hw Hcrc) as Hl. fold raw in Hl.
  destruct (AppendSynced_spec (ps_log part) bss raw (syncBeforeAck h acks) (now / millisecond) Hp)
    as (p' & bss' & Ha & Hp' & Hb & Hn & Hh & He & Hfits);
    [by apply layout_wf|rewrite Hl; exact Hroom|rewrite Hl; exact Hlim|].
  rewrite Hl in Hn. exists p', bss'. split_and!; try done; [|by rewrite Hh, Hn].
  apply (produce_one s now ctx topic pid part v acks timeout raw body _ off Haw Hget Hd).
  unfold raw. rewrite appendToPartition_plain by done. fold raw. by rewrite Ha.
Qed.

(** The exchange with the bytes of both answers, also for a fetch that would
    wait, and from another connection. *)
Lemma produce_fetch_exchange b now ctx ctx' crash topic pid part bss batch raw v acks timeout wait maxBytes :
  authorize auth ctx OpWrite (topic_res topic) = true ->
  authorize auth ctx' OpRead (topic_res topic) = true ->
  GetPartition (br_store b) topic pid = Some part -> pt_inv (ps_log part) bss ->
  wf_batch batch -> EncodeRecordBatch batch = Ok raw ->
  CompressionCodec (rb_Attributes batch) = CompressionNone -> rb_ProducerID batch < 0 ->
  0 <= filled_last_offset_delta batch ->
  let off := pt_nextOffset (ps_log part) in
  let next := off + filled_last_offset_delta batch + 1 in
  0 <= off -> next <= 4611686018427387904 ->
  (forall a, pt_active (ps_log part) = Some a ->
     next - seg_baseOffset a <= 2147483647 /\ seg_size a + zlen raw <= 4294967295) ->
  0 < maxBytes -> fits (maxBytes + zlen raw) (orderedSegmentsLocked (ps_log part)) ->
  2 <= v <= 3 -> 0 <= now < 9223372036854775807 ->
  let preq := one_produce v acks timeout topic pid raw in
  let freq := one_fetch_wait wait maxBytes topic pid off in
  Produce.wf_request preq -> Fetch.wf_request freq ->
  in_i64 (zlen (Produce.EncodeProduceRequest preq NewWriter)) ->
  in_i64 (zlen (Fetch.EncodeFetchRequest freq NewWriter)) ->
  let presp := Produce.mkProduceResponse v [Produce.mkProduceResponseTopic topic
                 [Produce.mkProduceResponsePartition pid ErrNone off (now / millisecond)]] 0 in
  exists b1 stored,
    let fresp := Fetch.mkFetchResponse 5 0 [Fetch.mkFetchResponseTopic topic
                   [Fetch.mkFetchResponsePartition pid ErrNone next next
                      (earliestOffsetLocked (ps_log part)) (Some stored)]] in
    Handle auth h disk gunzip remote b now APKProduce v
      (Produce.EncodeProduceRequest preq NewWriter) ctx crash
    = (b1, Reply (Ok (Produce.EncodeProduceResponse presp NewWriter))) /\
    Produce.wf_response presp /\
    (forall now' crash', Handle auth h disk gunzip remote b1 now' APKFetch 5
      (Fetch.EncodeFetchRequest freq NewWriter) ctx' crash'
      = (b1, Reply (Ok (Fetch.EncodeFetchResponse fresp NewWriter)))) /\
    Fetch.wf_response fresp /\
    stored = set_base raw off /\
    DecodeRecordBatch stored = Ok (norm_batch (with_base batch off) (batch_crc batch)).
Proof.
  intros Haw Har Hget Hp Hw Henc Hcodec Hpid Hlod off next Hoff Hlim Hroom Hmb Hfit Hv Hnow preq freq
    Hwp Hwf Hlp Hlf presp.
  rewrite (EncodeRecordBatch_layout batch Hw) in Henc. injection Henc as <-.
  assert (in_u32 (batch_crc batch)) as Hcrc by apply crc32c_range.
  assert (decode (Produce.DecodeProduceRequest v) (Produce.EncodeProduceRequest preq NewWriter) = Ok preq)
    as Hdp by exact (@codec_roundtrip _ Produce.request_codec preq Hwp Hlp).
  assert (decode (Fetch.DecodeFetchRequest 5) (Fetch.EncodeFetchRequest freq NewWriter) = Ok freq)
    as Hdf by exact (@codec_roundtrip _ Fetch.request_codec freq Hwf Hlf).
  destruct (produce_plain (br_store b) now ctx topic pid part bss batch v acks timeout _ Haw Hget Hp Hw
              Hcodec Hpid Hlod Hlim Hroom Hdp)
    as (p' & bss' & Hprod & Hp' & Hb & Hn & Hh & He & Hfits).
  set (raw := batch_layout batch (batch_crc batch) (encoded_records batch)) in *.
  fold off in Hprod, Hb. fold off next in Hn, Hh.
  assert (wf_batch (with_base batch off)) as Hwb.
  { destruct Hw as (_ & Hw). split; [|exact Hw]. cbn. mlia. }
  assert (str_ok topic /\ in_i32 pid /\ bytes_ok (Some raw)) as (Ht & Hpi & Hby).
  { destruct Hwp as (_ & _ & _ & [(? & _ & [[? ?] _]%Forall_cons) _]%Forall_cons). done. }
  assert (set_base raw off = batch_layout (with_base batch off) (batch_crc batch)
            (encoded_records (with_base batch off))) as Hset by reflexivity.
  assert (spec_read off maxBytes (mjoin bss') [] = set_base raw off) as Hread.
  { rewrite Hb. apply (spec_read_appended (ps_log part) bss); [done|lia| |]; rewrite Hset.
    - exact (proj1 (batch_fields (with_base batch off) _ _ Hwb Hcrc)).
    - by rewrite layout_lod. }
  set (part' := mkPS p' (ps_idempotence part)) in *. set (s1 := put_partition (br_store b) topic pid part') in *.
  pose proof (put_get_same (br_store b) topic pid part' part Hget) as Hget1. fold s1 in Hget1.
  destruct (earliest_range _ _ Hp) as [He0 He1]. fold off in He1.
  exists (mkBroker s1 (br_coord b)), (set_base raw off). cbv zeta. split_and!.
  - rewrite Handle_produce by lia. unfold on_store. by rewrite Hprod.
  - apply one_produce_response; [done|mlia|by apply now_ms|lia].
  - intros now' crash'. rewrite Handle_fetch by lia. cbn [br_store br_coord].
    rewrite (fetch_one s1 now' ctx' topic pid part' wait maxBytes _ p' (set_base raw off) next off Har Hget1 Hdf).
    + change (mkPS p' (ps_idempotence part')) with part'. by rewrite (put_same s1 topic pid part' Hget1), He.
    + cbn [ps_log part']. rewrite Hh. lia.
    + cbn [ps_log part']. rewrite (Read_spec remote p' bss'), Hread, Hh; try done; [lia|by apply Hfits].
  - apply one_fetch_response; [done|mlia|mlia|].
    unfold bytes_ok, blen in *. cbn [from_option] in *. rewrite zlen_set_base; [done|].
    pose proof (zlen_nonneg (encoded_records batch)). unfold raw. rewrite batch_layout_len. lia.
  - done.
  - rewrite Hset. by apply (decode_layout (with_base batch off)).
Qed.

(** C1: end to end. A client sends a record batch (not compressed, not
    idempotent) in a produce request for a partition it may write, then fetches
    from the offset it was told: the broker acknowledges the batch at the old log
    end, and the fetch gives back exactly that batch, with every field and record
    the client sent and the assigned base offset, while the high watermark has
    moved past it. Both messages go through the wire encodings of client and
    broker; the authorizer, the disk and the object store are arbitrary. *)
Theorem produce_then_fetch b now now' ctx crash topic pid part bss batch raw v acks timeout maxBytes :
  authorize auth ctx OpWrite (topic_res topic) = true ->
  authorize auth ctx OpRead (topic_res topic) = true ->
  GetPartition (br_store b) topic pid = Some part -> pt_inv (ps_log part) bss ->
  wf_batch batch -> EncodeRecordBatch batch = Ok raw ->
  CompressionCodec (rb_Attributes batch) = CompressionNone -> rb_ProducerID batch < 0 ->
  0 <= filled_last_offset_delta batch ->
  let off := pt_nextOffset (ps_log part) in
  let next := off + filled_last_offset_delta batch + 1 in
  0 <= off -> next <= 4611686018427387904 ->
  (forall a, pt_active (ps_log part) = Some a ->
     next - seg_baseOffset a <= 2147483647 /\ seg_size a + zlen raw <= 4294967295) ->
  0 < maxBytes -> fits (maxBytes + zlen raw) (orderedSegmentsLocked (ps_log part)) ->
  2 <= v <= 3 -> 0 <= now < 9223372036854775807 ->
  let preq := one_produce v acks timeout topic pid raw in
  let freq := one_fetch maxBytes topic pid off in
  Produce.wf_request preq -> Fetch.wf_request freq ->
  in_i64 (zlen (Produce.EncodeProduceRequest preq NewWriter)) ->
  in_i64 (zlen (Fetch.EncodeFetchRequest freq NewWriter)) ->
  exists b1 pbytes fbytes stored,
    Handle auth h disk gunzip remote b now APKProduce v
      (Produce.EncodeProduceRequest preq NewWriter) ctx crash = (b1, Reply (Ok pbytes)) /\
    (in_i64 (zlen pbytes) ->
     decode (Produce.DecodeProduceResponse v) pbytes
     = Ok (Produce.mkProduceResponse v [Produce.mkProduceResponseTopic topic
             [Produce.mkProduceResponsePartition pid ErrNone off (now / millisecond)]] 0)) /\
    Handle auth h disk gunzip remote b1 now' APKFetch 5
      (Fetch.EncodeFetchRequest freq NewWriter) ctx crash = (b1, Reply (Ok fbytes)) /\
    (in_i64 (zlen fbytes) ->
     decode (Fetch.DecodeFetchResponse 5) fbytes
     = Ok (Fetch.mkFetchResponse 5 0 [Fetch.mkFetchResponseTopic topic
             [Fetch.mkFetchResponsePartition pid ErrNone next next
                (earliestOffsetLocked (ps_log part)) (Some stored)]])) /\
    DecodeRecordBatch stored = Ok (norm_batch (with_base batch off) (batch_crc batch)).
Proof.
  intros Haw Har Hget Hp Hw Henc Hcodec Hpid Hlod off next Hoff Hlim Hroom Hmb Hfit Hv Hnow preq freq
    Hwp Hwf Hlp Hlf.
  destruct (produce_fetch_exchange b now ctx ctx crash topic pid part bss batch raw v acks timeout 0 maxBytes
              Haw Har Hget Hp Hw Henc Hcodec Hpid Hlod Hoff Hlim Hroom Hmb Hfit Hv Hnow Hwp Hwf Hlp Hlf)
    as (b1 & stored & H1 & H2 & H3 & H4 & _ & H5).
  eexists b1, _, _, stored. split_and!; [exact H1| |exact (H3 now' crash)| |exact H5].
  - intros Hlen. exact (@codec_roundtrip _ Produce.response_codec _ H2 Hlen).
  - intros Hlen. exact (@codec_roundtrip _ Fetch.response_codec _ H4 Hlen).
Qed.
End end_to_end.

(** ** Isolation *)

Lemma map_state_inv {S A B} (P : S -> Prop) (f : S -> A -> S * outcome B) s xs :
  (forall s x, P s -> P (f s x).1) -> P s -> P (map_state f s xs).1.
Proof.
  intros Hf. revert s. induction xs as [|x xs IH]; intros s Hs; [done|]. cbn.
  specialize (Hf s x Hs). destruct (f s x) as [s' [y|e|]]; cbn in Hf; [|done|done].
  specialize (IH s' Hf). by destruct (map_state f s' xs).
Qed.

Section others.
Context (t : gostring).

Lemma createLocked_other s d name n :
  name <> t -> GetTopic (createLocked s d name n).1 t = GetTopic s t.
Proof.
  intros Hn. unfold createLocked. destruct (create_partitions _ _ _ _ _); cbn; [|done|done].
  by apply lookup_insert_ne.
Qed.

Lemma EnsureTopic_other s d name n :
  name <> t -> GetTopic (EnsureTopic s d name n).1 t = GetTopic s t.
Proof.
  intros Hn. unfold EnsureTopic. destruct (ValidateTopicName name); cbn; [|done|done].
  destruct (st_topics s !! name); [done|]. by apply createLocked_other.
Qed.

Lemma CreateTopic_other s d name n :
  name <> t -> GetTopic (CreateTopic s d name n).1 t = GetTopic s t.
Proof.
  intros Hn. unfold CreateTopic. destruct (ValidateTopicName name); cbn; [|done|done].
  destruct (st_topics s !! name); [done|]. by apply createLocked_other.
Qed.

Lemma DeleteTopic_other s name : name <> t -> GetTopic (DeleteTopic s name).1 t = GetTopic s t.
Proof.
  intros Hn. unfold DeleteTopic. destruct (st_topics s !! name); [|done]. by apply lookup_delete_ne.
Qed.

(** A consumer group: its members and state, and the offsets committed for it. *)
Definition group_of (gm : GroupManager) : option Group * option (gmap gostring (gmap Z CommittedOffset)) :=
  (gm_groups gm !! t, os_offsets (gm_offsets gm) !! t).

Lemma put_group_other gm name g : name <> t -> group_of (put_group gm name g) = group_of gm.
Proof. intros Hn. unfold group_of. cbn. by rewrite lookup_insert_ne. Qed.

Lemma getOrCreate_other gm name : name <> t -> group_of (getOrCreate gm name).1 = group_of gm.
Proof.
  intros Hn. unfold getOrCreate. destruct (gm_groups gm !! name); [done|]. by apply put_group_other.
Qed.

(** Commits for other groups, however far they are logged. *)
Lemma CommitBatch_other s now recs crash s' a o :
  (forall r, r ∈ recs -> cr_Group r <> t) -> CommitBatch s now recs crash = (s', a, o) ->
  os_offsets s' !! t = os_offsets s !! t.
Proof.
  intros Hr. assert (os_offsets (commit_memory s now recs).1 !! t = os_offsets s !! t) as Hm.
  { unfold commit_memory. cbn [fst os_offsets]. generalize (os_offsets s). clear s. intros m. revert m.
    induction recs as [|r recs IH]; intros m; [done|]. cbn [fold_left]. rewrite IH.
    - unfold put_offset. apply lookup_insert_ne. apply Hr. by left.
    - intros x Hx. apply Hr. by right. }
  unfold CommitBatch. destruct recs as [|r recs]; [by intros [= <- _ _]|].
  destruct (commit_memory s now (r :: recs)) as [s1 ws] eqn:E. cbn [fst] in Hm. rewrite <- Hm.
  unfold commit_log. destruct (os_wal s1) as [file|]; [|by intros [= <- _ _]].
  unfold appendAndMaybeCompact. destruct (appendBatch file ws crash) as [file' [?|?|]]; by intros [= <- _ _].
Qed.

Lemma compact_offsets s fault : os_offsets (compactLocked s fault).1 = os_offsets s.
Proof. unfold compactLocked. destruct (os_wal s); [|done]. by destruct fault as [[|[|]]|]. Qed.

Lemma JoinGroup_other gm now req gm' r :
  Membership.jg_Group req <> t -> JoinGroup gm now req = Ok (gm', r) -> group_of gm' = group_of gm.
Proof.
  intros Hn. unfold JoinGroup. pose proof (getOrCreate_other gm (Membership.jg_Group req) Hn) as Hg.
  destruct (getOrCreate gm (Membership.jg_Group req)) as [gm1 g]. cbn in Hg. rewrite <- Hg.
  case_bool_decide; [by intros [= <- _]|].
  destruct (g_Members g !! Membership.jg_MemberID req).
  - destruct (_ && _); [intros [= <- _]; by apply put_group_other|].
    destruct (join_register _ _ _ _ _ _) as [[g' r']|e|]; cbn; [|done|done].
    intros [= <- _]. by apply put_group_other.
  - cbn. destruct (join_register _ _ _ _ _ _) as [[g' r']|e|]; cbn; [|done|done].
    intros [= <- _]. by apply (put_group_other (nextMemberID gm1).1).
Qed.

Lemma SyncGroup_other gm now req :
  Membership.sg_Group req <> t -> group_of (SyncGroup gm now req).1 = group_of gm.
Proof.
  intros Hn. unfold SyncGroup. pose proof (getOrCreate_other gm (Membership.sg_Group req) Hn) as Hg.
  destruct (getOrCreate gm (Membership.sg_Group req)) as [gm1 g]. cbn in Hg. rewrite <- Hg.
  case_bool_decide; [done|]. case_bool_decide; [done|]. destruct (negb _); [done|].
  destruct (_ && _); [destruct (sync_loop _ _ _ _)|destruct (sync_finish _ _)]; by apply put_group_other.
Qed.

Lemma Heartbeat_other gm now req :
  Membership.hb_Group req <> t -> group_of (Heartbeat gm now req).1 = group_of gm.
Proof.
  intros Hn. unfold Heartbeat. destruct (get gm _) as [g|]; [|done].
  destruct (g_Members g !! _); [|done]. case_bool_decide; [done|]. destruct (negb _); [done|].
  by apply put_group_other.
Qed.

Lemma LeaveGroup_other gm now req gm' r :
  Membership.lg_Group req <> t -> LeaveGroup gm now req = Ok (gm', r) -> group_of gm' = group_of gm.
Proof.
  intros Hn. unfold LeaveGroup. destruct (get gm _) as [g|]; [|by intros [= <- _]].
  match goal with |- obind ?c _ = _ -> _ => destruct c as [g2|e|]; cbn; [|done|done] end.
  intros [= <- _]. by apply put_group_other.
Qed.

Lemma OffsetCommit_other gm now req crash :
  Offsets.Group req <> t -> group_of (OffsetCommit gm now req crash).1 = group_of gm.
Proof.
  intros Hn. unfold OffsetCommit. pose proof (getOrCreate_other gm (Offsets.Group req) Hn) as Hg.
  destruct (getOrCreate gm (Offsets.Group req)) as [gm1 g]. cbn in Hg. rewrite <- Hg.
  destruct (_ =? _); [|done]. destruct (CommitBatch _ _ _ _) as [[os a] o] eqn:E.
  unfold group_of. cbn. f_equal. eapply CommitBatch_other; [|exact E]. intros r ->%commit_records_group. done.
Qed.

Lemma DeleteGroup_other gm name fault : name <> t -> group_of (DeleteGroup gm name fault).1 = group_of gm.
Proof.
  intros Hn. unfold DeleteGroup. destruct (gm_groups gm !! name); [|done].
  destruct (negb _); [done|]. unfold group_of, OffsetStore.DeleteGroup.
  destruct (_ || _); [by cbn; rewrite !lookup_delete_ne|].
  pose proof (compact_offsets (mkStore (delete name (os_offsets (gm_offsets gm))) (os_wal (gm_offsets gm)) (os_walN (gm_offsets gm))
    (os_compacting (gm_offsets gm)) (os_closed (gm_offsets gm)) (os_snapshot (gm_offsets gm))) fault) as Hc.
  destruct (compactLocked _ fault) as [os o]. cbn in *. by rewrite Hc, !lookup_delete_ne.
Qed.

Lemma join_wake_other gm now req id d gm' r :
  Membership.jg_Group req <> t -> join_wake gm now req id d = Ok (gm', r) -> group_of gm' = group_of gm.
Proof.
  intros Hn. unfold join_wake. destruct (get gm _) as [g|]; [|by intros [= <- _]].
  destruct (negb _); [by intros [= <- _]|]. destruct (negb _).
  - destruct (expireRebalanceLocked g); cbn; [|done|done]. intros [= <- _]. by apply put_group_other.
  - case_bool_decide; by intros [= <- _].
Qed.

Lemma sync_wake_other gm now req born d :
  Membership.sg_Group req <> t -> group_of (sync_wake gm now req born d).1 = group_of gm.
Proof.
  intros Hn. unfold sync_wake. destruct (get gm _) as [g|]; [|done]. destruct (_ =? _); [|done].
  destruct (sync_loop _ _ _ _). by apply put_group_other.
Qed.
End others.

Section isolation.
Context `{Authorizer A} (auth : A) (h : Handler).
Context (disk : gostring -> Z -> partition_dir) (gunzip : list byte -> outcome (list byte)).
Context (remote : option (gostring -> outcome (list byte))) (ctx : RequestContext) (t : gostring).

(** The principal may not read, write or administer the resource. *)
Definition no_grant (res : Resource) : Prop :=
  authorize auth ctx OpRead res = false /\ authorize auth ctx OpWrite res = false /\
  authorize auth ctx OpAdmin res = false.

Section topics.
Context (Hno : no_grant (topic_res t)).

Lemma granted_other op name :
  authorize auth ctx op (topic_res name) = true -> op ∈ [OpRead; OpWrite; OpAdmin] -> name <> t.
Proof.
  intros Ha Hop ->. destruct Hno as (? & ? & ?). rewrite !elem_of_cons, elem_of_nil in Hop.
  destruct Hop as [->|[->|[->|[]]]]; congruence.
Qed.

Ltac other := eapply granted_other; [eassumption|rewrite !elem_of_cons; tauto].

(** A loop whose body leaves the topic alone does. *)
Lemma map_state_topic {X B} (f : Store -> X -> Store * outcome B) s xs :
  (forall s x, GetTopic (f s x).1 t = GetTopic s t) -> GetTopic (map_state f s xs).1 t = GetTopic s t.
Proof.
  intros Hf. apply (map_state_inv (fun s' => GetTopic s' t = GetTopic s t)); [|done].
  intros s1 x <-. apply Hf.
Qed.

Lemma metadata_isolated s version body :
  GetTopic (handleMetadata auth h disk s version body ctx).1 t = GetTopic s t.
Proof.
  unfold handleMetadata. destruct (decode _ body) as [req|e|]; [|done|done].
  destruct (advertisedFor h _) as [host port].
  rewrite <- (map_state_topic (metadata_topic auth h disk ctx (bool_decide (Metadata.req_Topics req = None)))
                s (default (TopicNames s) (Metadata.req_Topics req))); [by destruct (map_state _ _ _)|].
  clear s. intros s name. unfold metadata_topic.
  destruct (bool_decide (GetTopic s name = None) && cfg_AutoCreate (h_cfg h)); cbn [andb];
    [|repeat case_match; done].
  destruct (authorize auth ctx OpWrite (topic_res name)) eqn:Ew; [|repeat case_match; done].
  pose proof (EnsureTopic_other t s (disk name) name (cfg_DefaultPartitions (h_cfg h))) as He.
  unfold ensure. destruct (EnsureTopic _ _ _ _) as [s2 o]. cbn in He.
  rewrite <- He by other. destruct o; repeat case_match; done.
Qed.

Lemma produce_isolated s now version body :
  GetTopic (handleProduce auth h disk gunzip s now version body ctx).1 t = GetTopic s t.
Proof.
  unfold handleProduce. destruct (decode _ body) as [req|e|]; [|done|done].
  rewrite <- (map_state_topic (produce_topic auth h disk gunzip now (syncBeforeAck h (Produce.Acks req)) ctx)
                s (Produce.req_Topics req)); [by destruct (map_state _ _ _)|].
  clear s. intros s tp. unfold produce_topic.
  rewrite <- (map_state_topic (produce_partition h disk gunzip now (syncBeforeAck h (Produce.Acks req))
                (authorize auth ctx OpWrite (topic_res (Produce.req_Topic tp))) (Produce.req_Topic tp))
                s (Produce.req_Partitions tp)); [by destruct (map_state _ _ _)|].
  clear s. intros s p. unfold produce_partition.
  destruct (authorize auth ctx OpWrite (topic_res (Produce.req_Topic tp))) eqn:Ew; [|done].
  assert (Produce.req_Topic tp <> t) as Hne by other. cbn [negb].
  pose proof (EnsureTopic_other t s (disk (Produce.req_Topic tp)) (Produce.req_Topic tp)
                (cfg_DefaultPartitions (h_cfg h)) Hne) as He.
  match goal with |- context [let '(_, _) := ?c in _] => assert (GetTopic c.1 t = GetTopic s t) as Hc end.
  { unfold ensure. by repeat case_match. }
  match goal with |- context [let '(_, _) := ?c in _] => destruct c as [s1 o] end. cbn in Hc.
  rewrite <- Hc. assert (forall p0 part, GetTopic (put_partition s1 (Produce.req_Topic tp) p0 part) t
                           = GetTopic s1 t) as Hput by (intros; by apply put_get_topic).
  destruct o; repeat case_match; simplify_eq/=; done || apply Hput.
Qed.

Lemma fetch_answer_isolated s req : GetTopic (fetch_answer auth remote s ctx req).1 t = GetTopic s t.
Proof.
  unfold fetch_answer.
  rewrite <- (map_state_topic (fetch_topic auth remote ctx) s (Fetch.req_Topics req));
    [by destruct (map_state _ _ _)|].
  clear s. intros s tp. unfold fetch_topic.
  rewrite <- (map_state_topic (fetch_partition remote
                (authorize auth ctx OpRead (topic_res (Fetch.req_Topic tp))) (Fetch.req_Topic tp))
                s (Fetch.req_Partitions tp)); [by destruct (map_state _ _ _)|].
  clear s. intros s p. unfold fetch_partition.
  destruct (authorize auth ctx OpRead (topic_res (Fetch.req_Topic tp))) eqn:Er; [|done].
  assert (Fetch.req_Topic tp <> t) as Hne by other. cbn [negb].
  destruct (GetPartition s _ _) as [part|]; [|done].
  destruct (Read _ _ _ _) as [[log o] hwm].
  destruct o; cbn; by apply put_get_topic.
Qed.

Lemma fetch_isolated s now version body :
  GetTopic (handleFetch auth remote s now version body ctx).1 t = GetTopic s t.
Proof.
  unfold handleFetch. destruct (decode _ body) as [req|e|]; [|done|done].
  destruct (_ && _); [done|]. pose proof (fetch_answer_isolated s req) as Hf.
  by destruct (fetch_answer _ _ _ _ _).
Qed.

Lemma create_isolated s version body :
  GetTopic (handleCreateTopics auth disk s version body ctx).1 t = GetTopic s t.
Proof.
  unfold handleCreateTopics. destruct (decode _ body) as [req|e|]; [|done|done].
  rewrite <- (map_state_topic (create_topic auth disk (Topics.ValidateOnly req) ctx) s (Topics.creates req));
    [by destruct (map_state _ _ _)|].
  clear s. intros s tp. unfold create_topic.
  destruct (authorize auth ctx OpAdmin (topic_res (Topics.Topic tp))) eqn:Ea; [|done]. cbn [negb].
  assert (Topics.Topic tp <> t) as Hne by other.
  destruct (Topics.ValidateOnly req); [done|]. destruct (ValidateTopicName _); [|done|done].
  case_bool_decide; [done|]. destruct (_ <=? 0); [done|].
  pose proof (CreateTopic_other t s (disk (Topics.Topic tp)) (Topics.Topic tp) (Topics.NumPartitions tp) Hne) as Hc.
  destruct (CreateTopic _ _ _ _) as [s1 o]. cbn in Hc. rewrite <- Hc.
  destruct o; [|done|done]. by destruct (isCompacted _).
Qed.

Lemma delete_isolated s version body :
  GetTopic (handleDeleteTopics auth s version body ctx).1 t = GetTopic s t.
Proof.
  unfold handleDeleteTopics. destruct (decode _ body) as [req|e|]; [|done|done].
  rewrite <- (map_state_topic (delete_topic auth ctx) s (Topics.TopicNames req));
    [by destruct (map_state _ _ _)|].
  clear s. intros s name. unfold delete_topic.
  destruct (authorize auth ctx OpAdmin (topic_res name)) eqn:Ea; [|done]. cbn [negb].
  assert (name <> t) as Hne by other. case_bool_decide; [done|].
  pose proof (DeleteTopic_other t s name Hne) as Hc.
  destruct (DeleteTopic s name) as [s1 o]. cbn in Hc. rewrite <- Hc. by destruct o.
Qed.
End topics.

Section groups.
Context (Hno : no_grant (group_res t)).

Lemma granted_other_group op name :
  authorize auth ctx op (group_res name) = true -> op ∈ [OpRead; OpWrite; OpAdmin] -> name <> t.
Proof.
  intros Ha Hop ->. destruct Hno as (? & ? & ?). rewrite !elem_of_cons, elem_of_nil in Hop.
  destruct Hop as [->|[->|[->|[]]]]; congruence.
Qed.

Ltac other := eapply granted_other_group; [eassumption|rewrite !elem_of_cons; tauto].

Lemma join_isolated gm now version body :
  group_of t (handleJoinGroup auth gm now version body ctx).1 = group_of t gm.
Proof.
  unfold handleJoinGroup. destruct (decode _ body) as [req|e|]; [|done|done].
  destruct (authorize _ _ _ _) eqn:Ea; [|done].
  destruct (JoinGroup gm now req) as [[gm' r]|e|] eqn:Ej; [|done|done].
  apply (JoinGroup_other t) in Ej; [|other]. by destruct r.
Qed.

Lemma sync_isolated gm now version body :
  group_of t (handleSyncGroup auth gm now version body ctx).1 = group_of t gm.
Proof.
  unfold handleSyncGroup. destruct (decode _ body) as [req|e|]; [|done|done].
  destruct (authorize _ _ _ _) eqn:Ea; [|done].
  rewrite <- (SyncGroup_other t gm now req) by other.
  destruct (SyncGroup gm now req) as [gm' r]. by destruct r.
Qed.

Lemma heartbeat_isolated gm now version body :
  group_of t (handleHeartbeat auth gm now version body ctx).1 = group_of t gm.
Proof.
  unfold handleHeartbeat. destruct (decode _ body) as [req|e|]; [|done|done].
  destruct (authorize _ _ _ _) eqn:Ea; [|done].
  rewrite <- (Heartbeat_other t gm now req) by other. by destruct (Heartbeat gm now req).
Qed.

Lemma leave_isolated gm now version body :
  group_of t (handleLeaveGroup auth gm now version body ctx).1 = group_of t gm.
Proof.
  unfold handleLeaveGroup. destruct (decode _ body) as [req|e|]; [|done|done].
  destruct (authorize _ _ _ _) eqn:Ea; [|done].
  destruct (LeaveGroup gm now req) as [[gm' r]|e|] eqn:Ej; [|done|done].
  apply (LeaveGroup_other t) in Ej; [done|other].
Qed.

Lemma commit_isolated gm now version body crash :
  group_of t (handleOffsetCommit auth gm now version body ctx crash).1 = group_of t gm.
Proof.
  unfold handleOffsetCommit. destruct (decode _ body) as [req|e|]; [|done|done].
  destruct (authorize _ _ _ _) eqn:Ea; [|done].
  rewrite <- (OffsetCommit_other t gm now req crash) by other. by destruct (OffsetCommit gm now req crash).
Qed.

Lemma delete_groups_isolated gm version body fault :
  group_of t (handleDeleteGroups auth gm version body ctx fault).1 = group_of t gm.
Proof.
  unfold handleDeleteGroups. destruct (decode _ body) as [req|e|]; [|done|done].
  pose proof (map_state_inv (fun gm' => group_of t gm' = group_of t gm) (delete_group auth ctx fault) gm
                (GroupAdmin.xq_GroupIDs req)) as Hm.
  destruct (map_state _ _ _) as [gm' o]. cbn in Hm. cbn. apply Hm; [|done].
  intros gm1 name <-. unfold delete_group. destruct (authorize _ _ _ _) eqn:Ea; [|done]. cbn [negb].
  rewrite <- (DeleteGroup_other t gm1 name fault) by other.
  destruct (DeleteGroup gm1 name fault) as [gm2 r]. by destruct r.
Qed.

Lemma init_isolated gm version body :
  group_of t (handleInitProducerID auth gm version body ctx).1 = group_of t gm.
Proof.
  unfold handleInitProducerID. destruct (decode _ body) as [req|e|]; [|done|done].
  destruct (authorize _ _ _ _); [|done]. unfold NextProducerID.
  by destruct (Next _ _) as [[[m pid] e]|e|].
Qed.
End groups.

(** The handlers one by one. *)
Ltac handle_isolated :=
  unfold Handle, on_store, on_coord;
  repeat match goal with |- context [if ?c then _ else _] => destruct c; [try done|] end;
  cbn [br_store br_coord fst]; try done;
  repeat match goal with |- context [let '(_, _) := ?c in _] =>
    let E := fresh in destruct c eqn:E; apply (f_equal fst) in E; cbn in E; subst end;
  cbn [br_store br_coord fst];
  auto using metadata_isolated, produce_isolated, fetch_isolated, create_isolated, delete_isolated,
    join_isolated, sync_isolated, heartbeat_isolated, leave_isolated, commit_isolated,
    delete_groups_isolated, init_isolated.

Lemma Handle_topic b now apiKey version body crash :
  no_grant (topic_res t) ->
  GetTopic (br_store (Handle auth h disk gunzip remote b now apiKey version body ctx crash).1) t = GetTopic (br_store b) t.
Proof. intros Hno. handle_isolated. Qed.

Lemma Handle_group b now apiKey version body crash :
  no_grant (group_res t) ->
  group_of t (br_coord (Handle auth h disk gunzip remote b now apiKey version body ctx crash).1) = group_of t (br_coord b).
Proof. intros Hno. handle_isolated. Qed.

(** A waiting request of the principal woken at [now]. *)
Definition woken (b : Broker) (now : Z) (r : reply) : Broker * reply :=
  match r with
  | WaitFetch req pending deadline =>
      let '(s, r) := fetch_wake auth remote (br_store b) now ctx req pending deadline in (mkBroker s (br_coord b), r)
  | WaitJoin req memberID deadline =>
      let '(gm, r) := join_resume (br_coord b) now req memberID deadline in (mkBroker (br_store b) gm, r)
  | WaitSync req born deadline =>
      let '(gm, r) := sync_resume (br_coord b) now req born deadline in (mkBroker (br_store b) gm, r)
  | Reply o => (b, Reply o)
  end.

(** The group a waiting request is about is not [t]. *)
Definition waits_elsewhere (r : reply) : Prop :=
  match r with
  | WaitJoin req _ _ => Membership.jg_Group req <> t
  | WaitSync req _ _ => Membership.sg_Group req <> t
  | _ => True
  end.

Lemma Handle_waits b now apiKey version body crash :
  no_grant (group_res t) ->
  waits_elsewhere (Handle auth h disk gunzip remote b now apiKey version body ctx crash).2.
Proof.
  intros Hno. unfold Handle, on_store, on_coord, handleFetch, handleJoinGroup, handleSyncGroup.
  repeat match goal with |- context [if ?c then _ else _] => destruct c; [try done|] end; try done.
  - destruct (decode _ body); [|done|done]. destruct (_ && _); [done|]. by destruct (fetch_answer _ _ _ _ _).
  - destruct (decode _ body) as [req|e|]; [|done|done]. destruct (authorize _ _ _ _) eqn:Ea; [|done].
    destruct (JoinGroup _ _ _) as [[gm r]|e|]; [|done|done]. destruct r; [done|]. cbn.
    eapply granted_other_group; [done|exact Ea|rewrite !elem_of_cons; tauto].
  - destruct (decode _ body) as [req|e|]; [|done|done]. destruct (authorize _ _ _ _) eqn:Ea; [|done].
    destruct (SyncGroup _ _ _) as [gm r]. destruct r; [done|]. cbn.
    eapply granted_other_group; [done|exact Ea|rewrite !elem_of_cons; tauto].
Qed.

Lemma woken_topic b now r :
  no_grant (topic_res t) -> GetTopic (br_store (woken b now r).1) t = GetTopic (br_store b) t.
Proof.
  intros Hno. destruct r as [o|req pending d|req id d|req born d]; cbn [woken].
  - done.
  - unfold fetch_wake. destruct (_ || _); [|done].
    pose proof (fetch_answer_isolated Hno (br_store b) req) as Hf. by destruct (fetch_answer _ _ _ _ _).
  - by destruct (join_resume _ _ _ _ _).
  - by destruct (sync_resume _ _ _ _ _).
Qed.

Lemma woken_group b now r :
  waits_elsewhere r ->
  group_of t (br_coord (woken b now r).1) = group_of t (br_coord b) /\ waits_elsewhere (woken b now r).2.
Proof.
  destruct r as [o|req pending d|req id d|req born d]; cbn [woken waits_elsewhere]; intros Hw.
  - done.
  - unfold fetch_wake. destruct (_ || _); [|done]. by destruct (fetch_answer _ _ _ _ _).
  - unfold join_resume. destruct (join_wake _ _ _ _ _) as [[gm r]|e|] eqn:E; [|done|done].
    apply (join_wake_other t) in E; [|done]. by destruct r.
  - unfold sync_resume. pose proof (sync_wake_other t (br_coord b) now req born d Hw) as Hs.
    destruct (sync_wake _ _ _ _ _) as [gm r] eqn:E. cbn in Hs. by destruct r.
Qed.

(** The broker between the wake-ups of a request is whatever others made of it. *)
Fixpoint untouched (r : reply) (wakes : list (Broker * Z)) : Prop :=
  match wakes with
  | [] => True
  | (b, now) :: wakes =>
      (no_grant (topic_res t) -> GetTopic (br_store (woken b now r).1) t = GetTopic (br_store b) t) /\
      (no_grant (group_res t) -> group_of t (br_coord (woken b now r).1) = group_of t (br_coord b)) /\
      untouched (woken b now r).2 wakes
  end.

(** C14: isolation. Whatever request a principal sends, of whatever version and
    with whatever body, a topic on which it has none of the Read, Write and
    Admin operations is afterwards what it was (its partitions, their logs and
    their producers included), and so is a consumer group on which it has none
    of them: its members, state and assignments, and the offsets committed for
    it as the broker holds them. If the request waits, the same is true of
    every later wake-up of it, whatever others did to the broker in between. *)
Theorem isolation b now apiKey version body crash wakes :
  let '(b', r) := Handle auth h disk gunzip remote b now apiKey version body ctx crash in
  (no_grant (topic_res t) -> GetTopic (br_store b') t = GetTopic (br_store b) t) /\
  (no_grant (group_res t) -> group_of t (br_coord b') = group_of t (br_coord b)) /\
  untouched r wakes.
Proof.
  pose proof (Handle_waits b now apiKey version body crash) as Hw.
  pose proof (Handle_topic b now apiKey version body crash) as Ht.
  pose proof (Handle_group b now apiKey version body crash) as Hg.
  destruct (Handle _ _ _ _ _ _ _ _ _ _ _ _) as [b' r]. cbn [fst snd] in *. split_and!; [done..|].
  clear Ht Hg. revert r Hw. induction wakes as [|[b1 now1] wakes IH]; intros r Hw; [done|]. cbn [untouched].
  split; [apply woken_topic|]. split; [intros Hno; by apply woken_group, Hw|].
  apply IH. intros Hno. by apply woken_group, Hw.
Qed.
End isolation.

(** ** Examples *)

Definition demo_batch : RecordBatch :=
  mkBatch 0 0 0 0 0 0 0 0 (-1) (-1) (-1) [mkRecord 0 0 0 (Some [x6b]) (Some [x76]) []].

Definition demo_encoded : list byte :=
  match EncodeRecordBatch demo_batch with Ok raw => raw | _ => [] end.

Definition demo_gunzip (data : list byte) : outcome (list byte) := Err "gzip: invalid header".

Definition demo_topic : gostring := str "orders".

Definition demo_broker : Broker :=
  mkBroker (CreateTopic demo_store (fun _ => empty_dir) demo_topic 1).1
    (NewGroupManager (mkStore ∅ (Some []) 0 false false None) 1 (str "localhost") 9092 0).

Definition demo_handler : Handler :=
  mkHandler (mkConfig (str "c") true 1 FlushPolicyRequest true) 1 (str "localhost") 9092 ∅.

Definition demo_ctx : RequestContext := mkContext [] 9092 [] [].

Lemma produce_then_fetch_witness :
  exists b1 pbytes,
    Handle AllowAll demo_handler (fun _ _ => empty_dir) demo_gunzip None demo_broker 0 APKProduce 3
      (Produce.EncodeProduceRequest (one_produce 3 (-1) 1000 demo_topic 0 demo_encoded) NewWriter)
      demo_ctx None = (b1, Reply (Ok pbytes)).
Proof.
  edestruct (produce_then_fetch AllowAll demo_handler (fun _ _ => empty_dir) demo_gunzip None demo_broker 0 1
           demo_ctx None demo_topic 0 (fresh_partition 1048576 4096) [[]] demo_batch demo_encoded 3 (-1) 1000 1000)
    as (b1 & pbytes & _ & _ & Hp & _); [..|exact (ex_intro _ b1 (ex_intro _ pbytes Hp))].
  - vm_compute; reflexivity.
  - vm_compute; reflexivity.
  - vm_compute; reflexivity.
  - apply fresh_partition_inv. reflexivity.
  - decide_closed.
  - vm_compute; reflexivity.
  - vm_compute; reflexivity.
  - vm_compute; reflexivity.
  - vm_compute; discriminate.
  - vm_compute; discriminate.
  - vm_compute; discriminate.
  - intros a [= <-]. vm_compute. split; discriminate.
  - reflexivity.
  - repeat constructor; vm_compute; discriminate.
  - lia.
  - lia.
  - decide_closed.
  - decide_closed.
  - decide_closed.
  - decide_closed.
Defined.

Lemma isolation_witness :
  let '(b', r) := Handle demo_rules demo_handler (fun _ _ => empty_dir) demo_gunzip None demo_broker 0
    APKProduce 3 (Produce.EncodeProduceRequest (one_produce 3 (-1) 1000 demo_topic 0 demo_encoded) NewWriter)
    demo_ctx None in
  GetTopic (br_store b') demo_topic = GetTopic (br_store demo_broker) demo_topic /\
  group_of demo_topic (br_coord b') = group_of demo_topic (br_coord demo_broker).
Proof.
  pose proof (isolation demo_rules demo_handler (fun _ _ => empty_dir) demo_gunzip None demo_ctx demo_topic
    demo_broker 0 APKProduce 3
    (Produce.EncodeProduceRequest (one_produce 3 (-1) 1000 demo_topic 0 demo_encoded) NewWriter) None []) as Hi.
  destruct (Handle _ _ _ _ _ _ _ _ _ _ _ _) as [b' r]. destruct Hi as (Ht & Hg & _).
  split; [apply Ht|apply Hg]; split_and!; vm_compute; reflexivity.
Defined.

(** ** What the broker does not check in a batch *)

Definition patch (raw : list byte) (pos : nat) (bs : list byte) : list byte :=
  take pos raw ++ bs ++ drop (pos + length bs) raw.

Definition demo_append (part : PartitionState) (raw : list byte) : PartitionState * outcome Z :=
  appendToPartition demo_gunzip part raw false 0.

(** The length field and the offset delta of a produced batch are stored
    unchecked. A batch whose length field is 0 is acknowledged at offset 0; the
    good batch after it is acknowledged at offset 1, but a fetch from either
    offset returns nothing, and after a restart the log is empty. A batch with
    the offset delta -3 is acknowledged and moves the log end from 2 back to
    0. *)
Theorem batch_header_unchecked :
  let p0 := fresh_partition 1048576 4096 in
  let '(p1, o1) := demo_append p0 (patch demo_encoded 8 (be 4 0)) in
  let '(p2, o2) := demo_append p1 demo_encoded in
  o1 = Ok 0 /\ o2 = Ok 1 /\ pt_highWatermark (ps_log p2) = 2 /\
  Read None (ps_log p2) 0 1000 = (ps_log p2, Ok [], 2) /\
  Read None (ps_log p2) 1 1000 = (ps_log p2, Ok [], 2) /\
  (exists p3, recover_partition (dir_files (orderedSegmentsLocked (ps_log p2))) [0]
                (unopened (ps_log p2)) = Ok p3 /\ pt_highWatermark p3 = 0) /\
  (let '(q1, _) := demo_append p0 demo_encoded in
   let '(q2, _) := demo_append q1 demo_encoded in
   let '(q3, o3) := demo_append q2 (patch demo_encoded 23 (be 4 (u32 (-3)))) in
   o3 = Ok 2 /\ pt_highWatermark (ps_log q3) = 0).
Proof.
  vm_compute. split_and!; try reflexivity. eexists. split; reflexivity.
Qed.

Definition demo_packed : list byte :=
  match lz4BlockCompress (replicate 8 x00) with Ok packed => packed | _ => [] end.

(** A compressed batch whose record count is negative crashes the broker: the
    count is the capacity of a new slice. *)
Theorem negative_count_panics :
  lz4BlockDecompress demo_packed = Ok (replicate 8 x00) /\
  (demo_append (fresh_partition 1048576 4096)
     (patch (patch (take 61 demo_encoded) 21 (be 2 CompressionLZ4)) 57 (be 4 (u32 (-1))) ++ demo_packed)).2
  = Panic.
Proof. vm_compute. split; reflexivity. Qed.
