(* ===== verification/OneRecord.v ===== *)
(** * A record in a batch of its own

    What the MQTT bridge, the REST gateway and the console do to store a message: a
    batch of one record, appended to a partition and read back from where it went. *)

From stdpp Require Import prelude list gmap strings.
From Stdlib Require Import ZArith Lia.
From S2P Require Import Prelude GoStrings GoBinary Wire RecordBatch Index Segment SegmentOps Partition PartitionOps.
From S2P Require Import Compaction CompactionProps CompactionWriter BrokerProps.

Lemma decodes_fields raw d :
  decodes_as raw d -> rb_BaseOffset d = raw_base raw /\ rb_LastOffsetDelta d = raw_lod raw.
Proof.
  unfold decodes_as, DecodeRecordBatch. destruct (_ <? 61); [done|]. destruct (negb _); [done|].
  destruct (decode_records _ _); [|done|done]. cbn [obind]. intros <-%(inj Ok). done.
Qed.

Lemma fits_le m n segs : m <= n -> fits n segs -> fits m segs.
Proof. intros Hle Hf. eapply Forall_impl; [exact Hf|]. cbn. intros. lia. Qed.

(** A partition with room for a batch of [size] bytes, from which [mx] bytes can be
    read at once. *)
Record ready_for (mx size : Z) (p : Partition) (bss : list (list (list byte))) : Prop := {
  rl_inv : pt_inv p bss;
  rl_next : pt_nextOffset p < 4611686018427387904;
  rl_room : forall a, pt_active p = Some a ->
    pt_nextOffset p + 1 - seg_baseOffset a <= 2147483647 /\ seg_size a + size <= 4294967295;
  rl_fits : fits (mx + size) (orderedSegmentsLocked p) }.
Arguments rl_inv {mx size}.
Arguments rl_next {mx size}.
Arguments rl_room {mx size}.
Arguments rl_fits {mx size}.

Lemma ready_le mx mx' size size' p bss : mx' <= mx -> size' <= size -> ready_for mx size p bss -> ready_for mx' size' p bss.
Proof.
  intros H1 H2 [Hi Hn Hr Hf]. split; [done|done| |eapply fits_le; [|done]; lia]. intros a Ha. destruct (Hr a Ha). lia.
Qed.

Lemma append_one mx size p bss ms rec :
  ready_for mx size p bss -> light rec -> 61 + weight rec <= size -> in_i64 ms ->
  exists raw p' bss' stored d,
    EncodeRecordBatch (flushed ms [rec]) = Ok raw /\
    Append p raw = (p', Ok (pt_nextOffset p)) /\ pt_inv p' bss' /\ mjoin bss' = mjoin bss ++ [stored] /\
    decodes_as stored d /\ rb_Records d = [norm_record (copied 0 rec)] /\ rb_BaseTimestamp d = ms /\
    chain (pt_nextOffset p) [stored] (pt_nextOffset p') /\
    pt_nextOffset p' = pt_nextOffset p + 1 /\ earliestOffsetLocked p' = earliestOffsetLocked p /\
    fits mx (orderedSegmentsLocked p').
Proof.
  intros [Hp Hnext Hroom Hfit] Hlight Hsize Hms. set (batch := flushed ms [rec]).
  assert (wf_batch batch) as Hw by (apply flushed_wf; [done|by constructor|cbn; lia]).
  assert (zlen (encoded_records batch) <= weight rec) as Hl.
  { unfold encoded_records, batch, flushed, for_each. cbn [rb_Records imap fold_left]. apply (copied_len 0). }
  set (off := pt_nextOffset p) in *. assert (in_u32 (batch_crc batch)) as Hcrc by apply crc32c_range.
  set (raw := batch_layout batch (batch_crc batch) (encoded_records batch)).
  pose proof (layout_lod batch (batch_crc batch) (encoded_records batch) Hw Hcrc : raw_lod raw = 0) as Hlod.
  assert (zlen raw <= size) as Hraw by (unfold raw; rewrite batch_layout_len; lia).
  destruct (AppendSynced_spec p bss raw false 0 Hp) as (p' & bss' & Ha & Hp' & Hb & Hn & Hh & He & Hfits).
  { by apply layout_wf. }
  { rewrite Hlod. intros a Hact. destruct (Hroom a Hact) as [? ?]. fold off. lia. }
  { fold off. lia. }
  fold off in Hb, Hn. rewrite Hlod in Hn.
  assert (0 <= off) as Hoff. { pose proof (earliest_range _ _ Hp). fold off in H. lia. }
  assert (wf_batch (with_base batch off)) as Hwb. { destruct Hw as (_ & Hw). split; [|exact Hw]. cbn. mlia. }
  assert (set_base raw off = batch_layout (with_base batch off) (batch_crc batch)
            (encoded_records (with_base batch off))) as Hset by reflexivity.
  exists raw, p', bss', (set_base raw off), (norm_batch (with_base batch off) (batch_crc batch)).
  split_and!; [exact (EncodeRecordBatch_layout batch Hw)| |exact Hp'|exact Hb| |reflexivity|reflexivity| |lia|exact He|].
  - unfold AppendSynced in Ha. destruct (Append p raw) as [q [o|e|]]; (exact Ha || discriminate).
  - unfold decodes_as. rewrite Hset. by apply decode_layout.
  - rewrite Hset. split; [exact (proj1 (batch_fields (with_base batch off) _ _ Hwb Hcrc))|].
    cbn [chain]. by rewrite layout_lod, Hn.
  - apply Hfits. apply (fits_le _ (mx + size)); [lia|done].
Qed.

(** Reading from an offset gives some of the batches from the one that has it, at
    least one. *)
Lemma read_at fetch p bss bs1 bs2 o mx :
  pt_inv p bss -> mjoin bss = bs1 ++ bs2 -> Forall (fun b => raw_last b < o) bs1 -> Forall (fun b => o <= raw_last b) bs2 ->
  earliestOffsetLocked p <= o < pt_nextOffset p -> bs2 <> [] -> 0 < mx -> fits mx (orderedSegmentsLocked p) ->
  exists k, (0 < k <= length bs2)%nat /\ Read fetch p o mx = (p, Ok (mjoin (take k bs2)), pt_highWatermark p).
Proof.
  intros Hp Hj Hb1 Hb2 Ho Hne Hmx Hfit. destruct bs2 as [|b bs2]; [done|]. clear Hne. pose proof (earliest_range _ _ Hp) as [He0 _].
  rewrite (Read_spec fetch p bss) by (done || lia). rewrite Hj, spec_read_skip by done.
  destruct (spec_read_some o mx b bs2) as [k ->]; [done|done|].
  exists (S (min k (length bs2))). cbn [length]. split; [lia|].
  assert (take (S k) (b :: bs2) = take (S (min k (length bs2))) (b :: bs2)) as <-; [|done].
  cbn [take]. f_equal. rewrite <- (take_ge bs2 (length bs2)) at 1 by lia. by rewrite take_take.
Qed.

(** The same from a batch boundary. *)
Lemma read_from fetch p bss bs1 bs2 o e mx :
  pt_inv p bss -> mjoin bss = bs1 ++ bs2 -> chain (earliestOffsetLocked p) bs1 o -> chain o bs2 e ->
  e = pt_nextOffset p -> bs2 <> [] -> 0 < mx -> fits mx (orderedSegmentsLocked p) ->
  exists k, (0 < k <= length bs2)%nat /\ Read fetch p o mx = (p, Ok (mjoin (take k bs2)), pt_highWatermark p).
Proof.
  intros Hp Hj Hc1 Hc2 He Hne Hmx Hfit. destruct (segs_inv_chain _ _ _ _ (pi_segs _ _ Hp)) as [Hw _]. rewrite Hj in Hw.
  apply Forall_app in Hw as [Hw1 Hw2]. pose proof (chain_mono _ _ _ Hw1 Hc1). pose proof (chain_bounds _ _ _ Hw2 Hc2) as Hb2.
  apply (read_at fetch p bss bs1 bs2); try done.
  - eapply Forall_impl; [exact (chain_bounds _ _ _ Hw1 Hc1)|]. cbn. intros. lia.
  - eapply Forall_impl; [exact Hb2|]. cbn. intros. lia.
  - destruct bs2; [done|]. apply Forall_cons in Hb2 as [? _]. lia.
Qed.

(** Where an offset lies in a log. *)
Lemma chain_split_at o bs e x :
  Forall wf_raw bs -> chain o bs e -> o <= x < e ->
  exists bs1 bs2, bs = bs1 ++ bs2 /\ bs2 <> [] /\ Forall (fun b => raw_last b < x) bs1 /\ Forall (fun b => x <= raw_last b) bs2.
Proof.
  intros Hw. revert o. induction Hw as [|b bs Hb Hw IH]; intros o Hc Hx; [cbn in Hc; lia|].
  pose proof (chain_bounds _ _ _ (Forall_cons_2 _ _ _ Hb Hw) Hc) as Hall. destruct Hc as [Hbase Hc].
  destruct (decide (raw_last b < x)) as [Hl|Hl].
  - destruct (IH _ Hc) as (bs1 & bs2 & -> & Hne & H1 & H2); [unfold raw_last in Hl; lia|].
    exists (b :: bs1), bs2. split_and!; try done. by constructor.
  - exists [], (b :: bs). split_and!; try done. constructor; [lia|]. pose proof (chain_bounds _ _ _ Hw Hc) as Hr.
    eapply Forall_impl; [exact Hr|]. cbn. unfold raw_last in *. intros. lia.
Qed.

(** ** Decoding what was read

    The loop of [decodeRecords] in internal/gateway/rest.go and internal/web/web.go: a
    batch that does not decode is skipped. A batch length that takes no step forward
    keeps the loop going for ever ([no_fuel]); what a partition returns has none. *)
Fixpoint decode_batches (fuel : nat) (raw : list byte) : outcome (list RecordBatch) :=
  match fuel with
  | O => Err no_fuel
  | S k =>
      if zlen raw <=? 0 then Ok [] else
      match ParseRecordBatchHeader raw with
      | Ok h =>
          let total := BatchTotalSize h in
          if zlen raw <? total then Ok [] else
          if total <? 0 then Panic else
          match DecodeRecordBatch (take (Z.to_nat total) raw) with
          | Ok b => let? bs := decode_batches k (drop (Z.to_nat total) raw) in Ok (b :: bs)
          | Err _ => decode_batches k (drop (Z.to_nat total) raw)
          | Panic => Panic
          end
      | Err _ => Ok []
      | Panic => Panic
      end
  end.

Lemma decode_batches_spec fuel bs ds :
  Forall wf_raw bs -> Forall2 decodes_as bs ds -> (length (mjoin bs) < fuel)%nat -> decode_batches fuel (mjoin bs) = Ok ds.
Proof.
  intros Hw Hd. revert fuel. induction Hd as [|b d bs ds Hb _ IH]; intros fuel Hf; (destruct fuel as [|fuel]; [lia|]); [done|].
  apply Forall_cons in Hw as [Hwb Hw]. pose proof Hwb as (H61 & _). rewrite mjoin_cons in *. rewrite length_app in Hf.
  destruct (header_app b (mjoin bs) Hwb) as (h & Hh & Ht & _ & _). pose proof (zlen_nonneg (mjoin bs)).
  cbn [decode_batches]. rewrite (proj2 (Z.leb_gt _ _)) by (rewrite zlen_app; lia). rewrite Hh, Ht.
  rewrite !(proj2 (Z.ltb_ge _ _)) by (rewrite ?zlen_app; lia). unfold zlen in *. rewrite Nat2Z.id, take_app_length, drop_app_length.
  unfold decodes_as in Hb. rewrite Hb, (IH Hw fuel) by lia. done.
Qed.
