(* ===== verification/Sasl.v ===== *)
(** * Authentication of a connection (internal/server/server.go, the SASL part)

    [connState] is what the server keeps per connection. The handlers take it
    and give it back changed, with the body of the answer and the two flags of
    the Go code: authenticated, and failed. Random bytes are an argument. *)

From stdpp Require Import prelude list strings.
From Stdlib Require Import ZArith Lia.
From S2P Require Import Prelude GoStrings Wire GoCrypto Credential Scram Frame MsgAdmin.

(** config.go, [SecurityUser] (password files are resolved when the file is
    loaded) and the settings the server reads. *)
Record SecurityUser := mkUser {
  u_Username : gostring; u_Password : gostring; u_PasswordHash : gostring; u_SCRAMVerifier : gostring }.

Record ServerConfig := mkServerConfig {
  sc_SecurityEnabled : bool;
  sc_Users : list SecurityUser;
  sc_RequireTLSForPlain : bool;
  sc_SCRAMIterations : Z;
  sc_AuthSecret : gostring;
  sc_MaxRequestSizeBytes : Z;
  sc_PreAuthMaxRequestBytes : Z;
  sc_MaxConnections : Z }.

Record connState := mkState {
  st_authed : bool;
  st_principal : gostring;
  st_mechanism : gostring;
  st_scram : option scramSession;
  st_scramUsername : gostring;
  st_tls : bool;
  st_saslFailures : Z }.

Definition set_authed (st : connState) (b : bool) : connState :=
  mkState b (st_principal st) (st_mechanism st) (st_scram st) (st_scramUsername st) (st_tls st) (st_saslFailures st).
Definition set_principal (st : connState) (p : gostring) : connState :=
  mkState (st_authed st) p (st_mechanism st) (st_scram st) (st_scramUsername st) (st_tls st) (st_saslFailures st).
Definition set_mechanism (st : connState) (m : gostring) : connState :=
  mkState (st_authed st) (st_principal st) m (st_scram st) (st_scramUsername st) (st_tls st) (st_saslFailures st).
Definition set_scram (st : connState) (s : option scramSession) (user : gostring) : connState :=
  mkState (st_authed st) (st_principal st) (st_mechanism st) s user (st_tls st) (st_saslFailures st).
Definition set_failures (st : connState) (n : Z) : connState :=
  mkState (st_authed st) (st_principal st) (st_mechanism st) (st_scram st) (st_scramUsername st) (st_tls st) n.

Definition maxSASLFailuresPerConn : Z := 3.

Definition plain : gostring := str "PLAIN".
Definition scram256 : gostring := str "SCRAM-SHA-256".
Definition scram512 : gostring := str "SCRAM-SHA-512".

Section sasl.
Context (cfg : ServerConfig).

Definition supportedMechanisms (encrypted : bool) : option (list gostring) :=
  if negb (sc_SecurityEnabled cfg) then None
  else if sc_RequireTLSForPlain cfg && negb encrypted then Some [scram256; scram512]
  else Some [plain; scram256; scram512].

Definition handleSASLHandshake (st : connState) (version : Z) (body : list byte)
  : outcome (connState * list byte) :=
  let? req := decode (Session.DecodeSASLHandshakeRequest version) body in
  let offered := supportedMechanisms (st_tls st) in
  let allowed := bool_decide (Session.Mechanism req ∈ default [] offered) in
  Ok (if allowed then set_mechanism st (Session.Mechanism req) else st,
      Session.EncodeSASLHandshakeResponse
        (Session.mkSASLHandshakeResponse version (if allowed then ErrNone else ErrIllegalSaslState) offered)
        NewWriter).

(** The body of a [SaslAuthenticateResponse] without a session lifetime. *)
Definition auth_response (version code : Z) (reason : option gostring) (bytes : gobytes) : list byte :=
  Session.EncodeSaslAuthenticateResponse
    (Session.mkSaslAuthenticateResponse version code reason bytes 0) NewWriter.

(** The answer of an authentication step: the state, the body, authenticated,
    failed. *)
Definition auth_result : Type := connState * list byte * bool * bool.

Definition saslReject (st : connState) (version : Z) (reason : gostring) : auth_result :=
  (st, auth_response version ErrSaslAuthenticationFailed (Some reason) None, false, true).

Fixpoint find_user (users : list SecurityUser) (username : gostring) : option SecurityUser :=
  match users with
  | [] => None
  | u :: us => if bool_decide (u_Username u = username) then Some u else find_user us username
  end.

Definition findUser (username : gostring) : option SecurityUser := find_user (sc_Users cfg) username.

Definition scramSalt (m : Mechanism) (username : gostring) : list byte :=
  take 32 (hmac sha256 (sc_AuthSecret cfg) (str "pocketkafka-scram-salt|" ++ m_Name m ++ str "|" ++ username)).

Definition scramIterations : Z :=
  if 0 <? sc_SCRAMIterations cfg then sc_SCRAMIterations cfg else DefaultSCRAMIterations.

Definition decoy (username : gostring) : gostring := str "pocketkafka-decoy-" ++ username.

Definition scramVerifierFor (m : Mechanism) (username : gostring) : outcome Verifier :=
  let salt := scramSalt m username in
  match findUser username with
  | None => DeriveVerifier m (decoy username) salt scramIterations
  | Some user =>
      if negb (bool_decide (u_SCRAMVerifier user = [])) then
        let? v := ParseVerifier (u_SCRAMVerifier user) in
        if negb (bool_decide (m_Name (v_Mechanism v) = m_Name m))
        then Err "stored SCRAM verifier is for another mechanism" else
        let? _ := DeriveVerifier m (str "pocketkafka-step1-padding-" ++ username) salt (v_Iterations v) in
        Ok v
      else if negb (bool_decide (u_Password user = [])) then DeriveVerifier m (u_Password user) salt scramIterations
      else Err "user has no SCRAM credential"
  end.

(** The loop ends at the first user of that name. *)
Fixpoint plain_loop (users : list SecurityUser) (username password : gostring) : option gostring :=
  match users with
  | [] => None
  | u :: us =>
      if negb (bool_decide (u_Username u = username)) || bool_decide (u_Username u = [])
      then plain_loop us username password
      else if bool_decide (u_Password u = []) && bool_decide (u_PasswordHash u = []) then None
      else
        let stored := if bool_decide (u_Password u = []) then u_PasswordHash u else u_Password u in
        if Matches stored password then Some username else None
  end.

Definition authenticatePlain (token : gostring) : option gostring :=
  match SplitN token x00 3 with
  | [_; username; password] => plain_loop (sc_Users cfg) username password
  | _ => None
  end.

Definition handleSCRAM (rand : outcome (list byte)) (st : connState) (version : Z) (msg : gostring)
  : outcome auth_result :=
  match st_scram st with
  | None =>
      match MechanismByName (st_mechanism st) with
      | None => Ok (saslReject st version (str "unsupported SASL mechanism"))
      | Some mech =>
          let username := scramUsername msg in
          match scramVerifierFor mech username with
          | Ok verifier =>
              match newScramSession rand mech verifier msg with
              | Ok (session, serverFirst) =>
                  Ok (set_scram st (Some session) username,
                      auth_response version ErrNone None (Some serverFirst), false, false)
              | Err _ => Ok (saslReject st version (str "authentication failed"))
              | Panic => Panic
              end
          | Err _ => Ok (saslReject st version (str "authentication failed"))
          | Panic => Panic
          end
      end
  | Some session =>
      match finish session msg with
      | Ok (session, final) =>
          Ok (set_principal (set_scram st (Some session) (st_scramUsername st)) (st_scramUsername st),
              auth_response version ErrNone None (Some final), true, false)
      | Err _ => Ok (saslReject st version (str "authentication failed"))
      | Panic => Panic
      end
  end.

Definition handleSASLAuthenticate (rand : outcome (list byte)) (st : connState) (version : Z) (body : list byte)
  : outcome auth_result :=
  let? req := decode (Session.DecodeSaslAuthenticateRequest version) body in
  let bytes := default [] (Session.AuthBytes req) in
  if bool_decide (st_mechanism st = []) then
    Ok (saslReject st version (str "SASL handshake required before authentication"))
  else if bool_decide (st_mechanism st = plain) then
    if sc_RequireTLSForPlain cfg && negb (st_tls st) then
      Ok (saslReject st version (str "SASL/PLAIN requires TLS: use SCRAM or connect over the TLS listener"))
    else
      match authenticatePlain bytes with
      | Some user => Ok (set_principal st user, auth_response version ErrNone None None, true, false)
      | None => Ok (saslReject st version (str "SASL authentication failed"))
      end
  else if bool_decide (st_mechanism st = scram256) || bool_decide (st_mechanism st = scram512) then
    handleSCRAM rand st version bytes
  else Ok (saslReject st version (str "no SASL mechanism selected")).
End sasl.

(** ** Soundness: who is authenticated *)

Section sound.
Context (cfg : ServerConfig).

(** A request read from a connection, and the bytes an authenticate request
    carries. *)
Definition request : Type := RequestHeader * list byte.

Definition carried (r : request) (msg : gostring) : Prop :=
  ApiKey r.1 = APKSaslAuthenticate /\
  exists req, decode (Session.DecodeSaslAuthenticateRequest (ApiVersion r.1)) r.2 = Ok req /\
    default [] (Session.AuthBytes req) = msg.

(** The token names [p] and holds the password of the first user of that name. *)
Definition plain_shown (token p : gostring) : Prop :=
  exists authzid password u, SplitN token x00 3 = [authzid; p; password] /\ findUser cfg p = Some u /\ p <> [] /\
    (u_Password u <> [] \/ u_PasswordHash u <> []) /\
    Matches (if bool_decide (u_Password u = []) then u_PasswordHash u else u_Password u) password = true.

(** The first message names [p] and starts the session [s] with the verifier the
    server uses for that name. *)
Definition scram_started (first : gostring) (s : scramSession) (p : gostring) : Prop :=
  scramUsername first = p /\
  exists rand m v out, known_mechanism m /\ scramVerifierFor cfg m p = Ok v /\
    newScramSession rand m v first = Ok (s, out).

(** What a client sent to act as [p]: a token with the password (over TLS, where
    that is required), or the two messages of a SCRAM exchange. *)
Inductive shown (sent : list request) (tls : bool) (p : gostring) : Prop :=
  | shown_plain r token :
      r ∈ sent -> carried r token -> plain_shown token p -> (sc_RequireTLSForPlain cfg = true -> tls = true) ->
      shown sent tls p
  | shown_scram before r1 between r2 after first final s :
      sent = before ++ r1 :: between ++ r2 :: after -> carried r1 first -> carried r2 final ->
      scram_started first s p -> scram_proof s final -> shown sent tls p.

Lemma shown_more sent more tls p : shown sent tls p -> shown (sent ++ more) tls p.
Proof.
  intros [r token Hr Hc Hp Ht|before r1 between r2 after first final s -> H1 H2 Hs Hf].
  - eapply shown_plain; [|done..]. apply elem_of_app. by left.
  - eapply (shown_scram _ _ _ before r1 between r2 (after ++ more)); [|done..].
    by rewrite <- app_assoc, <- app_comm_cons, <- app_assoc, <- app_comm_cons.
Qed.

(** The session a connection holds was started by a message of its client. *)
Definition session_ok (sent : list request) (st : connState) : Prop :=
  match st_scram st with
  | None => True
  | Some s => exists before r1 after first, sent = before ++ r1 :: after /\ carried r1 first /\
      scram_started first s (st_scramUsername st)
  end.

Lemma session_more sent more st : session_ok sent st -> session_ok (sent ++ more) st.
Proof.
  unfold session_ok. destruct (st_scram st); [|done]. intros (before & r1 & after & first & -> & Hr).
  exists before, r1, (after ++ more), first. by rewrite <- app_assoc, <- app_comm_cons.
Qed.

Lemma plain_loop_user users username password p :
  plain_loop users username password = Some p ->
  p = username /\ p <> [] /\ exists u, find_user users p = Some u /\
    (u_Password u <> [] \/ u_PasswordHash u <> []) /\
    Matches (if bool_decide (u_Password u = []) then u_PasswordHash u else u_Password u) password = true.
Proof.
  induction users as [|u us IH]; cbn [plain_loop find_user]; [done|].
  destruct (decide (u_Username u = username)) as [Hu|Hu].
  2: { rewrite (bool_decide_eq_false_2 (u_Username u = username)) by done. cbn [negb orb]. intros Hp.
       destruct (IH Hp) as (-> & Hne & w & Hw). split; [done|]. split; [done|]. exists w.
       by rewrite bool_decide_eq_false_2. }
  rewrite (bool_decide_eq_true_2 (u_Username u = username)) by done. cbn [negb orb]. case_bool_decide as He.
  { intros Hp. destruct (IH Hp) as (-> & Hne & _). by rewrite <- Hu in Hne. }
  destruct (_ && _) eqn:E3; [done|]. destruct (Matches _ _) eqn:E4; [|done]. intros [= <-].
  split; [done|]. split; [congruence|]. exists u. rewrite bool_decide_eq_true_2 by done. split; [done|]. split; [|done].
  apply andb_false_iff in E3 as [E3|E3]; apply bool_decide_eq_false_1 in E3; auto.
Qed.

Lemma authenticatePlain_shown token p : authenticatePlain cfg token = Some p -> plain_shown token p.
Proof.
  unfold authenticatePlain, plain_shown. destruct (SplitN token x00 3) as [|a [|u [|pw [|]]]]; try done.
  intros (-> & Hne & w & Hw & H1 & H2)%plain_loop_user. by exists a, pw, w.
Qed.

Lemma ParseVerifier_known s v : ParseVerifier s = Ok v -> known_mechanism (v_Mechanism v).
Proof.
  unfold ParseVerifier. destruct (Split (TrimSpace s) x24) as [|p0 [|p1 [|p2 [|p3 [|p4 [|]]]]]]; try done.
  destruct (negb _); [done|]. destruct (MechanismByName _) as [m|] eqn:Em; [|done].
  destruct (Atoi p1); try done. destruct (_ || _); [done|].
  destruct (b64_decode p2); try done. destruct (_ =? _); [done|].
  destruct (b64_decode p3); try done. destruct (negb _); [done|].
  destruct (b64_decode p4); try done. destruct (negb _); [done|].
  intros <-%(inj Ok). by apply MechanismByName_known in Em.
Qed.

Lemma mechanism_name_inj m m' : known_mechanism m -> known_mechanism m' -> m_Name m = m_Name m' -> m = m'.
Proof. intros [-> | ->] [-> | ->]; done. Qed.

Lemma scramVerifierFor_mechanism m username v :
  known_mechanism m -> scramVerifierFor cfg m username = Ok v -> v_Mechanism v = m.
Proof.
  intros Hm. unfold scramVerifierFor.
  assert (forall p s i v, DeriveVerifier m p s i = Ok v -> v_Mechanism v = m) as Hd.
  { intros p s i w (salted & _ & _ & ->)%DeriveVerifier_inv. done. }
  destruct (findUser cfg username) as [u|]; [|by apply Hd].
  destruct (negb _).
  - destruct (ParseVerifier _) as [w| |] eqn:Ep; [|done|done]. cbn [obind].
    destruct (negb (bool_decide _)) eqn:En; [done|].
    apply negb_false_iff, bool_decide_eq_true_1 in En.
    destruct (DeriveVerifier _ _ _ _); [|done|done]. cbn [obind]. intros <-%(inj Ok).
    apply mechanism_name_inj; [by eapply ParseVerifier_known|done|done].
  - destruct (negb _); [by apply Hd|done].
Qed.

Lemma started_mechanism first s p :
  scram_started first s p -> known_mechanism (ss_mech s) /\ v_Mechanism (ss_verifier s) = ss_mech s.
Proof.
  intros (_ & rand & m & v & out & Hm & Hv & En). unfold newScramSession in En. case_bool_decide; [done|].
  destruct (randomNonce rand); [|done|done]. cbn [obind] in En. apply (inj Ok), pair_equal_spec in En as [<- _]. cbn.
  split; [done|by eapply scramVerifierFor_mechanism].
Qed.

(** What an authentication step keeps and what its flags mean, when the client
    sent the requests [sent] up to now. *)
Definition auth_step_ok (sent : list request) (st : connState) (r : auth_result) : Prop :=
  let '(st', _, ok, failed) := r in
  st_tls st' = st_tls st /\ st_saslFailures st' = st_saslFailures st /\
  st_authed st' = st_authed st /\ st_mechanism st' = st_mechanism st /\
  (ok = true -> failed = false /\ shown sent (st_tls st) (st_principal st')) /\
  (ok = false -> session_ok sent st' /\ st_principal st' = st_principal st).

Lemma reject_ok sent st version reason : session_ok sent st -> auth_step_ok sent st (saslReject st version reason).
Proof. by intros Hs. Qed.

Lemma handleSCRAM_ok sent rq rand st version msg r :
  session_ok sent st -> carried rq msg -> handleSCRAM cfg rand st version msg = Ok r ->
  auth_step_ok (sent ++ [rq]) st r.
Proof.
  intros Hs Hc. pose proof (session_more sent [rq] st Hs) as Hs'.
  unfold handleSCRAM. destruct (st_scram st) as [s|] eqn:Est.
  - destruct (finish s msg) as [[s' out]| |] eqn:Ef; [| |done]; intros <-%(inj Ok); [|by apply reject_ok].
    split_and!; try done. intros _. split; [done|]. cbn.
    unfold session_ok in Hs. rewrite Est in Hs. destruct Hs as (before & r1 & after & first & -> & Hr1 & Hst).
    eapply (shown_scram _ _ _ before r1 after rq []); [|done..|by eapply finish_sound].
    by rewrite <- app_assoc, <- app_comm_cons.
  - destruct (MechanismByName (st_mechanism st)) as [m|] eqn:Em; [|by intros <-%(inj Ok); apply reject_ok].
    apply MechanismByName_known in Em.
    destruct (scramVerifierFor cfg m (scramUsername msg)) as [v| |] eqn:Ev; [|by intros <-%(inj Ok); apply reject_ok|done].
    destruct (newScramSession rand m v msg) as [[s first]| |] eqn:En; [|by intros <-%(inj Ok); apply reject_ok|done].
    intros <-%(inj Ok). split_and!; try done. intros _. split; [|done]. unfold session_ok. cbn [st_scram set_scram st_scramUsername].
    exists sent, rq, [], msg. split; [done|]. split; [done|]. split; [done|]. by exists rand, m, v, first.
Qed.

Lemma handleSASLAuthenticate_ok sent hdr body rand st r :
  session_ok sent st -> ApiKey hdr = APKSaslAuthenticate ->
  handleSASLAuthenticate cfg rand st (ApiVersion hdr) body = Ok r -> auth_step_ok (sent ++ [(hdr, body)]) st r.
Proof.
  intros Hs Hk. pose proof (session_more sent [(hdr, body)] st Hs) as Hs'. unfold handleSASLAuthenticate.
  destruct (decode _ body) as [req| |] eqn:Ed; [|done|done]. cbn [obind].
  assert (carried (hdr, body) (default [] (Session.AuthBytes req))) as Hc by (split; [done|by exists req]).
  case_bool_decide; [by intros <-%(inj Ok); apply reject_ok|].
  case_bool_decide.
  - destruct (_ && _) eqn:Et; [by intros <-%(inj Ok); apply reject_ok|].
    destruct (authenticatePlain cfg _) as [p|] eqn:Ep; [|by intros <-%(inj Ok); apply reject_ok].
    intros <-%(inj Ok). split_and!; try done. intros _. split; [done|]. cbn.
    eapply (shown_plain _ _ _ (hdr, body)); [apply elem_of_app; right; by left|exact Hc|by apply authenticatePlain_shown|].
    intros Hq. rewrite Hq in Et. by destruct (st_tls st).
  - destruct (_ || _); [by apply handleSCRAM_ok|]. by intros <-%(inj Ok); apply reject_ok.
Qed.

Lemma handleSASLHandshake_ok sent st version body st' out :
  session_ok sent st -> handleSASLHandshake cfg st version body = Ok (st', out) ->
  session_ok sent st' /\ st_tls st' = st_tls st /\ st_saslFailures st' = st_saslFailures st /\
  st_authed st' = st_authed st /\ st_principal st' = st_principal st.
Proof.
  intros Hs. unfold handleSASLHandshake. destruct (decode _ body); [|done|done]. cbn [obind].
  intros E%(inj Ok). apply pair_equal_spec in E as [<- _]. by destruct (bool_decide _).
Qed.
End sound.

(** ** Completeness: a client that knows its password *)

Section complete.
Context (cfg : ServerConfig).

(** The body of an authenticate request with the given bytes. *)
Definition carries (version : Z) (body : list byte) (msg : gostring) : Prop :=
  exists v, decode (Session.DecodeSaslAuthenticateRequest version) body
    = Ok (Session.mkSaslAuthenticateRequest v (Some msg)).

(** The server's verifier for [user] is the one of [password]. *)
Definition verifier_of (m : Mechanism) (user password : gostring) : Prop :=
  exists v salt iterations, scramVerifierFor cfg m user = Ok v /\
    DeriveVerifier m password salt iterations = Ok v.

Lemma scram_mechanism m st version body msg rand :
  known_mechanism m -> st_mechanism st = m_Name m -> carries version body msg ->
  handleSASLAuthenticate cfg rand st version body = handleSCRAM cfg rand st version msg.
Proof.
  intros Hm Hst [v Hb]. unfold handleSASLAuthenticate. rewrite Hb. cbn [obind Session.AuthBytes default].
  rewrite Hst. destruct Hm as [-> | ->]; reflexivity.
Qed.

(** Both messages of the exchange, for a verifier of the client's password. *)
Lemma scram_exchange m user password nonce bytes rand st version :
  known_mechanism m -> st_mechanism st = m_Name m -> st_scram st = None ->
  without x2c nonce -> nonce <> [] -> verifier_of m user password ->
  exists st1 first msg answer,
    (forall body, carries version body (client_first user nonce) ->
       handleSASLAuthenticate cfg (Ok bytes) st version body
       = Ok (st1, auth_response version ErrNone None (Some first), false, false)) /\
    client_final m user password nonce first = Some (msg, answer) /\
    (forall body, carries version body msg ->
       exists st2, handleSASLAuthenticate cfg rand st1 version body
         = Ok (st2, auth_response version ErrNone None (Some answer), true, false) /\
       st_principal st2 = user).
Proof.
  intros Hm Hst Hs Hn Hne (v & salt & it & Hv & Hd).
  pose proof (newScramSession_client (Ok bytes) bytes m v user nonce Hn Hne eq_refl) as Hnew. cbv zeta in Hnew.
  destruct (finish_client _ _ _ _ _ _ _ _ _ _ Hm Hn Hne Hd Hnew) as (msg & answer & Hc & s' & Hf).
  eexists _, _, msg, answer. split; [|split; [exact Hc|]].
  - intros body Hb. rewrite (scram_mechanism m _ _ _ _ _ Hm Hst Hb). unfold handleSCRAM. rewrite Hs, Hst.
    assert (MechanismByName (m_Name m) = Some m) as -> by (destruct Hm as [-> | ->]; reflexivity).
    rewrite scramUsername_client, Hv, Hnew by done. reflexivity.
  - intros body Hb. eexists. erewrite (scram_mechanism m); [|done|done|done].
    unfold handleSCRAM. cbn [st_scram set_scram]. rewrite Hf. done.
Qed.

(** The credential the configuration holds for a user: a verifier derived from
    the password, or the password in clear. *)
Definition configured (m : Mechanism) (u : SecurityUser) (password : gostring) : Prop :=
  (exists salt iterations v, salt <> [] /\ DeriveVerifier m password salt iterations = Ok v /\
     u_SCRAMVerifier u = Verifier_String v) \/
  (u_SCRAMVerifier u = [] /\ u_Password u = password /\ password <> []).

Lemma scramIterations_range :
  sc_SCRAMIterations cfg <= MaxIterations -> scramIterations cfg <= MaxIterations.
Proof. intros H. unfold scramIterations. destruct (_ <? _); [done|by vm_compute]. Qed.

Lemma DeriveVerifier_ok m p salt iterations :
  known_mechanism m -> iterations <= MaxIterations -> exists v, DeriveVerifier m p salt iterations = Ok v.
Proof.
  intros Hm Hi. pose proof (DeriveVerifier_total m p salt iterations Hm Hi) as [v E].
  destruct (DeriveVerifier m p salt iterations); [by eexists|done|done].
Qed.

Lemma configured_verifier m user u password :
  known_mechanism m -> sc_SCRAMIterations cfg <= MaxIterations ->
  findUser cfg user = Some u -> configured m u password -> verifier_of m user password.
Proof.
  intros Hm Hi Hu Hc. unfold verifier_of, scramVerifierFor. rewrite Hu.
  destruct Hc as [(salt & it & v & Hs & Hd & Ev)|(E1 & E2 & E3)].
  - destruct (DeriveVerifier_wf _ _ _ _ _ Hm Hs Hd) as (Hwf & Hvm & _).
    rewrite Ev, bool_decide_eq_false_2 by (destruct (Verifier_String_ends v Hwf) as (? & ? & -> & _); done).
    cbn [negb]. rewrite ParseVerifier_String by done. cbn [obind].
    rewrite Hvm, bool_decide_eq_true_2 by done. cbn [negb].
    destruct (DeriveVerifier_ok m (str "pocketkafka-step1-padding-" ++ user) (scramSalt cfg m user) (v_Iterations v))
      as [w ->]; [done|by destruct Hwf as (_ & [_ ?] & _)|]. cbn [obind]. by exists v, salt, it.
  - rewrite bool_decide_eq_true_2, (bool_decide_eq_false_2 (u_Password u = [])) by congruence. cbn [negb].
    rewrite E2.
    destruct (DeriveVerifier_ok m password (scramSalt cfg m user) (scramIterations cfg) Hm) as [v Hv];
      [by apply scramIterations_range|]. by eexists v, _, _.
Qed.

(** C16: a SCRAM client that knows the password of a configured user (kept in clear
    or as a verifier) is authenticated as that user in two messages, and the
    server's last message is the signature the client expects of it. *)
Theorem scram_login m user u password nonce bytes rand st version :
  known_mechanism m -> sc_SCRAMIterations cfg <= MaxIterations ->
  findUser cfg user = Some u -> configured m u password ->
  st_mechanism st = m_Name m -> st_scram st = None -> without x2c nonce -> nonce <> [] ->
  exists st1 first msg answer,
    (forall body, carries version body (client_first user nonce) ->
       handleSASLAuthenticate cfg (Ok bytes) st version body
       = Ok (st1, auth_response version ErrNone None (Some first), false, false)) /\
    client_final m user password nonce first = Some (msg, answer) /\
    (forall body, carries version body msg ->
       exists st2, handleSASLAuthenticate cfg rand st1 version body
         = Ok (st2, auth_response version ErrNone None (Some answer), true, false) /\
       st_principal st2 = user).
Proof. intros. apply scram_exchange; try done. by eapply configured_verifier. Qed.

(** C40: the same two messages authenticate a client as any name that is not
    configured: the verifier the server makes up for it is the one of a password
    that follows from the name, and nothing after the exchange asks whether the
    user exists. *)
Theorem unknown_user_authenticates m user nonce bytes rand st version :
  known_mechanism m -> sc_SCRAMIterations cfg <= MaxIterations ->
  findUser cfg user = None ->
  st_mechanism st = m_Name m -> st_scram st = None -> without x2c nonce -> nonce <> [] ->
  exists st1 first msg answer,
    (forall body, carries version body (client_first user nonce) ->
       handleSASLAuthenticate cfg (Ok bytes) st version body
       = Ok (st1, auth_response version ErrNone None (Some first), false, false)) /\
    client_final m user (decoy user) nonce first = Some (msg, answer) /\
    (forall body, carries version body msg ->
       exists st2, handleSASLAuthenticate cfg rand st1 version body
         = Ok (st2, auth_response version ErrNone None (Some answer), true, false) /\
       st_principal st2 = user).
Proof.
  intros Hm Hi Hu. intros. apply scram_exchange; try done. unfold verifier_of, scramVerifierFor. rewrite Hu.
  destruct (DeriveVerifier_ok m (decoy user) (scramSalt cfg m user) (scramIterations cfg) Hm) as [v Hv];
    [by apply scramIterations_range|]. by eexists v, _, _.
Qed.

(** PLAIN with the password of the first user of that name. *)
Lemma plain_loop_first users username password u :
  find_user users username = Some u -> username <> [] ->
  plain_loop users username password
  = if bool_decide (u_Password u = []) && bool_decide (u_PasswordHash u = []) then None
    else if Matches (if bool_decide (u_Password u = []) then u_PasswordHash u else u_Password u) password
         then Some username else None.
Proof.
  intros Hf Hne. induction users as [|w us IH]; [done|]. cbn in Hf |- *.
  destruct (decide (u_Username w = username)) as [Hw|Hw].
  - rewrite bool_decide_eq_true_2 in Hf |- * by done. injection Hf as ->. cbn [negb orb].
    by rewrite (bool_decide_eq_false_2 (u_Username u = [])) by congruence.
  - rewrite bool_decide_eq_false_2 in Hf |- * by done. by apply IH.
Qed.

Lemma splitn_from_app n sep cur a r :
  without sep a -> splitn_from (S n) sep cur (a ++ [sep] ++ r) = (cur ++ a) :: splitn_from n sep [] r.
Proof.
  intros Ha. revert cur. induction Ha as [|b a Hb _ IH]; intros cur; cbn [splitn_from app].
  - rewrite bool_decide_eq_true_2 by done. by rewrite app_nil_r.
  - rewrite bool_decide_eq_false_2 by done. change (a ++ sep :: r) with (a ++ [sep] ++ r). rewrite IH.
    by rewrite <- app_assoc.
Qed.

(** No more splits: the rest stays whole. *)
Lemma splitn_from_rest sep cur r : splitn_from 0 sep cur r = [cur ++ r].
Proof.
  revert cur. induction r as [|b r IH]; intros cur; cbn [splitn_from]; [by rewrite app_nil_r|].
  case_bool_decide; [done|]. by rewrite IH, <- app_assoc.
Qed.

(** PLAIN is decided by the first configured user of the name in the token:
    its password, or its password hash when it has none, against everything
    after the second separator; a user with neither cannot log in. *)
Theorem plain_decision authzid user password u :
  without x00 authzid -> without x00 user -> user <> [] -> findUser cfg user = Some u ->
  authenticatePlain cfg (authzid ++ [x00] ++ user ++ [x00] ++ password)
  = if bool_decide (u_Password u = []) && bool_decide (u_PasswordHash u = []) then None
    else if Matches (if bool_decide (u_Password u = []) then u_PasswordHash u else u_Password u) password
         then Some user else None.
Proof.
  intros Ha Hu Hne Hf. unfold authenticatePlain, SplitN. cbn [Nat.sub].
  rewrite splitn_from_app by done. rewrite splitn_from_app by done. rewrite splitn_from_rest. cbn [app].
  by apply plain_loop_first.
Qed.
End complete.

(** ** Concrete runs *)

Definition demo_server : ServerConfig :=
  mkServerConfig true [mkUser (str "alice") (str "secret") [] []] false 2 (str "key") 1048576 65536 2.

Definition fresh_state (m : gostring) : connState := mkState false [] m None [] false 0.

Lemma plain_decision_witness :
  authenticatePlain demo_server ([] ++ [x00] ++ str "alice" ++ [x00] ++ str "secret") = Some (str "alice").
Proof.
  rewrite (plain_decision demo_server [] (str "alice") (str "secret") (mkUser (str "alice") (str "secret") [] []));
    [reflexivity|constructor|repeat constructor; done|done|reflexivity].
Defined.

Lemma scram_login_witness :
  exists st1 first msg answer,
    client_final SHA256 (str "alice") (str "secret") (str "abc") first = Some (msg, answer) /\
    (forall body, carries 1 body msg ->
       exists st2, handleSASLAuthenticate demo_server (Ok []) st1 1 body
         = Ok (st2, auth_response 1 ErrNone None (Some answer), true, false) /\ st_principal st2 = str "alice").
Proof.
  destruct (scram_login demo_server SHA256 (str "alice") (mkUser (str "alice") (str "secret") [] []) (str "secret")
              (str "abc") [x01] (Ok []) (fresh_state scram256) 1) as (st1 & first & msg & answer & _ & H2 & H3);
    [by left|by vm_compute|reflexivity|by right|reflexivity|reflexivity|repeat constructor; done|done|].
  by exists st1, first, msg, answer.
Defined.

Lemma unknown_user_authenticates_witness :
  exists st1 first msg answer,
    client_final SHA256 (str "admin") (str "pocketkafka-decoy-admin") (str "abc") first = Some (msg, answer) /\
    (forall body, carries 1 body msg ->
       exists st2, handleSASLAuthenticate demo_server (Ok []) st1 1 body
         = Ok (st2, auth_response 1 ErrNone None (Some answer), true, false) /\ st_principal st2 = str "admin").
Proof.
  destruct (unknown_user_authenticates demo_server SHA256 (str "admin") (str "abc") [x01] (Ok [])
              (fresh_state scram256) 1) as (st1 & first & msg & answer & _ & H2 & H3);
    [by left|by vm_compute|reflexivity|reflexivity|reflexivity|repeat constructor; done|done|].
  by exists st1, first, msg, answer.
Defined.
