(* ===== verification/Server.v ===== *)
(** * The TCP server (internal/server/server.go)

    The server as a state machine over its connections: accepting one, serving
    the next request of one (an iteration of the loop of [handleConn]), waking a
    request that waits, and closing down. Goroutines interleave as the steps do.
    What a client sends until its connection ends or times out is the input of
    the connection; what the network reports about it (addresses, the result of
    the TLS handshake) is in [connInfo]. *)

From stdpp Require Import prelude list gmap strings.
From Stdlib Require Import ZArith Lia.
From S2P Require Import Prelude GoStrings GoBinary Wire GoCrypto Credential Scram Ratelimit RecordBatch Lz4 Compression Index Segment SegmentOps Partition.
From S2P Require Import PartitionOps Compaction Idempotence Store Authz Frame MsgData MsgAdmin MsgGroup MsgGroupAdmin OffsetWal OffsetStore Producer Group Broker Sasl.

(** ** Addresses *)

(** [net.SplitHostPort]. *)
Definition SplitHostPort (hostport : gostring) : outcome (gostring * gostring) :=
  match LastIndex hostport [x3a] with
  | None => Err "missing port in address"
  | Some i =>
      let? (host, j, k) :=
        match hostport with
        | x5b :: _ =>
            match Index hostport [x5d] with
            | None => Err "missing ']' in address"
            | Some e =>
                if (S e =? length hostport)%nat then Err "missing port in address"
                else if (S e =? i)%nat then Ok (take (e - 1) (drop 1 hostport), 1%nat, S e)
                else match drop (S e) hostport with
                     | x3a :: _ => Err "too many colons in address"
                     | _ => Err "missing port in address"
                     end
            end
        | _ =>
            let host := take i hostport in
            if Contains host [x3a] then Err "too many colons in address" else Ok (host, 0%nat, 0%nat)
        end in
      if Contains (drop j hostport) [x5b] then Err "unexpected '[' in address" else
      if Contains (drop k hostport) [x5d] then Err "unexpected ']' in address" else
      Ok (host, drop (S i) hostport)
  end.

Definition splitPort (addr : gostring) : option (gostring * Z) :=
  match SplitHostPort (TrimSpace addr) with
  | Ok (host, portStr) =>
      match Atoi (TrimSpace portStr) with
      | Ok port => if (port <? 1) || (65535 <? port) then None else Some (host, port)
      | _ => None
      end
  | _ => None
  end.

Definition advertisedPrimary (adv : gmap gostring gostring) : gostring :=
  let plain_adv := default [] (adv !! str "plain") in
  if negb (bool_decide (plain_adv = [])) then plain_adv else
  let names := sort_strings (map fst (map_to_list adv)) in
  match List.find (fun name => negb (bool_decide (default [] (adv !! name) = []))) names with
  | Some name => default [] (adv !! name)
  | None => str "localhost:9092"
  end.

(** The part of [Start] that tells the handler what to advertise on each plain
    listener; [order] is the order in which the map is walked. *)
Definition advertise_listener (adv : gmap gostring gostring) (h : Handler) (l : gostring * gostring) : Handler :=
  let '(name, addr) := l in
  match splitPort addr with
  | None => h
  | Some (_, bindPort) =>
      let a := default [] (adv !! name) in
      let a := if bool_decide (a = []) then advertisedPrimary adv else a in
      match splitPort a with
      | None => h
      | Some (advHost, advPort) => SetAdvertisedForPort h bindPort advHost advPort
      end
  end.

Definition advertise (adv : gmap gostring gostring) (order : list (gostring * gostring)) (h : Handler) : Handler :=
  fold_left (advertise_listener adv) order h.

(** ** Connections *)

(** The leaf certificate, and the state of a finished TLS handshake. *)
Record certificate := mkCert { ce_CommonName : gostring; ce_DNSNames : list gostring }.
Record tlsState := mkTls { ts_VerifiedChains : Z; ts_PeerCertificates : list certificate }.

(** config/tls.go *)
Definition ClientPrincipal (state : tlsState) : gostring :=
  if ts_VerifiedChains state =? 0 then [] else
  match ts_PeerCertificates state with
  | [] => []
  | leaf :: _ =>
      let cn := TrimSpace (ce_CommonName leaf) in
      if negb (bool_decide (cn = [])) then cn
      else match ce_DNSNames leaf with
           | name :: _ => TrimSpace name
           | [] => []
           end
  end.

(** [ci_tls]: not a TLS connection, or what its handshake gives. *)
Record connInfo := mkInfo {
  ci_remoteAddr : gostring; ci_localPort : Z; ci_tls : option (outcome tlsState) }.

Definition clientCertPrincipal (i : connInfo) : gostring :=
  match ci_tls i with
  | Some (Ok state) => if ts_VerifiedChains state =? 0 then [] else ClientPrincipal state
  | _ => []
  end.

Definition isTLSConn (i : connInfo) : bool := bool_decide (is_Some (ci_tls i)).

Definition remoteHost (i : connInfo) : gostring :=
  match SplitHostPort (ci_remoteAddr i) with
  | Ok (host, _) => host
  | _ => ci_remoteAddr i
  end.

(** Before the loop, in the loop, or in a handler that waits. *)
Inductive phase :=
  | Starting
  | Ready
  | Waiting (corrID : Z) (ctx : RequestContext) (r : reply).

Record Conn := mkConn { c_info : connInfo; c_phase : phase; c_st : connState; c_in : list byte }.

(** [sv_sem] counts the tokens in the channel; [sv_sent] is every response
    written, with its connection. *)
Record Srv := mkSrv {
  sv_conns : gmap Z Conn;
  sv_sem : Z;
  sv_rejections : Z;
  sv_closing : bool;
  sv_limiter : RateLimit.Limiter;
  sv_broker : Broker;
  sv_sent : list (Z * list byte) }.

(** What a step finds: the time, how much of a write a crash lets through, and
    random bytes. *)
Record tick := mkTick { t_now : Z; t_crash : option nat; t_rand : outcome (list byte) }.

Definition maxConns (cfg : ServerConfig) : Z := if sc_MaxConnections cfg <=? 0 then 1 else sc_MaxConnections cfg.

Definition NewServer (b : Broker) : Srv :=
  mkSrv ∅ 0 0 false (RateLimit.New 3 RateLimit.second (30 * RateLimit.second)) b [].

Definition set_conn (s : Srv) (id : Z) (c : Conn) : Srv :=
  mkSrv (<[id := c]> (sv_conns s)) (sv_sem s) (sv_rejections s) (sv_closing s) (sv_limiter s) (sv_broker s) (sv_sent s).
Definition set_limiter (s : Srv) (l : RateLimit.Limiter) : Srv :=
  mkSrv (sv_conns s) (sv_sem s) (sv_rejections s) (sv_closing s) l (sv_broker s) (sv_sent s).
Definition set_broker (s : Srv) (b : Broker) : Srv :=
  mkSrv (sv_conns s) (sv_sem s) (sv_rejections s) (sv_closing s) (sv_limiter s) b (sv_sent s).

Definition registerConn (s : Srv) (id : Z) (c : Conn) : option Srv :=
  if sv_closing s then None else Some (set_conn s id c).

Definition releaseConn (s : Srv) (id : Z) : Srv :=
  mkSrv (delete id (sv_conns s)) (sv_sem s - 1) (sv_rejections s) (sv_closing s) (sv_limiter s) (sv_broker s) (sv_sent s).

Definition writeResponse (s : Srv) (id corrID : Z) (body : list byte) : Srv :=
  mkSrv (sv_conns s) (sv_sem s) (sv_rejections s) (sv_closing s) (sv_limiter s) (sv_broker s)
    (sv_sent s ++ [(id, WriteResponseFrame corrID body)]).

Definition set_sem (s : Srv) (n : Z) : Srv :=
  mkSrv (sv_conns s) n (sv_rejections s) (sv_closing s) (sv_limiter s) (sv_broker s) (sv_sent s).

Definition fresh_conn (i : connInfo) (input : list byte) : Conn :=
  mkConn i Starting (mkState false [] [] None [] false 0) input.

Section server.
Context (cfg : ServerConfig).
Context `{Authorizer A} (auth : A) (h : Handler).
Context (disk : gostring -> Z -> partition_dir) (gunzip : list byte -> outcome (list byte)).
Context (remote : option (gostring -> outcome (list byte))).

(** One connection taken by [acceptLoop]. *)
Definition accept (s : Srv) (id : Z) (i : connInfo) (input : list byte) : Srv :=
  if sv_sem s <? maxConns cfg then
    let s := set_sem s (sv_sem s + 1) in
    match registerConn s id (fresh_conn i input) with
    | Some s => s
    | None => set_sem s (sv_sem s - 1)
    end
  else
    mkSrv (sv_conns s) (sv_sem s) (sv_rejections s + 1) (sv_closing s) (sv_limiter s) (sv_broker s) (sv_sent s).

(** The frame of [readFrame]; a read that fails or times out is an input that
    ends. *)
Definition readFrame (input : list byte) (maxSize : Z) : outcome (RequestHeader * list byte * list byte) :=
  ReadRequestFrame input maxSize.

(** [handleConn] before its loop. *)
Definition start_conn (s : Srv) (id : Z) (c : Conn) (t : tick) : Srv :=
  let i := c_info c in
  let '(l, allowed) :=
    if sc_SecurityEnabled cfg
    then let '(l, (ok, _)) := RateLimit.Allow (sv_limiter s) (t_now t) (remoteHost i) in (l, ok)
    else (sv_limiter s, true) in
  let s := set_limiter s l in
  if negb allowed then releaseConn s id else
  let st := mkState (negb (sc_SecurityEnabled cfg)) [] [] None [] false 0 in
  let principal := clientCertPrincipal i in
  let st := if negb (bool_decide (principal = []))
            then set_mechanism (set_principal (set_authed st true) principal) (str "mTLS") else st in
  let st := mkState (st_authed st) (st_principal st) (st_mechanism st) (st_scram st) (st_scramUsername st)
              (isTLSConn i) (st_saslFailures st) in
  set_conn s id (mkConn i Ready st (c_in c)).

(** What follows a handler's reply. *)
Definition after_reply (s : Srv) (id corrID : Z) (ctx : RequestContext) (c : Conn) (r : reply) : outcome Srv :=
  match r with
  | Reply (Ok body) => Ok (set_conn (writeResponse s id corrID body) id (mkConn (c_info c) Ready (c_st c) (c_in c)))
  | Reply (Err _) => Ok (releaseConn s id)
  | Reply Panic => Panic
  | _ => Ok (set_conn s id (mkConn (c_info c) (Waiting corrID ctx r) (c_st c) (c_in c)))
  end.

Definition dispatch (s : Srv) (id : Z) (c : Conn) (hdr : RequestHeader) (body : list byte) (t : tick) : outcome Srv :=
  let ctx := mkContext (st_principal (c_st c)) (ci_localPort (c_info c)) (ClientID hdr) (ci_remoteAddr (c_info c)) in
  let '(b, r) := Handle auth h disk gunzip remote (sv_broker s) (t_now t) (ApiKey hdr) (ApiVersion hdr) body ctx
                   (t_crash t) in
  after_reply (set_broker s b) id (CorrelationID hdr) ctx c r.

Definition recordAuthFailure (s : Srv) (c : Conn) (t : tick) : Srv :=
  set_limiter s (RateLimit.Fail (sv_limiter s) (t_now t) (remoteHost (c_info c))).1.

(** A [SaslAuthenticate] request before authentication. *)
Definition serve_auth (s : Srv) (id : Z) (c : Conn) (hdr : RequestHeader) (body rest : list byte) (t : tick)
  : outcome Srv :=
  match handleSASLAuthenticate cfg (t_rand t) (c_st c) (ApiVersion hdr) body with
  | Ok (st, resp, ok, failed) =>
      let st := set_authed st ok in
      let s := writeResponse s id (CorrelationID hdr) resp in
      if failed then
        let st := set_failures st (st_saslFailures st + 1) in
        let s := recordAuthFailure s c t in
        if maxSASLFailuresPerConn <=? st_saslFailures st then Ok (releaseConn s id)
        else Ok (set_conn s id (mkConn (c_info c) Ready st rest))
      else Ok (set_conn s id (mkConn (c_info c) Ready st rest))
  | Err _ => Ok (releaseConn s id)
  | Panic => Panic
  end.

Definition serve_handshake (s : Srv) (id : Z) (c : Conn) (hdr : RequestHeader) (body rest : list byte) : outcome Srv :=
  match handleSASLHandshake cfg (c_st c) (ApiVersion hdr) body with
  | Ok (st, resp) =>
      Ok (set_conn (writeResponse s id (CorrelationID hdr) resp) id (mkConn (c_info c) Ready st rest))
  | Err _ => Ok (releaseConn s id)
  | Panic => Panic
  end.

(** An iteration of the loop of [handleConn]. *)
Definition serve_request (s : Srv) (id : Z) (c : Conn) (t : tick) : outcome Srv :=
  let st := c_st c in
  let maxSize := if st_authed st then sc_MaxRequestSizeBytes cfg else sc_PreAuthMaxRequestBytes cfg in
  match readFrame (c_in c) maxSize with
  | Err _ => Ok (releaseConn s id)
  | Panic => Panic
  | Ok (hdr, body, rest) =>
      let c' := mkConn (c_info c) Ready st rest in
      if negb (st_authed st) then
        if ApiKey hdr =? APKApiVersions then dispatch s id c' hdr body t
        else if ApiKey hdr =? APKSaslHandshake then serve_handshake s id c hdr body rest
        else if ApiKey hdr =? APKSaslAuthenticate then serve_auth s id c hdr body rest t
        else Ok (releaseConn s id)
      else dispatch s id c' hdr body t
  end.

(** A waiting handler woken. *)
Definition wake (s : Srv) (id : Z) (c : Conn) (corrID : Z) (ctx : RequestContext) (r : reply) (t : tick) : outcome Srv :=
  let b := sv_broker s in
  match r with
  | WaitFetch req pending deadline =>
      let '(st, r) := fetch_wake auth remote (br_store b) (t_now t) ctx req pending deadline in
      after_reply (set_broker s (mkBroker st (br_coord b))) id corrID ctx c r
  | WaitJoin req memberID deadline =>
      let '(gm, r) := join_resume (br_coord b) (t_now t) req memberID deadline in
      after_reply (set_broker s (mkBroker (br_store b) gm)) id corrID ctx c r
  | WaitSync req born deadline =>
      let '(gm, r) := sync_resume (br_coord b) (t_now t) req born deadline in
      after_reply (set_broker s (mkBroker (br_store b) gm)) id corrID ctx c r
  | Reply _ => Ok s
  end.

Definition serve (s : Srv) (id : Z) (t : tick) : outcome Srv :=
  match sv_conns s !! id with
  | None => Ok s
  | Some c =>
      match c_phase c with
      | Starting => Ok (start_conn s id c t)
      | Ready => serve_request s id c t
      | Waiting corrID ctx r => wake s id c corrID ctx r t
      end
  end.

(** Every connection is closed: nothing more can be read from it. *)
Definition CloseServer (s : Srv) : Srv :=
  mkSrv ((fun c => mkConn (c_info c) (c_phase c) (c_st c) []) <$> sv_conns s)
    (sv_sem s) (sv_rejections s) true (sv_limiter s) (sv_broker s) (sv_sent s).

Inductive sevent :=
  | EAccept (id : Z) (i : connInfo) (input : list byte)
  | EServe (id : Z) (t : tick)
  | EClose.

(** A new connection has a name of its own. *)
Definition sstep (s : Srv) (e : sevent) : outcome Srv :=
  match e with
  | EAccept id i input => if bool_decide (is_Some (sv_conns s !! id)) then Ok s else Ok (accept s id i input)
  | EServe id t => serve s id t
  | EClose => Ok (CloseServer s)
  end.

Fixpoint srun (s : Srv) (es : list sevent) : outcome Srv :=
  match es with
  | [] => Ok s
  | e :: es => let? s := sstep s e in srun s es
  end.
End server.
