(* ===== verification/ServerProps.v ===== *)
(** * What the server guarantees

    The invariant of the server's connections on every run, and with it: only
    authenticated connections reach the broker, and there are never more
    connections than configured. *)

From stdpp Require Import prelude list gmap strings.
From Stdlib Require Import ZArith Lia.
From S2P Require Import Prelude GoStrings GoBinary Wire GoCrypto Credential Scram Ratelimit RecordBatch Lz4 Compression Index Segment SegmentOps Partition PartitionOps.
From S2P Require Import Compaction Idempotence Store Authz Frame MsgData MsgAdmin MsgGroup MsgGroupAdmin OffsetWal OffsetStore Producer Group Broker BrokerProps Sasl Server.

Section props.
Context (cfg : ServerConfig).
Context `{Authorizer A} (auth : A) (h : Handler).
Context (disk : gostring -> Z -> partition_dir) (gunzip : list byte -> outcome (list byte)).
Context (remote : option (gostring -> outcome (list byte))).

(** ** What was read from a connection *)

(** The request the server reads when it serves a connection. *)
Definition read_now (c : Conn) : option request :=
  match c_phase c with
  | Ready =>
      match readFrame (c_in c) (if st_authed (c_st c) then sc_MaxRequestSizeBytes cfg else sc_PreAuthMaxRequestBytes cfg) with
      | Ok (hdr, body, _) => Some (hdr, body)
      | _ => None
      end
  | _ => None
  end.

Abbreviation sent_map := (gmap Z (list request)).

Definition sent_on (L : sent_map) (id : Z) : list request := default [] (L !! id).

(** What was read from each connection since it was accepted, after one more step. *)
Definition heard (s : Srv) (e : sevent) (L : sent_map) : sent_map :=
  match e with
  | EAccept id _ _ => if bool_decide (is_Some (sv_conns s !! id)) then L else <[id := []]> L
  | EServe id _ =>
      match sv_conns s !! id ≫= read_now with
      | Some r => <[id := sent_on L id ++ [r]]> L
      | None => L
      end
  | EClose => L
  end.

(** ... and on a whole run. *)
Fixpoint requests (s : Srv) (es : list sevent) (L : sent_map) : sent_map :=
  match es with
  | [] => L
  | e :: es =>
      match sstep cfg auth h disk gunzip remote s e with
      | Ok s' => requests s' es (heard s e L)
      | _ => L
      end
  end.

(** Why a connection may act as [p]: security is off, or the client presented a
    certificate for that name, or it sent the credentials. *)
Definition trusted (i : connInfo) (sent : list request) (p : gostring) : Prop :=
  sc_SecurityEnabled cfg = false \/ (clientCertPrincipal i = p /\ p <> []) \/ shown cfg sent (isTLSConn i) p.

Definition is_waiting (ph : phase) : bool := match ph with Waiting _ _ _ => true | _ => false end.

Record conn_ok (sent : list request) (c : Conn) : Prop := {
  co_session : st_authed (c_st c) = false -> session_ok cfg sent (c_st c);
  co_failures : 0 <= st_saslFailures (c_st c) < maxSASLFailuresPerConn;
  co_trusted : st_authed (c_st c) = true -> trusted (c_info c) sent (st_principal (c_st c));
  co_waiting : is_waiting (c_phase c) = true -> st_authed (c_st c) = true;
  co_starting : c_phase c = Starting -> st_authed (c_st c) = false;
  co_tls : c_phase c <> Starting -> st_tls (c_st c) = isTLSConn (c_info c) }.

Lemma conn_more sent more c : conn_ok sent c -> conn_ok (sent ++ more) c.
Proof.
  intros [H1 H2 H3 H4 H5 H6]. split; try done.
  - intros Ha. by apply session_more, H1.
  - intros Ha. destruct (H3 Ha) as [?|[?|?]]; unfold trusted; [by left|by right; left|].
    right. right. by apply shown_more.
Qed.

Record srv_inv (s : Srv) (L : sent_map) : Prop := {
  si_sem : sv_sem s = Z.of_nat (size (sv_conns s));
  si_max : sv_sem s <= maxConns cfg;
  si_conns : map_Forall (fun id => conn_ok (sent_on L id)) (sv_conns s) }.

(** The two ways a step leaves connection [id], from which [sent] was read:
    still there, or released. *)
Definition touched (s : Srv) (id : Z) (sent : list request) (s' : Srv) : Prop :=
  (exists c', conn_ok sent c' /\ sv_conns s' = <[id := c']> (sv_conns s) /\ sv_sem s' = sv_sem s) \/
  (sv_conns s' = delete id (sv_conns s) /\ sv_sem s' = sv_sem s - 1).

Lemma touched_inv s id c s' L L' :
  srv_inv s L -> sv_conns s !! id = Some c -> touched s id (sent_on L' id) s' ->
  (forall i, i <> id -> sent_on L' i = sent_on L i) -> srv_inv s' L'.
Proof.
  intros [Hs Hm Hc] Hid Ht Ho.
  assert (forall i c', delete id (sv_conns s) !! i = Some c' -> conn_ok (sent_on L' i) c') as Hrest.
  { intros i c' [Hne Hi]%lookup_delete_Some. rewrite Ho by done. by apply Hc. }
  destruct Ht as [(c' & Hc' & E1 & E2)|[E1 E2]].
  - split; rewrite ?E2, ?E1; [by rewrite map_size_insert, Hid|done|]. rewrite <- insert_delete_eq.
    by apply map_Forall_insert_2.
  - assert (size (sv_conns s) = S (size (delete id (sv_conns s)))) as E.
    { rewrite <- (map_size_insert_None id c (delete id (sv_conns s))) by apply lookup_delete_eq.
      by rewrite insert_delete_id. }
    split; rewrite ?E2, ?E1; [lia|lia|exact Hrest].
Qed.

(** The same server but for its limiter, its broker and what was sent. *)
Definition same_conns (s s' : Srv) : Prop := sv_conns s' = sv_conns s /\ sv_sem s' = sv_sem s.

Lemma touched_same s s1 id sent s' : same_conns s s1 -> touched s1 id sent s' -> touched s id sent s'.
Proof. unfold touched. intros [-> ->]. done. Qed.

Lemma after_reply_touched s id corrID ctx sent c r s' :
  conn_ok sent c -> c_phase c <> Starting -> (st_authed (c_st c) = true \/ exists o, r = Reply o) ->
  after_reply s id corrID ctx c r = Ok s' -> touched s id sent s'.
Proof.
  intros [H1 H2 H3 H4 H5 H6] Hp Hr. destruct r as [[body|e|]|req p d|req m d|req born d]; cbn; intros E; try done.
  all: try (apply (inj Ok) in E; subst s').
  - left. eexists. split; [|split; [reflexivity|done]]. by split; auto.
  - by right.
  - left. eexists. split; [|split; [reflexivity|done]]. destruct Hr as [Hr|[o Hr]]; [by split; auto|done].
  - left. eexists. split; [|split; [reflexivity|done]]. destruct Hr as [Hr|[o Hr]]; [by split; auto|done].
  - left. eexists. split; [|split; [reflexivity|done]]. destruct Hr as [Hr|[o Hr]]; [by split; auto|done].
Qed.

Lemma Handle_api_versions b now version body ctx crash :
  Handle auth h disk gunzip remote b now APKApiVersions version body ctx crash
  = (b, Reply (handleApiVersions version body)).
Proof. reflexivity. Qed.

Lemma after_reply_broker s id corrID ctx c r s' :
  after_reply s id corrID ctx c r = Ok s' -> sv_broker s' = sv_broker s.
Proof. destruct r as [[body|e|]| | |]; cbn; intros E; try done; apply (inj Ok) in E; by subst. Qed.

Lemma conn_ok_ready sent c rest :
  conn_ok sent c -> c_phase c <> Starting -> conn_ok sent (mkConn (c_info c) Ready (c_st c) rest).
Proof. intros [H1 H2 H3 H4 H5 H6] Hp. by split; auto. Qed.

Lemma start_conn_touched s id c t sent :
  touched s id sent (start_conn cfg s id c t) /\ sv_broker (start_conn cfg s id c t) = sv_broker s.
Proof.
  unfold start_conn.
  destruct (if sc_SecurityEnabled cfg then _ else _) as [l allowed]. destruct allowed; cbn [negb]; [|by split; [right|]].
  split; [|done]. left. eexists. split; [|split; [reflexivity|done]].
  split; cbn -[clientCertPrincipal isTLSConn]; try done.
  - intros _. by destruct (bool_decide (clientCertPrincipal (c_info c) = [])).
  - by destruct (bool_decide (clientCertPrincipal (c_info c) = [])).
  - unfold trusted. case_bool_decide; cbn.
    + intros E%negb_true_iff. by left.
    + intros _. right. left. done.
Qed.

Lemma serve_handshake_touched s id c hdr body rest sent s' :
  conn_ok sent c -> c_phase c <> Starting -> st_authed (c_st c) = false ->
  serve_handshake cfg s id c hdr body rest = Ok s' -> touched s id sent s' /\ sv_broker s' = sv_broker s.
Proof.
  intros [H1 H2 H3 H4 H5 H6] Hp Ha. unfold serve_handshake.
  destruct (handleSASLHandshake cfg (c_st c) _ body) as [[st resp]| |] eqn:E; [| |done]; intros <-%(inj Ok).
  - apply (handleSASLHandshake_ok cfg sent) in E as (G1 & G2 & G3 & G4 & G5); [|by apply H1]. split; [|done]. left.
    eexists. split; [|split; [reflexivity|done]]. split; cbn; [done|by rewrite G3| |done|done|].
    + rewrite G4, Ha. done.
    + intros _. rewrite G2. by apply H6.
  - split; [by right|done].
Qed.

Lemma serve_auth_touched s id c hdr body rest t sent s' :
  conn_ok sent c -> c_phase c <> Starting -> st_authed (c_st c) = false -> ApiKey hdr = APKSaslAuthenticate ->
  serve_auth cfg s id c hdr body rest t = Ok s' ->
  touched s id (sent ++ [(hdr, body)]) s' /\ sv_broker s' = sv_broker s.
Proof.
  intros [H1 H2 H3 H4 H5 H6] Hp Ha Hk. unfold serve_auth.
  destruct (handleSASLAuthenticate cfg (t_rand t) (c_st c) _ body) as [[[[st resp] ok] failed]| |] eqn:E; [| |done].
  2: { intros <-%(inj Ok). split; [by right|done]. }
  apply (handleSASLAuthenticate_ok cfg sent) in E as (G2 & G3 & G4 & G5 & G6 & G7); [|by apply H1|done].
  assert (ok = true -> trusted (c_info c) (sent ++ [(hdr, body)]) (st_principal st)) as Ht.
  { intros Hok. destruct (G6 Hok) as [_ ?]. right. right. by rewrite <- (H6 Hp). }
  assert (ok = false -> session_ok cfg (sent ++ [(hdr, body)]) st) as Hs by (intros Hok; by apply G7).
  assert (st_tls st = isTLSConn (c_info c)) as Htls by (by rewrite G2, H6).
  destruct failed.
  - destruct (Z.leb_spec maxSASLFailuresPerConn (st_saslFailures (set_failures (set_authed st ok) (st_saslFailures (set_authed st ok) + 1)))) as [|Hlt];
      intros <-%(inj Ok).
    + split; [by right|done].
    + split; [|done]. left. eexists. split; [|split; [reflexivity|done]]. split; cbn in *; try done. lia.
  - intros <-%(inj Ok). split; [|done]. left. eexists. split; [|split; [reflexivity|done]].
    split; cbn in *; try done. lia.
Qed.

Lemma sent_insert (L : sent_map) id sent i : i <> id -> sent_on (<[id := sent]> L) i = sent_on L i.
Proof. intros Hi. unfold sent_on. by rewrite lookup_insert_ne. Qed.

Lemma sent_insert_eq (L : sent_map) id sent : sent_on (<[id := sent]> L) id = sent.
Proof. unfold sent_on. by rewrite lookup_insert_eq. Qed.

(** A request read from a connection, served. *)
Lemma serve_request_inv s id c t hdr body rest sent s' :
  conn_ok sent c -> c_phase c = Ready ->
  readFrame (c_in c) (if st_authed (c_st c) then sc_MaxRequestSizeBytes cfg else sc_PreAuthMaxRequestBytes cfg)
  = Ok (hdr, body, rest) ->
  serve_request cfg auth h disk gunzip remote s id c t = Ok s' ->
  touched s id (sent ++ [(hdr, body)]) s' /\ (sv_broker s' = sv_broker s \/ st_authed (c_st c) = true).
Proof.
  intros Hc Hph Hf. assert (c_phase c <> Starting) as Hp by (by rewrite Hph).
  pose proof (conn_more sent [(hdr, body)] c Hc) as Hc'.
  assert (forall b corrID ctx r, (st_authed (c_st c) = true \/ exists o, r = Reply o) ->
    after_reply (set_broker s b) id corrID ctx (mkConn (c_info c) Ready (c_st c) rest) r = Ok s' ->
    touched s id (sent ++ [(hdr, body)]) s') as Hgo.
  { intros b corrID ctx r Hr E. eapply (touched_same s (set_broker s b)); [done|].
    eapply after_reply_touched; [by apply conn_ok_ready|done|exact Hr|exact E]. }
  unfold serve_request. rewrite Hf. destruct (st_authed (c_st c)) eqn:Ha; cbn [negb].
  { unfold dispatch. destruct (Handle _ _ _ _ _ _ _ _ _ _ _ _) as [b r]. intros E. split; [|by right].
    eapply Hgo; [by left|exact E]. }
  destruct (Z.eqb_spec (ApiKey hdr) APKApiVersions) as [Hk|_].
  { unfold dispatch. rewrite Hk, Handle_api_versions. intros E. split.
    - eapply Hgo; [right; by eexists|exact E].
    - left. by apply after_reply_broker in E. }
  destruct (_ =? APKSaslHandshake).
  { intros E. apply (serve_handshake_touched _ _ _ _ _ _ (sent ++ [(hdr, body)])) in E as [Ht Hb]; [|done..]. by split; [|left]. }
  destruct (Z.eqb_spec (ApiKey hdr) APKSaslAuthenticate) as [Hk|_].
  { intros E. apply (serve_auth_touched _ _ _ _ _ _ _ sent) in E as [Ht Hb]; [|done..]. by split; [|left]. }
  intros <-%(inj Ok). by split; [right|left].
Qed.

(** A step at a connection keeps the invariant, and the broker unless the
    connection is authenticated. *)
Lemma serve_inv s L id t s' :
  srv_inv s L -> serve cfg auth h disk gunzip remote s id t = Ok s' ->
  srv_inv s' (heard s (EServe id t) L) /\
  (sv_broker s' = sv_broker s \/
   exists c, sv_conns s !! id = Some c /\ st_authed (c_st c) = true).
Proof.
  intros Hi. unfold serve, heard. destruct (sv_conns s !! id) as [c|] eqn:Hid; [|intros <-%(inj Ok); by split; [|left]].
  pose proof (map_Forall_lookup_1 _ _ _ _ (si_conns _ _ Hi) Hid) as Hc. cbn [mbind option_bind]. unfold read_now.
  destruct (c_phase c) as [| |corrID ctx r] eqn:Hph.
  - intros <-%(inj Ok). destruct (start_conn_touched s id c t (sent_on L id)) as [Ht Hb].
    split; [by eapply touched_inv|by left].
  - destruct (readFrame _ _) as [[[hdr body] rest]| |] eqn:Hf.
    + intros E. destruct (serve_request_inv s id c t hdr body rest (sent_on L id) s') as [Ht Hb]; [done..|]. split.
      * eapply touched_inv; [done|done|by rewrite sent_insert_eq|]. intros i Hne. by apply sent_insert.
      * destruct Hb as [?|?]; [by left|right; by exists c].
    + unfold serve_request. rewrite Hf. intros <-%(inj Ok). split; [|by left].
      eapply touched_inv; [done|done|by right|done].
    + unfold serve_request. by rewrite Hf.
  - assert (st_authed (c_st c) = true) as Ha by (apply (co_waiting _ _ Hc); by rewrite Hph).
    intros E. split; [|right; by exists c].
    assert (forall b r', after_reply (set_broker s b) id corrID ctx c r' = Ok s' -> srv_inv s' L) as Hgo.
    { intros b r' E'. eapply touched_inv; [done|done| |done]. eapply (touched_same s (set_broker s b)); [done|].
      eapply after_reply_touched; [exact Hc|by rewrite Hph|by left|done]. }
    unfold wake in E. destruct r as [o|req p d|req m d|req born d].
    + apply (inj Ok) in E as <-. done.
    + destruct (fetch_wake _ _ _ _ _ _ _ _) as [st r]. by eapply Hgo.
    + destruct (join_resume _ _ _ _ _) as [gm r]. by eapply Hgo.
    + destruct (sync_resume _ _ _ _ _) as [gm r]. by eapply Hgo.
Qed.

Lemma fresh_conn_ok sent i input : conn_ok sent (fresh_conn i input).
Proof. by split. Qed.

Lemma accept_inv s L id i input :
  srv_inv s L -> sv_conns s !! id = None -> srv_inv (accept cfg s id i input) (<[id := []]> L).
Proof.
  intros [Hs Hm Hc] Hid. unfold accept.
  assert (map_Forall (fun i => conn_ok (sent_on (<[id := []]> L) i)) (sv_conns s)) as Hc'.
  { intros j c Hj. rewrite sent_insert by congruence. by apply Hc. }
  destruct (Z.ltb_spec (sv_sem s) (maxConns cfg)); [|by split].
  unfold registerConn. cbn. destruct (sv_closing s).
  - split; cbn; [lia|lia|done].
  - split; cbn; [|lia|by apply map_Forall_insert_2; [apply fresh_conn_ok|]].
    rewrite map_size_insert, Hid. lia.
Qed.

Lemma close_inv s L : srv_inv s L -> srv_inv (CloseServer s) L.
Proof.
  intros [Hs Hm Hc]. split; cbn; [by rewrite map_size_fmap|done|].
  intros id c (c0 & <- & H0)%lookup_fmap_Some. destruct (Hc _ _ H0). by split.
Qed.

Lemma sstep_inv s L e s' :
  srv_inv s L -> sstep cfg auth h disk gunzip remote s e = Ok s' -> srv_inv s' (heard s e L).
Proof.
  intros Hi. destruct e as [id i input|id t|]; cbn [sstep].
  - cbn [heard]. case_bool_decide as Hid; intros <-%(inj Ok); [done|]. apply accept_inv; [done|].
    by apply eq_None_not_Some.
  - intros E. by apply (serve_inv s L) in E as [? _].
  - intros <-%(inj Ok). by apply close_inv.
Qed.

Lemma srun_inv s L es s' :
  srv_inv s L -> srun cfg auth h disk gunzip remote s es = Ok s' -> srv_inv s' (requests s es L).
Proof.
  revert s L. induction es as [|e es IH]; intros s L Hi; cbn [srun requests]; [by intros <-%(inj Ok)|].
  destruct (sstep _ _ _ _ _ _ s e) as [s1| |] eqn:E; [|done|done]. cbn [obind]. apply IH.
  by eapply sstep_inv.
Qed.

Lemma NewServer_inv b : srv_inv (NewServer b) ∅.
Proof.
  split; cbn; [by rewrite map_size_empty| |by apply map_Forall_empty]. unfold maxConns.
  destruct (Z.leb_spec (sc_MaxConnections cfg) 0); lia.
Qed.

Lemma run_server_inv b es s :
  srun cfg auth h disk gunzip remote (NewServer b) es = Ok s -> srv_inv s (requests (NewServer b) es ∅).
Proof. intros E. eapply srun_inv; [apply NewServer_inv|exact E]. Qed.

(** C15: on every run of the server with security on, every connection that is
    authenticated acts as a name that its client proved: with a verified
    certificate for it, or with requests the server read from this very
    connection since it was accepted, namely a token with the name and the
    password of the configured user (over TLS where PLAIN requires it), or the
    two messages of a SCRAM exchange of which the first gives the name and the
    second holds the nonce of the session and a proof whose key hashes to the
    stored key of the verifier the server uses for that name (for a name that is
    not configured that verifier is a made-up one, see C40). And a step changes
    the broker only when it serves a connection that is authenticated. *)
Theorem only_authenticated_act b es s :
  srun cfg auth h disk gunzip remote (NewServer b) es = Ok s -> sc_SecurityEnabled cfg = true ->
  (forall id c, sv_conns s !! id = Some c -> st_authed (c_st c) = true ->
     let p := st_principal (c_st c) in
     (clientCertPrincipal (c_info c) = p /\ p <> []) \/
     shown cfg (sent_on (requests (NewServer b) es ∅) id) (isTLSConn (c_info c)) p) /\
  (forall e s', sstep cfg auth h disk gunzip remote s e = Ok s' ->
     sv_broker s' = sv_broker s \/
     exists id t c, e = EServe id t /\ sv_conns s !! id = Some c /\ st_authed (c_st c) = true).
Proof.
  intros Hr Hsec. pose proof (run_server_inv b es s Hr) as Hi. split.
  - intros id c Hid Ha. pose proof (map_Forall_lookup_1 _ _ _ _ (si_conns _ _ Hi) Hid) as Hc.
    destruct (co_trusted _ _ Hc Ha) as [?|?]; [congruence|done].
  - intros e s' Hst. destruct e as [id i input|id t|]; cbn in Hst.
    + left. case_bool_decide; apply (inj Ok) in Hst as <-; [done|]. unfold accept, registerConn. cbn.
      destruct (_ <? _); [|done]. by destruct (sv_closing s).
    + destruct (serve_inv s _ id t s' Hi Hst) as [_ [Hb|(c & Hc & Ha)]]; [by left|].
      right. by exists id, t, c.
    + left. by apply (inj Ok) in Hst as <-.
Qed.

(** C18: on every run there are at most [max_connections] connections (one when the
    setting is not positive), each holds exactly one token of the semaphore, and
    none has failed to authenticate three times. *)
Theorem connections_bounded b es s :
  srun cfg auth h disk gunzip remote (NewServer b) es = Ok s ->
  Z.of_nat (size (sv_conns s)) <= Z.max 1 (sc_MaxConnections cfg) /\
  sv_sem s = Z.of_nat (size (sv_conns s)) /\
  map_Forall (fun _ c => 0 <= st_saslFailures (c_st c) < 3) (sv_conns s).
Proof.
  intros Hr. destruct (run_server_inv b es s Hr) as [Hs Hm Hc].
  split_and!; [|done|].
  - unfold maxConns in Hm. destruct (Z.leb_spec (sc_MaxConnections cfg) 0); lia.
  - intros id c Hid. by apply (co_failures _ _ (Hc _ _ Hid)).
Qed.

(** ** What a client cannot do before it is authenticated *)

Lemma handshake_no_panic st version body :
  zlen body <= 4611686018427387904 -> handleSASLHandshake cfg st version body <> Panic.
Proof.
  intros Hl. unfold handleSASLHandshake.
  assert (decode (Session.DecodeSASLHandshakeRequest version) body <> Panic) as Hd.
  { apply safe_decode; [|done]. unfold Session.DecodeSASLHandshakeRequest. solve_safe. }
  by destruct (decode _ body).
Qed.

Lemma DeriveVerifier_no_panic m p salt it : DeriveVerifier m p salt it <> Panic.
Proof.
  unfold DeriveVerifier. destruct (_ <? _); [done|]. unfold pbkdf2_Key. by destruct (_ <=? _).
Qed.

Lemma ParseVerifier_no_panic s : ParseVerifier s <> Panic.
Proof.
  unfold ParseVerifier. destruct (Split (TrimSpace s) x24) as [|p0 [|p1 [|p2 [|p3 [|p4 [|]]]]]]; try done.
  destruct (negb _); [done|]. destruct (MechanismByName _); [|done].
  destruct (Atoi p1); try done. destruct (_ || _); [done|].
  destruct (b64_decode p2); try done. destruct (_ =? _); [done|].
  destruct (b64_decode p3); try done. destruct (negb _); [done|].
  destruct (b64_decode p4); try done. by destruct (negb _).
Qed.

Lemma scramVerifierFor_no_panic m username : scramVerifierFor cfg m username <> Panic.
Proof.
  unfold scramVerifierFor. destruct (findUser cfg username) as [u|]; [|apply DeriveVerifier_no_panic].
  destruct (negb _).
  - pose proof (ParseVerifier_no_panic (u_SCRAMVerifier u)).
    destruct (ParseVerifier _) as [v| |]; [|done|done]. cbn [obind]. destruct (negb _); [done|].
    pose proof (DeriveVerifier_no_panic m (str "pocketkafka-step1-padding-" ++ username)
                  (scramSalt cfg m username) (v_Iterations v)).
    by destruct (DeriveVerifier _ _ _ _).
  - destruct (negb _); [apply DeriveVerifier_no_panic|done].
Qed.

Lemma authenticate_no_panic sent rand st version body :
  rand <> Panic -> session_ok cfg sent st -> zlen body <= 4611686018427387904 ->
  handleSASLAuthenticate cfg rand st version body <> Panic.
Proof.
  intros Hr Hs Hl. unfold handleSASLAuthenticate.
  assert (decode (Session.DecodeSaslAuthenticateRequest version) body <> Panic) as Hd.
  { apply safe_decode; [|done]. unfold Session.DecodeSaslAuthenticateRequest. solve_safe. }
  destruct (decode _ body) as [req| |]; [|done|done]. cbn [obind].
  case_bool_decide; [done|]. case_bool_decide.
  { destruct (_ && _); [done|]. by destruct (authenticatePlain _ _). }
  destruct (_ || _); [|done]. unfold handleSCRAM.
  destruct (st_scram st) as [s|] eqn:Es.
  - unfold session_ok in Hs. rewrite Es in Hs. destruct Hs as (_ & _ & _ & first & _ & _ & Hst).
    destruct (started_mechanism _ _ _ _ Hst) as [Hm Hv].
    pose proof (finish_no_panic s (default [] (Session.AuthBytes req)) Hm Hv).
    by destruct (finish _ _) as [[s' out]| |].
  - destruct (MechanismByName _) as [m|]; [|done].
    pose proof (scramVerifierFor_no_panic m (scramUsername (default [] (Session.AuthBytes req)))).
    destruct (scramVerifierFor _ _ _) as [v| |]; [|done|done].
    unfold newScramSession. case_bool_decide; [done|]. unfold randomNonce. by destruct rand.
Qed.

Lemma apiVersions_no_panic version body : handleApiVersions version body <> Panic.
Proof. done. Qed.

Lemma after_reply_answers s id corrID ctx c o :
  o <> Panic -> exists s', after_reply s id corrID ctx c (Reply o) = Ok s'.
Proof. destruct o; cbn; [by eexists|by eexists|done]. Qed.

(** C17: a client that is not authenticated cannot crash the server, whatever bytes
    it sends: every step at its connection ends with a server that goes on. *)
Theorem unauthenticated_cannot_crash b es s id c t :
  0 < sc_PreAuthMaxRequestBytes cfg <= 4611686018427387904 ->
  srun cfg auth h disk gunzip remote (NewServer b) es = Ok s ->
  sv_conns s !! id = Some c -> st_authed (c_st c) = false -> t_rand t <> Panic ->
  exists s', serve cfg auth h disk gunzip remote s id t = Ok s'.
Proof.
  intros Hmax Hr Hid Ha Ht. pose proof (run_server_inv b es s Hr) as Hi.
  pose proof (map_Forall_lookup_1 _ _ _ _ (si_conns _ _ Hi) Hid) as Hc.
  unfold serve. rewrite Hid. destruct (c_phase c) as [| |corrID ctx r] eqn:Hph; [by eexists| |].
  2: { assert (st_authed (c_st c) = true) by (apply (co_waiting _ _ Hc); by rewrite Hph). congruence. }
  unfold serve_request. rewrite Ha. unfold readFrame.
  pose proof (frame_reader_total (c_in c) (sc_PreAuthMaxRequestBytes cfg) Hmax) as Hf.
  destruct (ReadRequestFrame _ _) as [[[hdr body] rest]| |]; [|by eexists|done].
  destruct Hf as [Hlen _]. assert (zlen body <= 4611686018427387904) as Hl by lia. cbn [negb].
  destruct (Z.eqb_spec (ApiKey hdr) APKApiVersions) as [Hk|_].
  { unfold dispatch. rewrite Hk, Handle_api_versions. apply after_reply_answers, apiVersions_no_panic. }
  destruct (_ =? APKSaslHandshake).
  { unfold serve_handshake. pose proof (handshake_no_panic (c_st c) (ApiVersion hdr) body Hl).
    destruct (handleSASLHandshake _ _ _ _) as [[st resp]| |]; [by eexists|by eexists|done]. }
  destruct (_ =? APKSaslAuthenticate); [|by eexists].
  unfold serve_auth. pose proof (authenticate_no_panic _ (t_rand t) (c_st c) (ApiVersion hdr) body Ht (co_session _ _ Hc Ha) Hl).
  destruct (handleSASLAuthenticate _ _ _ _ _) as [[[[st resp] ok] failed]| |]; [|by eexists|done].
  destruct failed; [destruct (_ <=? _)|]; by eexists.
Qed.

(** ** Closing down *)

(** Two steps are enough at a closed connection that does not wait. *)
Lemma closed_conn_released s id c t t' :
  sv_conns s !! id = Some c -> c_in c = [] -> is_waiting (c_phase c) = false ->
  exists s', srun cfg auth h disk gunzip remote s [EServe id t; EServe id t'] = Ok s' /\
    sv_conns s' = delete id (sv_conns s).
Proof.
  intros Hid Hin Hw.
  assert (forall s0 c0 t0, sv_conns s0 !! id = Some c0 -> c_in c0 = [] -> c_phase c0 = Ready ->
    serve cfg auth h disk gunzip remote s0 id t0 = Ok (releaseConn s0 id)) as Hready.
  { intros s0 c0 t0 H0 Hin0 Hp0. unfold serve. rewrite H0, Hp0. unfold serve_request, readFrame. by rewrite Hin0. }
  assert (forall s0 t0, sv_conns s0 !! id = None -> serve cfg auth h disk gunzip remote s0 id t0 = Ok s0) as Hgone.
  { intros s0 t0 H0. unfold serve. by rewrite H0. }
  cbn [srun sstep]. destruct (c_phase c) eqn:Hph; [| |done].
  - unfold serve at 1. rewrite Hid, Hph. cbn [obind]. unfold start_conn.
    destruct (if sc_SecurityEnabled cfg then _ else _) as [l allowed]. destruct allowed; cbn [negb].
    + erewrite Hready; [|apply lookup_insert_eq|done|done]. cbn [obind]. eexists. split; [done|]. cbn.
      by rewrite delete_insert_eq.
    + rewrite Hgone by (cbn; apply lookup_delete_eq). cbn [obind]. by eexists.
  - rewrite (Hready s c) by done. cbn [obind]. rewrite Hgone by (cbn; apply lookup_delete_eq).
    cbn [obind]. by eexists.
Qed.

(** C19: when the server is closed while no handler waits, serving every connection
    twice leaves none: nothing a client sent keeps a connection alive. *)
Theorem shutdown_drains s ids t :
  map_Forall (fun _ c => is_waiting (c_phase c) = false) (sv_conns s) ->
  (forall id, is_Some (sv_conns s !! id) -> id ∈ ids) ->
  exists s', srun cfg auth h disk gunzip remote (CloseServer s)
               (flat_map (fun id => [EServe id t; EServe id t]) ids) = Ok s' /\ sv_conns s' = ∅.
Proof.
  intros Hw Hids.
  assert (map_Forall (fun _ c => c_in c = [] /\ is_waiting (c_phase c) = false) (sv_conns (CloseServer s))) as Hc.
  { intros id c (c0 & <- & H0)%lookup_fmap_Some. split; [done|]. exact (Hw id c0 H0). }
  assert (forall id, is_Some (sv_conns (CloseServer s) !! id) -> id ∈ ids) as Hi.
  { intros id. cbn. rewrite lookup_fmap, fmap_is_Some. apply Hids. }
  revert Hc Hi. generalize (CloseServer s) as s0. clear Hw Hids s.
  induction ids as [|id ids IH]; intros s0 Hc Hi.
  { exists s0. split; [done|]. apply map_empty. intros id. apply eq_None_not_Some. intros Hx. by apply Hi, not_elem_of_nil in Hx. }
  cbn [flat_map].
  assert (exists s1, srun cfg auth h disk gunzip remote s0 [EServe id t; EServe id t] = Ok s1 /\
    sv_conns s1 = delete id (sv_conns s0)) as (s1 & E1 & E2).
  { destruct (sv_conns s0 !! id) as [c|] eqn:Hid.
    - destruct (Hc id c Hid). by eapply closed_conn_released.
    - exists s0. split; [|by rewrite delete_id]. cbn. unfold serve. rewrite Hid. cbn. by rewrite Hid. }
  destruct (IH s1) as (s' & E & Hs').
  - rewrite E2. by apply map_Forall_delete.
  - intros id' Hid'. rewrite E2 in Hid'. destruct (decide (id' = id)) as [->|Hne].
    + rewrite lookup_delete_eq in Hid'. by destruct Hid'.
    + rewrite lookup_delete_ne in Hid' by done. apply Hi, list_elem_of_In in Hid' as [?|?]; [congruence|by apply list_elem_of_In].
  - exists s'. split; [|done]. cbn [app srun] in E1 |- *.
    destruct (sstep _ _ _ _ _ _ s0 _) as [s2| |]; [|done|done]. cbn [obind] in *.
    destruct (sstep _ _ _ _ _ _ s2 _) as [s3| |]; [|done|done]. cbn [obind] in *.
    by apply (inj Ok) in E1 as <-.
Qed.
End props.

(** ** Concrete runs *)

Definition demo_info : connInfo := mkInfo (str "10.0.0.7:4711") 9092 None.
Definition demo_tick : tick := mkTick 5 None (Ok []).

(** A handshake for PLAIN, then the password of a configured user. *)
Definition demo_login : list byte :=
  client_frame APKSaslHandshake 0 1 (str "c") (Session.EncodeSASLHandshakeRequest (Session.mkSASLHandshakeRequest 0 plain) NewWriter)
  ++ client_frame APKSaslAuthenticate 0 2 (str "c")
       (Session.EncodeSaslAuthenticateRequest
          (Session.mkSaslAuthenticateRequest 0 (Some ([x00] ++ str "alice" ++ [x00] ++ str "secret"))) NewWriter).

Abbreviation demo_srun := (srun demo_server AllowAll demo_handler (fun _ _ => empty_dir) demo_gunzip None).
Abbreviation demo_sstep := (sstep demo_server AllowAll demo_handler (fun _ _ => empty_dir) demo_gunzip None).

Definition demo_events : list sevent :=
  [EAccept 1 demo_info demo_login; EServe 1 demo_tick; EServe 1 demo_tick; EServe 1 demo_tick].

(** The connection is authenticated as that user. *)
Lemma demo_login_succeeds :
  match demo_srun (NewServer demo_broker) demo_events with
  | Ok s => (fun c => (st_authed (c_st c), st_principal (c_st c))) <$> sv_conns s !! 1
  | _ => None
  end = Some (true, str "alice").
Proof. vm_compute. reflexivity. Qed.

Definition demo_authed : option Srv := match demo_srun (NewServer demo_broker) demo_events with Ok s => Some s | _ => None end.

Lemma demo_authed_run s : demo_authed = Some s -> demo_srun (NewServer demo_broker) demo_events = Ok s.
Proof. unfold demo_authed. destruct (demo_srun _ _); [|done|done]. by intros [= ->]. Qed.

Lemma demo_authed_conn :
  exists s c, demo_authed = Some s /\ sv_conns s !! 1 = Some c /\ st_authed (c_st c) = true /\
    st_principal (c_st c) = str "alice" /\ c_info c = demo_info.
Proof. eexists _, _. split; [vm_compute; reflexivity|]. vm_compute. split_and!; reflexivity. Qed.

(** The client of the example has no certificate, so it sent the credentials. *)
Lemma only_authenticated_act_witness :
  shown demo_server
    (sent_on (requests demo_server AllowAll demo_handler (fun _ _ => empty_dir) demo_gunzip None (NewServer demo_broker) demo_events ∅) 1)
    false (str "alice").
Proof.
  destruct demo_authed_conn as (s & c & Hs & Hc & Ha & Hp & Hi).
  pose proof (proj1 (only_authenticated_act demo_server AllowAll demo_handler (fun _ _ => empty_dir) demo_gunzip None
                demo_broker demo_events s (demo_authed_run s Hs) eq_refl) 1 c Hc Ha) as H.
  cbv zeta in H. rewrite Hp, Hi in H. destruct H as [[H _]|H]; [discriminate H|exact H].
Defined.

Lemma connections_bounded_witness :
  exists s, demo_srun (NewServer demo_broker) [EAccept 1 demo_info []; EAccept 2 demo_info []; EAccept 3 demo_info []] = Ok s /\
    Z.of_nat (size (sv_conns s)) <= 2.
Proof.
  eexists. split; [reflexivity|].
  eapply (connections_bounded demo_server AllowAll demo_handler (fun _ _ => empty_dir) demo_gunzip None
            demo_broker [EAccept 1 demo_info []; EAccept 2 demo_info []; EAccept 3 demo_info []]); reflexivity.
Defined.

Lemma unauthenticated_cannot_crash_witness :
  exists s s', demo_srun (NewServer demo_broker) [EAccept 1 demo_info [xff; xff; xff; xff; x00]; EServe 1 demo_tick] = Ok s /\
    serve demo_server AllowAll demo_handler (fun _ _ => empty_dir) demo_gunzip None s 1 demo_tick = Ok s'.
Proof.
  eexists.
  destruct (unauthenticated_cannot_crash demo_server AllowAll demo_handler (fun _ _ => empty_dir) demo_gunzip None
    demo_broker [EAccept 1 demo_info [xff; xff; xff; xff; x00]; EServe 1 demo_tick] _ 1 _ demo_tick
    ltac:(vm_compute; split; [reflexivity|discriminate]) eq_refl eq_refl eq_refl ltac:(discriminate)) as [s' Hs'].
  exists s'. split; [reflexivity|exact Hs'].
Defined.

Lemma shutdown_drains_witness :
  exists s', demo_srun (CloseServer (accept demo_server (NewServer demo_broker) 1 demo_info demo_login))
      (flat_map (fun id => [EServe id demo_tick; EServe id demo_tick]) [1]) = Ok s' /\
    sv_conns s' = ∅.
Proof.
  assert (sv_conns (accept demo_server (NewServer demo_broker) 1 demo_info demo_login)
          = {[1 := fresh_conn demo_info demo_login]}) as E by reflexivity.
  apply (shutdown_drains demo_server AllowAll demo_handler (fun _ _ => empty_dir) demo_gunzip None).
  - rewrite E. by apply map_Forall_singleton.
  - intros id. rewrite E. intros [c [<- _]%lookup_singleton_Some]. by left.
Defined.
