(* ===== verification/Accumulator.v ===== *)
(** * The producer's record accumulator (pkg/client/accumulator.go)

    Messages are buffered per topic and partition and handed to [flushFn] in
    batches. [flush] takes a buffer out under the mutex and calls [flushFn]
    without it: the two halves are [take_buffer] and [send_taken], and [flush]
    is both in one goroutine. What was handed to [flushFn] is kept in
    [ac_flushed]. The order in which Go walks the map of buffers is an
    argument. Times are nanoseconds. *)

From stdpp Require Import prelude gmap list strings.
From Stdlib Require Import ZArith Lia.
From S2P Require Import Prelude Wire RecordBatch.

(** producer.go; a header map is its entries in the order they are walked. The
    callback is not called by the accumulator. *)
Record Message := mkMessage {
  m_Topic : gostring; m_Key : gobytes; m_Value : gobytes; m_Headers : list RecordHeader; m_Partition : Z }.

Definition TopicPartition : Type := gostring * Z.

Record BatchBuffer := mkBuffer { bb_records : list Message; bb_byteSize : Z; bb_createdAt : Z }.

Record RecordAccumulator := mkAccum {
  ac_buffers : gmap TopicPartition BatchBuffer;
  ac_batchSize : Z;
  ac_byteLimit : Z;
  ac_linger : Z;
  ac_flushCh : list TopicPartition;
  ac_done : bool;
  ac_taken : list (list Message);
  ac_flushed : list (list Message) }.

Definition flushCh_capacity : Z := 256.

Definition NewRecordAccumulator (batchSize linger : Z) : RecordAccumulator :=
  mkAccum ∅ (if batchSize <=? 0 then 1000 else batchSize) (16 * 1024)
    (if linger <=? 0 then 5000000 else linger) [] false [] [].

Definition set_buffers (a : RecordAccumulator) (bs : gmap TopicPartition BatchBuffer) : RecordAccumulator :=
  mkAccum bs (ac_batchSize a) (ac_byteLimit a) (ac_linger a) (ac_flushCh a) (ac_done a) (ac_taken a) (ac_flushed a).
Definition set_flushCh (a : RecordAccumulator) (q : list TopicPartition) : RecordAccumulator :=
  mkAccum (ac_buffers a) (ac_batchSize a) (ac_byteLimit a) (ac_linger a) q (ac_done a) (ac_taken a) (ac_flushed a).

Definition tp_of (msg : Message) : TopicPartition := (m_Topic msg, m_Partition msg).

Definition Append (a : RecordAccumulator) (now : Z) (msg : Message) : RecordAccumulator * bool :=
  let tp := tp_of msg in
  let buf := default (mkBuffer [] 0 now) (ac_buffers a !! tp) in
  let buf := mkBuffer (bb_records buf ++ [msg]) (i64 (bb_byteSize buf + (blen (m_Key msg) + blen (m_Value msg))))
               (bb_createdAt buf) in
  let a := set_buffers a (<[tp := buf]> (ac_buffers a)) in
  let full := (ac_batchSize a <=? zlen (bb_records buf)) || (ac_byteLimit a <=? bb_byteSize buf) in
  if full then
    (if zlen (ac_flushCh a) <? flushCh_capacity then set_flushCh a (ac_flushCh a ++ [tp]) else a, true)
  else (a, false).

(** [flush] under the mutex. *)
Definition take_buffer (a : RecordAccumulator) (tp : TopicPartition) : RecordAccumulator :=
  match ac_buffers a !! tp with
  | None => a
  | Some buf =>
      if zlen (bb_records buf) =? 0 then a
      else mkAccum (delete tp (ac_buffers a)) (ac_batchSize a) (ac_byteLimit a) (ac_linger a) (ac_flushCh a)
             (ac_done a) (ac_taken a ++ [bb_records buf]) (ac_flushed a)
  end.

(** [flush] after it: the [i]-th batch taken is handed over. *)
Definition send_taken (a : RecordAccumulator) (i : nat) : RecordAccumulator :=
  match ac_taken a !! i with
  | None => a
  | Some msgs =>
      mkAccum (ac_buffers a) (ac_batchSize a) (ac_byteLimit a) (ac_linger a) (ac_flushCh a) (ac_done a)
        (delete i (ac_taken a)) (ac_flushed a ++ [msgs])
  end.

(** Both, while nobody else has a batch in hand. *)
Definition flush (a : RecordAccumulator) (tp : TopicPartition) : RecordAccumulator :=
  send_taken (take_buffer a tp) (length (ac_taken a)).

(** The ready buffers among [order], the order the map is walked in. *)
Definition flushLingered (order : list TopicPartition) (a : RecordAccumulator) (now : Z) : RecordAccumulator :=
  let ready := List.filter (fun tp => match ac_buffers a !! tp with
                                      | Some buf => ac_linger a <=? now - bb_createdAt buf
                                      | None => false
                                      end) order in
  fold_left flush ready a.

Definition flushAll (order : list TopicPartition) (a : RecordAccumulator) : RecordAccumulator :=
  let tps := List.filter (fun tp => bool_decide (is_Some (ac_buffers a !! tp))) order in
  fold_left flush tps a.

(** A round of [flusherLoop]: a request from the channel, or a tick. *)
Definition loop_request (a : RecordAccumulator) : RecordAccumulator :=
  match ac_flushCh a with
  | [] => a
  | tp :: q => flush (set_flushCh a q) tp
  end.

(** The loop has ended when [Close] goes on. *)
Definition Close (order : list TopicPartition) (a : RecordAccumulator) : RecordAccumulator :=
  flushAll order (mkAccum (ac_buffers a) (ac_batchSize a) (ac_byteLimit a) (ac_linger a) (ac_flushCh a) true
                    (ac_taken a) (ac_flushed a)).

Definition Flush (order : list TopicPartition) (a : RecordAccumulator) : RecordAccumulator := flushAll order a.

(** ** Nothing is lost or sent twice, however the goroutines interleave *)

Inductive aevent :=
  | AAppend (now : Z) (msg : Message)
  | ATake (tp : TopicPartition)
  | ASend (i : nat)
  | AReceive.

(** [AReceive]: the loop takes a request from its channel. *)
Definition astep (a : RecordAccumulator) (e : aevent) : RecordAccumulator :=
  match e with
  | AAppend now msg => (Append a now msg).1
  | ATake tp => take_buffer a tp
  | ASend i => send_taken a i
  | AReceive => set_flushCh a (tail (ac_flushCh a))
  end.

Definition arun (a : RecordAccumulator) (es : list aevent) : RecordAccumulator := fold_left astep es a.

Definition appended (es : list aevent) : list Message :=
  omap (fun e => match e with AAppend _ msg => Some msg | _ => None end) es.

Definition buffered (a : RecordAccumulator) : list Message :=
  mjoin (map (fun p => bb_records p.2) (map_to_list (ac_buffers a))).

Definition held (a : RecordAccumulator) : list Message :=
  mjoin (ac_flushed a) ++ mjoin (ac_taken a) ++ buffered a.

Lemma mjoin_perm {A} (l k : list (list A)) : l ≡ₚ k -> mjoin l ≡ₚ mjoin k.
Proof. induction 1; rewrite ?mjoin_cons; [done|by f_equiv|by rewrite !app_assoc, (Permutation_app_comm y)|by etrans]. Qed.

Lemma buffered_insert_fresh (bs : gmap TopicPartition BatchBuffer) tp buf :
  bs !! tp = None ->
  mjoin (map (fun p => bb_records p.2) (map_to_list (<[tp := buf]> bs)))
  ≡ₚ bb_records buf ++ mjoin (map (fun p => bb_records p.2) (map_to_list bs)).
Proof. intros Hn. by rewrite (mjoin_perm _ _ (Permutation_map _ (map_to_list_insert bs tp buf Hn))). Qed.

Lemma buffered_delete (bs : gmap TopicPartition BatchBuffer) tp buf :
  bs !! tp = Some buf ->
  mjoin (map (fun p => bb_records p.2) (map_to_list bs))
  ≡ₚ bb_records buf ++ mjoin (map (fun p => bb_records p.2) (map_to_list (delete tp bs))).
Proof.
  intros Hs. rewrite <- (buffered_insert_fresh (delete tp bs) tp buf) by apply lookup_delete_eq.
  by rewrite insert_delete_id.
Qed.

Lemma buffered_Append a now msg : buffered (Append a now msg).1 ≡ₚ buffered a ++ [msg].
Proof.
  unfold Append. set (buf := default _ _). set (buf' := mkBuffer _ _ _).
  assert (mjoin (map (fun p => bb_records p.2) (map_to_list (<[tp_of msg := buf']> (ac_buffers a))))
          ≡ₚ buffered a ++ [msg]) as Hm.
  { rewrite <- insert_delete_eq. rewrite buffered_insert_fresh by apply lookup_delete_eq. cbn [buf' bb_records].
    unfold buffered. destruct (ac_buffers a !! tp_of msg) as [b|] eqn:E.
    - subst buf. cbn [default]. rewrite (buffered_delete _ _ _ E). by solve_Permutation.
    - subst buf. rewrite delete_id by done. cbn. by rewrite Permutation_app_comm. }
  destruct (_ || _); [|exact Hm]. cbn [fst]. destruct (_ <? _); exact Hm.
Qed.

Lemma Append_rest a now msg :
  ac_taken (Append a now msg).1 = ac_taken a /\ ac_flushed (Append a now msg).1 = ac_flushed a.
Proof. unfold Append. destruct (_ || _); [|done]. cbn. by destruct (_ <? _). Qed.

(** Every batch is of one topic and partition, and a buffer of its own. *)
Definition same_tp (tp : TopicPartition) (msgs : list Message) : Prop := Forall (fun m => tp_of m = tp) msgs.

Record accum_ok (a : RecordAccumulator) : Prop := {
  ao_buffers : map_Forall (fun tp buf => same_tp tp (bb_records buf) /\ bb_records buf <> []) (ac_buffers a);
  ao_taken : Forall (fun msgs => msgs <> [] /\ exists tp, same_tp tp msgs) (ac_taken a);
  ao_flushed : Forall (fun msgs => msgs <> [] /\ exists tp, same_tp tp msgs) (ac_flushed a) }.

Lemma Append_ok a now msg : accum_ok a -> accum_ok (Append a now msg).1.
Proof.
  intros [Hb Ht Hf]. destruct (Append_rest a now msg) as [E1 E2]. split; rewrite ?E1, ?E2; [|done|done].
  unfold Append. set (buf := default _ _). set (buf' := mkBuffer _ _ _).
  assert (map_Forall (fun tp b => same_tp tp (bb_records b) /\ bb_records b <> [])
            (<[tp_of msg := buf']> (ac_buffers a))) as Hm.
  { apply map_Forall_insert_2; [|done]. cbn. split; [|by intros [_ ?]%app_eq_nil].
    apply Forall_app. split; [|by constructor]. subst buf.
    destruct (ac_buffers a !! tp_of msg) as [b|] eqn:E; [|constructor]. by destruct (Hb _ _ E). }
  destruct (_ || _); [|exact Hm]. cbn [fst]. destruct (_ <? _); exact Hm.
Qed.

Lemma take_buffer_ok a tp : accum_ok a -> accum_ok (take_buffer a tp) /\ held (take_buffer a tp) ≡ₚ held a.
Proof.
  intros Ha. pose proof Ha as [Hb Ht Hf]. unfold take_buffer.
  destruct (ac_buffers a !! tp) as [buf|] eqn:E; [|done]. destruct (_ =? _); [done|].
  destruct (Hb _ _ E) as [Hs Hn]. split; [split; cbn|].
  - by apply map_Forall_delete.
  - apply Forall_app. split; [done|]. constructor; [|done]. split; [done|by exists tp].
  - done.
  - unfold held, buffered. cbn. rewrite (buffered_delete _ _ _ E), mjoin_snoc, <- !app_assoc. done.
Qed.

Lemma mjoin_delete {A} (ls : list (list A)) i l :
  ls !! i = Some l -> mjoin ls ≡ₚ l ++ mjoin (delete i ls).
Proof.
  intros Hi. rewrite (mjoin_perm _ _ (delete_Permutation ls i l Hi)). by rewrite mjoin_cons.
Qed.

Lemma send_taken_ok a i : accum_ok a -> accum_ok (send_taken a i) /\ held (send_taken a i) ≡ₚ held a.
Proof.
  intros Ha. pose proof Ha as [Hb Ht Hf]. unfold send_taken.
  destruct (ac_taken a !! i) as [msgs|] eqn:E; [|done].
  pose proof (Forall_lookup_1 _ _ _ _ Ht E) as Hm. split; [split; cbn|].
  - done.
  - by apply Forall_delete.
  - apply Forall_app. split; [done|]. by constructor.
  - unfold held. cbn. rewrite (mjoin_delete _ _ _ E), mjoin_snoc, <- !app_assoc. done.
Qed.

Lemma astep_ok a e : accum_ok a ->
  accum_ok (astep a e) /\ held (astep a e) ≡ₚ held a ++ appended [e].
Proof.
  intros Ha. destruct e as [now msg|tp|i|]; cbn [astep appended omap list_omap].
  - split; [by apply Append_ok|]. unfold held. destruct (Append_rest a now msg) as [-> ->].
    rewrite buffered_Append, !app_assoc. done.
  - rewrite app_nil_r. by apply take_buffer_ok.
  - rewrite app_nil_r. by apply send_taken_ok.
  - rewrite app_nil_r. split; [|done]. by destruct Ha.
Qed.

Lemma appended_cons e es : appended (e :: es) = appended [e] ++ appended es.
Proof. unfold appended. cbn. by destruct e. Qed.

Lemma arun_ok es a : accum_ok a -> accum_ok (arun a es) /\ held (arun a es) ≡ₚ held a ++ appended es.
Proof.
  revert a. unfold arun. induction es as [|e es IH]; intros a Ha; cbn [fold_left].
  - by rewrite app_nil_r.
  - destruct (astep_ok a e Ha) as [H1 H2]. destruct (IH _ H1) as [H3 H4]. split; [done|].
    rewrite H4, H2, (appended_cons e es), <- app_assoc. done.
Qed.

Lemma New_ok batchSize linger : accum_ok (NewRecordAccumulator batchSize linger).
Proof. split; cbn; [apply map_Forall_empty|constructor|constructor]. Qed.

(** However appends, takes and hand-overs of any goroutines interleave, the
    messages handed over, those taken out and those still buffered are exactly
    the messages appended, none lost or doubled; every batch handed over has
    messages, all of one topic and partition. *)
Theorem accumulator_conserves batchSize linger es :
  let a := arun (NewRecordAccumulator batchSize linger) es in
  mjoin (ac_flushed a) ++ mjoin (ac_taken a) ++ buffered a ≡ₚ appended es /\
  Forall (fun msgs => msgs <> [] /\ exists tp, same_tp tp msgs) (ac_flushed a).
Proof.
  destruct (arun_ok es (NewRecordAccumulator batchSize linger) (New_ok _ _)) as [[_ _ Hf] Hp]. by split.
Qed.

(** ** Order, when one goroutine flushes *)

Definition of_tp (tp : TopicPartition) (msgs : list Message) : list Message :=
  List.filter (fun m => bool_decide (tp_of m = tp)) msgs.

Definition in_buffer (a : RecordAccumulator) (tp : TopicPartition) : list Message :=
  match ac_buffers a !! tp with Some buf => bb_records buf | None => [] end.

(** What was handed over and what is buffered for [tp], in order. *)
Definition sequence (a : RecordAccumulator) (tp : TopicPartition) : list Message :=
  of_tp tp (mjoin (ac_flushed a)) ++ in_buffer a tp.

Arguments of_tp : simpl never.
Arguments in_buffer : simpl never.
Arguments sequence : simpl never.

Lemma of_tp_app tp l k : of_tp tp (l ++ k) = of_tp tp l ++ of_tp tp k.
Proof. apply List.filter_app. Qed.

Lemma of_tp_same tp tp' msgs :
  same_tp tp msgs -> of_tp tp' msgs = if bool_decide (tp = tp') then msgs else [].
Proof.
  intros Hs. induction Hs as [|m msgs Hm _ IH]; [by case_bool_decide|].
  change (of_tp tp' (m :: msgs))
    with (if bool_decide (tp_of m = tp') then m :: of_tp tp' msgs else of_tp tp' msgs).
  rewrite Hm, IH. by case_bool_decide.
Qed.

Lemma Append_sequence a now msg tp :
  sequence (Append a now msg).1 tp = sequence a tp ++ of_tp tp [msg].
Proof.
  unfold sequence. destruct (Append_rest a now msg) as [_ ->]. rewrite <- app_assoc. f_equal.
  assert (in_buffer (Append a now msg).1 tp
          = match (<[tp_of msg := mkBuffer (in_buffer a (tp_of msg) ++ [msg]) 0 0]> (ac_buffers a)) !! tp with
            | Some buf => bb_records buf | None => [] end) as ->.
  { unfold in_buffer, Append. set (buf := default _ _).
    assert (bb_records buf = match ac_buffers a !! tp_of msg with Some b => bb_records b | None => [] end) as <-
      by (subst buf; by destruct (ac_buffers a !! tp_of msg)).
    assert (forall x y, (match (<[tp_of msg := mkBuffer (bb_records buf ++ [msg]) x y]> (ac_buffers a)) !! tp with
      | Some b => bb_records b | None => [] end)
      = match (<[tp_of msg := mkBuffer (bb_records buf ++ [msg]) 0 0]> (ac_buffers a)) !! tp with
        | Some b => bb_records b | None => [] end) as Hx.
    { intros x y. destruct (decide (tp_of msg = tp)) as [->|Hne]; [by rewrite !lookup_insert_eq|by rewrite !lookup_insert_ne]. }
    destruct (_ || _); [|apply Hx]. cbn [fst]. destruct (_ <? _); apply Hx. }
  unfold of_tp. cbn. destruct (decide (tp_of msg = tp)) as [<-|Hne].
  - rewrite lookup_insert_eq, bool_decide_eq_true_2 by done. done.
  - rewrite lookup_insert_ne, bool_decide_eq_false_2 by done. by rewrite app_nil_r.
Qed.

(** [flush] by itself: nothing taken before, nothing after. *)
Lemma flush_spec a tp :
  accum_ok a -> ac_taken a = [] ->
  accum_ok (flush a tp) /\ ac_taken (flush a tp) = [] /\ (forall tp', sequence (flush a tp) tp' = sequence a tp') /\
  ac_buffers (flush a tp) = delete tp (ac_buffers a).
Proof.
  intros Ha Ht. assert (accum_ok (flush a tp)) as Hok.
  { unfold flush. apply send_taken_ok, take_buffer_ok, Ha. }
  split; [done|]. pose proof Ha as [Hb _ _]. unfold flush, take_buffer in *. rewrite Ht in *.
  destruct (ac_buffers a !! tp) as [buf|] eqn:E.
  - destruct (Hb _ _ E) as [Hs Hn]. rewrite (proj2 (Z.eqb_neq _ _)).
    2: { destruct (bb_records buf) as [|m r]; [done|]. rewrite zlen_cons. pose proof (zlen_nonneg r). lia. }
    unfold send_taken. cbn. split_and!; [done| |done]. intros tp'. unfold sequence. cbn [ac_flushed].
    rewrite mjoin_snoc, of_tp_app, (of_tp_same tp tp' (bb_records buf)) by done. rewrite <- app_assoc. f_equal.
    unfold in_buffer. cbn. case_bool_decide as Hd.
    + subst. rewrite lookup_delete_eq, E. by rewrite app_nil_r.
    + by rewrite lookup_delete_ne.
  - unfold send_taken. cbn. rewrite Ht. cbn. split_and!; [done|done|]. by rewrite delete_id.
Qed.

Lemma fold_flush_spec tps a :
  accum_ok a -> ac_taken a = [] ->
  let a' := fold_left flush tps a in
  accum_ok a' /\ ac_taken a' = [] /\ (forall tp, sequence a' tp = sequence a tp) /\
  (forall tp, ac_buffers a' !! tp = if bool_decide (tp ∈ tps) then None else ac_buffers a !! tp).
Proof.
  revert a. induction tps as [|t tps IH]; intros a Ha Ht; cbn [fold_left].
  - cbn. split_and!; done.
  - destruct (flush_spec a t Ha Ht) as (H1 & H2 & H3 & H4). destruct (IH _ H1 H2) as (G1 & G2 & G3 & G4).
    split_and!; [done|done|intros tp; by rewrite G3|]. intros tp. rewrite G4, H4.
    destruct (decide (tp ∈ tps)) as [Hin|Hni].
    + rewrite !bool_decide_eq_true_2; [done|by right|done].
    + rewrite (bool_decide_eq_false_2 _ Hni). destruct (decide (tp = t)) as [->|Hne].
      * rewrite lookup_delete_eq, bool_decide_eq_true_2; [done|by left].
      * rewrite lookup_delete_ne by done. rewrite bool_decide_eq_false_2; [done|]. by intros [?|?]%elem_of_cons.
Qed.

(** What the producer and the loop do, one after the other. *)
Inductive aop :=
  | OpAppend (now : Z) (msg : Message)
  | OpRequest
  | OpTick (order : list TopicPartition) (now : Z)
  | OpFlush (order : list TopicPartition).

Definition aop_step (a : RecordAccumulator) (o : aop) : RecordAccumulator :=
  match o with
  | OpAppend now msg => (Append a now msg).1
  | OpRequest => loop_request a
  | OpTick order now => flushLingered order a now
  | OpFlush order => Flush order a
  end.

Definition op_messages (os : list aop) : list Message :=
  omap (fun o => match o with OpAppend _ msg => Some msg | _ => None end) os.

Lemma aop_step_spec a o :
  accum_ok a -> ac_taken a = [] ->
  accum_ok (aop_step a o) /\ ac_taken (aop_step a o) = [] /\
  (forall tp, sequence (aop_step a o) tp = sequence a tp ++ of_tp tp (op_messages [o])).
Proof.
  intros Ha Ht. destruct o as [now msg| |order now|order]; cbn [aop_step op_messages omap list_omap].
  - split; [by apply Append_ok|]. split; [by rewrite (proj1 (Append_rest a now msg))|].
    intros tp. apply Append_sequence.
  - unfold loop_request. destruct (ac_flushCh a) as [|tp q]; [by split_and!; try done; intros; rewrite app_nil_r|].
    destruct (flush_spec (set_flushCh a q) tp) as (H1 & H2 & H3 & _); [by destruct Ha|done|].
    split_and!; [done|done|]. intros tp'. rewrite H3, app_nil_r. done.
  - unfold flushLingered. destruct (fold_flush_spec (List.filter (fun tp => match ac_buffers a !! tp with
      | Some buf => ac_linger a <=? now - bb_createdAt buf | None => false end) order) a Ha Ht) as (H1 & H2 & H3 & _).
    split_and!; [done|done|]. intros tp. by rewrite H3, app_nil_r.
  - unfold Flush, flushAll. destruct (fold_flush_spec (List.filter (fun tp => bool_decide (is_Some (ac_buffers a !! tp))) order)
      a Ha Ht) as (H1 & H2 & H3 & _).
    split_and!; [done|done|]. intros tp. by rewrite H3, app_nil_r.
Qed.

Lemma op_messages_cons o os : op_messages (o :: os) = op_messages [o] ++ op_messages os.
Proof. unfold op_messages. cbn. by destruct o. Qed.

Lemma aop_run_spec os a :
  accum_ok a -> ac_taken a = [] ->
  let a' := fold_left aop_step os a in
  accum_ok a' /\ ac_taken a' = [] /\
  (forall tp, sequence a' tp = sequence a tp ++ of_tp tp (op_messages os)).
Proof.
  revert a. induction os as [|o os IH]; intros a Ha Ht; cbn [fold_left].
  - cbn. split_and!; try done. intros tp. by rewrite app_nil_r.
  - destruct (aop_step_spec a o Ha Ht) as (H1 & H2 & H3). destruct (IH _ H1 H2) as (G1 & G2 & G3).
    split_and!; [done|done|]. intros tp. rewrite G3, H3, (op_messages_cons o os), of_tp_app, <- app_assoc. done.
Qed.

(** When one goroutine at a time flushes, and the accumulator is then closed,
    every message has been handed over, for each topic and partition in the
    order in which it was appended. *)
Theorem accumulator_in_order batchSize linger os order tp :
  let a := fold_left aop_step os (NewRecordAccumulator batchSize linger) in
  (forall t, is_Some (ac_buffers a !! t) -> t ∈ order) ->
  ac_buffers (Close order a) = ∅ /\
  of_tp tp (mjoin (ac_flushed (Close order a))) = of_tp tp (op_messages os).
Proof.
  intros a Hall.
  destruct (aop_run_spec os (NewRecordAccumulator batchSize linger) (New_ok _ _) eq_refl) as (H1 & H2 & H3).
  fold a in H1, H2, H3. unfold Close. set (a1 := mkAccum _ _ _ _ _ _ _ _).
  assert (accum_ok a1) as Ha1 by (by destruct H1).
  unfold flushAll.
  destruct (fold_flush_spec (List.filter (fun t => bool_decide (is_Some (ac_buffers a1 !! t))) order) a1 Ha1 H2)
    as (G1 & G2 & G3 & G4). set (a2 := fold_left flush _ a1) in *.
  assert (ac_buffers a2 = ∅) as Hempty.
  { apply map_empty. intros t. rewrite G4. case_bool_decide as Hd; [done|].
    destruct (ac_buffers a1 !! t) as [buf|] eqn:E; [|done]. exfalso. apply Hd.
    apply list_elem_of_In, List.filter_In. split; [|by rewrite E].
    apply list_elem_of_In, Hall. change (is_Some (ac_buffers a1 !! t)). by rewrite E. }
  split; [done|]. specialize (G3 tp). unfold sequence in G3 at 1. unfold in_buffer in G3. rewrite Hempty, lookup_empty, app_nil_r in G3.
  rewrite G3. change (sequence a1 tp) with (sequence a tp). rewrite H3. done.
Qed.

Definition demo_message (topic value : string) : Message :=
  mkMessage (String.list_byte_of_string topic) None (Some (String.list_byte_of_string value)) [] 0.

Lemma accumulator_in_order_witness :
  let a := fold_left aop_step [OpAppend 0 (demo_message "t" "1"); OpAppend 1 (demo_message "t" "2"); OpRequest]
             (NewRecordAccumulator 2 0) in
  ac_buffers (Close [([x74], 0)] a) = ∅ /\
  of_tp ([x74], 0) (mjoin (ac_flushed (Close [([x74], 0)] a)))
  = [demo_message "t" "1"; demo_message "t" "2"].
Proof.
  apply (accumulator_in_order 2 0 [OpAppend 0 (demo_message "t" "1"); OpAppend 1 (demo_message "t" "2"); OpRequest]
    [([x74], 0)] ([x74], 0)).
  intros t [buf Hb]. exfalso. revert Hb. vm_compute. destruct t as [? ?]. discriminate.
Defined.

(** Two goroutines that flush the same buffer can hand its messages over in the
    wrong order: the second is sent before the first. *)
Lemma concurrent_flush_reorders :
  let m1 := demo_message "t" "1" in
  let m2 := demo_message "t" "2" in
  let tp := ([x74], 0) in
  ac_flushed (arun (NewRecordAccumulator 10 0)
    [AAppend 0 m1; ATake tp; AAppend 1 m2; ATake tp; ASend 1; ASend 0]) = [[m2]; [m1]].
Proof. reflexivity. Qed.
