(* ===== verification/Client.v ===== *)
(** * The client library (pkg/client: client.go, sasl.go, admin.go, producer.go,
    consumer_group.go, errors.go)

    A client talks to a broker through one connection. What is at the other end
    is an instance of the class [Network]: given the bytes of a request frame,
    the bytes that come back before the deadline. Every call of the client is in
    the monad [IO]: it threads the client's state and the network's. The order
    in which Go walks a map is an argument ([walk]), as is the time. *)

From stdpp Require Import prelude gmap list strings.
From Stdlib Require Import ZArith Lia.
From S2P Require Import Prelude GoStrings Wire RecordBatch Frame MsgData MsgAdmin MsgGroup MsgGroupAdmin Accumulator.

(** ** The connection *)

Class Network (Net : Type) := deliver : Net -> list byte -> Net * list byte.

Record SASL := mkSASL { sasl_Mechanism : gostring; sasl_Username : gostring; sasl_Password : gostring }.

Record PartitionMeta := mkPartitionMeta { pm_Topic : gostring; pm_PartitionID : Z; pm_LeaderID : Z }.

(** [kc_unread]: bytes received and not read yet. *)
Record KafkaClient := mkClient {
  kc_clientID : gostring;
  kc_corrID : Z;
  kc_metadata : gmap gostring (list PartitionMeta);
  kc_apiVersions : gmap Z Z;
  kc_sasl : SASL;
  kc_readOnly : bool;
  kc_unread : list byte }.

Definition set_corrID (c : KafkaClient) (n : Z) : KafkaClient :=
  mkClient (kc_clientID c) n (kc_metadata c) (kc_apiVersions c) (kc_sasl c) (kc_readOnly c) (kc_unread c).
Definition set_metadata (c : KafkaClient) (m : gmap gostring (list PartitionMeta)) : KafkaClient :=
  mkClient (kc_clientID c) (kc_corrID c) m (kc_apiVersions c) (kc_sasl c) (kc_readOnly c) (kc_unread c).
Definition set_apiVersions (c : KafkaClient) (m : gmap Z Z) : KafkaClient :=
  mkClient (kc_clientID c) (kc_corrID c) (kc_metadata c) m (kc_sasl c) (kc_readOnly c) (kc_unread c).
Definition set_unread (c : KafkaClient) (bs : list byte) : KafkaClient :=
  mkClient (kc_clientID c) (kc_corrID c) (kc_metadata c) (kc_apiVersions c) (kc_sasl c) (kc_readOnly c) bs.

Definition defaultAPIVersions : gmap Z Z :=
  list_to_map (map (fun k => (k, MaxVersion k))
    [APKProduce; APKFetch; APKListOffsets; APKMetadata; APKOffsetCommit; APKOffsetFetch; APKFindCoordinator;
     APKJoinGroup; APKHeartbeat; APKLeaveGroup; APKSyncGroup; APKApiVersions; APKCreateTopics; APKDeleteTopics;
     APKDescribeGroups; APKListGroups; APKDeleteGroups; APKInitProducerID]).

Definition client_version (c : KafkaClient) (key : Z) : Z := default 0 (kc_apiVersions c !! key).

Definition readOnlyAPIKeys : list Z :=
  [APKApiVersions; APKSaslHandshake; APKSaslAuthenticate; APKMetadata; APKListOffsets; APKFetch; APKListGroups;
   APKDescribeGroups; APKOffsetFetch; APKFindCoordinator].

Definition checkAPI (c : KafkaClient) (apiKey : Z) : outcome unit :=
  if kc_readOnly c && negb (bool_decide (apiKey ∈ readOnlyAPIKeys))
  then Err "client is read-only: this API can change the cluster" else Ok tt.

(** The reading half of [roundTrip]: what is left unread, and the answer. A read
    that fails has used up what there was. *)
Definition read_response (corrID : Z) (stream : list byte) : list byte * outcome (list byte) :=
  match ReadFull stream 4 with
  | Ok (lenBuf, rest) =>
      let length := i32 (ube lenBuf) in
      if length <? 4 then (rest, Err "invalid response length") else
      match ReadFull rest length with
      | Ok (body, rest) =>
          if negb (i32 (ube (take 4 body)) =? corrID) then (rest, Err "correlation id mismatch")
          else (rest, Ok (drop 4 body))
      | Err e => ([], Err e)
      | Panic => ([], Panic)
      end
  | Err e => ([], Err e)
  | Panic => ([], Panic)
  end.

Section client.
Context `{Network Net}.

Definition IO (A : Type) : Type := KafkaClient * Net -> (KafkaClient * Net) * outcome A.

Definition io_ret {A} (a : A) : IO A := fun s => (s, Ok a).
Definition io_lift {A} (o : outcome A) : IO A := fun s => (s, o).
Definition io_bind {A B} (m : IO A) (k : A -> IO B) : IO B := fun s =>
  let '(s, o) := m s in
  match o with
  | Ok a => k a s
  | Err e => (s, Err e)
  | Panic => (s, Panic)
  end.
Definition io_client : IO KafkaClient := fun s => (s, Ok s.1).
Definition io_modify (f : KafkaClient -> KafkaClient) : IO unit := fun s => ((f s.1, s.2), Ok tt).

(** Both results of a call that returns an error: [x, err := m]. *)
Definition io_try {A} (m : IO A) : IO (outcome A) := fun s =>
  let '(s, o) := m s in
  match o with Panic => (s, Panic) | _ => (s, Ok o) end.
End client.

Notation "'io!' x := m 'in' k" := (io_bind m (fun x => k))
  (at level 10, x pattern, m at level 100, k at level 200) : go_scope.

Section client_ops.
Context `{Network Net}.

Definition roundTrip (apiKey version : Z) (reqBody : list byte) : IO (list byte) := fun '(c, n) =>
  match checkAPI c apiKey with
  | Ok _ =>
      let corrID := i32 (kc_corrID c + 1) in
      let c := set_corrID c corrID in
      let '(n, received) := deliver n (client_frame apiKey version corrID (kc_clientID c) reqBody) in
      let '(unread, o) := read_response corrID (kc_unread c ++ received) in
      ((set_unread c unread, n), o)
  | Err e => ((c, n), Err e)
  | Panic => ((c, n), Panic)
  end.

(** The pattern of every call: the negotiated version, encode, exchange, decode. *)
Definition call {Q R} (key : Z) (mk : Z -> Q) (enc : Q -> W) (dec : Z -> M R) : IO R :=
  io! c := io_client in
  let version := client_version c key in
  io! body := roundTrip key version (enc (mk version) NewWriter) in
  io_lift (decode (dec version) body).

Definition negotiate_key (m : gmap Z Z) (k : Session.ApiKeySupport) : gmap Z Z :=
  match m !! Session.ApiKey k with
  | Some cur => if Session.MaxVersion k <? cur then <[Session.ApiKey k := Session.MaxVersion k]> m else m
  | None => m
  end.

Definition negotiate : IO unit :=
  io! body := roundTrip APKApiVersions 0 [] in
  io! resp := io_lift (decode (Session.DecodeApiVersionsResponse 0) body) in
  io_modify (fun c => set_apiVersions c (fold_left negotiate_key (Session.ApiKeys resp) (kc_apiVersions c))).

Definition MechanismPlain : gostring := str "PLAIN".

Definition plainToken (user pass : gostring) : list byte := [x00] ++ user ++ [x00] ++ pass.

Definition authenticate : IO unit :=
  io! c := io_client in
  let sasl := kc_sasl c in
  if bool_decide (sasl_Mechanism sasl = []) then io_ret tt else
  if negb (EqualFold (sasl_Mechanism sasl) MechanismPlain) then io_lift (Err "unsupported SASL mechanism") else
  io! body := roundTrip APKSaslHandshake 1
    (Session.EncodeSASLHandshakeRequest (Session.mkSASLHandshakeRequest 1 MechanismPlain) NewWriter) in
  io! hsResp := io_lift (decode (Session.DecodeSASLHandshakeResponse 1) body) in
  if negb (Session.shr_ErrorCode hsResp =? 0) then io_lift (Err "sasl handshake rejected") else
  io! body := roundTrip APKSaslAuthenticate 1
    (Session.EncodeSaslAuthenticateRequest
       (Session.mkSaslAuthenticateRequest 1 (Some (plainToken (sasl_Username sasl) (sasl_Password sasl)))) NewWriter) in
  io! authResp := io_lift (decode (Session.DecodeSaslAuthenticateResponse 1) body) in
  if negb (Session.sar_ErrorCode authResp =? 0) then io_lift (Err "sasl authenticate rejected")
  else io_ret tt.

Definition fetchMetadata : IO Metadata.MetadataResponse :=
  io! c := io_client in
  call APKMetadata (fun v => Metadata.mkMetadataRequest v None (negb (kc_readOnly c)) false false)
    Metadata.EncodeMetadataRequest Metadata.DecodeMetadataResponse.

Definition topic_meta (t : Metadata.MetadataTopic) : list PartitionMeta :=
  map (fun p => mkPartitionMeta (Metadata.Name t) (Metadata.Partition p) (Metadata.Leader p)) (Metadata.Partitions t).

Definition RefreshMetadata : IO unit :=
  io! resp := fetchMetadata in
  io_modify (fun c => set_metadata c
    (fold_left (fun m t => <[Metadata.Name t := topic_meta t]> m) (Metadata.Topics resp) ∅)).

Definition Partitions (c : KafkaClient) (topic : gostring) : list PartitionMeta := default [] (kc_metadata c !! topic).

(** The client over a connection that is open. *)
Definition new_client (clientID : gostring) (sasl : SASL) (readOnly : bool) : KafkaClient :=
  mkClient clientID 0 ∅ defaultAPIVersions sasl readOnly [].

Definition NewClientWithOptions (clientID : gostring) (sasl : SASL) (readOnly : bool) (n : Net)
  : (KafkaClient * Net) * outcome unit :=
  (io! _ := negotiate in
   io! _ := authenticate in
   RefreshMetadata) (new_client clientID sasl readOnly, n).

(** ** Administration (admin.go) *)

Definition kafka_error (code : Z) : outcome unit := if code =? ErrNone then Ok tt else Err "kafka error code".

Definition CreateTopic (name : gostring) (partitions : Z) : IO unit :=
  io! resp := call APKCreateTopics
    (fun v => Topics.mkCreateTopicsRequest v [Topics.mkCreateTopicsRequestTopic name (i32 partitions) 0 [] []] 10000 false)
    Topics.EncodeCreateTopicsRequest Topics.DecodeCreateTopicsResponse in
  match Topics.created resp with
  | t :: _ => io_lift (kafka_error (Topics.ErrorCode t))
  | [] => io_ret tt
  end.

Definition DeleteTopic (name : gostring) : IO unit :=
  io! resp := call APKDeleteTopics (fun v => Topics.mkDeleteTopicsRequest v [name] 10000)
    Topics.EncodeDeleteTopicsRequest Topics.DecodeDeleteTopicsResponse in
  match Topics.deleted resp with
  | t :: _ => io_lift (kafka_error (Topics.del_ErrorCode t))
  | [] => io_ret tt
  end.

Definition ListTopics : IO (list gostring) :=
  io! r := io_try RefreshMetadata in
  match r with
  | Ok _ => io! c := io_client in io_ret (sort_strings (map fst (map_to_list (kc_metadata c))))
  | _ => io_ret []
  end.

Definition QueryOffset (topic : gostring) (partition ts : Z) : IO Z :=
  io! resp := call APKListOffsets
    (fun v => ListOffsets.mkListOffsetsRequest v (-1) 0
       [ListOffsets.mkListOffsetsRequestTopic topic [ListOffsets.mkListOffsetsRequestPartition partition 0 ts 0]])
    ListOffsets.EncodeListOffsetsRequest ListOffsets.DecodeListOffsetsResponse in
  match ListOffsets.Topics resp with
  | t :: _ =>
      match ListOffsets.Partitions t with
      | p :: _ => io! _ := io_lift (kafka_error (ListOffsets.ErrorCode p)) in io_ret (ListOffsets.Offset p)
      | [] => io_lift (Err "empty produce response")
      end
  | [] => io_lift (Err "empty produce response")
  end.

Definition ListGroups : IO (list gostring) :=
  io! resp := call APKListGroups (fun v => GroupAdmin.mkListGroupsRequest v)
    GroupAdmin.EncodeListGroupsRequest GroupAdmin.DecodeListGroupsResponse in
  io! _ := io_lift (kafka_error (GroupAdmin.lr_ErrorCode resp)) in
  io_ret (map GroupAdmin.lg_GroupID (GroupAdmin.lr_Groups resp)).

Record GroupInfo := mkGroupInfo { gi_GroupID : gostring; gi_State : gostring; gi_Members : list gostring }.

Definition DescribeGroup (group : gostring) : IO GroupInfo :=
  io! resp := call APKDescribeGroups (fun v => GroupAdmin.mkDescribeGroupsRequest v [group] false)
    GroupAdmin.EncodeDescribeGroupsRequest GroupAdmin.DecodeDescribeGroupsResponse in
  match GroupAdmin.dr_Groups resp with
  | [] => io_lift (Err "empty produce response")
  | g :: _ =>
      io! _ := io_lift (kafka_error (GroupAdmin.dg_ErrorCode g)) in
      io_ret (mkGroupInfo (GroupAdmin.dg_GroupID g) (GroupAdmin.State g)
                (map GroupAdmin.MemberID (GroupAdmin.dg_Members g)))
  end.

Definition DeleteGroup (group : gostring) : IO unit :=
  io! resp := call APKDeleteGroups (fun v => GroupAdmin.mkDeleteGroupsRequest v [group])
    GroupAdmin.EncodeDeleteGroupsRequest GroupAdmin.DecodeDeleteGroupsResponse in
  match GroupAdmin.xr_Groups resp with
  | g :: _ => io_lift (kafka_error (GroupAdmin.xg_ErrorCode g))
  | [] => io_ret tt
  end.

Definition ResetOffset (group topic : gostring) (partition offset : Z) : IO unit :=
  io! resp := call APKOffsetCommit
    (fun v => Offsets.mkOffsetCommitRequest v group (-1) [] None
       [Offsets.mkOffsetCommitRequestTopic topic [Offsets.mkOffsetCommitRequestPartition partition offset 0 None]])
    Offsets.EncodeOffsetCommitRequest Offsets.DecodeOffsetCommitResponse in
  match Offsets.r_Topics resp with
  | t :: _ => match Offsets.r_Partitions t with
              | p :: _ => io_lift (kafka_error (Offsets.r_ErrorCode p))
              | [] => io_ret tt
              end
  | [] => io_ret tt
  end.

Definition CommittedOffset (group topic : gostring) (partition : Z) : IO Z :=
  io! resp := call APKOffsetFetch
    (fun v => Offsets.mkOffsetFetchRequest v group (Some [Offsets.mkOffsetFetchRequestTopic topic (Some [partition])]))
    Offsets.EncodeOffsetFetchRequest Offsets.DecodeOffsetFetchResponse in
  match Offsets.ofr_Topics resp with
  | t :: _ => match Offsets.fr_Partitions t with
              | p :: _ => io_ret (Offsets.fr_Offset p)
              | [] => io_lift (Err "empty produce response")
              end
  | [] => io_lift (Err "empty produce response")
  end.

(** ** The producer (producer.go) *)

Definition nanos_per_ms : Z := 1000000.

Record ProducerConfig := mkProducerConfig {
  pc_Acks : Z; pc_Timeout : Z; pc_BatchSize : Z; pc_LingerMs : Z; pc_Idempotent : bool; pc_TransactionalID : gostring }.

Record Producer := mkProducer {
  pr_cfg : ProducerConfig; pr_producerID : Z; pr_producerEpoch : Z; pr_sequence : Z }.

Definition uses_id (p : Producer) : bool :=
  pc_Idempotent (pr_cfg p) || negb (bool_decide (pc_TransactionalID (pr_cfg p) = [])).

(** An error leaves the producer without an id. *)
Definition initProducerID (p : Producer) : IO Producer :=
  let txn := pc_TransactionalID (pr_cfg p) in
  io! o := io_try (call APKInitProducerID
    (fun v => Session.mkInitProducerIdRequest v (if bool_decide (txn = []) then None else Some txn)
       (i32 (Z.quot (pc_Timeout (pr_cfg p)) nanos_per_ms)) 0 0)
    Session.EncodeInitProducerIdRequest Session.DecodeInitProducerIdResponse) in
  io_ret (match o with
          | Ok resp => if Session.ipr_ErrorCode resp =? ErrNone
                       then mkProducer (pr_cfg p) (Session.ProducerID resp) (Session.ProducerEpoch resp) (pr_sequence p)
                       else p
          | _ => p
          end).

Definition NewProducer (cfg : ProducerConfig) : IO Producer :=
  let cfg := if pc_Acks cfg =? 0
             then mkProducerConfig 1 (pc_Timeout cfg) (pc_BatchSize cfg) (pc_LingerMs cfg) (pc_Idempotent cfg)
                    (pc_TransactionalID cfg)
             else cfg in
  let p := mkProducer cfg (-1) (-1) 0 in
  if uses_id p then initProducerID p else io_ret p.

(** The batch [encodeBatch] encodes; the CRC and the magic are the encoder's. *)
Definition producer_batch (p : Producer) (now : Z) (msgs : list Message) : RecordBatch :=
  let '(pid, epoch, seq) :=
    if uses_id p then (pr_producerID p, pr_producerEpoch p, pr_sequence p) else (-1, -1, -1) in
  mkBatch 0 0 0 0 0 0 now now pid epoch seq
    (imap (fun i m => mkRecord 0 0 (i32 (Z.of_nat i)) (m_Key m) (m_Value m) (m_Headers m)) msgs).

Definition encodeBatch (p : Producer) (now : Z) (msgs : list Message) : Producer * outcome (list byte) :=
  (if uses_id p
   then mkProducer (pr_cfg p) (pr_producerID p) (pr_producerEpoch p) (i32 (pr_sequence p + i32 (zlen msgs)))
   else p,
   EncodeRecordBatch (producer_batch p now msgs)).

(** [order]: the topics of the messages, as the map of them is walked. *)
Fixpoint build_topics (p : Producer) (now : Z) (order : list gostring) (msgs : list Message)
  : Producer * outcome (list Produce.ProduceRequestTopic) :=
  match order with
  | [] => (p, Ok [])
  | topic :: order =>
      let '(p, o) := encodeBatch p now (List.filter (fun m => bool_decide (m_Topic m = topic)) msgs) in
      match o with
      | Ok batch =>
          let '(p, o) := build_topics p now order msgs in
          (p, let? ts := o in
              Ok (Produce.mkProduceRequestTopic topic [Produce.mkProduceRequestPartition 0 (Some batch)] :: ts))
      | Err e => (p, Err e)
      | Panic => (p, Panic)
      end
  end.

Definition buildProduceRequest (p : Producer) (version now : Z) (order : list gostring) (msgs : list Message)
  : Producer * outcome Produce.ProduceRequest :=
  let '(p, o) := build_topics p now order msgs in
  (p, let? ts := o in
      Ok (Produce.mkProduceRequest version (pc_Acks (pr_cfg p)) (i32 (Z.quot (pc_Timeout (pr_cfg p)) nanos_per_ms)) ts)).

Definition SendSync (p : Producer) (now : Z) (msg : Message) : IO (Producer * outcome Z) :=
  io! c := io_client in
  let version := client_version c APKProduce in
  let '(p, o) := buildProduceRequest p version now [m_Topic msg] [msg] in
  io! r := io_try (
    io! req := io_lift o in
    io! body := roundTrip APKProduce version (Produce.EncodeProduceRequest req NewWriter) in
    io! resp := io_lift (decode (Produce.DecodeProduceResponse version) body) in
    match Produce.Topics resp with
    | t :: _ =>
        match Produce.Partitions t with
        | pr :: _ => io! _ := io_lift (kafka_error (Produce.ErrorCode pr)) in io_ret (Produce.BaseOffset pr)
        | [] => io_lift (Err "empty produce response")
        end
    | [] => io_lift (Err "empty produce response")
    end) in
  io_ret (p, r).

Definition flushBatch (p : Producer) (now : Z) (order : list gostring) (msgs : list Message)
  : IO (Producer * outcome unit) :=
  io! c := io_client in
  let version := client_version c APKProduce in
  let '(p, o) := buildProduceRequest p version now order msgs in
  io! r := io_try (
    io! req := io_lift o in
    io! _ := roundTrip APKProduce version (Produce.EncodeProduceRequest req NewWriter) in
    io_ret tt) in
  io_ret (p, r).

Definition BeginTransaction (p : Producer) : outcome unit :=
  if bool_decide (pc_TransactionalID (pr_cfg p) = []) then Err "kafka error code"
  else Err "pocketkafka: transactions are not supported by this broker".
Definition endTransaction (p : Producer) (commit : bool) : outcome unit :=
  if bool_decide (pc_TransactionalID (pr_cfg p) = []) then Err "kafka error code"
  else Err "pocketkafka: transactions are not supported by this broker".
End client_ops.
