(* ===== verification/Consumer.v ===== *)
(** * The consumer group client (pkg/client/consumer_group.go, errors.go)

    Joining a group, the leader's assignment of partitions, the fetch loop and
    its positions. The calls of the message handler are kept in
    [cg_delivered]; [handler] says what each returns. The order in which Go
    walks a map is the argument [walk]. *)

From stdpp Require Import prelude gmap list strings.
From Stdlib Require Import ZArith Lia.
From S2P Require Import Prelude GoStrings GoBinary Wire RecordBatch Frame MsgData MsgAdmin MsgGroup MsgGroupAdmin Accumulator Client.

(** ** Names of partitions as text *)

(** errors.go, [itoa]: the digits of [v] in front of [acc]; the buffer has room
    for twenty. *)
Fixpoint itoa_digits_of (fuel : nat) (v : Z) (acc : gostring) : gostring :=
  match fuel with
  | O => acc
  | S k => if 0 <? v then itoa_digits_of k (v / 10) (z2b (48 + v mod 10) :: acc) else acc
  end.

Definition client_itoa (v : Z) : gostring :=
  if v =? 0 then str "0"
  else if v <? 0 then x2d :: itoa_digits_of 20 (- v) [] else itoa_digits_of 20 v [].

Definition topicPartition (topic : gostring) (p : Z) : gostring := topic ++ [x00] ++ client_itoa p.

Fixpoint parse_from (v : Z) (s : gostring) : Z :=
  match s with
  | [] => v
  | b :: r => if (b2z b <? 48) || (57 <? b2z b) then v else parse_from (i32 (v * 10 + (b2z b - 48))) r
  end.

Definition parseInt (s : gostring) : Z := parse_from 0 s.

Fixpoint split_from_tp (t : gostring) (tp : gostring) : gostring * Z :=
  match tp with
  | [] => (t, 0)
  | b :: r => if bool_decide (b = x00) then (t, parseInt r) else split_from_tp (t ++ [b]) r
  end.

Definition splitTopicPartition (tp : gostring) : gostring * Z := split_from_tp [] tp.

(** ** The leader's assignment *)

Definition append_part (m : gmap gostring (list Z)) (t : gostring) (p : Z) : gmap gostring (list Z) :=
  <[t := default [] (m !! t) ++ [p]]> m.

Definition toMap (tps : list gostring) : gmap gostring (list Z) :=
  fold_left (fun out tp => let '(t, p) := splitTopicPartition tp in append_part out t p) tps ∅.

(** Every partition of every topic, as text. *)
Definition all_partitions (c : KafkaClient) (topics : list gostring) : list gostring :=
  mjoin (map (fun t => map (fun pm => topicPartition t (pm_PartitionID pm)) (Partitions c t)) topics).

(** [assign[names[i%len(names)]]] for each partition in turn; no members is a
    division by zero. *)
Fixpoint deal (names : list gostring) (i : nat) (all : list gostring) (assign : gmap gostring (list gostring))
  : outcome (gmap gostring (list gostring)) :=
  match all with
  | [] => Ok assign
  | tp :: all =>
      match names !! (i `mod` length names)%nat with
      | Some m => deal names (S i) all (<[m := default [] (assign !! m) ++ [tp]]> assign)
      | None => Panic
      end
  end.

Definition computeAssignment (c : KafkaClient) (topics : list gostring) (members : list Membership.JoinGroupResponseMember)
  : outcome (list (gostring * gmap gostring (list Z))) :=
  let names := map Membership.m_MemberID members in
  let assign0 : gmap gostring (list gostring) := list_to_map (map (fun n => (n, [])) names) in
  let? assign := deal names 0 (all_partitions c topics) assign0 in
  Ok (map (fun n => (n, toMap (default [] (assign !! n)))) names).

(** ** Subscriptions and assignments as bytes *)

Definition encodeSubscription (topics : list gostring) : list byte :=
  (WriteArrayLen (zlen topics) +> for_each topics WriteString +> WriteBytes None) NewWriter.

(** [entries]: the map, in the order it is walked. *)
Definition encodeAssignment (entries : list (gostring * list Z)) : list byte :=
  (WriteArrayLen (zlen entries)
   +> for_each entries (fun e => WriteString e.1 +> WriteArrayLen (zlen e.2) +> for_each e.2 WriteInt32)
   +> WriteBytes None) NewWriter.

Definition read_assigned : M (gostring * list Z) :=
  let! topic := ReadString in
  let! pn := ReadArrayLen in
  let! parts := read_list (Z.to_nat pn) ReadInt32 in
  ret (topic, parts).

Definition decodeAssignment (b : gobytes) : outcome (gmap gostring (list Z)) :=
  match b with
  | None => Ok ∅
  | Some b =>
      let? (entries, _) :=
        (let! n := ReadArrayLen in read_list (Z.to_nat n) read_assigned) (NewReader b) in
      Ok (fold_left (fun m e => <[e.1 := e.2]> m) entries ∅)
  end.

(** ** The consumer *)

Record ConsumedMessage := mkConsumed {
  cm_Topic : gostring; cm_Partition : Z; cm_Offset : Z; cm_Key : gobytes; cm_Value : gobytes;
  cm_Headers : gmap gostring gobytes }.

Record ConsumerGroupConfig := mkConsumerConfig {
  cc_GroupID : gostring; cc_SessionTimeout : Z; cc_HeartbeatInterval : Z; cc_AutoCommit : bool;
  cc_AutoCommitInterval : Z; cc_InitialOffset : Z; cc_FetchMaxBytes : Z; cc_FetchMaxWait : Z }.

Record ConsumerGroup := mkConsumer {
  cg_cfg : ConsumerGroupConfig;
  cg_memberID : gostring;
  cg_generation : Z;
  cg_topics : list gostring;
  cg_subTopics : list gostring;
  cg_assignment : gmap gostring (list Z);
  cg_positions : gmap gostring (gmap Z Z);
  cg_delivered : list ConsumedMessage }.

Definition set_assignment (cg : ConsumerGroup) (a : gmap gostring (list Z)) : ConsumerGroup :=
  mkConsumer (cg_cfg cg) (cg_memberID cg) (cg_generation cg) (cg_topics cg) (cg_subTopics cg) a (cg_positions cg)
    (cg_delivered cg).
Definition set_member (cg : ConsumerGroup) (id : gostring) (generation : Z) (topics : list gostring) : ConsumerGroup :=
  mkConsumer (cg_cfg cg) id generation topics (cg_subTopics cg) (cg_assignment cg) (cg_positions cg) (cg_delivered cg).

Definition NewConsumerGroup (cfg : ConsumerGroupConfig) : ConsumerGroup :=
  mkConsumer (mkConsumerConfig (cc_GroupID cfg)
                (if cc_SessionTimeout cfg =? 0 then 30000000000 else cc_SessionTimeout cfg)
                (if cc_HeartbeatInterval cfg =? 0 then 3000000000 else cc_HeartbeatInterval cfg)
                (cc_AutoCommit cfg) (cc_AutoCommitInterval cfg)
                (if cc_InitialOffset cfg =? 0 then -1 else cc_InitialOffset cfg)
                (cc_FetchMaxBytes cfg) (cc_FetchMaxWait cfg))
    [] 0 [] [] ∅ ∅ [].

Definition SetGroupID (cg : ConsumerGroup) (id : gostring) : ConsumerGroup :=
  let c := cg_cfg cg in
  mkConsumer (mkConsumerConfig id (cc_SessionTimeout c) (cc_HeartbeatInterval c) (cc_AutoCommit c)
                (cc_AutoCommitInterval c) (cc_InitialOffset c) (cc_FetchMaxBytes c) (cc_FetchMaxWait c))
    (cg_memberID cg) (cg_generation cg) (cg_topics cg) (cg_subTopics cg) (cg_assignment cg) (cg_positions cg)
    (cg_delivered cg).

Definition SetTopics (cg : ConsumerGroup) (topics : list gostring) : ConsumerGroup :=
  mkConsumer (cg_cfg cg) (cg_memberID cg) (cg_generation cg) (cg_topics cg) topics (cg_assignment cg) (cg_positions cg)
    (cg_delivered cg).

Definition setPosition (cg : ConsumerGroup) (topic : gostring) (partition offset : Z) : ConsumerGroup :=
  mkConsumer (cg_cfg cg) (cg_memberID cg) (cg_generation cg) (cg_topics cg) (cg_subTopics cg) (cg_assignment cg)
    (<[topic := <[partition := offset]> (default ∅ (cg_positions cg !! topic))]> (cg_positions cg)) (cg_delivered cg).

Definition deliver_message (cg : ConsumerGroup) (m : ConsumedMessage) : ConsumerGroup :=
  mkConsumer (cg_cfg cg) (cg_memberID cg) (cg_generation cg) (cg_topics cg) (cg_subTopics cg) (cg_assignment cg)
    (cg_positions cg) (cg_delivered cg ++ [m]).

Definition consumed (topic : gostring) (partition base : Z) (rec : Record_) : ConsumedMessage :=
  mkConsumed topic partition (i64 (base + rec_OffsetDelta rec)) (rec_Key rec) (rec_Value rec)
    (fold_left (fun m h => <[hdr_Key h := hdr_Value h]> m) (rec_Headers rec) ∅).

Section consumer.
Context (handler : ConsumedMessage -> outcome unit).

(** The records of a batch, until the handler fails. *)
Fixpoint handle_records (cg : ConsumerGroup) (topic : gostring) (partition base : Z) (recs : list Record_)
  : ConsumerGroup * outcome unit :=
  match recs with
  | [] => (cg, Ok tt)
  | rec :: recs =>
      let m := consumed topic partition base rec in
      let cg := deliver_message cg m in
      match handler m with
      | Ok _ => handle_records cg topic partition base recs
      | Err e => (cg, Err e)
      | Panic => (cg, Panic)
      end
  end.

Definition handle_partition (cg : ConsumerGroup) (topic : gostring) (p : Fetch.FetchResponsePartition)
  : ConsumerGroup * outcome unit :=
  if blen (Fetch.Records p) =? 0 then (cg, Ok tt) else
  match DecodeRecordBatch (default [] (Fetch.Records p)) with
  | Ok batch =>
      let '(cg, o) := handle_records cg topic (Fetch.Partition p) (rb_BaseOffset batch) (rb_Records batch) in
      match o with
      | Ok _ => (setPosition cg topic (Fetch.Partition p) (i64 (i64 (rb_BaseOffset batch + rb_LastOffsetDelta batch) + 1)), Ok tt)
      | _ => (cg, o)
      end
  | Err _ => (cg, Ok tt)
  | Panic => (cg, Panic)
  end.

Fixpoint handle_partitions (cg : ConsumerGroup) (topic : gostring) (ps : list Fetch.FetchResponsePartition)
  : ConsumerGroup * outcome unit :=
  match ps with
  | [] => (cg, Ok tt)
  | p :: ps =>
      let '(cg, o) := handle_partition cg topic p in
      match o with Ok _ => handle_partitions cg topic ps | _ => (cg, o) end
  end.

Fixpoint handle_topics (cg : ConsumerGroup) (ts : list Fetch.FetchResponseTopic) : ConsumerGroup * outcome unit :=
  match ts with
  | [] => (cg, Ok tt)
  | t :: ts =>
      let '(cg, o) := handle_partitions cg (Fetch.Topic t) (Fetch.Partitions t) in
      match o with Ok _ => handle_topics cg ts | _ => (cg, o) end
  end.

Context `{Network Net}.
(** How the maps of the consumer are walked. *)
Context (walk : gmap gostring (list Z) -> list (gostring * list Z)).
Context (walk_positions : gmap gostring (gmap Z Z) -> list (gostring * list (Z * Z))).
Context (walk_topics : gmap gostring (list PartitionMeta) -> list gostring).

Definition findCoordinator (cg : ConsumerGroup) : IO unit :=
  io! resp := call APKFindCoordinator (fun v => Membership.mkFindCoordinatorRequest v (cc_GroupID (cg_cfg cg)) 0)
    Membership.EncodeFindCoordinatorRequest Membership.DecodeFindCoordinatorResponse in
  io_lift (kafka_error (Membership.fcr_ErrorCode resp)).

Definition session_ms (cg : ConsumerGroup) : Z := i32 (Z.quot (cc_SessionTimeout (cg_cfg cg)) nanos_per_ms).

Definition join_request (cg : ConsumerGroup) (topics : list gostring) (v : Z) : Membership.JoinGroupRequest :=
  Membership.mkJoinGroupRequest v (cc_GroupID (cg_cfg cg)) (session_ms cg) (session_ms cg) (cg_memberID cg) None
    (str "consumer") [Membership.mkJoinGroupRequestProtocol (str "range") (Some (encodeSubscription topics))].

Definition joinAndSync (cg : ConsumerGroup) : IO ConsumerGroup :=
  io! _ := io_try RefreshMetadata in
  io! c := io_client in
  let topics := if negb (bool_decide (cg_subTopics cg = [])) then cg_subTopics cg else walk_topics (kc_metadata c) in
  io! joinResp := call APKJoinGroup (join_request cg topics)
    Membership.EncodeJoinGroupRequest Membership.DecodeJoinGroupResponse in
  io! _ := io_lift (kafka_error (Membership.jgr_ErrorCode joinResp)) in
  let cg := set_member cg (Membership.jgr_MemberID joinResp) (Membership.jgr_GenerationID joinResp) topics in
  io! assignments :=
    if bool_decide (Membership.LeaderID joinResp = cg_memberID cg) then
      io! ms := io_lift (computeAssignment c topics (Membership.Members joinResp)) in
      io_ret (map (fun e => Membership.mkSyncGroupRequestAssignment e.1 (Some (encodeAssignment (walk e.2)))) ms)
    else io_ret [] in
  io! syncResp := call APKSyncGroup
    (fun v => Membership.mkSyncGroupRequest v (cc_GroupID (cg_cfg cg)) (cg_generation cg) (cg_memberID cg) None assignments)
    Membership.EncodeSyncGroupRequest Membership.DecodeSyncGroupResponse in
  io! _ := io_lift (kafka_error (Membership.sgr_ErrorCode syncResp)) in
  io! a := io_lift (decodeAssignment (Membership.Assignment syncResp)) in
  io_ret (set_assignment cg a).

Definition initPositions (cg : ConsumerGroup) : IO ConsumerGroup :=
  let topics := map (fun e => ListOffsets.mkListOffsetsRequestTopic e.1
    (map (fun p => ListOffsets.mkListOffsetsRequestPartition p 0 (cc_InitialOffset (cg_cfg cg)) 0) e.2)) (walk (cg_assignment cg)) in
  io! resp := call APKListOffsets (fun v => ListOffsets.mkListOffsetsRequest v (-1) 0 topics)
    ListOffsets.EncodeListOffsetsRequest ListOffsets.DecodeListOffsetsResponse in
  io_ret (fold_left (fun cg t =>
    fold_left (fun cg p => setPosition cg (ListOffsets.Topic t) (ListOffsets.Partition p) (ListOffsets.Offset p))
      (ListOffsets.Partitions t) cg) (ListOffsets.Topics resp) cg).

Definition position (cg : ConsumerGroup) (topic : gostring) (p : Z) : Z :=
  default 0 (default ∅ (cg_positions cg !! topic) !! p).

Definition fetch_topics (cg : ConsumerGroup) : list Fetch.FetchRequestTopic :=
  map (fun e => Fetch.mkFetchRequestTopic e.1
    (map (fun p => Fetch.mkFetchRequestPartition p (position cg e.1 p) 0 (cc_FetchMaxBytes (cg_cfg cg))) e.2))
    (walk (cg_assignment cg)).

Definition fetchOnce (cg : ConsumerGroup) : IO (ConsumerGroup * outcome unit) :=
  let topics := fetch_topics cg in
  if bool_decide (topics = []) then io_ret (cg, Ok tt) else
  io! o := io_try (call APKFetch
    (fun v => Fetch.mkFetchRequest v (-1) (cc_FetchMaxWait (cg_cfg cg)) 1 (cc_FetchMaxBytes (cg_cfg cg)) 0 topics)
    Fetch.EncodeFetchRequest Fetch.DecodeFetchResponse) in
  match o with
  | Ok resp => io_ret (handle_topics cg (Fetch.Topics resp))
  | Err e => io_ret (cg, Err e)
  | Panic => io_lift Panic
  end.

Definition commit (cg : ConsumerGroup) : IO unit :=
  let topics := map (fun e => Offsets.mkOffsetCommitRequestTopic e.1
    (map (fun p => Offsets.mkOffsetCommitRequestPartition p.1 p.2 0 None) e.2)) (walk_positions (cg_positions cg)) in
  io! c := io_client in
  let version := client_version c APKOffsetCommit in
  io! _ := roundTrip APKOffsetCommit version
    (Offsets.EncodeOffsetCommitRequest
       (Offsets.mkOffsetCommitRequest version (cc_GroupID (cg_cfg cg)) (cg_generation cg) (cg_memberID cg) None topics)
       NewWriter) in
  io_ret tt.

(** A tick of the heartbeat loop; the answer is not looked at. *)
Definition heartbeat (cg : ConsumerGroup) : IO unit :=
  io! c := io_client in
  let version := client_version c APKHeartbeat in
  io! _ := io_try (roundTrip APKHeartbeat version
    (Membership.EncodeHeartbeatRequest
       (Membership.mkHeartbeatRequest version (cc_GroupID (cg_cfg cg)) (cg_generation cg) (cg_memberID cg) None) NewWriter)) in
  io_ret tt.

(** [Start] until its loops begin. *)
Definition start_consumer (cg : ConsumerGroup) : IO ConsumerGroup :=
  io! _ := findCoordinator cg in
  io! cg := joinAndSync cg in
  initPositions cg.
End consumer.
