(* ===== verification/ConsumerProps.v ===== *)
(** * What the consumer group client guarantees

    The leader's assignment gives every partition to exactly one member, evenly,
    and each member reads its share back from the bytes the leader sent. *)

From stdpp Require Import prelude gmap list strings.
From Stdlib Require Import ZArith Lia.
From S2P Require Import Prelude GoStrings GoBinary Wire RecordBatch Frame.
From S2P Require Import MsgData MsgAdmin MsgGroup MsgGroupAdmin Accumulator Client Consumer.

(** ** Names of partitions *)

Lemma parse_digits_of fuel v acc k :
  0 <= v < 10 ^ Z.of_nat fuel -> in_i32 v ->
  parse_from 0 (itoa_digits_of fuel v acc ++ k) = parse_from v (acc ++ k).
Proof.
  revert v acc. induction fuel as [|fuel IH]; intros v acc Hv Hr.
  { change (10 ^ Z.of_nat 0) with 1 in Hv. by replace v with 0 by lia. }
  cbn [itoa_digits_of]. destruct (Z.ltb_spec 0 v); [|by replace v with 0 by lia].
  assert (10 ^ Z.of_nat (S fuel) = 10 * 10 ^ Z.of_nat fuel) as Hp by (rewrite Nat2Z.inj_succ, Z.pow_succ_r; lia).
  pose proof (Z.div_mod v 10 ltac:(lia)). pose proof (Z.mod_pos_bound v 10 ltac:(lia)).
  rewrite IH; [|rewrite Hp in Hv; split; [apply Z.div_pos; lia|apply Z.div_lt_upper_bound; lia]|mlia].
  cbn [app parse_from]. rewrite digit_value by lia.
  rewrite (proj2 (Z.ltb_ge _ _)), (proj2 (Z.ltb_ge _ _)) by lia. cbn [orb].
  f_equal. rewrite i32_id by mlia. lia.
Qed.

Lemma parseInt_itoa p : 0 <= p < 2147483648 -> parseInt (client_itoa p) = p.
Proof.
  intros Hp. unfold client_itoa. destruct (Z.eqb_spec p 0) as [->|]; [reflexivity|].
  rewrite (proj2 (Z.ltb_ge _ _)) by lia. unfold parseInt.
  rewrite <- (app_nil_r (itoa_digits_of 20 p [])).
  rewrite parse_digits_of; [done|change (10 ^ Z.of_nat 20) with 100000000000000000000; lia|mlia].
Qed.

Lemma split_from_tp_app cur t r :
  Forall (fun b => b <> x00) t -> split_from_tp cur (t ++ [x00] ++ r) = (cur ++ t, parseInt r).
Proof.
  intros Ht. revert cur. induction Ht as [|b t Hb _ IH]; intros cur; cbn [split_from_tp app].
  - rewrite bool_decide_eq_true_2 by done. by rewrite app_nil_r.
  - rewrite bool_decide_eq_false_2 by done. change (t ++ x00 :: r) with (t ++ [x00] ++ r).
    rewrite IH, <- app_assoc. done.
Qed.

Definition topic_ok (t : gostring) : Prop := Forall (fun b => b <> x00) t /\ str_ok t.
Definition part_ok (p : Z) : Prop := 0 <= p < 2147483648.

(** The text of a partition is taken apart into that partition. *)
Lemma splitTopicPartition_text t p :
  topic_ok t -> part_ok p -> splitTopicPartition (topicPartition t p) = (t, p).
Proof.
  intros [Ht _] Hp. unfold splitTopicPartition, topicPartition. rewrite split_from_tp_app by done.
  cbn [app]. by rewrite parseInt_itoa.
Qed.

(** ** Dealing in turn *)

(** The elements whose position, counted from [i], is [j] modulo [n]. *)
Fixpoint pick {A} (n j i : nat) (l : list A) : list A :=
  match l with
  | [] => []
  | x :: l => if (i `mod` n =? j)%nat then x :: pick n j (S i) l else pick n j (S i) l
  end.

Lemma elem_of_pick {A} n j i (l : list A) x :
  x ∈ pick n j i l <-> exists k, l !! k = Some x /\ ((i + k) `mod` n = j)%nat.
Proof.
  revert i. induction l as [|y l IH]; intros i; cbn [pick].
  - split; [by intros ?%not_elem_of_nil|intros (k & Hk & _); by rewrite lookup_nil in Hk].
  - destruct (Nat.eqb_spec (i `mod` n) j) as [Hj|Hj].
    + rewrite elem_of_cons, IH. split.
      * intros [->|(k & Hk & Hm)]; [exists 0%nat; by rewrite Nat.add_0_r|exists (S k)].
        split; [done|]. by rewrite Nat.add_succ_r.
      * intros ([|k] & Hk & Hm); [left; by injection Hk|right]. exists k.
        split; [done|]. by rewrite Nat.add_succ_r in Hm.
    + rewrite IH. split.
      * intros (k & Hk & Hm). exists (S k). split; [done|]. by rewrite Nat.add_succ_r.
      * intros ([|k] & Hk & Hm); [by rewrite Nat.add_0_r in Hm|]. exists k.
        split; [done|]. by rewrite Nat.add_succ_r in Hm.
Qed.

Lemma div_succ (n y : nat) : (0 < n)%nat ->
  (S y / n = y / n + if (S y `mod` n =? 0)%nat then 1 else 0)%nat.
Proof.
  intros Hn. pose proof (Nat.div_mod y n ltac:(lia)). pose proof (Nat.mod_upper_bound y n ltac:(lia)).
  pose proof (Nat.div_mod (S y) n ltac:(lia)). pose proof (Nat.mod_upper_bound (S y) n ltac:(lia)).
  destruct (Nat.eqb_spec (S y `mod` n) 0); nia.
Qed.

Lemma length_pick {A} n j i (l : list A) : (j < n)%nat ->
  (length (pick n j i l) + (i + n - 1 - j) / n = (i + length l + n - 1 - j) / n)%nat.
Proof.
  intros Hj. revert i. induction l as [|y l IH]; intros i; cbn [pick length].
  { by rewrite Nat.add_0_r. }
  assert (((S i + n - 1 - j) / n = (i + n - 1 - j) / n + if (i `mod` n =? j)%nat then 1 else 0)%nat) as Hs.
  { replace (S i + n - 1 - j)%nat with (S (i + n - 1 - j)) by lia. rewrite div_succ by lia. f_equal.
    assert ((S (i + n - 1 - j) `mod` n =? 0)%nat = (i `mod` n =? j)%nat) as ->; [|done].
    apply eq_true_iff_eq. rewrite !Nat.eqb_eq.
    replace (S (i + n - 1 - j)) with (i + (n - j))%nat by lia.
    pose proof (Nat.div_mod i n ltac:(lia)). pose proof (Nat.mod_upper_bound i n ltac:(lia)). split; intros Hm.
    - pose proof (Nat.div_mod (i + (n - j)) n ltac:(lia)) as Hq. rewrite Hm in Hq.
      destruct (Nat.lt_trichotomy ((i + (n - j)) / n) (i / n + 1)) as [Hlt|[Heq|Hgt]]; [nia| |nia].
      rewrite Heq in Hq. lia.
    - assert (i + (n - j) = (i / n + 1) * n)%nat as -> by lia. apply Nat.Div0.mod_mul. }
  replace (i + S (length l) + n - 1 - j)%nat with (S i + length l + n - 1 - j)%nat by lia.
  rewrite <- IH, Hs. destruct (_ =? _)%nat; cbn [length]; lia.
Qed.

(** Two shares differ by one at most. *)
Lemma pick_balanced {A} n j j' (l : list A) : (j < n)%nat -> (j' < n)%nat ->
  (length (pick n j 0 l) <= length (pick n j' 0 l) + 1)%nat.
Proof.
  intros Hj Hj'. pose proof (length_pick n j 0 l Hj) as H1. pose proof (length_pick n j' 0 l Hj') as H2.
  rewrite (Nat.div_small (0 + n - 1 - j)) in H1 by lia. rewrite (Nat.div_small (0 + n - 1 - j')) in H2 by lia.
  rewrite Nat.add_0_r in H1, H2. rewrite H1, H2.
  pose proof (Nat.Div0.div_le_mono (0 + length l + n - 1 - j) (0 + length l + n - 1 - j' + 1 * n) n ltac:(lia)) as Hd.
  rewrite Nat.div_add in Hd by lia. lia.
Qed.

Lemma deal_spec names i all assign :
  NoDup names -> names <> [] ->
  exists assign', deal names i all assign = Ok assign' /\
    forall j n, names !! j = Some n ->
      default [] (assign' !! n) = default [] (assign !! n) ++ pick (length names) j i all.
Proof.
  intros Hnd Hne. revert i assign. induction all as [|tp all IH]; intros i assign; cbn [deal].
  { exists assign. split; [done|]. intros j n _. cbn. by rewrite app_nil_r. }
  assert (0 < length names)%nat by (destruct names; [done|cbn; lia]).
  pose proof (Nat.mod_upper_bound i (length names) ltac:(lia)) as Hb.
  apply lookup_lt_is_Some_2 in Hb as [m Hm]. rewrite Hm.
  destruct (IH (S i) (<[m := default [] (assign !! m) ++ [tp]]> assign)) as (a' & E & Ha).
  exists a'. split; [done|]. intros j n Hn. rewrite (Ha j n Hn). cbn [pick].
  destruct (Nat.eqb_spec (i `mod` length names) j) as [Hj|Hj].
  - rewrite Hj in Hm. rewrite Hn in Hm. injection Hm as ->. rewrite lookup_insert_eq. cbn [default].
    unfold from_option, id. rewrite <- app_assoc. done.
  - rewrite lookup_insert_ne; [done|]. intros ->. apply Hj. by eapply NoDup_lookup.
Qed.

(** ** From text back to a map *)

Definition text (e : gostring * Z) : gostring := topicPartition e.1 e.2.

Definition parts_of (t : gostring) (es : list (gostring * Z)) : list Z :=
  omap (fun e => if bool_decide (e.1 = t) then Some e.2 else None) es.

Definition entry_ok (e : gostring * Z) : Prop := topic_ok e.1 /\ part_ok e.2.

Lemma toMap_from es acc t :
  Forall entry_ok es ->
  default [] (fold_left (fun out tp => let '(t, p) := splitTopicPartition tp in append_part out t p) (map text es) acc !! t)
  = default [] (acc !! t) ++ parts_of t es.
Proof.
  intros Hes. revert acc. induction Hes as [|e es [He1 He2] _ IH]; intros acc; cbn [map fold_left].
  { cbn. by rewrite app_nil_r. }
  rewrite IH. unfold text at 1. rewrite splitTopicPartition_text by done. unfold append_part.
  cbn [parts_of omap list_omap]. destruct (decide (e.1 = t)) as [->|Hne].
  - rewrite lookup_insert_eq, bool_decide_eq_true_2 by done. cbn. by rewrite <- app_assoc.
  - rewrite lookup_insert_ne, bool_decide_eq_false_2 by done. done.
Qed.

Lemma toMap_parts es t : Forall entry_ok es -> default [] (toMap (map text es) !! t) = parts_of t es.
Proof. intros Hes. unfold toMap. by rewrite toMap_from. Qed.

Lemma elem_of_parts_of p t es : p ∈ parts_of t es <-> (t, p) ∈ es.
Proof.
  unfold parts_of. rewrite list_elem_of_omap. split.
  - intros ([t' p'] & Hin & He). cbn in He. case_bool_decide; simplify_eq/=. done.
  - intros Hin. exists (t, p). split; [done|]. cbn. by rewrite bool_decide_eq_true_2.
Qed.

(** How many partitions a map assigns. *)
Definition total (m : gmap gostring (list Z)) : nat := map_fold (fun _ ps n => (length ps + n)%nat) 0%nat m.

Lemma total_insert_fresh m t ps : m !! t = None -> total (<[t := ps]> m) = (length ps + total m)%nat.
Proof. intros Hn. unfold total. rewrite map_fold_insert_L; [done|intros; lia|done]. Qed.

Lemma total_append_part m t p : total (append_part m t p) = S (total m).
Proof.
  unfold append_part. rewrite <- insert_delete_eq. rewrite total_insert_fresh by apply lookup_delete_eq.
  rewrite length_app. cbn [length]. destruct (m !! t) as [ps|] eqn:E.
  - assert (total m = length ps + total (delete t m))%nat as ->; [|cbn; unfold id; lia].
    rewrite <- (total_insert_fresh (delete t m) t ps) by apply lookup_delete_eq. by rewrite insert_delete_id.
  - rewrite delete_id by done. cbn. lia.
Qed.

Lemma total_toMap tps : total (toMap tps) = length tps.
Proof.
  unfold toMap.
  enough (forall acc, total (fold_left (fun out tp => let '(t, p) := splitTopicPartition tp in append_part out t p) tps acc)
                      = (length tps + total acc)%nat) as H.
  { rewrite H. unfold total. rewrite map_fold_empty. lia. }
  induction tps as [|tp tps IH]; intros acc; cbn [fold_left length]; [done|].
  rewrite IH. destruct (splitTopicPartition tp) as [t p]. rewrite total_append_part. lia.
Qed.

Lemma toMap_keys es t : Forall entry_ok es -> is_Some (toMap (map text es) !! t) -> t ∈ es.*1.
Proof.
  intros Hes. unfold toMap.
  enough (forall acc, is_Some (fold_left (fun out tp => let '(t, p) := splitTopicPartition tp in append_part out t p)
    (map text es) acc !! t) -> is_Some (acc !! t) \/ t ∈ es.*1) as H.
  { intros [Hx|Hx]%H; [by destruct Hx|done]. }
  induction Hes as [|e es [He1 He2] _ IH]; intros acc; cbn [map fold_left]; [by left|].
  intros [Hx|Hx]%IH; [|right; by right]. unfold text in Hx. rewrite splitTopicPartition_text in Hx by done.
  unfold append_part in Hx. destruct (decide (e.1 = t)) as [<-|Hne]; [right; by left|].
  rewrite lookup_insert_ne in Hx by done. by left.
Qed.

Lemma size_toMap tps : (size (toMap tps) <= length tps)%nat.
Proof.
  unfold toMap.
  enough (forall acc, (size (fold_left (fun out tp => let '(t, p) := splitTopicPartition tp in append_part out t p) tps acc)
                      <= length tps + size acc)%nat) as H.
  { specialize (H ∅). rewrite map_size_empty in H. lia. }
  induction tps as [|tp tps IH]; intros acc; cbn [fold_left length]; [done|].
  etrans; [apply IH|]. destruct (splitTopicPartition tp) as [t p]. unfold append_part. rewrite map_size_insert.
  destruct (acc !! t); unfold id; lia.
Qed.

Lemma length_parts_of t es : (length (parts_of t es) <= length es)%nat.
Proof. induction es as [|e es IH]; [done|]. cbn. case_bool_decide; cbn; unfold parts_of in *; lia. Qed.

(** ** The bytes of an assignment *)

Definition encodable (m : gmap gostring (list Z)) : Prop :=
  Z.of_nat (size m) <= 2147483647 /\
  map_Forall (fun t ps => str_ok t /\ zlen ps <= 2147483647 /\ Forall in_i32 ps) m.

Lemma rt_assigned e :
  str_ok e.1 -> zlen e.2 <= 2147483647 -> Forall in_i32 e.2 ->
  rt (WriteString e.1 +> WriteArrayLen (zlen e.2) +> for_each e.2 WriteInt32) read_assigned e.
Proof.
  intros Ht Hl Hp. destruct e as [t ps]. cbn [fst snd] in *. unfold read_assigned.
  eapply rt_bind; [by apply rt_string|]. pose proof (zlen_nonneg ps).
  eapply rt_bind; [apply rt_array_len; lia|]. eapply rt_bind_last; [|apply rt_ret].
  unfold zlen. rewrite Nat2Z.id. apply rt_list. eapply Forall_impl; [done|]. apply rt_int32.
Qed.

Lemma fold_insert_perm (es : list (gostring * list Z)) m :
  es ≡ₚ map_to_list m -> fold_left (fun m e => <[e.1 := e.2]> m) es ∅ = m.
Proof.
  intros Hp. assert (NoDup es.*1) as Hnd by (rewrite Hp; apply NoDup_fst_map_to_list).
  rewrite <- (list_to_map_to_list m), <- (list_to_map_proper es (map_to_list m)) by done.
  clear Hp. rewrite <- (map_union_empty (list_to_map es)).
  assert (forall es acc, NoDup es.*1 ->
    fold_left (fun (m : gmap gostring (list Z)) e => <[e.1 := e.2]> m) es acc = list_to_map es ∪ acc) as H; [|by apply H].
  clear. induction es as [|[t ps] es IH]; intros acc Hnd; cbn [fold_left].
  { by rewrite list_to_map_nil, map_empty_union. }
  apply NoDup_cons in Hnd as [Hni Hnd]. rewrite IH by done. cbn [fst snd list_to_map].
  rewrite list_to_map_cons. rewrite <- insert_union_l. rewrite insert_union_r; [done|].
  by apply not_elem_of_list_to_map_1.
Qed.

(** A member reads back the share the leader wrote for it, whatever the order in
    which the map was walked. *)
Lemma decode_encode_assignment es m :
  es ≡ₚ map_to_list m -> encodable m -> in_i64 (zlen (encodeAssignment es)) ->
  decodeAssignment (Some (encodeAssignment es)) = Ok m.
Proof.
  intros Hp [Hsz Hm] Hl. unfold decodeAssignment.
  assert (zlen es <= 2147483647) as Hes.
  { unfold zlen. rewrite Hp, length_map_to_list. done. }
  assert (Forall (fun e => str_ok e.1 /\ zlen e.2 <= 2147483647 /\ Forall in_i32 e.2) es) as Hf.
  { rewrite Hp. apply Forall_forall. intros [t ps] Hin%elem_of_map_to_list. by apply (Hm t). }
  pose proof (zlen_nonneg es).
  assert (rt (WriteArrayLen (zlen es) +> for_each es (fun e => WriteString e.1 +> WriteArrayLen (zlen e.2) +> for_each e.2 WriteInt32))
    (let! n := ReadArrayLen in read_list (Z.to_nat n) read_assigned) es) as (bs & He & Hd).
  { eapply rt_bind; [apply rt_array_len; lia|]. replace (Z.to_nat (zlen es)) with (length es) by (unfold zlen; lia). apply rt_list.
    eapply Forall_impl; [done|]. cbn. intros e (? & ? & ?). by apply rt_assigned. }
  assert (exists tail, encodeAssignment es = bs ++ tail) as [tl Htl].
  { change (encodeAssignment es) with (WriteBytes None ((WriteArrayLen (zlen es)
      +> for_each es (fun e => WriteString e.1 +> WriteArrayLen (zlen e.2) +> for_each e.2 WriteInt32)) NewWriter)).
    rewrite He. cbn [WriteBytes]. unfold WriteInt32, append_bytes, NewWriter. cbn [app]. by eexists. }
  rewrite Htl in Hl |- *. specialize (Hd [] tl Hl). cbn [app] in Hd. unfold NewReader.
  change (zlen (@nil byte)) with 0 in Hd. rewrite Hd. cbn [obind]. by rewrite (fold_insert_perm es m).
Qed.

(** ** Every partition has one consumer *)

Section assignment.
Context (c : KafkaClient) (topics : list gostring) (members : list Membership.JoinGroupResponseMember).

Definition entries : list (gostring * Z) :=
  mjoin (map (fun t => map (fun pm => (t, pm_PartitionID pm)) (Partitions c t)) topics).

Definition names : list gostring := map Membership.m_MemberID members.

(** Topics and partitions a broker can name, each once, and members with names
    of their own. *)
Record assignable : Prop := {
  as_members : names <> [];
  as_names : NoDup names;
  as_entries : NoDup entries;
  as_ok : Forall entry_ok entries;
  as_size : Z.of_nat (length entries) <= 2147483647 }.

Lemma all_partitions_text : all_partitions c topics = map text entries.
Proof.
  unfold all_partitions, entries. induction topics as [|t ts IH]; [done|]. cbn [map]. rewrite !mjoin_cons, map_app, IH.
  f_equal. rewrite map_map. done.
Qed.

(** The [j]-th member's share. *)
Definition share (j : nat) : list (gostring * Z) := pick (length names) j 0 entries.

Lemma pick_map {A B} (f : A -> B) n j i l : pick n j i (map f l) = map f (pick n j i l).
Proof.
  revert i. induction l as [|x l IH]; intros i; [done|]. cbn [map pick]. destruct (_ =? _)%nat; cbn; by rewrite IH.
Qed.

Lemma computeAssignment_spec :
  assignable -> exists ms, computeAssignment c topics members = Ok ms /\
    map fst ms = names /\
    forall j n m, ms !! j = Some (n, m) -> m = toMap (map text (share j)).
Proof.
  intros [Hm Hn He Hok _]. unfold computeAssignment. fold names.
  destruct (deal_spec names 0 (all_partitions c topics) (list_to_map (map (fun n => (n, [])) names)) Hn Hm) as (a & E & Ha).
  rewrite E. cbn [obind]. eexists. split; [done|]. split.
  - rewrite map_map. cbn. by rewrite map_id.
  - intros j n m Hj. rewrite list_lookup_fmap in Hj. apply fmap_Some in Hj as (n' & Hj & [= -> ->]).
    rewrite (Ha j n' Hj), all_partitions_text, pick_map. unfold share.
    assert (default [] ((list_to_map (map (fun n => (n, [])) names) : gmap gostring (list gostring)) !! n') = []) as ->; [|done].
    destruct (_ !! n') as [l|] eqn:El; [|done]. apply elem_of_list_to_map_2, list_elem_of_In, in_map_iff in El.
    destruct El as (x & [= _ <-] & _). done.
Qed.

Lemma share_entries j e : e ∈ share j -> e ∈ entries.
Proof. intros (k & Hk & _)%elem_of_pick. by eapply list_elem_of_lookup_2. Qed.

Lemma share_ok j : assignable -> Forall entry_ok (share j).
Proof.
  intros Ha. apply Forall_forall. intros e He%share_entries. by apply (proj1 (Forall_forall _ _) (as_ok Ha)).
Qed.

Lemma length_pick_le {A} n j i (l : list A) : (length (pick n j i l) <= length l)%nat.
Proof. revert i. induction l as [|x l IH]; intros i; [done|]. cbn. specialize (IH (S i)). destruct (_ =? _)%nat; cbn; lia. Qed.

Lemma share_encodable j : assignable -> encodable (toMap (map text (share j))).
Proof.
  intros Ha. pose proof (share_ok j Ha) as Hok.
  pose proof (length_pick_le (length names) j 0 entries) as Hlen. fold (share j) in Hlen.
  pose proof (as_size Ha). split.
  { pose proof (size_toMap (map text (share j))) as Hs. rewrite length_map in Hs. lia. }
  intros t ps Ht. pose proof (toMap_parts (share j) t Hok) as Hp. rewrite Ht in Hp. cbn in Hp. unfold id in Hp. subst ps.
  assert (t ∈ (share j).*1) as (e & -> & He)%list_elem_of_fmap by (apply toMap_keys; [done|by rewrite Ht]).
  pose proof (proj1 (Forall_forall _ _) Hok e He) as [[_ Hs] _].
  split_and!; [done|pose proof (length_parts_of e.1 (share j)); unfold zlen; lia|].
  apply Forall_forall. intros p Hp%elem_of_parts_of.
  pose proof (proj1 (Forall_forall _ _) Hok _ Hp) as [_ Hpo]. cbn in Hpo. unfold part_ok in Hpo. mlia.
Qed.

Lemma names_nonzero : assignable -> (0 < length names)%nat.
Proof. intros Ha. pose proof (as_members Ha). by destruct names; cbn; [|lia]. Qed.

(** C25: the assignment the leader computes gives every partition of the subscribed
    topics to exactly one member, gives away nothing else, and no two shares
    differ by more than one partition; each member decodes exactly its share from
    the bytes the leader sends for it, whatever order the map is walked in. *)
Theorem assignment_exclusive (walk : gmap gostring (list Z) -> list (gostring * list Z)) :
  assignable -> (forall m, walk m ≡ₚ map_to_list m) ->
  exists ms, computeAssignment c topics members = Ok ms /\ map fst ms = names /\
    (forall t p, (t, p) ∈ entries ->
       exists n m, (n, m) ∈ ms /\ p ∈ default [] (m !! t) /\
         forall n' m', (n', m') ∈ ms -> p ∈ default [] (m' !! t) -> n' = n) /\
    (forall n m t p, (n, m) ∈ ms -> p ∈ default [] (m !! t) -> (t, p) ∈ entries) /\
    (forall n m n' m', (n, m) ∈ ms -> (n', m') ∈ ms -> (total m <= total m' + 1)%nat) /\
    (forall n m, (n, m) ∈ ms -> in_i64 (zlen (encodeAssignment (walk m))) ->
       decodeAssignment (Some (encodeAssignment (walk m))) = Ok m).
Proof.
  intros Ha Hw. destruct (computeAssignment_spec Ha) as (ms & E & Hf & Hs).
  assert (forall j n m, ms !! j = Some (n, m) -> (j < length names)%nat /\ names !! j = Some n) as Hj.
  { intros j n m Hj. rewrite <- Hf, length_map, list_lookup_fmap, Hj. split; [by eapply lookup_lt_Some|done]. }
  assert (forall n m j t p, ms !! j = Some (n, m) -> p ∈ default [] (m !! t) <-> (t, p) ∈ share j) as Hin.
  { intros n m j t p Hjm. rewrite (Hs j n m Hjm), (toMap_parts _ _ (share_ok j Ha)). apply elem_of_parts_of. }
  exists ms. split_and!; [done|done| | | |].
  - intros t p [k Hk]%list_elem_of_lookup_1.
    pose proof (Nat.mod_upper_bound k (length names) ltac:(pose proof (names_nonzero Ha); lia)) as Hb.
    rewrite <- Hf, length_map in Hb. apply lookup_lt_is_Some_2 in Hb as [[n m] Hnm].
    assert (length ms = length names) as Hlen by (by rewrite <- Hf, length_map).
    rewrite Hlen in Hnm.
    exists n, m. split; [by eapply list_elem_of_lookup_2|]. split.
    + apply (Hin n m _ t p Hnm), elem_of_pick. by exists k.
    + intros n' m' [j' Hj']%list_elem_of_lookup_1 Hp'. apply (Hin n' m' j') in Hp'; [|done].
      apply elem_of_pick in Hp' as (k' & Hk' & Hm').
      assert (k' = k) as -> by (by eapply NoDup_lookup; [apply (as_entries Ha)|..]).
      cbn in Hm'. rewrite Hm' in Hnm. rewrite Hj' in Hnm. by injection Hnm.
  - intros n m t p [j Hjm]%list_elem_of_lookup_1 Hp. apply (share_entries j), (Hin n m j); done.
  - intros n m n' m' [j Hjm]%list_elem_of_lookup_1 [j' Hjm']%list_elem_of_lookup_1.
    rewrite (Hs _ _ _ Hjm), (Hs _ _ _ Hjm'), !total_toMap, !length_map.
    apply pick_balanced; [by eapply Hj|by eapply Hj].
  - intros n m [j Hjm]%list_elem_of_lookup_1 Hl. apply decode_encode_assignment; [apply Hw| |done].
    rewrite (Hs _ _ _ Hjm). by apply share_encodable.
Qed.
End assignment.

(** ** Concrete run *)

Definition demo_client : KafkaClient :=
  set_metadata (new_client (str "c") (mkSASL [] [] []) false)
    {[str "orders" := [mkPartitionMeta (str "orders") 0 1; mkPartitionMeta (str "orders") 1 1;
                       mkPartitionMeta (str "orders") 2 1]]}.

Definition demo_members : list Membership.JoinGroupResponseMember :=
  [Membership.mkJoinGroupResponseMember (str "m1") None None; Membership.mkJoinGroupResponseMember (str "m2") None None].

Lemma assignment_exclusive_witness :
  exists ms, computeAssignment demo_client [str "orders"] demo_members = Ok ms /\
    forall t p, (t, p) ∈ entries demo_client [str "orders"] ->
       exists n m, (n, m) ∈ ms /\ p ∈ default [] (m !! t).
Proof.
  destruct (assignment_exclusive demo_client [str "orders"] demo_members map_to_list) as (ms & E & _ & Hex & _).
  - split; [done| | | |].
    + apply (bool_decide_unpack _). vm_compute. exact I.
    + apply (bool_decide_unpack _). vm_compute. exact I.
    + assert (topic_ok (str "orders")) as Ht by (split; [apply (bool_decide_unpack _); vm_compute; exact I|vm_compute; discriminate]).
      repeat constructor; try exact Ht; vm_compute; discriminate.
    + vm_compute. discriminate.
  - done.
  - exists ms. split; [exact E|]. intros t p Hp. destruct (Hex t p Hp) as (n & m & H1 & H2 & _). by exists n, m.
Defined.
