(* ===== verification/ClientServer.v ===== *)
(** * The client library against the server

    The two halves of the repository put together: the [Network] a client's
    calls go through is the server of Server.v, and what a client library user
    sees of a message that is sent and consumed is proved end to end, through
    both implementations of the wire format, the connection loop, the handlers
    and the storage engine. *)

From stdpp Require Import prelude gmap list strings.
From Stdlib Require Import ZArith Lia.
From S2P Require Import Prelude GoStrings GoBinary Wire RecordBatch Lz4 Compression Index Segment SegmentOps Partition PartitionOps Compaction Idempotence.
From S2P Require Import Store Authz Frame MsgData MsgAdmin MsgGroup MsgGroupAdmin Group Broker BrokerProps Sasl Server Accumulator Client Consumer.

(** ** A connection to the server as a network *)

(** [lk_srv] is gone when the server's process ended with a panic. *)
Record Link := mkLink { lk_srv : option Srv; lk_id : Z; lk_step : nat }.

Section link.
Context (cfg : ServerConfig).
Context `{Authorizer A} (auth : A) (h : Handler).
Context (disk : gostring -> Z -> partition_dir) (gunzip : list byte -> outcome (list byte)).
Context (remote : option (gostring -> outcome (list byte))).
(** What the server's steps find, one after the other. *)
Context (clock : nat -> tick).

Definition receive (s : Srv) (id : Z) (frame : list byte) : Srv :=
  match sv_conns s !! id with
  | Some c => set_conn s id (mkConn (c_info c) (c_phase c) (c_st c) (c_in c ++ frame))
  | None => s
  end.

(** The connection is served, and woken as long as its request waits, [fuel]
    times at most before the client's deadline. *)
Fixpoint serve_until (fuel : nat) (s : Srv) (id : Z) (step : nat) : outcome Srv * nat :=
  match serve cfg auth h disk gunzip remote s id (clock step) with
  | Ok s =>
      match fuel, c_phase <$> sv_conns s !! id with
      | S k, Some (Waiting _ _ _) => serve_until k s id (S step)
      | _, _ => (Ok s, S step)
      end
  | o => (o, S step)
  end.

(** What was written to the connection after the first [n] responses. *)
Definition new_bytes (id : Z) (n : nat) (sent : list (Z * list byte)) : list byte :=
  mjoin (map snd (List.filter (fun r => r.1 =? id) (drop n sent))).

Context (wakes : nat).

#[local] Instance link_network : Network Link := fun l frame =>
  match lk_srv l with
  | None => (l, [])
  | Some s =>
      let '(o, step) := serve_until wakes (receive s (lk_id l) frame) (lk_id l) (lk_step l) in
      match o with
      | Ok s' => (mkLink (Some s') (lk_id l) step, new_bytes (lk_id l) (length (sv_sent s)) (sv_sent s'))
      | _ => (mkLink None (lk_id l) step, [])
      end
  end.

Lemma read_response_frame corrID resp :
  in_i32 corrID -> zlen resp + 4 < 2147483648 ->
  read_response corrID (WriteResponseFrame corrID resp) = ([], Ok resp).
Proof.
  intros Hc Hl. pose proof (client_read_response corrID resp [] Hc Hl) as Hr. rewrite app_nil_r in Hr.
  unfold client_read in Hr. unfold read_response.
  destruct (ReadFull _ 4) as [[lenBuf rest]|e|]; [|done|done]. cbn [obind] in Hr.
  destruct (_ <? 4); [done|]. destruct (ReadFull rest _) as [[body rest']|e|]; [|done|done]. cbn [obind] in Hr.
  destruct (negb _); [done|]. by apply (inj Ok), pair_equal_spec in Hr as [-> ->].
Qed.

(** The context the server makes for a request of this client. *)
Definition link_ctx (cl : KafkaClient) (c : Conn) : RequestContext :=
  mkContext (st_principal (c_st c)) (ci_localPort (c_info c)) (kc_clientID cl) (ci_remoteAddr (c_info c)).

(** A client whose connection is authenticated and idle. *)
Record linked (cl : KafkaClient) (s : Srv) (id : Z) (c : Conn) : Prop := {
  li_conn : sv_conns s !! id = Some c;
  li_ready : c_phase c = Ready;
  li_authed : st_authed (c_st c) = true;
  li_in : c_in c = [];
  li_unread : kc_unread cl = [];
  li_name : str_ok (kc_clientID cl) }.

Definition idle (c : Conn) : Conn := mkConn (c_info c) Ready (c_st c) [].

(** A request the broker answers at once: the client gets the answer's bytes. *)
Lemma roundTrip_link cl s id c step key v body b' resp :
  linked cl s id c -> checkAPI cl key = Ok tt -> in_i16 key -> in_i16 v ->
  0 < sc_MaxRequestSizeBytes cfg -> sc_MaxRequestSizeBytes cfg < 4294967296 ->
  zlen body + 10 + zlen (kc_clientID cl) <= sc_MaxRequestSizeBytes cfg ->
  Handle auth h disk gunzip remote (sv_broker s) (t_now (clock step)) key v body (link_ctx cl c) (t_crash (clock step))
  = (b', Reply (Ok resp)) -> zlen resp + 4 < 2147483648 ->
  exists s' cl',
    roundTrip key v body (cl, mkLink (Some s) id step) = ((cl', mkLink (Some s') id (S step)), Ok resp) /\
    sv_broker s' = b' /\ linked cl' s' id (idle c) /\
    (forall i, i <> id -> sv_conns s' !! i = sv_conns s !! i) /\
    kc_apiVersions cl' = kc_apiVersions cl /\ kc_readOnly cl' = kc_readOnly cl /\ kc_clientID cl' = kc_clientID cl.
Proof.
  intros [Hc Hr Ha Hi Hu Hn] Hapi Hk Hv Hm1 Hm2 Hlen Hh Hresp. unfold roundTrip. rewrite Hapi.
  set (corr := i32 (kc_corrID cl + 1)). assert (in_i32 corr) as Hcorr by apply i32_range.
  cbn [set_corrID kc_clientID kc_unread]. set (fr := client_frame key v corr (kc_clientID cl) body).
  unfold deliver, link_network. cbn [lk_srv lk_id lk_step].
  unfold receive. rewrite Hc, Hr, Hi. cbn [app].
  set (s0 := set_conn s id (mkConn (c_info c) Ready (c_st c) fr)).
  pose proof (ReadRequestFrame_client (mkRequestHeader key v corr (kc_clientID cl)) body (sc_MaxRequestSizeBytes cfg) []) as Hf.
  cbn [ApiKey ApiVersion CorrelationID ClientID] in Hf. rewrite app_nil_r in Hf.
  assert (serve cfg auth h disk gunzip remote s0 id (clock step)
          = Ok (set_conn (writeResponse (set_broker s0 b') id corr resp) id (idle c))) as Hserve.
  { unfold serve, s0. cbn [set_conn sv_conns]. rewrite lookup_insert_eq. cbn [c_phase]. unfold serve_request.
    cbn [c_st c_in]. rewrite Ha. unfold readFrame. fold fr in Hf. rewrite Hf by (done || by split_and!). cbn [negb].
    unfold dispatch. cbn [c_st c_info ApiKey ApiVersion CorrelationID ClientID sv_broker set_conn].
    unfold link_ctx in Hh. rewrite Hh. done. }
  assert (serve_until wakes s0 id step = (Ok (set_conn (writeResponse (set_broker s0 b') id corr resp) id (idle c)), S step))
    as ->.
  { destruct wakes as [|k]; cbn [serve_until]; rewrite Hserve; [done|]. cbn [set_conn sv_conns].
    by rewrite lookup_insert_eq. }
  cbn [sv_sent set_conn writeResponse set_broker s0]. unfold new_bytes. rewrite drop_app_length. cbn [List.filter map fst snd].
  rewrite Z.eqb_refl. cbn [map snd]. rewrite mjoin_cons, app_nil_r, Hu. cbn [app]. rewrite read_response_frame by done.
  eexists _, _. split; [reflexivity|]. split; [done|]. split; [|split; [|done]].
  - split; try done. cbn. apply lookup_insert_eq.
  - intros i Hne. cbn. by rewrite !lookup_insert_ne.
Qed.

(** ** Sending and consuming *)

(** What [SendSync] puts on the wire for a message, without a producer id. *)
Lemma build_one p version now msg raw :
  uses_id p = false -> EncodeRecordBatch (producer_batch p now [msg]) = Ok raw ->
  buildProduceRequest p version now [m_Topic msg] [msg]
  = (p, Ok (one_produce version (pc_Acks (pr_cfg p)) (i32 (Z.quot (pc_Timeout (pr_cfg p)) nanos_per_ms))
              (m_Topic msg) 0 raw)).
Proof.
  intros Hu He. unfold buildProduceRequest. cbn [build_topics List.filter]. rewrite bool_decide_eq_true_2 by done.
  unfold encodeBatch. rewrite Hu, He. done.
Qed.

(** What the consumer is given for the message at offset [off]. *)
Definition consumed_message (msg : Message) (off : Z) : ConsumedMessage :=
  mkConsumed (m_Topic msg) 0 off (Some (default [] (m_Key msg))) (m_Value msg)
    (fold_left (fun m h => <[hdr_Key h := hdr_Value h]> m) (m_Headers msg) ∅).

(** One batch with the message, fetched at [off]. *)
Lemma handle_fetched cg msg now p off crc stored hwm start :
  uses_id p = false -> 0 <= off <= 4611686018427387904 ->
  DecodeRecordBatch stored = Ok (norm_batch (with_base (producer_batch p now [msg]) off) crc) -> stored <> [] ->
  exists cg',
    handle_topics (fun _ => Ok tt) cg [Fetch.mkFetchResponseTopic (m_Topic msg)
      [Fetch.mkFetchResponsePartition 0 ErrNone hwm hwm start (Some stored)]] = (cg', Ok tt) /\
    cg_delivered cg' = cg_delivered cg ++ [consumed_message msg off] /\
    position cg' (m_Topic msg) 0 = off + 1.
Proof.
  intros Hu Hoff Hd Hne. cbn [handle_topics Fetch.Topic Fetch.Partitions handle_partitions].
  unfold handle_partition, blen. cbn [Fetch.Records Fetch.Partition from_option].
  rewrite (proj2 (Z.eqb_neq _ _)).
  2: { unfold zlen. destruct stored; [done|]. cbn. lia. }
  cbn [default from_option]. unfold id. rewrite Hd. clear Hd.
  set (d := norm_batch _ crc).
  assert (rb_BaseOffset d = off) as -> by (unfold d, producer_batch; by rewrite Hu).
  assert (rb_LastOffsetDelta d = 0) as -> by (unfold d, producer_batch; by rewrite Hu).
  assert (rb_Records d = [mkRecord 0 0 0 (Some (default [] (m_Key msg))) (m_Value msg) (m_Headers msg)]) as ->
    by (unfold d, producer_batch; by rewrite Hu).
  clear d. cbn [handle_records]. rewrite Z.add_0_r, (i64_id off), (i64_id (off + 1)) by mlia.
  eexists. split; [reflexivity|]. split.
  - cbn. unfold consumed, consumed_message. cbn [rec_OffsetDelta rec_Key rec_Value rec_Headers].
    by rewrite Z.add_0_r, i64_id by mlia.
  - unfold position. cbn [setPosition cg_positions]. rewrite lookup_insert_eq. cbn. by rewrite lookup_insert_eq.
Qed.

Lemma checkAPI_open cl key : kc_readOnly cl = false -> checkAPI cl key = Ok tt.
Proof. intros Hr. unfold checkAPI. by rewrite Hr. Qed.

Lemma checkAPI_fetch cl : checkAPI cl APKFetch = Ok tt.
Proof. unfold checkAPI. rewrite (bool_decide_eq_true_2 (APKFetch ∈ readOnlyAPIKeys)) by decide_closed. by rewrite andb_false_r. Qed.

(** The sizes of the two answers. *)
Lemma produce_response_size topic off ms :
  zlen (Produce.EncodeProduceResponse (Produce.mkProduceResponse 3 [Produce.mkProduceResponseTopic topic
          [Produce.mkProduceResponsePartition 0 ErrNone off ms]] 0) NewWriter) = zlen topic + 36.
Proof.
  cbv -[zlen be app u8 u16 u32 u64 i16 Z.add]. autorewrite with zlen. lia.
Qed.

Lemma fetch_response_size topic hwm start data :
  zlen (Fetch.EncodeFetchResponse (Fetch.mkFetchResponse 5 0 [Fetch.mkFetchResponseTopic topic
          [Fetch.mkFetchResponsePartition 0 ErrNone hwm hwm start (Some data)]]) NewWriter)
  = zlen topic + zlen data + 52.
Proof.
  cbv -[zlen be app u8 u16 u32 u64 i16 i32 Z.add]. destruct (zlen data) eqn:E; autorewrite with zlen; lia.
Qed.

(** [SendSync] when the broker stores the message at [off]. *)
Lemma SendSync_link cl s id c step p now msg raw b' off ms :
  let topic := m_Topic msg in
  let preq := one_produce 3 (pc_Acks (pr_cfg p)) (i32 (Z.quot (pc_Timeout (pr_cfg p)) nanos_per_ms)) topic 0 raw in
  let presp := Produce.mkProduceResponse 3 [Produce.mkProduceResponseTopic topic
                 [Produce.mkProduceResponsePartition 0 ErrNone off ms]] 0 in
  linked cl s id c -> client_version cl APKProduce = 3 -> kc_readOnly cl = false ->
  uses_id p = false -> EncodeRecordBatch (producer_batch p now [msg]) = Ok raw ->
  0 < sc_MaxRequestSizeBytes cfg -> sc_MaxRequestSizeBytes cfg < 4294967296 ->
  zlen (Produce.EncodeProduceRequest preq NewWriter) + 10 + zlen (kc_clientID cl) <= sc_MaxRequestSizeBytes cfg ->
  Handle auth h disk gunzip remote (sv_broker s) (t_now (clock step)) APKProduce 3
    (Produce.EncodeProduceRequest preq NewWriter) (link_ctx cl c) (t_crash (clock step))
  = (b', Reply (Ok (Produce.EncodeProduceResponse presp NewWriter))) ->
  Produce.wf_response presp -> zlen topic <= 2147483000 ->
  exists s' cl',
    SendSync p now msg (cl, mkLink (Some s) id step) = ((cl', mkLink (Some s') id (S step)), Ok (p, Ok off)) /\
    sv_broker s' = b' /\ forall i, i <> id -> sv_conns s' !! i = sv_conns s !! i.
Proof.
  intros topic preq presp Hl Hv Hro Hu Henc Hm1 Hm2 Hlen Hh Hwr Ht.
  pose proof (produce_response_size topic off ms) as Hsize. fold presp in Hsize.
  destruct (roundTrip_link cl s id c step APKProduce 3 (Produce.EncodeProduceRequest preq NewWriter) b'
              (Produce.EncodeProduceResponse presp NewWriter)) as (s' & cl' & Hrt & Hb & _ & Ho & _);
    try done; [by apply checkAPI_open|lia|].
  exists s', cl'. split; [|done]. unfold SendSync, io_bind at 1, io_client. cbn [fst]. rewrite Hv, (build_one p 3 now msg raw) by done.
  fold topic preq. unfold io_bind, io_try, io_lift, io_ret. rewrite Hrt.
  assert (in_i64 (zlen (Produce.EncodeProduceResponse presp NewWriter))) as Hin
    by (rewrite Hsize; pose proof (zlen_nonneg topic); mlia).
  pose proof (@codec_roundtrip _ Produce.response_codec presp Hwr Hin) as Hdec.
  cbn in Hdec. rewrite Hdec. done.
Qed.

(** [fetchOnce] of one partition when the broker answers with one batch. *)
Lemma fetchOnce_link cl s id c step cg walk topic off stored hwm start b' :
  let mx := cc_FetchMaxBytes (cg_cfg cg) in
  let freq := one_fetch_wait (cc_FetchMaxWait (cg_cfg cg)) mx topic 0 off in
  let fresp := Fetch.mkFetchResponse 5 0 [Fetch.mkFetchResponseTopic topic
                 [Fetch.mkFetchResponsePartition 0 ErrNone hwm hwm start (Some stored)]] in
  linked cl s id c -> client_version cl APKFetch = 5 ->
  walk (cg_assignment cg) = [(topic, [0])] -> position cg topic 0 = off ->
  0 < sc_MaxRequestSizeBytes cfg -> sc_MaxRequestSizeBytes cfg < 4294967296 ->
  zlen (Fetch.EncodeFetchRequest freq NewWriter) + 10 + zlen (kc_clientID cl) <= sc_MaxRequestSizeBytes cfg ->
  Handle auth h disk gunzip remote (sv_broker s) (t_now (clock step)) APKFetch 5
    (Fetch.EncodeFetchRequest freq NewWriter) (link_ctx cl c) (t_crash (clock step))
  = (b', Reply (Ok (Fetch.EncodeFetchResponse fresp NewWriter))) ->
  Fetch.wf_response fresp -> zlen topic + zlen stored <= 2147483000 ->
  exists s' cl',
    fetchOnce (fun _ => Ok tt) walk cg (cl, mkLink (Some s) id step)
    = ((cl', mkLink (Some s') id (S step)), Ok (handle_topics (fun _ => Ok tt) cg (Fetch.Topics fresp))).
Proof.
  intros mx freq fresp Hl Hv Hwalk Hpos Hm1 Hm2 Hlen Hh Hwr Ht.
  pose proof (fetch_response_size topic hwm start stored) as Hsize. fold fresp in Hsize.
  destruct (roundTrip_link cl s id c step APKFetch 5 (Fetch.EncodeFetchRequest freq NewWriter) b'
              (Fetch.EncodeFetchResponse fresp NewWriter)) as (s' & cl' & Hrt & _);
    try done; [by apply checkAPI_fetch|lia|].
  exists s', cl'. unfold fetchOnce, fetch_topics. rewrite Hwalk. cbn [map fst snd]. rewrite Hpos.
  rewrite bool_decide_eq_false_2 by done. unfold io_bind at 1, io_try, call, io_bind, io_client, io_lift, io_ret. cbn [fst].
  rewrite Hv. change (Fetch.mkFetchRequest 5 (-1) _ 1 _ 0 _) with freq. rewrite Hrt.
  assert (in_i64 (zlen (Fetch.EncodeFetchResponse fresp NewWriter))) as Hin
    by (rewrite Hsize; pose proof (zlen_nonneg topic); pose proof (zlen_nonneg stored); mlia).
  pose proof (@codec_roundtrip _ Fetch.response_codec fresp Hwr Hin) as Hdec.
  cbn in Hdec. rewrite Hdec. done.
Qed.

(** C2: what one user of the client library sends, another receives. A producer
    (without a producer id) calls [SendSync] on its connection; the call returns
    the offset of the old log end. A consumer of another connection whose
    position is that offset then calls [fetchOnce]: its handler is called exactly
    once, with the topic, the offset, the value and the headers of the message (a
    nil key as an empty one), and its position moves to the next offset. Both
    calls go through the client's encoders, the server's connection loop, the
    handlers, the partition log and back; authorizer, disk, clock and object
    store are arbitrary. *)
Theorem send_then_consume cl1 cl2 s id1 id2 c1 c2 step step2 p now msg raw part bss cg walk :
  let topic := m_Topic msg in
  let batch := producer_batch p now [msg] in
  let off := pt_nextOffset (ps_log part) in
  let mx := cc_FetchMaxBytes (cg_cfg cg) in
  let preq := one_produce 3 (pc_Acks (pr_cfg p)) (i32 (Z.quot (pc_Timeout (pr_cfg p)) nanos_per_ms)) topic 0 raw in
  let freq := one_fetch_wait (cc_FetchMaxWait (cg_cfg cg)) mx topic 0 off in
  linked cl1 s id1 c1 -> linked cl2 s id2 c2 -> id1 <> id2 ->
  client_version cl1 APKProduce = 3 -> client_version cl2 APKFetch = 5 -> kc_readOnly cl1 = false ->
  authorize auth (link_ctx cl1 c1) OpWrite (topic_res topic) = true ->
  authorize auth (link_ctx cl2 c2) OpRead (topic_res topic) = true ->
  GetPartition (br_store (sv_broker s)) topic 0 = Some part -> pt_inv (ps_log part) bss ->
  uses_id p = false -> wf_batch batch -> EncodeRecordBatch batch = Ok raw ->
  0 <= off -> off + 1 <= 4611686018427387904 ->
  (forall a, pt_active (ps_log part) = Some a ->
     off + 1 - seg_baseOffset a <= 2147483647 /\ seg_size a + zlen raw <= 4294967295) ->
  0 < mx -> fits (mx + zlen raw) (orderedSegmentsLocked (ps_log part)) ->
  0 <= t_now (clock step) < 9223372036854775807 ->
  Produce.wf_request preq -> Fetch.wf_request freq ->
  0 < sc_MaxRequestSizeBytes cfg -> sc_MaxRequestSizeBytes cfg < 4294967296 ->
  zlen (Produce.EncodeProduceRequest preq NewWriter) + 10 + zlen (kc_clientID cl1) <= sc_MaxRequestSizeBytes cfg ->
  zlen (Fetch.EncodeFetchRequest freq NewWriter) + 10 + zlen (kc_clientID cl2) <= sc_MaxRequestSizeBytes cfg ->
  zlen raw + zlen topic <= 2147483000 ->
  walk (cg_assignment cg) = [(topic, [0])] -> position cg topic 0 = off ->
  exists s1 cl1' s2 cl2' cg',
    SendSync p now msg (cl1, mkLink (Some s) id1 step) = ((cl1', mkLink (Some s1) id1 (S step)), Ok (p, Ok off)) /\
    fetchOnce (fun _ => Ok tt) walk cg (cl2, mkLink (Some s1) id2 step2)
    = ((cl2', mkLink (Some s2) id2 (S step2)), Ok (cg', Ok tt)) /\
    cg_delivered cg' = cg_delivered cg ++ [consumed_message msg off] /\ position cg' topic 0 = off + 1.
Proof.
  intros topic batch off mx preq freq Hl1 Hl2 Hid Hv1 Hv2 Hro Haw Har Hget Hp Hu Hw Henc Hoff Hlim Hroom Hmx Hfit Hnow
    Hwp Hwf Hm1 Hm2 Hlp Hlf Hlen Hwalk Hpos.
  assert (filled_last_offset_delta batch = 0) as Hfill by (unfold batch, producer_batch; by rewrite Hu).
  assert (CompressionCodec (rb_Attributes batch) = CompressionNone) as Hcodec by (unfold batch, producer_batch; by rewrite Hu).
  assert (rb_ProducerID batch < 0) as Hpid by (unfold batch, producer_batch; by rewrite Hu).
  pose proof (zlen_nonneg (kc_clientID cl1)). pose proof (zlen_nonneg (kc_clientID cl2)).
  destruct (produce_fetch_exchange auth h disk gunzip remote (sv_broker s) (t_now (clock step)) (link_ctx cl1 c1)
              (link_ctx cl2 c2) (t_crash (clock step)) topic 0 part bss batch raw 3 (pc_Acks (pr_cfg p))
              (i32 (Z.quot (pc_Timeout (pr_cfg p)) nanos_per_ms)) (cc_FetchMaxWait (cg_cfg cg)) mx)
    as (b1 & stored & Hprod & Hwr & Hfetch & Hwfr & Hstored & Hdec); rewrite ?Hfill; try done; try lia.
  { fold off. intros a Ha. destruct (Hroom a Ha). lia. }
  { fold preq. pose proof (zlen_nonneg (Produce.EncodeProduceRequest preq NewWriter)). mlia. }
  { fold off freq. pose proof (zlen_nonneg (Fetch.EncodeFetchRequest freq NewWriter)). mlia. }
  fold off preq in Hprod, Hwr. fold off freq in Hfetch. fold off in Hwfr, Hstored, Hdec.
  pose proof (zlen_nonneg raw). pose proof (zlen_nonneg topic).
  assert (8 <= zlen raw) as Hraw.
  { pose proof (EncodeRecordBatch_layout batch Hw) as E. rewrite Henc in E. apply (inj Ok) in E as ->.
    rewrite batch_layout_len. pose proof (zlen_nonneg (encoded_records batch)). lia. }
  assert (zlen stored = zlen raw) as Hsl by (rewrite Hstored; by apply zlen_set_base).
  destruct (SendSync_link cl1 s id1 c1 step p now msg raw b1 off (t_now (clock step) / millisecond))
    as (s1 & cl1' & Hsend & Hb1 & Hoth); try done; [fold topic; lia|].
  assert (linked cl2 s1 id2 c2) as Hl2' by (destruct Hl2; split; try done; by rewrite Hoth).
  destruct (fetchOnce_link cl2 s1 id2 c2 step2 cg walk topic off stored (off + filled_last_offset_delta batch + 1)
              (earliestOffsetLocked (ps_log part)) b1)
    as (s2 & cl2' & Hf); try done; [by rewrite Hb1|lia|].
  destruct (handle_fetched cg msg now p off (batch_crc batch) stored (off + filled_last_offset_delta batch + 1)
              (earliestOffsetLocked (ps_log part))) as (cg' & Hh & Hd & Hpos'); try done; [lia| |].
  { intros ->. change (zlen (@nil byte)) with 0 in Hsl. lia. }
  cbn [Fetch.Topics] in Hf. fold topic in Hh. rewrite Hh in Hf. by exists s1, cl1', s2, cl2', cg'.
Qed.
End link.

(** ** A concrete exchange *)

Definition link_info : connInfo := mkInfo (str "10.0.0.7:4711") 9092 None.
Definition link_conn : Conn := mkConn link_info Ready (mkState true (str "alice") [] None [] false 0) [].
Definition link_server : Srv := set_conn (set_conn (NewServer demo_broker) 1 link_conn) 2 link_conn.
Definition link_clock (n : nat) : tick := mkTick (Z.of_nat n) None (Ok []).

Definition link_client (name : string) : KafkaClient :=
  set_apiVersions (new_client (str name) (mkSASL [] [] []) false) {[APKProduce := 3; APKFetch := 5]}.

Definition link_producer : Producer := mkProducer (mkProducerConfig (-1) 1000000000 1 0 false []) (-1) (-1) 0.
Definition link_message : Message := demo_message "orders" "hello".
Definition link_raw : list byte :=
  match EncodeRecordBatch (producer_batch link_producer 7 [link_message]) with Ok raw => raw | _ => [] end.

Definition link_consumer : ConsumerGroup :=
  set_assignment (NewConsumerGroup (mkConsumerConfig (str "g") 0 0 false 0 0 4096 100)) {[demo_topic := [0]]}.

Lemma send_then_consume_witness :
  exists cl' l' cg',
    @SendSync Link (link_network demo_server AllowAll demo_handler (fun _ _ => empty_dir) demo_gunzip None link_clock 3)
      link_producer 7 link_message (link_client "p", mkLink (Some link_server) 1 4)
    = ((cl', l'), Ok (link_producer, Ok 0)) /\
    cg_delivered cg' = [consumed_message link_message 0].
Proof.
  edestruct (send_then_consume demo_server AllowAll demo_handler (fun _ _ => empty_dir) demo_gunzip None link_clock 3
    (link_client "p") (link_client "c") link_server 1 2 link_conn link_conn 4 9 link_producer 7 link_message link_raw
    (fresh_partition 1048576 4096) [[]] link_consumer map_to_list)
    as (s1 & cl1 & s2 & cl2 & cg & Hs & _ & Hd & _);
    [..|exact (ex_intro _ _ (ex_intro _ _ (ex_intro _ _ (conj Hs Hd))))].
  - split; try reflexivity; decide_closed.
  - split; try reflexivity; decide_closed.
  - discriminate.
  - vm_compute; reflexivity.
  - vm_compute; reflexivity.
  - reflexivity.
  - reflexivity.
  - reflexivity.
  - vm_compute; reflexivity.
  - apply fresh_partition_inv. reflexivity.
  - reflexivity.
  - decide_closed.
  - vm_compute; reflexivity.
  - vm_compute; discriminate.
  - vm_compute; discriminate.
  - intros a [= <-]. vm_compute. split; discriminate.
  - reflexivity.
  - repeat constructor; vm_compute; discriminate.
  - vm_compute. split; [discriminate|reflexivity].
  - decide_closed.
  - decide_closed.
  - reflexivity.
  - reflexivity.
  - vm_compute; discriminate.
  - vm_compute; discriminate.
  - vm_compute; discriminate.
  - vm_compute; reflexivity.
  - vm_compute; reflexivity.
Defined.
