(* ===== verification/MqttPacket.v ===== *)
(** * MQTT packets and topics (internal/gateway/mqtt.go)

    The fixed header with its variable-length remaining length, the packets the
    bridge parses and writes, and the translation between MQTT topics and
    Kafka topics. The bytes not yet read from a connection are a list; a read
    that fails or times out is a list that ends. *)

From stdpp Require Import prelude list strings.
From Stdlib Require Import ZArith Lia.
From S2P Require Import Prelude GoStrings GoBinary Wire.

Definition mqttConnect : Z := 1.
Definition mqttConnack : Z := 2.
Definition mqttPublish : Z := 3.
Definition mqttPuback : Z := 4.
Definition mqttPubrec : Z := 5.
Definition mqttPubrel : Z := 6.
Definition mqttPubcomp : Z := 7.
Definition mqttSubscribe : Z := 8.
Definition mqttSuback : Z := 9.
Definition mqttUnsubscribe : Z := 10.
Definition mqttUnsuback : Z := 11.
Definition mqttPingreq : Z := 12.
Definition mqttPingresp : Z := 13.
Definition mqttDisconnect : Z := 14.

Definition mqttMaxConnections : Z := 1024.
Definition mqttMaxPreConnectBytes : Z := 65536.
Definition mqttMaxPacketBytes : Z := 1048576.

(** ** Framing *)

Fixpoint remaining_loop (n : nat) (multiplier value : Z) (input : list byte) : outcome (Z * list byte) :=
  match n with
  | O => Err "malformed remaining length"
  | S n =>
      match input with
      | [] => Err "EOF"
      | digit :: rest =>
          let value := value + Z.land (b2z digit) 127 * multiplier in
          if Z.land (b2z digit) 128 =? 0 then Ok (value, rest)
          else remaining_loop n (multiplier * 128) value rest
      end
  end.

Definition readRemainingLength (input : list byte) : outcome (Z * list byte) := remaining_loop 4 1 0 input.

Definition readMQTTPacket (input : list byte) (maxLen : Z) : outcome (byte * list byte * list byte) :=
  match input with
  | [] => Err "EOF"
  | first :: rest =>
      let? (length, rest) := readRemainingLength rest in
      if (length <? 0) || (maxLen <? length) then Err "invalid MQTT remaining length"
      else if zlen rest <? length then Err "unexpected EOF"
      else Ok (first, sub rest 0 length, sub rest length (zlen rest))
  end.

(** A Go int is below 128^9: nine rounds and one more are enough. *)
Fixpoint append_loop (fuel : nat) (length : Z) : list byte :=
  match fuel with
  | O => []
  | S k =>
      let digit := Z.rem length 128 in
      let length := Z.quot length 128 in
      let digit := if 0 <? length then Z.lor digit 128 else digit in
      z2b digit :: (if length =? 0 then [] else append_loop k length)
  end.

Definition appendRemainingLength (dst : list byte) (length : Z) : list byte := dst ++ append_loop 10 length.

(** The bytes of [writePacket]. *)
Definition packet_bytes (ptype : Z) (payload : list byte) : list byte :=
  appendRemainingLength [z2b (Z.shiftl ptype 4)] (zlen payload) ++ payload.

(** ** Parsing *)

Definition readMQTTString (b : list byte) : outcome (gostring * Z) :=
  if zlen b <? 2 then Err "short mqtt string" else
  let? h := slice b 0 2 in
  let n := ube h in
  if zlen b <? 2 + n then Err "mqtt string overrun" else
  let? s := slice b 2 (2 + n) in
  Ok (s, 2 + n).

(** [readMQTTString(payload[pos:])], with the position after it. *)
Definition read_string_at (payload : list byte) (pos : Z) : outcome (gostring * Z) :=
  let? b := slice payload pos (zlen payload) in
  let? (s, n) := readMQTTString b in
  Ok (s, pos + n).

Record mqttConnectInfo := mkConnectInfo {
  ci_ClientID : gostring; ci_Username : gostring; ci_Password : gostring;
  ci_HasUsername : bool; ci_HasPassword : bool }.

Definition byte_at (payload : list byte) (pos : Z) : outcome Z :=
  let? b := slice payload pos (pos + 1) in Ok (ube b).

Definition parseConnect (payload : list byte) : outcome mqttConnectInfo :=
  if zlen payload <? 10 then Err "short connect packet" else
  if negb (HasPrefix payload [x00; x04; x4d; x51; x54; x54]) then Err "unsupported protocol name" else
  let? level := byte_at payload 6 in
  if negb (level =? 4) then Err "unsupported protocol level" else
  let? flags := byte_at payload 7 in
  let? (clientID, pos) := read_string_at payload 10 in
  let? pos :=
    if negb (Z.land flags 4 =? 0) then
      let? (_, pos) := read_string_at payload pos in
      let? (_, pos) := read_string_at payload pos in
      Ok pos
    else Ok pos in
  let? (user, pos) :=
    if negb (Z.land flags 128 =? 0) then
      let? (u, pos) := read_string_at payload pos in Ok (Some u, pos)
    else Ok (None, pos) in
  let? pass :=
    if negb (Z.land flags 64 =? 0) then
      let? (p, _) := read_string_at payload pos in Ok (Some p)
    else Ok None in
  Ok (mkConnectInfo clientID (default [] user) (default [] pass)
        (bool_decide (is_Some user)) (bool_decide (is_Some pass))).

Definition parsePublish (flags : Z) (payload : list byte) : outcome (gostring * list byte * Z * Z) :=
  if zlen payload <? 2 then Err "short publish" else
  let qos := Z.land (Z.shiftr flags 1) 3 in
  if qos =? 3 then Err "invalid publish qos" else
  let? h := slice payload 0 2 in
  let tlen := ube h in
  if zlen payload <? 2 + tlen then Err "publish topic overrun" else
  let? topic := slice payload 2 (2 + tlen) in
  let? data := slice payload (2 + tlen) (zlen payload) in
  if 0 <? qos then
    if zlen data <? 2 then Err "short publish packet id" else
    let? id := slice data 0 2 in
    let? data := slice data 2 (zlen data) in
    Ok (topic, data, qos, ube id)
  else Ok (topic, data, qos, 0).

(** Each round of the two loops takes two bytes at least: one more than the
    length is fuel enough. *)
Fixpoint unsubscribe_loop (fuel : nat) (payload : list byte) (pos : Z) : outcome (list gostring) :=
  match fuel with
  | O => Err no_fuel
  | S k =>
      if pos + 2 <=? zlen payload then
        let? h := slice payload pos (pos + 2) in
        let tlen := ube h in
        let pos := pos + 2 in
        if zlen payload <? pos + tlen then Ok [] else
        let? f := slice payload pos (pos + tlen) in
        let? fs := unsubscribe_loop k payload (pos + tlen) in
        Ok (f :: fs)
      else Ok []
  end.

Definition parseUnsubscribe (payload : list byte) : outcome (Z * list gostring) :=
  if zlen payload <? 4 then Err "short unsubscribe" else
  let? id := slice payload 0 2 in
  let? filters := unsubscribe_loop (S (length payload)) payload 2 in
  Ok (ube id, filters).

Fixpoint subscribe_loop (fuel : nat) (payload : list byte) (pos : Z) : outcome (list gostring) :=
  match fuel with
  | O => Err no_fuel
  | S k =>
      if pos <? zlen payload then
        if zlen payload <? pos + 2 then Ok [] else
        let? h := slice payload pos (pos + 2) in
        let tlen := ube h in
        let pos := pos + 2 in
        if zlen payload <? pos + tlen + 1 then Ok [] else
        let? f := slice payload pos (pos + tlen) in
        let? fs := subscribe_loop k payload (pos + tlen + 1) in
        Ok (f :: fs)
      else Ok []
  end.

Definition parseSubscribe (payload : list byte) : outcome (Z * list gostring) :=
  if zlen payload <? 3 then Err "short subscribe" else
  let? id := slice payload 0 2 in
  let? filters := subscribe_loop (S (length payload)) payload 2 in
  Ok (ube id, filters).

Definition mqtt_u16 (v : Z) : list byte := [z2b (Z.shiftr v 8); z2b v].

Definition mqttPublishPayload (topic : gostring) (data : list byte) : list byte :=
  mqtt_u16 (u16 (zlen topic)) ++ topic ++ data.

(** ** Topics *)

Definition slash : byte := x2f.

Definition mqttTopicToKafka (mqttTopic : gostring) : gostring :=
  match SplitN (TrimPrefix mqttTopic [slash]) slash 2 with
  | seg :: _ => if negb (bool_decide (seg = [])) then str "mqtt-" ++ seg else str "mqtt-inbound"
  | [] => str "mqtt-inbound"
  end.

Definition topicKey (mqttTopic : gostring) : gostring :=
  match Split (TrimPrefix mqttTopic [slash]) slash with
  | _ :: k :: _ => k
  | _ => []
  end.

Definition mqttFilterToKafka (filter : gostring) : gostring :=
  mqttTopicToKafka (TrimSuffix (TrimSuffix filter (str "/#")) (str "/+")).

Definition kafkaTopicToMQTT (kafkaTopic : gostring) : gostring :=
  map (fun b => if bool_decide (b = x2d) then slash else b) kafkaTopic.

(** The loop of [mqttTopicMatches] from its [i]-th level on. *)
Fixpoint match_levels (f t : list gostring) : bool :=
  match f with
  | [] => bool_decide (t = [])
  | l :: f =>
      if bool_decide (l = str "#") then bool_decide (f = []) else
      match t with
      | [] => false
      | m :: t =>
          if bool_decide (l = str "+") then match_levels f t
          else if negb (bool_decide (l = m)) then false
          else match_levels f t
      end
  end.

Definition mqttTopicMatches (filter topic : gostring) : bool :=
  match_levels (Split filter slash) (Split topic slash).

(** ** Framing round trips *)

Lemma byte_low_bits b :
  Z.land (b2z b) 127 = b2z b mod 128 /\ (Z.land (b2z b) 128 =? 0) = (b2z b <? 128).
Proof. destruct b; by vm_compute. Qed.

Lemma lor_128 d : 0 <= d < 128 -> Z.lor d 128 = d + 128.
Proof.
  intros Hd. destruct (byte_low_bits (z2b d)) as [_ H]. rewrite b2z_z2b, Z.mod_small in H by lia.
  rewrite (proj2 (Z.ltb_lt _ _)) in H by lia. apply Z.eqb_eq in H.
  by rewrite Z.add_nocarry_lxor, Z.lxor_lor.
Qed.

Lemma remaining_append n k m acc v rest :
  (0 < n <= k)%nat -> 0 <= v < 128 ^ Z.of_nat n ->
  remaining_loop n m acc (append_loop k v ++ rest) = Ok (acc + v * m, rest).
Proof.
  revert k m acc v. induction n as [|n IH]; intros [|k] m acc v Hn Hv; try lia.
  cbn [append_loop app remaining_loop].
  rewrite Z.rem_mod_nonneg, Z.quot_div_nonneg by lia.
  pose proof (Z.mod_pos_bound v 128 ltac:(lia)) as Hm. pose proof (Z.div_mod v 128 ltac:(lia)) as Hdm.
  pose proof (Z.div_pos v 128 ltac:(lia) ltac:(lia)) as Hp.
  destruct (Z.ltb_spec 0 (v / 128)) as [Hl|Hl].
  - rewrite lor_128 by lia. set (b := z2b (v mod 128 + 128)).
    assert (b2z b = v mod 128 + 128) as Hb by (unfold b; rewrite b2z_z2b, Z.mod_small; lia).
    destruct (byte_low_bits b) as [-> ->]. rewrite Hb, (proj2 (Z.ltb_ge _ _)), (proj2 (Z.eqb_neq (v / 128) 0)) by lia.
    destruct n as [|n].
    { change (128 ^ Z.of_nat 1) with 128 in Hv. rewrite Z.div_small in Hl by lia. lia. }
    rewrite IH; [|lia|].
    + do 2 f_equal. replace (v mod 128 + 128) with (v mod 128 + 1 * 128) by lia.
      rewrite Z.mod_add, Zmod_mod by lia. revert Hdm. generalize (v / 128) (v mod 128). intros q r ->. ring.
    + split; [done|]. apply Z.div_lt_upper_bound; [lia|].
      replace (Z.of_nat (S (S n))) with (Z.of_nat (S n) + 1) in Hv by lia. rewrite Z.pow_add_r in Hv by lia. lia.
  - set (b := z2b (v mod 128)).
    assert (b2z b = v mod 128) as Hb by (unfold b; rewrite b2z_z2b, Z.mod_small; lia).
    destruct (byte_low_bits b) as [-> ->]. rewrite Hb, (proj2 (Z.ltb_lt _ _)), (proj2 (Z.eqb_eq (v / 128) 0)) by lia.
    cbn [app]. rewrite Zmod_mod. by replace (v mod 128) with v by lia.
Qed.

Definition max_remaining : Z := 268435455.

Lemma readRemainingLength_append v rest :
  0 <= v <= max_remaining -> readRemainingLength (append_loop 10 v ++ rest) = Ok (v, rest).
Proof.
  intros Hv. unfold readRemainingLength. rewrite remaining_append; [do 2 f_equal; lia|lia|].
  unfold max_remaining in Hv. change (128 ^ Z.of_nat 4) with 268435456. lia.
Qed.

(** The bytes of a packet with any first byte, as a client writes them. *)
Definition frame (first : byte) (payload : list byte) : list byte :=
  appendRemainingLength [first] (zlen payload) ++ payload.

Lemma readMQTTPacket_frame first payload rest maxLen :
  zlen payload <= maxLen -> maxLen <= max_remaining ->
  readMQTTPacket (frame first payload ++ rest) maxLen = Ok (first, payload, rest).
Proof.
  intros Hl Hm. unfold frame, appendRemainingLength. cbn [app readMQTTPacket]. rewrite <- app_assoc.
  pose proof (zlen_nonneg payload). rewrite readRemainingLength_append by lia. cbn [obind].
  rewrite !(proj2 (Z.ltb_ge _ _)) by (rewrite ?zlen_app; pose proof (zlen_nonneg rest); lia). cbn [orb].
  do 3 f_equal.
  - f_equal. exact (sub_mid [] payload rest 0 (zlen payload) eq_refl eq_refl).
  - rewrite <- (app_nil_r rest) at 1. rewrite (sub_mid payload rest []); [done|done|by rewrite zlen_app].
Qed.

(** ** Packets as the protocol lays them out *)

Definition mqtt_string (s : gostring) : list byte := be 2 (zlen s) ++ s.

Definition str16 (s : gostring) : Prop := zlen s <= 65535.

Lemma mqtt_u16_be v : mqtt_u16 v = be 2 v.
Proof. done. Qed.

Lemma readMQTTString_string s rest :
  str16 s -> readMQTTString (mqtt_string s ++ rest) = Ok (s, 2 + zlen s).
Proof.
  intros Hs. unfold readMQTTString, mqtt_string, str16 in *. pose proof (zlen_nonneg s).
  pose proof (zlen_nonneg rest). autorewrite with zlen.
  rewrite (proj2 (Z.ltb_ge _ _)) by lia. rewrite <- app_assoc.
  change (slice (be 2 (zlen s) ++ s ++ rest) 0 2) with (slice ([] ++ be 2 (zlen s) ++ s ++ rest) 0 2).
  rewrite (slice_mid [] (be 2 (zlen s))) by done. cbn [obind].
  rewrite ube_be_small by (change (2 ^ (8 * Z.of_nat 2)) with 65536; lia).
  rewrite (proj2 (Z.ltb_ge _ _)) by lia. rewrite (slice_mid (be 2 (zlen s)) s rest) by done. done.
Qed.

Lemma read_string_at_mid pre s rest pos :
  str16 s -> pos = zlen pre ->
  read_string_at (pre ++ mqtt_string s ++ rest) pos = Ok (s, pos + (2 + zlen s)).
Proof.
  intros Hs ->. unfold read_string_at.
  pose proof (slice_mid pre (mqtt_string s ++ rest) [] (zlen pre) (zlen (pre ++ mqtt_string s ++ rest)) eq_refl
                ltac:(by rewrite zlen_app)) as E. rewrite app_nil_r in E. rewrite E. cbn [obind].
  by rewrite readMQTTString_string.
Qed.

(** A publish: flags, and the payload with the packet id when [qos] asks for one. *)
Definition publish_payload (qos : Z) (topic : gostring) (id : Z) (data : list byte) : list byte :=
  mqtt_string topic ++ (if 0 <? qos then be 2 id else []) ++ data.
Definition publish_flags (qos dup retain : Z) : Z := 8 * dup + 2 * qos + retain.

Lemma publish_qos qos dup retain :
  0 <= qos <= 2 -> 0 <= dup <= 1 -> 0 <= retain <= 1 ->
  Z.land (Z.shiftr (publish_flags qos dup retain) 1) 3 = qos.
Proof.
  intros. assert (qos = 0 \/ qos = 1 \/ qos = 2) as Hq by lia. assert (dup = 0 \/ dup = 1) as Hd by lia.
  assert (retain = 0 \/ retain = 1) as Hr by lia.
  by destruct Hq as [-> | [-> | ->]], Hd as [-> | ->], Hr as [-> | ->].
Qed.

Lemma parsePublish_payload flags qos topic id data :
  str16 topic -> Z.land (Z.shiftr flags 1) 3 = qos -> 0 <= qos <= 2 -> in_u16 id ->
  parsePublish flags (publish_payload qos topic id data) = Ok (topic, data, qos, if 0 <? qos then id else 0).
Proof.
  intros Ht Hq Hr Hid. unfold parsePublish, publish_payload, mqtt_string, str16 in *. rewrite Hq.
  pose proof (zlen_nonneg topic). pose proof (zlen_nonneg data).
  set (tl := (if 0 <? qos then be 2 id else []) ++ data).
  pose proof (zlen_nonneg tl). autorewrite with zlen.
  rewrite (proj2 (Z.ltb_ge _ _)), (proj2 (Z.eqb_neq _ _)) by lia. rewrite <- app_assoc.
  change (slice (be 2 (zlen topic) ++ topic ++ tl) 0 2) with (slice ([] ++ be 2 (zlen topic) ++ topic ++ tl) 0 2).
  rewrite (slice_mid [] (be 2 (zlen topic))) by done. cbn [obind].
  rewrite ube_be_small by (change (2 ^ (8 * Z.of_nat 2)) with 65536; lia).
  rewrite (proj2 (Z.ltb_ge _ _)) by lia. rewrite (slice_mid (be 2 (zlen topic)) topic tl) by done. cbn [obind].
  pose proof (slice_mid (be 2 (zlen topic) ++ topic) tl [] (2 + zlen topic) (Z.of_nat 2 + zlen topic + zlen tl)) as E.
  rewrite app_nil_r, <- app_assoc in E. rewrite E by (autorewrite with zlen; lia). cbn [obind]. clear E. unfold tl.
  destruct (0 <? qos); [|done]. autorewrite with zlen. rewrite (proj2 (Z.ltb_ge _ _)) by lia.
  rewrite (slice_mid [] (be 2 id) data) by done. cbn [obind].
  pose proof (slice_mid (be 2 id) data [] 2 (Z.of_nat 2 + zlen data) eq_refl) as E.
  rewrite app_nil_r in E. rewrite E by lia. cbn [obind].
  by rewrite ube_be_small by (change (2 ^ (8 * Z.of_nat 2)) with 65536; mlia).
Qed.

(** What the bridge forwards is a publish of quality of service 0. *)
Lemma mqttPublishPayload_layout topic data :
  str16 topic -> mqttPublishPayload topic data = publish_payload 0 topic 0 data.
Proof.
  intros Ht. unfold mqttPublishPayload, publish_payload, mqtt_string, str16 in *. cbn [Z.ltb Z.compare app].
  rewrite mqtt_u16_be, u16_id, <- app_assoc; [done|]. pose proof (zlen_nonneg topic). mlia.
Qed.

(** Subscriptions, each with its requested quality of service. *)
Definition subscribe_payload (id : Z) (subs : list (gostring * byte)) : list byte :=
  be 2 id ++ mjoin (map (fun s => mqtt_string s.1 ++ [s.2]) subs).
Definition unsubscribe_payload (id : Z) (filters : list gostring) : list byte :=
  be 2 id ++ mjoin (map mqtt_string filters).

Lemma subscribe_loop_spec fuel pre subs :
  Forall (fun s => str16 s.1) subs ->
  let body := mjoin (map (fun s => mqtt_string s.1 ++ [s.2]) subs) in
  (length body < fuel)%nat ->
  subscribe_loop fuel (pre ++ body) (zlen pre) = Ok (map fst subs).
Proof.
  intros Hs. revert fuel pre. induction Hs as [|[f q] subs Hf _ IH]; intros fuel pre body Hfuel;
    (destruct fuel as [|fuel]; [lia|]); unfold body in *; clear body; cbn [map mjoin list_join fst snd] in *.
  { rewrite app_nil_r. cbn [subscribe_loop]. by rewrite Z.ltb_irrefl. }
  set (tl := mjoin (map _ subs)) in *. change (list_join _) with tl in *.
  unfold mqtt_string, str16 in *. cbn [fst snd] in *. pose proof (zlen_nonneg f). pose proof (zlen_nonneg tl).
  pose proof (zlen_nonneg pre). cbn [subscribe_loop]. rewrite !length_app in Hfuel. cbn in Hfuel.
  autorewrite with zlen. rewrite (proj2 (Z.ltb_lt _ _)), (proj2 (Z.ltb_ge _ _)) by lia.
  rewrite <- !app_assoc. rewrite (slice_mid pre (be 2 (zlen f))) by done. cbn [obind].
  rewrite ube_be_small by (change (2 ^ (8 * Z.of_nat 2)) with 65536; lia).
  rewrite (proj2 (Z.ltb_ge _ _)) by lia.
  rewrite (app_assoc pre), (slice_mid (pre ++ be 2 (zlen f)) f) by (autorewrite with zlen; lia). cbn [obind].
  specialize (IH fuel (((pre ++ be 2 (zlen f)) ++ f) ++ [q]) ltac:(lia)). rewrite <- !app_assoc in *.
  replace (zlen pre + 2 + zlen f + 1) with (zlen (pre ++ be 2 (zlen f) ++ f ++ [q]))
    by (autorewrite with zlen; lia).
  rewrite IH. done.
Qed.

Lemma unsubscribe_loop_spec fuel pre filters :
  Forall str16 filters -> let body := mjoin (map mqtt_string filters) in
  (length body < fuel)%nat -> unsubscribe_loop fuel (pre ++ body) (zlen pre) = Ok filters.
Proof.
  intros Hs. revert fuel pre. induction Hs as [|f fs Hf _ IH]; intros fuel pre body Hfuel;
    (destruct fuel as [|fuel]; [lia|]); unfold body in *; clear body; cbn [map mjoin list_join] in *.
  { rewrite app_nil_r. cbn [unsubscribe_loop]. by rewrite (proj2 (Z.leb_gt _ _)) by lia. }
  set (tl := mjoin (map _ fs)) in *. change (list_join _) with tl in *.
  unfold mqtt_string, str16 in *. pose proof (zlen_nonneg f). pose proof (zlen_nonneg tl).
  pose proof (zlen_nonneg pre). cbn [unsubscribe_loop]. rewrite !length_app in Hfuel. cbn in Hfuel.
  autorewrite with zlen. rewrite (proj2 (Z.leb_le _ _)) by lia.
  rewrite <- !app_assoc. rewrite (slice_mid pre (be 2 (zlen f))) by done. cbn [obind].
  rewrite ube_be_small by (change (2 ^ (8 * Z.of_nat 2)) with 65536; lia).
  rewrite (proj2 (Z.ltb_ge _ _)) by lia.
  rewrite (app_assoc pre), (slice_mid (pre ++ be 2 (zlen f)) f) by (autorewrite with zlen; lia). cbn [obind].
  specialize (IH fuel ((pre ++ be 2 (zlen f)) ++ f) ltac:(lia)). rewrite <- !app_assoc in *.
  replace (zlen pre + 2 + zlen f) with (zlen (pre ++ be 2 (zlen f) ++ f)) by (autorewrite with zlen; lia).
  rewrite IH. done.
Qed.

(** A CONNECT: client id, an optional will (topic and message), user name and
    password. *)
Record connect := mkConnect {
  cn_clientID : gostring; cn_will : option (gostring * gostring); cn_user : option gostring;
  cn_pass : option gostring; cn_clean : bool; cn_keepAlive : Z }.

Definition flag {A} (o : option A) (bit : Z) : Z := match o with Some _ => bit | None => 0 end.
Definition connect_flags (c : connect) : Z :=
  flag (cn_user c) 128 + flag (cn_pass c) 64 + flag (cn_will c) 4 + (if cn_clean c then 2 else 0).
Definition opt_string (o : option gostring) : list byte :=
  match o with Some s => mqtt_string s | None => [] end.
Definition connect_payload (c : connect) : list byte :=
  ([x00; x04; x4d; x51; x54; x54; x04; z2b (connect_flags c)] ++ be 2 (cn_keepAlive c)) ++
  mqtt_string (cn_clientID c) ++
  (match cn_will c with Some (t, m) => mqtt_string t ++ mqtt_string m | None => [] end) ++
  opt_string (cn_user c) ++ opt_string (cn_pass c).

Definition connect_ok (c : connect) : Prop :=
  str16 (cn_clientID c) /\
  match cn_will c with Some (t, m) => str16 t /\ str16 m | None => True end /\
  from_option str16 True (cn_user c) /\ from_option str16 True (cn_pass c).

Definition connect_info (c : connect) : mqttConnectInfo :=
  mkConnectInfo (cn_clientID c) (default [] (cn_user c)) (default [] (cn_pass c))
    (bool_decide (is_Some (cn_user c))) (bool_decide (is_Some (cn_pass c))).

Lemma connect_flag_bits (c : connect) :
  let f := ube [z2b (connect_flags c)] in
  negb (Z.land f 4 =? 0) = bool_decide (is_Some (cn_will c)) /\
  negb (Z.land f 128 =? 0) = bool_decide (is_Some (cn_user c)) /\
  negb (Z.land f 64 =? 0) = bool_decide (is_Some (cn_pass c)).
Proof. destruct c as [? [?|] [?|] [?|] [] ?]; by vm_compute. Qed.

(** The string at the end of what was read so far. *)
Lemma read_string_next pre s rest payload pos :
  str16 s -> payload = pre ++ mqtt_string s ++ rest -> pos = zlen pre ->
  read_string_at payload pos = Ok (s, zlen (pre ++ mqtt_string s)).
Proof.
  intros Hs -> ->. rewrite read_string_at_mid by done. do 2 f_equal. unfold mqtt_string.
  autorewrite with zlen. lia.
Qed.

Definition will_string (w : option (gostring * gostring)) : list byte :=
  match w with Some (t, m) => mqtt_string t ++ mqtt_string m | None => [] end.

Lemma read_will pl pre w rest :
  match w with Some (t, m) => str16 t /\ str16 m | None => True end -> pl = pre ++ will_string w ++ rest ->
  (if bool_decide (is_Some w) then
     let? (_, pos) := read_string_at pl (zlen pre) in
     let? (_, pos) := read_string_at pl pos in
     Ok pos
   else Ok (zlen pre)) = Ok (zlen (pre ++ will_string w)).
Proof.
  intros Hw E. destruct w as [[t m]|]; cbn [will_string] in *; [|by rewrite app_nil_r].
  destruct Hw as [Ht Hm]. rewrite bool_decide_eq_true_2 by done. rewrite <- app_assoc in E.
  rewrite (read_string_next pre t (mqtt_string m ++ rest)) by done. cbn [obind]. rewrite app_assoc in E.
  rewrite (read_string_next (pre ++ mqtt_string t) m rest) by done. cbn [obind]. by rewrite app_assoc.
Qed.

Lemma read_user pl pre u rest :
  from_option str16 True u -> pl = pre ++ opt_string u ++ rest ->
  (if bool_decide (is_Some u) then let? (u, pos) := read_string_at pl (zlen pre) in Ok (Some u, pos)
   else Ok (None, zlen pre)) = Ok (u, zlen (pre ++ opt_string u)).
Proof.
  intros Hu E. destruct u as [u|]; cbn [opt_string] in *; [|by rewrite app_nil_r].
  rewrite bool_decide_eq_true_2 by done. by rewrite (read_string_next pre u _ _ _ Hu E).
Qed.

Lemma read_pass pl pre u :
  from_option str16 True u -> pl = pre ++ opt_string u ->
  (if bool_decide (is_Some u) then let? (p, _) := read_string_at pl (zlen pre) in Ok (Some p) else Ok None) = Ok u.
Proof.
  intros Hu E. destruct u as [u|]; cbn [opt_string] in *; [|done]. rewrite bool_decide_eq_true_2 by done.
  rewrite <- (app_nil_r (mqtt_string u)) in E. by rewrite (read_string_next pre u _ _ _ Hu E).
Qed.

Definition connect_head (c : connect) : list byte :=
  [x00; x04; x4d; x51; x54; x54; x04; z2b (connect_flags c)] ++ be 2 (cn_keepAlive c).

Lemma connect_head_parse c rest :
  let pl := connect_head c ++ rest in
  HasPrefix pl [x00; x04; x4d; x51; x54; x54] = true /\ byte_at pl 6 = Ok 4 /\
  byte_at pl 7 = Ok (ube [z2b (connect_flags c)]).
Proof.
  intros pl. split; [by apply bool_decide_eq_true_2|]. unfold byte_at. split.
  - change (6 + 1) with 7.
    rewrite (slice_mid [x00; x04; x4d; x51; x54; x54] [x04] _ 6 7 eq_refl eq_refl : slice pl 6 7 = _). done.
  - change (7 + 1) with 8.
    rewrite (slice_mid [x00; x04; x4d; x51; x54; x54; x04] [z2b (connect_flags c)] _ 7 8 eq_refl eq_refl
             : slice pl 7 8 = _). done.
Qed.

Lemma parseConnect_payload c : connect_ok c -> parseConnect (connect_payload c) = Ok (connect_info c).
Proof.
  intros (Hid & Hwill & Huser & Hpass). unfold parseConnect. pose proof (connect_flag_bits c) as (Bw & Bu & Bp).
  set (hd := connect_head c).
  set (tl := will_string (cn_will c) ++ opt_string (cn_user c) ++ opt_string (cn_pass c)).
  assert (connect_payload c = hd ++ mqtt_string (cn_clientID c) ++ tl) as E by done.
  assert (connect_payload c = (hd ++ mqtt_string (cn_clientID c)) ++ tl) as E1 by by rewrite <- app_assoc.
  assert (connect_payload c = ((hd ++ mqtt_string (cn_clientID c)) ++ will_string (cn_will c)) ++
            opt_string (cn_user c) ++ opt_string (cn_pass c)) as E2 by by rewrite E, <- !app_assoc.
  destruct (connect_head_parse c (mqtt_string (cn_clientID c) ++ tl)) as (H1 & H2 & H3).
  fold hd in H1, H2, H3. rewrite <- E in H1, H2, H3. set (pl := connect_payload c) in *.
  assert (10 <= zlen pl).
  { rewrite E. unfold hd, connect_head. autorewrite with zlen. pose proof (zlen_nonneg (mqtt_string (cn_clientID c))).
    pose proof (zlen_nonneg tl). lia. }
  rewrite (proj2 (Z.ltb_ge _ _)), H1, H2 by lia. cbn [negb obind Z.eqb]. rewrite H3. cbn [obind].
  rewrite (read_string_next hd (cn_clientID c) tl) by done. cbn [obind]. rewrite Bw, Bu, Bp.
  rewrite (read_will pl _ (cn_will c) _ Hwill E1). cbn [obind].
  rewrite (read_user pl _ (cn_user c) _ Huser E2). cbn [obind].
  rewrite app_assoc in E2. by rewrite (read_pass pl _ (cn_pass c) Hpass E2).
Qed.

(** The packets a client sends, and what the bridge should make of them. *)
Inductive packet :=
  | PConnect (c : connect)
  | PPublish (qos dup retain : Z) (topic : gostring) (id : Z) (data : list byte)
  | PSubscribe (id : Z) (subs : list (gostring * byte))
  | PUnsubscribe (id : Z) (filters : list gostring).

Definition packet_ok (p : packet) : Prop :=
  match p with
  | PConnect c => connect_ok c
  | PPublish qos dup retain topic id _ =>
      0 <= qos <= 2 /\ 0 <= dup <= 1 /\ 0 <= retain <= 1 /\ str16 topic /\ in_u16 id
  | PSubscribe id subs => in_u16 id /\ subs <> [] /\ Forall (fun s => str16 s.1) subs
  | PUnsubscribe id filters => in_u16 id /\ filters <> [] /\ Forall str16 filters
  end.

Definition packet_payload (p : packet) : list byte :=
  match p with
  | PConnect c => connect_payload c
  | PPublish qos _ _ topic id data => publish_payload qos topic id data
  | PSubscribe id subs => subscribe_payload id subs
  | PUnsubscribe id filters => unsubscribe_payload id filters
  end.

Definition packet_first (p : packet) : byte :=
  match p with
  | PConnect _ => z2b (16 * mqttConnect)
  | PPublish qos dup retain _ _ _ => z2b (16 * mqttPublish + publish_flags qos dup retain)
  | PSubscribe _ _ => z2b (16 * mqttSubscribe + 2)
  | PUnsubscribe _ _ => z2b (16 * mqttUnsubscribe + 2)
  end.

(** Parsed by the function [serveClient] calls for the packet's type. *)
Definition parses_to (p : packet) (first : byte) (payload : list byte) : Prop :=
  let flags := Z.land (b2z first) 15 in
  match p with
  | PConnect c => Z.shiftr (b2z first) 4 = mqttConnect /\ parseConnect payload = Ok (connect_info c)
  | PPublish qos _ _ topic id data =>
      Z.shiftr (b2z first) 4 = mqttPublish /\
      parsePublish flags payload = Ok (topic, data, qos, if 0 <? qos then id else 0)
  | PSubscribe id subs =>
      Z.shiftr (b2z first) 4 = mqttSubscribe /\ parseSubscribe payload = Ok (id, map fst subs)
  | PUnsubscribe id filters =>
      Z.shiftr (b2z first) 4 = mqttUnsubscribe /\ parseUnsubscribe payload = Ok (id, filters)
  end.

Lemma first_bits t flags :
  0 <= t < 16 -> 0 <= flags < 16 ->
  Z.shiftr (b2z (z2b (16 * t + flags))) 4 = t /\ Z.land (b2z (z2b (16 * t + flags))) 15 = flags.
Proof.
  intros Ht Hf. rewrite b2z_z2b, Z.mod_small, Z.shiftr_div_pow2 by lia. change 15 with (Z.ones 4).
  rewrite Z.land_ones by lia. change (2 ^ 4) with 16. split.
  - rewrite Z.mul_comm, Z.add_comm, Z.div_add, Z.div_small by lia. lia.
  - rewrite Z.mul_comm, Z.add_comm, Z.mod_add, Z.mod_small by lia. done.
Qed.

Lemma packet_parses p : packet_ok p -> parses_to p (packet_first p) (packet_payload p).
Proof.
  destruct p as [c|qos dup retain topic id data|id subs|id filters]; cbn [packet_ok packet_first packet_payload parses_to].
  - intros Hc. split; [done|by apply parseConnect_payload].
  - intros (Hq & Hd & Hr & Ht & Hid).
    destruct (first_bits mqttPublish (publish_flags qos dup retain)) as [-> ->];
      [unfold mqttPublish; lia|unfold publish_flags; lia|].
    split; [done|]. apply parsePublish_payload; [done|by apply publish_qos|done|done].
  - intros (Hid & Hne & Hs). split; [done|]. unfold parseSubscribe, subscribe_payload.
    destruct subs as [|[f q] subs]; [done|]. set (body := mjoin (map _ _)).
    assert (3 <= zlen body) as Hl.
    { unfold body. cbn [map]. rewrite mjoin_cons. set (tl := mjoin _). pose proof (zlen_nonneg tl).
      unfold mqtt_string. cbn [fst snd]. autorewrite with zlen. pose proof (zlen_nonneg f). lia. }
    rewrite (proj2 (Z.ltb_ge _ _)) by (autorewrite with zlen; lia).
    rewrite (slice_mid [] (be 2 id) body) by done. cbn [obind].
    rewrite ube_be_small by (change (2 ^ (8 * Z.of_nat 2)) with 65536; mlia).
    rewrite (subscribe_loop_spec _ (be 2 id) ((f, q) :: subs) Hs); [done|].
    fold body. rewrite length_app. cbn. lia.
  - intros (Hid & Hne & Hs). split; [done|]. unfold parseUnsubscribe, unsubscribe_payload.
    destruct filters as [|f filters]; [done|]. set (body := mjoin (map _ _)).
    assert (2 <= zlen body) as Hl.
    { unfold body. cbn [map]. rewrite mjoin_cons. set (tl := mjoin _). pose proof (zlen_nonneg tl).
      unfold mqtt_string. cbn [fst snd]. autorewrite with zlen. pose proof (zlen_nonneg f). lia. }
    rewrite (proj2 (Z.ltb_ge _ _)) by (autorewrite with zlen; lia).
    rewrite (slice_mid [] (be 2 id) body) by done. cbn [obind].
    rewrite ube_be_small by (change (2 ^ (8 * Z.of_nat 2)) with 65536; mlia).
    rewrite (unsubscribe_loop_spec _ (be 2 id) (f :: filters) Hs); [done|].
    fold body. rewrite length_app. cbn. lia.
Qed.

(** Every packet of MQTT 3.1.1 that the bridge acts on (connect with its
    optional will, user name and password, publish of any quality of service,
    subscribe and unsubscribe), laid out as the protocol says and followed by
    more bytes, is read from the connection and parsed into exactly what the
    client put in, when it fits the length limit; the rest of the stream is
    untouched. *)
Theorem mqtt_packets_roundtrip p rest maxLen :
  packet_ok p -> zlen (packet_payload p) <= maxLen -> maxLen <= max_remaining ->
  exists first payload,
    readMQTTPacket (frame (packet_first p) (packet_payload p) ++ rest) maxLen = Ok (first, payload, rest) /\
    parses_to p first payload.
Proof.
  intros Hp Hl Hm. exists (packet_first p), (packet_payload p).
  split; [by apply readMQTTPacket_frame|by apply packet_parses].
Qed.

Definition demo_connect : packet :=
  PConnect (mkConnect (str "sensor-7") (Some (str "status", str "gone")) (Some (str "ada")) (Some (str "secret")) true 60).

Lemma mqtt_packets_roundtrip_witness :
  exists first payload,
    readMQTTPacket (frame (packet_first demo_connect) (packet_payload demo_connect) ++ [xc0; x00]) 65536
    = Ok (first, payload, [xc0; x00]) /\ parses_to demo_connect first payload.
Proof.
  apply (mqtt_packets_roundtrip demo_connect [xc0; x00] 65536); [|vm_compute; discriminate..].
  cbn. unfold connect_ok, str16. cbn. split_and!; vm_compute; discriminate.
Defined.

(** ** Parsing arbitrary input *)

Lemma readMQTTString_total b :
  total (readMQTTString b) /\ forall s n, readMQTTString b = Ok (s, n) -> 2 <= n <= zlen b.
Proof.
  unfold readMQTTString. destruct (Z.ltb_spec (zlen b) 2); [by split|].
  rewrite slice_ok by lia. cbn [obind]. pose proof (ube_range (sub b 0 2)).
  destruct (Z.ltb_spec (zlen b) (2 + ube (sub b 0 2))); [by split|].
  rewrite slice_ok by lia. cbn. split; [done|]. intros s n [= <- <-]. lia.
Qed.

Lemma read_string_at_total pl pos :
  0 <= pos <= zlen pl -> total (read_string_at pl pos) /\
  forall s n, read_string_at pl pos = Ok (s, n) -> 0 <= n <= zlen pl.
Proof.
  intros Hp. unfold read_string_at. rewrite slice_ok by lia. cbn [obind].
  destruct (readMQTTString_total (sub pl pos (zlen pl))) as [Ht Hn]. rewrite zlen_sub in Hn by lia.
  destruct (readMQTTString _) as [[s n]|e|]; cbn in *; [|by split|done].
  split; [done|]. intros s' n' [= <- <-]. specialize (Hn s n eq_refl). lia.
Qed.

Ltac read_string pl pos :=
  let Ht := fresh "Ht" in let Hn := fresh "Hn" in
  destruct (read_string_at_total pl pos) as [Ht Hn]; [lia|];
  destruct (read_string_at pl pos) as [[? ?]|?|]; [specialize (Hn _ _ eq_refl)|done|done]; clear Ht; cbn [obind].

Lemma parseConnect_total pl : total (parseConnect pl).
Proof.
  unfold parseConnect, byte_at. destruct (Z.ltb_spec (zlen pl) 10); [done|].
  destruct (negb (HasPrefix _ _)); [done|]. rewrite !slice_ok by lia. cbn [obind].
  destruct (negb _); [done|]. read_string pl 10.
  match goal with |- total (obind (if ?c then _ else _) _) => destruct c end.
  - read_string pl z. read_string pl z0.
    match goal with |- total (obind (if ?c then _ else _) _) => destruct c end.
    + read_string pl z1. destruct (negb _); [read_string pl z2|]; done.
    + cbn [obind]. destruct (negb _); [read_string pl z1|]; done.
  - cbn [obind]. match goal with |- total (obind (if ?c then _ else _) _) => destruct c end.
    + read_string pl z. destruct (negb _); [read_string pl z0|]; done.
    + cbn [obind]. destruct (negb _); [read_string pl z|]; done.
Qed.

Lemma parsePublish_total flags pl : total (parsePublish flags pl).
Proof.
  unfold parsePublish. destruct (Z.ltb_spec (zlen pl) 2); [done|]. destruct (_ =? 3); [done|].
  rewrite slice_ok by lia. cbn [obind]. pose proof (ube_range (sub pl 0 2)).
  destruct (Z.ltb_spec (zlen pl) (2 + ube (sub pl 0 2))); [done|].
  rewrite !slice_ok by lia. cbn [obind]. destruct (0 <? _); [|done].
  destruct (Z.ltb_spec (zlen (sub pl (2 + ube (sub pl 0 2)) (zlen pl))) 2); [done|].
  by rewrite !slice_ok by lia.
Qed.

Lemma subscribe_loop_total fuel pl pos :
  0 <= pos -> (length pl < fuel + Z.to_nat pos)%nat -> (0 < fuel)%nat ->
  exists fs, subscribe_loop fuel pl pos = Ok fs.
Proof.
  revert pos. induction fuel as [|fuel IH]; intros pos Hp Hf Hz; [lia|]. cbn [subscribe_loop].
  destruct (Z.ltb_spec pos (zlen pl)); [|by eexists]. destruct (Z.ltb_spec (zlen pl) (pos + 2)); [by eexists|].
  rewrite slice_ok by lia. cbn [obind]. set (n := ube _). pose proof (ube_range (sub pl pos (pos + 2))). fold n in H1.
  destruct (Z.ltb_spec (zlen pl) (pos + 2 + n + 1)); [by eexists|]. rewrite slice_ok by lia. cbn [obind].
  unfold zlen in *. destruct (IH (pos + 2 + n + 1)) as [fs ->]; [lia..|]. by eexists.
Qed.

Lemma unsubscribe_loop_total fuel pl pos :
  0 <= pos -> (length pl < fuel + Z.to_nat pos)%nat -> (0 < fuel)%nat ->
  exists fs, unsubscribe_loop fuel pl pos = Ok fs.
Proof.
  revert pos. induction fuel as [|fuel IH]; intros pos Hp Hf Hz; [lia|]. cbn [unsubscribe_loop].
  destruct (Z.leb_spec (pos + 2) (zlen pl)); [|by eexists].
  rewrite slice_ok by lia. cbn [obind]. set (n := ube _). pose proof (ube_range (sub pl pos (pos + 2))). fold n in H0.
  destruct (Z.ltb_spec (zlen pl) (pos + 2 + n)); [by eexists|]. rewrite slice_ok by lia. cbn [obind].
  unfold zlen in *. destruct (IH (pos + 2 + n)) as [fs ->]; [lia..|]. by eexists.
Qed.

Lemma parseSubscribe_total pl : total (parseSubscribe pl).
Proof.
  unfold parseSubscribe. destruct (Z.ltb_spec (zlen pl) 3); [done|]. rewrite slice_ok by lia. cbn [obind].
  destruct (subscribe_loop_total (S (length pl)) pl 2) as [fs ->]; [lia..|done].
Qed.

Lemma parseUnsubscribe_total pl : total (parseUnsubscribe pl).
Proof.
  unfold parseUnsubscribe. destruct (Z.ltb_spec (zlen pl) 4); [done|]. rewrite slice_ok by lia. cbn [obind].
  destruct (unsubscribe_loop_total (S (length pl)) pl 2) as [fs ->]; [lia..|done].
Qed.

Lemma readMQTTPacket_total input maxLen : total (readMQTTPacket input maxLen).
Proof.
  destruct input as [|first rest]; [done|]. cbn [readMQTTPacket]. apply total_bind.
  - unfold readRemainingLength. generalize 4%nat as n, 1 as m, 0 as v. intros n. revert rest.
    induction n as [|n IH]; intros [|d rest] m v; cbn [remaining_loop]; try done. destruct (_ =? 0); [done|apply IH].
  - intros [n r] _. destruct (_ || _); [done|]. by destruct (_ <? n).
Qed.
#[export] Hint Resolve parseConnect_total parsePublish_total parseSubscribe_total parseUnsubscribe_total
  readMQTTPacket_total : total.

(** ** Routing *)

(** The first level of a topic, and what follows its separator. *)
Fixpoint cut (s : gostring) : gostring * option gostring :=
  match s with
  | [] => ([], None)
  | b :: r => if bool_decide (b = slash) then ([], Some r) else let '(p, o) := cut r in (b :: p, o)
  end.

Definition first_level (s : gostring) : gostring := (cut (TrimPrefix s [slash])).1.

Definition kafka_of (level : gostring) : gostring :=
  if negb (bool_decide (level = [])) then str "mqtt-" ++ level else str "mqtt-inbound".

Lemma split_from_cut cur s :
  split_from slash cur s
  = (cur ++ (cut s).1) :: match (cut s).2 with Some r => Split r slash | None => [] end.
Proof.
  revert cur. induction s as [|b s IH]; intros cur; cbn [split_from cut]; [by rewrite app_nil_r|].
  case_bool_decide; [by rewrite app_nil_r|]. rewrite IH. destruct (cut s) as [p o]. cbn. by rewrite <- app_assoc.
Qed.

Lemma Split_cut s : Split s slash = (cut s).1 :: match (cut s).2 with Some r => Split r slash | None => [] end.
Proof. apply split_from_cut. Qed.

Lemma mqttTopicToKafka_level t : mqttTopicToKafka t = kafka_of (first_level t).
Proof.
  unfold mqttTopicToKafka, first_level. generalize (TrimPrefix t [slash]) as s. intros s.
  assert (exists tl, SplitN s slash 2 = (cut s).1 :: tl) as [tl ->]; [|done]. unfold SplitN. cbn [Nat.sub].
  enough (forall cur, exists tl, splitn_from 1 slash cur s = (cur ++ (cut s).1) :: tl) as H by apply (H []).
  induction s as [|b s IH]; intros cur; cbn [splitn_from cut]; [eexists; by rewrite app_nil_r|].
  case_bool_decide; [eexists; by rewrite app_nil_r|]. destruct (IH (cur ++ [b])) as [tl ->].
  destruct (cut s). cbn. eexists. by rewrite <- app_assoc.
Qed.

Lemma cut_slash b r : cut (b :: r) = if bool_decide (b = slash) then ([], Some r) else ((b :: (cut r).1), (cut r).2).
Proof. cbn [cut]. case_bool_decide; [done|]. by destruct (cut r). Qed.

Lemma cut_app_slash g x : (cut (g ++ slash :: x)).1 = (cut g).1.
Proof.
  induction g as [|b g IH]; [done|]. cbn [app]. rewrite !cut_slash. case_bool_decide; [done|]. cbn. by rewrite IH.
Qed.

Lemma TrimPrefix_slash b r : TrimPrefix (b :: r) [slash] = if bool_decide (b = slash) then r else b :: r.
Proof.
  unfold TrimPrefix, HasPrefix. change (take (length [slash]) (b :: r)) with [b].
  do 2 case_bool_decide; (done || congruence).
Qed.

(** Trimming a trailing wildcard level keeps the first level, unless it is the
    first level. *)
Lemma trim_wildcard f w :
  w = str "#" \/ w = str "+" -> first_level f <> w -> first_level (TrimSuffix f (slash :: w)) = first_level f.
Proof.
  intros Hw Hf. unfold TrimSuffix. case_bool_decide as E; [|done].
  set (g := take _ f). assert (f = g ++ slash :: w) as Eg by (rewrite <- E; symmetry; apply take_drop).
  clearbody g. subst f. clear E. unfold first_level in *. destruct g as [|b g].
  { cbn [app] in Hf. rewrite TrimPrefix_slash, bool_decide_eq_true_2 in Hf by done.
    destruct Hw as [-> | ->]; by destruct Hf. }
  cbn [app]. rewrite !TrimPrefix_slash. case_bool_decide.
  - by rewrite cut_app_slash.
  - change (b :: g ++ slash :: w) with ((b :: g) ++ slash :: w). by rewrite cut_app_slash.
Qed.

Lemma mqttFilterToKafka_level f :
  first_level f <> str "#" -> first_level f <> str "+" -> mqttFilterToKafka f = kafka_of (first_level f).
Proof.
  intros H1 H2. unfold mqttFilterToKafka. change (str "/#") with (slash :: str "#").
  change (str "/+") with (slash :: str "+"). rewrite mqttTopicToKafka_level, !trim_wildcard; try done; [by left|by right|].
  rewrite trim_wildcard by (done || by left). done.
Qed.

(** A filter whose first level is no wildcard has the first level of the topics
    it matches. *)
Lemma matches_level f t :
  first_level f <> str "#" -> first_level f <> str "+" -> mqttTopicMatches f t = true ->
  first_level f = first_level t.
Proof.
  unfold mqttTopicMatches, first_level. intros H1 H2.
  destruct f as [|b f]; [|rewrite TrimPrefix_slash in *; case_bool_decide as Hb; [subst b|]].
  - destruct t as [|c t]; [done|]. rewrite (Split_cut (c :: t)), cut_slash, TrimPrefix_slash. case_bool_decide; [|done].
    change (Split [] slash) with [@nil byte]. cbn [fst snd match_levels]. rewrite (Split_cut t). done.
  - rewrite (Split_cut (slash :: f)), cut_slash, bool_decide_eq_true_2 by done. cbn [fst snd].
    destruct t as [|c t].
    { change (Split [] slash) with [@nil byte]. cbn [match_levels]. rewrite Split_cut. cbn [match_levels].
      rewrite (bool_decide_eq_false_2 ((cut f).1 = str "#")) by done. done. }
    rewrite (Split_cut (c :: t)), cut_slash, TrimPrefix_slash. case_bool_decide; [|done]. cbn [fst snd match_levels].
    rewrite (Split_cut f), (Split_cut t). cbn [match_levels].
    rewrite !(bool_decide_eq_false_2 ((cut f).1 = _)) by done. by destruct (bool_decide ((cut f).1 = _)) eqn:E;
      [apply bool_decide_eq_true in E|].
  - rewrite (Split_cut (b :: f)), (Split_cut t). cbn [match_levels].
    rewrite !(bool_decide_eq_false_2 ((cut (b :: f)).1 = str _)) by done.
    case_bool_decide as E; [|done]. intros _. rewrite E. destruct t as [|c t]; [done|].
    rewrite TrimPrefix_slash. case_bool_decide; [|done]. subst c.
    rewrite !cut_slash, bool_decide_eq_false_2, bool_decide_eq_true_2 in E by done. done.
Qed.

(** A subscription reaches its topic. When a topic filter whose first level is
    not a wildcard matches an MQTT topic, the Kafka topic the subscriber is sent
    from is the Kafka topic that messages published on that MQTT topic are
    stored in, whatever wildcards the filter has further on and with or without
    leading separators. *)
Theorem mqtt_routing filter topic :
  first_level filter <> str "#" -> first_level filter <> str "+" ->
  mqttTopicMatches filter topic = true -> mqttFilterToKafka filter = mqttTopicToKafka topic.
Proof.
  intros H1 H2 H3. rewrite mqttFilterToKafka_level, mqttTopicToKafka_level by done. f_equal. by apply matches_level.
Qed.

Lemma mqtt_routing_witness :
  mqttFilterToKafka (str "/sensors/+/#") = mqttTopicToKafka (str "/sensors/d7/temp") /\
  mqttFilterToKafka (str "/sensors/+/#") = str "mqtt-sensors".
Proof.
  split; [|by vm_compute].
  apply (mqtt_routing (str "/sensors/+/#") (str "/sensors/d7/temp")); [vm_compute; discriminate..|by vm_compute].
Defined.

(** A filter that begins with a wildcard matches every topic and is subscribed to
    a Kafka topic that none of them is stored in. *)
Lemma wildcard_first_level_deaf :
  mqttTopicMatches (str "#") (str "sensors/d7") = true /\
  mqttFilterToKafka (str "#") = str "mqtt-#" /\ mqttTopicToKafka (str "sensors/d7") = str "mqtt-sensors" /\
  mqttTopicMatches (str "+/d7") (str "sensors/d7") = true /\ mqttFilterToKafka (str "+/d7") = str "mqtt-+" /\
  mqttTopicMatches (str "/#") (str "/sensors/d7") = true /\ mqttFilterToKafka (str "/#") = str "mqtt-inbound".
Proof. by vm_compute. Qed.
