(* ===== verification/Mqtt.v ===== *)
(** * The MQTT bridge (internal/gateway/mqtt.go)

    MQTT clients publish into Kafka topics and are sent what is appended to the
    topics they subscribe to. The bridge is a state machine over its
    connections: accepting one, handling the next packet of one (an iteration of
    the loop of [serveClient]), one round of a subscription's [forwardLoop], and
    closing down. A forwarder that was unsubscribed has no filter left and sends
    nothing, so it is dropped at once. Audit records are not modelled. *)

From stdpp Require Import prelude list gmap strings.
From Stdlib Require Import ZArith Lia.
From S2P Require Import Prelude GoStrings GoBinary Wire Credential Ratelimit RecordBatch Segment SegmentOps Partition.
From S2P Require Import PartitionOps Compaction Idempotence Store Authz Group Broker Sasl Server MqttPacket.

Definition MQTTTopicHeader : gostring := str "mqtt-topic".

(** [fw_next]: the offset the forwarder's goroutine reads from next. *)
Record mqttForwarder := mkForwarder { fw_filters : gset gostring; fw_next : Z }.

Definition fwd_matches (f : mqttForwarder) (topic : gostring) : bool :=
  existsb (fun filter => mqttTopicMatches filter topic) (elements (fw_filters f)).

(** [mc_handshake] and [mc_maxLen] are the locals of [serveClient]; [mc_subs]
    has the forwarders by Kafka topic; [mc_in] is what the client will send. *)
Record mqttClient := mkMqttClient {
  mc_clientID : gostring;
  mc_info : connInfo;
  mc_started : bool;
  mc_handshake : bool;
  mc_maxLen : Z;
  mc_principal : gostring;
  mc_authed : bool;
  mc_registered : bool;
  mc_subs : gmap gostring mqttForwarder;
  mc_in : list byte }.

Definition set_in (c : mqttClient) (input : list byte) : mqttClient :=
  mkMqttClient (mc_clientID c) (mc_info c) (mc_started c) (mc_handshake c) (mc_maxLen c) (mc_principal c)
    (mc_authed c) (mc_registered c) (mc_subs c) input.
Definition set_subs (c : mqttClient) (subs : gmap gostring mqttForwarder) : mqttClient :=
  mkMqttClient (mc_clientID c) (mc_info c) (mc_started c) (mc_handshake c) (mc_maxLen c) (mc_principal c)
    (mc_authed c) (mc_registered c) subs (mc_in c).
Definition end_handshake (c : mqttClient) : mqttClient :=
  mkMqttClient (mc_clientID c) (mc_info c) (mc_started c) false mqttMaxPacketBytes (mc_principal c)
    (mc_authed c) (mc_registered c) (mc_subs c) (mc_in c).

Definition addSubscription (c : mqttClient) (kafkaTopic filter : gostring) (start : Z) : mqttClient :=
  match mc_subs c !! kafkaTopic with
  | Some fwd => set_subs c (<[kafkaTopic := mkForwarder ({[filter]} ∪ fw_filters fwd) (fw_next fwd)]> (mc_subs c))
  | None => set_subs c (<[kafkaTopic := mkForwarder {[filter]} start]> (mc_subs c))
  end.

Definition removeSubscription (c : mqttClient) (kafkaTopic filter : gostring) : mqttClient :=
  match mc_subs c !! kafkaTopic with
  | None => c
  | Some fwd =>
      let filters := fw_filters fwd ∖ {[filter]} in
      if bool_decide (filters = ∅) then set_subs c (delete kafkaTopic (mc_subs c))
      else set_subs c (<[kafkaTopic := mkForwarder filters (fw_next fwd)]> (mc_subs c))
  end.

(** A registered client: its id and when it connected, under its address. *)
Record mqttClientEntry := mkEntry { en_clientID : gostring; en_connectedAt : Z; en_conn : Z }.

(** [mb_sem]: the tokens in [connSem]; [mb_sent]: every packet written, with its
    connection. *)
Record MQTTBridge := mkBridge {
  mb_store : Store;
  mb_conns : gmap Z mqttClient;
  mb_clients : gmap gostring mqttClientEntry;
  mb_sem : Z;
  mb_bridged : Z;
  mb_limiter : RateLimit.Limiter;
  mb_closing : bool;
  mb_sent : list (Z * list byte) }.

Definition NewMQTTBridge (s : Store) : MQTTBridge :=
  mkBridge s ∅ ∅ 0 0 (RateLimit.New 3 RateLimit.second (30 * RateLimit.second)) false [].

Definition set_store (b : MQTTBridge) (s : Store) : MQTTBridge :=
  mkBridge s (mb_conns b) (mb_clients b) (mb_sem b) (mb_bridged b) (mb_limiter b) (mb_closing b) (mb_sent b).
Definition set_client (b : MQTTBridge) (id : Z) (c : mqttClient) : MQTTBridge :=
  mkBridge (mb_store b) (<[id := c]> (mb_conns b)) (mb_clients b) (mb_sem b) (mb_bridged b) (mb_limiter b)
    (mb_closing b) (mb_sent b).
Definition set_mqtt_limiter (b : MQTTBridge) (l : RateLimit.Limiter) : MQTTBridge :=
  mkBridge (mb_store b) (mb_conns b) (mb_clients b) (mb_sem b) (mb_bridged b) l (mb_closing b) (mb_sent b).

Definition writePacket (b : MQTTBridge) (id ptype : Z) (payload : list byte) : MQTTBridge :=
  mkBridge (mb_store b) (mb_conns b) (mb_clients b) (mb_sem b) (mb_bridged b) (mb_limiter b) (mb_closing b)
    (mb_sent b ++ [(id, packet_bytes ptype payload)]).

Definition registerClient (b : MQTTBridge) (remoteAddr clientID : gostring) (now id : Z) : MQTTBridge :=
  mkBridge (mb_store b) (mb_conns b) (<[remoteAddr := mkEntry clientID now id]> (mb_clients b)) (mb_sem b)
    (mb_bridged b) (mb_limiter b) (mb_closing b) (mb_sent b).

(** The deferred calls of [serveClient]: the subscriptions end, the client is
    unregistered if it was registered, the token goes back. *)
Definition finish_client (b : MQTTBridge) (id : Z) (c : mqttClient) : MQTTBridge :=
  mkBridge (mb_store b) (delete id (mb_conns b))
    (if mc_registered c then delete (ci_remoteAddr (mc_info c)) (mb_clients b) else mb_clients b)
    (mb_sem b - 1) (mb_bridged b) (mb_limiter b) (mb_closing b) (mb_sent b).

Record MqttConfig := mkMqttConfig { mq_secure : bool; mq_users : list SecurityUser; mq_requireTLS : bool }.

Fixpoint authenticate_loop (users : list SecurityUser) (info : mqttConnectInfo) : option gostring :=
  match users with
  | [] => None
  | u :: r =>
      if bool_decide (u_Username u = []) || negb (bool_decide (u_Username u = ci_Username info))
      then authenticate_loop r info else
      let stored := if bool_decide (u_Password u = []) then u_PasswordHash u else u_Password u in
      if bool_decide (stored = []) then None
      else if Matches stored (ci_Password info) then Some (u_Username u) else None
  end.

Definition recordMQTTTopic (rec : Record_) (kafkaTopic : gostring) : gostring :=
  match List.find (fun h => bool_decide (hdr_Key h = MQTTTopicHeader)) (rec_Headers rec) with
  | Some h => default [] (hdr_Value h)
  | None => kafkaTopicToMQTT kafkaTopic
  end.

(** The packets for the records of one batch. *)
Definition forward_records (fwd : mqttForwarder) (kafkaTopic : gostring) (recs : list Record_) : list (list byte) :=
  omap (fun rec =>
    let topic := recordMQTTTopic rec kafkaTopic in
    if fwd_matches fwd topic
    then Some (packet_bytes mqttPublish (mqttPublishPayload topic (default [] (rec_Value rec)))) else None) recs.

(** The loop of [forwardOnce] over what was read; each round takes a batch. *)
Fixpoint forward_loop (fuel : nat) (fwd : mqttForwarder) (kafkaTopic : gostring) (raw : list byte) (next : Z)
  : outcome (Z * list (list byte)) :=
  match fuel with
  | O => Err no_fuel
  | S k =>
      if zlen raw <=? 0 then Ok (next, []) else
      match ParseRecordBatchHeader raw with
      | Ok h =>
          let total := BatchTotalSize h in
          if (total <=? 0) || (zlen raw <? total) then Ok (next, []) else
          match DecodeRecordBatch (take (Z.to_nat total) raw) with
          | Ok batch =>
              let fin := i64 (rb_BaseOffset batch + rb_LastOffsetDelta batch + 1) in
              let next := if next <? fin then fin else next in
              let? (next, out) := forward_loop k fwd kafkaTopic (drop (Z.to_nat total) raw) next in
              Ok (next, forward_records fwd kafkaTopic (rb_Records batch) ++ out)
          | Err _ => Ok (next, [])
          | Panic => Panic
          end
      | Err _ => Ok (next, [])
      | Panic => Panic
      end
  end.

Section bridge.
Context (cfg : MqttConfig).
Context `{Authorizer A} (auth : option A).
Context (disk : gostring -> Z -> partition_dir).
Context (remote : option (gostring -> outcome (list byte))).

(** [WithSecurity] and [authorize]: no authorizer allows everything, as the one
    installed when security is off does. *)
Definition mqtt_authorize (principal op kafkaTopic : gostring) : bool :=
  match auth with
  | None => true
  | Some a =>
      let principal := if bool_decide (principal = []) then AnonymPrincipal else principal in
      match Authorize a principal op (mkResource ResourceTopic kafkaTopic) with Ok _ => true | _ => false end
  end.

Definition mqtt_authenticate (info : mqttConnectInfo) : option gostring := authenticate_loop (mq_users cfg) info.

(** [store.EnsureTopic(kt, 1)], its error ignored. *)
Definition ensure_one (s : Store) (kt : gostring) : outcome Store :=
  match EnsureTopic s (disk kt) kt 1 with
  | (_, Panic) => Panic
  | (s, _) => Ok s
  end.

Definition bridge_batch (now : Z) (mqttTopic : gostring) (data : list byte) : RecordBatch :=
  mkBatch 0 0 0 0 0 0 now now (-1) (-1) (-1)
    [mkRecord 0 0 0 (Some (topicKey mqttTopic)) (Some data) [mkHeader MQTTTopicHeader (Some mqttTopic)]].

(** [now] in nanoseconds. A failed append has changed the partition too. *)
Definition bridgePublish (b : MQTTBridge) (now : Z) (mqttTopic : gostring) (data : list byte)
  : MQTTBridge * outcome unit :=
  let kt := mqttTopicToKafka mqttTopic in
  match (if bool_decide (GetTopic (mb_store b) kt = None) then ensure_one (mb_store b) kt else Ok (mb_store b)) with
  | Ok s =>
      let b := set_store b s in
      match GetPartition s kt 0 with
      | None => (b, Err "partition unavailable")
      | Some part =>
          match EncodeRecordBatch (bridge_batch (now / millisecond) mqttTopic data) with
          | Ok raw =>
              let '(log, r) := Append (ps_log part) raw in
              let b := set_store b (put_partition s kt 0 (mkPS log (ps_idempotence part))) in
              match r with
              | Ok _ => (mkBridge (mb_store b) (mb_conns b) (mb_clients b) (mb_sem b) (i64 (mb_bridged b + 1))
                           (mb_limiter b) (mb_closing b) (mb_sent b), Ok tt)
              | Err e => (b, Err e)
              | Panic => (b, Panic)
              end
          | Err e => (b, Err e)
          | Panic => (b, Panic)
          end
      end
  | Err e => (b, Err e)
  | Panic => (b, Panic)
  end.

(** The console's publish. *)
Definition Publish (b : MQTTBridge) (now : Z) (principal mqttTopic : gostring) (data : list byte)
  : MQTTBridge * outcome unit :=
  if bool_decide (mqttTopic = []) then (b, Err "mqtt topic is required")
  else if negb (mqtt_authorize principal OpWrite (mqttTopicToKafka mqttTopic)) then (b, Err "not authorized")
  else bridgePublish b now mqttTopic data.

(** ** Handling packets *)

Definition handle_connect (b : MQTTBridge) (id : Z) (c : mqttClient) (now : Z) (payload : list byte)
  : outcome MQTTBridge :=
  let refuse b code := Ok (finish_client (writePacket b id mqttConnack [x00; code]) id c) in
  let accepted b c :=
    let b := writePacket b id mqttConnack [x00; x00] in
    let c := mkMqttClient (mc_clientID c) (mc_info c) (mc_started c) (mc_handshake c) (mc_maxLen c)
               (mc_principal c) (mc_authed c) true (mc_subs c) (mc_in c) in
    Ok (set_client (registerClient b (ci_remoteAddr (mc_info c)) (mc_clientID c) now id) id c) in
  let with_id c info :=
    mkMqttClient (ci_ClientID info) (mc_info c) (mc_started c) (mc_handshake c) (mc_maxLen c)
      (mc_principal c) (mc_authed c) (mc_registered c) (mc_subs c) (mc_in c) in
  let addr := remoteHost (mc_info c) in
  match parseConnect payload with
  | Panic => Panic
  | Err _ => if mq_secure cfg then refuse b x01 else accepted b c
  | Ok info =>
      if mq_secure cfg then
        if mq_requireTLS cfg && negb (isTLSConn (mc_info c)) &&
           (negb (bool_decide (ci_Username info = [])) || negb (bool_decide (ci_Password info = [])))
        then refuse b x05 else
        match mqtt_authenticate info with
        | None => refuse (set_mqtt_limiter b (RateLimit.Fail (mb_limiter b) now addr).1) x05
        | Some user =>
            let b := set_mqtt_limiter b (RateLimit.Succeed (mb_limiter b) addr) in
            accepted b (mkMqttClient (ci_ClientID info) (mc_info c) (mc_started c) (mc_handshake c) (mc_maxLen c)
                          user true (mc_registered c) (mc_subs c) (mc_in c))
        end
      else accepted b (with_id c info)
  end.

Definition handle_publish (b : MQTTBridge) (id : Z) (c : mqttClient) (now flags : Z) (payload : list byte)
  : outcome MQTTBridge :=
  match parsePublish flags payload with
  | Panic => Panic
  | Err _ => Ok b
  | Ok (ptopic, data, qos, packetID) =>
      if negb (mqtt_authorize (mc_principal c) OpWrite (mqttTopicToKafka ptopic)) then Ok b else
      match bridgePublish b now ptopic data with
      | (_, Panic) => Panic
      | (b, Err _) => Ok b
      | (b, Ok _) =>
          if qos =? 1 then Ok (writePacket b id mqttPuback (mqtt_u16 packetID))
          else if qos =? 2 then Ok (writePacket b id mqttPubrec (mqtt_u16 packetID))
          else Ok b
      end
  end.

(** The subscriptions of one packet, after their answer was written. *)
Fixpoint subscribe_all (s : Store) (c : mqttClient) (filters : list gostring) : outcome (Store * mqttClient) :=
  match filters with
  | [] => Ok (s, c)
  | f :: r =>
      let kt := mqttFilterToKafka f in
      if negb (mqtt_authorize (mc_principal c) OpRead kt) then subscribe_all s c r else
      let? s :=
        if bool_decide (GetPartition s kt 0 = None) && mqtt_authorize (mc_principal c) OpWrite kt
        then ensure_one s kt else Ok s in
      let start := match GetPartition s kt 0 with
                   | Some part => pt_highWatermark (ps_log part)
                   | None => 0
                   end in
      subscribe_all s (addSubscription c kt f start) r
  end.

Definition handle_subscribe (b : MQTTBridge) (id : Z) (c : mqttClient) (payload : list byte) : outcome MQTTBridge :=
  match parseSubscribe payload with
  | Panic => Panic
  | Err _ => Ok b
  | Ok (packetID, filters) =>
      let codes := map (fun f => if mqtt_authorize (mc_principal c) OpRead (mqttFilterToKafka f)
                                 then x00 else x80) filters in
      let b := writePacket b id mqttSuback (mqtt_u16 packetID ++ codes) in
      let? (s, c) := subscribe_all (mb_store b) c filters in
      Ok (set_client (set_store b s) id c)
  end.

Definition handle_unsubscribe (b : MQTTBridge) (id : Z) (c : mqttClient) (payload : list byte) : outcome MQTTBridge :=
  match parseUnsubscribe payload with
  | Panic => Panic
  | Err _ => Ok b
  | Ok (packetID, filters) =>
      let c := fold_left (fun c f => removeSubscription c (mqttFilterToKafka f) f) filters c in
      Ok (writePacket (set_client b id c) id mqttUnsuback (mqtt_u16 packetID))
  end.

(** The switch of [serveClient]. *)
Definition handle_packet (b : MQTTBridge) (id : Z) (c : mqttClient) (now ptype flags : Z) (payload : list byte)
  : outcome MQTTBridge :=
  if ptype =? mqttConnect then handle_connect b id c now payload
  else if ptype =? mqttPublish then handle_publish b id c now flags payload
  else if ptype =? mqttPubrel then
    if 2 <=? zlen payload then Ok (writePacket b id mqttPubcomp (take 2 payload)) else Ok b
  else if ptype =? mqttSubscribe then handle_subscribe b id c payload
  else if ptype =? mqttUnsubscribe then handle_unsubscribe b id c payload
  else if ptype =? mqttPingreq then Ok (writePacket b id mqttPingresp [])
  else if ptype =? mqttDisconnect then Ok (finish_client b id c)
  else Ok b.

(** [serveClient] before its loop. *)
Definition start_client (b : MQTTBridge) (id : Z) (c : mqttClient) (now : Z) : MQTTBridge :=
  let '(l, ok) :=
    if mq_secure cfg
    then let '(l, (ok, _)) := RateLimit.Allow (mb_limiter b) now (remoteHost (mc_info c)) in (l, ok)
    else (mb_limiter b, true) in
  let b := set_mqtt_limiter b l in
  if negb ok then finish_client b id c else
  set_client b id (mkMqttClient [] (mc_info c) true true mqttMaxPreConnectBytes [] (negb (mq_secure cfg)) false ∅
                     (mc_in c)).

(** One packet. *)
Definition serve_client (b : MQTTBridge) (id : Z) (now : Z) : outcome MQTTBridge :=
  match mb_conns b !! id with
  | None => Ok b
  | Some c =>
      if negb (mc_started c) then Ok (start_client b id c now) else
      match readMQTTPacket (mc_in c) (mc_maxLen c) with
      | Panic => Panic
      | Err _ => Ok (finish_client b id c)
      | Ok (first, payload, rest) =>
          let ptype := Z.shiftr (b2z first) 4 in
          let flags := Z.land (b2z first) 15 in
          if mq_secure cfg && negb (mc_authed c) && negb (ptype =? mqttConnect) then Ok (finish_client b id c) else
          let c := set_in c rest in
          let c := if mc_handshake c && ((ptype =? mqttConnect) || negb (mq_secure cfg)) then end_handshake c else c in
          handle_packet (set_client b id c) id c now ptype flags payload
      end
  end.

(** ** Forwarding *)

Definition forward_bytes : Z := 1048576.

(** [forwardOnce]: the partition as the read leaves it, the new position, and
    the packets written. *)
Definition forwardOnce (fwd : mqttForwarder) (kafkaTopic : gostring) (log : Partition)
  : Partition * outcome (Z * list (list byte)) :=
  let next := fw_next fwd in
  let '(log, r, _) := Read remote log next forward_bytes in
  match r with
  | Ok raw => (log, if zlen raw =? 0 then Ok (next, []) else forward_loop (S (length raw)) fwd kafkaTopic raw next)
  | Err _ => (log, Ok (next, []))
  | Panic => (log, Panic)
  end.

(** A round of [forwardLoop]: nothing to do, or a [forwardOnce]. *)
Definition forward_step (b : MQTTBridge) (id : Z) (kt : gostring) : outcome MQTTBridge :=
  match mb_conns b !! id with
  | None => Ok b
  | Some c =>
      match mc_subs c !! kt with
      | None => Ok b
      | Some fwd =>
          match GetPartition (mb_store b) kt 0 with
          | None => Ok b
          | Some part =>
              if pt_highWatermark (ps_log part) <=? fw_next fwd then Ok b else
              let '(log, r) := forwardOnce fwd kt (ps_log part) in
              let? (next, out) := r in
              let c := set_subs c (<[kt := mkForwarder (fw_filters fwd) next]> (mc_subs c)) in
              let b := set_client (set_store b (put_partition (mb_store b) kt 0 (mkPS log (ps_idempotence part)))) id c in
              Ok (mkBridge (mb_store b) (mb_conns b) (mb_clients b) (mb_sem b) (mb_bridged b) (mb_limiter b)
                    (mb_closing b) (mb_sent b ++ map (pair id) out))
          end
      end
  end.

(** ** The console's view *)

Record MQTTClientInfo := mkClientInfo {
  mi_ClientID : gostring; mi_RemoteAddr : gostring; mi_ConnectedAt : Z; mi_SubsCount : Z }.

Definition info_before (a b : MQTTClientInfo) : bool :=
  if mi_ConnectedAt a =? mi_ConnectedAt b
  then string_le (mi_RemoteAddr a) (mi_RemoteAddr b) && negb (bool_decide (mi_RemoteAddr a = mi_RemoteAddr b))
  else mi_ConnectedAt a <? mi_ConnectedAt b.

Fixpoint insert_info (x : MQTTClientInfo) (l : list MQTTClientInfo) : list MQTTClientInfo :=
  match l with
  | [] => [x]
  | y :: r => if info_before y x then y :: insert_info x r else x :: l
  end.

Definition ClientsSnapshot (b : MQTTBridge) : list MQTTClientInfo :=
  foldr insert_info [] (map (fun '(addr, e) =>
    mkClientInfo (en_clientID e) addr (en_connectedAt e)
      (match mb_conns b !! en_conn e with Some c => Z.of_nat (size (mc_subs c)) | None => 0 end))
    (map_to_list (mb_clients b))).

(** ** Connections *)

(** One connection taken by [acceptLoop]: without a free token, or when the
    bridge is closing, it is closed at once. *)
Definition accept_client (b : MQTTBridge) (id : Z) (i : connInfo) (input : list byte) : MQTTBridge :=
  if mb_closing b || negb (mb_sem b <? mqttMaxConnections) then b else
  let b := set_client b id (mkMqttClient [] i false true mqttMaxPreConnectBytes [] false false ∅ input) in
  mkBridge (mb_store b) (mb_conns b) (mb_clients b) (mb_sem b + 1) (mb_bridged b) (mb_limiter b) (mb_closing b)
    (mb_sent b).

(** [Close]: nothing more can be read from any connection. *)
Definition close_bridge (b : MQTTBridge) : MQTTBridge :=
  mkBridge (mb_store b) ((fun c => set_in c []) <$> mb_conns b) (mb_clients b) (mb_sem b) (mb_bridged b)
    (mb_limiter b) true (mb_sent b).

Inductive mevent :=
  | MAccept (id : Z) (i : connInfo) (input : list byte)
  | MServe (id : Z) (now : Z)
  | MForward (id : Z) (kt : gostring)
  | MClose.

Definition mstep (b : MQTTBridge) (e : mevent) : outcome MQTTBridge :=
  match e with
  | MAccept id i input => if bool_decide (is_Some (mb_conns b !! id)) then Ok b else Ok (accept_client b id i input)
  | MServe id now => serve_client b id now
  | MForward id kt => forward_step b id kt
  | MClose => Ok (close_bridge b)
  end.

Fixpoint mrun (b : MQTTBridge) (es : list mevent) : outcome MQTTBridge :=
  match es with
  | [] => Ok b
  | e :: es => let? b := mstep b e in mrun b es
  end.
End bridge.
