(* ===== verification/MqttProps.v ===== *)
(** * What the MQTT bridge guarantees

    Forwarding against the log as a list of batches, the way of a message from
    a publisher through a partition to a subscriber, the invariant of the
    bridge's connections, and who can change or read a topic. *)

From stdpp Require Import prelude list gmap strings.
From Stdlib Require Import ZArith Lia.
From S2P Require Import Prelude GoStrings GoBinary Wire Credential Ratelimit RecordBatch Index Segment SegmentOps Partition PartitionOps.
From S2P Require Import Compaction CompactionProps CompactionWriter Idempotence Store Authz Group Broker BrokerProps OneRecord Sasl Server MqttPacket Mqtt.

(** ** Forwarding *)

(** The packets a forwarder sends for decoded batches. *)
Definition forward_all (fwd : mqttForwarder) (kt : gostring) (ds : list RecordBatch) : list (list byte) :=
  mjoin (map (fun d => forward_records fwd kt (rb_Records d)) ds).

Lemma forward_loop_spec fuel fwd kt bs ds o e next :
  Forall wf_raw bs -> chain o bs e -> 0 <= o -> e <= 4611686018427387904 -> next <= o ->
  Forall2 decodes_as bs ds -> (length (mjoin bs) < fuel)%nat ->
  forward_loop fuel fwd kt (mjoin bs) next
  = Ok (if bool_decide (bs = []) then next else e, forward_all fwd kt ds).
Proof.
  intros Hw Hc H0 He Hn Hd. revert fuel o next Hc H0 Hn. induction Hd as [|b d bs ds Hb _ IH];
    intros fuel o next Hc H0 Hn Hf; (destruct fuel as [|fuel]; [lia|]); [done|].
  apply Forall_cons in Hw as [Hwb Hw]. pose proof Hwb as (H61 & _ & _ & Hlod). destruct Hc as [Hbase Hc].
  pose proof (chain_mono _ _ _ Hw Hc) as Hmono. rewrite mjoin_cons in *. rewrite length_app in Hf.
  destruct (header_app b (mjoin bs) Hwb) as (h & Hh & Ht & _ & _).
  cbn [forward_loop]. pose proof (zlen_nonneg (mjoin bs)).
  rewrite (proj2 (Z.leb_gt _ _)) by (rewrite zlen_app; lia). rewrite Hh, Ht.
  rewrite (proj2 (Z.leb_gt _ _)), (proj2 (Z.ltb_ge _ _)) by (rewrite ?zlen_app; lia). cbn [orb].
  unfold zlen in *. rewrite Nat2Z.id, take_app_length, drop_app_length.
  destruct (decodes_fields _ _ Hb) as [Eb El]. unfold decodes_as in Hb. rewrite Hb, Eb, El, Hbase.
  rewrite i64_id by mlia. rewrite (proj2 (Z.ltb_lt _ _)) by lia.
  rewrite (IH Hw fuel (o + raw_lod b + 1)) by (done || lia). cbn [obind]. f_equal. f_equal.
  case_bool_decide as E; [|done]. subst bs. cbn in Hc. by rewrite Hc.
Qed.

(** From a batch boundary, a round sends the messages of some of the next
    batches, at least one, and moves behind them. *)
Lemma forwardOnce_spec remote p bss bs1 bs2 ds fwd kt e :
  let o := earliestOffsetLocked p in
  pt_inv p bss -> mjoin bss = bs1 ++ bs2 -> chain o bs1 (fw_next fwd) ->
  chain (fw_next fwd) bs2 e -> e = pt_nextOffset p -> e <= 4611686018427387904 -> bs2 <> [] ->
  Forall2 decodes_as bs2 ds -> fits forward_bytes (orderedSegmentsLocked p) ->
  exists k, (0 < k <= length bs2)%nat /\ exists m,
    forwardOnce remote fwd kt p = (p, Ok (m, forward_all fwd kt (take k ds))) /\
    chain (fw_next fwd) (take k bs2) m.
Proof.
  intros o Hp Hj Hc1 Hc2 He Hlim Hne Hd Hfit.
  destruct (read_from remote p bss bs1 bs2 (fw_next fwd) e forward_bytes) as (n & Hn & Hread); try done.
  exists n. split; [done|]. destruct (segs_inv_chain _ _ _ _ (pi_segs _ _ Hp)) as [Hw _]. rewrite Hj in Hw.
  apply Forall_app in Hw as [Hw1 Hw2]. pose proof (chain_mono _ _ _ Hw1 Hc1) as Hm1. pose proof (earliest_range _ _ Hp) as [He0 _].
  rewrite <- (take_drop n bs2) in Hc2, Hw2.
  apply chain_app in Hc2 as (m & Hc2 & Hc3). apply Forall_app in Hw2 as [Hw2 Hw3]. exists m. split; [|done].
  pose proof (chain_mono _ _ _ Hw3 Hc3). unfold forwardOnce. rewrite Hread.
  assert ((zlen (mjoin (take n bs2)) =? 0) = false) as ->.
  { apply Z.eqb_neq. destruct n as [|n], bs2 as [|b bs2]; [lia|lia|done|]. cbn [take] in *. rewrite mjoin_cons, zlen_app.
    apply Forall_cons in Hw2 as [(H61 & _) _].
    match goal with |- context [zlen b + zlen ?x] => pose proof (zlen_nonneg x) end. lia. }
  rewrite (forward_loop_spec _ fwd kt _ (take n ds) (fw_next fwd) m); try done; try lia.
  - rewrite bool_decide_eq_false_2; [done|]. destruct n, bs2; cbn in *; [lia|lia|done|done].
  - by apply Forall2_take.
Qed.

(** Rounds of the forwarder while the log stands still. *)
Fixpoint forward_rounds (remote : option (gostring -> outcome (list byte))) (n : nat) (fwd : mqttForwarder)
    (kt : gostring) (p : Partition) : outcome (Z * list (list byte)) :=
  match n with
  | O => Ok (fw_next fwd, [])
  | S n =>
      if pt_highWatermark p <=? fw_next fwd then Ok (fw_next fwd, []) else
      let '(p, r) := forwardOnce remote fwd kt p in
      let? (next, out) := r in
      let? (next, rest) := forward_rounds remote n (mkForwarder (fw_filters fwd) next) kt p in
      Ok (next, out ++ rest)
  end.

(** A subscriber gets everything, once and in order. A forwarder that stands at
    a batch boundary of a partition whose batches decode sends, round by round,
    exactly the messages of all records from there to the log end whose topic
    one of its filters matches, in log order and without repetition, and then
    stands at the log end; one round per batch is enough. *)
Theorem mqtt_delivers_all remote p bss bs1 bs2 ds fwd kt n :
  pt_inv p bss -> mjoin bss = bs1 ++ bs2 ->
  chain (earliestOffsetLocked p) bs1 (fw_next fwd) -> chain (fw_next fwd) bs2 (pt_nextOffset p) ->
  pt_nextOffset p <= 4611686018427387904 -> Forall2 decodes_as bs2 ds ->
  fits forward_bytes (orderedSegmentsLocked p) -> (length bs2 <= n)%nat ->
  forward_rounds remote n fwd kt p = Ok (pt_nextOffset p, forward_all fwd kt ds).
Proof.
  intros Hp Hj Hc1 Hc2 Hlim Hd Hfit. revert bs1 bs2 ds fwd Hj Hc1 Hc2 Hd.
  induction n as [|n IH]; intros bs1 bs2 ds fwd Hj Hc1 Hc2 Hd Hn.
  { assert (bs2 = []) as -> by (destruct bs2; [done|cbn in Hn; lia]). cbn in Hc2. rewrite <- Hc2.
    by apply Forall2_nil_inv_l in Hd as ->. }
  cbn [forward_rounds]. rewrite (pi_hwm _ _ Hp). destruct (decide (bs2 = [])) as [->|Hne].
  { cbn in Hc2. rewrite <- Hc2, Z.leb_refl. by apply Forall2_nil_inv_l in Hd as ->. }
  destruct (forwardOnce_spec remote p bss bs1 bs2 ds fwd kt _ Hp Hj Hc1 Hc2 eq_refl Hlim Hne Hd Hfit)
    as (k & Hk & m & -> & Hm).
  assert (fw_next fwd < pt_nextOffset p) as Hlt.
  { destruct (segs_inv_chain _ _ _ _ (pi_segs _ _ Hp)) as [Hw _]. rewrite Hj in Hw.
    apply Forall_app in Hw as [_ Hw2]. destruct bs2 as [|b bs2]; [done|].
    pose proof (chain_bounds _ _ _ Hw2 Hc2) as [? _]%Forall_cons. lia. }
  rewrite (proj2 (Z.leb_gt _ _)) by lia. cbn [obind].
  rewrite <- (take_drop k bs2) in Hc2, Hj. rewrite app_assoc in Hj.
  apply chain_app in Hc2 as (m' & Hm' & Hc2). rewrite (chain_end_unique _ _ _ _ Hm' Hm) in Hc2.
  rewrite (IH (bs1 ++ take k bs2) (drop k bs2) (drop k ds)); cbn [fw_next]; try done.
  - cbn [obind]. unfold forward_all, forward_records, fwd_matches. cbn [fw_filters].
    do 2 f_equal. rewrite <- (take_drop k ds) at 3. by rewrite map_app, join_app.
  - apply chain_app. by exists (fw_next fwd).
  - by apply Forall2_drop.
  - rewrite length_drop. lia.
Qed.

(** ** Storing a message *)

Lemma split_from_length sep cur s : Forall (fun p => zlen p <= zlen cur + zlen s) (split_from sep cur s).
Proof.
  revert cur. induction s as [|b s IH]; intros cur; cbn [split_from].
  { apply Forall_singleton. rewrite zlen_nil. lia. }
  rewrite zlen_cons. pose proof (zlen_nonneg s). pose proof (zlen_nonneg cur). case_bool_decide.
  - constructor; [lia|]. eapply Forall_impl; [apply IH|]. cbn. intros p Hp. rewrite zlen_nil in Hp. lia.
  - eapply Forall_impl; [apply IH|]. cbn. intros p Hp. autorewrite with zlen in Hp. lia.
Qed.

Lemma topicKey_length t : zlen (topicKey t) <= zlen t.
Proof.
  unfold topicKey, Split. pose proof (split_from_length slash [] (TrimPrefix t [slash])) as H.
  assert (zlen (TrimPrefix t [slash]) <= zlen t) as Ht.
  { unfold TrimPrefix. destruct (HasPrefix _ _); [|lia]. unfold zlen. rewrite length_drop. lia. }
  rewrite zlen_nil in H. destruct (split_from _ _ _) as [|x [|k l]]; [apply zlen_nonneg..|].
  apply Forall_cons in H as [_ [Hk _]%Forall_cons]. lia.
Qed.

(** A bound on the bytes of the batch of one message. *)
Definition max_batch : Z := 1180000.

Definition message_ok (topic : gostring) (data : list byte) : Prop :=
  str16 topic /\ zlen data <= mqttMaxPacketBytes.

(** A partition with room for one more message. *)
Abbreviation ready_log := (ready_for forward_bytes max_batch).

Definition message_record (topic : gostring) (data : list byte) : Record_ :=
  mkRecord 0 0 0 (Some (topicKey topic)) (Some data) [mkHeader MQTTTopicHeader (Some topic)].

Definition published (b : MQTTBridge) (kt : gostring) (ps : PartitionState) : MQTTBridge :=
  mkBridge (put_partition (mb_store b) kt 0 ps) (mb_conns b) (mb_clients b) (mb_sem b) (i64 (mb_bridged b + 1))
    (mb_limiter b) (mb_closing b) (mb_sent b).

Lemma message_light topic data :
  message_ok topic data -> light (message_record topic data) /\ 61 + weight (message_record topic data) <= max_batch.
Proof.
  intros [Ht Hd]. unfold light, weight, header_weight, str16, max_batch, mqttMaxPacketBytes, blen in *.
  cbn [message_record rec_Key rec_Value rec_Headers from_option foldr hdr_Key hdr_Value].
  pose proof (topicKey_length topic). change (zlen MQTTTopicHeader) with 10. lia.
Qed.

Lemma bridge_batch_wf ms topic data : message_ok topic data -> in_i64 ms -> wf_batch (bridge_batch ms topic data).
Proof.
  intros Hm Hms. destruct (message_light topic data Hm) as [Hl _].
  apply (flushed_wf ms [message_record topic data]); [done|by constructor|cbn; lia].
Qed.

Lemma append_message p bss ms topic data :
  ready_log p bss -> message_ok topic data -> in_i64 ms ->
  exists raw p' bss' stored d,
    EncodeRecordBatch (bridge_batch ms topic data) = Ok raw /\
    Append p raw = (p', Ok (pt_nextOffset p)) /\ pt_inv p' bss' /\ mjoin bss' = mjoin bss ++ [stored] /\
    decodes_as stored d /\ rb_Records d = [message_record topic data] /\
    chain (pt_nextOffset p) [stored] (pt_nextOffset p') /\
    pt_nextOffset p' = pt_nextOffset p + 1 /\ earliestOffsetLocked p' = earliestOffsetLocked p /\
    fits forward_bytes (orderedSegmentsLocked p').
Proof.
  intros Hr Hmsg Hms. destruct (message_light topic data Hmsg) as [Hl Hw].
  destruct (append_one _ _ p bss ms (message_record topic data) Hr Hl Hw Hms)
    as (raw & p' & bss' & stored & d & H1 & H2 & H3 & H4 & H5 & H6 & _ & H7 & H8 & H9 & H10).
  by exists raw, p', bss', stored, d.
Qed.

Section messages.
Context (cfg : MqttConfig).
Context `{Authorizer A} (auth : option A).
Context (disk : gostring -> Z -> partition_dir).
Context (remote : option (gostring -> outcome (list byte))).

Lemma bridgePublish_spec b now topic data part bss :
  let kt := mqttTopicToKafka topic in
  GetPartition (mb_store b) kt 0 = Some part -> ready_log (ps_log part) bss ->
  message_ok topic data -> 0 <= now < 9223372036854775807 ->
  exists p' bss' stored d,
    bridgePublish disk b now topic data = (published b kt (mkPS p' (ps_idempotence part)), Ok tt) /\
    pt_inv p' bss' /\ mjoin bss' = mjoin bss ++ [stored] /\ decodes_as stored d /\
    rb_Records d = [message_record topic data] /\
    chain (pt_nextOffset (ps_log part)) [stored] (pt_nextOffset p') /\
    pt_nextOffset p' = pt_nextOffset (ps_log part) + 1 /\
    earliestOffsetLocked p' = earliestOffsetLocked (ps_log part) /\
    fits forward_bytes (orderedSegmentsLocked p').
Proof.
  intros kt Hget Hready Hmsg Hnow.
  destruct (append_message (ps_log part) bss (now / millisecond) topic data Hready Hmsg (now_ms now Hnow))
    as (raw & p' & bss' & stored & d & He & Ha & H').
  exists p', bss', stored, d. split; [|exact H']. unfold bridgePublish. fold kt.
  rewrite bool_decide_eq_false_2.
  - cbv zeta. by rewrite Hget, He, Ha.
  - unfold GetPartition in Hget. unfold GetTopic. by destruct (st_topics _ !! kt).
Qed.

Lemma message_topic topic data kt : recordMQTTTopic (message_record topic data) kt = topic.
Proof.
  unfold recordMQTTTopic, message_record. cbn [rec_Headers List.find hdr_Key hdr_Value].
  by rewrite bool_decide_eq_true_2.
Qed.

(** What a forwarder at the old log end sends after the message was appended. *)
Lemma forward_message p' bss' bs1 stored d fwd kt topic data :
  pt_inv p' bss' -> mjoin bss' = bs1 ++ [stored] -> decodes_as stored d ->
  rb_Records d = [message_record topic data] ->
  chain (earliestOffsetLocked p') bs1 (fw_next fwd) -> chain (fw_next fwd) [stored] (pt_nextOffset p') ->
  pt_nextOffset p' <= 4611686018427387904 -> fits forward_bytes (orderedSegmentsLocked p') ->
  fwd_matches fwd topic = true ->
  forwardOnce remote fwd kt p'
  = (p', Ok (pt_nextOffset p', [packet_bytes mqttPublish (mqttPublishPayload topic data)])).
Proof.
  intros Hp Hj Hd Hrec Hc1 Hc2 Hlim Hfit Hmatch.
  destruct (forwardOnce_spec remote p' bss' bs1 [stored] [d] fwd kt (pt_nextOffset p')) as (k & Hk & m & -> & Hm);
    try done; [by constructor|].
  cbn in Hk. assert (k = 1%nat) as -> by lia. cbn [take] in *.
  rewrite (chain_end_unique _ _ _ _ Hm Hc2). unfold forward_all. cbn [map]. rewrite mjoin_cons, Hrec.
  unfold forward_records. cbn [omap list_omap]. by rewrite message_topic, Hmatch.
Qed.

(** The answer to a publish. *)
Definition publish_ack (qos id : Z) : list (list byte) :=
  if qos =? 1 then [packet_bytes mqttPuback (mqtt_u16 id)]
  else if qos =? 2 then [packet_bytes mqttPubrec (mqtt_u16 id)] else [].

Lemma publish_data_bound qos dup retain topic id data :
  let pkt := PPublish qos dup retain topic id data in
  packet_ok pkt -> zlen (packet_payload pkt) <= mqttMaxPacketBytes -> message_ok topic data.
Proof.
  intros pkt (_ & _ & _ & Ht & _) Hl. split; [done|]. cbn [pkt packet_payload] in Hl.
  unfold publish_payload, mqtt_string in Hl. autorewrite with zlen in Hl.
  pose proof (zlen_nonneg topic). pose proof (zlen_nonneg (if 0 <? qos then be 2 id else [])). lia.
Qed.

(** Serving a publish packet of a client that may write the topic: the message is
    stored and acknowledged. *)
Lemma serve_publish b now pub c qos dup retain topic id data rest part bss :
  let kt := mqttTopicToKafka topic in
  let pkt := PPublish qos dup retain topic id data in
  mb_conns b !! pub = Some c -> mc_started c = true -> (mq_secure cfg = true -> mc_authed c = true) ->
  mc_in c = frame (packet_first pkt) (packet_payload pkt) ++ rest -> packet_ok pkt ->
  zlen (packet_payload pkt) <= mc_maxLen c -> mc_maxLen c <= mqttMaxPacketBytes ->
  mqtt_authorize auth (mc_principal c) OpWrite kt = true ->
  GetPartition (mb_store b) kt 0 = Some part -> ready_log (ps_log part) bss ->
  0 <= now < 9223372036854775807 ->
  exists b1 c1 p' bss' stored d,
    serve_client cfg auth disk b pub now = Ok b1 /\
    mb_conns b1 = <[pub := c1]> (mb_conns b) /\ mc_subs c1 = mc_subs c /\ mc_in c1 = rest /\
    mb_store b1 = put_partition (mb_store b) kt 0 (mkPS p' (ps_idempotence part)) /\
    mb_sent b1 = mb_sent b ++ map (pair pub) (publish_ack qos id) /\
    pt_inv p' bss' /\ mjoin bss' = mjoin bss ++ [stored] /\ decodes_as stored d /\
    rb_Records d = [message_record topic data] /\
    chain (pt_nextOffset (ps_log part)) [stored] (pt_nextOffset p') /\
    pt_nextOffset p' = pt_nextOffset (ps_log part) + 1 /\
    earliestOffsetLocked p' = earliestOffsetLocked (ps_log part) /\
    fits forward_bytes (orderedSegmentsLocked p').
Proof.
  intros kt pkt Hc Hst Hauth Hin Hok Hlen Hmax Hw Hget Hready Hnow.
  pose proof (packet_parses pkt Hok) as [Hty Hparse].
  assert (message_ok topic data) as Hmsg by (apply (publish_data_bound qos dup retain topic id); [done|by etrans]).
  unfold serve_client. rewrite Hc, Hst, Hin. cbn [negb].
  rewrite readMQTTPacket_frame by (unfold mqttMaxPacketBytes, max_remaining in *; lia). rewrite Hty.
  assert (mq_secure cfg && negb (mc_authed c) = false) as ->.
  { destruct (mq_secure cfg); [|done]. by rewrite Hauth. }
  cbn [andb]. cbv zeta. set (c1 := if _ : bool then end_handshake (set_in c rest) else set_in c rest).
  assert (mc_subs c1 = mc_subs c /\ mc_in c1 = rest /\ mc_principal c1 = mc_principal c) as (Hs1 & Hi1 & Hp1).
  { unfold c1. by destruct (_ && _). }
  set (b0 := set_client b pub c1).
  destruct (bridgePublish_spec b0 now topic data part bss Hget Hready Hmsg Hnow)
    as (p' & bss' & stored & d & Hpub & H').
  change (handle_packet cfg auth disk b0 pub c1 now mqttPublish (Z.land (b2z (packet_first pkt)) 15) (packet_payload pkt))
    with (handle_publish auth disk b0 pub c1 now (Z.land (b2z (packet_first pkt)) 15) (packet_payload pkt)).
  unfold handle_publish. rewrite Hparse, Hp1. fold kt. rewrite Hw, Hpub. cbn [negb]. unfold publish_ack.
  destruct Hok as (Hq & _). assert (qos = 0 \/ qos = 1 \/ qos = 2) as [-> | [-> | ->]] by lia; cbn [Z.eqb Pos.eqb Z.ltb Z.compare];
    eexists _, c1, p', bss', stored, d; (split; [reflexivity|]); (split; [reflexivity|]); (split; [exact Hs1|]);
    (split; [exact Hi1|]); (split; [reflexivity|]); (split; [|exact H']); (reflexivity || cbn; by rewrite app_nil_r).
Qed.

(** C26: a message published over MQTT reaches a subscriber. A connected client that
    may write sends a PUBLISH; a client subscribed with a matching filter, whose
    forwarder has caught up, is next given a round. The message is stored in the
    partition and acknowledged as its quality of service asks, and the subscriber
    is sent exactly one packet, a PUBLISH with the same topic and the same bytes
    that parses back, after which its forwarder stands at the new log end. *)
Theorem mqtt_end_to_end b now pub c1 sub c2 qos dup retain topic id data rest part bss fwd :
  let kt := mqttTopicToKafka topic in
  let pkt := PPublish qos dup retain topic id data in
  mb_conns b !! pub = Some c1 -> mc_started c1 = true -> (mq_secure cfg = true -> mc_authed c1 = true) ->
  mc_in c1 = frame (packet_first pkt) (packet_payload pkt) ++ rest -> packet_ok pkt ->
  zlen (packet_payload pkt) <= mc_maxLen c1 -> mc_maxLen c1 <= mqttMaxPacketBytes ->
  mqtt_authorize auth (mc_principal c1) OpWrite kt = true ->
  mb_conns b !! sub = Some c2 -> mc_subs c2 !! kt = Some fwd -> fwd_matches fwd topic = true ->
  GetPartition (mb_store b) kt 0 = Some part -> ready_log (ps_log part) bss ->
  fw_next fwd = pt_nextOffset (ps_log part) -> 0 <= now < 9223372036854775807 ->
  exists b1 b2 c2' packet first payload,
    serve_client cfg auth disk b pub now = Ok b1 /\
    mb_sent b1 = mb_sent b ++ map (pair pub) (publish_ack qos id) /\
    forward_step remote b1 sub kt = Ok b2 /\
    mb_sent b2 = mb_sent b1 ++ [(sub, packet)] /\
    mb_conns b2 !! sub = Some c2' /\
    mc_subs c2' !! kt = Some (mkForwarder (fw_filters fwd) (fw_next fwd + 1)) /\
    readMQTTPacket packet max_remaining = Ok (first, payload, []) /\
    Z.shiftr (b2z first) 4 = mqttPublish /\
    parsePublish (Z.land (b2z first) 15) payload = Ok (topic, data, 0, 0).
Proof.
  intros kt pkt Hc1 Hst Hauth Hin Hok Hlen Hmax Hw Hc2 Hsub Hmatch Hget Hready Hnext Hnow.
  destruct (serve_publish b now pub c1 qos dup retain topic id data rest part bss) as
    (b1 & c1' & p' & bss' & stored & d & Hserve & Hconns & Hsubs & _ & Hstore & Hsent & Hp' & Hj & Hd & Hrec & Hch & Hn & He & Hfit);
    try done.
  assert (message_ok topic data) as [Ht Hdata] by (apply (publish_data_bound qos dup retain topic id); [done|by etrans]).
  assert (exists c, mb_conns b1 !! sub = Some c /\ mc_subs c !! kt = Some fwd) as (c & Hc & Hf).
  { rewrite Hconns. destruct (decide (sub = pub)) as [->|Hne].
    - exists c1'. rewrite lookup_insert_eq. split; [done|]. rewrite Hsubs. by simplify_eq.
    - exists c2. by rewrite lookup_insert_ne. }
  pose proof (rl_inv _ _ Hready) as Hp. pose proof (rl_next _ _ Hready).
  destruct (segs_inv_chain _ _ _ _ (pi_segs _ _ Hp)) as [_ Hchain].
  pose proof (forward_message p' bss' (mjoin bss) stored d fwd kt topic data Hp' Hj Hd Hrec) as Hfwd.
  rewrite He, Hnext in Hfwd. specialize (Hfwd Hchain Hch ltac:(lia) Hfit Hmatch).
  set (payload := mqttPublishPayload topic data) in *.
  exists b1. unfold forward_step. rewrite Hc, Hf, Hstore, (put_get_same _ _ _ _ part) by done. cbn [ps_log].
  rewrite (pi_hwm _ _ Hp'), (proj2 (Z.leb_gt _ _)) by lia. rewrite Hfwd. cbn [obind].
  eexists _, _, (packet_bytes mqttPublish payload), (z2b (16 * mqttPublish)), payload.
  split; [exact Hserve|]. split; [exact Hsent|]. split; [reflexivity|]. split; [reflexivity|].
  split; [apply lookup_insert_eq|]. split; [|split; [|split; [done|]]].
  - cbn [mc_subs set_subs]. rewrite lookup_insert_eq. by rewrite Hn, Hnext.
  - rewrite <- (app_nil_r (packet_bytes _ _)). apply readMQTTPacket_frame; [|lia].
    unfold payload. rewrite mqttPublishPayload_layout by done. unfold publish_payload, mqtt_string, max_remaining.
    unfold mqttMaxPacketBytes, str16 in *. cbn [Z.ltb Z.compare]. autorewrite with zlen. lia.
  - unfold payload. rewrite mqttPublishPayload_layout by done. by apply parsePublish_payload.
Qed.
End messages.

(** ** The invariant of the connections *)

Section invariant.
Context (cfg : MqttConfig).
Context `{Authorizer A} (auth : option A).
Context (disk : gostring -> Z -> partition_dir).
Context (remote : option (gostring -> outcome (list byte))).

Definition fwd_ok (kt : gostring) (f : mqttForwarder) : Prop :=
  fw_filters f <> ∅ /\ forall filter, filter ∈ fw_filters f -> mqttFilterToKafka filter = kt.

(** What holds of a client between a CONNECT packet's arrival and its answer. *)
Record client_any (c : mqttClient) : Prop := {
  ca_len : 0 <= mc_maxLen c <= mqttMaxPacketBytes;
  ca_open : mq_secure cfg = false -> mc_started c = true -> mc_authed c = true;
  ca_user : mq_secure cfg = true -> mc_authed c = true ->
    exists u, u ∈ mq_users cfg /\ u_Username u = mc_principal c /\ mc_principal c <> [];
  ca_closed : mc_authed c = false -> mc_subs c = ∅ /\ mc_registered c = false;
  ca_subs : map_Forall fwd_ok (mc_subs c) }.

(** A client that is not authenticated has no subscription, is not listed, and
    can send packets of 64 kB at most. *)
Definition client_ok (c : mqttClient) : Prop :=
  client_any c /\ (mc_authed c = false -> mc_maxLen c = mqttMaxPreConnectBytes).

Record bridge_inv (b : MQTTBridge) : Prop := {
  bi_sem : mb_sem b = Z.of_nat (size (mb_conns b));
  bi_max : mb_sem b <= mqttMaxConnections;
  bi_clients : map_Forall (fun _ => client_ok) (mb_conns b) }.

Lemma set_client_inv b id c c0 :
  bridge_inv b -> mb_conns b !! id = Some c0 -> client_ok c -> bridge_inv (set_client b id c).
Proof.
  intros [Hs Hm Hc] Hid Hok. split; cbn; [|done|].
  - rewrite Hs, map_size_insert, Hid. done.
  - by apply map_Forall_insert_2.
Qed.

Lemma finish_client_inv b id c c0 :
  mb_sem b = Z.of_nat (size (mb_conns b)) -> mb_sem b <= mqttMaxConnections -> mb_conns b !! id = Some c0 ->
  (forall i c, i <> id -> mb_conns b !! i = Some c -> client_ok c) -> bridge_inv (finish_client b id c).
Proof.
  intros Hs Hm Hid Hc. split; cbn.
  - rewrite Hs, map_size_delete, Hid.
    assert (size (mb_conns b) <> 0%nat) by (intros E; apply map_size_empty_iff in E; by rewrite E in Hid). lia.
  - lia.
  - intros i c' [Hne Hi]%lookup_delete_Some. by apply (Hc i).
Qed.

(** A change of anything but the connections keeps the invariant. *)
Lemma same_conns_inv b b' :
  mb_conns b' = mb_conns b -> mb_sem b' = mb_sem b -> bridge_inv b -> bridge_inv b'.
Proof. intros Ec Es [Hs Hm Hc]. split; rewrite ?Ec, ?Es; done. Qed.

Lemma addSubscription_any c kt f start :
  client_any c -> mc_authed c = true -> mqttFilterToKafka f = kt -> client_any (addSubscription c kt f start).
Proof.
  intros [H1 H2 H3 H4 H5] Ha Hf. unfold addSubscription.
  destruct (mc_subs c !! kt) as [fwd|] eqn:E; split; cbn; try done; try (by rewrite Ha);
    apply map_Forall_insert_2; try done; split; cbn.
  - set_solver.
  - intros g [->%elem_of_singleton|Hg]%elem_of_union; [done|]. by apply (H5 _ _ E).
  - set_solver.
  - by intros g ->%elem_of_singleton.
Qed.

Lemma addSubscription_same c kt f start :
  let c' := addSubscription c kt f start in
  mc_authed c' = mc_authed c /\ mc_principal c' = mc_principal c /\ mc_maxLen c' = mc_maxLen c.
Proof. unfold addSubscription. by destruct (mc_subs c !! kt). Qed.

Lemma removeSubscription_ok c kt f : client_ok c -> client_ok (removeSubscription c kt f).
Proof.
  intros [[H1 H2 H3 H4 H5] H6]. unfold removeSubscription. destruct (mc_subs c !! kt) as [fwd|] eqn:E; [|done].
  assert (mc_authed c = true) as Ha.
  { destruct (mc_authed c); [done|]. destruct H4 as [H4 _]; [done|]. by rewrite H4 in E. }
  case_bool_decide; (split; [split; cbn; try done; try (by rewrite Ha)|done]).
  - by apply map_Forall_delete.
  - apply map_Forall_insert_2; [|done]. split; [done|]. cbn. intros g Hg. apply (H5 _ _ E). set_solver.
Qed.

Lemma subscribe_all_any s c filters s' c' :
  client_any c -> mc_authed c = true -> subscribe_all auth disk s c filters = Ok (s', c') ->
  client_any c' /\ mc_authed c' = true.
Proof.
  revert s c. induction filters as [|f r IH]; intros s c Hc Ha; cbn [subscribe_all].
  { by intros [<- <-]%(inj Ok)%pair_equal_spec. }
  destruct (negb _); [by apply IH|].
  destruct (if _ && _ then _ else _) as [s1|e|]; [|done|done]. cbn [obind].
  destruct (addSubscription_same c (mqttFilterToKafka f) f
              (match GetPartition s1 (mqttFilterToKafka f) 0 with
               | Some part => pt_highWatermark (ps_log part) | None => 0 end)) as (Hau & _).
  apply IH; [by apply addSubscription_any|by rewrite Hau].
Qed.

Lemma bridgePublish_conns b now topic data :
  let b' := (bridgePublish disk b now topic data).1 in mb_conns b' = mb_conns b /\ mb_sem b' = mb_sem b.
Proof.
  unfold bridgePublish. destruct (if bool_decide _ then _ else _) as [s|e|]; [|done|done].
  destruct (GetPartition s _ 0); [|done]. destruct (EncodeRecordBatch _); [|done|done].
  by destruct (Append _ _) as [q [o|e|]].
Qed.

Lemma handle_publish_inv b id c now flags pl b' :
  bridge_inv b -> handle_publish auth disk b id c now flags pl = Ok b' -> bridge_inv b'.
Proof.
  intros Hb. unfold handle_publish. destruct (parsePublish flags pl) as [[[[t d] q] i]|e|]; [|by intros [= <-]|done].
  destruct (negb _); [by intros [= <-]|]. pose proof (bridgePublish_conns b now t d) as [Hc Hs].
  destruct (bridgePublish disk b now t d) as [b1 [u|e|]]; cbn in Hc, Hs; [|intros <-%(inj Ok)|done].
  - assert (bridge_inv b1) as Hb1 by by apply (same_conns_inv b).
    destruct (q =? 1); [|destruct (q =? 2)]; intros <-%(inj Ok); [by apply (same_conns_inv b1)..|done].
  - by apply (same_conns_inv b).
Qed.

Lemma authenticate_user users info u :
  authenticate_loop users info = Some u -> exists x, x ∈ users /\ u_Username x = u /\ u <> [].
Proof.
  induction users as [|x r IH]; cbn [authenticate_loop]; [done|].
  destruct (bool_decide (u_Username x = [])) eqn:E1; cbn [orb].
  { intros H1. destruct (IH H1) as (y & ? & ?). exists y. split; [by right|done]. }
  destruct (negb _).
  { intros H1. destruct (IH H1) as (y & ? & ?). exists y. split; [by right|done]. }
  apply bool_decide_eq_false in E1. case_bool_decide; [done|]. destruct (Matches _ _); [|done].
  intros [= <-]. exists x. split; [by left|done].
Qed.

(** Every answer to a CONNECT keeps the invariant, whatever the client sent. *)
Lemma handle_connect_inv b id c c0 now pl b' :
  bridge_inv (set_client b id c0) -> client_any c -> mc_started c = true ->
  handle_connect cfg (set_client b id c) id c now pl = Ok b' -> bridge_inv b'.
Proof.
  intros [Hs Hm Hc] Hany Hst. unfold handle_connect. cbn [set_client mb_sem mb_conns] in *.
  assert (size (<[id := c]> (mb_conns b)) = size (<[id := c0]> (mb_conns b))) as Hsz by by rewrite !map_size_insert.
  assert (forall i x, i <> id -> (<[id := c]> (mb_conns b)) !! i = Some x -> client_ok x) as Hoth.
  { intros i x Hne Hi. apply (Hc i). cbn. by rewrite lookup_insert_ne in Hi |- * by done. }
  assert (forall b1, mb_conns b1 = <[id := c]> (mb_conns b) -> mb_sem b1 = mb_sem b ->
            bridge_inv (finish_client b1 id c)) as Hfin.
  { intros b1 E1 E2. apply (finish_client_inv b1 id c c); rewrite ?E1, ?E2, ?Hsz; try done. apply lookup_insert_eq. }
  assert (forall b1 x, mb_conns b1 = <[id := c]> (mb_conns b) -> mb_sem b1 = mb_sem b -> client_ok x ->
            bridge_inv (set_client b1 id x)) as Hset.
  { intros b1 x E1 E2 Hx. split; cbn; rewrite ?E1, ?E2, ?insert_insert_eq; [by rewrite Hs, !map_size_insert|done|].
    intros i y [[<- <-]|[Hne Hi]]%lookup_insert_Some; [done|]. apply (Hc i). by rewrite lookup_insert_ne. }
  destruct Hany as [H1 H2 H3 H4 H5].
  destruct (parseConnect pl) as [info|e|]; [|destruct (mq_secure cfg) eqn:Esec; intros <-%(inj Ok)|done].
  - destruct (mq_secure cfg) eqn:Esec.
    + destruct (_ && _); [intros <-%(inj Ok); by apply Hfin|].
      destruct (mqtt_authenticate cfg info) as [u|] eqn:Eu; intros <-%(inj Ok); [|by apply Hfin].
      apply Hset; [done..|]. apply authenticate_user in Eu as (x & Hx & Hn & Hne).
      split; [|done]. split; cbn; try done. intros _ _. by exists x.
    + intros <-%(inj Ok). apply Hset; [done..|]. specialize (H2 eq_refl Hst).
      split; [split; cbn|cbn]; (done || congruence).
  - by apply Hfin.
  - apply Hset; [done..|]. specialize (H2 eq_refl Hst). split; [split; cbn|cbn]; (done || congruence).
Qed.

Lemma handle_packet_inv b id c now ptype flags pl b' :
  bridge_inv b -> mb_conns b !! id = Some c -> client_ok c -> mc_authed c = true -> ptype <> mqttConnect ->
  handle_packet cfg auth disk b id c now ptype flags pl = Ok b' -> bridge_inv b'.
Proof.
  intros Hb Hid Hok Ha Hp. unfold handle_packet. rewrite (proj2 (Z.eqb_neq _ _)) by done.
  destruct (ptype =? mqttPublish); [by apply handle_publish_inv|].
  destruct (ptype =? mqttPubrel).
  { destruct (2 <=? zlen pl); intros <-%(inj Ok); [by apply (same_conns_inv b)|done]. }
  destruct (ptype =? mqttSubscribe).
  { unfold handle_subscribe. destruct (parseSubscribe pl) as [[i fs]|e|]; [|by intros [= <-]|done].
    destruct (subscribe_all _ _ _ _ _) as [[s c']|e|] eqn:E; [|done|done]. cbn [obind]. intros <-%(inj Ok).
    destruct (subscribe_all_any _ _ _ _ _ (proj1 Hok) Ha E) as [Hc' Ha'].
    apply (set_client_inv _ id c' c); [by apply (same_conns_inv b)|done|]. split; [done|]. by rewrite Ha'. }
  destruct (ptype =? mqttUnsubscribe).
  { unfold handle_unsubscribe. destruct (parseUnsubscribe pl) as [[i fs]|e|]; [|by intros [= <-]|done].
    intros <-%(inj Ok). apply (same_conns_inv (set_client b id
      (fold_left (fun c f => removeSubscription c (mqttFilterToKafka f) f) fs c))); [done..|].
    apply (set_client_inv _ id _ c); [done..|]. clear -Hok. revert c Hok.
    induction fs as [|f fs IH]; intros c Hok; [done|]. cbn. by apply IH, removeSubscription_ok. }
  destruct (ptype =? mqttPingreq); [intros <-%(inj Ok); by apply (same_conns_inv b)|].
  destruct (ptype =? mqttDisconnect); intros <-%(inj Ok); [|done].
  destruct Hb as [Hs Hm Hc]. apply (finish_client_inv b id c c); [done..|]. intros i x _. apply Hc.
Qed.

Lemma start_client_inv b id c now :
  bridge_inv b -> mb_conns b !! id = Some c -> bridge_inv (start_client cfg b id c now).
Proof.
  intros Hb Hid. unfold start_client. destruct (if mq_secure cfg then _ else _) as [l ok].
  destruct (negb ok).
  - destruct Hb as [Hs Hm Hc]. apply (finish_client_inv _ id c c); [done..|]. intros i x _. apply Hc.
  - apply (set_client_inv _ id _ c); [by apply (same_conns_inv b)|done|]. split; [|done]. split; cbn; try done.
    + by intros ->.
    + by intros ->.
Qed.

Lemma end_handshake_any c rest (e : bool) :
  client_any c -> client_any (if e then end_handshake (set_in c rest) else set_in c rest).
Proof. intros [H1 H2 H3 H4 H5]. destruct e; split; done. Qed.

Lemma serve_client_inv b id now b' :
  bridge_inv b -> serve_client cfg auth disk b id now = Ok b' -> bridge_inv b'.
Proof.
  intros Hb. unfold serve_client. destruct (mb_conns b !! id) as [c|] eqn:Hid; [|by intros <-%(inj Ok)].
  destruct (mc_started c) eqn:Hst; cbn [negb]; [|intros <-%(inj Ok); by apply start_client_inv].
  pose proof Hb as [Hs Hm Hc]. assert (client_ok c) as [Hany Hlen] by by apply (Hc id).
  destruct (readMQTTPacket _ _) as [[[first pl] rest]|e|]; [|intros <-%(inj Ok)|done].
  2: { apply (finish_client_inv b id c c); [done..|]. intros i x _. apply Hc. }
  set (ptype := Z.shiftr _ 4). set (flags := Z.land _ 15). destruct (_ && negb (ptype =? mqttConnect)) eqn:E.
  { intros <-%(inj Ok). apply (finish_client_inv b id c c); [done..|]. intros i x _. apply Hc. }
  set (e := mc_handshake _ && _). pose proof (end_handshake_any c rest e Hany) as Hany'.
  destruct (Z.eqb_spec ptype mqttConnect) as [Hp|Hp].
  - rewrite Hp. change (handle_packet ?a ?b ?c ?d ?e ?f ?g mqttConnect ?i ?j) with (handle_connect a d e f g j).
    apply (handle_connect_inv b id _ c); [|done|by destruct e].
    apply (set_client_inv b id c c); [done..|by split].
  - rewrite andb_true_r in E. assert (mc_authed c = true) as Ha.
    { destruct (mq_secure cfg) eqn:Es; cbn in E; [by destruct (mc_authed c)|]. by apply (ca_open _ Hany). }
    assert (mc_authed (if e then end_handshake (set_in c rest) else set_in c rest) = true) as Ha' by by destruct e.
    apply handle_packet_inv; [|apply lookup_insert_eq| |done|done].
    + apply (set_client_inv b id _ c); [done..|]. split; [done|]. by rewrite Ha'.
    + split; [done|]. by rewrite Ha'.
Qed.

Lemma forward_step_inv b id kt b' :
  bridge_inv b -> forward_step remote b id kt = Ok b' -> bridge_inv b'.
Proof.
  intros Hb. unfold forward_step. destruct (mb_conns b !! id) as [c|] eqn:Hid; [|by intros <-%(inj Ok)].
  destruct (mc_subs c !! kt) as [fwd|] eqn:Hf; [|by intros <-%(inj Ok)].
  destruct (GetPartition _ kt 0) as [part|]; [|by intros <-%(inj Ok)].
  destruct (_ <=? _); [by intros <-%(inj Ok)|].
  destruct (forwardOnce _ _ _ _) as [log [[next out]|e|]]; [|done|done]. cbn [obind]. intros <-%(inj Ok).
  pose proof (bi_clients _ Hb id c Hid) as [[H1 H2 H3 H4 H5] H6].
  assert (mc_authed c = true) as Ha.
  { destruct (mc_authed c); [done|]. destruct H4 as [H4 _]; [done|]. by rewrite H4 in Hf. }
  apply (same_conns_inv (set_client (set_store b (put_partition (mb_store b) kt 0 (mkPS log (ps_idempotence part)))) id
           (set_subs c (<[kt := mkForwarder (fw_filters fwd) next]> (mc_subs c))))); [done..|].
  apply (set_client_inv _ id _ c); [by apply (same_conns_inv b)|done|].
  split; [|done]. split; cbn; try done; [by rewrite Ha|]. apply map_Forall_insert_2; [|done].
  destruct (H5 _ _ Hf) as [? ?]. by split.
Qed.

Lemma mstep_inv b e b' : bridge_inv b -> mstep cfg auth disk remote b e = Ok b' -> bridge_inv b'.
Proof.
  intros Hb. destruct e as [id i input|id now|id kt|]; cbn [mstep].
  - case_bool_decide as Hn; intros <-%(inj Ok); [done|]. unfold accept_client.
    destruct (mb_closing b); [done|]. destruct (Z.ltb_spec (mb_sem b) mqttMaxConnections); [|done]. cbn [orb negb].
    destruct Hb as [Hs Hm Hc]. apply eq_None_not_Some in Hn. split; cbn.
    + rewrite map_size_insert, Hn. lia.
    + lia.
    + apply map_Forall_insert_2; [|done]. split; [|done]. by split.
  - by apply serve_client_inv.
  - by apply forward_step_inv.
  - intros <-%(inj Ok). destruct Hb as [Hs Hm Hc]. split; cbn; [by rewrite map_size_fmap|done|].
    intros i c. rewrite lookup_fmap_Some. intros (c0 & <- & H0). destruct (Hc _ _ H0) as [[H1 H2 H3 H4 H5] H6].
    split; [by split|done].
Qed.

Lemma mrun_inv b0 es b : bridge_inv b0 -> mrun cfg auth disk remote b0 es = Ok b -> bridge_inv b.
Proof.
  revert b0. induction es as [|e es IH]; intros b0 H0; cbn [mrun]; [by intros <-%(inj Ok)|].
  destruct (mstep cfg auth disk remote b0 e) as [b1|err|] eqn:E; [|done|done]. cbn [obind].
  apply IH. by apply (mstep_inv b0 e).
Qed.

(** The bridge's connections stay within bounds and behind their login. After
    any run of accepts, packets of any content, forwarding rounds and a close,
    there are as many connections as tokens taken and at most 1024; with security
    on, a connection that has not logged in has no subscription, is not listed as
    a client and can make the bridge buffer 64 kB at most (1 MB otherwise), and
    one that has logged in carries the name of a configured user; every
    subscription has filters, all of them routed to its Kafka topic. *)
Theorem mqtt_invariant s es b : mrun cfg auth disk remote (NewMQTTBridge s) es = Ok b -> bridge_inv b.
Proof. apply mrun_inv. by split. Qed.
End invariant.

(** ** Who can change and read a topic *)

Section isolation.
Context (cfg : MqttConfig).
Context `{Authorizer A} (auth : option A).
Context (disk : gostring -> Z -> partition_dir).
Context (remote : option (gostring -> outcome (list byte))).

Definition may (c : mqttClient) (op t : gostring) : Prop := mqtt_authorize auth (mc_principal c) op t = true.

(** What handling a packet of client [c] may do: change topics [c] may write, and
    give [c] subscriptions it may read; other connections are left alone. *)
Record allowed (b : MQTTBridge) (id : Z) (c : mqttClient) (b' : MQTTBridge) : Prop := {
  al_topics : forall t, GetTopic (mb_store b') t <> GetTopic (mb_store b) t -> may c OpWrite t;
  al_others : forall i, i <> id -> mb_conns b' !! i = mb_conns b !! i;
  al_subs : forall c' kt, mb_conns b' !! id = Some c' -> is_Some (mc_subs c' !! kt) ->
              is_Some (mc_subs c !! kt) \/ may c OpRead kt }.

Lemma ensure_one_other s kt s' t : ensure_one disk s kt = Ok s' -> kt <> t -> GetTopic s' t = GetTopic s t.
Proof.
  unfold ensure_one. intros He Hne. pose proof (EnsureTopic_other t s (disk kt) kt 1 Hne) as Ho.
  destruct (EnsureTopic s (disk kt) kt 1) as [s1 [x|e|]]; cbn in Ho; simplify_eq; done.
Qed.

Lemma bridgePublish_other b now topic data t :
  mqttTopicToKafka topic <> t ->
  GetTopic (mb_store (bridgePublish disk b now topic data).1) t = GetTopic (mb_store b) t.
Proof.
  intros Hne. unfold bridgePublish. set (kt := mqttTopicToKafka topic) in *.
  destruct (if bool_decide _ then _ else _) as [s|e|] eqn:E; [|done|done].
  assert (GetTopic s t = GetTopic (mb_store b) t) as Hs.
  { destruct (bool_decide _); [by apply (ensure_one_other _ kt)|by apply (inj Ok) in E as ->]. }
  destruct (GetPartition s kt 0) as [part|]; [|done]. destruct (EncodeRecordBatch _); [|done|done].
  destruct (Append _ _) as [q [o|e|]]; cbn; by rewrite put_get_topic by congruence.
Qed.

Lemma subscribe_all_allowed s c filters s' c' :
  subscribe_all auth disk s c filters = Ok (s', c') ->
  (forall t, GetTopic s' t <> GetTopic s t -> may c OpWrite t) /\
  (forall kt, is_Some (mc_subs c' !! kt) -> is_Some (mc_subs c !! kt) \/ may c OpRead kt).
Proof.
  revert s c. induction filters as [|f r IH]; intros s c; cbn [subscribe_all].
  { intros [<- <-]%(inj Ok)%pair_equal_spec. by split; [|left]. }
  destruct (mqtt_authorize auth (mc_principal c) OpRead (mqttFilterToKafka f)) eqn:Er; cbn [negb]; [|by apply IH].
  set (kt := mqttFilterToKafka f) in *.
  destruct (if _ && _ then _ else _) as [s1|e|] eqn:E1; [|done|done]. cbn [obind].
  match goal with |- context [addSubscription c kt f ?x] => set (start := x) end. intros Hr. apply IH in Hr as [Ht Hs]. destruct (addSubscription_same c kt f start) as (_ & Hp & _).
  unfold may in *. rewrite Hp in Ht, Hs. split.
  - intros t Hne. destruct (_ && _) eqn:Ec; [|apply (inj Ok) in E1 as ->; by apply Ht].
    destruct (decide (kt = t)) as [<-|Hkt]; [by apply andb_true_iff in Ec as [_ ?]|].
    apply Ht. by rewrite (ensure_one_other s kt s1 t).
  - intros k Hk. destruct (Hs k Hk) as [H1|H1]; [|by right].
    destruct (decide (k = kt)) as [->|Hne]; [by right|]. left. revert H1. unfold addSubscription.
    destruct (mc_subs c !! kt); cbn; by rewrite lookup_insert_ne.
Qed.

Lemma removeSubscription_subs c kt f k :
  is_Some (mc_subs (removeSubscription c kt f) !! k) -> is_Some (mc_subs c !! k).
Proof.
  unfold removeSubscription. destruct (mc_subs c !! kt) as [fwd|] eqn:E; [|done].
  case_bool_decide; cbn; (destruct (decide (k = kt)) as [->|Hne]; [by rewrite E|]).
  - by rewrite lookup_delete_ne.
  - by rewrite lookup_insert_ne.
Qed.

Lemma handle_packet_allowed b id c now ptype flags pl b' :
  mb_conns b !! id = Some c -> handle_packet cfg auth disk b id c now ptype flags pl = Ok b' -> allowed b id c b'.
Proof.
  intros Hid. unfold handle_packet.
  assert (allowed b id c b) as Hsame.
  { split; [done|done|]. intros c' kt Hc Hk. left. by simplify_eq. }
  assert (forall b1, mb_store b1 = mb_store b -> mb_conns b1 = mb_conns b -> allowed b id c b1) as Hkeep.
  { intros b1 E1 E2. split; rewrite ?E1, ?E2; [done|done|]. intros c' kt Hc Hk. left. by simplify_eq. }
  assert (forall b1, mb_store b1 = mb_store b -> mb_conns b1 = mb_conns b -> allowed b id c (finish_client b1 id c)) as Hfin.
  { intros b1 E1 E2. split; cbn; rewrite ?E1, ?E2; [done| |].
    - intros i Hi. by rewrite lookup_delete_ne.
    - intros c' kt Hc. by rewrite lookup_delete_eq in Hc. }
  assert (forall b1 c1, mb_store b1 = mb_store b -> mb_conns b1 = mb_conns b -> mc_subs c1 = mc_subs c ->
            allowed b id c (set_client b1 id c1)) as Hset.
  { intros b1 c1 E1 E2 E3. split; cbn; rewrite ?E1, ?E2; [done| |].
    - intros i Hi. by rewrite lookup_insert_ne.
    - intros c' kt Hc. rewrite lookup_insert_eq in Hc. simplify_eq. rewrite E3. by left. }
  destruct (ptype =? mqttConnect).
  { unfold handle_connect. destruct (parseConnect pl) as [info|e|]; [|destruct (mq_secure cfg); intros <-%(inj Ok)|done].
    - destruct (mq_secure cfg); [|intros <-%(inj Ok); by apply Hset].
      destruct (_ && _); [intros <-%(inj Ok); by apply Hfin|].
      destruct (mqtt_authenticate cfg info); intros <-%(inj Ok); [by apply Hset|by apply Hfin].
    - by apply Hfin.
    - by apply Hset. }
  destruct (ptype =? mqttPublish).
  { unfold handle_publish. destruct (parsePublish flags pl) as [[[[t d] q] i]|e|]; [|by intros <-%(inj Ok)|done].
    destruct (mqtt_authorize auth _ OpWrite _) eqn:Ew; cbn [negb]; [|by intros <-%(inj Ok)].
    pose proof (bridgePublish_conns disk b now t d) as [Hc _].
    pose proof (fun t' => bridgePublish_other b now t d t') as Ho.
    destruct (bridgePublish disk b now t d) as [b1 r]; cbn in Hc, Ho.
    assert (forall b2, mb_store b2 = mb_store b1 -> mb_conns b2 = mb_conns b1 -> allowed b id c b2) as Hpub.
    { intros b2 E1 E2. split; rewrite ?E1, ?E2, ?Hc; [|done|intros c' kt Hk; left; by simplify_eq].
      intros t' Hne. destruct (decide (mqttTopicToKafka t = t')) as [<-|Hn]; [done|]. by rewrite Ho in Hne. }
    destruct r as [u|e|]; [|intros <-%(inj Ok); by apply Hpub|done].
    destruct (q =? 1); [|destruct (q =? 2)]; intros <-%(inj Ok); by apply Hpub. }
  destruct (ptype =? mqttPubrel); [destruct (2 <=? zlen pl); intros <-%(inj Ok); by apply Hkeep|].
  destruct (ptype =? mqttSubscribe).
  { unfold handle_subscribe. destruct (parseSubscribe pl) as [[i fs]|e|]; [|by intros <-%(inj Ok)|done].
    destruct (subscribe_all _ _ _ _ _) as [[s c']|e|] eqn:E; [|done|done]. cbn [obind]. intros <-%(inj Ok).
    apply subscribe_all_allowed in E as [Ht Hs]. split; cbn; [exact Ht| |].
    - intros j Hj. by rewrite lookup_insert_ne.
    - intros c1 kt Hc1. rewrite lookup_insert_eq in Hc1. simplify_eq. apply Hs. }
  destruct (ptype =? mqttUnsubscribe).
  { unfold handle_unsubscribe. destruct (parseUnsubscribe pl) as [[i fs]|e|]; [|by intros <-%(inj Ok)|done].
    intros <-%(inj Ok). split; cbn; [done| |].
    - intros j Hj. by rewrite lookup_insert_ne.
    - intros c1 kt Hc1. rewrite lookup_insert_eq in Hc1. simplify_eq. intros Hk. left. revert Hk. clear.
      revert c. induction fs as [|f fs IH]; intros c; [done|]. cbn. intros Hk. by apply IH, removeSubscription_subs in Hk. }
  destruct (ptype =? mqttPingreq); [intros <-%(inj Ok); by apply Hkeep|].
  destruct (ptype =? mqttDisconnect); intros <-%(inj Ok); [by apply Hfin|done].
Qed.

(** The same with the login: a client that is not authenticated changes nothing. *)
Definition respects (b : MQTTBridge) (id : Z) (c : mqttClient) (b' : MQTTBridge) : Prop :=
  (forall t, GetTopic (mb_store b') t <> GetTopic (mb_store b) t -> mc_authed c = true /\ may c OpWrite t) /\
  (forall i, i <> id -> mb_conns b' !! i = mb_conns b !! i) /\
  (forall c' kt, mb_conns b' !! id = Some c' -> is_Some (mc_subs c' !! kt) ->
     is_Some (mc_subs c !! kt) \/ (mc_authed c = true /\ may c OpRead kt)).

Lemma respects_keep b id c b' :
  mb_store b' = mb_store b -> (forall i, i <> id -> mb_conns b' !! i = mb_conns b !! i) ->
  (forall c', mb_conns b' !! id = Some c' -> mc_subs c' ⊆ mc_subs c) -> respects b id c b'.
Proof.
  intros E1 E2 E3. unfold respects. rewrite E1. split_and!; [done|done|]. intros c' kt Hc [f Hk]. left.
  exists f. by apply (lookup_weaken _ _ _ _ Hk), E3.
Qed.

Lemma finish_respects b b1 id c c1 :
  mb_store b1 = mb_store b -> (forall i, i <> id -> mb_conns b1 !! i = mb_conns b !! i) ->
  respects b id c (finish_client b1 id c1).
Proof.
  intros E1 E2. apply respects_keep; cbn; [done| |].
  - intros i Hi. rewrite lookup_delete_ne by done. by apply E2.
  - intros c' Hc. by rewrite lookup_delete_eq in Hc.
Qed.

Lemma set_respects b b1 id c c1 :
  mb_store b1 = mb_store b -> (forall i, i <> id -> mb_conns b1 !! i = mb_conns b !! i) ->
  mc_subs c1 ⊆ mc_subs c -> respects b id c (set_client b1 id c1).
Proof.
  intros E1 E2 E3. apply respects_keep; cbn; [done| |].
  - intros i Hi. rewrite lookup_insert_ne by done. by apply E2.
  - intros c' Hc. rewrite lookup_insert_eq in Hc. by simplify_eq.
Qed.

Lemma handle_connect_respects b b1 id c c1 now pl b' :
  mb_store b1 = mb_store b -> (forall i, i <> id -> mb_conns b1 !! i = mb_conns b !! i) ->
  mc_subs c1 ⊆ mc_subs c -> handle_connect cfg b1 id c1 now pl = Ok b' -> respects b id c b'.
Proof.
  intros E1 E2 E3. unfold handle_connect.
  destruct (parseConnect pl) as [info|e|]; [|destruct (mq_secure cfg); intros <-%(inj Ok)|done].
  - destruct (mq_secure cfg); [|intros <-%(inj Ok); by apply set_respects].
    destruct (_ && _); [intros <-%(inj Ok); by apply finish_respects|].
    destruct (mqtt_authenticate cfg info); intros <-%(inj Ok); [by apply set_respects|by apply finish_respects].
  - by apply finish_respects.
  - by apply set_respects.
Qed.

Lemma serve_client_respects b id now b' c :
  bridge_inv cfg b -> mb_conns b !! id = Some c -> serve_client cfg auth disk b id now = Ok b' -> respects b id c b'.
Proof.
  intros Hb Hid. unfold serve_client. rewrite Hid.
  destruct (mc_started c) eqn:Hst; cbn [negb].
  2: { intros <-%(inj Ok). unfold start_client. destruct (if mq_secure cfg then _ else _) as [l ok].
       destruct ok; [by apply set_respects; [..|apply map_empty_subseteq]|by apply finish_respects]. }
  destruct (readMQTTPacket _ _) as [[[first pl] rest]|e|]; [|intros <-%(inj Ok); by apply finish_respects|done].
  set (ptype := Z.shiftr _ 4). set (flags := Z.land _ 15).
  destruct (_ && negb (ptype =? mqttConnect)) eqn:E; [intros <-%(inj Ok); by apply finish_respects|].
  set (e := mc_handshake _ && _). set (c1 := if e then end_handshake (set_in c rest) else set_in c rest). intros Hh.
  assert (mc_principal c1 = mc_principal c /\ mc_subs c1 = mc_subs c) as [Hp Hs] by (unfold c1; by destruct e).
  assert (forall i, i <> id -> mb_conns (set_client b id c1) !! i = mb_conns b !! i) as Hoth
    by (intros i Hi; cbn; by rewrite lookup_insert_ne).
  pose proof (bi_clients _ _ Hb id c Hid) as [Hany _]. destruct (Z.eqb_spec ptype mqttConnect) as [Hc|Hc].
  - rewrite Hc in Hh. apply (handle_connect_respects b (set_client b id c1) id c c1 now pl); [done..|by rewrite Hs|done].
  - assert (mc_authed c = true) as Ha.
    { rewrite andb_true_r in E. destruct (mq_secure cfg) eqn:Es; cbn in E; [by destruct (mc_authed c)|].
      by apply (ca_open _ _ Hany). }
    destruct (handle_packet_allowed (set_client b id c1) id c1 now ptype flags pl b' (lookup_insert_eq _ _ _) Hh)
      as [Ht Ho Hsub]. unfold respects, may in *. rewrite Hp in *. rewrite Hs in Hsub.
    split_and!; [by split; [|apply Ht]|by intros i Hi; rewrite Ho, Hoth|].
    intros c' kt Hc' Hk. destruct (Hsub c' kt Hc' Hk) as [H1|H1]; [by left|by right].
Qed.

(** A step that changes no topic and adds no subscription. *)
Definition quiet (b b' : MQTTBridge) : Prop :=
  mb_store b' = mb_store b /\
  forall j c' kt, mb_conns b' !! j = Some c' -> is_Some (mc_subs c' !! kt) ->
    exists c, mb_conns b !! j = Some c /\ is_Some (mc_subs c !! kt).

Lemma quiet_refl b : quiet b b.
Proof. split; [done|]. intros j c' kt Hj Hk. by exists c'. Qed.

Lemma accept_quiet b id i input : quiet b (accept_client b id i input).
Proof.
  unfold accept_client. destruct (_ || _); [apply quiet_refl|]. split; [done|]. cbn.
  intros j c' kt [[<- <-]|[_ Hj]]%lookup_insert_Some Hk; [|by exists c']. cbn in Hk. by destruct Hk.
Qed.

Lemma close_quiet b : quiet b (close_bridge b).
Proof.
  split; [done|]. cbn. intros j c' kt. rewrite lookup_fmap_Some. intros (c & <- & Hj) Hk. by exists c.
Qed.

(** A forwarding round only changes the topic it forwards and adds nothing. *)
Lemma forward_step_effect b id kt b' :
  forward_step remote b id kt = Ok b' ->
  quiet b b' \/
  exists c, mb_conns b !! id = Some c /\ is_Some (mc_subs c !! kt) /\
    (forall t, t <> kt -> GetTopic (mb_store b') t = GetTopic (mb_store b) t) /\
    (forall j c' k, mb_conns b' !! j = Some c' -> is_Some (mc_subs c' !! k) ->
       exists c, mb_conns b !! j = Some c /\ is_Some (mc_subs c !! k)).
Proof.
  unfold forward_step. destruct (mb_conns b !! id) as [c|] eqn:Hid; [|intros <-%(inj Ok); left; apply quiet_refl].
  destruct (mc_subs c !! kt) as [fwd|] eqn:Hf; [|intros <-%(inj Ok); left; apply quiet_refl].
  destruct (GetPartition _ kt 0) as [part|]; [|intros <-%(inj Ok); left; apply quiet_refl].
  destruct (_ <=? _); [intros <-%(inj Ok); left; apply quiet_refl|].
  destruct (forwardOnce _ _ _ _) as [log [[next out]|e|]]; [|done|done]. cbn [obind]. intros <-%(inj Ok).
  right. exists c. cbn. split_and!; [done|by rewrite Hf| |].
  - intros t Ht. by rewrite put_get_topic.
  - intros j c' k [[<- <-]|[_ Hj]]%lookup_insert_Some Hk; [|by exists c']. exists c. split; [done|]. cbn in Hk.
    destruct (decide (k = kt)) as [->|Hne]; [by rewrite Hf|]. by rewrite lookup_insert_ne in Hk.
Qed.

(** C27: MQTT clients stay within their rights. In any run of the bridge, a step
    that changes a topic of the store is a packet from a connection that is
    logged in (when security is on) as a principal with write permission on that
    topic, or the forwarding of that topic to a connection subscribed to it; and
    a connection only gets a new subscription by a packet of its own, sent when
    logged in as a principal with read permission on the topic. *)
Theorem mqtt_isolation s es b e b' :
  mrun cfg auth disk remote (NewMQTTBridge s) es = Ok b -> mstep cfg auth disk remote b e = Ok b' ->
  (forall t, GetTopic (mb_store b') t <> GetTopic (mb_store b) t ->
     exists id c, mb_conns b !! id = Some c /\
       ((exists now, e = MServe id now) /\ mc_authed c = true /\ may c OpWrite t \/
        e = MForward id t /\ is_Some (mc_subs c !! t))) /\
  (forall id c' kt, mb_conns b' !! id = Some c' -> is_Some (mc_subs c' !! kt) ->
     exists c, mb_conns b !! id = Some c /\
       (is_Some (mc_subs c !! kt) \/ (exists now, e = MServe id now) /\ mc_authed c = true /\ may c OpRead kt)).
Proof.
  intros Hrun Hstep. assert (bridge_inv cfg b) as Hb by (eapply mrun_inv; [|exact Hrun]; by split). clear Hrun.
  match goal with |- ?G => assert (quiet b b' -> G) as Hquiet end.
  { intros [Hs Hc]. rewrite Hs. split; [done|]. intros j c' kt Hj Hk.
    destruct (Hc j c' kt Hj Hk) as (c0 & ? & ?). exists c0. by split; [|left]. }
  destruct e as [id i input|id now|id kt|]; cbn [mstep] in Hstep.
  - apply Hquiet. case_bool_decide; apply (inj Ok) in Hstep as <-; [apply quiet_refl|apply accept_quiet].
  - destruct (mb_conns b !! id) as [c|] eqn:Hid.
    2: { apply Hquiet. unfold serve_client in Hstep. rewrite Hid in Hstep. apply (inj Ok) in Hstep as <-. apply quiet_refl. }
    destruct (serve_client_respects b id now b' c Hb Hid Hstep) as (Ht & Ho & Hsub). split.
    + intros t Hne. exists id, c. split; [done|]. left. split; [by exists now|]. by apply Ht.
    + intros j c' kt Hj Hk. destruct (decide (j = id)) as [->|Hne].
      * exists c. split; [done|]. destruct (Hsub c' kt Hj Hk) as [?|?]; [by left|right]. split; [by exists now|done].
      * rewrite Ho in Hj by done. exists c'. by split; [|left].
  - destruct (forward_step_effect b id kt b' Hstep) as [Hq|(c & Hid & Hk & Ht & Hs)]; [by apply Hquiet|]. split.
    + intros t Hne. destruct (decide (t = kt)) as [->|Hn]; [|by rewrite Ht in Hne]. exists id, c. split; [done|by right].
    + intros j c' k Hj Hk'. destruct (Hs j c' k Hj Hk') as (c0 & ? & ?). exists c0. by split; [|left].
  - apply Hquiet. apply (inj Ok) in Hstep as <-. apply close_quiet.
Qed.
End isolation.

(** ** No packet crashes the bridge *)

Section safety.
Context (cfg : MqttConfig).
Context `{Authorizer A} (auth : option A).
Context (disk : gostring -> Z -> partition_dir).
Context (Hdisk : forall kt i, disk kt i = empty_dir).

(** Every partition of the store is one the storage engine keeps. *)
Definition store_ok (s : Store) : Prop :=
  0 < st_maxSegmentBytes s /\
  forall t pid part, GetPartition s t pid = Some part -> exists bss, pt_inv (ps_log part) bss.

Lemma append_no_panic a raw : is_Some (seg_index a) -> append a raw <> Panic.
Proof.
  intros [idx Hi]. unfold append, ParseRecordBatchHeader. destruct (_ <? _); [done|]. destruct (negb _); [done|].
  cbn [obind]. destruct (_ <? _); [done|]. rewrite Hi. by destruct (seg_log a).
Qed.

Lemma append_active_no_panic p a raw :
  pt_active p = Some a -> is_Some (seg_index a) -> (append_active p raw).2 <> Panic.
Proof.
  intros Ha Hi. unfold append_active. rewrite Ha. pose proof (append_no_panic a raw Hi).
  by destruct (append a raw) as [[o a']|e|].
Qed.

Lemma Append_no_panic p bss raw : pt_inv p bss -> (Append p raw).2 <> Panic.
Proof.
  intros Hp. destruct (pt_inv_active p bss Hp) as (a & bssc & bsa & Ha & -> & Hc & Hs & Hm & Hn & _ & _).
  unfold Append. rewrite Ha. destruct (full a) eqn:Hf.
  - rewrite (roll_step p a bssc bsa) by done. by eapply append_active_no_panic.
  - apply (append_active_no_panic p a); [done|]. destruct (si_index _ _ Hs) as (idx & -> & _). done.
Qed.

Lemma ensure_one_ok s kt : store_ok s -> exists s', ensure_one disk s kt = Ok s' /\ store_ok s'.
Proof.
  intros [Hm Hs]. unfold ensure_one, EnsureTopic. destruct (ValidateTopicName kt) as [u|e|] eqn:E; [|by exists s|].
  - destruct (st_topics s !! kt) eqn:Et; [by exists s|]. cbv zeta.
    change (if 1 <=? 0 then 1 else 1) with 1.
    destruct (createLocked_spec s (disk kt) kt 1 (Hdisk kt) ltac:(lia)) as (ps & -> & Hps).
    eexists. split; [done|]. split; [done|]. intros t pid part. unfold GetPartition. cbn.
    destruct (decide (t = kt)) as [->|Hne].
    + rewrite lookup_insert_eq. cbn. rewrite Hps. destruct (_ && _); [|done]. intros [= <-].
      exists [[]]. by apply fresh_partition_inv.
    + rewrite lookup_insert_ne by done. apply (Hs t pid part).
  - exfalso. revert E. unfold ValidateTopicName. repeat (case_match; try done).
Qed.

Lemma subscribe_all_ok s c filters :
  store_ok s -> exists s' c', subscribe_all auth disk s c filters = Ok (s', c').
Proof.
  revert s c. induction filters as [|f r IH]; intros s c Hs; cbn [subscribe_all]; [by eexists _, _|].
  destruct (negb _); [by apply IH|]. destruct (_ && _); cbn [obind]; [|by apply IH].
  destruct (ensure_one_ok s (mqttFilterToKafka f) Hs) as (s' & -> & Hs'). cbn [obind]. by apply IH.
Qed.

Lemma bridgePublish_ok b now topic data :
  store_ok (mb_store b) -> message_ok topic data -> 0 <= now < 9223372036854775807 ->
  (bridgePublish disk b now topic data).2 <> Panic.
Proof.
  intros Hs Hm Hnow. unfold bridgePublish. set (kt := mqttTopicToKafka topic).
  assert (exists s', (if bool_decide (GetTopic (mb_store b) kt = None) then ensure_one disk (mb_store b) kt
                      else Ok (mb_store b)) = Ok s' /\ store_ok s') as (s' & -> & Hs').
  { case_bool_decide; [by apply ensure_one_ok|by exists (mb_store b)]. }
  destruct (GetPartition s' kt 0) as [part|] eqn:Hp; [|done].
  pose proof (bridge_batch_wf (now / millisecond) topic data Hm (now_ms now Hnow)) as Hw.
  rewrite (EncodeRecordBatch_layout _ Hw). destruct Hs' as [_ Hs']. destruct (Hs' kt 0 part Hp) as [bss Hi].
  match goal with |- context [Append _ ?raw] => pose proof (Append_no_panic (ps_log part) bss raw Hi) as Ha end.
  by destruct (Append _ _) as [q [o|e|]].
Qed.

(** The payload a client can make the bridge parse is no longer than its limit. *)
Lemma readMQTTPacket_bound input maxLen first pl rest :
  readMQTTPacket input maxLen = Ok (first, pl, rest) -> zlen pl <= maxLen.
Proof.
  destruct input as [|f r]; [done|]. cbn [readMQTTPacket].
  destruct (readRemainingLength r) as [[n r']|e|]; [|done|done]. cbn [obind].
  destruct (Z.ltb_spec n 0); [done|]. destruct (Z.ltb_spec maxLen n); [done|]. cbn [orb].
  destruct (Z.ltb_spec (zlen r') n); [done|]. intros [[<- <-]%pair_equal_spec <-]%(inj Ok)%pair_equal_spec.
  rewrite zlen_sub; lia.
Qed.

Lemma parsePublish_bound flags pl topic data q i :
  parsePublish flags pl = Ok (topic, data, q, i) -> str16 topic /\ zlen data <= zlen pl.
Proof.
  unfold parsePublish. destruct (Z.ltb_spec (zlen pl) 2); [done|]. destruct (_ =? 3); [done|].
  rewrite slice_ok by lia. cbn [obind]. pose proof (ube_range (sub pl 0 2)) as Hn. rewrite zlen_sub in Hn by lia.
  change (2 ^ (8 * (2 - 0))) with 65536 in Hn. set (n := ube _) in *.
  destruct (Z.ltb_spec (zlen pl) (2 + n)); [done|]. rewrite !slice_ok by lia. cbn [obind]. unfold str16.
  assert (zlen (sub pl (2 + n) (zlen pl)) = zlen pl - (2 + n)) as Hd by (rewrite zlen_sub; lia).
  destruct (0 <? _).
  - destruct (Z.ltb_spec (zlen (sub pl (2 + n) (zlen pl))) 2); [done|]. rewrite !slice_ok by lia. cbn [obind].
    intros [[[<- <-]%pair_equal_spec _]%pair_equal_spec _]%(inj Ok)%pair_equal_spec. rewrite !zlen_sub; lia.
  - intros [[[<- <-]%pair_equal_spec _]%pair_equal_spec _]%(inj Ok)%pair_equal_spec. rewrite !zlen_sub; lia.
Qed.

(** No packet crashes the bridge. Whatever bytes a client sends, in whatever
    state its connection is, handling its next packet returns: it never indexes
    a packet out of range, never loops and never makes the storage engine panic,
    as long as the store's partitions are ones the engine keeps. *)
Theorem mqtt_cannot_crash b id now :
  bridge_inv cfg b -> store_ok (mb_store b) -> 0 <= now < 9223372036854775807 ->
  exists b', serve_client cfg auth disk b id now = Ok b'.
Proof.
  intros Hb Hs Hnow. unfold serve_client. destruct (mb_conns b !! id) as [c|] eqn:Hid; [|by eexists].
  destruct (negb (mc_started c)); [by eexists|].
  pose proof (readMQTTPacket_total (mc_in c) (mc_maxLen c)) as Ht.
  destruct (readMQTTPacket _ _) as [[[first pl] rest]|e|] eqn:Er; [|by eexists|done]. clear Ht.
  apply readMQTTPacket_bound in Er. pose proof (bi_clients _ _ Hb id c Hid) as [[Hlen _ _ _ _] _].
  destruct (_ && _ && _); [by eexists|]. set (c1 := if _ && _ then _ else _). clearbody c1.
  unfold handle_packet. destruct (_ =? mqttConnect).
  { unfold handle_connect. pose proof (parseConnect_total pl) as Hp. destruct (parseConnect pl); [| |done].
    - destruct (mq_secure cfg); [|by eexists]. destruct (_ && _); [by eexists|]. by destruct (mqtt_authenticate _ _); eexists.
    - by destruct (mq_secure cfg); eexists. }
  destruct (_ =? mqttPublish).
  { unfold handle_publish. pose proof (parsePublish_total (Z.land (b2z first) 15) pl) as Hp.
    destruct (parsePublish _ pl) as [[[[t d] q] i]|e|] eqn:Ep; [|by eexists|done].
    destruct (negb _); [by eexists|]. apply parsePublish_bound in Ep as [Htop Hd].
    pose proof (bridgePublish_ok (set_client b id c1) now t d Hs) as Hnp.
    destruct (bridgePublish _ _ _ _ _) as [b1 [u|e|]]; [|by eexists|].
    - destruct (q =? 1); [by eexists|]. by destruct (q =? 2); eexists.
    - exfalso. apply Hnp; [split; [done|lia]|done|done]. }
  destruct (_ =? mqttPubrel); [by destruct (2 <=? zlen pl); eexists|].
  destruct (_ =? mqttSubscribe).
  { unfold handle_subscribe. pose proof (parseSubscribe_total pl) as Hp.
    destruct (parseSubscribe pl) as [[i fs]|e|]; [|by eexists|done].
    destruct (subscribe_all_ok (mb_store b) c1 fs Hs) as (s' & c' & E). cbn [writePacket set_client mb_store].
    rewrite E. by eexists. }
  destruct (_ =? mqttUnsubscribe).
  { unfold handle_unsubscribe. pose proof (parseUnsubscribe_total pl) as Hp.
    destruct (parseUnsubscribe pl) as [[i fs]|e|]; [by eexists|by eexists|done]. }
  destruct (_ =? mqttPingreq); [by eexists|]. by destruct (_ =? mqttDisconnect); eexists.
Qed.
End safety.

(** ** Witnesses *)

Definition mqtt_demo_store : Store := (CreateTopic demo_store (fun _ => empty_dir) (str "mqtt-sensors") 1).1.
Definition mqtt_demo_info : connInfo := mkInfo (str "10.0.0.7:50123") 1883 None.
Definition mqtt_demo_cfg : MqttConfig := mkMqttConfig true [mkUser (str "ada") (str "secret") [] []] false.
Definition mqtt_demo_disk (_ : gostring) (_ : Z) : partition_dir := empty_dir.
Definition mqtt_demo_publish : packet := PPublish 1 0 0 (str "sensors/d7/temp") 7 (str "21.5").
Definition packet_frame (p : packet) : list byte := frame (packet_first p) (packet_payload p).

Definition mqtt_demo_pub : mqttClient :=
  mkMqttClient (str "d7") mqtt_demo_info true false mqttMaxPacketBytes (str "ada") true true ∅
    (packet_frame mqtt_demo_publish).
Definition mqtt_demo_fwd : mqttForwarder := mkForwarder {[str "sensors/+/temp"]} 0.
Definition mqtt_demo_sub : mqttClient :=
  mkMqttClient (str "screen") mqtt_demo_info true false mqttMaxPacketBytes (str "ada") true true
    {[str "mqtt-sensors" := mqtt_demo_fwd]} [].
Definition mqtt_demo_bridge : MQTTBridge :=
  mkBridge mqtt_demo_store (<[1 := mqtt_demo_pub]> {[2 := mqtt_demo_sub]}) ∅ 2 0
    (RateLimit.New 3 RateLimit.second (30 * RateLimit.second)) false [].

Lemma mqtt_demo_ready : ready_log (ps_log (fresh_partition 1048576 4096)) [[]].
Proof.
  split.
  - apply fresh_partition_inv. lia.
  - vm_compute. reflexivity.
  - intros a [= <-]. vm_compute. split; discriminate.
  - repeat constructor; vm_compute; discriminate.
Qed.

Lemma mqtt_end_to_end_witness :
  exists b1 b2 packet, serve_client mqtt_demo_cfg (Some AllowAll) mqtt_demo_disk mqtt_demo_bridge 1 0 = Ok b1 /\
    forward_step None b1 2 (str "mqtt-sensors") = Ok b2 /\ mb_sent b2 = mb_sent b1 ++ [(2, packet)].
Proof.
  edestruct (mqtt_end_to_end mqtt_demo_cfg (Some AllowAll) mqtt_demo_disk None mqtt_demo_bridge 0 1 mqtt_demo_pub 2
              mqtt_demo_sub 1 0 0 (str "sensors/d7/temp") 7 (str "21.5") [] (fresh_partition 1048576 4096) [[]]
              mqtt_demo_fwd) as (b1 & b2 & c2 & packet & first & payload & H1 & _ & H3 & H4 & _);
    [..|exists b1, b2, packet; split_and!; [exact H1|exact H3|exact H4]].
  - vm_compute. reflexivity.
  - reflexivity.
  - reflexivity.
  - vm_compute. reflexivity.
  - cbn. unfold str16. split_and!; try (vm_compute; discriminate); mlia.
  - vm_compute. discriminate.
  - vm_compute. discriminate.
  - vm_compute. reflexivity.
  - vm_compute. reflexivity.
  - vm_compute. reflexivity.
  - vm_compute. reflexivity.
  - vm_compute. reflexivity.
  - exact mqtt_demo_ready.
  - reflexivity.
  - lia.
Defined.

Definition mqtt_demo_tail : list (list byte) := [set_base demo_raw 2; set_base demo_raw 4].
Definition mqtt_demo_batches : list RecordBatch := decoded mqtt_demo_tail.

Lemma mqtt_demo_decodes : Forall2 decodes_as mqtt_demo_tail mqtt_demo_batches.
Proof. apply decoded_all. vm_compute. reflexivity. Qed.

Lemma mqtt_demo_chain : chain 0 [set_base demo_raw 0] 2 /\ chain 2 mqtt_demo_tail 6.
Proof. split; apply chain_check_sound; vm_compute; reflexivity. Qed.

Lemma mqtt_demo_offsets : earliestOffsetLocked demo_partition = 0 /\ pt_nextOffset demo_partition = 6.
Proof. vm_compute. done. Qed.

Lemma mqtt_demo_fits : fits forward_bytes (orderedSegmentsLocked demo_partition).
Proof. decide_closed. Qed.

Lemma mqtt_delivers_all_witness :
  forward_rounds None 2 (mkForwarder {[str "mqtt/orders"]} 2) (str "mqtt-orders") demo_partition
  = Ok (6, forward_all (mkForwarder {[str "mqtt/orders"]} 2) (str "mqtt-orders") mqtt_demo_batches).
Proof.
  rewrite <- (proj2 mqtt_demo_offsets).
  apply (mqtt_delivers_all None demo_partition demo_segments [set_base demo_raw 0] mqtt_demo_tail mqtt_demo_batches
           (mkForwarder {[str "mqtt/orders"]} 2) (str "mqtt-orders") 2).
  - exact demo_partition_inv.
  - reflexivity.
  - rewrite (proj1 mqtt_demo_offsets). exact (proj1 mqtt_demo_chain).
  - rewrite (proj2 mqtt_demo_offsets). exact (proj2 mqtt_demo_chain).
  - rewrite (proj2 mqtt_demo_offsets). lia.
  - exact mqtt_demo_decodes.
  - exact mqtt_demo_fits.
  - cbn. lia.
Defined.

(** A login and a publish. *)
Definition mqtt_demo_login : packet :=
  PConnect (mkConnect (str "d7") None (Some (str "ada")) (Some (str "secret")) true 60).
Definition mqtt_demo_events : list mevent :=
  [MAccept 1 mqtt_demo_info (packet_frame mqtt_demo_login ++ packet_frame mqtt_demo_publish); MServe 1 0; MServe 1 1].
Definition run_or_new (s : Store) (o : outcome MQTTBridge) : MQTTBridge :=
  match o with Ok b => b | _ => NewMQTTBridge s end.
Definition mqtt_demo_logged_in : MQTTBridge :=
  run_or_new demo_store (mrun mqtt_demo_cfg (Some AllowAll) mqtt_demo_disk None (NewMQTTBridge demo_store) mqtt_demo_events).

Lemma mqtt_invariant_witness : bridge_inv mqtt_demo_cfg mqtt_demo_logged_in /\ mb_sem mqtt_demo_logged_in = 1.
Proof.
  split; [|vm_compute; reflexivity].
  apply (mqtt_invariant mqtt_demo_cfg (Some AllowAll) mqtt_demo_disk None demo_store mqtt_demo_events).
  vm_compute. reflexivity.
Defined.

Lemma mqtt_isolation_witness :
  exists id c, mb_conns mqtt_demo_logged_in !! id = Some c /\
    ((exists now, MServe 1 2 = MServe id now) /\ mc_authed c = true /\ may (Some AllowAll) c OpWrite (str "mqtt-sensors") \/
     MServe 1 2 = MForward id (str "mqtt-sensors") /\ is_Some (mc_subs c !! str "mqtt-sensors")).
Proof.
  refine (proj1 (mqtt_isolation mqtt_demo_cfg (Some AllowAll) mqtt_demo_disk None demo_store mqtt_demo_events
           mqtt_demo_logged_in (MServe 1 2)
           (run_or_new demo_store (mstep mqtt_demo_cfg (Some AllowAll) mqtt_demo_disk None mqtt_demo_logged_in
              (MServe 1 2))) _ _) _ _).
  - vm_compute. reflexivity.
  - vm_compute. reflexivity.
  - vm_compute. discriminate.
Defined.

Lemma mqtt_cannot_crash_witness :
  exists b', serve_client mqtt_demo_cfg (Some AllowAll) mqtt_demo_disk mqtt_demo_logged_in 1 2 = Ok b'.
Proof.
  apply (mqtt_cannot_crash mqtt_demo_cfg (Some AllowAll) mqtt_demo_disk (fun _ _ => eq_refl) mqtt_demo_logged_in 1 2).
  - apply (mrun_inv mqtt_demo_cfg (Some AllowAll) mqtt_demo_disk None (NewMQTTBridge demo_store) mqtt_demo_events).
    + by split.
    + vm_compute. reflexivity.
  - assert (mb_store mqtt_demo_logged_in = demo_store) as -> by (vm_compute; reflexivity).
    split; [reflexivity|]. intros t pid part. unfold GetPartition. cbn. by rewrite lookup_empty.
  - lia.
Defined.

(** The forwarder decodes batches that producers stored without a look inside:
    a record whose length is 2^63-1 makes it panic, which ends the process. *)
Definition crash_batch : list byte :=
  batch_layout (mkBatch 0 0 2 0 0 0 0 0 (-1) (-1) (-1) [mkRecord 0 0 0 None None []]) 0
    (PutVarint 9223372036854775807 ++ [x00; x01]).

Lemma forward_can_crash fwd kt : forward_loop 100 fwd kt crash_batch 0 = Panic.
Proof. vm_compute. reflexivity. Qed.
