(* ===== verification/GoAes.v ===== *)
(** * AES-256-GCM (crypto/aes and crypto/cipher)

    The authenticated encryption the program seals its secrets with: a block is
    sixteen bytes, kept as numbers; [gcm_Seal] and [gcm_Open] are the methods of
    the [cipher.AEAD] that [cipher.NewGCM] makes, without additional data. The
    published test vectors are checked, and opening undoes sealing. *)

From stdpp Require Import prelude strings list.
From Stdlib Require Import ZArith Lia.
From S2P Require Import Prelude GoBinary Wire GoStrings GoCrypto.

(** ** The field of 256 elements *)

Definition xtime (a : Z) : Z := if a <? 128 then 2 * a else Z.lxor (2 * a - 256) 27.

Fixpoint gmul_bits (n : nat) (a b : Z) : Z :=
  match n with
  | O => 0
  | S n => Z.lxor (if Z.odd b then a else 0) (gmul_bits n (xtime a) (b / 2))
  end.

Definition gmul : Z -> Z -> Z := gmul_bits 8.

(** The inverse is the power 254. *)
Definition ginv (a : Z) : Z :=
  let sq := fun x => gmul x x in
  let a2 := sq a in let a3 := gmul a2 a in let a6 := sq a3 in let a12 := sq a6 in
  let a15 := gmul a12 a3 in let a240 := sq (sq (sq (sq a15))) in gmul (gmul a240 a12) a2.

Definition rotl8 (n x : Z) : Z := Z.land (Z.lor (Z.shiftl x n) (Z.shiftr x (8 - n))) 255.

Definition sbox_entry (x : Z) : Z :=
  let b := ginv x in
  Z.lxor (Z.lxor (Z.lxor b (rotl8 1 b)) (Z.lxor (rotl8 2 b) (rotl8 3 b))) (Z.lxor (rotl8 4 b) 99).

Definition sbox : list Z := Eval vm_compute in map (fun i => sbox_entry (Z.of_nat i)) (seq 0 256).
Definition sub_byte (x : Z) : Z := default 0 (sbox !! Z.to_nat x).

(** ** The cipher *)

Definition zxor (a b : list Z) : list Z := zip_with Z.lxor a b.

(** Columns of four bytes, one after the other. *)
Definition shift_rows (s : list Z) : list Z :=
  map (fun i => default 0 (s !! i)) [0; 5; 10; 15; 4; 9; 14; 3; 8; 13; 2; 7; 12; 1; 6; 11]%nat.

Definition mix_column (c : list Z) : list Z :=
  match c with
  | [a; b; c; d] =>
      [Z.lxor (Z.lxor (gmul 2 a) (gmul 3 b)) (Z.lxor c d); Z.lxor (Z.lxor a (gmul 2 b)) (Z.lxor (gmul 3 c) d);
       Z.lxor (Z.lxor a b) (Z.lxor (gmul 2 c) (gmul 3 d)); Z.lxor (Z.lxor (gmul 3 a) b) (Z.lxor c (gmul 2 d))]
  | _ => c
  end.

Fixpoint mix_columns (n : nat) (s : list Z) : list Z :=
  match n with
  | O => []
  | S n => mix_column (take 4 s) ++ mix_columns n (drop 4 s)
  end.

(** The key schedule: words are kept last first. *)
Fixpoint expand_key (n i : nat) (rcon : Z) (ws : list (list Z)) : list (list Z) :=
  match n with
  | O => ws
  | S n =>
      let prev := default [] (ws !! 0%nat) in
      let t :=
        if (i mod 8 =? 0)%nat then
          zxor (map sub_byte (drop 1 prev ++ take 1 prev)) [rcon; 0; 0; 0]
        else if (i mod 8 =? 4)%nat then map sub_byte prev else prev in
      expand_key n (S i) (if (i mod 8 =? 0)%nat then xtime rcon else rcon) (zxor (default [] (ws !! 7%nat)) t :: ws)
  end.

Fixpoint words4 (n : nat) (k : list Z) : list (list Z) :=
  match n with
  | O => []
  | S n => take 4 k :: words4 n (drop 4 k)
  end.

(** [aes.NewCipher]: the fifteen round keys of a key of 32 bytes. *)
Definition round_keys (key : list byte) : list (list Z) :=
  let ws := rev (expand_key 52 8 1 (rev (words4 8 (map b2z key)))) in
  map (fun i => mjoin (take 4 (drop (4 * i) ws))) (seq 0 15).

Fixpoint aes_rounds (keys : list (list Z)) (s : list Z) : list Z :=
  match keys with
  | [] => s
  | [k] => zxor (shift_rows (map sub_byte s)) k
  | k :: r => aes_rounds r (zxor (mix_columns 4 (shift_rows (map sub_byte s))) k)
  end.

Definition aes_encrypt (keys : list (list Z)) (block : list byte) : list byte :=
  match keys with
  | k0 :: r => map z2b (aes_rounds r (zxor (map b2z block) k0))
  | [] => block
  end.

(** ** Galois/counter mode *)

(** Multiplication in the field of 2^128 elements, the first bit lowest. *)
Fixpoint ghash_mul (n : nat) (x v z : Z) : Z :=
  match n with
  | O => z
  | S n =>
      let z := if Z.testbit x (Z.of_nat n) then Z.lxor z v else z in
      let v := if Z.odd v then Z.lxor (Z.shiftr v 1) (Z.shiftl 225 120) else Z.shiftr v 1 in
      ghash_mul n x v z
  end.

Fixpoint ghash (n : nat) (h y : Z) (data : list byte) : Z :=
  match n with
  | O => y
  | S n =>
      let block := take 16 data in
      let x := ube (block ++ replicate (16 - length block) x00) in
      ghash n h (ghash_mul 128 (Z.lxor y x) h 0) (drop 16 data)
  end.

Definition blocks_of (data : list byte) : nat := ((length data + 15) / 16)%nat.

(** The key stream from the block after [j0] on. *)
Fixpoint key_stream (n : nat) (keys : list (list Z)) (nonce : list byte) (ctr : Z) : list byte :=
  match n with
  | O => []
  | S n => aes_encrypt keys (nonce ++ be 4 ctr) ++ key_stream n keys nonce (ctr + 1)
  end.

Definition crypt (keys : list (list Z)) (nonce data : list byte) : list byte :=
  xor_bytes data (take (length data) (key_stream (blocks_of data) keys nonce 2)).

Definition gcm_tag (keys : list (list Z)) (nonce cipher : list byte) : list byte :=
  let h := ube (aes_encrypt keys (replicate 16 x00)) in
  let y := ghash (blocks_of cipher) h 0 cipher in
  let y := ghash_mul 128 (Z.lxor y (8 * zlen cipher)) h 0 in
  xor_bytes (be 16 y) (aes_encrypt keys (nonce ++ be 4 1)).

Definition gcmNonceSize : nat := 12.
Definition gcmTagSize : nat := 16.

Definition gcm_Seal (key nonce plain : list byte) : list byte :=
  let keys := round_keys key in
  let c := crypt keys nonce plain in c ++ gcm_tag keys nonce c.

Definition gcm_Open (key nonce sealed : list byte) : outcome (list byte) :=
  if (length sealed <? gcmTagSize)%nat then Err "cipher: message authentication failed" else
  let keys := round_keys key in
  let c := take (length sealed - gcmTagSize) sealed in
  if bool_decide (gcm_tag keys nonce c = drop (length sealed - gcmTagSize) sealed)
  then Ok (crypt keys nonce c) else Err "cipher: message authentication failed".

(** ** Test vectors *)

(** FIPS 197, appendix C.3. *)
Lemma aes256_vector :
  map b2z (aes_encrypt (round_keys (map (fun i => z2b (Z.of_nat i)) (seq 0 32)))
             (map (fun i => z2b (17 * Z.of_nat i)) (seq 0 16)))
  = [0x8e; 0xa2; 0xb7; 0xca; 0x51; 0x67; 0x45; 0xbf; 0xea; 0xfc; 0x49; 0x90; 0x4b; 0x49; 0x60; 0x89].
Proof. vm_compute. reflexivity. Qed.

(** Test cases 13 and 14 of the GCM specification. *)
Lemma gcm_vectors :
  map b2z (gcm_Seal (replicate 32 x00) (replicate 12 x00) [])
  = [0x53; 0x0f; 0x8a; 0xfb; 0xc7; 0x45; 0x36; 0xb9; 0xa9; 0x63; 0xb4; 0xf1; 0xc4; 0xcb; 0x73; 0x8b] /\
  map b2z (gcm_Seal (replicate 32 x00) (replicate 12 x00) (replicate 16 x00))
  = [0xce; 0xa7; 0x40; 0x3d; 0x4d; 0x60; 0x6b; 0x6e; 0x07; 0x4e; 0xc5; 0xd3; 0xba; 0xf3; 0x9d; 0x18;
     0xd0; 0xd1; 0xc8; 0xa7; 0x99; 0x99; 0x6b; 0xf0; 0x26; 0x5b; 0x98; 0xb5; 0xd4; 0x8a; 0xb9; 0x19].
Proof. vm_compute. split; reflexivity. Qed.

(** ** Opening undoes sealing *)

Lemma length_zxor a b : length (zxor a b) = (length a `min` length b)%nat.
Proof. apply length_zip_with. Qed.

Lemma length_mix_column c : length (mix_column c) = length c.
Proof. destruct c as [|? [|? [|? [|? [|? ?]]]]]; done. Qed.

Lemma length_mix_columns n s : length s = (4 * n)%nat -> length (mix_columns n s) = length s.
Proof.
  revert s. induction n as [|n IH]; intros s Hs; [by destruct s|]. cbn [mix_columns].
  rewrite length_app, length_mix_column, IH; rewrite ?length_take, ?length_drop; lia.
Qed.

Lemma length_expand_key n i rcon ws :
  Forall (fun w => length w = 4%nat) ws -> (8 <= length ws)%nat ->
  Forall (fun w => length w = 4%nat) (expand_key n i rcon ws) /\ length (expand_key n i rcon ws) = (n + length ws)%nat.
Proof.
  revert i rcon ws. induction n as [|n IH]; intros i rcon ws Hw Hl; [done|]. cbn [expand_key].
  destruct (lookup_lt_is_Some_2 ws 0) as [w0 E0]; [lia|]. destruct (lookup_lt_is_Some_2 ws 7) as [w7 E7]; [lia|].
  pose proof (Forall_lookup_1 _ _ _ _ Hw E0) as L0. pose proof (Forall_lookup_1 _ _ _ _ Hw E7) as L7. cbn beta in *.
  rewrite E0, E7. cbn [from_option id]. match goal with |- context [zxor w7 ?x :: ws] => set (t := x) end.
  assert (length t = 4%nat) as Lt.
  { unfold t. destruct (i mod 8 =? 0)%nat; [|destruct (i mod 8 =? 4)%nat; [by rewrite length_map|done]].
    rewrite length_zxor, length_map, length_app, length_drop, length_take, L0. done. }
  destruct (IH (S i) (if (i mod 8 =? 0)%nat then xtime rcon else rcon) (zxor w7 t :: ws)) as [H1 H2].
  - constructor; [|done]. rewrite length_zxor. lia.
  - cbn. lia.
  - split; [done|]. rewrite H2. cbn. lia.
Qed.

Lemma words4_spec n k :
  length k = (4 * n)%nat -> Forall (fun w => length w = 4%nat) (words4 n k) /\ length (words4 n k) = n.
Proof.
  revert k. induction n as [|n IH]; intros k Hk; [done|]. cbn [words4].
  destruct (IH (drop 4 k)) as [H1 H2]; [rewrite length_drop; lia|]. split; [|cbn; lia].
  constructor; [|done]. rewrite length_take. lia.
Qed.

Lemma sum_words (l : list (list Z)) :
  Forall (fun w => length w = 4%nat) l -> sum_list (length <$> l) = (4 * length l)%nat.
Proof. induction 1 as [|w l E _ IH]; [done|]. cbn in *. rewrite IH. lia. Qed.

(** Fifteen round keys of sixteen bytes. *)
Lemma round_keys_spec key :
  length key = 32%nat -> exists k0 r, round_keys key = k0 :: r /\ length k0 = 16%nat /\ r <> [] /\ Forall (fun k => length k = 16%nat) r.
Proof.
  intros Hk. unfold round_keys. destruct (words4_spec 8 (map b2z key)) as [W1 W2]; [by rewrite length_map, Hk|].
  destruct (length_expand_key 52 8 1 (rev (words4 8 (map b2z key)))) as [E1 E2].
  { by apply Forall_rev. } { rewrite length_rev, W2. lia. }
  set (ws := rev (expand_key 52 8 1 (rev (words4 8 (map b2z key))))).
  assert (Forall (fun w => length w = 4%nat) ws) as Hw by (by apply Forall_rev).
  assert (length ws = 60%nat) as Hl by (unfold ws; rewrite length_rev, E2, length_rev, W2; done).
  assert (forall i, (i < 15)%nat -> length (mjoin (take 4 (drop (4 * i) ws))) = 16%nat) as Hj.
  { intros i Hi. rewrite length_join.
    rewrite sum_words by (by apply Forall_take, Forall_drop). rewrite length_take, length_drop. lia. }
  set (f := fun i => mjoin (take 4 (drop (4 * i) ws))) in *. change (map _ (seq 0 15)) with (map f (seq 0 15)).
  assert (forall i, (i < 15)%nat -> length (f i) = 16%nat) as Hf by exact Hj. clearbody f. clear Hj.
  exists (f 0%nat), (map f (seq 1 14)). split; [reflexivity|]. split; [apply Hf; lia|]. split; [discriminate|].
  apply Forall_forall. intros k Hk'. apply list_elem_of_fmap in Hk' as (i & -> & Hi%elem_of_seq). apply Hf. lia.
Qed.

Lemma length_aes_rounds keys s :
  keys <> [] -> Forall (fun k => length k = 16%nat) keys -> length s = 16%nat -> length (aes_rounds keys s) = 16%nat.
Proof.
  intros Hn Hk. revert s. induction Hk as [|k keys E Hk IH]; intros s Hs; [done|]. destruct keys as [|k' keys].
  - cbn [aes_rounds]. rewrite length_zxor, E. done.
  - cbn [aes_rounds]. apply IH; [done|]. rewrite length_zxor, length_mix_columns, E by done. done.
Qed.

Lemma length_aes_encrypt key block :
  length key = 32%nat -> length block = 16%nat -> length (aes_encrypt (round_keys key) block) = 16%nat.
Proof.
  intros Hk Hb. destruct (round_keys_spec key Hk) as (k0 & r & -> & H0 & Hn & Hr). cbn [aes_encrypt].
  rewrite length_map. apply length_aes_rounds; [done|done|]. rewrite length_zxor, length_map. lia.
Qed.

Lemma length_key_stream n key nonce ctr :
  length key = 32%nat -> length nonce = gcmNonceSize -> length (key_stream n (round_keys key) nonce ctr) = (16 * n)%nat.
Proof.
  intros Hk Hn. revert ctr. induction n as [|n IH]; intros ctr; [done|]. cbn [key_stream].
  rewrite length_app, IH, length_aes_encrypt; [lia|done|]. by rewrite length_app, length_be, Hn.
Qed.

Lemma length_crypt key nonce data :
  length key = 32%nat -> length nonce = gcmNonceSize -> length (crypt (round_keys key) nonce data) = length data.
Proof.
  intros Hk Hn. unfold crypt. rewrite length_xor_bytes, length_take, length_key_stream by done.
  pose proof (Nat.div_mod_eq (length data + 15) 16). pose proof (Nat.mod_upper_bound (length data + 15) 16).
  unfold blocks_of. lia.
Qed.

Lemma crypt_twice key nonce data :
  length key = 32%nat -> length nonce = gcmNonceSize ->
  crypt (round_keys key) nonce (crypt (round_keys key) nonce data) = data.
Proof.
  intros Hk Hn. pose proof (length_crypt key nonce data Hk Hn) as Hl. unfold crypt at 1. unfold blocks_of. rewrite Hl.
  unfold crypt, blocks_of. apply xor_bytes_twice. rewrite length_take, length_key_stream by done.
  pose proof (Nat.div_mod_eq (length data + 15) 16). pose proof (Nat.mod_upper_bound (length data + 15) 16). lia.
Qed.

Lemma length_gcm_tag key nonce c :
  length key = 32%nat -> length nonce = gcmNonceSize -> length (gcm_tag (round_keys key) nonce c) = gcmTagSize.
Proof.
  intros Hk Hn. unfold gcm_tag. rewrite length_xor_bytes, length_be, length_aes_encrypt; [done|done|].
  by rewrite length_app, length_be, Hn.
Qed.

Lemma gcm_Open_Seal key nonce plain :
  length key = 32%nat -> length nonce = gcmNonceSize -> gcm_Open key nonce (gcm_Seal key nonce plain) = Ok plain.
Proof.
  intros Hk Hn. unfold gcm_Open, gcm_Seal. rewrite length_app, length_gcm_tag by done.
  rewrite (proj2 (Nat.ltb_ge _ _)) by lia. rewrite Nat.add_sub, take_app_length, drop_app_length.
  rewrite bool_decide_eq_true_2 by done. by rewrite crypt_twice.
Qed.
