(* ===== verification/GoRegexp.v ===== *)
(** * Regular expressions (the part of Go's regexp the program uses)

    Leftmost-first matching as in Go and Perl: alternatives are tried in order,
    repetitions take as much as they can. A matcher works on what is left of the
    text and the byte before it; a continuation says whether the rest matches. A
    single character is a function that says how many bytes it takes, so that a
    letter under [(?i)] may be one of the two non-ASCII letters that fold to it. *)

From stdpp Require Import prelude strings list.
From Stdlib Require Import ZArith Lia.
From S2P Require Import Prelude GoBinary Wire GoStrings.

(** ** Characters *)

Definition charset : Type := list byte -> option nat.

(** A set of ASCII characters. *)
Definition ascii_set (f : byte -> bool) : charset :=
  fun s => match s with b :: _ => if f b then Some 1%nat else None | [] => None end.

Definition in_range (lo hi : Z) (b : byte) : bool := (lo <=? b2z b) && (b2z b <=? hi).

(** U+017F and U+212A, the non-ASCII letters that fold to s and k. *)
Definition long_s : list byte := [xc5; xbf].
Definition kelvin : list byte := [xe2; x84; xaa].

(** One of the ASCII characters of [f], or what folds to one of them. *)
Definition fold_set (f : byte -> bool) : charset :=
  fun s =>
    match s with
    | [] => None
    | b :: _ =>
        if f (lower b) || f b then Some 1%nat
        else if f x73 && HasPrefix s long_s then Some 2%nat
        else if f x6b && HasPrefix s kelvin then Some 3%nat
        else None
    end.

Definition one_of (l : gostring) (b : byte) : bool := bool_decide (b ∈ l).

(** [\s]. *)
Definition space_set : charset := ascii_set (one_of [x09; x0a; x0c; x0d; x20]).

Definition word_byte (b : byte) : bool := in_range 48 57 b || in_range 65 90 b || in_range 97 122 b || bool_decide (b = x5f).

(** ** Expressions *)

Inductive regex :=
  | Eps
  | Char (c : charset)
  | Seq (a b : regex)
  | Alt (a b : regex)
  | Star (a : regex)
  | Group (n : nat) (a : regex)
  | Boundary.

Definition Opt (a : regex) : regex := Alt a Eps.
Definition Plus (a : regex) : regex := Seq a (Star a).
Definition seqs (l : list regex) : regex := foldr Seq Eps l.
Fixpoint alts (l : list regex) : regex :=
  match l with
  | [] => Eps
  | [a] => a
  | a :: r => Alt a (alts r)
  end.

(** A word under [(?i)]. *)
Definition word (s : gostring) : regex := seqs (map (fun b => Char (fold_set (fun c => bool_decide (c = b)))) s).

Definition captures : Type := list (nat * gostring).

(** The text of a group; the last one counts, and none is empty. *)
Fixpoint group (c : captures) (n : nat) : gostring :=
  match c with
  | [] => []
  | (m, t) :: r => if (m =? n)%nat then t else group r n
  end.

Definition at_boundary (prev : option byte) (s : list byte) : bool :=
  let before := match prev with Some b => word_byte b | None => false end in
  let after := match s with b :: _ => word_byte b | [] => false end in
  xorb before after.

Definition cont : Type := option byte -> list byte -> captures -> option (captures * list byte).

(** The byte before the text after [n] bytes of it. *)
Definition prev_after (prev : option byte) (s : list byte) (n : nat) : option byte :=
  match n with O => prev | S m => s !! m end.

(** Greedy repetition: as often as possible first; each round takes something. *)
Fixpoint star_loop (step : option byte -> list byte -> captures -> cont -> option (captures * list byte)) (fuel : nat)
    (prev : option byte) (s : list byte) (c : captures) (k : cont) : option (captures * list byte) :=
  match fuel with
  | O => k prev s c
  | S fuel =>
      match step prev s c (fun p' s' c' => if (length s' <? length s)%nat then star_loop step fuel p' s' c' k else None) with
      | Some r => Some r
      | None => k prev s c
      end
  end.

Fixpoint matches (r : regex) (prev : option byte) (s : list byte) (c : captures) (k : cont) : option (captures * list byte) :=
  match r with
  | Eps => k prev s c
  | Char f => match f s with Some n => k (prev_after prev s n) (drop n s) c | None => None end
  | Seq a b => matches a prev s c (fun p s c => matches b p s c k)
  | Alt a b => match matches a prev s c k with Some r => Some r | None => matches b prev s c k end
  | Star a => star_loop (matches a) (length s) prev s c k
  | Group n a => matches a prev s c (fun p s' c => k p s' ((n, take (length s - length s') s) :: c))
  | Boundary => if at_boundary prev s then k prev s c else None
  end.

Definition match_here (r : regex) (prev : option byte) (s : list byte) : option (captures * list byte) :=
  matches r prev s [] (fun _ s c => Some (c, s)).

(** [ReplaceAllString] for an expression that matches no empty text; [fuel] bounds
    the rounds, each of which moves on. *)
Fixpoint replace_loop (fuel : nat) (r : regex) (template : captures -> gostring) (prev : option byte) (s : list byte) : gostring :=
  match fuel with
  | O => s
  | S fuel =>
      match s with
      | [] => []
      | b :: rest =>
          match match_here r prev s with
          | Some (c, s') => template c ++ replace_loop fuel r template (prev_after prev s (length s - length s')) s'
          | None => b :: replace_loop fuel r template (Some b) rest
          end
      end
  end.

Definition ReplaceAllString (r : regex) (template : captures -> gostring) (s : gostring) : gostring :=
  replace_loop (length s) r template None s.

(** ** Facts *)

(** A repeated set takes a text that is all in it, up to what is not. *)
Lemma star_set f s rest prev c k r :
  Forall (fun b => f b = true) s -> (match rest with b :: _ => f b = false | [] => True end) ->
  k (prev_after prev s (length s)) rest c = Some r ->
  star_loop (matches (Char (ascii_set f))) (length (s ++ rest)) prev (s ++ rest) c k = Some r.
Proof.
  intros Hs Hr. revert prev. induction Hs as [|b s Hb _ IH]; intros prev Hk.
  - cbn [app length] in *. destruct rest as [|x rest]; [done|]. cbn [length star_loop matches ascii_set]. by rewrite Hr.
  - cbn [app length star_loop matches ascii_set]. rewrite Hb. cbn [drop prev_after lookup list_lookup].
    rewrite drop_0, (proj2 (Nat.ltb_lt _ _)) by lia. rewrite IH; [done|]. by destruct s.
Qed.
