(* ===== verification/GoJson.v ===== *)
(** * Whether a text is JSON

    [json.Valid] of Go's library: its scanner reads a byte at a time and keeps what
    it is in the middle of on a stack. Strings are not checked to be UTF-8. *)

From stdpp Require Import prelude list strings.
From Stdlib Require Import ZArith Lia.
From S2P Require Import Prelude Wire GoStrings.

(** What the next byte is looked at as; [JLit] has the rest of a literal, [JEscU]
    the hexadecimal digits to come. *)
Inductive jstep :=
  | JBeginValue | JBeginValueOrEmpty | JBeginString | JBeginStringOrEmpty | JEndValue | JEndTop
  | JInString | JEsc | JEscU (n : nat) | JNeg | J1 | J0 | JDot | JDot0 | JE | JESign | JE0 | JLit (rest : list byte).

Inductive jparse := PObjectKey | PObjectValue | PArrayValue.

Definition jspace (c : byte) : bool := bool_decide (c = x20 \/ c = x09 \/ c = x0d \/ c = x0a).
Definition jdigit (c : byte) : bool := (48 <=? b2z c) && (b2z c <=? 57).
Definition jhex (c : byte) : bool :=
  jdigit c || ((97 <=? b2z c) && (b2z c <=? 102)) || ((65 <=? b2z c) && (b2z c <=? 70)).

Definition maxNestingDepth : Z := 10000.

Definition jpush (st : list jparse) (p : jparse) (next : jstep) : option (jstep * list jparse) :=
  if zlen st + 1 <=? maxNestingDepth then Some (next, p :: st) else None.

Definition jpop (st : list jparse) : jstep * list jparse :=
  match st with
  | [] | [_] => (JEndTop, [])
  | _ :: r => (JEndValue, r)
  end.

Definition begin_value (st : list jparse) (c : byte) : option (jstep * list jparse) :=
  if jspace c then Some (JBeginValue, st) else
  match c with
  | x7b => jpush st PObjectKey JBeginStringOrEmpty
  | x5b => jpush st PArrayValue JBeginValueOrEmpty
  | x22 => Some (JInString, st)
  | x2d => Some (JNeg, st)
  | x30 => Some (J0, st)
  | x74 => Some (JLit (str "rue"), st)
  | x66 => Some (JLit (str "alse"), st)
  | x6e => Some (JLit (str "ull"), st)
  | _ => if jdigit c then Some (J1, st) else None
  end.

Definition begin_string (st : list jparse) (c : byte) : option (jstep * list jparse) :=
  if jspace c then Some (JBeginString, st) else if bool_decide (c = x22) then Some (JInString, st) else None.

Definition end_value (st : list jparse) (c : byte) : option (jstep * list jparse) :=
  match st with
  | [] => if jspace c then Some (JEndTop, []) else None
  | p :: r =>
      if jspace c then Some (JEndValue, st) else
      match p, c with
      | PObjectKey, x3a => Some (JBeginValue, PObjectValue :: r)
      | PObjectValue, x2c => Some (JBeginString, PObjectKey :: r)
      | PObjectValue, x7d => Some (jpop st)
      | PArrayValue, x2c => Some (JBeginValue, st)
      | PArrayValue, x5d => Some (jpop st)
      | _, _ => None
      end
  end.

(** After the first zero or the last digit before a point. *)
Definition after_int (st : list jparse) (c : byte) : option (jstep * list jparse) :=
  match c with
  | x2e => Some (JDot, st)
  | x65 | x45 => Some (JE, st)
  | _ => end_value st c
  end.

Definition jscan (s : jstep) (st : list jparse) (c : byte) : option (jstep * list jparse) :=
  match s with
  | JBeginValue => begin_value st c
  | JBeginValueOrEmpty =>
      if jspace c then Some (JBeginValueOrEmpty, st) else if bool_decide (c = x5d) then end_value st c else begin_value st c
  | JBeginString => begin_string st c
  | JBeginStringOrEmpty =>
      if jspace c then Some (JBeginStringOrEmpty, st) else
      if bool_decide (c = x7d) then end_value (match st with _ :: r => PObjectValue :: r | [] => [] end) c else begin_string st c
  | JEndValue => end_value st c
  | JEndTop => if jspace c then Some (JEndTop, st) else None
  | JInString =>
      if bool_decide (c = x22) then Some (JEndValue, st) else if bool_decide (c = x5c) then Some (JEsc, st) else
      if b2z c <? 32 then None else Some (JInString, st)
  | JEsc =>
      match c with
      | x62 | x66 | x6e | x72 | x74 | x5c | x2f | x22 => Some (JInString, st)
      | x75 => Some (JEscU 3, st)
      | _ => None
      end
  | JEscU n => if jhex c then Some (match n with O => JInString | S n => JEscU n end, st) else None
  | JNeg => if bool_decide (c = x30) then Some (J0, st) else if jdigit c then Some (J1, st) else None
  | J1 => if jdigit c then Some (J1, st) else after_int st c
  | J0 => after_int st c
  | JDot => if jdigit c then Some (JDot0, st) else None
  | JDot0 => if jdigit c then Some (JDot0, st) else if bool_decide (c = x65 \/ c = x45) then Some (JE, st) else end_value st c
  | JE => if bool_decide (c = x2b \/ c = x2d) then Some (JESign, st) else if jdigit c then Some (JE0, st) else None
  | JESign => if jdigit c then Some (JE0, st) else None
  | JE0 => if jdigit c then Some (JE0, st) else end_value st c
  | JLit rest =>
      match rest with
      | [b] => if bool_decide (c = b) then Some (JEndValue, st) else None
      | b :: r => if bool_decide (c = b) then Some (JLit r, st) else None
      | [] => None
      end
  end.

Fixpoint jrun_scan (s : jstep) (st : list jparse) (text : list byte) : option (jstep * list jparse) :=
  match text with
  | [] => Some (s, st)
  | c :: r => match jscan s st c with Some (s, st) => jrun_scan s st r | None => None end
  end.

(** At the end a space must end the value. *)
Definition json_Valid (text : list byte) : bool :=
  match jrun_scan JBeginValue [] (text ++ [x20]) with
  | Some (JEndTop, _) => true
  | _ => false
  end.

Lemma json_Valid_examples :
  map (fun s => json_Valid (str s))
    [" true "; "nul"; "[1, -0.5e+3, []]"; "[1,]"; "01"; "-"; "{}"; "1 2"; ""; "[[]"]%string
  = [true; false; true; false; false; false; true; false; false; false] /\
  json_Valid (str "{" ++ [x22] ++ str "type" ++ [x22; x3a; x22] ++ str "int" ++ [x22; x7d]) = true.
Proof. vm_compute. done. Qed.

(** ** Encoding and decoding *)

(** encoding/json on one type: what is [jsonable] (valid UTF-8 throughout) is read
    back as it was written. *)
Class Json (A : Type) := {
  to_json : A -> list byte;
  of_json : list byte -> outcome A;
  jsonable : A -> Prop;
  of_to_json x : jsonable x -> of_json (to_json x) = Ok x }.

(** ** Numbers as text, for encodings in examples *)

Fixpoint bits (p : positive) : list byte :=
  match p with
  | xH => []
  | xO p => x30 :: bits p
  | xI p => x31 :: bits p
  end.

Fixpoint of_bits (l : list byte) : positive :=
  match l with
  | [] => xH
  | x30 :: r => xO (of_bits r)
  | _ :: r => xI (of_bits r)
  end.

Lemma of_bits_bits p : of_bits (bits p) = p.
Proof. induction p; cbn; congruence. Qed.
