(* ===== verification/FleetJobs.v ===== *)
(** * The fleet's job table (internal/fleet/jobs.go)

    Jobs by identifier, in the order they were submitted, with an index of
    idempotency keys, and a file to which every change of a job appends a line
    of JSON. The file is its bytes; encoding/json is a class of what the code
    relies on. A write is cut short by [Some n]: after [n] bytes it fails (the
    disk is full), which the operations answer by taking their change back. The
    clock and the random bytes of an identifier are arguments. *)

From stdpp Require Import prelude countable strings gmap list.
From Stdlib Require Import ZArith Lia.
From S2P Require Import Prelude GoBinary Wire GoStrings GoJson.

(** ** Data (types.go) *)

Inductive JobStatus :=
  | JobStatusQueued
  | JobStatusAccepted
  | JobStatusRunning
  | JobStatusSucceeded
  | JobStatusFailed
  | JobStatusOther (s : gostring).

#[export] Instance JobStatus_eq_dec : EqDecision JobStatus.
Proof. solve_decision. Defined.

Record Job := mkJob {
  jb_ID : gostring;
  jb_ServerID : gostring;
  jb_Action : gostring;
  jb_Target : gostring;
  jb_Actor : gostring;
  jb_IdempotencyKey : gostring;
  jb_Force : bool;
  jb_Result : gostring;
  jb_TailLines : Z;
  jb_Status : JobStatus;
  jb_Error : gostring;
  jb_CreatedAt : Z;
  jb_StartedAt : Z;
  jb_CompletedAt : Z }.

(** Times are nanoseconds since 1970; this is [time.Time{}]. *)
Definition zeroTime : Z := -62135596800000000000.

Definition set_status (b : Job) (st : JobStatus) (err : gostring) (started completed : Z) : Job :=
  mkJob (jb_ID b) (jb_ServerID b) (jb_Action b) (jb_Target b) (jb_Actor b) (jb_IdempotencyKey b) (jb_Force b)
    (jb_Result b) (jb_TailLines b) st err (jb_CreatedAt b) started completed.
Definition set_force (b : Job) (force : bool) : Job :=
  mkJob (jb_ID b) (jb_ServerID b) (jb_Action b) (jb_Target b) (jb_Actor b) (jb_IdempotencyKey b) force
    (jb_Result b) (jb_TailLines b) (jb_Status b) (jb_Error b) (jb_CreatedAt b) (jb_StartedAt b) (jb_CompletedAt b).
Definition set_tail (b : Job) (tail : Z) : Job :=
  mkJob (jb_ID b) (jb_ServerID b) (jb_Action b) (jb_Target b) (jb_Actor b) (jb_IdempotencyKey b) (jb_Force b)
    (jb_Result b) tail (jb_Status b) (jb_Error b) (jb_CreatedAt b) (jb_StartedAt b) (jb_CompletedAt b).
Definition set_result (b : Job) (result : gostring) : Job :=
  mkJob (jb_ID b) (jb_ServerID b) (jb_Action b) (jb_Target b) (jb_Actor b) (jb_IdempotencyKey b) (jb_Force b)
    result (jb_TailLines b) (jb_Status b) (jb_Error b) (jb_CreatedAt b) (jb_StartedAt b) (jb_CompletedAt b).

Definition isActive (st : JobStatus) : bool :=
  bool_decide (st = JobStatusQueued \/ st = JobStatusAccepted \/ st = JobStatusRunning).
Definition isTerminal (st : JobStatus) : bool := bool_decide (st = JobStatusSucceeded \/ st = JobStatusFailed).

(** ** The encoding of a line *)

(** What a job may hold to be written and read back: [encodable] (its strings
    are valid UTF-8). A line that was cut is not a JSON object. *)
Class JobJSON := {
  Marshal : Job -> list byte;
  Unmarshal : list byte -> outcome Job;
  encodable : Job -> Prop;
  unmarshal_marshal b : encodable b -> Unmarshal (Marshal b) = Ok b;
  marshal_line b : exists mid, Marshal b = x7b :: mid ++ [x7d] /\ Forall (fun c => c <> x0a) mid;
  unmarshal_torn b n : (n < length (Marshal b))%nat -> exists e, Unmarshal (TrimSpace (take n (Marshal b))) = Err e }.

(** ** The table *)

(** [js_file] is [None] without a file path. *)
Record Jobs := mkJobs {
  js_file : option (list byte);
  js_jobs : gmap gostring Job;
  js_order : list gostring;
  js_index : gmap gostring gostring;
  js_timeout : Z;
  js_retentionDays : Z;
  js_retentionEntries : Z;
  js_maxActiveJobs : Z }.

Definition set_table (j : Jobs) (jobs : gmap gostring Job) (order : list gostring) (index : gmap gostring gostring) : Jobs :=
  mkJobs (js_file j) jobs order index (js_timeout j) (js_retentionDays j) (js_retentionEntries j) (js_maxActiveJobs j).
Definition set_file (j : Jobs) (file : option (list byte)) : Jobs :=
  mkJobs file (js_jobs j) (js_order j) (js_index j) (js_timeout j) (js_retentionDays j) (js_retentionEntries j)
    (js_maxActiveJobs j).
Definition put_job (j : Jobs) (b : Job) : Jobs :=
  set_table j (<[jb_ID b := b]> (js_jobs j)) (js_order j) (js_index j).

Definition SetTimeout (j : Jobs) (d : Z) : Jobs :=
  mkJobs (js_file j) (js_jobs j) (js_order j) (js_index j) d (js_retentionDays j) (js_retentionEntries j)
    (js_maxActiveJobs j).
Definition SetRetention (j : Jobs) (days entries : Z) : Jobs :=
  mkJobs (js_file j) (js_jobs j) (js_order j) (js_index j) (js_timeout j)
    (if 0 <? days then days else js_retentionDays j) (if 0 <? entries then entries else js_retentionEntries j)
    (js_maxActiveJobs j).
Definition SetMaxActiveJobs (j : Jobs) (limit : Z) : Jobs :=
  mkJobs (js_file j) (js_jobs j) (js_order j) (js_index j) (js_timeout j) (js_retentionDays j) (js_retentionEntries j)
    limit.

Definition generateJobID (now : Z) (rnd : list byte) : gostring :=
  str "job-" ++ itoa (now / 1000000) ++ str "-" ++ hex_encode rnd.

(** [time.Duration]'s [String] up to whole seconds and below: hours, minutes and
    seconds, or a fraction of a second. *)
Fixpoint drop_zeros (ds : gostring) : gostring :=
  match ds with
  | x30 :: r => drop_zeros r
  | _ => ds
  end.

Definition frac_text (digits v : Z) : gostring :=
  let ds := rev (drop_zeros (rev (replicate (Z.to_nat digits - length (itoa v)) x30 ++ itoa v))) in
  if bool_decide (ds = []) then [] else x2e :: ds.

Definition Duration_String (d : Z) : gostring :=
  let u := Z.abs d in
  let body :=
    if u =? 0 then str "0s"
    else if u <? 1000 then itoa u ++ str "ns"
    else if u <? 1000000 then itoa (u / 1000) ++ frac_text 3 (u mod 1000) ++ [xc2; xb5] ++ str "s"
    else if u <? 1000000000 then itoa (u / 1000000) ++ frac_text 6 (u mod 1000000) ++ str "ms"
    else
      let s := u / 1000000000 in
      let secs := itoa (s mod 60) ++ frac_text 9 (u mod 1000000000) ++ str "s" in
      let m := s / 60 in
      if m =? 0 then secs
      else let mins := itoa (m mod 60) ++ str "m" ++ secs in
           if m / 60 =? 0 then mins else itoa (m / 60) ++ str "h" ++ mins in
  if d <? 0 then x2d :: body else body.

Lemma Duration_String_examples :
  map Duration_String [0; 1500; 30000000000; 90500000000; 3600000000000]
  = [str "0s"; str "1.5" ++ [xc2; xb5] ++ str "s"; str "30s"; str "1m30.5s"; str "1h0m0s"].
Proof. vm_compute. reflexivity. Qed.

Definition timeout_message (timeout : Z) : gostring :=
  str "job execution timed out after " ++ Duration_String timeout.

Section jobs.
Context `{!JobJSON}.

(** ** The file *)

Definition line (b : Job) : list byte := Marshal b ++ [x0a].

Definition appendLocked (j : Jobs) (b : Job) (w : option nat) : Jobs * outcome unit :=
  match js_file j with
  | None => (j, Ok tt)
  | Some f =>
      match w with
      | None => (set_file j (Some (f ++ line b)), Ok tt)
      | Some n => (set_file j (Some (f ++ take n (line b))), Err "fleet: write")
      end
  end.

(** [rewriteFileLocked]: the file is replaced in one step, or not at all. *)
Definition rewriteFileLocked (j : Jobs) (ok : bool) : Jobs * outcome unit :=
  match js_file j with
  | None => (j, Ok tt)
  | Some _ =>
      if ok then (set_file j (Some (mjoin (map line (omap (fun id => js_jobs j !! id) (js_order j))))), Ok tt)
      else (j, Err "fleet: rewrite")
  end.

(** The loop of [load]; [bufio.Scanner] gives up at a line of 10 MB. *)
Definition maxLine : Z := 10485760.

Fixpoint load_lines (j : Jobs) (lines : list (list byte)) : Jobs :=
  match lines with
  | [] => j
  | l :: r =>
      if maxLine <=? zlen l then j else
      let l := TrimSpace l in
      if bool_decide (l = []) then load_lines j r else
      match Unmarshal l with
      | Ok b =>
          load_lines
            (set_table j (<[jb_ID b := b]> (js_jobs j))
               (if bool_decide (js_jobs j !! jb_ID b = None) then js_order j ++ [jb_ID b] else js_order j)
               (if bool_decide (jb_IdempotencyKey b = []) then js_index j
                else <[jb_IdempotencyKey b := jb_ID b]> (js_index j))) r
      | _ => load_lines j r
      end
  end.

(** The lines a scanner yields: no empty one after the last newline. *)
Definition scan_lines (f : list byte) : list (list byte) :=
  let ls := Split f x0a in
  match list.last ls with
  | Some [] => take (length ls - 1) ls
  | _ => ls
  end.

Definition NewJobs (file : option (list byte)) : Jobs :=
  let j := mkJobs file ∅ [] ∅ 0 30 10000 1000 in
  match file with
  | None => j
  | Some f => load_lines j (scan_lines f)
  end.

(** ** Submitting *)

Definition activeJobs (j : Jobs) : nat := size (filter (fun e => isActive (jb_Status e.2) = true) (js_jobs j)).

Definition Submit (j : Jobs) (now : Z) (rnd : list byte) (serverID action target actor key : gostring) (w : option nat)
  : Jobs * outcome gostring :=
  match (if bool_decide (key = []) then None else js_index j !! key) with
  | Some existing => (j, Ok existing)
  | None =>
      if (0 <? js_maxActiveJobs j) && (js_maxActiveJobs j <=? Z.of_nat (activeJobs j))
      then (j, Err "fleet: active job limit reached") else
      let id := generateJobID now rnd in
      let b := mkJob id serverID action target actor key false [] 0 JobStatusQueued [] now zeroTime zeroTime in
      let j1 := set_table j (<[id := b]> (js_jobs j)) (js_order j ++ [id])
                  (if bool_decide (key = []) then js_index j else <[key := id]> (js_index j)) in
      match appendLocked j1 b w with
      | (j2, Ok _) => (j2, Ok id)
      | (j2, Err e) =>
          (set_table j2 (delete id (js_jobs j2))
             (if bool_decide (list.last (js_order j2) = Some id) then take (length (js_order j2) - 1) (js_order j2)
              else js_order j2)
             (if bool_decide (key = []) then js_index j2 else delete key (js_index j2)), Err e)
      | (j2, Panic) => (j2, Panic)
      end
  end.

(** [SubmitForce] and [SubmitWithTail]: the job's field is set afterwards, in
    memory. *)
Definition SubmitForce (j : Jobs) (now : Z) (rnd : list byte) (serverID action target actor key : gostring) (force : bool)
    (w : option nat) : Jobs * outcome gostring :=
  match Submit j now rnd serverID action target actor key w with
  | (j, Ok id) =>
      (match js_jobs j !! id with
       | Some b => set_table j (<[id := set_force b force]> (js_jobs j)) (js_order j) (js_index j)
       | None => j
       end, Ok id)
  | r => r
  end.

Definition SubmitWithTail (j : Jobs) (now : Z) (rnd : list byte) (serverID action target actor key : gostring) (tail : Z)
    (w : option nat) : Jobs * outcome gostring :=
  match Submit j now rnd serverID action target actor key w with
  | (j, Ok id) =>
      (match js_jobs j !! id with
       | Some b => set_table j (<[id := set_tail b tail]> (js_jobs j)) (js_order j) (js_index j)
       | None => j
       end, Ok id)
  | r => r
  end.

(** ** Transitions *)

(** A change of a job that is taken back when it cannot be written. *)
Definition change_job (j : Jobs) (id : gostring) (b b' : Job) (w : option nat) : Jobs * outcome unit :=
  let j1 := set_table j (<[id := b']> (js_jobs j)) (js_order j) (js_index j) in
  match appendLocked j1 b' w with
  | (j2, Ok _) => (j2, Ok tt)
  | (j2, Err e) => (set_table j2 (<[id := b]> (js_jobs j2)) (js_order j2) (js_index j2), Err e)
  | (j2, Panic) => (j2, Panic)
  end.

Definition ErrJobNotFound : string := "fleet: job not found".
Definition ErrIllegalJobTransition : string := "fleet: illegal job transition".

Definition Start (j : Jobs) (id : gostring) (now : Z) (w : option nat) : Jobs * outcome unit :=
  match js_jobs j !! id with
  | None => (j, Err ErrJobNotFound)
  | Some b =>
      if negb (bool_decide (jb_Status b = JobStatusQueued)) then (j, Err ErrIllegalJobTransition) else
      change_job j id b (set_status b JobStatusRunning (jb_Error b) now (jb_CompletedAt b)) w
  end.

Definition Complete (j : Jobs) (id : gostring) (status : JobStatus) (errMsg : option gostring) (now : Z) (w : option nat)
  : Jobs * outcome unit :=
  match js_jobs j !! id with
  | None => (j, Err ErrJobNotFound)
  | Some b =>
      if negb (isTerminal status) then (j, Err ErrIllegalJobTransition) else
      if bool_decide (jb_Status b = JobStatusQueued) then (j, Err ErrIllegalJobTransition) else
      if isTerminal (jb_Status b) then (j, Err ErrIllegalJobTransition) else
      let err := if bool_decide (status = JobStatusFailed) then default (jb_Error b) errMsg else jb_Error b in
      change_job j id b (set_status b status err (jb_StartedAt b) now) w
  end.

Definition Fail (j : Jobs) (id errMsg : gostring) (now : Z) (w : option nat) : Jobs * outcome unit :=
  Complete j id JobStatusFailed (Some errMsg) now w.

(** [Cancel] puts the zero time back. *)
Definition Cancel (j : Jobs) (id errMsg : gostring) (now : Z) (w : option nat) : Jobs * outcome unit :=
  match js_jobs j !! id with
  | None => (j, Err ErrJobNotFound)
  | Some b =>
      if negb (bool_decide (jb_Status b = JobStatusQueued)) then (j, Err ErrIllegalJobTransition) else
      change_job j id (set_status b (jb_Status b) (jb_Error b) (jb_StartedAt b) zeroTime)
        (set_status b JobStatusFailed errMsg (jb_StartedAt b) now) w
  end.

(** [SetResult] keeps its change also when it cannot be written. *)
Definition SetResult (j : Jobs) (id result : gostring) (w : option nat) : Jobs * outcome unit :=
  match js_jobs j !! id with
  | None => (j, Err ErrJobNotFound)
  | Some b =>
      let b' := set_result b result in
      appendLocked (set_table j (<[id := b']> (js_jobs j)) (js_order j) (js_index j)) b' w
  end.

(** [checkTimeoutLocked]: a failed write is only logged. *)
Definition checkTimeoutLocked (j : Jobs) (id : gostring) (b : Job) (now : Z) (w : option nat) : Jobs * Job :=
  if bool_decide (jb_Status b = JobStatusRunning) && (0 <? js_timeout j) && (js_timeout j <? now - jb_StartedAt b) then
    let b' := set_status b JobStatusFailed (timeout_message (js_timeout j)) (jb_StartedAt b) now in
    ((appendLocked (set_table j (<[id := b']> (js_jobs j)) (js_order j) (js_index j)) b' w).1, b')
  else (j, b).

Definition Get (j : Jobs) (id : gostring) (now : Z) (w : option nat) : Jobs * outcome Job :=
  match js_jobs j !! id with
  | None => (j, Err ErrJobNotFound)
  | Some b => let '(j, b) := checkTimeoutLocked j id b now w in (j, Ok b)
  end.

(** [List] and [ListByServer]: every listed job is checked for its timeout. *)
Fixpoint list_loop (j : Jobs) (want : Job -> bool) (ids : list gostring) (now : Z) (w : gostring -> option nat)
  : Jobs * list Job :=
  match ids with
  | [] => (j, [])
  | id :: r =>
      match js_jobs j !! id with
      | Some b =>
          if want b then
            let '(j, b) := checkTimeoutLocked j id b now (w id) in
            let '(j, bs) := list_loop j want r now w in (j, b :: bs)
          else list_loop j want r now w
      | None => list_loop j want r now w
      end
  end.

Definition List_ (j : Jobs) (now : Z) (w : gostring -> option nat) : Jobs * list Job :=
  list_loop j (fun _ => true) (js_order j) now w.

Definition ListByServer (j : Jobs) (serverID : gostring) (now : Z) (w : gostring -> option nat) : Jobs * list Job :=
  list_loop j (fun b => bool_decide (jb_ServerID b = serverID)) (js_order j) now w.

(** ** Pruning *)

Definition forget (j : Jobs) (id : gostring) (b : Job) : Jobs :=
  set_table j (delete id (js_jobs j)) (js_order j)
    (if bool_decide (jb_IdempotencyKey b = []) then js_index j else delete (jb_IdempotencyKey b) (js_index j)).

(** Both loops: the identifiers that stay, and how many went. *)
Fixpoint prune_age (j : Jobs) (cutoff : option Z) (ids : list gostring) : Jobs * list gostring * Z :=
  match ids with
  | [] => (j, [], 0)
  | id :: r =>
      match js_jobs j !! id with
      | None => prune_age j cutoff r
      | Some b =>
          if isTerminal (jb_Status b) && (match cutoff with Some c => jb_CreatedAt b <? c | None => false end) then
            let '(j, kept, n) := prune_age (forget j id b) cutoff r in (j, kept, n + 1)
          else let '(j, kept, n) := prune_age j cutoff r in (j, id :: kept, n)
      end
  end.

Fixpoint prune_excess (j : Jobs) (excess : Z) (ids : list gostring) : Jobs * list gostring * Z :=
  match ids with
  | [] => (j, [], 0)
  | id :: r =>
      match js_jobs j !! id with
      | None => prune_excess j excess r
      | Some b =>
          if (0 <? excess) && isTerminal (jb_Status b) then
            let '(j, kept, n) := prune_excess (forget j id b) (excess - 1) r in (j, kept, n + 1)
          else let '(j, kept, n) := prune_excess j excess r in (j, id :: kept, n)
      end
  end.

Definition Prune (j : Jobs) (now : Z) (ok : bool) : Jobs * outcome Z :=
  let cutoff := if 0 <? js_retentionDays j
                then Some (now + i64 (i64 (i64 (- js_retentionDays j) * 24) * 3600000000000)) else None in
  let '(j1, order1, n1) := prune_age j cutoff (js_order j) in
  let '(j2, order2, n2) :=
    if (0 <? js_retentionEntries j) && (js_retentionEntries j <? zlen order1)
    then prune_excess j1 (zlen order1 - js_retentionEntries j) order1 else (j1, order1, 0) in
  let j3 := set_table j2 (js_jobs j2) order2 (js_index j2) in
  match rewriteFileLocked j3 ok with
  | (j4, Ok _) => (j4, Ok (n1 + n2))
  | (j4, Err e) => (j4, Err e)
  | (j4, Panic) => (j4, Panic)
  end.
End jobs.

(** ** An encoding that has the properties of [JobJSON] *)

#[export] Instance JobStatus_countable : Countable JobStatus.
Proof.
  apply (inj_countable'
    (fun st => match st with
      | JobStatusQueued => inl 0%nat | JobStatusAccepted => inl 1%nat | JobStatusRunning => inl 2%nat
      | JobStatusSucceeded => inl 3%nat | JobStatusFailed => inl 4%nat | JobStatusOther s => inr s
      end)
    (fun x => match x with
      | inl 0%nat => JobStatusQueued | inl 1%nat => JobStatusAccepted | inl 2%nat => JobStatusRunning
      | inl 3%nat => JobStatusSucceeded | inl _ => JobStatusFailed | inr s => JobStatusOther s
      end)).
  by intros [].
Defined.

#[export] Instance Job_eq_dec : EqDecision Job.
Proof. solve_decision. Defined.

#[export] Instance Job_countable : Countable Job.
Proof.
  apply (inj_countable'
    (fun b => (jb_ID b, jb_ServerID b, jb_Action b, jb_Target b, jb_Actor b, jb_IdempotencyKey b, jb_Force b,
               (jb_Result b, jb_TailLines b, jb_Status b, jb_Error b, jb_CreatedAt b, jb_StartedAt b, jb_CompletedAt b)))
    (fun x => match x with
      | (i, s, a, t, c, k, f, (r, l, st, e, t1, t2, t3)) => mkJob i s a t c k f r l st e t1 t2 t3
      end)).
  by intros [].
Defined.

Lemma bits_printing p : Forall (fun c => printing c /\ c <> x0a /\ c <> x7d) (bits p).
Proof. induction p; repeat constructor; done. Qed.

Definition bits_Marshal (b : Job) : list byte := x7b :: bits (countable.encode b) ++ [x7d].
Definition bits_Unmarshal (l : list byte) : outcome Job :=
  match l, rev l with
  | x7b :: _, x7d :: r =>
      match countable.decode (of_bits (drop 1 (rev r))) with Some b => Ok b | None => Err "json" end
  | _, _ => Err "json"
  end.

Lemma bits_torn b n :
  (n < length (bits_Marshal b))%nat -> exists e, bits_Unmarshal (TrimSpace (take n (bits_Marshal b))) = Err e.
Proof.
  unfold bits_Marshal. cbn [length]. rewrite length_app. cbn [length]. intros Hn.
  destruct n as [|n]; [by eexists|]. cbn [take]. rewrite take_app_le by lia.
  pose proof (Forall_take _ n _ (bits_printing (countable.encode b))) as Hp.
  destruct (take n (bits (countable.encode b))) as [|c l _] using rev_ind; [by eexists|].
  apply Forall_app in Hp as [_ [(Hc & _ & Hne) _]%Forall_cons]. rewrite (TrimSpace_printing _ x7b c l) by done.
  unfold bits_Unmarshal. rewrite app_comm_cons, rev_app_distr. cbn [rev app]. destruct c; try done; by eexists.
Qed.

#[export] Instance bits_json : JobJSON.
Proof.
  refine {| Marshal := bits_Marshal; Unmarshal := bits_Unmarshal; encodable := fun _ => True |}.
  - intros b _. unfold bits_Unmarshal, bits_Marshal. rewrite app_comm_cons, rev_app_distr.
    change (rev [x7d] ++ ?l) with (x7d :: l). cbn beta iota. rewrite rev_involutive, skipn_cons, drop_0.
    by rewrite of_bits_bits, decode_encode.
  - intros b. exists (bits (countable.encode b)). split; [done|]. eapply Forall_impl; [apply bits_printing|]. by intros c (_ & ? & _).
  - apply bits_torn.
Defined.
