(* ===== verification/FleetJobsProps.v ===== *)
(** * What the fleet's job table guarantees (internal/fleet/jobs.go)

    The operations as events of a run, the life of a job along any run, and the
    table a restart finds in the file. *)

From stdpp Require Import prelude countable strings gmap list.
From Stdlib Require Import ZArith Lia.
From S2P Require Import Prelude GoBinary Wire GoStrings FleetJobs.

Section props.
Context `{!JobJSON}.

(** ** Runs *)

(** [SubmitForce] and [SubmitWithTail] are [Submit] and then a step in memory. *)
Inductive jop :=
  | JSubmit (now : Z) (rnd : list byte) (serverID action target actor key : gostring) (w : option nat)
  | JForce (id : gostring) (force : bool)
  | JTail (id : gostring) (tail : Z)
  | JStart (id : gostring) (now : Z) (w : option nat)
  | JComplete (id : gostring) (status : JobStatus) (errMsg : option gostring) (now : Z) (w : option nat)
  | JCancel (id errMsg : gostring) (now : Z) (w : option nat)
  | JSetResult (id result : gostring) (w : option nat)
  | JGet (id : gostring) (now : Z) (w : option nat)
  | JList (want : Job -> bool) (now : Z) (w : gostring -> option nat)
  | JPrune (now : Z) (ok : bool)
  | JSetTimeout (d : Z)
  | JSetRetention (days entries : Z)
  | JSetMaxActive (limit : Z).

Definition update_job (j : Jobs) (id : gostring) (f : Job -> Job) : Jobs :=
  match js_jobs j !! id with
  | Some b => set_table j (<[id := f b]> (js_jobs j)) (js_order j) (js_index j)
  | None => j
  end.

Definition jstep (j : Jobs) (o : jop) : Jobs :=
  match o with
  | JSubmit now rnd serverID action target actor key w => (Submit j now rnd serverID action target actor key w).1
  | JForce id force => update_job j id (fun b => set_force b force)
  | JTail id tail => update_job j id (fun b => set_tail b tail)
  | JStart id now w => (Start j id now w).1
  | JComplete id status errMsg now w => (Complete j id status errMsg now w).1
  | JCancel id errMsg now w => (Cancel j id errMsg now w).1
  | JSetResult id result w => (SetResult j id result w).1
  | JGet id now w => (Get j id now w).1
  | JList want now w => (list_loop j want (js_order j) now w).1
  | JPrune now ok => (Prune j now ok).1
  | JSetTimeout d => SetTimeout j d
  | JSetRetention days entries => SetRetention j days entries
  | JSetMaxActive limit => SetMaxActiveJobs j limit
  end.

Lemma SubmitForce_steps j now rnd serverID action target actor key force w :
  (SubmitForce j now rnd serverID action target actor key force w).1
  = match Submit j now rnd serverID action target actor key w with
    | (j', Ok id) => jstep j' (JForce id force)
    | (j', _) => j'
    end.
Proof. unfold SubmitForce. by destruct (Submit _ _ _ _ _ _ _ _ _) as [j' []]. Qed.

Lemma SubmitWithTail_steps j now rnd serverID action target actor key tail w :
  (SubmitWithTail j now rnd serverID action target actor key tail w).1
  = match Submit j now rnd serverID action target actor key w with
    | (j', Ok id) => jstep j' (JTail id tail)
    | (j', _) => j'
    end.
Proof. unfold SubmitWithTail. by destruct (Submit _ _ _ _ _ _ _ _ _) as [j' []]. Qed.

(** ** The table *)

Record table_ok (j : Jobs) : Prop := {
  to_nodup : NoDup (js_order j);
  to_order id : id ∈ js_order j <-> is_Some (js_jobs j !! id);
  to_id id b : js_jobs j !! id = Some b -> jb_ID b = id;
  to_index k id : js_index j !! k = Some id -> k <> [] /\ exists b, js_jobs j !! id = Some b /\ jb_IdempotencyKey b = k;
  to_key id b : js_jobs j !! id = Some b -> jb_IdempotencyKey b <> [] -> js_index j !! jb_IdempotencyKey b = Some id }.

Definition same_table (j j' : Jobs) : Prop :=
  js_jobs j' = js_jobs j /\ js_order j' = js_order j /\ js_index j' = js_index j.

Lemma table_ok_same j j' : same_table j j' -> table_ok j -> table_ok j'.
Proof. intros (E1 & E2 & E3) [? ? ? ? ?]. constructor; by rewrite ?E1, ?E2, ?E3. Qed.

Lemma append_table j b w : same_table j (appendLocked j b w).1.
Proof. unfold appendLocked. destruct (js_file j); [destruct w|]; by split_and!. Qed.

Lemma append_settings j b w :
  js_timeout (appendLocked j b w).1 = js_timeout j /\ js_maxActiveJobs (appendLocked j b w).1 = js_maxActiveJobs j.
Proof. unfold appendLocked. destruct (js_file j); [destruct w|]; by split_and!. Qed.

Lemma append_job_no_panic j b w : (appendLocked j b w).2 <> Panic.
Proof. unfold appendLocked. by destruct (js_file j); [destruct w|]. Qed.

(** What identifies a job. *)
Definition same_identity (b b' : Job) : Prop :=
  jb_ID b' = jb_ID b /\ jb_ServerID b' = jb_ServerID b /\ jb_Action b' = jb_Action b /\ jb_Target b' = jb_Target b /\
  jb_Actor b' = jb_Actor b /\ jb_IdempotencyKey b' = jb_IdempotencyKey b /\ jb_CreatedAt b' = jb_CreatedAt b.

(** Replacing a job by a later version of itself. *)
Lemma insert_table_ok j id b b' :
  table_ok j -> js_jobs j !! id = Some b -> same_identity b b' ->
  table_ok (set_table j (<[id := b']> (js_jobs j)) (js_order j) (js_index j)).
Proof.
  intros [H1 H2 H3 H4 H5] Hb (E1 & _ & _ & _ & _ & E2 & _). constructor; cbn; [done|..].
  - intros i. rewrite H2. destruct (decide (i = id)) as [->|Hne]; [rewrite lookup_insert_eq, Hb|by rewrite lookup_insert_ne].
    split; intros _; by eexists.
  - intros i x [[<- <-]|[_ Hx]]%lookup_insert_Some; [rewrite E1|]; by apply H3.
  - intros k i Hk. destruct (H4 k i Hk) as (Hk' & x & Hx & Ex). split; [done|].
    destruct (decide (i = id)) as [->|Hne]; [|exists x; by rewrite lookup_insert_ne].
    exists b'. rewrite lookup_insert_eq. split; [done|]. congruence.
  - intros i x [[<- <-]|[_ Hx]]%lookup_insert_Some Hk; [rewrite E2 in Hk |- *|]; by apply H5.
Qed.

(** ** The life of a job *)

(** The states a job goes through; in each of them some fields are settled. *)
Inductive moves : Job -> Job -> Prop :=
  | moves_stay b b' :
      same_identity b b' -> jb_Status b' = jb_Status b -> jb_Error b' = jb_Error b ->
      jb_StartedAt b' = jb_StartedAt b -> jb_CompletedAt b' = jb_CompletedAt b -> moves b b'
  | moves_start b b' :
      same_identity b b' -> jb_Status b = JobStatusQueued -> jb_Status b' = JobStatusRunning -> moves b b'
  | moves_cancel b b' :
      same_identity b b' -> jb_Status b = JobStatusQueued -> jb_Status b' = JobStatusFailed -> moves b b'
  | moves_finish b b' :
      same_identity b b' -> jb_Status b <> JobStatusQueued -> isTerminal (jb_Status b) = false ->
      isTerminal (jb_Status b') = true -> moves b b'.

Lemma moves_refl b : moves b b.
Proof. by apply moves_stay. Qed.

Lemma moves_identity b b' : moves b b' -> same_identity b b'.
Proof. by destruct 1. Qed.

(** A queued job has not been completed. *)
Definition queued_fresh (j : Jobs) : Prop :=
  map_Forall (fun _ b => jb_Status b = JobStatusQueued -> jb_CompletedAt b = zeroTime) (js_jobs j).

(** How a step treats the jobs: each one moves, or is terminal and forgotten; the
    identifiers of new ones are among [new], and they are queued. *)
Section steps.
Context (new : list gostring).

Record steps (j j' : Jobs) : Prop := {
  st_old id b : js_jobs j !! id = Some b ->
    (exists b', js_jobs j' !! id = Some b' /\ moves b b') \/ js_jobs j' !! id = None /\ isTerminal (jb_Status b) = true;
  st_new id b' : js_jobs j' !! id = Some b' -> js_jobs j !! id = None ->
    id ∈ new /\ jb_Status b' = JobStatusQueued /\ jb_CompletedAt b' = zeroTime }.

Lemma steps_same j j' : js_jobs j' = js_jobs j -> steps j j'.
Proof. intros E. constructor; rewrite E; [|congruence]. intros id b Hb. left. exists b. split; [done|apply moves_refl]. Qed.

Lemma steps_insert j j' id b b' :
  js_jobs j !! id = Some b -> moves b b' -> js_jobs j' = <[id := b']> (js_jobs j) -> steps j j'.
Proof.
  intros Hb Hm E. constructor; rewrite E.
  - intros i x Hx. left. destruct (decide (i = id)) as [->|Hne].
    + exists b'. rewrite lookup_insert_eq. split; [done|]. congruence.
    + exists x. rewrite lookup_insert_ne by done. split; [done|apply moves_refl].
  - intros i x [[<- <-]|[_ Hx]]%lookup_insert_Some Hn; congruence.
Qed.

Lemma steps_queued_fresh j j' : steps j j' -> queued_fresh j -> queued_fresh j'.
Proof.
  intros [Ho Hn] Hq id b' Hb' Hs. destruct (js_jobs j !! id) as [b|] eqn:Hb; [|by destruct (Hn id b' Hb' Hb) as (_ & _ & ?)].
  destruct (Ho id b Hb) as [(x & Hx & Hm)|[Hx _]]; [|congruence]. rewrite Hb' in Hx. apply (inj Some) in Hx as <-.
  destruct Hm as [b b' _ E1 _ _ E2|? ? _ _ E|? ? _ _ E|? ? _ _ _ E]; try congruence.
  - rewrite E2. apply (Hq id b Hb). congruence.
  - rewrite Hs in E. done.
Qed.

(** *** Changes of one job *)

Lemma change_job_spec j id b0 b b' w :
  js_jobs j !! id = Some b0 -> table_ok j -> moves b0 b -> moves b0 b' ->
  table_ok (change_job j id b b' w).1 /\ steps j (change_job j id b b' w).1.
Proof.
  intros Hb Ht Hm Hm'. unfold change_job.
  set (j1 := set_table j (<[id := b']> (js_jobs j)) (js_order j) (js_index j)).
  assert (table_ok j1) as Ht1 by (by eapply insert_table_ok; [..|by apply moves_identity]).
  pose proof (append_table j1 b' w) as (E1 & E2 & E3). pose proof (append_job_no_panic j1 b' w) as Hp.
  destruct (appendLocked j1 b' w) as [j2 [[]|e|]]; cbn [fst snd] in *; [| |done].
  - split; [by apply (table_ok_same j1)|]. by eapply steps_insert.
  - split.
    + apply (table_ok_same (set_table j (<[id := b]> (js_jobs j)) (js_order j) (js_index j))).
      * split_and!; cbn; [|done|done]. rewrite E1. cbn. by rewrite insert_insert_eq.
      * by eapply insert_table_ok; [..|by apply moves_identity].
    + eapply steps_insert; [done|exact Hm|]. cbn. rewrite E1. cbn. by rewrite insert_insert_eq.
Qed.

Lemma identity_status b st err started completed : same_identity b (set_status b st err started completed).
Proof. by split_and!. Qed.

Lemma Start_spec j id now w :
  table_ok j -> table_ok (Start j id now w).1 /\ steps j (Start j id now w).1.
Proof.
  intros Ht. unfold Start. destruct (js_jobs j !! id) as [b|] eqn:Hb; [|split; [done|by apply steps_same]].
  case_bool_decide as Hs; cbn [negb]; [|split; [done|by apply steps_same]].
  apply (change_job_spec _ _ b); [done|done|apply moves_refl|]. by apply moves_start.
Qed.

Lemma Complete_spec j id status errMsg now w :
  table_ok j -> table_ok (Complete j id status errMsg now w).1 /\ steps j (Complete j id status errMsg now w).1.
Proof.
  intros Ht. unfold Complete. destruct (js_jobs j !! id) as [b|] eqn:Hb; [|split; [done|by apply steps_same]].
  destruct (isTerminal status) eqn:Hst; cbn [negb]; [|split; [done|by apply steps_same]].
  case_bool_decide as Hs; [split; [done|by apply steps_same]|].
  destruct (isTerminal (jb_Status b)) eqn:Hb'; [split; [done|by apply steps_same]|].
  apply (change_job_spec _ _ b); [done|done|apply moves_refl|]. by apply moves_finish.
Qed.

Lemma Cancel_spec j id errMsg now w :
  table_ok j -> queued_fresh j -> table_ok (Cancel j id errMsg now w).1 /\ steps j (Cancel j id errMsg now w).1.
Proof.
  intros Ht Hq. unfold Cancel. destruct (js_jobs j !! id) as [b|] eqn:Hb; [|split; [done|by apply steps_same]].
  case_bool_decide as Hs; cbn [negb]; [|split; [done|by apply steps_same]].
  apply (change_job_spec _ _ b); [done|done| |by apply moves_cancel].
  apply moves_stay; cbn; try done. by rewrite (Hq id b Hb Hs).
Qed.

(** A change that stays in memory whatever the file does. *)
Lemma keep_change_spec j id b b' w :
  js_jobs j !! id = Some b -> table_ok j -> moves b b' ->
  let r := (appendLocked (set_table j (<[id := b']> (js_jobs j)) (js_order j) (js_index j)) b' w).1 in
  table_ok r /\ steps j r.
Proof.
  intros Hb Ht Hm. cbn zeta. set (j1 := set_table _ _ _ _). pose proof (append_table j1 b' w) as (E1 & E2 & E3). split.
  - apply (table_ok_same j1); [done|]. by eapply insert_table_ok; [..|by apply moves_identity].
  - by eapply steps_insert.
Qed.

Lemma update_job_spec j id f :
  (forall b, moves b (f b)) -> table_ok j -> table_ok (update_job j id f) /\ steps j (update_job j id f).
Proof.
  intros Hf Ht. unfold update_job. destruct (js_jobs j !! id) as [b|] eqn:Hb; [|split; [done|by apply steps_same]]. split.
  - by eapply insert_table_ok; [..|by apply moves_identity].
  - by eapply steps_insert.
Qed.

(** *** Timeouts *)

(** What looking at the jobs does to one of them. *)
Definition timed (b b' : Job) : Prop :=
  b' = b \/ same_identity b b' /\ jb_Status b = JobStatusRunning /\ jb_Status b' = JobStatusFailed.

Lemma timed_moves b b' : timed b b' -> moves b b'.
Proof.
  intros [->|(Hi & E1 & E2)]; [apply moves_refl|]. apply moves_finish; [done|by rewrite E1|by rewrite E1|by rewrite E2].
Qed.

Lemma timed_trans a b c : timed a b -> timed b c -> timed a c.
Proof. intros [->|(Hi & E1 & E2)] [->|(Hi' & E3 & E4)]; [by left|by right|by right|congruence]. Qed.

Record looked (j j' : Jobs) : Prop := {
  lk_table : table_ok j';
  lk_jobs id b : js_jobs j !! id = Some b -> exists b', js_jobs j' !! id = Some b' /\ timed b b';
  lk_none id : js_jobs j !! id = None -> js_jobs j' !! id = None }.

Lemma looked_steps j j' : looked j j' -> steps j j'.
Proof.
  intros [_ H1 H2]. constructor.
  - intros id b (b' & Hb' & Ht)%H1. left. exists b'. split; [done|by apply timed_moves].
  - intros id b' Hb' Hn%H2. congruence.
Qed.

Lemma looked_trans a b c : looked a b -> looked b c -> looked a c.
Proof.
  intros [_ H1 H2] [Ht H3 H4]. constructor; [done| |auto].
  intros id x (y & (z & Hz & Hyz)%H3 & Hxy)%H1. exists z. split; [done|by eapply timed_trans].
Qed.

Lemma looked_refl j : table_ok j -> looked j j.
Proof. intros Ht. constructor; [done| |done]. intros id b Hb. exists b. split; [done|by left]. Qed.

Lemma checkTimeout_spec j id b now w :
  table_ok j -> js_jobs j !! id = Some b -> looked j (checkTimeoutLocked j id b now w).1.
Proof.
  intros Ht Hb. unfold checkTimeoutLocked. destruct (_ && _ && _) eqn:E; [|by apply looked_refl]. cbn [fst].
  set (b' := set_status _ _ _ _ _). set (j1 := set_table _ _ _ _).
  pose proof (append_table j1 b' w) as (E1 & E2 & E3).
  assert (timed b b') as Htm.
  { right. apply andb_prop in E as [E _]. apply andb_prop in E as [E%bool_decide_eq_true_1 _]. by split_and!. }
  constructor.
  - apply (table_ok_same j1); [done|]. eapply insert_table_ok; [done|done|]. by apply moves_identity, timed_moves.
  - intros i x Hx. rewrite E1. cbn. destruct (decide (i = id)) as [->|Hne].
    + exists b'. rewrite lookup_insert_eq. split; [done|]. congruence.
    + exists x. rewrite lookup_insert_ne by done. split; [done|by left].
  - intros i Hi. rewrite E1. cbn. rewrite lookup_insert_ne; [done|]. congruence.
Qed.

Lemma list_loop_spec j want ids now w : table_ok j -> looked j (list_loop j want ids now w).1.
Proof.
  revert j. induction ids as [|id ids IH]; intros j Ht; cbn [list_loop]; [by apply looked_refl|].
  destruct (js_jobs j !! id) as [b|] eqn:Hb; [|by apply IH]. destruct (want b); [|by apply IH].
  pose proof (checkTimeout_spec j id b now (w id) Ht Hb) as H1. destruct (checkTimeoutLocked j id b now (w id)) as [j1 b1].
  cbn [fst] in H1. specialize (IH j1 (lk_table _ _ H1)). destruct (list_loop j1 want ids now w). cbn in *.
  by eapply looked_trans.
Qed.

(** *** Pruning *)

(** The table without its order. *)
Definition index_ok (j : Jobs) : Prop :=
  (forall id b, js_jobs j !! id = Some b -> jb_ID b = id) /\
  (forall k id, js_index j !! k = Some id -> k <> [] /\ exists b, js_jobs j !! id = Some b /\ jb_IdempotencyKey b = k) /\
  (forall id b, js_jobs j !! id = Some b -> jb_IdempotencyKey b <> [] -> js_index j !! jb_IdempotencyKey b = Some id).

Lemma forget_index_ok j id b : js_jobs j !! id = Some b -> index_ok j -> index_ok (forget j id b).
Proof.
  intros Hb (H1 & H2 & H3). unfold forget. split_and!; cbn.
  - intros i x [_ Hx]%lookup_delete_Some. by apply H1.
  - intros k i Hk. assert (js_index j !! k = Some i /\ (jb_IdempotencyKey b = [] \/ jb_IdempotencyKey b <> k)) as [Hk' Hne].
    { case_bool_decide; [by split; [|left]|]. apply lookup_delete_Some in Hk as [? ?]. by split; [|right]. }
    destruct (H2 k i Hk') as (Hnn & x & Hx & Ex). split; [done|]. exists x. split; [|done].
    apply lookup_delete_Some. split; [|done]. intros ->. rewrite Hb in Hx. apply (inj Some) in Hx as ->.
    destruct Hne; congruence.
  - intros i x [Hne Hx]%lookup_delete_Some Hk. specialize (H3 i x Hx Hk) as Hi. case_bool_decide as Hkb; [done|].
    apply lookup_delete_Some. split; [|done]. intros E. specialize (H3 id b Hb Hkb). congruence.
Qed.

(** What a pruning loop over [ids] leaves. *)
Record pruned (ids : list gostring) (j : Jobs) (r : Jobs * list gostring * Z) : Prop := {
  pr_index : index_ok r.1.1;
  pr_jobs id b : js_jobs j !! id = Some b ->
    js_jobs r.1.1 !! id = Some b \/ js_jobs r.1.1 !! id = None /\ isTerminal (jb_Status b) = true /\ id ∈ ids;
  pr_none id : js_jobs j !! id = None -> js_jobs r.1.1 !! id = None;
  pr_kept id : id ∈ r.1.2 <-> id ∈ ids /\ is_Some (js_jobs r.1.1 !! id);
  pr_sub : sublist r.1.2 ids;
  pr_file : js_file r.1.1 = js_file j;
  pr_max : js_maxActiveJobs r.1.1 = js_maxActiveJobs j }.

Lemma pruned_nil j : index_ok j -> pruned [] j (j, [], 0).
Proof. intros Hi. constructor; cbn; try done; [by left|set_solver]. Qed.

Lemma pruned_skip id ids j r : js_jobs j !! id = None -> pruned ids j r -> pruned (id :: ids) j r.
Proof.
  intros Hn [H1 H2 H3 H4 H5 H6 H7]. constructor; try done.
  - intros i b [?|(? & ? & ?)]%H2; [by left|right]. split_and!; [done|done|by right].
  - intros i. rewrite H4, elem_of_cons. split; [naive_solver|]. intros [[->|?] Hs]; [|done].
    rewrite (H3 id Hn) in Hs. by destruct Hs.
  - by constructor.
Qed.

Lemma pruned_keep id ids j j' kept n :
  id ∉ ids -> is_Some (js_jobs j !! id) -> pruned ids j (j', kept, n) -> pruned (id :: ids) j (j', id :: kept, n).
Proof.
  intros Hni [b Hb] [H1 H2 H3 H4 H5 H6 H7]. cbn [fst snd] in *. constructor; cbn [fst snd]; try done.
  - intros i x [?|(? & ? & ?)]%H2; [by left|right]. split_and!; [done|done|by right].
  - intros i. rewrite !elem_of_cons, H4. split; [|naive_solver]. intros [->|[? ?]]; [|by split; [right|]].
    split; [by left|]. destruct (H2 id b Hb) as [?|(_ & _ & ?)]; [by exists b|done].
  - by constructor.
Qed.

Lemma pruned_forget id ids j b j' kept n :
  id ∉ ids -> js_jobs j !! id = Some b -> isTerminal (jb_Status b) = true ->
  pruned ids (forget j id b) (j', kept, n) -> pruned (id :: ids) j (j', kept, n + 1).
Proof.
  intros Hni Hb Ht [H1 H2 H3 H4 H5 H6 H7]. cbn [fst snd] in *.
  assert (js_jobs j' !! id = None) as Hgone by (apply H3, lookup_delete_eq).
  constructor; cbn [fst snd]; try done.
  - intros i x Hx. destruct (decide (i = id)) as [->|Hne].
    + right. split_and!; [done|congruence|by left].
    + destruct (H2 i x) as [?|(? & ? & ?)]; [by cbn; rewrite lookup_delete_ne|by left|].
      right. split_and!; [done|done|by right].
  - intros i Hi. apply H3. cbn. rewrite lookup_delete_ne; [done|]. congruence.
  - intros i. rewrite elem_of_cons, H4. split; [naive_solver|]. intros [[->|?] Hs]; [|done]. rewrite Hgone in Hs. by destruct Hs.
  - by constructor.
Qed.

Lemma prune_age_spec j cutoff ids : NoDup ids -> index_ok j -> pruned ids j (prune_age j cutoff ids).
Proof.
  intros Hnd. revert j. induction Hnd as [|id ids Hni _ IH]; intros j Hi; cbn [prune_age]; [by apply pruned_nil|].
  destruct (js_jobs j !! id) as [b|] eqn:Hb; [|apply pruned_skip; auto]. destruct (isTerminal (jb_Status b)) eqn:Ht; cbn [andb].
  - destruct (match cutoff with Some c => jb_CreatedAt b <? c | None => false end).
    + specialize (IH _ (forget_index_ok j id b Hb Hi)). destruct (prune_age (forget j id b) cutoff ids) as [[j' kept] n].
      by eapply pruned_forget.
    + specialize (IH _ Hi). destruct (prune_age j cutoff ids) as [[j' kept] n]. by eapply pruned_keep.
  - specialize (IH _ Hi). destruct (prune_age j cutoff ids) as [[j' kept] n]. by eapply pruned_keep.
Qed.

Lemma prune_excess_spec j excess ids : NoDup ids -> index_ok j -> pruned ids j (prune_excess j excess ids).
Proof.
  intros Hnd. revert j excess. induction Hnd as [|id ids Hni _ IH]; intros j excess Hi; cbn [prune_excess]; [by apply pruned_nil|].
  destruct (js_jobs j !! id) as [b|] eqn:Hb; [|apply pruned_skip; auto].
  destruct ((0 <? excess) && isTerminal (jb_Status b)) eqn:E.
  - apply andb_prop in E as [_ Ht]. specialize (IH _ (excess - 1) (forget_index_ok j id b Hb Hi)).
    destruct (prune_excess (forget j id b) (excess - 1) ids) as [[j' kept] n]. by eapply pruned_forget.
  - specialize (IH _ excess Hi). destruct (prune_excess j excess ids) as [[j' kept] n]. by eapply pruned_keep.
Qed.

Lemma rewrite_table j ok : same_table j (rewriteFileLocked j ok).1 /\ js_maxActiveJobs (rewriteFileLocked j ok).1 = js_maxActiveJobs j.
Proof. unfold rewriteFileLocked. destruct (js_file j); [destruct ok|]; by split_and!. Qed.

Lemma pruned_order ids j r :
  (forall id, id ∈ ids <-> is_Some (js_jobs j !! id)) -> NoDup ids -> pruned ids j r ->
  (forall id, id ∈ r.1.2 <-> is_Some (js_jobs r.1.1 !! id)) /\ NoDup r.1.2.
Proof.
  intros Ho Hnd [_ H2 H3 H4 H5 _ _]. split; [|by eapply sublist_NoDup]. intros id. rewrite H4. split; [naive_solver|].
  intros Hs. split; [|done]. apply Ho. destruct (js_jobs j !! id) eqn:E; [by eexists|]. rewrite (H3 id E) in Hs. by destruct Hs.
Qed.

Lemma Prune_state j now ok :
  table_ok j -> exists j2 order2, (Prune j now ok).1 = (rewriteFileLocked (set_table j2 (js_jobs j2) order2 (js_index j2)) ok).1 /\
    js_file j2 = js_file j /\ js_maxActiveJobs j2 = js_maxActiveJobs j /\
    table_ok (set_table j2 (js_jobs j2) order2 (js_index j2)) /\
    (forall id b, js_jobs j !! id = Some b ->
       js_jobs j2 !! id = Some b \/ js_jobs j2 !! id = None /\ isTerminal (jb_Status b) = true) /\
    forall id, js_jobs j !! id = None -> js_jobs j2 !! id = None.
Proof.
  intros [T1 T2 T3 T4 T5]. unfold Prune.
  match goal with |- context [prune_age j ?c _] => set (cutoff := c) end.
  pose proof (prune_age_spec j cutoff (js_order j) T1 (conj T3 (conj T4 T5))) as P1.
  pose proof (pruned_order _ _ _ T2 T1 P1) as [O1 N1].
  destruct (prune_age j cutoff (js_order j)) as [[j1 order1] n1]. cbn [fst snd] in *.
  set (r2 := if (0 <? js_retentionEntries j) && (js_retentionEntries j <? zlen order1)
             then prune_excess j1 (zlen order1 - js_retentionEntries j) order1 else (j1, order1, 0)).
  assert (pruned order1 j1 r2) as P2.
  { unfold r2. destruct (_ && _); [apply prune_excess_spec; [done|apply P1]|].
    constructor; cbn; try done; [apply P1|by left|]. intros id. rewrite O1. naive_solver. }
  pose proof (pruned_order _ _ _ O1 N1 P2) as [O2 N2]. destruct r2 as [[j2 order2] n2]. cbn [fst snd] in *.
  exists j2, order2. split.
  { destruct (rewriteFileLocked _ ok) as [j4 []]; done. }
  split; [etrans; [apply (pr_file _ _ _ P2)|apply (pr_file _ _ _ P1)]|].
  split; [etrans; [apply (pr_max _ _ _ P2)|apply (pr_max _ _ _ P1)]|].
  destruct (pr_index _ _ _ P2) as (I1 & I2 & I3). cbn [fst snd] in *. split; [by constructor|]. split.
  - intros id b Hb. destruct (pr_jobs _ _ _ P1 id b Hb) as [Hk|(Hk & Ht & _)]; cbn in Hk.
    + destruct (pr_jobs _ _ _ P2 id b Hk) as [Hk'|(Hk' & Ht & _)]; [by left|by right].
    + right. split; [|done]. by apply (pr_none _ _ _ P2).
  - intros id Hk. by apply (pr_none _ _ _ P2), (pr_none _ _ _ P1).
Qed.

Lemma Prune_spec j now ok :
  table_ok j -> table_ok (Prune j now ok).1 /\ steps j (Prune j now ok).1.
Proof.
  intros Ht. destruct (Prune_state j now ok Ht) as (j2 & order2 & -> & _ & _ & Ht2 & Ho & Hn).
  destruct (rewrite_table (set_table j2 (js_jobs j2) order2 (js_index j2)) ok) as [(E1 & E2 & E3) _].
  split; [by eapply table_ok_same|]. constructor; rewrite E1; cbn.
  - intros id b [Hk|[Hk ?]]%Ho; [left; exists b; split; [done|apply moves_refl]|by right].
  - intros id b' Hk ?%Hn. congruence.
Qed.

End steps.

(** *** Submitting *)

Lemma last_snoc_order (order : list gostring) id :
  list.last (order ++ [id]) = Some id /\ take (length (order ++ [id]) - 1) (order ++ [id]) = order.
Proof.
  split; [apply last_snoc|]. rewrite length_app. cbn. rewrite take_app_length'; [done|]. lia.
Qed.

(** A new job, kept or taken back. *)
Lemma Submit_cases j now rnd serverID action target actor key w :
  let id := generateJobID now rnd in
  let r := Submit j now rnd serverID action target actor key w in
  js_jobs j !! id = None ->
  same_table j r.1 /\ (js_file r.1 = js_file j \/ exists e, r.2 = Err e) \/
  let b := mkJob id serverID action target actor key false [] 0 JobStatusQueued [] now zeroTime zeroTime in
  r.2 = Ok id /\ (key <> [] -> js_index j !! key = None) /\
  (0 < js_maxActiveJobs j -> Z.of_nat (activeJobs j) < js_maxActiveJobs j) /\
  r.1 = (appendLocked (set_table j (<[id := b]> (js_jobs j)) (js_order j ++ [id])
           (if bool_decide (key = []) then js_index j else <[key := id]> (js_index j))) b w).1.
Proof.
  intros id r Hf. unfold r, Submit.
  destruct (if bool_decide (key = []) then None else js_index j !! key) as [ex|] eqn:Ek.
  { left. split; [by split_and!|by left]. }
  destruct ((0 <? js_maxActiveJobs j) && _) eqn:El; [left; split; [by split_and!|by left]|].
  fold id. set (b := mkJob _ _ _ _ _ _ _ _ _ _ _ _ _ _). set (j1 := set_table j _ _ _).
  pose proof (append_table j1 b w) as (E1 & E2 & E3). pose proof (append_job_no_panic j1 b w) as Hp.
  destruct (appendLocked j1 b w) as [j2 [[]|e|]]; cbn [fst snd] in *; [right|left|done].
  - split_and!; try done.
    + intros Hk. by rewrite bool_decide_eq_false_2 in Ek.
    + intros Hm. apply andb_false_iff in El as [El|El]; [apply Z.ltb_ge in El|apply Z.leb_gt in El]; lia.
  - split; [|right; by eexists]. split_and!; cbn [set_table js_jobs js_order js_index].
    + rewrite E1. cbn. by rewrite delete_insert_id.
    + rewrite E2. cbn [j1 set_table js_order]. destruct (last_snoc_order (js_order j) id) as [-> ->]. by rewrite bool_decide_eq_true_2.
    + rewrite E3. cbn. case_bool_decide; [done|]. by rewrite delete_insert_id.
Qed.

Lemma new_job_table_ok j id b :
  table_ok j -> js_jobs j !! id = None -> jb_ID b = id ->
  (jb_IdempotencyKey b <> [] -> js_index j !! jb_IdempotencyKey b = None) ->
  table_ok (set_table j (<[id := b]> (js_jobs j)) (js_order j ++ [id])
    (if bool_decide (jb_IdempotencyKey b = []) then js_index j else <[jb_IdempotencyKey b := id]> (js_index j))).
Proof.
  intros [H1 H2 H3 H4 H5] Hn Hid Hk. constructor; cbn.
  - apply NoDup_app. split_and!; [done| |apply NoDup_singleton].
    intros x Hx%H2 [->|?%not_elem_of_nil]%elem_of_cons; [|done]. rewrite Hn in Hx. by destruct Hx.
  - intros i. rewrite elem_of_app, H2, list_elem_of_singleton. destruct (decide (i = id)) as [->|Hne].
    + rewrite lookup_insert_eq, Hn. naive_solver.
    + rewrite lookup_insert_ne by done. naive_solver.
  - intros i x [[<- <-]|[_ Hx]]%lookup_insert_Some; [done|by apply H3].
  - intros k i Hki. assert ((k = jb_IdempotencyKey b /\ i = id /\ k <> []) \/ js_index j !! k = Some i) as [(-> & -> & Hne)|Hki'].
    { case_bool_decide; [by right|]. apply lookup_insert_Some in Hki as [[<- <-]|[_ ?]]; [by left|by right]. }
    + split; [done|]. exists b. by rewrite lookup_insert_eq.
    + destruct (H4 k i Hki') as (? & x & Hx & Ex). split; [done|]. exists x. split; [|done].
      rewrite lookup_insert_ne; [done|]. congruence.
  - intros i x [[<- <-]|[Hne Hx]]%lookup_insert_Some Hkx.
    + rewrite bool_decide_eq_false_2 by done. apply lookup_insert_eq.
    + specialize (H5 i x Hx Hkx) as Hi. case_bool_decide as Hb; [done|]. rewrite lookup_insert_ne; [done|].
      intros E. rewrite E in Hk. rewrite (Hk Hkx) in Hi. done.
Qed.

Lemma Submit_spec j now rnd serverID action target actor key w :
  table_ok j -> js_jobs j !! generateJobID now rnd = None ->
  table_ok (Submit j now rnd serverID action target actor key w).1 /\
  steps [generateJobID now rnd] j (Submit j now rnd serverID action target actor key w).1.
Proof.
  intros Ht Hn. destruct (Submit_cases j now rnd serverID action target actor key w Hn) as [[Hs _]|(_ & Hk & _ & ->)].
  { split; [by eapply table_ok_same|]. apply steps_same, Hs. }
  set (b := mkJob _ _ _ _ _ _ _ _ _ _ _ _ _ _). set (j1 := set_table _ _ _ _).
  pose proof (append_table j1 b w) as (E1 & E2 & E3). split.
  - apply (table_ok_same j1); [done|]. by apply (new_job_table_ok j (generateJobID now rnd) b).
  - constructor; rewrite E1; cbn [j1 set_table js_jobs].
    + intros i x Hx. left. exists x. rewrite lookup_insert_ne by congruence. split; [done|apply moves_refl].
    + intros i x [[<- <-]|[_ Hx]]%lookup_insert_Some Hi; [|congruence]. split; [by left|done].
Qed.

(** *** One step, and runs *)

(** The identifiers drawn by the submissions. *)
Definition job_ids (os : list jop) : list gostring :=
  omap (fun o => match o with JSubmit now rnd _ _ _ _ _ _ => Some (generateJobID now rnd) | _ => None end) os.

(** Identifiers are drawn at random and do not repeat. *)
Definition new_id (j : Jobs) (o : jop) : Prop :=
  match o with
  | JSubmit now rnd _ _ _ _ _ _ => js_jobs j !! generateJobID now rnd = None
  | _ => True
  end.

Lemma jstep_spec j o :
  table_ok j -> queued_fresh j -> new_id j o -> table_ok (jstep j o) /\ steps (job_ids [o]) j (jstep j o).
Proof.
  intros Ht Hq Hn. destruct o; cbn [jstep new_id] in *.
  - by apply Submit_spec.
  - apply update_job_spec; [|done]. intros b. by apply moves_stay.
  - apply update_job_spec; [|done]. intros b. by apply moves_stay.
  - by apply Start_spec.
  - by apply Complete_spec.
  - by apply Cancel_spec.
  - unfold SetResult. destruct (js_jobs j !! id) as [b|] eqn:Hb; [|split; [done|by apply steps_same]].
    apply (keep_change_spec _ _ _ b); [done|done|]. by apply moves_stay.
  - unfold Get. destruct (js_jobs j !! id) as [b|] eqn:Hb; [|split; [done|by apply steps_same]].
    pose proof (checkTimeout_spec j id b now w Ht Hb) as Hl. destruct (checkTimeoutLocked j id b now w). cbn in *.
    split; [apply Hl|by apply looked_steps].
  - pose proof (list_loop_spec j want (js_order j) now w Ht) as Hl. split; [apply Hl|by apply looked_steps].
  - by apply Prune_spec.
  - split; [by apply (table_ok_same j)|by apply steps_same].
  - split; [by apply (table_ok_same j)|by apply steps_same].
  - split; [by apply (table_ok_same j)|by apply steps_same].
Qed.

Definition jrun (j : Jobs) (os : list jop) : Jobs := fold_left jstep os j.

(** A table with nothing in it, with a file or without. *)
Definition empty_jobs (file : option (list byte)) : Jobs := mkJobs file ∅ [] ∅ 0 30 10000 1000.

(** The invariant of runs; [used] are the identifiers drawn so far. *)
Record run_inv (used : list gostring) (j : Jobs) : Prop := {
  ri_table : table_ok j;
  ri_queued : queued_fresh j;
  ri_used id : is_Some (js_jobs j !! id) -> id ∈ used }.

Lemma empty_inv file : run_inv [] (empty_jobs file).
Proof.
  constructor; cbn.
  - constructor; cbn; try done; [constructor|]. intros id. rewrite lookup_empty. split; [by intros ?%not_elem_of_nil|by intros [? ?]].
  - apply map_Forall_empty.
  - intros id [? ?]. done.
Qed.

Lemma jstep_inv used j o :
  run_inv used j -> NoDup (used ++ job_ids [o]) ->
  run_inv (used ++ job_ids [o]) (jstep j o) /\ steps (job_ids [o]) j (jstep j o).
Proof.
  intros [Ht Hq Hu] Hnd. assert (new_id j o) as Hn.
  { destruct o; try done. cbn in *. destruct (js_jobs j !! generateJobID now rnd) eqn:E; [|done].
    apply NoDup_app in Hnd as (_ & Hd & _). destruct (Hd (generateJobID now rnd)); [apply Hu; by eexists|by left]. }
  destruct (jstep_spec j o Ht Hq Hn) as [Ht' Hs]. split; [|done]. constructor; [done|by eapply steps_queued_fresh|].
  intros id [b' Hb']. apply elem_of_app. destruct (js_jobs j !! id) as [b|] eqn:Hb; [left; apply Hu; by eexists|right].
  by destruct (st_new _ _ _ Hs id b' Hb' Hb).
Qed.

Lemma job_ids_cons o os : job_ids (o :: os) = job_ids [o] ++ job_ids os.
Proof. by destruct o. Qed.

Lemma jrun_inv used j os :
  run_inv used j -> NoDup (used ++ job_ids os) -> run_inv (used ++ job_ids os) (jrun j os).
Proof.
  revert used j. induction os as [|o os IH]; intros used j Hi Hnd; [by rewrite app_nil_r|].
  rewrite job_ids_cons, app_assoc in Hnd |- *. apply (IH _ (jstep j o)); [|done].
  apply jstep_inv; [done|]. by apply NoDup_app in Hnd as [? _].
Qed.

(** How far a job has come. *)
Definition rank (st : JobStatus) : nat :=
  match st with
  | JobStatusQueued => 0
  | JobStatusAccepted | JobStatusRunning | JobStatusOther _ => 1
  | JobStatusSucceeded | JobStatusFailed => 2
  end.

(** [b'] is [b] at a later time. *)
Record later (b b' : Job) : Prop := {
  la_identity : same_identity b b';
  la_rank : (rank (jb_Status b) <= rank (jb_Status b'))%nat;
  la_settled : rank (jb_Status b) = rank (jb_Status b') ->
    jb_Status b' = jb_Status b /\ jb_Error b' = jb_Error b /\ jb_StartedAt b' = jb_StartedAt b /\
    jb_CompletedAt b' = jb_CompletedAt b }.

Lemma terminal_rank st : isTerminal st = true <-> rank st = 2%nat.
Proof. unfold isTerminal. rewrite bool_decide_eq_true. destruct st; cbn; naive_solver. Qed.

Lemma moves_later b b' : moves b b' -> later b b'.
Proof.
  destruct 1 as [b b' Hi E1 E2 E3 E4|b b' Hi E1 E2|b b' Hi E1 E2|b b' Hi E1 E2 E3]; constructor; try done.
  - by rewrite E1.
  - rewrite E1, E2. cbn. lia.
  - by rewrite E1, E2.
  - rewrite E1, E2. cbn. lia.
  - by rewrite E1, E2.
  - apply terminal_rank in E3. rewrite E3. destruct (jb_Status b); cbn; lia.
  - apply terminal_rank in E3. rewrite E3. intros E. apply terminal_rank in E. congruence.
Qed.

Lemma later_trans a b c : later a b -> later b c -> later a c.
Proof.
  intros [(I1 & I2 & I3 & I4 & I5 & I6 & I7) R1 S1] [(J1 & J2 & J3 & J4 & J5 & J6 & J7) R2 S2]. constructor.
  - split_and!; congruence.
  - lia.
  - intros E. destruct S1 as (? & ? & ? & ?); [lia|]. destruct S2 as (? & ? & ? & ?); [lia|]. split_and!; congruence.
Qed.

Lemma later_refl b : later b b.
Proof. apply moves_later, moves_refl. Qed.

Lemma jrun_later used j os id b b' :
  run_inv used j -> NoDup (used ++ job_ids os) -> js_jobs j !! id = Some b -> js_jobs (jrun j os) !! id = Some b' -> later b b'.
Proof.
  revert used j b. induction os as [|o os IH]; intros used j b Hi Hnd Hb Hb'; [cbn in Hb'; rewrite Hb in Hb'; injection Hb' as <-; apply later_refl|].
  rewrite job_ids_cons, app_assoc in Hnd. cbn [jrun fold_left] in Hb'. fold (jrun (jstep j o) os) in Hb'.
  destruct (jstep_inv used j o Hi) as [Hi' Hs]; [by apply NoDup_app in Hnd as [? _]|].
  destruct (st_old _ _ _ Hs id b Hb) as [(x & Hx & Hm)|[Hx _]].
  - apply (later_trans _ x); [by apply moves_later|]. by apply (IH _ _ _ Hi' Hnd Hx).
  - exfalso. assert (id ∈ used) as Hu by (apply (ri_used _ _ Hi); by eexists).
    assert (js_jobs (jrun (jstep j o) os) !! id = None) as E; [|congruence].
    assert (id ∈ used ++ job_ids [o]) as Hu' by (apply elem_of_app; by left). revert Hi' Hx Hnd Hu'. clear.
    generalize (used ++ job_ids [o]), (jstep j o). intros l j' Hi' Hx Hnd Hu. revert l j' Hi' Hx Hnd Hu.
    induction os as [|o' os IH]; intros l j' Hi' Hx Hnd Hu; [done|]. rewrite job_ids_cons, app_assoc in Hnd.
    pose proof Hnd as Hnd'. apply NoDup_app in Hnd' as [Hnd1 _].
    destruct (jstep_inv l j' o' Hi' Hnd1) as [Hi2 Hs2]. apply (IH (l ++ job_ids [o']) (jstep j' o')); [done| |done|].
    + destruct (js_jobs (jstep j' o') !! id) as [y|] eqn:Ey; [|done]. exfalso.
      destruct (st_new _ _ _ Hs2 id y Ey Hx) as [Hin _]. apply NoDup_app in Hnd1 as (_ & Hd & _). by apply (Hd id).
    + apply elem_of_app. by left.
Qed.

(** C33: the life of a fleet job. In any run of the table (submissions with any
    keys, starts, completions, cancellations, results, listings that time jobs
    out, pruning, and writes that fail anywhere), whose submissions drew distinct
    identifiers: a job keeps its identity, it only moves forward (queued, then
    running, then succeeded or failed, or from queued to failed), and as long as
    it does not move, its status, error and times are settled; in particular these
    of a job that has ended stay. The text of the result is not among them: the code
    sets it at any time, also on a job that has ended. Only jobs that have ended are ever
    forgotten, and the table stays consistent: the order lists exactly the jobs,
    once each, and the index of idempotency keys is exact. *)
Theorem job_lifecycle file os1 os2 :
  let j1 := jrun (empty_jobs file) os1 in
  NoDup (job_ids (os1 ++ os2)) ->
  table_ok j1 /\
  (forall id b b', js_jobs j1 !! id = Some b -> js_jobs (jrun j1 os2) !! id = Some b' -> later b b') /\
  (forall o os id b, os2 = o :: os -> js_jobs j1 !! id = Some b -> js_jobs (jstep j1 o) !! id = None ->
     isTerminal (jb_Status b) = true).
Proof.
  intros j1 Hnd. assert (job_ids (os1 ++ os2) = job_ids os1 ++ job_ids os2) as E by apply omap_app. rewrite E in Hnd.
  pose proof Hnd as Hnd0. apply NoDup_app in Hnd0 as [Hnd1 _].
  pose proof (jrun_inv [] (empty_jobs file) os1 (empty_inv file) Hnd1) as Hi. fold j1 in Hi. cbn [app] in Hi.
  split; [apply Hi|]. split; [intros id b b'; by eapply jrun_later|].
  intros o os id b -> Hb Hgone. rewrite job_ids_cons, app_assoc in Hnd. apply NoDup_app in Hnd as [Hnd _].
  destruct (jstep_inv _ j1 o Hi Hnd) as [_ Hs].
  destruct (st_old _ _ _ Hs id b Hb) as [(x & Hx & _)|[_ ?]]; [congruence|done].
Qed.

(** ** Once, and not too many *)

Lemma moves_active b b' : moves b b' -> isActive (jb_Status b') = true -> isActive (jb_Status b) = true.
Proof.
  unfold isActive. rewrite !bool_decide_eq_true.
  destruct 1 as [b b' _ E|b b' _ E _|b b' _ E _|b b' _ _ _ E]; [by rewrite E|by left|by left|].
  apply terminal_rank in E. intros [Ha|[Ha|Ha]]; rewrite Ha in E; done.
Qed.

Lemma active_le (j j' : Jobs) (extra : gset gostring) :
  (forall id b', js_jobs j' !! id = Some b' -> isActive (jb_Status b') = true ->
     id ∈ extra \/ exists b, js_jobs j !! id = Some b /\ isActive (jb_Status b) = true) ->
  (activeJobs j' <= size extra + activeJobs j)%nat.
Proof.
  intros Ha. unfold activeJobs. rewrite <- !size_dom.
  set (X := dom (filter _ (js_jobs j))).
  assert (size (extra ∪ X) <= size extra + size X)%nat as Hu.
  { rewrite size_union_alt. assert (size (X ∖ extra) <= size X)%nat by (apply subseteq_size; set_solver). lia. }
  etrans; [|exact Hu]. apply subseteq_size. intros id Hid.
  apply elem_of_dom in Hid as [b' Hb']. apply map_lookup_filter_Some in Hb' as [Hb' Hact].
  destruct (Ha id b' Hb' Hact) as [?|(b & Hb & Hact')]; [set_solver|]. apply elem_of_union_r, elem_of_dom.
  exists b. by apply map_lookup_filter_Some.
Qed.

Lemma change_job_max j id b b' w : js_maxActiveJobs (change_job j id b b' w).1 = js_maxActiveJobs j.
Proof.
  unfold change_job. set (j1 := set_table _ _ _ _). pose proof (append_settings j1 b' w) as [_ E].
  destruct (appendLocked j1 b' w) as [j2 []]; cbn in *; by rewrite E.
Qed.

Lemma checkTimeout_max j id b now w : js_maxActiveJobs (checkTimeoutLocked j id b now w).1 = js_maxActiveJobs j.
Proof. unfold checkTimeoutLocked. destruct (_ && _ && _); [|done]. cbn. by rewrite (proj2 (append_settings _ _ _)). Qed.

Lemma list_loop_max j want ids now w : js_maxActiveJobs (list_loop j want ids now w).1 = js_maxActiveJobs j.
Proof.
  revert j. induction ids as [|id ids IH]; intros j; [done|]. cbn [list_loop]. destruct (js_jobs j !! id) as [b|]; [|apply IH].
  destruct (want b); [|apply IH]. pose proof (checkTimeout_max j id b now (w id)) as E.
  destruct (checkTimeoutLocked j id b now (w id)) as [j1 b1]. specialize (IH j1).
  destruct (list_loop j1 want ids now w). cbn in *. congruence.
Qed.

Lemma Submit_max j now rnd serverID action target actor key w :
  js_maxActiveJobs (Submit j now rnd serverID action target actor key w).1 = js_maxActiveJobs j.
Proof.
  unfold Submit. destruct (if bool_decide (key = []) then None else js_index j !! key); [done|]. destruct (_ && _); [done|].
  set (b := mkJob _ _ _ _ _ _ _ _ _ _ _ _ _ _). set (j1 := set_table _ _ _ _).
  pose proof (append_settings j1 b w) as [_ E]. destruct (appendLocked j1 b w) as [j2 []]; cbn in *; by rewrite E.
Qed.

Lemma jstep_max j o :
  table_ok j -> (forall l, o <> JSetMaxActive l) -> js_maxActiveJobs (jstep j o) = js_maxActiveJobs j.
Proof.
  intros Ht Ho. destruct o; cbn [jstep]; try done.
  - apply Submit_max.
  - unfold update_job. by destruct (js_jobs j !! id).
  - unfold update_job. by destruct (js_jobs j !! id).
  - unfold Start. destruct (js_jobs j !! id); [|done]. case_bool_decide; cbn [negb]; [apply change_job_max|done].
  - unfold Complete. destruct (js_jobs j !! id); [|done]. destruct (isTerminal status); cbn [negb]; [|done].
    case_bool_decide; [done|]. destruct (isTerminal _); [done|]. apply change_job_max.
  - unfold Cancel. destruct (js_jobs j !! id); [|done]. case_bool_decide; cbn [negb]; [apply change_job_max|done].
  - unfold SetResult. destruct (js_jobs j !! id); [|done]. by rewrite (proj2 (append_settings _ _ _)).
  - unfold Get. destruct (js_jobs j !! id) as [b|]; [|done]. pose proof (checkTimeout_max j id b now w).
    by destruct (checkTimeoutLocked j id b now w).
  - apply list_loop_max.
  - destruct (Prune_state j now ok Ht) as (j2 & order2 & -> & _ & Hm & _). by rewrite (proj2 (rewrite_table _ _)).
  - by destruct (Ho limit).
Qed.

Lemma jstep_bounded used j o :
  run_inv used j -> NoDup (used ++ job_ids [o]) -> (forall l, o <> JSetMaxActive l) -> 0 < js_maxActiveJobs j ->
  Z.of_nat (activeJobs j) <= js_maxActiveJobs j -> Z.of_nat (activeJobs (jstep j o)) <= js_maxActiveJobs j.
Proof.
  intros Hi Hnd Ho Hm Hb. destruct (jstep_inv used j o Hi Hnd) as [_ Hs].
  assert (activeJobs (jstep j o) <= size (list_to_set (job_ids [o]) : gset gostring) + activeJobs j)%nat as Hle.
  { apply active_le. intros id b' Hb' Ha. destruct (js_jobs j !! id) as [b|] eqn:E.
    - right. exists b. split; [done|]. destruct (st_old _ _ _ Hs id b E) as [(x & Hx & Hmv)|[Hx _]]; [|congruence].
      eapply moves_active; [exact Hmv|]. congruence.
    - left. apply elem_of_list_to_set. by destruct (st_new _ _ _ Hs id b' Hb' E). }
  destruct (decide (job_ids [o] = [])) as [E|E]; [rewrite E, list_to_set_nil, size_empty in Hle; lia|].
  destruct o; try done. clear E.
  cbn [job_ids omap list_omap list_to_set] in Hle. rewrite size_union, size_singleton, size_empty in Hle by set_solver.
  assert (js_jobs j !! generateJobID now rnd = None) as Hn.
  { destruct (js_jobs j !! generateJobID now rnd) eqn:E; [|done]. cbn in Hnd.
    apply NoDup_app in Hnd as (_ & Hd & _). destruct (Hd (generateJobID now rnd)); [apply (ri_used _ _ Hi); by eexists|by left]. }
  destruct (Submit_cases j now rnd serverID action target actor key w Hn) as [[(E & _ & _) _]|(_ & _ & Hlim & _)].
  - cbn [jstep]. unfold activeJobs in *. by rewrite E.
  - specialize (Hlim Hm). lia.
Qed.

(** Submissions count once and are limited. In any run with a limit on active
    jobs, at most that many jobs are queued or running at any time; no two jobs
    have the same idempotency key; and submitting again under the key of a job
    that is in the table, whatever its state and however full the table is,
    returns that job's identifier and changes nothing. *)
Theorem submit_once_and_limited file limit os :
  let j := jrun (SetMaxActiveJobs (empty_jobs file) limit) os in
  NoDup (job_ids os) -> 0 < limit -> Forall (fun o => forall l, o <> JSetMaxActive l) os ->
  Z.of_nat (activeJobs j) <= limit /\
  (forall id b id' b', js_jobs j !! id = Some b -> js_jobs j !! id' = Some b' ->
     jb_IdempotencyKey b = jb_IdempotencyKey b' -> jb_IdempotencyKey b <> [] -> id = id') /\
  forall id b now rnd serverID action target actor w,
    js_jobs j !! id = Some b -> jb_IdempotencyKey b <> [] ->
    Submit j now rnd serverID action target actor (jb_IdempotencyKey b) w = (j, Ok id).
Proof.
  intros j Hnd Hl Hos.
  assert (run_inv [] (SetMaxActiveJobs (empty_jobs file) limit)) as Hi0.
  { destruct (empty_inv file) as [H1 H2 H3]. constructor; [by apply (table_ok_same (empty_jobs file))|done|done]. }
  pose proof (jrun_inv [] _ os Hi0 Hnd) as Hi. fold j in Hi. destruct (ri_table _ _ Hi) as [_ _ _ _ Hk]. split; [|split].
  - assert (js_maxActiveJobs (SetMaxActiveJobs (empty_jobs file) limit) = limit) as Em by done.
    assert (Z.of_nat (activeJobs (SetMaxActiveJobs (empty_jobs file) limit)) <= limit) as Ha.
    { unfold activeJobs. cbn [js_jobs SetMaxActiveJobs empty_jobs]. rewrite map_filter_empty, map_size_empty. lia. }
    unfold j. clear j Hi Hk. change (NoDup ([] ++ job_ids os)) in Hnd. revert Hi0 Hnd Em Ha. generalize (@nil gostring), (SetMaxActiveJobs (empty_jobs file) limit).
    induction Hos as [|o os Ho _ IH]; intros used j Hi Hnd Em Ha; [done|]. cbn [jrun fold_left].
    rewrite job_ids_cons, app_assoc in Hnd. pose proof Hnd as Hnd'. apply NoDup_app in Hnd' as [Hnd1 _].
    apply (IH (used ++ job_ids [o]) (jstep j o)); [by apply jstep_inv|done| |].
    + rewrite jstep_max; [done|apply Hi|done].
    + rewrite <- Em. apply (jstep_bounded used); try done; lia.
  - intros id b id' b' Hb Hb' E Hne. pose proof (Hk id b Hb Hne). pose proof (Hk id' b' Hb' ltac:(congruence)). congruence.
  - intros id b now rnd serverID action target actor w Hb Hne. unfold Submit.
    by rewrite bool_decide_eq_false_2, (Hk id b Hb Hne).
Qed.
End props.

(** ** Examples *)

Definition ex_submit (now : Z) (rnd : list byte) (key : gostring) : jop :=
  JSubmit now rnd (str "server-1") (str "restart") [] (str "admin") key None.
Definition ex_id : gostring := generateJobID 1000000 [x01].
Definition ex_before : list jop := [ex_submit 1000000 [x01] (str "k1"); JStart ex_id 2000000 None; JSetTimeout 5].
Definition ex_after : list jop := [JComplete ex_id JobStatusSucceeded None 3000000 (Some 7%nat); JGet ex_id 9000000 None; JPrune (10 ^ 18) true].

Lemma job_lifecycle_witness :
  let j1 := jrun (empty_jobs (Some [])) ex_before in
  table_ok j1 /\
  (exists b b', js_jobs j1 !! ex_id = Some b /\ js_jobs (jrun j1 (take 2 ex_after)) !! ex_id = Some b' /\
     jb_Status b = JobStatusRunning /\ jb_Status b' = JobStatusFailed /\ later b b').
Proof.
  cbn zeta. destruct (job_lifecycle (Some []) ex_before (take 2 ex_after)) as (Ht & Hl & _);
    [apply (bool_decide_unpack _); vm_compute; reflexivity|].
  split; [exact Ht|].
  eexists _, _. split; [vm_compute; reflexivity|]. split; [vm_compute; reflexivity|].
  split; [reflexivity|]. split; [reflexivity|]. apply (Hl ex_id); vm_compute; reflexivity.
Defined.

Lemma submit_once_and_limited_witness :
  let j := jrun (SetMaxActiveJobs (empty_jobs None) 1) [ex_submit 1000000 [x01] (str "k1"); ex_submit 2000000 [x02] (str "k2")] in
  Z.of_nat (activeJobs j) <= 1 /\
  Submit j 3000000 [x03] (str "other") [] [] [] (str "k1") None = (j, Ok ex_id).
Proof.
  cbn zeta. destruct (submit_once_and_limited None 1 [ex_submit 1000000 [x01] (str "k1"); ex_submit 2000000 [x02] (str "k2")])
    as (H1 & _ & H3); [apply (bool_decide_unpack _); vm_compute; reflexivity|lia|repeat constructor; discriminate|].
  split; [exact H1|].
  refine (H3 ex_id (mkJob ex_id (str "server-1") (str "restart") [] (str "admin") (str "k1") false [] 0 JobStatusQueued [] 1000000 zeroTime zeroTime)
    3000000 [x03] (str "other") [] [] [] None _ _); [vm_compute; reflexivity|discriminate].
Defined.
