(* ===== verification/FleetJobsFile.v ===== *)
(** * The job table across restarts (internal/fleet/jobs.go)

    The file holds a line per change. Reading it back gives the table as it was,
    up to the two fields that are set in memory only ([strip]). *)

From stdpp Require Import prelude countable strings gmap list.
From Stdlib Require Import ZArith Lia.
From S2P Require Import Prelude GoBinary Wire GoStrings FleetJobs FleetJobsProps.

Section file.
Context `{!JobJSON}.

(** ** Lines *)

Definition plain_line (l : list byte) : Prop := Forall (fun c => c <> x0a) l /\ zlen l < maxLine.
Definition lines_text (ls : list (list byte)) : list byte := mjoin (map (fun l => l ++ [x0a]) ls).

Lemma lines_text_snoc ls l : lines_text (ls ++ [l]) = lines_text ls ++ l ++ [x0a].
Proof. unfold lines_text. rewrite map_app. cbn. by rewrite mjoin_snoc. Qed.

Lemma Split_lines ls tl :
  Forall (Forall (fun c => c <> x0a)) ls -> Forall (fun c => c <> x0a) tl -> Split (lines_text ls ++ tl) x0a = ls ++ [tl].
Proof.
  intros Hl Ht. unfold Split, lines_text. induction Hl as [|l ls Hp _ IH]; cbn [map app].
  { by apply split_from_plain. }
  rewrite mjoin_cons, <- !app_assoc. cbn [app]. rewrite split_from_app by done. by rewrite IH.
Qed.

Lemma plain_lines ls : Forall plain_line ls -> Forall (Forall (fun c => c <> x0a)) ls.
Proof. intros Hl. eapply Forall_impl; [exact Hl|]. by intros l [? _]. Qed.

Lemma scan_lines_text ls tl :
  Forall plain_line ls -> Forall (fun c => c <> x0a) tl ->
  scan_lines (lines_text ls ++ tl) = match tl with [] => ls | _ => ls ++ [tl] end.
Proof.
  intros Hl Ht. unfold scan_lines. rewrite Split_lines by (try apply plain_lines; done). destruct (last_snoc_order ls tl) as [-> Ht'].
  destruct tl; [done|]. done.
Qed.

(** ** Reading *)

Lemma load_lines_file j f ls : load_lines (set_file j f) ls = set_file (load_lines j ls) f.
Proof.
  revert j. induction ls as [|l ls IH]; intros j; [done|]. cbn [load_lines]. destruct (_ <=? _); [done|].
  case_bool_decide; [apply IH|]. destruct (Unmarshal (TrimSpace l)); [|apply IH|apply IH].
  rewrite <- IH. done.
Qed.

Lemma load_lines_app j ls ks :
  Forall plain_line ls -> load_lines j (ls ++ ks) = load_lines (load_lines j ls) ks.
Proof.
  intros Hl. revert j. induction Hl as [|l ls [_ Hs] _ IH]; intros j; [done|]. cbn [app load_lines].
  rewrite (proj2 (Z.leb_gt _ _)) by done. case_bool_decide; [apply IH|]. destruct (Unmarshal (TrimSpace l)); apply IH.
Qed.

(** A job that can be read back. *)
Definition writable (b : Job) : Prop := encodable b /\ zlen (Marshal b) < maxLine.

Definition load_one (j : Jobs) (b : Job) : Jobs :=
  set_table j (<[jb_ID b := b]> (js_jobs j))
    (if bool_decide (js_jobs j !! jb_ID b = None) then js_order j ++ [jb_ID b] else js_order j)
    (if bool_decide (jb_IdempotencyKey b = []) then js_index j else <[jb_IdempotencyKey b := jb_ID b]> (js_index j)).

Lemma Marshal_plain b : Forall (fun c => c <> x0a) (Marshal b) /\ TrimSpace (Marshal b) = Marshal b /\ Marshal b <> [].
Proof.
  destruct (marshal_line b) as (mid & E & Hm). split_and!.
  - rewrite E. constructor; [done|]. apply Forall_app. by repeat constructor.
  - by apply (TrimSpace_printing _ x7b x7d mid).
  - by rewrite E.
Qed.

Lemma load_line j b : writable b -> load_lines j [Marshal b] = load_one j b.
Proof.
  intros [He Hl]. destruct (Marshal_plain b) as (_ & Ht & Hn). cbn [load_lines]. rewrite (proj2 (Z.leb_gt _ _)) by done.
  by rewrite Ht, bool_decide_eq_false_2, unmarshal_marshal.
Qed.

Lemma writable_line b : writable b -> plain_line (Marshal b).
Proof. intros [_ Hl]. split; [apply Marshal_plain|done]. Qed.

(** ** The table in the file *)

(** The two fields a submission may set after it was written. *)
Definition strip (b : Job) : Job := set_tail (set_force b false) 0.

Definition same_stored (j j' : Jobs) : Prop :=
  strip <$> js_jobs j' = strip <$> js_jobs j /\ js_order j' = js_order j /\ js_index j' = js_index j.

Definition blank : Jobs := mkJobs None ∅ [] ∅ 0 30 10000 1000.

Definition durable (j : Jobs) : Prop :=
  exists ls, js_file j = Some (lines_text ls) /\ Forall plain_line ls /\ same_stored j (load_lines blank ls).

Lemma stored_none j t id : strip <$> js_jobs t = strip <$> js_jobs j -> js_jobs t !! id = None <-> js_jobs j !! id = None.
Proof.
  intros E. apply (f_equal (fun m => m !! id)) in E. rewrite !lookup_fmap in E.
  destruct (js_jobs t !! id), (js_jobs j !! id); cbn in E; try done.
Qed.

(** Writing a job makes the file say what the table says. *)
Lemma append_durable j j1 b :
  durable j -> js_file j1 = js_file j -> writable b ->
  js_jobs j1 = <[jb_ID b := b]> (js_jobs j) ->
  js_order j1 = (if bool_decide (js_jobs j !! jb_ID b = None) then js_order j ++ [jb_ID b] else js_order j) ->
  js_index j1 = (if bool_decide (jb_IdempotencyKey b = []) then js_index j
                 else <[jb_IdempotencyKey b := jb_ID b]> (js_index j)) ->
  durable (appendLocked j1 b None).1.
Proof.
  intros (ls & Hf & Hl & (S1 & S2 & S3)) Hf1 Hw E1 E2 E3. unfold appendLocked. rewrite Hf1, Hf. cbn [fst].
  exists (ls ++ [Marshal b]). split_and!.
  - cbn. unfold line. by rewrite lines_text_snoc.
  - apply Forall_app. split; [done|]. apply Forall_singleton. by apply writable_line.
  - rewrite load_lines_app, load_line by done. split_and!; cbn.
    + by rewrite !fmap_insert, S1, E1, fmap_insert.
    + rewrite E2, S2. by rewrite (bool_decide_ext _ _ (stored_none j _ (jb_ID b) S1)).
    + by rewrite E3, S3.
Qed.

(** A later version of a job that is in the table. *)
Lemma update_durable j id b b' :
  durable j -> table_ok j -> js_jobs j !! id = Some b -> same_identity b b' -> writable b' ->
  durable (appendLocked (set_table j (<[id := b']> (js_jobs j)) (js_order j) (js_index j)) b' None).1.
Proof.
  intros Hd Ht Hb (E1 & _ & _ & _ & _ & E2 & _) Hw. assert (jb_ID b' = id) as Eid by (rewrite E1; by apply (to_id _ Ht)).
  apply (append_durable j); try done; cbn; rewrite Eid.
  - done.
  - rewrite bool_decide_eq_false_2; [done|]. by rewrite Hb.
  - case_bool_decide as Hk; [done|]. rewrite insert_id; [done|]. rewrite E2 in *. by apply (to_key _ Ht).
Qed.

Lemma durable_same j j' : js_file j' = js_file j -> same_stored j j' -> durable j -> durable j'.
Proof.
  intros Ef (E1 & E2 & E3) (ls & Hf & Hl & (S1 & S2 & S3)). exists ls. split_and!; [congruence|done|].
  split_and!; congruence.
Qed.

(** ** Pruning writes the whole table *)

Definition jobs_of (j : Jobs) (ids : list gostring) : list Job := omap (fun id => js_jobs j !! id) ids.

Lemma load_many t bs :
  Forall writable bs -> load_lines t (map Marshal bs) = fold_left load_one bs t.
Proof.
  intros Hw. revert t. induction Hw as [|b bs Hb _ IH]; intros t; [done|]. cbn [map fold_left].
  change (Marshal b :: map Marshal bs) with ([Marshal b] ++ map Marshal bs).
  rewrite load_lines_app by (apply Forall_singleton; by apply writable_line). by rewrite load_line, IH.
Qed.

Lemma kept_mem (ids : list gostring) id i : i <> id -> bool_decide (i ∈ ids ++ [id]) = bool_decide (i ∈ ids).
Proof. intros Hne. apply bool_decide_ext. rewrite elem_of_app, list_elem_of_singleton. naive_solver. Qed.

(** After the jobs [done] of a table were loaded. *)
Lemma load_table j ids :
  table_ok j -> NoDup ids -> (forall id, id ∈ ids -> is_Some (js_jobs j !! id)) ->
  let t := fold_left load_one (jobs_of j ids) blank in
  js_order t = ids /\ (forall id, js_jobs t !! id = if bool_decide (id ∈ ids) then js_jobs j !! id else None) /\
  (forall k, js_index t !! k = match js_index j !! k with Some id => if bool_decide (id ∈ ids) then Some id else None | None => None end).
Proof.
  intros Ht. induction ids as [|id ids IH] using rev_ind; intros Hnd Hin; cbn zeta.
  { cbn. split_and!; [done|intros id; by rewrite lookup_empty|]. intros k. rewrite lookup_empty. by destruct (js_index j !! k). }
  apply NoDup_app in Hnd as (Hnd & Hni & _).
  destruct IH as (I1 & I2 & I3); [done|intros i Hi; apply Hin, elem_of_app; by left|].
  destruct (Hin id) as [b Hb]; [apply elem_of_app; right; by left|].
  assert (jobs_of j (ids ++ [id]) = jobs_of j ids ++ [b]) as E.
  { unfold jobs_of. rewrite omap_app. cbn. by rewrite Hb. }
  rewrite E, fold_left_app. cbn [fold_left]. set (t := fold_left load_one (jobs_of j ids) blank) in *.
  assert (id ∉ ids) as Hnot by (intros Hid; apply (Hni id Hid); by left).
  pose proof (to_id _ Ht id b Hb) as Eid. unfold load_one. cbn [set_table js_jobs js_order js_index]. rewrite Eid.
  split_and!.
  - rewrite I2, (bool_decide_eq_false_2 (id ∈ ids)) by done. cbn. by rewrite I1.
  - intros i. destruct (decide (i = id)) as [->|Hne].
    + rewrite lookup_insert_eq, bool_decide_eq_true_2; [done|]. apply elem_of_app. right. by left.
    + rewrite lookup_insert_ne, I2 by done. by rewrite (kept_mem ids id i Hne).
  - intros k. case_bool_decide as Hk.
    + rewrite I3. destruct (js_index j !! k) as [i|] eqn:Ei; [|done].
      assert (i <> id) as Hne.
      { intros ->. destruct (to_index _ Ht k id Ei) as (Hkn & x & Hx & Ex). rewrite Hb in Hx. apply (inj Some) in Hx as <-. congruence. }
      by rewrite (kept_mem ids id i Hne).
    + pose proof (to_key _ Ht id b Hb Hk) as Hkey. destruct (decide (k = jb_IdempotencyKey b)) as [->|Hne].
      * rewrite lookup_insert_eq, Hkey, bool_decide_eq_true_2; [done|]. apply elem_of_app. right. by left.
      * rewrite lookup_insert_ne, I3 by done. destruct (js_index j !! k) as [i|] eqn:Ei; [|done].
        assert (i <> id) as Hni'.
        { intros ->. destruct (to_index _ Ht k id Ei) as (_ & x & Hx & Ex). congruence. }
        by rewrite (kept_mem ids id i Hni').
Qed.

Lemma rewrite_durable j f :
  js_file j = Some f -> table_ok j -> map_Forall (fun _ => writable) (js_jobs j) -> durable (rewriteFileLocked j true).1.
Proof.
  intros Hf Ht Hw. unfold rewriteFileLocked. rewrite Hf. cbn [fst].
  assert (Forall writable (jobs_of j (js_order j))) as Hall.
  { apply Forall_forall. intros b (id & _ & Hb)%list_elem_of_omap. by apply (Hw id). }
  exists (map Marshal (jobs_of j (js_order j))). split_and!.
  - cbn. f_equal. unfold lines_text, jobs_of, line. by rewrite map_map.
  - apply Forall_forall. intros l (b & <- & Hb)%list_elem_of_In%in_map_iff. rewrite Forall_forall in Hall.
    apply writable_line, Hall. by apply list_elem_of_In.
  - rewrite load_many by done.
    destruct (load_table j (js_order j) Ht (to_nodup _ Ht)) as (I1 & I2 & I3); [intros id; apply (to_order _ Ht)|].
    split_and!; cbn.
    + f_equal. apply map_eq. intros id. rewrite I2. case_bool_decide as Hid; [done|].
      destruct (js_jobs j !! id) eqn:E; [|done]. destruct Hid. apply (to_order _ Ht). by eexists.
    + done.
    + apply map_eq. intros k. rewrite I3. destruct (js_index j !! k) as [id|] eqn:E; [|done].
      destruct (to_index _ Ht k id E) as (_ & b & Hb & _). rewrite bool_decide_eq_true_2; [done|].
      apply (to_order _ Ht). by eexists.
Qed.
(** ** Every step is in the file *)

(** The writes of a step succeed. *)
Definition succeeds (o : jop) : Prop :=
  match o with
  | JSubmit _ _ _ _ _ _ _ w | JStart _ _ w | JComplete _ _ _ _ w | JCancel _ _ _ w | JSetResult _ _ w | JGet _ _ w => w = None
  | JList _ _ w => forall id, w id = None
  | JPrune _ ok => ok = true
  | _ => True
  end.

Definition all_writable (j : Jobs) : Prop := map_Forall (fun _ => writable) (js_jobs j).

Lemma written_writable j id b' w :
  all_writable (appendLocked (set_table j (<[id := b']> (js_jobs j)) (js_order j) (js_index j)) b' w).1 -> writable b'.
Proof. intros Hw. apply (Hw id). rewrite (proj1 (append_table _ _ _)). apply lookup_insert_eq. Qed.

Lemma change_durable j id b0 b b' :
  durable j -> table_ok j -> js_jobs j !! id = Some b0 -> same_identity b0 b' ->
  all_writable (change_job j id b b' None).1 -> durable (change_job j id b b' None).1.
Proof.
  intros Hd Ht Hb Hi. pose proof (update_durable j id b0 b' Hd Ht Hb Hi) as Hu. pose proof (written_writable j id b' None) as Hw.
  destruct Hd as (ls & Hf & _). unfold change_job, appendLocked in *. cbn [set_table js_file] in *. rewrite Hf in *. auto.
Qed.

Lemma timeout_durable j id b now :
  durable j -> table_ok j -> js_jobs j !! id = Some b ->
  all_writable (checkTimeoutLocked j id b now None).1 -> durable (checkTimeoutLocked j id b now None).1.
Proof.
  intros Hd Ht Hb. unfold checkTimeoutLocked. destruct (_ && _ && _); [|done]. cbn [fst]. intros Hw%written_writable.
  by eapply update_durable.
Qed.

(** A job that was timed out is not touched by the rest of a listing. *)
Lemma looked_timeout j id b now w j' :
  js_jobs j !! id = Some b -> all_writable j' -> looked (checkTimeoutLocked j id b now w).1 j' ->
  all_writable j -> all_writable (checkTimeoutLocked j id b now w).1.
Proof.
  intros Hb Hw' Hl Hw. revert Hl. unfold checkTimeoutLocked. destruct (_ && _ && _); [|done]. cbn [fst].
  set (b' := set_status _ _ _ _ _). set (j1 := set_table _ _ _ _). intros [_ Hk _] i x Hx.
  destruct (Hk i x Hx) as (y & Hy & Ht). rewrite (proj1 (append_table _ _ _)) in Hx. cbn in Hx.
  apply lookup_insert_Some in Hx as [[<- <-]|[_ Hx]]; [|by apply (Hw i)].
  destruct Ht as [->|(_ & E & _)]; [by apply (Hw' id)|done].
Qed.

Lemma list_durable j want ids now w :
  (forall id, w id = None) -> durable j -> table_ok j -> all_writable j ->
  all_writable (list_loop j want ids now w).1 -> durable (list_loop j want ids now w).1.
Proof.
  intros Hn. revert j. induction ids as [|id ids IH]; intros j Hd Ht Hw Hw'; cbn [list_loop] in *; [done|].
  destruct (js_jobs j !! id) as [b|] eqn:Hb; [|by apply IH]. destruct (want b); [|by apply IH]. rewrite Hn in *.
  pose proof (checkTimeout_spec j id b now None Ht Hb) as H1. pose proof (timeout_durable j id b now Hd Ht Hb) as H2.
  pose proof (fun j' Hw' Hl => looked_timeout j id b now None j' Hb Hw' Hl Hw) as H3.
  destruct (checkTimeoutLocked j id b now None) as [j1 b1]. cbn [fst] in *. specialize (IH j1).
  pose proof (list_loop_spec j1 want ids now w (lk_table _ _ H1)) as H4. destruct (list_loop j1 want ids now w) as [j2 bs].
  cbn [fst] in *. specialize (H3 j2 Hw' H4). apply IH; auto. apply H1.
Qed.

Lemma Submit_durable j now rnd serverID action target actor key :
  durable j -> js_jobs j !! generateJobID now rnd = None ->
  all_writable (Submit j now rnd serverID action target actor key None).1 ->
  durable (Submit j now rnd serverID action target actor key None).1.
Proof.
  intros Hd Hn. unfold Submit. destruct (if bool_decide (key = []) then None else js_index j !! key); [done|].
  destruct (_ && _); [done|]. set (b := mkJob _ _ _ _ _ _ _ _ _ _ _ _ _ _). set (j1 := set_table _ _ _ _).
  pose proof (append_durable j j1 b Hd) as Ha. pose proof (append_table j1 b None) as (E & _ & _).
  assert ((appendLocked j1 b None).2 = Ok tt) as Eok by (unfold appendLocked; by destruct (js_file j1)).
  destruct (appendLocked j1 b None) as [j2 o]. cbn [fst snd] in *. subst o. cbn [fst]. intros Hw.
  apply Ha; try done.
  - apply (Hw (generateJobID now rnd)). rewrite E. apply lookup_insert_eq.
  - cbn [j1 b set_table js_order jb_ID]. by rewrite Hn, bool_decide_eq_true_2.
Qed.

(** A step in memory only. *)
Lemma memory_durable j id f : (forall b, strip (f b) = strip b) -> durable j -> durable (update_job j id f).
Proof.
  intros Hf Hd. unfold update_job. destruct (js_jobs j !! id) as [b|] eqn:Hb; [|done].
  apply (durable_same j); [done| |done]. split_and!; cbn; [|done|done]. rewrite fmap_insert, Hf.
  apply insert_id. by rewrite lookup_fmap, Hb.
Qed.

Lemma jstep_durable used j o :
  run_inv used j -> NoDup (used ++ job_ids [o]) -> all_writable j -> durable j -> succeeds o -> all_writable (jstep j o) ->
  durable (jstep j o).
Proof.
  intros Hi Hnd Hw0 Hd Hs Hw. pose proof (ri_table _ _ Hi) as Ht. destruct o; cbn [jstep succeeds] in *; subst.
  - apply Submit_durable; [done| |done]. destruct (js_jobs j !! generateJobID now rnd) eqn:E; [|done].
    apply NoDup_app in Hnd as (_ & Hnd & _). destruct (Hnd (generateJobID now rnd)); [apply (ri_used _ _ Hi); by eexists|by left].
  - by apply memory_durable.
  - by apply memory_durable.
  - unfold Start in *. destruct (js_jobs j !! id) as [b|] eqn:Hb; [|done]. case_bool_decide; cbn [negb] in *; [|done].
    by eapply change_durable.
  - unfold Complete in *. destruct (js_jobs j !! id) as [b|] eqn:Hb; [|done]. destruct (isTerminal status); cbn [negb] in *; [|done].
    case_bool_decide; [done|]. destruct (isTerminal (jb_Status b)); [done|]. by eapply change_durable.
  - unfold Cancel in *. destruct (js_jobs j !! id) as [b|] eqn:Hb; [|done]. case_bool_decide; cbn [negb] in *; [|done].
    by eapply change_durable.
  - unfold SetResult in *. destruct (js_jobs j !! id) as [b|] eqn:Hb; [|done]. eapply update_durable; try done.
    by eapply written_writable.
  - unfold Get in *. destruct (js_jobs j !! id) as [b|] eqn:Hb; [|done]. pose proof (timeout_durable j id b now Hd Ht Hb).
    destruct (checkTimeoutLocked j id b now None). auto.
  - by apply list_durable.
  - destruct (Prune_state j now true Ht) as (j2 & order2 & E & Ef & _ & Ht2 & _). rewrite E in *.
    destruct Hd as (ls & Hf & _). eapply rewrite_durable; [cbn; by rewrite Ef| |]; [done|].
    intros i b Hb. apply (Hw i). by rewrite (proj1 (proj1 (rewrite_table _ _))).
  - done.
  - done.
  - done.
Qed.

(** ** Restarts *)

(** Every write of a run succeeds, of jobs that can be read back. *)
Fixpoint written (j : Jobs) (os : list jop) : Prop :=
  match os with
  | [] => True
  | o :: r => succeeds o /\ all_writable (jstep j o) /\ written (jstep j o) r
  end.

Lemma jrun_durable used j os :
  run_inv used j -> NoDup (used ++ job_ids os) -> all_writable j -> durable j -> written j os -> durable (jrun j os).
Proof.
  revert used j. induction os as [|o os IH]; intros used j Hi Hnd Hw Hd; [done|]. intros (Hs & Hw' & Hr).
  rewrite job_ids_cons, app_assoc in Hnd. pose proof Hnd as Hnd1. apply NoDup_app in Hnd1 as [Hnd1 _].
  apply (IH (used ++ job_ids [o]) (jstep j o)); [by apply jstep_inv|done|done| |done]. by eapply jstep_durable.
Qed.

Lemma empty_durable : durable (empty_jobs (Some [])).
Proof. exists []. by split_and!. Qed.

Lemma NewJobs_lines f : NewJobs (Some f) = set_file (load_lines blank (scan_lines f)) (Some f).
Proof. unfold NewJobs. by rewrite <- load_lines_file. Qed.

(** What a crash leaves of a change that was being written. *)
Lemma crash_load ls b n :
  Forall plain_line ls -> zlen (Marshal b) < maxLine ->
  let t := load_lines blank (scan_lines (lines_text ls ++ take n (line b))) in
  ((n < length (Marshal b))%nat -> t = load_lines blank ls) /\
  (encodable b -> (length (Marshal b) <= n)%nat -> t = load_one (load_lines blank ls) b).
Proof.
  intros Hl Hs. destruct (Marshal_plain b) as (Hp & _ & Hne). cbn zeta. unfold line. split.
  - intros Hn. rewrite take_app_le by lia. rewrite scan_lines_text by (try apply Forall_take; done).
    destruct (unmarshal_torn b n Hn) as [e He]. destruct (take n (Marshal b)) as [|c tl] eqn:E; [done|].
    rewrite load_lines_app by done. cbn [load_lines]. rewrite He. case_bool_decide; by destruct (maxLine <=? _).
  - intros He Hn. assert (writable b) as Hw by done. rewrite <- (load_line _ _ Hw), <- load_lines_app by done. f_equal.
    destruct (decide (n = length (Marshal b))) as [->|Hgt].
    + rewrite take_app_length, scan_lines_text by done. by destruct (Marshal b).
    + rewrite take_ge by (rewrite length_app; cbn; lia). rewrite <- lines_text_snoc, <- (app_nil_r (lines_text _)).
      apply scan_lines_text; [|done]. apply Forall_app. split; [done|]. apply Forall_singleton. by apply writable_line.
Qed.

(** C34: the job table survives a restart. After any run whose writes succeeded,
    of jobs the encoding can represent in a line of less than 10 MB, opening the
    file again gives the same jobs in the same order under the same idempotency
    keys (except for the force flag and the number of tail lines, which are set
    in memory after the job was written). When the process dies while it writes
    the next change, the table that is read back is the one before the change,
    or, once the change is there up to its newline, the one after it. *)
Theorem jobs_survive_restart os :
  let j := jrun (empty_jobs (Some [])) os in
  NoDup (job_ids os) -> written (empty_jobs (Some [])) os ->
  exists f, js_file j = Some f /\ same_stored j (NewJobs (Some f)) /\
    forall b n, writable b ->
      same_table (if bool_decide (n < length (Marshal b))%nat then NewJobs (Some f) else load_one (NewJobs (Some f)) b)
                 (NewJobs (Some (f ++ take n (line b)))).
Proof.
  intros j Hnd Hw.
  destruct (jrun_durable [] _ os (empty_inv (Some [])) Hnd (map_Forall_empty _) empty_durable Hw) as (ls & Hf & Hl & Hs).
  exists (lines_text ls). assert (scan_lines (lines_text ls) = ls) as El.
  { rewrite <- (app_nil_r (lines_text ls)). by apply scan_lines_text. }
  rewrite NewJobs_lines, El. split; [done|]. split; [done|]. intros b n Hb. rewrite NewJobs_lines.
  destruct (crash_load ls b n Hl (proj2 Hb)) as [H1 H2]. case_bool_decide as Hn.
  - rewrite (H1 Hn). by split_and!.
  - rewrite (H2 (proj1 Hb)) by lia. by split_and!.
Qed.

(** A write that failed half way is taken back in memory, but what it left in
    the file has no newline: the next change is written on the same line. *)
Lemma failed_write_swallows_next j ls b n b2 :
  js_file j = Some (lines_text ls) -> Forall plain_line ls -> (n < length (Marshal b))%nat ->
  exists j1, appendLocked j b (Some n) = (j1, Err "fleet: write") /\
    (appendLocked j1 b2 None).2 = Ok tt /\
    exists f, js_file (appendLocked j1 b2 None).1 = Some f /\ scan_lines f = ls ++ [take n (Marshal b) ++ Marshal b2].
Proof.
  intros Hf Hl Hn. unfold appendLocked. rewrite Hf. eexists. split; [done|]. split; [done|]. eexists. split; [done|].
  unfold line. rewrite take_app_le by lia. destruct (Marshal_plain b) as (Hp & _ & _), (Marshal_plain b2) as (Hp2 & _ & _).
  set (merged := take n (Marshal b) ++ Marshal b2). rewrite <- app_assoc, (app_assoc (take n (Marshal b))).
  fold merged. rewrite <- lines_text_snoc, <- (app_nil_r (lines_text _)). unfold scan_lines. rewrite Split_lines; [|..|done].
  - by destruct (last_snoc_order (ls ++ [merged]) []) as [-> ->].
  - apply Forall_app. split; [by apply plain_lines|]. apply Forall_singleton, Forall_app. split; [by apply Forall_take|done].
Qed.
End file.

(** ** Example *)

Lemma short_writable j :
  bool_decide (map_Forall (fun _ b => zlen (bits_Marshal b) < maxLine) (js_jobs j)) = true -> all_writable j.
Proof. intros H%bool_decide_eq_true_1 id b Hb. split; [done|]. by apply (H id). Qed.

Definition ex_run : list jop := [ex_submit 1000000 [x01] (str "k1"); JForce ex_id true; JStart ex_id 2000000 None].

Lemma jobs_survive_restart_witness :
  exists f b, js_file (jrun (empty_jobs (Some [])) ex_run) = Some f /\
    js_jobs (NewJobs (Some f)) !! ex_id = Some b /\ jb_Status b = JobStatusRunning /\
    same_stored (jrun (empty_jobs (Some [])) ex_run) (NewJobs (Some f)).
Proof.
  destruct (jobs_survive_restart ex_run) as (f & Hf & Hs & _).
  - apply (bool_decide_unpack _). vm_compute. reflexivity.
  - split; [reflexivity|]. split; [apply short_writable; vm_compute; reflexivity|].
    split; [exact I|]. split; [apply short_writable; vm_compute; reflexivity|].
    split; [reflexivity|]. split; [apply short_writable; vm_compute; reflexivity|exact I].
  - pose proof (f_equal (fun m => m !! ex_id) (proj1 Hs)) as E. cbn beta in E. rewrite !lookup_fmap in E.
    assert (jb_Status <$> js_jobs (jrun (empty_jobs (Some [])) ex_run) !! ex_id = Some JobStatusRunning) as E2
      by (vm_compute; reflexivity).
    destruct (js_jobs (jrun (empty_jobs (Some [])) ex_run) !! ex_id) as [c|]; [|discriminate E2].
    destruct (js_jobs (NewJobs (Some f)) !! ex_id) as [b|] eqn:Eb; [|discriminate E].
    exists f, b. split; [exact Hf|]. split; [exact Eb|]. split; [|exact Hs].
    apply (inj Some) in E, E2. rewrite <- E2. exact (f_equal jb_Status E).
Defined.
