(* ===== verification/FleetRegistry.v ===== *)
(** * The fleet's registry of agents (internal/fleet/registry.go, seal.go)

    Enrollment tokens, the agents that were enrolled with them, and the servers
    they belong to, in maps that are saved as one JSON file. The file is what it
    encodes; [persistLocked] replaces it in one step or fails (the argument
    [ok]). The clock, the random bytes and the order in which a map is ranged
    over are arguments. *)

From stdpp Require Import prelude countable strings gmap list.
From Stdlib Require Import ZArith Lia.
From S2P Require Import Prelude GoBinary Wire GoStrings GoCrypto Credential GoAes FleetJobs.

(** ** Sealing secrets (seal.go) *)

Definition fleetSecretPrefix : gostring := str "enc:v1:".
Definition minMasterKeyChars : Z := 16.
Definition fleetKDFSalt : gostring := str "pocketkafka-fleet-secret-key-v1".
Definition fleetKDFIterations : Z := 200000.

(** The derived key. *)
Definition secretBox : Type := list byte.

Definition newSecretBox (masterKey : gostring) : outcome secretBox :=
  if zlen masterKey <? minMasterKeyChars then Err "fleet: master key is too short" else
  pbkdf2_Key sha256 masterKey fleetKDFSalt fleetKDFIterations 32.

Definition seal (b : secretBox) (nonce : list byte) (plain : gostring) : gostring :=
  if bool_decide (plain = []) then []
  else fleetSecretPrefix ++ b64_encode (nonce ++ gcm_Seal b nonce plain).

Definition open_sealed (b : secretBox) (value : gostring) : outcome gostring :=
  if bool_decide (value = []) then Ok [] else
  if negb (HasPrefix value fleetSecretPrefix) then Err "fleet: sealed key has invalid prefix" else
  let? raw := b64_decode (TrimPrefix value fleetSecretPrefix) in
  if (length raw <? gcmNonceSize)%nat then Err "fleet: sealed key is truncated" else
  gcm_Open b (take gcmNonceSize raw) (drop gcmNonceSize raw).

Lemma open_seal b nonce plain :
  length b = 32%nat -> length nonce = gcmNonceSize -> open_sealed b (seal b nonce plain) = Ok plain.
Proof.
  intros Hb Hn. unfold seal. case_bool_decide as E; [by rewrite E|]. unfold open_sealed.
  rewrite bool_decide_eq_false_2 by done. rewrite HasPrefix_app, TrimPrefix_app, b64_decode_encode.
  cbn [negb obind]. rewrite length_app, Hn, (proj2 (Nat.ltb_ge _ _)) by lia.
  rewrite <- Hn, take_app_length, drop_app_length. by apply gcm_Open_Seal.
Qed.

(** ** Data (types.go) *)

Record Server := mkServer {
  sr_ID : gostring;
  sr_Name : gostring;
  sr_Host : gostring;
  sr_Status : gostring;
  sr_AgentID : gostring;
  sr_CreatedAt : Z;
  sr_UpdatedAt : Z }.

(** Without [RawSecret], which only the answer of [ConsumeToken] carries. *)
Record Agent := mkAgent {
  ag_ID : gostring;
  ag_ServerID : gostring;
  ag_Secret : gostring;
  ag_SealedKey : gostring;
  ag_Revoked : bool;
  ag_RevokedAt : Z;
  ag_EnrolledAt : Z;
  ag_LastSeenAt : Z }.

Record Enrollment := mkEnrollment {
  en_Token : gostring;
  en_ServerID : gostring;
  en_CreatedAt : Z;
  en_ExpiresAt : option Z;
  en_Used : bool;
  en_UsedAt : Z }.

Definition revoke_agent (a : Agent) (now : Z) : Agent :=
  mkAgent (ag_ID a) (ag_ServerID a) (ag_Secret a) (ag_SealedKey a) true now (ag_EnrolledAt a) (ag_LastSeenAt a).
Definition use_token (e : Enrollment) (now : Z) : Enrollment :=
  mkEnrollment (en_Token e) (en_ServerID e) (en_CreatedAt e) (en_ExpiresAt e) true now.
Definition set_server (s : Server) (status agentID : gostring) (now : Z) : Server :=
  mkServer (sr_ID s) (sr_Name s) (sr_Host s) status agentID (sr_CreatedAt s) now.

(** [registryData]. *)
Record registryData := mkData {
  rd_Agents : list Agent;
  rd_Enrollments : list Enrollment;
  rd_Servers : list Server }.

(** What a registry file may hold: nothing, a state, the list of agents an older
    version wrote, or something that is neither. *)
Inductive registryFile :=
  | RFEmpty
  | RFState (d : registryData)
  | RFAgents (l : list Agent)
  | RFOther.

(** [rg_path] is [None] without a path, and [Some None] without a file there. *)
Record Registry := mkRegistry {
  rg_path : option (option registryFile);
  rg_box : secretBox;
  rg_agents : gmap gostring Agent;
  rg_enrollments : gmap gostring Enrollment;
  rg_servers : gmap gostring Server;
  rg_maxAgents : Z }.

Definition set_tables (r : Registry) (agents : gmap gostring Agent) (enrollments : gmap gostring Enrollment)
    (servers : gmap gostring Server) : Registry :=
  mkRegistry (rg_path r) (rg_box r) agents enrollments servers (rg_maxAgents r).

Definition SetMaxAgents (r : Registry) (limit : Z) : Registry :=
  mkRegistry (rg_path r) (rg_box r) (rg_agents r) (rg_enrollments r) (rg_servers r) limit.

(** ** The file *)

Definition values {A} (m : gmap gostring A) : list A := (map_to_list m).*2.

Definition snapshot (r : Registry) : registryData :=
  mkData (sort_by ag_ID (values (rg_agents r))) (sort_by en_Token (values (rg_enrollments r)))
    (sort_by sr_ID (values (rg_servers r))).

Definition persistLocked (r : Registry) (ok : bool) : Registry * outcome unit :=
  match rg_path r with
  | None => (r, Ok tt)
  | Some _ =>
      if ok then
        (mkRegistry (Some (Some (RFState (snapshot r)))) (rg_box r) (rg_agents r) (rg_enrollments r) (rg_servers r)
           (rg_maxAgents r), Ok tt)
      else (r, Err "fleet: write registry")
  end.

Definition put_all {A} (key : A -> gostring) (l : list A) (m : gmap gostring A) : gmap gostring A :=
  fold_left (fun m x => <[key x := x]> m) l m.

Definition load (r : Registry) : outcome Registry :=
  match rg_path r with
  | None | Some None | Some (Some RFEmpty) => Ok r
  | Some (Some (RFState d)) =>
      Ok (set_tables r (put_all ag_ID (rd_Agents d) (rg_agents r)) (put_all en_Token (rd_Enrollments d) (rg_enrollments r))
            (put_all sr_ID (rd_Servers d) (rg_servers r)))
  | Some (Some (RFAgents l)) => Ok (set_tables r (put_all ag_ID l (rg_agents r)) (rg_enrollments r) (rg_servers r))
  | Some (Some RFOther) => Err "fleet: parse registry"
  end.

Definition NewRegistry (path : option (option registryFile)) (masterKey : gostring) : outcome Registry :=
  if zlen masterKey <? minMasterKeyChars then Err "fleet: master key must be at least 16 characters" else
  let? box := newSecretBox masterKey in
  load (mkRegistry path box ∅ ∅ ∅ 500).

(** ** Enrollment *)

Definition activeAgents (agents : gmap gostring Agent) : nat := size (filter (fun e => ag_Revoked e.2 = false) agents).

Definition agents_full (r : Registry) : bool :=
  (0 <? rg_maxAgents r) && (rg_maxAgents r <=? Z.of_nat (activeAgents (rg_agents r))).

Definition ErrLimitExceeded : string := "fleet: resource limit exceeded".
Definition ErrServerRequired : string := "fleet: server ID required".
Definition ErrTokenInvalid : string := "fleet: enrollment token invalid".
Definition ErrTokenUsed : string := "fleet: enrollment token already consumed".
Definition ErrTokenExpired : string := "fleet: enrollment token expired".
Definition ErrNotFound : string := "fleet: not found".
Definition ErrRevoked : string := "fleet: agent revoked".

(** A token that was just drawn. *)
Definition new_enrollment (token serverID : gostring) (now duration : Z) : Enrollment :=
  mkEnrollment token serverID now (if duration =? 0 then None else Some (now + duration)) false zeroTime.

Definition enrollWithExpiry (r : Registry) (now : Z) (tokBytes : list byte) (serverID : gostring) (duration : Z) (ok : bool)
  : Registry * outcome gostring :=
  if bool_decide (TrimSpace serverID = []) then (r, Err ErrServerRequired) else
  let token := hex_encode tokBytes in
  if agents_full r then (r, Err ErrLimitExceeded) else
  let r := set_tables r (rg_agents r) (<[token := new_enrollment token serverID now duration]> (rg_enrollments r)) (rg_servers r) in
  match persistLocked r ok with
  | (r, Ok _) => (r, Ok token)
  | (r, Err e) => (r, Err e)
  | (r, Panic) => (r, Panic)
  end.

Definition minute : Z := 60000000000.

Definition Enroll (r : Registry) (now : Z) (tokBytes : list byte) (serverID : gostring) (ok : bool) : Registry * outcome gostring :=
  enrollWithExpiry r now tokBytes serverID (15 * minute) ok.

(** The random bytes of [ConsumeToken], in the order it draws them. *)
Record draws := mkDraws {
  dr_secret : list byte;
  dr_salt : list byte;
  dr_nonce : list byte;
  dr_agent : list byte }.

Definition agent_id (serverID : gostring) (agentBytes : list byte) : gostring :=
  str "agent-" ++ serverID ++ str "-" ++ hex_encode agentBytes.

(** The server of a new agent. *)
Definition bind_server (servers : gmap gostring Server) (serverID agentID : gostring) (now : Z) : gmap gostring Server :=
  match servers !! serverID with
  | None => <[serverID := mkServer serverID serverID [] (str "online") agentID now now]> servers
  | Some s => <[serverID := set_server s (str "online") agentID now]> servers
  end.

(** The agent and its secret. *)
Definition ConsumeToken (r : Registry) (now : Z) (d : draws) (token : gostring) (ok : bool) : Registry * outcome (Agent * gostring) :=
  match rg_enrollments r !! token with
  | None => (r, Err ErrTokenInvalid)
  | Some e =>
      if en_Used e then (r, Err ErrTokenUsed) else
      if (match en_ExpiresAt e with Some t => t <? now | None => false end) then (r, Err ErrTokenExpired) else
      if agents_full r then (r, Err ErrLimitExceeded) else
      let rawSecret := hex_encode (dr_secret d) in
      match HashPassword (Ok (dr_salt d)) rawSecret with
      | Ok secretHash =>
          let sealedKey := seal (rg_box r) (dr_nonce d) rawSecret in
          let agentID := agent_id (en_ServerID e) (dr_agent d) in
          let ag := mkAgent agentID (en_ServerID e) secretHash sealedKey false zeroTime now zeroTime in
          let r := set_tables r (<[agentID := ag]> (rg_agents r)) (<[token := use_token e now]> (rg_enrollments r))
                     (bind_server (rg_servers r) (en_ServerID e) agentID now) in
          match persistLocked r ok with
          | (r, Ok _) => (r, Ok (ag, rawSecret))
          | (r, Err e) => (r, Err e)
          | (r, Panic) => (r, Panic)
          end
      | Err e => (r, Err e)
      | Panic => (r, Panic)
      end
  end.

(** ** Revocation *)

Definition Revoke (r : Registry) (now : Z) (agentID : gostring) (ok : bool) : Registry * outcome unit :=
  match rg_agents r !! agentID with
  | None => (r, Err ErrNotFound)
  | Some ag =>
      if ag_Revoked ag then (r, Ok tt)
      else persistLocked (set_tables r (<[agentID := revoke_agent ag now]> (rg_agents r)) (rg_enrollments r) (rg_servers r)) ok
  end.

(** Not written to the file. *)
Definition TouchServer (r : Registry) (now : Z) (serverID : gostring) : Registry :=
  match rg_servers r !! serverID with
  | None => r
  | Some s =>
      set_tables r (rg_agents r) (rg_enrollments r)
        (<[serverID := set_server s (if bool_decide (sr_Status s = str "revoked") then sr_Status s else str "online")
                         (sr_AgentID s) now]> (rg_servers r))
  end.

Definition of_server (serverID : gostring) (a : Agent) : bool := bool_decide (ag_ServerID a = serverID).

Definition RevokeServer (r : Registry) (now : Z) (serverID : gostring) (ok : bool) : Registry * outcome unit :=
  let hit := fun a => of_server serverID a && negb (ag_Revoked a) in
  let found := bool_decide (map_Exists (fun _ a => hit a = true) (rg_agents r)) ||
               bool_decide (is_Some (rg_servers r !! serverID)) in
  if negb found then (r, Err ErrNotFound) else
  persistLocked
    (set_tables r ((fun a => if hit a then revoke_agent a now else a) <$> rg_agents r) (rg_enrollments r)
       (alter (fun s => set_server s (str "revoked") (sr_AgentID s) now) serverID (rg_servers r))) ok.

Definition DeleteServer (r : Registry) (serverID : gostring) (ok : bool) : Registry * outcome unit :=
  let found := bool_decide (map_Exists (fun _ a => of_server serverID a = true) (rg_agents r)) ||
               bool_decide (is_Some (rg_servers r !! serverID)) ||
               bool_decide (map_Exists (fun _ e => en_ServerID e = serverID) (rg_enrollments r)) in
  if negb found then (r, Err ErrNotFound) else
  persistLocked
    (set_tables r (filter (fun x => of_server serverID x.2 = false) (rg_agents r))
       (filter (fun x => en_ServerID x.2 <> serverID) (rg_enrollments r)) (delete serverID (rg_servers r))) ok.

(** The first token with the prefix, in the order of the iteration. *)
Definition find_token (r : Registry) (order : list gostring) (prefix : gostring) : option (gostring * Enrollment) :=
  head (omap (fun tok =>
    if bool_decide (tok = prefix) || HasPrefix tok prefix then pair tok <$> rg_enrollments r !! tok else None) order).

Definition RevokeEnrollment (r : Registry) (order : list gostring) (tokenPrefix : gostring) (ok : bool) : Registry * outcome unit :=
  let prefix := TrimSpace tokenPrefix in
  if bool_decide (prefix = []) then (r, Err ErrTokenInvalid) else
  match find_token r order prefix with
  | None => (r, Err ErrNotFound)
  | Some (tok, _) => persistLocked (set_tables r (rg_agents r) (delete tok (rg_enrollments r)) (rg_servers r)) ok
  end.

Definition ReissueEnrollment (r : Registry) (now : Z) (order : list gostring) (tokBytes : list byte) (tokenPrefix : gostring)
    (duration : Z) (ok : bool) : Registry * outcome (gostring * gostring) :=
  let prefix := TrimSpace tokenPrefix in
  if bool_decide (prefix = []) then (r, Err ErrTokenInvalid) else
  match find_token r order prefix with
  | None => (r, Err ErrNotFound)
  | Some (tok, old) =>
      let token := hex_encode tokBytes in
      let r := set_tables r (rg_agents r)
                 (<[token := new_enrollment token (en_ServerID old) now duration]> (delete tok (rg_enrollments r)))
                 (rg_servers r) in
      match persistLocked r ok with
      | (r, Ok _) => (r, Ok (token, en_ServerID old))
      | (r, Err e) => (r, Err e)
      | (r, Panic) => (r, Panic)
      end
  end.

(** ** Reading *)

Definition ListServers (r : Registry) : list Server := sort_by sr_ID (values (rg_servers r)).
Definition GetServer (r : Registry) (serverID : gostring) : option Server := rg_servers r !! serverID.
Definition ListAgents (r : Registry) : list Agent := sort_by ag_ID (values (rg_agents r)).

(** [ListEnrollments] forgets the tokens that can no longer be used; the newest
    comes first, and of the same time in any order. *)
Fixpoint insert_newest (e : Enrollment) (l : list Enrollment) : list Enrollment :=
  match l with
  | [] => [e]
  | x :: r => if en_CreatedAt x <=? en_CreatedAt e then e :: l else x :: insert_newest e r
  end.

Definition spent (now : Z) (e : Enrollment) : bool :=
  en_Used e || (match en_ExpiresAt e with Some t => t <? now | None => false end).

Definition ListEnrollments (r : Registry) (now : Z) (ok : bool) : Registry * list Enrollment :=
  let kept := filter (fun x => spent now x.2 = false) (rg_enrollments r) in
  let r1 := set_tables r (rg_agents r) kept (rg_servers r) in
  let r2 := if bool_decide (map_Exists (fun _ e => spent now e = true) (rg_enrollments r)) then (persistLocked r1 ok).1 else r1 in
  (r2, foldr insert_newest [] (values kept)).

Definition Lookup (r : Registry) (agentID : gostring) : outcome Agent :=
  match rg_agents r !! agentID with
  | None => Err ErrNotFound
  | Some ag => Ok ag
  end.

Definition AuthorizeStream (r : Registry) (agentID : gostring) : outcome Agent :=
  match rg_agents r !! agentID with
  | None => Err ErrNotFound
  | Some ag => if ag_Revoked ag then Err ErrRevoked else Ok ag
  end.

Definition agentKey (r : Registry) (agentID : gostring) : outcome gostring :=
  match rg_agents r !! agentID with
  | None => Err ErrNotFound
  | Some ag =>
      if ag_Revoked ag then Err ErrRevoked else
      if bool_decide (ag_SealedKey ag = []) then Err "fleet: agent has no sealed key" else
      open_sealed (rg_box r) (ag_SealedKey ag)
  end.
