(* ===== verification/FleetRegistryProps.v ===== *)
(** * What the fleet's registry guarantees (internal/fleet/registry.go)

    The operations as events of a run, with writes of the file that fail and
    restarts that read it back. A registry has two sets of tables, the one in
    memory and the one in its file; a step changes the first and makes the second
    equal to it, or leaves the second alone. *)

From stdpp Require Import prelude countable strings gmap list.
From Stdlib Require Import ZArith Lia.
From S2P Require Import Prelude GoBinary Wire GoStrings GoCrypto Credential GoAes FleetJobs FleetRegistry.

(** ** Runs *)

Inductive rop :=
  | REnroll (now : Z) (tokBytes : list byte) (serverID : gostring) (duration : Z) (ok : bool)
  | RConsume (now : Z) (d : draws) (token : gostring) (ok : bool)
  | RRevoke (now : Z) (agentID : gostring) (ok : bool)
  | RTouch (now : Z) (serverID : gostring)
  | RRevokeServer (now : Z) (serverID : gostring) (ok : bool)
  | RDeleteServer (serverID : gostring) (ok : bool)
  | RRevokeEnrollment (order : list gostring) (prefix : gostring) (ok : bool)
  | RReissue (now : Z) (order : list gostring) (tokBytes : list byte) (prefix : gostring) (duration : Z) (ok : bool)
  | RListEnrollments (now : Z) (ok : bool)
  | RRestart.

(** The registry a restart finds; a file that cannot be read stops it. *)
Definition restart (r : Registry) : Registry :=
  match load (set_tables r ∅ ∅ ∅) with
  | Ok r' => r'
  | _ => r
  end.

Definition rstep (r : Registry) (o : rop) : Registry :=
  match o with
  | REnroll now tok serverID duration ok => (enrollWithExpiry r now tok serverID duration ok).1
  | RConsume now d token ok => (ConsumeToken r now d token ok).1
  | RRevoke now agentID ok => (Revoke r now agentID ok).1
  | RTouch now serverID => TouchServer r now serverID
  | RRevokeServer now serverID ok => (RevokeServer r now serverID ok).1
  | RDeleteServer serverID ok => (DeleteServer r serverID ok).1
  | RRevokeEnrollment order prefix ok => (RevokeEnrollment r order prefix ok).1
  | RReissue now order tok prefix duration ok => (ReissueEnrollment r now order tok prefix duration ok).1
  | RListEnrollments now ok => (ListEnrollments r now ok).1
  | RRestart => restart r
  end.

Definition rrun (r : Registry) (os : list rop) : Registry := fold_left rstep os r.

(** ** Memory and file *)

Record tables := mkTables {
  tb_agents : gmap gostring Agent;
  tb_enrollments : gmap gostring Enrollment }.

Definition memory (r : Registry) : tables := mkTables (rg_agents r) (rg_enrollments r).
Definition disk (r : Registry) : tables := memory (restart r).

Record keyed (r : Registry) : Prop := {
  ky_agents id a : rg_agents r !! id = Some a -> ag_ID a = id;
  ky_enrollments t e : rg_enrollments r !! t = Some e -> en_Token e = t;
  ky_servers id s : rg_servers r !! id = Some s -> sr_ID s = id }.

Section put_all.
Context {A : Type} (key : A -> gostring).

Lemma put_all_in (l : list A) (m : gmap gostring A) (k : gostring) (x : A) :
  put_all key l m !! k = Some x -> x ∈ l /\ key x = k \/ m !! k = Some x.
Proof.
  unfold put_all. revert m. induction l as [|y l IH]; intros m; cbn; [by right|].
  intros [[Hx E]|[[<- <-]|[_ H]]%lookup_insert_Some]%IH; [left; split; [by right|done]|left; split; [by left|done]|by right].
Qed.

Lemma put_all_has (l : list A) (m : gmap gostring A) x : x ∈ l -> is_Some (put_all key l m !! key x).
Proof.
  unfold put_all. intros Hx. induction l as [|y l IH] using rev_ind; [by apply not_elem_of_nil in Hx|].
  rewrite fold_left_app. cbn. destruct (decide (key x = key y)) as [->|Hne]; [rewrite lookup_insert_eq; by eexists|].
  rewrite lookup_insert_ne by done. apply IH. apply elem_of_app in Hx as [?|Hx]; [done|]. by apply list_elem_of_singleton in Hx as ->.
Qed.

Lemma elem_of_values (m : gmap gostring A) x : x ∈ values m <-> exists k, m !! k = Some x.
Proof.
  unfold values. rewrite list_elem_of_fmap. split.
  - intros ([k y] & -> & H%elem_of_map_to_list). by exists k.
  - intros [k H]. exists (k, x). split; [done|]. by apply elem_of_map_to_list.
Qed.

(** What was saved is read back. *)
Lemma put_all_saved (m : gmap gostring A) :
  (forall k x, m !! k = Some x -> key x = k) -> put_all key (sort_by key (values m)) ∅ = m.
Proof.
  intros Hk. apply map_eq. intros k.
  assert (forall x, x ∈ sort_by key (values m) -> m !! key x = Some x) as Hin.
  { intros x. rewrite sort_by_perm, elem_of_values. intros [i Hi]. by rewrite (Hk i x Hi). }
  destruct (put_all key _ ∅ !! k) as [x|] eqn:E.
  - apply put_all_in in E as [[Hx <-]|E]; [by rewrite Hin|done].
  - destruct (m !! k) as [y|] eqn:Ey; [|done]. rewrite <- (Hk k y Ey) in E.
    destruct (put_all_has (sort_by key (values m)) ∅ y) as [z Hz]; [|congruence].
    rewrite sort_by_perm. apply elem_of_values. by exists k.
Qed.
End put_all.

Lemma restart_path r : rg_path (restart r) = rg_path r.
Proof. unfold restart, load. destruct r as [[[[]|]|] ? ? ? ? ?]; done. Qed.

Lemma restart_max r : rg_maxAgents (restart r) = rg_maxAgents r.
Proof. unfold restart, load. destruct r as [[[[]|]|] ? ? ? ? ?]; done. Qed.

Lemma restart_box r : rg_box (restart r) = rg_box r.
Proof. unfold restart, load. destruct r as [[[[]|]|] ? ? ? ? ?]; done. Qed.

Lemma keyed_restart r : keyed r -> keyed (restart r).
Proof.
  intros Hk. unfold restart, load. cbn [rg_path set_tables].
  destruct (rg_path r) as [[[|d|l|]|]|]; try done; try (by constructor).
  - constructor; cbn; intros k x [[_ ?]|?]%put_all_in; done.
  - constructor; cbn; [|done..]. intros k x [[_ ?]|?]%put_all_in; done.
Qed.

(** Saving makes the file hold what is in memory, or leaves it alone. *)
Lemma persist_memory r ok : memory (persistLocked r ok).1 = memory r /\ rg_maxAgents (persistLocked r ok).1 = rg_maxAgents r.
Proof. unfold persistLocked. destruct (rg_path r); [destruct ok|]; done. Qed.

Lemma persist_keyed r ok : keyed r -> keyed (persistLocked r ok).1.
Proof. intros [? ? ?]. unfold persistLocked. destruct (rg_path r); [destruct ok|]; by constructor. Qed.

Lemma disk_same r r' : rg_path r' = rg_path r -> (rg_path r <> Some (Some RFOther)) -> disk r' = disk r.
Proof.
  intros E Hn. unfold disk, restart, load. cbn [rg_path set_tables]. rewrite E.
  destruct (rg_path r) as [[[|d|l|]|]|]; done.
Qed.

Lemma saved_disk r :
  keyed r -> disk (mkRegistry (Some (Some (RFState (snapshot r)))) (rg_box r) (rg_agents r) (rg_enrollments r) (rg_servers r)
    (rg_maxAgents r)) = memory r.
Proof.
  intros [K1 K2 K3]. unfold disk, restart, load, memory, snapshot.
  cbn [rg_path set_tables rg_agents rg_enrollments rd_Agents rd_Enrollments rd_Servers]. by rewrite !put_all_saved.
Qed.

Lemma persist_disk r r1 ok :
  rg_path r1 = rg_path r -> rg_path r <> Some (Some RFOther) -> keyed r1 ->
  (disk (persistLocked r1 ok).1 = disk r \/ disk (persistLocked r1 ok).1 = memory r1) /\
  rg_path (persistLocked r1 ok).1 <> Some (Some RFOther).
Proof.
  intros Ep Hn Hk. unfold persistLocked. destruct (rg_path r1) as [f|] eqn:Ef.
  - destruct ok; cbn [fst].
    + split; [right|done]. by apply saved_disk.
    + split; [left; apply disk_same; cbn; congruence|cbn; congruence].
  - split; [left; apply disk_same; cbn; congruence|cbn; congruence].
Qed.

(** An acknowledged write is in the file, if there is one. *)
Lemma persist_ok_disk r ok :
  keyed r -> (persistLocked r ok).2 = Ok tt ->
  disk (persistLocked r ok).1 = memory r \/ rg_path r = None.
Proof.
  intros Hk. unfold persistLocked. destruct (rg_path r) as [f|]; [|by right]. destruct ok; [|done]. intros _. left.
  by apply saved_disk.
Qed.

(** ** How a step changes the tables *)

Lemma active_insert (m : gmap gostring Agent) id a : (activeAgents (<[id := a]> m) <= S (activeAgents m))%nat.
Proof.
  unfold activeAgents. rewrite <- !size_dom.
  assert (size ({[id]} ∪ dom (filter (fun e => ag_Revoked e.2 = false) m) : gset gostring)
          <= S (size (dom (filter (fun e => ag_Revoked e.2 = false) m) : gset gostring)))%nat as Hu.
  { rewrite size_union_alt, size_singleton.
    assert (size (dom (filter (fun e => ag_Revoked e.2 = false) m) ∖ {[id]} : gset gostring)
            <= size (dom (filter (fun e => ag_Revoked e.2 = false) m) : gset gostring))%nat by (apply subseteq_size; set_solver). lia. }
  etrans; [|exact Hu]. apply subseteq_size. intros i Hi. apply elem_of_dom in Hi as [x Hx].
  apply map_lookup_filter_Some in Hx as [[[<- _]|[_ Hx]]%lookup_insert_Some Hr]; [set_solver|].
  apply elem_of_union_r, elem_of_dom. exists x. by apply map_lookup_filter_Some.
Qed.

Section evolve.
Context (tokens : list gostring) (born : gostring -> Prop) (max : Z).

(** Agents keep what identifies them and stay revoked; tokens stay used; what is
    new was drawn; the number of active agents grows only below the limit. *)
Record evolves (T T' : tables) : Prop := {
  ev_agent id a' : tb_agents T' !! id = Some a' ->
    born id \/ exists a, tb_agents T !! id = Some a /\ ag_ServerID a' = ag_ServerID a /\ ag_SealedKey a' = ag_SealedKey a /\
      (ag_Revoked a = true -> ag_Revoked a' = true);
  ev_token t e' : tb_enrollments T' !! t = Some e' ->
    t ∈ tokens \/ exists e, tb_enrollments T !! t = Some e /\ en_ServerID e' = en_ServerID e /\ (en_Used e = true -> en_Used e' = true);
  ev_active : (activeAgents (tb_agents T') <= activeAgents (tb_agents T))%nat \/
    (0 < max -> Z.of_nat (activeAgents (tb_agents T')) <= max) }.

Lemma evolves_refl T : evolves T T.
Proof. constructor; [intros id a H; right; by exists a|intros t e H; right; by exists e|by left]. Qed.

Lemma evolves_tokens T m :
  (forall t e', m !! t = Some e' -> t ∈ tokens \/ exists e, tb_enrollments T !! t = Some e /\ en_ServerID e' = en_ServerID e /\
     (en_Used e = true -> en_Used e' = true)) ->
  evolves T (mkTables (tb_agents T) m).
Proof. intros H. constructor; cbn; [|done|by left]. intros id a Ha. right. by exists a. Qed.

Lemma evolves_sub T m : m ⊆ tb_enrollments T -> evolves T (mkTables (tb_agents T) m).
Proof. intros Hs. apply evolves_tokens. intros t e He. right. exists e. split; [by eapply lookup_weaken|done]. Qed.

Lemma evolves_agents T m :
  (forall id a', m !! id = Some a' -> exists a, tb_agents T !! id = Some a /\ ag_ServerID a' = ag_ServerID a /\
     ag_SealedKey a' = ag_SealedKey a /\ (ag_Revoked a = true -> ag_Revoked a' = true)) ->
  (activeAgents m <= activeAgents (tb_agents T))%nat.
Proof.
  intros H. unfold activeAgents. rewrite <- !size_dom. apply subseteq_size. intros id Hid.
  apply elem_of_dom in Hid as [a' Ha']. apply map_lookup_filter_Some in Ha' as [Ha' Hr]. cbn in Hr.
  destruct (H id a' Ha') as (a & Ha & _ & _ & Hrr). apply elem_of_dom. exists a. apply map_lookup_filter_Some. split; [done|].
  cbn. destruct (ag_Revoked a); [|done]. rewrite Hrr in Hr; done.
Qed.

End evolve.

(** The tokens an event draws, and the identifiers it may give to an agent. *)
Definition op_tokens (o : rop) : list gostring :=
  match o with
  | REnroll _ tok _ _ _ | RReissue _ _ tok _ _ _ => [hex_encode tok]
  | _ => []
  end.

Definition op_born (o : rop) (id : gostring) : Prop :=
  match o with
  | RConsume _ d _ _ => hex_encode (dr_agent d) `suffix_of` id /\ id <> []
  | _ => False
  end.

(** The good states: tables under the names they hold, and a readable file. *)
Record reg_ok (r : Registry) : Prop := {
  ro_keyed : keyed r;
  ro_file : rg_path r <> Some (Some RFOther) }.

(** What every step does. *)
Record stepped (o : rop) (r r' : Registry) : Prop := {
  sp_ok : reg_ok r';
  sp_max : rg_maxAgents r' = rg_maxAgents r;
  sp_memory : evolves (op_tokens o) (op_born o) (rg_maxAgents r) (memory r) (memory r') \/ o = RRestart /\ memory r' = disk r;
  sp_disk : disk r' = disk r \/ disk r' = memory r' }.

(** A change of memory that is then saved. *)
Lemma saved_stepped o r r1 ok :
  reg_ok r -> rg_path r1 = rg_path r -> rg_maxAgents r1 = rg_maxAgents r -> keyed r1 ->
  evolves (op_tokens o) (op_born o) (rg_maxAgents r) (memory r) (memory r1) -> stepped o r (persistLocked r1 ok).1.
Proof.
  intros [Hk Hf] Ep Em Hk1 He. destruct (persist_memory r1 ok) as [M1 M2].
  destruct (persist_disk r r1 ok Ep Hf Hk1) as [D1 D2]. constructor.
  - constructor; [by apply persist_keyed|done].
  - congruence.
  - left. by rewrite M1.
  - rewrite M1. destruct D1 as [->| ->]; [by left|by right].
Qed.

Lemma same_stepped o r : reg_ok r -> stepped o r r.
Proof. intros Hr. constructor; [done|done|left; apply evolves_refl|by left]. Qed.

(** ** The operations *)

Lemma keyed_insert_token (r : Registry) (m : gmap gostring Enrollment) (t : gostring) (e : Enrollment) :
  keyed r -> (forall k x, m !! k = Some x -> en_Token x = k) -> en_Token e = t ->
  keyed (set_tables r (rg_agents r) (<[t := e]> m) (rg_servers r)).
Proof. intros [? ? ?] Hm He. constructor; cbn; try done. intros k x [[<- <-]|[_ ?]]%lookup_insert_Some; auto. Qed.

Lemma keyed_sub_tokens r m :
  keyed r -> m ⊆ rg_enrollments r -> keyed (set_tables r (rg_agents r) m (rg_servers r)).
Proof. intros [? K ?] Hm. constructor; cbn; try done. intros k x Hx. by eapply K, lookup_weaken. Qed.

Lemma Enroll_stepped r now tok serverID duration ok :
  reg_ok r -> stepped (REnroll now tok serverID duration ok) r (enrollWithExpiry r now tok serverID duration ok).1.
Proof.
  intros Hr. unfold enrollWithExpiry. case_bool_decide; [by apply same_stepped|]. destruct (agents_full r); [by apply same_stepped|].
  set (r1 := set_tables _ _ _ _). assert (stepped (REnroll now tok serverID duration ok) r (persistLocked r1 ok).1) as Hs.
  { apply saved_stepped; try done.
    - apply keyed_insert_token; [apply Hr|apply Hr|done].
    - apply evolves_tokens. cbn. intros t e' [[<- _]|[_ He]]%lookup_insert_Some; [left; by left|right; by exists e']. }
  by destruct (persistLocked r1 ok) as [r2 []].
Qed.

Lemma find_token_in r order prefix tok e : find_token r order prefix = Some (tok, e) -> rg_enrollments r !! tok = Some e.
Proof.
  unfold find_token. intros H. destruct (omap _ order) as [|x l] eqn:E; [done|]. cbn in H. apply (inj Some) in H as ->.
  assert ((tok, e) ∈ (tok, e) :: l) as Hin by left. rewrite <- E in Hin. apply list_elem_of_omap in Hin as (t & _ & Ht).
  destruct (_ || _); [|done]. destruct (rg_enrollments r !! t) eqn:Et; [|done]. cbn in Ht. congruence.
Qed.

Lemma RevokeEnrollment_stepped r order prefix ok :
  reg_ok r -> stepped (RRevokeEnrollment order prefix ok) r (RevokeEnrollment r order prefix ok).1.
Proof.
  intros Hr. unfold RevokeEnrollment. case_bool_decide; [by apply same_stepped|].
  destruct (find_token _ _ _) as [[tok e]|]; [|by apply same_stepped].
  apply saved_stepped; try done.
  - apply keyed_sub_tokens; [apply Hr|apply delete_subseteq].
  - apply evolves_sub, delete_subseteq.
Qed.

Lemma Reissue_stepped r now order tok prefix duration ok :
  reg_ok r -> stepped (RReissue now order tok prefix duration ok) r (ReissueEnrollment r now order tok prefix duration ok).1.
Proof.
  intros Hr. unfold ReissueEnrollment. case_bool_decide; [by apply same_stepped|].
  destruct (find_token _ _ _) as [[old e]|]; [|by apply same_stepped]. set (r1 := set_tables _ _ _ _).
  assert (stepped (RReissue now order tok prefix duration ok) r (persistLocked r1 ok).1) as Hs.
  { apply saved_stepped; try done.
    - apply keyed_insert_token; [apply Hr| |done]. intros k x [_ Hx]%lookup_delete_Some. by apply Hr.
    - apply evolves_tokens. cbn. intros t e' [[<- _]|[_ [_ He]%lookup_delete_Some]]%lookup_insert_Some; [left; by left|right; by exists e']. }
  by destruct (persistLocked r1 ok) as [r2 []].
Qed.

Lemma ListEnrollments_stepped r now ok :
  reg_ok r -> stepped (RListEnrollments now ok) r (ListEnrollments r now ok).1.
Proof.
  intros Hr. unfold ListEnrollments. cbn [fst]. set (kept := filter _ _). set (r1 := set_tables _ _ _ _).
  assert (kept ⊆ rg_enrollments r) as Hs by apply map_filter_subseteq.
  assert (keyed r1) as Hk1 by (apply keyed_sub_tokens; [apply Hr|done]).
  assert (evolves [] (fun _ => False) (rg_maxAgents r) (memory r) (memory r1)) as He by (by apply evolves_sub).
  case_bool_decide.
  - by apply saved_stepped.
  - constructor; [constructor; [done|apply Hr]|done|by left|]. left. apply disk_same; [done|apply Hr].
Qed.

Lemma Touch_stepped r now serverID : reg_ok r -> stepped (RTouch now serverID) r (TouchServer r now serverID).
Proof.
  intros Hr. unfold TouchServer. destruct (rg_servers r !! serverID) as [s|] eqn:Es; [|by apply same_stepped].
  destruct Hr as [[K1 K2 K3] Hf]. constructor; [|done|left; apply evolves_refl|left; by apply disk_same].
  constructor; [|done]. constructor; cbn; [done|done|]. intros k x [[<- <-]|[_ ?]]%lookup_insert_Some; [cbn|]; by apply K3.
Qed.

(** Agents of which some may have been revoked. *)
Lemma keyed_agents r m servers :
  keyed r -> (forall id a', m !! id = Some a' -> exists a, rg_agents r !! id = Some a /\ ag_ID a' = ag_ID a) ->
  (forall id s, servers !! id = Some s -> sr_ID s = id) -> keyed (set_tables r m (rg_enrollments r) servers).
Proof.
  intros [K1 K2 K3] Hm Hs. constructor; cbn; [|done|done]. intros id a' (a & Ha & ->)%Hm. by apply K1.
Qed.

Lemma evolves_revoked tokens born max (T : tables) m :
  (forall id a', m !! id = Some a' -> exists a, tb_agents T !! id = Some a /\ (a' = a \/ exists now, a' = revoke_agent a now)) ->
  evolves tokens born max T (mkTables m (tb_enrollments T)).
Proof.
  intros H. assert (forall id a', m !! id = Some a' -> exists a, tb_agents T !! id = Some a /\ ag_ServerID a' = ag_ServerID a /\
     ag_SealedKey a' = ag_SealedKey a /\ (ag_Revoked a = true -> ag_Revoked a' = true)) as H'.
  { intros id a' (a & Ha & [->|[now ->]])%H; exists a; done. }
  constructor; cbn.
  - intros id a' (a & Ha)%H'. right. by exists a.
  - intros t e He. right. by exists e.
  - left. by apply evolves_agents.
Qed.

Lemma Revoke_stepped r now agentID ok : reg_ok r -> stepped (RRevoke now agentID ok) r (Revoke r now agentID ok).1.
Proof.
  intros Hr. unfold Revoke. destruct (rg_agents r !! agentID) as [a|] eqn:Ea; [|by apply same_stepped].
  destruct (ag_Revoked a); [by apply same_stepped|].
  assert (forall id a', <[agentID := revoke_agent a now]> (rg_agents r) !! id = Some a' ->
    exists b, rg_agents r !! id = Some b /\ (a' = b \/ exists t, a' = revoke_agent b t)) as H.
  { intros id a' [[<- <-]|[_ Ha]]%lookup_insert_Some; [exists a; split; [done|right; by exists now]|exists a'; split; [done|by left]]. }
  apply saved_stepped; try done.
  - apply keyed_agents; [apply Hr| |apply Hr]. intros id a' (b & Hb & [->|[t ->]])%H; by exists b.
  - by apply evolves_revoked.
Qed.

Lemma RevokeServer_stepped r now serverID ok :
  reg_ok r -> stepped (RRevokeServer now serverID ok) r (RevokeServer r now serverID ok).1.
Proof.
  intros Hr. unfold RevokeServer. destruct (negb _); [by apply same_stepped|].
  set (f := fun a => if of_server serverID a && negb (ag_Revoked a) then revoke_agent a now else a).
  assert (forall id a', (f <$> rg_agents r) !! id = Some a' ->
    exists b, rg_agents r !! id = Some b /\ (a' = b \/ exists t, a' = revoke_agent b t)) as H.
  { intros id a'. rewrite lookup_fmap. destruct (rg_agents r !! id) as [b|]; [|done]. intros Hb. cbn in Hb. apply (inj Some) in Hb as <-.
    exists b. split; [done|]. unfold f. destruct (_ && _); [right; by exists now|by left]. }
  apply saved_stepped; try done.
  - apply keyed_agents; [apply Hr| |].
    + intros id a' (b & Hb & [->|[t ->]])%H; by exists b.
    + intros id s Hs. apply lookup_alter_Some in Hs as [(-> & x & Hx & ->)|[_ Hx]]; by apply Hr in Hx.
  - by apply evolves_revoked.
Qed.

Lemma DeleteServer_stepped r serverID ok : reg_ok r -> stepped (RDeleteServer serverID ok) r (DeleteServer r serverID ok).1.
Proof.
  intros Hr. unfold DeleteServer. destruct (negb _); [by apply same_stepped|].
  set (ags := filter _ (rg_agents r)). set (ens := filter _ (rg_enrollments r)).
  assert (ags ⊆ rg_agents r) as Ha by apply map_filter_subseteq.
  assert (ens ⊆ rg_enrollments r) as He by apply map_filter_subseteq.
  apply saved_stepped; try done.
  - destruct (ro_keyed _ Hr) as [K1 K2 K3]. constructor; cbn.
    + intros id a Hi. by eapply K1, lookup_weaken.
    + intros t e Hi. by eapply K2, lookup_weaken.
    + intros id s [_ Hs]%lookup_delete_Some. by apply K3.
  - constructor; cbn.
    + intros id a Hi. right. exists a. split; [by eapply lookup_weaken|done].
    + intros t e Hi. right. exists e. split; [by eapply lookup_weaken|done].
    + left. apply (evolves_agents (memory r)). intros id a Hi. exists a. split; [by eapply lookup_weaken|done].
Qed.

Lemma agent_id_suffix serverID bs : hex_encode bs `suffix_of` agent_id serverID bs.
Proof. exists (str "agent-" ++ serverID ++ str "-"). unfold agent_id. by rewrite <- !app_assoc. Qed.

(** A consumption that was answered, or that left memory as it was, or was not
    saved. *)
Lemma Consume_stepped r now d token ok : reg_ok r -> stepped (RConsume now d token ok) r (ConsumeToken r now d token ok).1.
Proof.
  intros Hr. unfold ConsumeToken. destruct (rg_enrollments r !! token) as [e|] eqn:Ee; [|by apply same_stepped].
  destruct (en_Used e); [by apply same_stepped|]. destruct (match en_ExpiresAt e with Some t => t <? now | None => false end); [by apply same_stepped|].
  destruct (agents_full r) eqn:Ef; [by apply same_stepped|].
  destruct (HashPassword _ _) as [h| |]; [|by apply same_stepped..].
  set (a := mkAgent _ _ _ _ _ _ _ _). set (r1 := set_tables _ _ _ _).
  assert (stepped (RConsume now d token ok) r (persistLocked r1 ok).1) as Hs.
  { destruct (ro_keyed _ Hr) as [K1 K2 K3]. apply saved_stepped; try done.
    - constructor; cbn.
      + intros id x [[<- <-]|[_ ?]]%lookup_insert_Some; [done|by apply K1].
      + intros t x [[<- <-]|[_ ?]]%lookup_insert_Some; [cbn|]; by apply K2.
      + intros id s. unfold bind_server. destruct (rg_servers r !! en_ServerID e) as [s0|] eqn:Es;
          intros [[<- <-]|[_ ?]]%lookup_insert_Some; [cbn; by apply K3|by apply K3|done|by apply K3].
    - constructor; cbn [memory r1 set_tables rg_agents rg_enrollments tb_agents tb_enrollments op_tokens op_born].
      + intros id x [[<- <-]|[_ ?]]%lookup_insert_Some; [left|right; by exists x].
        split; [apply agent_id_suffix|done].
      + intros t x [[<- <-]|[_ ?]]%lookup_insert_Some; right; [by exists e|by exists x].
      + right. intros Hm. pose proof (active_insert (rg_agents r) (agent_id (en_ServerID e) (dr_agent d)) a).
        unfold agents_full in Ef. apply andb_false_iff in Ef as [Ef|Ef]; lia. }
  by destruct (persistLocked r1 ok) as [r2 []].
Qed.

Lemma restart_restart r : memory (restart (restart r)) = memory (restart r).
Proof. unfold restart at 1, load. cbn [rg_path set_tables]. rewrite restart_path. unfold restart, load. cbn [rg_path set_tables]. destruct (rg_path r) as [[[]|]|] eqn:E; cbn; rewrite ?E; done. Qed.

Lemma rstep_stepped r o : reg_ok r -> stepped o r (rstep r o).
Proof.
  intros Hr. destruct o; cbn [rstep].
  - by apply Enroll_stepped.
  - by apply Consume_stepped.
  - by apply Revoke_stepped.
  - by apply Touch_stepped.
  - by apply RevokeServer_stepped.
  - by apply DeleteServer_stepped.
  - by apply RevokeEnrollment_stepped.
  - by apply Reissue_stepped.
  - by apply ListEnrollments_stepped.
  - constructor.
    + constructor; [apply keyed_restart, Hr|]. rewrite restart_path. apply Hr.
    + apply restart_max.
    + by right.
    + left. apply restart_restart.
Qed.

(** ** Along a run *)

(** A property of tables that changes keep is kept by memory and file. *)
Lemma rrun_both (Q : tables -> Prop) (P : rop -> Prop) os :
  (forall o max T T', P o -> evolves (op_tokens o) (op_born o) max T T' -> Q T -> Q T') ->
  Forall P os -> forall r, reg_ok r -> Q (memory r) -> Q (disk r) ->
  reg_ok (rrun r os) /\ Q (memory (rrun r os)) /\ Q (disk (rrun r os)).
Proof.
  intros HQ Hp. induction Hp as [|o os Ho _ IH]; intros r Hr Hm Hd; [done|]. cbn [rrun fold_left].
  destruct (rstep_stepped r o Hr) as [S1 _ S3 S4].
  assert (Q (memory (rstep r o))) as Hm' by (destruct S3 as [S3|[_ ->]]; [by eapply HQ|done]).
  apply IH; [done|done|]. by destruct S4 as [->| ->].
Qed.

Definition token_dead (t : gostring) (T : tables) : Prop := map_Forall (fun k e => k = t -> en_Used e = true) (tb_enrollments T).
Definition agent_dead (id : gostring) (T : tables) : Prop := map_Forall (fun k a => k = id -> ag_Revoked a = true) (tb_agents T).

Lemma token_dead_evolves t o max T T' :
  t ∉ op_tokens o -> evolves (op_tokens o) (op_born o) max T T' -> token_dead t T -> token_dead t T'.
Proof.
  intros Hn [_ He _] Hd k e' He' ->. destruct (He t e' He') as [?|(e & Hx & _ & Hu)]; [done|]. by apply Hu, (Hd t e Hx).
Qed.

Lemma agent_dead_evolves id o max T T' :
  ~ op_born o id -> evolves (op_tokens o) (op_born o) max T T' -> agent_dead id T -> agent_dead id T'.
Proof.
  intros Hn [Ha _ _] Hd k a' Ha' ->. destruct (Ha id a' Ha') as [?|(a & Hx & _ & _ & Hu)]; [done|]. by apply Hu, (Hd id a Hx).
Qed.

Lemma disk_no_path r : rg_path r = None -> disk r = mkTables ∅ ∅.
Proof. intros E. unfold disk, restart, load. cbn [rg_path set_tables]. by rewrite E. Qed.

(** What an answered consumption leaves. *)
Lemma Consume_answered r now d token ok ag secret :
  reg_ok r -> (ConsumeToken r now d token ok).2 = Ok (ag, secret) ->
  exists e, rg_enrollments r !! token = Some e /\ en_Used e = false /\
    secret = hex_encode (dr_secret d) /\ ag_ID ag = agent_id (en_ServerID e) (dr_agent d) /\
    ag_ServerID ag = en_ServerID e /\ ag_Revoked ag = false /\ ag_SealedKey ag = seal (rg_box r) (dr_nonce d) secret /\
    let r' := (ConsumeToken r now d token ok).1 in
    rg_agents r' = <[ag_ID ag := ag]> (rg_agents r) /\ rg_enrollments r' = <[token := use_token e now]> (rg_enrollments r) /\
    rg_box r' = rg_box r /\ (disk r' = memory r' \/ disk r' = mkTables ∅ ∅).
Proof.
  intros Hr. pose proof (Consume_stepped r now d token ok Hr) as Hs. revert Hs. unfold ConsumeToken.
  destruct (rg_enrollments r !! token) as [e|] eqn:Ee; [|done]. destruct (en_Used e) eqn:Eu; [done|].
  destruct (match en_ExpiresAt e with Some t => t <? now | None => false end); [done|].
  destruct (agents_full r); [done|]. destruct (HashPassword _ _) as [h| |]; [|done..].
  set (a := mkAgent _ _ _ _ _ _ _ _). set (r1 := set_tables _ _ _ _).
  pose proof (persist_memory r1 ok) as [M _].
  assert (rg_box (persistLocked r1 ok).1 = rg_box r) as B by (unfold persistLocked; destruct (rg_path r1); [destruct ok|]; done).
  assert (keyed (persistLocked r1 ok).1 -> keyed r1) as Hk.
  { intros [? ? ?]. unfold persistLocked in *. destruct (rg_path r1); [destruct ok|]; by constructor. }
  pose proof (fun H1 => persist_ok_disk r1 ok H1) as D.
  assert (rg_path r1 = None -> rg_path (persistLocked r1 ok).1 = None) as Hp by (unfold persistLocked; destruct (rg_path r1) eqn:Ep; done).
  destruct (persistLocked r1 ok) as [r2 [[]|?|]]; cbn [fst snd] in *; [|done..].
  intros [[S1 _] _ _ _] E. apply (inj Ok), pair_equal_spec in E as [<- <-]. exists e. unfold memory in M. injection M as M1 M2.
  split_and!; try done. destruct (D (Hk S1) eq_refl) as [->|Hn]; [left|right; by apply disk_no_path, Hp].
  unfold memory. by rewrite M1, M2.
Qed.

Lemma Revoke_answered r now id ok a :
  reg_ok r -> rg_agents r !! id = Some a -> ag_Revoked a = false -> (Revoke r now id ok).2 = Ok tt ->
  let r' := (Revoke r now id ok).1 in agent_dead id (memory r') /\ agent_dead id (disk r').
Proof.
  intros Hr Ha Hn. cbn zeta. pose proof (Revoke_stepped r now id ok Hr) as Hs. revert Hs. unfold Revoke. rewrite Ha, Hn.
  set (r1 := set_tables _ _ _ _). intros [[S1 _] _ _ _] Hok. pose proof (persist_memory r1 ok) as [M _].
  assert (agent_dead id (memory r1)) as Hd.
  { intros k x Hx ->. cbn in Hx. rewrite lookup_insert_eq in Hx. by apply (inj Some) in Hx as <-. }
  split; [by rewrite M|].
  assert (keyed r1) as Hk by (destruct S1; unfold persistLocked in *; destruct (rg_path r1); [destruct ok|]; by constructor).
  destruct (persist_ok_disk r1 ok Hk Hok) as [->|Hp]; [done|].
  rewrite disk_no_path; [apply map_Forall_empty|]. unfold persistLocked. by rewrite Hp.
Qed.

(** A registry as it is opened, on any file that can be read. *)
Lemma opened_ok path box max r0 :
  load (mkRegistry path box ∅ ∅ ∅ max) = Ok r0 ->
  reg_ok r0 /\ disk r0 = memory r0 /\ rg_maxAgents r0 = max.
Proof.
  intros E. assert (restart (mkRegistry path box ∅ ∅ ∅ max) = r0) as <-.
  { unfold restart. change (set_tables _ ∅ ∅ ∅) with (mkRegistry path box ∅ ∅ ∅ max). by rewrite E. }
  split_and!; [|apply restart_restart|apply restart_max]. constructor; [by apply keyed_restart|].
  rewrite restart_path. cbn. intros ->. done.
Qed.

(** C31: enrollment and revocation are final. Open a registry on any readable file
    and run any operations on it, with saves that fail and restarts in between.
    A token whose consumption was answered with an agent enrolls nobody ever
    again; an active agent whose revocation was acknowledged is not authorized
    and has no key ever again (as long as its token or its identifier is not
    drawn anew); and if the file that was opened has no more active agents than the
    limit, there never are more. *)
Theorem enrollment_final path box max r0 os :
  load (mkRegistry path box ∅ ∅ ∅ max) = Ok r0 ->
  let r := rrun r0 os in
  (forall now d token ok ag secret os2 now' d' ok',
     (ConsumeToken r now d token ok).2 = Ok (ag, secret) -> Forall (fun o => token ∉ op_tokens o) os2 ->
     exists e, (ConsumeToken (rrun (ConsumeToken r now d token ok).1 os2) now' d' token ok').2 = Err e) /\
  (forall now id ok a os2,
     rg_agents r !! id = Some a -> ag_Revoked a = false -> (Revoke r now id ok).2 = Ok tt ->
     Forall (fun o => ~ op_born o id) os2 ->
     let r' := rrun (Revoke r now id ok).1 os2 in
     (exists e, AuthorizeStream r' id = Err e) /\ exists e, agentKey r' id = Err e) /\
  (0 < max -> Z.of_nat (activeAgents (rg_agents r0)) <= max -> Z.of_nat (activeAgents (rg_agents r)) <= max).
Proof.
  intros E r. destruct (opened_ok path box max r0 E) as (Hr0 & Hd0 & Hm0).
  assert (reg_ok r) as Hr by (apply (rrun_both (fun _ => True) (fun _ => True)); [done|by apply Forall_true|done..]).
  split_and!.
  - intros now d token ok ag secret os2 now' d' ok' Hc Hos.
    pose proof (Consume_stepped r now d token ok Hr) as [Hr1 _ _ _].
    destruct (Consume_answered r now d token ok ag secret Hr Hc) as (e & _ & _ & _ & _ & _ & _ & _ & _ & Ee & _ & Hd).
    set (r1 := (ConsumeToken r now d token ok).1) in *.
    assert (token_dead token (memory r1)) as Hdead.
    { intros k x Hx ->. cbn in Hx. rewrite Ee, lookup_insert_eq in Hx. by apply (inj Some) in Hx as <-. }
    destruct (rrun_both (token_dead token) (fun o => token ∉ op_tokens o) os2) with (r := r1) as (_ & Hm & _); try done.
    { intros o mx T T'. apply token_dead_evolves. }
    { destruct Hd as [-> | ->]; [done|apply map_Forall_empty]. }
    unfold ConsumeToken. destruct (rg_enrollments (rrun r1 os2) !! token) as [x|] eqn:Ex; [|by eexists].
    rewrite (Hm token x Ex eq_refl). by eexists.
  - intros now id ok a os2 Ha Hrv Hok Hos. pose proof (Revoke_stepped r now id ok Hr) as [Hr1 _ _ _].
    destruct (Revoke_answered r now id ok a Hr Ha Hrv Hok) as [D1 D2]. set (r1 := (Revoke r now id ok).1) in *.
    destruct (rrun_both (agent_dead id) (fun o => ~ op_born o id) os2) with (r := r1) as (_ & Hm & _); try done.
    { intros o mx T T'. apply agent_dead_evolves. }
    unfold AuthorizeStream, agentKey. destruct (rg_agents (rrun r1 os2) !! id) as [x|] eqn:Ex; [|split; by eexists].
    rewrite (Hm id x Ex eq_refl). split; by eexists.
  - intros Hmax Hb. unfold r. clear r Hr E. change (rg_agents r0) with (tb_agents (memory r0)) in Hb.
    assert (Z.of_nat (activeAgents (tb_agents (disk r0))) <= max) as Hb' by (by rewrite Hd0). clear Hd0. revert r0 Hr0 Hm0 Hb Hb'.
    induction os as [|o os IH]; intros r0 Hr0 Hm0 Hb Hb'; [done|]. cbn [rrun fold_left].
    destruct (rstep_stepped r0 o Hr0) as [S1 S2 S3 S4].
    assert (Z.of_nat (activeAgents (tb_agents (memory (rstep r0 o)))) <= max) as Hb1.
    { destruct S3 as [[_ _ Ea]|[_ ->]]; [|done]. rewrite Hm0 in Ea. destruct Ea as [Ea|Ea]; [lia|by apply Ea]. }
    apply IH; [done|congruence|done|]. by destruct S4 as [->| ->].
Qed.

(** ** Consuming works *)

Lemma HashPassword_ok salt p : exists h, HashPassword (Ok salt) p = Ok h.
Proof.
  unfold HashPassword, HashPasswordWith. cbn [RandomSalt obind].
  rewrite (proj2 (Z.ltb_ge _ _)), (proj2 (Z.ltb_ge _ _)) by (vm_compute; discriminate). cbn [orb].
  unfold pbkdf2_Key. cbn [obind Z.leb Z.compare]. by eexists.
Qed.

Lemma persist_path_none r ok : rg_path r = None -> persistLocked r ok = (r, Ok tt).
Proof. intros E. unfold persistLocked. by rewrite E. Qed.

Lemma persist_true r : (persistLocked r true).2 = Ok tt.
Proof. unfold persistLocked. by destruct (rg_path r). Qed.

(** A fresh token enrolls an agent, whose key in the registry is the secret that
    was handed out. *)
Lemma Consume_works r now d token e :
  reg_ok r -> length (rg_box r) = 32%nat -> length (dr_nonce d) = gcmNonceSize -> dr_secret d <> [] ->
  rg_enrollments r !! token = Some e -> spent now e = false -> agents_full r = false ->
  exists ag, let r' := (ConsumeToken r now d token true).1 in
    (ConsumeToken r now d token true).2 = Ok (ag, hex_encode (dr_secret d)) /\
    ag_ID ag = agent_id (en_ServerID e) (dr_agent d) /\ ag_ServerID ag = en_ServerID e /\
    AuthorizeStream r' (ag_ID ag) = Ok ag /\ agentKey r' (ag_ID ag) = Ok (hex_encode (dr_secret d)).
Proof.
  intros Hr Hb Hn Hs He Hsp Hf.
  assert (exists ag, (ConsumeToken r now d token true).2 = Ok (ag, hex_encode (dr_secret d))) as [ag Hok].
  { unfold ConsumeToken. unfold spent in Hsp. apply orb_false_iff in Hsp as [Hu Hx]. rewrite He, Hu, Hx, Hf.
    destruct (HashPassword_ok (dr_salt d) (hex_encode (dr_secret d))) as [h ->].
    match goal with |- context [persistLocked ?r1 true] => pose proof (persist_true r1); destruct (persistLocked r1 true) as [r2 []] end;
      cbn in *; try done. by eexists. }
  exists ag. cbn zeta. split; [done|].
  destruct (Consume_answered r now d token true ag _ Hr Hok) as (e' & He' & _ & _ & Hid & Hsv & Hrv & Hk & Ha & _ & Hbx & _).
  rewrite He in He'. apply (inj Some) in He' as <-. split; [done|]. split; [done|].
  unfold AuthorizeStream, agentKey. rewrite Ha, lookup_insert_eq, Hrv, Hbx, Hk. split; [done|].
  rewrite bool_decide_eq_false_2; [by apply open_seal|]. unfold seal. rewrite bool_decide_eq_false_2; [done|].
  destruct (dr_secret d); [done|]. done.
Qed.

(** ** Example *)

Definition demo_box : secretBox := replicate 32 x00.
Definition demo_registry : Registry := mkRegistry (Some None) demo_box ∅ ∅ ∅ 500.
Definition demo_draws : draws := mkDraws [x01] [x02] (replicate 12 x00) [x03].
Definition demo_enroll : list rop := [REnroll 0 [xaa] (str "server-1") (15 * minute) true].
Definition demo_token : gostring := str "aa".

Lemma demo_enrolled : reg_ok (rrun demo_registry demo_enroll).
Proof.
  apply (rrun_both (fun _ => True) (fun _ => True)); [done|by apply Forall_true| |done..].
  by apply (opened_ok (Some None) demo_box 500).
Qed.

Lemma enrollment_final_witness :
  exists ag, (ConsumeToken (rrun demo_registry demo_enroll) 1 demo_draws demo_token true).2 = Ok (ag, str "01") /\
  exists e, (ConsumeToken (rrun (ConsumeToken (rrun demo_registry demo_enroll) 1 demo_draws demo_token true).1 [RRestart])
               2 demo_draws demo_token true).2 = Err e.
Proof.
  destruct (Consume_works (rrun demo_registry demo_enroll) 1 demo_draws demo_token
              (new_enrollment demo_token (str "server-1") 0 (15 * minute))) as (ag & Hok & _);
    [apply demo_enrolled|vm_compute; reflexivity|vm_compute; reflexivity|discriminate|vm_compute; reflexivity
    |vm_compute; reflexivity|vm_compute; reflexivity|].
  exists ag. split; [exact Hok|].
  refine (proj1 (enrollment_final (Some None) demo_box 500 demo_registry demo_enroll eq_refl)
            1 demo_draws demo_token true ag (str "01") [RRestart] 2 demo_draws true Hok _).
  apply Forall_singleton. apply not_elem_of_nil.
Defined.

(** A revocation that could not be saved, asked for again, is acknowledged
    without being saved: a restart undoes it. *)
Lemma revoke_again_not_saved :
  let a := mkAgent (str "a") (str "s") [] [] false zeroTime 0 zeroTime in
  let r := (persistLocked (mkRegistry (Some None) demo_box {[str "a" := a]} ∅ ∅ 500) true).1 in
  let r1 := (Revoke r 1 (str "a") false).1 in
  (Revoke r 1 (str "a") false).2 <> Ok tt /\ Revoke r1 2 (str "a") true = (r1, Ok tt) /\
  AuthorizeStream r1 (str "a") = Err ErrRevoked /\ AuthorizeStream (restart r1) (str "a") = Ok a.
Proof. vm_compute. split_and!; [discriminate|reflexivity|reflexivity|reflexivity]. Qed.
