(* ===== verification/FleetAuth.v ===== *)
(** * Signed messages between the fleet's server and its agents (internal/fleet/auth.go)

    An envelope carries a payload with a hash and an HMAC; a verifier remembers the
    message identifiers it accepted until they expire. The clock (nanoseconds) and
    the random bytes are arguments; the registry a verifier points to is passed to
    [Verify] in its current state. *)

From stdpp Require Import prelude countable strings gmap list.
From Stdlib Require Import ZArith Lia.
From S2P Require Import Prelude GoBinary Wire GoStrings GoCrypto FleetJobs FleetRegistry.

(** The arrow is U+2192. *)
Definition DirectionAgentToControl : gostring := str "agent" ++ [xe2; x86; x92] ++ str "control".
Definition DirectionControlToAgent : gostring := str "control" ++ [xe2; x86; x92] ++ str "agent".

Record Envelope := mkEnvelope {
  ev_ProtocolVersion : Z;
  ev_MessageID : gostring;
  ev_AgentID : gostring;
  ev_Direction : gostring;
  ev_IssuedAt : Z;
  ev_Expiry : Z;
  ev_Op : gostring;
  ev_BodySHA256 : gostring;
  ev_HMAC : gostring;
  ev_Payload : list byte }.

Definition set_agent (env : Envelope) (agentID hmac : gostring) : Envelope :=
  mkEnvelope (ev_ProtocolVersion env) (ev_MessageID env) agentID (ev_Direction env) (ev_IssuedAt env) (ev_Expiry env)
    (ev_Op env) (ev_BodySHA256 env) hmac (ev_Payload env).

Definition PayloadSHA256 (payload : list byte) : gostring := hex_encode (Sum sha256 payload).

Definition ComputeHMAC (key direction op bodySHA256 : gostring) (issuedAt : Z) (messageID : gostring) : gostring :=
  hex_encode (hmac sha256 key
    (direction ++ [x0a] ++ op ++ [x0a] ++ bodySHA256 ++ [x0a] ++ itoa issuedAt ++ [x0a] ++ messageID)).

Definition second : Z := 1000000000.

(** [time.Time.Unix]. *)
Definition Unix (t : Z) : Z := t / second.

Definition generateMessageID (rnd : option (list byte)) (now : Z) : gostring :=
  match rnd with
  | Some b => hex_encode b
  | None => itoa now
  end.

Definition Sign (key direction op : gostring) (payload : list byte) (ttl now : Z) (rnd : option (list byte)) : outcome Envelope :=
  if bool_decide (key = []) then Err "fleet: key cannot be empty" else
  let msgID := generateMessageID rnd now in
  let bodyHash := PayloadSHA256 payload in
  let issuedAt := Unix now in
  Ok (mkEnvelope 1 msgID [] direction issuedAt (Unix (now + ttl)) op bodyHash
        (ComputeHMAC key direction op bodyHash issuedAt msgID) payload).

Record Verifier := mkVerifier {
  vf_key : gostring;
  vf_window : Z;
  vf_direction : gostring;
  vf_seen : gmap gostring Z }.

Definition NewVerifier (key : gostring) (window : Z) (direction : gostring) : Verifier := mkVerifier key window direction ∅.

Definition set_seen (v : Verifier) (seen : gmap gostring Z) : Verifier :=
  mkVerifier (vf_key v) (vf_window v) (vf_direction v) seen.

(** [int64(v.window.Seconds())]. *)
Definition window_seconds (v : Verifier) : Z := vf_window v ÷ second.

(** The key an envelope is checked with. *)
Definition verification_key (v : Verifier) (reg : option Registry) (env : Envelope) : outcome gostring :=
  match reg with
  | Some r => if bool_decide (vf_key v = []) && negb (bool_decide (ev_AgentID env = [])) then agentKey r (ev_AgentID env) else Ok (vf_key v)
  | None => Ok (vf_key v)
  end.

Definition ErrReplay : string := "fleet: message replay detected".
Definition ErrInvalidHMAC : string := "fleet: invalid hmac".
Definition ErrExpired : string := "fleet: envelope expired".

(** The checks of [Verify] that do not look at the memory of the verifier; [now]
    is in seconds. *)
Definition verify_checks (v : Verifier) (reg : option Registry) (env : Envelope) (now : Z) : outcome unit :=
  if negb (ev_ProtocolVersion env =? 0) && negb (ev_ProtocolVersion env =? 1)
  then Err "fleet: unsupported protocol version" else
  if negb (bool_decide (vf_direction v = [])) && negb (bool_decide (ev_Direction env = [])) &&
     negb (bool_decide (ev_Direction env = vf_direction v))
  then Err "fleet: cross-endpoint mismatch" else
  if (0 <? ev_Expiry env) && (ev_Expiry env <? now) then Err ErrExpired else
  if (0 <? ev_IssuedAt env) && (now + 30 <? ev_IssuedAt env) then Err "fleet: invalid timestamp" else
  if (0 <? ev_IssuedAt env) && ((0 <? vf_window v) && (window_seconds v <? now - ev_IssuedAt env)) then Err ErrExpired else
  let expectedBodyHash := PayloadSHA256 (ev_Payload env) in
  if negb (bool_decide (ev_BodySHA256 env = [])) && negb (bool_decide (ev_BodySHA256 env = expectedBodyHash))
  then Err "fleet: invalid body hash" else
  let? key := verification_key v reg env in
  if negb (bool_decide (ev_HMAC env
       = ComputeHMAC key (ev_Direction env) (ev_Op env) expectedBodyHash (ev_IssuedAt env) (ev_MessageID env)))
  then Err ErrInvalidHMAC else
  match reg with
  | Some r =>
      if bool_decide (ev_AgentID env = []) then Ok tt else
      let? _ := AuthorizeStream r (ev_AgentID env) in Ok tt
  | None => Ok tt
  end.

Definition forget_expired (seen : gmap gostring Z) (now : Z) : gmap gostring Z :=
  filter (fun x => (x.2 <? now) = false) seen.

Definition Verify (v : Verifier) (reg : option Registry) (oenv : option Envelope) (t : Z) : Verifier * outcome unit :=
  match oenv with
  | None => (v, Err "fleet: envelope is nil")
  | Some env =>
      let now := Unix t in
      match verify_checks v reg env now with
      | Ok _ =>
          let seen := forget_expired (vf_seen v) now in
          match seen !! ev_MessageID env with
          | Some _ => (set_seen v seen, Err ErrReplay)
          | None =>
              let expiry := if ev_Expiry env <=? 0 then now + window_seconds v else ev_Expiry env in
              (set_seen v (<[ev_MessageID env := expiry]> seen), Ok tt)
          end
      | Err e => (v, Err e)
      | Panic => (v, Panic)
      end
  end.

(** ** What is signed is accepted, once *)

Lemma verify_signed v reg key direction op payload ttl now rnd env t :
  Sign key direction op payload ttl now rnd = Ok env ->
  vf_key v = key -> (vf_direction v = [] \/ vf_direction v = direction) -> second <= now ->
  Unix now <= Unix t <= Unix (now + ttl) -> (0 < vf_window v -> Unix t - Unix now <= window_seconds v) ->
  (match reg with Some r => exists ag, AuthorizeStream r (ev_AgentID env) = Ok ag \/ ev_AgentID env = [] | None => True end) ->
  verify_checks v reg env (Unix t) = Ok tt.
Proof.
  unfold Sign. case_bool_decide as Hk; [done|]. intros <-%(inj Ok) Ek Hd Hn Ht Hw Hr. unfold verify_checks.
  cbn [ev_ProtocolVersion ev_Direction ev_Expiry ev_IssuedAt ev_BodySHA256 ev_Payload ev_HMAC ev_Op ev_MessageID ev_AgentID].
  cbn [Z.eqb Pos.eqb negb andb]. assert (0 < Unix now) as Hpos.
  { unfold Unix, second in *. apply Z.div_str_pos. lia. }
  assert (negb (bool_decide (vf_direction v = [])) && negb (bool_decide (direction = [])) && negb (bool_decide (direction = vf_direction v)) = false) as ->.
  { destruct Hd as [-> | ->]; [done|]. rewrite (bool_decide_eq_true_2 (direction = direction)) by done. cbn [negb]. by rewrite !andb_false_r. }
  rewrite (proj2 (Z.ltb_ge (Unix (now + ttl)) _)) by lia. rewrite andb_false_r.
  rewrite (proj2 (Z.ltb_ge (Unix t + 30) _)) by lia. rewrite andb_false_r.
  assert ((0 <? vf_window v) && (window_seconds v <? Unix t - Unix now) = false) as ->.
  { destruct (Z.ltb_spec 0 (vf_window v)); [|done]. cbn [andb]. apply Z.ltb_ge. auto. }
  rewrite andb_false_r, (bool_decide_eq_true_2 (PayloadSHA256 payload = PayloadSHA256 payload)) by done.
  cbn [negb]. rewrite andb_false_r.
  assert (verification_key v reg (mkEnvelope 1 (generateMessageID rnd now) [] direction (Unix now) (Unix (now + ttl)) op
            (PayloadSHA256 payload) (ComputeHMAC key direction op (PayloadSHA256 payload) (Unix now) (generateMessageID rnd now)) payload)
          = Ok key) as ->.
  { unfold verification_key. destruct reg; [|by rewrite Ek]. rewrite (bool_decide_eq_false_2 (vf_key v = [])) by congruence. by rewrite Ek. }
  cbn [obind]. rewrite bool_decide_eq_true_2 by done. cbn [negb]. by destruct reg.
Qed.

(** An envelope is stamped with the agent's name after it was signed. *)
Lemma verify_stamped v reg env agentID now :
  vf_key v <> [] ->
  verify_checks v reg env now = Ok tt ->
  (match reg with Some r => exists ag, AuthorizeStream r agentID = Ok ag | None => True end) ->
  verify_checks v reg (set_agent env agentID (ev_HMAC env)) now = Ok tt.
Proof.
  intros Hk. unfold verify_checks, set_agent.
  cbn [ev_ProtocolVersion ev_Direction ev_Expiry ev_IssuedAt ev_BodySHA256 ev_Payload ev_HMAC ev_Op ev_MessageID ev_AgentID].
  do 6 (match goal with |- (if ?b then _ else _) = _ -> _ => destruct b; [done|] end).
  unfold verification_key. cbn [ev_AgentID]. rewrite (bool_decide_eq_false_2 (vf_key v = [])) by done. cbn [andb].
  destruct reg as [r|]; cbn [obind]; destruct (negb _); try done.
  intros _ [ag ->]. cbn [obind]. by case_bool_decide.
Qed.

(** Runs of a verifier: who asks when. *)
Fixpoint vrun (v : Verifier) (calls : list (option Registry * Envelope * Z)) : list (outcome unit) :=
  match calls with
  | [] => []
  | (reg, env, t) :: r => let '(v, o) := Verify v reg (Some env) t in o :: vrun v r
  end.

(** The times of the calls do not go back. *)
Fixpoint monotone (t0 : Z) (calls : list (option Registry * Envelope * Z)) : Prop :=
  match calls with
  | [] => True
  | (_, _, t) :: r => t0 <= t /\ monotone t r
  end.

Definition accepted_as (id : gostring) (c : option Registry * Envelope * Z) (o : outcome unit) : bool :=
  bool_decide (ev_MessageID c.1.2 = id) && (match o with Ok _ => true | _ => false end).

Definition acceptances (id : gostring) (calls : list (option Registry * Envelope * Z)) (os : list (outcome unit)) : nat :=
  length (filter (fun x => accepted_as id x.1 x.2 = true) (zip calls os)).

Lemma verify_fresh v reg env now :
  0 < vf_window v -> 0 < ev_IssuedAt env -> verify_checks v reg env now = Ok tt -> now <= ev_IssuedAt env + window_seconds v.
Proof.
  intros Hw Hi. unfold verify_checks.
  do 4 (match goal with |- (if ?b then _ else _) = _ -> _ => destruct b; [done|] end).
  destruct ((0 <? ev_IssuedAt env) && _) eqn:E; [done|]. intros _.
  rewrite (proj2 (Z.ltb_lt _ _) Hi), (proj2 (Z.ltb_lt _ _) Hw) in E. cbn [andb] in E. apply Z.ltb_ge in E. lia.
Qed.

Section once.
Context (id : gostring) (issued : Z) (w : Z).

(** The envelopes with this identifier, as they were signed: issued at one time,
    to expire not before the window closes. *)
Definition honest (c : option Registry * Envelope * Z) : Prop :=
  ev_MessageID c.1.2 = id -> ev_IssuedAt c.1.2 = issued /\ issued + w <= ev_Expiry c.1.2.

Lemma vrun_none v calls t0 :
  0 < vf_window v -> window_seconds v = w -> 0 < issued -> 0 <= w -> Forall honest calls -> monotone t0 calls ->
  (issued + w < Unix t0 \/ exists exp, vf_seen v !! id = Some exp /\ issued + w <= exp) ->
  acceptances id calls (vrun v calls) = 0%nat.
Proof.
  intros Hw Ew Hi Hw0 Hh. revert v t0 Hw Ew. induction Hh as [|[[reg env] t] calls Hc _ IH]; intros v t0 Hw Ew Hm Hs; [done|].
  destruct Hm as [Ht Hm]. cbn [vrun]. assert (Unix t0 <= Unix t) as Hu by (apply Z.div_le_mono; [done|lia]).
  assert (forall v' o, Verify v reg (Some env) t = (v', o) -> vf_window v' = vf_window v /\
    (accepted_as id (reg, env, t) o = false) /\
    (issued + w < Unix t \/ exists exp, vf_seen v' !! id = Some exp /\ issued + w <= exp)) as Hstep.
  { intros v' o. unfold Verify.
    assert (issued + w < Unix t \/ exists exp, vf_seen v !! id = Some exp /\ issued + w <= exp) as Hs1 by (destruct Hs; [left; lia|by right]).
    destruct (verify_checks v reg env (Unix t)) as [[]|e|] eqn:Ec;
      [|intros [<- <-]%pair_equal_spec; unfold accepted_as; cbn; rewrite andb_false_r; done..].
    assert (Unix t <= issued + w -> exists exp, forget_expired (vf_seen v) (Unix t) !! id = Some exp /\ issued + w <= exp) as Hkeep.
    { intros Hle. destruct Hs1 as [?|(exp & Hx & Hge)]; [lia|]. exists exp. split; [|done]. apply map_lookup_filter_Some.
      split; [done|]. cbn. apply Z.ltb_ge. lia. }
    destruct (decide (ev_MessageID env = id)) as [E|E].
    - destruct (Hc E) as [Ei Eex]. cbn in Ei, Eex. pose proof (verify_fresh v reg env (Unix t) Hw ltac:(lia) Ec) as Hfr.
      destruct Hkeep as (exp & Hx & Hge); [lia|]. rewrite E, Hx. intros [<- <-]%pair_equal_spec.
      unfold accepted_as. cbn. rewrite andb_false_r. split_and!; [done|done|]. right. by exists exp.
    - assert (forall o', accepted_as id (reg, env, t) o' = false) as Hna.
      { intros o'. unfold accepted_as. cbn. by rewrite bool_decide_eq_false_2. }
      assert (issued + w < Unix t \/ exists exp, forget_expired (vf_seen v) (Unix t) !! id = Some exp /\ issued + w <= exp) as Hs2.
      { destruct (decide (Unix t <= issued + w)); [right; by apply Hkeep|left; lia]. }
      destruct (forget_expired (vf_seen v) (Unix t) !! ev_MessageID env); intros [<- <-]%pair_equal_spec; split_and!; try done.
      cbn. by rewrite lookup_insert_ne. }
  destruct (Verify v reg (Some env) t) as [v' o] eqn:Ev. destruct (Hstep v' o eq_refl) as (Ew' & Ha & Hs').
  unfold acceptances. cbn [zip zip_with]. rewrite filter_cons_False by (cbn; by rewrite Ha).
  apply (IH v' t); [congruence|unfold window_seconds in *; congruence|done|done].
Qed.

Lemma vrun_once v calls t0 :
  0 < vf_window v -> window_seconds v = w -> 0 < issued -> 0 <= w -> Forall honest calls -> monotone t0 calls ->
  (acceptances id calls (vrun v calls) <= 1)%nat.
Proof.
  intros Hw Ew Hi Hw0 Hh. revert v t0 Hw Ew. induction Hh as [|[[reg env] t] calls Hc Hh IH]; intros v t0 Hw Ew Hm; [cbn; lia|].
  destruct Hm as [Ht Hm]. cbn [vrun]. destruct (Verify v reg (Some env) t) as [v' o] eqn:Ev.
  assert (vf_window v' = vf_window v) as Ew'.
  { revert Ev. unfold Verify. destruct (verify_checks v reg env (Unix t)); [|by intros [<- _]%pair_equal_spec..].
    destruct (_ !! _); by intros [<- _]%pair_equal_spec. }
  unfold acceptances. cbn [zip zip_with]. destruct (accepted_as id (reg, env, t) o) eqn:Ea.
  - rewrite filter_cons_True by done. cbn [length]. pose proof (vrun_none v' calls t) as Hnone. unfold acceptances in Hnone.
    rewrite Hnone; [lia|congruence|unfold window_seconds in *; congruence|done..|]. right.
    unfold accepted_as in Ea. cbn in Ea. apply andb_prop in Ea as [E%bool_decide_eq_true_1 Eo].
    destruct (Hc E) as [Ei Eex]. cbn in Ei, Eex. revert Ev. unfold Verify.
    destruct (verify_checks v reg env (Unix t)); [|intros [_ <-]%pair_equal_spec; done..].
    destruct (_ !! ev_MessageID env); intros [<- <-]%pair_equal_spec; [done|]. exists (ev_Expiry env). cbn.
    rewrite (proj2 (Z.leb_gt _ _)) by lia. rewrite <- E. by rewrite lookup_insert_eq.
  - rewrite filter_cons_False by (cbn; by rewrite Ea). apply (IH v' t); [congruence|unfold window_seconds in *; congruence|done].
Qed.
End once.

(** C32: a signed message is accepted, and only once. Take an envelope that was
    signed with the verifier's key for its direction, to live at least as long as
    the verifier's window, and stamped with the name of an agent the registry
    authorizes (or checked without a registry). Presented in time to a verifier
    that has not seen it, it is accepted. In any sequence of calls on a verifier,
    by anyone and with any other envelopes, at times that do not go back, at most
    one envelope under its message identifier is accepted, provided those that
    are presented under it carry the issue time and at least the expiry they were
    signed with. *)
Theorem signed_message_once key direction op payload ttl now rnd env0 agentID v :
  let env := set_agent env0 agentID (ev_HMAC env0) in
  Sign key direction op payload ttl now rnd = Ok env0 -> second <= now ->
  vf_key v = key -> vf_direction v = direction -> 0 < vf_window v ->
  Unix now + window_seconds v <= Unix (now + ttl) ->
  (forall reg t, vf_seen v !! ev_MessageID env = None -> now <= t -> Unix t <= Unix now + window_seconds v ->
     (match reg with Some r => exists ag, AuthorizeStream r agentID = Ok ag | None => True end) ->
     (Verify v reg (Some env) t).2 = Ok tt) /\
  (forall calls t0, monotone t0 calls ->
     Forall (honest (ev_MessageID env) (Unix now) (window_seconds v)) calls ->
     (acceptances (ev_MessageID env) calls (vrun v calls) <= 1)%nat).
Proof.
  intros env Hs Hnow Hk Hd Hw Ht.
  assert (0 <= window_seconds v) as Hw0 by (unfold window_seconds, second; apply Z.quot_pos; lia).
  assert (0 < Unix now) as Hpos by (unfold Unix, second in *; apply Z.div_str_pos; lia).
  assert (vf_key v <> [] /\ ev_AgentID env0 = []) as [Hkn Ha0].
  { revert Hs. unfold Sign. case_bool_decide; [done|]. intros <-%(inj Ok). split; [congruence|done]. }
  split.
  - intros reg t Hseen Ht1 Ht2 Hr. unfold Verify.
    assert (Unix now <= Unix t) by (apply Z.div_le_mono; [done|lia]).
    assert (verify_checks v reg env (Unix t) = Ok tt) as ->.
    { apply verify_stamped; [done| |done]. eapply verify_signed; [exact Hs|done|by right|done|lia|lia|].
      destruct reg as [r|]; [|done]. destruct Hr as [ag _]. exists ag. by right. }
    assert (forget_expired (vf_seen v) (Unix t) !! ev_MessageID env = None) as ->; [|done].
    apply map_lookup_filter_None. by left.
  - intros calls t0 Hm Hh. by apply (vrun_once _ (Unix now) (window_seconds v) v calls t0).
Qed.

Definition demo_sign : Envelope :=
  match Sign (str "k") DirectionAgentToControl (str "heartbeat") [] (60 * second) (100 * second) (Some [x01]) with
  | Ok env => env
  | _ => mkEnvelope 0 [] [] [] 0 0 [] [] [] []
  end.

Definition demo_calls (env : Envelope) : list (option Registry * Envelope * Z) :=
  [(None, env, 101 * second); (None, env, 102 * second)].

Lemma signed_message_once_witness :
  let v := NewVerifier (str "k") (60 * second) DirectionAgentToControl in
  let env := set_agent demo_sign (str "a") (ev_HMAC demo_sign) in
  (Verify v None (Some env) (101 * second)).2 = Ok tt /\
  (acceptances (ev_MessageID env) (demo_calls env) (vrun v (demo_calls env)) <= 1)%nat.
Proof.
  cbn zeta.
  destruct (signed_message_once (str "k") DirectionAgentToControl (str "heartbeat") [] (60 * second) (100 * second) (Some [x01])
              demo_sign (str "a") (NewVerifier (str "k") (60 * second) DirectionAgentToControl)) as [H1 H2];
    [vm_compute; reflexivity|unfold second; lia|reflexivity|reflexivity|vm_compute; reflexivity|vm_compute; discriminate|].
  split.
  - apply H1; [reflexivity|unfold second; lia|vm_compute; discriminate|exact I].
  - apply (H2 _ 0); [repeat split; unfold second; lia|]. repeat constructor; vm_compute; discriminate.
Defined.

(** The expiry is not covered by the HMAC: who holds a signed envelope makes the
    verifier forget it by presenting it with an earlier expiry, and presents it
    again. *)
Lemma expiry_not_signed :
  let v := NewVerifier (str "k") (60 * second) DirectionAgentToControl in
  let short := mkEnvelope 1 (ev_MessageID demo_sign) [] (ev_Direction demo_sign) (ev_IssuedAt demo_sign) 101 (ev_Op demo_sign)
                 (ev_BodySHA256 demo_sign) (ev_HMAC demo_sign) (ev_Payload demo_sign) in
  vrun v [(None, short, 101 * second); (None, demo_sign, 102 * second)] = [Ok tt; Ok tt].
Proof. vm_compute. reflexivity. Qed.

(** An envelope without agent is checked with the empty key when the verifier has
    none of its own. *)
Lemma nameless_agent_verifies r :
  let env := mkEnvelope 1 (str "m") [] [] 0 0 (str "op") [] (ComputeHMAC [] [] (str "op") (PayloadSHA256 []) 0 (str "m")) [] in
  (Verify (NewVerifier [] (60 * second) DirectionAgentToControl) (Some r) (Some env) 0).2 = Ok tt.
Proof. vm_compute. reflexivity. Qed.
