(* ===== verification/FleetAgent.v ===== *)
(** * Agents and their sessions (internal/fleet/agent.go)

    Both ends of a session: the agent, which executes the jobs it is sent, and the
    manager at the server, which sends jobs and takes the agents' messages. The
    manager works on the registry and the job table, which are passed in and out.
    JSON is a class of what the code relies on; the Docker client is a record of
    functions. A transport is named by its agent; its queue is the server's
    (FleetServer.v). *)

From stdpp Require Import prelude countable strings gmap list.
From Stdlib Require Import ZArith Lia.
From S2P Require Import Prelude GoBinary Wire GoStrings GoCrypto GoJson FleetJobs FleetRegistry FleetAuth.

Definition OpHello : gostring := str "hello".
Definition OpHeartbeat : gostring := str "heartbeat".
Definition OpJobDispatch : gostring := str "job.dispatch".
Definition OpJobAccepted : gostring := str "job.accepted".
Definition OpJobRunning : gostring := str "job.running".
Definition OpJobResult : gostring := str "job.result".

(** ** Messages *)

Record ContainerSummary := mkContainer {
  ct_ID : gostring;
  ct_Names : list gostring;
  ct_Image : gostring;
  ct_Command : gostring;
  ct_Created : Z;
  ct_State : gostring;
  ct_Status : gostring;
  ct_Labels : list (gostring * gostring);
  ct_ServerID : gostring;
  ct_Ports : gostring }.

Record HelloMessage := mkHello {
  hl_AgentID : gostring;
  hl_ServerID : gostring;
  hl_Hostname : gostring;
  hl_OS : gostring;
  hl_Version : gostring }.

Record HeartbeatMessage := mkHeartbeat {
  hb_AgentID : gostring;
  hb_Timestamp : Z;
  hb_Containers : list ContainerSummary }.

Record JobDispatchMessage := mkDispatch {
  jd_JobID : gostring;
  jd_Action : gostring;
  jd_Target : gostring;
  jd_TimeoutSeconds : Z;
  jd_TailLines : Z;
  jd_Force : bool }.

Record JobResultMessage := mkResult {
  jr_JobID : gostring;
  jr_Status : JobStatus;
  jr_Result : gostring;
  jr_Error : gostring }.

(** ** Back-off *)

(** [ComputeBackoff] before the jitter; the jitter adds at most a fifth either
    way. [1 << attempt] is 0 from 64 on. *)
Definition backoff_base (attempt base maxBackoff : Z) : Z :=
  let base := if base <=? 0 then 500000000 else base in
  let maxBackoff := if maxBackoff <=? 0 then 30000000000 else maxBackoff in
  let attempt := if attempt <? 0 then 0 else attempt in
  let mult := if attempt <? 64 then i64 (Z.shiftl 1 attempt) else 0 in
  let mult := if (mult <=? 0) || (1024 <? mult) then 1024 else mult in
  let dur := i64 (base * mult) in
  if (maxBackoff <? dur) || (dur <=? 0) then maxBackoff else dur.

Section agent.
Context `{!JobJSON} `{!Json HelloMessage} `{!Json HeartbeatMessage} `{!Json JobDispatchMessage} `{!Json JobResultMessage}.

(** ** The agent *)

(** An error is its text. *)
Record DockerClient := mkDocker {
  dk_List : list ContainerSummary + gostring;
  dk_Inspect : gostring -> gostring + gostring;
  dk_Start : gostring -> unit + gostring;
  dk_Stop : gostring -> Z -> unit + gostring;
  dk_Restart : gostring -> Z -> unit + gostring;
  dk_Remove : gostring -> bool -> unit + gostring;
  dk_Logs : gostring -> Z -> gostring + gostring }.

Record AgentRunnerConfig := mkRunner {
  ar_AgentID : gostring;
  ar_ServerID : gostring;
  ar_Secret : gostring;
  ar_Docker : option DockerClient }.

Definition NewAgentRunner (cfg : AgentRunnerConfig) : Verifier :=
  NewVerifier (ar_Secret cfg) minute DirectionControlToAgent.

(** Signing and stamping, as every sender does. *)
Definition send (secret direction agentID op : gostring) (payload : list byte) (now : Z) (rnd : option (list byte)) : outcome Envelope :=
  let? env := Sign secret direction op payload minute now rnd in
  Ok (set_agent env agentID
        (ComputeHMAC secret (ev_Direction env) (ev_Op env) (ev_BodySHA256 env) (ev_IssuedAt env) (ev_MessageID env))).

Definition hello (cfg : AgentRunnerConfig) (hostname os : gostring) (now : Z) (rnd : option (list byte)) : outcome Envelope :=
  send (ar_Secret cfg) DirectionAgentToControl (ar_AgentID cfg) OpHello
    (to_json (mkHello (ar_AgentID cfg) (ar_ServerID cfg) hostname os (str "1.0.0"))) now rnd.

Definition sendHeartbeat (cfg : AgentRunnerConfig) (now : Z) (rnd : option (list byte)) : outcome Envelope :=
  let containers := match ar_Docker cfg with
                    | Some dk => match dk_List dk with inl l => l | inr _ => [] end
                    | None => []
                    end in
  send (ar_Secret cfg) DirectionAgentToControl (ar_AgentID cfg) OpHeartbeat
    (to_json (mkHeartbeat (ar_AgentID cfg) (Unix now) containers)) now rnd.

Definition sendJobResult (cfg : AgentRunnerConfig) (res : JobResultMessage) (op : gostring) (now : Z) (rnd : option (list byte))
  : outcome Envelope :=
  send (ar_Secret cfg) DirectionAgentToControl (ar_AgentID cfg) op (to_json res) now rnd.

(** The loop of [Run] for one message: the job to execute, if it is one. *)
Definition runner_receive (v : Verifier) (env : Envelope) (now : Z) : Verifier * option JobDispatchMessage :=
  let '(v, o) := Verify v None (Some env) now in
  match o with
  | Ok _ =>
      if bool_decide (ev_Op env = OpJobDispatch)
      then (v, match of_json (ev_Payload env) with Ok d => Some d | _ => None end) else (v, None)
  | _ => (v, None)
  end.

Definition run_action (dk : DockerClient) (job : JobDispatchMessage) : gostring + gostring :=
  let timeout := if jd_TimeoutSeconds job <=? 0 then 10 else jd_TimeoutSeconds job in
  let said := fun r (s : gostring) =>
    match r : unit + gostring with inl _ => inl (str "container " ++ jd_Target job ++ s) | inr e => inr e end in
  if bool_decide (jd_Action job = str "start") then said (dk_Start dk (jd_Target job)) (str " started") else
  if bool_decide (jd_Action job = str "stop") then said (dk_Stop dk (jd_Target job) timeout) (str " stopped") else
  if bool_decide (jd_Action job = str "restart") then said (dk_Restart dk (jd_Target job) timeout) (str " restarted") else
  if bool_decide (jd_Action job = str "remove") then said (dk_Remove dk (jd_Target job) (jd_Force job)) (str " removed") else
  if bool_decide (jd_Action job = str "inspect") then dk_Inspect dk (jd_Target job) else
  if bool_decide (jd_Action job = str "logs")
  then dk_Logs dk (jd_Target job) (if jd_TailLines job <=? 0 then 100 else jd_TailLines job)
  else inr (str "unknown action: " ++ jd_Action job).

(** What an agent says about a job, in order; [inl] is a heartbeat. *)
Definition executeJob (cfg : AgentRunnerConfig) (job : JobDispatchMessage) : list (unit + JobResultMessage * gostring) :=
  [inr (mkResult (jd_JobID job) JobStatusAccepted [] [], OpJobAccepted);
   inr (mkResult (jd_JobID job) JobStatusRunning [] [], OpJobRunning)] ++
  match ar_Docker cfg with
  | None => [inr (mkResult (jd_JobID job) JobStatusFailed [] (str "docker client not configured"), OpJobResult)]
  | Some dk =>
      [inl tt;
       inr (match run_action dk job with
            | inl result => mkResult (jd_JobID job) JobStatusSucceeded result []
            | inr e => mkResult (jd_JobID job) JobStatusFailed [] e
            end, OpJobResult)]
  end.

(** ** The manager *)

Record ControlSession := mkSession {
  cs_agentID : gostring;
  cs_serverID : gostring;
  cs_verifier : Verifier;
  cs_secret : gostring;
  cs_containers : list ContainerSummary;
  cs_lastHeartbeat : Z }.

Definition set_verifier (s : ControlSession) (v : Verifier) : ControlSession :=
  mkSession (cs_agentID s) (cs_serverID s) v (cs_secret s) (cs_containers s) (cs_lastHeartbeat s).
Definition set_containers (s : ControlSession) (l : list ContainerSummary) (now : Z) : ControlSession :=
  mkSession (cs_agentID s) (cs_serverID s) (cs_verifier s) (cs_secret s) l now.

(** The sessions of [AgentManager]. *)
Definition Sessions : Type := gmap gostring ControlSession.

Definition RegisterSession (m : Sessions) (reg : option Registry) (agentID secret : gostring) : Sessions * outcome ControlSession :=
  match (match reg with Some r => let? ag := AuthorizeStream r agentID in Ok (ag_ServerID ag) | None => Ok [] end) with
  | Ok serverID =>
      match (match reg with
             | Some r => if bool_decide (secret = []) then agentKey r agentID else Ok secret
             | None => Ok secret
             end) with
      | Ok secret =>
          let sess := mkSession agentID serverID (NewVerifier secret minute DirectionAgentToControl) secret [] zeroTime in
          (<[agentID := sess]> m, Ok sess)
      | Err e => (m, Err e)
      | Panic => (m, Panic)
      end
  | Err e => (m, Err e)
  | Panic => (m, Panic)
  end.

Definition UnregisterServerSessions (m : Sessions) (serverID : gostring) : Sessions :=
  filter (fun x => cs_serverID x.2 <> serverID) m.
Definition UnregisterSession (m : Sessions) (agentID : gostring) : Sessions := delete agentID m.

(** The containers of all sessions, in the order of the iteration. *)
Definition ListContainers (m : Sessions) (order : list gostring) : list ContainerSummary :=
  mjoin (map (fun s => map (fun c => mkContainer (ct_ID c) (ct_Names c) (ct_Image c) (ct_Command c) (ct_Created c) (ct_State c)
                                       (ct_Status c) (ct_Labels c) (cs_serverID s) (ct_Ports c)) (cs_containers s))
           (omap (fun id => m !! id) order)).

(** The envelope that goes to the agent's transport. *)
Definition DispatchJob (m : Sessions) (reg : option Registry) (agentID : gostring) (job : Job) (now : Z) (rnd : option (list byte))
  : outcome Envelope :=
  let? _ := (match reg with Some r => let? _ := AuthorizeStream r agentID in Ok tt | None => Ok tt end) in
  match m !! agentID with
  | None => Err "fleet: no active session for agent"
  | Some sess =>
      send (cs_secret sess) DirectionControlToAgent agentID OpJobDispatch
        (to_json (mkDispatch (jb_ID job) (jb_Action job) (jb_Target job) 0 (jb_TailLines job) (jb_Force job))) now rnd
  end.

(** The job a message is about, if it is one of the session's server. *)
Definition own_job (j : Jobs) (sess : ControlSession) (id : gostring) (now : Z) (w : option nat) : Jobs * bool :=
  match Get j id now w with
  | (j, Ok b) => (j, bool_decide (jb_ServerID b = cs_serverID sess))
  | (j, _) => (j, false)
  end.

(** The writes of the job table by one message, in order. *)
Record writes := mkWrites { wr_get : option nat; wr_first : option nat; wr_second : option nat }.

Definition take_running (j : Jobs) (sess : ControlSession) (res : JobResultMessage) (now : Z) (w : writes) : Jobs :=
  match own_job j sess (jr_JobID res) now (wr_get w) with
  | (j, true) => (Start j (jr_JobID res) now (wr_first w)).1
  | (j, false) => j
  end.

Definition take_result (j : Jobs) (sess : ControlSession) (res : JobResultMessage) (now : Z) (w : writes) : Jobs :=
  match own_job j sess (jr_JobID res) now (wr_get w) with
  | (j, true) =>
      if bool_decide (jr_Status res = JobStatusSucceeded) then
        (Complete (SetResult j (jr_JobID res) (jr_Result res) (wr_first w)).1 (jr_JobID res) JobStatusSucceeded None now (wr_second w)).1
      else if bool_decide (jr_Status res = JobStatusFailed) then
        (Complete j (jr_JobID res) JobStatusFailed (Some (jr_Error res)) now (wr_first w)).1
      else j
  | (j, false) => j
  end.

Record control := mkControl {
  cn_sessions : Sessions;
  cn_registry : option Registry;
  cn_jobs : option Jobs }.

Definition HandleInboundEnvelope (c : control) (env : Envelope) (now : Z) (w : writes) : control * outcome unit :=
  match cn_sessions c !! ev_AgentID env with
  | None => (c, Err "fleet: session not found for agent")
  | Some sess =>
      match Verify (cs_verifier sess) (cn_registry c) (Some env) now with
      | (v, Ok _) =>
          let sess := set_verifier sess v in
          let put := fun s => <[ev_AgentID env := s]> (cn_sessions c) in
          if bool_decide (ev_Op env = OpHeartbeat) then
            match of_json (ev_Payload env) with
            | Ok hb =>
                (mkControl (put (set_containers sess (hb_Containers hb) now))
                   (match cn_registry c with
                    | Some r => Some (if bool_decide (cs_serverID sess = []) then r else TouchServer r now (cs_serverID sess))
                    | None => None
                    end) (cn_jobs c), Ok tt)
            | _ => (mkControl (put sess) (cn_registry c) (cn_jobs c), Ok tt)
            end
          else if bool_decide (ev_Op env = OpJobRunning) then
            (mkControl (put sess) (cn_registry c)
               (match cn_jobs c, of_json (ev_Payload env) with
                | Some j, Ok res => Some (take_running j sess res now w)
                | j, _ => j
                end), Ok tt)
          else if bool_decide (ev_Op env = OpJobResult) then
            (mkControl (put sess) (cn_registry c)
               (match cn_jobs c, of_json (ev_Payload env) with
                | Some j, Ok res => Some (take_result j sess res now w)
                | j, _ => j
                end), Ok tt)
          else (mkControl (put sess) (cn_registry c) (cn_jobs c), Ok tt)
      | (v, Err e) => (mkControl (<[ev_AgentID env := set_verifier sess v]> (cn_sessions c)) (cn_registry c) (cn_jobs c), Err e)
      | (v, Panic) => (c, Panic)
      end
  end.
End agent.
