(* ===== verification/FleetAudit.v ===== *)
(** * The fleet's audit log (internal/fleet/audit.go)

    Events in memory and in a file of one JSON line each; what is logged is
    sanitized first: control characters become spaces, and values that look like
    secrets are blanked out by three regular expressions. The file is its bytes,
    a write may stop after some of them, as in FleetJobs.v. *)

From stdpp Require Import prelude countable strings gmap list.
From Stdlib Require Import ZArith Lia.
From S2P Require Import Prelude GoBinary Wire GoStrings GoRegexp FleetJobs.

(** ** Runes (unicode/utf8) *)

Definition RuneError : Z := 65533.

Definition cont_byte (lo hi : Z) (b : byte) : bool := (lo <=? b2z b) && (b2z b <=? hi).

(** [utf8.DecodeRune]: the rune and how many bytes it takes. *)
Definition DecodeRune (s : list byte) : Z * nat :=
  match s with
  | [] => (RuneError, 0%nat)
  | b0 :: r =>
      let c0 := b2z b0 in
      let low := fun b => Z.land (b2z b) 63 in
      if c0 <? 128 then (c0, 1%nat) else
      if (194 <=? c0) && (c0 <=? 223) then
        match r with
        | b1 :: _ => if cont_byte 128 191 b1 then (Z.land c0 31 * 64 + low b1, 2%nat) else (RuneError, 1%nat)
        | _ => (RuneError, 1%nat)
        end
      else if (224 <=? c0) && (c0 <=? 239) then
        match r with
        | b1 :: b2 :: _ =>
            if cont_byte (if c0 =? 224 then 160 else 128) (if c0 =? 237 then 159 else 191) b1 && cont_byte 128 191 b2
            then (Z.land c0 15 * 4096 + low b1 * 64 + low b2, 3%nat) else (RuneError, 1%nat)
        | _ => (RuneError, 1%nat)
        end
      else if (240 <=? c0) && (c0 <=? 244) then
        match r with
        | b1 :: b2 :: b3 :: _ =>
            if cont_byte (if c0 =? 240 then 144 else 128) (if c0 =? 244 then 143 else 191) b1 &&
               cont_byte 128 191 b2 && cont_byte 128 191 b3
            then (Z.land c0 7 * 262144 + low b1 * 4096 + low b2 * 64 + low b3, 4%nat) else (RuneError, 1%nat)
        | _ => (RuneError, 1%nat)
        end
      else (RuneError, 1%nat)
  end.

(** [WriteRune]. *)
Definition EncodeRune (r : Z) : list byte :=
  let r := if (r <? 0) || (1114111 <? r) || ((55296 <=? r) && (r <=? 57343)) then RuneError else r in
  if r <? 128 then [z2b r]
  else if r <? 2048 then [z2b (192 + r / 64); z2b (128 + r mod 64)]
  else if r <? 65536 then [z2b (224 + r / 4096); z2b (128 + r / 64 mod 64); z2b (128 + r mod 64)]
  else [z2b (240 + r / 262144); z2b (128 + r / 4096 mod 64); z2b (128 + r / 64 mod 64); z2b (128 + r mod 64)].

Definition IsControl (r : Z) : bool := ((0 <=? r) && (r <=? 31)) || ((127 <=? r) && (r <=? 159)).

(** ** Sanitizing *)

Fixpoint sanitize_loop (fuel : nat) (s : list byte) : gostring :=
  match fuel, s with
  | S fuel, _ :: _ =>
      let '(r, n) := DecodeRune s in
      (if (r =? 10) || (r =? 13) || IsControl r then [x20] else EncodeRune r) ++ sanitize_loop fuel (drop n s)
  | _, _ => []
  end.

Definition name_char : regex := Char (fold_set (fun b => in_range 97 122 b || in_range 48 57 b || one_of (str "_-") b)).
Definition joined (a b : gostring) : regex := seqs [word a; Opt (Char (ascii_set (one_of (str "-_")))); word b].

(** The names whose values are secrets, with a prefix and without. *)
Definition long_names : regex :=
  alts [joined (str "secret") (str "key"); joined (str "api") (str "key"); joined (str "private") (str "key");
        joined (str "access") (str "key"); joined (str "auth") (str "key"); joined (str "master") (str "key");
        joined (str "raw") (str "secret"); word (str "secret"); word (str "token"); word (str "password"); word (str "passwd")].
Definition short_names : list regex :=
  [word (str "pass"); word (str "pwd"); word (str "key"); word (str "auth"); word (str "authorization");
   word (str "credential"); word (str "credentials")].
Definition secret_name : regex := alts (Seq (Star name_char) long_names :: short_names).

Definition quote_char : regex := Char (ascii_set (one_of [x22; x27])).

Definition reKeyValSecret : regex :=
  seqs [Boundary; Group 1 secret_name; Boundary;
        Group 2 (seqs [Star (Char space_set); Char (ascii_set (one_of (str ":="))); Star (Char space_set)]);
        Group 3 (Opt quote_char);
        Group 4 (Plus (Char (ascii_set (fun b => negb (one_of [x22; x27; x09; x0a; x0c; x0d; x20; x2c; x3b] b)))));
        Group 5 (Opt quote_char)].

Definition token_char (b : byte) : bool :=
  in_range 65 90 b || in_range 97 122 b || in_range 48 57 b || one_of (str "._~+/-") b.

Definition reBearerSecret : regex :=
  seqs [Boundary; word (str "bearer"); Plus (Char space_set);
        Group 1 (Seq (Plus (Char (fold_set token_char))) (Star (Char (ascii_set (one_of (str "="))))))].

Definition reJSONSecret : regex :=
  seqs [Group 1 (seqs [Char (ascii_set (one_of [x22])); secret_name; Char (ascii_set (one_of [x22]))]);
        Star (Char space_set); Char (ascii_set (one_of (str ":"))); Star (Char space_set);
        Char (ascii_set (one_of [x22])); Group 2 (Plus (Char (ascii_set (fun b => negb (one_of [x22] b)))));
        Char (ascii_set (one_of [x22]))].

Definition REDACTED : gostring := str "[REDACTED]".

Definition sanitizeAuditString (s : gostring) : gostring :=
  if bool_decide (s = []) then [] else
  let out := TrimSpace (sanitize_loop (length s) s) in
  let out := ReplaceAllString reKeyValSecret (fun c => group c 1 ++ group c 2 ++ group c 3 ++ REDACTED ++ group c 5) out in
  let out := ReplaceAllString reBearerSecret (fun c => str "Bearer " ++ REDACTED) out in
  ReplaceAllString reJSONSecret (fun c => group c 1 ++ str ": " ++ [x22] ++ REDACTED ++ [x22]) out.

Lemma sanitize_examples :
  map sanitizeAuditString
    [str "user=bob password=hunter2, done"; str "Bearer abc.def"; str "DB_API-KEY: 'xyz'";
     [x22] ++ str "token" ++ [x22] ++ str ":" ++ [x22] ++ str "t" ++ [x22]; str "a" ++ [x0a] ++ str "b"; [xff]]
  = [str "user=bob password=[REDACTED], done"; str "Bearer [REDACTED]"; str "DB_API-KEY: '[REDACTED]'";
     [x22] ++ str "token" ++ [x22] ++ str ": " ++ [x22] ++ str "[REDACTED]" ++ [x22]; str "a b"; [xef; xbf; xbd]].
Proof. vm_compute. reflexivity. Qed.

(** The header every HTTP client sends is not blanked out: [authorization] takes
    the word Bearer for its value and leaves the token. Nor is a quoted value
    beyond its first space. *)
Lemma redaction_leaks :
  sanitizeAuditString (str "Authorization: Bearer s3cret") = str "Authorization: [REDACTED] s3cret" /\
  sanitizeAuditString (str "password='correct horse'") = str "password='[REDACTED] horse'".
Proof. vm_compute. split; reflexivity. Qed.

(** ** Events *)

Record AuditEvent := mkEvent {
  au_ID : gostring;
  au_Actor : gostring;
  au_Target : gostring;
  au_Action : gostring;
  au_Time : Z;
  au_Result : gostring;
  au_CorrelationID : gostring;
  au_Detail : gostring }.

(** encoding/json on events, as in FleetJobs.v on jobs. *)
Class AuditJSON := {
  audit_Marshal : AuditEvent -> list byte;
  audit_Unmarshal : list byte -> outcome AuditEvent;
  audit_encodable : AuditEvent -> Prop;
  audit_unmarshal_marshal e : audit_encodable e -> audit_Unmarshal (audit_Marshal e) = Ok e;
  audit_marshal_line e : exists mid, audit_Marshal e = x7b :: mid ++ [x7d] /\ Forall (fun c => c <> x0a) mid }.

Record Audit := mkAudit {
  ad_file : option (list byte);
  ad_events : list AuditEvent;
  ad_retentionDays : Z;
  ad_retentionEntries : Z }.

Definition set_events (a : Audit) (file : option (list byte)) (events : list AuditEvent) : Audit :=
  mkAudit file events (ad_retentionDays a) (ad_retentionEntries a).

Definition audit_SetRetention (a : Audit) (days entries : Z) : Audit :=
  mkAudit (ad_file a) (ad_events a) (if 0 <? days then days else ad_retentionDays a)
    (if 0 <? entries then entries else ad_retentionEntries a).

Definition generateAuditID (now : Z) (rnd : list byte) : gostring :=
  str "audit-" ++ itoa (now / 1000000) ++ str "-" ++ hex_encode rnd.

Definition sanitize_event (e : AuditEvent) (now : Z) (rnd : list byte) : AuditEvent :=
  mkEvent (if bool_decide (au_ID e = []) then generateAuditID now rnd else au_ID e)
    (sanitizeAuditString (au_Actor e)) (sanitizeAuditString (au_Target e)) (sanitizeAuditString (au_Action e))
    (if au_Time e =? zeroTime then now else au_Time e)
    (sanitizeAuditString (au_Result e)) (sanitizeAuditString (au_CorrelationID e)) (sanitizeAuditString (au_Detail e)).

Section audit.
Context `{!AuditJSON}.

(** [appendLocked]; a failure is only logged by the caller. *)
Definition audit_append (file : option (list byte)) (e : AuditEvent) (w : option nat) : option (list byte) :=
  match file with
  | None => None
  | Some f => Some (f ++ match w with None => audit_Marshal e ++ [x0a] | Some n => take n (audit_Marshal e ++ [x0a]) end)
  end.

Definition Log (a : Audit) (e : AuditEvent) (now : Z) (rnd : list byte) (w : option nat) : Audit :=
  let e := sanitize_event e now rnd in
  set_events a (audit_append (ad_file a) e w) (ad_events a ++ [e]).

Definition audit_List (a : Audit) : list AuditEvent := ad_events a.

(** The newest first. *)
Definition Query (a : Audit) (limit : Z) : list AuditEvent :=
  let total := zlen (ad_events a) in
  let limit := if (limit <=? 0) || (total <? limit) then total else limit in
  take (Z.to_nat limit) (rev (ad_events a)).

Definition audit_Prune (a : Audit) (now : Z) (ok : bool) : Audit * outcome Z :=
  let cutoff := if 0 <? ad_retentionDays a
                then Some (now + i64 (i64 (i64 (- ad_retentionDays a) * 24) * 3600000000000)) else None in
  let kept := match cutoff with
              | Some c => filter (fun e => (au_Time e <? c) = false) (ad_events a)
              | None => ad_events a
              end in
  let excess := if (0 <? ad_retentionEntries a) && (ad_retentionEntries a <? zlen kept)
                then zlen kept - ad_retentionEntries a else 0 in
  let pruned := zlen (ad_events a) - zlen kept + excess in
  let kept := drop (Z.to_nat excess) kept in
  match ad_file a with
  | None => (set_events a None kept, Ok pruned)
  | Some f =>
      if ok then (set_events a (Some (mjoin (map (fun e => audit_Marshal e ++ [x0a]) kept))) kept, Ok pruned)
      else (set_events a (Some f) kept, Err "fleet: rewrite audit")
  end.

Fixpoint audit_load (lines : list (list byte)) : list AuditEvent :=
  match lines with
  | [] => []
  | l :: r =>
      if maxLine <=? zlen l then [] else
      let l := TrimSpace l in
      if bool_decide (l = []) then audit_load r else
      match audit_Unmarshal l with
      | Ok e => e :: audit_load r
      | _ => audit_load r
      end
  end.

Definition NewAudit (file : option (list byte)) : Audit :=
  mkAudit file (match file with Some f => audit_load (scan_lines f) | None => [] end) 30 10000.
End audit.
