(* ===== verification/FleetServer.v ===== *)
(** * The fleet's HTTP server (internal/fleet/server.go, ratelimit.go)

    The server as a step function: a request, with what the HTTP layer makes of it
    (path values, query parameters, headers, a decoded body or none), changes the
    state and is answered. The state is what main.go configures: a registry, a job
    table and an audit log with their files, the sessions of the agents, the
    limiters, and a queue of envelopes per agent, which is the buffered channel of
    its transport (a sender that waits for room in it is the tail of the queue).
    Error answers are their status and code; the texts of errors that are stored
    with a job are the abbreviated ones of the model. *)

From stdpp Require Import prelude countable strings gmap list.
From Stdlib Require Import ZArith Lia.
From S2P Require Import Prelude GoBinary Wire GoStrings GoJson GoCrypto Authz FleetJobs FleetRegistry FleetAuth FleetAgent FleetAudit.

(** ** Rate limits (ratelimit.go) *)

Record RateLimiter := mkLimiter {
  rl_limit : Z;
  rl_window : Z;
  rl_clients : gmap gostring (list Z) }.

Definition NewRateLimiter (limit window : Z) : RateLimiter :=
  mkLimiter (if limit <=? 0 then 100 else limit) (if window <=? 0 then minute else window) ∅.

(** A client whose last request is not before the cutoff. *)
Definition recent (cutoff : Z) (ts : list Z) : bool :=
  match list.last ts with Some t => negb (t <? cutoff) | None => false end.

Definition Allow (rl : RateLimiter) (key : gostring) (now : Z) : RateLimiter * bool :=
  let cutoff := now - rl_window rl in
  let valid := filter (fun t => (cutoff <? t) = true) (default [] (rl_clients rl !! key)) in
  if rl_limit rl <=? zlen valid then (mkLimiter (rl_limit rl) (rl_window rl) (<[key := valid]> (rl_clients rl)), false) else
  let clients := <[key := valid ++ [now]]> (rl_clients rl) in
  let clients := if 1024 <? Z.of_nat (size clients)
                 then filter (fun x => recent cutoff x.2 = true) clients
                 else clients in
  (mkLimiter (rl_limit rl) (rl_window rl) clients, true).

Definition limiter_Reset (rl : RateLimiter) : RateLimiter := mkLimiter (rl_limit rl) (rl_window rl) ∅.

(** ** Small parts *)

Definition valid_id_byte (c : byte) : bool :=
  let z := b2z c in
  ((97 <=? z) && (z <=? 122)) || ((65 <=? z) && (z <=? 90)) || ((48 <=? z) && (z <=? 57)) ||
  bool_decide (c = x2d) || bool_decide (c = x5f) || bool_decide (c = x2e).

(** [for i := range id] visits the first byte of every rune: of an ASCII string,
    which is what is accepted, every byte. *)
Definition isValidServerID (id : gostring) : bool :=
  negb ((zlen id =? 0) || (64 <? zlen id)) && forallb valid_id_byte id.

(** [time.ParseDuration] of the library: numbers with units, a fraction of at most
    nine digits. *)
Definition duration_units : list (gostring * Z) :=
  [(str "ns", 1); (str "us", 1000); ([xc2; xb5] ++ str "s", 1000); ([xce; xbc] ++ str "s", 1000); (str "ms", 1000000);
   (str "s", 1000000000); (str "m", 60000000000); (str "h", 3600000000000)].

Fixpoint span (f : byte -> bool) (s : gostring) : gostring * gostring :=
  match s with
  | b :: r => if f b then let '(a, c) := span f r in (b :: a, c) else ([], s)
  | [] => ([], [])
  end.

Definition is_digit (b : byte) : bool := (48 <=? b2z b) && (b2z b <=? 57).

Fixpoint parse_duration_loop (fuel : nat) (s : gostring) (d : Z) : option Z :=
  match fuel, s with
  | _, [] => Some d
  | O, _ => None
  | S fuel, _ =>
      let '(ip, s1) := span is_digit s in
      let '(fp, s2) := match s1 with x2e :: r => let '(f, t) := span is_digit r in (Some f, t) | _ => (None, s1) end in
      if bool_decide (ip = []) && bool_decide (default [] fp = []) then None else
      let '(unit, s3) := span (fun b => negb (is_digit b || bool_decide (b = x2e))) s2 in
      match list_find (fun u => u.1 = unit) duration_units with
      | None => None
      | Some (_, (_, scale)) =>
          let v := default 0 (parse_digits 0 ip) * scale +
                   default 0 (parse_digits 0 (default [] fp)) * scale / 10 ^ zlen (default [] fp) in
          if 2 ^ 63 <? d + v then None else parse_duration_loop fuel s3 (d + v)
      end
  end.

Definition ParseDuration (s : gostring) : option Z :=
  let '(neg, s) := match s with x2d :: r => (true, r) | x2b :: r => (false, r) | _ => (false, s) end in
  if bool_decide (s = str "0") then Some 0 else
  if bool_decide (s = []) then None else
  match parse_duration_loop (length s) s 0 with
  | Some d => if neg then Some (- d) else if 2 ^ 63 - 1 <? d then None else Some d
  | None => None
  end.

Lemma ParseDuration_examples :
  map ParseDuration [str "15m"; str "1h30m"; str "1.5s"; str "-2h"; str "0"; str "5"; str ""; str "1d"]
  = [Some (15 * 60000000000); Some (90 * 60000000000); Some 1500000000; Some (-7200000000000); Some 0; None; None; None].
Proof. vm_compute. reflexivity. Qed.

(** ** State *)

Record Fleet := mkFleet {
  fl_registry : Registry;
  fl_jobs : Jobs;
  fl_sessions : Sessions;
  fl_audit : Audit;
  fl_enroll : RateLimiter;
  fl_ops : RateLimiter;
  fl_channels : gmap gostring (list Envelope);
  fl_proxyToken : gostring }.

Definition with_registry (f : Fleet) (r : Registry) : Fleet :=
  mkFleet r (fl_jobs f) (fl_sessions f) (fl_audit f) (fl_enroll f) (fl_ops f) (fl_channels f) (fl_proxyToken f).
Definition with_jobs (f : Fleet) (j : Jobs) : Fleet :=
  mkFleet (fl_registry f) j (fl_sessions f) (fl_audit f) (fl_enroll f) (fl_ops f) (fl_channels f) (fl_proxyToken f).
Definition with_sessions (f : Fleet) (m : Sessions) : Fleet :=
  mkFleet (fl_registry f) (fl_jobs f) m (fl_audit f) (fl_enroll f) (fl_ops f) (fl_channels f) (fl_proxyToken f).
Definition with_audit (f : Fleet) (a : Audit) : Fleet :=
  mkFleet (fl_registry f) (fl_jobs f) (fl_sessions f) a (fl_enroll f) (fl_ops f) (fl_channels f) (fl_proxyToken f).
Definition with_limits (f : Fleet) (e o : RateLimiter) : Fleet :=
  mkFleet (fl_registry f) (fl_jobs f) (fl_sessions f) (fl_audit f) e o (fl_channels f) (fl_proxyToken f).
Definition with_channels (f : Fleet) (c : gmap gostring (list Envelope)) : Fleet :=
  mkFleet (fl_registry f) (fl_jobs f) (fl_sessions f) (fl_audit f) (fl_enroll f) (fl_ops f) c (fl_proxyToken f).

Definition NewFleetServer (r : Registry) (j : Jobs) (a : Audit) (proxyToken : gostring)
    (maxActiveJobs maxAgents enrollRateLimit opRateLimit : Z) : Fleet :=
  mkFleet (SetMaxAgents r (if maxAgents <=? 0 then 500 else maxAgents))
    (SetMaxActiveJobs j (if maxActiveJobs <=? 0 then 1000 else maxActiveJobs)) ∅ a
    (NewRateLimiter (if enrollRateLimit <=? 0 then 30 else enrollRateLimit) minute)
    (NewRateLimiter (if opRateLimit <=? 0 then 120 else opRateLimit) minute) ∅ proxyToken.

(** ** Requests and answers *)

(** Headers and peer of a request. *)
Record caller := mkCaller {
  ca_proxyToken : gostring;
  ca_principal : gostring;
  ca_ip : gostring }.

(** A body is [None] when it cannot be decoded; where it may be absent, absent is
    the outer [None]. *)
Inductive request :=
  | QStatus
  | QListServers
  | QGetServer (id : gostring)
  | QRevokeServer (id : gostring)
  | QDeleteServer (id : gostring)
  | QListEnrollments
  | QCreateEnrollment (body : option (gostring * gostring))
  | QRevokeEnrollment (prefix : gostring)
  | QReissueEnrollment (prefix : gostring) (body : option (option gostring))
  | QAgentEnroll (body : option gostring)
  | QListContainers
  | QContainerAction (action id : gostring) (body : option (option (gostring * bool))) (server force : gostring)
  | QContainerLogs (id container tail server : gostring)
  | QListJobs (server : gostring)
  | QGetJob (id : gostring)
  | QListAudit
  | QAgentInbound (agentID timestamp mac : gostring)
  | QAgentEnvelope (body : option Envelope).

Inductive answer :=
  | AError (code : string)
  | AStatus (servers agents active : Z)
  | AServers (l : list Server)
  | AServer (s : Server)
  | ADone (id : gostring)
  | AToken (token serverID expires : gostring)
  | AEnrollments (l : list (gostring * gostring * Z * option Z * bool))
  | AAgent (id secret serverID : gostring)
  | AContainers (l : list ContainerSummary)
  | AJobID (id : gostring) (status : JobStatus)
  | AWaiting (jobID id : gostring) (tail : Z)
  | ALines (id : gostring) (tail : Z) (lines : list gostring)
  | AJobs (l : list Job)
  | AJob (b : Job)
  | AEvents (l : list AuditEvent)
  | AEnvelopes (l : list Envelope).

Definition response : Type := Z * answer.

Definition refused (code : Z) (what : string) : response := (code, AError what).

(** What a request draws from the world: the clock, random bytes, the fate of its
    writes, the order of map iterations. *)
Record world := mkWorld {
  wd_now : Z;
  wd_token : list byte;
  wd_draws : draws;
  wd_job : list byte;
  wd_message : option (list byte);
  wd_audit : list byte;
  wd_save : bool;
  wd_submit : option nat;
  wd_get : gostring -> option nat;
  wd_cancel : option nat;
  wd_inbound : writes;
  wd_log : option nat;
  wd_order : list gostring }.

Section server.
Context `{!JobJSON} `{!AuditJSON} `{!Json HeartbeatMessage} `{!Json JobDispatchMessage} `{!Json JobResultMessage}.
Context {A : Type} `{!Authorizer A} (authorizer : A).

(** [validProxyToken]; the comparison takes the same time for all tokens. *)
Definition validProxyToken (got want : gostring) : bool :=
  negb (bool_decide (got = [])) && negb (bool_decide (want = [])) && bool_decide (got = want).

Definition principalFromRequest (c : caller) : gostring :=
  if bool_decide (ca_principal c = []) then AnonymPrincipal else TrimSpace (ca_principal c).

(** The principal, if it may. *)
Definition checkAuthz (c : caller) (op resType resName : gostring) : option gostring :=
  let principal := principalFromRequest c in
  match Authorize authorizer principal op (mkResource resType resName) with
  | Ok _ => Some principal
  | _ => None
  end.

Definition forbidden : response := refused 403 "ERR_FORBIDDEN".

Definition log_event (f : Fleet) (w : world) (actor target action result detail : gostring) : Fleet :=
  with_audit f (Log (fl_audit f) (mkEvent [] actor target action (wd_now w) result [] detail) (wd_now w) (wd_audit w) (wd_log w)).

Definition handleStatus (f : Fleet) (c : caller) (w : world) : Fleet * response :=
  match checkAuthz c OpDescribe ResourceFleetServer wildcard with
  | None => (f, forbidden)
  | Some _ =>
      let '(j, bs) := List_ (fl_jobs f) (wd_now w) (wd_get w) in
      (with_jobs f j,
       (200, AStatus (zlen (ListServers (fl_registry f))) (zlen (ListAgents (fl_registry f)))
               (zlen (filter (fun b => isActive (jb_Status b) = true) bs))))
  end.

Definition handleListServers (f : Fleet) (c : caller) (w : world) : Fleet * response :=
  match checkAuthz c OpDescribe ResourceFleetServer wildcard with
  | None => (f, forbidden)
  | Some _ => (f, (200, AServers (ListServers (fl_registry f))))
  end.

Definition handleGetServer (f : Fleet) (c : caller) (w : world) (id : gostring) : Fleet * response :=
  match checkAuthz c OpDescribe ResourceFleetServer id with
  | None => (f, forbidden)
  | Some _ =>
      match GetServer (fl_registry f) id with
      | None => (f, refused 404 "ERR_NOT_FOUND")
      | Some s => (f, (200, AServer s))
      end
  end.

(** The status of an error of the registry. *)
Definition registry_refused (e : string) : response :=
  if bool_decide (e = ErrNotFound) then refused 404 "ERR_NOT_FOUND" else refused 500 "ERR_INTERNAL".

Definition handleRevokeServer (f : Fleet) (c : caller) (w : world) (id : gostring) : Fleet * response :=
  match checkAuthz c OpAdmin ResourceFleetServer id with
  | None => (f, forbidden)
  | Some principal =>
      match RevokeServer (fl_registry f) (wd_now w) id (wd_save w) with
      | (r, Ok _) =>
          let f := with_sessions (with_registry f r) (UnregisterServerSessions (fl_sessions f) id) in
          (log_event f w principal id (str "server.revoke") (str "success") (str "server revoked by admin"), (200, ADone id))
      | (r, Err e) => (with_registry f r, registry_refused e)
      | (r, Panic) => (with_registry f r, refused 500 "ERR_INTERNAL")
      end
  end.

Definition handleDeleteServer (f : Fleet) (c : caller) (w : world) (id : gostring) : Fleet * response :=
  match checkAuthz c OpAdmin ResourceFleetServer id with
  | None => (f, forbidden)
  | Some principal =>
      let f := with_sessions f (UnregisterServerSessions (fl_sessions f) id) in
      match DeleteServer (fl_registry f) id (wd_save w) with
      | (r, Ok _) =>
          (log_event (with_registry f r) w principal id (str "server.delete") (str "success") (str "server deleted by admin"),
           (200, ADone id))
      | (r, Err e) => (with_registry f r, registry_refused e)
      | (r, Panic) => (with_registry f r, refused 500 "ERR_INTERNAL")
      end
  end.

Definition handleRevokeEnrollment (f : Fleet) (c : caller) (w : world) (prefix : gostring) : Fleet * response :=
  match checkAuthz c OpAdmin ResourceFleetServer wildcard with
  | None => (f, forbidden)
  | Some principal =>
      match RevokeEnrollment (fl_registry f) (wd_order w) prefix (wd_save w) with
      | (r, Ok _) =>
          (log_event (with_registry f r) w principal prefix (str "enrollment.revoke") (str "success") (str "enrollment token revoked"),
           (200, ADone prefix))
      | (r, Err e) => (with_registry f r, registry_refused e)
      | (r, Panic) => (with_registry f r, refused 500 "ERR_INTERNAL")
      end
  end.

(** A body that cannot be decoded is answered with an error, and the token is
    issued all the same. *)
Definition handleReissueEnrollment (f : Fleet) (c : caller) (w : world) (prefix : gostring) (body : option (option gostring))
  : Fleet * response :=
  match checkAuthz c OpAdmin ResourceFleetServer wildcard with
  | None => (f, forbidden)
  | Some principal =>
      let given := match body with Some (Some d) => d | _ => [] end in
      let dur := match ParseDuration given with Some d => if 0 <? d then d else 15 * minute | None => 15 * minute end in
      let answered := fun r : response => match body with Some None => refused 400 "ERR_BAD_REQUEST" | _ => r end in
      match ReissueEnrollment (fl_registry f) (wd_now w) (wd_order w) (wd_token w) prefix dur (wd_save w) with
      | (r, Ok (token, serverID)) =>
          (log_event (with_registry f r) w principal serverID (str "enrollment.reissue") (str "success")
             (str "token reissued for server " ++ serverID),
           answered (200, AToken token serverID (Duration_String dur)))
      | (r, Err e) => (with_registry f r, answered (registry_refused e))
      | (r, Panic) => (with_registry f r, refused 500 "ERR_INTERNAL")
      end
  end.

Definition enrollment_view (e : Enrollment) : gostring * gostring * Z * option Z * bool :=
  (take 8 (en_Token e), en_ServerID e, en_CreatedAt e, en_ExpiresAt e, en_Used e).

Definition handleListEnrollments (f : Fleet) (c : caller) (w : world) : Fleet * response :=
  match checkAuthz c OpAdmin ResourceFleetServer wildcard with
  | None => (f, forbidden)
  | Some _ =>
      let '(r, l) := ListEnrollments (fl_registry f) (wd_now w) (wd_save w) in
      (with_registry f r, (200, AEnrollments (map enrollment_view l)))
  end.

(** How long a token is to live. *)
Definition enrollment_duration (given : gostring) : Z :=
  if bool_decide (given = str "never") || bool_decide (given = str "unlimited") || bool_decide (given = str "0") then 0
  else match ParseDuration given with Some d => if 0 <? d then d else 15 * minute | None => 15 * minute end.

Definition limit_refused (e : string) (other : response) : response :=
  if bool_decide (e = ErrLimitExceeded) then refused 429 "ERR_LIMIT_EXCEEDED" else other.

Definition handleCreateEnrollment (f : Fleet) (c : caller) (w : world) (body : option (gostring * gostring)) : Fleet * response :=
  match checkAuthz c OpAdmin ResourceFleetServer wildcard with
  | None => (f, forbidden)
  | Some principal =>
      let '(rl, ok) := Allow (fl_enroll f) (ca_ip c) (wd_now w) in
      let f := with_limits f rl (fl_ops f) in
      if negb ok then (f, refused 429 "ERR_RATE_LIMITED") else
      match body with
      | None => (f, refused 400 "ERR_BAD_REQUEST")
      | Some (server, duration) =>
          let serverID := TrimSpace server in
          if bool_decide (serverID = []) || negb (isValidServerID serverID) then (f, refused 400 "ERR_BAD_REQUEST") else
          let dur := enrollment_duration duration in
          match enrollWithExpiry (fl_registry f) (wd_now w) (wd_token w) serverID dur (wd_save w) with
          | (r, Ok tok) =>
              (log_event (with_registry f r) w principal serverID (str "enrollment.create") (str "success") (str "token issued"),
               (200, AToken tok serverID (Duration_String dur)))
          | (r, Err e) => (with_registry f r, limit_refused e (refused 500 "ERR_INTERNAL"))
          | (r, Panic) => (with_registry f r, refused 500 "ERR_INTERNAL")
          end
      end
  end.

Definition handleAgentEnroll (f : Fleet) (c : caller) (w : world) (body : option gostring) : Fleet * response :=
  let '(rl, ok) := Allow (fl_enroll f) (ca_ip c) (wd_now w) in
  let f := with_limits f rl (fl_ops f) in
  if negb ok then (f, refused 429 "ERR_RATE_LIMITED") else
  match body with
  | None => (f, refused 400 "ERR_BAD_REQUEST")
  | Some token =>
      match ConsumeToken (fl_registry f) (wd_now w) (wd_draws w) (TrimSpace token) (wd_save w) with
      | (r, Ok (ag, secret)) =>
          (log_event (with_registry f r) w (str "agent") (ag_ServerID ag) (str "agent.enroll") (str "success")
             (str "agent_id=" ++ ag_ID ag),
           (200, AAgent (ag_ID ag) secret (ag_ServerID ag)))
      | (r, Err e) => (with_registry f r, limit_refused e (refused 401 "ERR_UNAUTHORIZED"))
      | (r, Panic) => (with_registry f r, refused 500 "ERR_INTERNAL")
      end
  end.

Definition handleListContainers (f : Fleet) (c : caller) (w : world) : Fleet * response :=
  match checkAuthz c OpDescribe ResourceFleetContainer wildcard with
  | None => (f, forbidden)
  | Some _ => (f, (200, AContainers (ListContainers (fl_sessions f) (wd_order w))))
  end.

(** The first active agent of the server in the order of their names. *)
Definition agent_of (r : Registry) (serverID : gostring) : option Agent :=
  match list_find (fun a => of_server serverID a = true /\ ag_Revoked a = false) (ListAgents r) with
  | Some (_, a) => if bool_decide (ag_ID a = []) then None else Some a
  | None => None
  end.

Definition dispatchJobToAgent (f : Fleet) (w : world) (serverID : gostring) (job : Job) : Fleet :=
  match agent_of (fl_registry f) serverID with
  | None => with_jobs f (Cancel (fl_jobs f) (jb_ID job) (str "no active agent for server " ++ serverID) (wd_now w) (wd_cancel w)).1
  | Some a =>
      match DispatchJob (fl_sessions f) (Some (fl_registry f)) (ag_ID a) job (wd_now w) (wd_message w) with
      | Ok env => with_channels f (<[ag_ID a := default [] (fl_channels f !! ag_ID a) ++ [env]]> (fl_channels f))
      | Err e => with_jobs f (Cancel (fl_jobs f) (jb_ID job) (str e) (wd_now w) (wd_cancel w)).1
      | Panic => f
      end
  end.

(** Whom a limit is counted for. *)
Definition limiter_key (principal : gostring) (c : caller) : gostring :=
  if bool_decide (principal = []) || bool_decide (principal = AnonymPrincipal) then ca_ip c else principal.

(** The only server, when none is named. *)
Definition sole_server (r : Registry) (serverID : gostring) : gostring :=
  if bool_decide (serverID = []) then match ListServers r with [s] => sr_ID s | _ => [] end else serverID.

Definition handleContainerAction (f : Fleet) (c : caller) (w : world) (action id : gostring)
    (body : option (option (gostring * bool))) (server force : gostring) : Fleet * response :=
  let op := if bool_decide (action = str "remove") then OpAdmin else OpControl in
  match checkAuthz c op ResourceFleetContainer id with
  | None => (f, forbidden)
  | Some principal =>
      let '(rl, ok) := Allow (fl_ops f) (str "action:" ++ limiter_key principal c) (wd_now w) in
      let f := with_limits f (fl_enroll f) rl in
      if negb ok then (f, refused 429 "ERR_RATE_LIMITED") else
      match body with
      | Some None => (f, refused 400 "ERR_BAD_REQUEST")
      | _ =>
          let '(named, forced) := match body with Some (Some b) => b | _ => ([], false) end in
          let serverID := sole_server (fl_registry f) (if bool_decide (named = []) then server else named) in
          if bool_decide (serverID = []) then (f, refused 400 "ERR_BAD_REQUEST") else
          match GetServer (fl_registry f) serverID with
          | None => (f, refused 404 "ERR_NOT_FOUND")
          | Some _ =>
              match SubmitForce (fl_jobs f) (wd_now w) (wd_job w) serverID action id principal []
                      (forced || bool_decide (force = str "true")) (wd_submit w) with
              | (j, Ok jobID) =>
                  match Get j jobID (wd_now w) (wd_get w jobID) with
                  | (j, Ok job) =>
                      let f := log_event (with_jobs f j) w principal id (str "container." ++ action) (str "accepted")
                                 (str "server_id=" ++ serverID ++ str " job_id=" ++ jb_ID job) in
                      (dispatchJobToAgent f w serverID job, (202, AJobID (jb_ID job) (jb_Status job)))
                  | (j, _) => (with_jobs f j, refused 500 "ERR_INTERNAL")
                  end
              | (j, Err e) =>
                  (with_jobs f j,
                   if bool_decide (e = "fleet: active job limit reached"%string) then refused 429 "ERR_LIMIT_EXCEEDED"
                   else refused 500 "ERR_INTERNAL")
              | (j, Panic) => (with_jobs f j, refused 500 "ERR_INTERNAL")
              end
          end
      end
  end.

(** [handleContainerLogs] until it waits for the job's lines. *)
Definition handleContainerLogs (f : Fleet) (c : caller) (w : world) (id container tail server : gostring) : Fleet * response :=
  let id := if bool_decide (id = []) then container else id in
  let id := if bool_decide (id = []) then wildcard else id in
  match checkAuthz c OpDescribe ResourceFleetContainer id with
  | None => (f, forbidden)
  | Some principal =>
      let '(rl, ok) := Allow (fl_ops f) (str "logs:" ++ limiter_key principal c) (wd_now w) in
      let f := with_limits f (fl_enroll f) rl in
      if negb ok then (f, refused 429 "ERR_RATE_LIMITED") else
      let tail := match Atoi tail with Ok n => if 0 <? n then n else 100 | _ => 100 end in
      let tail := if 1000 <? tail then 1000 else tail in
      let serverID := sole_server (fl_registry f) server in
      if bool_decide (serverID = []) then (f, (200, ALines id tail [])) else
      match SubmitWithTail (fl_jobs f) (wd_now w) (wd_job w) serverID (str "logs") id principal [] tail (wd_submit w) with
      | (j, Ok jobID) =>
          match Get j jobID (wd_now w) (wd_get w jobID) with
          | (j, Ok job) => (dispatchJobToAgent (with_jobs f j) w serverID job, (200, AWaiting jobID id tail))
          | (j, _) => (with_jobs f j, (200, AWaiting jobID id tail))
          end
      | (j, _) => (with_jobs f j, (200, ALines id tail []))
      end
  end.

(** One round of [waitJobLines]: the lines, or nothing for ever, or ask again. *)
Fixpoint trim_newlines (s : gostring) : gostring :=
  match s with
  | x0a :: r => trim_newlines r
  | _ => s
  end.

Definition poll_lines (f : Fleet) (w : world) (jobID : gostring) : Fleet * option (option (list gostring)) :=
  match Get (fl_jobs f) jobID (wd_now w) (wd_get w jobID) with
  | (j, Ok b) =>
      (with_jobs f j,
       if bool_decide (jb_Status b = JobStatusSucceeded) then
         Some (Some (if bool_decide (jb_Result b = []) then [] else Split (rev (trim_newlines (rev (jb_Result b)))) x0a))
       else if bool_decide (jb_Status b = JobStatusFailed) then Some None else None)
  | (j, _) => (with_jobs f j, Some None)
  end.

Definition handleListJobs (f : Fleet) (c : caller) (w : world) (server : gostring) : Fleet * response :=
  match checkAuthz c OpDescribe ResourceFleetJob wildcard with
  | None => (f, forbidden)
  | Some _ =>
      let '(j, bs) := if bool_decide (server = []) then List_ (fl_jobs f) (wd_now w) (wd_get w)
                      else ListByServer (fl_jobs f) server (wd_now w) (wd_get w) in
      (with_jobs f j, (200, AJobs bs))
  end.

Definition handleGetJob (f : Fleet) (c : caller) (w : world) (id : gostring) : Fleet * response :=
  match checkAuthz c OpDescribe ResourceFleetJob id with
  | None => (f, forbidden)
  | Some _ =>
      match Get (fl_jobs f) id (wd_now w) (wd_get w id) with
      | (j, Ok b) => (with_jobs f j, (200, AJob b))
      | (j, _) => (with_jobs f j, refused 404 "ERR_NOT_FOUND")
      end
  end.

Definition handleListAudit (f : Fleet) (c : caller) (w : world) : Fleet * response :=
  match checkAuthz c OpDescribe ResourceFleetAudit wildcard with
  | None => (f, forbidden)
  | Some _ => (f, (200, AEvents (audit_List (fl_audit f))))
  end.

(** An agent's queue is made with its session, once; a session that is refused
    leaves the queue without one. *)
Definition getOrCreateAgentChannel (f : Fleet) (agentID : gostring) : Fleet :=
  match fl_channels f !! agentID with
  | Some _ => f
  | None =>
      with_sessions (with_channels f (<[agentID := []]> (fl_channels f)))
        (RegisterSession (fl_sessions f) (Some (fl_registry f)) agentID []).1
  end.

Definition poll_mac (secret agentID : gostring) (ts : Z) : gostring :=
  ComputeHMAC secret DirectionAgentToControl (str "poll") [] ts agentID.

(** [handleAgentInbound]: an agent asks for its envelopes. *)
Definition handleAgentInbound (f : Fleet) (c : caller) (w : world) (agentID timestamp mac : gostring) : Fleet * response :=
  if bool_decide (agentID = []) then (f, refused 400 "ERR_BAD_REQUEST") else
  if bool_decide (timestamp = []) || bool_decide (mac = []) then (f, refused 401 "ERR_UNAUTHORIZED") else
  match Atoi timestamp with
  | Ok ts =>
      if 5 * minute <? Z.abs (wd_now w - ts * second) then (f, refused 401 "ERR_UNAUTHORIZED") else
      match AuthorizeStream (fl_registry f) agentID with
      | Ok _ =>
          match agentKey (fl_registry f) agentID with
          | Ok secret =>
              if negb (bool_decide (mac = poll_mac secret agentID ts)) then (f, refused 401 "ERR_UNAUTHORIZED") else
              let f := getOrCreateAgentChannel f agentID in
              (with_channels f (<[agentID := []]> (fl_channels f)), (200, AEnvelopes (default [] (fl_channels f !! agentID))))
          | _ => (f, refused 401 "ERR_UNAUTHORIZED")
          end
      | _ => (f, refused 403 "ERR_FORBIDDEN")
      end
  | _ => (f, refused 401 "ERR_UNAUTHORIZED")
  end.

Definition handleAgentEnvelope (f : Fleet) (c : caller) (w : world) (body : option Envelope) : Fleet * response :=
  match body with
  | None => (f, refused 400 "ERR_BAD_REQUEST")
  | Some env =>
      match (Verify (NewVerifier [] minute DirectionAgentToControl) (Some (fl_registry f)) (Some env) (wd_now w)).2 with
      | Ok _ =>
          let f := getOrCreateAgentChannel f (ev_AgentID env) in
          match HandleInboundEnvelope (mkControl (fl_sessions f) (Some (fl_registry f)) (Some (fl_jobs f))) env (wd_now w) (wd_inbound w) with
          | (c, o) =>
              (with_jobs (with_registry (with_sessions f (cn_sessions c)) (default (fl_registry f) (cn_registry c)))
                 (default (fl_jobs f) (cn_jobs c)),
               match o with Ok _ => (200, ADone (ev_AgentID env)) | _ => refused 400 "ERR_BAD_REQUEST" end)
          end
      | _ => (f, refused 401 "ERR_UNAUTHORIZED")
      end
  end.

(** [routes]. *)
Definition route (f : Fleet) (c : caller) (w : world) (q : request) : Fleet * response :=
  match q with
  | QStatus => handleStatus f c w
  | QListServers => handleListServers f c w
  | QGetServer id => handleGetServer f c w id
  | QRevokeServer id => handleRevokeServer f c w id
  | QDeleteServer id => handleDeleteServer f c w id
  | QListEnrollments => handleListEnrollments f c w
  | QCreateEnrollment body => handleCreateEnrollment f c w body
  | QRevokeEnrollment prefix => handleRevokeEnrollment f c w prefix
  | QReissueEnrollment prefix body => handleReissueEnrollment f c w prefix body
  | QAgentEnroll body => handleAgentEnroll f c w body
  | QListContainers => handleListContainers f c w
  | QContainerAction action id body server force => handleContainerAction f c w action id body server force
  | QContainerLogs id container tail server => handleContainerLogs f c w id container tail server
  | QListJobs server => handleListJobs f c w server
  | QGetJob id => handleGetJob f c w id
  | QListAudit => handleListAudit f c w
  | QAgentInbound agentID timestamp mac => handleAgentInbound f c w agentID timestamp mac
  | QAgentEnvelope body => handleAgentEnvelope f c w body
  end.

(** The endpoints of agents are open to the outside. *)
Definition from_agent (q : request) : bool :=
  match q with
  | QAgentEnroll _ | QAgentInbound _ _ _ | QAgentEnvelope _ => true
  | _ => false
  end.

(** [wrap]: everything else comes through the console's proxy. *)
Definition serve (f : Fleet) (c : caller) (w : world) (q : request) : Fleet * response :=
  if negb (from_agent q) && negb (validProxyToken (ca_proxyToken c) (fl_proxyToken f)) then (f, forbidden)
  else route f c w q.
End server.
