(* ===== verification/FleetServerProps.v ===== *)
(** * What the fleet's server guarantees (internal/fleet/server.go, agent.go)

    Who may change what: requests of the console need the proxy's token and the
    principal's rights, agents reach only the jobs of their own server. And that a
    job makes its way to the agent and back. *)

From stdpp Require Import prelude countable strings gmap list sorting.
From Stdlib Require Import ZArith Lia.
From S2P Require Import Prelude GoBinary Wire GoStrings GoJson GoCrypto Credential Authz GoAes.
From S2P Require Import FleetJobs FleetJobsProps FleetRegistry FleetRegistryProps FleetAuth FleetAgent FleetAudit FleetServer.

(** ** Rate limits *)

Definition lstep (rl : RateLimiter) (call : gostring * Z) : RateLimiter := (Allow rl call.1 call.2).1.

(** The times at which calls under a key were allowed. *)
Fixpoint allowed (rl : RateLimiter) (key : gostring) (calls : list (gostring * Z)) : list Z :=
  match calls with
  | [] => []
  | (k, t) :: r =>
      let '(rl, ok) := Allow rl k t in
      (if bool_decide (k = key) && ok then [t] else []) ++ allowed rl key r
  end.

Fixpoint in_order (t0 : Z) (calls : list (gostring * Z)) : Prop :=
  match calls with
  | [] => True
  | (_, t) :: r => t0 <= t /\ in_order t r
  end.

Definition after (cut : Z) (ts : list Z) : list Z := filter (fun t => (cut <? t) = true) ts.

Lemma after_app cut a b : after cut (a ++ b) = after cut a ++ after cut b.
Proof. apply filter_app. Qed.

Lemma after_after cut cut' ts : cut <= cut' -> after cut' (after cut ts) = after cut' ts.
Proof.
  intros Hc. unfold after. rewrite list_filter_filter. apply list_filter_iff. intros t. rewrite !Z.ltb_lt. lia.
Qed.

(** What a limiter knows of a key: every allowed time that still counts; times are
    in order and not after [now]. *)
Record limiter_ok (key : gostring) (now : Z) (rl : RateLimiter) (hist : list Z) : Prop := {
  lo_known cut : now - rl_window rl <= cut -> after cut (default [] (rl_clients rl !! key)) = after cut hist;
  lo_sorted : Sorted Z.le (default [] (rl_clients rl !! key));
  lo_past : Forall (fun t => t <= now) hist;
  lo_few : zlen (after (now - rl_window rl) hist) <= rl_limit rl }.

Lemma sorted_after cut ts : Sorted Z.le ts -> Sorted Z.le (after cut ts).
Proof.
  intros Hs%Sorted_StronglySorted; [|intros a b c; lia]. apply StronglySorted_Sorted.
  induction Hs as [|t ts Hs IH Hf]; [constructor|]. unfold after in *. rewrite filter_cons. destruct (decide _); [|done].
  constructor; [done|]. rewrite Forall_forall in Hf |- *. intros x [_ Hx]%list_elem_of_filter. by apply Hf.
Qed.

Lemma sorted_snoc ts now : Sorted Z.le ts -> Forall (fun t => t <= now) ts -> Sorted Z.le (ts ++ [now]).
Proof.
  intros Hs. induction Hs as [|t ts Hs IH Hd]; intros Hf; [repeat constructor|]. apply Forall_cons in Hf as [Ht Hf].
  cbn. constructor; [by apply IH|]. destruct ts as [|x ts]; [by constructor|]. inversion Hd. by constructor.
Qed.

Lemma recent_false cutoff ts cut :
  Sorted Z.le ts -> recent cutoff ts = false -> cutoff <= cut -> after cut ts = [].
Proof.
  intros Hs Hr Hc. assert (Forall (fun t => t < cutoff) ts) as Hf.
  { destruct ts as [|t0 ts0 _] using rev_ind; [done|]. unfold recent in Hr. rewrite last_snoc in Hr. apply negb_false_iff, Z.ltb_lt in Hr.
    apply Forall_app. split; [|by apply Forall_singleton].
    apply Sorted_StronglySorted in Hs; [|intros a b c; lia]. clear Hc. induction ts0 as [|a ts0 IH]; [constructor|].
    cbn in Hs. inversion Hs as [|? ? Hs' Hfa]; subst. constructor; [|by apply IH].
    apply Forall_app in Hfa as [_ Hfa]. apply Forall_cons in Hfa as [Hfa _]. lia. }
  clear Hs Hr. induction Hf as [|t ts Ht Hf IH]; [done|]. unfold after in *. rewrite filter_cons_False; [apply IH|].
  rewrite Z.ltb_lt. lia.
Qed.

Lemma after_mono now t w hist : now <= t -> zlen (after (t - w) hist) <= zlen (after (now - w) hist).
Proof.
  intros Ht. rewrite <- (after_after (now - w) (t - w)) by lia. unfold zlen, after.
  match goal with |- context [filter ?P (filter ?Q hist)] => pose proof (length_filter P (filter Q hist)) end. lia.
Qed.

Lemma Allow_settings rl k t : rl_window (Allow rl k t).1 = rl_window rl /\ rl_limit (Allow rl k t).1 = rl_limit rl.
Proof. unfold Allow. by destruct (_ <=? _). Qed.

(** What a call does to the entry of a key: nothing, or it drops what no longer
    counts (and adds the call), or it forgets an entry with nothing that counts. *)
Lemma Allow_entry rl k t key :
  let ts := default [] (rl_clients rl !! key) in
  let ts' := default [] (rl_clients (Allow rl k t).1 !! key) in
  let added := if bool_decide (k = key) && (Allow rl k t).2 then [t] else [] in
  let kept := (if bool_decide (k = key) then after (t - rl_window rl) ts else ts) ++ added in
  ts' = kept \/ ts' = [] /\ recent (t - rl_window rl) kept = false.
Proof.
  cbn zeta. unfold Allow. set (valid := filter _ _). destruct (rl_limit rl <=? zlen valid) eqn:El; cbn [fst snd rl_clients].
  - left. case_bool_decide as Ek; [subst k; rewrite lookup_insert_eq|rewrite lookup_insert_ne by done]; cbn; by rewrite app_nil_r.
  - set (cl := <[k := valid ++ [t]]> (rl_clients rl)).
    assert (default [] (cl !! key) = (if bool_decide (k = key) then after (t - rl_window rl) (default [] (rl_clients rl !! key))
      else default [] (rl_clients rl !! key)) ++ (if bool_decide (k = key) && true then [t] else [])) as <-.
    { unfold cl. case_bool_decide as Ek; [subst k; by rewrite lookup_insert_eq|rewrite lookup_insert_ne by done]. cbn. by rewrite app_nil_r. }
    destruct (1024 <? _); [|by left]. rewrite map_lookup_filter. destruct (cl !! key) as [l|]; cbn; [|by left].
    destruct (recent (t - rl_window rl) l) eqn:Er.
    + left. rewrite option_guard_True by done. done.
    + right. rewrite option_guard_False by congruence. done.
Qed.

Lemma Allow_true rl k t :
  (Allow rl k t).2 = true -> zlen (after (t - rl_window rl) (default [] (rl_clients rl !! k))) < rl_limit rl.
Proof. unfold Allow, after. destruct (rl_limit rl <=? _) eqn:E; [done|]. intros _. lia. Qed.

Lemma zlen_after_snoc cut ts t : zlen (after cut (ts ++ [t])) <= zlen (after cut ts) + 1.
Proof.
  rewrite after_app, zlen_app. unfold after. rewrite filter_cons, filter_nil. destruct (decide _); unfold zlen; cbn [length]; lia.
Qed.

Lemma limiter_step key now rl hist k t :
  0 < rl_window rl -> limiter_ok key now rl hist -> now <= t ->
  limiter_ok key t (Allow rl k t).1 (hist ++ if bool_decide (k = key) && (Allow rl k t).2 then [t] else []).
Proof.
  intros Hw [H1 H2 H3 H4] Ht. destruct (Allow_settings rl k t) as [Ew El].
  pose proof (Allow_entry rl k t key) as He. cbn zeta in He. set (ts := default [] (rl_clients rl !! key)) in *.
  set (added := if bool_decide (k = key) && (Allow rl k t).2 then [t] else []) in *.
  set (kept := (if bool_decide (k = key) then after (t - rl_window rl) ts else ts) ++ added) in *.
  assert (forall cut, t - rl_window rl <= cut -> after cut kept = after cut (hist ++ added)) as Hkept.
  { intros cut Hc. unfold kept. rewrite !after_app. f_equal. case_bool_decide; [rewrite after_after by done|]; apply H1; lia. }
  assert (Forall (fun x => x <= t) (hist ++ added)) as Hpast.
  { apply Forall_app. split; [eapply Forall_impl; [exact H3|]; cbn; lia|]. unfold added. destruct (_ && _); by repeat constructor. }
  assert (Sorted Z.le kept) as Hs.
  { unfold kept, added. case_bool_decide as Ek; cbn [andb]; [|by rewrite app_nil_r]. destruct (Allow rl k t).2; [|rewrite app_nil_r; by apply sorted_after].
    apply sorted_snoc; [by apply sorted_after|]. assert (after (t - rl_window rl) ts = after (t - rl_window rl) hist) as -> by (apply H1; lia).
    apply Forall_forall. intros x [_ Hx]%list_elem_of_filter. rewrite Forall_forall in H3. specialize (H3 x Hx). cbn in H3. lia. }
  constructor; rewrite ?Ew, ?El.
  - intros cut Hc. destruct He as [->|[-> Hr]]; [by apply Hkept|]. rewrite <- Hkept by done. by rewrite (recent_false _ _ cut Hs Hr).
  - destruct He as [->|[-> _]]; [done|constructor].
  - done.
  - unfold added. destruct (bool_decide (k = key) && (Allow rl k t).2) eqn:Ea.
    + apply andb_prop in Ea as [Ek%bool_decide_eq_true_1 Ea]. subst k. pose proof (Allow_true rl key t Ea) as Hlt. fold ts in Hlt.
      rewrite H1 in Hlt by lia. pose proof (zlen_after_snoc (t - rl_window rl) hist t). lia.
    + rewrite app_nil_r. pose proof (after_mono now t (rl_window rl) hist Ht). lia.
Qed.

Lemma limiter_run key now rl hist calls :
  0 < rl_window rl -> limiter_ok key now rl hist -> in_order now calls ->
  exists now', limiter_ok key now' (fold_left lstep calls rl) (hist ++ allowed rl key calls) /\
    now' = default now (snd <$> list.last calls).
Proof.
  revert now rl hist. induction calls as [|[k t] calls IH]; intros now rl hist Hw Hl Ho.
  { exists now. rewrite app_nil_r. done. }
  destruct Ho as [Ht Ho]. pose proof (limiter_step key now rl hist k t Hw Hl Ht) as Hs. destruct (Allow_settings rl k t) as [Ew _].
  destruct (IH t (Allow rl k t).1 _ ltac:(congruence) Hs Ho) as (now' & H1 & E). exists now'.
  cbn [allowed fold_left lstep fst snd]. unfold lstep at 2. cbn [fst snd]. destruct (Allow rl k t) as [rl' ok]. cbn [fst snd] in *. rewrite <- app_assoc in H1. split; [done|].
  rewrite E. destruct calls as [|y l]; [done|]. rewrite last_cons_cons. destruct (list.last (y :: l)) eqn:El; [done|].
  by apply last_None in El.
Qed.

(** A limiter admits at most its limit of requests under one key in any window:
    after any calls, at times that do not go back, the admitted ones of the last
    window are no more than the limit. *)
Theorem limiter_bounded limit window key calls t0 :
  0 < limit -> 0 < window -> in_order t0 calls ->
  let now := default t0 (snd <$> list.last calls) in
  zlen (after (now - window) (allowed (NewRateLimiter limit window) key calls)) <= limit.
Proof.
  intros Hl Hw Ho now. unfold now. clear now. set (rl := NewRateLimiter limit window).
  assert (rl_window rl = window /\ rl_limit rl = limit) as [Ew El].
  { unfold rl, NewRateLimiter. cbn. by rewrite !(proj2 (Z.leb_gt _ _)). }
  destruct (limiter_run key t0 rl [] calls) as (now' & [_ _ _ H] & E); [lia| |done|].
  { constructor; [done|constructor|done|]. change (zlen (after (t0 - rl_window rl) [])) with 0. lia. }
  assert (forall cs r, rl_window (fold_left lstep cs r) = rl_window r /\ rl_limit (fold_left lstep cs r) = rl_limit r) as Hset.
  { induction cs as [|[k t] cs IH]; intros r; [done|]. cbn. destruct (IH (lstep r (k, t))) as [-> ->]. apply Allow_settings. }
  destruct (Hset calls rl) as [E1 E2]. rewrite E1, E2, Ew, El in H. rewrite <- E. exact H.
Qed.

(** ** Agents stay with their server *)

Section confine.
Context {JJ : JobJSON} {AJ : AuditJSON} {HJ : Json HeartbeatMessage} {DJ : Json JobDispatchMessage} {RJ : Json JobResultMessage}.

(** A change of the job [id] only. *)
Definition only (id : gostring) (j j' : Jobs) : Prop := forall i, i <> id -> js_jobs j' !! i = js_jobs j !! i.

Lemma only_refl id j : only id j j.
Proof. done. Qed.

Lemma only_trans id a b c : only id a b -> only id b c -> only id a c.
Proof. intros H1 H2 i Hi. rewrite (H2 i Hi). by apply H1. Qed.

Lemma only_append id j b b' w :
  only id j (appendLocked (set_table j (<[id := b']> (js_jobs j)) (js_order j) (js_index j)) b w).1.
Proof. intros i Hi. rewrite (proj1 (append_table _ _ _)). cbn. by rewrite lookup_insert_ne. Qed.

Lemma only_change id j b b' w : only id j (change_job j id b b' w).1.
Proof.
  unfold change_job. set (j1 := set_table _ _ _ _). pose proof (only_append id j b' b' w) as H. fold j1 in H.
  destruct (appendLocked j1 b' w) as [j2 []]; cbn [fst] in *; [done| |done].
  intros i Hi. cbn. rewrite lookup_insert_ne by done. by apply H.
Qed.

Lemma only_Start id j now w : only id j (Start j id now w).1.
Proof. unfold Start. destruct (js_jobs j !! id); [|done]. case_bool_decide; cbn [negb]; [apply only_change|done]. Qed.

Lemma only_Complete id j st e now w : only id j (Complete j id st e now w).1.
Proof.
  unfold Complete. destruct (js_jobs j !! id); [|done]. destruct (isTerminal st); cbn [negb]; [|done].
  case_bool_decide; [done|]. destruct (isTerminal _); [done|]. apply only_change.
Qed.

Lemma only_SetResult id j r w : only id j (SetResult j id r w).1.
Proof. unfold SetResult. destruct (js_jobs j !! id); [|done]. apply only_append. Qed.

(** A running job that has run longer than the table allows. *)
Definition timed_out (j : Jobs) (b : Job) (now : Z) : Prop :=
  jb_Status b = JobStatusRunning /\ 0 < js_timeout j /\ js_timeout j < now - jb_StartedAt b.

Lemma Get_found j id now w j' b' :
  Get j id now w = (j', Ok b') ->
  exists b, js_jobs j !! id = Some b /\ jb_ServerID b' = jb_ServerID b /\ only id j j' /\ (timed_out j b now \/ j' = j /\ b' = b).
Proof.
  unfold Get. destruct (js_jobs j !! id) as [b|]; [|done]. unfold checkTimeoutLocked.
  destruct (bool_decide (jb_Status b = JobStatusRunning) && (0 <? js_timeout j) && (js_timeout j <? now - jb_StartedAt b)) eqn:E.
  - intros [<- <-%(inj Ok)]%pair_equal_spec. exists b. split_and!; [done|done|apply only_append|]. left.
    apply andb_prop in E as [[E1%bool_decide_eq_true_1 E2%Z.ltb_lt]%andb_prop E3%Z.ltb_lt]. by split_and!.
  - intros [<- <-%(inj Ok)]%pair_equal_spec. exists b. split_and!; [done|done|done|by right].
Qed.

(** What a message about a job may change: the job, if it is of the session's
    server, or if its time was up. *)
Lemma own_job_spec j sess id now w j' ok :
  own_job j sess id now w = (j', ok) ->
  only id j j' /\ (js_jobs j' !! id <> js_jobs j !! id -> exists b, js_jobs j !! id = Some b /\ timed_out j b now) /\
  (ok = true -> exists b, js_jobs j !! id = Some b /\ jb_ServerID b = cs_serverID sess).
Proof.
  unfold own_job. destruct (Get j id now w) as [j1 [b'|e|]] eqn:Eg.
  - destruct (Get_found _ _ _ _ _ _ Eg) as (b & Hb & Es & Ho & Ht). intros [<- <-]%pair_equal_spec. split_and!; [done| |].
    + intros Hd. exists b. destruct Ht as [?|[-> _]]; done.
    + intros E%bool_decide_eq_true_1. exists b. split; [done|]. congruence.
  - intros [<- <-]%pair_equal_spec. assert (j1 = j) as ->; [|by split_and!].
    unfold Get in Eg. destruct (js_jobs j !! id); [by destruct (checkTimeoutLocked _ _ _ _ _)|]. by apply pair_equal_spec in Eg as [<- _].
  - intros [<- <-]%pair_equal_spec. unfold Get in Eg. destruct (js_jobs j !! id); [by destruct (checkTimeoutLocked _ _ _ _ _)|done].
Qed.

Definition concerns (j j' : Jobs) (serverID : gostring) (now : Z) : Prop :=
  forall id, js_jobs j' !! id <> js_jobs j !! id ->
    exists b, js_jobs j !! id = Some b /\ (jb_ServerID b = serverID \/ timed_out j b now).

Lemma concerns_refl j serverID now : concerns j j serverID now.
Proof. by intros id Hd. Qed.

(** After [own_job], further changes of the same job. *)
Lemma own_job_concerns j sess id now w j1 ok j2 :
  own_job j sess id now w = (j1, ok) -> only id j1 j2 -> (ok = false -> j2 = j1) -> concerns j j2 (cs_serverID sess) now.
Proof.
  intros E Ho Hf. destruct (own_job_spec _ _ _ _ _ _ _ E) as (H1 & H2 & H3). intros i Hd.
  destruct (decide (i = id)) as [->|Hne]; [|destruct Hd; rewrite (Ho i Hne); by apply H1].
  destruct ok.
  - destruct (H3 eq_refl) as (b & Hb & Hs). exists b. split; [done|by left].
  - rewrite (Hf eq_refl) in Hd. destruct (H2 Hd) as (b & Hb & Ht). exists b. split; [done|by right].
Qed.

Lemma take_running_concerns j sess res now w : concerns j (take_running j sess res now w) (cs_serverID sess) now.
Proof.
  unfold take_running. destruct (own_job j sess (jr_JobID res) now (wr_get w)) as [j1 ok] eqn:E.
  eapply own_job_concerns; [exact E| |]; destruct ok; try done. apply only_Start.
Qed.

Lemma take_result_concerns j sess res now w : concerns j (take_result j sess res now w) (cs_serverID sess) now.
Proof.
  unfold take_result. destruct (own_job j sess (jr_JobID res) now (wr_get w)) as [j1 ok] eqn:E.
  eapply own_job_concerns; [exact E| |]; destruct ok; try done.
  case_bool_decide; [eapply only_trans; [apply only_SetResult|apply only_Complete]|].
  case_bool_decide; [apply only_Complete|done].
Qed.

(** A message of an agent reaches the jobs of its session's server and nothing of
    the registry but the server it reports for. *)
Lemma inbound_spec c env now w :
  let r := HandleInboundEnvelope c env now w in
  (r.1 = c \/ exists sess, cn_sessions c !! ev_AgentID env = Some sess /\
     (exists s', cn_sessions r.1 = <[ev_AgentID env := s']> (cn_sessions c) /\ cs_agentID s' = cs_agentID sess /\ cs_serverID s' = cs_serverID sess) /\
     (forall rg, cn_registry c = Some rg -> cn_registry r.1 = Some rg \/ cn_registry r.1 = Some (TouchServer rg now (cs_serverID sess))) /\
     (forall j, cn_jobs c = Some j -> exists j', cn_jobs r.1 = Some j' /\ concerns j j' (cs_serverID sess) now /\
        (js_jobs j' <> js_jobs j -> (Verify (cs_verifier sess) (cn_registry c) (Some env) now).2 = Ok tt))).
Proof.
  cbn zeta. unfold HandleInboundEnvelope. destruct (cn_sessions c !! ev_AgentID env) as [sess|] eqn:Es; [|by left].
  destruct (Verify (cs_verifier sess) (cn_registry c) (Some env) now) as [v [[]|e|]] eqn:Ev; [| |by left].
  - right. exists sess. split; [done|].
    assert (forall P : Jobs -> Prop, forall j, P j -> exists j', Some j = Some j' /\ P j') as Hsome by (intros P j HP; by exists j).
    case_bool_decide as E1; [|case_bool_decide as E2; [|case_bool_decide as E3]].
    + destruct (of_json (A := HeartbeatMessage) (ev_Payload env)) as [hb|e|]; cbn [fst cn_sessions cn_registry cn_jobs].
      * split_and!; [by eexists| |].
        -- intros rg ->. case_bool_decide; [by left|by right].
        -- intros j ->. exists j. split_and!; [done|apply concerns_refl|done].
      * split_and!; [by eexists|by left|]. intros j ->. exists j. split_and!; [done|apply concerns_refl|done].
      * split_and!; [by eexists|by left|]. intros j ->. exists j. split_and!; [done|apply concerns_refl|done].
    + cbn [fst cn_sessions cn_registry cn_jobs]. split_and!; [by eexists|by left|]. intros j ->.
      destruct (of_json (A := JobResultMessage) (ev_Payload env)); (eexists; split; [reflexivity|]; split; [|by rewrite Ev]); try apply concerns_refl.
      apply (take_running_concerns j (set_verifier sess v)).
    + cbn [fst cn_sessions cn_registry cn_jobs]. split_and!; [by eexists|by left|]. intros j ->.
      destruct (of_json (A := JobResultMessage) (ev_Payload env)); (eexists; split; [reflexivity|]; split; [|by rewrite Ev]); try apply concerns_refl.
      apply (take_result_concerns j (set_verifier sess v)).
    + cbn [fst cn_sessions cn_registry cn_jobs]. split_and!; [by eexists|by left|]. intros j ->. exists j. split_and!; [done|apply concerns_refl|done].
  - right. exists sess. split; [done|]. cbn [fst cn_sessions cn_registry cn_jobs]. split_and!; [by eexists|by left|].
    intros j ->. exists j. split_and!; [done|apply concerns_refl|done].
Qed.
End confine.

(** ** Who may do what *)

(** The right a request of the console needs. *)
Definition needs (q : request) : option (gostring * gostring * gostring) :=
  match q with
  | QStatus | QListServers => Some (OpDescribe, ResourceFleetServer, wildcard)
  | QGetServer id => Some (OpDescribe, ResourceFleetServer, id)
  | QRevokeServer id | QDeleteServer id => Some (OpAdmin, ResourceFleetServer, id)
  | QListEnrollments | QCreateEnrollment _ | QRevokeEnrollment _ | QReissueEnrollment _ _ => Some (OpAdmin, ResourceFleetServer, wildcard)
  | QListContainers => Some (OpDescribe, ResourceFleetContainer, wildcard)
  | QContainerAction action id _ _ _ =>
      Some (if bool_decide (action = str "remove") then OpAdmin else OpControl, ResourceFleetContainer, id)
  | QContainerLogs id container _ _ =>
      let id := if bool_decide (id = []) then container else id in
      Some (OpDescribe, ResourceFleetContainer, if bool_decide (id = []) then wildcard else id)
  | QListJobs _ => Some (OpDescribe, ResourceFleetJob, wildcard)
  | QGetJob id => Some (OpDescribe, ResourceFleetJob, id)
  | QListAudit => Some (OpDescribe, ResourceFleetAudit, wildcard)
  | QAgentEnroll _ | QAgentInbound _ _ _ | QAgentEnvelope _ => None
  end.

(** The console's state: a good registry, and sessions that belong to the server
    their agent is enrolled for. *)
Record fleet_ok (f : Fleet) : Prop := {
  fo_registry : reg_ok (fl_registry f);
  fo_named : rg_agents (fl_registry f) !! [] = None;
  fo_sessions id s ag : fl_sessions f !! id = Some s -> rg_agents (fl_registry f) !! id = Some ag -> ag_ServerID ag = cs_serverID s;
  fo_unnamed : fl_sessions f !! [] = None }.

Lemma verify_gate v r env t :
  vf_key v = [] -> ev_AgentID env <> [] -> (Verify v (Some r) (Some env) t).2 = Ok tt ->
  exists key ag, agentKey r (ev_AgentID env) = Ok key /\ AuthorizeStream r (ev_AgentID env) = Ok ag /\
    ev_HMAC env = ComputeHMAC key (ev_Direction env) (ev_Op env) (PayloadSHA256 (ev_Payload env)) (ev_IssuedAt env) (ev_MessageID env).
Proof.
  intros Hk Ha. unfold Verify. destruct (verify_checks v (Some r) env (Unix t)) as [[]|e|] eqn:E; [|done..]. intros _. revert E.
  unfold verify_checks. do 6 (match goal with |- (if ?b then _ else _) = _ -> _ => destruct b; [done|] end).
  unfold verification_key. rewrite (bool_decide_eq_true_2 (vf_key v = [])), (bool_decide_eq_false_2 (ev_AgentID env = [])) by done. cbn [negb andb].
  destruct (agentKey r (ev_AgentID env)) as [key|e|]; cbn [obind]; [|done..]. case_bool_decide as Eh; cbn [negb]; [|done].
  destruct (AuthorizeStream r (ev_AgentID env)) as [ag|e|]; cbn [obind]; [|done..]. intros _. by exists key, ag.
Qed.

Lemma Authorize_agent r id ag : AuthorizeStream r id = Ok ag -> rg_agents r !! id = Some ag /\ ag_Revoked ag = false.
Proof. unfold AuthorizeStream. destruct (rg_agents r !! id) as [a|]; [|done]. destruct (ag_Revoked a) eqn:E; [done|]. by intros <-%(inj Ok). Qed.

(** A new registry whose agents are those there were, or new ones under names that
    no session has. *)
Lemma fleet_ok_registry f r (born : gostring -> Prop) tokens max :
  fleet_ok f -> reg_ok r -> evolves tokens born max (memory (fl_registry f)) (memory r) ->
  (forall id, born id -> id <> [] /\ fl_sessions f !! id = None) -> fleet_ok (with_registry f r).
Proof.
  intros [H1 H2 H3 H4] Hr [He _ _] Hb. constructor; cbn; [done| | |done].
  - destruct (rg_agents r !! []) as [a|] eqn:E; [|done]. destruct (He [] a E) as [Hx|(x & Hx & _)]; [by destruct (Hb _ Hx)|]. cbn in Hx. congruence.
  - intros id s ag Hs Ha. destruct (He id ag Ha) as [Hx|(x & Hx & Es & _)]; [destruct (Hb _ Hx); congruence|].
    rewrite Es. by apply (H3 id).
Qed.

Lemma fleet_ok_sub f m : fleet_ok f -> m ⊆ fl_sessions f -> fleet_ok (with_sessions f m).
Proof.
  intros [H1 H2 H3 H4] Hm. constructor; cbn; [done|done| |].
  - intros id s ag Hs. apply H3. by eapply lookup_weaken.
  - by eapply lookup_weaken_None.
Qed.

(** Changes beside registry and sessions. *)
Lemma fleet_ok_same f f' : fl_registry f' = fl_registry f -> fl_sessions f' = fl_sessions f -> fleet_ok f -> fleet_ok f'.
Proof. intros E1 E2 [H1 H2 H3 H4]. constructor; rewrite ?E1, ?E2; done. Qed.

Lemma channel_ok f agentID : fleet_ok f -> fleet_ok (getOrCreateAgentChannel f agentID).
Proof.
  intros Hf. unfold getOrCreateAgentChannel. destruct (fl_channels f !! agentID); [done|].
  unfold RegisterSession. destruct (AuthorizeStream (fl_registry f) agentID) as [ag|e|] eqn:E; cbn [obind];
    [|by apply (fleet_ok_same f)..].
  rewrite bool_decide_eq_true_2 by done. destruct (agentKey (fl_registry f) agentID); [|by apply (fleet_ok_same f)..].
  apply Authorize_agent in E as [Ea _]. destruct Hf as [H1 H2 H3 H4]. constructor; cbn [fl_registry fl_sessions with_sessions with_channels fst]; [done|done| |].
  - intros id s x [[<- <-]|[Hne Hs]]%lookup_insert_Some Hx; [cbn; congruence|by apply (H3 id)].
  - apply lookup_insert_None. split; [done|]. congruence.
Qed.

Lemma channel_same f agentID :
  fl_registry (getOrCreateAgentChannel f agentID) = fl_registry f /\ fl_jobs (getOrCreateAgentChannel f agentID) = fl_jobs f.
Proof. unfold getOrCreateAgentChannel. by destruct (fl_channels f !! agentID). Qed.

Section serve.
Context {JJ : JobJSON} {AJ : AuditJSON} {HJ : Json HeartbeatMessage} {DJ : Json JobDispatchMessage} {RJ : Json JobResultMessage}.
Context {A : Type} {AZ : Authorizer A} (authorizer : A).

Definition permitted (c : caller) (q : request) : Prop :=
  match needs q with
  | Some (op, resType, resName) => is_Some (checkAuthz authorizer c op resType resName)
  | None => True
  end.

(** The identifier drawn for a new agent is not one that has a session. *)
Definition fresh_agent (f : Fleet) (w : world) (q : request) : Prop :=
  match q with
  | QAgentEnroll _ => forall id s, fl_sessions f !! id = Some s -> ~ hex_encode (dr_agent (wd_draws w)) `suffix_of` id
  | _ => True
  end.

Lemma refused_unless_permitted f c w q :
  from_agent q = false -> ~ (validProxyToken (ca_proxyToken c) (fl_proxyToken f) = true /\ permitted c q) ->
  serve authorizer f c w q = (f, forbidden).
Proof.
  intros Ha Hn. unfold serve. rewrite Ha. cbn [negb andb].
  destruct (validProxyToken (ca_proxyToken c) (fl_proxyToken f)); cbn [negb]; [|done].
  assert (~ permitted c q) as Hp by naive_solver. clear Hn. unfold permitted in Hp.
  destruct q; try done; cbn [needs route] in *;
    unfold handleStatus, handleListServers, handleGetServer, handleRevokeServer, handleDeleteServer, handleListEnrollments,
      handleCreateEnrollment, handleRevokeEnrollment, handleReissueEnrollment, handleListContainers, handleContainerAction,
      handleContainerLogs, handleListJobs, handleGetJob, handleListAudit;
    match goal with |- context [checkAuthz ?a ?b ?c ?d ?e] => destruct (checkAuthz a b c d e); [|done] end; destruct Hp; by eexists.
Qed.

(** A step of the registry under the server. *)
Lemma registry_step f o r :
  fleet_ok f -> stepped o (fl_registry f) r -> o <> RRestart ->
  (forall id, op_born o id -> fl_sessions f !! id = None) -> fleet_ok (with_registry f r).
Proof.
  intros Hf [S1 _ [S3|[? _]] _] Ho Hb; [|done]. eapply fleet_ok_registry; [done|done|exact S3|]. intros id Hx. split; [|by apply Hb].
  destruct o; try done. by destruct Hx.
Qed.

Lemma dispatch_same f w serverID job :
  fl_registry (dispatchJobToAgent f w serverID job) = fl_registry f /\ fl_sessions (dispatchJobToAgent f w serverID job) = fl_sessions f.
Proof. unfold dispatchJobToAgent. destruct (agent_of _ _); [|done]. by destruct (DispatchJob _ _ _ _ _ _). Qed.

Ltac same := first [done | by eapply fleet_ok_same; [..|done]].

Lemma serve_ok f c w q : fleet_ok f -> fresh_agent f w q -> fleet_ok (serve authorizer f c w q).1.
Proof.
  intros Hf Hfr. pose proof (fo_registry _ Hf) as Hr. unfold serve. destruct (_ && _); [done|]. destruct q; cbn [route fresh_agent] in *.
  - unfold handleStatus. destruct (checkAuthz _ _ _ _ _); [|done]. destruct (List_ _ _ _). same.
  - unfold handleListServers. by destruct (checkAuthz _ _ _ _ _).
  - unfold handleGetServer. destruct (checkAuthz _ _ _ _ _); [|done]. by destruct (GetServer _ _).
  - unfold handleRevokeServer. destruct (checkAuthz _ _ _ _ _); [|done].
    pose proof (RevokeServer_stepped (fl_registry f) (wd_now w) id (wd_save w) Hr) as Hs.
    destruct (RevokeServer _ _ _ _) as [r [|e|]]; cbn [fst] in *; pose proof (registry_step f _ r Hf Hs) as Hk;
      (assert (fleet_ok (with_registry f r)) as Hf1 by (by apply Hk)); [|done|done].
    eapply fleet_ok_same; [..|eapply (fleet_ok_sub (with_registry f r) (UnregisterServerSessions (fl_sessions f) id) Hf1)]; [done|done|].
    apply map_filter_subseteq.
  - unfold handleDeleteServer. destruct (checkAuthz _ _ _ _ _); [|done].
    assert (fleet_ok (with_sessions f (UnregisterServerSessions (fl_sessions f) id))) as Hf1
      by (apply fleet_ok_sub; [done|apply map_filter_subseteq]).
    pose proof (DeleteServer_stepped (fl_registry f) id (wd_save w) Hr) as Hs. cbn [fl_registry with_sessions].
    destruct (DeleteServer _ _ _) as [r [|e|]]; cbn [fst] in *; pose proof (registry_step _ _ r Hf1 Hs) as Hk;
      (assert (fleet_ok (with_registry (with_sessions f (UnregisterServerSessions (fl_sessions f) id)) r)) as Hf2 by (by apply Hk)); same.
  - unfold handleListEnrollments. destruct (checkAuthz _ _ _ _ _); [|done].
    pose proof (ListEnrollments_stepped (fl_registry f) (wd_now w) (wd_save w) Hr) as Hs.
    destruct (ListEnrollments _ _ _) as [r ens]. cbn [fst] in *. by apply (registry_step f _ r Hf Hs).
  - unfold handleCreateEnrollment. destruct (checkAuthz _ _ _ _ _); [|done]. destruct (Allow _ _ _) as [rl ok].
    set (f1 := with_limits f rl (fl_ops f)). assert (fleet_ok f1) as Hf1 by same. destruct (negb ok); [done|].
    destruct body as [[server duration]|]; [|done]. destruct (_ || _); [done|].
    pose proof (Enroll_stepped (fl_registry f1) (wd_now w) (wd_token w) (TrimSpace server) (enrollment_duration duration) (wd_save w) Hr) as Hs.
    destruct (enrollWithExpiry _ _ _ _ _ _) as [r [|e|]]; cbn [fst] in *; pose proof (registry_step f1 _ r Hf1 Hs) as Hk;
      (assert (fleet_ok (with_registry f1 r)) as Hf2 by (by apply Hk)); same.
  - unfold handleRevokeEnrollment. destruct (checkAuthz _ _ _ _ _); [|done].
    match goal with |- context [RevokeEnrollment ?r ?o ?p ?s] => pose proof (RevokeEnrollment_stepped r o p s Hr) as Hs;
      destruct (RevokeEnrollment r o p s) as [r1 [|e|]] end; cbn [fst] in *; pose proof (registry_step f _ r1 Hf Hs) as Hk;
      (assert (fleet_ok (with_registry f r1)) as Hf1 by (by apply Hk)); same.
  - unfold handleReissueEnrollment. destruct (checkAuthz _ _ _ _ _); [|done].
    match goal with |- context [ReissueEnrollment ?r ?n ?o ?t ?p ?d ?s] => pose proof (Reissue_stepped r n o t p d s Hr) as Hs;
      destruct (ReissueEnrollment r n o t p d s) as [r1 [[tok srv]|e|]] end;
      cbn [fst] in *; pose proof (registry_step f _ r1 Hf Hs) as Hk; (assert (fleet_ok (with_registry f r1)) as Hf1 by (by apply Hk)); same.
  - unfold handleAgentEnroll. destruct (Allow _ _ _) as [rl ok].
    set (f1 := with_limits f rl (fl_ops f)). assert (fleet_ok f1) as Hf1 by same. destruct (negb ok); [done|].
    destruct body as [token|]; [|done].
    pose proof (Consume_stepped (fl_registry f1) (wd_now w) (wd_draws w) (TrimSpace token) (wd_save w) Hr) as Hs.
    destruct (ConsumeToken _ _ _ _ _) as [r [[ag sec]|e|]]; cbn [fst] in *; pose proof (registry_step f1 _ r Hf1 Hs) as Hk;
      (assert (fleet_ok (with_registry f1 r)) as Hf2 by
         (apply Hk; [done|]; intros i [Hi _]; destruct (fl_sessions f1 !! i) eqn:Ei; [by destruct (Hfr _ _ Ei)|done])); same.
  - unfold handleListContainers. by destruct (checkAuthz _ _ _ _ _).
  - unfold handleContainerAction. destruct (checkAuthz _ _ _ _ _); [|done]. destruct (Allow _ _ _) as [rl ok].
    set (f1 := with_limits f (fl_enroll f) rl). assert (fleet_ok f1) as Hf1 by same. destruct (negb ok); [done|].
    destruct body as [[b|]|]; [|done|].
    + destruct b as [named forced]. case_bool_decide; [done|]. destruct (GetServer _ _); [|done].
      destruct (SubmitForce _ _ _ _ _ _ _ _ _ _) as [j [id1|e|]]; [|same|same]. destruct (Get _ _ _ _) as [j1 [b1|e|]]; [|same|same].
      cbn [fst]. eapply fleet_ok_same; [apply dispatch_same|apply dispatch_same|]. same.
    + case_bool_decide; [done|]. destruct (GetServer _ _); [|done].
      destruct (SubmitForce _ _ _ _ _ _ _ _ _ _) as [j [id1|e|]]; [|same|same]. destruct (Get _ _ _ _) as [j1 [b1|e|]]; [|same|same].
      cbn [fst]. eapply fleet_ok_same; [apply dispatch_same|apply dispatch_same|]. same.
  - unfold handleContainerLogs. destruct (checkAuthz _ _ _ _ _); [|done]. destruct (Allow _ _ _) as [rl ok].
    set (f1 := with_limits f (fl_enroll f) rl). assert (fleet_ok f1) as Hf1 by same. destruct (negb ok); [done|].
    case_bool_decide; [done|]. destruct (SubmitWithTail _ _ _ _ _ _ _ _ _ _) as [j [id1|e|]]; [|same|same].
    destruct (Get _ _ _ _) as [j1 [b1|e|]]; [|same|same].
    cbn [fst]. eapply fleet_ok_same; [apply dispatch_same|apply dispatch_same|]. same.
  - unfold handleListJobs. destruct (checkAuthz _ _ _ _ _); [|done]. destruct (if bool_decide _ then _ else _) as [j bs]. same.
  - unfold handleGetJob. destruct (checkAuthz _ _ _ _ _); [|done]. destruct (Get _ _ _ _) as [j1 [b1|e|]]; same.
  - unfold handleListAudit. by destruct (checkAuthz _ _ _ _ _).
  - unfold handleAgentInbound. case_bool_decide; [done|]. destruct (_ || _); [done|]. destruct (Atoi timestamp) as [ts|e|]; [|done..].
    destruct (_ <? _); [done|]. destruct (AuthorizeStream _ _); [|done..]. destruct (agentKey _ _); [|done..]. destruct (negb _); [done|].
    cbn [fst]. eapply fleet_ok_same; [..|by apply (channel_ok f agentID)]; done.
  - unfold handleAgentEnvelope. destruct body as [env|]; [|done]. destruct (Verify _ _ _ _) as [v [|e|]]; cbn [snd]; [|done..].
    pose proof (channel_ok f (ev_AgentID env) Hf) as Hf1. set (f1 := getOrCreateAgentChannel f (ev_AgentID env)) in *.
    set (c0 := mkControl (fl_sessions f1) (Some (fl_registry f1)) (Some (fl_jobs f1))).
    pose proof (inbound_spec c0 env (wd_now w) (wd_inbound w)) as Hi. cbn zeta in Hi.
    destruct (HandleInboundEnvelope c0 env (wd_now w) (wd_inbound w)) as [c1 o]. cbn [fst] in *.
    destruct Hi as [->|(sess & Hse & (s' & Hss & Ei & Es) & Hrg & _)]; [by apply (fleet_ok_same f1)|].
    assert (fleet_ok (with_sessions f1 (cn_sessions c1))) as Hf2.
    { destruct Hf1 as [G1 G2 G3 G4]. constructor; cbn; [done|done| |].
      - intros i s ag Hs Ha. rewrite Hss in Hs. apply lookup_insert_Some in Hs as [[<- <-]|[_ Hs]]; [rewrite Es|]; by eapply G3.
      - rewrite Hss. apply lookup_insert_None. split; [done|]. cbn in Hse. congruence. }
    destruct (Hrg (fl_registry f1) eq_refl) as [->| ->]; cbn [default].
    + by apply (fleet_ok_same (with_sessions f1 (cn_sessions c1))).
    + eapply fleet_ok_same; [..|apply (registry_step (with_sessions f1 (cn_sessions c1)) (RTouch (wd_now w) (cs_serverID sess))
        (TouchServer (fl_registry f1) (wd_now w) (cs_serverID sess)) Hf2)]; [done|done| |done|done]. apply Touch_stepped, Hf1.
Qed.

Lemma NewFleetServer_ok r j a token maxJobs maxAgents enrolls ops :
  reg_ok r -> rg_agents r !! [] = None -> fleet_ok (NewFleetServer r j a token maxJobs maxAgents enrolls ops).
Proof. intros [[K1 K2 K3] Hp] Hn. constructor; cbn; [|done..]. constructor; [by constructor|done]. Qed.

(** The requests of agents, one by one. *)

Lemma enroll_effect f c w body :
  let f' := (handleAgentEnroll f c w body).1 in
  fl_jobs f' = fl_jobs f /\
  forall id, rg_agents (fl_registry f') !! id <> rg_agents (fl_registry f) !! id ->
    exists token e, body = Some token /\ rg_enrollments (fl_registry f) !! TrimSpace token = Some e /\
      spent (wd_now w) e = false /\ agents_full (fl_registry f) = false /\ id = agent_id (en_ServerID e) (dr_agent (wd_draws w)).
Proof.
  cbn zeta. unfold handleAgentEnroll. destruct (Allow _ _ _) as [rl ok]. destruct (negb ok); [by split|].
  destruct body as [token|]; [|by split]. cbn [fl_registry with_limits].
  assert (forall r o, ConsumeToken (fl_registry f) (wd_now w) (wd_draws w) (TrimSpace token) (wd_save w) = (r, o) ->
    forall id, rg_agents r !! id <> rg_agents (fl_registry f) !! id ->
    exists e, rg_enrollments (fl_registry f) !! TrimSpace token = Some e /\ spent (wd_now w) e = false /\
      agents_full (fl_registry f) = false /\ id = agent_id (en_ServerID e) (dr_agent (wd_draws w))) as Hc.
  { intros r o. unfold ConsumeToken. destruct (rg_enrollments (fl_registry f) !! TrimSpace token) as [e|]; [|by intros [<- _]%pair_equal_spec].
    destruct (en_Used e) eqn:Eu; [by intros [<- _]%pair_equal_spec|].
    destruct (match en_ExpiresAt e with Some t => t <? wd_now w | None => false end) eqn:Ex; [by intros [<- _]%pair_equal_spec|].
    destruct (agents_full (fl_registry f)) eqn:Ef; [by intros [<- _]%pair_equal_spec|].
    destruct (HashPassword _ _); [|by intros [<- _]%pair_equal_spec..]. set (r1 := set_tables _ _ _ _). intros Ep id Hd. exists e.
    split; [done|]. split; [unfold spent; by rewrite Eu, Ex|]. split; [done|].
    destruct (decide (id = agent_id (en_ServerID e) (dr_agent (wd_draws w)))) as [?|Hne]; [done|]. destruct Hd.
    pose proof (persist_memory r1 (wd_save w)) as [M _]. destruct (persistLocked r1 (wd_save w)) as [r2 o2]. cbn [fst] in M.
    assert (r = r2) as -> by (destruct o2; by apply pair_equal_spec in Ep as [<- _]).
    injection M as M _. rewrite M. cbn. by rewrite lookup_insert_ne. }
  destruct (ConsumeToken _ _ _ _ _) as [r [[ag sec]|e|]]; (split; [done|]); intros id Hd; cbn in Hd;
    destruct (Hc _ _ eq_refl id Hd) as (e0 & H1 & H2 & H3 & H4); exists token, e0; by split_and!.
Qed.

Lemma poll_effect f c w agentID ts mac :
  let f' := (handleAgentInbound f c w agentID ts mac).1 in fl_jobs f' = fl_jobs f /\ fl_registry f' = fl_registry f.
Proof.
  cbn zeta. unfold handleAgentInbound. case_bool_decide; [done|]. destruct (_ || _); [done|]. destruct (Atoi ts); [|done..].
  destruct (_ <? _); [done|]. destruct (AuthorizeStream _ _); [|done..]. destruct (agentKey _ _); [|done..]. destruct (negb _); [done|].
  cbn. by destruct (channel_same f agentID).
Qed.

Lemma envelope_effect f c w body :
  fleet_ok f -> let f' := (handleAgentEnvelope f c w body).1 in
  rg_agents (fl_registry f') = rg_agents (fl_registry f) /\
  forall id, js_jobs (fl_jobs f') !! id <> js_jobs (fl_jobs f) !! id ->
    exists env ag key b, body = Some env /\ rg_agents (fl_registry f) !! ev_AgentID env = Some ag /\ ag_Revoked ag = false /\
      agentKey (fl_registry f) (ev_AgentID env) = Ok key /\
      ev_HMAC env = ComputeHMAC key (ev_Direction env) (ev_Op env) (PayloadSHA256 (ev_Payload env)) (ev_IssuedAt env) (ev_MessageID env) /\
      js_jobs (fl_jobs f) !! id = Some b /\ (jb_ServerID b = ag_ServerID ag \/ timed_out (fl_jobs f) b (wd_now w)).
Proof.
  intros Hf. cbn zeta. unfold handleAgentEnvelope. destruct body as [env|]; [|by split].
  pose proof (verify_gate (NewVerifier [] minute DirectionAgentToControl) (fl_registry f) env (wd_now w) eq_refl) as Hg.
  destruct (Verify _ _ _ _) as [v [[]|e|]]; cbn [snd] in *; [|by split..].
  pose proof (channel_ok f (ev_AgentID env) Hf) as Hf1. destruct (channel_same f (ev_AgentID env)) as [Er Ej].
  set (f1 := getOrCreateAgentChannel f (ev_AgentID env)) in *.
  set (c0 := mkControl (fl_sessions f1) (Some (fl_registry f1)) (Some (fl_jobs f1))).
  pose proof (inbound_spec c0 env (wd_now w) (wd_inbound w)) as Hi. cbn zeta in Hi.
  destruct (HandleInboundEnvelope c0 env (wd_now w) (wd_inbound w)) as [c1 o]. cbn [fst] in *.
  destruct Hi as [->|(sess & Hse & _ & Hrg & Hjb)]; [cbn; by rewrite Er, Ej|].
  destruct (Hjb (fl_jobs f1) eq_refl) as (j' & Ej' & Hcon & _). split.
  { destruct (Hrg (fl_registry f1) eq_refl) as [->| ->]; cbn; rewrite Er; [done|]. unfold TouchServer. by destruct (rg_servers _ !! _). }
  intros id. cbn [fl_jobs with_jobs]. rewrite Ej', <- Ej. change (default ?x (Some j')) with j'. intros Hd. cbn in Hse.
  assert (ev_AgentID env <> []) as Hne by (intros E; rewrite E, (fo_unnamed _ Hf1) in Hse; done).
  destruct (Hg Hne eq_refl) as (key & ag & Hk & Ha & Hh). apply Authorize_agent in Ha as [Ha Hrv].
  destruct (Hcon id Hd) as (b & Hb & Hs). exists env, ag, key, b. split_and!; try done.
  rewrite (fo_sessions _ Hf1 (ev_AgentID env) sess ag); [done|done|by rewrite Er].
Qed.

(** C30: who may change what in the fleet. A request of the console that lacks the
    proxy's token, or whose principal lacks the right the request needs, is
    answered with 403 and changes nothing. A request of an agent changes jobs only
    if it is an envelope of an enrolled, unrevoked agent, with a correct HMAC under
    that agent's key, and only jobs of the server the agent is enrolled for (or
    jobs whose time was up); and it changes the agents only if it presents an
    unspent token, by adding the one agent that was drawn, for the token's server.
    The state stays such that this holds of the next request. *)
Theorem fleet_confined f c w q :
  fleet_ok f -> fresh_agent f w q ->
  let f' := (serve authorizer f c w q).1 in
  fleet_ok f' /\
  (from_agent q = false -> ~ (validProxyToken (ca_proxyToken c) (fl_proxyToken f) = true /\ permitted c q) ->
     serve authorizer f c w q = (f, forbidden)) /\
  (from_agent q = true -> forall id, js_jobs (fl_jobs f') !! id <> js_jobs (fl_jobs f) !! id ->
     exists env ag key b, q = QAgentEnvelope (Some env) /\ rg_agents (fl_registry f) !! ev_AgentID env = Some ag /\ ag_Revoked ag = false /\
       agentKey (fl_registry f) (ev_AgentID env) = Ok key /\
       ev_HMAC env = ComputeHMAC key (ev_Direction env) (ev_Op env) (PayloadSHA256 (ev_Payload env)) (ev_IssuedAt env) (ev_MessageID env) /\
       js_jobs (fl_jobs f) !! id = Some b /\ (jb_ServerID b = ag_ServerID ag \/ timed_out (fl_jobs f) b (wd_now w))) /\
  (from_agent q = true -> forall id, rg_agents (fl_registry f') !! id <> rg_agents (fl_registry f) !! id ->
     exists token e, q = QAgentEnroll (Some token) /\ rg_enrollments (fl_registry f) !! TrimSpace token = Some e /\
       spent (wd_now w) e = false /\ id = agent_id (en_ServerID e) (dr_agent (wd_draws w))).
Proof.
  intros Hf Hfr. cbn zeta. split; [by apply serve_ok|]. split; [by apply refused_unless_permitted|].
  split; intros Hq id; unfold serve; rewrite Hq; cbn [negb andb]; destruct q; try done; cbn [route].
  - intros Hd. destruct Hd. by rewrite (proj1 (enroll_effect f c w body)).
  - intros Hd. destruct Hd. by rewrite (proj1 (poll_effect f c w agentID timestamp mac)).
  - intros Hd. destruct (proj2 (envelope_effect f c w body Hf) id Hd) as (env & ag & key & b & -> & H1). by exists env, ag, key, b.
  - intros Hd. destruct (proj2 (enroll_effect f c w body) id Hd) as (token & e & -> & H1 & H2 & _ & H3). by exists token, e.
  - intros Hd. destruct Hd. by rewrite (proj2 (poll_effect f c w agentID timestamp mac)).
  - intros Hd. destruct Hd. by rewrite (proj1 (envelope_effect f c w body Hf)).
Qed.
End serve.
