(* ===== verification/FleetEndToEnd.v ===== *)
(** * A job from the console to the agent and back (internal/fleet)

    The composition of registry, signed messages, sessions, job table and server:
    what an authorized principal asks for reaches the agent of the server, is
    executed there, and its result ends up in the job table. *)

From stdpp Require Import prelude countable strings gmap list.
From Stdlib Require Import ZArith Lia.
From S2P Require Import Prelude GoBinary Wire GoStrings GoJson GoCrypto Authz FleetJobs.
From S2P Require Import FleetJobsProps FleetRegistry FleetAuth FleetAgent FleetAudit FleetServer FleetServerProps.

Section end_to_end.
Context {JJ : JobJSON} {AJ : AuditJSON} {LJ : Json HelloMessage} {HJ : Json HeartbeatMessage} {DJ : Json JobDispatchMessage}
  {RJ : Json JobResultMessage}.
Context {A : Type} {AZ : Authorizer A} (authorizer : A).

(** ** Sending and verifying *)

(** An envelope that was signed at [s] and is looked at at [t]. *)
Definition in_time (s t : Z) : Prop := second <= s /\ s <= t <= s + minute.

Lemma in_time_unix s t : in_time s t -> Unix s <= Unix t <= Unix (s + minute) /\ Unix t - Unix s <= 60.
Proof.
  intros [Hs [H1 H2]]. unfold Unix. assert ((s + minute) / second = s / second + 60) as E.
  { change minute with (60 * second). rewrite Z.div_add by done. lia. }
  pose proof (Z.div_le_mono s t second ltac:(done) H1). pose proof (Z.div_le_mono t (s + minute) second ltac:(done) H2). lia.
Qed.

Lemma send_ok secret direction agentID op payload s rnd :
  secret <> [] -> exists env, send secret direction agentID op payload s rnd = Ok env /\
    ev_MessageID env = generateMessageID rnd s /\ ev_AgentID env = agentID /\ ev_Op env = op /\ ev_Payload env = payload.
Proof.
  intros Hs. unfold send, Sign. rewrite bool_decide_eq_false_2 by done. cbn [obind]. by eexists.
Qed.

Lemma send_verifies secret direction agentID op payload s rnd env v reg t :
  send secret direction agentID op payload s rnd = Ok env ->
  vf_key v = secret -> vf_window v = minute -> vf_direction v = direction -> in_time s t ->
  (match reg with Some r => exists ag, AuthorizeStream r agentID = Ok ag | None => True end) ->
  verify_checks v reg env (Unix t) = Ok tt.
Proof.
  unfold send. destruct (Sign secret direction op payload minute s rnd) as [env0|e|] eqn:E; cbn [obind]; [|done..].
  intros <-%(inj Ok) Hk Hw Hd Ht Hr. destruct (in_time_unix s t Ht) as [U1 U2].
  assert (secret <> [] /\ ev_AgentID env0 = [] /\
    ComputeHMAC secret (ev_Direction env0) (ev_Op env0) (ev_BodySHA256 env0) (ev_IssuedAt env0) (ev_MessageID env0) = ev_HMAC env0) as (Hs & Ha & ->).
  { revert E. unfold Sign. case_bool_decide; [done|]. by intros <-%(inj Ok). }
  apply verify_stamped; [congruence| |done]. eapply verify_signed; [exact E|done|by right|apply Ht|done| |].
  - intros _. unfold window_seconds. rewrite Hw. exact U2.
  - destruct reg; [|done]. destruct Hr as [ag _]. exists ag. by right.
Qed.

(** The gate of the server has no key of its own and takes the agent's. *)
Lemma gate_verifies secret agentID op payload s rnd env r t ag :
  send secret DirectionAgentToControl agentID op payload s rnd = Ok env -> agentID <> [] ->
  agentKey r agentID = Ok secret -> AuthorizeStream r agentID = Ok ag -> in_time s t ->
  (Verify (NewVerifier [] minute DirectionAgentToControl) (Some r) (Some env) t).2 = Ok tt.
Proof.
  intros Hsend Ha Hk Hau Ht. unfold Verify.
  assert (verify_checks (NewVerifier [] minute DirectionAgentToControl) (Some r) env (Unix t)
    = verify_checks (NewVerifier secret minute DirectionAgentToControl) (Some r) env (Unix t)) as ->.
  { unfold verify_checks, verification_key, window_seconds. cbn [vf_key vf_window vf_direction NewVerifier].
    destruct (send_ok secret DirectionAgentToControl agentID op payload s rnd) as (env1 & E1 & _ & Ea & _).
    { intros ->. revert Hsend. unfold send, Sign. by rewrite bool_decide_eq_true_2. }
    rewrite Hsend in E1. apply (inj Ok) in E1 as <-. rewrite Ea.
    assert (secret <> []) as Hs. { intros ->. revert Hsend. unfold send, Sign. by rewrite bool_decide_eq_true_2. }
    rewrite (bool_decide_eq_true_2 ([] = [])), (bool_decide_eq_false_2 (agentID = [])), (bool_decide_eq_false_2 (secret = [])) by done.
    cbn [negb andb]. by rewrite Hk. }
  rewrite (send_verifies _ _ _ _ _ _ _ _ (NewVerifier secret minute DirectionAgentToControl) (Some r) t Hsend); [|done..|by eexists].
  assert (forget_expired (vf_seen (NewVerifier [] minute DirectionAgentToControl)) (Unix t) !! ev_MessageID env = None) as ->; [|done].
  apply map_lookup_filter_None. by left.
Qed.

(** ** A session *)

(** The agent has a session under its secret; the message identifiers its verifier
    remembers are among [used]. *)
Record linked (f : Fleet) (ag : Agent) (secret : gostring) (used : list gostring) : Prop := {
  li_named : ag_ID ag <> [];
  li_secret : secret <> [];
  li_auth : AuthorizeStream (fl_registry f) (ag_ID ag) = Ok ag;
  li_key : agentKey (fl_registry f) (ag_ID ag) = Ok secret;
  li_channel : is_Some (fl_channels f !! ag_ID ag);
  li_session : exists v l t, fl_sessions f !! ag_ID ag = Some (mkSession (ag_ID ag) (ag_ServerID ag) v secret l t) /\
    vf_key v = secret /\ vf_window v = minute /\ vf_direction v = DirectionAgentToControl /\
    forall id, is_Some (vf_seen v !! id) -> id ∈ used }.

(** What a message does to the jobs. *)
Definition message_effect (j : Jobs) (serverID : gostring) (op : gostring) (payload : list byte) (now : Z) (w : writes) : Jobs :=
  let sess := mkSession [] serverID (NewVerifier [] 0 []) [] [] 0 in
  if bool_decide (op = OpHeartbeat) then j
  else if bool_decide (op = OpJobRunning) then
    match of_json (A := JobResultMessage) payload with Ok res => take_running j sess res now w | _ => j end
  else if bool_decide (op = OpJobResult) then
    match of_json (A := JobResultMessage) payload with Ok res => take_result j sess res now w | _ => j end
  else j.

Lemma own_job_session j s s' id now w : cs_serverID s = cs_serverID s' -> own_job j s id now w = own_job j s' id now w.
Proof. intros E. unfold own_job. by rewrite E. Qed.

Lemma take_running_session j s s' res now w : cs_serverID s = cs_serverID s' -> take_running j s res now w = take_running j s' res now w.
Proof. intros E. unfold take_running. by rewrite (own_job_session j s s' _ _ _ E). Qed.

Lemma take_result_session j s s' res now w : cs_serverID s = cs_serverID s' -> take_result j s res now w = take_result j s' res now w.
Proof. intros E. unfold take_result. by rewrite (own_job_session j s s' _ _ _ E). Qed.

Lemma touch_agents r now id a :
  AuthorizeStream (TouchServer r now id) a = AuthorizeStream r a /\ agentKey (TouchServer r now id) a = agentKey r a.
Proof. unfold TouchServer. by destruct (rg_servers r !! id). Qed.

(** A message that was sent in time and is new is taken. *)
Lemma deliver f ag secret used c w op payload s rnd env :
  linked f ag secret used -> send secret DirectionAgentToControl (ag_ID ag) op payload s rnd = Ok env ->
  generateMessageID rnd s ∉ used -> in_time s (wd_now w) ->
  let r := serve authorizer f c w (QAgentEnvelope (Some env)) in
  r.2 = (200, ADone (ag_ID ag)) /\ linked r.1 ag secret (generateMessageID rnd s :: used) /\
  fl_jobs r.1 = message_effect (fl_jobs f) (ag_ServerID ag) op payload (wd_now w) (wd_inbound w).
Proof.
  intros [L1 L2 L3 L4 [q L5] (v & l & t & L6 & V1 & V2 & V3 & V4)] Hsend Hnew Ht. cbn zeta. unfold serve. cbn [from_agent negb andb route].
  unfold handleAgentEnvelope. rewrite (gate_verifies _ _ _ _ _ _ _ _ _ _ Hsend L1 L4 L3 Ht).
  destruct (send_ok secret DirectionAgentToControl (ag_ID ag) op payload s rnd L2) as (env1 & E1 & Eid & Ea & Eop & Epl).
  rewrite Hsend in E1. apply (inj Ok) in E1 as <-. unfold getOrCreateAgentChannel. rewrite Ea, L5.
  unfold HandleInboundEnvelope. cbn [cn_sessions cn_registry cn_jobs]. rewrite Ea, L6. cbn [cs_verifier]. unfold Verify.
  rewrite (send_verifies _ _ _ _ _ _ _ _ v (Some (fl_registry f)) (wd_now w) Hsend V1 V2 V3 Ht) by (by exists ag).
  assert (forget_expired (vf_seen v) (Unix (wd_now w)) !! ev_MessageID env = None) as ->.
  { rewrite Eid. apply map_lookup_filter_None. left. destruct (vf_seen v !! generateMessageID rnd s) eqn:E; [|done]. destruct Hnew. apply V4. by eexists. }
  set (exp := if ev_Expiry env <=? 0 then _ else _). set (v' := set_seen v _).
  assert (forall id, is_Some (vf_seen v' !! id) -> id ∈ generateMessageID rnd s :: used) as V4'.
  { intros id [x Hx]. cbn in Hx. apply lookup_insert_Some in Hx as [[<- _]|[_ Hx]]; [rewrite Eid; by left|right].
    apply map_lookup_filter_Some in Hx as [Hx _]. apply V4. by eexists. }
  unfold message_effect. rewrite Eop, Epl. cbn [set_verifier cs_agentID cs_serverID cs_secret cs_containers cs_lastHeartbeat].
  assert (forall f' l' t', fl_registry f' = fl_registry f \/ fl_registry f' = TouchServer (fl_registry f) (wd_now w) (ag_ServerID ag) ->
    fl_channels f' = fl_channels f ->
    fl_sessions f' = <[ag_ID ag := mkSession (ag_ID ag) (ag_ServerID ag) v' secret l' t']> (fl_sessions f) ->
    linked f' ag secret (generateMessageID rnd s :: used)) as Hl.
  { intros f' l' t' Er Ec Es. destruct (touch_agents (fl_registry f) (wd_now w) (ag_ServerID ag) (ag_ID ag)) as [T1 T2].
    constructor; [done|done|by destruct Er as [->| ->]; rewrite ?T1|by destruct Er as [->| ->]; rewrite ?T2|rewrite Ec; by eexists|].
    exists v', l', t'. split; [rewrite Es; apply lookup_insert_eq|by split_and!]. }
  case_bool_decide as B1; [|case_bool_decide as B2; [|case_bool_decide as B3]].
  - destruct (of_json (A := HeartbeatMessage) payload) as [hb|e|]; cbn [fst snd cn_sessions cn_registry cn_jobs].
    + split; [done|]. split; [|done]. eapply Hl; [|done|done]. cbn. case_bool_decide; [by left|by right].
    + split; [done|]. split; [|done]. eapply Hl; [by left|done|done].
    + split; [done|]. split; [|done]. eapply Hl; [by left|done|done].
  - cbn [fst snd cn_sessions cn_registry cn_jobs]. split; [done|]. split; [eapply Hl; [by left|done|done]|].
    destruct (of_json (A := JobResultMessage) payload); cbn; [by apply take_running_session|done..].
  - cbn [fst snd cn_sessions cn_registry cn_jobs]. split; [done|]. split; [eapply Hl; [by left|done|done]|].
    destruct (of_json (A := JobResultMessage) payload); cbn; [by apply take_result_session|done..].
  - cbn [fst snd cn_sessions cn_registry cn_jobs]. split; [done|]. split; [eapply Hl; [by left|done|done]|]. done.
Qed.

(** ** A job *)

(** The table holds the job, and a job may run for [T] ([0]: as long as it likes). *)
Definition holds (T : Z) (j : Jobs) (id : gostring) (b : Job) : Prop := js_jobs j !! id = Some b /\ js_timeout j = T.

(** The job has not run longer than that. *)
Definition not_late (T : Z) (b : Job) (now : Z) : Prop :=
  jb_Status b = JobStatusRunning -> 0 < T -> now - jb_StartedAt b <= T.

Lemma queued_not_late T b now : jb_Status b = JobStatusQueued -> not_late T b now.
Proof. intros E. unfold not_late. by rewrite E. Qed.

Lemma holds_Get T j id b now w : holds T j id b -> not_late T b now -> Get j id now w = (j, Ok b).
Proof.
  intros [H1 H2] Hl. unfold Get, checkTimeoutLocked. rewrite H1, H2.
  case_bool_decide as E; [|done]. specialize (Hl E). destruct (Z.ltb_spec 0 T); [|done].
  destruct (Z.ltb_spec T (now - jb_StartedAt b)); [lia|done].
Qed.

Lemma holds_own T j id b sess now w :
  holds T j id b -> not_late T b now -> jb_ServerID b = cs_serverID sess -> own_job j sess id now w = (j, true).
Proof. intros Hh Hl E. unfold own_job. rewrite (holds_Get T j id b) by done. by rewrite bool_decide_eq_true_2. Qed.

Lemma holds_append T j id b b' b0 :
  holds T j id b -> holds T (appendLocked (set_table j (<[id := b']> (js_jobs j)) (js_order j) (js_index j)) b0 None).1 id b'.
Proof. intros [_ H2]. unfold appendLocked. destruct (js_file _); (split; [apply lookup_insert_eq|done]). Qed.

Lemma holds_change T j id b b' : holds T j id b -> holds T (change_job j id b b' None).1 id b'.
Proof.
  intros Hh. unfold change_job. set (j1 := set_table _ _ _ _). pose proof (holds_append T j id b b' b' Hh) as H1. fold j1 in H1.
  assert (exists j2, appendLocked j1 b' None = (j2, Ok tt)) as [j2 E]; [|by rewrite E in *].
  unfold appendLocked. destruct (js_file j1); by eexists.
Qed.

Lemma running_taken T j id b sess now w :
  holds T j id b -> jb_ServerID b = cs_serverID sess -> jb_Status b = JobStatusQueued -> wr_first w = None ->
  holds T (take_running j sess (mkResult id JobStatusRunning [] []) now w) id
    (set_status b JobStatusRunning (jb_Error b) now (jb_CompletedAt b)).
Proof.
  intros Hh Es Eq Ew. unfold take_running. cbn [jr_JobID]. rewrite (holds_own T j id b) by (done || by apply queued_not_late). unfold Start. rewrite (proj1 Hh).
  rewrite bool_decide_eq_true_2 by done. cbn [negb]. rewrite Ew. by apply holds_change.
Qed.

(** How a job ends. *)
Definition ended (b : Job) (o : gostring + gostring) (now : Z) : Job :=
  match o with
  | inl result => set_status (set_result b result) JobStatusSucceeded (jb_Error b) (jb_StartedAt b) now
  | inr e => set_status b JobStatusFailed e (jb_StartedAt b) now
  end.

Definition result_message (id : gostring) (o : gostring + gostring) : JobResultMessage :=
  match o with
  | inl result => mkResult id JobStatusSucceeded result []
  | inr e => mkResult id JobStatusFailed [] e
  end.

Lemma result_taken T j id b sess now w o :
  holds T j id b -> not_late T b now -> jb_ServerID b = cs_serverID sess -> jb_Status b = JobStatusRunning -> wr_first w = None -> wr_second w = None ->
  holds T (take_result j sess (result_message id o) now w) id (ended b o now).
Proof.
  intros Hh Hl Es Er E1 E2. unfold take_result. destruct o as [result|e]; cbn [result_message jr_JobID jr_Status jr_Result jr_Error ended];
    rewrite (holds_own T j id b) by done.
  - rewrite bool_decide_eq_true_2 by done. rewrite E1, E2. set (b1 := set_result b result).
    assert (holds T (SetResult j id result None).1 id b1) as H1.
    { unfold SetResult. rewrite (proj1 Hh). by eapply holds_append. }
    unfold Complete. rewrite (proj1 H1). change (jb_Status b1) with (jb_Status b). rewrite Er.
    rewrite (bool_decide_eq_false_2 (JobStatusRunning = JobStatusQueued)) by done.
    rewrite (bool_decide_eq_false_2 (JobStatusSucceeded = JobStatusFailed)) by done. cbn [isTerminal negb]. by apply holds_change.
  - rewrite (bool_decide_eq_false_2 (JobStatusFailed = JobStatusSucceeded)), (bool_decide_eq_true_2 (JobStatusFailed = JobStatusFailed)) by done.
    rewrite E1. unfold Complete. rewrite (proj1 Hh), Er.
    rewrite (bool_decide_eq_false_2 (JobStatusRunning = JobStatusQueued)), (bool_decide_eq_true_2 (JobStatusFailed = JobStatusFailed)) by done.
    by apply holds_change.
Qed.

(** ** What is asked for *)

Definition target_server (r : Registry) (body : option (option (gostring * bool))) (server : gostring) : gostring :=
  let named := match body with Some (Some b) => b.1 | _ => [] end in
  sole_server r (if bool_decide (named = []) then server else named).

Definition asked_force (body : option (option (gostring * bool))) (force : gostring) : bool :=
  (match body with Some (Some b) => b.2 | _ => false end) || bool_decide (force = str "true").

Definition asked_job (c : caller) (w : world) (serverID action id : gostring) (force : bool) : Job :=
  mkJob (generateJobID (wd_now w) (wd_job w)) serverID action id (principalFromRequest c) [] force [] 0 JobStatusQueued []
    (wd_now w) zeroTime zeroTime.

Lemma Submit_new j now rnd serverID action target actor w j' id :
  Submit j now rnd serverID action target actor [] w = (j', Ok id) ->
  id = generateJobID now rnd /\
  holds (js_timeout j) j' id (mkJob id serverID action target actor [] false [] 0 JobStatusQueued [] now zeroTime zeroTime).
Proof.
  unfold Submit. rewrite bool_decide_eq_true_2 by done. destruct (_ && _); [done|]. set (b := mkJob _ _ _ _ _ _ _ _ _ _ _ _ _ _).
  set (j1 := set_table _ _ _ _). pose proof (append_table j1 b w) as (E1 & _ & _).
  assert (js_timeout (appendLocked j1 b w).1 = js_timeout j) as E2. { unfold appendLocked. destruct (js_file j1); [by destruct w|done]. }
  destruct (appendLocked j1 b w) as [j2 [[]|e|]]; cbn [fst] in *; [|done..]. intros [<- <-%(inj Ok)]%pair_equal_spec.
  split; [done|]. split; [|done]. rewrite E1. apply lookup_insert_eq.
Qed.

Lemma SubmitForce_new j now rnd serverID action target actor force w j' id :
  SubmitForce j now rnd serverID action target actor [] force w = (j', Ok id) ->
  id = generateJobID now rnd /\
  holds (js_timeout j) j' id (mkJob id serverID action target actor [] force [] 0 JobStatusQueued [] now zeroTime zeroTime).
Proof.
  unfold SubmitForce. destruct (Submit j now rnd serverID action target actor [] w) as [j1 [id1|e|]] eqn:E; [|done..].
  destruct (Submit_new _ _ _ _ _ _ _ _ _ _ E) as [Ei [H1 H2]]. intros [<- <-%(inj Ok)]%pair_equal_spec. rewrite H1.
  split; [done|]. split; [apply lookup_insert_eq|done].
Qed.

(** The dispatch that waits for the agent. *)
Definition dispatch_of (b : Job) : JobDispatchMessage := mkDispatch (jb_ID b) (jb_Action b) (jb_Target b) 0 (jb_TailLines b) (jb_Force b).

Lemma dispatch_step f ag secret used w b :
  linked f ag secret used -> agent_of (fl_registry f) (ag_ServerID ag) = Some ag -> fl_channels f !! ag_ID ag = Some [] ->
  let f' := dispatchJobToAgent f w (ag_ServerID ag) b in
  linked f' ag secret used /\ fl_jobs f' = fl_jobs f /\
  exists env, send secret DirectionControlToAgent (ag_ID ag) OpJobDispatch (to_json (dispatch_of b)) (wd_now w) (wd_message w) = Ok env /\
    fl_channels f' !! ag_ID ag = Some [env].
Proof.
  intros [L1 L2 L3 L4 L5 (v & l & t & L6 & V)] Ha Hc. cbn zeta. unfold dispatchJobToAgent. rewrite Ha. unfold DispatchJob. rewrite L3. cbn [obind].
  rewrite L6. cbn [cs_secret].
  destruct (send_ok secret DirectionControlToAgent (ag_ID ag) OpJobDispatch (to_json (dispatch_of b)) (wd_now w) (wd_message w) L2) as (env & E & _).
  unfold dispatch_of in E. rewrite E. split; [|split; [done|]].
  - constructor; [done..| |by exists v, l, t]. cbn. rewrite lookup_insert_eq. by eexists.
  - exists env. split; [done|]. cbn. rewrite lookup_insert_eq, Hc. done.
Qed.

Lemma linked_same f f' ag secret used :
  fl_registry f' = fl_registry f -> fl_sessions f' = fl_sessions f -> fl_channels f' = fl_channels f ->
  linked f ag secret used -> linked f' ag secret used.
Proof. intros E1 E2 E3 [L1 L2 L3 L4 L5 L6]. constructor; rewrite ?E1, ?E2, ?E3; done. Qed.

Lemma action_step f ag secret used c w action id body server force jid st :
  linked f ag secret used -> agent_of (fl_registry f) (ag_ServerID ag) = Some ag -> fl_channels f !! ag_ID ag = Some [] ->
  target_server (fl_registry f) body server = ag_ServerID ag ->
  let r := serve authorizer f c w (QContainerAction action id body server force) in
  let b := asked_job c w (ag_ServerID ag) action id (asked_force body force) in
  r.2 = (202, AJobID jid st) ->
  linked r.1 ag secret used /\ jid = jb_ID b /\ holds (js_timeout (fl_jobs f)) (fl_jobs r.1) jid b /\
  exists env, send secret DirectionControlToAgent (ag_ID ag) OpJobDispatch (to_json (dispatch_of b)) (wd_now w) (wd_message w) = Ok env /\
    fl_channels r.1 !! ag_ID ag = Some [env].
Proof.
  intros Hl Ha Hc Ht. cbn zeta. unfold serve. destruct (_ && _); [done|]. cbn [route]. unfold handleContainerAction.
  assert (forall op, checkAuthz authorizer c op ResourceFleetContainer id = None \/
    checkAuthz authorizer c op ResourceFleetContainer id = Some (principalFromRequest c)) as Hp.
  { intros op. unfold checkAuthz. destruct (Authorize _ _ _ _); [by right|by left..]. }
  destruct (Hp (if bool_decide (action = str "remove") then OpAdmin else OpControl)) as [-> | ->]; [done|].
  destruct (Allow _ _ _) as [rl ok]. set (f1 := with_limits f (fl_enroll f) rl).
  assert (linked f1 ag secret used) as Hl1 by (by apply (linked_same f)). destruct (negb ok); [done|].
  destruct body as [[[named forced]|]|]; [|done|];
  change (fl_registry f1) with (fl_registry f); unfold target_server in Ht; cbn [fst] in Ht; unfold asked_force; cbn [snd];
  rewrite Ht; (destruct (bool_decide (ag_ServerID ag = [])); [done|]); (destruct (GetServer _ _); [|done]);
  match goal with |- context [SubmitForce ?a ?b ?c ?d ?e ?g ?h ?i ?k ?l] =>
    destruct (SubmitForce a b c d e g h i k l) as [j [jid1|e1|]] eqn:Esub end; [|by destruct (bool_decide (e1 = _))|done| |by destruct (bool_decide (e1 = _))|done];
  (destruct (SubmitForce_new (fl_jobs f1) _ _ _ _ _ _ _ _ _ _ Esub) as [Ei Hh]); rewrite (holds_Get _ _ _ _ _ _ Hh) by (by apply queued_not_late);
  (set (f2 := log_event _ _ _ _ _ _ _)); (assert (linked f2 ag secret used) as Hl2 by (by apply (linked_same f1)));
  (match goal with |- context [dispatchJobToAgent f2 w _ ?b] =>
     destruct (dispatch_step f2 ag secret used w b Hl2 Ha Hc) as (D1 & D2 & D3) end);
  cbn [fst snd]; intros [= <- <-]; subst jid1; (split; [done|]); (split; [done|]); rewrite D2; (split; [done|]); done.
Qed.

(** ** The agent's end (cmd/fleet-agent/main.go) *)

(** What [pollOnce] asks. *)
Definition pollOnce (cfg : AgentRunnerConfig) (now : Z) : request :=
  QAgentInbound (ar_AgentID cfg) (itoa (Unix now)) (poll_mac (ar_Secret cfg) (ar_AgentID cfg) (Unix now)).

Lemma hmac_nonempty key direction op body issued id : ComputeHMAC key direction op body issued id <> [].
Proof.
  unfold ComputeHMAC. set (msg := direction ++ _). pose proof (length_hmac sha256 key msg eq_refl) as E. by destruct (hmac sha256 key msg).
Qed.

Lemma poll_step f ag secret used cfg c w p env :
  linked f ag secret used -> fl_channels f !! ag_ID ag = Some [env] -> ar_AgentID cfg = ag_ID ag -> ar_Secret cfg = secret ->
  in_time p (wd_now w) -> p < 2 ^ 63 ->
  let r := serve authorizer f c w (pollOnce cfg p) in
  r.2 = (200, AEnvelopes [env]) /\ linked r.1 ag secret used /\ fl_jobs r.1 = fl_jobs f.
Proof.
  intros [L1 L2 L3 L4 L5 L6] Hc Ei Es Ht Hp. cbn zeta. unfold serve, pollOnce. cbn [from_agent negb andb route]. unfold handleAgentInbound.
  rewrite Ei, Es. rewrite (bool_decide_eq_false_2 (ag_ID ag = [])) by done.
  assert (0 <= Unix p <= p) as Hu.
  { destruct Ht as [Hs _]. unfold Unix, second in *. split; [apply Z.div_pos; lia|apply Z.div_le_upper_bound; lia]. }
  rewrite (bool_decide_eq_false_2 (itoa (Unix p) = [])) by (intros E; pose proof (Atoi_itoa (Unix p) ltac:(lia)) as Ha; by rewrite E in Ha).
  rewrite (bool_decide_eq_false_2 (poll_mac secret (ag_ID ag) (Unix p) = [])) by (unfold poll_mac; apply hmac_nonempty). cbn [orb]. rewrite Atoi_itoa by lia.
  assert ((5 * minute <? Z.abs (wd_now w - Unix p * second)) = false) as ->.
  { apply Z.ltb_ge. destruct Ht as [_ [H1 H2]]. unfold Unix. pose proof (Z.div_mod p second ltac:(done)). pose proof (Z.mod_pos_bound p second ltac:(done)).
    unfold minute, second in *. lia. }
  rewrite L3, L4, bool_decide_eq_true_2 by done. cbn [negb]. unfold getOrCreateAgentChannel. rewrite Hc. cbn [fst snd]. rewrite Hc.
  split; [done|]. split; [|done]. constructor; [done..| |done]. cbn. rewrite lookup_insert_eq. by eexists.
Qed.

Lemma receive_step v secret agentID d s rnd env t :
  send secret DirectionControlToAgent agentID OpJobDispatch (to_json d) s rnd = Ok env -> secret <> [] ->
  vf_key v = secret -> vf_window v = minute -> vf_direction v = DirectionControlToAgent ->
  vf_seen v !! generateMessageID rnd s = None -> in_time s t -> jsonable d ->
  (runner_receive v env t).2 = Some d.
Proof.
  intros Hs Hn V1 V2 V3 V4 Ht Hj. destruct (send_ok secret DirectionControlToAgent agentID OpJobDispatch (to_json d) s rnd Hn) as (env1 & E1 & Eid & _ & Eop & Epl).
  rewrite Hs in E1. apply (inj Ok) in E1 as <-. unfold runner_receive, Verify.
  rewrite (send_verifies _ _ _ _ _ _ _ _ v None t Hs V1 V2 V3 Ht I).
  assert (forget_expired (vf_seen v) (Unix t) !! ev_MessageID env = None) as ->.
  { rewrite Eid. apply map_lookup_filter_None. by left. }
  rewrite Eop, Epl, bool_decide_eq_true_2 by done. by rewrite of_to_json.
Qed.

(** A message of the agent on its way: when and with which random bytes it is
    signed, and the world in which the server takes it. *)
Record sending := mkSending { sd_at : Z; sd_rnd : option (list byte); sd_world : world }.

Definition says (cfg : AgentRunnerConfig) (m : unit + (JobResultMessage * gostring)) (d : sending) : outcome Envelope :=
  match m with
  | inl _ => sendHeartbeat cfg (sd_at d) (sd_rnd d)
  | inr (res, op) => sendJobResult cfg res op (sd_at d) (sd_rnd d)
  end.

Fixpoint report (f : Fleet) (cfg : AgentRunnerConfig) (c : caller) (ms : list (unit + (JobResultMessage * gostring))) (ds : list sending) : Fleet :=
  match ms, ds with
  | m :: ms, d :: ds =>
      match says cfg m d with
      | Ok env => report (serve authorizer f c (sd_world d) (QAgentEnvelope (Some env))).1 cfg c ms ds
      | _ => report f cfg c ms ds
      end
  | _, _ => f
  end.

(** From the console's request to the agent's last word: the agent polls at [p],
    takes what it got at [t], executes it and reports. *)
Definition job_round (f : Fleet) (c : caller) (w : world) (q : request) (cfg : AgentRunnerConfig) (ca : caller) (w1 : world) (p : Z)
    (v : Verifier) (t : Z) (ds : list sending) : option Fleet :=
  let f1 := (serve authorizer f c w q).1 in
  let r := serve authorizer f1 ca w1 (pollOnce cfg p) in
  match r.2.2 with
  | AEnvelopes [env] =>
      match (runner_receive v env t).2 with
      | Some d => Some (report r.1 cfg ca (executeJob cfg d) ds)
      | None => None
      end
  | _ => None
  end.

Definition sent_as (m : unit + (JobResultMessage * gostring)) : gostring := match m with inl _ => OpHeartbeat | inr (_, op) => op end.

Definition message_id (d : sending) : gostring := generateMessageID (sd_rnd d) (sd_at d).

(** The message arrives in time and is new, and the server's writes succeed. *)
Definition arrives (used : list gostring) (d : sending) : Prop :=
  (message_id d ∉ used) /\ in_time (sd_at d) (wd_now (sd_world d)) /\
  wr_first (wd_inbound (sd_world d)) = None /\ wr_second (wd_inbound (sd_world d)) = None.

(** One message of the report. *)
Lemma report_step f ag secret used cfg c m d ms ds :
  linked f ag secret used -> ar_AgentID cfg = ag_ID ag -> ar_Secret cfg = secret -> arrives used d ->
  exists f' payload, report f cfg c (m :: ms) (d :: ds) = report f' cfg c ms ds /\ linked f' ag secret (message_id d :: used) /\
    (forall res op, m = inr (res, op) -> payload = to_json res) /\
    fl_jobs f' = message_effect (fl_jobs f) (ag_ServerID ag) (sent_as m) payload (wd_now (sd_world d)) (wd_inbound (sd_world d)).
Proof.
  intros Hl Ei Es (Hn & Ht & _). cbn [report].
  assert (exists payload, says cfg m d = send secret DirectionAgentToControl (ag_ID ag) (sent_as m) payload (sd_at d) (sd_rnd d) /\
    forall res op, m = inr (res, op) -> payload = to_json res) as (payload & -> & Hpl).
  { rewrite <- Ei, <- Es. destruct m as [[]|[res op]]; eexists; (split; [reflexivity|]); [done|]. by intros ? ? [= <- <-]. }
  destruct (send_ok secret DirectionAgentToControl (ag_ID ag) (sent_as m) payload (sd_at d) (sd_rnd d) (li_secret _ _ _ _ Hl)) as (env & E & _).
  rewrite E. destruct (deliver f ag secret used c (sd_world d) _ _ _ _ _ Hl E Hn Ht) as (_ & D1 & D2).
  eexists _, payload. split; [reflexivity|]. by split_and!.
Qed.

Lemma effect_result j serverID (res : JobResultMessage) op now w :
  jsonable res ->
  message_effect j serverID op (to_json res) now w =
    let sess := mkSession [] serverID (NewVerifier [] 0 []) [] [] 0 in
    if bool_decide (op = OpHeartbeat) then j
    else if bool_decide (op = OpJobRunning) then take_running j sess res now w
    else if bool_decide (op = OpJobResult) then take_result j sess res now w else j.
Proof. intros Hj. unfold message_effect. by rewrite (of_to_json res Hj). Qed.

Ltac next_message f d Hl Ei Es Ha f' L' P' E' :=
  match goal with
  | |- context [report f ?cfg ?c (?m :: ?ms) (d :: ?ds)] =>
      destruct (report_step f _ _ _ cfg c m d ms ds Hl Ei Es Ha) as (f' & ? & -> & L' & P' & E')
  end.

(** The whole report on a job. *)
Lemma report_all T f ag secret used cfg c dk b d d1 d2 d3 d4 :
  linked f ag secret used -> ar_AgentID cfg = ag_ID ag -> ar_Secret cfg = secret -> ar_Docker cfg = Some dk ->
  holds T (fl_jobs f) (jd_JobID d) b -> jb_ServerID b = ag_ServerID ag -> jb_Status b = JobStatusQueued ->
  NoDup (map message_id [d1; d2; d3; d4]) -> Forall (arrives used) [d1; d2; d3; d4] ->
  (0 < T -> wd_now (sd_world d4) - wd_now (sd_world d2) <= T) ->
  jsonable (mkResult (jd_JobID d) JobStatusRunning [] []) -> jsonable (result_message (jd_JobID d) (run_action dk d)) ->
  holds T (fl_jobs (report f cfg c (executeJob cfg d) [d1; d2; d3; d4])) (jd_JobID d)
    (ended (set_status b JobStatusRunning (jb_Error b) (wd_now (sd_world d2)) (jb_CompletedAt b)) (run_action dk d) (wd_now (sd_world d4))).
Proof.
  intros Hl Ei Es Ed Hh Eb Eq Hnd Ha Hlate J1 J2. unfold executeJob. rewrite Ed. cbn [app].
  change (match run_action dk d with inl result => _ | inr e => _ end) with (result_message (jd_JobID d) (run_action dk d)).
  set (final := result_message _ _) in *. cbn [map] in Hnd. rewrite !NoDup_cons in Hnd. destruct Hnd as (N1 & N2 & N3 & _).
  rewrite !Forall_cons in Ha. destruct Ha as (A1 & A2 & A3 & A4 & _).
  assert (forall x y us, arrives us x -> message_id y <> message_id x -> arrives (message_id y :: us) x) as Hmore.
  { intros x y us (B1 & B2) Hne. split; [|done]. rewrite not_elem_of_cons. split; [congruence|done]. }
  apply not_elem_of_cons in N1 as [? [? [? _]%not_elem_of_cons]%not_elem_of_cons].
  apply not_elem_of_cons in N2 as [? [? _]%not_elem_of_cons]. apply not_elem_of_cons in N3 as [? _].
  next_message f d1 Hl Ei Es A1 f1 L1 P1 E1.
  rewrite (P1 _ _ eq_refl) in E1. change (fl_jobs f1 = fl_jobs f) in E1.
  next_message f1 d2 L1 Ei Es (Hmore _ d1 _ A2 ltac:(done)) f2 L2 P2 E2.
  rewrite (P2 _ _ eq_refl), effect_result, E1 in E2 by done.
  change (fl_jobs f2 = take_running (fl_jobs f) (mkSession [] (ag_ServerID ag) (NewVerifier [] 0 []) [] [] 0)
    (mkResult (jd_JobID d) JobStatusRunning [] []) (wd_now (sd_world d2)) (wd_inbound (sd_world d2))) in E2.
  pose proof (running_taken T (fl_jobs f) (jd_JobID d) b (mkSession [] (ag_ServerID ag) (NewVerifier [] 0 []) [] [] 0)
    (wd_now (sd_world d2)) (wd_inbound (sd_world d2)) Hh Eb Eq ltac:(apply A2)) as Hrun. rewrite <- E2 in Hrun.
  next_message f2 d3 L2 Ei Es (Hmore _ d2 _ (Hmore _ d1 _ A3 ltac:(done)) ltac:(done)) f3 L3 P3 E3.
  change (fl_jobs f3 = fl_jobs f2) in E3.
  next_message f3 d4 L3 Ei Es (Hmore _ d3 _ (Hmore _ d2 _ (Hmore _ d1 _ A4 ltac:(done)) ltac:(done)) ltac:(done)) f4 L4 P4 E4.
  rewrite (P4 _ _ eq_refl), effect_result, E3 in E4 by done. cbn [report]. rewrite E4. apply result_taken; [done|by intros _|done|done|apply A4..].
Qed.

(** C29: an action that the console accepts is done by the agent, and its outcome is
    recorded. A server hands its jobs to the first of its active agents in the order
    of their names. Let that agent of the server that is asked for have a session and
    an empty queue (without a session the code answers 202 as well and cancels the
    job, whatever other agents the server has), and let the server answer 202 with a
    job. Then the agent's next poll returns the dispatch of this job and no other, the
    agent accepts it, and after it has reported, the job in the table is the one that
    was asked for, with the server, action, container, principal and force of the
    request, and ends as the Docker client ended: succeeded with its result or failed
    with its error. This holds when polls and messages are taken within a minute of
    their signing under message identifiers that were not used before, the result is
    taken before the table's timeout for a running job has passed (if it has one), the
    writes of the job's file succeed and the messages survive their JSON encoding. *)
Theorem fleet_job_end_to_end f ag secret used c w action id body server force jid st cfg dk ca w1 p v t d1 d2 d3 d4 :
  let job := asked_job c w (ag_ServerID ag) action id (asked_force body force) in
  let outcome := run_action dk (dispatch_of job) in
  linked f ag secret used -> agent_of (fl_registry f) (ag_ServerID ag) = Some ag -> fl_channels f !! ag_ID ag = Some [] ->
  target_server (fl_registry f) body server = ag_ServerID ag ->
  (serve authorizer f c w (QContainerAction action id body server force)).2 = (202, AJobID jid st) ->
  ar_AgentID cfg = ag_ID ag -> ar_Secret cfg = secret -> ar_Docker cfg = Some dk ->
  in_time p (wd_now w1) -> p < 2 ^ 63 ->
  vf_key v = secret -> vf_window v = minute -> vf_direction v = DirectionControlToAgent ->
  vf_seen v !! generateMessageID (wd_message w) (wd_now w) = None -> in_time (wd_now w) t ->
  NoDup (map message_id [d1; d2; d3; d4]) -> Forall (arrives used) [d1; d2; d3; d4] ->
  (0 < js_timeout (fl_jobs f) -> wd_now (sd_world d4) - wd_now (sd_world d2) <= js_timeout (fl_jobs f)) ->
  jsonable (dispatch_of job) -> jsonable (mkResult jid JobStatusRunning [] []) -> jsonable (result_message jid outcome) ->
  exists f', job_round f c w (QContainerAction action id body server force) cfg ca w1 p v t [d1; d2; d3; d4] = Some f' /\
    js_jobs (fl_jobs f') !! jid =
      Some (mkJob jid (ag_ServerID ag) action id (principalFromRequest c) [] (asked_force body force)
              (match outcome with inl result => result | inr _ => [] end) 0
              (match outcome with inl _ => JobStatusSucceeded | inr _ => JobStatusFailed end)
              (match outcome with inl _ => [] | inr e => e end)
              (wd_now w) (wd_now (sd_world d2)) (wd_now (sd_world d4))).
Proof.
  intros job o Hl Hag Hch Htg Hans Ei Es Ed Hp Hp63 V1 V2 V3 V4 Ht Hnd Har Hlate J1 J2 J3. unfold job_round.
  destruct (action_step f ag secret used c w action id body server force jid st Hl Hag Hch Htg Hans) as (L1 & -> & Hh & env & Hsend & Hq).
  set (f1 := (serve authorizer f c w _).1) in *. fold job in Hh, Hsend, J2, J3 |- *.
  destruct (poll_step f1 ag secret used cfg ca w1 p env L1 Hq Ei Es Hp Hp63) as (R1 & L2 & Ej).
  rewrite R1. cbn [snd].
  rewrite (receive_step v secret (ag_ID ag) (dispatch_of job) _ _ env t Hsend (li_secret _ _ _ _ Hl) V1 V2 V3 V4 Ht J1).
  eexists. split; [reflexivity|].
  destruct (report_all (js_timeout (fl_jobs f)) (serve authorizer f1 ca w1 (pollOnce cfg p)).1 ag secret used cfg ca dk job (dispatch_of job) d1 d2 d3 d4
    L2 Ei Es Ed ltac:(by rewrite Ej) eq_refl eq_refl Hnd Har Hlate J2 J3) as [H _].
  change (jd_JobID (dispatch_of job)) with (jb_ID job) in H. rewrite H. fold o. by destruct o.
Qed.
End end_to_end.
