(* ===== verification/FleetDemo.v ===== *)
(** * A concrete fleet

    An encoding that has the properties the messages rely on, a server with one
    agent, and the fleet's theorems on it. *)

From stdpp Require Import prelude countable strings gmap list.
From Stdlib Require Import ZArith Lia.
From S2P Require Import Prelude GoBinary Wire GoStrings GoCrypto GoAes GoJson Authz FleetJobs.
From S2P Require Import FleetJobsProps FleetRegistry FleetRegistryProps FleetAuth FleetAgent FleetAudit FleetServer FleetServerProps FleetEndToEnd.

(** ** An encoding *)

#[export] Instance ContainerSummary_eq_dec : EqDecision ContainerSummary.
Proof. solve_decision. Defined.

#[export] Instance ContainerSummary_countable : Countable ContainerSummary.
Proof.
  apply (inj_countable'
    (fun c => (ct_ID c, ct_Names c, ct_Image c, ct_Command c, ct_Created c, (ct_State c, ct_Status c, ct_Labels c, ct_ServerID c, ct_Ports c)))
    (fun x => match x with (a, b, c, d, e, (f, g, h, i, j)) => mkContainer a b c d e f g h i j end)).
  by intros [].
Defined.

#[export] Instance HelloMessage_eq_dec : EqDecision HelloMessage.
Proof. solve_decision. Defined.

#[export] Instance HelloMessage_countable : Countable HelloMessage.
Proof.
  apply (inj_countable' (fun m => (hl_AgentID m, hl_ServerID m, hl_Hostname m, hl_OS m, hl_Version m))
    (fun x => match x with (a, b, c, d, e) => mkHello a b c d e end)).
  by intros [].
Defined.

#[export] Instance HeartbeatMessage_eq_dec : EqDecision HeartbeatMessage.
Proof. solve_decision. Defined.

#[export] Instance HeartbeatMessage_countable : Countable HeartbeatMessage.
Proof.
  apply (inj_countable' (fun m => (hb_AgentID m, hb_Timestamp m, hb_Containers m))
    (fun x => match x with (a, b, c) => mkHeartbeat a b c end)).
  by intros [].
Defined.

#[export] Instance JobDispatchMessage_eq_dec : EqDecision JobDispatchMessage.
Proof. solve_decision. Defined.

#[export] Instance JobDispatchMessage_countable : Countable JobDispatchMessage.
Proof.
  apply (inj_countable' (fun m => (jd_JobID m, jd_Action m, jd_Target m, jd_TimeoutSeconds m, jd_TailLines m, jd_Force m))
    (fun x => match x with (a, b, c, d, e, f) => mkDispatch a b c d e f end)).
  by intros [].
Defined.

#[export] Instance JobResultMessage_eq_dec : EqDecision JobResultMessage.
Proof. solve_decision. Defined.

#[export] Instance JobResultMessage_countable : Countable JobResultMessage.
Proof.
  apply (inj_countable' (fun m => (jr_JobID m, jr_Status m, jr_Result m, jr_Error m))
    (fun x => match x with (a, b, c, d) => mkResult a b c d end)).
  by intros [].
Defined.

#[export] Instance AuditEvent_eq_dec : EqDecision AuditEvent.
Proof. solve_decision. Defined.

#[export] Instance AuditEvent_countable : Countable AuditEvent.
Proof.
  apply (inj_countable' (fun e => (au_ID e, au_Actor e, au_Target e, au_Action e, au_Time e, au_Result e, au_CorrelationID e, au_Detail e))
    (fun x => match x with (a, b, c, d, e, f, g, h) => mkEvent a b c d e f g h end)).
  by intros [].
Defined.

#[export] Instance countable_json `{Countable A} : Json A.
Proof.
  refine {| to_json := fun x => bits (countable.encode x);
            of_json := fun l => match countable.decode (of_bits l) with Some x => Ok x | None => Err "json" end;
            jsonable := fun _ => True |}.
  intros x _. by rewrite of_bits_bits, decode_encode.
Defined.

#[export] Instance audit_bits_json : AuditJSON.
Proof.
  refine {| audit_Marshal := fun e => x7b :: bits (countable.encode e) ++ [x7d];
            audit_Unmarshal := fun l =>
              match countable.decode (of_bits (take (length l - 2) (drop 1 l))) with Some e => Ok e | None => Err "json" end;
            audit_encodable := fun _ => True |}.
  - intros e _. cbn [length]. rewrite length_app. cbn [length]. rewrite skipn_cons, drop_0.
    rewrite (take_app_length' _ [x7d]) by lia. by rewrite of_bits_bits, decode_encode.
  - intros e. exists (bits (countable.encode e)). split; [done|]. eapply Forall_impl; [apply bits_printing|]. by intros c (_ & ? & _).
Defined.

(** ** A fleet of one agent *)

Definition agent_name : gostring := str "s1-agent".
Definition agent_secret : gostring := str "secret".
Definition demo_agent : Agent :=
  mkAgent agent_name (str "s1") [] (seal demo_box (replicate 12 x00) agent_secret) false zeroTime 0 zeroTime.
Definition demo_server : Server := mkServer (str "s1") (str "s1") [] (str "online") agent_name 0 0.
Definition demo_members : Registry :=
  mkRegistry None demo_box {[agent_name := demo_agent]} ∅ {[str "s1" := demo_server]} 500.

Definition demo_fleet : Fleet :=
  getOrCreateAgentChannel (NewFleetServer demo_members (SetTimeout (empty_jobs None) (30 * second)) (NewAudit None) (str "proxy") 0 0 0 0) agent_name.

Definition at_time (t : Z) : world :=
  mkWorld t [x01] demo_draws [x02] (Some [x03]) [x04] true None (fun _ => None) None (mkWrites None None None) None [].

Definition console : caller := mkCaller (str "proxy") (str "root") (str "10.0.0.1").
Definition outside : caller := mkCaller [] [] (str "10.0.0.2").

Definition demo_docker : DockerClient :=
  mkDocker (inl []) (fun _ => inr (str "no")) (fun _ => inl tt) (fun _ _ => inr (str "busy")) (fun _ _ => inl tt) (fun _ _ => inl tt)
    (fun _ _ => inl []).

Definition demo_runner : AgentRunnerConfig := mkRunner agent_name (str "s1") agent_secret (Some demo_docker).

Lemma demo_fleet_ok : fleet_ok demo_fleet.
Proof.
  apply channel_ok, NewFleetServer_ok; [|done]. split; [|done].
  split; [|done|]; intros i x Hx; cbn in Hx; apply lookup_singleton_Some in Hx as [<- <-]; done.
Qed.

Lemma fleet_confined_witness :
  fleet_ok (serve AllowAll demo_fleet outside (at_time (100 * second)) (QRevokeServer (str "s1"))).1 /\
  serve AllowAll demo_fleet outside (at_time (100 * second)) (QRevokeServer (str "s1")) = (demo_fleet, forbidden).
Proof.
  destruct (fleet_confined AllowAll demo_fleet outside (at_time (100 * second)) (QRevokeServer (str "s1")) demo_fleet_ok I) as (H1 & H2 & _).
  split; [exact H1|]. apply H2; [reflexivity|]. intros [H _]. vm_compute in H. discriminate H.
Defined.

(** A container is stopped from the console; Docker refuses, and the job says so. *)

Definition demo_sending (s : Z) (rnd : byte) (t : Z) : sending := mkSending (s * second) (Some [rnd]) (at_time (t * second)).

Definition demo_sendings : list sending :=
  [demo_sending 103 x11 103; demo_sending 103 x12 104; demo_sending 104 x13 105; demo_sending 105 x14 106].

Lemma demo_linked : linked demo_fleet demo_agent agent_secret [].
Proof.
  constructor; [done|done|vm_compute; reflexivity|vm_compute; reflexivity|vm_compute; by eexists|].
  eexists _, _, _. split; [vm_compute; reflexivity|]. split_and!; [vm_compute; reflexivity..|].
  intros i [x Hx]. vm_compute in Hx. discriminate Hx.
Qed.

Lemma fleet_job_end_to_end_witness :
  let jid := generateJobID (100 * second) [x02] in
  exists f', job_round AllowAll demo_fleet console (at_time (100 * second)) (QContainerAction (str "stop") (str "web") None [] [])
      demo_runner outside (at_time (101 * second)) (101 * second) (NewAgentRunner demo_runner) (102 * second) demo_sendings = Some f' /\
    js_jobs (fl_jobs f') !! jid =
      Some (mkJob jid (str "s1") (str "stop") (str "web") (str "root") [] false [] 0 JobStatusFailed (str "busy")
              (100 * second) (104 * second) (106 * second)).
Proof.
  destruct (fleet_job_end_to_end AllowAll demo_fleet demo_agent agent_secret [] console (at_time (100 * second)) (str "stop") (str "web") None [] []
    (generateJobID (100 * second) [x02]) JobStatusQueued demo_runner demo_docker outside (at_time (101 * second)) (101 * second)
    (NewAgentRunner demo_runner) (102 * second) (demo_sending 103 x11 103) (demo_sending 103 x12 104) (demo_sending 104 x13 105)
    (demo_sending 105 x14 106)) as (f' & H1 & H2).
  - exact demo_linked.
  - vm_compute. reflexivity.
  - vm_compute. reflexivity.
  - vm_compute. reflexivity.
  - vm_compute. reflexivity.
  - reflexivity.
  - reflexivity.
  - reflexivity.
  - unfold in_time, second, minute. cbn. lia.
  - vm_compute. reflexivity.
  - reflexivity.
  - reflexivity.
  - reflexivity.
  - vm_compute. reflexivity.
  - unfold in_time, second, minute. cbn. lia.
  - apply (bool_decide_eq_true_1 (NoDup _)). vm_compute. reflexivity.
  - assert (forall d, in_time (sd_at d) (wd_now (sd_world d)) -> wd_inbound (sd_world d) = mkWrites None None None -> arrives [] d) as Ha.
    { intros d Hd E. split; [apply not_elem_of_nil|]. rewrite E. by split_and!. }
    do 4 (constructor; [apply Ha; [split_and!; vm_compute; discriminate|reflexivity]|]). constructor.
  - vm_compute. discriminate.
  - exact I.
  - exact I.
  - exact I.
  - exists f'. split; [exact H1|]. etransitivity; [exact H2|vm_compute; reflexivity].
Defined.
