(* ===== verification/SchemaRegistry.v ===== *)
(** * The schema registry (internal/schemaregistry)

    Schemas by subject and version and by identifier, with a file that holds them
    all. A request is its decoded parts. The file is its bytes, [None] when there
    is none; encoding/json on its contents is a class of what the code relies on. A
    save replaces the file as a whole or fails; the order in which Go walks the
    subjects is an argument. *)

From stdpp Require Import prelude countable strings gmap list.
From Stdlib Require Import ZArith Lia.
From S2P Require Import Prelude Wire GoStrings GoJson.

(** ** Data *)

Record schemaEntry := mkEntry {
  se_ID : Z;
  se_Subject : gostring;
  se_Version : Z;
  se_Schema : gostring;
  se_SchemaType : gostring }.

#[export] Instance schemaEntry_eq_dec : EqDecision schemaEntry.
Proof. solve_decision. Defined.

(** An entry of the file has the fields of an entry. *)
Record persistedState := mkPersisted {
  ps_NextID : Z;
  ps_Entries : list schemaEntry }.

(** [text]: what JSON keeps of a string as it is, valid UTF-8. *)
Class SchemaJSON := {
  state_json : persistedState -> list byte;
  state_of_json : list byte -> outcome persistedState;
  text : gostring -> Prop;
  text_AVRO : text (str "AVRO");
  text_JSON : text (str "JSON");
  state_json_nonempty st : state_json st <> [];
  state_of_to_json st :
    Forall (fun e => text (se_Subject e) /\ text (se_Schema e) /\ text (se_SchemaType e)) (ps_Entries st) ->
    state_of_json (state_json st) = Ok st }.

(** [sg_file] is [None] without a path. *)
Record Registry := mkSchemas {
  sg_nextID : Z;
  sg_bySubject : gmap gostring (list schemaEntry);
  sg_byID : gmap Z schemaEntry;
  sg_file : option (option (list byte)) }.

Definition New : Registry := mkSchemas 1 ∅ ∅ None.

Inductive request :=
  | QListSubjects
  | QRegister (subject : gostring) (body : option (gostring * gostring))
  | QListVersions (subject : gostring)
  | QGetVersion (subject version : gostring)
  | QGetByID (id : gostring).

Inductive answer :=
  | AFail (code : string)
  | ASubjects (l : list gostring)
  | AID (id : Z)
  | AVersions (l : list Z)
  | AVersion (e : schemaEntry)
  | ASchema (schema schemaType : gostring).

Definition response : Type := Z * answer.

Definition validateSchema (schemaType schema : gostring) : outcome unit :=
  if bool_decide (TrimSpace schema = []) then Err "schema is empty" else
  if bool_decide (schemaType = str "AVRO") || bool_decide (schemaType = str "JSON") then
    if json_Valid schema then Ok tt else Err "schema is not valid JSON"
  else if bool_decide (schemaType = str "PROTOBUF") then Err "schemaType PROTOBUF is not supported"
  else Err "unsupported schemaType".

Section registry.
Context `{!SchemaJSON}.

(** ** The file *)

Definition loadState (file : option (list byte)) : outcome (option persistedState) :=
  match file with
  | None => Ok None
  | Some [] => Ok (Some (mkPersisted 1 []))
  | Some data => let? st := state_of_json data in Ok (Some st)
  end.

Definition load_entry (r : Registry) (e : schemaEntry) : Registry :=
  mkSchemas (sg_nextID r) (<[se_Subject e := default [] (sg_bySubject r !! se_Subject e) ++ [e]]> (sg_bySubject r))
    (<[se_ID e := e]> (sg_byID r)) (sg_file r).

Definition Open (file : option (option (list byte))) : outcome Registry :=
  let r := mkSchemas 1 ∅ ∅ file in
  match file with
  | None => Ok r
  | Some f =>
      let? ost := loadState f in
      match ost with
      | None => Ok r
      | Some st => Ok (fold_left load_entry (ps_Entries st) (mkSchemas (if ps_NextID st <? 1 then 1 else ps_NextID st) ∅ ∅ file))
      end
  end.

Definition snapshot (r : Registry) (walk : list gostring -> list gostring) : persistedState :=
  mkPersisted (sg_nextID r)
    (mjoin (map (fun s => default [] (sg_bySubject r !! s)) (walk (map fst (map_to_list (sg_bySubject r)))))).

(** [saveState]: the file is replaced, or the save fails. *)
Definition saveState (r : Registry) (st : persistedState) (ok : bool) : Registry * outcome unit :=
  if ok then (mkSchemas (sg_nextID r) (sg_bySubject r) (sg_byID r) (Some (Some (state_json st))), Ok tt)
  else (r, Err "schemaregistry: write").

Definition persist (r : Registry) (walk : list gostring -> list gostring) (ok : bool) : Registry * outcome unit :=
  match sg_file r with
  | None => (r, Ok tt)
  | Some _ => saveState r (snapshot r walk) ok
  end.

(** ** Requests *)

Definition ListSubjects (r : Registry) : list gostring := sort_strings (map fst (map_to_list (sg_bySubject r))).

Definition SubjectVersions (r : Registry) (subject : gostring) : list schemaEntry := default [] (sg_bySubject r !! subject).

Definition add_entry (r : Registry) (subject schema schemaType : gostring) : Registry * Z :=
  let id := sg_nextID r in
  let entries := default [] (sg_bySubject r !! subject) in
  let entry := mkEntry id subject (zlen entries + 1) schema schemaType in
  (mkSchemas (id + 1) (<[subject := entries ++ [entry]]> (sg_bySubject r)) (<[id := entry]> (sg_byID r)) (sg_file r), id).

(** The body is decoded or not. *)
Definition register (r : Registry) (subject : gostring) (body : option (gostring * gostring))
    (walk : list gostring -> list gostring) (ok : bool) : Registry * response :=
  match body with
  | None => (r, (422, AFail "422"))
  | Some (schema, given) =>
      if bool_decide (schema = []) then (r, (422, AFail "422")) else
      let schemaType := if bool_decide (ToUpper given = []) then str "AVRO" else ToUpper given in
      match validateSchema schemaType schema with
      | Ok _ =>
          match list_find (fun e => se_Schema e = schema /\ se_SchemaType e = schemaType) (default [] (sg_bySubject r !! subject)) with
          | Some (_, e) => (r, (200, AID (se_ID e)))
          | None =>
              let '(r, id) := add_entry r subject schema schemaType in
              match persist r walk ok with
              | (r, Ok _) => (r, (200, AID id))
              | (r, _) => (r, (500, AFail "500"))
              end
          end
      | _ => (r, (422, AFail "422"))
      end
  end.

Definition listVersions (r : Registry) (subject : gostring) : response :=
  match default [] (sg_bySubject r !! subject) with
  | [] => (404, AFail "40401")
  | entries => (200, AVersions (map se_Version entries))
  end.

Definition getVersion (r : Registry) (subject ver : gostring) : response :=
  match default [] (sg_bySubject r !! subject) with
  | [] => (404, AFail "40401")
  | entries =>
      let found := if bool_decide (ver = str "latest") then list.last entries
                   else match Atoi ver with
                        | Ok v => snd <$> list_find (fun e => se_Version e = v) entries
                        | _ => None
                        end in
      match found with
      | None => (404, AFail "40402")
      | Some e => (200, AVersion e)
      end
  end.

Definition getByID (r : Registry) (id : gostring) : response :=
  match sg_byID r !! Atoi_value id with
  | None => (404, AFail "40403")
  | Some e => (200, ASchema (se_Schema e) (se_SchemaType e))
  end.

(** [Handler]. *)
Definition schema_serve (r : Registry) (q : request) (walk : list gostring -> list gostring) (ok : bool) : Registry * response :=
  match q with
  | QListSubjects => (r, (200, ASubjects (ListSubjects r)))
  | QRegister subject body => register r subject body walk ok
  | QListVersions subject => (r, listVersions r subject)
  | QGetVersion subject ver => (r, getVersion r subject ver)
  | QGetByID id => (r, getByID r id)
  end.
End registry.
