(* ===== verification/SchemaRegistryProps.v ===== *)
(** * The schema registry keeps what it is given (internal/schemaregistry)

    The registry is compared with a list of rows: what was registered, in order.
    An identifier is a place in the list, a version is a place among the rows of a
    subject. *)

From stdpp Require Import prelude countable strings gmap list sorting.
From Stdlib Require Import ZArith Lia.
From S2P Require Import Prelude Wire GoStrings GoJson SchemaRegistry.

(** ** Sorting *)

Lemma string_le_total a b : string_le a b = true \/ string_le b a = true.
Proof.
  revert b. induction a as [|x a IH]; intros [|y b]; cbn; [by left|by left|by right|].
  destruct (Z.ltb_spec (b2z x) (b2z y)); [by left|]. destruct (Z.ltb_spec (b2z y) (b2z x)); [by right|].
  assert (b2z x = b2z y) as E by lia. rewrite E, Z.eqb_refl. apply IH.
Qed.

Lemma string_le_antisym a b : string_le a b = true -> string_le b a = true -> a = b.
Proof.
  revert b. induction a as [|x a IH]; intros [|y b]; cbn; [done..|].
  destruct (Z.ltb_spec (b2z x) (b2z y)); destruct (Z.ltb_spec (b2z y) (b2z x)); cbn; [lia| | |].
  - rewrite (proj2 (Z.eqb_neq (b2z y) (b2z x))) by lia. done.
  - rewrite (proj2 (Z.eqb_neq (b2z x) (b2z y))) by lia. done.
  - assert (b2z x = b2z y) as E by lia. rewrite E, Z.eqb_refl. cbn. intros H1 H2. apply (inj b2z) in E as ->. f_equal. auto.
Qed.

Lemma string_le_trans a b c : string_le a b = true -> string_le b c = true -> string_le a c = true.
Proof.
  revert b c. induction a as [|x a IH]; intros [|y b] [|z c]; cbn; try done.
  destruct (Z.ltb_spec (b2z x) (b2z y)); destruct (Z.ltb_spec (b2z y) (b2z z)); cbn;
    destruct (Z.eqb_spec (b2z x) (b2z y)); destruct (Z.eqb_spec (b2z y) (b2z z)); cbn; try done; try lia; intros H1 H2;
    try (rewrite (proj2 (Z.ltb_lt (b2z x) (b2z z))) by lia; done).
  rewrite (proj2 (Z.eqb_eq (b2z x) (b2z z))) by lia. rewrite orb_true_iff. right. cbn. eauto.
Qed.

Definition in_string_order (a b : gostring) : Prop := string_le a b = true.

#[export] Instance in_string_order_trans : Transitive in_string_order.
Proof. intros a b c. apply string_le_trans. Qed.
#[export] Instance in_string_order_antisym : AntiSymm (=) in_string_order.
Proof. intros a b. apply string_le_antisym. Qed.

Lemma insert_string_sorted x l : Sorted in_string_order l -> Sorted in_string_order (insert_string x l).
Proof.
  induction 1 as [|y l Hs IH Hd]; cbn; [by repeat constructor|]. destruct (string_le x y) eqn:E.
  - constructor; [by constructor|by constructor].
  - assert (in_string_order y x) as Hyx by (destruct (string_le_total x y); [congruence|done]). constructor; [done|].
    destruct l as [|z l]; cbn; [by constructor|]. destruct (string_le x z); constructor; [done|by inversion Hd].
Qed.

Lemma insert_string_perm x l : insert_string x l ≡ₚ x :: l.
Proof. induction l as [|y l IH]; cbn; [done|]. destruct (string_le x y); [done|]. rewrite IH. apply perm_swap. Qed.

Lemma sort_strings_perm l : sort_strings l ≡ₚ l.
Proof. induction l as [|x l IH]; [done|]. cbn. unfold sort_strings in IH. by rewrite insert_string_perm, IH. Qed.

Lemma sort_strings_sorted l : Sorted in_string_order (sort_strings l).
Proof. induction l as [|x l IH]; [constructor|]. by apply insert_string_sorted. Qed.

Lemma sort_strings_same l l' : l ≡ₚ l' -> sort_strings l = sort_strings l'.
Proof.
  intros Hp. apply (Sorted_unique in_string_order); [apply sort_strings_sorted..|]. by rewrite !sort_strings_perm.
Qed.

(** ** Rows *)

(** Subject, schema, type. *)
Definition row : Type := gostring * gostring * gostring.
Definition row_subject (x : row) : gostring := x.1.1.
Definition row_schema (x : row) : gostring := x.1.2.
Definition row_type (x : row) : gostring := x.2.

(** The rows of a subject, with their places in the list, from 1. *)
Definition rows_of (L : list row) (s : gostring) : list (Z * row) :=
  filter (fun x => row_subject x.2 = s) (imap (fun i x => (Z.of_nat i + 1, x)) L).

Definition entries_of (L : list row) (s : gostring) : list schemaEntry :=
  imap (fun k x => mkEntry x.1 s (Z.of_nat k + 1) (row_schema x.2) (row_type x.2)) (rows_of L s).

Lemma rows_of_snoc L x s : rows_of (L ++ [x]) s = rows_of L s ++ (if bool_decide (row_subject x = s) then [(zlen L + 1, x)] else []).
Proof.
  unfold rows_of. rewrite imap_app, filter_app. f_equal. change (imap _ [x]) with [(Z.of_nat (length L + 0) + 1, x)].
  rewrite filter_cons, filter_nil. unfold zlen. rewrite Nat.add_0_r.
  case_bool_decide; by destruct (decide _).
Qed.

Lemma length_entries L s : length (entries_of L s) = length (rows_of L s).
Proof. apply length_imap. Qed.

Lemma entries_of_snoc L x s :
  entries_of (L ++ [x]) s
  = entries_of L s ++ (if bool_decide (row_subject x = s)
                       then [mkEntry (zlen L + 1) s (zlen (entries_of L s) + 1) (row_schema x) (row_type x)] else []).
Proof.
  unfold entries_of. rewrite rows_of_snoc, imap_app. f_equal. case_bool_decide; [|done]. cbn.
  unfold zlen. by rewrite length_imap, Nat.add_0_r.
Qed.

Lemma entry_row L s e :
  e ∈ entries_of L s <->
  exists k id x, rows_of L s !! k = Some (id, x) /\ e = mkEntry id s (Z.of_nat k + 1) (row_schema x) (row_type x).
Proof.
  unfold entries_of. rewrite list_elem_of_lookup. split.
  - intros [k Hk]. rewrite list_lookup_imap in Hk. apply fmap_Some in Hk as ([id x] & Hx & ->). by exists k, id, x.
  - intros (k & id & x & Hx & ->). exists k. by rewrite list_lookup_imap, Hx.
Qed.

Lemma rows_of_elem L s id x : (id, x) ∈ rows_of L s <-> row_subject x = s /\ 1 <= id /\ L !! Z.to_nat (id - 1) = Some x.
Proof.
  unfold rows_of. rewrite list_elem_of_filter, elem_of_lookup_imap. cbn. split.
  - intros (Hs & i & y & [= -> ->] & Hi). split_and!; [done|lia|]. by replace (Z.to_nat (Z.of_nat i + 1 - 1)) with i by lia.
  - intros (Hs & H1 & Hi). split; [done|]. exists (Z.to_nat (id - 1)), x. split; [f_equal; lia|done].
Qed.

Lemma entry_place L s e :
  e ∈ entries_of L s -> se_Subject e = s /\ 1 <= se_ID e <= zlen L /\ L !! Z.to_nat (se_ID e - 1) = @Some row (s, se_Schema e, se_SchemaType e).
Proof.
  intros (k & id & x & Hx & ->)%entry_row. apply list_elem_of_lookup_2, rows_of_elem in Hx as (Hs & H1 & Hi).
  cbn [se_Subject se_ID se_Schema se_SchemaType].
  pose proof (lookup_lt_Some _ _ _ Hi). unfold zlen. split_and!; [done|lia|lia|].
  etransitivity; [exact Hi|]. destruct x as [[s' schema] ty]. cbn in Hs. by subst s'.
Qed.

Lemma place_entry (L : list row) i s schema ty :
  L !! i = @Some row (s, schema, ty) -> exists e, e ∈ entries_of L s /\ se_ID e = Z.of_nat i + 1 /\ se_Schema e = schema /\ se_SchemaType e = ty.
Proof.
  intros Hi. assert ((Z.of_nat i + 1, (s, schema, ty)) ∈ rows_of L s) as [k Hk]%list_elem_of_lookup.
  { apply rows_of_elem. split_and!; [done|lia|]. by replace (Z.to_nat (Z.of_nat i + 1 - 1)) with i by lia. }
  eexists. split; [apply entry_row; by exists k, (Z.of_nat i + 1), (s, schema, ty)|done].
Qed.

Lemma rows_of_increasing L s : StronglySorted (fun x y : Z * row => x.1 < y.1) (rows_of L s) /\ Forall (fun x => x.1 <= zlen L) (rows_of L s).
Proof.
  induction L as [|x L [IH1 IH2]] using rev_ind; [by split; constructor|]. rewrite rows_of_snoc, zlen_app.
  change (zlen [x]) with 1. split.
  - case_bool_decide; [|by rewrite app_nil_r]. revert IH2. induction IH1 as [|y l Hl IHl Hy]; intros Hf; [by repeat constructor|].
    apply Forall_cons in Hf as [Hf1 Hf2]. cbn. constructor; [by apply IHl|]. apply Forall_app. split; [done|].
    repeat constructor. cbn. lia.
  - apply Forall_app. split; [eapply Forall_impl; [exact IH2|]; cbn; lia|]. case_bool_decide; repeat constructor. cbn. lia.
Qed.

Lemma StronglySorted_places {A} (R : A -> A -> Prop) l i j x y :
  StronglySorted R l -> (i < j)%nat -> l !! i = Some x -> l !! j = Some y -> R x y.
Proof.
  intros Hs. revert i j. induction Hs as [|z l Hs IH Hz]; intros i j Hij Hi Hj; [done|]. destruct j as [|j]; [lia|]. destruct i as [|i].
  - injection Hi as <-. rewrite Forall_forall in Hz. apply Hz. by eapply list_elem_of_lookup_2.
  - apply (IH i j); [lia|done|done].
Qed.

Lemma entry_unique L s s' e e' : e ∈ entries_of L s -> e' ∈ entries_of L s' -> se_ID e = se_ID e' -> e = e'.
Proof.
  intros He He' E. pose proof (entry_place L s e He) as (_ & _ & P1). pose proof (entry_place L s' e' He') as (_ & _ & P2).
  rewrite E, P2 in P1. injection P1 as -> E1 E2. apply entry_row in He as (k & id & x & Hk & ->), He' as (k' & id' & x' & Hk' & ->).
  cbn in *. subst id'. assert (k = k') as ->; [|by rewrite Hk in Hk'; injection Hk' as ->].
  destruct (rows_of_increasing L s) as [Hi _]. destruct (Nat.lt_total k k') as [Hlt|[?|Hlt]]; [exfalso|done|exfalso].
  - pose proof (StronglySorted_places _ _ k k' _ _ Hi Hlt Hk Hk') as Hx. cbn in Hx. lia.
  - pose proof (StronglySorted_places _ _ k' k _ _ Hi Hlt Hk' Hk) as Hx. cbn in Hx. lia.
Qed.

(** ** The specification *)

(** What was registered, and what of it is in the file. *)
Record spec := mkSpec { sp_rows : list row; sp_saved : list row }.

(** The schema and the type a body stands for. *)
Definition accepted (body : option (gostring * gostring)) : option (gostring * gostring) :=
  match body with
  | None => None
  | Some (schema, given) =>
      if bool_decide (schema = []) then None else
      let ty := if bool_decide (ToUpper given = []) then str "AVRO" else ToUpper given in
      match validateSchema ty schema with Ok _ => Some (schema, ty) | _ => None end
  end.

Definition spec_version (L : list row) (s : gostring) (v : Z) : response :=
  match (if 1 <=? v then rows_of L s !! Z.to_nat (v - 1) else None) with
  | Some (id, x) => (200, AVersion (mkEntry id s v (row_schema x) (row_type x)))
  | None => (404, AFail "40402")
  end.

Definition spec_serve (hasfile : bool) (sp : spec) (q : request) (ok : bool) : spec * response :=
  let L := sp_rows sp in
  match q with
  | QListSubjects => (sp, (200, ASubjects (sort_strings (remove_dups (map row_subject L)))))
  | QRegister s body =>
      match accepted body with
      | None => (sp, (422, AFail "422"))
      | Some (schema, ty) =>
          match list_find (fun x => x = (s, schema, ty)) L with
          | Some (i, _) => (sp, (200, AID (Z.of_nat i + 1)))
          | None =>
              let L' := L ++ [(s, schema, ty)] in
              if negb hasfile then (mkSpec L' (sp_saved sp), (200, AID (zlen L')))
              else if ok then (mkSpec L' L', (200, AID (zlen L')))
              else (mkSpec L' (sp_saved sp), (500, AFail "500"))
          end
      end
  | QListVersions s =>
      (sp, if zlen (rows_of L s) =? 0 then (404, AFail "40401") else (200, AVersions (seqZ 1 (zlen (rows_of L s)))))
  | QGetVersion s ver =>
      (sp, if zlen (rows_of L s) =? 0 then (404, AFail "40401") else
           if bool_decide (ver = str "latest") then spec_version L s (zlen (rows_of L s)) else
           match Atoi ver with Ok v => spec_version L s v | _ => (404, AFail "40402") end)
  | QGetByID id =>
      (sp, match (if 1 <=? Atoi_value id then L !! Z.to_nat (Atoi_value id - 1) else None) with
           | Some x => (200, ASchema (row_schema x) (row_type x))
           | None => (404, AFail "40403")
           end)
  end.

Section refines.
Context {SJ : SchemaJSON}.

Definition row_text (x : row) : Prop := text (row_subject x) /\ text (row_schema x) /\ text (row_type x).

(** Contents of the file that stand for rows. *)
Record state_of (st : persistedState) (D : list row) : Prop := {
  so_next : ps_NextID st = zlen D + 1;
  so_entries s : filter (fun e => se_Subject e = s) (ps_Entries st) = entries_of D s;
  so_nodup : NoDup D;
  so_text : Forall row_text D }.

Definition file_of (f : option (list byte)) (D : list row) : Prop :=
  match f with
  | None | Some [] => D = []
  | Some data => exists st, data = state_json st /\ state_of st D
  end.

Record represents (hasfile : bool) (r : Registry) (sp : spec) : Prop := {
  rp_next : sg_nextID r = zlen (sp_rows sp) + 1;
  rp_subjects s : default [] (sg_bySubject r !! s) = entries_of (sp_rows sp) s;
  rp_nonempty s : sg_bySubject r !! s <> Some [];
  rp_ids id e : sg_byID r !! id = Some e <-> e ∈ entries_of (sp_rows sp) (se_Subject e) /\ se_ID e = id;
  rp_nodup : NoDup (sp_rows sp);
  rp_text : Forall row_text (sp_rows sp);
  rp_file : match sg_file r with None => hasfile = false /\ sp_saved sp = [] | Some f => hasfile = true /\ file_of f (sp_saved sp) end }.

(** ** Looking up *)

Lemma find_row (L : list row) s schema ty :
  NoDup L ->
  match list_find (fun x => x = (s, schema, ty)) L with
  | Some (i, _) => exists k e, list_find (fun e => se_Schema e = schema /\ se_SchemaType e = ty) (entries_of L s) = Some (k, e) /\ se_ID e = Z.of_nat i + 1
  | None => list_find (fun e => se_Schema e = schema /\ se_SchemaType e = ty) (entries_of L s) = None
  end.
Proof.
  intros Hn. destruct (list_find (fun x => x = (s, schema, ty)) L) as [[i x]|] eqn:E.
  - apply list_find_Some in E as (Hi & -> & _). destruct (place_entry L i s schema ty Hi) as (e & He & Ei & E1 & E2).
    destruct (list_find (fun e => se_Schema e = schema /\ se_SchemaType e = ty) (entries_of L s)) as [[k e']|] eqn:Ef.
    + exists k, e'. split; [done|]. apply list_find_Some in Ef as (Hk & [F1 F2] & _). apply list_elem_of_lookup_2 in Hk.
      destruct (entry_place L s e' Hk) as (_ & H1 & H2). rewrite F1, F2 in H2. pose proof (NoDup_lookup _ _ _ _ Hn Hi H2). lia.
    + apply list_find_None in Ef. rewrite Forall_forall in Ef. by destruct (Ef e He).
  - apply list_find_None in E. rewrite Forall_forall in E. apply list_find_None, Forall_forall. intros e He [F1 F2].
    destruct (entry_place L s e He) as (_ & _ & H2). rewrite F1, F2 in H2. by apply (E (s, schema, ty)); [eapply list_elem_of_lookup_2|].
Qed.

Lemma versions_of L s : map se_Version (entries_of L s) = seqZ 1 (zlen (rows_of L s)).
Proof.
  unfold entries_of, zlen. apply list_eq. intros k. rewrite list_lookup_fmap, list_lookup_imap.
  destruct (rows_of L s !! k) as [[id x]|] eqn:E; cbn.
  - apply lookup_lt_Some in E. rewrite lookup_seqZ_lt by lia. f_equal. lia.
  - apply lookup_ge_None in E. by rewrite lookup_seqZ_ge by lia.
Qed.

Lemma find_version L s v :
  snd <$> list_find (fun e => se_Version e = v) (entries_of L s) =
    (if 1 <=? v then (fun x => mkEntry x.1 s v (row_schema x.2) (row_type x.2)) <$> rows_of L s !! Z.to_nat (v - 1) else None).
Proof.
  assert (forall k, entries_of L s !! k = (fun x => mkEntry x.1 s (Z.of_nat k + 1) (row_schema x.2) (row_type x.2)) <$> rows_of L s !! k) as Hl
    by (intros k; apply list_lookup_imap).
  destruct (list_find (fun e => se_Version e = v) (entries_of L s)) as [[k e]|] eqn:E; cbn.
  - apply list_find_Some in E as (Hk & Hv & _). rewrite Hl in Hk. apply fmap_Some in Hk as ([id x] & Hx & ->). cbn in Hv. subst v.
    rewrite (proj2 (Z.leb_le 1 _)) by lia. replace (Z.to_nat (Z.of_nat k + 1 - 1)) with k by lia. by rewrite Hx.
  - apply list_find_None in E. rewrite Forall_forall in E. destruct (Z.leb_spec 1 v); [|done].
    destruct (rows_of L s !! Z.to_nat (v - 1)) as [[id x]|] eqn:Ex; [|done]. exfalso.
    assert (entries_of L s !! Z.to_nat (v - 1) = Some (mkEntry id s (Z.of_nat (Z.to_nat (v - 1)) + 1) (row_schema x) (row_type x))) as He
      by (by rewrite Hl, Ex). apply (E _ (list_elem_of_lookup_2 _ _ _ He)). cbn. lia.
Qed.

Lemma last_version L s :
  list.last (entries_of L s) =
    (if 1 <=? zlen (rows_of L s)
     then (fun x => mkEntry x.1 s (zlen (rows_of L s)) (row_schema x.2) (row_type x.2)) <$> rows_of L s !! Z.to_nat (zlen (rows_of L s) - 1) else None).
Proof.
  rewrite last_lookup, length_entries. unfold entries_of at 1. rewrite list_lookup_imap. unfold zlen.
  destruct (rows_of L s) as [|x l] eqn:E; [done|]. rewrite (proj2 (Z.leb_le 1 _)) by (cbn; lia).
  replace (Z.to_nat (Z.of_nat (length (x :: l)) - 1)) with (Nat.pred (length (x :: l))) by (cbn; lia).
  destruct ((x :: l) !! Nat.pred (length (x :: l))) as [[id y]|]; cbn; [|done]. f_equal. f_equal. lia.
Qed.

Lemma subjects_of (L : list row) (m : gmap gostring (list schemaEntry)) :
  (forall s : gostring, default [] (m !! s) = entries_of L s) -> (forall s : gostring, m !! s <> Some []) ->
  map fst (map_to_list m) ≡ₚ remove_dups (map row_subject L).
Proof.
  intros H1 H2. apply NoDup_Permutation; [apply NoDup_fst_map_to_list|apply NoDup_remove_dups|]. intros s.
  rewrite elem_of_remove_dups, list_elem_of_fmap. split.
  - intros ([s' l] & -> & Hl%elem_of_map_to_list). cbn. specialize (H1 s'). rewrite Hl in H1. cbn in H1. destruct l as [|e l]; [by destruct (H2 s')|].
    assert (e ∈ entries_of L s') as He by (rewrite <- H1; by left). destruct (entry_place L s' e He) as (_ & _ & Hx).
    apply list_elem_of_fmap. eexists. split; [|by eapply list_elem_of_lookup_2]. done.
  - intros ([[s' schema] ty] & -> & [i Hi]%list_elem_of_lookup)%list_elem_of_fmap. cbn. destruct (place_entry L i s' schema ty Hi) as (e & He & _).
    destruct (m !! s') as [l|] eqn:E; [|specialize (H1 s'); rewrite E in H1; cbn in H1; rewrite <- H1 in He; by apply not_elem_of_nil in He].
    exists (s', l). split; [done|]. by apply elem_of_map_to_list.
Qed.

(** ** Reading the file *)

Lemma load_all E r :
  let r' := fold_left load_entry E r in
  sg_nextID r' = sg_nextID r /\ sg_file r' = sg_file r /\
  (forall s, default [] (sg_bySubject r' !! s) = default [] (sg_bySubject r !! s) ++ filter (fun e => se_Subject e = s) E) /\
  ((forall s, sg_bySubject r !! s <> Some []) -> forall s, sg_bySubject r' !! s <> Some []) /\
  (forall id e, sg_byID r' !! id = Some e -> sg_byID r !! id = Some e \/ e ∈ E /\ se_ID e = id) /\
  (forall id, is_Some (sg_byID r !! id) \/ (exists e, e ∈ E /\ se_ID e = id) -> is_Some (sg_byID r' !! id)).
Proof.
  revert r. induction E as [|e E IH]; intros r; cbn zeta.
  { split_and!; try done; [intros s; by rewrite app_nil_r|by left|]. intros id [?|(e & He & _)]; [done|by apply not_elem_of_nil in He]. }
  cbn [fold_left]. destruct (IH (load_entry r e)) as (H1 & H2 & H3 & H4 & H5 & H6). cbn in H1, H2, H5, H6. split_and!; [done|done| | | |].
  - intros s. rewrite H3. cbn [load_entry sg_bySubject]. rewrite filter_cons. destruct (decide (se_Subject e = s)) as [<-|Hne].
    + rewrite lookup_insert_eq. change (default [] (Some ?l)) with l. by rewrite <- app_assoc.
    + by rewrite lookup_insert_ne.
  - intros Hr. apply H4. intros s. cbn. destruct (decide (se_Subject e = s)) as [<-|Hne]; [rewrite lookup_insert_eq|by rewrite lookup_insert_ne].
    intros [= Hx]. by destruct (default [] _).
  - intros id x Hx. destruct (H5 id x Hx) as [Hi|[Hi Ei]]; [|right; split; [by right|done]].
    apply lookup_insert_Some in Hi as [[<- <-]|[_ Hi]]; [right; split; [by left|done]|by left].
  - intros id Hx. apply H6. destruct Hx as [Hx|(x & [->|Hx]%elem_of_cons & Ei)].
    + left. destruct (decide (se_ID e = id)) as [<-|Hne]; [rewrite lookup_insert_eq; by eexists|by rewrite lookup_insert_ne].
    + left. rewrite Ei, lookup_insert_eq. by eexists.
    + right. by exists x.
Qed.

Lemma empty_represents h file :
  (match file with None => h = false | Some f => h = true /\ file_of f [] end) -> represents h (mkSchemas 1 ∅ ∅ file) (mkSpec [] []).
Proof.
  intros Hf. constructor; cbn; [done|done|done| |constructor|done|].
  - intros id e. split; [done|]. intros [He%not_elem_of_nil _]. done.
  - by destruct file.
Qed.

Lemma Open_represents f D : file_of f D -> exists r, Open (Some f) = Ok r /\ represents true r (mkSpec D D).
Proof.
  intros Hf. unfold Open. destruct f as [data|]; [|cbn in Hf; subst D; eexists; split; [reflexivity|by apply empty_represents]].
  destruct (decide (data = [])) as [->|Hne].
  { cbn in Hf. subst D. eexists. split; [reflexivity|]. by apply (empty_represents true (Some (Some []))). }
  assert (exists st, data = state_json st /\ state_of st D) as (st & -> & Hst) by (by destruct data).
  assert (forall e, e ∈ ps_Entries st -> e ∈ entries_of D (se_Subject e)) as Hin.
  { intros e He. rewrite <- (so_entries _ _ Hst). by apply list_elem_of_filter. }
  assert (loadState (Some (state_json st)) = Ok (Some st)) as ->.
  { unfold loadState. destruct (state_json st) as [|b l] eqn:E; [done|]. rewrite <- E, state_of_to_json; [done|].
    apply Forall_forall. intros e He. destruct (entry_place D _ e (Hin e He)) as (_ & _ & Hx).
    pose proof (so_text _ _ Hst) as Ht. rewrite Forall_forall in Ht. by apply (Ht _ (list_elem_of_lookup_2 _ _ _ Hx)). }
  cbn [obind]. rewrite (so_next _ _ Hst). rewrite (proj2 (Z.ltb_ge (zlen D + 1) 1)) by (unfold zlen; lia).
  eexists. split; [reflexivity|]. set (r0 := mkSchemas (zlen D + 1) ∅ ∅ _).
  destruct (load_all (ps_Entries st) r0) as (H1 & H2 & H3 & H4 & H5 & H6). constructor; cbn [sp_rows sp_saved].
  - done.
  - intros s. rewrite H3, (so_entries _ _ Hst). done.
  - by apply H4.
  - intros id e. split.
    + intros [Hx|[He Ei]]%H5; [done|]. split; [by apply Hin|done].
    + intros [He Ei]. assert (e ∈ ps_Entries st) as Hes.
      { rewrite <- (so_entries _ _ Hst) in He. by apply list_elem_of_filter in He as [_ ?]. }
      destruct (H6 id ltac:(right; by exists e)) as [x Hx]. destruct (H5 id x Hx) as [?|[Hxs Exi]]; [done|].
      rewrite Hx. f_equal. eapply (entry_unique D); [by apply Hin|done|congruence].
  - apply Hst.
  - apply Hst.
  - rewrite H2. cbn. split; [done|]. destruct (state_json st) as [|b l] eqn:E; [done|]. exists st. by rewrite E.
Qed.

(** ** Writing it *)

Lemma filter_join (f : gostring -> list schemaEntry) keys s :
  NoDup keys -> (forall k, Forall (fun e => se_Subject e = k) (f k)) ->
  filter (fun e => se_Subject e = s) (mjoin (map f keys)) = if bool_decide (s ∈ keys) then f s else [].
Proof.
  intros Hn Hf. assert (forall k, filter (fun e => se_Subject e = s) (f k) = if bool_decide (k = s) then f k else []) as Hk.
  { intros k. specialize (Hf k). induction Hf as [|e l He Hl IH]; [by case_bool_decide|]. rewrite filter_cons. rewrite IH.
    case_bool_decide; destruct (decide _); congruence. }
  induction Hn as [|k keys Hnk Hn IH]; [done|]. cbn [map]. rewrite mjoin_cons, filter_app, IH, Hk.
  destruct (decide (k = s)) as [->|Hne].
  - rewrite (bool_decide_eq_true_2 (s = s)), (bool_decide_eq_false_2 (s ∈ keys)), (bool_decide_eq_true_2 (s ∈ s :: keys)); [by rewrite app_nil_r|by left|done|done].
  - rewrite (bool_decide_eq_false_2 (k = s)) by done. cbn [app]. rewrite (bool_decide_ext (s ∈ k :: keys) (s ∈ keys)); [done|]. rewrite elem_of_cons. naive_solver.
Qed.

Lemma snapshot_state h r sp walk :
  represents h r sp -> (forall l, walk l ≡ₚ l) -> state_of (snapshot r walk) (sp_rows sp).
Proof.
  intros [R1 R2 R3 R4 R5 R6 R7] Hw. constructor; [done| |done|done]. intros s. unfold snapshot. cbn [ps_Entries].
  rewrite filter_join.
  - case_bool_decide as Hs; [apply R2|]. symmetry. rewrite <- R2. destruct (sg_bySubject r !! s) as [l|] eqn:E; [|done]. destruct Hs.
    rewrite Hw. apply list_elem_of_fmap. exists (s, l). split; [done|]. by apply elem_of_map_to_list.
  - rewrite Hw. apply NoDup_fst_map_to_list.
  - intros k. apply Forall_forall. intros e He. rewrite R2 in He. by apply entry_place in He as [? _].
Qed.

Lemma add_represents h r sp s schema ty :
  represents h r sp -> (s, schema, ty) ∉ sp_rows sp -> row_text (s, schema, ty) ->
  represents h (add_entry r s schema ty).1 (mkSpec (sp_rows sp ++ [(s, schema, ty)]) (sp_saved sp)) /\
  (add_entry r s schema ty).2 = zlen (sp_rows sp ++ [(s, schema, ty)]).
Proof.
  intros [R1 R2 R3 R4 R5 R6 R7] Hnew Ht. set (L := sp_rows sp) in *. set (x := (s, schema, ty)) in *.
  assert (zlen (L ++ [x]) = zlen L + 1) as Hz by (rewrite zlen_app; done). split; [|cbn; lia].
  assert (forall s', entries_of (L ++ [x]) s' = entries_of L s' ++
    (if bool_decide (s = s') then [mkEntry (zlen L + 1) s' (zlen (entries_of L s') + 1) schema ty] else [])) as Hsn by (intros; apply entries_of_snoc).
  constructor; cbn [sp_rows sp_saved add_entry fst sg_nextID sg_bySubject sg_byID sg_file].
  - lia.
  - intros s'. rewrite Hsn. case_bool_decide as E; [subst s'; rewrite lookup_insert_eq|rewrite lookup_insert_ne by done].
    + cbn. by rewrite R1, !R2.
    + by rewrite R2, app_nil_r.
  - intros s'. destruct (decide (s = s')) as [<-|Hne]; [rewrite lookup_insert_eq|by rewrite lookup_insert_ne]. intros [= Hx]. by destruct (default [] _).
  - intros id e. rewrite Hsn, R1, R2, lookup_insert_Some, R4, elem_of_app. split.
    + intros [[<- <-]|[Hne [He Ei]]]; [|split; [by left|done]]. split; [|done]. right. cbn. rewrite bool_decide_eq_true_2 by done. by left.
    + intros [[He|He] Ei].
      * right. destruct (entry_place L _ e He) as (_ & Hb & _). split; [lia|done].
      * case_bool_decide as E; [|by apply not_elem_of_nil in He]. apply list_elem_of_singleton in He. left.
        rewrite He in Ei. cbn in Ei. split; [done|]. rewrite E. by rewrite He.
  - apply NoDup_app. split; [done|]. split; [|apply NoDup_singleton]. intros y Hy ->%list_elem_of_singleton. done.
  - apply Forall_app. split; [done|]. by apply Forall_singleton.
  - done.
Qed.

(** ** Requests *)

Definition request_text (q : request) : Prop :=
  match q with
  | QRegister s (Some (schema, _)) => text s /\ text schema
  | _ => True
  end.

Lemma accepted_type body schema ty : accepted body = Some (schema, ty) -> ty = str "AVRO" \/ ty = str "JSON".
Proof.
  unfold accepted. destruct body as [[sch given]|]; [|done]. case_bool_decide; [done|]. cbn zeta. set (t := if bool_decide _ then _ else _).
  unfold validateSchema. case_bool_decide; [done|].
  case_bool_decide; cbn [orb]; [|case_bool_decide; cbn [orb]; [|by case_bool_decide]]; (destruct (json_Valid sch); [|done]); intros [= <- <-]; auto.
Qed.

Lemma register_accepted r s body walk ok :
  register r s body walk ok =
    match accepted body with
    | None => (r, (422, AFail "422"))
    | Some (schema, ty) =>
        match list_find (fun e => se_Schema e = schema /\ se_SchemaType e = ty) (default [] (sg_bySubject r !! s)) with
        | Some (_, e) => (r, (200, AID (se_ID e)))
        | None =>
            let '(r, id) := add_entry r s schema ty in
            match persist r walk ok with
            | (r, Ok _) => (r, (200, AID id))
            | (r, _) => (r, (500, AFail "500"))
            end
        end
    end.
Proof.
  unfold register, accepted. destruct body as [[schema given]|]; [|done]. case_bool_decide; [done|]. cbn zeta.
  by destruct (validateSchema _ schema).
Qed.

Lemma persist_represents h r sp walk ok :
  represents h r sp -> (forall l, walk l ≡ₚ l) ->
  exists r', persist r walk ok = (r', if negb h || ok then Ok tt else Err "schemaregistry: write") /\
    represents h r' (mkSpec (sp_rows sp) (if h && ok then sp_rows sp else sp_saved sp)).
Proof.
  intros Hr Hw. pose proof (snapshot_state h r sp walk Hr Hw) as Hst. destruct Hr as [R1 R2 R3 R4 R5 R6 R7]. unfold persist, saveState.
  destruct (sg_file r) as [f|] eqn:Ef; destruct R7 as [-> R7]; [destruct ok|]; eexists; (split; [reflexivity|]);
    constructor; cbn [sp_rows sp_saved sg_nextID sg_bySubject sg_byID sg_file negb andb]; rewrite ?Ef; try done.
  split; [done|]. cbn. destruct (state_json _) as [|b l] eqn:E; [by apply state_json_nonempty in E|]. eexists. by split.
Qed.

Lemma serve_represents h r sp q walk ok :
  represents h r sp -> (forall l, walk l ≡ₚ l) -> request_text q ->
  let '(r', a) := schema_serve r q walk ok in
  let '(sp', a') := spec_serve h sp q ok in a = a' /\ represents h r' sp'.
Proof.
  intros Hr Hw Ht. pose proof Hr as [R1 R2 R3 R4 R5 R6 R7]. destruct q as [|s body|s|s ver|id]; cbn [schema_serve spec_serve].
  - split; [|done]. do 2 f_equal. apply sort_strings_same. by apply subjects_of.
  - rewrite register_accepted. destruct (accepted body) as [[schema ty]|] eqn:Ea; [|done].
    assert (row_text (s, schema, ty)) as Hrow.
    { assert (text ty) as Hty by (destruct (accepted_type _ _ _ Ea) as [-> | ->]; [apply text_AVRO|apply text_JSON]). revert Ea Hty. unfold accepted. destruct body as [[sch given]|]; [|done].
      case_bool_decide; [done|]. cbn zeta. destruct (validateSchema _ sch); [|done..]. intros [= <- <-] Hty. destruct Ht. by split_and!. }
    rewrite R2. pose proof (find_row (sp_rows sp) s schema ty R5) as Hf.
    destruct (list_find (fun x => x = (s, schema, ty)) (sp_rows sp)) as [[i x]|] eqn:El.
    + destruct Hf as (k & e & -> & ->). done.
    + rewrite Hf. assert ((s, schema, ty) ∉ sp_rows sp) as Hnew.
      { apply list_find_None in El. rewrite Forall_forall in El. intros Hx. by apply (El _ Hx). }
      destruct (add_represents h r sp s schema ty Hr Hnew Hrow) as [Ha Hid]. destruct (add_entry r s schema ty) as [r1 id1]. cbn [fst snd] in *. subst id1.
      destruct (persist_represents h r1 _ walk ok Ha Hw) as (r2 & -> & Hp). cbn [sp_rows sp_saved] in Hp.
      destruct h; [|done]. by destruct ok.
  - split; [|done]. unfold listVersions. rewrite R2, <- versions_of. unfold zlen. rewrite <- length_entries. by destruct (entries_of (sp_rows sp) s).
  - split; [|done]. unfold getVersion. rewrite R2. unfold spec_version.
    assert ((zlen (rows_of (sp_rows sp) s) =? 0) = bool_decide (entries_of (sp_rows sp) s = [])) as ->.
    { unfold zlen. rewrite <- length_entries. by destruct (entries_of (sp_rows sp) s). }
    pose proof (last_version (sp_rows sp) s) as Hl. assert (forall v, _) as Hv by (exact (find_version (sp_rows sp) s)).
    destruct (entries_of (sp_rows sp) s) as [|e0 l0]; [done|]. rewrite (bool_decide_eq_false_2 (e0 :: l0 = [])) by done.
    case_bool_decide; [rewrite Hl|destruct (Atoi ver) as [v|e|]; [rewrite Hv|done..]];
      (match goal with |- context [if ?b then _ else None] => destruct b end; [|done]); match goal with |- context [rows_of ?L s !! ?n] => destruct (rows_of L s !! n) as [[id x]|]; done end.
  - split; [|done]. unfold getByID. set (n := Atoi_value id). destruct (sg_byID r !! n) as [e|] eqn:E.
    + apply R4 in E as [He Ei]. destruct (entry_place _ _ _ He) as (_ & Hb & Hx). rewrite (proj2 (Z.leb_le 1 n)) by lia. rewrite <- Ei, Hx. done.
    + destruct (Z.leb_spec 1 n); [|done]. destruct (sp_rows sp !! Z.to_nat (n - 1)) as [[[s schema] ty]|] eqn:Ex; [|done].
      destruct (place_entry _ _ _ _ _ Ex) as (e & He & Ei & _). exfalso.
      assert (sg_byID r !! n = Some e) as Hc; [|congruence]. apply R4. destruct (entry_place _ _ _ He) as (-> & _). split; [done|lia].
Qed.

(** ** Runs *)

(** A request, with the walk of the map and the fate of the save it may lead to, or
    a restart. *)
Inductive event :=
  | EServe (q : request) (walk : list gostring -> list gostring) (ok : bool)
  | ERestart.

Fixpoint schema_run (r : Registry) (evs : list event) : outcome (list response) :=
  match evs with
  | [] => Ok []
  | EServe q walk ok :: evs =>
      let '(r, a) := schema_serve r q walk ok in
      let? l := schema_run r evs in Ok (a :: l)
  | ERestart :: evs => let? r := Open (sg_file r) in schema_run r evs
  end.

Fixpoint spec_run (hasfile : bool) (sp : spec) (evs : list event) : list response :=
  match evs with
  | [] => []
  | EServe q walk ok :: evs => let '(sp, a) := spec_serve hasfile sp q ok in a :: spec_run hasfile sp evs
  | ERestart :: evs => spec_run hasfile (mkSpec (sp_saved sp) (sp_saved sp)) evs
  end.

Definition event_ok (ev : event) : Prop :=
  match ev with
  | EServe q walk _ => (forall l, walk l ≡ₚ l) /\ request_text q
  | ERestart => True
  end.

Lemma run_represents h r sp evs : represents h r sp -> Forall event_ok evs -> schema_run r evs = Ok (spec_run h sp evs).
Proof.
  intros Hr He. revert r sp Hr. induction He as [|[q walk ok|] evs Hev _ IH]; intros r sp Hr; [done| |].
  - cbn [schema_run spec_run]. destruct Hev as [Hw Ht]. pose proof (serve_represents h r sp q walk ok Hr Hw Ht) as Hs.
    destruct (schema_serve r q walk ok) as [r' a], (spec_serve h sp q ok) as [sp' a']. destruct Hs as [-> Hr']. by rewrite (IH r' sp' Hr').
  - cbn [schema_run spec_run]. destruct Hr as [_ _ _ _ _ _ Hf]. destruct (sg_file r) as [f|]; destruct Hf as [-> Hf].
    + destruct (Open_represents f (sp_saved sp) Hf) as (r' & -> & Hr'). cbn [obind]. by apply IH.
    + rewrite Hf. cbn [Open obind]. apply IH. by apply (empty_represents false None).
Qed.

(** C39: the schema registry implements a list of rows. Through any sequence of
    requests and restarts, with saves that fail or not, every answer is the one
    the list gives: a schema is registered once per subject and type and gets the
    next place as its identifier, under which it is found from then on; its version
    is its place among the rows of its subject, versions are consecutive from 1 and
    the latest is the last; subjects are listed once and in order. A restart goes
    back to the rows of the last registration that was saved, and a registration
    that is not saved is answered with 500. *)
Theorem schema_registry_refines file evs :
  (match file with Some (Some (_ :: _)) => False | _ => True end) -> Forall event_ok evs ->
  exists r, Open file = Ok r /\ schema_run r evs = Ok (spec_run (bool_decide (is_Some file)) (mkSpec [] []) evs).
Proof.
  intros Hf He. destruct file as [f|].
  - destruct (Open_represents f []) as (r & -> & Hr); [by destruct f as [[]|]|]. exists r. split; [done|].
    rewrite bool_decide_eq_true_2 by (by eexists). by apply run_represents.
  - exists New. split; [done|]. rewrite bool_decide_eq_false_2 by (by intros []). apply run_represents; [|done].
    by apply (empty_represents false None).
Qed.
End refines.

(** ** An encoding, and examples *)

#[export] Instance schemaEntry_countable : Countable schemaEntry.
Proof.
  apply (inj_countable' (fun e => (se_ID e, se_Subject e, se_Version e, se_Schema e, se_SchemaType e))
    (fun x => match x with (a, b, c, d, e) => mkEntry a b c d e end)).
  by intros [].
Defined.

#[export] Instance plain_schema_json : SchemaJSON.
Proof.
  refine {| state_json := fun st => x7b :: bits (countable.encode (ps_NextID st, ps_Entries st));
            state_of_json := fun l => match countable.decode (of_bits (drop 1 l)) with Some (n, es) => Ok (mkPersisted n es) | None => Err "json" end;
            text := fun _ => True |}; [done|done|done|].
  intros [n es] _. rewrite skipn_cons, drop_0. by rewrite of_bits_bits, decode_encode.
Defined.

Definition int_schema : gostring := [x22] ++ str "int" ++ [x22].
Definition string_schema : gostring := [x22] ++ str "string" ++ [x22].

Definition as_found (l : list gostring) : list gostring := l.

Definition demo_events : list event :=
  [EServe (QRegister (str "a") (Some (int_schema, []))) as_found true;
   EServe (QRegister (str "b") (Some (int_schema, str "json"))) as_found true;
   EServe (QRegister (str "a") (Some (string_schema, str "AVRO"))) as_found true;
   EServe (QRegister (str "a") (Some (int_schema, str "avro"))) as_found true;
   ERestart;
   EServe (QGetVersion (str "a") (str "latest")) as_found true;
   EServe (QGetByID (str "2")) as_found true;
   EServe (QRegister (str "a") (Some (str "{", []))) as_found true].

Lemma schema_registry_refines_witness :
  exists r, Open (Some None) = Ok r /\
    schema_run r demo_events =
      Ok [(200, AID 1); (200, AID 2); (200, AID 3); (200, AID 1);
          (200, AVersion (mkEntry 3 (str "a") 2 string_schema (str "AVRO"))); (200, ASchema int_schema (str "JSON")); (422, AFail "422")].
Proof.
  destruct (schema_registry_refines (Some None) demo_events) as (r & H1 & H2); [exact I| |].
  - repeat (apply Forall_cons; split; [first [exact I|split; [intros l; reflexivity|first [exact I|split; exact I]]]|]). by apply Forall_nil.
  - exists r. split; [exact H1|]. rewrite H2. vm_compute. reflexivity.
Defined.

(** A registration that could not be saved, repeated, is acknowledged without being
    saved: a restart forgets it. *)
Lemma register_again_not_saved :
  exists r, Open (Some None) = Ok r /\
    schema_run r [EServe (QRegister (str "a") (Some (int_schema, []))) as_found false;
                  EServe (QRegister (str "a") (Some (int_schema, []))) as_found true;
                  ERestart; EServe (QGetByID (str "1")) as_found true]
    = Ok [(500, AFail "500"); (200, AID 1); (404, AFail "40403")].
Proof. eexists. split; [reflexivity|vm_compute; reflexivity]. Qed.

(** [persist] takes its picture of the registry under the lock and writes it
    without: of two registrations at a time the later picture may be written
    first, and the schema it has in addition is lost in a restart. *)
Lemma late_save_loses :
  let r := mkSchemas 1 ∅ ∅ (Some None) in
  let r1 := (add_entry r (str "a") int_schema (str "AVRO")).1 in
  let picture1 := snapshot r1 as_found in
  let r2 := (add_entry r1 (str "b") int_schema (str "AVRO")).1 in
  let picture2 := snapshot r2 as_found in
  let r3 := (saveState r2 picture2 true).1 in
  let r4 := (saveState r3 picture1 true).1 in
  (saveState r2 picture2 true).2 = Ok tt /\ (saveState r3 picture1 true).2 = Ok tt /\
  getByID r4 (str "2") = (200, ASchema int_schema (str "AVRO")) /\
  exists r5, Open (sg_file r4) = Ok r5 /\ getByID r5 (str "2") = (404, AFail "40403").
Proof. cbn zeta. do 3 (split; [vm_compute; reflexivity|]). eexists. split; [vm_compute; reflexivity|vm_compute; reflexivity]. Qed.
