(* ===== verification/WebSession.v ===== *)
(** * Sessions and cookies of the console (internal/web/session.go, auth.go)

    The store of sessions with its clock and random bytes as arguments, the signed
    cookie, and what both guarantee: the store, which forgets expired sessions now
    and then, answers as one that never forgets; a cookie is accepted only as it was
    signed. *)

From stdpp Require Import prelude countable strings gmap list.
From Stdlib Require Import ZArith Lia.
From S2P Require Import Prelude Wire GoStrings GoCrypto Credential.

(** ** The store (session.go) *)

Definition minute : Z := 60000000000.

Record session := mkSession { ss_user : gostring; ss_expires : Z; ss_idle : Z }.

(** [st_lastGC] is [None] before the first collection. *)
Record sessionStore := mkStore {
  st_byID : gmap gostring session;
  st_ttl : Z;
  st_idle : Z;
  st_lastGC : option Z }.

Definition DefaultSessionTTLMinutes : Z := 1440.
Definition DefaultSessionIdleMinutes : Z := 120.

Definition newSessionStore (ttl idle : Z) : sessionStore :=
  let ttl := if ttl <=? 0 then DefaultSessionTTLMinutes * minute else ttl in
  let idle := if idle <=? 0 then DefaultSessionIdleMinutes * minute else idle in
  mkStore ∅ ttl (if ttl <? idle then ttl else idle) None.

Definition set_sessions (st : sessionStore) (m : gmap gostring session) : sessionStore :=
  mkStore m (st_ttl st) (st_idle st) (st_lastGC st).

Definition over (now : Z) (s : session) : bool := (ss_expires s <? now) || (ss_idle s <? now).

Definition gcLocked (st : sessionStore) (now : Z) : sessionStore :=
  if (match st_lastGC st with Some t => now - t <? minute | None => false end) then st
  else mkStore (filter (fun x => over now x.2 = false) (st_byID st)) (st_ttl st) (st_idle st) (Some now).

(** [RawURLEncoding.EncodeToString]: the other alphabet for 62 and 63, no padding. *)
Definition url_char (b : byte) : byte := if bool_decide (b = x2b) then x2d else if bool_decide (b = x2f) then x5f else b.

Definition raw_url_encode (bs : list byte) : gostring :=
  map url_char (List.filter (fun b => negb (bool_decide (b = x3d))) (b64_encode bs)).

(** The identifier, and when the session ends. *)
Definition Create (st : sessionStore) (user : gostring) (now : Z) (raw : list byte) : sessionStore * (gostring * Z) :=
  let id := raw_url_encode raw in
  let st := gcLocked st now in
  (set_sessions st (<[id := mkSession user (now + st_ttl st) (now + st_idle st)]> (st_byID st)), (id, now + st_ttl st)).

Definition Validate (st : sessionStore) (id user : gostring) (now : Z) : sessionStore * bool :=
  if bool_decide (id = []) || bool_decide (user = []) then (st, false) else
  match st_byID st !! id with
  | None => (st, false)
  | Some s =>
      if negb (bool_decide (ss_user s = user)) then (st, false) else
      if over now s then (set_sessions st (delete id (st_byID st)), false) else
      (set_sessions st (<[id := mkSession (ss_user s) (ss_expires s) (now + st_idle st)]> (st_byID st)), true)
  end.

Definition Revoke (st : sessionStore) (id : gostring) : sessionStore :=
  if bool_decide (id = []) then st else set_sessions st (delete id (st_byID st)).

Definition RevokeUser (st : sessionStore) (user : gostring) : sessionStore :=
  set_sessions st (filter (fun x => ss_user x.2 <> user) (st_byID st)).

Definition Active (st : sessionStore) : Z := Z.of_nat (size (st_byID st)).

(** ** A store that never forgets *)

(** When the session was created, and last used. *)
Record rsession := mkRef { rs_user : gostring; rs_created : Z; rs_last : Z }.

Inductive sop :=
  | SCreate (user : gostring) (now : Z) (raw : list byte)
  | SValidate (id user : gostring) (now : Z)
  | SRevoke (id : gostring)
  | SRevokeUser (user : gostring).

(** A session lives for [ttl] after its creation, as long as no more than [idle]
    passes between uses. *)
Definition alive (ttl idle now : Z) (s : rsession) : bool := (now <=? rs_created s + ttl) && (now <=? rs_last s + idle).

Definition ref_step (ttl idle : Z) (m : gmap gostring rsession) (o : sop) : gmap gostring rsession * bool :=
  match o with
  | SCreate user now raw => (<[raw_url_encode raw := mkRef user now now]> m, true)
  | SValidate id user now =>
      match m !! id with
      | Some s =>
          if bool_decide (id <> [] /\ user <> [] /\ rs_user s = user) && alive ttl idle now s
          then (<[id := mkRef (rs_user s) (rs_created s) now]> m, true) else (m, false)
      | None => (m, false)
      end
  | SRevoke id => ((if bool_decide (id = []) then m else delete id m), true)
  | SRevokeUser user => (filter (fun x => rs_user x.2 <> user) m, true)
  end.

Definition sstep (st : sessionStore) (o : sop) : sessionStore * bool :=
  match o with
  | SCreate user now raw => ((Create st user now raw).1, true)
  | SValidate id user now => Validate st id user now
  | SRevoke id => (Revoke st id, true)
  | SRevokeUser user => (RevokeUser st user, true)
  end.

Fixpoint srun (st : sessionStore) (os : list sop) : list bool :=
  match os with
  | [] => []
  | o :: os => let '(st, b) := sstep st o in b :: srun st os
  end.

Fixpoint ref_run (ttl idle : Z) (m : gmap gostring rsession) (os : list sop) : list bool :=
  match os with
  | [] => []
  | o :: os => let '(m, b) := ref_step ttl idle m o in b :: ref_run ttl idle m os
  end.

Definition op_time (o : sop) : option Z :=
  match o with SCreate _ now _ | SValidate _ _ now => Some now | _ => None end.

Fixpoint forward (t : Z) (os : list sop) : Prop :=
  match os with
  | [] => True
  | o :: os => t <= default t (op_time o) /\ forward (default t (op_time o)) os
  end.

(** What the store holds of a session; what it lacks is over. *)
Definition held (ttl idle t : Z) (s : option session) (r : option rsession) : Prop :=
  match s, r with
  | Some s, Some r => ss_user s = rs_user r /\ ss_expires s = rs_created r + ttl /\ ss_idle s = rs_last r + idle
  | None, Some r => alive ttl idle t r = false
  | None, None => True
  | Some _, None => False
  end.

Record matches_ref (t : Z) (st : sessionStore) (m : gmap gostring rsession) : Prop := {
  mr_held id : held (st_ttl st) (st_idle st) t (st_byID st !! id) (m !! id) }.

Lemma alive_mono ttl idle t t' r : t <= t' -> alive ttl idle t r = false -> alive ttl idle t' r = false.
Proof. unfold alive. rewrite !andb_false_iff, !Z.leb_gt. lia. Qed.

Lemma held_mono ttl idle t t' s r : t <= t' -> held ttl idle t s r -> held ttl idle t' s r.
Proof. destruct s, r; cbn; try done. apply alive_mono. Qed.

Lemma held_over ttl idle t s r : held ttl idle t (Some s) (Some r) -> over t s = negb (alive ttl idle t r).
Proof.
  intros (_ & E1 & E2). unfold over, alive. rewrite E1, E2, negb_andb. f_equal; symmetry; rewrite <- Z.ltb_antisym; done.
Qed.

Lemma gc_settings st now : st_ttl (gcLocked st now) = st_ttl st /\ st_idle (gcLocked st now) = st_idle st.
Proof. unfold gcLocked. by destruct (match st_lastGC st with Some t => _ | None => _ end). Qed.

Lemma gc_matches t st m : matches_ref t st m -> matches_ref t (gcLocked st t) m.
Proof.
  intros [H]. constructor. intros id. destruct (gc_settings st t) as [-> ->]. specialize (H id). unfold gcLocked.
  destruct (match st_lastGC st with Some _ => _ | None => _ end); [done|]. cbn. rewrite map_lookup_filter.
  destruct (st_byID st !! id) as [s|]; cbn; [|done]. destruct (over t s) eqn:E.
  - rewrite option_guard_False by congruence. destruct (m !! id) as [r|]; [|done]. rewrite (held_over _ _ _ _ _ H) in E. by apply negb_true_iff in E.
  - by rewrite option_guard_True.
Qed.

Lemma later_matches t t' st m : t <= t' -> matches_ref t st m -> matches_ref t' st m.
Proof. intros Ht [H]. constructor. intros id. by eapply held_mono. Qed.

Lemma sstep_matches t st m o :
  let t' := default t (op_time o) in
  matches_ref t st m -> t <= t' ->
  let '(st', b) := sstep st o in let '(m', b') := ref_step (st_ttl st) (st_idle st) m o in
  b = b' /\ matches_ref t' st' m' /\ st_ttl st' = st_ttl st /\ st_idle st' = st_idle st.
Proof.
  intros t' Hm Ht. apply (later_matches t t') in Hm; [|done]. unfold t' in *. clear Ht t'.
  destruct o as [user now raw|id user now|id|user]; cbn [op_time sstep ref_step] in *;
    try change (default t (Some now)) with now in *; try change (default t None) with t in *.
  - cbn [Create fst]. destruct (gc_settings st now) as [E1 E2]. pose proof (gc_matches now st m Hm) as [H]. rewrite E1, E2 in H.
    split; [done|]. split; [|done]. constructor. intros id. cbn. rewrite E1, E2.
    destruct (decide (raw_url_encode raw = id)) as [<-|Hne]; [rewrite !lookup_insert_eq; done|rewrite !lookup_insert_ne by done; apply H].
  - unfold Validate. pose proof (mr_held _ _ _ Hm id) as Hid.
    destruct (bool_decide (id = []) || bool_decide (user = [])) eqn:Ee.
    { destruct (m !! id) as [r|]; [|done]. rewrite bool_decide_eq_false_2; [done|].
      apply orb_true_iff in Ee as [E%bool_decide_eq_true_1|E%bool_decide_eq_true_1]; naive_solver. }
    apply orb_false_iff in Ee as [N1%bool_decide_eq_false_1 N2%bool_decide_eq_false_1].
    destruct (st_byID st !! id) as [s|] eqn:Es, (m !! id) as [r|] eqn:Er; cbn [held] in Hid; [|done| |done].
    + destruct Hid as (Eu & E1 & E2). rewrite Eu. case_bool_decide as Hu; cbn [negb];
        [rewrite bool_decide_eq_true_2 by done|rewrite bool_decide_eq_false_2 by naive_solver; done].
      assert (over now s = negb (alive (st_ttl st) (st_idle st) now r)) as -> by (by apply held_over).
      destruct (alive (st_ttl st) (st_idle st) now r) eqn:Ea; cbn [negb andb].
      * split; [done|]. split; [|done]. constructor. intros i. cbn. destruct (decide (id = i)) as [<-|Hne].
        -- rewrite !lookup_insert_eq. cbn. by rewrite Hu.
        -- rewrite !lookup_insert_ne by done. apply Hm.
      * split; [done|]. split; [|done]. constructor. intros i. cbn. destruct (decide (id = i)) as [<-|Hne].
        -- by rewrite lookup_delete_eq, Er.
        -- rewrite lookup_delete_ne by done. apply Hm.
    + rewrite Hid, andb_false_r. done.
  - unfold Revoke. case_bool_decide; [done|]. split; [done|]. split; [|done]. constructor. intros i. cbn.
    destruct (decide (id = i)) as [<-|Hne]; [by rewrite !lookup_delete_eq|rewrite !lookup_delete_ne by done; apply Hm].
  - split; [done|]. split; [|done]. constructor. intros i. cbn. rewrite !map_lookup_filter. pose proof (mr_held _ _ _ Hm i) as Hi.
    destruct (st_byID st !! i) as [s|], (m !! i) as [r|]; cbn in Hi |- *; [|done| |done].
    + destruct Hi as (Eu & E1 & E2). rewrite Eu. destruct (decide (rs_user r = user)).
      * rewrite !option_guard_False by naive_solver. done.
      * rewrite !option_guard_True by done. done.
    + destruct (decide (rs_user r = user)); [by rewrite option_guard_False by naive_solver|by rewrite option_guard_True].
Qed.

(** C37: the store of sessions answers as one that keeps every session for ever. It
    collects expired sessions at most once a minute when one is created, and drops
    one that it finds expired; whatever is created, used and revoked at times that do
    not go back, a session is accepted exactly if it was created for that user, not
    revoked since, its whole time is not over, and no more than the idle time lies
    between its uses and before this one. *)
Theorem sessions_as_reference ttl idle t os :
  forward t os ->
  srun (newSessionStore ttl idle) os =
    ref_run (st_ttl (newSessionStore ttl idle)) (st_idle (newSessionStore ttl idle)) ∅ os.
Proof.
  assert (forall st m, matches_ref t st m -> forward t os -> srun st os = ref_run (st_ttl st) (st_idle st) m os) as H; [|intros Hf; apply H; [|done]].
  - revert t. induction os as [|o os IH]; intros t st m Hm Hf; [done|]. destruct Hf as [Ht Hf]. cbn [srun ref_run].
    pose proof (sstep_matches t st m o Hm Ht) as Hs. destruct (sstep st o) as [st' b], (ref_step (st_ttl st) (st_idle st) m o) as [m' b'].
    destruct Hs as (-> & Hm' & E1 & E2). f_equal. rewrite <- E1, <- E2. by apply (IH (default t (op_time o))).
  - constructor. intros id. by rewrite lookup_empty.
Qed.

Definition demo_ops : list sop :=
  [SCreate (str "ann") 0 [x01; x02; x03]; SValidate (str "AQID") (str "ann") (100 * minute); SValidate (str "AQID") (str "bob") (101 * minute);
   SCreate (str "bob") (200 * minute) [x04; x05; x06]; SValidate (str "AQID") (str "ann") (210 * minute);
   SValidate (str "BAUG") (str "bob") (330 * minute); SRevoke (str "AQID"); SValidate (str "AQID") (str "ann") (331 * minute)].

Lemma sessions_as_reference_witness :
  forward 0 demo_ops /\ srun (newSessionStore 0 0) demo_ops = [true; true; false; true; true; false; true; false].
Proof.
  assert (forward 0 demo_ops) as Hf by (vm_compute; repeat split; discriminate). split; [exact Hf|].
  rewrite (sessions_as_reference 0 0 0 demo_ops Hf). vm_compute. reflexivity.
Defined.

(** ** The cookie (auth.go) *)

Definition signToken (payload secret : gostring) : gostring :=
  payload ++ [x2e] ++ raw_url_encode (hmac sha256 secret payload).

Definition verifyToken (token secret : gostring) : gostring * bool :=
  match LastIndex token [x2e] with
  | None => ([], false)
  | Some idx =>
      let payload := take idx token in
      let sig := drop (S idx) token in
      (payload, bool_decide (signToken payload secret = payload ++ [x2e] ++ sig))
  end.

Definition bar : byte := x7c.

(** [exp.Unix()] is a whole number of seconds. *)
Definition sessionPayload (user : gostring) (exp : Z) (id : gostring) : gostring :=
  user ++ [bar] ++ itoa (exp / 1000000000) ++ [bar] ++ id.

Definition parseSessionPayload (payload : gostring) : option (gostring * gostring * Z) :=
  match Split payload bar with
  | [user; secs; id] =>
      if bool_decide (user = []) || bool_decide (id = []) then None else
      match Atoi secs with
      | Ok n => Some (user, id, n * 1000000000)
      | _ => None
      end
  | _ => None
  end.

(** The alphabet of the encoding has neither separator. *)
Lemma raw_url_chars bs : Forall (fun b => b <> x2e /\ b <> bar) (raw_url_encode bs).
Proof.
  unfold raw_url_encode. apply Forall_forall. intros b Hb. apply list_elem_of_fmap in Hb as (c & -> & Hc).
  apply list_elem_of_In, List.filter_In in Hc as [Hc _]. apply list_elem_of_In in Hc.
  assert (forall bs, Forall (fun b => b <> x2e /\ b <> bar) (b64_encode bs)) as Hall.
  { clear. assert (forall d, 0 <= d < 64 -> b64_char d <> x2e /\ b64_char d <> bar) as Hd.
    { intros d Hd. assert (forallb (fun i => bool_decide (b64_char (Z.of_nat i) <> x2e /\ b64_char (Z.of_nat i) <> bar)) (seq 0 64) = true) as H
        by (vm_compute; reflexivity).
      rewrite forallb_forall in H. specialize (H (Z.to_nat d)). rewrite Z2Nat.id in H by lia. eapply bool_decide_eq_true_1, H, in_seq. lia. }
    intros bs. assert (forall n bs, (length bs <= n)%nat -> Forall (fun b => b <> x2e /\ b <> bar) (b64_encode bs)) as H; [|by eapply H].
    clear bs. induction n as [|n IH]; intros bs Hl; [destruct bs; [constructor|cbn in Hl; lia]|].
    destruct bs as [|a [|b [|c r]]]; cbn [b64_encode]; [constructor| | |].
    - pose proof (b2z_range a). do 2 (constructor; [apply Hd; Z.to_euclidean_division_equations; lia|]). by repeat constructor.
    - pose proof (b2z_range a). pose proof (b2z_range b).
      do 3 (constructor; [apply Hd; Z.to_euclidean_division_equations; lia|]). by repeat constructor.
    - pose proof (b2z_range a). pose proof (b2z_range b). pose proof (b2z_range c).
      do 4 (constructor; [apply Hd; Z.to_euclidean_division_equations; lia|]). apply IH. cbn in Hl. lia. }
  specialize (Hall bs). rewrite Forall_forall in Hall. destruct (Hall c Hc) as [N1 N2]. unfold url_char.
  case_bool_decide; [done|]. by case_bool_decide.
Qed.

Lemma LastIndex_last p s : Forall (fun b => b <> x2e) s -> LastIndex (p ++ [x2e] ++ s) [x2e] = Some (length p).
Proof.
  intros Hs. assert (LastIndex s [x2e] = None) as Hn.
  { induction Hs as [|b s Hb Hs IH]; [done|]. cbn [LastIndex]. rewrite IH. unfold HasPrefix. rewrite bool_decide_eq_false_2; [done|]. cbn. congruence. }
  induction p as [|b p IH].
  - cbn [app LastIndex length]. rewrite Hn. done.
  - cbn [app length]. change (b :: p ++ x2e :: s) with (b :: (p ++ [x2e] ++ s)). cbn [LastIndex]. by rewrite IH.
Qed.

(** What is signed is accepted. *)
Lemma verify_sign payload secret : verifyToken (signToken payload secret) secret = (payload, true).
Proof.
  unfold verifyToken, signToken at 1. rewrite LastIndex_last.
  - unfold signToken. rewrite take_app_length. f_equal. apply bool_decide_eq_true_2.
    f_equal. replace (S (length payload)) with (length payload + 1)%nat by lia. by rewrite drop_app_add.
  - eapply Forall_impl; [apply raw_url_chars|]. by intros b [? _].
Qed.

Lemma LastIndex_split s i : LastIndex s [x2e] = Some i -> s = take i s ++ [x2e] ++ drop (S i) s.
Proof.
  revert i. induction s as [|b s IH]; intros i; [done|]. cbn [LastIndex]. destruct (LastIndex s [x2e]) as [k|].
  - intros [= <-]. cbn. f_equal. by apply IH.
  - unfold HasPrefix. case_bool_decide as E; [|done]. intros [= <-]. cbn in E. cbn. by injection E as ->.
Qed.

(** Only what is signed is accepted. *)
Lemma verify_only_signed token secret payload : verifyToken token secret = (payload, true) -> token = signToken payload secret.
Proof.
  unfold verifyToken. destruct (LastIndex token [x2e]) as [i|] eqn:E; [|done].
  intros [<- Hs%bool_decide_eq_true_1]%pair_equal_spec. rewrite Hs. by apply LastIndex_split.
Qed.

Lemma parse_payload user exp id :
  user <> [] -> id <> [] -> Forall (fun b => b <> bar) user -> Forall (fun b => b <> bar) id -> 0 <= exp < 2 ^ 63 ->
  parseSessionPayload (sessionPayload user exp id) = Some (user, id, exp / 1000000000 * 1000000000).
Proof.
  intros Hu Hi Fu Fi He. unfold parseSessionPayload, sessionPayload, Split.
  assert (0 <= exp / 1000000000 < 2 ^ 63) as Hd.
  { split; [apply Z.div_pos; lia|]. apply Z.div_lt_upper_bound; lia. }
  cbn [app]. rewrite split_from_app by done.
  assert (Forall (fun b => b <> bar) (itoa (exp / 1000000000))) as Fn.
  { eapply Forall_impl; [apply (itoa_digits (exp / 1000000000)); lia|]. cbn. intros b Hb ->. cbn in Hb. lia. }
  rewrite split_from_app by done. rewrite split_from_plain by done. cbn [app].
  rewrite !bool_decide_eq_false_2 by done. cbn [orb]. by rewrite Atoi_itoa.
Qed.

(** A user whose name has a bar in it can log in, and is not known afterwards. *)
Lemma bar_in_name : parseSessionPayload (sessionPayload (str "a|b") 0 (str "id")) = None.
Proof. vm_compute. reflexivity. Qed.
