(* ===== verification/WebTokens.v ===== *)
(** * Delegated tokens of the console (internal/web/delegated_tokens.go)

    Bearer tokens that act for a user, of which the store keeps the SHA-256 digests,
    in memory and in a file. Random bytes and the fate of a save are arguments; a
    save replaces the file as a whole or fails, and what cannot be saved is taken
    back. *)

From stdpp Require Import prelude countable strings gmap list.
From Stdlib Require Import ZArith Lia.
From S2P Require Import Prelude Wire GoStrings GoCrypto GoJson WebSession.

Record delegatedTokenRecord := mkToken { dt_ID : gostring; dt_Principal : gostring; dt_Digest : gostring }.

#[export] Instance delegatedTokenRecord_eq_dec : EqDecision delegatedTokenRecord.
Proof. solve_decision. Defined.

(** [ds_file]: [None] without a path, the bytes of the file if there is one. *)
Record delegatedTokenStore := mkTokens {
  ds_file : option (option (list byte));
  ds_records : gmap gostring delegatedTokenRecord;
  ds_byDigest : gmap gostring gostring;
  ds_loadErr : bool }.

Definition is_hex (b : byte) : bool :=
  let c := b2z b in ((48 <=? c) && (c <=? 57)) || ((97 <=? c) && (c <=? 102)) || ((65 <=? c) && (c <=? 70)).

(** [hex.DecodeString] succeeds with 32 bytes. *)
Definition hex_of_32 (s : gostring) : bool := (zlen s =? 64) && forallb is_hex s.

Definition digest_of (raw : gostring) : gostring := hex_encode (Sum sha256 raw).

Section tokens.
Context {TJ : Json (list delegatedTokenRecord)}.

(** The records of the file, one by one; [None] is an error. *)
Fixpoint load_records (l : list delegatedTokenRecord) (records : gmap gostring delegatedTokenRecord) (byDigest : gmap gostring gostring)
  : option (gmap gostring delegatedTokenRecord * gmap gostring gostring) :=
  match l with
  | [] => Some (records, byDigest)
  | r :: l =>
      if bool_decide (dt_ID r = []) || bool_decide (dt_Principal r = []) || negb (hex_of_32 (dt_Digest r)) then None else
      match records !! dt_ID r, byDigest !! dt_Digest r with
      | None, None => load_records l (<[dt_ID r := r]> records) (<[dt_Digest r := dt_ID r]> byDigest)
      | _, _ => None
      end
  end.

Definition newDelegatedTokenStore (file : option (option (list byte))) : delegatedTokenStore :=
  match file with
  | None | Some None => mkTokens file ∅ ∅ false
  | Some (Some data) =>
      match of_json (A := list delegatedTokenRecord) data with
      | Ok l =>
          match load_records l ∅ ∅ with
          | Some (records, byDigest) => mkTokens file records byDigest false
          | None => mkTokens file ∅ ∅ true
          end
      | _ => mkTokens file ∅ ∅ true
      end
  end.

Definition persistLocked (s : delegatedTokenStore) (ok : bool) : delegatedTokenStore * outcome unit :=
  match ds_file s with
  | None => (s, Ok tt)
  | Some _ =>
      if ok then
        (mkTokens (Some (Some (to_json (sort_by dt_ID (map_to_list (ds_records s)).*2)))) (ds_records s) (ds_byDigest s) (ds_loadErr s), Ok tt)
      else (s, Err "persist delegated tokens")
  end.

Definition set_tokens (s : delegatedTokenStore) (records : gmap gostring delegatedTokenRecord) (byDigest : gmap gostring gostring)
  : delegatedTokenStore := mkTokens (ds_file s) records byDigest (ds_loadErr s).

Definition token_id (entropy : list byte) : gostring := str "dt_" ++ raw_url_encode (take 16 entropy).
Definition token_raw (entropy : list byte) : gostring := str "pka_" ++ raw_url_encode (drop 16 entropy).

Definition Issue (s : delegatedTokenStore) (principal : gostring) (entropy : list byte) (ok : bool)
  : delegatedTokenStore * outcome (gostring * gostring) :=
  let principal := TrimSpace principal in
  if bool_decide (principal = []) then (s, Err "principal is required") else
  let id := token_id entropy in
  let raw := token_raw entropy in
  let record := mkToken id principal (digest_of raw) in
  if ds_loadErr s then (s, Err "decode delegated tokens") else
  match ds_records s !! id with
  | Some _ => (s, Err "delegated token ID collision")
  | None =>
      let s1 := set_tokens s (<[id := record]> (ds_records s)) (<[dt_Digest record := id]> (ds_byDigest s)) in
      match persistLocked s1 ok with
      | (s2, Ok _) => (s2, Ok (id, raw))
      | (s2, Err e) => (set_tokens s2 (delete id (ds_records s2)) (delete (dt_Digest record) (ds_byDigest s2)), Err e)
      | (s2, Panic) => (s2, Panic)
      end
  end.

Definition Principal (s : delegatedTokenStore) (raw : gostring) : option gostring :=
  if ds_loadErr s then None else
  match ds_byDigest s !! digest_of raw with
  | None => None
  | Some id => dt_Principal <$> ds_records s !! id
  end.

(** Identifiers and principals. *)
Definition List_ (s : delegatedTokenStore) : list (gostring * gostring) :=
  if ds_loadErr s then [] else map (fun r => (dt_ID r, dt_Principal r)) (sort_by dt_ID (map_to_list (ds_records s)).*2).

Definition errUnknownDelegatedToken : string := "unknown delegated token".

Definition Revoke_token (s : delegatedTokenStore) (id : gostring) (ok : bool) : delegatedTokenStore * outcome unit :=
  if ds_loadErr s then (s, Err "decode delegated tokens") else
  match ds_records s !! id with
  | None => (s, Err errUnknownDelegatedToken)
  | Some record =>
      let s1 := set_tokens s (delete id (ds_records s)) (delete (dt_Digest record) (ds_byDigest s)) in
      match persistLocked s1 ok with
      | (s2, Ok _) => (s2, Ok tt)
      | (s2, Err e) => (set_tokens s2 (<[id := record]> (ds_records s2)) (<[dt_Digest record := id]> (ds_byDigest s2)), Err e)
      | (s2, Panic) => (s2, Panic)
      end
  end.
End tokens.

(** ** Tokens as a map

    From digests to the identifier and the principal of the token. *)

Inductive tev :=
  | TIssue (principal : gostring) (entropy : list byte) (ok : bool)
  | TRevoke (id : gostring) (ok : bool)
  | TPrincipal (raw : gostring)
  | TRestart.

Inductive tout :=
  | OIssued (t : option (gostring * gostring))
  | ORevoked (done : bool)
  | OPrincipal (p : option gostring)
  | ORestarted.

Notation tspec := (gmap gostring (gostring * gostring)).

Definition has_id (T : tspec) (id : gostring) : bool := bool_decide (filter (fun x => x.2.1 = id) T <> ∅).

Definition tspec_step (hasfile : bool) (T : tspec) (ev : tev) : tspec * tout :=
  match ev with
  | TIssue principal entropy ok =>
      if bool_decide (TrimSpace principal = []) || has_id T (token_id entropy) || (hasfile && negb ok) then (T, OIssued None)
      else (<[digest_of (token_raw entropy) := (token_id entropy, TrimSpace principal)]> T, OIssued (Some (token_id entropy, token_raw entropy)))
  | TRevoke id ok =>
      if negb (has_id T id) || (hasfile && negb ok) then (T, ORevoked false) else (filter (fun x => x.2.1 <> id) T, ORevoked true)
  | TPrincipal raw => (T, OPrincipal (snd <$> T !! digest_of raw))
  | TRestart => (if hasfile then T else ∅, ORestarted)
  end.

Fixpoint tspec_run (hasfile : bool) (T : tspec) (evs : list tev) : list tout :=
  match evs with
  | [] => []
  | ev :: evs => let '(T, o) := tspec_step hasfile T ev in o :: tspec_run hasfile T evs
  end.

Section refines.
Context {TJ : Json (list delegatedTokenRecord)}.

Definition tstep (s : delegatedTokenStore) (ev : tev) : delegatedTokenStore * tout :=
  match ev with
  | TIssue principal entropy ok =>
      let '(s, o) := Issue s principal entropy ok in (s, OIssued (match o with Ok t => Some t | _ => None end))
  | TRevoke id ok => let '(s, o) := Revoke_token s id ok in (s, ORevoked (match o with Ok _ => true | _ => false end))
  | TPrincipal raw => (s, OPrincipal (Principal s raw))
  | TRestart => (newDelegatedTokenStore (ds_file s), ORestarted)
  end.

Fixpoint trun (s : delegatedTokenStore) (evs : list tev) : list tout :=
  match evs with
  | [] => []
  | ev :: evs => let '(s, o) := tstep s ev in o :: trun s evs
  end.

(** Principals that JSON keeps. *)
Context (clean : gostring -> Prop) (json_keeps : forall l, Forall (fun r => clean (dt_Principal r)) l -> jsonable l).

Record token_ok (d id p : gostring) : Prop := {
  tk_id : id <> [];
  tk_principal : p <> [];
  tk_digest : hex_of_32 d = true;
  tk_clean : clean p }.

(** The three maps say the same. *)
Record tables (R : gmap gostring delegatedTokenRecord) (B : gmap gostring gostring) (T : tspec) : Prop := {
  tb_records id r : R !! id = Some r <-> dt_ID r = id /\ T !! dt_Digest r = Some (id, dt_Principal r);
  tb_digests d id : B !! d = Some id <-> exists p, T !! d = Some (id, p);
  tb_unique d d' id p p' : T !! d = Some (id, p) -> T !! d' = Some (id, p') -> d = d';
  tb_ok d id p : T !! d = Some (id, p) -> token_ok d id p }.

Definition saved_as (R : gmap gostring delegatedTokenRecord) (f : option (list byte)) : Prop :=
  match f with
  | None => R = ∅
  | Some data => data = to_json (sort_by dt_ID (map_to_list R).*2)
  end.

Record tokens_rep (hasfile : bool) (s : delegatedTokenStore) (T : tspec) : Prop := {
  tr_good : ds_loadErr s = false;
  tr_tables : tables (ds_records s) (ds_byDigest s) T;
  tr_file : match ds_file s with None => hasfile = false | Some f => hasfile = true /\ saved_as (ds_records s) f end }.

Lemma has_id_spec (T : tspec) (id : gostring) : has_id T id = true <-> exists d p, T !! d = Some (id, p).
Proof.
  unfold has_id. rewrite bool_decide_eq_true. split.
  - intros Hne. destruct (map_choose _ Hne) as (d & [i p] & [Hd E]%map_lookup_filter_Some). cbn in E. subst i. by exists d, p.
  - intros (d & p & Hd) E. assert (filter (fun x => x.2.1 = id) T !! d = Some (id, p)) as Hf by (by apply map_lookup_filter_Some).
    rewrite E in Hf. done.
Qed.

Lemma has_id_records R B T id : tables R B T -> has_id T id = bool_decide (is_Some (R !! id)).
Proof.
  intros [T1 T2 T3 T4]. apply eq_true_iff_eq. rewrite has_id_spec, bool_decide_eq_true. split.
  - intros (d & p & Hd). exists (mkToken id p d). by apply T1.
  - intros [r [<- Hr]%T1]. by eexists _, _.
Qed.

Lemma tables_empty : tables ∅ ∅ ∅.
Proof. split; intros; [split; [done|intros [_ ?]; done]|split; [done|intros [? ?]; done]|done|done]. Qed.

Lemma tables_insert R B T id p d :
  tables R B T -> R !! id = None -> T !! d = None -> token_ok d id p ->
  tables (<[id := mkToken id p d]> R) (<[d := id]> B) (<[d := (id, p)]> T).
Proof.
  intros [T1 T2 T3 T4] Hid Hd Hok.
  assert (forall d' p', T !! d' <> Some (id, p')) as Hno.
  { intros d' p' Hx. assert (R !! id = Some (mkToken id p' d')) by (by apply T1). congruence. }
  split.
  - intros i r. rewrite !lookup_insert_Some, T1. split.
    + intros [[<- <-]|(Hne & <- & Hr)]; [split; [done|by left]|]. split; [done|]. right. split; [|done]. intros E. rewrite <- E in Hr. congruence.
    + intros [Ei [[Ed Ep]|[Hne Hr]]].
      * left. injection Ep as -> ->. split; [done|]. destruct r. cbn in *. by subst.
      * right. split; [|done]. intros <-. by destruct (Hno _ _ Hr).
  - intros d' i. rewrite lookup_insert_Some, T2. split.
    + intros [[<- <-]|[Hne [p' Hp]]]; [exists p; by rewrite lookup_insert_eq|]. exists p'. by rewrite lookup_insert_ne.
    + intros [p' [[<- [= -> _]]|[Hne Hp]]%lookup_insert_Some]; [by left|]. right. split; [done|]. by exists p'.
  - intros d1 d2 i p1 p2 [[<- [= <- <-]]|[N1 H1]]%lookup_insert_Some [[<- E2]|[N2 H2]]%lookup_insert_Some; [done| | |by eapply T3].
    + by destruct (Hno _ _ H2).
    + injection E2 as <- <-. by destruct (Hno _ _ H1).
  - intros d' i p' [[<- [= <- <-]]|[Hne H']]%lookup_insert_Some; [done|by apply T4].
Qed.

Lemma tables_delete R B T id r :
  tables R B T -> R !! id = Some r -> tables (delete id R) (delete (dt_Digest r) B) (filter (fun x => x.2.1 <> id) T).
Proof.
  intros [T1 T2 T3 T4] Hr. pose proof (proj1 (T1 id r) Hr) as [Ei Hd].
  assert (forall d i p, filter (fun x : gostring * (gostring * gostring) => x.2.1 <> id) T !! d = Some (i, p) <-> T !! d = Some (i, p) /\ i <> id) as Hf.
  { intros d i p. by rewrite map_lookup_filter_Some. }
  split.
  - intros i x. rewrite lookup_delete_Some, T1, Hf. naive_solver.
  - intros d i. rewrite lookup_delete_Some, T2. setoid_rewrite Hf. split.
    + intros [Hne [p Hp]]. exists p. split; [done|]. intros ->. by destruct Hne; eapply T3.
    + intros [p [Hp Hne]]. split; [|by exists p]. intros E. rewrite E, Hp in Hd. congruence.
  - intros d d' i p p' [H1 _]%Hf [H2 _]%Hf. by eapply T3.
  - intros d i p [H1 _]%Hf. by apply T4.
Qed.

(** Reading what was written. *)
Lemma load_records_tables l R B T :
  tables R B T -> NoDup (map dt_ID l) -> NoDup (map dt_Digest l) -> Forall (fun r => token_ok (dt_Digest r) (dt_ID r) (dt_Principal r)) l ->
  Forall (fun r => R !! dt_ID r = None /\ T !! dt_Digest r = None) l ->
  exists R' B' T', load_records l R B = Some (R', B') /\ tables R' B' T' /\
    forall d x, T' !! d = Some x <-> T !! d = Some x \/ exists r, r ∈ l /\ dt_Digest r = d /\ x = (dt_ID r, dt_Principal r).
Proof.
  revert R B T. induction l as [|r l IH]; intros R B T Ht N1 N2 Hok Hnew.
  { exists R, B, T. split_and!; [done|done|]. intros d x. split; [by left|]. intros [?|(r & Hr & _)]; [done|by apply not_elem_of_nil in Hr]. }
  cbn [map] in N1, N2. apply NoDup_cons in N1 as [N1 N1'], N2 as [N2 N2']. apply Forall_cons in Hok as [Hr Hok], Hnew as [[F1 F2] Hnew].
  cbn [load_records]. destruct Hr as [K1 K2 K3 K4] eqn:Ek. rewrite !bool_decide_eq_false_2 by done. rewrite K3. cbn [orb negb]. rewrite F1.
  assert (B !! dt_Digest r = None) as ->.
  { destruct (B !! dt_Digest r) as [i|] eqn:E; [|done]. apply (tb_digests _ _ _ Ht) in E as [p Hp]. congruence. }
  pose proof (tables_insert R B T (dt_ID r) (dt_Principal r) (dt_Digest r) Ht F1 F2 Hr) as Ht'.
  replace (mkToken (dt_ID r) (dt_Principal r) (dt_Digest r)) with r in Ht' by (by destruct r).
  destruct (IH _ _ _ Ht' N1' N2' Hok) as (R' & B' & T' & -> & Ht2 & Hx).
  - rewrite Forall_forall in Hnew |- *. intros y Hy. destruct (Hnew y Hy). rewrite !lookup_insert_ne; [done| |].
    + intros E. apply N2. rewrite E. by apply list_elem_of_fmap_2.
    + intros E. apply N1. rewrite E. by apply list_elem_of_fmap_2.
  - exists R', B', T'. split_and!; [done|done|]. intros d x. rewrite Hx, lookup_insert_Some. split.
    + intros [[[<- <-]|[_ ?]]|(y & Hy & Ey)]; [right; exists r; split; [by left|done]|by left|right; exists y; split; [by right|done]].
    + intros [Hd|(y & [->|Hy]%elem_of_cons & <- & ->)]; [|left; by left|right; by exists y]. left. right. split; [|done]. intros <-. congruence.
Qed.

Lemma values_NoDup_ids R B T : tables R B T -> NoDup (map dt_ID (map_to_list R).*2) /\ NoDup (map dt_Digest (map_to_list R).*2).
Proof.
  intros [T1 T2 T3 T4]. split.
  - assert (map dt_ID (map_to_list R).*2 = (map_to_list R).*1) as ->; [|apply NoDup_fst_map_to_list].
    apply list_eq. intros k. rewrite !list_lookup_fmap. destruct (map_to_list R !! k) as [[i r]|] eqn:E; [|done]. cbn.
    apply list_elem_of_lookup_2, elem_of_map_to_list in E. by apply T1 in E as [-> _].
  - apply NoDup_fmap_2_strong; [|].
    + intros r r' Hr Hr' E. apply list_elem_of_fmap in Hr as ([i x] & -> & Hr%elem_of_map_to_list), Hr' as ([i' x'] & -> & Hr'%elem_of_map_to_list).
      cbn in *. apply T1 in Hr as [E1 Hr], Hr' as [E2 Hr']. rewrite E, Hr' in Hr. injection Hr as -> Ep. destruct x, x'. cbn in *. congruence.
    + apply NoDup_fmap_2_strong; [|apply NoDup_map_to_list]. intros [i x] [i' x'] H1%elem_of_map_to_list H2%elem_of_map_to_list E. cbn in E. subst x'.
      apply T1 in H1 as [<- _], H2 as [<- _]. done.
Qed.

Lemma restart_rep hasfile s T : tokens_rep hasfile s T -> tokens_rep hasfile (newDelegatedTokenStore (ds_file s)) (if hasfile then T else ∅).
Proof.
  intros [H1 Ht Hf]. unfold newDelegatedTokenStore. destruct (ds_file s) as [[data|]|] eqn:Ef.
  - destruct Hf as [-> Hs]. cbn in Hs. set (l := sort_by dt_ID (map_to_list (ds_records s)).*2) in *.
    assert (l ≡ₚ (map_to_list (ds_records s)).*2) as Hp by apply sort_by_perm.
    assert (forall r, r ∈ l -> token_ok (dt_Digest r) (dt_ID r) (dt_Principal r) /\ T !! dt_Digest r = Some (dt_ID r, dt_Principal r)) as Hin.
    { intros r. rewrite Hp. intros ([i x] & -> & Hx%elem_of_map_to_list)%list_elem_of_fmap. cbn.
      apply (tb_records _ _ _ Ht) in Hx as [-> Hx]. split; [|done]. by apply (tb_ok _ _ _ Ht). }
    subst data. rewrite of_to_json by (apply json_keeps, Forall_forall; intros r Hr; apply (tk_clean _ _ _ (proj1 (Hin r Hr)))).
    destruct (values_NoDup_ids _ _ _ Ht) as [N1 N2].
    destruct (load_records_tables l ∅ ∅ ∅) as (R' & B' & T' & -> & Ht' & Hx); [apply tables_empty|by rewrite Hp|by rewrite Hp| | |].
    + apply Forall_forall. intros r Hr. apply (Hin r Hr).
    + by apply Forall_forall.
    + assert (T' = T) as ->.
      { apply map_eq. intros d. apply option_eq. intros [i p]. rewrite Hx. split.
        - intros [?|(r & Hr & <- & ->)]; [done|]. apply (Hin r Hr).
        - intros Hd. right. exists (mkToken i p d). split_and!; [|done|done]. rewrite Hp. apply list_elem_of_fmap. exists (i, mkToken i p d).
          split; [done|]. apply elem_of_map_to_list. by apply (tb_records _ _ _ Ht). }
      assert (R' = ds_records s) as ->.
      { apply map_eq. intros i. apply option_eq. intros r. by rewrite (tb_records _ _ _ Ht'), (tb_records _ _ _ Ht). }
      by split.
  - destruct Hf as [-> Hs]. cbn in Hs. assert (T = ∅) as ->.
    { apply map_empty. intros d. destruct (T !! d) as [[i p]|] eqn:E; [|done]. assert (ds_records s !! i = Some (mkToken i p d)) as Hc by (by apply (tb_records _ _ _ Ht)).
      by rewrite Hs in Hc. }
    split; [done|apply tables_empty|done].
  - subst hasfile. split; [done|apply tables_empty|done].
Qed.

Lemma persist_cases hasfile R B f ok :
  (match f with None => hasfile = false | Some _ => hasfile = true end) ->
  if hasfile && negb ok then persistLocked (mkTokens f R B false) ok = (mkTokens f R B false, Err "persist delegated tokens")
  else exists f', persistLocked (mkTokens f R B false) ok = (mkTokens f' R B false, Ok tt) /\
    match f' with None => hasfile = false | Some f' => hasfile = true /\ saved_as R f' end.
Proof. unfold persistLocked. destruct f as [f|]; intros ->; cbn; [destruct ok|]; cbn; [by eexists|done|by exists None]. Qed.

Lemma hex_digit_is_hex n : 0 <= n < 16 -> is_hex (hex_digit n) = true.
Proof.
  intros Hn. assert (forallb (fun i => is_hex (hex_digit (Z.of_nat i))) (seq 0 16) = true) as H by (vm_compute; reflexivity).
  rewrite forallb_forall in H. specialize (H (Z.to_nat n)). rewrite Z2Nat.id in H by lia. apply H, in_seq. lia.
Qed.

Lemma digest_hex raw : hex_of_32 (digest_of raw) = true.
Proof.
  unfold hex_of_32, digest_of. pose proof (length_Sum sha256 raw eq_refl) as Hl. change (HashSize sha256) with 32%nat in Hl.
  assert (forall bs, zlen (hex_encode bs) = 2 * zlen bs /\ forallb is_hex (hex_encode bs) = true) as H.
  { induction bs as [|b bs [IH1 IH2]]; [done|]. unfold hex_encode in *. cbn [map]. rewrite mjoin_cons, zlen_app, IH1, zlen_cons. split; [unfold zlen; cbn [length]; lia|].
    rewrite forallb_app, IH2. pose proof (b2z_range b). cbn. rewrite !hex_digit_is_hex; [done|apply Z.mod_pos_bound; lia|].
    split; [apply Z.div_pos; lia|apply Z.div_lt_upper_bound; lia]. }
  destruct (H (Sum sha256 raw)) as [-> ->]. unfold zlen. by rewrite Hl.
Qed.

(** The digests the run draws. *)
Definition drawn (ev : tev) : list gostring :=
  match ev with TIssue _ entropy _ => [digest_of (token_raw entropy)] | _ => [] end.

Definition clean_event (ev : tev) : Prop :=
  match ev with TIssue principal _ _ => clean (TrimSpace principal) | _ => True end.

Lemma tstep_rep hasfile s T ev :
  tokens_rep hasfile s T -> (forall d, d ∈ drawn ev -> T !! d = None) -> clean_event ev ->
  let '(s', o) := tstep s ev in let '(T', o') := tspec_step hasfile T ev in
  o = o' /\ tokens_rep hasfile s' T' /\ forall d, is_Some (T' !! d) -> is_Some (T !! d) \/ d ∈ drawn ev.
Proof.
  intros Hr Hd Hc. destruct ev as [principal entropy ok|id ok|raw|]; cbn [tstep tspec_step].
  - unfold Issue. case_bool_decide as Hp; cbn [orb]; [by split_and!; auto|]. destruct s as [f R B er]. destruct Hr as [G Ht Hf]. cbn in G, Ht, Hf. subst er.
    cbn [ds_loadErr ds_records]. rewrite (has_id_records _ _ _ _ Ht). set (id := token_id entropy). set (d := digest_of (token_raw entropy)).
    destruct (R !! id) as [x|] eqn:Ex; [rewrite bool_decide_eq_true_2 by (by eexists); cbn [orb]; by split_and!; auto|].
    rewrite bool_decide_eq_false_2 by (by intros []). cbn [orb dt_Digest].
    assert (T !! d = None) as Hnd by (apply Hd; by left).
    assert (B !! d = None) as Hnb.
    { destruct (B !! d) as [i|] eqn:E; [|done]. apply (tb_digests _ _ _ Ht) in E as [p Hx]. congruence. }
    unfold set_tokens. cbn [ds_file ds_byDigest ds_records ds_loadErr dt_Digest]. set (R1 := <[id := _]> R). set (B1 := <[d := id]> B).
    pose proof (persist_cases hasfile R1 B1 f ok) as Hpc. destruct (hasfile && negb ok).
    + rewrite Hpc by (by destruct f; destruct Hf). cbn [ds_file ds_byDigest ds_records ds_loadErr]. split; [done|]. split; [|by left].
      unfold R1, B1. rewrite !delete_insert_id by done. by split.
    + destruct Hpc as (f' & -> & Hf'); [by destruct f; destruct Hf|]. split; [done|]. split; [|].
      * split; [done|apply tables_insert; [done|done|done|]|done]. split; [done|done|apply digest_hex|done].
      * intros d' [x [[<- _]|[_ Hx]]%lookup_insert_Some]; [right; by left|left; by eexists].
  - unfold Revoke_token. destruct s as [f R B er]. destruct Hr as [G Ht Hf]. cbn in G, Ht, Hf. subst er. cbn [ds_loadErr ds_records].
    rewrite (has_id_records _ _ _ _ Ht). destruct (R !! id) as [r|] eqn:Ex; [rewrite bool_decide_eq_true_2 by (by eexists)|rewrite bool_decide_eq_false_2 by (by intros []); cbn [negb orb]; by split_and!; auto].
    cbn [negb orb]. unfold set_tokens. cbn [ds_file ds_byDigest ds_records ds_loadErr]. set (R1 := delete id R). set (B1 := delete _ B).
    pose proof (proj1 (tb_records _ _ _ Ht id r) Ex) as [Ei Hx].
    pose proof (persist_cases hasfile R1 B1 f ok) as Hpc. destruct (hasfile && negb ok).
    + rewrite Hpc by (by destruct f; destruct Hf). cbn [ds_file ds_byDigest ds_records ds_loadErr]. split; [done|]. split; [|by left].
      unfold R1, B1. rewrite !insert_delete_id; [by split|apply (tb_digests _ _ _ Ht); by eexists|done].
    + destruct Hpc as (f' & -> & Hf'); [by destruct f; destruct Hf|]. split; [done|]. split; [split; [done|by apply tables_delete|done]|].
      intros d [x [Hx' _]%map_lookup_filter_Some]. left. by eexists.
  - split; [|split; [done|by left]]. f_equal. unfold Principal. rewrite (tr_good _ _ _ Hr). destruct (tr_tables _ _ _ Hr) as [T1 T2 _ _].
    destruct (T !! digest_of raw) as [[i p]|] eqn:E.
    + rewrite (proj2 (T2 (digest_of raw) i)) by (by eexists). rewrite (proj2 (T1 i (mkToken i p (digest_of raw)))) by done. done.
    + destruct (ds_byDigest s !! digest_of raw) as [i|] eqn:Eb; [|done]. apply T2 in Eb as [p Hp]. congruence.
  - split; [done|]. split; [by apply restart_rep|]. intros d Hx. left. destruct hasfile; [done|]. by destruct Hx.
Qed.

Lemma trun_rep hasfile s T evs :
  tokens_rep hasfile s T -> NoDup (mjoin (map drawn evs)) -> (forall d, d ∈ mjoin (map drawn evs) -> T !! d = None) -> Forall clean_event evs ->
  trun s evs = tspec_run hasfile T evs.
Proof.
  intros Hr Hn Hd Hc. revert s T Hr Hn Hd. induction Hc as [|ev evs Hev _ IH]; intros s T Hr Hn Hd; [done|].
  cbn [map] in Hn, Hd. rewrite mjoin_cons in Hn, Hd. apply NoDup_app in Hn as (N1 & N2 & N3). cbn [trun tspec_run].
  pose proof (tstep_rep hasfile s T ev Hr ltac:(intros d ?; apply Hd, elem_of_app; by left) Hev) as Hs.
  destruct (tstep s ev) as [s' o], (tspec_step hasfile T ev) as [T' o']. destruct Hs as (-> & Hr' & Hg). f_equal. apply IH; [done|done|].
  intros d Hx. destruct (T' !! d) as [y|] eqn:E; [|done]. destruct (Hg d ltac:(by eexists)) as [[z Hz]|Hz].
  - rewrite Hd in Hz; [done|]. apply elem_of_app. by right.
  - by destruct (N2 d Hz).
Qed.
End refines.

(** C36: the store of delegated tokens implements a map. Through any sequence of
    issues, revocations, uses and restarts, with saves that fail or not, a token is
    accepted exactly while it is issued and not revoked, and stands for the
    principal it was issued for; an issue or a revocation that cannot be saved is
    refused and changes nothing, so that a restart changes nothing either. This is
    under the condition that no two tokens of the run have the same SHA-256 digest and
    that the principals survive their JSON encoding. *)
Theorem delegated_tokens_refine {TJ : Json (list delegatedTokenRecord)} (clean : gostring -> Prop) (hasfile : bool) (evs : list tev) :
  (forall l, Forall (fun r => clean (dt_Principal r)) l -> jsonable l) ->
  NoDup (mjoin (map drawn evs)) -> Forall (clean_event clean) evs ->
  trun (newDelegatedTokenStore (if hasfile then Some None else None)) evs = tspec_run hasfile ∅ evs.
Proof.
  intros Hk Hn Hc. apply (trun_rep clean Hk); [|done|done|done]. destruct hasfile; (split; [done|apply tables_empty|done]).
Qed.

#[export] Instance delegatedTokenRecord_countable : Countable delegatedTokenRecord.
Proof.
  apply (inj_countable' (fun r => (dt_ID r, dt_Principal r, dt_Digest r)) (fun x => match x with (a, b, c) => mkToken a b c end)). by intros [].
Defined.

Definition token_json : Json (list delegatedTokenRecord).
Proof.
  refine {| to_json := fun x => bits (countable.encode x);
            of_json := fun l => match countable.decode (of_bits l) with Some x => Ok x | None => Err "json" end;
            jsonable := fun _ => True |}.
  intros x _. by rewrite of_bits_bits, decode_encode.
Defined.

Definition demo_entropy : list byte := replicate 48 x00.

Definition demo_token_events : list tev :=
  [TIssue (str " ann ") demo_entropy true; TRestart; TPrincipal (token_raw demo_entropy); TRevoke (token_id demo_entropy) false;
   TPrincipal (token_raw demo_entropy); TRevoke (token_id demo_entropy) true; TRestart; TPrincipal (token_raw demo_entropy)].

Lemma delegated_tokens_refine_witness :
  trun (TJ := token_json) (newDelegatedTokenStore (TJ := token_json) (Some None)) demo_token_events
  = [OIssued (Some (token_id demo_entropy, token_raw demo_entropy)); ORestarted; OPrincipal (Some (str "ann")); ORevoked false;
     OPrincipal (Some (str "ann")); ORevoked true; ORestarted; OPrincipal None].
Proof.
  etransitivity.
  - apply (delegated_tokens_refine (TJ := token_json) (fun _ => True) true demo_token_events).
    + intros l _. exact I.
    + apply (bool_decide_eq_true_1 (NoDup _)). vm_compute. reflexivity.
    + repeat constructor.
  - vm_compute. reflexivity.
Defined.
