(* ===== verification/WebAuth.v ===== *)
(** * Who gets into the console (internal/web/auth.go, web.go, security.go,
    authz_map.go, delegated_tokens.go)

    The chain of handlers in front of the console's API: protection against
    cross-site requests, authentication by session cookie, delegated token or
    cluster token, authorization by the rule of the route; and the handlers that
    change who gets in: login, logout, delegated tokens. A request is what the HTTP
    layer makes of it, with the route pattern it matches; whether its peer is a
    trusted proxy is part of it. A request reads the clock once. User names are
    ASCII as far as [strings.ToLower] goes. *)

From stdpp Require Import prelude countable strings gmap list.
From Stdlib Require Import ZArith Lia.
From S2P Require Import Prelude Wire GoStrings GoCrypto GoJson Credential Ratelimit Authz Sasl.
From S2P Require Import WebSession WebTokens.

(** ** Routes (authz_map.go) *)

Inductive scope := ClusterScoped | TopicScoped | GroupScoped.

(** [ar_list] is the resource type of a listing. *)
Record apiRule := mkApiRule { ar_op : gostring; ar_list : option gostring; ar_scope : scope }.

Definition clusterResource : Resource := mkResource ResourceCluster (str "cluster").

Definition rule_resource (r : apiRule) (params : gmap gostring gostring) : Resource :=
  match ar_scope r with
  | ClusterScoped => clusterResource
  | TopicScoped => mkResource ResourceTopic (default [] (params !! str "topic"))
  | GroupScoped => mkResource ResourceGroup (default [] (params !! str "group"))
  end.

Definition apiRules : list (gostring * apiRule) :=
  let c op := mkApiRule op None ClusterScoped in
  let t op := mkApiRule op None TopicScoped in
  let g op := mkApiRule op None GroupScoped in
  [(str "GET /api/v1/cluster", c OpDescribe);
   (str "GET /api/v1/topics", mkApiRule OpDescribe (Some ResourceTopic) ClusterScoped);
   (str "POST /api/v1/topics", c OpAdmin);
   (str "DELETE /api/v1/topics/{topic}", t OpAdmin);
   (str "GET /api/v1/topics/{topic}/messages", t OpRead);
   (str "POST /api/v1/topics/{topic}/messages", t OpWrite);
   (str "GET /api/v1/topics/{topic}/partitions", t OpDescribe);
   (str "POST /api/v1/topics/{topic}/truncate", t OpAdmin);
   (str "POST /api/v1/topics/{topic}/compact", t OpAdmin);
   (str "GET /api/v1/topics/{topic}/config", t OpDescribe);
   (str "PUT /api/v1/topics/{topic}/config", t OpAdmin);
   (str "POST /api/v1/topics/{topic}/import", t OpWrite);
   (str "GET /api/v1/topics/{topic}/tail", t OpRead);
   (str "GET /api/v1/groups", mkApiRule OpDescribe (Some ResourceGroup) ClusterScoped);
   (str "GET /api/v1/groups/{group}", g OpDescribe);
   (str "DELETE /api/v1/groups/{group}", g OpAdmin);
   (str "POST /api/v1/groups/{group}/offsets/reset", g OpAdmin);
   (str "GET /api/v1/groups/{group}/offsets/export", g OpRead);
   (str "POST /api/v1/groups/{group}/offsets/import", g OpWrite);
   (str "GET /api/v1/logs", c OpAdmin);
   (str "GET /api/v1/throughput", c OpDescribe);
   (str "POST /api/v1/schemas/register", c OpWrite);
   (str "GET /api/v1/schemas", c OpDescribe);
   (str "GET /api/v1/schemas/{subject}", c OpDescribe);
   (str "GET /api/v1/mqtt", c OpDescribe);
   (str "POST /api/v1/mqtt/publish", c OpWrite);
   (str "GET /api/v1/integrations", c OpAdmin);
   (str "GET /api/v1/config", c OpAdmin);
   (str "GET /api/v1/acls", c OpAdmin);
   (str "PUT /api/v1/acls", c OpAdmin);
   (str "DELETE /api/v1/acls", c OpAdmin);
   (str "GET /api/v1/audit", c OpAdmin);
   (str "GET /api/v1/auth/delegated-tokens", c OpAdmin);
   (str "POST /api/v1/auth/delegated-tokens", c OpAdmin);
   (str "DELETE /api/v1/auth/delegated-tokens/{id}", c OpAdmin);
   (str "GET /api/v1/health/overview", c OpDescribe);
   (str "GET /api/v1/health/clusters", c OpDescribe);
   (str "GET /metrics", c OpDescribe);
   (str "GET /api/v1/clusters", c OpAdmin);
   (str "POST /api/v1/clusters", c OpAdmin);
   (str "POST /api/v1/clusters/test", c OpAdmin);
   (str "DELETE /api/v1/clusters/{name}", c OpAdmin);
   (str "/api/v1/target/{name}/{path...}", c OpAdmin)].

Definition rule_at (pattern : gostring) : option apiRule := (fun x => x.2.2) <$> list_find (fun x => x.1 = pattern) apiRules.

Definition lookupRule (pattern : gostring) : option apiRule :=
  if bool_decide (pattern = []) then None else
  match rule_at (TrimSuffix pattern [x2f]) with
  | Some r => Some r
  | None => rule_at pattern
  end.

Definition clusterTokenRoutes (pattern : gostring) : bool := bool_decide (pattern = str "GET /api/v1/health/overview").

Definition apiPublicPath (path : gostring) : bool :=
  bool_decide (path ∈ [str "/api/v1/auth/login"; str "/api/v1/auth/logout"; str "/api/v1/auth/status"; str "/api/v1/info"]).

Definition isAPIPath (path : gostring) : bool := HasPrefix path (str "/api/") || bool_decide (path = str "/metrics").

Definition patternPath (pattern : gostring) : gostring :=
  match Index pattern [x20] with
  | Some i => TrimSpace (drop (S i) pattern)
  | None => pattern
  end.

Definition splitSegments (p : gostring) : list gostring :=
  let p := Trim p x2f in
  if bool_decide (p = []) then [] else Split p x2f.

Definition pathParamName (seg : gostring) : option gostring :=
  if (zlen seg <? 3) || negb (bool_decide (head seg = Some x7b)) || negb (bool_decide (list.last seg = Some x7d)) then None else
  let name := take (length seg - 2) (drop 1 seg) in
  if bool_decide (drop (length name - 3) name = str "...") then None else Some name.

Fixpoint join_slash (l : list gostring) : gostring :=
  match l with
  | [] => []
  | [x] => x
  | x :: r => x ++ [x2f] ++ join_slash r
  end.

Fixpoint match_segments (pp ps : list gostring) (params : gmap gostring gostring) : option (gmap gostring gostring) :=
  match pp with
  | [] => if bool_decide (ps = []) then Some params else None
  | seg :: pp =>
      if bool_decide (seg = str "{path...}") then
        match ps with [] => None | _ => Some (<[str "path" := join_slash ps]> params) end
      else
        match ps with
        | [] => None
        | x :: ps =>
            match pathParamName seg with
            | Some name => match_segments pp ps (<[name := x]> params)
            | None => if bool_decide (seg = x) then match_segments pp ps params else None
            end
        end
  end.

Definition matchPattern (pattern path : gostring) : option (gmap gostring gostring) :=
  match_segments (splitSegments pattern) (splitSegments path) ∅.

(** The routes that are served have rules, and their patterns match paths. *)
Lemma rules_examples :
  lookupRule (str "POST /api/v1/topics/{topic}/messages/") = Some (mkApiRule OpWrite None TopicScoped) /\
  (fun m => m !! str "topic") <$> matchPattern (patternPath (str "POST /api/v1/topics/{topic}/messages")) (str "/api/v1/topics/orders/messages/")
    = Some (Some (str "orders")) /\
  matchPattern (str "/api/v1/target/{name}/{path...}") (str "/api/v1/target/east") = None /\
  (fun m => m !! str "path") <$> matchPattern (str "/api/v1/target/{name}/{path...}") (str "/api/v1/target/east/a/b") = Some (Some (str "a/b")) /\
  NoDup (map fst apiRules).
Proof. split_and!; [vm_compute; reflexivity..|]. apply (bool_decide_eq_true_1 (NoDup _)). vm_compute. reflexivity. Qed.

(** ** Requests *)

(** [rq_origin]: the host of the Origin header, if there is one and it parses. The
    bodies are what the login and the token handler decode. *)
Record wrequest := mkWReq {
  rq_method : gostring;
  rq_path : gostring;
  rq_pattern : gostring;
  rq_authorization : gostring;
  rq_csrf : gostring;
  rq_origin : option (option gostring);
  rq_host : gostring;
  rq_cookie : gostring -> option gostring;
  rq_tls : bool;
  rq_trusted : bool;
  rq_proto : gostring;
  rq_addr : gostring;
  rq_id : gostring;
  rq_login : option (gostring * gostring);
  rq_principal : option gostring }.

(** Clock, random bytes, the fate of a save. *)
Record wworld := mkWWorld { ww_now : Z; ww_session : list byte; ww_token : list byte; ww_save : bool }.

Inductive wresponse :=
  | WRefused (code : Z)
  | WReached
  | WLoggedIn (cookie value user : gostring)
  | WLoggedOut (session : option (gostring * gostring))
  | WStatus (enabled authenticated : bool)
  | WTokens (l : list (gostring * gostring))
  | WIssued (id token : gostring)
  | WRevoked (id : gostring).

Record Console := mkConsole {
  co_users : list SecurityUser;
  co_authSecret : gostring;
  co_authEnabled : bool;
  co_authorize : bool;
  co_clusterToken : gostring;
  co_sessions : sessionStore;
  co_limiter : RateLimit.Limiter;
  co_tokens : delegatedTokenStore;
  co_acl : RuleStore }.

Definition with_store (c : Console) (st : sessionStore) : Console :=
  mkConsole (co_users c) (co_authSecret c) (co_authEnabled c) (co_authorize c) (co_clusterToken c) st (co_limiter c) (co_tokens c) (co_acl c).
Definition with_limiter (c : Console) (l : RateLimit.Limiter) : Console :=
  mkConsole (co_users c) (co_authSecret c) (co_authEnabled c) (co_authorize c) (co_clusterToken c) (co_sessions c) l (co_tokens c) (co_acl c).
Definition with_tokens (c : Console) (t : delegatedTokenStore) : Console :=
  mkConsole (co_users c) (co_authSecret c) (co_authEnabled c) (co_authorize c) (co_clusterToken c) (co_sessions c) (co_limiter c) t (co_acl c).

(** ** Cross-site requests (security.go) *)

Definition bearer : gostring := str "Bearer ".
Definition has_bearer (r : wrequest) : bool := HasPrefix (rq_authorization r) bearer.
Definition presented (r : wrequest) : gostring := TrimSpace (TrimPrefix (rq_authorization r) bearer).

Definition safe_method (m : gostring) : bool := bool_decide (m ∈ [str "GET"; str "HEAD"; str "OPTIONS"]).

Definition sameOriginRequest (r : wrequest) : bool :=
  match rq_origin r with
  | None => true
  | Some None => false
  | Some (Some host) => EqualFold host (rq_host r)
  end.

Definition csrfMiddleware (r : wrequest) : option Z :=
  if safe_method (rq_method r) || has_bearer r then None else
  if negb (bool_decide (rq_csrf r = str "1")) || negb (sameOriginRequest r) then Some 403 else None.

(** ** Authentication (auth.go) *)

Definition authCookieName : gostring := str "auth_token".
Definition hostCookieName : gostring := str "__Host-auth_token".
Definition cookieName (secure : bool) : gostring := if secure then hostCookieName else authCookieName.

Definition secureRequest (r : wrequest) : bool :=
  rq_tls r || (rq_trusted r && EqualFold (TrimSpace (rq_proto r)) (str "https")).

Definition userExists (users : list SecurityUser) (username : gostring) : bool :=
  existsb (fun u => bool_decide (u_Username u = username)) users.

Definition isClusterToken (c : Console) (token : gostring) : bool :=
  negb (bool_decide (co_clusterToken c = [])) && bool_decide (token = co_clusterToken c).

Definition clusterTokenPresented (c : Console) (r : wrequest) : bool := has_bearer r && isClusterToken c (presented r).

Definition delegatedPrincipal (c : Console) (token : gostring) : option gostring :=
  if negb (co_authEnabled c) || negb (co_authorize c) then None else
  match Principal (co_tokens c) token with
  | Some p => if userExists (co_users c) p then Some p else None
  | None => None
  end.

(** The user and the session of the cookie. *)
Definition sessionFromRequest (c : Console) (r : wrequest) (now : Z) : Console * option (gostring * gostring) :=
  match rq_cookie r (cookieName (secureRequest r)) with
  | None => (c, None)
  | Some value =>
      match verifyToken value (co_authSecret c) with
      | (payload, true) =>
          match parseSessionPayload payload with
          | Some (user, sid, exp) =>
              if (exp <? now) || negb (userExists (co_users c) user) then (c, None) else
              match Validate (co_sessions c) sid user now with
              | (st, true) => (with_store c st, Some (user, sid))
              | (st, false) => (with_store c st, None)
              end
          | None => (c, None)
          end
      | (_, false) => (c, None)
      end
  end.

(** The empty principal is nobody. *)
Definition requestPrincipal (c : Console) (r : wrequest) (now : Z) : Console * gostring :=
  if has_bearer r then
    (c, if clusterTokenPresented c r then [] else default [] (delegatedPrincipal c (presented r)))
  else
    let '(c, o) := sessionFromRequest c r now in (c, match o with Some (user, _) => user | None => [] end).

Definition agent_path (path : gostring) : bool :=
  HasPrefix path (str "/api/v1/fleet/agent/") || bool_decide (path = str "/api/v1/fleet/enroll").

(** Whether a request is refused here, and with which status. *)
Definition authMiddleware (c : Console) (r : wrequest) (now : Z) : Console * option Z :=
  if agent_path (rq_path r) || negb (co_authEnabled c) || negb (isAPIPath (rq_path r)) || apiPublicPath (rq_path r) then (c, None) else
  if has_bearer r then
    if isClusterToken c (presented r) then
      (c, if clusterTokenRoutes (rq_pattern r) then None else Some 403)
    else (c, match delegatedPrincipal c (presented r) with Some _ => None | None => Some 401 end)
  else
    let '(c, o) := sessionFromRequest c r now in (c, match o with Some _ => None | None => Some 401 end).

(** ** Authorization (web.go) *)

Section console.
Context {TJ : Json (list delegatedTokenRecord)}.
(** The authorizer, and its [CanDescribeAny], which says no if it has none. *)
Context {A : Type} {AZ : Authorizer A} (authorizer : A) (describes_any : gostring -> gostring -> bool).

Definition authorized (principal op : gostring) (res : Resource) : bool :=
  match Authorize authorizer principal op res with Ok _ => true | _ => false end.

Definition can (c : Console) (principal op : gostring) (res : Resource) : bool :=
  if negb (co_authorize c) then true else
  if bool_decide (principal = []) then false else
  authorized principal op res ||
  (bool_decide (op = OpDescribe) && negb (bool_decide (res_Type res = ResourceCluster)) && authorized principal op clusterResource).

Definition canList (c : Console) (principal resourceType : gostring) : bool :=
  if negb (co_authorize c) then true else
  if bool_decide (principal = []) then false else
  describes_any principal resourceType || authorized principal OpDescribe clusterResource.

(** What the rule of a route asks for. *)
Definition permits (c : Console) (principal : gostring) (rule : apiRule) (params : gmap gostring gostring) : bool :=
  match ar_list rule with
  | Some t => canList c principal t
  | None => can c principal (ar_op rule) (rule_resource rule params)
  end.

Definition fleet_path (path : gostring) : bool := HasPrefix path (str "/api/v1/fleet/") || bool_decide (path = str "/api/v1/fleet").

Definition authorizeAPI (c : Console) (r : wrequest) (now : Z) : Console * option Z :=
  if negb (co_authorize c) || negb (isAPIPath (rq_path r)) || apiPublicPath (rq_path r) || clusterTokenPresented c r || fleet_path (rq_path r)
  then (c, None) else
  match lookupRule (rq_pattern r) with
  | None => ((requestPrincipal c r now).1, Some 403)
  | Some rule =>
      match matchPattern (patternPath (rq_pattern r)) (rq_path r) with
      | None => ((requestPrincipal c r now).1, Some 403)
      | Some params =>
          let '(c, principal) := requestPrincipal c r now in
          (c, if permits c principal rule params then None else Some 403)
      end
  end.

(** ** Login and logout *)

Definition stored_password (u : SecurityUser) : gostring := if bool_decide (u_Password u = []) then u_PasswordHash u else u_Password u.

(** The first user of that name, if the password is his. *)
Fixpoint login_user (users : list SecurityUser) (username password : gostring) : option SecurityUser :=
  match users with
  | [] => None
  | u :: r =>
      if negb (bool_decide (u_Username u = username)) || bool_decide (u_Username u = []) then login_user r username password else
      if bool_decide (stored_password u = []) then None else
      if Matches (stored_password u) password then Some u else None
  end.

Fixpoint allow_all (l : RateLimit.Limiter) (now : Z) (keys : list gostring) : RateLimit.Limiter * bool :=
  match keys with
  | [] => (l, true)
  | k :: keys =>
      let '(l, (ok, _)) := RateLimit.Allow l now k in
      if ok then allow_all l now keys else (l, false)
  end.

Definition login_keys (c : Console) (addr username : gostring) : list gostring :=
  (str "ip:" ++ addr) :: (if userExists (co_users c) username then [str "user:" ++ ToLower username] else []).

Definition handleLogin (c : Console) (r : wrequest) (w : wworld) : Console * wresponse :=
  match rq_login r with
  | None => (c, WRefused 400)
  | Some (name, password) =>
      let username := TrimSpace name in
      let keys := login_keys c (rq_addr r) username in
      let '(l, ok) := allow_all (co_limiter c) (ww_now w) keys in
      let c := with_limiter c l in
      if negb ok then (c, WRefused 429) else
      match login_user (co_users c) username password with
      | Some u =>
          let c := with_limiter c (fold_left RateLimit.Succeed keys (co_limiter c)) in
          let '(st, (id, exp)) := Create (co_sessions c) (u_Username u) (ww_now w) (ww_session w) in
          (with_store c st,
           WLoggedIn (cookieName (secureRequest r)) (signToken (sessionPayload (u_Username u) exp id) (co_authSecret c)) (u_Username u))
      | None => (with_limiter c (fold_left (fun l k => (RateLimit.Fail l (ww_now w) k).1) keys (co_limiter c)), WRefused 401)
      end
  end.

Definition handleLogout (c : Console) (r : wrequest) (now : Z) : Console * wresponse :=
  let '(c, o) := sessionFromRequest c r now in
  (match o with Some (_, sid) => with_store c (Revoke (co_sessions c) sid) | None => c end, WLoggedOut o).

Definition handleAuthStatus (c : Console) (r : wrequest) (now : Z) : Console * wresponse :=
  if negb (co_authEnabled c) then (c, WStatus false true) else
  let '(c, o) := sessionFromRequest c r now in (c, WStatus true (match o with Some _ => true | None => false end)).

(** ** Delegated tokens *)

Definition requireDelegatedTokenAdmin (c : Console) (r : wrequest) (now : Z) : Console * option Z :=
  if negb (co_authEnabled c) || negb (co_authorize c) then (c, Some 403) else
  let '(c, principal) := requestPrincipal c r now in
  if bool_decide (principal = []) then (c, Some 401) else
  (c, match Authorize (co_acl c) principal OpAdmin clusterResource with Ok _ => None | _ => Some 403 end).

(** After [requireDelegatedTokenAdmin] and [delegatedTokenStoreReady]. *)
Definition token_admin (c : Console) (r : wrequest) (now : Z) (k : Console -> Console * wresponse) : Console * wresponse :=
  match requireDelegatedTokenAdmin c r now with
  | (c, Some code) => (c, WRefused code)
  | (c, None) => if ds_loadErr (co_tokens c) then (c, WRefused 503) else k c
  end.

Definition handleListDelegatedTokens (c : Console) (r : wrequest) (w : wworld) : Console * wresponse :=
  token_admin c r (ww_now w) (fun c => (c, WTokens (List_ (co_tokens c)))).

Definition handleCreateDelegatedToken (c : Console) (r : wrequest) (w : wworld) : Console * wresponse :=
  token_admin c r (ww_now w) (fun c =>
    match rq_principal r with
    | None => (c, WRefused 400)
    | Some p =>
        let principal := TrimSpace p in
        if negb (userExists (co_users c) principal) then (c, WRefused 400) else
        match Issue (co_tokens c) principal (ww_token w) (ww_save w) with
        | (t, Ok (id, token)) => ((requestPrincipal (with_tokens c t) r (ww_now w)).1, WIssued id token)
        | (t, _) => (with_tokens c t, WRefused 503)
        end
    end).

Definition handleRevokeDelegatedToken (c : Console) (r : wrequest) (w : wworld) : Console * wresponse :=
  token_admin c r (ww_now w) (fun c =>
    match Revoke_token (co_tokens c) (rq_id r) (ww_save w) with
    | (t, Ok _) => ((requestPrincipal (with_tokens c t) r (ww_now w)).1, WRevoked (rq_id r))
    | (t, Err e) => (with_tokens c t, WRefused (if bool_decide (e = errUnknownDelegatedToken) then 404 else 503))
    | (t, Panic) => (with_tokens c t, WRefused 500)
    end).

(** ** The chain *)

(** The handlers of this file by their routes; the others are [WReached]. *)
Definition dispatch (c : Console) (r : wrequest) (w : wworld) : Console * wresponse :=
  let p := rq_pattern r in
  if bool_decide (p = str "POST /api/v1/auth/login") then handleLogin c r w else
  if bool_decide (p = str "POST /api/v1/auth/logout") then handleLogout c r (ww_now w) else
  if bool_decide (p = str "GET /api/v1/auth/status") then handleAuthStatus c r (ww_now w) else
  if bool_decide (p = str "GET /api/v1/auth/delegated-tokens") then handleListDelegatedTokens c r w else
  if bool_decide (p = str "POST /api/v1/auth/delegated-tokens") then handleCreateDelegatedToken c r w else
  if bool_decide (p = str "DELETE /api/v1/auth/delegated-tokens/{id}") then handleRevokeDelegatedToken c r w else
  (c, WReached).

(** Whether the request gets through to its handler. *)
Definition gate (c : Console) (r : wrequest) (now : Z) : Console * option Z :=
  match csrfMiddleware r with
  | Some code => (c, Some code)
  | None =>
      match authMiddleware c r now with
      | (c, Some code) => (c, Some code)
      | (c, None) => authorizeAPI c r now
      end
  end.

Definition Handler (c : Console) (r : wrequest) (w : wworld) : Console * wresponse :=
  match gate c r (ww_now w) with
  | (c, Some code) => (c, WRefused code)
  | (c, None) => dispatch c r w
  end.
End console.
