(* ===== verification/WebAuthProps.v ===== *)
(** * Nobody gets in without proving who he is (internal/web)

    Along any run of the console: what reaches a protected route carries the cluster
    token on the one route that takes it, a delegated token, or the cookie of a
    session that a login with the right password opened and no logout closed; and
    the rule of the route allows that user. *)

From stdpp Require Import prelude countable strings gmap list.
From Stdlib Require Import ZArith Lia.
From S2P Require Import Prelude Wire GoStrings GoCrypto GoJson Credential Ratelimit Authz Sasl.
From S2P Require Import WebSession WebTokens WebAuth.

Definition wevent : Type := (wrequest * wworld) * wresponse.

(** Requests that need a credential. *)
Definition protected (r : wrequest) : bool :=
  isAPIPath (rq_path r) && negb (apiPublicPath (rq_path r)) && negb (agent_path (rq_path r)).

(** ** What stays as it is *)

Record same_settings (c c' : Console) : Prop := {
  se_users : co_users c' = co_users c;
  se_secret : co_authSecret c' = co_authSecret c;
  se_enabled : co_authEnabled c' = co_authEnabled c;
  se_authorize : co_authorize c' = co_authorize c;
  se_cluster : co_clusterToken c' = co_clusterToken c;
  se_ttl : st_ttl (co_sessions c') = st_ttl (co_sessions c) }.

(** The sessions there are were there before, for the same user and time. *)
Definition no_new (m m' : gmap gostring session) : Prop :=
  forall id s, m' !! id = Some s -> exists s0, m !! id = Some s0 /\ ss_user s0 = ss_user s /\ ss_expires s0 = ss_expires s.

Record keeps (c c' : Console) : Prop := {
  ke_settings : same_settings c c';
  ke_sessions : no_new (st_byID (co_sessions c)) (st_byID (co_sessions c')) }.

#[export] Instance same_settings_preorder : PreOrder same_settings.
Proof. split; [by constructor|]. intros a b c [] []. constructor; congruence. Qed.

#[export] Instance no_new_preorder : PreOrder no_new.
Proof.
  split; [intros m id s H; by exists s|]. intros a b c H1 H2 id s Hs. destruct (H2 _ _ Hs) as (s1 & Hs1 & <- & <-). by apply H1.
Qed.

#[export] Instance keeps_preorder : PreOrder keeps.
Proof. split; [done|]. intros a b c [] []. constructor; etrans; eauto. Qed.

Lemma keeps_store c st :
  st_ttl st = st_ttl (co_sessions c) -> no_new (st_byID (co_sessions c)) (st_byID st) -> keeps c (with_store c st).
Proof. intros. by constructor; [constructor|]. Qed.

Lemma keeps_limiter c l : keeps c (with_limiter c l).
Proof. by constructor. Qed.

Lemma keeps_tokens c t : keeps c (with_tokens c t).
Proof. by constructor. Qed.

Lemma delete_no_new m id : no_new m (delete id m).
Proof. intros i s [_ H]%lookup_delete_Some. by exists s. Qed.

Lemma gc_no_new st now : no_new (st_byID st) (st_byID (gcLocked st now)).
Proof.
  unfold gcLocked. destruct (match st_lastGC st with Some _ => _ | None => _ end); [done|].
  intros i s [H _]%map_lookup_filter_Some. by exists s.
Qed.

(** What an accepted session says about the store. *)
Lemma Validate_spec st id user now st' b :
  Validate st id user now = (st', b) ->
  st_ttl st' = st_ttl st /\ no_new (st_byID st) (st_byID st') /\
  (b = true -> id <> [] /\ exists s, st_byID st !! id = Some s /\ ss_user s = user /\ now <= ss_expires s).
Proof.
  unfold Validate. destruct (bool_decide (id = []) || bool_decide (user = [])) eqn:Ee; [by intros [= <- <-]|].
  apply orb_false_iff in Ee as [Hid%bool_decide_eq_false_1 _].
  destruct (st_byID st !! id) as [s|] eqn:Es; [|by intros [= <- <-]].
  destruct (bool_decide (ss_user s = user)) eqn:Eu; cbn [negb]; [|by intros [= <- <-]]. apply bool_decide_eq_true_1 in Eu.
  destruct (over now s) eqn:Eo; intros [= <- <-]; split_and!; try done.
  - apply delete_no_new.
  - intros i s'. cbn. destruct (decide (id = i)) as [<-|Hne].
    + rewrite lookup_insert_eq. intros [= <-]. by exists s.
    + rewrite lookup_insert_ne by done. intros H. by exists s'.
  - intros _. split; [done|]. exists s. split_and!; try done. apply orb_false_iff in Eo as [Eo _]. apply Z.ltb_ge in Eo. lia.
Qed.

(** The cookie of a request, verified and read. *)
Definition cookie_session (c : Console) (r : wrequest) : option (gostring * gostring * Z) :=
  match rq_cookie r (cookieName (secureRequest r)) with
  | None => None
  | Some value =>
      match verifyToken value (co_authSecret c) with
      | (payload, true) => parseSessionPayload payload
      | (_, false) => None
      end
  end.

Lemma session_spec c r now c' o :
  sessionFromRequest c r now = (c', o) ->
  keeps c c' /\
  forall user sid, o = Some (user, sid) ->
    sid <> [] /\ userExists (co_users c) user = true /\
    (exists exp, cookie_session c r = Some (user, sid, exp) /\ now <= exp) /\
    exists s, st_byID (co_sessions c) !! sid = Some s /\ ss_user s = user /\ now <= ss_expires s.
Proof.
  unfold sessionFromRequest, cookie_session.
  destruct (rq_cookie r (cookieName (secureRequest r))) as [v|]; [|by intros [= <- <-]].
  destruct (verifyToken v (co_authSecret c)) as [payload []]; [|by intros [= <- <-]].
  destruct (parseSessionPayload payload) as [[[user sid] exp]|]; [|by intros [= <- <-]].
  destruct ((exp <? now) || negb (userExists (co_users c) user)) eqn:Ee; [by intros [= <- <-]|].
  apply orb_false_iff in Ee as [He%Z.ltb_ge Hu%negb_false_iff].
  destruct (Validate (co_sessions c) sid user now) as [st b] eqn:Ev. apply Validate_spec in Ev as (E1 & E2 & E3).
  destruct b; intros [= <- <-]; (split; [by apply keeps_store|]); intros u i [= <- <-].
  destruct E3 as (Hid & Hs); [done|]. split_and!; try done. by exists exp.
Qed.

Lemma session_user c r now c' user sid :
  sessionFromRequest c r now = (c', Some (user, sid)) -> exists exp, cookie_session c r = Some (user, sid, exp).
Proof. intros H. apply session_spec in H as [_ H]. destruct (H _ _ eq_refl) as (_ & _ & (exp & E & _) & _). by exists exp. Qed.

Lemma principal_spec c r now c' p :
  requestPrincipal c r now = (c', p) ->
  keeps c c' /\
  (has_bearer r = true -> c' = c /\ p = if clusterTokenPresented c r then [] else default [] (delegatedPrincipal c (presented r))) /\
  (has_bearer r = false -> p = [] \/ exists sid exp, cookie_session c r = Some (p, sid, exp)).
Proof.
  unfold requestPrincipal. destruct (has_bearer r); [by intros [= <- <-]|].
  destruct (sessionFromRequest c r now) as [c1 o] eqn:Es. pose proof (session_spec _ _ _ _ _ Es) as [Hk _].
  intros [= <- <-]. split_and!; [done|done|]. intros _. destruct o as [[u sid]|]; [|by left].
  right. apply session_user in Es as [exp E]. by exists sid, exp.
Qed.

Section access.
Context {TJ : Json (list delegatedTokenRecord)} {A : Type} {AZ : Authorizer A} (authorizer : A) (describes_any : gostring -> gostring -> bool).

Abbreviation Handler := (Handler authorizer describes_any).
Abbreviation gate := (gate authorizer describes_any).
Abbreviation permits := (permits authorizer describes_any).

Fixpoint console_run (c : Console) (l : list (wrequest * wworld)) : Console * list wevent :=
  match l with
  | [] => (c, [])
  | (r, w) :: l =>
      let '(c, x) := Handler c r w in
      let '(c, h) := console_run c l in (c, ((r, w), x) :: h)
  end.

(** ** Steps *)

Lemma auth_keeps c r now c' o : authMiddleware c r now = (c', o) -> keeps c c'.
Proof.
  unfold authMiddleware. destruct (_ || _); [by intros [= <- <-]|]. destruct (has_bearer r); [destruct (isClusterToken _ _); by intros [= <- <-]|].
  destruct (sessionFromRequest c r now) as [c1 s] eqn:E. intros [= <- <-]. by apply session_spec in E as [? _].
Qed.

Lemma principal_keeps c r now : keeps c (requestPrincipal c r now).1.
Proof. destruct (requestPrincipal c r now) as [c1 p] eqn:E. by apply principal_spec in E as [? _]. Qed.

Lemma authorize_keeps c r now c' o : authorizeAPI authorizer describes_any c r now = (c', o) -> keeps c c'.
Proof.
  unfold authorizeAPI. destruct (_ || _); [by intros [= <- <-]|].
  pose proof (principal_keeps c r now) as Hk.
  destruct (lookupRule _) as [rule|]; [|by intros [= <- <-]]. destruct (matchPattern _ _) as [params|]; [|by intros [= <- <-]].
  destruct (requestPrincipal c r now) as [c1 p]. by intros [= <- <-].
Qed.

Lemma gate_keeps c r now c' o : gate c r now = (c', o) -> keeps c c'.
Proof.
  unfold WebAuth.gate. destruct (csrfMiddleware r); [by intros [= <- <-]|].
  destruct (authMiddleware c r now) as [c1 [code|]] eqn:E1; apply auth_keeps in E1; [by intros [= <- <-]|].
  intros E2%authorize_keeps. by etrans.
Qed.

(** ** Sessions and the events behind them *)

(** A login with the right password, by which session [id] was opened for [user]. *)
Definition opens (c : Console) (e : wevent) (id user : gostring) (expires : Z) : Prop :=
  exists r w name password cookie value u,
    e = ((r, w), WLoggedIn cookie value user) /\
    rq_login r = Some (name, password) /\
    login_user (co_users c) (TrimSpace name) password = Some u /\ u_Username u = user /\
    id = raw_url_encode (ww_session w) /\ expires = ww_now w + st_ttl (co_sessions c).

Definition closes (e : wevent) (id : gostring) : Prop := exists user, e.2 = WLoggedOut (Some (user, id)).

Definition open_since (c : Console) (h : list wevent) (id user : gostring) (expires : Z) : Prop :=
  exists h1 e h2, h = h1 ++ e :: h2 /\ opens c e id user expires /\ Forall (fun e => ~ closes e id) h2.

(** A step that opens no session and closes none. *)
Definition plain (x : wresponse) : Prop :=
  match x with WLoggedIn _ _ _ | WLoggedOut (Some _) => False | _ => True end.

(** The sessions after an event were there before it and not closed by it, or opened by it. *)
Definition event_step (c : Console) (e : wevent) (c' : Console) : Prop :=
  same_settings c c' /\
  forall id s, st_byID (co_sessions c') !! id = Some s ->
    (~ closes e id /\ exists s0, st_byID (co_sessions c) !! id = Some s0 /\ ss_user s0 = ss_user s /\ ss_expires s0 = ss_expires s) \/
    opens c e id (ss_user s) (ss_expires s).

Lemma opens_settings c c' e id user expires : same_settings c c' -> opens c' e id user expires -> opens c e id user expires.
Proof. intros [E1 _ _ _ _ E2]. unfold opens. by rewrite E1, E2. Qed.

Lemma login_step c r w c' x :
  handleLogin c r w = (c', x) ->
  event_step c ((r, w), x) c'.
Proof.
  unfold handleLogin. destruct (rq_login r) as [[name password]|] eqn:El.
  2:{ intros [= <- <-]. split; [done|]. intros id s Hs. left. split; [intros [? ?]; done|]. by exists s. }
  destruct (allow_all (co_limiter c) (ww_now w) _) as [l []]; cbn [negb].
  2:{ intros [= <- <-]. split; [done|]. intros id s Hs. left. split; [intros [? ?]; done|]. by exists s. }
  cbn [with_limiter co_users co_limiter co_sessions co_authSecret].
  destruct (login_user (co_users c) (TrimSpace name) password) as [u|] eqn:Eu.
  2:{ intros [= <- <-]. split; [done|]. intros id s Hs. left. split; [intros [? ?]; done|]. by exists s. }
  intros [= <- <-]. pose proof (gc_settings (co_sessions c) (ww_now w)) as [Et _]. split; [by constructor|].
  intros id s. cbn. destruct (decide (raw_url_encode (ww_session w) = id)) as [<-|Hne].
  - rewrite lookup_insert_eq. intros [= <-]. right. cbn. rewrite Et. by repeat eexists.
  - rewrite lookup_insert_ne by done. intros Hs. left. split; [intros [? ?]; done|]. by apply (gc_no_new _ _ _ _ Hs).
Qed.

Lemma plain_step c c' e :
  keeps c c' -> plain e.2 ->
  event_step c e c'.
Proof.
  intros [H1 H2] Hp. split; [done|]. intros id s Hs. left. split; [|by apply H2]. intros [u E]. by rewrite E in Hp.
Qed.

Lemma logout_step c r w c' x :
  handleLogout c r (ww_now w) = (c', x) ->
  event_step c ((r, w), x) c'.
Proof.
  unfold handleLogout. destruct (sessionFromRequest c r (ww_now w)) as [c1 o] eqn:Es. apply session_spec in Es as [Hk Ho].
  destruct o as [[user sid]|]; intros [= <- <-]; [|by apply plain_step].
  destruct (Ho _ _ eq_refl) as (Hne & _). destruct Hk as [[] H2]. unfold Revoke. rewrite bool_decide_eq_false_2 by done.
  split; [by constructor|]. intros id s Hs. cbn in Hs. apply lookup_delete_Some in Hs as [Hid Hs]. left. split; [|by apply H2]. intros [u [= <- <-]]. done.
Qed.

Lemma require_keeps c r now c' o : requireDelegatedTokenAdmin c r now = (c', o) -> keeps c c'.
Proof.
  unfold requireDelegatedTokenAdmin. destruct (_ || _); [by intros [= <- <-]|]. pose proof (principal_keeps c r now) as Hk.
  destruct (requestPrincipal c r now) as [c1 p]. case_bool_decide; by intros [= <- <-].
Qed.

Lemma admin_keeps c r now k c' x :
  (forall c1 c2 y, k c1 = (c2, y) -> keeps c1 c2 /\ plain y) ->
  token_admin c r now k = (c', x) -> keeps c c' /\ plain x.
Proof.
  intros Hk. unfold token_admin. destruct (requireDelegatedTokenAdmin c r now) as [c1 [code|]] eqn:E; apply require_keeps in E; [by intros [= <- <-]|].
  destruct (ds_loadErr _); [by intros [= <- <-]|]. intros [H1 H2]%Hk. split; [by etrans|done].
Qed.

Lemma tokens_principal_keeps c t r now : keeps c (requestPrincipal (with_tokens c t) r now).1.
Proof. etrans; [apply (keeps_tokens c t)|apply principal_keeps]. Qed.

Lemma list_keeps c r w c' x : handleListDelegatedTokens c r w = (c', x) -> keeps c c' /\ plain x.
Proof. apply admin_keeps. by intros c1 c2 y [= <- <-]. Qed.

Lemma create_keeps c r w c' x : handleCreateDelegatedToken c r w = (c', x) -> keeps c c' /\ plain x.
Proof.
  apply admin_keeps. intros c1 c2 y. cbv zeta. destruct (rq_principal r) as [p|]; [|by intros [= <- <-]].
  destruct (userExists (co_users c1) (TrimSpace p)); cbn [negb]; [|by intros [= <- <-]].
  destruct (Issue (co_tokens c1) (TrimSpace p) (ww_token w) (ww_save w)) as [t [[id tok]| |]]; intros [= <- <-]; split; first [apply tokens_principal_keeps|apply keeps_tokens|done].
Qed.

Lemma revoke_keeps c r w c' x : handleRevokeDelegatedToken c r w = (c', x) -> keeps c c' /\ plain x.
Proof.
  apply admin_keeps. intros c1 c2 y.
  destruct (Revoke_token (co_tokens c1) (rq_id r) (ww_save w)) as [t [u|e|]]; intros [= <- <-]; split; first [apply tokens_principal_keeps|apply keeps_tokens|done].
Qed.

Lemma status_keeps c r now c' x : handleAuthStatus c r now = (c', x) -> keeps c c' /\ plain x.
Proof.
  unfold handleAuthStatus. destruct (co_authEnabled c); cbn [negb]; [|by intros [= <- <-]].
  destruct (sessionFromRequest c r now) as [c1 o] eqn:E. intros [= <- <-]. by apply session_spec in E as [? _].
Qed.

Lemma console_dispatch_step c r w c' x :
  dispatch c r w = (c', x) ->
  event_step c ((r, w), x) c'.
Proof.
  unfold dispatch. case_bool_decide; [apply login_step|]. case_bool_decide; [apply logout_step|].
  intros Hd. cut (keeps c c' /\ plain x); [by intros []; apply plain_step|]. revert Hd.
  case_bool_decide; [apply status_keeps|]. case_bool_decide; [apply list_keeps|]. case_bool_decide; [apply create_keeps|].
  case_bool_decide; [apply revoke_keeps|]. by intros [= <- <-].
Qed.

Lemma Handler_step c r w c' x :
  Handler c r w = (c', x) ->
  event_step c ((r, w), x) c'.
Proof.
  unfold WebAuth.Handler. destruct (gate c r (ww_now w)) as [c1 [code|]] eqn:E; apply gate_keeps in E.
  - intros [= <- <-]. by apply plain_step.
  - destruct E as [E1 E2]. intros [H1 H2]%console_dispatch_step. split; [by etrans|]. intros id s [[Hc (s0 & Hs0 & <- & <-)]|Ho]%H2.
    + left. split; [done|]. by apply E2.
    + right. by eapply opens_settings.
Qed.

(** ** Runs *)

Lemma open_since_cons c e h id user expires : open_since c h id user expires -> open_since c (e :: h) id user expires.
Proof. intros (h1 & e' & h2 & -> & ?). by exists (e :: h1), e', h2. Qed.

(** A session there is after a run was there before it, and no logout closed it, or
    was opened in the run, and no logout closed it since. *)
Lemma run_sessions c l c' h :
  console_run c l = (c', h) ->
  same_settings c c' /\
  forall id s, st_byID (co_sessions c') !! id = Some s ->
    (Forall (fun e => ~ closes e id) h /\
     exists s0, st_byID (co_sessions c) !! id = Some s0 /\ ss_user s0 = ss_user s /\ ss_expires s0 = ss_expires s) \/
    open_since c h id (ss_user s) (ss_expires s).
Proof.
  revert c h. induction l as [|[r w] l IH]; intros c h; cbn [console_run].
  { intros [= <- <-]. split; [done|]. intros id s Hs. left. split; [constructor|by exists s]. }
  destruct (Handler c r w) as [c1 x] eqn:E1, (console_run c1 l) as [c2 h'] eqn:E2. intros [= <- <-].
  apply Handler_step in E1 as [S1 H1]. destruct (IH _ _ E2) as [S2 H2]. split; [by etrans|]. intros id s Hs.
  destruct (H2 id s Hs) as [[Hf (s1 & Hs1 & <- & <-)]|(h1 & e & h2 & -> & Ho & Hf)].
  - destruct (H1 id s1 Hs1) as [[Hc Hs0]|Ho]; [left; by split; [constructor|]|]. right. by exists [], ((r, w), x), h'.
  - right. apply open_since_cons. exists h1, e, h2. split_and!; [done| |done]. by eapply opens_settings.
Qed.

(** ** Who a request comes from *)

(** A request that is not blocked as a cross-site one. *)
Definition not_cross_site (r : wrequest) : Prop :=
  safe_method (rq_method r) = true \/ has_bearer r = true \/ (rq_csrf r = str "1" /\ sameOriginRequest r = true).

Lemma csrf_spec r : csrfMiddleware r = None <-> not_cross_site r.
Proof.
  unfold csrfMiddleware, not_cross_site. destruct (safe_method (rq_method r)), (has_bearer r), (sameOriginRequest r);
    cbn; try (split; [tauto|done]); case_bool_decide; cbn; naive_solver.
Qed.

(** The ways to prove to be a user. *)
Inductive proves (c0 c : Console) (h : list wevent) (r : wrequest) (now : Z) (user : gostring) : Prop :=
  | by_token :
      has_bearer r = true -> isClusterToken c0 (presented r) = false -> co_authorize c0 = true ->
      Principal (co_tokens c) (presented r) = Some user -> proves c0 c h r now user
  | by_session payload id exp expires :
      has_bearer r = false ->
      rq_cookie r (cookieName (secureRequest r)) = Some (signToken payload (co_authSecret c0)) ->
      parseSessionPayload payload = Some (user, id, exp) -> now <= exp ->
      open_since c0 h id user expires -> now <= expires -> proves c0 c h r now user.

Lemma cookie_signed c r user id exp :
  cookie_session c r = Some (user, id, exp) ->
  exists payload, rq_cookie r (cookieName (secureRequest r)) = Some (signToken payload (co_authSecret c)) /\
    parseSessionPayload payload = Some (user, id, exp).
Proof.
  unfold cookie_session. destruct (rq_cookie r _) as [v|]; [|done]. destruct (verifyToken v (co_authSecret c)) as [payload []] eqn:E; [|done].
  intros H. exists payload. by rewrite (verify_only_signed _ _ _ E).
Qed.

Lemma delegated_spec c token u :
  delegatedPrincipal c token = Some u -> co_authorize c = true /\ Principal (co_tokens c) token = Some u /\ userExists (co_users c) u = true.
Proof.
  unfold delegatedPrincipal. destruct (co_authEnabled c), (co_authorize c); cbn; try done.
  destruct (Principal (co_tokens c) token) as [p|]; [|done]. destruct (userExists (co_users c) p) eqn:E; [|done]. by intros [= <-].
Qed.

(** What authentication lets through, and who that is for the authorization after it. *)
Lemma auth_spec c0 l c h r now c' :
  co_sessions c0 = newSessionStore (st_ttl (co_sessions c0)) (st_idle (co_sessions c0)) ->
  console_run c0 l = (c, h) -> co_authEnabled c0 = true -> protected r = true ->
  authMiddleware c r now = (c', None) ->
  keeps c c' /\
  ((has_bearer r = true /\ isClusterToken c0 (presented r) = true /\ clusterTokenRoutes (rq_pattern r) = true) \/
   clusterTokenPresented c0 r = false /\
   exists user, proves c0 c h r now user /\ userExists (co_users c0) user = true /\
     forall now' c2 p, requestPrincipal c' r now' = (c2, p) -> p = user \/ p = []).
Proof.
  intros H0 Hrun Hen Hp Ha. pose proof (auth_keeps _ _ _ _ _ Ha) as Hk. split; [done|].
  apply run_sessions in Hrun as [S Hs]. unfold authMiddleware in Ha. rewrite (se_enabled _ _ S), Hen in Ha.
  apply andb_true_iff in Hp as [[Hp1 Hp2]%andb_true_iff Hp3]. apply negb_true_iff in Hp2, Hp3. rewrite Hp1, Hp2, Hp3 in Ha. cbn [negb orb] in Ha.
  assert (forall t, isClusterToken c t = isClusterToken c0 t) as Ec by (intros t; unfold isClusterToken; by rewrite (se_cluster _ _ S)).
  unfold clusterTokenPresented. destruct (has_bearer r) eqn:Eb.
  - rewrite Ec in Ha. destruct (isClusterToken c0 (presented r)) eqn:Et.
    { destruct (clusterTokenRoutes (rq_pattern r)); [by left|done]. }
    right. split; [done|]. destruct (delegatedPrincipal c (presented r)) as [u|] eqn:Ed; [|done]. injection Ha as <-.
    destruct (delegated_spec _ _ _ Ed) as (E1 & E2 & E3). rewrite (se_authorize _ _ S) in E1. rewrite (se_users _ _ S) in E3.
    exists u. split_and!; [by constructor|done|]. intros now' c2 p [_ [Hb _]]%principal_spec. left. destruct (Hb Eb) as [_ ->].
    unfold clusterTokenPresented. by rewrite Eb, Ec, Et, Ed.
  - right. split; [done|]. destruct (sessionFromRequest c r now) as [c1 [[user sid]|]] eqn:Es; [|done]. injection Ha as <-.
    destruct (session_spec _ _ _ _ _ Es) as [_ Ho]. destruct (Ho _ _ eq_refl) as (Hne & Hu & (exp & Ecs & He) & s & Hsid & <- & Hx).
    destruct (cookie_signed _ _ _ _ _ Ecs) as (payload & E1 & E2). rewrite (se_secret _ _ S) in E1. rewrite (se_users _ _ S) in Hu.
    exists (ss_user s). split_and!; [|done|].
    + destruct (Hs sid s Hsid) as [[_ (s0 & Hs0 & _)]|Hop]; [rewrite H0 in Hs0; cbn in Hs0; by rewrite lookup_empty in Hs0|].
      by eapply (by_session _ _ _ _ _ _ payload sid exp).
    + intros now' c2 p [_ [_ Hb]]%principal_spec. destruct (Hb Eb) as [->|(sid' & exp' & Ecs')]; [by right|]. left.
      unfold cookie_session in Ecs, Ecs'. rewrite (se_secret _ _ (ke_settings _ _ Hk)) in Ecs'. rewrite Ecs in Ecs'. by injection Ecs' as -> _ _.
Qed.

Lemma permits_nobody c rule params : co_authorize c = true -> permits c [] rule params = false.
Proof. intros E. unfold WebAuth.permits, canList, can. rewrite E. by destruct (ar_list rule). Qed.

Lemma permits_settings c c' p rule params : co_authorize c' = co_authorize c -> permits c' p rule params = permits c p rule params.
Proof. intros E. unfold WebAuth.permits, canList, can. by rewrite E. Qed.

(** C35: nobody gets to the console's API without proving who he is, and then only to
    what his rules allow. Run the console from a start without sessions through any
    requests, with security on. A request that then gets through to a protected route
    is not a cross-site one, and either carries the cluster token on the one route
    that takes it, or comes from a configured user: by a delegated token that the
    store has for him, or by a cookie signed with the secret, not expired, for a
    session that a login with his password opened less than the session's time ago
    and no logout closed since. With authorization on, and outside the fleet's
    routes, the route has a rule that its path matches and that allows this user. *)
Theorem console_access c0 l c h r now c' :
  co_sessions c0 = newSessionStore (st_ttl (co_sessions c0)) (st_idle (co_sessions c0)) ->
  console_run c0 l = (c, h) -> co_authEnabled c0 = true -> protected r = true ->
  gate c r now = (c', None) ->
  not_cross_site r /\
  ((has_bearer r = true /\ isClusterToken c0 (presented r) = true /\ clusterTokenRoutes (rq_pattern r) = true) \/
   exists user, proves c0 c h r now user /\ userExists (co_users c0) user = true /\
     (co_authorize c0 = true -> fleet_path (rq_path r) = false ->
      exists rule params, lookupRule (rq_pattern r) = Some rule /\ matchPattern (patternPath (rq_pattern r)) (rq_path r) = Some params /\
        permits c0 user rule params = true)).
Proof.
  intros H0 Hrun Hen Hp Hg. unfold WebAuth.gate in Hg. destruct (csrfMiddleware r) eqn:Ecs; [done|]. split; [by apply csrf_spec|].
  destruct (authMiddleware c r now) as [c1 [code|]] eqn:Ea; [done|]. pose proof (run_sessions _ _ _ _ Hrun) as [S0 _].
  destruct (auth_spec _ _ _ _ _ _ _ H0 Hrun Hen Hp Ea) as [Hk [Hcl|(Hct & user & Hpr & Hu & Hsame)]]; [by left|]. right.
  exists user. split_and!; [done|done|]. intros Haz Hfl. apply andb_true_iff in Hp as [[Hp1 Hp2]%andb_true_iff Hp3]. apply negb_true_iff in Hp2.
  pose proof (transitivity S0 (ke_settings _ _ Hk)) as S1. revert Hg. unfold authorizeAPI.
  assert (clusterTokenPresented c1 r = false) as ->.
  { unfold clusterTokenPresented, isClusterToken. by rewrite (se_cluster _ _ S1). }
  rewrite (se_authorize _ _ S1), Haz, Hp1, Hp2, Hfl. cbn [negb orb].
  destruct (lookupRule (rq_pattern r)) as [rule|]; [|done]. destruct (matchPattern _ (rq_path r)) as [params|]; [|done].
  destruct (requestPrincipal c1 r now) as [c2 p] eqn:Ep. destruct (permits c2 p rule params) eqn:Epm; [|done]. intros _.
  exists rule, params. split_and!; [done..|]. pose proof (principal_spec _ _ _ _ _ Ep) as [Hk2 _].
  rewrite (permits_settings c0 c2) in Epm by (by rewrite (se_authorize _ _ (ke_settings _ _ Hk2)), (se_authorize _ _ S1)).
  destruct (Hsame _ _ _ Ep) as [->| ->]; [done|]. by rewrite permits_nobody in Epm.
Qed.
End access.

(** ** A login and a read *)

Definition demo_rules : RuleStore := mkRules [mkRule (str "ann") ResourceTopic (str "orders") [OpRead]] None false.

Definition demo_console : Console :=
  mkConsole [mkUser (str "ann") (str "secret") [] []; mkUser (str "bob") (str "other") [] []] (str "key") true true (str "cluster") (newSessionStore 0 0)
    (RateLimit.New 3 0 0) (newDelegatedTokenStore (TJ := token_json) None) demo_rules.

Definition demo_request (method path pattern : gostring) (cookie : option gostring) (login : option (gostring * gostring)) : wrequest :=
  mkWReq method path pattern [] (str "1") None (str "console") (fun n => if bool_decide (n = authCookieName) then cookie else None)
    false false [] (str "10.0.0.1") [] login None.

Definition demo_login : list (wrequest * wworld) :=
  [(demo_request (str "POST") (str "/api/v1/auth/login") (str "POST /api/v1/auth/login") None (Some (str "ann", str "secret")),
    mkWWorld 0 [x01; x02; x03] [] true)].

Definition demo_run : Console * list wevent := console_run (TJ := token_json) demo_rules (CanDescribeAny demo_rules) demo_console demo_login.

(** Ann reads the topic [topic] with her cookie a minute later. *)
Definition demo_read (topic : gostring) : wrequest :=
  demo_request (str "GET") (str "/api/v1/topics/" ++ topic ++ str "/messages") (str "GET /api/v1/topics/{topic}/messages")
    (Some (signToken (sessionPayload (str "ann") (1440 * minute) (raw_url_encode [x01; x02; x03])) (str "key"))) None.

Definition demo_gate (topic : gostring) : option Z :=
  (gate demo_rules (CanDescribeAny demo_rules) demo_run.1 (demo_read topic) minute).2.

(** Her rule lets her read orders, and nothing else. *)
Lemma demo_gates : demo_gate (str "orders") = None /\ demo_gate (str "wages") = Some 403.
Proof. vm_compute. done. Qed.

Lemma console_access_witness :
  demo_gate (str "orders") = None /\ exists user, proves demo_console demo_run.1 demo_run.2 (demo_read (str "orders")) minute user.
Proof.
  assert (demo_gate (str "orders") = None) as Hg by (vm_compute; reflexivity). split; [exact Hg|].
  destruct (gate demo_rules (CanDescribeAny demo_rules) demo_run.1 (demo_read (str "orders")) minute) as [c' o] eqn:E.
  assert (o = None) as -> by (rewrite <- Hg; unfold demo_gate; rewrite E; reflexivity).
  destruct (console_access (TJ := token_json) demo_rules (CanDescribeAny demo_rules) demo_console demo_login demo_run.1 demo_run.2
    (demo_read (str "orders")) minute c') as [_ [(Hb & _)|(user & Hp & _)]].
  - vm_compute. reflexivity.
  - apply surjective_pairing.
  - reflexivity.
  - vm_compute. reflexivity.
  - exact E.
  - vm_compute in Hb. discriminate.
  - exists user. exact Hp.
Defined.
