(* ===== verification/Httpauth.v ===== *)
(** * Basic authentication for HTTP services (internal/httpauth/middleware.go)

    The middleware in front of the REST gateway and of the schema registry: back-off,
    TLS, the password of a configured user, and the authorization of what the request
    asks for. A request is its decoded parts; the audit log is left out. *)

From stdpp Require Import prelude countable strings gmap list.
From Stdlib Require Import ZArith Lia.
From S2P Require Import Prelude Wire GoStrings Credential Ratelimit Authz Sasl.

(** [h_basic]: what [BasicAuth] makes of the Authorization header. *)
Record hrequest := mkHttp {
  h_method : gostring;
  h_path : gostring;
  h_remote : gostring;
  h_tls : bool;
  h_basic : option (gostring * gostring) }.

Record Policy := mkPolicy {
  po_Public : list gostring;
  po_Classify : option (hrequest -> gostring * Resource * bool);
  po_RequireTLS : bool }.

Record Middleware := mkMiddleware {
  mw_enabled : bool;
  mw_users : list SecurityUser;
  mw_policy : Policy;
  mw_limiter : RateLimit.Limiter }.

Definition NewMiddleware (enabled : bool) (users : list SecurityUser) (p : Policy) : Middleware :=
  mkMiddleware enabled users p (RateLimit.New 3 RateLimit.second (30 * RateLimit.second)).

Definition set_limiter (m : Middleware) (l : RateLimit.Limiter) : Middleware :=
  mkMiddleware (mw_enabled m) (mw_users m) (mw_policy m) l.

Definition isPublic (m : Middleware) (path : gostring) : bool :=
  existsb (fun p => negb (bool_decide (p = [])) && HasPrefix path p) (po_Public (mw_policy m)).

(** The first user of that name decides. *)
Fixpoint find_user (users : list SecurityUser) (username password : gostring) : bool :=
  match users with
  | [] => false
  | u :: r =>
      if negb (bool_decide (u_Username u = username)) then find_user r username password else
      let stored := if bool_decide (u_Password u = []) then u_PasswordHash u else u_Password u in
      if bool_decide (stored = []) then false else Matches stored password
  end.

Definition credentialsValid (m : Middleware) (username password : gostring) : bool :=
  if bool_decide (username = []) then false else find_user (mw_users m) username password.

(** The segment after the first [topics] or [groups]. *)
Fixpoint classify_segments (op : gostring) (segments : list gostring) : gostring * Resource * bool :=
  match segments with
  | a :: ((b :: _) as r) =>
      if bool_decide (a = str "topics") then (op, mkResource ResourceTopic b, true) else
      if bool_decide (a = str "groups") then (op, mkResource ResourceGroup b, true) else classify_segments op r
  | _ => (op, mkResource ResourceCluster (str "cluster"), true)
  end.

Definition DefaultClassify (r : hrequest) : gostring * Resource * bool :=
  let op := if bool_decide (h_method r ∈ [str "GET"; str "HEAD"; str "OPTIONS"]) then OpRead else OpWrite in
  classify_segments op (Split (Trim (h_path r) x2f) x2f).

Definition classify (m : Middleware) (r : hrequest) : gostring * Resource * bool :=
  match po_Classify (mw_policy m) with
  | Some f => f r
  | None => DefaultClassify r
  end.

(** The address without the port. *)
Definition clientAddr (r : hrequest) : gostring :=
  if bool_decide (h_remote r = []) then [] else
  match LastIndex (h_remote r) [x3a] with
  | Some (S i) => if bool_decide (list.last (h_remote r) = Some x5d) then h_remote r else take (S i) (h_remote r)
  | _ => h_remote r
  end.

Section wrap.
Context {A : Type} {AZ : Authorizer A} (authorizer : A).

(** [Wrap] up to the next handler: who the request comes from, or how it is refused.
    Without security, and on public paths, nobody is asked. *)
Definition Wrap (m : Middleware) (r : hrequest) (now : Z) : Middleware * (option gostring + Z) :=
  if negb (mw_enabled m) || isPublic m (h_path r) then (m, inl None) else
  let addr := clientAddr r in
  let '(l, (ok, _)) := RateLimit.Allow (mw_limiter m) now addr in
  let m := set_limiter m l in
  if negb ok then (m, inr 429) else
  if po_RequireTLS (mw_policy m) && negb (h_tls r) then (m, inr 426) else
  match h_basic r with
  | Some (username, password) =>
      if credentialsValid m username password then
        let m := set_limiter m (RateLimit.Succeed (mw_limiter m) addr) in
        let '(op, res, checked) := classify m r in
        if checked && negb (match Authorize authorizer username op res with Ok _ => true | _ => false end)
        then (m, inr 403) else (m, inl (Some username))
      else (set_limiter m (RateLimit.Fail (mw_limiter m) now addr).1, inr 401)
  | None => (set_limiter m (RateLimit.Fail (mw_limiter m) now addr).1, inr 401)
  end.

(** ** What it guarantees *)

Definition allows (username op : gostring) (res : Resource) : Prop := Authorize authorizer username op res = Ok tt.

(** Whoever gets through where he must prove who he is has a password that matches,
    and may do what the request is classified as. *)
Lemma Wrap_passes m r now m' o :
  mw_enabled m = true -> isPublic m (h_path r) = false -> Wrap m r now = (m', inl o) ->
  exists username password op res checked,
    o = Some username /\ h_basic r = Some (username, password) /\ credentialsValid m username password = true /\
    (po_RequireTLS (mw_policy m) = true -> h_tls r = true) /\
    classify m r = (op, res, checked) /\ (checked = true -> allows username op res).
Proof.
  intros He Hp. unfold Wrap. rewrite He, Hp. cbn [negb orb].
  destruct (RateLimit.Allow (mw_limiter m) now (clientAddr r)) as [l [[] d]]; cbn [negb]; [|done].
  cbn [set_limiter mw_policy mw_limiter]. destruct (po_RequireTLS (mw_policy m) && negb (h_tls r)) eqn:Et; [done|].
  destruct (h_basic r) as [[username password]|]; [|done].
  change (credentialsValid (set_limiter m l) username password) with (credentialsValid m username password).
  destruct (credentialsValid m username password) eqn:Ec; [|done].
  match goal with |- context [classify ?x r] => change (classify x r) with (classify m r) end.
  destruct (classify m r) as [[op res] checked] eqn:Ek.
  destruct (checked && _) eqn:Ea; [done|]. intros [= <- <-]. exists username, password, op, res, checked. split_and!; try done.
  - intros E. rewrite E in Et. cbn in Et. by apply negb_false_iff in Et.
  - intros ->. cbn [andb] in Ea. apply negb_false_iff in Ea. unfold allows. by destruct (Authorize _ _ _ _) as [[]| |].
Qed.

(** Whoever has what it takes gets through, and his address is forgiven. *)
Lemma Wrap_lets_in m r now username password op res l d :
  mw_enabled m = true -> isPublic m (h_path r) = false ->
  RateLimit.Allow (mw_limiter m) now (clientAddr r) = (l, (true, d)) ->
  (po_RequireTLS (mw_policy m) = true -> h_tls r = true) ->
  h_basic r = Some (username, password) -> credentialsValid m username password = true ->
  classify m r = (op, res, true) -> allows username op res ->
  Wrap m r now = (set_limiter m (RateLimit.Succeed l (clientAddr r)), inl (Some username)).
Proof.
  intros He Hp Hl Ht Hb Hc Hk Ha. unfold Wrap. rewrite He, Hp, Hl. cbn [negb orb]. cbn [set_limiter mw_policy mw_limiter].
  assert (po_RequireTLS (mw_policy m) && negb (h_tls r) = false) as ->.
  { destruct (po_RequireTLS (mw_policy m)); [by rewrite Ht|done]. }
  rewrite Hb. change (credentialsValid (set_limiter m l) username password) with (credentialsValid m username password).
  rewrite Hc. match goal with |- context [classify ?x r] => change (classify x r) with (classify m r) end.
  by rewrite Hk, Ha.
Qed.
End wrap.

(** A path below a topic is classified as that topic. *)
Lemma classify_topic m r topic rest :
  po_Classify (mw_policy m) = None -> Split (Trim (h_path r) x2f) x2f = str "topics" :: topic :: rest ->
  classify m r = (if bool_decide (h_method r ∈ [str "GET"; str "HEAD"; str "OPTIONS"]) then OpRead else OpWrite,
                  mkResource ResourceTopic topic, true).
Proof. intros Hn Hs. unfold classify, DefaultClassify. rewrite Hn, Hs. reflexivity. Qed.
