(* ===== verification/Rest.v ===== *)
(** * The REST gateway (internal/gateway/rest.go)

    Publishing and reading records over HTTP, over the topic store and behind the
    middleware of Httpauth.v. A request is its decoded parts: the path is clean and
    unescaped, the headers of a message come in the order the map is walked. *)

From stdpp Require Import prelude countable strings gmap list.
From Stdlib Require Import ZArith Lia.
From S2P Require Import Prelude GoStrings GoBinary Wire RecordBatch Index Segment SegmentOps Partition PartitionOps.
From S2P Require Import Compaction CompactionProps CompactionWriter Idempotence Store Authz Group Broker BrokerProps OneRecord.
From S2P Require Import Credential Ratelimit Sasl Httpauth.

Record RESTProxy := mkProxy { rp_store : Store; rp_rrCounter : gmap gostring Z }.

Definition NewRESTProxy (s : Store) : RESTProxy := mkProxy s ∅.

(** [rb_value]: nothing, the bytes of a string, or the JSON of another value. *)
Record rest_body := mkBody { rb_key : gostring; rb_value : option (list byte); rb_headers : list (gostring * gostring) }.

(** The query of a request. *)
Record rest_query := mkQuery { rq_partition : gostring; rq_offset : gostring; rq_limit : gostring }.

Record restRecord := mkRest {
  rr_Topic : gostring;
  rr_Partition : Z;
  rr_Offset : Z;
  rr_Key : gostring;
  rr_Value : gostring;
  rr_Headers : gmap gostring gostring }.

Inductive rest_response :=
  | RError (code : Z)
  | RPublished (topic : gostring) (partition offset : Z)
  | RRecords (l : list restRecord).

(** ** Publishing *)

(** FNV-1a. *)
Definition key_hash (key : gostring) : Z :=
  fold_left (fun h b => u64 (Z.lxor h (b2z b) * 1099511628211)) key 14695981039346656037.

Definition counter (p : RESTProxy) (topic : gostring) : Z := u64 (default 0 (rp_rrCounter p !! topic) + 1).

(** The number of the partition a record goes to. *)
Definition choose_partition (p : RESTProxy) (t : Topic) (topic key qs : gostring) : RESTProxy * Z :=
  let n := i32 (Z.of_nat (size (t_Partitions t))) in
  if n <=? 1 then (p, 0) else
  if negb (bool_decide (qs = [])) then
    (p, match Atoi qs with
        | Ok want => if (0 <=? want) && (i32 want <? n) then i32 want else 0
        | _ => 0
        end)
  else if negb (bool_decide (key = [])) then (p, i32 (key_hash key mod n))
  else
    let c := counter p topic in
    (mkProxy (rp_store p) (<[topic := c]> (rp_rrCounter p)), i32 (c mod n)).

Definition rest_record (b : rest_body) : Record_ :=
  mkRecord 0 0 0 (Some (rb_key b)) (rb_value b) (map (fun kv => mkHeader kv.1 (Some kv.2)) (rb_headers b)).

Definition rest_batch (ms : Z) (b : rest_body) : RecordBatch := mkBatch 0 0 0 0 0 0 ms ms (-1) (-1) (-1) [rest_record b].

Section rest.
Context (disk : gostring -> Z -> partition_dir).
Context (remote : option (gostring -> outcome (list byte))).

(** The store with the topic in it, if its name will do; the error of
    [EnsureTopic] is dropped. *)
Definition ensured (s : Store) (topic : gostring) : outcome (Store * bool) :=
  match GetTopic s topic with
  | Some _ => Ok (s, true)
  | None =>
      match ValidateTopicName topic with
      | Ok _ => match EnsureTopic s (disk topic) topic 1 with (_, Panic) => Panic | (s, _) => Ok (s, true) end
      | Err _ => Ok (s, false)
      | Panic => Panic
      end
  end.

(** A partition that is not there is a nil pointer. *)
Definition publish (p : RESTProxy) (now : Z) (topic : gostring) (body : option rest_body) (qs : gostring)
  : RESTProxy * outcome rest_response :=
  match body with
  | None => (p, Ok (RError 400))
  | Some b =>
      match ensured (rp_store p) topic with
      | Ok (s, true) =>
          let p := mkProxy s (rp_rrCounter p) in
          match GetTopic s topic with
          | None => (p, Ok (RError 500))
          | Some t =>
              if bool_decide (t_Partitions t = ∅) then (p, Ok (RError 500)) else
              let '(p, pid) := choose_partition p t topic (rb_key b) qs in
              match EncodeRecordBatch (rest_batch (now / millisecond) b) with
              | Ok raw =>
                  match t_Partitions t !! pid with
                  | None => (p, Panic)
                  | Some part =>
                      let '(log, r) := Append (ps_log part) raw in
                      let p := mkProxy (put_partition s topic pid (mkPS log (ps_idempotence part))) (rp_rrCounter p) in
                      match r with
                      | Ok off => (p, Ok (RPublished topic pid off))
                      | Err _ => (p, Ok (RError 500))
                      | Panic => (p, Panic)
                      end
                  end
              | Err _ => (p, Ok (RError 500))
              | Panic => (p, Panic)
              end
          end
      | Ok (s, false) => (p, Ok (RError 400))
      | Err _ => (p, Ok (RError 500))
      | Panic => (p, Panic)
      end
  end.

(** ** Reading *)

Definition header_map (hs : list RecordHeader) : gmap gostring gostring :=
  fold_left (fun m h => <[hdr_Key h := default [] (hdr_Value h)]> m) hs ∅.

Definition record_view (topic : gostring) (partition base : Z) (rec : Record_) : restRecord :=
  mkRest topic partition (i64 (base + rec_OffsetDelta rec)) (default [] (rec_Key rec)) (default [] (rec_Value rec)) (header_map (rec_Headers rec)).

Definition batch_view (topic : gostring) (partition : Z) (b : RecordBatch) : list restRecord :=
  map (record_view topic partition (rb_BaseOffset b)) (rb_Records b).

Definition decodeRecords (topic : gostring) (partition : Z) (raw : list byte) : outcome (list restRecord) :=
  let? bs := decode_batches (S (length raw)) raw in Ok (mjoin (map (batch_view topic partition) bs)).

Definition rest_limit (s : gostring) : Z :=
  let limit := Atoi_value s in if (limit <=? 0) || (500 <? limit) then 50 else limit.

Definition consume (p : RESTProxy) (topic : gostring) (q : rest_query) : RESTProxy * outcome rest_response :=
  let offset := Atoi_value (rq_offset q) in
  let limit := rest_limit (rq_limit q) in
  let partition := i32 (Atoi_value (rq_partition q)) in
  match GetPartition (rp_store p) topic partition with
  | None => (p, Ok (RError 404))
  | Some part =>
      let '(log, r, _) := Read remote (ps_log part) offset (limit * 4096 + 4096) in
      let p := mkProxy (put_partition (rp_store p) topic partition (mkPS log (ps_idempotence part))) (rp_rrCounter p) in
      (p, match r with
          | Ok raw => let? l := decodeRecords topic partition raw in Ok (RRecords (take (Z.to_nat limit) l))
          | Err _ => Ok (RError 500)
          | Panic => Panic
          end)
  end.

(** ** Serving *)

Record gateway := mkGateway { gw_auth : Middleware; gw_proxy : RESTProxy }.

Record rest_request := mkRestReq { re_http : hrequest; re_body : option rest_body; re_query : rest_query }.

(** The topic of a path that has a route. *)
Definition rest_topic (path : gostring) : option gostring :=
  match Split path x2f with
  | [[]; a; topic; b] =>
      if bool_decide (a = str "topics" /\ b = str "messages" /\ topic <> []) then Some topic else None
  | _ => None
  end.

Context {A : Type} {AZ : Authorizer A} (authorizer : A).

(** [ServeMux] answers 404 and 405 itself; GET includes HEAD. *)
Definition rest_serve (g : gateway) (q : rest_request) (now : Z) : gateway * outcome rest_response :=
  let r := re_http q in
  match Wrap authorizer (gw_auth g) r now with
  | (m, inr code) => (mkGateway m (gw_proxy g), Ok (RError code))
  | (m, inl _) =>
      match rest_topic (h_path r) with
      | None => (mkGateway m (gw_proxy g), Ok (RError 404))
      | Some topic =>
          if bool_decide (h_method r = str "POST") then
            let '(p, x) := publish (gw_proxy g) now topic (re_body q) (rq_partition (re_query q)) in (mkGateway m p, x)
          else if bool_decide (h_method r ∈ [str "GET"; str "HEAD"]) then
            let '(p, x) := consume (gw_proxy g) topic (re_query q) in (mkGateway m p, x)
          else (mkGateway m (gw_proxy g), Ok (RError 405))
      end
  end.
End rest.
