(* ===== verification/RestProps.v ===== *)
(** * What the REST gateway guarantees

    A record that is published over HTTP is read back over HTTP, and who can do
    either. *)

From stdpp Require Import prelude countable strings gmap list.
From Stdlib Require Import ZArith Lia.
From S2P Require Import Prelude GoStrings GoBinary Wire RecordBatch Index Segment SegmentOps Partition PartitionOps.
From S2P Require Import Compaction CompactionProps CompactionWriter Idempotence Store Authz Group Broker BrokerProps OneRecord.
From S2P Require Import Credential Ratelimit Sasl Httpauth Rest.

Lemma header_map_spec (hs : list (gostring * gostring)) :
  NoDup hs.*1 -> header_map (map (fun kv => mkHeader kv.1 (Some kv.2)) hs) = list_to_map hs.
Proof.
  intros Hnd. unfold header_map.
  assert (forall m : gmap gostring gostring, (forall k, k ∈ hs.*1 -> m !! k = None) ->
    fold_left (fun m h => <[hdr_Key h := default [] (hdr_Value h)]> m) (map (fun kv => mkHeader kv.1 (Some kv.2)) hs) m = list_to_map hs ∪ m) as H.
  { induction hs as [|[k v] hs IH]; intros m Hm; [symmetry; apply (map_empty_union m)|]. apply NoDup_cons in Hnd as [Hk Hnd].
    cbn [map fold_left hdr_Key hdr_Value default from_option fst snd]. rewrite IH; [|done|].
    - cbn [list_to_map foldr]. rewrite <- insert_union_l, <- insert_union_r; [done|]. by apply not_elem_of_list_to_map_1.
    - intros k' Hk'. rewrite lookup_insert_ne by (intros ->; done). apply Hm. by right. }
  rewrite H by (intros; apply lookup_empty). apply (map_union_empty (list_to_map hs : gmap gostring gostring)).
Qed.

Lemma choose_range p t topic key qs : in_i32 (choose_partition p t topic key qs).2.
Proof. unfold choose_partition. repeat (case_match; try (cbn; mlia)); apply i32_range. Qed.

Lemma choose_store p t topic key qs : rp_store (choose_partition p t topic key qs).1 = rp_store p.
Proof. unfold choose_partition. by repeat case_match. Qed.

(** The bytes the gateway reads at once. *)
Definition rest_bytes : Z := 2052096.

Lemma rest_limit_range s : 0 < rest_limit s <= 500.
Proof.
  unfold rest_limit. destruct (Atoi_value s <=? 0) eqn:E1, (500 <? Atoi_value s) eqn:E2; cbn [orb]; try lia.
Qed.

Definition body_size (b : rest_body) : Z := 61 + weight (rest_record b).

Section rest.
Context (disk : gostring -> Z -> partition_dir).
Context (remote : option (gostring -> outcome (list byte))).

(** The record as a reader sees it. *)
Definition published_view (topic : gostring) (pid off : Z) (b : rest_body) : restRecord :=
  mkRest topic pid off (rb_key b) (default [] (rb_value b)) (list_to_map (rb_headers b)).

(** What a publish leaves: the record at the old log end of the partition. *)
Definition stored_at (s : Store) (topic : gostring) (pid off : Z) (b : rest_body) : Prop :=
  exists part bss bs1 stored d,
    GetPartition s topic pid = Some part /\ pt_inv (ps_log part) bss /\ mjoin bss = bs1 ++ [stored] /\
    chain (earliestOffsetLocked (ps_log part)) bs1 off /\ chain off [stored] (pt_nextOffset (ps_log part)) /\
    decodes_as stored d /\ rb_Records d = [rest_record b] /\ 0 <= off < 4611686018427387904 /\
    fits rest_bytes (orderedSegmentsLocked (ps_log part)).

Lemma publish_spec p now topic b qs s t p' pid part bss :
  ensured disk (rp_store p) topic = Ok (s, true) -> GetTopic s topic = Some t ->
  choose_partition (mkProxy s (rp_rrCounter p)) t topic (rb_key b) qs = (p', pid) ->
  t_Partitions t !! pid = Some part -> ready_for rest_bytes (body_size b) (ps_log part) bss ->
  light (rest_record b) -> 0 <= now < 9223372036854775807 ->
  exists p2, publish disk p now topic (Some b) qs = (p2, Ok (RPublished topic pid (pt_nextOffset (ps_log part)))) /\
    stored_at (rp_store p2) topic pid (pt_nextOffset (ps_log part)) b.
Proof.
  intros He Ht Hc Hp Hr Hl Hnow. destruct (append_one _ _ _ _ (now / millisecond) (rest_record b) Hr Hl ltac:(done) (now_ms now Hnow))
    as (raw & log & bss' & stored & d & E1 & E2 & E3 & E4 & E5 & E6 & _ & E7 & E8 & E9 & E10).
  unfold publish. rewrite He, Ht. rewrite bool_decide_eq_false_2 by (intros E; rewrite E in Hp; by rewrite lookup_empty in Hp).
  rewrite Hc. change (rest_batch (now / millisecond) b) with (flushed (now / millisecond) [rest_record b]). rewrite E1, Hp, E2.
  eexists. split; [reflexivity|]. cbn [rp_store].
  pose proof (rl_inv _ _ Hr) as Hi. pose proof (earliest_range _ _ Hi) as [H0 H1]. pose proof (rl_next _ _ Hr).
  destruct (segs_inv_chain _ _ _ _ (pi_segs _ _ Hi)) as [_ Hchain].
  exists (mkPS log (ps_idempotence part)), bss', (mjoin bss), stored, d. cbn [ps_log]. split_and!; try done; try lia.
  - apply (put_get_same s topic pid _ part). unfold GetPartition. unfold GetTopic in Ht. by rewrite Ht.
  - by rewrite E9.
Qed.

Lemma consume_spec p topic pid off b q :
  stored_at (rp_store p) topic pid off b -> NoDup (rb_headers b).*1 -> in_i32 pid ->
  Atoi_value (rq_partition q) = pid -> Atoi_value (rq_offset q) = off ->
  exists p', consume remote p topic q = (p', Ok (RRecords [published_view topic pid off b])).
Proof.
  intros (part & bss & bs1 & stored & d & Hg & Hi & Hj & Hc1 & Hc2 & Hd & Hrec & Hoff & Hfit) Hnd Hpid Eq1 Eq2.
  unfold consume. rewrite Eq1, Eq2, i32_id, Hg by done. pose proof (rest_limit_range (rq_limit q)) as Hlim.
  destruct (read_from remote (ps_log part) bss bs1 [stored] off _ (rest_limit (rq_limit q) * 4096 + 4096) Hi Hj Hc1 Hc2 eq_refl)
    as (k & Hk & Hread); [done|lia| |].
  { eapply fits_le; [|exact Hfit]. unfold rest_bytes. lia. }
  cbn in Hk. assert (k = 1%nat) as -> by lia. cbn [take] in Hread. rewrite Hread. eexists. apply pair_equal_spec. split; [reflexivity|].
  destruct (segs_inv_chain _ _ _ _ (pi_segs _ _ Hi)) as [Hw _]. rewrite Hj in Hw. apply Forall_app in Hw as [_ Hw].
  unfold decodeRecords. rewrite (decode_batches_spec _ [stored] [d]) by (done || (by constructor) || lia). cbn [obind map].
  unfold batch_view. rewrite Hrec. cbn [map]. rewrite mjoin_cons. cbn [mjoin list_join app].
  destruct (Z.to_nat (rest_limit (rq_limit q))) as [|n] eqn:En; [lia|]. cbn [take]. rewrite take_nil. do 3 f_equal.
  destruct (decodes_fields _ _ Hd) as [-> _]. destruct Hc2 as [-> _].
  unfold record_view, published_view. cbn [rest_record rec_OffsetDelta rec_Key rec_Value rec_Headers default from_option].
  rewrite Z.add_0_r, i64_id by mlia. by rewrite header_map_spec.
Qed.

(** ** Through the middleware *)

Definition messages_path (topic : gostring) : gostring := str "/topics/" ++ topic ++ str "/messages".

Definition plain_topic (topic : gostring) : Prop := topic <> [] /\ Forall (fun b => b <> x2f) topic.

Lemma split_messages topic : plain_topic topic -> Split (str "topics/" ++ topic ++ str "/messages") x2f = [str "topics"; topic; str "messages"].
Proof.
  intros [_ Hf]. change (str "topics/" ++ topic ++ str "/messages") with (str "topics" ++ x2f :: topic ++ x2f :: str "messages").
  unfold Split. rewrite split_from_app by (apply Forall_forall; intros b Hb; revert b Hb; apply Forall_forall; by vm_compute; repeat constructor).
  rewrite split_from_app by done. by rewrite split_from_plain by (repeat constructor; done).
Qed.

Lemma messages_route topic : plain_topic topic -> rest_topic (messages_path topic) = Some topic.
Proof.
  intros Hp. unfold rest_topic. assert (Split (messages_path topic) x2f = [] :: Split (str "topics/" ++ topic ++ str "/messages") x2f) as ->.
  { reflexivity. }
  rewrite split_messages by done. rewrite bool_decide_eq_true_2; [done|]. split_and!; try done. apply Hp.
Qed.

Lemma messages_trim topic : Trim (messages_path topic) x2f = str "topics/" ++ topic ++ str "/messages".
Proof.
  unfold Trim, messages_path.
  change (trim_byte x2f (str "/topics/" ++ topic ++ str "/messages")) with (str "topics/" ++ topic ++ str "/messages").
  rewrite !app_assoc, rev_app_distr.
  change (trim_byte x2f (rev (str "/messages") ++ rev (str "topics/" ++ topic))) with (rev (str "/messages") ++ rev (str "topics/" ++ topic)).
  by rewrite rev_app_distr, !rev_involutive.
Qed.

Context {A : Type} {AZ : Authorizer A} (authorizer : A).

(** A request that the middleware lets through to its topic: from an address that is
    not held off, with the password of a user who may do [op] to the topic. *)
Record entitled (m : Middleware) (r : hrequest) (now : Z) (op topic : gostring) : Prop := {
  en_enabled : mw_enabled m = true;
  en_public : isPublic m (h_path r) = false;
  en_classify : po_Classify (mw_policy m) = None;
  en_addr : (RateLimit.Allow (mw_limiter m) now (clientAddr r)).2.1 = true;
  en_tls : po_RequireTLS (mw_policy m) = true -> h_tls r = true;
  en_user : exists username password, h_basic r = Some (username, password) /\
    credentialsValid m username password = true /\ allows authorizer username op (mkResource ResourceTopic topic) }.

Lemma entitled_passes m r now topic :
  let op := if bool_decide (h_method r ∈ [str "GET"; str "HEAD"; str "OPTIONS"]) then OpRead else OpWrite in
  plain_topic topic -> h_path r = messages_path topic -> entitled m r now op topic ->
  exists m' user, Wrap authorizer m r now = (m', inl (Some user)).
Proof.
  intros op Ht Hpath [H1 H2 H3 H4 H5 (user & pw & H6 & H7 & H8)].
  destruct (RateLimit.Allow (mw_limiter m) now (clientAddr r)) as [l [ok d]] eqn:El. cbn in H4. subst ok.
  eexists _, user. eapply Wrap_lets_in; try done.
  rewrite (classify_topic m r topic [str "messages"]); [done|done|]. by rewrite Hpath, messages_trim, split_messages.
Qed.

(** C28: what is published over HTTP is read back over HTTP. A user who may write to a
    topic posts a message, which goes to the partition that the query, the hash of
    its key or the counter names, of a topic that is created if need be. He is
    answered with the log end of that partition, and any user who may read the topic
    and asks for that partition and offset gets exactly this record: its key, its
    value and its headers. *)
Theorem rest_publish_then_consume g q now topic b s t p' pid part bss :
  h_method (re_http q) = str "POST" -> h_path (re_http q) = messages_path topic -> plain_topic topic ->
  entitled (gw_auth g) (re_http q) now OpWrite topic ->
  re_body q = Some b -> NoDup (rb_headers b).*1 -> light (rest_record b) ->
  ensured disk (rp_store (gw_proxy g)) topic = Ok (s, true) -> GetTopic s topic = Some t ->
  choose_partition (mkProxy s (rp_rrCounter (gw_proxy g))) t topic (rb_key b) (rq_partition (re_query q)) = (p', pid) ->
  t_Partitions t !! pid = Some part -> ready_for rest_bytes (body_size b) (ps_log part) bss -> 0 <= now < 9223372036854775807 ->
  let off := pt_nextOffset (ps_log part) in
  exists g1, rest_serve disk remote authorizer g q now = (g1, Ok (RPublished topic pid off)) /\
    forall q2 now2, h_method (re_http q2) = str "GET" -> h_path (re_http q2) = messages_path topic ->
      entitled (gw_auth g1) (re_http q2) now2 OpRead topic ->
      Atoi_value (rq_partition (re_query q2)) = pid -> Atoi_value (rq_offset (re_query q2)) = off ->
      exists g2, rest_serve disk remote authorizer g1 q2 now2 = (g2, Ok (RRecords [published_view topic pid off b])).
Proof.
  intros Hm Hpath Ht Hen Hb Hnd Hl He Hgt Hc Hp Hr Hnow off.
  destruct (entitled_passes (gw_auth g) (re_http q) now topic Ht Hpath) as (m1 & u1 & Hw1); [by rewrite Hm|].
  destruct (publish_spec (gw_proxy g) now topic b _ s t p' pid part bss He Hgt Hc Hp Hr Hl Hnow) as (p2 & Hpub & Hst).
  unfold rest_serve at 1. rewrite Hw1, Hpath, messages_route, Hm by done. rewrite (bool_decide_eq_true_2 (str "POST" = str "POST")) by done.
  rewrite Hb, Hpub. eexists. split; [reflexivity|]. intros q2 now2 Hm2 Hpath2 Hen2 Eq1 Eq2. cbn [gw_auth] in Hen2.
  destruct (entitled_passes m1 (re_http q2) now2 topic Ht Hpath2) as (m2 & u2 & Hw2); [by rewrite Hm2|].
  assert (in_i32 pid) as Hpid by (pose proof (choose_range (mkProxy s (rp_rrCounter (gw_proxy g))) t topic (rb_key b) (rq_partition (re_query q))) as H; by rewrite Hc in H).
  destruct (consume_spec p2 topic pid off b (re_query q2) Hst Hnd Hpid Eq1 Eq2) as (p3 & Hcons).
  unfold rest_serve. cbn [gw_auth gw_proxy]. rewrite Hw2, Hpath2, messages_route, Hm2 by done.
  rewrite bool_decide_eq_false_2 by done. rewrite bool_decide_eq_true_2 by (by left). rewrite Hcons. by eexists.
Qed.

Lemma consume_reads p topic q t pid off : (consume remote p topic q).2 <> Ok (RPublished t pid off).
Proof.
  unfold consume. destruct (GetPartition _ _ _) as [part|]; [|done]. destruct (Read _ _ _ _) as [[log r] hw]. cbn [snd].
  destruct r as [raw| |]; [|done|done]. by destruct (decodeRecords _ _ _).
Qed.

(** Nobody changes a topic over HTTP but by a POST to its path with a password of a
    user who may write to it. *)
Lemma rest_confined g q now g' topic pid off :
  mw_enabled (gw_auth g) = true -> isPublic (gw_auth g) (h_path (re_http q)) = false -> po_Classify (mw_policy (gw_auth g)) = None ->
  rest_serve disk remote authorizer g q now = (g', Ok (RPublished topic pid off)) ->
  plain_topic topic -> h_path (re_http q) = messages_path topic ->
  exists username password, h_basic (re_http q) = Some (username, password) /\
    credentialsValid (gw_auth g) username password = true /\ h_method (re_http q) = str "POST" /\
    allows authorizer username OpWrite (mkResource ResourceTopic topic).
Proof.
  intros He Hpub Hcl Hs Ht Hpath. unfold rest_serve in Hs.
  destruct (Wrap authorizer (gw_auth g) (re_http q) now) as [m [o|code]] eqn:Ew; [|done].
  apply Wrap_passes in Ew as (u & pw & op & res & checked & -> & Hb & Hc & _ & Hk & Ha); [|done|done].
  rewrite (classify_topic _ _ topic [str "messages"]) in Hk; [|done|by rewrite Hpath, messages_trim, split_messages].
  rewrite Hpath, messages_route in Hs by done. destruct (bool_decide (h_method (re_http q) = str "POST")) eqn:Em.
  - apply bool_decide_eq_true_1 in Em. rewrite Em in Hk. exists u, pw. split_and!; try done. simplify_eq. by apply Ha.
  - exfalso. destruct (bool_decide (h_method (re_http q) ∈ [str "GET"; str "HEAD"])); [|done].
    pose proof (consume_reads (gw_proxy g) topic (re_query q) topic pid off) as Hn.
    destruct (consume remote (gw_proxy g) topic (re_query q)) as [p x]. cbn in Hn. by simplify_eq.
Qed.
End rest.

(** ** A message *)

Definition rest_demo_auth : Middleware :=
  NewMiddleware true [mkUser (str "ada") (str "secret") [] []] (mkPolicy [str "/healthz"; str "/livez"] None true).

Definition rest_demo_gateway : gateway := mkGateway rest_demo_auth (NewRESTProxy demo_store).

Definition rest_demo_http (method : gostring) : hrequest :=
  mkHttp method (messages_path (str "orders")) (str "10.0.0.9:41000") true (Some (str "ada", str "secret")).

Definition rest_demo_body : rest_body := mkBody (str "k") (Some (str "v")) [(str "trace", str "7")].

Definition rest_demo_post : rest_request := mkRestReq (rest_demo_http (str "POST")) (Some rest_demo_body) (mkQuery [] [] []).
Definition rest_demo_get : rest_request := mkRestReq (rest_demo_http (str "GET")) None (mkQuery (str "0") (str "0") []).

Definition rest_demo_disk (_ : gostring) (_ : Z) : partition_dir := empty_dir.

Lemma rest_demo_ready : ready_for rest_bytes (body_size rest_demo_body) (ps_log (fresh_partition 1048576 4096)) [[]].
Proof.
  split.
  - apply fresh_partition_inv. lia.
  - vm_compute. reflexivity.
  - intros a [= <-]. vm_compute. split; discriminate.
  - repeat constructor; vm_compute; discriminate.
Qed.

Lemma rest_demo_entitled m r op :
  mw_enabled m = true -> mw_policy m = mw_policy rest_demo_auth -> mw_users m = mw_users rest_demo_auth ->
  (RateLimit.Allow (mw_limiter m) 0 (str "10.0.0.9")).2.1 = true -> (r = rest_demo_http (str "POST") \/ r = rest_demo_http (str "GET")) ->
  entitled AllowAll m r 0 op (str "orders").
Proof.
  intros H1 H2 H3 H4 Hr. assert (h_path r = messages_path (str "orders") /\ clientAddr r = str "10.0.0.9" /\ h_tls r = true /\
    h_basic r = Some (str "ada", str "secret")) as (E1 & E2 & E3 & E4) by (by destruct Hr as [-> | ->]).
  split; try done.
  - unfold isPublic. by rewrite H2, E1.
  - by rewrite H2.
  - by rewrite E2.
  - exists (str "ada"), (str "secret"). split_and!; try done. unfold credentialsValid. by rewrite H3.
Qed.

Lemma rest_publish_then_consume_witness :
  exists g1 g2, rest_serve rest_demo_disk None AllowAll rest_demo_gateway rest_demo_post 0 = (g1, Ok (RPublished (str "orders") 0 0)) /\
    rest_serve rest_demo_disk None AllowAll g1 rest_demo_get 0
    = (g2, Ok (RRecords [mkRest (str "orders") 0 0 (str "k") (str "v") {[str "trace" := str "7"]}])).
Proof.
  edestruct (rest_publish_then_consume rest_demo_disk None AllowAll rest_demo_gateway rest_demo_post 0 (str "orders") rest_demo_body
    (EnsureTopic demo_store (rest_demo_disk (str "orders")) (str "orders") 1).1) as (g1 & H1 & H2).
  12: exact rest_demo_ready.
  - reflexivity.
  - reflexivity.
  - split; [discriminate|]. repeat constructor; discriminate.
  - apply rest_demo_entitled; try reflexivity. by left.
  - reflexivity.
  - apply (bool_decide_eq_true_1 (NoDup _)). vm_compute. reflexivity.
  - vm_compute. discriminate.
  - vm_compute. reflexivity.
  - vm_compute. reflexivity.
  - vm_compute. reflexivity.
  - vm_compute. reflexivity.
  - lia.
  - exists g1. destruct (H2 rest_demo_get 0) as (g2 & H3).
    + reflexivity.
    + reflexivity.
    + assert (g1 = (rest_serve rest_demo_disk None AllowAll rest_demo_gateway rest_demo_post 0).1) as -> by (by rewrite H1).
      apply rest_demo_entitled; try (vm_compute; reflexivity). by right.
    + vm_compute. reflexivity.
    + vm_compute. reflexivity.
    + exists g2. split; [exact H1|exact H3].
Defined.

(** Of two partitions, number 2147483648 is taken for the partition -2147483648, which
    is not there: the handler dereferences a nil pointer. *)
Lemma partition_number_crashes :
  let s := (CreateTopic demo_store (fun _ => empty_dir) (str "orders") 2).1 in
  (publish rest_demo_disk (NewRESTProxy s) 0 (str "orders") (Some rest_demo_body) (str "2147483648")).2 = Panic /\
  (publish rest_demo_disk (NewRESTProxy s) 0 (str "orders") (Some rest_demo_body) (str "4294967296")).2 = Ok (RPublished (str "orders") 0 0).
Proof. vm_compute. split; reflexivity. Qed.
