(* ===== verification/WebTopics.v ===== *)
(** * Topics, messages and groups in the console (internal/web/web.go, admin.go,
    features.go, enterprise.go)

    The handlers behind the gate of WebAuth.v that look at and change the topic store,
    the coordinator and the rules. A request comes with its decoded body and with the
    user [requestPrincipal] finds for it, who was found by the gate at the same time
    already; [may] is [Server.can] for that user. Of an entry of the audit log the
    text is left out. *)

From stdpp Require Import prelude countable strings gmap list.
From Stdlib Require Import ZArith Lia.
From S2P Require Import Prelude GoStrings GoCrypto GoJson GoBinary Wire RecordBatch Index Segment SegmentOps Partition PartitionOps.
From S2P Require Import Compaction CompactionProps CompactionWriter Idempotence Store Authz OffsetStore Group Broker BrokerProps OneRecord.

Record AuditEntry := mkAudit { au_Time : Z; au_Actor : gostring; au_Action : gostring; au_Resource : gostring }.

Record console := mkBack {
  cs_store : Store;
  cs_gm : GroupManager;
  cs_rrCounter : gmap gostring Z;
  cs_acl : RuleStore;
  cs_audit : list AuditEntry }.

Definition with_topic_store (c : console) (s : Store) : console :=
  mkBack s (cs_gm c) (cs_rrCounter c) (cs_acl c) (cs_audit c).
Definition with_gm (c : console) (gm : GroupManager) : console :=
  mkBack (cs_store c) gm (cs_rrCounter c) (cs_acl c) (cs_audit c).
Definition with_counter (c : console) (rr : gmap gostring Z) : console :=
  mkBack (cs_store c) (cs_gm c) rr (cs_acl c) (cs_audit c).
Definition with_acl (c : console) (acl : RuleStore) : console :=
  mkBack (cs_store c) (cs_gm c) (cs_rrCounter c) acl (cs_audit c).

Definition auditRingSize : Z := 500.

Definition actorFrom (principal : gostring) : gostring := if bool_decide (principal = []) then str "anonymous" else principal.

(** [recordAuditEvent]: the last entries only. *)
Definition recordAudit (c : console) (now : Z) (principal action resource : gostring) : console :=
  let l := cs_audit c ++ [mkAudit (now / millisecond) (actorFrom principal) action resource] in
  mkBack (cs_store c) (cs_gm c) (cs_rrCounter c) (cs_acl c) (if auditRingSize <? zlen l then drop (Z.to_nat (zlen l - auditRingSize)) l else l).

Definition handleAudit (c : console) : list AuditEntry := rev (cs_audit c).

(** ** Views *)

Record partitionInfo := mkPartInfo { pf_Partition : Z; pf_LogEnd : Z; pf_HighWater : Z; pf_Earliest : Z; pf_Bytes : Z }.

Record messageRecord := mkMessage {
  mr_Topic : gostring; mr_Partition : Z; mr_Offset : Z; mr_Timestamp : Z; mr_Key : gostring; mr_Value : gostring;
  mr_ValueB64 : gostring; mr_ValueSize : Z; mr_IsJSON : bool; mr_Headers : gmap gostring gostring }.

Record groupOffsetRow := mkRow { go_Topic : gostring; go_Partition : Z; go_Current : Z; go_LogEnd : Z; go_Lag : Z }.

(** Why a scan of messages stopped. *)
Inductive stop_reason := ReachedEnd | LimitReached | ClientGone | ByteBudget | TimeBudget | ReadError | NoProgress.

Record search_result := mkFound {
  sf_records : list messageRecord; sf_scanned : Z; sf_next : Z; sf_bytesRead : Z; sf_truncated : bool; sf_reason : stop_reason }.

Inductive cresponse :=
  | CError (code : Z)
  | CDone
  | CTopics (l : list (gostring * list partitionInfo * Z))
  | CPartitions (l : list partitionInfo)
  | CPosted (topic : gostring) (partition offset : Z)
  | CImported (n : Z)
  | CFound (r : search_result)
  | CConfig (compacted : bool)
  | CReset (offset : Z)
  | CGroups (l : list (GroupInfo * list (gostring * Z * Z)))
  | CGroup (info : GroupInfo) (members : list (gostring * gmap gostring (list Z))) (rows : list groupOffsetRow)
  | COffsets (l : gmap gostring (gmap Z Z))
  | CApplied (n : Z)
  | CRules (l : list Rule).

(** ** Topics *)

(** Partitions 0, 1, ... of a topic; one that is not there is a nil pointer. *)
Fixpoint partition_infos (ps : gmap Z PartitionState) (n : nat) (i : Z) : outcome (list partitionInfo) :=
  match n with
  | O => Ok []
  | S n =>
      match ps !! i32 i with
      | None => Panic
      | Some q =>
          let p := ps_log q in
          let? r := partition_infos ps n (i + 1) in
          Ok (mkPartInfo (i32 i) (pt_nextOffset p) (pt_highWatermark p) (earliestOffsetLocked p) (totalSizeLocked p) :: r)
      end
  end.

Definition topic_infos (t : Topic) : outcome (list partitionInfo) := partition_infos (t_Partitions t) (size (t_Partitions t)) 0.

Section handlers.
Context (disk : gostring -> Z -> partition_dir).
Context (remote : option (gostring -> outcome (list byte))).
(** The user of a request, and what he may do. *)
Context (principal : gostring) (may : gostring -> Resource -> bool).

Definition sees (topic : gostring) : bool := may OpDescribe (mkResource ResourceTopic topic).

Fixpoint list_topics (s : Store) (names : list gostring) : outcome (list (gostring * list partitionInfo * Z)) :=
  match names with
  | [] => Ok []
  | name :: r =>
      if negb (sees name) then list_topics s r else
      match GetTopic s name with
      | None => list_topics s r
      | Some t =>
          let? ps := topic_infos t in
          let? rest := list_topics s r in
          Ok ((name, ps, foldr (fun p n => pf_Bytes p + n) 0 ps) :: rest)
      end
  end.

Definition handleTopics (c : console) : console * outcome cresponse :=
  (c, let? l := list_topics (cs_store c) (TopicNames (cs_store c)) in Ok (CTopics l)).

Definition handleTopicPartitions (c : console) (topic : gostring) : console * outcome cresponse :=
  (c, match GetTopic (cs_store c) topic with
      | None => Ok (CError 404)
      | Some t => let? l := topic_infos t in Ok (CPartitions l)
      end).

Definition handleCreateTopic (c : console) (now : Z) (body : option (gostring * Z)) : console * outcome cresponse :=
  match body with
  | None => (c, Ok (CError 400))
  | Some (name, partitions) =>
      if bool_decide (name = []) then (c, Ok (CError 400)) else
      let partitions := if partitions <=? 0 then 1 else partitions in
      match ValidateTopicName name with
      | Ok _ =>
          match GetTopic (cs_store c) name with
          | Some _ => (c, Ok (CError 409))
          | None =>
              match CreateTopic (cs_store c) (disk name) name partitions with
              | (s, Ok _) => (recordAudit (with_topic_store c s) now principal (str "topic.create") name, Ok CDone)
              | (s, Err _) => (recordAudit (with_topic_store c s) now principal (str "topic.create") name, Ok (CError 500))
              | (s, Panic) => (with_topic_store c s, Panic)
              end
          end
      | _ => (c, Ok (CError 400))
      end
  end.

Definition handleDeleteTopic (c : console) (now : Z) (topic : gostring) : console * outcome cresponse :=
  match GetTopic (cs_store c) topic with
  | None => (c, Ok (CError 404))
  | Some _ =>
      match DeleteTopic (cs_store c) topic with
      | (s, Ok _) => (recordAudit (with_topic_store c s) now principal (str "topic.delete") topic, Ok CDone)
      | (s, Err _) => (recordAudit (with_topic_store c s) now principal (str "topic.delete") topic, Ok (CError 500))
      | (s, Panic) => (with_topic_store c s, Panic)
      end
  end.

Definition handleTruncateTopic (c : console) (now : Z) (topic : gostring) (body : option (Z * Z)) : console * outcome cresponse :=
  match body with
  | None => (c, Ok (CError 400))
  | Some (pid, offset) =>
      match GetPartition (cs_store c) topic pid with
      | None => (c, Ok (CError 404))
      | Some q =>
          match TruncateTo (ps_log q) offset with
          | Ok p => (recordAudit (with_topic_store c (put_partition (cs_store c) topic pid (mkPS p (ps_idempotence q)))) now principal (str "topic.truncate") topic,
                     Ok CDone)
          | Err _ => (recordAudit c now principal (str "topic.truncate") topic, Ok (CError 500))
          | Panic => (c, Panic)
          end
      end
  end.

(** No other compaction is running. *)
Definition handleCompactTopic (c : console) (clock : Z -> Z) (now : Z) (topic : gostring) (pids : list Z) : console * outcome cresponse :=
  match GetTopic (cs_store c) topic with
  | None => (c, Ok (CError 404))
  | Some _ =>
      match CompactNow clock now (cs_store c) topic pids with
      | (s, Ok _) => (recordAudit (with_topic_store c s) now principal (str "topic.compact") topic, Ok CDone)
      | (s, Err _) => (recordAudit (with_topic_store c s) now principal (str "topic.compact") topic, Ok (CError 500))
      | (s, Panic) => (with_topic_store c s, Panic)
      end
  end.

(** The body is what a PUT brings. *)
Definition handleTopicConfig (c : console) (now : Z) (get : bool) (topic : gostring) (body : option bool) : console * outcome cresponse :=
  if get then
    (c, Ok (match GetTopic (cs_store c) topic with Some _ => CConfig (IsCompacted (cs_store c) topic) | None => CError 404 end))
  else
  match body with
  | None => (c, Ok (CError 400))
  | Some compacted =>
      match GetTopic (cs_store c) topic with
      | None => (c, Ok (CError 404))
      | Some _ => (recordAudit (with_topic_store c (MarkCompacted (cs_store c) topic compacted)) now principal (str "topic.config") topic, Ok (CConfig compacted))
      end
  end.

(** ** Messages *)

Record message := mkMsg { ms_key : gostring; ms_value : option (list byte); ms_headers : list (gostring * gostring) }.

Definition message_of (m : message) : Record_ :=
  mkRecord 0 0 0 (Some (ms_key m)) (ms_value m) (map (fun kv => mkHeader kv.1 (Some kv.2)) (ms_headers m)).

Definition message_batch (ms : Z) (m : message) : RecordBatch := mkBatch 0 0 0 0 0 0 ms ms (-1) (-1) (-1) [message_of m].

Definition hash_key (key : gostring) : Z :=
  fold_left (fun h b => u64 (Z.lxor h (b2z b) * 1099511628211)) key 14695981039346656037.

Definition pickPartition (c : console) (topic key : gostring) (want : Z) : console * option Z :=
  match GetTopic (cs_store c) topic with
  | None => (c, None)
  | Some t =>
      let ps := t_Partitions t in
      let n := i32 (Z.of_nat (size ps)) in
      let there i := if bool_decide (is_Some (ps !! i)) then Some i else None in
      if n =? 0 then (c, None) else
      if (0 <=? want) && (want <? n) then (c, there want) else
      if n =? 1 then (c, there 0) else
      if bool_decide (key = []) then
        let k := u64 (default 0 (cs_rrCounter c !! topic) + 1) in
        (with_counter c (<[topic := k]> (cs_rrCounter c)), there (i32 (k mod n)))
      else (c, there (i32 (hash_key key mod n)))
  end.

Definition ensure_topic (c : console) (topic : gostring) : console * outcome unit :=
  match GetTopic (cs_store c) topic with
  | Some _ => (c, Ok tt)
  | None =>
      match EnsureTopic (cs_store c) (disk topic) topic 1 with
      | (s, Ok _) => (with_topic_store c s, Ok tt)
      | (s, Err e) => (with_topic_store c s, Err e)
      | (s, Panic) => (with_topic_store c s, Panic)
      end
  end.

(** A batch of one record is appended to a partition that is there. *)
Definition append_message (c : console) (now : Z) (topic : gostring) (pid : Z) (m : message) : console * outcome Z :=
  match GetPartition (cs_store c) topic pid with
  | None => (c, Panic)
  | Some q =>
      match EncodeRecordBatch (message_batch (now / millisecond) m) with
      | Ok raw =>
          let '(log, r) := Append (ps_log q) raw in
          (with_topic_store c (put_partition (cs_store c) topic pid (mkPS log (ps_idempotence q))), r)
      | Err e => (c, Err e)
      | Panic => (c, Panic)
      end
  end.

(** The error of [EnsureTopic] is dropped. *)
Definition handlePostMessage (c : console) (now : Z) (topic : gostring) (body : option (message * option Z)) : console * outcome cresponse :=
  match body with
  | None => (c, Ok (CError 400))
  | Some (m, want) =>
      match ensure_topic c topic with
      | (c, Panic) => (c, Panic)
      | (c, _) =>
          match pickPartition c topic (ms_key m) (default (-1) want) with
          | (c, None) => (c, Ok (CError 500))
          | (c, Some pid) =>
              match append_message c now topic pid m with
              | (c, Ok off) => (c, Ok (CPosted topic pid off))
              | (c, Err _) => (c, Ok (CError 500))
              | (c, Panic) => (c, Panic)
              end
          end
      end
  end.

(** The lines of an import, [None] where one is not a record; blank lines are gone. *)
Fixpoint import_rows (c : console) (now : Z) (topic : gostring) (rows : list (option message)) (count : Z) : console * (Z + outcome cresponse) :=
  match rows with
  | [] => (c, inl count)
  | None :: _ => (c, inr (Ok (CError 400)))
  | Some m :: rows =>
      match append_message c now topic 0 m with
      | (c, Ok _) => import_rows c now topic rows (count + 1)
      | (c, Err _) => (c, inr (Ok (CError 500)))
      | (c, Panic) => (c, inr Panic)
      end
  end.

(** [long]: a line beyond the buffer ends the scan after these rows. *)
Definition handleImportJSONL (c : console) (now : Z) (topic : gostring) (rows : list (option message)) (long : bool) : console * outcome cresponse :=
  match ensure_topic c topic with
  | (c, Err _) => (c, Ok (CError 400))
  | (c, Panic) => (c, Panic)
  | (c, Ok _) =>
      match GetPartition (cs_store c) topic 0 with
      | None => (c, Ok (CError 500))
      | Some _ =>
          match import_rows c now topic rows 0 with
          | (c, inr x) => (c, x)
          | (c, inl n) => if long then (c, Ok (CError 400)) else (recordAudit c now principal (str "topic.import") topic, Ok (CImported n))
          end
      end
  end.

Definition message_headers (hs : list RecordHeader) : gmap gostring gostring :=
  fold_left (fun m h => <[hdr_Key h := default [] (hdr_Value h)]> m) hs ∅.

Definition message_view (topic : gostring) (partition base ts : Z) (rec : Record_) : messageRecord :=
  let value := default [] (rec_Value rec) in
  mkMessage topic partition (i64 (base + rec_OffsetDelta rec)) (i64 (ts + rec_TimestampDelta rec)) (default [] (rec_Key rec)) value
    (b64_encode value) (zlen value) (json_Valid value) (message_headers (rec_Headers rec)).

Definition batch_messages (topic : gostring) (partition : Z) (b : RecordBatch) : list messageRecord :=
  map (message_view topic partition (rb_BaseOffset b) (rb_BaseTimestamp b)) (rb_Records b).

Definition decodeRecords (topic : gostring) (partition : Z) (raw : list byte) : outcome (list messageRecord) :=
  let? bs := decode_batches (S (length raw)) raw in Ok (mjoin (map (batch_messages topic partition) bs)).

(** ** Searching *)

Record search_query := mkSearch {
  sq_offset : gostring; sq_limit : gostring; sq_partition : gostring; sq_search : gostring;
  sq_from : gostring; sq_to : gostring; sq_budget : gostring }.

Definition searchDefaultByteBudget : Z := 8388608.
Definition searchMaxByteBudget : Z := 67108864.

Definition budgetInt64 (raw : gostring) (def max : Z) : Z :=
  match Atoi raw with
  | Ok v => if v <=? 0 then def else if max <? v then max else v
  | _ => def
  end.

Definition search_limit (s : gostring) : Z :=
  let limit := Atoi_value s in if (limit <=? 0) || (500 <? limit) then 50 else limit.

(** What a record must be. *)
Record criteria := mkCriteria { cr_search : gostring; cr_from : Z; cr_to : Z }.

Definition matches (q : criteria) (r : messageRecord) : bool :=
  negb ((0 <? cr_from q) && (mr_Timestamp r <? cr_from q)) &&
  negb ((0 <? cr_to q) && (cr_to q <? mr_Timestamp r)) &&
  (bool_decide (ToLower (cr_search q) = []) ||
   Contains (ToLower (mr_Key r)) (ToLower (cr_search q)) || Contains (ToLower (mr_Value r)) (ToLower (cr_search q))).

(** The records of a page until the limit is reached; how many were looked at. *)
Fixpoint scan_page (q : criteria) (limit next : Z) (recs found : list messageRecord) (scanned : Z) : list messageRecord * Z :=
  match recs with
  | [] => (found, scanned)
  | r :: recs =>
      if (mr_Offset r <? next) || negb (matches q r) then scan_page q limit next recs found (scanned + 1) else
      let found := found ++ [r] in
      if limit <=? zlen found then (found, scanned + 1) else scan_page q limit next recs found (scanned + 1)
  end.

(** [gone], [late]: in which rounds the client is gone or the time is over. *)
Fixpoint search_loop (fuel : nat) (gone late : nat -> bool) (q : criteria) (topic : gostring) (partition limit budget : Z)
    (p : Partition) (found : list messageRecord) (next scanned bytesRead : Z) : Partition * outcome search_result :=
  match fuel with
  | O => (p, Err no_fuel)
  | S k =>
      let stop reason truncated := (p, Ok (mkFound found scanned next bytesRead truncated reason)) in
      if negb ((zlen found <? limit) && (next <? pt_nextOffset p)) then stop ReachedEnd false else
      if gone k then stop ClientGone true else
      if budget <=? bytesRead then stop ByteBudget true else
      if late k then stop TimeBudget true else
      let '(p, r, _) := Read remote p next (limit * 4096 + 4096) in
      match r with
      | Err _ => (p, Ok (mkFound found scanned next bytesRead true ReadError))
      | Panic => (p, Panic)
      | Ok raw =>
          if zlen raw =? 0 then (p, Ok (mkFound found scanned next bytesRead false ReachedEnd)) else
          let bytesRead := bytesRead + zlen raw in
          match decodeRecords topic partition raw with
          | Ok records =>
              let '(found', scanned) := scan_page q limit next records found scanned in
              if zlen found' =? zlen found then
                let last := match list.last records with Some r => mr_Offset r | None => 0 end in
                if last <=? next then (p, Ok (mkFound found scanned next bytesRead (next <? pt_nextOffset p) NoProgress))
                else search_loop k gone late q topic partition limit budget p found (i64 (last + 1)) scanned bytesRead
              else
                let next := match list.last found' with Some r => i64 (mr_Offset r + 1) | None => next end in
                search_loop k gone late q topic partition limit budget p found' next scanned bytesRead
          | Err e => (p, Err e)
          | Panic => (p, Panic)
          end
      end
  end.

(** The reason, as it is reported in the end. *)
Definition final_reason (limit : Z) (r : search_result) : search_result :=
  if sf_truncated r then r else
  mkFound (sf_records r) (sf_scanned r) (sf_next r) (sf_bytesRead r) false (if limit <=? zlen (sf_records r) then LimitReached else ReachedEnd).

(** Where the scan starts: without an offset and criteria, at the last records. *)
Definition search_start (p : Partition) (q : search_query) (limit : Z) : Z :=
  let offset := if bool_decide (sq_offset q = []) then 0 else Atoi_value (sq_offset q) in
  let offset :=
    if bool_decide (sq_offset q = [] /\ sq_search q = []) && (Atoi_value (sq_from q) =? 0) && (Atoi_value (sq_to q) =? 0)
    then Z.max (pt_nextOffset p - limit) (earliestOffsetLocked p) else offset in
  Z.max offset (earliestOffsetLocked p).

(** [slot]: one of the four scans at a time is free. *)
Definition handleSearchMessages (c : console) (topic : gostring) (q : search_query) (slot : bool) (gone late : nat -> bool)
  : console * outcome cresponse :=
  let limit := search_limit (sq_limit q) in
  let partition := i32 (Atoi_value (sq_partition q)) in
  match GetPartition (cs_store c) topic partition with
  | None => (c, Ok (CError 404))
  | Some ps =>
      if negb slot then (c, Ok (CError 503)) else
      let p := ps_log ps in
      let start := search_start p q limit in
      let crit := mkCriteria (sq_search q) (Atoi_value (sq_from q)) (Atoi_value (sq_to q)) in
      let budget := budgetInt64 (sq_budget q) searchDefaultByteBudget searchMaxByteBudget in
      let '(p', r) := search_loop (S (Z.to_nat (pt_nextOffset p - start))) gone late crit topic partition limit budget p [] start 0 0 in
      (with_topic_store c (put_partition (cs_store c) topic partition (mkPS p' (ps_idempotence ps))),
       let? r := r in Ok (CFound (final_reason limit r)))
  end.

(** ** Following a topic *)

Definition tailMaxPerFrame : Z := 2000.

Definition capTailFrame (pending : list messageRecord) (max : Z) : list messageRecord * Z :=
  if (max <=? 0) || (zlen pending <=? max) then (pending, 0)
  else (drop (Z.to_nat (zlen pending - max)) pending, zlen pending - max).

(** A partition followed and the next offset, the partition as its reads leave it;
    the new position, the records and how many were missed. *)
Definition tail_part (topic : gostring) (id : Z) (p : Partition) (next : Z) : Partition * outcome (Z * list messageRecord * Z) :=
  let hwm := pt_highWatermark p in
  if hwm <=? next then (p, Ok (next, [], 0)) else
  let want := hwm - next in
  let '(p, r, _) := Read remote p next 1048576 in
  (p, match r with
      | Ok raw =>
          let? recs := if 0 <? zlen raw then decodeRecords topic id raw else Ok [] in
          Ok (hwm, recs, Z.max 0 (want - zlen recs))
      | Err _ => Ok (hwm, [], want)
      | Panic => Panic
      end).

(** The frames of a round: records, and the number of those left out. *)
Definition tail_frames (pending : list messageRecord) (unread : Z) : option (list messageRecord) * option Z :=
  let '(frame, capped) := capTailFrame pending tailMaxPerFrame in
  let unread := unread + (if bool_decide (pending = []) then 0 else capped) in
  ((if bool_decide (pending = []) then None else Some frame), if 0 <? unread then Some unread else None).

(** ** Groups *)

Definition log_end (s : Store) (topic : gostring) (pid : Z) : Z :=
  match GetPartition s topic pid with Some q => pt_nextOffset (ps_log q) | None => 0 end.

Definition lag (s : Store) (topic : gostring) (pid committed : Z) : Z := Z.max 0 (i64 (log_end s topic pid - committed)).

(** What a user sees of a group's offsets. *)
Definition visible_offsets (info : GroupInfo) : list (gostring * Z * Z) :=
  mjoin (map (fun x => if sees x.1 then map (fun y => (x.1, y.1, y.2)) (map_to_list x.2) else []) (map_to_list (default ∅ (gin_Offsets info)))).

Definition handleGroups (c : console) : console * outcome cresponse :=
  (c, Ok (CGroups (map (fun info => (info, map (fun x => (x.1.1, x.1.2, lag (cs_store c) x.1.1 x.1.2 x.2)) (visible_offsets info)))
         (filter (fun info => may OpDescribe (mkResource ResourceGroup (gin_Name info)) = true) (ListGroups (cs_gm c)))))).

Definition handleGroupDetail (c : console) (group : gostring) : console * outcome cresponse :=
  (c, Ok (match DescribeGroup (cs_gm c) group with
          | None => CError 404
          | Some info =>
              CGroup info
                (map (fun m => (min_MemberID m, filter (fun x => sees x.1 = true) (default ∅ (min_Assigned m)))) (MembersDetail (cs_gm c) group))
                (map (fun x => mkRow x.1.1 x.1.2 x.2 (log_end (cs_store c) x.1.1 x.1.2) (lag (cs_store c) x.1.1 x.1.2 x.2)) (visible_offsets info))
          end)).

Definition reset_target (p : Partition) (strategy : gostring) (target : Z) : option Z :=
  if bool_decide (strategy = str "to_earliest") then Some (earliestOffsetLocked p) else
  if bool_decide (strategy = str "to_latest") then Some (pt_nextOffset p) else
  if bool_decide (strategy = str "to_offset") then Some target else None.

Definition handleResetGroupOffset (c : console) (now : Z) (group : gostring) (body : option (gostring * Z * gostring * Z)) (crash : option nat)
  : console * outcome cresponse :=
  match body with
  | None => (c, Ok (CError 400))
  | Some (topic, pid, strategy, target) =>
      if bool_decide (topic = []) then (c, Ok (CError 400)) else
      if negb (sees topic) then (c, Ok (CError 404)) else
      match GetPartition (cs_store c) topic pid with
      | None => (c, Ok (CError 404))
      | Some q =>
          match reset_target (ps_log q) strategy target with
          | None => (c, Ok (CError 400))
          | Some off =>
              match ResetOffsets (cs_gm c) now group topic pid off crash with
              | (gm, Ok _) => (recordAudit (with_gm c gm) now principal (str "group.offset.reset") group, Ok (CReset off))
              | (gm, Err _) => (recordAudit (with_gm c gm) now principal (str "group.offset.reset") group, Ok (CError 500))
              | (gm, Panic) => (with_gm c gm, Panic)
              end
          end
      end
  end.

Definition handleDeleteGroup (c : console) (now : Z) (group : gostring) (fault : option nat) : console * outcome cresponse :=
  match DeleteGroup (cs_gm c) group fault with
  | (gm, Ok _) => (recordAudit (with_gm c gm) now principal (str "group.delete") group, Ok CDone)
  | (gm, Err _) => (recordAudit (with_gm c gm) now principal (str "group.delete") group, Ok (CError 409))
  | (gm, Panic) => (with_gm c gm, Panic)
  end.

Definition handleExportGroupOffsets (c : console) (group : gostring) : console * outcome cresponse :=
  (c, Ok (if GroupExists (cs_gm c) group
          then COffsets (filter (fun x => sees x.1 = true) (default ∅ (GroupOffsets (os_offsets (gm_offsets (cs_gm c))) group)))
          else CError 404)).

(** Rows of topic, partition and offset; one without a topic is skipped. *)
Fixpoint apply_rows (c : console) (now : Z) (group : gostring) (rows : list (gostring * Z * Z)) (applied : Z) : console * outcome cresponse :=
  match rows with
  | [] => (c, Ok (CApplied applied))
  | (topic, pid, off) :: rows =>
      if bool_decide (topic = []) || bool_decide (GetPartition (cs_store c) topic pid = None) then apply_rows c now group rows applied else
      match ResetOffsets (cs_gm c) now group topic pid off None with
      | (gm, Ok _) => apply_rows (with_gm c gm) now group rows (applied + 1)
      | (gm, Err _) => (with_gm c gm, Ok (CError 500))
      | (gm, Panic) => (with_gm c gm, Panic)
      end
  end.

Definition handleImportGroupOffsets (c : console) (now : Z) (group : gostring) (body : option (list (gostring * Z * Z))) : console * outcome cresponse :=
  match body with
  | None | Some [] => (c, Ok (CError 400))
  | Some rows =>
      if forallb (fun x => bool_decide (x.1.1 = []) || sees x.1.1) rows then apply_rows c now group rows 0 else (c, Ok (CError 403))
  end.

(** ** Rules *)

Definition handleListACLs (c : console) : console * outcome cresponse :=
  (c, Ok (CRules (sort_by ru_Principal (sort_by ru_ResourceName (rs_rules (cs_acl c)))))).

Definition handleUpsertACL (c : console) (now : Z) (body : option Rule) : console * outcome cresponse :=
  match body with
  | None => (c, Ok (CError 400))
  | Some r =>
      if bool_decide (ru_Principal r = []) || bool_decide (ru_ResourceName r = []) then (c, Ok (CError 400)) else
      match Upsert (cs_acl c) r with
      | (acl, Ok _) => (recordAudit (with_acl c acl) now principal (str "acl.update") (ru_ResourceName r), Ok CDone)
      | (acl, Err _) => (with_acl c acl, Ok (CError 400))
      | (acl, Panic) => (with_acl c acl, Panic)
      end
  end.

Definition handleDeleteACL (c : console) (now : Z) (body : option Rule) : console * outcome cresponse :=
  match body with
  | None => (c, Ok (CError 400))
  | Some r =>
      match Delete (cs_acl c) (ru_Principal r) (ru_ResourceType r) (ru_ResourceName r) with
      | (acl, Ok _) => (recordAudit (with_acl c acl) now principal (str "acl.delete") (ru_ResourceName r), Ok CDone)
      | (acl, Err _) => (with_acl c acl, Ok (CError 500))
      | (acl, Panic) => (with_acl c acl, Panic)
      end
  end.
End handlers.
