(* ===== verification/WebSearch.v ===== *)
(** * Searching messages in the console (internal/web/admin.go)

    The scan reads page after page, filters, and moves on behind its last match or
    behind the page. Whatever the pages are, nothing between the offset it was given
    and the offset it returns is missed, and it ends. *)

From stdpp Require Import prelude countable strings gmap list.
From Stdlib Require Import ZArith Lia Sorted.
From S2P Require Import Prelude GoStrings GoCrypto GoJson GoBinary Wire RecordBatch Index Segment SegmentOps Partition PartitionOps.
From S2P Require Import Compaction CompactionProps CompactionWriter Idempotence Store Authz OffsetStore Group Broker BrokerProps OneRecord WebTopics.

Definition before (a b : messageRecord) : Prop := mr_Offset a < mr_Offset b.

(** The matching records from offset [a] to before offset [b]. *)
Definition found_in (q : criteria) (a b : Z) (R : list messageRecord) : list messageRecord :=
  filter (fun r => (a <= mr_Offset r < b) /\ matches q r = true) R.

Definition from (q : criteria) (a : Z) (r : messageRecord) : Prop := a <= mr_Offset r /\ matches q r = true.

#[global] Instance from_dec q a r : Decision (from q a r).
Proof. unfold from. apply _. Defined.

(** ** Lists of records in order *)

Lemma filter_none {B} (P : B -> Prop) `{!forall x, Decision (P x)} (l : list B) : Forall (fun x => ~ P x) l -> filter P l = [].
Proof. induction 1 as [|x l Hx _ IH]; [done|]. by rewrite filter_cons_False. Qed.

Lemma filter_every {B} (P : B -> Prop) `{!forall x, Decision (P x)} (l : list B) : Forall P l -> filter P l = l.
Proof. induction 1 as [|x l Hx _ IH]; [done|]. by rewrite filter_cons_True, IH. Qed.

Lemma found_low q a b R : Forall (fun r => mr_Offset r < a) R -> found_in q a b R = [].
Proof. intros H. apply filter_none. eapply Forall_impl; [exact H|]. cbn. lia. Qed.

Lemma found_high q a b R : Forall (fun r => b <= mr_Offset r) R -> found_in q a b R = [].
Proof. intros H. apply filter_none. eapply Forall_impl; [exact H|]. cbn. lia. Qed.

Lemma found_app q a b R S : found_in q a b (R ++ S) = found_in q a b R ++ found_in q a b S.
Proof. apply filter_app. Qed.

Lemma found_from q a b c R : a <= b -> Forall (fun r => b <= mr_Offset r) R -> found_in q a c R = found_in q b c R.
Proof.
  intros Hab. induction 1 as [|r R Hr _ IH]; [done|]. unfold found_in in *. destruct (decide (mr_Offset r < c /\ matches q r = true)) as [[]|Hn].
  - rewrite !filter_cons_True by (split; [lia|done]). by rewrite IH.
  - rewrite !filter_cons_False by (intros [? ?]; apply Hn; split; [lia|done]). by rewrite IH.
Qed.

Lemma found_split q a b c R : StronglySorted before R -> a <= b <= c -> found_in q a c R = found_in q a b R ++ found_in q b c R.
Proof.
  intros Hs Hle. induction Hs as [|r R Hs IH Hr]; [done|]. destruct (decide (mr_Offset r < b)) as [Hlt|Hge].
  - assert (found_in q b c (r :: R) = found_in q b c R) as -> by (unfold found_in; rewrite filter_cons_False; [done|lia]).
    unfold found_in in *.
    destruct (decide (a <= mr_Offset r /\ matches q r = true)) as [[]|Hn].
    + rewrite !filter_cons_True by (split; [lia|done]). by rewrite IH.
    + rewrite !filter_cons_False by (intros [? ?]; apply Hn; split; [lia|done]). by rewrite IH.
  - assert (Forall (fun r => b <= mr_Offset r) (r :: R)) as Hall.
    { constructor; [lia|]. eapply Forall_impl; [exact Hr|]. unfold before. cbn. lia. }
    rewrite (found_high q a b (r :: R)) by done. cbn [app]. apply found_from; [lia|done].
Qed.

Lemma sorted_app_inv R S : StronglySorted before (R ++ S) -> StronglySorted before R /\ StronglySorted before S /\
  forall a b, a ∈ R -> b ∈ S -> before a b.
Proof.
  induction R as [|r R IH]; cbn; [intros H; split_and!; [constructor|done|intros a b Ha; by apply elem_of_nil in Ha]|].
  intros H. apply StronglySorted_inv in H as [Hs Hf]. destruct (IH Hs) as (H1 & H2 & H3).
  rewrite Forall_app in Hf. destruct Hf as [Hf1 Hf2]. split_and!; [by constructor|done|].
  intros a b [->|Ha]%elem_of_cons Hb; [rewrite Forall_forall in Hf2; by apply Hf2|by apply H3].
Qed.

(** The records of a list in order that come up to the last of the first ones. *)
Lemma filter_upto F G g : StronglySorted before (F ++ G) -> list.last F = Some g -> filter (fun r => mr_Offset r < mr_Offset g + 1) (F ++ G) = F.
Proof.
  intros Hs Hl. destruct (sorted_app_inv _ _ Hs) as (HF & _ & Hfg). rewrite last_Some in Hl. destruct Hl as [F' ->].
  rewrite filter_app, (filter_none _ G), app_nil_r.
  2: { apply Forall_forall. intros x Hx. specialize (Hfg g x). unfold before in Hfg.
       assert (mr_Offset g < mr_Offset x); [apply Hfg; [apply elem_of_app; right; by left|done]|lia]. }
  apply filter_every. apply Forall_forall. intros x Hx. apply elem_of_app in Hx as [Hx|Hx%list_elem_of_singleton]; [|subst; lia].
  destruct (sorted_app_inv _ _ HF) as (_ & _ & H'). specialize (H' x g Hx). unfold before in H'.
  assert (mr_Offset x < mr_Offset g); [apply H'; by left|lia].
Qed.

(** ** A page *)

Lemma scan_page_spec q limit next P found n :
  zlen found < limit ->
  (scan_page q limit next P found n).1 = found ++ take (Z.to_nat (limit - zlen found)) (filter (from q next) P).
Proof.
  revert found n. induction P as [|r P IH]; intros found n Hl; cbn [scan_page]; [by rewrite filter_nil, take_nil, app_nil_r|].
  destruct ((mr_Offset r <? next) || negb (matches q r)) eqn:E.
  - rewrite IH by done. rewrite filter_cons_False; [done|]. intros [H1 H2]. apply orb_true_iff in E as [E%Z.ltb_lt|E]; [lia|].
    by rewrite H2 in E.
  - apply orb_false_iff in E as [E1%Z.ltb_ge E2%negb_false_iff]. rewrite filter_cons_True by done.
    destruct (Z.to_nat (limit - zlen found)) as [|k] eqn:Ek; [lia|]. cbn [take]. autorewrite with zlen.
    destruct (limit <=? zlen found + (1 + 0)) eqn:El.
    + apply Z.leb_le in El. assert (k = 0%nat) as -> by lia. done.
    + apply Z.leb_gt in El. rewrite IH by (autorewrite with zlen; lia). rewrite <- app_assoc. cbn [app]. do 3 f_equal.
      autorewrite with zlen. lia.
Qed.

(** What a round finds in its page, and where it goes on. *)
Lemma page_step q limit next R R1 P R2 found start n :
  StronglySorted before R -> R = R1 ++ P ++ R2 -> Forall (fun r => mr_Offset r < next) R1 -> start <= next ->
  found = found_in q start next R -> zlen found < limit ->
  let found' := (scan_page q limit next P found n).1 in
  zlen found' <= limit /\
  (zlen found' = zlen found -> found' = found /\
     forall last, list.last P = Some last -> next <= mr_Offset last -> found = found_in q start (mr_Offset last + 1) R) /\
  (zlen found' <> zlen found -> exists last, list.last found' = Some last /\ last ∈ P /\ next <= mr_Offset last /\
     found' = found_in q start (mr_Offset last + 1) R).
Proof.
  intros Hs HR H1 Hle Hf Hl found'. unfold found'. rewrite scan_page_spec by done. set (F := filter (from q next) P).
  set (k := Z.to_nat (limit - zlen found)). rewrite zlen_app. clear found'.
  assert (StronglySorted before P /\ forall a b, a ∈ P -> b ∈ R2 -> before a b) as [HsP H12].
  { rewrite HR in Hs. destruct (sorted_app_inv _ _ Hs) as (_ & H2 & _). by destruct (sorted_app_inv _ _ H2) as (? & _ & ?). }
  assert (forall b, (exists last, last ∈ P /\ b = mr_Offset last + 1) -> next <= b -> found_in q start b R = found ++ found_in q next b P) as Hext.
  { intros b (last & Hlast & ->) Hb. rewrite (found_split q start next) by (done || lia). rewrite <- Hf. f_equal.
    rewrite HR, !found_app, (found_low q next _ R1), (found_high q next _ R2), app_nil_r; [done| |done].
    apply Forall_forall. intros x Hx. specialize (H12 last x Hlast Hx). unfold before in H12. lia. }
  assert (zlen (take k F) <= limit - zlen found) as Hk by (unfold k, zlen in *; rewrite length_take; lia).
  assert (0 < k)%nat as Hk0 by (unfold k; lia). clearbody k. pose proof (zlen_nonneg (take k F)). split_and!; [lia| |].
  - intros E. assert (take k F = []) as Et by (apply nil_length_inv; unfold zlen in *; lia). split; [by rewrite Et, app_nil_r|].
    intros last Hlast Hn. assert (F = []) as EF. { destruct F as [|x F'], k; [done|done|lia|done]. }
    rewrite Hext; [|exists last; split; [|done]; apply last_Some in Hlast as [? ->]; apply elem_of_app; right; by left|lia].
    replace (found_in q next (mr_Offset last + 1) P) with (filter (fun r => mr_Offset r < mr_Offset last + 1) F).
    + rewrite EF. cbn. by rewrite app_nil_r.
    + unfold F, found_in. rewrite list_filter_filter. apply list_filter_iff. unfold from. intros. naive_solver lia.
  - intros E. destruct (list.last (take k F)) as [g|] eqn:Eg; [|apply last_None in Eg; rewrite Eg, zlen_nil in E; lia].
    assert (g ∈ F) as HgF. { apply last_Some in Eg as [l' El]. rewrite <- (take_drop k F), El. do 2 (apply elem_of_app; try (left; apply elem_of_app; right; by left)). }
    apply list_elem_of_filter in HgF as [[Hg1 Hg2] HgP]. exists g. split_and!; try done.
    + by rewrite last_app, Eg.
    + rewrite Hext; [|by exists g|lia]. f_equal. rewrite <- (filter_upto (take k F) (drop k F) g); [| |done].
      * rewrite take_drop. unfold F, found_in. rewrite list_filter_filter. apply list_filter_iff. unfold from. intros. naive_solver lia.
      * rewrite take_drop. unfold F. clear -HsP. induction HsP as [|r P HsP IH Hr]; [constructor|].
        rewrite filter_cons. case_decide; [|done]. constructor; [done|]. apply Forall_forall. intros x [_ Hx]%list_elem_of_filter.
        rewrite Forall_forall in Hr. by apply Hr.
Qed.

(** ** The log *)

(** The records of a batch are numbered in order within it. *)
Definition numbered (d : RecordBatch) : Prop :=
  StronglySorted (fun a b => rec_OffsetDelta a < rec_OffsetDelta b) (rb_Records d) /\
  Forall (fun r => 0 <= rec_OffsetDelta r <= rb_LastOffsetDelta d) (rb_Records d).

Section log.
Context (topic : gostring) (pid : Z).

Definition log_messages (ds : list RecordBatch) : list messageRecord := mjoin (map (batch_messages topic pid) ds).

Lemma log_messages_cons d ds : log_messages (d :: ds) = batch_messages topic pid d ++ log_messages ds.
Proof. apply mjoin_cons. Qed.

Lemma log_messages_app ds es : log_messages (ds ++ es) = log_messages ds ++ log_messages es.
Proof. unfold log_messages. by rewrite map_app, join_app. Qed.

Lemma batch_range d :
  numbered d -> 0 <= rb_BaseOffset d -> rb_BaseOffset d + rb_LastOffsetDelta d < 4611686018427387904 ->
  StronglySorted before (batch_messages topic pid d) /\
  Forall (fun r => rb_BaseOffset d <= mr_Offset r <= rb_BaseOffset d + rb_LastOffsetDelta d) (batch_messages topic pid d).
Proof.
  intros [Hs Hf] H0 Hl. unfold batch_messages.
  assert (forall r, r ∈ rb_Records d -> i64 (rb_BaseOffset d + rec_OffsetDelta r) = rb_BaseOffset d + rec_OffsetDelta r) as Ho.
  { intros r Hr. rewrite Forall_forall in Hf. specialize (Hf r Hr). cbn in Hf. apply i64_id. mlia. }
  induction Hs as [|r rs Hs IH Hr]; cbn [map]; [split; constructor|]. apply Forall_cons in Hf as [Hfr Hf].
  destruct IH as [IH1 IH2]; [done|intros x Hx; apply Ho; by right|]. split; constructor; try done.
  - apply Forall_forall. intros x Hx. apply list_elem_of_fmap in Hx as (y & -> & Hy). unfold before. cbn.
    rewrite (Ho y) by (by right). rewrite (Ho r) by (by left). rewrite Forall_forall in Hr. specialize (Hr y Hy). cbn in Hr. lia.
  - cbn. rewrite Ho by (by left). lia.
Qed.

(** A log is in order. *)
Lemma log_sorted o bs e ds :
  Forall wf_raw bs -> chain o bs e -> Forall2 decodes_as bs ds -> Forall numbered ds -> 0 <= o -> e <= 4611686018427387904 ->
  StronglySorted before (log_messages ds) /\ Forall (fun r => o <= mr_Offset r < e) (log_messages ds).
Proof.
  intros Hw Hc Hd. revert o Hc. induction Hd as [|b d bs ds Hb Hd IH]; intros o Hc Hn H0 He; [split; constructor|].
  apply Forall_cons in Hw as [Hwb Hw]. apply Forall_cons in Hn as [Hnd Hn]. destruct Hc as [Hbase Hc].
  pose proof Hwb as (_ & _ & _ & Hlod). pose proof (chain_mono _ _ _ Hw Hc) as Hm.
  destruct (decodes_fields _ _ Hb) as [E1 E2]. rewrite Hbase in E1.
  destruct (batch_range d Hnd) as [B1 B2]; [lia|lia|]. rewrite E1, E2 in B2.
  destruct (IH Hw _ Hc Hn) as [IH1 IH2]; [lia|done|]. rewrite log_messages_cons. split.
  - clear -B1 B2 IH1 IH2. induction B1 as [|r R HR IHR Hr]; [done|]. apply Forall_cons in B2 as [Hr2 B2]. cbn [app]. constructor; [by apply IHR|].
    apply Forall_app. split; [done|]. eapply Forall_impl; [exact IH2|]. unfold before. cbn. lia.
  - apply Forall_app. split; eapply Forall_impl; [exact B2| |exact IH2|]; cbn; lia.
Qed.

Context (remote : option (gostring -> outcome (list byte))) (p : Partition) (bss : list (list (list byte))) (ds : list RecordBatch).
Context (Hp : pt_inv p bss) (Hd : Forall2 decodes_as (mjoin bss) ds) (Hn : Forall numbered ds).
Context (Hend : pt_nextOffset p <= 4611686018427387904) (Hfit : fits 2052096 (orderedSegmentsLocked p)).

Lemma log_order :
  StronglySorted before (log_messages ds) /\ Forall (fun r => 0 <= mr_Offset r < pt_nextOffset p) (log_messages ds).
Proof.
  destruct (segs_inv_chain _ _ _ _ (pi_segs _ _ Hp)) as [Hw Hc]. pose proof (earliest_range _ _ Hp) as [He0 He1].
  destruct (log_sorted _ _ _ _ Hw Hc Hd Hn) as [H1 H2]; [lia|done|]. split; [done|]. eapply Forall_impl; [exact H2|]. cbn. lia.
Qed.

(** A page is a piece of the log, and what comes before it lies before the offset. *)
Lemma page_of_log next mx :
  earliestOffsetLocked p <= next < pt_nextOffset p -> 0 < mx <= 2052096 ->
  exists raw R1 P R2, Read remote p next mx = (p, Ok raw, pt_highWatermark p) /\ zlen raw <> 0 /\
    decodeRecords topic pid raw = Ok P /\ log_messages ds = R1 ++ P ++ R2 /\ Forall (fun r => mr_Offset r < next) R1.
Proof.
  intros Hnext Hmx. destruct (segs_inv_chain _ _ _ _ (pi_segs _ _ Hp)) as [Hw Hc]. pose proof (earliest_range _ _ Hp) as [He0 He1].
  destruct (chain_split_at _ _ _ next Hw Hc Hnext) as (bs1 & bs2 & Ej & Hne & Hb1 & Hb2).
  destruct (read_at remote p bss bs1 bs2 next mx Hp Ej Hb1 Hb2 Hnext Hne) as (k & Hk & Hread); [lia|eapply fits_le; [|done]; lia|].
  rewrite Ej in Hd, Hw, Hc. apply Forall2_app_inv_l in Hd as (ds1 & ds2 & Hd1 & Hd2 & Eds).
  apply Forall_app in Hw as [Hw1 Hw2]. apply chain_app in Hc as (m & Hc1 & Hc2). pose proof (chain_mono _ _ _ Hw2 Hc2).
  rewrite Eds in Hn. apply Forall_app in Hn as [Hn1 Hn2].
  exists (mjoin (take k bs2)), (log_messages ds1), (log_messages (take k ds2)), (log_messages (drop k ds2)). split_and!; [done| | | |].
  - destruct k, bs2 as [|b bs2]; [lia|lia|done|]. cbn [take]. rewrite mjoin_cons, zlen_app. apply Forall_cons in Hw2 as [(H61 & _) _].
    match goal with |- zlen b + zlen ?x <> 0 => pose proof (zlen_nonneg x) end. lia.
  - unfold decodeRecords. rewrite (decode_batches_spec _ _ (take k ds2)); [done| |by apply Forall2_take|lia]. by apply Forall_take.
  - rewrite Eds, <- (take_drop k ds2) at 1. by rewrite !log_messages_app.
  - destruct (log_sorted _ _ _ _ Hw1 Hc1 Hd1 Hn1) as [_ Hr]; [lia|lia|]. pose proof (chain_end_le _ _ _ next Hw1 Hc1 ltac:(lia) Hb1). eapply Forall_impl; [exact Hr|]. cbn. lia.
Qed.

(** What the result of a scan from [start] says. *)
Record complete (q : criteria) (limit start : Z) (r : search_result) : Prop := {
  co_next : start <= sf_next r;
  co_records : sf_records r = found_in q start (sf_next r) (log_messages ds);
  co_limit : zlen (sf_records r) <= limit;
  co_all : sf_truncated r = false -> zlen (sf_records r) = limit \/ pt_nextOffset p <= sf_next r }.

Lemma console_search_loop fuel gone late q limit budget start found next scanned bytesRead :
  0 < limit <= 500 -> earliestOffsetLocked p <= start <= next ->
  found = found_in q start next (log_messages ds) -> zlen found <= limit -> (Z.to_nat (pt_nextOffset p - next) < fuel)%nat ->
  exists r, search_loop remote fuel gone late q topic pid limit budget p found next scanned bytesRead = (p, Ok r) /\ complete q limit start r.
Proof.
  intros Hlim. revert found next scanned bytesRead. induction fuel as [|fuel IH]; intros found next scanned bytesRead Hs Hf Hl Hfuel; [lia|].
  cbn [search_loop]. destruct (zlen found <? limit) eqn:E1; cbn [andb negb].
  2: { eexists. split; [reflexivity|]. apply Z.ltb_ge in E1. split; cbn; [lia|done|done|]. intros _. left. lia. }
  destruct (next <? pt_nextOffset p) eqn:E2; cbn [andb negb].
  2: { eexists. split; [reflexivity|]. apply Z.ltb_ge in E2. split; cbn; [lia|done|done|]. intros _. by right. }
  apply Z.ltb_lt in E1, E2. assert (forall reason, complete q limit start (mkFound found scanned next bytesRead true reason)) as Hstop by (split; cbn; done || lia).
  destruct (gone fuel); [by eexists|]. destruct (budget <=? bytesRead); [by eexists|]. destruct (late fuel); [by eexists|].
  destruct (page_of_log next (limit * 4096 + 4096)) as (raw & R1 & P & R2 & -> & Hraw & -> & ER & H1); [lia|lia|].
  rewrite (proj2 (Z.eqb_neq _ _)) by done. destruct log_order as [Hsort Hrange].
  destruct (page_step q limit next (log_messages ds) R1 P R2 found start scanned Hsort ER H1) as (Hb & Hsame & Hmore); [lia|done|done|].
  destruct (scan_page q limit next P found scanned) as [found' scanned']. cbn [fst] in *.
  assert (forall x, x ∈ P -> 0 <= mr_Offset x < pt_nextOffset p) as HP.
  { intros x Hx. rewrite Forall_forall in Hrange. apply Hrange. rewrite ER. apply elem_of_app. right. apply elem_of_app. by left. }
  destruct (zlen found' =? zlen found) eqn:E3.
  - apply Z.eqb_eq in E3. destruct (Hsame E3) as [-> Hnext]. destruct (list.last P) as [lastr|] eqn:El.
    + assert (lastr ∈ P) as HlP by (apply last_Some in El as [? ->]; apply elem_of_app; right; by left). pose proof (HP _ HlP).
      destruct (mr_Offset lastr <=? next) eqn:E4.
      * eexists. split; [reflexivity|]. rewrite (proj2 (Z.ltb_lt _ _)) by done. split; cbn; done || lia.
      * apply Z.leb_gt in E4. rewrite i64_id by mlia. apply IH; [lia| |done|lia]. apply Hnext; [done|lia].
    + rewrite (proj2 (Z.leb_le _ _)) by (pose proof (earliest_range _ _ Hp); lia). eexists. split; [reflexivity|].
      rewrite (proj2 (Z.ltb_lt _ _)) by done. split; cbn; done || lia.
  - apply Z.eqb_neq in E3. destruct (Hmore E3) as (g & Eg & HgP & Hg & Ef). rewrite Eg. pose proof (HP _ HgP). rewrite i64_id by mlia.
    apply IH; [lia|done|done|lia].
Qed.
End log.

(** C38: a search misses nothing. Take a partition in local segments, each of which
    32 bits can measure together with a page, whose batches decode and number their
    records in order within the batch, below offset 2^62. A search in it answers,
    whatever its pages, budgets and interruptions are, with exactly the matching
    records from where it starts up to the offset it says to go on at, in order and
    at most as many as asked for. If it does not call itself truncated, it has as
    many as asked for or has reached the end of the log. *)
Theorem search_misses_nothing remote c topic q gone late ps bss ds :
  let pid := i32 (Atoi_value (sq_partition q)) in
  let p := ps_log ps in
  let limit := search_limit (sq_limit q) in
  GetPartition (cs_store c) topic pid = Some ps ->
  pt_inv p bss -> Forall2 decodes_as (mjoin bss) ds -> Forall numbered ds ->
  pt_nextOffset p <= 4611686018427387904 -> fits 2052096 (orderedSegmentsLocked p) ->
  exists c' r, handleSearchMessages remote c topic q true gone late = (c', Ok (CFound r)) /\
    GetPartition (cs_store c') topic pid = Some ps /\
    complete topic pid p ds (mkCriteria (sq_search q) (Atoi_value (sq_from q)) (Atoi_value (sq_to q))) limit (search_start p q limit) r.
Proof.
  intros pid p limit Hg Hp Hd Hn Hend Hfit. unfold handleSearchMessages. fold pid limit. rewrite Hg. cbn [negb]. fold p.
  set (crit := mkCriteria _ _ _). set (start := search_start p q limit).
  assert (0 < limit <= 500) as Hlim.
  { unfold limit, search_limit. destruct (Atoi_value (sq_limit q) <=? 0) eqn:E1, (500 <? Atoi_value (sq_limit q)) eqn:E2; cbn [orb]; lia. }
  assert (earliestOffsetLocked p <= start) as Hst by (unfold start, search_start; lia).
  destruct (console_search_loop topic pid remote p bss ds Hp Hd Hn Hend Hfit (S (Z.to_nat (pt_nextOffset p - start))) gone late crit limit
    (budgetInt64 (sq_budget q) searchDefaultByteBudget searchMaxByteBudget) start [] start 0 0) as (r & -> & Hc); [done|lia| |rewrite zlen_nil; lia|lia|].
  { symmetry. unfold found_in. apply filter_none. apply Forall_forall. intros x _. lia. }
  cbn [obind]. eexists _, _. split; [reflexivity|]. split.
  - cbn [cs_store with_topic_store]. rewrite (put_get_same _ _ _ _ ps) by done. unfold p. by destruct ps.
  - unfold final_reason. destruct (sf_truncated r) eqn:Et; [done|]. destruct Hc as [H1 H2 H3 H4]. split; cbn; try done. intros _. by apply H4.
Qed.

(** ** Examples *)

Definition search_demo_message (key value : gostring) : message := mkMsg key (Some value) [].

Definition search_demo_console : console :=
  mkBack (CreateTopic demo_store (fun _ => empty_dir) (str "orders") 1).1 (NewGroupManager new_store 1 [] 9092 30000) ∅ (mkRules [] None false) [].

Definition search_demo_posted (l : list message) : console :=
  fold_left (fun c m => (handlePostMessage (fun _ _ => empty_dir) c 1000000 (str "orders") (Some (m, None))).1) l search_demo_console.

Definition search_demo_log : console :=
  search_demo_posted [search_demo_message (str "k1") (str "Apple"); search_demo_message (str "k2") (str "pear"); search_demo_message (str "k3") (str "apple pie")].

Definition search_demo_query (search : gostring) : search_query := mkSearch [] [] [] search [] [] [].

Definition search_answer (c : console) (search : gostring) : option (list Z * Z * bool * stop_reason) :=
  match (handleSearchMessages None c (str "orders") (search_demo_query search) true (fun _ => false) (fun _ => false)).2 with
  | Ok (CFound r) => Some (map mr_Offset (sf_records r), sf_next r, sf_truncated r, sf_reason r)
  | _ => None
  end.

(** A search that ends on a record that does not match calls itself truncated: the
    last page brings it no further than the offset it read from. *)
Lemma search_stops_early :
  search_answer search_demo_log (str "APPLE") = Some ([0; 2], 3, false, ReachedEnd) /\
  search_answer search_demo_log (str "pear") = Some ([1], 2, true, NoProgress).
Proof. vm_compute. split; reflexivity. Qed.

Definition search_demo_store : Store :=
  put_partition (cs_store search_demo_console) (str "orders") 0 (mkPS demo_partition ∅).

Definition search_demo_batches : list RecordBatch := decoded (mjoin demo_segments).

Lemma search_demo_decodes : Forall2 decodes_as (mjoin demo_segments) search_demo_batches.
Proof. apply decoded_all. vm_compute. reflexivity. Qed.

Lemma numbered_pair d : map rec_OffsetDelta (rb_Records d) = [0; 1] /\ rb_LastOffsetDelta d = 1 -> numbered d.
Proof.
  unfold numbered. intros [H ->]. destruct (rb_Records d) as [|a [|b [|c l]]]; [done|done| |done]. injection H as E1 E2.
  split; repeat constructor; lia.
Qed.

Lemma search_demo_numbered : Forall numbered search_demo_batches.
Proof.
  assert (Forall (fun x => x = ([0; 1], 1)) ((fun d => (map rec_OffsetDelta (rb_Records d), rb_LastOffsetDelta d)) <$> search_demo_batches)) as H.
  { assert (((fun d => (map rec_OffsetDelta (rb_Records d), rb_LastOffsetDelta d)) <$> search_demo_batches) = replicate 3 ([0; 1], 1)) as ->
      by (vm_compute; reflexivity). repeat constructor. }
  rewrite Forall_fmap in H. eapply Forall_impl; [exact H|]. cbn. intros d [= E1 E2]. by apply numbered_pair.
Qed.

Definition search_demo_ps : PartitionState := mkPS demo_partition ∅.

Lemma search_demo_holds :
  GetPartition search_demo_store (str "orders") (i32 (Atoi_value [])) = Some search_demo_ps /\
  pt_nextOffset demo_partition <= 4611686018427387904 /\ fits 2052096 (orderedSegmentsLocked demo_partition).
Proof.
  split_and!; [vm_compute; reflexivity|vm_compute; discriminate|]. apply (bool_decide_eq_true_1 (Forall _ _)). vm_compute. reflexivity.
Qed.

Lemma search_misses_nothing_witness :
  let q := search_demo_query [] in
  let limit := search_limit (sq_limit q) in
  exists c' r, handleSearchMessages None (with_topic_store search_demo_console search_demo_store) (str "orders") q true
      (fun _ => false) (fun _ => false) = (c', Ok (CFound r)) /\
    complete (str "orders") (i32 (Atoi_value (sq_partition q))) (ps_log search_demo_ps) search_demo_batches
      (mkCriteria (sq_search q) (Atoi_value (sq_from q)) (Atoi_value (sq_to q))) limit (search_start (ps_log search_demo_ps) q limit) r.
Proof.
  intros q limit.
  destruct (search_misses_nothing None (with_topic_store search_demo_console search_demo_store) (str "orders") q
    (fun _ => false) (fun _ => false) search_demo_ps demo_segments search_demo_batches) as (c' & r & H1 & _ & H2).
  - exact (proj1 search_demo_holds).
  - exact demo_partition_inv.
  - exact search_demo_decodes.
  - exact search_demo_numbered.
  - exact (proj1 (proj2 search_demo_holds)).
  - exact (proj2 (proj2 search_demo_holds)).
  - exists c', r. split; [exact H1|exact H2].
Defined.
